(* ===== verification/_CoqProject ===== *)
-Q . S2P
Prelude.v
Hoare.v
PyVal.v
PyStr.v
JsonText.v
FileStore.v
FdirEvents.v
LadderPolicy.v
World.v
EncoderAdmin.v
SystemMode.v
ModeEnforcer.v
Quiesce.v
Persistence.v
JanusSummary.v
Executor.v
Ladder.v
Watchdogs.v
Thermal.v
Allocator.v
BindingModels.v
TopologyStore.v
Nodes.v
Bindings.v
TopologyCalls.v
TopologyTheorems.v
Journal.v
BindingProvision.v
RemoteMonitor.v
Drift.v
Firewall.v
Fleet.v
RuntimeEnv.v
RuntimeSchema.v
RuntimeBuilder.v
RuntimeRevisions.v
RuntimeValidator.v
RuntimeApply.v
RuntimeRecovery.v
RateLimit.v
Access.v
SecretStore.v
JanusJcfg.v
NatConfig.v
AuditLog.v
HostTools.v
AdminActions.v
JanusAdmin.v
MountpointAdmin.v
Lifecycle.v
BindingRows.v
NodeTransport.v
JcfgRender.v
AdminConfig.v
HostKeys.v
Console.v
ConsoleSamples.v
NodeOps.v
UseCases.v
UseCaseTheorems.v
TextRoom.v
BringupHost.v
BringupChecks.v
BringupProbes.v
BringupApi.v
BringupSamples.v
DepthEvents.v
NodeAgent.v
