(* ===== verification/Prelude.v ===== *)
(** * janus-camera-stack, verified: root file

    The repository is the control plane of a camera appliance: a FastAPI process (app/)
    on a gateway that serves camera streams through the Janus WebRTC server, watches
    their health, recovers them, holds the topology of remote camera hosts and edits the
    configuration of the encoder, of Janus and of itself; with it come the privileged
    host tools it calls (host_infra/). This development models the program's own logic
    and proves what makes it correct. This file is the prelude every other file loads.

    ** How the program is put together

    - Fault detection and recovery (FDIR). Two watchdogs observe the stream; a stale
      stream escalates on the recovery ladder, which picks an action (restart the
      encoder, Janus, the pipeline, reboot), the executor performs it, the operating
      mode is lowered and the mode enforcer turns the mode into commands. A quiesce gate
      keeps the watchdogs quiet during known-disruptive actions; the ladder's state and
      the reboot counter survive a restart on disk.
    - Topology. Remote camera hosts (nodes) and the bindings of their streams are a JSON
      document under a file lock; local mountpoints and ports come from the allocator's
      own file. From them derive the Janus mountpoints, the firewall rules, the drift
      report, the fleet plan and the remote monitor. Long operations on a node are
      journalled.
    - Configuration. The runtime configuration is a schema over environment variables: a
      patch is validated, journalled as a revision, confirmed by the hash of what it
      changes and of the files it was validated against, written to rs-runtime.env and
      settled at the next boot after a crash. The secrets file, the NAT configuration
      and janus.jcfg are each rewritten whole under a lock.
    - Access. Operators pass the admin gate (token or session), viewers the viewer gate;
      token buckets limit the calls of a client; what administrators do is audited.
    - Console. The admin console's use cases compose all of this: they register nodes,
      pin their host keys, provision them over SSH, activate and stop their streams and
      run long operations in threads. On the node, a small agent restarts and tunes the
      streams. The pipelines of the gateway's own sensors are brought up and down by the
      sensor lifecycle.
    - Data channel. The text-room relay takes the browsers' messages from Janus to their
      sinks; the answers come back through the event stream of the browser that asked.
    - Camera bring-up. A layer of its own checks the camera host, guarantees what the
      checks establish, and repairs what fixers can repair.

    ** Files of the development and the code they model

    Shared: Prelude (exceptions and results, the state and error monad [M], tactics,
    generic lemmas), PyVal (dicts and JSON documents), PyStr (string methods), JsonText
    (the canonical [json.dumps] text), FileStore (app/services/store_safety.py).

    FDIR: FdirEvents (services/fdir_events.py), LadderPolicy (recovery_policy.py,
    recovery_state_machine.py), World (the state of all FDIR components, the
    environment, [system.run], [fdir_events.emit], [core/settings.py]), EncoderAdmin
    (sensor_lifecycle/encoder_admin.py, the encoder's commands), SystemMode
    (system_mode.py), ModeEnforcer (mode_enforcer.py), Quiesce (fdir_quiesce.py),
    Persistence (recovery_persistence.py), JanusSummary (janus.py), Executor
    (recovery_executor.py), Ladder (recovery_ladder.py), Watchdogs (watchdogs.py),
    Thermal (thermal.py).

    Topology: Allocator (mountpoint_allocator.py), BindingModels, TopologyStore, Nodes,
    Bindings (the package stream_binding_store/), TopologyCalls and TopologyTheorems
    (sequences of calls and the abstract specification), Journal (operation_journal.py,
    node_operation_runner.py), BindingProvision (binding_provision.py, node_client.py),
    RemoteMonitor (remote_stream_monitor.py), Drift (reconcile_drift.py), Firewall
    (firewall_sync.py), Fleet (fleet.py).

    Configuration: RuntimeEnv (runtime_env_writer.py), RuntimeSchema
    (config/runtime_schema.py), RuntimeBuilder (runtime_config_builder.py, env_store.py),
    RuntimeRevisions (runtime_revision_store.py), RuntimeValidator
    (runtime_config_validator.py), RuntimeApply and RuntimeRecovery
    (runtime_config_apply.py), SecretStore (secret_store.py), JanusJcfg (janus-admin.py
    and janus-turn-rotator.py of host_infra/roles/janus/files), NatConfig (nat_config.py,
    application/janus_nat/update_nat_config.py and the NAT routes).

    Access: RateLimit (middleware/rate_limit.py), Access (core/admin.py,
    core/session_store.py, core/viewer_auth.py and the session routes), AuditLog
    (audit_log.py, application/audit_view.py), HostTools (encoder-admin.py, camera-admin.py
    and service-admin.py of host_infra), AdminActions (application/services_admin.py,
    application/encoder_admin.py and their adapters), which calls them through sudo,
    JcfgRender (jcfg_renderer.py), AdminConfig (application/config_apply.py,
    config_view.py and routes/admin_config.py), which renders and restarts through both.

    Console and nodes: JanusAdmin and MountpointAdmin (janus_admin.py,
    janus_dashboard_admin.py, application/mountpoint_admin.py), Lifecycle (the package
    sensor_lifecycle/ and tools/sensor_reconcile.py), NodeTransport (ssh_transport.py),
    Console (the state the console shares, with other threads at work on it), NodeOps
    (node_provisioner.py, node_transport.py, the runner's threads), UseCases
    (application/stream_bindings/, node_client.py, routes/stream_bindings/),
    UseCaseTheorems (histories of commands and threads), with the lemmas of BindingRows
    and HostKeys and the sample gateway of ConsoleSamples; NodeAgent
    (host_infra/node-bundle/node-agent/camera-node-agent.py).

    Data channel: TextRoom (textroom_relay.py), DepthEvents (routes/depth_events.py).

    Camera bring-up (camera_bringup/): BringupHost (check.py, fixer.py, safe_mode.py),
    BringupChecks and BringupProbes (checks/, fixers/, signing.py, instance.py),
    BringupApi (api.py, cli.py), BringupSamples (witnesses and what modelling showed).
    Hoare holds the weakest preconditions the newer files are proved with.

    ** How code becomes definitions

    A function that reads or changes state is a computation of the monad [M S] over the
    component's state: it returns a value or raises one of the exceptions of [exn_kind],
    and the state it leaves is kept also when it raises, as Python's is. [except] clauses
    test the class with [instance_of]. Dicts are association lists in insertion order,
    times are rationals ([Q]), integers are unbounded as Python's are. A definition
    carries the name of the function it translates unless that name is taken.

    What the code does not decide is an argument of the model, given as a class whose
    instance every theorem quantifies over: the answers of clocks, commands, probes and
    HTTP peers, indexed by a counter of interactions (Env, NodeEnv, DriftEnv, NatEnv,
    HostEnv, SessionEnv, MonoClock, CameraEnv, AuditEnv, JanusHttp, SshEnv, ConsoleEnv,
    RelayEnv, HubEnv, AgentEnv, BringupEnv, ProbeEnv, LayerEnv,
    ToolEnv, AdminEnv, RenderEnv), randomness (Entropy, Vault), other processes and
    failing system calls (EnvFs, RevFs, and the [f_fault] of a FileStore file, which
    names the system call that fails in an operation on it), third-party code (Pydantic with PydanticLaws,
    Sha, Hmac, FloatRepr, Runner and Filter for iptables) and configuration
    (LimitConfig, RtProc). Where the death of the process matters it is the exception
    [EKilled], which no clause catches: the state left behind is what the next process
    finds.
    A call that holds a lock throughout is one atomic step, so that a sequence of calls
    stands for any interleaving of the threads and processes that share the lock.

    ** What the theorems show

    - FDIR: any interleaving keeps the ladder well-formed (fdir_keeps_ladder_ok), each
      escalation refines the abstract ladder and terminates (escalate_refines,
      escalate_returns), budgets and order are respected (escalation_order), a new
      process resumes where the old one died (restart_resumes_ladder), reboots are
      counted before they happen (reboot_circuit_breaker), Janus is restarted in its order
      (restart_janus_ordered), windows and suppression are bounded
      (quiesce_window_bounded, suppression_bounded), a watchdog asks the ladder once or
      not at all (try_escalate_gated), the mode calls refine the mode automaton
      (mode_calls_refine).
    - Topology: every sequence of calls under any failures keeps slots and windows apart
      (topology_invariant) and refines the abstract store (topology_refines,
      allocator_refines); tokens are kept as long as the secret file can be read
      (tokens_survive); damaged files fail closed (topology_fails_closed); forgetting a
      host forgets all of it (remove_node_forgets); one operation of a node runs at a time
      (one_operation_per_node, begin_spec); the remote monitor acts for remote streams,
      rate limited (monitor_never_acts_locally, alerts_rate_limited), the drift report and
      its convergence mean what they say (no_drift_iff, run_once_asks_for_missing); a
      reconciliation of the firewall never drops a wanted stream nor accepts an unwanted
      packet on its way (firewall_no_drop_window).
    - Configuration: an apply is all or nothing whatever fails and a crash is settled at
      boot (apply_all_or_nothing, crash_then_recovery, recover_on_boot_settles), the
      confirmation binds what it should (diff_hash_binds), the secret store refines a map
      and serves whenever it can (secret_calls_refine), the NAT update accounts for
      what it did and the writers of janus.jcfg that share the lock lose none of each
      other's changes (nat_update_accounted, rotation_loses_no_update); a rendering of
      the templates puts each file in place whole or leaves it (render_all_or_old), and
      the requests about secrets show, log, write and restart only what they may
      (config_requests_confined).
    - Access: nothing but the token opens the first session (no_token_no_admin), the
      audit log keeps its newest entries through its rotations (in AuditLog).
    - Sensors: initialising leaves slot, files and mountpoint consistent
      (initialize_consistent), a stop sticks (stop_sticks), Janus sessions are released
      (janus_sessions_released).
    - Privileges: whatever they are asked, the root tools run programs on the units,
      devices and controls of their allowlists only (host_tools_confined), and the
      dashboard's actions reach the one unit they name or none and are reported done only
      when the command succeeded (admin_ops_confined).
    - Console: every history of commands and threads keeps the topology and the journal
      sound (console_keeps_files) and talks to nodes only under host keys an
      administrator confirmed (only_confirmed_keys); gateway and node agree on the token
      after provisioning and rotation and on the port after an activation
      (provision_agrees, rotation_agrees, activation_agrees); the agent acts for its
      token only (agent_gate) and its tuning reads back (tuning_reads_back).
    - Data channel: a topic's messages are forwarded in order, the newest kept
      (relay_keeps_order), an unlimited topic drains (unlimited_topic_drains), results
      stay in the session that asked (results_stay_in_session).
    - Camera bring-up: what a recovery does and reports (recovery_contract), writes are
      atomic and backed up (write_file_safe), SAFE mode blocks (safe_mode_inert), and the
      identity fixer satisfies its check (rebaseline_settles).
    The findings (theorems whose comments begin a section called a finding, and those of
    BringupSamples) are behaviours of the code that contradict its documentation.

    ** Fuel

    Loops with no structural argument run on fuel and raise [EFuel] when it ends:
    [Ladder.escalate] has one unit more than levels are left ([escalate_returns] shows it
    is never exhausted), [next_free] of the allocator one unit more than there are used
    slots, the lock loops of JanusJcfg the attempts the timeout allows. Every other loop
    is structural.

    ** Not modelled

    Prometheus metrics and log lines (nothing reads them back), thread starts and sleeps,
    and the texts of most messages. The frame multiplexers (realsense_mux.py,
    realsense-mux.py): the camera SDK, threads over shared memory and FIFOs. The websocket
    and HTTP proxies and the TURN probes: bytes passed between two peers. The remaining
    HTTP handlers, pages and templates, which format what the services return. Sensor
    discovery, catalogues and other parsers of what hardware tools print, apart from those
    of the camera bring-up. Plugins and declarations. *)
From stdpp Require Export base tactics list gmap strings pretty.
From Stdlib Require Export QArith Lqa.
From Stdlib Require Import Qround.
#[global] Open Scope Z_scope.
#[export] Set Default Goal Selector "!".
#[export] Set Warnings "-clear-no-such-hyp,-register-all".

(** ** Python exceptions

    [exn_kind] has one constructor per exception class the modelled code raises or
    catches. [EUnmodelled] marks a value outside the model's domain (for example
    [str()] of a float), [EFuel] the exhaustion of a loop's fuel, [EKilled] the death
    of the process at an interaction with the environment; none is an exception of
    the program, and no [except] clause of the model catches them. *)
(** The domain errors of the use cases in [app/application/], which the routes map to
    HTTP answers. *)
Inductive use_case_error :=
  | NodeNotFound | LocalNodeNotRemovable | BindingNotFound | UnsupportedSensorError
  | LocalFdirNotToggleable | LocalBindingNotRemovable | EnsureJanusLocalRejected
  | LocalTuningRejected | InvalidRotation | NoTuningFields | NodeAgentError | ManifestInvalid
  | JanusUnreachable | MaintenanceLocalRejected | LocalNodeNoHostKey | HostKeyUnreachable
  | HostKeyFingerprintMismatch | HostKeyPinReplaceRejected | LocalBindingNotCreatable
  | BindingNodeNotFound | AllocationConflict | BindingInvalid | NodeRegistrationInvalid
  | AddNodeIsLocalGateway | ProvisionLocalRejected | RotateTokenLocalRejected
  | NodeBundleMissing | HostKeyNotConfirmed | SensorUnknown | SensorNotProvisionable
  | SensorStopped | StreamingAdminKeyMissing | JanusAttachFailed | InvalidMountpointId
  | JanusBadStructure | UnknownEncoderFamily | BadEncoderInstance | EncoderExecFailed
  | RestartSelfRefused | ServiceNotRestartable | RestartMethodUnknown | RestartExecFailed
  | ConfigRenderFailed | InvalidEncoderInstanceName | InvalidSoakFilename | SoakFileNotFound.

#[export] Instance use_case_error_eq_dec : EqDecision use_case_error.
Proof. solve_decision. Defined.

(** One constructor per class. *)
Inductive exn_kind :=
  | EKey | EIndex | EValue | EType | EAttribute | EUnicodeDecode | EJsonDecode
  | EOS | EFileNotFound | ERuntime | ETimeout | ECalledProcess | EAssertion
  | EAllocation | EBindingValidation | EStoreCorruption
  | EJournalCorrupt | EConflict | EJanus | EJanusAdmin | EManifest | EHttpTimeout | EHttpConnect
  | EBlockingIO | EStoreCorrupt | EForeignKey | EDrift | ELockHeld | EPydantic
  | ELifecycle | EUnsupportedSensor | ETuningWrite | EColorConfigWrite
  | EUseCase (e : use_case_error)
  | EHttp (status : Z)       (* [HTTPException] *)
  | EUnmodelled | EFuel | EKilled.

Record exn := Exn { ex_kind : exn_kind; ex_msg : string }.

#[export] Instance exn_kind_eq_dec : EqDecision exn_kind.
Proof. solve_decision. Defined.

(** The classes that occur in an [except] clause or an [isinstance] test. *)
Inductive exn_class :=
  | CException | COSError | CFileNotFound | CValueError | CKeyError
  | CRuntimeError | CJsonDecode | CUnicodeDecode | CStoreCorruption
  | CJournalCorrupt | CConflict | CCalledProcess | CTimeout | CJanusAdmin | CHttpOrOS
  | CBlockingIO | CDrift | CLockHeld | CPydantic
  | CLifecycle | CUnsupportedSensor | CAllocation | CBindingValidation | CManifest | CUseCase
  | CHttpError.

(** Python's class hierarchy, restricted to the classes above:
    [FileNotFoundError], [BlockingIOError <: OSError]; [JSONDecodeError],
    [UnicodeDecodeError], [BindingValidationError], [ManifestError], [ForeignKeyError] and
    pydantic's [ValidationError <: ValueError]; [AllocationError], [StoreCorruptionError],
    [StoreCorrupt], [JanusAdminError], [DriftError], [LockHeld], [TuningWriteError],
    [ColorConfigWriteError] and [LifecycleError <: RuntimeError]; [CUseCase] stands for the domain errors together;
    [CHttpError] is [httpx.HTTPError], [CHttpOrOS] the clause
    [except (httpx.HTTPError, OSError)]. *)
Definition instance_of (k : exn_kind) (c : exn_class) : bool :=
  match c, k with
  | _, (EUnmodelled | EFuel | EKilled) => false
  | CException, _ => true
  | COSError, (EOS | EFileNotFound | EBlockingIO) => true
  | CFileNotFound, EFileNotFound => true
  | CValueError, (EValue | EManifest | EUnicodeDecode | EJsonDecode | EBindingValidation
                  | EForeignKey | EPydantic) => true
  | CKeyError, EKey => true
  | CRuntimeError, (ERuntime | EAllocation | EStoreCorruption | EJanusAdmin | EStoreCorrupt
                    | EDrift | ELockHeld | ELifecycle | ETuningWrite | EColorConfigWrite) => true
  | CJsonDecode, EJsonDecode => true
  | CUnicodeDecode, EUnicodeDecode => true
  | CStoreCorruption, EStoreCorruption => true
  | CJournalCorrupt, EJournalCorrupt => true
  | CConflict, EConflict => true
  | CCalledProcess, ECalledProcess => true
  | CTimeout, ETimeout => true
  | CJanusAdmin, EJanusAdmin => true
  | CHttpOrOS, (EHttpTimeout | EHttpConnect | EOS | EFileNotFound | EBlockingIO) => true
  | CBlockingIO, EBlockingIO => true
  | CDrift, EDrift => true
  | CLockHeld, ELockHeld => true
  | CPydantic, EPydantic => true
  | CLifecycle, ELifecycle => true
  | CUnsupportedSensor, EUnsupportedSensor => true
  | CAllocation, EAllocation => true
  | CBindingValidation, EBindingValidation => true
  | CManifest, EManifest => true
  | CUseCase, EUseCase _ => true
  | CHttpError, (EHttpTimeout | EHttpConnect) => true
  | _, _ => false
  end.

(** ** Results and the state-and-exception monad

    [M W A] is a Python computation over the mutable state [W]: it returns or
    raises, and in both cases the mutations made so far stay made. *)
Inductive res (A : Type) :=
  | Ok (a : A)
  | Raise (e : exn).
Arguments Ok {A} a.
Arguments Raise {A} e.

#[export] Instance res_ret : MRet res := fun A a => Ok a.
#[export] Instance res_bind : MBind res :=
  fun A B f x => match x with Ok a => f a | Raise e => Raise e end.

#[export] Instance res_fmap : FMap res :=
  fun A B f x => match x with Ok a => Ok (f a) | Raise e => Raise e end.

Definition fail {A} (k : exn_kind) : res A := Raise (Exn k EmptyString).

Definition is_ok {A} (r : res A) : bool :=
  match r with Ok _ => true | Raise _ => false end.

Definition M (W A : Type) : Type := W → res A * W.

#[export] Instance M_ret W : MRet (M W) := fun A a w => (Ok a, w).
#[export] Instance M_bind W : MBind (M W) :=
  fun A B f m w => match m w with (Ok a, w') => f a w' | (Raise e, w') => (Raise e, w') end.

Section monad_ops.
Context {W : Type}.

Definition raise {A} (e : exn) : M W A := fun w => (Raise e, w).
Definition throw {A} (k : exn_kind) : M W A := raise (Exn k EmptyString).
Definition get : M W W := fun w => (Ok w, w).
Definition gets {A} (f : W → A) : M W A := fun w => (Ok (f w), w).
Definition put (w : W) : M W unit := fun _ => (Ok tt, w).
Definition modify (f : W → W) : M W unit := fun w => (Ok tt, f w).
Definition lift {A} (r : res A) : M W A := fun w => (r, w).

(** [try: m  except c as e: h e] *)
Definition try_except {A} (m : M W A) (c : exn_class) (h : exn → M W A) : M W A :=
  fun w => match m w with
           | (Raise e, w') => if instance_of (ex_kind e) c then h e w' else (Raise e, w')
           | ok => ok
           end.

(** [try: m  except c1 as e: h1 e  except c2 as e: h2 e]: an exception of a handler
    is not seen by its sibling. *)
Definition try_except2 {A} (m : M W A) (c1 : exn_class) (h1 : exn → M W A)
    (c2 : exn_class) (h2 : exn → M W A) : M W A :=
  fun w => match m w with
           | (Raise e, w') =>
               if instance_of (ex_kind e) c1 then h1 e w'
               else if instance_of (ex_kind e) c2 then h2 e w' else (Raise e, w')
           | ok => ok
           end.

(** [try: m  finally: f]; an exception of [f] replaces the outcome of [m]. *)
Definition finally {A} (m : M W A) (f : M W unit) : M W A :=
  fun w => let '(r, w') := m w in
           match f w' with (Ok _, w'') => (r, w'') | (Raise e, w'') => (Raise e, w'') end.

Definition when (b : bool) (m : M W unit) : M W unit := if b then m else mret tt.

Fixpoint for_each {A} (l : list A) (f : A → M W unit) : M W unit :=
  match l with [] => mret tt | x :: l' => f x ;; for_each l' f end.
End monad_ops.

(** A computation over a component of the state. *)
Definition zoom {W V A} (get' : W → V) (set' : V → W → W) (m : M V A) : M W A :=
  fun w => let '(r, v) := m (get' w) in (r, set' v w).

(** ** What a computation does to the state

    [preserves R m]: from every state, [m] leads to an [R]-related state, whether it
    returns or raises. Invariants, frame conditions and monotone counters are all
    preorders, so one set of rules serves them. *)
Definition preserves {W A} (R : W → W → Prop) (m : M W A) : Prop := ∀ w, R w (m w).2.

(** [m] always returns. *)
Definition total {W A} (m : M W A) : Prop := ∀ w, is_ok (m w).1 = true.

(** Every exception [m] lets escape has a kind in [P]. *)
Definition raises_only {W A} (P : exn_kind → Prop) (m : M W A) : Prop :=
  ∀ w e, (m w).1 = Raise e → P (ex_kind e).

(** The preorder of a state function that does not change. *)
Definition keeps {W A} (f : W → A) : W → W → Prop := fun w w' => f w' = f w.

#[export] Instance keeps_preorder {W A} (f : W → A) : PreOrder (keeps f).
Proof. split; [done|]. unfold keeps. intros w1 w2 w3. congruence. Qed.

Definition preserving {W} (I : W → Prop) : W → W → Prop := fun w w' => I w → I w'.

#[export] Instance preserving_preorder {W} (I : W → Prop) : PreOrder (preserving I).
Proof. split; unfold preserving; repeat intro; auto. Qed.

Create HintDb pres discriminated.

Section preserves.
Context {W : Type} (R : W → W → Prop) `{!PreOrder R}.

Lemma pres_ret {A} (a : A) : preserves R (mret a).
Proof. intros w. reflexivity. Qed.

Lemma pres_bind {A B} (m : M W A) (f : A → M W B) :
  preserves R m → (∀ a, preserves R (f a)) → preserves R (m ≫= f).
Proof.
  intros Hm Hf w. unfold mbind, M_bind. specialize (Hm w).
  destruct (m w) as [[a|e] w']; [|done]. etrans; [done|apply Hf].
Qed.

(** The continuation only meets the values the computation returns. *)
Lemma pres_bind_ok {A B} (m : M W A) (f : A → M W B) :
  preserves R m → (∀ w a w', m w = (Ok a, w') → preserves R (f a)) → preserves R (m ≫= f).
Proof.
  intros Hm Hf w. unfold mbind, M_bind. specialize (Hm w).
  destruct (m w) as [[a|e] w'] eqn:Ha; [|done]. etrans; [done|by eapply Hf].
Qed.

Lemma pres_raise {A} e : preserves R (raise (A:=A) e).
Proof. intros w. reflexivity. Qed.
Lemma pres_throw {A} k : preserves R (throw (A:=A) k).
Proof. intros w. reflexivity. Qed.
Lemma pres_lift {A} (r : res A) : preserves R (lift r).
Proof. intros w. reflexivity. Qed.
Lemma pres_get : preserves R get.
Proof. intros w. reflexivity. Qed.
Lemma pres_gets {A} (f : W → A) : preserves R (gets f).
Proof. intros w. reflexivity. Qed.
Lemma pres_modify f : (∀ w, R w (f w)) → preserves R (modify f).
Proof. intros H w. apply H. Qed.

Lemma pres_try {A} (m : M W A) c h :
  preserves R m → (∀ e, preserves R (h e)) → preserves R (try_except m c h).
Proof.
  intros Hm Hh w. unfold try_except. specialize (Hm w).
  destruct (m w) as [[a|e] w']; [done|]. destruct (instance_of _ _); [|done].
  etrans; [done|apply Hh].
Qed.

Lemma pres_try2 {A} (m : M W A) c1 h1 c2 h2 :
  preserves R m → (∀ e, preserves R (h1 e)) → (∀ e, preserves R (h2 e)) →
  preserves R (try_except2 m c1 h1 c2 h2).
Proof.
  intros Hm Hh1 Hh2 w. unfold try_except2. specialize (Hm w).
  destruct (m w) as [[a|e] w']; [done|].
  destruct (instance_of _ c1); [etrans; [done|apply Hh1]|].
  destruct (instance_of _ c2); [|done]. etrans; [done|apply Hh2].
Qed.

Lemma pres_finally {A} (m : M W A) f :
  preserves R m → preserves R f → preserves R (finally m f).
Proof.
  intros Hm Hf w. unfold finally. specialize (Hm w).
  destruct (m w) as [r w']. specialize (Hf w').
  destruct (f w') as [[u|e] w'']; etrans; done.
Qed.

Lemma pres_when b m : preserves R m → preserves R (when b m).
Proof. intros Hm. destruct b; [done|apply pres_ret]. Qed.

Lemma pres_for_each {A} (l : list A) f :
  (∀ a, a ∈ l → preserves R (f a)) → preserves R (for_each l f).
Proof.
  induction l as [|a l IH]; intros H; simpl; [apply pres_ret|].
  apply pres_bind; [set_solver|intros _; set_solver].
Qed.
End preserves.

(** Splits a computation along its structure, leaving its primitive steps. *)
Ltac pres_step :=
  match goal with
  | |- preserves _ (mret _) => apply pres_ret; apply _
  | |- preserves _ (_ ≫= _) => apply pres_bind; [apply _| |intros ?]
  | |- preserves _ (raise _) => apply pres_raise; apply _
  | |- preserves _ (throw _) => apply pres_throw; apply _
  | |- preserves _ (lift _) => apply pres_lift; apply _
  | |- preserves _ get => apply pres_get; apply _
  | |- preserves _ (gets _) => apply pres_gets; apply _
  | |- preserves _ (try_except _ _ _) => apply pres_try; [apply _| |intros ?]
  | |- preserves _ (try_except2 _ _ _ _ _) => apply pres_try2; [apply _| |intros ?|intros ?]
  | |- preserves _ (finally _ _) => apply pres_finally; [apply _| |]
  | |- preserves _ (when _ _) => apply pres_when; [apply _|]
  | |- preserves _ (for_each _ _) => apply pres_for_each; [apply _|intros ? _]
  | |- preserves _ (match ?x with _ => _ end) => destruct x
  | |- preserves _ (modify _) => apply pres_modify; intros ?
  end.
Ltac pres := repeat first [solve [eauto with pres]|pres_step]; try done.

Section total.
Context {W : Type}.

Lemma total_bind {A B} (m : M W A) (f : A → M W B) :
  total m → (∀ a, total (f a)) → total (m ≫= f).
Proof.
  intros Hm Hf w. unfold mbind, M_bind. specialize (Hm w).
  destruct (m w) as [[a|e] w']; [apply Hf|done].
Qed.

Lemma bind_ok {A B} (m : M W A) (f : A → M W B) w a w' :
  m w = (Ok a, w') → (m ≫= f) w = f a w'.
Proof. unfold mbind, M_bind. by intros ->. Qed.

Lemma bind_raise {A B} (m : M W A) (f : A → M W B) w e w' :
  m w = (Raise e, w') → (m ≫= f) w = (Raise e, w').
Proof. unfold mbind, M_bind. by intros ->. Qed.

(** A computation may be replaced by one with the same outcome from another state. *)
Lemma bind_at {A B} (m m' : M W A) (f : A → M W B) w w' :
  m w = m' w' → (m ≫= f) w = (m' ≫= f) w'.
Proof. unfold mbind, M_bind. by intros ->. Qed.

Lemma try_at {A} (m m' : M W A) c h w w' :
  m w = m' w' → try_except m c h w = try_except m' c h w'.
Proof. unfold try_except. by intros ->. Qed.

Lemma bind_assoc {A B C} (m : M W A) (f : A → M W B) (g : B → M W C) w :
  (m ≫= λ a, f a ≫= g) w = ((m ≫= f) ≫= g) w.
Proof. unfold mbind, M_bind. by destruct (m w) as [[a|e] w']. Qed.

Lemma bind_inv {A B} (m : M W A) (f : A → M W B) w r w'' :
  (m ≫= f) w = (r, w'') →
  (∃ a w', m w = (Ok a, w') ∧ f a w' = (r, w'')) ∨
  (∃ e, m w = (Raise e, w'') ∧ r = Raise e).
Proof.
  unfold mbind, M_bind. destruct (m w) as [[a|e] w'] eqn:Hm; [eauto|].
  intros [= <- <-]. eauto.
Qed.
End total.

(** The exceptions [except Exception] lets through: none of the program's own. *)
Definition uncatchable (k : exn_kind) : Prop := instance_of k CException = false.

Section raises_only.
Context {W : Type} (P : exn_kind → Prop).

Lemma ro_ret {A} (a : A) : raises_only (W:=W) P (mret a).
Proof. by intros w e. Qed.
Lemma ro_gets {A} (f : W → A) : raises_only P (gets f).
Proof. by intros w e. Qed.
Lemma ro_modify (f : W → W) : raises_only P (modify f).
Proof. by intros w e. Qed.
Lemma ro_throw {A} k : P k → raises_only (W:=W) P (throw (A:=A) k).
Proof. by intros Hk w e [= <-]. Qed.
Lemma ro_raise {A} e : P (ex_kind e) → raises_only (W:=W) P (raise (A:=A) e).
Proof. by intros Hk w e' [= <-]. Qed.

Lemma ro_total {A} (m : M W A) : total m → raises_only P m.
Proof. intros H w e He. specialize (H w). by rewrite He in H. Qed.

Lemma ro_bind {A B} (m : M W A) (f : A → M W B) :
  raises_only P m → (∀ a, raises_only P (f a)) → raises_only P (m ≫= f).
Proof.
  intros Hm Hf w e. unfold mbind, M_bind. specialize (Hm w).
  destruct (m w) as [[a|e'] w']; [apply Hf|]. intros [= <-]. by apply Hm.
Qed.

Lemma ro_for_each {A} (l : list A) f :
  (∀ a, raises_only P (f a)) → raises_only (W:=W) P (for_each l f).
Proof.
  intros Hf. induction l as [|a l IH]; simpl; [apply ro_ret|].
  by apply ro_bind; [apply Hf|intros _].
Qed.

Lemma ro_when b (m : M W unit) : raises_only P m → raises_only P (when b m).
Proof. destruct b; [done|intros _; apply ro_ret]. Qed.

Lemma ro_finally {A} (m : M W A) f :
  raises_only P m → raises_only P f → raises_only P (finally m f).
Proof.
  intros Hm Hf w e. unfold finally. specialize (Hm w).
  destruct (m w) as [r w']. specialize (Hf w').
  destruct (f w') as [[u|e'] w'']; simpl; [apply Hm|]. intros [= <-]. by apply Hf.
Qed.
End raises_only.

(** A catch-all handler leaves only the uncatchable exceptions. *)
Lemma ro_catch_all {W A} (m : M W A) h :
  (∀ e, raises_only uncatchable (h e)) → raises_only uncatchable (try_except m CException h).
Proof.
  intros Hh w e. unfold try_except. destruct (m w) as [[a|e'] w']; [done|].
  destruct (instance_of (ex_kind e') CException) eqn:He; [apply Hh|].
  by intros [= <-].
Qed.

Lemma ro_outcome {W A} P (m : M W A) w :
  raises_only P m →
  (∃ a w', m w = (Ok a, w')) ∨ (∃ e w', m w = (Raise e, w') ∧ P (ex_kind e)).
Proof.
  intros Hm. specialize (Hm w). destruct (m w) as [[a|e] w']; [eauto|].
  right. exists e, w'. split; [done|]. by apply Hm.
Qed.
#[export] Hint Resolve ro_ret ro_gets ro_modify ro_throw : pres.

(** The exceptions of the program: those an [except Exception] clause catches. *)
Definition catchable (k : exn_kind) : Prop := instance_of k CException = true.

Lemma ro_try {W A} (P : exn_kind → Prop) (m : M W A) c h :
  raises_only P m → (∀ e, P (ex_kind e) → raises_only P (h e)) →
  raises_only P (try_except m c h).
Proof.
  intros Hm Hh w e. unfold try_except. specialize (Hm w).
  destruct (m w) as [[a|e'] w']; [done|].
  destruct (instance_of (ex_kind e') c); [by apply Hh, Hm|]. intros [= <-]. by apply Hm.
Qed.

Lemma ro_try2 {W A} (P : exn_kind → Prop) (m : M W A) c1 h1 c2 h2 :
  raises_only P m → (∀ e, P (ex_kind e) → raises_only P (h1 e)) →
  (∀ e, P (ex_kind e) → raises_only P (h2 e)) → raises_only P (try_except2 m c1 h1 c2 h2).
Proof.
  intros Hm H1 H2 w e. unfold try_except2. specialize (Hm w).
  destruct (m w) as [[a|e'] w']; [done|].
  destruct (instance_of (ex_kind e') c1); [by apply H1, Hm|].
  destruct (instance_of (ex_kind e') c2); [by apply H2, Hm|]. intros [= <-]. by apply Hm.
Qed.

Lemma ro_lift {W A} (P : exn_kind → Prop) (r : res A) :
  (∀ e, r = Raise e → P (ex_kind e)) → raises_only (W:=W) P (lift r).
Proof. intros Hr w e. apply Hr. Qed.

Lemma ro_get {W} P : raises_only (W:=W) P get.
Proof. by intros w e. Qed.

Lemma total_catch_all {W A} (m : M W A) h :
  raises_only catchable m → (∀ e, total (h e)) → total (try_except m CException h).
Proof.
  intros Hm Hh w. unfold try_except. specialize (Hm w).
  destruct (m w) as [[a|e] w']; [done|]. rewrite (Hm e eq_refl). apply Hh.
Qed.

Lemma total_ret {W A} (a : A) : total (W:=W) (mret a).
Proof. done. Qed.
Lemma total_gets {W A} (f : W → A) : total (gets f).
Proof. done. Qed.
Lemma total_modify {W} (f : W → W) : total (modify f).
Proof. done. Qed.
Lemma total_for_each {W A} (l : list A) (f : A → M W unit) :
  (∀ a, total (f a)) → total (for_each l f).
Proof.
  intros Hf. induction l as [|a l IH]; simpl; [done|]. by apply total_bind.
Qed.
#[export] Hint Resolve ro_get total_ret total_gets total_modify : pres.
#[export] Hint Extern 1 (catchable _) => reflexivity : pres.

Ltac ro_step :=
  match goal with
  | |- raises_only _ (_ ≫= _) => apply ro_bind; [|intros ?]
  | |- raises_only _ (try_except _ _ _) => apply ro_try; [|intros ? ?]
  | |- raises_only _ (try_except2 _ _ _ _ _) => apply ro_try2; [|intros ? ?|intros ? ?]
  | |- raises_only _ (finally _ _) => apply ro_finally
  | |- raises_only _ (when _ _) => apply ro_when
  | |- raises_only _ (for_each _ _) => apply ro_for_each; intros ?
  | |- raises_only _ (lift _) => apply ro_lift; intros ? ?
  | |- raises_only _ (match ?x with _ => _ end) => destruct x
  end.
(** Where the computation can only raise what [P] allows. *)
Ltac ro := repeat first [solve [eauto with pres]|ro_step]; try done.

(** ** Inversion of successful runs *)
Section inversion.
Context {W : Type}.

Lemma bind_ok_inv {A B} (m : M W A) (f : A → M W B) w b w'' :
  (m ≫= f) w = (Ok b, w'') → ∃ a w', m w = (Ok a, w') ∧ f a w' = (Ok b, w'').
Proof. intros [?|(e & _ & ?)]%bind_inv; [done|naive_solver]. Qed.

Lemma lift_ok_inv {A} (r : res A) (w : W) a w' : lift r w = (Ok a, w') → r = Ok a ∧ w' = w.
Proof. unfold lift. naive_solver. Qed.

Lemma ret_inv {A} (x : A) (w : W) r w' : (mret x : M W A) w = (r, w') → r = Ok x ∧ w' = w.
Proof. unfold mret, M_ret. naive_solver. Qed.

Lemma ret_ok_inv {A} (x : A) (w : W) a w' : (mret x : M W A) w = (Ok a, w') → a = x ∧ w' = w.
Proof. unfold mret, M_ret. naive_solver. Qed.
End inversion.

Lemma res_bind_ok {A B} (r : res A) (f : A → res B) b :
  (r ≫= f) = Ok b → ∃ a, r = Ok a ∧ f a = Ok b.
Proof. unfold mbind, res_bind. destruct r; [eauto|done]. Qed.

(** ** Comparisons of rationals *)
Definition Qltb (a b : Q) : bool := negb (Qle_bool b a).

Lemma Qltb_lt a b : Qltb a b = true ↔ (a < b)%Q.
Proof.
  unfold Qltb. rewrite negb_true_iff. split.
  - intros H. apply Qnot_le_lt. intros Hle%Qle_bool_iff. congruence.
  - intros H. apply not_true_iff_false. rewrite Qle_bool_iff. by apply Qlt_not_le.
Qed.

Lemma Qltb_ge a b : Qltb a b = false ↔ (b <= a)%Q.
Proof.
  rewrite <- not_true_iff_false, Qltb_lt. split; [apply Qnot_lt_le|apply Qle_not_lt].
Qed.
