(* ===== verification/Hoare.v ===== *)
(** * Weakest preconditions for the state-and-exception monad

    [wp m Q w]: run from [w], the computation [m] ends in an outcome (a value or an
    exception) and a state that satisfy [Q]. Python code runs to its end or raises, so
    this is a total notion; the rules below follow the code statement by statement. *)
From S2P Require Import Prelude.

Definition wp {W A} (m : M W A) (Q : res A → W → Prop) (w : W) : Prop :=
  let '(r, w') := m w in Q r w'.

(** The postcondition of the first part of a sequence: the rest runs from the value, an
    exception skips it. *)
Definition then_ {W A B} (f : A → M W B) (Q : res B → W → Prop) (r : res A) (w : W) : Prop :=
  match r with Ok a => wp (f a) Q w | Raise e => Q (Raise e) w end.

(** The postcondition of a [try] body. *)
Definition or_catch {W A} (c : exn_class) (h : exn → M W A) (Q : res A → W → Prop)
    (r : res A) (w : W) : Prop :=
  match r with
  | Ok _ => Q r w
  | Raise e => if instance_of (ex_kind e) c then wp (h e) Q w else Q r w
  end.

Section rules.
Context {W : Type}.
Implicit Types (w : W).

Lemma wp_elim {A} (m : M W A) Q w r w' : wp m Q w → m w = (r, w') → Q r w'.
Proof. unfold wp. intros H Heq. by rewrite Heq in H. Qed.

Lemma wp_intro {A} (m : M W A) (Q : res A → W → Prop) w :
  (∀ r w', m w = (r, w') → Q r w') → wp m Q w.
Proof. unfold wp. destruct (m w) as [r w'] eqn:H. auto. Qed.

Lemma wp_mono {A} (m : M W A) (Q Q' : res A → W → Prop) w :
  wp m Q w → (∀ r w', Q r w' → Q' r w') → wp m Q' w.
Proof. unfold wp. destruct (m w). auto. Qed.

Lemma wp_and {A} (m : M W A) (Q Q' : res A → W → Prop) w :
  wp m Q w → wp m Q' w → wp m (λ r w', Q r w' ∧ Q' r w') w.
Proof. unfold wp. destruct (m w). auto. Qed.

Lemma wp_preserves {A} (R : W → W → Prop) (m : M W A) w :
  preserves R m → wp m (λ _ w', R w w') w.
Proof. intros H. specialize (H w). unfold wp. by destruct (m w). Qed.

Lemma wp_state {A} (m : M W A) (P : W → Prop) w : wp m (λ _ w', P w') w → P (m w).2.
Proof. unfold wp. by destruct (m w). Qed.

(** A call of which only the frame matters. *)
Lemma wp_frame {A} (R : W → W → Prop) (m : M W A) (Q : res A → W → Prop) w :
  preserves R m → (∀ r w', R w w' → Q r w') → wp m Q w.
Proof. intros Hm HQ. eapply wp_mono; [by apply wp_preserves|]. auto. Qed.

Lemma wp_ret {A} (a : A) (Q : res A → W → Prop) w : Q (Ok a) w → wp (mret a) Q w.
Proof. done. Qed.
Lemma wp_raise {A} e (Q : res A → W → Prop) w : Q (Raise e) w → wp (raise e) Q w.
Proof. done. Qed.
Lemma wp_lift {A} (r : res A) (Q : res A → W → Prop) w : Q r w → wp (lift r) Q w.
Proof. done. Qed.
Lemma wp_gets {A} (f : W → A) (Q : res A → W → Prop) w : Q (Ok (f w)) w → wp (gets f) Q w.
Proof. done. Qed.
Lemma wp_modify f (Q : res unit → W → Prop) w : Q (Ok tt) (f w) → wp (modify f) Q w.
Proof. done. Qed.

Lemma wp_bind {A B} (m : M W A) (f : A → M W B) Q w : wp m (then_ f Q) w → wp (m ≫= f) Q w.
Proof. unfold wp, then_, mbind, M_bind. by destruct (m w) as [[a|e] w']. Qed.

Lemma wp_try {A} (m : M W A) c h Q w : wp m (or_catch c h Q) w → wp (try_except m c h) Q w.
Proof. unfold wp, or_catch, try_except. destruct (m w) as [[a|e] w']; [done|]. by destruct (instance_of _ _). Qed.

Lemma wp_when (b : bool) (m : M W unit) (Q : res unit → W → Prop) w :
  (if b then wp m Q w else Q (Ok tt) w) → wp (when b m) Q w.
Proof. by destruct b. Qed.

(** A loop over a list keeps what each round keeps; an exception ends it. *)
Lemma wp_for_each {A} (I : W → Prop) (Ex : exn → W → Prop) (l : list A) (f : A → M W unit) w :
  (∀ a w, a ∈ l → I w →
     wp (f a) (λ (r : res unit) w', match r with Ok _ => I w' | Raise e => Ex e w' end) w) →
  I w → wp (for_each l f) (λ (r : res unit) w', match r with Ok _ => I w' | Raise e => Ex e w' end) w.
Proof.
  revert w. induction l as [|a l IH]; intros w Hf Hw; simpl; [done|].
  apply wp_bind. eapply wp_mono; [apply Hf; [by left|done]|].
  intros [u|e] w1 H1; [|done]. apply IH; [|done]. intros b w2 Hb. apply Hf. by right.
Qed.

(** A computation over a component, when the rest of the state is what it was. *)
Lemma wp_zoom {V A} (get' : W → V) (set' : V → W → W) (m : M V A) (Q : res A → W → Prop) w :
  wp m (λ r v, Q r (set' v w)) (get' w) → wp (zoom get' set' m) Q w.
Proof. unfold wp, zoom. by destruct (m (get' w)). Qed.
End rules.

(** A total computation only has to be followed from its value. *)
Lemma wp_bind_total {W A B} (m : M W A) (f : A → M W B) (R : A → W → Prop) Q (w : W) :
  total m → (∀ r w', m w = (r, w') → ∀ a, r = Ok a → R a w') →
  (∀ a w', R a w' → wp (f a) Q w') → wp (m ≫= f) Q w.
Proof.
  intros Ht HR Hf. apply wp_bind, wp_intro. intros r w' Hm. specialize (Ht w). rewrite Hm in Ht.
  destruct r as [a|e]; [|done]. simpl. eauto.
Qed.

(** Follows the code to its next call. *)
Ltac wp_step :=
  lazymatch goal with
  | |- wp (_ ≫= _) _ _ => apply wp_bind
  | |- wp (try_except _ _ _) _ _ => apply wp_try
  | |- wp (mret _) _ _ => apply wp_ret
  | |- wp (raise _) _ _ => apply wp_raise
  | |- wp (throw _) _ _ => apply wp_raise
  | |- wp (lift _) _ _ => apply wp_lift
  | |- wp (gets _) _ _ => apply wp_gets
  | |- wp get _ _ => apply (wp_gets (λ w, w)); cbn beta
  | |- wp (modify _) _ _ => apply wp_modify
  | |- wp (when _ _) _ _ => apply wp_when
  | |- then_ _ _ (Ok _) _ => unfold then_; cbn beta
  | |- then_ _ _ (Raise _) _ => unfold then_
  | |- or_catch _ _ _ (Ok _) _ => unfold or_catch
  end.
Ltac wp_steps := repeat wp_step.
(** Uses the specification [H] of the next call; its outcomes are left as goals. *)
Ltac wp_call H := repeat wp_step; eapply wp_mono; [eapply H|].
