(* ===== verification/PyVal.v ===== *)
(** * Python values: dicts, JSON documents and their conversions

    The stores of this program are JSON files whose decoded documents are
    mutated as Python dicts. A dict is an association list in insertion order
    (iteration order is observable: the first matching host wins, removed ids
    are reported in order), and [json.dumps(..., sort_keys=True)] reorders it by
    key. Two dicts with the same lookups are [≡]; every operation respects it. *)
From Stdlib Require Import Ascii.
From S2P Require Import Prelude.

(** ** Dicts *)
Definition dict (V : Type) : Type := list (string * V).

Section dict_ops.
Context {V : Type}.
Implicit Types (d : dict V) (k : string) (v : V).

(** [d.get(k)] *)
Fixpoint dget d k : option V :=
  match d with
  | [] => None
  | (k', v) :: d' => if decide (k = k') then Some v else dget d' k
  end.

(** [d[k] = v]: replaces in place, or appends a new key. *)
Fixpoint dset d k v : dict V :=
  match d with
  | [] => [(k, v)]
  | (k', v') :: d' => if decide (k = k') then (k, v) :: d' else (k', v') :: dset d' k v
  end.

(** [del d[k]] / [d.pop(k, None)] *)
Fixpoint ddel d k : dict V :=
  match d with
  | [] => []
  | (k', v') :: d' => if decide (k = k') then ddel d' k else (k', v') :: ddel d' k
  end.

Definition dkeys d : list string := d.*1.
Definition dvals d : list V := d.*2.
Definition dmem d k : bool := match dget d k with Some _ => true | None => false end.

(** Stable insertion sort by key: the order of [sort_keys=True]. *)
Fixpoint insert_item (k : string) (v : V) d : dict V :=
  match d with
  | [] => [(k, v)]
  | (k', v') :: d' => if String.leb k k' then (k, v) :: d else (k', v') :: insert_item k v d'
  end.

Fixpoint sort_items d : dict V :=
  match d with [] => [] | (k, v) :: d' => insert_item k v (sort_items d') end.
End dict_ops.

Section dict_laws.
Context {V : Type}.
Implicit Types (d : dict V) (k : string) (v : V).

Lemma dget_dset_eq d k v : dget (dset d k v) k = Some v.
Proof. induction d as [|[k' v'] d IH]; simpl; repeat (case_decide; simpl); naive_solver. Qed.

Lemma dget_dset_ne d k k' v : k ≠ k' → dget (dset d k v) k' = dget d k'.
Proof.
  intros Hne. induction d as [|[k0 v0] d IH]; simpl; repeat (case_decide; simpl); naive_solver.
Qed.

Lemma dget_dset d k k' v :
  dget (dset d k v) k' = if decide (k = k') then Some v else dget d k'.
Proof. case_decide; subst; eauto using dget_dset_eq, dget_dset_ne. Qed.

Lemma dget_ddel_eq d k : dget (ddel d k) k = None.
Proof. induction d as [|[k' v'] d IH]; simpl; repeat (case_decide; simpl); naive_solver. Qed.

Lemma dget_ddel_ne d k k' : k ≠ k' → dget (ddel d k) k' = dget d k'.
Proof.
  intros Hne. induction d as [|[k0 v0] d IH]; simpl; repeat (case_decide; simpl); naive_solver.
Qed.

Lemma dget_ddel d k k' :
  dget (ddel d k) k' = if decide (k = k') then None else dget d k'.
Proof. case_decide; subst; eauto using dget_ddel_eq, dget_ddel_ne. Qed.

Lemma dget_elem d k v : dget d k = Some v → (k, v) ∈ d.
Proof.
  induction d as [|[k' v'] d IH]; simpl; [done|].
  case_decide; intros; simplify_eq; set_solver.
Qed.

Lemma dget_None d k : dget d k = None ↔ k ∉ dkeys d.
Proof.
  unfold dkeys. induction d as [|[k' v'] d IH]; simpl; [by rewrite elem_of_nil; split; auto|].
  rewrite elem_of_cons. case_decide; naive_solver.
Qed.

Lemma dget_NoDup d k v : NoDup (dkeys d) → (k, v) ∈ d → dget d k = Some v.
Proof.
  induction d as [|[k' v'] d IH]; simpl; [set_solver|].
  intros [Hk Hd]%NoDup_cons [|Hin]%elem_of_cons; simplify_eq; case_decide; simplify_eq; auto.
  exfalso. apply Hk. apply list_elem_of_fmap. by exists (k', v).
Qed.

Lemma dvals_elem d v : v ∈ dvals d ↔ ∃ k, (k, v) ∈ d.
Proof.
  unfold dvals. rewrite list_elem_of_fmap. split; [intros [[k v'] [-> ?]]; eauto|].
  intros [k ?]. by exists (k, v).
Qed.

Lemma dkeys_dset d k v : ∀ k', k' ∈ dkeys (dset d k v) ↔ k' = k ∨ k' ∈ dkeys d.
Proof.
  induction d as [|[k0 v0] d IH]; intros k'; simpl; [set_solver|].
  case_decide; simpl; set_solver.
Qed.

Lemma dkeys_ddel d k : ∀ k', k' ∈ dkeys (ddel d k) ↔ k' ≠ k ∧ k' ∈ dkeys d.
Proof.
  induction d as [|[k0 v0] d IH]; intros k'; simpl; [set_solver|].
  case_decide; simpl; set_solver.
Qed.

Lemma NoDup_dset d k v : NoDup (dkeys d) → NoDup (dkeys (dset d k v)).
Proof.
  induction d as [|[k' v'] d IH]; simpl; intros H; [apply NoDup_singleton|].
  apply NoDup_cons in H as [Hk Hd]. case_decide; simpl; subst; constructor; auto.
  rewrite dkeys_dset. set_solver.
Qed.

Lemma NoDup_ddel d k : NoDup (dkeys d) → NoDup (dkeys (ddel d k)).
Proof.
  induction d as [|[k' v'] d IH]; simpl; intros H; [done|].
  apply NoDup_cons in H as [Hk Hd]. case_decide; simpl; auto.
  constructor; auto. rewrite dkeys_ddel. set_solver.
Qed.

Lemma ddel_elem d k kv : kv ∈ ddel d k → kv ∈ d.
Proof.
  induction d as [|[k' v'] d IH]; simpl; [done|]. case_decide; set_solver.
Qed.

Lemma dset_elem d k v kv : kv ∈ dset d k v → kv = (k, v) ∨ kv ∈ d.
Proof.
  induction d as [|[k' v'] d IH]; simpl; [set_solver|]. case_decide; set_solver.
Qed.

Lemma length_dset_None d k v : dget d k = None → length (dset d k v) = S (length d).
Proof.
  induction d as [|[k' v'] d IH]; simpl; [done|].
  case_decide; simpl; [done|]. intros ?. by rewrite IH.
Qed.

(** *** Sorting by key *)
Lemma dget_insert_item d k k' v :
  dget (insert_item k v d) k' = if decide (k = k') then Some v else dget d k'.
Proof.
  induction d as [|[k0 v0] d IH]; simpl.
  - repeat case_decide; naive_solver.
  - destruct (String.leb k k0) eqn:Hle; simpl.
    + repeat case_decide; naive_solver.
    + rewrite IH. repeat case_decide; simplify_eq; auto.
      by destruct (String.leb_total k0 k0); congruence.
Qed.

Lemma dget_sort_items d k : dget (sort_items d) k = dget d k.
Proof.
  induction d as [|[k' v'] d IH]; simpl; [done|].
  rewrite dget_insert_item, IH. repeat case_decide; naive_solver.
Qed.

Lemma insert_item_perm d k v : insert_item k v d ≡ₚ (k, v) :: d.
Proof.
  induction d as [|[k' v'] d IH]; simpl; [done|].
  destruct (String.leb k k'); [done|]. rewrite IH. constructor.
Qed.

Lemma sort_items_perm d : sort_items d ≡ₚ d.
Proof. induction d as [|[k v] d IH]; simpl; [done|]. by rewrite insert_item_perm, IH. Qed.

Lemma sort_items_elem d kv : kv ∈ sort_items d ↔ kv ∈ d.
Proof. by rewrite sort_items_perm. Qed.

Lemma NoDup_sort_items d : NoDup (dkeys d) → NoDup (dkeys (sort_items d)).
Proof. unfold dkeys. by rewrite sort_items_perm. Qed.
End dict_laws.

(** Keeping the items that satisfy a predicate, in order. *)
Lemma dget_filter {A} (p : string * A → bool) (d : dict A) c :
  NoDup (dkeys d) →
  dget (List.filter p d) c
  = match dget d c with Some a => if p (c, a) then Some a else None | None => None end.
Proof.
  induction d as [|[k a] d IH]; simpl; [done|]. intros [Hk Hnd]%NoDup_cons. specialize (IH Hnd).
  destruct (decide (k = c)) as [->|Hne].
  - apply dget_None in Hk. rewrite decide_True by done.
    destruct (p (c, a)) eqn:Hp; simpl; [by rewrite decide_True|]. by rewrite IH, Hk.
  - rewrite decide_False by done. destruct (p (k, a)); simpl; [rewrite decide_False by done|]; apply IH.
Qed.

Lemma NoDup_filter_keys {A} (p : string * A → bool) (d : dict A) :
  NoDup (dkeys d) → NoDup (dkeys (List.filter p d)).
Proof.
  induction d as [|[k a] d IH]; simpl; [done|]. intros [Hk Hnd]%NoDup_cons.
  destruct (p (k, a)); simpl; [|by apply IH]. apply NoDup_cons. split; [|by apply IH].
  intros Hin. apply Hk. apply list_elem_of_fmap in Hin as ([k' a'] & -> & Hin).
  apply list_elem_of_fmap. exists (k', a'). split; [done|].
  apply list_elem_of_In, filter_In in Hin as [Hin _]. by apply list_elem_of_In.
Qed.

(** Lookup-equality of dicts, the equivalence the store operations respect. *)
#[export] Instance dict_equiv V : Equiv (dict V) := fun d1 d2 => ∀ k, dget d1 k = dget d2 k.
#[export] Instance dict_equivalence V : Equivalence (≡@{dict V}).
Proof.
  split; [by intros d k|by intros d1 d2 H k|].
  intros d1 d2 d3 H1 H2 k. by rewrite (H1 k), (H2 k).
Qed.
#[export] Instance dget_proper V : Proper ((≡) ==> (=) ==> (=)) (dget (V:=V)).
Proof. intros d1 d2 H k ? <-. apply H. Qed.
#[export] Instance dset_proper V : Proper ((≡) ==> (=) ==> (=) ==> (≡)) (dset (V:=V)).
Proof. intros d1 d2 H k ? <- v ? <- k'. by rewrite !dget_dset, (H k'). Qed.
#[export] Instance ddel_proper V : Proper ((≡) ==> (=) ==> (≡)) (ddel (V:=V)).
Proof. intros d1 d2 H k ? <- k'. by rewrite !dget_ddel, (H k'). Qed.
#[export] Instance sort_items_proper V : Proper ((≡) ==> (≡)) (sort_items (V:=V)).
Proof. intros d1 d2 H k. by rewrite !dget_sort_items, (H k). Qed.

Create HintDb dict discriminated.
Create Rewrite HintDb dict.
#[export] Hint Rewrite @dget_dset_eq @dget_ddel_eq @dget_sort_items : dict.
#[export] Hint Rewrite @dget_dset_ne @dget_ddel_ne using done : dict.
#[export] Hint Resolve NoDup_dset NoDup_ddel NoDup_sort_items : dict.

(** ** JSON documents

    Numbers keep Python's distinction between [int] and [float]; a float is an
    exact rational (rounding, NaN and infinities are outside the model). *)
Inductive json :=
  | JNull
  | JBool (b : bool)
  | JInt (z : Z)
  | JFloat (q : Q)
  | JStr (s : string)
  | JArr (l : list json)
  | JObj (d : list (string * json)).

(** [json.loads(json.dumps(j, sort_keys=True))] *)
Fixpoint sort_json (j : json) : json :=
  match j with
  | JArr l => JArr (map sort_json l)
  | JObj d => JObj (sort_items (map (fun '(k, v) => (k, sort_json v)) d))
  | _ => j
  end.

(** [bool(x)] *)
Definition truthy (j : json) : bool :=
  match j with
  | JNull => false
  | JBool b => b
  | JInt z => negb (z =? 0)
  | JFloat q => negb (Qeq_bool q 0)
  | JStr s => negb (String.eqb s EmptyString)
  | JArr l => match l with [] => false | _ => true end
  | JObj d => match d with [] => false | _ => true end
  end.

Definition is_null (j : json) : bool := match j with JNull => true | _ => false end.
Definition is_object (j : json) : bool := match j with JObj _ => true | _ => false end.

(** [j[k]] with a string subscript *)
Definition getitem (j : json) (k : string) : res json :=
  match j with
  | JObj d => match dget d k with Some v => Ok v | None => fail EKey end
  | _ => fail EType
  end.

(** [j.get(k, default)] *)
Definition jget (j : json) (k : string) (default : json) : res json :=
  match j with
  | JObj d => Ok (match dget d k with Some v => v | None => default end)
  | _ => fail EAttribute
  end.

(** *** [int(str)]: optional white space, sign, digits with single underscores *)
Definition is_py_space (c : Ascii.ascii) : bool :=
  let n := Ascii.nat_of_ascii c in
  ((9 <=? n) && (n <=? 13) || (28 <=? n) && (n <=? 32))%nat.

Fixpoint lstrip_chars (l : list Ascii.ascii) : list Ascii.ascii :=
  match l with c :: l' => if is_py_space c then lstrip_chars l' else l | [] => [] end.

Definition strip_chars (l : list Ascii.ascii) : list Ascii.ascii :=
  rev (lstrip_chars (rev (lstrip_chars l))).

(** [s.strip()] *)
Definition py_strip (s : string) : string :=
  String.string_of_list_ascii (strip_chars (String.list_ascii_of_string s)).

Definition digit_value (c : Ascii.ascii) : option Z :=
  let n := Ascii.nat_of_ascii c in
  if ((48 <=? n) && (n <=? 57))%nat then Some (Z.of_nat n - 48) else None.

Fixpoint parse_digits (acc : Z) (l : list Ascii.ascii) : option Z :=
  match l with
  | [] => Some acc
  | c :: l' =>
      match digit_value c with
      | Some d => parse_digits (10 * acc + d) l'
      | None =>
          if Ascii.eqb c "_"%char then
            match l' with
            | c' :: l'' =>
                match digit_value c' with
                | Some d => parse_digits (10 * acc + d) l''
                | None => None
                end
            | [] => None
            end
          else None
      end
  end.

Definition parse_nat (l : list Ascii.ascii) : option Z :=
  match l with
  | c :: l' => match digit_value c with Some d => parse_digits d l' | None => None end
  | [] => None
  end.

Definition parse_int (s : string) : option Z :=
  match strip_chars (String.list_ascii_of_string s) with
  | c :: l =>
      if Ascii.eqb c "-"%char then Z.opp <$> parse_nat l
      else if Ascii.eqb c "+"%char then parse_nat l
      else parse_nat (c :: l)
  | [] => None
  end.

(** [int(x)]; [int(float)] truncates toward zero. *)
Definition to_int (j : json) : res Z :=
  match j with
  | JInt z => Ok z
  | JBool b => Ok (if b then 1 else 0)
  | JFloat q => Ok (Z.quot (Qnum q) (Zpos (Qden q)))
  | JStr s => match parse_int s with Some z => Ok z | None => fail EValue end
  | JNull | JArr _ | JObj _ => fail EType
  end.

(** [float(x)]; the float grammar of strings is outside the model. *)
Definition to_float (j : json) : res Q :=
  match j with
  | JInt z => Ok (inject_Z z)
  | JBool b => Ok (inject_Z (if b then 1 else 0))
  | JFloat q => Ok q
  | JStr _ => fail EUnmodelled
  | JNull | JArr _ | JObj _ => fail EType
  end.

(** [str(x)]; the [repr] of floats and containers is outside the model. *)
Definition to_str (j : json) : res string :=
  match j with
  | JStr s => Ok s
  | JInt z => Ok (pretty z)
  | JBool b => Ok (if b then "True" else "False")%string
  | JNull => Ok "None"%string
  | JFloat _ | JArr _ | JObj _ => fail EUnmodelled
  end.

Definition jopt {A} (f : A → json) (o : option A) : json :=
  match o with Some a => f a | None => JNull end.

(** A document writes and reads back as itself up to key order, so the scalar
    conversions and the lookups do not see the difference. *)
Section sort_json.
Lemma dget_map_values {A B} (f : A → B) (d : dict A) k :
  dget (map (fun '(k, v) => (k, f v)) d) k = f <$> dget d k.
Proof. induction d as [|[k' v'] d IH]; simpl; [done|]. by case_decide. Qed.

Lemma dget_sort_json d k d' :
  sort_json (JObj d) = JObj d' → dget d' k = sort_json <$> dget d k.
Proof. intros [= <-]. by rewrite dget_sort_items, dget_map_values. Qed.

Lemma to_int_sort j : to_int (sort_json j) = to_int j.
Proof. by destruct j. Qed.
Lemma to_float_sort j : to_float (sort_json j) = to_float j.
Proof. by destruct j. Qed.
Lemma to_str_sort j : to_str (sort_json j) = to_str j.
Proof. by destruct j. Qed.
Lemma is_object_sort j : is_object (sort_json j) = is_object j.
Proof. by destruct j. Qed.

Lemma truthy_sort j : truthy (sort_json j) = truthy j.
Proof.
  destruct j as [| | | | |l|d]; try done; [by destruct l|]. simpl.
  destruct d as [|[k v] d]; [done|]. simpl.
  destruct (insert_item _ _ _) eqn:E; [|done].
  apply (f_equal length) in E. rewrite (Permutation_length (insert_item_perm _ _ _)) in E. done.
Qed.

Lemma getitem_sort j k : getitem (sort_json j) k = sort_json <$> getitem j k.
Proof.
  destruct j as [| | | | | |d]; try done. unfold getitem at 1. simpl.
  rewrite dget_sort_items, dget_map_values. by destruct (dget d k).
Qed.

Lemma jget_sort j k dflt :
  jget (sort_json j) k (sort_json dflt) = sort_json <$> jget j k dflt.
Proof.
  destruct j as [| | | | | |d]; try done. unfold jget at 1. simpl.
  rewrite dget_sort_items, dget_map_values. by destruct (dget d k).
Qed.
End sort_json.
#[export] Hint Rewrite to_int_sort to_float_sort to_str_sort is_object_sort truthy_sort
  getitem_sort jget_sort : dict.

(** *** Decoding the values of a dict: [{k: from_raw(v) for k, v in d.items()}] *)
Section decoding.
Context {A : Type} (from_raw : json → res A).

Fixpoint decode_items (d : dict json) : res (dict A) :=
  match d with
  | [] => Ok []
  | (k, v) :: d' => x ← from_raw v; a ← decode_items d'; Ok ((k, x) :: a)
  end.

Definition decodes (d : dict json) (a : dict A) : Prop :=
  Forall2 (fun kv kx => kv.1 = kx.1 ∧ from_raw kv.2 = Ok kx.2) d a.

Lemma decodes_nil : decodes [] [].
Proof. constructor. Qed.

Lemma decode_items_spec d a : decode_items d = Ok a ↔ decodes d a.
Proof.
  unfold decodes. revert a. induction d as [|[k v] d IH]; intros a; simpl.
  { split; [by intros [= <-]|by intros ->%Forall2_nil_inv_l]. }
  unfold mbind, res_bind. split.
  - destruct (from_raw v) as [x|] eqn:Hx; [|done].
    destruct (decode_items d) as [a'|]; [|done]. intros [= <-].
    constructor; [done|]. by apply IH.
  - intros ([k' x] & a' & [Hk Hx] & Ha & ->)%Forall2_cons_inv_l. simpl in *.
    apply IH in Ha. by rewrite Hx, Ha, Hk.
Qed.

Lemma decodes_dget d a k :
  decodes d a →
  match dget d k with
  | Some v => ∃ x, from_raw v = Ok x ∧ dget a k = Some x
  | None => dget a k = None
  end.
Proof.
  induction 1 as [|[k1 v] [k2 x] d a [Hk Hx] Ha IH]; simpl in *; [done|]. subst.
  case_decide; subst; eauto.
Qed.

Lemma decodes_dset d a k v x :
  decodes d a → from_raw v = Ok x → decodes (dset d k v) (dset a k x).
Proof.
  intros Ha Hx. unfold decodes.
  induction Ha as [|[k1 v1] [k2 x1] d a [Hk Hx1] Ha IH]; simpl in *; subst.
  { repeat constructor; done. }
  case_decide; constructor; auto.
Qed.

Lemma decodes_ddel d a k : decodes d a → decodes (ddel d k) (ddel a k).
Proof.
  induction 1 as [|[k1 v1] [k2 x1] d a [Hk Hx1] Ha IH]; simpl in *; subst; [constructor|].
  case_decide; [done|]. by constructor.
Qed.

Lemma decodes_insert d a k v x :
  decodes d a → from_raw v = Ok x → decodes (insert_item k v d) (insert_item k x a).
Proof.
  intros Ha Hx. unfold decodes.
  induction Ha as [|[k1 v1] [k2 x1] d a [Hk Hx1] Ha IH]; simpl in *; subst.
  { repeat constructor; done. }
  destruct (String.leb _ _); repeat constructor; auto.
Qed.

Context (srt : A → A) (from_raw_sort : ∀ j, from_raw (sort_json j) = srt <$> from_raw j).

Lemma decodes_sort d a :
  decodes d a →
  decodes (sort_items (map (fun '(k, v) => (k, sort_json v)) d))
          (sort_items (map (fun '(k, x) => (k, srt x)) a)).
Proof.
  induction 1 as [|[k1 v1] [k2 x1] d a [Hk Hx1] Ha IH]; simpl in *; subst; [constructor|].
  apply decodes_insert; [done|]. by rewrite from_raw_sort, Hx1.
Qed.
End decoding.

(** The finite map a dict denotes. *)
Definition to_gmap {A} (d : dict A) : gmap string A := list_to_map d.

Section to_gmap.
Context {A : Type}.
Implicit Types d : dict A.

Lemma lookup_to_gmap d k : to_gmap d !! k = dget d k.
Proof.
  unfold to_gmap. induction d as [|[k' v] d IH]; simpl; [apply lookup_empty|].
  case_decide; subst; [apply lookup_insert_eq|]. by rewrite lookup_insert_ne.
Qed.

Lemma to_gmap_dset d k v : to_gmap (dset d k v) = <[k:=v]> (to_gmap d).
Proof.
  apply map_eq. intros k'. rewrite lookup_insert, !lookup_to_gmap, dget_dset.
  by repeat case_decide.
Qed.

Lemma to_gmap_ddel d k : to_gmap (ddel d k) = delete k (to_gmap d).
Proof.
  apply map_eq. intros k'. rewrite lookup_delete, !lookup_to_gmap, dget_ddel.
  by repeat case_decide.
Qed.

Lemma to_gmap_sort d : to_gmap (sort_items d) = to_gmap d.
Proof. apply map_eq. intros k. by rewrite !lookup_to_gmap, dget_sort_items. Qed.

Lemma to_gmap_proper : Proper ((≡) ==> (=)) (to_gmap (A:=A)).
Proof. intros d1 d2 H. apply map_eq. intros k. by rewrite !lookup_to_gmap, (H k). Qed.
End to_gmap.
#[export] Hint Rewrite @to_gmap_dset @to_gmap_ddel @to_gmap_sort @lookup_to_gmap : dict.

#[export] Hint Resolve decodes_nil : core.

Example parse_int_ex :
  (parse_int " -1_305 ", parse_int "13a", parse_int "_1", parse_int "+7")%string
  = (Some (-1305), None, None, Some 7).
Proof. reflexivity. Qed.

(** ** [int(str(n))] reads back *)
Section pretty_digits.
Local Abbreviation chars := String.list_ascii_of_string.

Definition is_digit (c : Ascii.ascii) : Prop := digit_value c ≠ None.

Lemma digit_char_value n : (n < 10)%N → digit_value (pretty_N_char n) = Some (Z.of_N n).
Proof.
  intros Hn. destruct n as [|p]; [done|].
  assert (N.pos p = 1 ∨ N.pos p = 2 ∨ N.pos p = 3 ∨ N.pos p = 4 ∨ N.pos p = 5 ∨ N.pos p = 6 ∨
          N.pos p = 7 ∨ N.pos p = 8 ∨ N.pos p = 9)%N as Hc by lia.
  by repeat (destruct Hc as [-> |Hc]); [..|rewrite Hc].
Qed.

Lemma digit_not_space c : is_digit c → is_py_space c = false.
Proof.
  unfold is_digit, digit_value, is_py_space.
  destruct (Nat.leb_spec 48 (Ascii.nat_of_ascii c)); [|done]. intros _.
  rewrite andb_comm. simpl.
  rewrite !(proj2 (Nat.leb_gt _ _)) by lia. by rewrite andb_false_r.
Qed.

Lemma pretty_go_digits x s :
  ∃ D, chars (pretty_N_go x s) = D ++ chars s ∧ Forall is_digit D ∧ ((0 < x)%N → D ≠ []) ∧
       ∀ rest, parse_digits 0 (D ++ rest) = parse_digits (Z.of_N x) rest.
Proof.
  revert s. induction (N.lt_wf_0 x) as [x _ IH]; intros s.
  destruct (decide (x = 0)%N) as [->|Hx].
  { exists []. rewrite pretty_N_go_0. split_and!; [done|constructor|lia|done]. }
  rewrite pretty_N_go_step by lia.
  destruct (IH (x `div` 10)%N ltac:(apply N.div_lt; lia) (String (pretty_N_char (x `mod` 10)) s))
    as (D & HD & Hdig & _ & Hp).
  pose proof (N.mod_lt x 10 ltac:(lia)) as Hm.
  exists (D ++ [pretty_N_char (x `mod` 10)]). split_and!.
  - rewrite HD, <- app_assoc. done.
  - apply Forall_app. split; [done|]. constructor; [|done]. unfold is_digit.
    by rewrite digit_char_value.
  - intros _ ?%app_nil. naive_solver.
  - intros rest. rewrite <- app_assoc, Hp. simpl. rewrite digit_char_value by done.
    f_equal. pose proof (N.div_mod' x 10). lia.
Qed.

Lemma pretty_N_digits x :
  ∃ D, chars (pretty x) = D ∧ Forall is_digit D ∧ D ≠ [] ∧
       ∀ rest, parse_digits 0 (D ++ rest) = parse_digits (Z.of_N x) rest.
Proof.
  unfold pretty, pretty_N. case_decide as Hx.
  { subst. exists ["0"%char]. split_and!; try done. by repeat constructor. }
  destruct (pretty_go_digits x EmptyString) as (D & HD & Hdig & Hne & Hp).
  exists D. rewrite HD. simpl. rewrite app_nil_r. split_and!; auto. apply Hne. lia.
Qed.

Lemma strip_digits (P D S : list Ascii.ascii) :
  Forall (λ c, is_py_space c = false) P → P ≠ [] ∨ D ≠ [] → Forall is_digit D → D ≠ [] →
  Forall (λ c, is_py_space c = true) S → strip_chars (P ++ D ++ S) = P ++ D.
Proof.
  intros HP _ HD Hne HS.
  assert (Hfix : ∀ l, match l with c :: _ => is_py_space c = false | [] => False end →
                      lstrip_chars l = l).
  { intros [|c l]; [done|]. simpl. by intros ->. }
  unfold strip_chars. rewrite (Hfix (P ++ D ++ S)).
  - rewrite !rev_app_distr, <- app_assoc.
    assert (Hskip : ∀ S' l, Forall (λ c, is_py_space c = true) S' →
                            lstrip_chars (S' ++ l) = lstrip_chars l).
    { induction 1 as [|c S' Hc _ IH]; [done|]. simpl. by rewrite Hc. }
    rewrite Hskip by (by apply Forall_rev). rewrite Hfix.
    + by rewrite rev_app_distr, !rev_involutive.
    + destruct (rev D) as [|c D'] eqn:Hr.
      { apply (f_equal (@rev _)) in Hr. rewrite rev_involutive in Hr. done. }
      simpl. apply digit_not_space. apply Forall_rev in HD. rewrite Hr in HD.
      by inversion HD.
  - destruct P as [|c P]; simpl.
    + destruct D as [|c D]; [done|]. apply digit_not_space. by inversion HD.
    + by inversion HP.
Qed.

(** [int(f"{n}\n") == n] *)
Lemma parse_int_pretty (z : Z) (S : string) :
  Forall (λ c, is_py_space c = true) (chars S) → parse_int (pretty z ++ S) = Some z.
Proof.
  intros HS. unfold parse_int.
  assert (Happ : ∀ s1 s2, chars (s1 ++ s2) = chars s1 ++ chars s2).
  { induction s1 as [|c s1 IH]; intros; simpl; [done|]. by rewrite IH. }
  assert (Hnat : ∀ D, Forall is_digit D → D ≠ [] → parse_nat D = parse_digits 0 D).
  { intros [|c D] HD Hne; [done|]. simpl. inversion HD as [|? ? Hc]. unfold is_digit in Hc.
    destruct (digit_value c); [|done]. f_equal. }
  assert (Hsign : ∀ c, is_digit c → Ascii.eqb c "-" = false ∧ Ascii.eqb c "+" = false).
  { intros c Hc. split; apply Ascii.eqb_neq; intros ->; by apply Hc. }
  rewrite Happ. destruct z as [|p|p].
  - change (chars (pretty 0)) with ["0"%char].
    change (["0"%char] ++ chars S) with ([] ++ ["0"%char] ++ chars S).
    rewrite (strip_digits [] ["0"%char]); try done; [by right|by repeat constructor].
  - change (pretty (Z.pos p)) with (pretty (N.pos p)).
    destruct (pretty_N_digits (N.pos p)) as (D & HD & Hdig & Hne & Hp). rewrite HD.
    change (D ++ chars S) with ([] ++ D ++ chars S). rewrite (strip_digits [] D); [|done|by right|done..].
    rewrite app_nil_l. destruct D as [|c D]; [done|].
    inversion Hdig as [|? ? Hc]. destruct (Hsign c Hc) as [-> ->]. rewrite Hnat by done.
    specialize (Hp []). by rewrite app_nil_r in Hp.
  - change (pretty (Z.neg p)) with ("-" ++ pretty (N.pos p))%string. rewrite Happ.
    destruct (pretty_N_digits (N.pos p)) as (D & HD & Hdig & Hne & Hp). simpl. rewrite HD.
    change ("-"%char :: D ++ chars S) with (["-"%char] ++ D ++ chars S).
    rewrite strip_digits; [|by repeat constructor|by right|done..]. simpl.
    rewrite Hnat by done. specialize (Hp []). rewrite app_nil_r in Hp. by rewrite Hp.
Qed.
End pretty_digits.

(** ** [==] of JSON values

    Numbers compare by value across [bool], [int] and [float]; dicts without regard to
    order. *)
Definition num_of (j : json) : option Q :=
  match j with
  | JBool b => Some (inject_Z (if b then 1 else 0))
  | JInt z => Some (inject_Z z)
  | JFloat q => Some q
  | _ => None
  end.

Fixpoint py_eq (a b : json) : bool :=
  match a, b with
  | JNull, JNull => true
  | JStr s, JStr t => String.eqb s t
  | JArr l, JArr l' =>
      (fix go l l' := match l, l' with
                      | [], [] => true
                      | x :: l, y :: l' => py_eq x y && go l l'
                      | _, _ => false
                      end) l l'
  | JObj d, JObj d' =>
      Nat.eqb (length d) (length d')
      && (fix go d := match d with
                      | [] => true
                      | (k, v) :: d => match dget d' k with Some v' => py_eq v v' | None => false end && go d
                      end) d
  | _, _ => match num_of a, num_of b with Some x, Some y => Qeq_bool x y | _, _ => false end
  end.

Example py_eq_ex :
  (py_eq (JBool true) (JInt 1), py_eq (JFloat (6 # 2)) (JInt 3), py_eq (JInt 1) (JStr "1"),
   py_eq (JObj [("a", JInt 1); ("b", JNull)]) (JObj [("b", JNull); ("a", JFloat 1)]))%string
  = (true, true, false, true).
Proof. reflexivity. Qed.

