(* ===== verification/PyStr.v ===== *)
(** * Python string operations

    The operations on texts the stores, the firewall and the privileged tools use, on
    ASCII characters: [splitlines], [split] at the first separator, [startswith], [in],
    [lower], [upper], [join] and the POSIX tokenizer of [shlex.split]. *)
From Stdlib Require Import Ascii.
From S2P Require Import Prelude.
From S2P Require Import PyVal.

Definition chars (s : string) : list ascii := String.list_ascii_of_string s.
Definition str (l : list ascii) : string := String.string_of_list_ascii l.

Lemma str_chars s : str (chars s) = s.
Proof. apply String.string_of_list_ascii_of_string. Qed.
Lemma chars_str l : chars (str l) = l.
Proof. apply String.list_ascii_of_string_of_list_ascii. Qed.
Lemma chars_app s1 s2 : chars (s1 ++ s2)%string = chars s1 ++ chars s2.
Proof. induction s1 as [|c s1 IH]; [done|]. simpl. unfold chars in *. simpl. by rewrite IH. Qed.
#[export] Instance chars_inj : Inj (=) (=) chars.
Proof. intros s1 s2 H. by rewrite <- (str_chars s1), H, str_chars. Qed.

(** ** Case, prefixes and substrings *)
Definition lower_char (c : ascii) : ascii :=
  let n := nat_of_ascii c in
  if ((65 <=? n) && (n <=? 90))%nat then ascii_of_nat (n + 32) else c.
Definition upper_char (c : ascii) : ascii :=
  let n := nat_of_ascii c in
  if ((97 <=? n) && (n <=? 122))%nat then ascii_of_nat (n - 32) else c.

Definition lower (s : string) : string := str (map lower_char (chars s)).
Definition upper (s : string) : string := str (map upper_char (chars s)).

(** [sub in s] *)
Definition contains (sub s : string) : bool :=
  match String.index 0 sub s with Some _ => true | None => false end.

Fixpoint is_prefix (p l : list ascii) : bool :=
  match p, l with
  | [], _ => true
  | c :: p', c' :: l' => Ascii.eqb c c' && is_prefix p' l'
  | _ :: _, [] => false
  end.

(** [s.startswith(p)], [s.endswith(p)] *)
Definition startswith (s p : string) : bool := is_prefix (chars p) (chars s).
Definition endswith (s p : string) : bool := is_prefix (rev (chars p)) (rev (chars s)).

Lemma is_prefix_spec p l : is_prefix p l = true ↔ ∃ l', l = p ++ l'.
Proof.
  revert l. induction p as [|c p IH]; intros [|c' l]; simpl; split; try naive_solver.
  - intros [[= ->%Ascii.eqb_eq] [l' ->]%IH]%andb_true_iff. by exists l'.
  - intros [l' [= -> ->]]. rewrite Ascii.eqb_refl. apply IH. by exists l'.
Qed.

Lemma startswith_spec s p : startswith s p = true ↔ ∃ s', s = (p ++ s')%string.
Proof.
  unfold startswith. rewrite is_prefix_spec. split.
  - intros [l Hl]. exists (str l). apply chars_inj. by rewrite chars_app, chars_str.
  - intros [s' ->]. exists (chars s'). by rewrite chars_app.
Qed.

(** ** Lines *)

(** [\n], [\r], [\v], [\f] and the separators 0x1c to 0x1e *)
Definition is_line_break (c : ascii) : bool :=
  let n := nat_of_ascii c in
  ((10 <=? n) && (n <=? 13) || (28 <=? n) && (n <=? 30))%nat.

Fixpoint lines_go (cur : list ascii) (l : list ascii) : list (list ascii) :=
  match l with
  | [] => match cur with [] => [] | _ => [rev cur] end
  | c :: l' =>
      if is_line_break c then
        rev cur :: match l' with
                   | c' :: l'' => if Ascii.eqb c "013" && Ascii.eqb c' "010"
                                  then lines_go [] l'' else lines_go [] l'
                   | [] => []
                   end
      else lines_go (c :: cur) l'
  end.

(** [s.splitlines()] *)
Definition splitlines (s : string) : list string := map str (lines_go [] (chars s)).

Definition no_break (l : list ascii) : Prop := Forall (λ c, is_line_break c = false) l.

Lemma lines_go_line cur l rest :
  no_break l →
  lines_go cur (l ++ "010"%char :: rest) = (rev cur ++ l) :: lines_go [] rest.
Proof.
  revert cur. induction l as [|c l IH]; intros cur Hl; simpl.
  - rewrite app_nil_r. by destruct rest.
  - apply Forall_cons in Hl as [Hc Hl]. rewrite Hc, IH by done. simpl. by rewrite <- app_assoc.
Qed.

(** Lines terminated by a newline read back as they are. *)
Lemma splitlines_unlines (ls : list string) :
  Forall (λ s, no_break (chars s)) ls →
  splitlines (String.concat EmptyString (map (λ s, s ++ String "010" EmptyString)%string ls)) = ls.
Proof.
  intros Hls. unfold splitlines.
  enough (H : lines_go [] (chars (String.concat EmptyString (map (λ s, s ++ String "010" EmptyString)%string ls)))
              = map chars ls).
  { rewrite H, map_map. rewrite <- (map_id ls) at 2. apply map_ext. intros s. apply str_chars. }
  induction ls as [|s ls IH]; [done|]. apply Forall_cons in Hls as [Hs Hls].
  assert (Hcons : String.concat EmptyString (map (λ s, s ++ String "010" EmptyString)%string (s :: ls))
    = (s ++ String "010" (String.concat EmptyString (map (λ s, s ++ String "010" EmptyString)%string ls)))%string).
  { apply chars_inj. destruct ls as [|s2 ls]; cbn [map String.concat]; rewrite !chars_app; simpl;
      [done|]. by rewrite <- app_assoc. }
  rewrite Hcons, chars_app. simpl.
  rewrite (lines_go_line [] (chars s) (chars _)) by done. simpl. by rewrite IH.
Qed.

(** [s.split(sep, 1)]: the parts before and after the first separator, if there is one. *)
Fixpoint split1_go (sep : ascii) (cur l : list ascii) : option (list ascii * list ascii) :=
  match l with
  | [] => None
  | c :: l' => if Ascii.eqb c sep then Some (rev cur, l') else split1_go sep (c :: cur) l'
  end.
Definition split1 (sep : ascii) (s : string) : option (string * string) :=
  match split1_go sep [] (chars s) with Some (a, b) => Some (str a, str b) | None => None end.

Lemma split1_go_app sep cur a b :
  Forall (λ c, Ascii.eqb c sep = false) a →
  split1_go sep cur (a ++ sep :: b) = Some (rev cur ++ a, b).
Proof.
  revert cur. induction a as [|c a IH]; intros cur Ha; simpl.
  - by rewrite Ascii.eqb_refl, app_nil_r.
  - apply Forall_cons in Ha as [Hc Ha]. rewrite Hc, IH by done. simpl. by rewrite <- app_assoc.
Qed.

(** [s.split(sep)]: all the parts; the text without a separator is its only part. *)
Fixpoint split_go (sep : ascii) (cur l : list ascii) : list (list ascii) :=
  match l with
  | [] => [rev cur]
  | c :: l' => if Ascii.eqb c sep then rev cur :: split_go sep [] l' else split_go sep (c :: cur) l'
  end.
Definition split (sep : ascii) (s : string) : list string := map str (split_go sep [] (chars s)).

Example split_ex : split "," "a, b,,c" = ["a"; " b"; ""; "c"]%string.
Proof. reflexivity. Qed.

(** [sep.join(words)] *)
Definition join (sep : string) (words : list string) : string := String.concat sep words.

(** [s in l] for a list or set of strings. *)
Definition mem_str (s : string) (l : list string) : bool := existsb (String.eqb s) l.

Lemma mem_str_spec s l : mem_str s l = true ↔ s ∈ l.
Proof.
  unfold mem_str. rewrite existsb_exists. setoid_rewrite <- list_elem_of_In.
  split; [intros (x & Hx & ->%String.eqb_eq)|exists s; rewrite String.eqb_refl]; auto.
Qed.

(** ** [shlex.split]

    The POSIX tokenizer with white-space splitting and without comments. [None] is
    the [ValueError] of an unclosed quotation or a trailing escape. *)
Inductive shlex_state :=
  | ShStart                      (* between words *)
  | ShWord                       (* inside a word *)
  | ShQuote (q : ascii)          (* inside a quotation *)
  | ShEscape (back : shlex_state).

Definition is_shlex_space (c : ascii) : bool :=
  Ascii.eqb c " " || Ascii.eqb c "009" || Ascii.eqb c "010" || Ascii.eqb c "013".
Definition quote1 : ascii := ascii_of_nat 39.
Definition quote2 : ascii := ascii_of_nat 34.
Definition backslash : ascii := ascii_of_nat 92.
Definition is_quote (c : ascii) : bool := Ascii.eqb c quote1 || Ascii.eqb c quote2.

Fixpoint shlex_go (st : shlex_state) (tok : list ascii) (l : list ascii) : option (list (list ascii)) :=
  match l with
  | [] =>
      match st with
      | ShStart => Some []
      | ShWord => Some [rev tok]
      | ShQuote _ | ShEscape _ => None
      end
  | c :: l' =>
      match st with
      | ShStart =>
          if is_shlex_space c then shlex_go ShStart [] l'
          else if Ascii.eqb c backslash then shlex_go (ShEscape ShWord) [] l'
          else if is_quote c then shlex_go (ShQuote c) [] l'
          else shlex_go ShWord [c] l'
      | ShWord =>
          if is_shlex_space c then
            match shlex_go ShStart [] l' with Some ws => Some (rev tok :: ws) | None => None end
          else if Ascii.eqb c backslash then shlex_go (ShEscape ShWord) tok l'
          else if is_quote c then shlex_go (ShQuote c) tok l'
          else shlex_go ShWord (c :: tok) l'
      | ShQuote q =>
          if Ascii.eqb c q then shlex_go ShWord tok l'
          else if Ascii.eqb c backslash && Ascii.eqb q quote2
          then shlex_go (ShEscape (ShQuote q)) tok l'
          else shlex_go (ShQuote q) (c :: tok) l'
      | ShEscape back =>
          match back with
          | ShQuote q =>
              if negb (Ascii.eqb c backslash) && negb (Ascii.eqb c q)
              then shlex_go back (c :: backslash :: tok) l'
              else shlex_go back (c :: tok) l'
          | _ => shlex_go back (c :: tok) l'
          end
      end
  end.

Definition shlex_split (s : string) : option (list string) :=
  match shlex_go ShStart [] (chars s) with Some ws => Some (map str ws) | None => None end.

Definition dquoted (s : string) : string := String quote2 (s ++ String quote2 EmptyString)%string.

Example shlex_split_ex :
  shlex_split ("-A INPUT  --comment " ++ dquoted "camnode:a b" ++ " x\ y")%string
  = Some ["-A"; "INPUT"; "--comment"; "camnode:a b"; "x y"]%string.
Proof. reflexivity. Qed.

Example shlex_unclosed : shlex_split (String quote1 "a") = None.
Proof. reflexivity. Qed.

Example splitlines_ex :
  splitlines ("a" ++ String "013" (String "010" ("b" ++ String "010" (String "010" "c"))))%string
  = ["a"; "b"; EmptyString; "c"]%string.
Proof. reflexivity. Qed.

(** ** Stripping *)
Lemma lstrip_split l :
  ∃ p, l = p ++ lstrip_chars l ∧ Forall (λ c, is_py_space c = true) p.
Proof.
  induction l as [|c l (p & Hl & Hp)]; simpl; [by exists []|].
  destruct (is_py_space c) eqn:Hc; [|by exists []].
  exists (c :: p). split; [by rewrite Hl at 1|by constructor].
Qed.

Definition head_solid (l : list ascii) : Prop :=
  match l with c :: _ => is_py_space c = false | [] => True end.

Lemma lstrip_head l : head_solid (lstrip_chars l).
Proof. induction l as [|c l IH]; simpl; [done|]. by destruct (is_py_space c) eqn:Hc. Qed.

Lemma lstrip_solid l : head_solid l → lstrip_chars l = l.
Proof. destruct l as [|c l]; simpl; [done|]. by intros ->. Qed.

Lemma strip_solid l : head_solid l → head_solid (rev l) → strip_chars l = l.
Proof.
  intros H1 H2. unfold strip_chars. rewrite (lstrip_solid l H1), (lstrip_solid _ H2).
  apply rev_involutive.
Qed.

Lemma strip_ends l : head_solid (strip_chars l) ∧ head_solid (rev (strip_chars l)).
Proof.
  unfold strip_chars. set (m := lstrip_chars l). rewrite rev_involutive.
  split; [|apply lstrip_head]. destruct (lstrip_split (rev m)) as (p & Hm & _).
  pose proof (lstrip_head l) as Hh. fold m in Hh.
  apply (f_equal (@rev _)) in Hm. rewrite rev_involutive, rev_app_distr in Hm.
  rewrite Hm in Hh. by destruct (rev (lstrip_chars (rev m))).
Qed.

Lemma strip_idem l : strip_chars (strip_chars l) = strip_chars l.
Proof. destruct (strip_ends l). by apply strip_solid. Qed.

Lemma py_strip_idem s : py_strip (py_strip s) = py_strip s.
Proof.
  unfold py_strip. fold (chars s). fold (str (strip_chars (chars s))).
  fold (chars (str (strip_chars (chars s)))). by rewrite chars_str, strip_idem.
Qed.

(** ** Decoding bytes

    A string of the model is the sequence of its UTF-8 bytes. [str.splitlines] and
    [str.strip] also know separators outside ASCII, so a text that holds a character
    beyond ASCII is outside the model; bytes that are not UTF-8 are a
    [UnicodeDecodeError]. *)
Definition in_range (lo hi : nat) (c : ascii) : bool :=
  ((lo <=? nat_of_ascii c) && (nat_of_ascii c <=? hi))%nat.

Definition is_ascii (s : string) : bool := forallb (in_range 0 127) (chars s).

Fixpoint utf8 (l : list ascii) : bool :=
  match l with
  | [] => true
  | c :: l1 =>
      if in_range 0 127 c then utf8 l1
      else
        match l1 with
        | c1 :: l2 =>
            if in_range 194 223 c then in_range 128 191 c1 && utf8 l2
            else
              match l2 with
              | c2 :: l3 =>
                  if in_range 224 239 c then
                    in_range (if Ascii.eqb c "224" then 160 else 128)
                             (if Ascii.eqb c "237" then 159 else 191) c1
                    && in_range 128 191 c2 && utf8 l3
                  else
                    match l3 with
                    | c3 :: l4 =>
                        in_range 240 244 c
                        && in_range (if Ascii.eqb c "240" then 144 else 128)
                                    (if Ascii.eqb c "244" then 143 else 191) c1
                        && in_range 128 191 c2 && in_range 128 191 c3 && utf8 l4
                    | [] => false
                    end
              | [] => false
              end
        | [] => false
        end
  end.

(** [path.read_text()] of the bytes. *)
Definition decode (bytes : string) : res string :=
  if is_ascii bytes then Ok bytes
  else if utf8 (chars bytes) then fail EUnmodelled else fail EUnicodeDecode.

Example decode_ex :
  (decode "a=1", decode (String "195" "("), decode (String "195" (String "164" EmptyString)))%string
  = (Ok "a=1"%string, fail EUnicodeDecode, fail EUnmodelled).
Proof. reflexivity. Qed.

(** ** Where the characters of a part come from *)
Lemma lstrip_subset l c : c ∈ lstrip_chars l → c ∈ l.
Proof. destruct (lstrip_split l) as (p & Hl & _). rewrite Hl at 2. set_solver. Qed.

Lemma strip_subset l c : c ∈ strip_chars l → c ∈ l.
Proof.
  unfold strip_chars. rewrite list_elem_of_In, <- in_rev, <- list_elem_of_In.
  intros Hc%lstrip_subset. rewrite list_elem_of_In, <- in_rev, <- list_elem_of_In in Hc.
  by apply lstrip_subset.
Qed.

Lemma py_strip_subset s c : c ∈ chars (py_strip s) → c ∈ chars s.
Proof.
  unfold py_strip. fold (str (strip_chars (chars s))). rewrite chars_str. apply strip_subset.
Qed.

Lemma split1_subset sep s k v c :
  split1 sep s = Some (k, v) → c ∈ chars k ∨ c ∈ chars v → c ∈ chars s.
Proof.
  unfold split1.
  assert (Hgo : ∀ l cur a b, split1_go sep cur l = Some (a, b) →
            c ∈ a ∨ c ∈ b → c ∈ rev cur ++ l).
  { induction l as [|x l IH]; intros cur a b; simpl; [done|].
    destruct (Ascii.eqb x sep); [intros [= <- <-]; set_solver|].
    intros Hs Hc. specialize (IH _ _ _ Hs Hc). simpl in IH. set_solver. }
  destruct (split1_go sep [] (chars s)) as [[a b]|] eqn:Hs; [|done]. intros [= <- <-].
  rewrite !chars_str. apply (Hgo _ _ _ _ Hs).
Qed.

Lemma lines_go_chars l cur line c :
  line ∈ lines_go cur l → c ∈ line → c ∈ cur ∨ c ∈ l ∧ is_line_break c = false.
Proof.
  remember (length l) as n eqn:Hn. assert (Hle : (length l ≤ n)%nat) by lia. clear Hn.
  revert l cur Hle. induction n as [|n IH]; intros [|x l] cur Hle; simpl in *; try lia.
  1,2: destruct cur; [set_solver|]; intros ->%list_elem_of_singleton Hc;
       left; by apply list_elem_of_In, in_rev, list_elem_of_In.
  destruct (is_line_break x) eqn:Hx.
  - intros [->|Hl]%elem_of_cons Hc; [left; by apply list_elem_of_In, in_rev, list_elem_of_In|].
    destruct l as [|y l]; [set_solver|]. simpl in Hle.
    destruct (Ascii.eqb x "013" && Ascii.eqb y "010"); apply IH in Hl; auto; simpl; try lia; set_solver.
  - intros Hl Hc. destruct (IH l (x :: cur) ltac:(lia) Hl Hc) as [[->|?]%elem_of_cons|[? ?]]; set_solver.
Qed.

Lemma splitlines_chars t line c :
  line ∈ splitlines t → c ∈ chars line → c ∈ chars t ∧ is_line_break c = false.
Proof.
  unfold splitlines. intros (l & -> & Hl)%list_elem_of_fmap. rewrite chars_str. intros Hc.
  destruct (lines_go_chars _ _ _ _ Hl Hc); [set_solver|done].
Qed.

Lemma is_ascii_spec s : is_ascii s = true ↔ ∀ c, c ∈ chars s → in_range 0 127 c = true.
Proof.
  unfold is_ascii. rewrite forallb_forall. by setoid_rewrite list_elem_of_In.
Qed.

(** ** More on stripping and splitting *)
Lemma lstrip_app_solid p c q :
  is_py_space c = false → lstrip_chars (p ++ c :: q) = lstrip_chars p ++ c :: q.
Proof.
  intros Hc. induction p as [|x p IH]; simpl; [by rewrite Hc|]. by destruct (is_py_space x).
Qed.

Lemma lstrip_spaces p l : Forall (λ c, is_py_space c = true) p → lstrip_chars (p ++ l) = lstrip_chars l.
Proof. induction 1 as [|c p Hc _ IH]; simpl; [done|]. by rewrite Hc. Qed.

(** Stripping on the right only. *)
Definition rstrip_chars (l : list ascii) : list ascii := rev (lstrip_chars (rev l)).

Lemma rstrip_app_solid p c q :
  is_py_space c = false → rstrip_chars (p ++ c :: q) = p ++ c :: rstrip_chars q.
Proof.
  intros Hc. unfold rstrip_chars. rewrite rev_app_distr. simpl. rewrite <- app_assoc. simpl.
  rewrite lstrip_app_solid by done. rewrite rev_app_distr. simpl. by rewrite rev_involutive, <- app_assoc.
Qed.

Lemma rstrip_split l : ∃ q, l = rstrip_chars l ++ q ∧ Forall (λ c, is_py_space c = true) q.
Proof.
  destruct (lstrip_split (rev l)) as (p & Hl & Hp). exists (rev p). split.
  - apply (f_equal (@rev _)) in Hl. rewrite rev_involutive, rev_app_distr in Hl. exact Hl.
  - by apply Forall_rev.
Qed.

Lemma rstrip_solid l : head_solid (rev l) → rstrip_chars l = l.
Proof. intros H. unfold rstrip_chars. rewrite lstrip_solid by done. apply rev_involutive. Qed.

Lemma strip_rstrip l : strip_chars (rstrip_chars l) = strip_chars l.
Proof.
  destruct (rstrip_split l) as (q & Hl & Hq). rewrite Hl at 2. unfold strip_chars.
  destruct (lstrip_split (rstrip_chars l)) as (p & Hm & Hp).
  set (m := rstrip_chars l) in *. destruct (lstrip_chars m) as [|c rest] eqn:Hc.
  - rewrite app_nil_r in Hm. rewrite Hm at 1.
    rewrite (lstrip_spaces p q Hp). assert (Hnil : lstrip_chars q = []).
    { rewrite <- (app_nil_r q), lstrip_spaces by done. done. }
    by rewrite Hnil.
  - pose proof (lstrip_head m) as Hh. rewrite Hc in Hh. simpl in Hh.
    rewrite Hm, <- app_assoc, lstrip_spaces by done. simpl. rewrite Hh.
    change (c :: rest ++ q) with ((c :: rest) ++ q).
    rewrite (rev_app_distr (c :: rest)), (lstrip_spaces (rev q)) by (by apply Forall_rev). done.
Qed.

Lemma py_strip_chars s : chars (py_strip s) = strip_chars (chars s).
Proof. unfold py_strip. fold (chars s). fold (str (strip_chars (chars s))). apply chars_str. Qed.

Lemma split1_go_inv sep l cur x y :
  split1_go sep cur l = Some (x, y) →
  ∃ z, x = rev cur ++ z ∧ l = z ++ sep :: y ∧ Forall (λ c, Ascii.eqb c sep = false) z.
Proof.
  revert cur. induction l as [|c l IH]; intros cur; simpl; [done|]. destruct (Ascii.eqb c sep) eqn:Hc.
  - apply Ascii.eqb_eq in Hc as ->. intros [= <- <-]. exists []. by rewrite app_nil_r.
  - intros (z & -> & -> & Hz)%IH. exists (c :: z). simpl. rewrite <- app_assoc. split_and!; [done..|by constructor].
Qed.
