(* ===== verification/JsonText.v ===== *)
(** * JSON texts: the canonical form and its injectivity

    [json.dumps] with compact separators and [ensure_ascii=False], character by
    character, and the proof that two documents with the same text are the same
    document: the text of a document, followed by a delimiter, determines where it ends.
    Non-integral floats are outside the model ([repr] of a float is). *)
From Stdlib Require Import Ascii Sorting.Sorted.
From S2P Require Import Prelude.
From S2P Require Import PyVal.
From S2P Require Import PyStr.

(** Induction over the values inside arrays and objects. *)
Section json_induction.
Context (P : json → Prop).
Context (Hnull : P JNull) (Hbool : ∀ b, P (JBool b)) (Hint : ∀ z, P (JInt z))
  (Hfloat : ∀ q, P (JFloat q)) (Hstr : ∀ s, P (JStr s))
  (Harr : ∀ l, Forall P l → P (JArr l))
  (Hobj : ∀ d, Forall (λ kv, P kv.2) d → P (JObj d)).

Fixpoint json_nested_ind (j : json) : P j :=
  match j with
  | JNull => Hnull | JBool b => Hbool b | JInt z => Hint z | JFloat q => Hfloat q
  | JStr s => Hstr s
  | JArr l => Harr l ((fix go l : Forall P l :=
      match l with [] => Forall_nil_2 P | x :: l' => Forall_cons_2 P x l' (json_nested_ind x) (go l') end) l)
  | JObj d => Hobj d ((fix go (d : list (string * json)) : Forall (λ kv, P kv.2) d :=
      match d with
      | [] => Forall_nil_2 _
      | kv :: d' => Forall_cons_2 (λ kv, P kv.2) kv d' (json_nested_ind kv.2) (go d')
      end) d)
  end.
End json_induction.

(** ** Printing *)
Definition hex_digit (n : nat) : ascii := ascii_of_nat (if (n <? 10)%nat then 48 + n else 87 + n).

(** One character of a string literal. *)
Definition escape_char (c : ascii) : list ascii :=
  match nat_of_ascii c with
  | 34%nat => [backslash; quote2]
  | 92%nat => [backslash; backslash]
  | 8%nat => [backslash; "b"%char]
  | 9%nat => [backslash; "t"%char]
  | 10%nat => [backslash; "n"%char]
  | 12%nat => [backslash; "f"%char]
  | 13%nat => [backslash; "r"%char]
  | n => if (n <? 32)%nat
         then [backslash; "u"; "0"; "0"; hex_digit (n / 16); hex_digit (n mod 16)]%char
         else [c]
  end.

Definition print_str (s : string) : list ascii :=
  quote2 :: flat_map escape_char (chars s) ++ [quote2].

(** [",".join(items)] *)
Fixpoint commas (items : list (list ascii)) : list ascii :=
  match items with
  | [] => []
  | [x] => x
  | x :: rest => x ++ ","%char :: commas rest
  end.

Class FloatRepr := { float_repr : Q → string }.

Section print.
Context {F : FloatRepr}.

Fixpoint print_json (j : json) : list ascii :=
  match j with
  | JNull => chars "null"
  | JBool b => chars (if b then "true" else "false")
  | JInt z => chars (pretty z)
  | JFloat q => chars (float_repr q)
  | JStr s => print_str s
  | JArr l => "["%char :: commas (map print_json l) ++ ["]"%char]
  | JObj d => "{"%char :: commas (map (fun '(k, v) => print_str k ++ ":"%char :: print_json v) d)
                       ++ ["}"%char]
  end.
End print.

(** No float is left in the document. *)
Fixpoint no_float (j : json) : bool :=
  match j with
  | JFloat _ => false
  | JArr l => forallb no_float l
  | JObj d => forallb (fun kv => no_float kv.2) d
  | _ => true
  end.

(** ** The text determines the document *)

(** What may follow a document inside a larger text. *)
Definition delimited (r : list ascii) : Prop :=
  match r with
  | [] => True
  | c :: _ => c = ","%char ∨ c = "]"%char ∨ c = "}"%char ∨ c = "010"%char
  end.

Definition hex_value (c : ascii) : nat :=
  let n := nat_of_ascii c in if (n <? 58)%nat then n - 48 else n - 87.

(** Reads one character of a literal back. *)
Definition read_char (l : list ascii) : option (ascii * list ascii) :=
  match l with
  | c :: l' =>
      if Ascii.eqb c quote2 then None
      else if Ascii.eqb c backslash then
        match l' with
        | c' :: r =>
            match nat_of_ascii c' with
            | 34%nat => Some (quote2, r)
            | 92%nat => Some (backslash, r)
            | 98%nat => Some (ascii_of_nat 8, r)
            | 116%nat => Some (ascii_of_nat 9, r)
            | 110%nat => Some (ascii_of_nat 10, r)
            | 102%nat => Some (ascii_of_nat 12, r)
            | 114%nat => Some (ascii_of_nat 13, r)
            | _ => match r with
                   | _ :: _ :: h :: l' :: r' => Some (ascii_of_nat (16 * hex_value h + hex_value l'), r')
                   | _ => None
                   end
            end
        | [] => None
        end
      else Some (c, l')
  | [] => None
  end.

Lemma read_escape c r : read_char (escape_char c ++ r) = Some (c, r).
Proof. destruct c as [[] [] [] [] [] [] [] []]; reflexivity. Qed.

Lemma escape_unique l1 l2 r1 r2 :
  flat_map escape_char l1 ++ quote2 :: r1 = flat_map escape_char l2 ++ quote2 :: r2 →
  l1 = l2 ∧ r1 = r2.
Proof.
  revert l2. induction l1 as [|c1 l1 IH]; intros [|c2 l2]; simpl; intros H.
  - naive_solver.
  - apply (f_equal read_char) in H. by rewrite <- app_assoc, read_escape in H.
  - apply (f_equal read_char) in H. by rewrite <- app_assoc, read_escape in H.
  - apply (f_equal read_char) in H. rewrite <- !app_assoc, !read_escape in H.
    injection H as -> H. by destruct (IH _ H) as [-> ->].
Qed.

Lemma print_str_head s : ∃ l, print_str s = quote2 :: l.
Proof. by eexists. Qed.

Lemma print_str_unique s1 s2 r1 r2 :
  print_str s1 ++ r1 = print_str s2 ++ r2 → s1 = s2 ∧ r1 = r2.
Proof.
  unfold print_str. simpl. rewrite <- !app_assoc. intros [= H].
  apply escape_unique in H as [H ->]. by apply (inj chars) in H.
Qed.

(** A run of digits ends where the delimiter begins. *)
Lemma span_unique (p : ascii → Prop) a1 a2 r1 r2 :
  Forall p a1 → Forall p a2 →
  match r1 with c :: _ => ¬ p c | [] => True end → match r2 with c :: _ => ¬ p c | [] => True end →
  a1 ++ r1 = a2 ++ r2 → a1 = a2 ∧ r1 = r2.
Proof.
  intros H1. revert a2. induction H1 as [|c1 a1 Hc1 _ IH]; intros a2 H2 Hr1 Hr2 H.
  - destruct H2; simplify_eq/=; naive_solver.
  - destruct H2; simplify_eq/=; naive_solver.
Qed.

Definition number_char (c : ascii) : Prop := is_digit c ∨ c = "-"%char.

Lemma pretty_chars (z : Z) : Forall number_char (chars (pretty z)) ∧ chars (pretty z) ≠ [].
Proof.
  assert (HD : ∀ D, Forall is_digit D → Forall number_char D).
  { intros D HD. eapply Forall_impl; [done|]. by left. }
  destruct z as [|p|p].
  - split; [|done]. apply HD. by repeat constructor.
  - change (pretty (Z.pos p)) with (pretty (N.pos p)).
    destruct (pretty_N_digits (N.pos p)) as (D & HE & Hd & Hne & _).
    unfold chars. rewrite HE. auto.
  - change (pretty (Z.neg p)) with ("-" ++ pretty (N.pos p))%string. rewrite chars_app.
    destruct (pretty_N_digits (N.pos p)) as (D & HE & Hd & _).
    unfold chars at 2 4. rewrite HE. split; [|done]. constructor; [by right|auto].
Qed.

Lemma number_unique (z1 z2 : Z) r1 r2 :
  delimited r1 → delimited r2 →
  chars (pretty z1) ++ r1 = chars (pretty z2) ++ r2 → z1 = z2 ∧ r1 = r2.
Proof.
  assert (Hd : ∀ r, delimited r → match r with c :: _ => ¬ number_char c | [] => True end).
  { intros [|c r]; [done|]. by intros [->|[->|[->| ->]]] [[]|]. }
  intros H1 H2 H. destruct (pretty_chars z1) as [N1 _], (pretty_chars z2) as [N2 _].
  destruct (span_unique number_char _ _ _ _ N1 N2 (Hd _ H1) (Hd _ H2) H) as [E ->].
  apply (inj chars) in E. by apply (inj pretty) in E.
Qed.

(** The first character tells the kind of the document. *)
Definition kind (j : json) : nat :=
  match j with
  | JNull => 1 | JBool _ => 2 | JInt _ => 3 | JStr _ => 4 | JArr _ => 5 | JObj _ => 6 | JFloat _ => 7
  end%nat.

Definition head_kind (c : ascii) : nat :=
  match nat_of_ascii c with
  | 110 => 1 | 102 => 2 | 116 => 2 | 34 => 4 | 91 => 5 | 123 => 6 | 45 => 3
  | n => if ((48 <=? n) && (n <=? 57))%nat then 3 else 0
  end%nat.

Lemma number_head c : number_char c → head_kind c = 3%nat.
Proof.
  intros [Hd| ->]; [|done]. unfold is_digit in Hd.
  destruct c as [[] [] [] [] [] [] [] []]; first [reflexivity|by destruct Hd].
Qed.

Section injective.
Context {F : FloatRepr}.

Lemma print_head j :
  no_float j = true → ∃ c l, print_json j = c :: l ∧ head_kind c = kind j.
Proof.
  destruct j as [|[]|z|q|s|l|d]; intros Hj; try done; try (by eexists _, _).
  simpl. destruct (pretty_chars z) as [HN Hne]. destruct (chars (pretty z)) as [|c l]; [done|].
  inversion HN. eexists _, _. split; [done|]. by apply number_head.
Qed.

(** A list of items whose own texts are determined, up to its closing bracket. *)
Lemma commas_unique {A} (p : A → list ascii) (close : ascii) (l1 l2 : list A) r1 r2 :
  close = "]"%char ∨ close = "}"%char →
  (∀ a, a ∈ l1 ++ l2 → ∃ c l, p a = c :: l ∧ (c ≠ "]"%char ∧ c ≠ "}"%char)) →
  Forall (λ a, ∀ b r1 r2, b ∈ l2 → delimited r1 → delimited r2 →
    p a ++ r1 = p b ++ r2 → a = b ∧ r1 = r2) l1 →
  commas (map p l1) ++ close :: r1 = commas (map p l2) ++ close :: r2 → l1 = l2 ∧ r1 = r2.
Proof.
  intros Hclose. assert (Hdel : ∀ r, delimited (close :: r)) by (destruct Hclose; subst; simpl; tauto).
  assert (Hcom : ∀ r, delimited (","%char :: r)) by (simpl; tauto).
  revert l2. induction l1 as [|a l1 IH]; intros l2 Hhead Hl1 H.
  - destruct l2 as [|b l2]; [by simplify_eq/=|].
    destruct (Hhead b) as (c & l & Hb & Hc); [set_solver|].
    destruct l2; simpl in H; rewrite Hb in H; simplify_eq/=; naive_solver.
  - apply Forall_cons in Hl1 as [Ha Hl1]. destruct l2 as [|b l2].
    { destruct (Hhead a) as (c & l & Hb & Hc); [set_solver|].
      destruct l1; simpl in H; rewrite Hb in H; simplify_eq/=; naive_solver. }
    assert (Hne : close ≠ ","%char) by (by destruct Hclose; subst).
    destruct l1 as [|a' l1], l2 as [|b' l2]; simpl in H.
    + apply Ha in H as [-> [= ->]]; [done|set_solver|auto..].
    + rewrite <- app_assoc, <- app_comm_cons in H. apply Ha in H as [_ ?]; [naive_solver|set_solver|auto..].
    + rewrite <- app_assoc, <- app_comm_cons in H. apply Ha in H as [_ ?]; [naive_solver|set_solver|auto..].
    + rewrite <- !app_assoc, <- !app_comm_cons in H. apply Ha in H as [-> [= H]]; [|set_solver|auto..].
      apply (IH (b' :: l2)) in H as [? ?]; [naive_solver| |].
      * intros x Hx. apply Hhead. set_solver.
      * eapply Forall_impl; [done|]. intros x Hx b0 s1 s2 Hb0. apply Hx. set_solver.
Qed.

Lemma not_closing c : head_kind c ≠ 0%nat → c ≠ "]"%char ∧ c ≠ "}"%char.
Proof. intros Hc. split; intros ->; by apply Hc. Qed.

#[local] Opaque print_str.

(** The text of a document, up to the delimiter after it, determines the document. *)
Lemma print_json_unique j1 j2 r1 r2 :
  no_float j1 = true → no_float j2 = true → delimited r1 → delimited r2 →
  print_json j1 ++ r1 = print_json j2 ++ r2 → j1 = j2 ∧ r1 = r2.
Proof.
  revert j2 r1 r2. induction j1 as [|b1|z1|q1|s1|l1 IH|d1 IH] using json_nested_ind;
    intros j2 r1 r2 Hf1 Hf2 Hr1 Hr2 H; try discriminate Hf1;
    (assert (Hk : kind j2 = kind (_ : json)) by
      (destruct (print_head _ Hf1) as (c1 & t1 & E1 & K1), (print_head _ Hf2) as (c2 & t2 & E2 & K2);
       rewrite E1, E2 in H; injection H as -> _; rewrite <- K1; symmetry; exact K2);
     destruct j2 as [|b2|z2|q2|s2|l2|d2]; try discriminate Hk; try discriminate Hf2; clear Hk).
  - split; [done|]. by apply (inj (app (chars "null"))) in H.
  - destruct b1, b2; try (simpl in H; discriminate H); split; try done; simpl in H; by simplify_eq.
  - apply number_unique in H as [-> ->]; auto.
  - apply print_str_unique in H as [-> ->]; auto.
  - cbn [print_json no_float] in H, Hf1, Hf2.
    rewrite <- !app_comm_cons, <- !app_assoc in H. injection H as H.
    rewrite forallb_forall in Hf1, Hf2.
    apply commas_unique in H as [-> ->]; auto.
    + intros a [Ha|Ha]%elem_of_app; apply list_elem_of_In in Ha;
        destruct (print_head a) as (c & t & E & K); auto; exists c, t; (split; [done|]);
        apply not_closing; rewrite K; by destruct a.
    + rewrite Forall_forall in *. intros a Ha b s1 s2 Hb Hs1 Hs2.
      apply list_elem_of_In in Hb. apply IH; auto. apply Hf1. by apply list_elem_of_In.
  - cbn [print_json no_float] in H, Hf1, Hf2.
    rewrite <- !app_comm_cons, <- !app_assoc in H. injection H as H.
    rewrite forallb_forall in Hf1, Hf2.
    apply commas_unique in H as [-> ->]; auto.
    + intros [k v] _. destruct (print_str_head k) as [l ->]. simpl. by eexists _, _.
    + rewrite Forall_forall in *. intros [k v] Ha [k' v'] s1 s2 Hb Hs1 Hs2 E.
      rewrite <- !(app_assoc (print_str _)), <- !app_comm_cons in E. apply print_str_unique in E as [-> [= E]].
      apply (IH _ Ha) in E as [E ->]; auto.
      * simpl in E. by subst.
      * apply (Hf1 (k', v)). by apply list_elem_of_In.
      * apply (Hf2 (k', v')). by apply list_elem_of_In.
Qed.

Lemma print_json_inj j1 j2 :
  no_float j1 = true → no_float j2 = true → print_json j1 = print_json j2 → j1 = j2.
Proof.
  intros H1 H2 H. apply (print_json_unique _ _ [] []); [done..|]. by rewrite !app_nil_r.
Qed.
End injective.

(** ** Sorting twice *)
Lemma sort_items_map {A B} (f : A → B) (d : dict A) :
  sort_items (map (λ '(k, v), (k, f v)) d) = map (λ '(k, v), (k, f v)) (sort_items d).
Proof.
  induction d as [|[k v] d IH]; simpl; [done|]. rewrite IH. generalize (sort_items d) as s.
  induction s as [|[k' v'] s IHs]; simpl; [done|]. destruct (String.leb k k'); simpl; by rewrite ?IHs.
Qed.


Definition key_le {A} (x y : string * A) : Prop := String.leb x.1 y.1 = true.

Lemma insert_item_sorted {A} k (v : A) d : Sorted key_le d → Sorted key_le (insert_item k v d).
Proof.
  induction 1 as [|[k' v'] d Hd IH Hhd]; simpl; [by repeat constructor|].
  destruct (String.leb k k') eqn:Hk; [by repeat constructor|]. constructor; [done|].
  assert (Hk' : String.leb k' k = true) by (destruct (String.leb_total k k'); congruence).
  destruct d as [|[k2 v2] d]; simpl; [by constructor|].
  destruct (String.leb k k2); constructor; [done|]. by inversion Hhd.
Qed.

Lemma sort_items_sorted {A} (d : dict A) : Sorted key_le (sort_items d).
Proof. induction d as [|[k v] d IH]; simpl; [constructor|]. by apply insert_item_sorted. Qed.

Lemma sort_sorted {A} (d : dict A) : Sorted key_le d → sort_items d = d.
Proof.
  induction 1 as [|[k v] d Hd IH Hhd]; simpl; [done|]. rewrite IH.
  destruct d as [|[k' v'] d]; simpl; [done|]. inversion Hhd as [|? ? Hle]; subst. unfold key_le in Hle. simpl in Hle.
  by rewrite Hle.
Qed.

Lemma sort_items_idem {A} (d : dict A) : sort_items (sort_items d) = sort_items d.
Proof. apply sort_sorted, sort_items_sorted. Qed.

Lemma sort_json_idem j : sort_json (sort_json j) = sort_json j.
Proof.
  induction j as [| | | | |l IH|d IH] using json_nested_ind; try done; simpl; f_equal.
  - rewrite map_map. apply map_ext_in. intros x Hx. rewrite Forall_forall in IH.
    by apply IH, list_elem_of_In.
  - rewrite !sort_items_map, sort_items_idem, map_map. apply map_ext_in. intros [k v] Hin. f_equal.
    rewrite Forall_forall in IH. apply (IH (k, v)). by apply sort_items_elem, list_elem_of_In.
Qed.

(** ** Values without objects *)
Fixpoint flat_json (j : json) : bool :=
  match j with JObj _ => false | JArr l => forallb flat_json l | _ => true end.

Lemma flat_sort j : flat_json j = true → sort_json j = j.
Proof.
  induction j as [| | | | |l IH|] using json_nested_ind; try done. simpl. intros Hl. f_equal.
  rewrite <- (map_id l) at 2. apply map_ext_in. intros x Hx. rewrite Forall_forall in IH.
  apply IH; [by apply list_elem_of_In|]. rewrite forallb_forall in Hl. auto.
Qed.

Lemma flat_eq j : flat_json j = true → py_eq j j = true.
Proof.
  induction j as [|b|z|q|s|l IH|] using json_nested_ind; try done; simpl.
  - intros _. by destruct b.
  - intros _. apply Qeq_bool_iff. reflexivity.
  - intros _. apply Qeq_bool_iff. reflexivity.
  - intros _. apply String.eqb_refl.
  - intros Hl. induction IH as [|x l Hx _ IH]; simpl in *; [done|].
    apply andb_true_iff in Hl as [H1 H2]. by rewrite Hx, IH.
Qed.
