(* ===== verification/FileStore.v ===== *)
(** * Store files: durable atomic writes and corruption quarantine

    Models [app/services/store_safety.py] over an abstract JSON file. What a read
    sees is one of: no file, an unreadable file ([OSError]), bytes that are not
    UTF-8, or a text that is empty, blank, not JSON, or a JSON document. Every
    system call of a write can be made to fail ([f_fault]), which is how the
    crash-safety theorems quantify over the failure points. *)
From S2P Require Import Prelude.
From S2P Require Import PyVal.

Inductive text :=
  | TxEmpty
  | TxBlank
  | TxGarbage
  | TxDoc (j : json)
  | TxRaw (s : string).      (* a text that is not JSON, where its words matter *)

Inductive content :=
  | Absent
  | Unreadable
  | NotUtf8
  | Text (t : text).

(** The system calls that can raise [OSError]. *)
Inductive syscall :=
  | SysLock | SysMkdir | SysMkstemp | SysWrite | SysFsync | SysFchmod | SysReplace
  | SysDirFsync | SysCopy | SysOpen | SysRead | SysTruncate | SysUnlink | SysStat.

#[export] Instance syscall_eq_dec : EqDecision syscall.
Proof. solve_decision. Defined.

Record file := File {
  f_content : content;
  f_mode : Z;                        (* permission bits of the file *)
  f_temp : option (content * Z);     (* temporary sibling: content, permission bits *)
  f_copies : list content;           (* [<path>.corrupt.<ts>] copies, oldest first *)
  f_fault : option syscall;          (* the call that fails, if any *)
}.

Definition file_of (c : content) : file := File c 420 None [] None.

Definition set_content (c : content) (m : Z) (f : file) : file :=
  File c m (f_temp f) (f_copies f) (f_fault f).
Definition set_temp (t : option (content * Z)) (f : file) : file :=
  File (f_content f) (f_mode f) t (f_copies f) (f_fault f).
Definition set_copies (l : list content) (f : file) : file :=
  File (f_content f) (f_mode f) (f_temp f) l (f_fault f).

Definition set_fault (x : option syscall) (f : file) : file :=
  File (f_content f) (f_mode f) (f_temp f) (f_copies f) x.

Definition sys (s : syscall) : M file unit :=
  fun f => if decide (f_fault f = Some s) then (fail EOS, f) else (Ok tt, f).

(** [with suppress(OSError): m] *)
Definition suppress_oserror {W} (m : M W unit) : M W unit :=
  try_except m COSError (fun _ => mret tt).

Definition exists_ (c : content) : bool := match c with Absent => false | _ => true end.

(** [path.read_text()] *)
Definition read_text (c : content) : res text :=
  match c with
  | Absent => fail EFileNotFound
  | Unreadable => fail EOS
  | NotUtf8 => fail EUnicodeDecode
  | Text t => Ok t
  end.

(** [path.read_text()] on a file whose reading may fail, and what such a read finds: a
    read that fails is one of an unreadable file. *)
Definition file_read : M file text := sys SysRead ;; f ← get; lift (read_text (f_content f)).

Definition seen (f : file) : content :=
  if decide (f_fault f = Some SysRead)
  then match f_content f with Absent => Absent | _ => Unreadable end
  else f_content f.

Lemma seen_ok f : f_fault f ≠ Some SysRead → seen f = f_content f.
Proof. intros Hf. unfold seen. by rewrite decide_False. Qed.

Lemma seen_cases f :
  seen f = f_content f ∨ (f_fault f = Some SysRead ∧ seen f = Unreadable).
Proof. unfold seen. case_decide; [|by left]. destruct (f_content f); eauto. Qed.

Lemma seen_absent f : exists_ (f_content f) = false → seen f = Absent.
Proof. unfold seen. destruct (f_content f); try done. by case_decide. Qed.

Lemma file_read_eq f : exists_ (f_content f) = true → file_read f = (read_text (seen f), f).
Proof.
  intros He. unfold file_read, sys, seen, mbind, M_bind. case_decide; [|done].
  by destruct (f_content f).
Qed.

(** [not raw.strip()] *)
Definition blank (t : text) : bool :=
  match t with TxEmpty | TxBlank => true | _ => false end.

(** [json.loads(raw)] *)
Definition json_loads (t : text) : res json :=
  match t with TxDoc j => Ok j | _ => fail EJsonDecode end.

(** [store_safety.atomic_write_text]: [mkstemp] creates the temporary file with
    mode 0600; on any failure the temporary file is unlinked and the exception
    propagates; a failing directory fsync is suppressed. *)
Definition atomic_write_text (c : content) (mode : option Z) : M file unit :=
  sys SysMkdir ;;
  sys SysMkstemp ;;
  modify (set_temp (Some (Text TxEmpty, 384))) ;;
  try_except
    (sys SysWrite ;;
     modify (fun f => set_temp (Some (c, snd (default (c, 384) (f_temp f)))) f) ;;
     sys SysFsync ;;
     match mode with
     | Some m =>
         sys SysFchmod ;;
         modify (fun f => set_temp (Some (fst (default (c, 384) (f_temp f)), m)) f)
     | None => mret tt
     end ;;
     sys SysReplace ;;
     modify (fun f => match f_temp f with
                      | Some (c', m) => set_temp None (set_content c' m f)
                      | None => f
                      end) ;;
     suppress_oserror (sys SysDirFsync))
    CException
    (fun e => modify (set_temp None) ;; raise e).

(** [system.atomic_write_text]: the control plane's writer for its runtime files,
    without a mode and without the directory fsync. *)
Definition system_write_text (c : content) : M file unit :=
  sys SysMkdir ;;
  sys SysMkstemp ;;
  modify (set_temp (Some (Text TxEmpty, 384))) ;;
  try_except
    (sys SysWrite ;;
     modify (fun f => set_temp (Some (c, snd (default (c, 384) (f_temp f)))) f) ;;
     sys SysFsync ;;
     sys SysReplace ;;
     modify (fun f => match f_temp f with
                      | Some (c', m) => set_temp None (set_content c' m f)
                      | None => f
                      end))
    CException
    (fun e => modify (set_temp None) ;; raise e).

(** [json.dumps(state, indent=2, sort_keys=True)] *)
Definition dumps (j : json) : content := Text (TxDoc (sort_json j)).

(** [store_safety.quarantine_corrupt]: at most one forensic copy, the original is
    left in place, never raises; returns the copy. *)
Definition quarantine_corrupt : M file (option content) :=
  f ← get;
  match last (f_copies f) with
  | Some c => mret (Some c)
  | None =>
      try_except
        (sys SysCopy ;;
         lift (match f_content f with           (* [shutil.copy2] reads the original *)
               | Absent => fail EFileNotFound
               | Unreadable => fail EOS
               | _ => Ok tt
               end) ;;
         modify (fun f => set_copies (f_copies f ++ [f_content f]) f) ;;
         mret (Some (f_content f)))
        COSError (fun _ => mret None)
  end.

(** The tmp-and-replace writers that the topology store and the operation journal
    write by hand: [open(tmp)], [json.dump], flush, fsync, [os.replace]. The new
    file keeps the mode of a freshly opened file (0644), and a failure leaves the
    temporary file behind. *)
Definition replace_write (c : content) : M file unit :=
  sys SysWrite ;;
  modify (set_temp (Some (c, 420))) ;;
  sys SysFsync ;;
  sys SysReplace ;;
  modify (fun f => set_temp None (set_content c 420 f)).

(** [if path.exists(): path.unlink()] *)
Definition unlink_if_exists : M file unit :=
  f ← get;
  when (exists_ (f_content f)) (sys SysUnlink ;; modify (fun f => set_content Absent (f_mode f) f)).

(** ** Laws *)

(** The faults that happen before the rename makes the new content visible. *)
Definition aborts_write (mode : option Z) (s : syscall) : bool :=
  match s with
  | SysMkdir | SysMkstemp | SysWrite | SysFsync | SysReplace => true
  | SysFchmod => match mode with Some _ => true | None => false end
  | _ => false
  end.

Definition write_faults (mode : option Z) (f : file) : bool :=
  match f_fault f with Some s => aborts_write mode s | None => false end.

(** The abstract specification of an atomic write: all or nothing. *)
Definition write_spec (c : content) (mode : option Z) (f : file) : res unit * file :=
  if write_faults mode f then (fail EOS, set_temp (if f_fault f is Some (SysMkdir | SysMkstemp)
                                                   then f_temp f else None) f)
  else (Ok tt, set_temp None (set_content c (default 384 mode) f)).

Lemma atomic_write_refines c mode f : atomic_write_text c mode f = write_spec c mode f.
Proof.
  destruct f as [c0 m0 t0 q0 fault]; unfold write_spec, write_faults; simpl.
  destruct fault as [[]|], mode as [m|]; reflexivity.
Qed.

Lemma system_write_refines c f : system_write_text c f = write_spec c None f.
Proof.
  destruct f as [c0 m0 t0 q0 fault]; unfold write_spec, write_faults; simpl.
  destruct fault as [[]|]; reflexivity.
Qed.

Lemma sys_ok s f : f_fault f = None → sys s f = (Ok tt, f).
Proof. unfold sys. intros ->. by rewrite decide_False. Qed.

Lemma quarantine_content f r f' :
  quarantine_corrupt f = (r, f') →
  f_content f' = f_content f ∧ f_mode f' = f_mode f ∧ f_fault f' = f_fault f ∧ is_ok r = true.
Proof.
  destruct f as [c m t q fault]. unfold quarantine_corrupt, get, mbind, M_bind. simpl.
  destruct (last q); [intros [= <- <-]; auto|].
  unfold try_except, mbind, M_bind, sys. simpl.
  destruct (decide _), c; intros [= <- <-]; auto.
Qed.

(** Decoding raises exceptions of the program. *)
Lemma json_loads_catchable t e : json_loads t = Raise e → catchable (ex_kind e).
Proof. by destruct t; intros [= <-]. Qed.
Lemma jget_catchable j k d e : jget j k d = Raise e → catchable (ex_kind e).
Proof. by destruct j; intros [= <-]. Qed.
#[export] Hint Resolve json_loads_catchable jget_catchable : pres.
