(* ===== verification/FdirEvents.v ===== *)
(** * FDIR events ([app/services/fdir_events.py])

    The vocabulary of the fault-detection subsystem (severities, fault domains,
    recovery actions), the event record, the in-memory ring buffer and the rotating
    log file. Emission itself, which reads the clock, is [World.emit]. *)
From S2P Require Import Prelude.
From S2P Require Import PyVal.

Inductive Severity := INFO | WARN | ERROR | CRITICAL.

Inductive Domain := SENSOR | PIPELINE | JANUS | NETWORK | TURN | CLIENT | SYSTEM | PRODUCER.

Inductive RecoveryAction :=
  | RETRY_HANDLE | RESTART_PIPELINE | RESTART_JANUS | USB_RESET | REBOOT_NODE
  | DEGRADE_PROFILE | SWITCH_MODE | NONE.

#[export] Instance Severity_eq_dec : EqDecision Severity.
Proof. solve_decision. Defined.
#[export] Instance Domain_eq_dec : EqDecision Domain.
Proof. solve_decision. Defined.
#[export] Instance RecoveryAction_eq_dec : EqDecision RecoveryAction.
Proof. solve_decision. Defined.

(** The string values of the enumerations. *)
Definition severity_value (s : Severity) : string :=
  match s with INFO => "info" | WARN => "warn" | ERROR => "error" | CRITICAL => "critical" end.

Definition domain_value (d : Domain) : string :=
  match d with
  | SENSOR => "sensor" | PIPELINE => "pipeline" | JANUS => "janus" | NETWORK => "network"
  | TURN => "turn" | CLIENT => "client" | SYSTEM => "system" | PRODUCER => "producer"
  end.

Definition action_value (a : RecoveryAction) : string :=
  match a with
  | RETRY_HANDLE => "retry_handle" | RESTART_PIPELINE => "restart_pipeline"
  | RESTART_JANUS => "restart_janus" | USB_RESET => "usb_reset"
  | REBOOT_NODE => "reboot_node" | DEGRADE_PROFILE => "degrade_profile"
  | SWITCH_MODE => "switch_mode" | NONE => "none"
  end.

Record FdirEvent := mkEvent {
  ev_timestamp : Q;
  ev_domain : Domain;
  ev_severity : Severity;
  ev_signal : string;
  ev_action : RecoveryAction;
  ev_outcome : string;
  ev_details : dict json;
  ev_binding_id : option string;
  ev_node_id : option string;
  ev_sensor : option string;
}.

(** ** The ring buffer: [deque(maxlen=RING_MAX)] *)
Definition ring_append (ring_max : nat) (r : list FdirEvent) (e : FdirEvent) : list FdirEvent :=
  let r' := r ++ [e] in drop (length r' - ring_max) r'.

(** Python's [l[-n:]]: the last [n] items, but the whole list for [n = 0]. *)
Definition slice_last {A} (n : Z) (l : list A) : list A :=
  if n =? 0 then l
  else if 0 <? n then drop (length l - Z.to_nat n) l
  else drop (Z.to_nat (- n)) l.

(** [recent(n)]: newest first. *)
Definition recent (n : Z) (r : list FdirEvent) : list FdirEvent := rev (slice_last n r).

(** ** The log file and its single backup *)
Record event_log := mkLog { lg_current : list FdirEvent; lg_backup : list FdirEvent }.

Section log.
(** The length of an event's JSON line, which the rotation adds up. *)
Context (event_bytes : FdirEvent → Z) (max_bytes : Z).

Definition log_size (l : list FdirEvent) : Z :=
  foldr (fun e n => event_bytes e + n) 0 l.

(** The file is there and full. *)
Definition log_full (l : event_log) : bool :=
  match lg_current l with [] => false | cur => max_bytes <=? log_size cur end.

(** [log_path.replace(backup)] *)
Definition rotate_log (l : event_log) : event_log := mkLog [] (lg_current l).
Definition append_log (e : FdirEvent) (l : event_log) : event_log := mkLog (lg_current l ++ [e]) (lg_backup l).
End log.

(** ** Laws *)
Lemma ring_append_length n r e :
  (length r ≤ n)%nat → (length (ring_append n r e) ≤ n)%nat.
Proof. unfold ring_append. rewrite length_drop, length_app. simpl. lia. Qed.

Lemma ring_append_last n r e : (0 < n)%nat → last (ring_append n r e) = Some e.
Proof.
  intros Hn. unfold ring_append. rewrite length_app. simpl.
  rewrite drop_app_le by lia. apply last_snoc.
Qed.

Lemma ring_append_prefix n r e :
  (length r < n)%nat → ring_append n r e = r ++ [e].
Proof.
  intros Hn. unfold ring_append. rewrite length_app. simpl.
  by replace (length r + 1 - n)%nat with 0%nat by lia.
Qed.

(** The recovery events of one resource, newest first, survive up to the bound. *)
Lemma recent_head n r e : 0 < n → head (recent n (r ++ [e])) = Some e.
Proof.
  intros Hn. unfold recent, slice_last. rewrite (proj2 (Z.eqb_neq n 0)) by lia.
  rewrite (proj2 (Z.ltb_lt 0 n)) by lia.
  rewrite drop_app_le; rewrite length_app; simpl; [|lia].
  by rewrite rev_unit.
Qed.
