(* ===== verification/LadderPolicy.v ===== *)
(** * The recovery ladder's policy and decision function
    ([app/services/recovery_policy.py], [app/services/recovery_state_machine.py])

    Times are rationals: a reading of the monotonic clock in seconds. *)
From S2P Require Import Prelude.
From S2P Require Import PyVal.
From S2P Require Import FdirEvents.

(** ** Levels *)
Record LadderLevel := mkLevel {
  lv_name : string;
  lv_action : RecoveryAction;
  lv_max_attempts : Z;
  lv_cooldown_sec : Q;
  lv_attempts : Z;
  lv_last_attempt : Q;
}.

Definition fresh_level (name : string) (a : RecoveryAction) (max_attempts : Z) (cooldown : Z)
    : LadderLevel :=
  mkLevel name a max_attempts (inject_Z cooldown) 0 0.

Definition default_ladder (camera_type : string) : list LadderLevel :=
  [fresh_level "retry_handle" RETRY_HANDLE 1 10;
   fresh_level "restart_pipeline" RESTART_PIPELINE 5 45;
   fresh_level "restart_janus" RESTART_JANUS 3 90] ++
  (if String.eqb camera_type "depth_camera"
   then [fresh_level "usb_reset" USB_RESET 2 90] else []) ++
  [fresh_level "reboot_node" REBOOT_NODE 1 300].

Definition set_attempts (n : Z) (l : LadderLevel) : LadderLevel :=
  mkLevel (lv_name l) (lv_action l) (lv_max_attempts l) (lv_cooldown_sec l) n (lv_last_attempt l).
Definition set_last_attempt (t : Q) (l : LadderLevel) : LadderLevel :=
  mkLevel (lv_name l) (lv_action l) (lv_max_attempts l) (lv_cooldown_sec l) (lv_attempts l) t.

(** The configuration of a level, which nothing ever changes. *)
Definition lv_config (l : LadderLevel) : string * RecoveryAction * Z * Q :=
  (lv_name l, lv_action l, lv_max_attempts l, lv_cooldown_sec l).

(** ** The decision *)
Inductive DecisionKind := DExhausted | DSkipDedup | DCooldown | DEscalate | DExecute.

Record EscalationDecision := mkDecision {
  dec_kind : DecisionKind;
  dec_level_idx : nat;
  dec_cooldown_remaining : Q;
}.

(** [round(x, 1)]: half to even on the tenths. *)
Definition round_half_even (q : Q) : Z :=
  let f := Qround.Qfloor q in
  match Qcompare (q - inject_Z f) (1 # 2) with
  | Lt => f
  | Gt => f + 1
  | Eq => if Z.even f then f else f + 1
  end.

Definition round1 (q : Q) : Q := (inject_Z (round_half_even (q * 10)) / 10)%Q.

Definition decide_escalation (current_level : nat) (levels : list LadderLevel)
    (last_escalation_ts now dedup_window_sec : Q) : EscalationDecision :=
  match levels !! current_level with
  | None => mkDecision DExhausted current_level 0
  | Some level =>
      if Qltb (now - last_escalation_ts) dedup_window_sec
      then mkDecision DSkipDedup current_level 0
      else if Qltb (now - lv_last_attempt level) (lv_cooldown_sec level)
      then mkDecision DCooldown current_level
             (round1 (lv_cooldown_sec level - (now - lv_last_attempt level)))
      else if lv_max_attempts level <=? lv_attempts level
      then mkDecision DEscalate (S current_level) 0
      else mkDecision DExecute current_level 0
  end.

Definition is_actionable (d : EscalationDecision) : bool :=
  match dec_kind d with DEscalate | DExecute | DExhausted => true | _ => false end.

(** ** The ladder's state *)
Record Ladder := mkLadder {
  ld_levels : list LadderLevel;
  ld_current : nat;
  ld_total : Z;
  ld_last_escalation : Q;
}.

Definition set_level_at (i : nat) (f : LadderLevel → LadderLevel) (l : Ladder) : Ladder :=
  mkLadder (alter f i (ld_levels l)) (ld_current l) (ld_total l) (ld_last_escalation l).
Definition set_current (n : nat) (l : Ladder) : Ladder :=
  mkLadder (ld_levels l) n (ld_total l) (ld_last_escalation l).

(** ** Laws *)

(** What each decision says about the state it was taken in. *)
Definition decision_spec (cur : nat) (levels : list LadderLevel) (last_esc now dedup : Q)
    (d : EscalationDecision) : Prop :=
  match dec_kind d with
  | DExhausted => levels !! cur = None ∧ dec_level_idx d = cur
  | DSkipDedup => (now - last_esc < dedup)%Q ∧ dec_level_idx d = cur ∧ is_Some (levels !! cur)
  | DCooldown =>
      ∃ l, levels !! cur = Some l ∧ dec_level_idx d = cur ∧ (dedup <= now - last_esc)%Q ∧
           (now - lv_last_attempt l < lv_cooldown_sec l)%Q
  | DEscalate =>
      ∃ l, levels !! cur = Some l ∧ dec_level_idx d = S cur ∧ (dedup <= now - last_esc)%Q ∧
           (lv_cooldown_sec l <= now - lv_last_attempt l)%Q ∧ lv_max_attempts l ≤ lv_attempts l
  | DExecute =>
      ∃ l, levels !! cur = Some l ∧ dec_level_idx d = cur ∧ (dedup <= now - last_esc)%Q ∧
           (lv_cooldown_sec l <= now - lv_last_attempt l)%Q ∧ lv_attempts l < lv_max_attempts l
  end.

Lemma decide_meets_spec cur levels last_esc now dedup :
  decision_spec cur levels last_esc now dedup (decide_escalation cur levels last_esc now dedup).
Proof.
  unfold decision_spec, decide_escalation.
  destruct (levels !! cur) as [l|] eqn:Hl; [|done].
  destruct (Qltb (now - last_esc) dedup) eqn:H1; simpl; [by rewrite Qltb_lt in H1|].
  rewrite Qltb_ge in H1.
  destruct (Qltb (now - lv_last_attempt l) _) eqn:H2; simpl.
  { rewrite Qltb_lt in H2. eauto 10. }
  rewrite Qltb_ge in H2. destruct (Z.leb_spec (lv_max_attempts l) (lv_attempts l)); simpl; eauto 10.
Qed.

(** The specification determines the decision's kind. *)
Lemma decision_spec_functional cur levels last_esc now dedup d1 d2 :
  decision_spec cur levels last_esc now dedup d1 →
  decision_spec cur levels last_esc now dedup d2 →
  dec_kind d1 = dec_kind d2 ∧ dec_level_idx d1 = dec_level_idx d2.
Proof.
  unfold decision_spec.
  destruct (dec_kind d1), (dec_kind d2); intros H1 H2;
    repeat match goal with
           | H : ∃ _, _ |- _ => destruct H
           | H : _ ∧ _ |- _ => destruct H
           | H : is_Some _ |- _ => destruct H
           end; simplify_eq; try (split; congruence); exfalso; first [lia|lra].
Qed.
