(* ===== verification/World.v ===== *)
(** * The FDIR world: state, environment and primitive effects

    The mutable state of the FDIR components ([system_mode._state], the module
    variables of [fdir_quiesce.py] and [watchdogs.py], the ladder object, the event
    ring and the files the control plane owns), together with the environment they
    interact with. The environment ([Env]) answers the n-th interaction: a clock
    reading, a command, a probe of Janus, a stat of the snapshot or the system call a
    file operation loses. [w_tick] counts interactions, so a theorem that
    quantifies over [Env] quantifies over every behaviour of the clock, the commands
    and the file system. Prometheus metrics and the Python logger are not modelled:
    nothing reads them back. *)
From S2P Require Import Prelude.
From S2P Require Import PyVal.
From S2P Require Import FileStore.
From S2P Require Import FdirEvents.
From S2P Require Import LadderPolicy.

(** ** The environment *)
Inductive cli_result :=
  | CliDone (rc : Z) (stdout : text) (stderr : string)
  | CliTimeout                       (* [subprocess.TimeoutExpired] *)
  | CliMissing                       (* [FileNotFoundError] *)
  | CliKilled.                       (* the process dies while the command runs *)

Definition killed (r : cli_result) : bool := match r with CliKilled => true | _ => false end.

(** [app/core/settings.py] and the environment-tunable constants of the FDIR modules. *)
Record settings := mkSettings {
  cfg_camera_type : string;
  cfg_service_name : string;
  cfg_janus_mount_id : Z;
  cfg_janus_color_stream_id : Z;
  cfg_watchdog_stale_ms : Z;
  cfg_watchdog_grace_sec : Z;
  cfg_snapshot_watchdog_enabled : bool;
  cfg_watchdog_reboot_enabled : bool;
  cfg_max_fdir_reboots : Z;
  cfg_dedup_window_sec : Q;              (* [FDIR_DEDUP_SEC] *)
  cfg_reboot_counter_reset_sec : Z;      (* [FDIR_REBOOT_COUNTER_RESET_SEC] *)
  cfg_nominal_checks : Z;                (* [WATCHDOG_NOMINAL_CHECKS] *)
  cfg_safe_auto_reset_sec : Q;           (* [SAFE_MODE_AUTO_RESET_SEC] *)
  cfg_max_suppress_ticks : Z;            (* [WATCHDOG_MAX_SUPPRESS_TICKS] *)
  cfg_ring_max : nat;                    (* [FDIR_RING_MAX] *)
  cfg_log_max_bytes : Z;                 (* [FDIR_LOG_MAX_BYTES] *)
}.

(** The defaults of the source. *)
Definition default_settings (camera_type : string) : settings :=
  mkSettings camera_type "rs-stream@color.service" 1305 1305 10000 60 true false 2
    3 3600 10 300 5 500 (5 * 1024 * 1024).

Class Env := mkEnv {
  cfg : settings;
  mono : nat → Q;                              (* [time.monotonic()] *)
  wall : nat → Q;                              (* [time.time()] *)
  cli : nat → list string → cli_result;        (* [subprocess.run] *)
  janus_info : nat → Z → res json;             (* [janus.streaming_info] *)
  snapshot_mtime : nat → res Q;                (* [os.stat(snapshot_path).st_mtime] *)
  sys_fault : nat → option syscall;            (* the system call that fails *)
  other_str : json → string;                   (* [str] of a float or a container *)
  event_bytes : FdirEvent → Z;                 (* length of an event's JSON line *)
}.

(** ** The state of the components *)

(** [system_mode.SystemMode] and [_ModeState] *)
Inductive SystemMode := NOMINAL | DEGRADED | LOCAL_ONLY | SAFE.

#[export] Instance SystemMode_eq_dec : EqDecision SystemMode.
Proof. solve_decision. Defined.

(** A registered listener is named; [SystemMode.ModeListener] gives its code. *)
Inductive listener_name := LModeEnforcer.

Record ModeState := mkModeState {
  ms_current : SystemMode;
  ms_entered_at : Q;
  ms_entered_at_mono : Q;
  ms_reason : string;
  ms_listeners : list listener_name;
}.

(** The module variables of [fdir_quiesce.py] *)
Record Quiesce := mkQuiesce {
  q_until : Q;
  q_domains : list Domain;
  q_reason : string;
  q_arms : Z;
}.

Definition no_quiesce : Quiesce := mkQuiesce 0 [] EmptyString 0.

(** The module variables of [watchdogs.py] and the local [healthy_streak] *)
Record Watch := mkWatch {
  wd_startup_ts : Q;
  wd_first_healthy_seen : bool;
  wd_last_escalation_ts : Q;
  wd_consecutive_suppressions : Z;
  wd_snapshot_missing_logged : bool;
  wd_last_observed_mtime : Q;
  wd_last_mtime_change_mono : Q;
  wd_healthy_streak : Z;
}.

(** The [reboot_count] file: a text that [int()] reads. *)
Inductive count_file := CfAbsent | CfUnreadable | CfNotUtf8 | CfText (s : string).

(** What a command finds when it starts: its arguments, the quiesce window, the
    reboot counter, the saved ladder state and the encoder's profile file. *)
Record command := mkCommand {
  cm_argv : list string;
  cm_quiesce : Quiesce;
  cm_reboots : count_file;
  cm_ladder_file : content;
  cm_profile : content;
}.

Record World := mkWorld {
  w_tick : nat;
  w_commands : list command;           (* oldest first *)
  w_ring : list FdirEvent;
  w_log : event_log;
  w_mode : ModeState;
  w_enforcer_registered : bool;        (* [mode_enforcer._registered] *)
  w_quiesce : Quiesce;
  w_ladder : Ladder;
  w_process_start : Q;                 (* [recovery_ladder._PROCESS_START_MONO] *)
  w_reboots : count_file;
  w_ladder_file : file;
  w_marker_file : file;
  w_profile_file : file;
  w_history_file : file;
  w_watch : Watch;
}.

Section setters.
Implicit Types w : World.
Definition set_tick n w := let 'mkWorld _ b c d e f g h i j k l m o p := w in mkWorld n b c d e f g h i j k l m o p.
Definition set_commands v w := let 'mkWorld a _ c d e f g h i j k l m o p := w in mkWorld a v c d e f g h i j k l m o p.
Definition set_ring v w := let 'mkWorld a b _ d e f g h i j k l m o p := w in mkWorld a b v d e f g h i j k l m o p.
Definition set_log v w := let 'mkWorld a b c _ e f g h i j k l m o p := w in mkWorld a b c v e f g h i j k l m o p.
Definition set_mode v w := let 'mkWorld a b c d _ f g h i j k l m o p := w in mkWorld a b c d v f g h i j k l m o p.
Definition set_registered v w := let 'mkWorld a b c d e _ g h i j k l m o p := w in mkWorld a b c d e v g h i j k l m o p.
Definition set_quiesce v w := let 'mkWorld a b c d e f _ h i j k l m o p := w in mkWorld a b c d e f v h i j k l m o p.
Definition set_ladder v w := let 'mkWorld a b c d e f g _ i j k l m o p := w in mkWorld a b c d e f g v i j k l m o p.
Definition set_reboots v w := let 'mkWorld a b c d e f g h i _ k l m o p := w in mkWorld a b c d e f g h i v k l m o p.
Definition set_ladder_file v w := let 'mkWorld a b c d e f g h i j _ l m o p := w in mkWorld a b c d e f g h i j v l m o p.
Definition set_marker_file v w := let 'mkWorld a b c d e f g h i j k _ m o p := w in mkWorld a b c d e f g h i j k v m o p.
Definition set_profile_file v w := let 'mkWorld a b c d e f g h i j k l _ o p := w in mkWorld a b c d e f g h i j k l v o p.
Definition set_history_file v w := let 'mkWorld a b c d e f g h i j k l m _ p := w in mkWorld a b c d e f g h i j k l m v p.
Definition set_watch v w := let 'mkWorld a b c d e f g h i j k l m o _ := w in mkWorld a b c d e f g h i j k l m o v.
End setters.

(** ** Primitive effects *)
Section effects.
Context {E : Env}.

Definition tick : M World nat := fun w => (Ok (w_tick w), set_tick (S (w_tick w)) w).

Definition monotonic : M World Q := n ← tick; mret (mono n).
Definition time_time : M World Q := n ← tick; mret (wall n).

Definition observe (argv : list string) (w : World) : command :=
  mkCommand argv (w_quiesce w) (w_reboots w) (f_content (w_ladder_file w))
    (f_content (w_profile_file w)).

(** [subprocess.run(argv, ...)]: return code, standard output, standard error. *)
Definition subprocess_run (argv : list string) : M World (Z * text * string) :=
  n ← tick;
  modify (fun w => set_commands (w_commands w ++ [observe argv w]) w) ;;
  match cli n argv with
  | CliDone rc out err => mret (rc, out, err)
  | CliTimeout => throw ETimeout
  | CliMissing => throw EFileNotFound
  | CliKilled => throw EKilled
  end.

Fixpoint join_spaces (l : list string) : string :=
  match l with
  | [] => EmptyString
  | [s] => s
  | s :: l' => (s ++ " " ++ join_spaces l')%string
  end.

(** [system.run]: the standard output, or [RuntimeError] for a non-zero return code. *)
Definition run_cmd (argv : list string) : M World text :=
  '(rc, out, err) ← subprocess_run argv;
  if rc =? 0 then mret out
  else raise (Exn ERuntime ("cmd failed: " ++ join_spaces argv ++ " :: " ++ py_strip err)).

(** A file operation meets the fault the environment chose for it. *)
Definition on_file {A} (sel : World → file) (upd : file → World → World) (m : M file A)
    : M World A :=
  n ← tick;
  zoom (fun w => let f := sel w in
                 File (f_content f) (f_mode f) (f_temp f) (f_copies f) (sys_fault n)) upd m.

(** A bare system call. *)
Definition os_call (s : syscall) : M World unit :=
  n ← tick; if decide (sys_fault n = Some s) then throw EOS else mret tt.

(** The rotation of the log: an event that finds the file full moves it to the backup. *)
Definition rotate_if_full : M World unit :=
  os_call SysStat ;;
  w ← get;
  if log_full event_bytes (cfg_log_max_bytes cfg) (w_log w) then
    os_call SysReplace ;; modify (fun w => set_log (rotate_log (w_log w)) w)
  else mret tt.

(** [fdir_events._persist]: best effort; a rotation that fails does not keep the event from
    being written. *)
Definition persist_event (e : FdirEvent) : M World unit :=
  try_except
    (os_call SysMkdir ;;
     try_except rotate_if_full COSError (fun _ => mret tt) ;;
     os_call SysOpen ;;
     os_call SysWrite ;;
     modify (fun w => set_log (append_log e (w_log w)) w))
    CException (fun _ => mret tt).

Definition emit_full (d : Domain) (s : Severity) (signal : string) (a : RecoveryAction)
    (outcome : string) (details : dict json) (binding_id node_id sensor : option string)
    : M World unit :=
  ts ← time_time;
  let e := mkEvent ts d s signal a outcome details binding_id node_id sensor in
  modify (fun w => set_ring (ring_append (cfg_ring_max cfg) (w_ring w) e) w) ;;
  persist_event e.

(** [fdir_events.emit] without the resource tags. *)
Definition emit (d : Domain) (s : Severity) (signal : string) (a : RecoveryAction)
    (outcome : string) (details : dict json) : M World unit :=
  emit_full d s signal a outcome details None None None.
End effects.

(** [f"{x}"] for a value of a JSON document. *)
Definition fmt {E : Env} (j : json) : string :=
  match to_str j with Ok s => s | Raise _ => other_str j end.

(** The interactions that only touch the counters, the log and the ring. *)
Definition observable_only (w w' : World) : Prop :=
  w_mode w' = w_mode w ∧ w_quiesce w' = w_quiesce w ∧ w_ladder w' = w_ladder w ∧
  w_process_start w' = w_process_start w ∧ w_reboots w' = w_reboots w ∧
  w_ladder_file w' = w_ladder_file w ∧ w_marker_file w' = w_marker_file w ∧
  w_profile_file w' = w_profile_file w ∧ w_history_file w' = w_history_file w ∧
  w_watch w' = w_watch w ∧ w_enforcer_registered w' = w_enforcer_registered w.

#[export] Instance observable_only_preorder : PreOrder observable_only.
Proof.
  split; [by intros w|]. unfold observable_only.
  intros w1 w2 w3 H1 H2. destruct_and!. split_and!; congruence.
Qed.

(** A relation on worlds that no observation, log line or command by itself can
    leave: the frame rules of the primitives hold for all of them. *)
Class Coarse (R : World → World → Prop) := {
  coarse_preorder :: PreOrder R;
  coarse_obs w w' : observable_only w w' → R w w';
}.

#[export] Instance coarse_observable : Coarse observable_only.
Proof. split; [apply _|done]. Qed.

Section frames.
Context {E : Env} (R : World → World → Prop) `{!Coarse R}.

Lemma pres_obs_modify f : (∀ w, observable_only w (f w)) → preserves R (modify f).
Proof. intros H. apply pres_modify. intros w. apply coarse_obs, H. Qed.

Lemma pres_tick : preserves R tick.
Proof. intros w. apply coarse_obs. by destruct w. Qed.

Lemma pres_monotonic : preserves R monotonic.
Proof. apply pres_bind; [apply _|apply pres_tick|intros; apply pres_ret; apply _]. Qed.

Lemma pres_time : preserves R time_time.
Proof. apply pres_bind; [apply _|apply pres_tick|intros; apply pres_ret; apply _]. Qed.

Lemma pres_subprocess argv : preserves R (subprocess_run argv).
Proof.
  apply pres_bind; [apply _|apply pres_tick|intros n].
  apply pres_bind; [apply _|apply pres_obs_modify; by intros []|intros _].
  destruct (cli n argv); intros w; reflexivity.
Qed.

Lemma pres_run_cmd argv : preserves R (run_cmd argv).
Proof.
  apply pres_bind; [apply _|apply pres_subprocess|intros [[rc out] err]].
  destruct (rc =? 0); intros w; reflexivity.
Qed.

Lemma pres_os_call s : preserves R (os_call s).
Proof.
  apply pres_bind; [apply _|apply pres_tick|intros n]. destruct (decide _); intros w; reflexivity.
Qed.

Lemma pres_rotate_if_full : preserves R rotate_if_full.
Proof.
  unfold rotate_if_full. pres; try apply pres_os_call; apply coarse_obs; by destruct w.
Qed.

Lemma pres_persist_event e : preserves R (persist_event e).
Proof.
  unfold persist_event. pres; first
    [apply pres_os_call|apply pres_rotate_if_full|apply coarse_obs; by destruct w].
Qed.

Lemma pres_emit_full d s sig a o det b n x : preserves R (emit_full d s sig a o det b n x).
Proof.
  apply pres_bind; [apply _|apply pres_time|intros ts].
  apply pres_bind; [apply _|apply pres_obs_modify; by intros []|intros _].
  apply pres_persist_event.
Qed.

Lemma pres_emit d s sig a o det : preserves R (emit d s sig a o det).
Proof. apply pres_emit_full. Qed.

Lemma pres_on_file {A} sel upd (m : M file A) :
  (∀ f w, R w (upd f w)) → preserves R (on_file sel upd m).
Proof.
  intros H. apply pres_bind; [apply _|apply pres_tick|intros n w].
  unfold zoom. destruct (m _) as [r f]. apply H.
Qed.
End frames.
#[export] Hint Extern 1 (preserves _ tick) => (apply pres_tick; apply _) : pres.
#[export] Hint Extern 1 (preserves _ monotonic) => (apply pres_monotonic; apply _) : pres.
#[export] Hint Extern 1 (preserves _ time_time) => (apply pres_time; apply _) : pres.
#[export] Hint Extern 1 (preserves _ (subprocess_run _)) => (apply pres_subprocess; apply _) : pres.
#[export] Hint Extern 1 (preserves _ (run_cmd _)) => (apply pres_run_cmd; apply _) : pres.
#[export] Hint Extern 1 (preserves _ (os_call _)) => (apply pres_os_call; apply _) : pres.
#[export] Hint Extern 1 (preserves _ (emit_full _ _ _ _ _ _ _ _ _)) =>
  (apply pres_emit_full; apply _) : pres.
#[export] Hint Extern 1 (preserves _ (emit _ _ _ _ _ _)) => (apply pres_emit; apply _) : pres.

(** Emission never raises. *)
Lemma os_call_catchable {E : Env} s : raises_only catchable (os_call s).
Proof.
  apply ro_bind; [by intros w e|intros n]. destruct (decide _); [by apply ro_throw|apply ro_ret].
Qed.

Lemma persist_total {E : Env} e : total (persist_event e).
Proof.
  apply total_catch_all; [|done].
  apply ro_bind; [apply os_call_catchable|intros _].
  apply ro_bind; [|intros _].
  { apply ro_try; [|by intros; apply ro_ret].
    apply ro_bind; [apply os_call_catchable|intros _]. apply ro_bind; [apply ro_get|intros w].
    destruct (log_full _ _ _); [|apply ro_ret].
    apply ro_bind; [apply os_call_catchable|intros _]. apply ro_modify. }
  do 2 (apply ro_bind; [apply os_call_catchable|intros _]). apply ro_modify.
Qed.

Lemma emit_full_total {E : Env} d s sig a o det b n x :
  total (emit_full d s sig a o det b n x).
Proof. do 2 (apply total_bind; [by intros []|intros ?]). apply persist_total. Qed.

Lemma emit_total {E : Env} d s sig a o det : total (emit d s sig a o det).
Proof. apply emit_full_total. Qed.

Lemma emit_when {E : Env} b d s sig a o det w :
  ∃ w', when b (emit d s sig a o det) w = (Ok tt, w').
Proof.
  destruct b; simpl; [|by eexists]. pose proof (emit_total d s sig a o det w) as Ht.
  destruct (emit _ _ _ _ _ _ w) as [[[]|e] w']; [by eexists|done].
Qed.

Lemma monotonic_eq {E : Env} w : monotonic w = (Ok (mono (w_tick w)), set_tick (S (w_tick w)) w).
Proof. done. Qed.

(** The commands run, as a preorder: only appended to, and all from a given list. *)
Definition runs_only (P : command → Prop) (w w' : World) : Prop :=
  ∃ l, w_commands w' = w_commands w ++ l ∧ Forall P l.

#[export] Instance runs_only_preorder P : PreOrder (runs_only P).
Proof.
  split.
  - intros w. exists []. by rewrite app_nil_r.
  - intros w1 w2 w3 (l1 & H1 & HP1) (l2 & H2 & HP2). exists (l1 ++ l2).
    rewrite H2, H1, app_assoc. split; [done|]. by apply Forall_app.
Qed.

(** A step that runs no command. *)
Definition silent (w w' : World) : Prop := w_commands w' = w_commands w.

Section commands.
Context {E : Env}.

(** The state after a command. *)
Definition ran (argv : list string) (w : World) : World :=
  set_commands (w_commands w ++ [observe argv w]) (set_tick (S (w_tick w)) w).

Lemma ran_argvs argv w :
  map cm_argv (w_commands (ran argv w)) = map cm_argv (w_commands w) ++ [argv].
Proof. destruct w. simpl. by rewrite map_app. Qed.

Lemma ran_tick argv w : w_tick (ran argv w) = S (w_tick w).
Proof. by destruct w. Qed.

Lemma subprocess_eq argv w :
  subprocess_run argv w =
    (match cli (w_tick w) argv with
     | CliDone rc out err => Ok (rc, out, err)
     | CliTimeout => fail ETimeout
     | CliMissing => fail EFileNotFound
     | CliKilled => fail EKilled
     end, ran argv w).
Proof.
  unfold subprocess_run, mbind, M_bind, ran. destruct w; simpl.
  by destruct (cli _ _).
Qed.

Lemma silent_runs_only {A} P (m : M World A) : preserves (keeps w_commands) m → preserves (runs_only P) m.
Proof. intros H w. exists []. rewrite app_nil_r. split; [apply H|constructor]. Qed.

Lemma cmds_tick : preserves (keeps w_commands) tick.
Proof. by intros []. Qed.
Lemma cmds_monotonic : preserves (keeps w_commands) monotonic.
Proof. by intros []. Qed.
Lemma cmds_time : preserves (keeps w_commands) time_time.
Proof. by intros []. Qed.
Lemma cmds_os_call s : preserves (keeps w_commands) (os_call s).
Proof.
  apply pres_bind; [apply _|apply cmds_tick|intros n]. destruct (decide _); by intros [].
Qed.
(** What the log's writing cannot reach. *)
Lemma keeps_persist {X} (f : World → X) e :
  (∀ n w, f (set_tick n w) = f w) → (∀ l w, f (set_log l w) = f w) →
  preserves (keeps f) (persist_event e).
Proof.
  intros Ht Hl.
  assert (Hos : ∀ s, preserves (keeps f) (os_call s)).
  { intros s. apply pres_bind; [apply _|by intros w; apply Ht|intros n].
    by destruct (decide _); intros w. }
  unfold persist_event, rotate_if_full. pres; first [apply Hos|apply Hl].
Qed.

Lemma cmds_emit_full d s sig a o det b n x :
  preserves (keeps w_commands) (emit_full d s sig a o det b n x).
Proof.
  unfold emit_full. pres; first [apply cmds_time|apply keeps_persist; by intros ? []|by destruct w].
Qed.
Lemma cmds_emit d s sig a o det : preserves (keeps w_commands) (emit d s sig a o det).
Proof. apply cmds_emit_full. Qed.

Lemma cmds_on_file {A} sel upd (m : M file A) :
  (∀ f w, w_commands (upd f w) = w_commands w) →
  preserves (keeps w_commands) (on_file sel upd m).
Proof.
  intros H. apply pres_bind; [apply _|apply cmds_tick|intros n w].
  unfold zoom. destruct (m _) as [r f]. apply H.
Qed.

Lemma runs_subprocess (P : command → Prop) argv :
  (∀ w, P (observe argv w)) → preserves (runs_only P) (subprocess_run argv).
Proof.
  intros HP. apply pres_bind; [apply _|apply silent_runs_only, cmds_tick|intros n].
  apply pres_bind; [apply _| |].
  - apply pres_modify. intros w. exists [observe argv w]. split; [by destruct w|].
    constructor; [apply HP|constructor].
  - intros _. destruct (cli n argv); intros w; reflexivity.
Qed.

Lemma run_cmd_eq argv w :
  run_cmd argv w =
    (match cli (w_tick w) argv with
     | CliDone rc out err =>
         if rc =? 0 then Ok out
         else Raise (Exn ERuntime ("cmd failed: " ++ join_spaces argv ++ " :: " ++ py_strip err))
     | CliTimeout => fail ETimeout
     | CliMissing => fail EFileNotFound
     | CliKilled => fail EKilled
     end, ran argv w).
Proof.
  unfold run_cmd, mbind, M_bind. rewrite subprocess_eq.
  destruct (cli _ _) as [rc out err| | |]; [|done..]. by destruct (rc =? 0).
Qed.

Lemma runs_run_cmd (P : command → Prop) argv :
  (∀ w, P (observe argv w)) → preserves (runs_only P) (run_cmd argv).
Proof.
  intros HP. apply pres_bind; [apply _|by apply runs_subprocess|intros [[rc out] err]].
  destruct (rc =? 0); intros w; reflexivity.
Qed.
End commands.
#[export] Hint Resolve cmds_tick cmds_monotonic cmds_time cmds_os_call cmds_emit_full cmds_emit
  silent_runs_only : pres.

(** ** Which exceptions the primitives raise *)
Section raising.
Context {E : Env}.

Lemma ro_on_file {A} P sel upd (m : M file A) :
  raises_only P m → raises_only P (on_file sel upd m).
Proof.
  intros Hm w e. unfold on_file, mbind, M_bind, zoom. simpl.
  match goal with |- context [m ?f] => specialize (Hm f); destruct (m f) as [[a|e'] f'] end;
    simpl; [done|]. intros [= <-]. by apply Hm.
Qed.

Lemma ro_sys P s : P EOS → raises_only P (sys s).
Proof. intros HP f e. unfold sys. case_decide; [|done]. by intros [= <-]. Qed.

Lemma ro_write P c : P EOS → raises_only P (system_write_text c).
Proof.
  intros HP f e. rewrite system_write_refines. unfold write_spec.
  destruct (write_faults _ _); [|done]. by intros [= <-].
Qed.

Lemma ro_os P s : P EOS → raises_only P (os_call s).
Proof.
  intros HP w e. unfold os_call, mbind, M_bind. simpl. case_decide; [|done]. by intros [= <-].
Qed.

Lemma ro_emit P d s sig a o det : raises_only P (emit d s sig a o det).
Proof. apply ro_total, emit_total. Qed.
Lemma ro_monotonic P : raises_only P monotonic.
Proof. by intros w e. Qed.
Lemma ro_time P : raises_only P time_time.
Proof. by intros w e. Qed.

(** In an environment that does not kill the process, commands raise exceptions of
    the program. *)
Context (Hlive : ∀ n argv, cli n argv ≠ CliKilled).

Lemma ro_subprocess argv : raises_only catchable (subprocess_run argv).
Proof.
  intros w e. rewrite subprocess_eq. specialize (Hlive (w_tick w) argv).
  destruct (cli _ _); try done; by intros [= <-].
Qed.

Lemma ro_run_cmd argv : raises_only catchable (run_cmd argv).
Proof.
  apply ro_bind; [apply ro_subprocess|intros [[rc out] err]].
  destruct (rc =? 0); [apply ro_ret|by apply ro_raise].
Qed.
End raising.
#[export] Hint Resolve ro_emit ro_monotonic ro_time ro_subprocess ro_run_cmd ro_raise : pres.
#[export] Hint Extern 2 (raises_only catchable (os_call _)) => (apply ro_os; reflexivity) : pres.
#[export] Hint Extern 2 (raises_only catchable (sys _)) => (apply ro_sys; reflexivity) : pres.
#[export] Hint Extern 2 (raises_only catchable (on_file _ _ (system_write_text _))) =>
  (apply ro_on_file, ro_write; reflexivity) : pres.

(** ** A sample environment and world, for concrete runs: the clock advances by 100 s
    at every interaction, the Janus mountpoint is fresh, files and commands behave as
    given. *)
Definition sample_settings (reboot : bool) : settings :=
  mkSettings "color_camera" "rs-stream@color.service" 1305 1305 10000 60 true reboot 2
    3 3600 10 300 5 500 (5 * 1024 * 1024).

Definition sample_env (reboot : bool) (fault : nat → option syscall)
    (run : nat → list string → cli_result) : Env :=
  mkEnv (sample_settings reboot)
    (λ n, inject_Z (1000 + 100 * Z.of_nat n)) (λ n, inject_Z (1700000000 + Z.of_nat n)) run
    (λ _ _, Ok (JObj [("data", JObj [("info", JObj [("id", JInt 1305);
                        ("media", JArr [JObj [("age_ms", JInt 40)]])])])]%string))
    (λ _, Ok 1700000000%Q) fault (λ _, "0.5"%string) (λ _, 200).

Definition cli_success (_ : nat) (_ : list string) : cli_result :=
  CliDone 0 (TxDoc (JObj [("active", JBool true)]%string)) EmptyString.
Definition no_fault (_ : nat) : option syscall := None.

Definition sample_world : World :=
  mkWorld 0 [] [] (mkLog [] []) (mkModeState NOMINAL 0 0 "initial" [LModeEnforcer]) true
    no_quiesce (mkLadder (default_ladder "color_camera") 0 0 0) 1000 CfAbsent
    (file_of Absent) (file_of Absent) (file_of Absent) (file_of Absent)
    (mkWatch 1000 false 0 0 false 0 0 0).

(** Commands succeed, files work, reboots are disabled as by default. *)
Definition live_env : Env := sample_env false no_fault cli_success.
