(* ===== verification/EncoderAdmin.v ===== *)
(** * The encoder CLI port ([app/services/sensor_lifecycle/encoder_admin.py])

    The one adapter through which the gateway starts, stops and restarts its own encoder
    units: the camera life cycle and the local node client both go through it. *)
From S2P Require Import Prelude.
From S2P Require Import PyVal.
From S2P Require Import FileStore.
From S2P Require Import FdirEvents.
From S2P Require Import LadderPolicy.
From S2P Require Import World.

Definition encoder_cmd (action family : string) (instance : option string) : list string :=
  ["sudo"; "/usr/local/bin/encoder-admin"; action; "--family"; family]%string
  ++ match instance with
     | Some i => if String.eqb i EmptyString then [] else ["--instance"; i]%string
     | None => []
     end.

(** A command that times out or is missing is no [RuntimeError]: it escapes. *)
Definition encoder_call {E : Env} (action family : string) (instance : option string) : M World unit :=
  try_except (run_cmd (encoder_cmd action family instance) ;; mret tt)
    CRuntimeError (fun _ => throw ELifecycle).

Lemma encoder_call_obs {E : Env} action family instance :
  preserves observable_only (encoder_call action family instance).
Proof. unfold encoder_call. pres. Qed.

Lemma encoder_call_runs {E : Env} action family instance :
  preserves (runs_only (λ c, cm_argv c = encoder_cmd action family instance))
    (encoder_call action family instance).
Proof. unfold encoder_call. pres. by apply runs_run_cmd. Qed.
#[export] Hint Resolve encoder_call_obs : pres.
