(* ===== verification/SystemMode.v ===== *)
(** * System operating modes ([app/services/system_mode.py])

    The mode lattice NOMINAL, DEGRADED, LOCAL_ONLY, SAFE, its policies and the three
    ways to move in it. Listeners are called outside the lock and their exceptions
    are logged and dropped; what they may touch is the interface [ModeListener],
    which the mode enforcer implements. *)
From S2P Require Import Prelude.
From S2P Require Import PyVal.
From S2P Require Import FileStore.
From S2P Require Import FdirEvents.
From S2P Require Import LadderPolicy.
From S2P Require Import World.

Definition mode_value (m : SystemMode) : string :=
  match m with
  | NOMINAL => "nominal" | DEGRADED => "degraded"
  | LOCAL_ONLY => "local_only" | SAFE => "safe"
  end.

Definition mode_level (m : SystemMode) : Z :=
  match m with NOMINAL => 0 | DEGRADED => 1 | LOCAL_ONLY => 2 | SAFE => 3 end.

Definition all_modes : list SystemMode := [NOMINAL; DEGRADED; LOCAL_ONLY; SAFE].

Record ModePolicy := mkPolicy {
  streams_enabled : bool;
  max_fps : Z;
  max_bitrate_kbps : Z;
  require_turn : bool;
  require_uplink : bool;
}.

Definition MODE_POLICIES (m : SystemMode) : ModePolicy :=
  match m with
  | NOMINAL => mkPolicy true 30 4000 true true
  | DEGRADED => mkPolicy true 15 1500 true true
  | LOCAL_ONLY => mkPolicy true 15 2000 false false
  | SAFE => mkPolicy false 0 0 false false
  end.

(** ** The listener interface

    What a mode listener promises to the rest of FDIR: it leaves the mode, the
    ladder, the quiesce gate, the reboot counter, the saved ladder state and the
    watchdogs alone, and the only program it runs is [encoder-admin]. *)
Definition listener_frame (w w' : World) : Prop :=
  w_mode w' = w_mode w ∧ w_quiesce w' = w_quiesce w ∧ w_ladder w' = w_ladder w ∧
  w_process_start w' = w_process_start w ∧ w_reboots w' = w_reboots w ∧
  w_ladder_file w' = w_ladder_file w ∧ w_marker_file w' = w_marker_file w ∧
  w_watch w' = w_watch w ∧ w_enforcer_registered w' = w_enforcer_registered w.

#[export] Instance listener_frame_coarse : Coarse listener_frame.
Proof.
  split.
  - split; [by intros w|]. unfold listener_frame.
    intros w1 w2 w3 H1 H2. destruct_and!. split_and!; congruence.
  - unfold observable_only, listener_frame. intros w w' H. destruct_and!. by split_and!.
Qed.

Definition encoder_admin (verb : string) : list string :=
  ["sudo"; "/usr/local/bin/encoder-admin"; verb]%string.

Class ModeListener {E : Env} := {
  run_listener : listener_name → SystemMode → SystemMode → string → M World unit;
  run_listener_frame l p t r : preserves listener_frame (run_listener l p t r);
  run_listener_commands l p t r :
    preserves (runs_only (λ c, ∃ v, cm_argv c = encoder_admin v)) (run_listener l p t r);
}.

Section ops.
Context {E : Env} `{!ModeListener}.

Definition current_mode : M World SystemMode := gets (fun w => ms_current (w_mode w)).

Definition mode_uptime_sec : M World Q :=
  t ← monotonic; gets (fun w => t - ms_entered_at_mono (w_mode w))%Q.

Definition current_policy : M World ModePolicy :=
  gets (fun w => MODE_POLICIES (ms_current (w_mode w))).

(** [mode_info]: mode, entry time, uptime, reason and policy. *)
Definition mode_info : M World (SystemMode * Q * Q * string * ModePolicy) :=
  t ← monotonic;
  gets (fun w => let s := w_mode w in
                 (ms_current s, ms_entered_at s, round1 (t - ms_entered_at_mono s),
                  ms_reason s, MODE_POLICIES (ms_current s))).

Definition notify (previous target : SystemMode) (reason : string) (l : listener_name)
    : M World unit :=
  try_except (run_listener l previous target reason) CException (fun _ => mret tt).

Definition post_transition (previous target : SystemMode) (reason : string)
    (listeners : list listener_name) : M World unit :=
  emit SYSTEM (if mode_level previous <? mode_level target then WARN else INFO) reason
    SWITCH_MODE ("mode: " ++ mode_value previous ++ " → " ++ mode_value target)
    [("from", JStr (mode_value previous)); ("to", JStr (mode_value target))]%string ;;
  for_each listeners (notify previous target reason).

(** The state mutation the three operations share. *)
Definition enter_mode (target : SystemMode) (reason : string) : M World (list listener_name) :=
  t ← time_time;
  tm ← monotonic;
  s ← gets w_mode;
  modify (set_mode (mkModeState target t tm reason (ms_listeners s))) ;;
  mret (ms_listeners s).

Definition transition (target : SystemMode) (reason : string) : M World bool :=
  previous ← current_mode;
  if decide (previous = target) then mret false
  else
    listeners ← enter_mode target reason;
    post_transition previous target reason listeners ;;
    mret true.

Definition degrade (reason : string) : M World unit :=
  cur ← current_mode;
  let nxt_level := Z.min (mode_level cur + 1) (mode_level SAFE) in
  match List.filter (fun m => mode_level m =? nxt_level) all_modes with
  | target :: _ =>
      if decide (cur = target) then mret tt
      else
        listeners ← enter_mode target reason;
        post_transition cur target reason listeners
  | [] => throw EKey
  end.

Definition promote (target : SystemMode) (reason : string) : M World bool :=
  previous ← current_mode;
  if mode_level previous <=? mode_level target then mret false
  else
    listeners ← enter_mode target reason;
    post_transition previous target reason listeners ;;
    mret true.

Definition on_transition (l : listener_name) : M World unit :=
  modify (fun w => let s := w_mode w in
    set_mode (mkModeState (ms_current s) (ms_entered_at s) (ms_entered_at_mono s)
                (ms_reason s) (ms_listeners s ++ [l])) w).
End ops.

(** ** Frame of the mode operations: everything but the mode is the listeners' *)
Definition mode_frame (w w' : World) : Prop :=
  w_quiesce w' = w_quiesce w ∧ w_ladder w' = w_ladder w ∧
  w_process_start w' = w_process_start w ∧ w_reboots w' = w_reboots w ∧
  w_ladder_file w' = w_ladder_file w ∧ w_marker_file w' = w_marker_file w ∧
  w_watch w' = w_watch w.

#[export] Instance mode_frame_coarse : Coarse mode_frame.
Proof.
  split.
  - split; [by intros w|]. unfold mode_frame.
    intros w1 w2 w3 H1 H2. destruct_and!. split_and!; congruence.
  - unfold observable_only, mode_frame. intros w w' H. destruct_and!. by split_and!.
Qed.

(** A relation coarser than the frame of the mode operations. *)
Class ModeCoarse (R : World → World → Prop) := {
  mode_coarse :: Coarse R;
  mode_coarse_frame w w' : mode_frame w w' → R w w';
}.
#[export] Instance mode_coarse_self : ModeCoarse mode_frame.
Proof. split; [apply _|done]. Qed.

Section laws.
Context {E : Env} `{!ModeListener}.

Lemma pres_notify p t r l : preserves listener_frame (notify p t r l).
Proof. apply pres_try; [apply _|apply run_listener_frame|intros e; apply pres_ret; apply _]. Qed.

Lemma pres_post_transition p t r ls : preserves listener_frame (post_transition p t r ls).
Proof.
  apply pres_bind; [apply _|apply pres_emit; apply _|intros _].
  apply pres_for_each; [apply _|intros l _; apply pres_notify].
Qed.

Lemma listener_mode_frame {A} (m : M World A) :
  preserves listener_frame m → preserves mode_frame m.
Proof.
  intros Hm w. specialize (Hm w). unfold listener_frame, mode_frame in *.
  destruct_and!. by split_and!.
Qed.

Lemma pres_enter_mode t r : preserves mode_frame (enter_mode t r).
Proof. unfold enter_mode. pres. by destruct w. Qed.

Lemma pres_transition_frame t r : preserves mode_frame (transition t r).
Proof.
  unfold transition, current_mode. pres;
    [apply pres_enter_mode|apply listener_mode_frame, pres_post_transition].
Qed.

Lemma pres_degrade_frame r : preserves mode_frame (degrade r).
Proof.
  unfold degrade, current_mode. pres;
    [apply pres_enter_mode|apply listener_mode_frame, pres_post_transition].
Qed.

Lemma pres_promote_frame t r : preserves mode_frame (promote t r).
Proof.
  unfold promote, current_mode. pres;
    [apply pres_enter_mode|apply listener_mode_frame, pres_post_transition].
Qed.

Context (R : World → World → Prop) `{!ModeCoarse R}.

Lemma pres_transition t r : preserves R (transition t r).
Proof. intros w. apply mode_coarse_frame, pres_transition_frame. Qed.
Lemma pres_degrade r : preserves R (degrade r).
Proof. intros w. apply mode_coarse_frame, pres_degrade_frame. Qed.
Lemma pres_promote t r : preserves R (promote t r).
Proof. intros w. apply mode_coarse_frame, pres_promote_frame. Qed.
End laws.
#[export] Hint Extern 1 (preserves _ (transition _ _)) => (apply pres_transition; apply _) : pres.
#[export] Hint Extern 1 (preserves _ (degrade _)) => (apply pres_degrade; apply _) : pres.
#[export] Hint Extern 1 (preserves _ (promote _ _)) => (apply pres_promote; apply _) : pres.

(** ** The mode machine *)
Inductive mode_call :=
  | CallTransition (target : SystemMode)
  | CallDegrade
  | CallPromote (target : SystemMode).

(** What each call promises: [transition] goes anywhere, [degrade] one step down the
    lattice, [promote] only up. *)
Definition next_mode (c : mode_call) (m : SystemMode) : SystemMode :=
  match c with
  | CallTransition t => t
  | CallDegrade =>
      match m with NOMINAL => DEGRADED | DEGRADED => LOCAL_ONLY | LOCAL_ONLY | SAFE => SAFE end
  | CallPromote t => if mode_level t <? mode_level m then t else m
  end.

Section machine.
Context {E : Env} `{!ModeListener}.

Definition run_mode_call (c : mode_call) (reason : string) : M World bool :=
  match c with
  | CallTransition t => transition t reason
  | CallDegrade =>
      m ← current_mode; degrade reason ;; m' ← current_mode; mret (bool_decide (m ≠ m'))
  | CallPromote t => promote t reason
  end.

(** The announcement of a change: the mode is already the new one, one event is in
    the ring, and then the listeners run. *)
Definition announced (m t : SystemMode) (reason : string) (w w' : World) : Prop :=
  ∃ w1 e,
    w_mode w1 = mkModeState t (wall (w_tick w)) (mono (S (w_tick w))) reason
                  (ms_listeners (w_mode w)) ∧
    w_ring w1 = ring_append (cfg_ring_max cfg) (w_ring w) e ∧
    ev_action e = SWITCH_MODE ∧
    ev_severity e = (if mode_level m <? mode_level t then WARN else INFO) ∧
    w' = (for_each (ms_listeners (w_mode w)) (notify m t reason) w1).2.

Lemma emit_ring d s sig a o det w :
  ∃ w1 e, emit d s sig a o det w = (Ok tt, w1) ∧
          w_ring w1 = ring_append (cfg_ring_max cfg) (w_ring w) e ∧
          ev_action e = a ∧ ev_severity e = s ∧ w_mode w1 = w_mode w.
Proof.
  set (e := mkEvent (wall (w_tick w)) d s sig a o det None None None).
  set (w0 := set_ring (ring_append (cfg_ring_max cfg) (w_ring w) e) (set_tick (S (w_tick w)) w)).
  assert (Hrun : emit d s sig a o det w = persist_event e w0) by (by destruct w).
  pose proof (persist_total e w0) as Ht.
  pose proof (keeps_persist (λ w, (w_ring w, w_mode w)) e
    ltac:(by intros ? []) ltac:(by intros ? []) w0) as [= Hr Hm].
  rewrite Hrun. destruct (persist_event e w0) as [[[]|?] w1]; [|done].
  exists w1, e. simpl in *. rewrite Hr, Hm. by destruct w.
Qed.

Lemma pres_notify_mode p t r l : preserves (keeps w_mode) (notify p t r l).
Proof. intros w. by destruct (pres_notify p t r l w) as (? & _). Qed.

Lemma ro_notify p t r l : raises_only uncatchable (notify p t r l).
Proof. apply ro_catch_all. intros e. apply ro_ret. Qed.

Lemma ro_post_transition p t r ls : raises_only uncatchable (post_transition p t r ls).
Proof.
  apply ro_bind; [apply ro_total, emit_total|intros _].
  apply ro_for_each. intros l. apply ro_notify.
Qed.

Definition entered (t : SystemMode) (r : string) (w : World) : World :=
  set_mode (mkModeState t (wall (w_tick w)) (mono (S (w_tick w))) r (ms_listeners (w_mode w)))
    (set_tick (S (S (w_tick w))) w).

Lemma enter_mode_eq t r w : enter_mode t r w = (Ok (ms_listeners (w_mode w)), entered t r w).
Proof. by destruct w. Qed.

(** The shared tail of the three operations. *)
Lemma enter_announced m t r w :
  announced m t r w ((ls ← enter_mode t r; post_transition m t r ls) w).2 ∧
  ms_current (w_mode ((ls ← enter_mode t r; post_transition m t r ls) w).2) = t.
Proof.
  erewrite bind_ok by apply enter_mode_eq. unfold post_transition.
  edestruct emit_ring as (w1 & e & Hemit & Hring & Ha & Hs & Hm).
  erewrite bind_ok by exact Hemit. split.
  - exists w1, e. rewrite Hm, Hring. by destruct w.
  - rewrite (pres_for_each (keeps w_mode) (ms_listeners (w_mode w)) (notify m t r)
      (λ a _, pres_notify_mode m t r a) w1), Hm. by destruct w.
Qed.

Definition change_mode (m t : SystemMode) (r : string) : M World unit :=
  ls ← enter_mode t r; post_transition m t r ls.

Lemma ro_change_mode m t r : raises_only uncatchable (change_mode m t r).
Proof. apply ro_bind; [intros w e; by rewrite enter_mode_eq|intros ls; apply ro_post_transition]. Qed.

(** The three operations in one normal form. *)
Lemma run_mode_call_normal c r w :
  let m := ms_current (w_mode w) in
  run_mode_call c r w =
    if decide (m = next_mode c m) then (Ok false, w)
    else match change_mode m (next_mode c m) r w with
         | (Ok _, w') => (Ok true, w')
         | (Raise e, w') => (Raise e, w')
         end.
Proof.
  assert (Htail : ∀ m t w0,
    (ls ← enter_mode t r; post_transition m t r ls ;; mret true) w0 =
    match change_mode m t r w0 with
    | (Ok _, w') => (Ok true, w')
    | (Raise e, w') => (Raise e, w')
    end).
  { intros m t w0. unfold change_mode. rewrite !(bind_ok _ _ _ _ _ (enter_mode_eq t r w0)).
    unfold mbind, M_bind. by destruct (post_transition _ _ _ _ _) as [[]]. }
  destruct c as [t| |t]; cbn [run_mode_call next_mode].
  - unfold transition. erewrite bind_ok by reflexivity. case_decide; [done|]. apply Htail.
  - erewrite bind_ok by reflexivity.
    assert (Hd : degrade r w =
      let m := ms_current (w_mode w) in
      if decide (m = next_mode CallDegrade m) then (Ok tt, w)
      else change_mode m (next_mode CallDegrade m) r w).
    { unfold degrade. erewrite bind_ok by reflexivity. by destruct (ms_current (w_mode w)). }
    unfold mbind at 1, M_bind at 1. rewrite Hd. cbn zeta.
    set (m := ms_current (w_mode w)). cbn [next_mode].
    pose proof (proj2 (enter_announced m (next_mode CallDegrade m) r w)) as Hm.
    fold (change_mode m (next_mode CallDegrade m) r) in Hm. cbn [next_mode] in Hm.
    case_decide as Heq.
    { erewrite bind_ok by reflexivity. fold m. by rewrite bool_decide_false by (intros Hn; by apply Hn). }
    destruct (change_mode _ _ _ _) as [[[]|e] w']; [|done]. simpl in Hm.
    erewrite bind_ok by reflexivity. rewrite Hm. by rewrite bool_decide_true.
  - unfold promote. erewrite bind_ok by reflexivity. rewrite Z.ltb_antisym.
    destruct (Z.leb_spec (mode_level (ms_current (w_mode w))) (mode_level t)); cbn.
    { by rewrite decide_True. }
    rewrite decide_False by (intros Heq; rewrite <- Heq in *; lia). apply Htail.
Qed.

Lemma run_mode_call_mode c r w :
  ms_current (w_mode (run_mode_call c r w).2) = next_mode c (ms_current (w_mode w)).
Proof.
  rewrite run_mode_call_normal. case_decide; [done|].
  pose proof (proj2 (enter_announced (ms_current (w_mode w))
    (next_mode c (ms_current (w_mode w))) r w)) as Hm.
  fold (change_mode (ms_current (w_mode w)) (next_mode c (ms_current (w_mode w))) r) in Hm.
  by destruct (change_mode _ _ _ _) as [[]].
Qed.

Lemma runs_change_mode m t r :
  preserves (runs_only (λ c, ∃ v, cm_argv c = encoder_admin v)) (change_mode m t r).
Proof.
  unfold change_mode, enter_mode, post_transition, notify.
  pres; first [apply run_listener_commands|exists []; rewrite app_nil_r; by destruct w].
Qed.

Lemma runs_mode_call c r :
  preserves (runs_only (λ c, ∃ v, cm_argv c = encoder_admin v)) (run_mode_call c r).
Proof.
  intros w. rewrite run_mode_call_normal. case_decide; [reflexivity|].
  pose proof (runs_change_mode (ms_current (w_mode w)) (next_mode c (ms_current (w_mode w))) r w) as Hr.
  by destruct (change_mode _ _ _ _) as [[]].
Qed.

(** What [transition] alone guarantees, whatever the listeners do. *)
Lemma transition_effect t r w :
  let '(o, w') := transition t r w in
  ms_current (w_mode w') = t ∧ mode_frame w w' ∧
  runs_only (λ c, ∃ v, cm_argv c = encoder_admin v) w w' ∧
  (∀ e, o = Raise e → uncatchable (ex_kind e)).
Proof.
  pose proof (run_mode_call_mode (CallTransition t) r w) as Hm.
  pose proof (runs_mode_call (CallTransition t) r w) as Hc.
  pose proof (pres_transition_frame t r w) as Hf.
  pose proof (run_mode_call_normal (CallTransition t) r w) as Hn. cbn [run_mode_call next_mode] in *.
  pose proof (ro_change_mode (ms_current (w_mode w)) t r w) as Hro.
  destruct (transition t r w) as [o w']. split_and!; [done..|]. intros e ->.
  case_decide; [done|]. destruct (change_mode _ _ _ _) as [[u|e'] w1]; simplify_eq. by apply Hro.
Qed.

(** C30. Functional specification of the mode machine: [transition], [degrade] and
    [promote] move to the mode the lattice prescribes; when the mode does not change,
    nothing at all happens (no event, no listener); when it does, the change is
    announced by one event whose severity follows the direction and then the
    listeners run; a listener that raises cannot undo it or leak its exception. *)
Theorem mode_calls_refine c reason w :
  let m := ms_current (w_mode w) in
  let t := next_mode c m in
  let '(r, w') := run_mode_call c reason w in
  ms_current (w_mode w') = t ∧
  (m = t → w' = w) ∧ (m ≠ t → announced m t reason w w') ∧
  (∀ e, r = Raise e → uncatchable (ex_kind e)) ∧
  (∀ b, r = Ok b → b = bool_decide (m ≠ t)).
Proof.
  cbn zeta. rewrite run_mode_call_normal.
  set (m := ms_current (w_mode w)). set (t := next_mode c m). case_decide as Heq.
  { split_and!; try done. intros b [= <-]. by rewrite bool_decide_false by auto. }
  destruct (enter_announced m t reason w) as [Hann Hmode].
  change ((ls ← enter_mode t reason; post_transition m t reason ls) w)
    with (change_mode m t reason w) in *.
  pose proof (ro_change_mode m t reason w) as Hro.
  destruct (change_mode m t reason w) as [[u|e] w']; simpl in *; split_and!; try done.
  - intros b [= <-]. by rewrite bool_decide_true.
  - intros e' [= <-]. by apply Hro.
Qed.
End machine.

(** ** Totality: with listeners that raise only the program's exceptions, the mode
    operations always return *)
Section total.
Context {E : Env} `{!ModeListener}.
Context (Hlisten : ∀ l p t r, raises_only catchable (run_listener l p t r)).

Lemma total_change_mode m t r : total (change_mode m t r).
Proof.
  unfold change_mode. apply total_bind; [intros w; by rewrite enter_mode_eq|intros ls].
  apply total_bind; [apply emit_total|intros _]. apply total_for_each. intros l.
  by apply total_catch_all; [apply Hlisten|intros e].
Qed.

Lemma total_mode_call c r : total (run_mode_call c r).
Proof.
  intros w. rewrite run_mode_call_normal. case_decide; [done|].
  pose proof (total_change_mode (ms_current (w_mode w)) (next_mode c (ms_current (w_mode w))) r w) as Ht.
  by destruct (change_mode _ _ _ _) as [[]].
Qed.

Lemma total_transition t r : total (transition t r).
Proof. exact (total_mode_call (CallTransition t) r). Qed.
Lemma total_promote t r : total (promote t r).
Proof. exact (total_mode_call (CallPromote t) r). Qed.
Lemma total_degrade r : total (degrade r).
Proof.
  intros w. pose proof (total_mode_call CallDegrade r w) as Ht. cbn [run_mode_call] in Ht.
  unfold mbind, M_bind in Ht. simpl in Ht. by destruct (degrade r w) as [[]].
Qed.
End total.
