(* ===== verification/ModeEnforcer.v ===== *)
(** * Mode policy enforcement ([app/services/mode_enforcer.py])

    The listener that turns a mode change into commands for the encoder: SAFE stops
    the pipeline, the reduced modes write a profile and restart it, NOMINAL clears
    the profile and makes sure it runs. It implements [SystemMode.ModeListener]. *)
From S2P Require Import Prelude.
From S2P Require Import PyVal.
From S2P Require Import FileStore.
From S2P Require Import FdirEvents.
From S2P Require Import LadderPolicy.
From S2P Require Import World.
From S2P Require Import SystemMode.

Section ops.
Context {E : Env}.

(** [_is_service_active]: any failure of the probe reads as "not active". *)
Definition is_service_active : M World bool :=
  try_except
    ('(rc, out, _) ← subprocess_run (encoder_admin "status");
     if rc =? 0 then
       j ← lift (json_loads out);
       v ← lift (jget j "active" JNull);
       mret (truthy v)
     else mret false)
    CException (fun _ => mret false).

(** [subprocess.run(argv, check=True)] with its two [except] clauses. *)
Definition checked_run (argv : list string) : M World unit :=
  '(rc, _, _) ← subprocess_run argv;
  if rc =? 0 then mret tt else throw ECalledProcess.

Definition logged {A} (m : M World A) (dflt : A) : M World A :=
  try_except (try_except m CCalledProcess (fun _ => mret dflt)) CTimeout (fun _ => mret dflt).

Definition stop_pipeline (service reason : string) : M World unit :=
  active ← is_service_active;
  if (active : bool) then
    logged (checked_run (encoder_admin "stop")) tt ;;
    still ← is_service_active;
    if (still : bool) then
      emit SYSTEM CRITICAL reason RESTART_PIPELINE
        ("pipeline stop FAILED — service still active: " ++ service) []
    else
      emit SYSTEM CRITICAL reason RESTART_PIPELINE ("pipeline stopped: " ++ service) []
  else mret tt.

Definition restart_pipeline (reason : string) : M World unit :=
  logged
    (checked_run (encoder_admin "restart") ;;
     emit SYSTEM INFO reason RESTART_PIPELINE "encoder restarted to apply mode profile" []) tt.

Definition ensure_pipeline_running (service reason : string) : M World unit :=
  active ← is_service_active;
  when (negb active)
    (logged (checked_run (encoder_admin "start")) tt ;;
     _ ← is_service_active;
     emit SYSTEM INFO reason RESTART_PIPELINE ("pipeline started: " ++ service) []).

Definition profile_doc (mode : SystemMode) (fps bitrate : Z) (ts : Q) : content :=
  Text (TxDoc (JObj [
    ("profile", JStr (if decide (mode = DEGRADED) then "low" else "local"));
    ("max_fps", JInt fps); ("max_bitrate_kbps", JInt bitrate);
    ("mode", JStr (mode_value mode)); ("ts", JFloat ts)]%string)).

Definition write_fps_profile (mode : SystemMode) (fps bitrate : Z) : M World unit :=
  suppress_oserror
    (ts ← time_time;
     on_file w_profile_file set_profile_file (system_write_text (profile_doc mode fps bitrate ts))).

Definition clear_fps_profile : M World unit :=
  suppress_oserror (on_file w_profile_file set_profile_file unlink_if_exists).

(** [history = json.loads(read_text())], or [[]] on any failure. *)
Definition read_history (c : content) : json :=
  if exists_ c then
    match (t ← read_text c; json_loads t) with Ok j => j | Raise _ => JArr [] end
  else JArr [].

Definition history_entry (previous target : SystemMode) (reason : string) (ts : Q) : json :=
  JObj [("from", JStr (mode_value previous)); ("to", JStr (mode_value target));
        ("reason", JStr reason); ("ts", JFloat ts)]%string.

(** The last 50 entries, the new one included. *)
Definition keep_history (l : list json) (e : json) : list json := slice_last 50 (l ++ [e]).

Definition persist_history (previous target : SystemMode) (reason : string) : M World unit :=
  suppress_oserror
    (os_call SysMkdir ;;
     c ← gets (fun w => f_content (w_history_file w));
     match read_history c with
     | JArr l =>
         ts ← time_time;
         on_file w_history_file set_history_file
           (system_write_text
              (Text (TxDoc (JArr (keep_history l (history_entry previous target reason ts))))))
     | _ => throw EAttribute            (* [history.append] *)
     end).

(** The body of the [try]: what each target mode enforces. *)
Definition enforce (previous target : SystemMode) (reason : string) : M World unit :=
  let service := cfg_service_name cfg in
  let policy := MODE_POLICIES target in
  match target with
  | SAFE => stop_pipeline service reason
  | NOMINAL =>
      clear_fps_profile ;;
      b ← (if decide (previous = DEGRADED ∨ previous = LOCAL_ONLY)
           then is_service_active else mret false);
      if (b : bool) then restart_pipeline reason else ensure_pipeline_running service reason
  | DEGRADED | LOCAL_ONLY =>
      write_fps_profile target (max_fps policy) (max_bitrate_kbps policy) ;;
      b ← is_service_active;
      if (b : bool) then restart_pipeline reason else ensure_pipeline_running service reason
  end.

Definition on_mode_transition (previous target : SystemMode) (reason : string)
    : M World unit :=
  try_except (enforce previous target reason) CException (fun _ => mret tt) ;;
  persist_history previous target reason.

(** [register]: idempotent. *)
Definition register : M World unit :=
  b ← gets w_enforcer_registered;
  if (b : bool) then mret tt
  else on_transition LModeEnforcer ;; modify (set_registered true).
End ops.

(** ** The enforcer is a well-behaved listener *)
Section frame.
Context {E : Env} (R : World → World → Prop) `{!Coarse R}.
Context (Hprofile : ∀ f w, R w (set_profile_file f w)).
Context (Hhistory : ∀ f w, R w (set_history_file f w)).

Lemma pres_is_service_active : preserves R is_service_active.
Proof. unfold is_service_active. pres. Qed.

Lemma pres_checked_run v : preserves R (checked_run v).
Proof. unfold checked_run. pres. Qed.
Hint Resolve pres_is_service_active pres_checked_run : pres.

Lemma pres_restart_pipeline r : preserves R (restart_pipeline r).
Proof. unfold restart_pipeline, logged. pres. Qed.

Lemma pres_ensure_running s r : preserves R (ensure_pipeline_running s r).
Proof. unfold ensure_pipeline_running, logged. pres. Qed.

Lemma pres_stop_pipeline s r : preserves R (stop_pipeline s r).
Proof. unfold stop_pipeline, logged. pres. Qed.
Hint Resolve pres_restart_pipeline pres_ensure_running pres_stop_pipeline : pres.

Lemma pres_on_mode_transition p t r : preserves R (on_mode_transition p t r).
Proof.
  unfold on_mode_transition, enforce, persist_history, write_fps_profile, clear_fps_profile,
    suppress_oserror. pres; by apply pres_on_file.
Qed.
End frame.

(** ** What the enforcer does *)
Section commands_of.
Context {E : Env}.

(** The verbs a target mode may use on the encoder. *)
Definition allowed_verbs (target : SystemMode) : list string :=
  match target with SAFE => ["status"; "stop"] | _ => ["status"; "start"; "restart"] end.

Definition verb_in (vs : list string) (c : command) : Prop :=
  ∃ v, v ∈ vs ∧ cm_argv c = encoder_admin v.

Lemma runs_verb vs v : v ∈ vs → preserves (runs_only (verb_in vs)) (subprocess_run (encoder_admin v)).
Proof. intros Hv. apply runs_subprocess. intros w. exists v. done. Qed.

Lemma runs_status vs : "status"%string ∈ vs → preserves (runs_only (verb_in vs)) is_service_active.
Proof. intros Hv. unfold is_service_active. pres. by apply runs_verb. Qed.

Lemma runs_checked vs v :
  v ∈ vs → preserves (runs_only (verb_in vs)) (checked_run (encoder_admin v)).
Proof. intros Hv. unfold checked_run. pres. by apply runs_verb. Qed.

Lemma runs_enforce p t r :
  preserves (runs_only (verb_in (allowed_verbs t))) (enforce p t r).
Proof.
  assert (Hprof : ∀ vs m, preserves (runs_only (verb_in vs))
    (on_file w_profile_file set_profile_file (m : M file unit))).
  { intros vs m. apply silent_runs_only, cmds_on_file. by intros f []. }
  destruct t; unfold enforce, write_fps_profile, clear_fps_profile, suppress_oserror,
    restart_pipeline, ensure_pipeline_running, stop_pipeline, logged;
    pres; first [apply Hprof|apply runs_status; set_solver|apply runs_checked; set_solver].
Qed.

Lemma runs_transition p t r :
  preserves (runs_only (verb_in (allowed_verbs t))) (on_mode_transition p t r).
Proof.
  unfold on_mode_transition, persist_history, suppress_oserror.
  pres; [apply runs_enforce|]. apply silent_runs_only, cmds_on_file. by intros f [].
Qed.

End commands_of.

Definition call_listener {E : Env} (l : listener_name) : SystemMode → SystemMode → string → M World unit :=
  match l with LModeEnforcer => on_mode_transition end.

Lemma call_listener_frame {E : Env} l p t r : preserves listener_frame (call_listener l p t r).
Proof. destruct l. apply pres_on_mode_transition; [apply _|by intros ? []..]. Qed.

Lemma call_listener_commands {E : Env} l p t r :
  preserves (runs_only (λ c, ∃ v, cm_argv c = encoder_admin v)) (call_listener l p t r).
Proof.
  destruct l. intros w. destruct (runs_transition p t r w) as (cs & Hcs & HP).
  exists cs. split; [done|]. eapply Forall_impl; [done|]. intros c (v & _ & Hc). by exists v.
Qed.

#[export] Instance mode_enforcer_listener {E : Env} : ModeListener :=
  {| run_listener := call_listener; run_listener_frame := call_listener_frame;
     run_listener_commands := call_listener_commands |}.

Section spec.
Context {E : Env}.

(** Safety of mode enforcement: entering SAFE never starts or restarts the
    encoder, and entering any other mode never stops it; whatever the probes and
    commands return, nothing but [encoder-admin] is run. *)
Theorem enforcer_commands_safe previous target reason w :
  ∃ cs, w_commands (on_mode_transition previous target reason w).2 = w_commands w ++ cs ∧
        Forall (λ c, ∃ v, cm_argv c = encoder_admin v ∧
                          v ∈ (match target with
                               | SAFE => ["status"; "stop"]
                               | _ => ["status"; "start"; "restart"] end)%string) cs.
Proof.
  destruct (runs_transition previous target reason w) as (cs & Hcs & HP).
  exists cs. split; [done|]. eapply Forall_impl; [done|]. intros c (v & Hv & Hc).
  exists v. by destruct target.
Qed.

(** *** The SAFE halt *)
Definition probe_active (r : cli_result) : bool :=
  match r with
  | CliDone rc (TxDoc (JObj d)) _ =>
      (rc =? 0) && truthy (default JNull (dget d "active"))
  | _ => false
  end.

Lemma is_service_active_eq w :
  is_service_active w =
    (if killed (cli (w_tick w) (encoder_admin "status")) then fail EKilled
     else Ok (probe_active (cli (w_tick w) (encoder_admin "status"))),
     ran (encoder_admin "status") w).
Proof.
  unfold is_service_active, try_except. unfold mbind at 1, M_bind at 1.
  rewrite subprocess_eq. destruct (cli (w_tick w) (encoder_admin "status")) as [rc out err| | |]; simpl; [|done..].
  destruct (rc =? 0); simpl; [|by destruct out as [| | |[]|]].
  destruct out as [| | |j|]; try done. destruct j; try done.
Qed.

Lemma persist_history_commands p t r : preserves (keeps w_commands) (persist_history p t r).
Proof.
  unfold persist_history, suppress_oserror. pres. apply cmds_on_file. by intros f [].
Qed.

(** The SAFE halt, command by command: the encoder is stopped exactly when the
    status probe reports it active, and the stop is verified by a second probe; a
    probe that times out, fails or answers garbage reads as "already stopped" and
    no stop command is run. *)
Theorem safe_halt_commands previous reason w :
  let n := w_tick w in
  map cm_argv (w_commands (on_mode_transition previous SAFE reason w).2) =
    map cm_argv (w_commands w) ++ encoder_admin "status" ::
    (if probe_active (cli n (encoder_admin "status")) then
       encoder_admin "stop" ::
       match cli (S n) (encoder_admin "stop") with
       | CliMissing | CliKilled => []
       | _ => [encoder_admin "status"]
       end
     else []).
Proof.
  assert (Htail : ∀ (m : M World unit) w0,
    w_commands ((try_except m CException (λ _, mret tt) ;; persist_history previous SAFE reason) w0).2
    = w_commands (m w0).2).
  { intros m w0. unfold try_except, mbind, M_bind. destruct (m w0) as [[u|e] w1].
    - apply persist_history_commands.
    - destruct (instance_of (ex_kind e) CException); [apply persist_history_commands|done]. }
  assert (Hem : ∀ o w0, w_commands (emit SYSTEM CRITICAL reason RESTART_PIPELINE o [] w0).2 = w_commands w0).
  { intros o w0. apply cmds_emit. }
  cbn zeta. unfold on_mode_transition. rewrite Htail. unfold enforce, stop_pipeline.
  unfold mbind at 1, M_bind at 1. rewrite is_service_active_eq.
  destruct (killed _) eqn:Hk;
    [destruct (cli _ _); try done; apply ran_argvs|clear Hk].
  destruct (probe_active _); [|apply ran_argvs].
  unfold mbind at 1, M_bind at 1. unfold logged, try_except, checked_run.
  unfold mbind at 1, M_bind at 1. rewrite subprocess_eq.
  rewrite ran_tick.
  assert (Hlast : ∀ w0, map cm_argv (w_commands
    ((still ← is_service_active;
      if (still : bool) then
        emit SYSTEM CRITICAL reason RESTART_PIPELINE
          ("pipeline stop FAILED — service still active: " ++ cfg_service_name cfg) []
      else emit SYSTEM CRITICAL reason RESTART_PIPELINE
             ("pipeline stopped: " ++ cfg_service_name cfg) []) w0).2)
    = map cm_argv (w_commands w0) ++ [encoder_admin "status"]).
  { intros w0. unfold mbind, M_bind. rewrite is_service_active_eq.
    destruct (killed _); [apply ran_argvs|].
    destruct (probe_active _); rewrite Hem; apply ran_argvs. }
  destruct (cli (S (w_tick w)) (encoder_admin "stop")) as [rc out err| | |]; simpl;
    try (destruct (rc =? 0); simpl); rewrite ?Hlast, !ran_argvs;
    by rewrite <- ?app_assoc.
Qed.

(** *** The reduced modes *)
Definition profile_seen (doc : content) (w w' : World) : Prop :=
  f_content (w_profile_file w) = doc →
  f_content (w_profile_file w') = doc ∧ runs_only (λ c, cm_profile c = doc) w w'.

Global Instance profile_seen_preorder doc : PreOrder (profile_seen doc).
Proof.
  split; [by intros w Hw|]. intros w1 w2 w3 H1 H2 Hw.
  destruct (H1 Hw) as [Hw2 R1]. destruct (H2 Hw2) as [Hw3 R2]. split; [done|]. by etrans.
Qed.

Lemma seen_silent {A} doc (m : M World A) :
  preserves (keeps w_commands) m → preserves (keeps w_profile_file) m →
  preserves (profile_seen doc) m.
Proof.
  intros H1 H2 w Hw. split; [by rewrite (H2 w)|]. exists []. rewrite app_nil_r.
  split; [apply H1|constructor].
Qed.

Lemma seen_subprocess doc argv : preserves (profile_seen doc) (subprocess_run argv).
Proof.
  intros w Hw. rewrite subprocess_eq. split; [by destruct w|].
  exists [observe argv w]. split; [by destruct w|]. repeat constructor. done.
Qed.

Lemma seen_emit doc d s sig a o det : preserves (profile_seen doc) (emit d s sig a o det).
Proof.
  apply seen_silent; [apply cmds_emit|]. intros w.
  apply (pres_emit observable_only d s sig a o det w).
Qed.
Hint Resolve seen_subprocess seen_emit : pres.

Lemma seen_apply_profile doc reason :
  preserves (profile_seen doc)
    (b ← is_service_active;
     if (b : bool) then restart_pipeline reason
     else ensure_pipeline_running (cfg_service_name cfg) reason).
Proof.
  unfold ensure_pipeline_running, restart_pipeline, logged, checked_run, is_service_active. pres.
Qed.

(** Order of enforcement in the reduced modes: when the profile can be written,
    every command the enforcer runs (the restart or start of the encoder among them)
    finds the target mode's profile on disk. *)
Theorem profile_written_before_restart previous target reason w :
  target = DEGRADED ∨ target = LOCAL_ONLY →
  sys_fault (S (w_tick w)) = None →
  let doc := profile_doc target (max_fps (MODE_POLICIES target))
               (max_bitrate_kbps (MODE_POLICIES target)) (wall (w_tick w)) in
  let w' := (on_mode_transition previous target reason w).2 in
  f_content (w_profile_file w') = doc ∧
  ∃ cs, w_commands w' = w_commands w ++ cs ∧ Forall (λ c, cm_profile c = doc) cs.
Proof.
  intros Ht Hf. cbn zeta.
  set (doc := profile_doc _ _ _ _).
  set (w1 := set_profile_file (set_temp None (set_content doc 384 (File
    (f_content (w_profile_file w)) (f_mode (w_profile_file w)) (f_temp (w_profile_file w))
    (f_copies (w_profile_file w)) None))) (set_tick (S (S (w_tick w))) w)).
  assert (Hw : write_fps_profile target (max_fps (MODE_POLICIES target))
               (max_bitrate_kbps (MODE_POLICIES target)) w = (Ok tt, w1)).
  { unfold write_fps_profile, suppress_oserror, try_except, time_time, on_file, zoom, mbind, M_bind.
    destruct w. simpl in *. rewrite system_write_refines. unfold write_spec, write_faults. simpl.
    by rewrite Hf. }
  assert (Henf : enforce previous target reason w =
    (b ← is_service_active;
     if (b : bool) then restart_pipeline reason
     else ensure_pipeline_running (cfg_service_name cfg) reason) w1).
  { destruct Ht as [-> | ->]; unfold enforce; by erewrite bind_ok by exact Hw. }
  assert (Hpres : preserves (profile_seen doc)
    (try_except (λ w0, (b ← is_service_active;
       if (b : bool) then restart_pipeline reason
       else ensure_pipeline_running (cfg_service_name cfg) reason) w0) CException (λ _, mret tt) ;;
     persist_history previous target reason)).
  { apply pres_bind; [apply _| |intros _].
    - apply pres_try; [apply _|apply seen_apply_profile|intros ? ?; reflexivity].
    - apply seen_silent; [apply persist_history_commands|].
      assert (Hh : ∀ f w0, keeps w_profile_file w0 (set_history_file f w0)) by (by intros f []).
      unfold persist_history, suppress_oserror.
      pres; intros w0; [apply (pres_os_call observable_only _ w0)|apply (pres_time observable_only w0)|].
      unfold on_file, mbind, M_bind, zoom, tick. destruct (system_write_text _ _). by destruct w0. }
  assert (Heq : on_mode_transition previous target reason w =
    (try_except (λ w0, (b ← is_service_active;
       if (b : bool) then restart_pipeline reason
       else ensure_pipeline_running (cfg_service_name cfg) reason) w0) CException (λ _, mret tt) ;;
     persist_history previous target reason) w1).
  { apply bind_at, try_at, Henf. }
  rewrite Heq. destruct (Hpres w1) as [Hdoc (cs & Hcs & HP)]; [by destruct w|].
  split; [done|]. exists cs. split; [|done]. rewrite Hcs. by destruct w.
Qed.

(** *** The history file *)
Lemma keep_history_spec l e :
  (length (keep_history l e) ≤ 50)%nat ∧ last (keep_history l e) = Some e.
Proof.
  unfold keep_history, slice_last. simpl. rewrite length_app. simpl.
  destruct (decide (length l < 50)%nat).
  - replace (_ - _)%nat with 0%nat by lia. rewrite drop_0, length_app, last_snoc. simpl. split; [lia|done].
  - rewrite drop_app_le by lia. rewrite length_app, length_drop, last_snoc. simpl. split; [lia|done].
Qed.

(** The mode history is a bounded ring on disk: a transition leaves the file as it
    was (when it cannot be written) or holding a list of at most 50 entries, whatever
    it held before, whose last entry is this transition. *)
Theorem history_bounded previous target reason w :
  let f := w_history_file w in
  let f' := w_history_file (persist_history previous target reason w).2 in
  f_content f' = f_content f ∨
  ∃ l ts, f_content f' = Text (TxDoc (JArr l)) ∧ (length l ≤ 50)%nat ∧
          last l = Some (history_entry previous target reason ts).
Proof.
  cbn zeta. unfold persist_history, suppress_oserror, try_except, os_call, time_time, on_file.
  unfold mbind, M_bind. destruct w as [tk ? ? ? ? ? ? ? ? ? ? ? ? fh ?]. simpl.
  case_decide; simpl; [by left|].
  destruct (read_history (f_content fh)) as [| | | | |l|]; simpl; try by left.
  unfold zoom. simpl. rewrite system_write_refines.
  unfold write_spec, write_faults. simpl.
  destruct (match sys_fault (S (S tk)) with Some s => aborts_write None s | None => false end); simpl.
  - left. by destruct fh.
  - right. destruct (keep_history_spec l (history_entry previous target reason (wall (S tk)))).
    eexists _, _. by split_and!.
Qed.
End spec.

(** In an environment that does not kill the process, the enforcer raises only
    exceptions of the program. *)
Lemma call_listener_catchable {E : Env} l p t r :
  (∀ n argv, cli n argv ≠ CliKilled) → raises_only catchable (call_listener l p t r).
Proof.
  intros Hlive. destruct l.
  assert (Hprobe : raises_only catchable is_service_active).
  { apply ro_total, total_catch_all; [|done].
    apply ro_bind; [by apply ro_subprocess|intros [[rc out] err]].
    destruct (rc =? 0); [|apply ro_ret]. apply ro_bind.
    - apply ro_lift. intros e. apply json_loads_catchable.
    - intros j. apply ro_bind; [|intros v; apply ro_ret].
      apply ro_lift. intros e. apply jget_catchable. }
  assert (Hrun : ∀ argv, raises_only catchable (checked_run argv)).
  { intros argv. unfold checked_run. ro. }
  unfold call_listener, on_mode_transition, enforce, stop_pipeline, restart_pipeline,
    ensure_pipeline_running, write_fps_profile, clear_fps_profile, persist_history,
    suppress_oserror, logged.
  ro. apply ro_on_file. unfold unlink_if_exists. ro.
Qed.

(** ** Witnesses *)
Lemma profile_written_before_restart_witness :
  let doc := profile_doc DEGRADED 15 1500 (wall (Env:=live_env) 0) in
  f_content (w_profile_file (on_mode_transition (E:=live_env) NOMINAL DEGRADED "fault" sample_world).2)
  = doc.
Proof.
  exact (proj1 (profile_written_before_restart (E:=live_env) NOMINAL DEGRADED "fault" sample_world
    (or_introl eq_refl) eq_refl)).
Defined.
