(* ===== verification/Quiesce.v ===== *)
(** * The FDIR quiesce gate ([app/services/fdir_quiesce.py])

    A known-disruptive action arms the gate so that the watchdogs do not escalate the
    staleness it causes. The gate's transitions are pure functions of the clock
    reading ([arm], [disarm]); the module's functions apply them under the lock, so
    the behaviour of any number of threads is a timeline of such transitions. *)
From S2P Require Import Prelude.
From S2P Require Import PyVal.
From S2P Require Import FileStore.
From S2P Require Import FdirEvents.
From S2P Require Import LadderPolicy.
From S2P Require Import World.

Definition QUIESCE_TTL_CEILING_SEC : Q := 120.

(** [set(domains)] and [|=], as duplicate-free lists. *)
Definition domain_union (a b : list Domain) : list Domain := list_union a b.

Definition arm (now ttl : Q) (reason : string) (domains : list Domain) (q : Quiesce) : Quiesce :=
  if q_arms q =? 0
  then mkQuiesce (now + (if Qle_bool ttl QUIESCE_TTL_CEILING_SEC
                         then ttl else QUIESCE_TTL_CEILING_SEC))%Q
         domains reason 1
  else mkQuiesce (q_until q) (domain_union (q_domains q) domains) (q_reason q) (q_arms q + 1).

Definition disarm (q : Quiesce) : Quiesce :=
  let arms := Z.max 0 (q_arms q - 1) in
  if arms =? 0 then no_quiesce
  else mkQuiesce (q_until q) (q_domains q) (q_reason q) arms.

Definition covers (now : Q) (d : Domain) (q : Quiesce) : bool :=
  Qltb now (q_until q) && bool_decide (d ∈ q_domains q).

Section ops.
Context {E : Env}.

Definition is_quiesced (d : Domain) : M World bool :=
  t ← monotonic; gets (fun w => covers t d (w_quiesce w)).

Definition quiesce (ttl : Q) (reason : string) (domains : list Domain) : M World unit :=
  if Qle_bool ttl 0 then mret tt
  else
    q ← gets w_quiesce;
    now ← (if q_arms q =? 0 then monotonic else mret 0%Q);
    modify (fun w => set_quiesce (arm now ttl reason domains (w_quiesce w)) w).

Definition unquiesce : M World unit :=
  modify (fun w => set_quiesce (disarm (w_quiesce w)) w).

(** [with quiesced(ttl, reason, domains): body] *)
Definition quiesced {A} (ttl : Q) (reason : string) (domains : list Domain) (body : M World A)
    : M World A :=
  quiesce ttl reason domains ;; finally body unquiesce.

Definition note_suppressed (signal : string) (d : Domain) : M World unit :=
  q ← gets w_quiesce;
  t ← monotonic;
  try_except
    (emit d WARN signal NONE "suppressed_planned"
       [("reason", JStr (q_reason q)); ("remaining_sec", JFloat (round1 (q_until q - t)%Q))]%string)
    CException (fun _ => mret tt).
End ops.

(** ** The gate over time *)
Inductive gate_event :=
  | GArm (ttl : Q) (reason : string) (domains : list Domain)
  | GDisarm.

(** One event at a clock reading; a non-positive ttl does not arm. *)
Definition gate_step (q : Quiesce) (e : Q * gate_event) : Quiesce :=
  match e with
  | (now, GArm ttl reason domains) => if Qle_bool ttl 0 then q else arm now ttl reason domains q
  | (_, GDisarm) => disarm q
  end.

Definition run_gate (l : list (Q * gate_event)) (q : Quiesce) : Quiesce := foldl gate_step q l.

(** A closed gate holds no window. *)
Definition gate_wf (q : Quiesce) : Prop := 0 ≤ q_arms q ∧ (q_arms q = 0 → q = no_quiesce).

(** The last event that opened the window: nothing before it was armed, and the gate
    has stayed armed since. *)
Definition opened_by (l : list (Q * gate_event)) (t0 ttl : Q) (domains : list Domain) : Prop :=
  ∃ l1 l2 reason, l = l1 ++ (t0, GArm ttl reason domains) :: l2 ∧
    q_arms (run_gate l1 no_quiesce) = 0 ∧ (0 < ttl)%Q ∧
    ∀ k, 0 < q_arms (run_gate (take k l2) (arm t0 ttl reason domains (run_gate l1 no_quiesce))).

Lemma Qle_bool_pos x : (0 < x)%Q → Qle_bool x 0 = false.
Proof. intros Hx. apply not_true_iff_false. rewrite Qle_bool_iff. by apply Qlt_not_le. Qed.

Lemma run_gate_snoc l e q : run_gate (l ++ [e]) q = gate_step (run_gate l q) e.
Proof. unfold run_gate. by rewrite foldl_app. Qed.

Lemma gate_wf_step q e : gate_wf q → gate_wf (gate_step q e).
Proof.
  unfold gate_wf, gate_step, arm, disarm. intros [Hn Hz]. destruct e as [now [ttl r d|]].
  - destruct (Qle_bool ttl 0); [done|]. destruct (Z.eqb_spec (q_arms q) 0); simpl; lia.
  - destruct (Z.eqb_spec (Z.max 0 (q_arms q - 1)) 0); simpl; [done|lia].
Qed.

Lemma run_gate_wf l : gate_wf (run_gate l no_quiesce).
Proof.
  induction l as [|e l IH] using rev_ind; [done|]. rewrite run_gate_snoc. by apply gate_wf_step.
Qed.

(** Once armed, neither arms nor inner disarms move the deadline. *)
Lemma gate_step_until q e :
  0 < q_arms q → 0 < q_arms (gate_step q e) → q_until (gate_step q e) = q_until q.
Proof.
  unfold gate_step, arm, disarm. intros Hq. destruct e as [now [ttl r d|]].
  - destruct (Qle_bool ttl 0); [done|]. by destruct (Z.eqb_spec (q_arms q) 0); simpl; [lia|].
  - by destruct (Z.eqb_spec (Z.max 0 (q_arms q - 1)) 0).
Qed.

Lemma opened_by_spec l :
  0 < q_arms (run_gate l no_quiesce) →
  ∃ t0 ttl domains, opened_by l t0 ttl domains ∧
    q_until (run_gate l no_quiesce)
    = (t0 + (if Qle_bool ttl QUIESCE_TTL_CEILING_SEC then ttl else QUIESCE_TTL_CEILING_SEC))%Q.
Proof.
  induction l as [|e l IH] using rev_ind; [done|]. rewrite run_gate_snoc. intros Hpos.
  pose proof (run_gate_wf l) as [Hn Hz].
  destruct (decide (q_arms (run_gate l no_quiesce) = 0)) as [H0|H0].
  - specialize (Hz H0). destruct e as [t0 [ttl r d|]].
    + unfold gate_step in *. destruct (Qle_bool ttl 0) eqn:Ht; [lia|].
      exists t0, ttl, d. split.
      * exists l, [], r. split_and!; [done|done| |].
        { apply Qnot_le_lt. intros Hle%Qle_bool_iff. congruence. }
        intros k. by rewrite take_nil.
      * unfold arm. by rewrite H0.
    + unfold gate_step in Hpos. rewrite Hz in Hpos. unfold disarm in Hpos. simpl in Hpos. lia.
  - destruct IH as (t0 & ttl & d & (l1 & l2 & r & -> & H1 & Ht & Hk) & Hu); [lia|].
    exists t0, ttl, d. split; [|rewrite gate_step_until; [done|lia|done]].
    exists l1, (l2 ++ [e]), r. split_and!; [by rewrite <- app_assoc|done|done|].
    intros k. destruct (decide (k ≤ length l2)%nat).
    { by rewrite take_app_le. }
    rewrite take_ge by (rewrite length_app; simpl; lia). rewrite run_gate_snoc.
    assert (Hr : run_gate l2 (arm t0 ttl r d (run_gate l1 no_quiesce))
            = run_gate (l1 ++ (t0, GArm ttl r d) :: l2) no_quiesce).
    { unfold run_gate. rewrite foldl_app. simpl.
      by rewrite Qle_bool_pos. }
    by rewrite Hr.
Qed.

(** C8. The quiesce ceiling: whatever arms and disarms any threads perform, in any
    order and nesting, a suppressed instant lies less than [ttl], and never 120 s or
    more, after the arm that opened the current window: later arms cannot walk the
    deadline forward. *)
Theorem quiesce_window_bounded l now d :
  covers now d (run_gate l no_quiesce) = true → (0 <= now)%Q →
  ∃ t0 ttl domains, opened_by l t0 ttl domains ∧
    (now < t0 + ttl)%Q ∧ (now < t0 + QUIESCE_TTL_CEILING_SEC)%Q.
Proof.
  unfold covers. rewrite andb_true_iff, Qltb_lt. intros [Hnow _] H0.
  pose proof (run_gate_wf l) as [Hn Hz].
  destruct (decide (q_arms (run_gate l no_quiesce) = 0)) as [Harm|Harm].
  { rewrite (Hz Harm) in Hnow. simpl in Hnow. lra. }
  destruct (opened_by_spec l) as (t0 & ttl & doms & Hopen & Hu); [lia|].
  exists t0, ttl, doms. split; [done|]. rewrite Hu in Hnow.
  destruct (Qle_bool ttl QUIESCE_TTL_CEILING_SEC) eqn:Hle.
  - apply Qle_bool_iff in Hle. split; lra.
  - assert (¬ (ttl <= QUIESCE_TTL_CEILING_SEC)%Q) as Hlt by (rewrite <- Qle_bool_iff; congruence).
    apply Qnot_le_lt in Hlt. split; lra.
Qed.

Definition gate_sample : list (Q * gate_event) :=
  [(100, GArm 300 "recovery" [PIPELINE; SENSOR]); (150, GArm 60 "apply" [JANUS]);
   (160, GDisarm)]%Q%string.

Lemma quiesce_window_bounded_witness :
  ∃ t0 ttl domains, opened_by gate_sample t0 ttl domains ∧
    (219 < t0 + ttl)%Q ∧ (219 < t0 + QUIESCE_TTL_CEILING_SEC)%Q.
Proof. apply (quiesce_window_bounded gate_sample 219 JANUS); [reflexivity|lra]. Defined.

(** ** The gate inside a computation *)
Definition gate_frame (w w' : World) : Prop := w_quiesce w' = w_quiesce w.
#[export] Instance gate_frame_coarse : Coarse gate_frame.
Proof.
  split; [apply (keeps_preorder w_quiesce)|]. unfold observable_only, gate_frame.
  intros w w' H. by destruct_and!.
Qed.

Section quiesced.
Context {E : Env}.

(** The world in which the body of [quiesced] runs, from a closed gate. *)
Definition armed_world (ttl : Q) (reason : string) (domains : list Domain) (w : World) : World :=
  set_quiesce (arm (mono (w_tick w)) ttl reason domains no_quiesce)
    (set_tick (S (w_tick w)) w).

Lemma quiesced_eq {A} ttl reason domains (body : M World A) w :
  (0 < ttl)%Q → w_quiesce w = no_quiesce →
  quiesced ttl reason domains body w =
    finally body unquiesce (armed_world ttl reason domains w).
Proof.
  intros Ht Hq. unfold quiesced, quiesce.
  rewrite Qle_bool_pos by done.
  unfold mbind, M_bind. simpl. rewrite Hq. simpl.
  destruct w. simpl in *. by rewrite Hq.
Qed.

(** The gate is closed again afterwards, also when the body raises. *)
Lemma quiesced_closes {A} ttl reason domains (body : M World A) w :
  (0 < ttl)%Q → w_quiesce w = no_quiesce → preserves gate_frame body →
  w_quiesce (quiesced ttl reason domains body w).2 = no_quiesce.
Proof.
  intros Ht Hq Hb. rewrite quiesced_eq by done. unfold finally, unquiesce.
  specialize (Hb (armed_world ttl reason domains w)). unfold gate_frame in Hb.
  destruct (body _) as [r w1]. simpl in *.
  assert (w_quiesce (set_quiesce (disarm (w_quiesce w1)) w1) = disarm (w_quiesce w1)) as ->
    by (by destruct w1).
  rewrite Hb. unfold armed_world. destruct w. reflexivity.
Qed.

(** A non-positive ttl arms nothing but still disarms: another holder's window is
    closed under it. *)
Lemma quiesced_nonpositive_disarms {A} reason domains (a : A) w :
  w_quiesce (quiesced 0 reason domains (mret a) w).2 = disarm (w_quiesce w).
Proof. by destruct w. Qed.
End quiesced.

Section frames.
Context {E : Env} (R : World → World → Prop) `{!Coarse R}.

Lemma pres_is_quiesced d : preserves R (is_quiesced d).
Proof. unfold is_quiesced. pres. Qed.
Lemma pres_note_suppressed s d : preserves R (note_suppressed s d).
Proof. unfold note_suppressed. pres. Qed.

Context (Hq : ∀ q w, R w (set_quiesce q w)).
Lemma pres_quiesced {A} ttl r ds (body : M World A) :
  preserves R body → preserves R (quiesced ttl r ds body).
Proof. intros Hb. unfold quiesced, quiesce, unquiesce. pres; apply Hq. Qed.
End frames.
#[export] Hint Extern 1 (preserves _ (is_quiesced _)) => (apply pres_is_quiesced; apply _) : pres.
#[export] Hint Extern 1 (preserves _ (note_suppressed _ _)) => (apply pres_note_suppressed; apply _) : pres.
