(* ===== verification/Persistence.v ===== *)
(** * Ladder persistence and the reboot counter ([app/services/recovery_persistence.py])

    Two files: the reboot counter, read and rewritten in place under a file lock, and
    the JSON ladder state, replaced atomically. The 8192-byte limit of the state read
    is not modelled (the state is a few hundred bytes). *)
From S2P Require Import Prelude.
From S2P Require Import PyVal.
From S2P Require Import FileStore.
From S2P Require Import FdirEvents.
From S2P Require Import LadderPolicy.
From S2P Require Import World.

(** ** The reboot counter *)
Definition newline : string := String (Ascii.ascii_of_nat 10) EmptyString.
Definition count_text (n : Z) : string := (pretty n ++ newline)%string.

Section reboot_count.
Context {E : Env}.

(** [except (FileNotFoundError, ValueError): return 0] *)
Definition read_reboot_count : M World Z :=
  try_except
    (try_except
       (os_call SysRead ;;
        c ← gets w_reboots;
        match c with
        | CfAbsent => throw EFileNotFound
        | CfUnreadable => throw EOS
        | CfNotUtf8 => throw EUnicodeDecode
        | CfText s => match parse_int s with Some n => mret n | None => throw EValue end
        end)
       CFileNotFound (fun _ => mret 0))
    CValueError (fun _ => mret 0).

(** [os.open(path, O_RDWR | O_CREAT)] and [flock] *)
Definition open_count : M World unit :=
  os_call SysMkdir ;;
  os_call SysOpen ;;
  c ← gets w_reboots;
  match c with
  | CfUnreadable => throw EOS
  | CfAbsent => modify (set_reboots (CfText EmptyString))
  | _ => mret tt
  end ;;
  os_call SysLock.

(** [ftruncate], [write], [fsync]: not atomic, a failed write leaves an empty file. *)
Definition rewrite_count (n : Z) : M World unit :=
  os_call SysTruncate ;;
  modify (set_reboots (CfText EmptyString)) ;;
  os_call SysWrite ;;
  modify (set_reboots (CfText (count_text n))) ;;
  os_call SysFsync.

Definition write_reboot_count (n : Z) : M World unit :=
  suppress_oserror (open_count ;; rewrite_count n).

(** [os.read(fd, 64).decode()]: the decoding error is not caught. *)
Definition current_count (c : count_file) : res Z :=
  match c with
  | CfText s => Ok (default 0 (parse_int (String.substring 0 64 s)))
  | CfNotUtf8 => fail EUnicodeDecode
  | _ => Ok 0
  end.

Definition atomic_increment_reboot_count : M World Z :=
  try_except
    (open_count ;;
     os_call SysRead ;;
     c ← gets w_reboots;
     n ← lift (current_count c);
     rewrite_count (n + 1) ;;
     mret (n + 1))
    COSError (fun _ => n ← read_reboot_count; mret (n + 1)).
End reboot_count.

(** ** The ladder state *)
Definition ladder_doc (level : Z) (levels : list LadderLevel) (total : Z) (ts : Q) : json :=
  JObj [("level", JInt level);
        ("attempts", JArr (map (fun l => JInt (lv_attempts l)) levels));
        ("last_attempt", JArr (map (fun l => JFloat (lv_last_attempt l)) levels));
        ("total_recoveries", JInt total);
        ("ts", JFloat ts)]%string.

(** [len(x)] and [x[i]] for the shapes a JSON document can have. *)
Definition py_len (j : json) : res Z :=
  match j with
  | JArr l => Ok (Z.of_nat (length l))
  | JObj d => Ok (Z.of_nat (length d))
  | JStr s => Ok (Z.of_nat (String.length s))
  | _ => fail EType
  end.

Definition py_index (j : json) (i : nat) : res json :=
  match j with
  | JArr l => match l !! i with Some x => Ok x | None => fail EValue end
  | JObj _ => fail EKey
  | JStr s => match String.get i s with Some c => Ok (JStr (String c EmptyString)) | None => fail EValue end
  | _ => fail EType
  end.

(** [if i < len(saved): lv.field = conv(saved[i])] *)
Definition restore {A} (saved : json) (i : nat) (conv : json → res A)
    (assign : A → LadderLevel → LadderLevel) (lv : LadderLevel) : res LadderLevel :=
  n ← py_len saved;
  if Z.of_nat i <? n then x ← py_index saved i; v ← conv x; Ok (assign v lv) else Ok lv.

(** The loop over the levels, which are mutated in place: what was assigned before
    an exception stays assigned. *)
Fixpoint restore_levels (i : nat) (attempts last : json) (levels : list LadderLevel)
    : res unit * list LadderLevel :=
  match levels with
  | [] => (Ok tt, [])
  | lv :: rest =>
      match restore attempts i to_int set_attempts lv with
      | Raise e => (Raise e, lv :: rest)
      | Ok lv1 =>
          match restore last i to_float set_last_attempt lv1 with
          | Raise e => (Raise e, lv1 :: rest)
          | Ok lv2 =>
              let '(r, rest') := restore_levels (S i) attempts last rest in (r, lv2 :: rest')
          end
      end
  end.

(** The body of [load_ladder_state] on the file's content. *)
Definition parse_ladder_state (c : content) (levels : list LadderLevel)
    : res (nat * Z) * list LadderLevel :=
  match (raw ← read_text c; doc ← json_loads raw;
         level ← jget doc "level" (JInt 0); level ← to_int level;
         total ← jget doc "total_recoveries" (JInt 0); total ← to_int total;
         attempts ← jget doc "attempts" (JArr []);
         last ← jget doc "last_attempt" (JArr []);
         Ok (level, total, attempts, last)) with
  | Raise e => (Raise e, levels)
  | Ok (level, total, attempts, last) =>
      let '(r, levels') := restore_levels 0 attempts last levels in
      (match r with
       | Raise e => Raise e
       | Ok _ => Ok (Z.to_nat (Z.max 0 (Z.min level (Z.of_nat (length levels)))), total)
       end, levels')
  end.

Section ladder_state.
Context {E : Env}.

Definition save_ladder_state (level : Z) (levels : list LadderLevel) (total : Z)
    : M World unit :=
  suppress_oserror
    (ts ← time_time;
     on_file w_ladder_file set_ladder_file
       (system_write_text (Text (TxDoc (ladder_doc level levels total ts))))).

Definition emit_corruption (e : exn) : M World unit :=
  emit SYSTEM WARN "ladder_state_corrupt" NONE
    ("ladder state lost (" ++ ex_msg e ++ "), reset to level 0") [].

(** [except (json.JSONDecodeError, ValueError, KeyError)] *)
Definition corrupt_state (k : exn_kind) : bool :=
  instance_of k CJsonDecode || instance_of k CValueError || instance_of k CKeyError.

(** Returns the levels as they are left, and (level, total). *)
Definition load_ladder_state (levels : list LadderLevel)
    : M World (list LadderLevel * (nat * Z)) :=
  os_call SysOpen ;;
  f ← gets w_ladder_file;
  let '(r, levels') := parse_ladder_state (f_content f) levels in
  match r with
  | Ok p => mret (levels', p)
  | Raise e =>
      if instance_of (ex_kind e) CFileNotFound then mret (levels', (0%nat, 0))
      else if corrupt_state (ex_kind e)
      then emit_corruption e ;; mret (levels', (0%nat, 0))
      else raise e
  end.
End ladder_state.

(** ** Laws of the counter *)
Lemma count_text_reads n : parse_int (count_text n) = Some n.
Proof. apply parse_int_pretty. by repeat constructor. Qed.

(** The value a count file is read as. *)
Definition count_value (c : count_file) : Z :=
  match c with CfText s => default 0 (parse_int s) | _ => 0 end.

Lemma count_value_text n : count_value (CfText (count_text n)) = n.
Proof. unfold count_value. by rewrite count_text_reads. Qed.

Section counter_laws.
Context {E : Env}.

Definition reboots_frame (w w' : World) : Prop :=
  w_mode w' = w_mode w ∧ w_quiesce w' = w_quiesce w ∧ w_ladder w' = w_ladder w ∧
  w_process_start w' = w_process_start w ∧ w_ladder_file w' = w_ladder_file w ∧
  w_marker_file w' = w_marker_file w ∧ w_profile_file w' = w_profile_file w ∧
  w_history_file w' = w_history_file w ∧ w_watch w' = w_watch w ∧
  w_enforcer_registered w' = w_enforcer_registered w.

#[export] Instance reboots_frame_coarse : Coarse reboots_frame.
Proof.
  split.
  - split; [by intros w|]. unfold reboots_frame.
    intros w1 w2 w3 H1 H2. destruct_and!. split_and!; congruence.
  - unfold observable_only, reboots_frame. intros w w' H. destruct_and!. by split_and!.
Qed.

Lemma read_reboot_count_frame (R : World → World → Prop) `{!Coarse R} :
  preserves R read_reboot_count.
Proof. unfold read_reboot_count. pres. Qed.

Section any.
Context (R : World → World → Prop) `{!Coarse R}.
Context (Hr : ∀ c w, R w (set_reboots c w)).

Lemma pres_write_reboot_count n : preserves R (write_reboot_count n).
Proof. unfold write_reboot_count, suppress_oserror, open_count, rewrite_count. pres; apply Hr. Qed.

Lemma pres_increment : preserves R atomic_increment_reboot_count.
Proof.
  unfold atomic_increment_reboot_count, open_count, rewrite_count.
  pres; first [apply Hr|by apply read_reboot_count_frame].
Qed.
End any.

Lemma ro_os_call s : raises_only (λ k, k = EOS) (os_call s).
Proof.
  intros w e. unfold os_call, mbind, M_bind. simpl. case_decide; [|done].
  by intros [= <-].
Qed.

Lemma write_reboot_count_total n : total (write_reboot_count n).
Proof.
  intros w. unfold write_reboot_count, suppress_oserror, try_except.
  assert (Hro : raises_only (λ k, k = EOS) (open_count ;; rewrite_count n)).
  { unfold open_count, rewrite_count.
    repeat first [apply ro_os_call|apply ro_gets|apply ro_modify|apply ro_bind; [|intros ?]
                 |match goal with |- raises_only _ (match ?x with _ => _ end) => destruct x end
                 |apply ro_throw; done|apply ro_ret]. }
  specialize (Hro w). destruct ((open_count ;; rewrite_count n) w) as [[u|e] w']; [done|].
  by rewrite (Hro e eq_refl).
Qed.

Lemma cmds_write_reboot_count n : preserves (keeps w_commands) (write_reboot_count n).
Proof.
  unfold write_reboot_count, suppress_oserror, open_count, rewrite_count. pres; by destruct w.
Qed.

(** A read that meets no fault returns the count and changes nothing else. *)
Lemma read_reboot_count_eq w :
  sys_fault (w_tick w) ≠ Some SysRead →
  w_reboots w ≠ CfUnreadable →
  read_reboot_count w = (Ok (count_value (w_reboots w)), set_tick (S (w_tick w)) w).
Proof.
  intros Hf Hr. unfold read_reboot_count, try_except, os_call, mbind, M_bind. simpl.
  rewrite decide_False by done. destruct w; simpl in *.
  destruct w_reboots as [| | |s]; try done. simpl. by destruct (parse_int s).
Qed.
End counter_laws.
#[export] Hint Extern 1 (preserves _ read_reboot_count) =>
  (apply read_reboot_count_frame; apply _) : pres.

(** ** Laws of the ladder state *)
Section state_laws.
Context {E : Env}.

Lemma restore_levels_saved (levels saved : list LadderLevel) i pre :
  length pre = i → length saved = length levels →
  restore_levels i (JArr (map (λ l, JInt (lv_attempts l)) (pre ++ saved)))
                   (JArr (map (λ l, JFloat (lv_last_attempt l)) (pre ++ saved))) levels =
  (Ok tt, zip_with (λ s l, set_last_attempt (lv_last_attempt s) (set_attempts (lv_attempts s) l))
            saved levels).
Proof.
  revert i pre saved. induction levels as [|lv levels IH]; intros i pre [|s saved] Hi Hlen; try done.
  simpl. unfold restore, mbind, res_bind. simpl. rewrite !length_map, length_app. simpl.
  rewrite (proj2 (Z.ltb_lt _ _)) by lia. simpl.
  rewrite !list_lookup_fmap, lookup_app_r, Hi, Nat.sub_diag by lia. simpl.
  specialize (IH (S i) (pre ++ [s]) saved). rewrite <- !app_assoc in IH. simpl in IH.
  rewrite length_app in IH. simpl in IH, Hlen. rewrite IH by lia. done.
Qed.

(** Loading what was saved gives the runtime state back, on any ladder of the same
    configuration. *)
Lemma parse_saved_state level saved total ts levels :
  map lv_config levels = map lv_config saved → (level ≤ length saved)%nat →
  parse_ladder_state (Text (TxDoc (ladder_doc (Z.of_nat level) saved total ts))) levels
  = (Ok (level, total), saved).
Proof.
  intros Hcfg Hle. assert (length saved = length levels) as Hlen.
  { apply (f_equal length) in Hcfg. by rewrite !length_map in Hcfg. }
  unfold parse_ladder_state, mbind, res_bind. simpl.
  pose proof (restore_levels_saved levels saved 0 [] eq_refl Hlen) as Hr. simpl in Hr.
  rewrite Hr.
  f_equal; [do 2 f_equal; lia|].
  clear Hle Hlen Hr. revert levels Hcfg. induction saved as [|s saved IH]; intros [|l levels] [=]; [done|].
  simpl. f_equal; [|by apply IH]. destruct s, l; unfold lv_config in *; simpl in *. by simplify_eq.
Qed.

Lemma restore_levels_length i a l levels : length (restore_levels i a l levels).2 = length levels.
Proof.
  revert i. induction levels as [|lv levels IH]; intros i; simpl; [done|].
  destruct (restore a i to_int set_attempts lv); [|done].
  destruct (restore l i to_float set_last_attempt _); [|done].
  specialize (IH (S i)). destruct (restore_levels _ _ _ _). simpl in *. by rewrite IH.
Qed.

Lemma restore_config {A} saved i (conv : json → res A) assign lv lv' :
  (∀ v l, lv_config (assign v l) = lv_config l) →
  restore saved i conv assign lv = Ok lv' → lv_config lv' = lv_config lv.
Proof.
  intros Ha. unfold restore, mbind, res_bind. destruct (py_len saved); [|done].
  destruct (_ <? _); [|by intros [= <-]].
  destruct (py_index _ _); [|done]. destruct (conv _); [|done]. intros [= <-]. apply Ha.
Qed.

Lemma restore_levels_config i a l levels :
  map lv_config (restore_levels i a l levels).2 = map lv_config levels.
Proof.
  revert i. induction levels as [|lv levels IH]; intros i; simpl; [done|].
  destruct (restore a i to_int set_attempts lv) as [lv1|] eqn:H1; [|done].
  apply restore_config in H1; [|done].
  destruct (restore l i to_float set_last_attempt lv1) as [lv2|] eqn:H2.
  - apply restore_config in H2; [|done].
    specialize (IH (S i)). destruct (restore_levels _ _ _ _). simpl in *. by rewrite IH, H2, H1.
  - simpl. by rewrite H1.
Qed.

Lemma parse_ladder_state_wf c levels :
  map lv_config (parse_ladder_state c levels).2 = map lv_config levels ∧
  (∀ n t, (parse_ladder_state c levels).1 = Ok (n, t) → (n ≤ length levels)%nat).
Proof.
  unfold parse_ladder_state. destruct (read_text c ≫= _) as [[[[lvl tot] a] l]|e]; [|done].
  pose proof (restore_levels_config 0 a l levels) as Hc.
  destruct (restore_levels 0 a l levels) as [[u|e] levels']; simpl in *; split; try done.
  intros n t [= <- <-]. lia.
Qed.

Definition ladder_file_frame (w w' : World) : Prop :=
  w_mode w' = w_mode w ∧ w_quiesce w' = w_quiesce w ∧ w_ladder w' = w_ladder w ∧
  w_process_start w' = w_process_start w ∧ w_reboots w' = w_reboots w ∧
  w_marker_file w' = w_marker_file w ∧ w_profile_file w' = w_profile_file w ∧
  w_history_file w' = w_history_file w ∧ w_watch w' = w_watch w ∧
  w_enforcer_registered w' = w_enforcer_registered w.

#[export] Instance ladder_file_frame_coarse : Coarse ladder_file_frame.
Proof.
  split.
  - split; [by intros w|]. unfold ladder_file_frame.
    intros w1 w2 w3 H1 H2. destruct_and!. split_and!; congruence.
  - unfold observable_only, ladder_file_frame. intros w w' H. destruct_and!. by split_and!.
Qed.

Lemma pres_save (R : World → World → Prop) `{!Coarse R} level levels total :
  (∀ f w, R w (set_ladder_file f w)) → preserves R (save_ladder_state level levels total).
Proof. intros Hf. unfold save_ladder_state, suppress_oserror. pres. by apply pres_on_file. Qed.

Lemma cmds_save level levels total :
  preserves (keeps w_commands) (save_ladder_state level levels total).
Proof.
  unfold save_ladder_state, suppress_oserror. pres. apply cmds_on_file. by intros f [].
Qed.

(** Saving never raises; without a fault the file holds the state. *)
Lemma save_ladder_state_eq level levels total w :
  ∃ w', save_ladder_state level levels total w = (Ok tt, w') ∧
    ladder_file_frame w w' ∧ w_commands w' = w_commands w ∧
    w_tick w' = S (S (w_tick w)) ∧
    (sys_fault (S (w_tick w)) = None →
     f_content (w_ladder_file w') = Text (TxDoc (ladder_doc level levels total (wall (w_tick w))))).
Proof.
  unfold save_ladder_state, suppress_oserror, try_except, time_time, on_file, zoom, mbind, M_bind.
  destruct w; simpl. rewrite system_write_refines. unfold write_spec. simpl.
  destruct (write_faults _ _) eqn:Hw; simpl; eexists; (split; [reflexivity|]); split_and!; try done.
  intros Hf. unfold write_faults in Hw. simpl in Hw. by rewrite Hf in Hw.
Qed.
End state_laws.

(** ** The counter when the file system works *)
Definition count_ok (c : count_file) : Prop :=
  match c with
  | CfAbsent => True
  | CfText s => (String.length s ≤ 64)%nat
  | _ => False
  end.

Lemma substring_all s n : (String.length s ≤ n)%nat → String.substring 0 n s = s.
Proof.
  revert n. induction s as [|c s IH]; intros [|n] Hn; simpl in *; try done; [lia|].
  rewrite IH; [done|lia].
Qed.

Section no_faults.
Context {E : Env} (Hf : ∀ n, sys_fault n = None).

Lemma os_call_ok s w : os_call s w = (Ok tt, set_tick (S (w_tick w)) w).
Proof. unfold os_call, mbind, M_bind. simpl. by rewrite decide_False by (rewrite Hf; done). Qed.

Lemma increment_eq w :
  count_ok (w_reboots w) →
  ∃ w', atomic_increment_reboot_count w = (Ok (count_value (w_reboots w) + 1), w') ∧
        w_reboots w' = CfText (count_text (count_value (w_reboots w) + 1)) ∧
        w_commands w' = w_commands w ∧ reboots_frame w w'.
Proof.
  intros Hok. unfold atomic_increment_reboot_count, open_count, rewrite_count, try_except.
  unfold mbind, M_bind. rewrite !os_call_ok. destruct w. simpl in *.
  destruct w_reboots as [| | |s]; try done;
    repeat (rewrite os_call_ok || simpl); rewrite ?substring_all by done; (eexists; split; [reflexivity|by split_and!]).
Qed.

Lemma write_count_eq n w :
  w_reboots w ≠ CfUnreadable →
  ∃ w', write_reboot_count n w = (Ok tt, w') ∧ w_reboots w' = CfText (count_text n) ∧
        w_commands w' = w_commands w ∧ reboots_frame w w'.
Proof.
  intros Hok. unfold write_reboot_count, suppress_oserror, open_count, rewrite_count, try_except.
  unfold mbind, M_bind. rewrite !os_call_ok. destruct w. simpl in *.
  destruct w_reboots as [| | |s]; try done;
    repeat (rewrite os_call_ok || simpl); (eexists; split; [reflexivity|by split_and!]).
Qed.
End no_faults.

Lemma current_count_catchable c e : current_count c = Raise e → catchable (ex_kind e).
Proof. by destruct c; intros [= <-]. Qed.
#[export] Hint Resolve current_count_catchable : pres.

(** What a load returns when it returns: the state of the file, or level 0 with the
    levels as far as they were assigned. *)
Definition loaded (c : content) (levels : list LadderLevel)
    : option (list LadderLevel * (nat * Z)) :=
  let '(r, levels') := parse_ladder_state c levels in
  match r with
  | Ok p => Some (levels', p)
  | Raise e => if instance_of (ex_kind e) CFileNotFound || corrupt_state (ex_kind e)
               then Some (levels', (0%nat, 0)) else None
  end.

Lemma os_call_unless {E : Env} s w :
  sys_fault (w_tick w) ≠ Some s → os_call s w = (Ok tt, set_tick (S (w_tick w)) w).
Proof. intros Hf. unfold os_call, mbind, M_bind. simpl. by rewrite decide_False. Qed.

Lemma load_eq {E : Env} levels w x :
  sys_fault (w_tick w) ≠ Some SysOpen →
  loaded (f_content (w_ladder_file w)) levels = Some x →
  ∃ w', load_ladder_state levels w = (Ok x, w') ∧ observable_only w w'.
Proof.
  intros Hf. unfold loaded, load_ladder_state.
  erewrite bind_ok by by apply os_call_unless. erewrite bind_ok by reflexivity.
  set (w1 := set_tick _ w). assert (Hw1 : observable_only w w1) by (by destruct w).
  assert (w_ladder_file w1 = w_ladder_file w) as -> by (by destruct w).
  destruct (parse_ladder_state _ levels) as [[p|e] ls]; cbv beta iota.
  { intros Hx. simplify_eq. by exists w1. }
  destruct (instance_of (ex_kind e) CFileNotFound); cbn [orb].
  { intros Hx. simplify_eq. by exists w1. }
  destruct (corrupt_state (ex_kind e)); [|done]. intros [= <-].
  pose proof (pres_emit observable_only SYSTEM WARN "ladder_state_corrupt" NONE
      ("ladder state lost (" ++ ex_msg e ++ "), reset to level 0") [] w1) as Ho.
  pose proof (emit_total SYSTEM WARN "ladder_state_corrupt" NONE
      ("ladder state lost (" ++ ex_msg e ++ "), reset to level 0") [] w1) as Ht.
  unfold mbind, M_bind, emit_corruption. destruct (emit _ _ _ _ _ _ w1) as [[u|e'] w2]; [|done].
  exists w2. split; [done|]. by etrans.
Qed.
