(* ===== verification/JanusSummary.v ===== *)
(** * The Janus probe ([app/services/janus.py], [janus_summary])

    The HTTP exchange that obtains a mountpoint's info from the Janus gateway is the
    environment's [janus_info]; this file models what the control plane makes of it.
    The probe catches every exception, so it always returns a summary. *)
From S2P Require Import Prelude.
From S2P Require Import PyVal.
From S2P Require Import FileStore.
From S2P Require Import FdirEvents.
From S2P Require Import LadderPolicy.
From S2P Require Import World.

(** The summary without a mountpoint, and its status. *)
Definition empty_summary (status : string) : json :=
  JObj [("mountpoint_id", JNull); ("enabled", JNull); ("video_active", JBool false);
        ("video_age_ms", JNull); ("codec", JNull); ("pt", JNull); ("fmtp", JNull);
        ("status", JStr status)]%string.

(** The summary of a reply of [streaming_info]. *)
Definition summarise (raw : json) : res json :=
  if is_object raw then
    data ← jget raw "data" JNull;
    if is_object data then
      mount ← jget data "info" (JObj []);
      let mount := if is_object mount then mount else JObj [] in
      media_list ← jget mount "media" JNull;
      let media := match media_list with JArr (m :: _) => m | _ => JObj [] end in
      mid ← jget mount "id" JNull;
      enabled ← jget mount "enabled" JNull;
      age ← jget media "age_ms" JNull;
      codec ← jget media "codec" JNull;
      pt ← jget media "pt" JNull;
      fmtp ← jget media "fmtp" JNull;
      Ok (JObj [("mountpoint_id", mid); ("enabled", enabled);
                ("video_active", JBool (negb (is_null age))); ("video_age_ms", age);
                ("codec", codec); ("pt", pt); ("fmtp", fmtp); ("status", JStr "ok")]%string)
    else Ok (empty_summary "parse_error")
  else Ok (empty_summary "parse_error").

Definition failure_status (k : exn_kind) : string :=
  match k with
  | EHttpTimeout => "janus_timeout"
  | EHttpConnect => "janus_unreachable"
  | EJanus => "janus_error"
  | _ => "internal_error"
  end.

Section probe.
Context {E : Env}.

Definition janus_summary (mount_id : Z) : M World json :=
  n ← tick;
  let target := if mount_id =? 0 then cfg_janus_mount_id cfg else mount_id in
  match (raw ← janus_info n target; summarise raw) with
  | Ok s => mret s
  | Raise e => mret (empty_summary (failure_status (ex_kind e)))
  end.

(** [summary.get("video_age_ms")] *)
Definition video_age_ms (summary : json) : json :=
  match jget summary "video_age_ms" JNull with Ok age => age | Raise _ => JNull end.

(** [age is not None and isinstance(age, (int, float)) and age <= stale_ms] *)
Definition age_fresh (stale_ms : Z) (age : json) : bool :=
  match age with
  | JInt z => z <=? stale_ms
  | JFloat q => Qle_bool q (inject_Z stale_ms)
  | JBool b => (if b then 1 else 0) <=? stale_ms
  | _ => false
  end.

Lemma janus_summary_total id : total (janus_summary id).
Proof.
  intros w. unfold janus_summary, mbind, M_bind. simpl.
  by destruct (res_bind _ _ _ _).
Qed.

Lemma pres_janus_summary (R : World → World → Prop) `{!Coarse R} id :
  preserves R (janus_summary id).
Proof. unfold janus_summary. pres. Qed.

Lemma cmds_janus_summary id : preserves (keeps w_commands) (janus_summary id).
Proof. unfold janus_summary. pres. Qed.
End probe.
#[export] Hint Extern 1 (preserves _ (janus_summary _)) =>
  (apply pres_janus_summary; apply _) : pres.
#[export] Hint Resolve cmds_janus_summary : pres.
