(* ===== verification/Executor.v ===== *)
(** * Recovery action executors ([app/services/recovery_executor.py])

    One handler per recovery action, and the dispatcher that turns every failure of a
    handler into an event and a [False]. *)
From S2P Require Import Prelude.
From S2P Require Import PyVal.
From S2P Require Import FileStore.
From S2P Require Import FdirEvents.
From S2P Require Import LadderPolicy.
From S2P Require Import World.
From S2P Require Import SystemMode.
From S2P Require Import ModeEnforcer.
From S2P Require Import Quiesce.
From S2P Require Import Persistence.
From S2P Require Import JanusSummary.

Definition QUIESCE_SETTLE_SEC : Q := 15.

Definition janus_restart_cmd : list string := ["sudo"; "/usr/local/bin/janus-admin"; "restart"]%string.
Definition usb_reset_cmd : list string := ["sudo"; "/usr/local/bin/camera-admin"; "reset-usb"]%string.
Definition reboot_cmd : list string :=
  ["sudo"; "-n"; "/usr/local/bin/service-admin"; "reboot"]%string.

Section ops.
Context {E : Env} `{!ModeListener}.

Definition retry_handle : M World string :=
  summary ← janus_summary (cfg_janus_mount_id cfg);
  let age := video_age_ms summary in
  let data_plane_ok := age_fresh (cfg_watchdog_stale_ms cfg) age in
  pipeline_active ← is_service_active;
  if data_plane_ok then
    mret ("handle_retry: janus_ok, data_plane_ok, pipeline_active="
            ++ fmt (JBool pipeline_active))%string
  else raise (Exn ERuntime ("handle_retry: data_plane_stale (age=" ++ fmt age ++ "), escalating")).

Definition restart_pipeline_action : M World string :=
  quiesced (45 + QUIESCE_SETTLE_SEC) "recovery: restart_pipeline" [PIPELINE; SENSOR]
    (run_cmd (encoder_admin "restart") ;; mret tt) ;;
  mret "restarted encoder via encoder-admin"%string.

Definition restart_janus : M World string :=
  quiesced (15 + 60 + QUIESCE_SETTLE_SEC) "recovery: restart_janus" [PIPELINE; SENSOR; JANUS]
    (run_cmd (encoder_admin "stop") ;;
     run_cmd janus_restart_cmd ;; mret tt) ;;
  mret "restarted janus via janus-admin (ordered: encoder stopped first)"%string.

Definition usb_reset : M World string :=
  run_cmd usb_reset_cmd ;;
  mret "usb_reset via camera-admin"%string.

Definition marker_doc (ts : Q) (signal : string) : content :=
  Text (TxDoc (JObj [("ts", JFloat ts); ("signal", JStr signal)]%string)).

(** [None] is the sentinel [_REBOOT_HANDLED_INTERNALLY]. *)
Definition reboot_node (level : LadderLevel) (signal : string) (domain : Domain)
    : M World (option string) :=
  if negb (cfg_watchdog_reboot_enabled cfg) then
    transition SAFE "reboot_disabled_by_config" ;;
    emit domain CRITICAL signal (lv_action level) "reboot skipped (disabled) → SAFE mode" [] ;;
    mret None
  else
    reboots ← read_reboot_count;
    if cfg_max_fdir_reboots cfg <=? reboots then
      transition SAFE ("reboot_circuit_breaker:" ++ pretty reboots)%string ;;
      emit domain CRITICAL signal (lv_action level)
        ("reboot blocked (circuit breaker: " ++ pretty reboots ++ " reboots) → SAFE mode") [] ;;
      mret None
    else
      atomic_increment_reboot_count ;;
      suppress_oserror
        (ts ← time_time;
         on_file w_marker_file set_marker_file (system_write_text (marker_doc ts signal))) ;;
      emit domain CRITICAL signal (lv_action level)
        ("initiating node reboot (count=" ++ pretty (reboots + 1) ++ ")") [] ;;
      try_except (run_cmd reboot_cmd ;; mret tt) CRuntimeError
        (fun e => write_reboot_count reboots ;; raise e) ;;
      mret (Some "reboot initiated"%string).

Definition run_action (level : LadderLevel) (signal : string) (domain : Domain)
    : M World (option string) :=
  let some (m : M World string) : M World (option string) := o ← m; mret (Some o) in
  match lv_action level with
  | RETRY_HANDLE => some retry_handle
  | RESTART_PIPELINE => some restart_pipeline_action
  | RESTART_JANUS => some restart_janus
  | USB_RESET => some usb_reset
  | REBOOT_NODE => reboot_node level signal domain
  | a => mret (Some ("unknown action: " ++ action_value a)%string)
  end.

Definition attempt_details (level : LadderLevel) : dict json :=
  [("attempt", JInt (lv_attempts level)); ("level", JStr (lv_name level))]%string.

(** [_observe_metric] reads the clock; the histogram is not modelled. *)
Definition observe_metric : M World unit := _ ← monotonic; mret tt.

Definition execute (level : LadderLevel) (signal : string) (domain : Domain) : M World bool :=
  _ ← monotonic;
  try_except
    (handled ← run_action level signal domain;
     match handled with
     | None => observe_metric ;; mret true
     | Some outcome =>
         emit domain WARN signal (lv_action level) outcome (attempt_details level) ;;
         observe_metric ;; mret true
     end)
    CException
    (fun e =>
       emit domain ERROR signal (lv_action level) ("FAILED: " ++ ex_msg e) (attempt_details level) ;;
       observe_metric ;; mret false).
End ops.

(** ** Frames: an action never touches the ladder *)
Definition ladder_frame (w w' : World) : Prop :=
  w_ladder w' = w_ladder w ∧ w_process_start w' = w_process_start w ∧
  w_ladder_file w' = w_ladder_file w ∧ w_watch w' = w_watch w.

#[export] Instance ladder_frame_coarse : Coarse ladder_frame.
Proof.
  split.
  - split; [by intros w|]. unfold ladder_frame.
    intros w1 w2 w3 H1 H2. destruct_and!. split_and!; congruence.
  - unfold observable_only, ladder_frame. intros w w' H. destruct_and!. by split_and!.
Qed.
#[export] Instance ladder_frame_mode : ModeCoarse ladder_frame.
Proof.
  split; [apply _|]. unfold mode_frame, ladder_frame. intros w w' H. destruct_and!. by split_and!.
Qed.

Section frames.
Context {E : Env} `{!ModeListener}.

Lemma pres_run_action l s d : preserves ladder_frame (run_action l s d).
Proof.
  unfold run_action, retry_handle, restart_pipeline_action, restart_janus, usb_reset,
    reboot_node, suppress_oserror.
  pres; first
    [ apply pres_is_service_active; apply _
    | apply pres_quiesced; [apply _|by intros ? []|]; pres
    | apply pres_increment; [apply _|by intros ? []]
    | apply pres_write_reboot_count; [apply _|by intros ? []]
    | apply pres_on_file; [apply _|by intros ? []] ].
Qed.

Lemma pres_execute l s d : preserves ladder_frame (execute l s d).
Proof. unfold execute, observe_metric. pres. apply pres_run_action. Qed.

(** The dispatcher swallows every exception of the program. *)
Lemma ro_execute l s d : raises_only uncatchable (execute l s d).
Proof.
  apply ro_bind; [by intros w e|intros _].
  apply ro_catch_all. intros e.
  apply ro_bind; [apply ro_total, emit_total|intros _].
  apply ro_bind; [by intros w e'|intros _]. apply ro_ret.
Qed.
End frames.

(** ** The ordered Janus restart *)
Section restart_janus.
Context {E : Env} `{!ModeListener}.

Definition cli_ok (r : cli_result) : bool :=
  match r with CliDone rc _ _ => rc =? 0 | _ => false end.

Lemma run_cmd_ok argv w : is_ok (run_cmd argv w).1 = cli_ok (cli (w_tick w) argv).
Proof.
  rewrite run_cmd_eq. destruct (cli _ _) as [rc out err| | |]; [|done..].
  simpl. by destruct (rc =? 0).
Qed.

Lemma ran_commands argv w : w_commands (ran argv w) = w_commands w ++ [observe argv w].
Proof. by destruct w. Qed.
Lemma ran_quiesce argv w : w_quiesce (ran argv w) = w_quiesce w.
Proof. by destruct w. Qed.

Lemma finally_unquiesce {A} (m : M World A) w :
  finally m unquiesce w =
    let '(r, w') := m w in (r, set_quiesce (disarm (w_quiesce w')) w').
Proof. unfold finally, unquiesce. by destruct (m w). Qed.

(** C7. The planned Janus restart is ordered and quiesced: from a closed gate, the
    encoder is stopped first and Janus is restarted only if that succeeded; both
    commands find the gate armed for the PIPELINE, SENSOR and JANUS domains until
    90 s after the arm; and whatever the commands do (non-zero exit, timeout,
    missing binary) the gate is closed again afterwards. *)
Theorem restart_janus_ordered w :
  w_quiesce w = no_quiesce →
  let q := mkQuiesce (mono (w_tick w) + (15 + 60 + QUIESCE_SETTLE_SEC))%Q
             [PIPELINE; SENSOR; JANUS] "recovery: restart_janus" 1 in
  let stopped := cli_ok (cli (S (w_tick w)) (encoder_admin "stop")) in
  let '(r, w') := restart_janus w in
  w_quiesce w' = no_quiesce ∧
  ∃ cs, w_commands w' = w_commands w ++ cs ∧
    map cm_argv cs = encoder_admin "stop" :: (if stopped then [janus_restart_cmd] else []) ∧
    Forall (λ c, cm_quiesce c = q) cs ∧
    is_ok r = stopped && cli_ok (cli (S (S (w_tick w))) janus_restart_cmd).
Proof.
  intros Hq. cbn zeta. unfold restart_janus.
  set (body := (run_cmd (encoder_admin "stop") ;; run_cmd janus_restart_cmd ;; mret tt)).
  unfold mbind at 1, M_bind at 1. rewrite quiesced_eq by (done || lra).
  rewrite finally_unquiesce.
  set (w1 := armed_world _ _ _ _).
  assert (Hw1 : w_tick w1 = S (w_tick w) ∧ w_commands w1 = w_commands w ∧ w_quiesce w1 =
    mkQuiesce (mono (w_tick w) + (15 + 60 + QUIESCE_SETTLE_SEC))%Q
             [PIPELINE; SENSOR; JANUS] "recovery: restart_janus" 1) by (by destruct w).
  destruct Hw1 as (Ht & Hc & Hqq).
  assert (Hdis : ∀ w2, w_quiesce w2 = w_quiesce w1 →
    w_quiesce (set_quiesce (disarm (w_quiesce w2)) w2) = no_quiesce ∧
    w_commands (set_quiesce (disarm (w_quiesce w2)) w2) = w_commands w2).
  { intros w2 Hw2. rewrite Hw2, Hqq. by destruct w2. }
  subst body. unfold mbind at 1, M_bind at 1. rewrite run_cmd_eq, Ht.
  destruct (cli (S (w_tick w)) (encoder_admin "stop")) as [rc out err| | |] eqn:Hcli;
    [destruct (rc =? 0) eqn:Hrc|..]; simpl.
  1: {
    unfold mbind, M_bind. rewrite run_cmd_eq, ran_tick, Ht.
    destruct (Hdis (ran janus_restart_cmd (ran (encoder_admin "stop") w1))) as [Hd1 Hd2];
      [by rewrite !ran_quiesce|].
    destruct (cli (S (S (w_tick w))) janus_restart_cmd) as [rc' out' err'| | |] eqn:Hcli';
      [destruct (rc' =? 0) eqn:Hrc'|..]; simpl; rewrite Hd1, Hd2, !ran_commands, Hc, Hrc, ?Hrc';
      (split; [done|]); eexists; rewrite <- app_assoc; split_and!; try done;
      repeat constructor; simpl; by rewrite ?ran_quiesce, Hqq. }
  all: destruct (Hdis (ran (encoder_admin "stop") w1)) as [Hd1 Hd2]; [by rewrite ran_quiesce|];
    rewrite Hd1, Hd2, ran_commands, Hc, ?Hrc; split; [done|]; eexists; split_and!; try done;
    repeat constructor; simpl; by rewrite Hqq.
Qed.
End restart_janus.

(** ** The bounded reboot *)
Section reboot.
Context {E : Env} `{!ModeListener}.

(** The reboot command exited with an error, which is the only outcome after which
    the program is sure that the machine does not reboot. *)
Definition reboot_failed (r : cli_result) : bool :=
  match r with CliDone rc _ _ => negb (rc =? 0) | _ => false end.

Definition reboot_blocked (n : Z) : bool :=
  negb (cfg_watchdog_reboot_enabled cfg) || (cfg_max_fdir_reboots cfg <=? n).

(** A blocked reboot: SAFE mode, no reboot command, the counter untouched. *)
Lemma blocked_spec level signal domain reason outcome (w : World) :
  let '(r, w') := (transition SAFE reason ;;
                   emit domain CRITICAL signal (lv_action level) outcome [] ;;
                   mret (None (A:=string))) w in
  (∀ x, r ≠ Ok (Some x)) ∧ ms_current (w_mode w') = SAFE ∧ w_reboots w' = w_reboots w ∧
  runs_only (λ c, cm_argv c ≠ reboot_cmd) w w'.
Proof.
  unfold mbind at 1, M_bind at 1.
  pose proof (transition_effect SAFE reason w) as Ht.
  destruct (transition SAFE reason w) as [[b|e] w1]; destruct Ht as (Hm & Hf & Hc & _).
  - unfold mbind, M_bind.
    pose proof (pres_emit observable_only domain CRITICAL signal (lv_action level) outcome [] w1) as H2.
    pose proof (cmds_emit domain CRITICAL signal (lv_action level) outcome [] w1) as H3.
    pose proof (emit_total domain CRITICAL signal (lv_action level) outcome [] w1) as H4.
    destruct (emit _ _ _ _ _ _ w1) as [[u|e] w2]; [|done]. unfold keeps in *. simpl in *.
    destruct H2 as (H2m & _ & _ & _ & H2r & _).
    split_and!; [done|by rewrite H2m| |].
    + rewrite H2r. apply Hf.
    + destruct Hc as (cs & Hcs & HP). exists cs. rewrite H3. split; [done|].
      eapply Forall_impl; [done|]. by intros c [v ->].
  - split_and!; [done|done|apply Hf|].
    destruct Hc as (cs & Hcs & HP). exists cs. split; [done|].
    eapply Forall_impl; [done|]. by intros c [v ->].
Qed.

Lemma reads_count w :
  (∀ n, sys_fault n = None) → count_ok (w_reboots w) →
  read_reboot_count w = (Ok (count_value (w_reboots w)), set_tick (S (w_tick w)) w).
Proof.
  intros Hf Hok. apply read_reboot_count_eq; [by rewrite Hf|]. by destruct (w_reboots w).
Qed.

Definition write_marker (signal : string) : M World unit :=
  suppress_oserror
    (ts ← time_time;
     on_file w_marker_file set_marker_file (system_write_text (marker_doc ts signal))).

(** Everything between the increment and the command leaves the counter alone. *)
Lemma announce_spec level signal domain outcome w :
  ∃ w', (write_marker signal ;; emit domain CRITICAL signal (lv_action level) outcome []) w
        = (Ok tt, w') ∧ w_reboots w' = w_reboots w ∧ w_commands w' = w_commands w.
Proof.
  assert (Hm : ∃ w1, write_marker signal w = (Ok tt, w1) ∧ w_reboots w1 = w_reboots w ∧
                     w_commands w1 = w_commands w).
  { unfold write_marker, suppress_oserror, try_except, time_time, on_file, zoom, mbind, M_bind.
    destruct w. simpl. rewrite system_write_refines. unfold write_spec. simpl.
    destruct (write_faults _ _); simpl; eexists; by split_and!. }
  destruct Hm as (w1 & Hm & Hr & Hc). erewrite bind_ok by exact Hm.
  pose proof (pres_emit observable_only domain CRITICAL signal (lv_action level) outcome [] w1) as H2.
  pose proof (cmds_emit domain CRITICAL signal (lv_action level) outcome [] w1) as H3.
  pose proof (emit_total domain CRITICAL signal (lv_action level) outcome [] w1) as H4.
  destruct (emit _ _ _ _ _ _ w1) as [[[]|e] w2]; [|done]. unfold keeps in *. simpl in *.
  destruct H2 as (_ & _ & _ & _ & H2r & _). exists w2. split_and!; congruence.
Qed.

Lemma announce_then {A} (m1 m2 : M World unit) (k : M World A) w w' :
  (m1 ;; m2) w = (Ok tt, w') → (m1 ;; m2 ;; k) w = k w'.
Proof.
  unfold mbind, M_bind. destruct (m1 w) as [[[]|e] w1]; [|done].
  destruct (m2 w1) as [[[]|e] w2]; by intros [= ->].
Qed.

Definition run_reboot (reboots : Z) : M World (option string) :=
  try_except (run_cmd reboot_cmd ;; mret tt) CRuntimeError
    (fun e => write_reboot_count reboots ;; raise e) ;;
  mret (Some "reboot initiated"%string).

Lemma run_reboot_spec n w :
  let res := cli (w_tick w) reboot_cmd in
  ∃ r w', run_reboot n w = (r, w') ∧ is_ok r = cli_ok res ∧
    w_commands w' = w_commands w ++ [observe reboot_cmd w] ∧
    w_reboots w' = if reboot_failed res
                   then w_reboots (write_reboot_count n (ran reboot_cmd w)).2 else w_reboots w.
Proof.
  assert (Hran : w_reboots (ran reboot_cmd w) = w_reboots w) by (by destruct w).
  unfold run_reboot, try_except, mbind, M_bind. rewrite run_cmd_eq.
  destruct (cli (w_tick w) reboot_cmd) as [rc out err| | |]; [destruct (rc =? 0) eqn:Hrc|..];
    cbn -[write_reboot_count ran]; rewrite ?Hrc; cbn -[write_reboot_count ran].
  2: { pose proof (write_reboot_count_total n (ran reboot_cmd w)) as Ht.
       pose proof (cmds_write_reboot_count n (ran reboot_cmd w)) as Hc. unfold keeps in Hc.
       destruct (write_reboot_count n _) as [[u|e] w']; [|done]. eexists _, _.
       split_and!; [done|done|simpl in Hc; by rewrite Hc, ran_commands|done]. }
  all: eexists _, _; split_and!; [done|done|by rewrite ran_commands|done].
Qed.

(** C6. The reboot circuit breaker. On a working file system (no system call fails), with a
    counter that reads as a number or is absent: a disabled or exhausted
    reboot enters SAFE mode, runs no reboot command and leaves the counter alone;
    otherwise exactly one command is run, it finds the counter already incremented
    on disk, and the counter is rolled back exactly when the command exits with an
    error (after a timeout the attempt stays counted). *)
Theorem reboot_circuit_breaker level signal domain w :
  (∀ n, sys_fault n = None) → count_ok (w_reboots w) →
  let n := count_value (w_reboots w) in
  let '(r, w') := reboot_node level signal domain w in
  if reboot_blocked n then
    (∀ x, r ≠ Ok (Some x)) ∧ ms_current (w_mode w') = SAFE ∧ w_reboots w' = w_reboots w ∧
    ∃ cs, w_commands w' = w_commands w ++ cs ∧ Forall (λ c, cm_argv c ≠ reboot_cmd) cs
  else
    ∃ c k, w_commands w' = w_commands w ++ [c] ∧ cm_argv c = reboot_cmd ∧
      cm_reboots c = CfText (count_text (n + 1)) ∧
      w_reboots w' =
        CfText (count_text (if reboot_failed (cli k reboot_cmd) then n else n + 1)) ∧
      is_ok r = cli_ok (cli k reboot_cmd).
Proof.
  intros Hf Hok. cbn zeta. unfold reboot_node, reboot_blocked.
  destruct (cfg_watchdog_reboot_enabled cfg); simpl.
  2: { pose proof (blocked_spec level signal domain "reboot_disabled_by_config"
         "reboot skipped (disabled) → SAFE mode" w) as Hb.
       match goal with |- let '(_, _) := ?x in _ => destruct x as [r w'] end. exact Hb. }
  erewrite bind_ok by by apply reads_count.
  destruct (cfg_max_fdir_reboots cfg <=? count_value (w_reboots w)).
  { match goal with |- let '(_, _) := ((transition SAFE ?reason ≫= _) ?w0) in _ =>
      pose proof (blocked_spec level signal domain reason
        ("reboot blocked (circuit breaker: " ++ pretty (count_value (w_reboots w))
           ++ " reboots) → SAFE mode") w0) as Hb end.
    match goal with |- let '(_, _) := ?x in _ => destruct x as [r w'] end.
    by destruct w. }
  set (w0 := set_tick _ w).
  assert (Hw0 : w_reboots w0 = w_reboots w ∧ w_commands w0 = w_commands w) by (by destruct w).
  destruct Hw0 as [Hr0 Hc0].
  destruct (increment_eq Hf w0) as (w1 & Hi & Hr1 & Hc1 & _); [by rewrite Hr0|].
  erewrite bind_ok by exact Hi.
  destruct (announce_spec level signal domain
    ("initiating node reboot (count=" ++ pretty (count_value (w_reboots w) + 1) ++ ")") w1)
    as (w2 & Ha & Hr2 & Hc2).
  fold (write_marker signal) (run_reboot (count_value (w_reboots w))).
  erewrite announce_then by exact Ha. clear Ha.
  destruct (run_reboot_spec (count_value (w_reboots w)) w2) as (r & w' & -> & Hr & Hc & Hrb).
  exists (observe reboot_cmd w2), (w_tick w2). split_and!; [|done| | |done].
  - by rewrite Hc, Hc2, Hc1, Hc0.
  - simpl. by rewrite Hr2, Hr1, Hr0.
  - rewrite Hrb. destruct (reboot_failed _); [|by rewrite Hr2, Hr1, Hr0].
    destruct (write_count_eq Hf (count_value (w_reboots w)) (ran reboot_cmd w2))
      as (w3 & Hw & Hr3 & _); [|by rewrite Hw].
    assert (w_reboots (ran reboot_cmd w2) = w_reboots w2) as -> by (by destruct w2).
    by rewrite Hr2, Hr1.
Qed.

Lemma write_count_masked n w :
  (∀ n, sys_fault n = Some SysOpen) → w_reboots (write_reboot_count n w).2 = w_reboots w.
Proof.
  intros Hf. unfold write_reboot_count, suppress_oserror, open_count, try_except, os_call.
  unfold mbind, M_bind. simpl. rewrite decide_False by (rewrite Hf; done). simpl.
  rewrite decide_True by apply Hf. by destruct w.
Qed.

(** Failure of the breaker's store: on a file system where the counter cannot be
    opened for writing, the failed increment is masked ([read_reboot_count() + 1] is
    returned), the reboot command still runs, and the count on disk stays what it
    was, so the circuit breaker never trips however often this repeats. *)
Theorem unwritable_counter_still_reboots level signal domain w :
  (∀ n, sys_fault n = Some SysOpen) → count_ok (w_reboots w) →
  cfg_watchdog_reboot_enabled cfg = true →
  count_value (w_reboots w) < cfg_max_fdir_reboots cfg →
  let w' := (reboot_node level signal domain w).2 in
  w_reboots w' = w_reboots w ∧
  ∃ c, w_commands w' = w_commands w ++ [c] ∧ cm_argv c = reboot_cmd ∧
       cm_reboots c = w_reboots w.
Proof.
  intros Hf Hok Hen Hlt. cbn zeta. unfold reboot_node. rewrite Hen. simpl.
  assert (Hread : ∀ w0, w_reboots w0 = w_reboots w →
    read_reboot_count w0 = (Ok (count_value (w_reboots w)), set_tick (S (w_tick w0)) w0)).
  { intros w0 H0. rewrite <- H0. apply read_reboot_count_eq; [by rewrite Hf|].
    rewrite H0. by destruct (w_reboots w). }
  erewrite bind_ok by by apply Hread. rewrite (proj2 (Z.leb_gt _ _)) by done.
  assert (Hinc : ∀ w0, w_reboots w0 = w_reboots w → ∃ n w1,
    atomic_increment_reboot_count w0 = (Ok n, w1) ∧ w_reboots w1 = w_reboots w ∧
    w_commands w1 = w_commands w0).
  { intros w0 H0. unfold atomic_increment_reboot_count, open_count, try_except, os_call.
    unfold mbind, M_bind. simpl. rewrite decide_False by (rewrite Hf; done). simpl.
    rewrite decide_True by apply Hf. simpl. rewrite Hread by (by destruct w0).
    eexists _, _. split; [reflexivity|]. by destruct w0. }
  destruct (Hinc (set_tick (S (w_tick w)) w)) as (n & w1 & Hi & Hr1 & Hc1); [by destruct w|].
  erewrite bind_ok by exact Hi.
  fold (write_marker signal) (run_reboot (count_value (w_reboots w))).
  destruct (announce_spec level signal domain
    ("initiating node reboot (count=" ++ pretty (count_value (w_reboots w) + 1) ++ ")") w1)
    as (w2 & Ha & Hr2 & Hc2).
  erewrite announce_then by exact Ha. clear Ha.
  destruct (run_reboot_spec (count_value (w_reboots w)) w2) as (r & w' & -> & _ & Hc & Hrb).
  assert (w_commands (set_tick (S (w_tick w)) w) = w_commands w) as Hc0 by (by destruct w).
  split.
  - simpl. rewrite Hrb. destruct (reboot_failed _); [|by rewrite Hr2, Hr1].
    assert (w_reboots (ran reboot_cmd w2) = w_reboots w2) as Hran by (by destruct w2).
    rewrite write_count_masked by done. by rewrite Hran, Hr2, Hr1.
  - exists (observe reboot_cmd w2). simpl. split_and!; [|done|by rewrite Hr2, Hr1].
    by rewrite Hc, Hc2, Hc1, Hc0.
Qed.
End reboot.

(** ** Witnesses *)
Lemma restart_janus_ordered_witness :
  let w' := (restart_janus (E:=live_env) sample_world).2 in
  w_quiesce w' = no_quiesce ∧
  ∃ cs, w_commands w' = w_commands sample_world ++ cs ∧
        map cm_argv cs = [encoder_admin "stop"; janus_restart_cmd].
Proof.
  pose proof (restart_janus_ordered (E:=live_env) sample_world eq_refl) as H. simpl in H.
  destruct H as (H1 & cs & H2 & H3 & _). split; [exact H1|]. exists cs. split; assumption.
Defined.

Definition sample_reboot (E : Env) : World :=
  (reboot_node (fresh_level "reboot_node" REBOOT_NODE 1 300) "fault" PIPELINE sample_world).2.

(** Reboots disabled, as by default; a reboot that is carried out; one that is refused by the
    privileged tool; one that does not answer in time. *)
Lemma reboot_circuit_breaker_witness :
  (ms_current (w_mode (sample_reboot live_env)) = SAFE ∧ w_reboots (sample_reboot live_env) = CfAbsent) ∧
  ∀ answer counted,
    (answer, counted) ∈ [(CliDone 0 TxEmpty EmptyString, 1); (CliDone 1 TxEmpty EmptyString, 0);
                         (CliTimeout, 1)] →
    let w' := sample_reboot (sample_env true no_fault (λ _ _, answer)) in
    w_reboots w' = CfText (count_text counted) ∧
    ∃ c, w_commands w' = [c] ∧ cm_argv c = reboot_cmd ∧ cm_reboots c = CfText (count_text 1).
Proof.
  split.
  - pose proof (reboot_circuit_breaker (E:=live_env) (fresh_level "reboot_node" REBOOT_NODE 1 300)
      "fault" PIPELINE sample_world (λ _, eq_refl) I) as H.
    cbv zeta in H. unfold sample_reboot. destruct (reboot_node _ _ _ _) as [r w'].
    destruct H as (_ & H1 & H2 & _). split; assumption.
  - intros answer counted Hin w'. subst w'. set (E := sample_env true no_fault (λ _ _, answer)).
    pose proof (reboot_circuit_breaker (E:=E) (fresh_level "reboot_node" REBOOT_NODE 1 300)
      "fault" PIPELINE sample_world (λ _, eq_refl) I) as H.
    cbv zeta in H. unfold sample_reboot. destruct (reboot_node _ _ _ _) as [r w'].
    destruct H as (c & k & Hc & Ha & Hr & Hw & _). simpl in Hc, Hr. simpl.
    split; [|exists c; split_and!; assumption]. rewrite Hw.
    repeat (apply elem_of_cons in Hin as [[= -> ->]|Hin]; [reflexivity|]). by apply elem_of_nil in Hin.
Defined.

(** The third reboot in a row on a read-only counter: the count is still 0. *)
Lemma unwritable_counter_still_reboots_witness :
  let E := sample_env true (λ _, Some SysOpen) cli_success in
  w_reboots (reboot_node (E:=E)
    (fresh_level "reboot_node" REBOOT_NODE 1 300) "fault" PIPELINE sample_world).2 = CfAbsent.
Proof.
  exact (proj1 (unwritable_counter_still_reboots (E:=sample_env true (λ _, Some SysOpen) cli_success)
    (fresh_level "reboot_node" REBOOT_NODE 1 300) "fault" PIPELINE sample_world
    (λ _, eq_refl) I eq_refl eq_refl)).
Defined.
