(* ===== verification/Ladder.v ===== *)
(** * The recovery ladder ([app/services/recovery_ladder.py])

    [RecoveryLadder]: construction (with the reboot circuit breaker), escalation, reset
    and status. Every method holds the ladder's lock for its whole duration, so a
    method call is one atomic step of the system. The escalation loop runs on fuel;
    [escalate] gives it one unit more than there are levels left, which suffices. *)
From S2P Require Import Prelude.
From S2P Require Import PyVal.
From S2P Require Import FileStore.
From S2P Require Import FdirEvents.
From S2P Require Import LadderPolicy.
From S2P Require Import World.
From S2P Require Import SystemMode.
From S2P Require Import ModeEnforcer.
From S2P Require Import Quiesce.
From S2P Require Import Persistence.
From S2P Require Import JanusSummary.
From S2P Require Import Executor.

(** The dictionary [escalate] returns. *)
Inductive reply :=
  | RSafeMode
  | RDedupSkip (level : string)
  | RCooldown (remaining : Q) (level : string)
  | RAction (action : RecoveryAction) (level : string) (attempt max_attempts : Z) (success : bool).

(** ** Pure updates of the ladder *)

(** [level.attempts += 1; level.last_attempt = now; total += 1; last_escalation_ts = now] *)
Definition record_attempt (i : nat) (now : Q) (l : Ladder) : Ladder :=
  mkLadder (alter (fun lv => set_last_attempt now (set_attempts (lv_attempts lv + 1) lv)) i
              (ld_levels l))
    (ld_current l) (ld_total l + 1) now.

Definition clear_level (lv : LadderLevel) : LadderLevel := set_last_attempt 0 (set_attempts 0 lv).

Definition reset_ladder (l : Ladder) : Ladder :=
  mkLadder (map clear_level (ld_levels l)) 0 (ld_total l) 0.

Section ops.
Context {E : Env} `{!ModeListener}.

Definition ladder : M World Ladder := gets w_ladder.
Definition put_ladder (l : Ladder) : M World unit := modify (set_ladder l).
Definition save_ladder : M World unit :=
  l ← ladder; save_ladder_state (Z.of_nat (ld_current l)) (ld_levels l) (ld_total l).

(** [self._levels[i]] *)
Definition level_at (i : nat) : M World LadderLevel :=
  l ← ladder; match ld_levels l !! i with Some lv => mret lv | None => throw EKey end.

(** [_escalate_to_next_locked] *)
Definition escalate_to_next (signal : string) (domain : Domain) : M World unit :=
  l ← ladder;
  old ← level_at (ld_current l);
  put_ladder (set_current (S (ld_current l)) l) ;;
  save_ladder ;;
  match ld_levels l !! S (ld_current l) with
  | Some new =>
      emit domain WARN signal NONE ("escalate: " ++ lv_name old ++ " → " ++ lv_name new) [] ;;
      degrade ("fdir_escalate:" ++ lv_name new)
  | None => mret tt
  end.

(** The branch [decision.kind == "execute"] *)
Definition execute_level (i : nat) (now : Q) (signal : string) (domain : Domain)
    : M World reply :=
  l ← ladder;
  put_ladder (record_attempt i now l) ;;
  save_ladder ;;
  level ← level_at i;
  success ← execute level signal domain;
  mret (RAction (lv_action level) (lv_name level) (lv_attempts level) (lv_max_attempts level)
          success).

(** [_escalate_locked]: one iteration of the [while True] per unit of fuel. *)
Fixpoint escalate_locked (fuel : nat) (signal : string) (domain : Domain) : M World reply :=
  match fuel with
  | O => throw EFuel
  | S fuel =>
      now ← monotonic;
      l ← ladder;
      let decision := decide_escalation (ld_current l) (ld_levels l) (ld_last_escalation l) now
                        (cfg_dedup_window_sec cfg) in
      let i := dec_level_idx decision in
      match dec_kind decision with
      | DExhausted =>
          transition SAFE signal ;;
          emit domain CRITICAL signal NONE "all recovery levels exhausted → SAFE mode" [] ;;
          mret RSafeMode
      | DSkipDedup => lv ← level_at i; mret (RDedupSkip (lv_name lv))
      | DCooldown => lv ← level_at i; mret (RCooldown (dec_cooldown_remaining decision) (lv_name lv))
      | DEscalate => escalate_to_next signal domain ;; escalate_locked fuel signal domain
      | DExecute => execute_level i now signal domain
      end
  end.

Definition levels_left (l : Ladder) : nat := length (ld_levels l) - ld_current l.

Definition escalate (signal : string) (domain : Domain) : M World reply :=
  l ← ladder; escalate_locked (S (levels_left l)) signal domain.

(** [_reset_locked] *)
Definition ladder_reset : M World unit :=
  l ← ladder;
  when (0 <? Z.of_nat (ld_current l))
    (emit SYSTEM INFO "system_nominal" NONE
       ("ladder reset from level " ++ pretty (Z.of_nat (ld_current l))) []) ;;
  put_ladder (reset_ladder l) ;;
  save_ladder ;;
  now ← monotonic;
  start ← gets w_process_start;
  when (Qle_bool (inject_Z (cfg_reboot_counter_reset_sec cfg)) (now - start))
    (write_reboot_count 0).

(** [RecoveryLadder.__init__] *)
Definition ladder_init : M World unit :=
  let levels0 := default_ladder (cfg_camera_type cfg) in
  '(levels, (current, total)) ← load_ladder_state levels0;
  put_ladder (mkLadder levels current total 0) ;;
  reboots ← read_reboot_count;
  if cfg_max_fdir_reboots cfg <=? reboots then
    put_ladder (mkLadder levels (length levels) total 0) ;;
    transition SAFE ("reboot_circuit_breaker:" ++ pretty reboots ++ "_reboots") ;;
    emit SYSTEM CRITICAL ("fdir_reboots=" ++ pretty reboots) NONE
      ("reboot circuit breaker tripped after " ++ pretty reboots ++ " reboots → SAFE mode") []
  else mret tt.

(** [status]: the current level's name, the totals and the levels. *)
Definition ladder_status : M World (Z * string * Z * Z * Z * list LadderLevel) :=
  l ← ladder;
  reboots ← read_reboot_count;
  mret (Z.of_nat (ld_current l),
        match ld_levels l !! ld_current l with Some lv => lv_name lv | None => "exhausted"%string end,
        ld_total l, reboots, cfg_max_fdir_reboots cfg, ld_levels l).
End ops.

(** ** The abstract ladder *)

(** The levels from [ld_current l] up to [n] have spent their budgets. *)
Definition spent (lv : LadderLevel) : Prop := lv_max_attempts lv ≤ lv_attempts lv.

Definition advanced (l : Ladder) (n : nat) : Prop :=
  (ld_current l ≤ n ≤ Nat.max (ld_current l) (length (ld_levels l)))%nat ∧
  ∀ i lv, (ld_current l ≤ i < n)%nat → ld_levels l !! i = Some lv → spent lv.

(** What one call of [escalate] may do: climb over spent levels, and then possibly
    record one attempt at the level reached, at a time past the deduplication window
    and the level's cooldown. *)
Inductive ladder_effect (dedup : Q) (l : Ladder) : option nat → Ladder → Prop :=
  | effect_climb n : advanced l n → ladder_effect dedup l None (set_current n l)
  | effect_attempt n lv now :
      advanced l n → ld_levels l !! n = Some lv → lv_attempts lv < lv_max_attempts lv →
      (dedup <= now - ld_last_escalation l)%Q →
      (lv_cooldown_sec lv <= now - lv_last_attempt lv)%Q →
      ladder_effect dedup l (Some n) (record_attempt n now (set_current n l)).

(** The reply tells which effect it was. *)
Definition reply_agrees (l : Ladder) (o : option nat) (r : reply) : Prop :=
  match r with
  | RAction a name k m _ =>
      ∃ n lv, o = Some n ∧ ld_levels l !! n = Some lv ∧ a = lv_action lv ∧ name = lv_name lv ∧
              k = lv_attempts lv + 1 ∧ m = lv_max_attempts lv
  | _ => o = None
  end.

#[export] Instance keeps_ladder_coarse : Coarse (keeps w_ladder).
Proof. split; [apply _|]. unfold observable_only, keeps. intros w w' H. by destruct_and!. Qed.
#[export] Instance keeps_ladder_mode : ModeCoarse (keeps w_ladder).
Proof. split; [apply _|]. unfold mode_frame, keeps. intros w w' H. by destruct_and!. Qed.

Section refinement.
Context {E : Env} `{!ModeListener}.

Lemma put_ladder_eq l w : put_ladder l w = (Ok tt, set_ladder l w).
Proof. done. Qed.

Lemma ladder_set_ladder l w : w_ladder (set_ladder l w) = l.
Proof. by destruct w. Qed.

Lemma level_at_eq i w :
  level_at i w = (match ld_levels (w_ladder w) !! i with Some lv => Ok lv | None => fail EKey end, w).
Proof. unfold level_at, mbind, M_bind. simpl. by destruct (_ !! i). Qed.

Lemma pres_execute_ladder lv s d : preserves (keeps w_ladder) (execute lv s d).
Proof. intros w. apply pres_execute. Qed.

Lemma pres_save_ladder : preserves (keeps w_ladder) save_ladder.
Proof. unfold save_ladder, ladder. pres. apply pres_save; [apply _|]. by intros f []. Qed.

Lemma save_ladder_ok w : ∃ w', save_ladder w = (Ok tt, w') ∧ w_ladder w' = w_ladder w.
Proof.
  unfold save_ladder, ladder. erewrite bind_ok by reflexivity.
  destruct (save_ladder_state_eq (Z.of_nat (ld_current (w_ladder w))) (ld_levels (w_ladder w))
    (ld_total (w_ladder w)) w) as (w' & Hs & Hf & _).
  exists w'. split; [done|]. apply Hf.
Qed.

Lemma save_ladder_frame w : ladder_file_frame w (save_ladder w).2.
Proof.
  unfold save_ladder, ladder. erewrite bind_ok by reflexivity.
  edestruct save_ladder_state_eq as (w' & -> & Hf & _). exact Hf.
Qed.

Lemma escalate_to_next_ladder sig dom w lv :
  ld_levels (w_ladder w) !! ld_current (w_ladder w) = Some lv →
  w_ladder (escalate_to_next sig dom w).2 = set_current (S (ld_current (w_ladder w))) (w_ladder w).
Proof.
  intros Hlv. unfold escalate_to_next, ladder. erewrite bind_ok by reflexivity.
  erewrite bind_ok by (rewrite level_at_eq, Hlv; done).
  erewrite bind_ok by apply put_ladder_eq.
  match goal with |- w_ladder (?m ?w0).2 = _ =>
    assert (Hk : preserves (keeps w_ladder) m) by (pres; apply pres_save_ladder);
    rewrite (Hk w0) end.
  apply ladder_set_ladder.
Qed.

Lemma execute_level_ladder i now sig dom w lv :
  ld_levels (w_ladder w) !! i = Some lv →
  let '(r, w') := execute_level i now sig dom w in
  w_ladder w' = record_attempt i now (w_ladder w) ∧
  ∀ rep, r = Ok rep → ∃ b, rep = RAction (lv_action lv) (lv_name lv) (lv_attempts lv + 1)
                                 (lv_max_attempts lv) b.
Proof.
  intros Hlv. unfold execute_level, ladder. erewrite bind_ok by reflexivity.
  erewrite bind_ok by apply put_ladder_eq.
  destruct (save_ladder_ok (set_ladder (record_attempt i now (w_ladder w)) w)) as (w1 & Hs & Hl).
  erewrite bind_ok by exact Hs. rewrite ladder_set_ladder in Hl.
  erewrite bind_ok.
  2: { rewrite level_at_eq, Hl. unfold record_attempt. simpl.
       by rewrite list_lookup_alter_eq, Hlv. }
  unfold mbind, M_bind.
  pose proof (pres_execute_ladder
    (set_last_attempt now (set_attempts (lv_attempts lv + 1) lv)) sig dom w1) as Hk.
  destruct (execute _ _ _ w1) as [[b|e] w2]; unfold keeps in Hk; simpl in *.
  - split; [congruence|]. intros rep [= <-]. by exists b.
  - split; [congruence|done].
Qed.

Lemma climb_effect dedup l n o l' :
  advanced l n → ladder_effect dedup (set_current n l) o l' → ladder_effect dedup l o l'.
Proof.
  intros Ha He.
  assert (Hadv : ∀ m, advanced (set_current n l) m → advanced l m).
  { intros m [Hm Hs]. destruct Ha as [Hn Hsp]. simpl in *. split; [lia|].
    intros i lv Hi Hlv. destruct (decide (i < n)%nat); [apply (Hsp i lv); [lia|done]|].
    apply (Hs i lv); [simpl; lia|done]. }
  inversion He as [m Hm|m lv now Hm Hlv Hlt Hd Hc]; subst.
  - change (set_current m (set_current n l)) with (set_current m l). constructor. auto.
  - change (set_current m (set_current n l)) with (set_current m l).
    eapply effect_attempt; eauto.
Qed.

Lemma advanced_refl l : advanced l (ld_current l).
Proof. split; [lia|]. intros i lv Hi. lia. Qed.

Lemma set_current_id l : set_current (ld_current l) l = l.
Proof. by destruct l. Qed.

Lemma effect_refl dedup l : ladder_effect dedup l None l.
Proof. rewrite <- (set_current_id l) at 2. constructor. apply advanced_refl. Qed.

Lemma escalate_locked_effect fuel sig dom w :
  let '(r, w') := escalate_locked fuel sig dom w in
  ∃ o, ladder_effect (cfg_dedup_window_sec cfg) (w_ladder w) o (w_ladder w') ∧
       ∀ rep, r = Ok rep → reply_agrees (w_ladder w) o rep.
Proof.
  revert w. induction fuel as [|fuel IH]; intros w; cbn [escalate_locked].
  { exists None. split; [apply effect_refl|done]. }
  erewrite bind_ok by apply monotonic_eq. unfold ladder. erewrite bind_ok by reflexivity.
  set (w1 := set_tick _ w). assert (Hw1 : w_ladder w1 = w_ladder w) by (by destruct w).
  rewrite Hw1. set (l := w_ladder w) in *.
  pose proof (decide_meets_spec (ld_current l) (ld_levels l) (ld_last_escalation l)
    (mono (w_tick w)) (cfg_dedup_window_sec cfg)) as Hd.
  set (d := decide_escalation _ _ _ _ _) in *. unfold decision_spec in Hd.
  destruct (dec_kind d).
  - match goal with |- let '(_, _) := ?m w1 in _ =>
      assert (Hk : preserves (keeps w_ladder) m) by pres; specialize (Hk w1);
      assert (Hr : ∀ rep, (m w1).1 = Ok rep → rep = RSafeMode) end.
    { intros rep. unfold mbind, M_bind. destruct (transition SAFE sig w1) as [[b|e] w2]; [|done].
      destruct (emit _ _ _ _ _ _ w2) as [[u|e] w3]; [|done]. by intros [= <-]. }
    match goal with |- let '(_, _) := ?x in _ => destruct x as [r w'] end.
    unfold keeps in Hk. simpl in *. exists None. rewrite Hk, Hw1. split; [apply effect_refl|].
    intros rep ->. by rewrite (Hr rep).
  - destruct Hd as (_ & -> & [lv Hlv]). unfold mbind, M_bind. rewrite level_at_eq, Hw1, Hlv.
    exists None. rewrite Hw1. split; [apply effect_refl|]. by intros rep [= <-].
  - destruct Hd as (lv & Hlv & -> & _). unfold mbind, M_bind. rewrite level_at_eq, Hw1, Hlv.
    exists None. rewrite Hw1. split; [apply effect_refl|]. by intros rep [= <-].
  - destruct Hd as (lv & Hlv & _ & _ & _ & Hspent).
    pose proof (escalate_to_next_ladder sig dom w1 lv) as Hn. rewrite Hw1 in Hn.
    specialize (Hn Hlv). unfold mbind, M_bind.
    assert (Ha : advanced l (S (ld_current l))).
    { apply lookup_lt_Some in Hlv as Hlt. split; [lia|].
      intros i lv' Hi Hlv'. by assert (i = ld_current l) as -> by lia; simplify_eq. }
    destruct (escalate_to_next sig dom w1) as [[u|e] w2]; simpl in Hn.
    + specialize (IH w2). rewrite Hn in IH.
      destruct (escalate_locked fuel sig dom w2) as [r w3]. destruct IH as (o & He & Hrep).
      exists o. split; [by eapply climb_effect|]. intros rep Hr. specialize (Hrep rep Hr).
      by destruct rep.
    + exists None. split; [|done]. rewrite Hn. by constructor.
  - destruct Hd as (lv & Hlv & -> & Hdd & Hcool & Hlt).
    pose proof (execute_level_ladder (ld_current l) (mono (w_tick w)) sig dom w1 lv) as He.
    rewrite Hw1 in He. specialize (He Hlv).
    destruct (execute_level _ _ _ _ w1) as [r w2]. destruct He as [Hl Hrep].
    exists (Some (ld_current l)). split.
    + rewrite Hl. rewrite <- (set_current_id l) at 4. by eapply effect_attempt; [apply advanced_refl|..].
    + intros rep Hr. destruct (Hrep rep Hr) as [b ->]. exists (ld_current l), lv. by split_and!.
Qed.
End refinement.

(** ** Termination: the loop never runs out of fuel and never raises *)
Section termination.
Context {E : Env} `{!ModeListener}.
Context (Hlive : ∀ n argv, cli n argv ≠ CliKilled).
Context (Hlisten : ∀ l p t r, raises_only catchable (run_listener l p t r)).

Lemma ro_transition t r : raises_only catchable (transition t r).
Proof. by apply ro_total, total_transition. Qed.
Lemma ro_write_count n : raises_only catchable (write_reboot_count n).
Proof. apply ro_total, write_reboot_count_total. Qed.
Lemma ro_summary id : raises_only catchable (janus_summary id).
Proof. apply ro_total, janus_summary_total. Qed.
Lemma ro_probe : raises_only catchable ModeEnforcer.is_service_active.
Proof.
  unfold ModeEnforcer.is_service_active. ro.
Qed.
Hint Resolve ro_transition ro_write_count ro_summary ro_probe : pres.

Lemma ro_run_action lv s d : raises_only catchable (run_action lv s d).
Proof.
  unfold run_action, retry_handle, restart_pipeline_action, restart_janus, usb_reset,
    reboot_node, suppress_oserror, quiesced, quiesce, unquiesce, atomic_increment_reboot_count,
    open_count, rewrite_count, read_reboot_count. ro.
Qed.

Lemma total_execute lv s d : total (execute lv s d).
Proof.
  unfold execute, observe_metric. apply total_bind; [done|intros _].
  apply total_catch_all.
  - apply ro_bind; [apply ro_run_action|intros [o|]]; ro.
  - intros e. apply total_bind; [apply emit_total|done].
Qed.

Lemma escalate_to_next_returns sig dom w lv :
  ld_levels (w_ladder w) !! ld_current (w_ladder w) = Some lv →
  is_ok (escalate_to_next sig dom w).1 = true.
Proof.
  intros Hlv. unfold escalate_to_next, ladder. erewrite bind_ok by reflexivity.
  erewrite bind_ok by (rewrite level_at_eq, Hlv; done).
  erewrite bind_ok by apply put_ladder_eq.
  edestruct save_ladder_ok as (w' & Hs & _). erewrite bind_ok by exact Hs.
  destruct (ld_levels (w_ladder w) !! S _); [|done].
  apply total_bind; [apply emit_total|intros _]. by apply total_degrade.
Qed.

Lemma escalate_locked_total fuel sig dom w :
  (levels_left (w_ladder w) < fuel)%nat → is_ok (escalate_locked fuel sig dom w).1 = true.
Proof.
  revert w. induction fuel as [|fuel IH]; intros w Hfuel; [lia|]. cbn [escalate_locked].
  erewrite bind_ok by apply monotonic_eq. unfold ladder. erewrite bind_ok by reflexivity.
  set (w1 := set_tick _ w). assert (Hw1 : w_ladder w1 = w_ladder w) by (by destruct w).
  rewrite Hw1. set (l := w_ladder w) in *.
  pose proof (decide_meets_spec (ld_current l) (ld_levels l) (ld_last_escalation l)
    (mono (w_tick w)) (cfg_dedup_window_sec cfg)) as Hd.
  set (d := decide_escalation _ _ _ _ _) in *. unfold decision_spec in Hd.
  destruct (dec_kind d).
  - apply total_bind; [by apply total_transition|intros _].
    apply total_bind; [apply emit_total|done].
  - destruct Hd as (_ & -> & [lv Hlv]). unfold mbind, M_bind. by rewrite level_at_eq, Hw1, Hlv.
  - destruct Hd as (lv & Hlv & -> & _). unfold mbind, M_bind. by rewrite level_at_eq, Hw1, Hlv.
  - destruct Hd as (lv & Hlv & _).
    assert (Hlv1 : ld_levels (w_ladder w1) !! ld_current (w_ladder w1) = Some lv) by by rewrite Hw1.
    pose proof (escalate_to_next_returns sig dom w1 lv Hlv1) as Hok.
    pose proof (escalate_to_next_ladder sig dom w1 lv Hlv1) as Hl.
    unfold mbind, M_bind. destruct (escalate_to_next sig dom w1) as [[u|e] w2]; [|done].
    apply IH. simpl in Hl. rewrite Hl, Hw1. unfold levels_left in *. simpl.
    apply lookup_lt_Some in Hlv. fold l. lia.
  - destruct Hd as (lv & Hlv & -> & _).
    unfold execute_level, ladder. erewrite bind_ok by reflexivity.
    erewrite bind_ok by apply put_ladder_eq.
    edestruct save_ladder_ok as (w2 & Hs & Hl2). erewrite bind_ok by exact Hs.
    rewrite ladder_set_ladder, Hw1 in Hl2.
    erewrite bind_ok.
    2: { rewrite level_at_eq, Hl2. unfold record_attempt. simpl.
         by rewrite list_lookup_alter_eq, Hlv. }
    apply total_bind; [apply total_execute|done].
Qed.
End termination.

(** ** Invariants of the ladder *)

(** A ladder of a given configuration whose attempts are within the budgets, whose
    levels below the current one are spent and whose levels above are untouched. *)
Record ladder_ok (cfgs : list (string * RecoveryAction * Z * Q)) (l : Ladder) : Prop := {
  lok_config : map lv_config (ld_levels l) = cfgs;
  lok_current : (ld_current l ≤ length (ld_levels l))%nat;
  lok_budget : ∀ i lv, ld_levels l !! i = Some lv → 0 ≤ lv_attempts lv ≤ lv_max_attempts lv;
  lok_below : ∀ i lv, ld_levels l !! i = Some lv → (i < ld_current l)%nat →
                      lv_attempts lv = lv_max_attempts lv;
  lok_above : ∀ i lv, ld_levels l !! i = Some lv → (ld_current l < i)%nat → lv_attempts lv = 0;
}.

Definition zsum (l : list Z) : Z := foldr Z.add 0 l.
Definition attempts_made (l : Ladder) : Z := zsum (map lv_attempts (ld_levels l)).
Definition attempts_allowed (l : Ladder) : Z := zsum (map lv_max_attempts (ld_levels l)).

Section pure.
Context (dedup : Q) (cfgs : list (string * RecoveryAction * Z * Q)).

Lemma record_attempt_lookup i j now l lv' :
  ld_levels (record_attempt i now l) !! j = Some lv' →
  (j ≠ i ∧ ld_levels l !! j = Some lv') ∨
  (j = i ∧ ∃ lv, ld_levels l !! i = Some lv ∧
           lv' = set_last_attempt now (set_attempts (lv_attempts lv + 1) lv)).
Proof.
  unfold record_attempt. simpl. destruct (decide (j = i)) as [->|Hne].
  - rewrite list_lookup_alter_eq. intros (lv & Hlv & ->)%fmap_Some. eauto 6.
  - rewrite list_lookup_alter_ne by done. eauto.
Qed.

Lemma map_alter_same {A B} (f : A → B) (g : A → A) i (l : list A) :
  (∀ x, f (g x) = f x) → map f (alter g i l) = map f l.
Proof.
  intros Hg. revert i. induction l as [|x l IH]; intros [|i]; csimpl; [done..| |].
  - by rewrite Hg.
  - by rewrite IH.
Qed.

Lemma zsum_alter i (l : list LadderLevel) now lv :
  l !! i = Some lv →
  zsum (map lv_attempts
    (alter (λ lv, set_last_attempt now (set_attempts (lv_attempts lv + 1) lv)) i l))
  = zsum (map lv_attempts l) + 1.
Proof.
  revert i. induction l as [|x l IH]; intros [|i] Hi; csimpl in *; try done; [lia|].
  rewrite (IH i) by done. lia.
Qed.

Lemma climb_ok l n : ladder_ok cfgs l → advanced l n → ladder_ok cfgs (set_current n l).
Proof.
  intros [Hc Hcur Hb Hlow Hup] [Hn Hs]. split; simpl; [done|lia|done| |].
  - intros i lv Hlv Hi. destruct (decide (i < ld_current l)%nat); [eauto|].
    specialize (Hs i lv ltac:(lia) Hlv). unfold spent in Hs. specialize (Hb i lv Hlv). lia.
  - intros i lv Hlv Hi. apply (Hup i); [done|lia].
Qed.

Lemma effect_ok l o l' : ladder_ok cfgs l → ladder_effect dedup l o l' → ladder_ok cfgs l'.
Proof.
  intros Hok He. inversion He as [n Ha|n lv now Ha Hlv Hlt _ _]; subst; [by apply climb_ok|].
  destruct (climb_ok l n Hok Ha) as [Hc Hcur Hb Hlow Hup].
  split.
  - unfold record_attempt. cbn [ld_levels]. by rewrite map_alter_same.
  - unfold record_attempt. simpl in *. by rewrite length_alter.
  - intros i lv' [(Hi & Hl)|(-> & lv0 & Hl & ->)]%record_attempt_lookup; [eauto|].
    simpl in *. specialize (Hb n lv0 Hl). simplify_eq. lia.
  - intros i lv' [(Hi & Hl)|(-> & lv0 & Hl & ->)]%record_attempt_lookup; simpl; [eauto|lia].
  - intros i lv' [(Hi & Hl)|(-> & lv0 & Hl & ->)]%record_attempt_lookup; simpl; [eauto|lia].
Qed.

(** Every attempt recorded is one more of the total and one more of the sum. *)
Lemma effect_counts l o l' :
  ladder_effect dedup l o l' →
  ld_total l' - ld_total l = attempts_made l' - attempts_made l ∧
  ld_total l' - ld_total l = (if o is Some _ then 1 else 0).
Proof.
  intros He. inversion He as [n Ha|n lv now Ha Hlv Hlt _ _]; subst; unfold attempts_made; simpl.
  - lia.
  - rewrite (zsum_alter n (ld_levels l) now lv) by done. lia.
Qed.

Lemma made_allowed l : ladder_ok cfgs l → 0 ≤ attempts_made l ≤ attempts_allowed l.
Proof.
  intros Hok. pose proof (lok_budget _ _ Hok) as Hb. unfold attempts_made, attempts_allowed.
  clear Hok. induction (ld_levels l) as [|lv ls IH]; simpl; [lia|].
  pose proof (Hb 0%nat lv eq_refl). assert (0 ≤ zsum (map lv_attempts ls) ≤ zsum (map lv_max_attempts ls)).
  { apply IH. intros i lv' Hi. exact (Hb (S i) lv' Hi). }
  lia.
Qed.

Lemma allowed_config l : attempts_allowed l = zsum (map (λ c, c.1.2) (map lv_config (ld_levels l))).
Proof. unfold attempts_allowed. f_equal. rewrite map_map. done. Qed.

Lemma reset_ok l : ladder_ok cfgs l → ladder_ok cfgs (reset_ladder l).
Proof.
  intros [Hc Hcur Hb Hlow Hup]. unfold reset_ladder. split; simpl.
  - rewrite map_map. by etrans; [|exact Hc].
  - lia.
  - intros i lv'. rewrite list_lookup_fmap. intros (lv & Hlv & ->)%fmap_Some. simpl.
    specialize (Hb i lv Hlv). lia.
  - intros. lia.
  - intros i lv'. rewrite list_lookup_fmap. by intros (lv & Hlv & ->)%fmap_Some.
Qed.
End pure.

Section invariants.
Context {E : Env} `{!ModeListener}.

Lemma escalate_effect sig dom w :
  let '(r, w') := escalate sig dom w in
  ∃ o, ladder_effect (cfg_dedup_window_sec cfg) (w_ladder w) o (w_ladder w') ∧
       ∀ rep, r = Ok rep → reply_agrees (w_ladder w) o rep.
Proof. unfold escalate, ladder. erewrite bind_ok by reflexivity. apply escalate_locked_effect. Qed.

Lemma escalate_effect_snd sig dom w :
  ∃ o, ladder_effect (cfg_dedup_window_sec cfg) (w_ladder w) o (w_ladder (escalate sig dom w).2).
Proof.
  pose proof (escalate_effect sig dom w) as He. destruct (escalate sig dom w).
  destruct He as (o & He & _). by exists o.
Qed.

Lemma ladder_reset_ladder w : w_ladder (ladder_reset w).2 = reset_ladder (w_ladder w).
Proof.
  unfold ladder_reset, ladder. erewrite bind_ok by reflexivity.
  destruct (emit_when (0 <? Z.of_nat (ld_current (w_ladder w))) SYSTEM INFO "system_nominal" NONE
    ("ladder reset from level " ++ pretty (Z.of_nat (ld_current (w_ladder w)))) [] w)
    as [w1 Hwhen]. erewrite bind_ok by exact Hwhen.
  erewrite bind_ok by apply put_ladder_eq.
  match goal with |- w_ladder (?m ?w0).2 = _ =>
    assert (Hk : preserves (keeps w_ladder) m);
      [|rewrite (Hk w0); apply ladder_set_ladder] end.
  pres; [apply pres_save_ladder|]. apply pres_write_reboot_count; [apply _|]. by intros c [].
Qed.

(** Any number of escalations, with anything else that does not write the ladder
    in between. *)
Inductive escalations : World → World → Prop :=
  | esc_refl w : escalations w w
  | esc_step w w1 sig dom : escalations w w1 → escalations w (escalate sig dom w1).2
  | esc_other w w1 w2 : escalations w w1 → w_ladder w2 = w_ladder w1 → escalations w w2.

(** The same with resets; [other] is what the rest of the program may do. *)
Inductive ladder_reach (other : World → World → Prop) : World → World → Prop :=
  | reach_refl w : ladder_reach other w w
  | reach_escalate w w1 sig dom :
      ladder_reach other w w1 → ladder_reach other w (escalate sig dom w1).2
  | reach_reset w w1 : ladder_reach other w w1 → ladder_reach other w (ladder_reset w1).2
  | reach_other w w1 w2 : ladder_reach other w w1 → other w1 w2 → ladder_reach other w w2.

(** C2. Refinement of the abstract ladder: every call of [escalate], in every
    environment and whatever its outcome (a reply, or the death of the process in
    the middle of an action), climbs over spent levels only and records at most one
    attempt, at the level reached, past the deduplication window and that level's
    cooldown; and the reply it returns describes that attempt. *)
Theorem escalate_refines sig dom w :
  let '(r, w') := escalate sig dom w in
  ∃ o, ladder_effect (cfg_dedup_window_sec cfg) (w_ladder w) o (w_ladder w') ∧
       ∀ rep, r = Ok rep → reply_agrees (w_ladder w) o rep.
Proof. apply escalate_effect. Qed.

(** Invariant of the ladder: from any well-formed ladder, through any sequence of
    escalations and resets interleaved with anything that does not write the
    ladder, the configuration never changes, attempts stay within the budgets, the
    levels below the current one are spent and those above are untouched. *)
Theorem ladder_invariant cfgs w w' :
  ladder_ok cfgs (w_ladder w) → ladder_reach (keeps w_ladder) w w' →
  ladder_ok cfgs (w_ladder w').
Proof.
  intros Hok. induction 1 as [|w w1 sig dom _ IH|w w1 _ IH|w w1 w2 _ IH Heq]; [done|..].
  - destruct (escalate_effect_snd sig dom w1) as [o He]. exact (effect_ok _ _ _ _ _ (IH Hok) He).
  - rewrite ladder_reset_ladder. by apply reset_ok, IH.
  - unfold keeps in Heq. rewrite Heq. auto.
Qed.

(** Bounded recovery: between two resets the ladder never attempts more
    recoveries than its budgets allow in total, however many faults are signalled. *)
Theorem recoveries_bounded cfgs w w' :
  ladder_ok cfgs (w_ladder w) → escalations w w' →
  ld_total (w_ladder w') - ld_total (w_ladder w)
  ≤ zsum (map (λ c, c.1.2) cfgs) - attempts_made (w_ladder w).
Proof.
  intros Hok Hesc.
  assert (ladder_ok cfgs (w_ladder w') ∧
          ld_total (w_ladder w') - ld_total (w_ladder w)
          = attempts_made (w_ladder w') - attempts_made (w_ladder w)) as [Hok' Heq].
  { induction Hesc as [|w w1 sig dom _ IH|w w1 w2 _ IH Heq]; [split; [done|lia]|..].
    - destruct (IH Hok) as [H1 H2]. destruct (escalate_effect_snd sig dom w1) as [o He].
      split; [exact (effect_ok _ _ _ _ _ H1 He)|]. apply effect_counts in He. lia.
    - rewrite Heq. auto. }
  pose proof (made_allowed cfgs _ Hok') as Hm. rewrite allowed_config in Hm.
  rewrite (lok_config _ _ Hok') in Hm. lia.
Qed.

(** C4. Order and rate of recovery: an action is only taken after every lower level
    has used its whole budget, within the level's own budget, at least the
    deduplication window after the previous attempt of any level and the cooldown
    after the previous attempt of its own. *)
Theorem escalation_order cfgs sig dom w a name k m b w' :
  ladder_ok cfgs (w_ladder w) →
  escalate sig dom w = (Ok (RAction a name k m b), w') →
  ∃ n lv, ld_levels (w_ladder w) !! n = Some lv ∧ a = lv_action lv ∧
    k = lv_attempts lv + 1 ∧ k ≤ lv_max_attempts lv ∧
    (∀ i lv', (i < n)%nat → ld_levels (w_ladder w) !! i = Some lv' →
              lv_attempts lv' = lv_max_attempts lv') ∧
    let now := ld_last_escalation (w_ladder w') in
    (cfg_dedup_window_sec cfg <= now - ld_last_escalation (w_ladder w))%Q ∧
    (lv_cooldown_sec lv <= now - lv_last_attempt lv)%Q.
Proof.
  intros Hok Heq. pose proof (escalate_effect sig dom w) as He. rewrite Heq in He.
  destruct He as (o & He & Hrep).
  destruct (Hrep _ eq_refl) as (n & lv & -> & Hlv & -> & _ & -> & _).
  inversion He as [|n' lv0 now Ha Hlv0 Hlt Hd Hc]; subst; simplify_eq.
  exists n, lv. split_and!; try done; [lia|].
  intros i lv' Hi Hlv'. pose proof (lok_below _ _ (climb_ok cfgs _ _ Hok Ha)) as Hb.
  by apply (Hb i lv').
Qed.
End invariants.

Lemma default_ladder_ok camera total last :
  ladder_ok (map lv_config (default_ladder camera))
    (mkLadder (default_ladder camera) 0 total last).
Proof.
  split; simpl; [done|lia| |intros; lia|].
  - unfold default_ladder. destruct (String.eqb camera _);
      intros i lv; do 6 (destruct i as [|i]; [intros [= <-]; simpl; lia|]); done.
  - unfold default_ladder. destruct (String.eqb camera _);
      intros i lv; do 6 (destruct i as [|i]; [by intros [= <-]|]); done.
Qed.

(** ** Durability: the file always holds the ladder *)
Section durable.
Context {E : Env} `{!ModeListener} (Hf : ∀ n, sys_fault n = None).
Let cfgs := map lv_config (default_ladder (cfg_camera_type cfg)).

(** A new process would load exactly the ladder in memory. *)
Definition saved (w : World) : Prop :=
  loaded (f_content (w_ladder_file w)) (default_ladder (cfg_camera_type cfg))
  = Some (ld_levels (w_ladder w), (ld_current (w_ladder w), ld_total (w_ladder w))).

Definition same_saved (w w' : World) : Prop :=
  w_ladder w' = w_ladder w ∧ f_content (w_ladder_file w') = f_content (w_ladder_file w).

#[export] Instance same_saved_coarse : Coarse same_saved.
Proof.
  split.
  - split; [by intros w|]. unfold same_saved. intros w1 w2 w3 [] []. split; congruence.
  - unfold observable_only, same_saved. intros w w' Hobs. destruct_and!. split; congruence.
Qed.
#[export] Instance same_saved_mode : ModeCoarse same_saved.
Proof.
  split; [apply _|]. unfold mode_frame, same_saved. intros w w' Hobs. destruct_and!.
  split; congruence.
Qed.

Lemma saved_same w w' : same_saved w w' → saved w → saved w'.
Proof. unfold saved. intros [Hl Hc] Hs. by rewrite Hc, Hl. Qed.

Lemma pres_execute_saved lv s d : preserves same_saved (execute lv s d).
Proof.
  intros w. destruct (pres_execute lv s d w) as (H1 & _ & H2 & _). split; congruence.
Qed.

Lemma save_ladder_saves w :
  ladder_ok cfgs (w_ladder w) →
  ∃ w', save_ladder w = (Ok tt, w') ∧ w_ladder w' = w_ladder w ∧ saved w'.
Proof.
  intros Hok. unfold save_ladder, ladder. erewrite bind_ok by reflexivity.
  destruct (save_ladder_state_eq (Z.of_nat (ld_current (w_ladder w))) (ld_levels (w_ladder w))
    (ld_total (w_ladder w)) w) as (w' & Hs & Hfr & _ & _ & Hc).
  assert (w_ladder w' = w_ladder w) as Hl by apply Hfr.
  exists w'. split_and!; [done|done|]. unfold saved, loaded. rewrite Hc, Hl by done.
  rewrite parse_saved_state; [done|symmetry; apply (lok_config _ _ Hok)|apply (lok_current _ _ Hok)].
Qed.

(** [put_ladder] followed by [save_ladder] and anything that keeps both. *)
Lemma put_save_then {A} (k : M World A) l w :
  ladder_ok cfgs l → preserves same_saved k →
  let w' := ((put_ladder l ;; save_ladder ;; k) w).2 in w_ladder w' = l ∧ saved w'.
Proof.
  intros Hok Hk. cbn zeta. erewrite bind_ok by apply put_ladder_eq.
  destruct (save_ladder_saves (set_ladder l w)) as (w1 & Hs & Hl & Hsv);
    [by rewrite ladder_set_ladder|].
  erewrite bind_ok by exact Hs. rewrite ladder_set_ladder in Hl. specialize (Hk w1).
  split; [|by eapply saved_same]. destruct Hk as [-> _]. done.
Qed.

Lemma escalate_to_next_saves sig dom w lv :
  ladder_ok cfgs (w_ladder w) → ld_levels (w_ladder w) !! ld_current (w_ladder w) = Some lv →
  lv_max_attempts lv ≤ lv_attempts lv →
  let w' := (escalate_to_next sig dom w).2 in
  ladder_ok cfgs (w_ladder w') ∧ saved w'.
Proof.
  intros Hok Hlv Hsp. cbn zeta. unfold escalate_to_next, ladder. erewrite bind_ok by reflexivity.
  erewrite bind_ok by (rewrite level_at_eq, Hlv; done).
  assert (Hok' : ladder_ok cfgs (set_current (S (ld_current (w_ladder w))) (w_ladder w))).
  { apply climb_ok; [done|]. apply lookup_lt_Some in Hlv as Hlt. split; [lia|].
    intros i lv' Hi Hlv'. by assert (i = ld_current (w_ladder w)) as -> by lia; simplify_eq. }
  match goal with |- ladder_ok _ (w_ladder ((put_ladder ?l ;; save_ladder ;; ?k) w).2) ∧ _ =>
    destruct (put_save_then k l w Hok') as [Hl Hs]; [pres|] end.
  split; [by rewrite Hl|done].
Qed.

Lemma escalate_locked_saves fuel sig dom w :
  ladder_ok cfgs (w_ladder w) → saved w → saved (escalate_locked fuel sig dom w).2.
Proof.
  revert w. induction fuel as [|fuel IH]; intros w Hok Hs; cbn [escalate_locked]; [done|].
  erewrite bind_ok by apply monotonic_eq. unfold ladder. erewrite bind_ok by reflexivity.
  set (w1 := set_tick _ w). assert (Hw1 : w_ladder w1 = w_ladder w) by (by destruct w).
  assert (Hs1 : saved w1) by (by apply (saved_same w); [destruct w|]).
  assert (Hok1 : ladder_ok cfgs (w_ladder w1)) by by rewrite Hw1.
  set (l := w_ladder w1) in *.
  pose proof (decide_meets_spec (ld_current l) (ld_levels l) (ld_last_escalation l)
    (mono (w_tick w)) (cfg_dedup_window_sec cfg)) as Hd.
  set (d := decide_escalation _ _ _ _ _) in *. unfold decision_spec in Hd.
  destruct (dec_kind d).
  - eapply saved_same; [|exact Hs1]. match goal with |- same_saved _ (?m w1).2 =>
      assert (Hk : preserves same_saved m) by pres; apply Hk end.
  - unfold mbind, M_bind. rewrite level_at_eq. by destruct (ld_levels (w_ladder w1) !! dec_level_idx d).
  - unfold mbind, M_bind. rewrite level_at_eq. by destruct (ld_levels (w_ladder w1) !! dec_level_idx d).
  - destruct Hd as (lv & Hlv & _ & _ & _ & Hsp).
    pose proof (escalate_to_next_saves sig dom w1 lv Hok1 Hlv Hsp) as [Hok2 Hs2].
    unfold mbind, M_bind. destruct (escalate_to_next sig dom w1) as [[u|e] w2]; [|done].
    by apply IH.
  - destruct Hd as (lv & Hlv & -> & Hdd & Hcool & Hlt).
    assert (Hok' : ladder_ok cfgs (record_attempt (ld_current l) (mono (w_tick w)) l)).
    { eapply effect_ok; [exact Hok1|]. rewrite <- (set_current_id l) at 3.
      by eapply effect_attempt; [apply advanced_refl|..]. }
    unfold execute_level, ladder. erewrite bind_ok by reflexivity.
    apply put_save_then; [exact Hok'|]. unfold level_at, ladder. pres. apply pres_execute_saved.
Qed.

Lemma ladder_reset_saves w : ladder_ok cfgs (w_ladder w) → saved (ladder_reset w).2.
Proof.
  intros Hok. unfold ladder_reset, ladder. erewrite bind_ok by reflexivity.
  assert (Hrest : ∀ w1, saved ((put_ladder (reset_ladder (w_ladder w)) ;; save_ladder ;;
    now ← monotonic; start ← gets w_process_start;
    when (Qle_bool (inject_Z (cfg_reboot_counter_reset_sec cfg)) (now - start))
      (write_reboot_count 0)) w1).2).
  { intros w1. apply put_save_then; [by apply reset_ok|]. pres.
    apply pres_write_reboot_count; [apply _|]. by intros c []. }
  destruct (emit_when (0 <? Z.of_nat (ld_current (w_ladder w))) SYSTEM INFO "system_nominal" NONE
    ("ladder reset from level " ++ pretty (Z.of_nat (ld_current (w_ladder w)))) [] w)
    as [w1 Hwhen].
  erewrite bind_ok by exact Hwhen. apply Hrest.
Qed.

Lemma reach_saved w w' :
  ladder_ok cfgs (w_ladder w) → saved w → ladder_reach same_saved w w' →
  ladder_ok cfgs (w_ladder w') ∧ saved w'.
Proof.
  intros Hok Hs. induction 1 as [|w w1 sig dom _ IH|w w1 _ IH|w w1 w2 _ IH Heq]; [done|..];
    destruct (IH Hok Hs) as [Hok1 Hs1].
  - split.
    + destruct (escalate_effect_snd sig dom w1) as [o He]. exact (effect_ok _ _ _ _ _ Hok1 He).
    + unfold escalate, ladder. erewrite bind_ok by reflexivity. by apply escalate_locked_saves.
  - rewrite ladder_reset_ladder. split; [by apply reset_ok|by apply ladder_reset_saves].
  - split; [by destruct Heq as [-> _]|by eapply saved_same].
Qed.
End durable.

Section restart.
Context {E : Env} `{!ModeListener}.

(** C3. Crash consistency. When no system call fails, from a saved well-formed ladder,
    after any sequence of escalations and resets, the last of which may have been cut short
    by the death of the process in the middle of a recovery action: a new process that
    finds the file as it was left, and a readable reboot count below the maximum, loads
    the same levels, attempts, times and total, the interrupted attempt included. Only the
    time of the last escalation is not saved and starts at 0 again. *)
Theorem restart_resumes_ladder w w' w2 :
  let cfgs := map lv_config (default_ladder (cfg_camera_type cfg)) in
  (∀ n, sys_fault n = None) →
  ladder_ok cfgs (w_ladder w) → saved w → ladder_reach same_saved w w' →
  w_ladder_file w2 = w_ladder_file w' → count_ok (w_reboots w2) →
  count_value (w_reboots w2) < cfg_max_fdir_reboots cfg →
  let '(r, w3) := ladder_init w2 in
  r = Ok tt ∧
  w_ladder w3 = mkLadder (ld_levels (w_ladder w')) (ld_current (w_ladder w'))
                  (ld_total (w_ladder w')) 0.
Proof.
  cbn zeta. intros Hf Hok Hs Hreach Hfile Hcount Hlt.
  destruct (reach_saved Hf w w' Hok Hs Hreach) as [_ Hs'].
  unfold saved in Hs'. rewrite <- Hfile in Hs'.
  destruct (load_eq (default_ladder (cfg_camera_type cfg)) w2 _ ltac:(by rewrite Hf) Hs')
    as (w3 & Hload & Ho).
  unfold ladder_init. erewrite bind_ok by exact Hload. cbn beta iota.
  erewrite bind_ok by apply put_ladder_eq. set (w4 := set_ladder _ w3).
  assert (Hw4 : w_reboots w4 = w_reboots w2).
  { destruct Ho as (_ & _ & _ & _ & <- & _). by destruct w3. }
  rewrite <- Hw4 in Hcount, Hlt.
  unfold mbind, M_bind. rewrite reads_count by done. rewrite (proj2 (Z.leb_gt _ _)) by done.
  split; [done|]. by destruct w3.
Qed.
End restart.

(** ** Termination, exhaustion, reset and malformed state *)
Section outcomes.
Context {E : Env}.

(** C5. Termination of the escalation loop: wired to the mode enforcer, in any
    environment that does not kill the process, [escalate] returns a reply; the loop
    needs at most one iteration per level left and one more, whatever the clock, the
    commands and the file system do. *)
Theorem escalate_returns fuel sig dom w :
  (∀ n argv, cli n argv ≠ CliKilled) → (levels_left (w_ladder w) < fuel)%nat →
  is_ok (escalate_locked fuel sig dom w).1 = true.
Proof.
  intros Hlive Hfuel. apply escalate_locked_total; [done| |done].
  intros l p t r. by apply ModeEnforcer.call_listener_catchable.
Qed.

Context `{!ModeListener}.

(** Exhaustion is safe: with every level used up, [escalate] enters SAFE mode and
    takes no recovery action: the ladder, the counter and the saved state stay as
    they are and only the mode listeners' [encoder-admin] commands run. *)
Theorem exhausted_enters_safe sig dom w :
  ld_levels (w_ladder w) !! ld_current (w_ladder w) = None →
  let '(r, w') := escalate sig dom w in
  (r = Ok RSafeMode ∨ ∃ e, r = Raise e ∧ uncatchable (ex_kind e)) ∧
  ms_current (w_mode w') = SAFE ∧ mode_frame w w' ∧
  runs_only (λ c, ∃ v, cm_argv c = encoder_admin v) w w'.
Proof.
  intros Hnone. unfold escalate, ladder. erewrite bind_ok by reflexivity. cbn [escalate_locked].
  erewrite bind_ok by apply monotonic_eq. unfold ladder. erewrite bind_ok by reflexivity.
  set (w1 := set_tick _ w).
  assert (Hw1 : w_ladder w1 = w_ladder w) by (by destruct w).
  assert (Hframe : mode_frame w w1) by (by destruct w).
  assert (Hcmds : w_commands w1 = w_commands w) by (by destruct w).
  rewrite Hw1. unfold decide_escalation. rewrite Hnone. cbn.
  pose proof (transition_effect SAFE sig w1) as Ht. unfold mbind at 1, M_bind at 1.
  destruct (transition SAFE sig w1) as [[b|e] w2]; destruct Ht as (Hm & Hf & Hc & He).
  - set (msg := "all recovery levels exhausted → SAFE mode"%string).
    pose proof (pres_emit observable_only dom CRITICAL sig NONE msg [] w2) as Ho.
    pose proof (pres_emit mode_frame dom CRITICAL sig NONE msg [] w2) as Hf2.
    pose proof (cmds_emit dom CRITICAL sig NONE msg [] w2) as Hc2.
    pose proof (emit_total dom CRITICAL sig NONE msg [] w2) as Ht.
    unfold mbind, M_bind. destruct (emit _ _ _ _ _ _ w2) as [[u|e] w3]; [|done].
    unfold keeps in Hc2. simpl in *. destruct Ho as (Hom & _). split_and!.
    + by left.
    + by rewrite Hom.
    + etrans; [exact Hframe|]. by etrans.
    + destruct Hc as (cs & Hcs & HP). exists cs. split; [congruence|done].
  - split_and!; [right; eauto|done|by etrans|].
    destruct Hc as (cs & Hcs & HP). exists cs. split; [congruence|done].
Qed.

(** Reset: the ladder goes back to level 0 with fresh budgets and no deadline, the
    running total and the configuration stay, and the reboot counter is cleared
    only once the process has been up for the stability threshold. *)
Theorem reset_spec w :
  (∀ n, sys_fault n = None) → count_ok (w_reboots w) →
  let w' := (ladder_reset w).2 in
  w_ladder w' = reset_ladder (w_ladder w) ∧
  ∃ k, w_reboots w' =
    if Qle_bool (inject_Z (cfg_reboot_counter_reset_sec cfg)) (mono k - w_process_start w)
    then CfText (count_text 0) else w_reboots w.
Proof.
  intros Hf Hok. cbn zeta. split; [apply ladder_reset_ladder|].
  unfold ladder_reset, ladder. erewrite bind_ok by reflexivity.
  assert (Hwhen : ∃ w1, when (0 <? Z.of_nat (ld_current (w_ladder w)))
    (emit SYSTEM INFO "system_nominal" NONE
      ("ladder reset from level " ++ pretty (Z.of_nat (ld_current (w_ladder w)))) []) w
    = (Ok tt, w1) ∧ observable_only w w1).
  { set (msg := ("ladder reset from level " ++ pretty (Z.of_nat (ld_current (w_ladder w))))%string).
    destruct (emit_when (0 <? Z.of_nat (ld_current (w_ladder w))) SYSTEM INFO "system_nominal"
      NONE msg [] w) as [w1 Hwhen]. exists w1. split; [done|].
    assert (Hp : preserves observable_only (when (0 <? Z.of_nat (ld_current (w_ladder w)))
      (emit SYSTEM INFO "system_nominal" NONE msg []))) by pres.
    specialize (Hp w). by rewrite Hwhen in Hp. }
  destruct Hwhen as (w1 & Hwhen & Ho). erewrite bind_ok by exact Hwhen.
  erewrite bind_ok by apply put_ladder_eq. set (w2 := set_ladder _ w1).
  assert (Hr2 : w_reboots w2 = w_reboots w ∧ w_process_start w2 = w_process_start w).
  { destruct Ho as (_ & _ & _ & <- & <- & _). by destruct w1. }
  destruct Hr2 as [Hr2 Hp2].
  pose proof (save_ladder_frame w2) as Hfr. destruct (save_ladder_ok w2) as (w3 & Hs & _).
  rewrite Hs in Hfr. destruct Hfr as (_ & _ & _ & Hp3 & Hr3 & _). simpl in Hp3, Hr3.
  erewrite bind_ok by exact Hs. erewrite bind_ok by apply monotonic_eq.
  erewrite bind_ok by reflexivity.
  set (w4 := set_tick _ w3). exists (w_tick w3).
  assert (Hr4 : w_reboots w4 = w_reboots w) by (destruct w3; simpl in *; congruence).
  assert (Hp4 : w_process_start w4 = w_process_start w) by (destruct w3; simpl in *; congruence).
  rewrite Hp4. destruct (Qle_bool _ _); [|done]. simpl.
  destruct (write_count_eq Hf 0 w4) as (w5 & -> & Hr5 & _); [|done].
  rewrite Hr4. by destruct (w_reboots w).
Qed.

(** Malformed state files: a state file that is valid JSON of another shape (a list,
    a number, a string) is not treated as corruption: loading raises
    [AttributeError], so the ladder cannot be constructed. *)
Theorem wrong_shape_escapes j w :
  is_object j = false → f_content (w_ladder_file w) = Text (TxDoc j) →
  sys_fault (w_tick w) ≠ Some SysOpen →
  ∃ w', ladder_init w = (fail EAttribute, w') ∧ w_ladder w' = w_ladder w.
Proof.
  intros Hj Hc Hf. unfold ladder_init, load_ladder_state.
  unfold mbind at 1, M_bind at 1. erewrite bind_ok by by apply os_call_unless.
  erewrite bind_ok by reflexivity.
  assert (w_ladder_file (set_tick (S (w_tick w)) w) = w_ladder_file w) as -> by (by destruct w).
  rewrite Hc. exists (set_tick (S (w_tick w)) w). split; [|by destruct w]. by destruct j.
Qed.
End outcomes.

(** ** Witnesses: the default ladder of a colour camera *)
Abbreviation color_cfgs := (map lv_config (default_ladder "color_camera")).

Lemma sample_ladder_ok : ladder_ok color_cfgs (w_ladder sample_world).
Proof. apply default_ladder_ok. Qed.

Lemma ladder_invariant_witness :
  ladder_ok color_cfgs
    (w_ladder (escalate (E:=live_env) "fault" PIPELINE sample_world).2).
Proof.
  apply (ladder_invariant (E:=live_env) _ sample_world); [exact sample_ladder_ok|].
  apply reach_escalate, reach_refl.
Defined.

Lemma recoveries_bounded_witness :
  let w' := (escalate (E:=live_env) "fault" PIPELINE
               (escalate (E:=live_env) "fault" PIPELINE sample_world).2).2 in
  ld_total (w_ladder w') - 0 ≤ 10 - 0.
Proof.
  apply (recoveries_bounded (E:=live_env) color_cfgs sample_world); [exact sample_ladder_ok|].
  apply esc_step, esc_step, esc_refl.
Defined.

Lemma escalation_order_witness :
  let r := escalate (E:=live_env) "fault" PIPELINE sample_world in
  r.1 = Ok (RAction RETRY_HANDLE "retry_handle" 1 1 true) ∧
  ∃ n lv, ld_levels (w_ladder sample_world) !! n = Some lv ∧ RETRY_HANDLE = lv_action lv ∧
          1 ≤ lv_max_attempts lv.
Proof.
  assert (He : escalate (E:=live_env) "fault" PIPELINE sample_world
    = (Ok (RAction RETRY_HANDLE "retry_handle" 1 1 true),
       (escalate (E:=live_env) "fault" PIPELINE sample_world).2)) by (vm_compute; reflexivity).
  split; [exact (f_equal fst He)|].
  destruct (escalation_order (E:=live_env) color_cfgs "fault" PIPELINE sample_world _ _ _ _ _ _
    sample_ladder_ok He) as (n & lv & H1 & H2 & _ & H4 & _).
  exists n, lv. split_and!; [exact H1|exact H2|exact H4].
Defined.

(** The process dies while Janus' probe runs; the new process finds the attempt. *)
Definition killing_env : Env := sample_env false no_fault (λ _ _, CliKilled).

Lemma restart_resumes_ladder_witness :
  let w' := (escalate (E:=killing_env) "fault" PIPELINE sample_world).2 in
  (escalate (E:=killing_env) "fault" PIPELINE sample_world).1 = fail EKilled ∧
  w_ladder (ladder_init (E:=killing_env) w').2
  = mkLadder (ld_levels (w_ladder w')) (ld_current (w_ladder w')) (ld_total (w_ladder w')) 0.
Proof.
  split; [vm_compute; reflexivity|].
  pose proof (restart_resumes_ladder (E:=killing_env) sample_world
    (escalate (E:=killing_env) "fault" PIPELINE sample_world).2
    (escalate (E:=killing_env) "fault" PIPELINE sample_world).2 (λ _, eq_refl)
    sample_ladder_ok eq_refl (reach_escalate _ _ _ _ _ (reach_refl _ _)) eq_refl I eq_refl) as H.
  cbv zeta in H. destruct (ladder_init _) as [r w3]. exact (proj2 H).
Defined.

Lemma escalate_returns_witness :
  is_ok (escalate_locked (E:=live_env) 5 "fault" PIPELINE sample_world).1 = true.
Proof. apply (escalate_returns (E:=live_env)); [discriminate|vm_compute; lia]. Defined.

Definition exhausted_world : World := set_ladder (set_current 4 (w_ladder sample_world)) sample_world.

Lemma exhausted_enters_safe_witness :
  ms_current (w_mode (escalate (E:=live_env) "fault" PIPELINE exhausted_world).2) = SAFE.
Proof.
  pose proof (exhausted_enters_safe (E:=live_env) "fault" PIPELINE exhausted_world eq_refl) as H.
  destruct (escalate _ _ _) as [r w']. exact (proj1 (proj2 H)).
Defined.

Lemma reset_spec_witness :
  w_ladder (ladder_reset (E:=live_env) exhausted_world).2 = reset_ladder (w_ladder exhausted_world).
Proof.
  exact (proj1 (reset_spec (E:=live_env) exhausted_world (λ _, eq_refl) I)).
Defined.

Definition listy_world : World := set_ladder_file (file_of (Text (TxDoc (JArr [])))) sample_world.

Lemma wrong_shape_escapes_witness :
  ∃ w', ladder_init (E:=live_env) listy_world = (fail EAttribute, w').
Proof.
  destruct (wrong_shape_escapes (E:=live_env) (JArr []) listy_world eq_refl eq_refl) as (w' & H & _);
    [discriminate|]. exists w'. exact H.
Defined.
