(* ===== verification/Watchdogs.v ===== *)
(** * The watchdogs ([app/services/watchdogs.py])

    One iteration of each watchdog loop: the Janus watchdog thread, which probes the
    mountpoint's age, and the snapshot watchdog coroutine, which watches the snapshot
    file's modification time. Both reach the ladder through [try_escalate]. The Janus
    iteration also returns the branch it took ([outcome]), which the source only
    logs. Sleeping between iterations and the thread start are not modelled. *)
From S2P Require Import Prelude.
From S2P Require Import PyVal.
From S2P Require Import FileStore.
From S2P Require Import FdirEvents.
From S2P Require Import LadderPolicy.
From S2P Require Import World.
From S2P Require Import SystemMode.
From S2P Require Import ModeEnforcer.
From S2P Require Import Quiesce.
From S2P Require Import Persistence.
From S2P Require Import JanusSummary.
From S2P Require Import Executor.
From S2P Require Import Ladder.

Definition ESCALATION_DEDUP_SEC : Q := 5.

(** ** Updates of the module variables *)
Definition set_first_healthy (b : bool) (x : Watch) : Watch :=
  mkWatch (wd_startup_ts x) b (wd_last_escalation_ts x) (wd_consecutive_suppressions x)
    (wd_snapshot_missing_logged x) (wd_last_observed_mtime x) (wd_last_mtime_change_mono x)
    (wd_healthy_streak x).
Definition set_last_escalation (t : Q) (x : Watch) : Watch :=
  mkWatch (wd_startup_ts x) (wd_first_healthy_seen x) t (wd_consecutive_suppressions x)
    (wd_snapshot_missing_logged x) (wd_last_observed_mtime x) (wd_last_mtime_change_mono x)
    (wd_healthy_streak x).
Definition set_suppressions (n : Z) (x : Watch) : Watch :=
  mkWatch (wd_startup_ts x) (wd_first_healthy_seen x) (wd_last_escalation_ts x) n
    (wd_snapshot_missing_logged x) (wd_last_observed_mtime x) (wd_last_mtime_change_mono x)
    (wd_healthy_streak x).
Definition set_missing_logged (b : bool) (x : Watch) : Watch :=
  mkWatch (wd_startup_ts x) (wd_first_healthy_seen x) (wd_last_escalation_ts x)
    (wd_consecutive_suppressions x) b (wd_last_observed_mtime x) (wd_last_mtime_change_mono x)
    (wd_healthy_streak x).
Definition set_mtime (m t : Q) (x : Watch) : Watch :=
  mkWatch (wd_startup_ts x) (wd_first_healthy_seen x) (wd_last_escalation_ts x)
    (wd_consecutive_suppressions x) (wd_snapshot_missing_logged x) m t (wd_healthy_streak x).
Definition set_streak (n : Z) (x : Watch) : Watch :=
  mkWatch (wd_startup_ts x) (wd_first_healthy_seen x) (wd_last_escalation_ts x)
    (wd_consecutive_suppressions x) (wd_snapshot_missing_logged x) (wd_last_observed_mtime x)
    (wd_last_mtime_change_mono x) n.

(** The branch an iteration of the Janus watchdog took. *)
Inductive outcome :=
  | OHealthy (reset : bool)
  | OGrace
  | OSafeAutoReset
  | OSuppressed
  | OTriedEscalation (won : bool)
  | ORetrySucceeded
  | ORetrySuppressed
  | ORetryEscalated
  | OErrorInGrace.

Section ops.
Context {E : Env} `{!ModeListener}.

Definition watch : M World Watch := gets w_watch.
Definition upd_watch (f : Watch → Watch) : M World unit :=
  modify (fun w => set_watch (f (w_watch w)) w).

Definition in_grace_period : M World bool :=
  x ← watch;
  if wd_first_healthy_seen x then mret false
  else t ← monotonic;
       mret (Qltb (t - wd_startup_ts x) (inject_Z (cfg_watchdog_grace_sec cfg)))%Q.

(** [_try_escalate] *)
Definition try_escalate (signal : string) (domain : Domain) : M World bool :=
  quiet ← is_quiesced domain;
  if (quiet : bool) then note_suppressed signal domain ;; mret false
  else
    now ← monotonic;
    x ← watch;
    if Qltb (now - wd_last_escalation_ts x) ESCALATION_DEDUP_SEC then mret false
    else
      upd_watch (set_last_escalation now) ;;
      escalate signal domain ;;
      mret true.

(** [_local_stream_recently_alive] *)
Definition local_stream_recently_alive : M World bool :=
  if negb (cfg_snapshot_watchdog_enabled cfg) then mret false
  else if negb (cfg_janus_mount_id cfg =? cfg_janus_color_stream_id cfg) then mret false
  else
    fresh ← try_except
      (t ← time_time;
       n ← tick;
       mtime ← lift (snapshot_mtime n);
       let file_age_ms := ((t - mtime) * 1000)%Q in
       mret (Qle_bool 0 file_age_ms && Qle_bool file_age_ms (inject_Z (cfg_watchdog_stale_ms cfg))))
      COSError (fun _ => mret false);
    if (fresh : bool) then mret true
    else
      x ← watch;
      let last_change := wd_last_mtime_change_mono x in
      if Qle_bool last_change 0 then mret false
      else t ← monotonic;
           mret (Qle_bool ((t - last_change) * 1000) (inject_Z (cfg_watchdog_stale_ms cfg)))%Q.

Definition janus_exception_escalation_allowed : M World bool :=
  alive ← local_stream_recently_alive; mret (negb alive).

(** [current_mode() == SAFE and AUTO_RESET > 0 and mode_uptime_sec() >= AUTO_RESET] *)
Definition safe_auto_reset_due : M World bool :=
  mode ← current_mode;
  if decide (mode = SAFE) then
    if Qle_bool (cfg_safe_auto_reset_sec cfg) 0 then mret false
    else up ← mode_uptime_sec; mret (Qle_bool (cfg_safe_auto_reset_sec cfg) up)
  else mret false.

(** The stream is healthy. *)
Definition healthy_branch : M World outcome :=
  upd_watch (set_first_healthy true) ;;
  upd_watch (set_suppressions 0) ;;
  upd_watch (fun x => set_streak (wd_healthy_streak x + 1) x) ;;
  x ← watch;
  if cfg_nominal_checks cfg <=? wd_healthy_streak x then
    ladder_reset ;;
    promote NOMINAL "stream healthy for sustained window" ;;
    upd_watch (set_streak (cfg_nominal_checks cfg)) ;;
    mret (OHealthy true)
  else mret (OHealthy false).

(** The stream is stale or absent. *)
Definition stale_branch (age : json) : M World outcome :=
  upd_watch (set_streak 0) ;;
  let signal := ("video_age_ms=" ++ fmt age)%string in
  grace ← in_grace_period;
  if (grace : bool) then mret OGrace
  else
    due ← safe_auto_reset_due;
    if (due : bool) then
      _ ← mode_uptime_sec;                       (* the log message *)
      ladder_reset ;;
      promote NOMINAL "safe_mode_auto_reset" ;;
      mret OSafeAutoReset
    else
      alive ← local_stream_recently_alive;
      x ← watch;
      if alive && (wd_consecutive_suppressions x <? cfg_max_suppress_ticks cfg) then
        upd_watch (set_suppressions (wd_consecutive_suppressions x + 1)) ;;
        emit JANUS WARN signal NONE "suppressed_local_alive" [] ;;
        mret OSuppressed
      else
        upd_watch (set_suppressions 0) ;;
        won ← try_escalate signal PIPELINE;
        mret (OTriedEscalation won).

(** The body of the outer [except Exception]. *)
Definition error_branch : M World outcome :=
  upd_watch (set_streak 0) ;;
  grace ← in_grace_period;
  if (grace : bool) then mret OErrorInGrace
  else
    try_except
      (_ ← janus_summary (cfg_janus_mount_id cfg); mret ORetrySucceeded)
      CException
      (fun _ =>
         allowed ← janus_exception_escalation_allowed;
         if negb allowed then
           emit JANUS WARN "watchdog_exception" NONE "suppressed_local_alive" [] ;;
           mret ORetrySuppressed
         else
           try_except (_ ← try_escalate "watchdog_exception" JANUS; mret ORetryEscalated)
             CException (fun _ => mret ORetryEscalated)).

(** One iteration of [_watchdog_loop]. *)
Definition janus_watchdog_tick : M World outcome :=
  try_except
    (summary ← janus_summary (cfg_janus_mount_id cfg);
     let age := video_age_ms summary in
     if age_fresh (cfg_watchdog_stale_ms cfg) age then healthy_branch else stale_branch age)
    CException (fun _ => error_branch).

(** One iteration of [_snapshot_watchdog_loop]. *)
Definition snapshot_watchdog_tick : M World unit :=
  try_except2
    (n ← tick;
     mtime ← lift (snapshot_mtime n);
     now ← monotonic;
     upd_watch (set_missing_logged false) ;;
     x ← watch;
     when (negb (Qeq_bool mtime (wd_last_observed_mtime x))) (upd_watch (set_mtime mtime now)) ;;
     x ← watch;
     if Qeq_bool (wd_last_mtime_change_mono x) 0 then
       upd_watch (fun x => set_mtime (wd_last_observed_mtime x) now x)
     else
       let ms := ((now - wd_last_mtime_change_mono x) * 1000)%Q in
       let age_ms := Z.quot (Qnum ms) (Zpos (Qden ms)) in
       when (cfg_watchdog_stale_ms cfg <? age_ms)
         (grace ← in_grace_period;
          if (grace : bool) then mret tt
          else _ ← try_escalate ("snapshot_stale_ms=" ++ pretty age_ms) SENSOR; mret tt))
    CFileNotFound
    (fun _ =>
       upd_watch (set_mtime 0 0) ;;
       grace ← in_grace_period;
       if (grace : bool) then mret tt
       else
         x ← watch;
         when (negb (wd_snapshot_missing_logged x)) (upd_watch (set_missing_logged true)) ;;
         _ ← try_escalate "snapshot_missing" SENSOR; mret tt)
    CException (fun _ => mret tt).

(** [stop_all] forgets the snapshot's times. *)
Definition stop_all : M World unit := upd_watch (set_mtime 0 0).
End ops.

(** ** Frames: the ladder moves only through [escalate] and [ladder_reset] *)
Section frames.
Context {E : Env} `{!ModeListener}.

Lemma reach_trans other w1 w2 w3 :
  ladder_reach other w1 w2 → ladder_reach other w2 w3 → ladder_reach other w1 w3.
Proof. intros H12 H23. induction H23; eauto using ladder_reach. Qed.

#[export] Instance reach_coarse : Coarse (ladder_reach (keeps w_ladder)).
Proof.
  split; [split; [intros w; constructor|intros w1 w2 w3; apply reach_trans]|].
  intros w w' Hobs. eapply reach_other; [constructor|]. by apply coarse_obs.
Qed.
#[export] Instance reach_mode : ModeCoarse (ladder_reach (keeps w_ladder)).
Proof.
  split; [apply _|]. intros w w' Hf. eapply reach_other; [constructor|]. by apply mode_coarse_frame.
Qed.

Lemma reach_upd_watch f : preserves (ladder_reach (keeps w_ladder)) (upd_watch f).
Proof. intros w. eapply reach_other; [constructor|]. by destruct w. Qed.
Lemma reach_escalates sig d : preserves (ladder_reach (keeps w_ladder)) (escalate sig d).
Proof. intros w. apply reach_escalate. constructor. Qed.
Lemma reach_resets : preserves (ladder_reach (keeps w_ladder)) ladder_reset.
Proof. intros w. apply reach_reset. constructor. Qed.
Hint Resolve reach_upd_watch reach_escalates reach_resets : pres.

Lemma pres_try_escalate_reach sig d :
  preserves (ladder_reach (keeps w_ladder)) (try_escalate sig d).
Proof. unfold try_escalate, watch. pres. Qed.

Lemma pres_alive R `{!Coarse R} : preserves R local_stream_recently_alive.
Proof. unfold local_stream_recently_alive, watch. pres. Qed.
Lemma pres_grace R `{!Coarse R} : preserves R in_grace_period.
Proof. unfold in_grace_period, watch. pres. Qed.
Lemma pres_due R `{!Coarse R} : preserves R safe_auto_reset_due.
Proof. unfold safe_auto_reset_due, current_mode, mode_uptime_sec. pres. Qed.

Lemma pres_janus_tick_reach : preserves (ladder_reach (keeps w_ladder)) janus_watchdog_tick.
Proof.
  unfold janus_watchdog_tick, healthy_branch, stale_branch, error_branch, watch,
    janus_exception_escalation_allowed, mode_uptime_sec.
  pres; first [apply pres_grace; apply _|apply pres_due; apply _|apply pres_alive; apply _
              |apply pres_try_escalate_reach].
Qed.

Lemma pres_snapshot_tick_reach : preserves (ladder_reach (keeps w_ladder)) snapshot_watchdog_tick.
Proof.
  unfold snapshot_watchdog_tick, watch.
  pres; first [apply pres_grace; apply _|apply pres_try_escalate_reach].
Qed.

(** Any interleaving of iterations of the two watchdogs, operator resets and forced
    mode changes, and steps of other components that do not write the ladder. *)
Inductive fdir_step : World → World → Prop :=
  | step_janus w : fdir_step w (janus_watchdog_tick w).2
  | step_snapshot w : fdir_step w (snapshot_watchdog_tick w).2
  | step_operator_reset w : fdir_step w (ladder_reset w).2
  | step_operator_mode t r w : fdir_step w (transition t r w).2
  | step_elsewhere w w' : w_ladder w' = w_ladder w → fdir_step w w'.

Inductive fdir_run : World → World → Prop :=
  | run_refl w : fdir_run w w
  | run_step w w1 w2 : fdir_run w w1 → fdir_step w1 w2 → fdir_run w w2.

(** C1. System invariant: whatever the clock, Janus, the snapshot file and the commands
    do, every interleaving of the two watchdogs, operator actions and other
    components keeps the ladder well-formed: budgets respected, lower levels spent
    before higher ones are touched. *)
Theorem fdir_keeps_ladder_ok cfgs w w' :
  ladder_ok cfgs (w_ladder w) → fdir_run w w' → ladder_ok cfgs (w_ladder w').
Proof.
  intros Hok Hrun. assert (Hreach : ladder_reach (keeps w_ladder) w w').
  { induction Hrun as [w|w w1 w2 _ IH Hs]; [constructor|]. eapply reach_trans; [by apply IH|].
    destruct Hs as [w1|w1|w1|t r w1|w1 w2 Hl].
    - apply pres_janus_tick_reach.
    - apply pres_snapshot_tick_reach.
    - apply reach_resets.
    - apply pres_transition; apply _.
    - eapply reach_other; [constructor|done]. }
  clear Hrun. induction Hreach as [|w w1 sig dom _ IH|w w1 _ IH|w w1 w2 _ IH Heq]; [done|..].
  - destruct (escalate_effect_snd sig dom w1) as [o He]. exact (effect_ok _ _ _ _ _ (IH Hok) He).
  - rewrite ladder_reset_ladder. by apply reset_ok, IH.
  - unfold keeps in Heq. rewrite Heq. auto.
Qed.

Definition watch_frame (w w' : World) : Prop := w_watch w' = w_watch w.
#[export] Instance watch_frame_coarse : Coarse watch_frame.
Proof.
  split; [apply (keeps_preorder w_watch)|]. unfold observable_only, watch_frame.
  intros w w' Hobs. by destruct_and!.
Qed.
#[export] Instance watch_frame_mode : ModeCoarse watch_frame.
Proof.
  split; [apply _|]. unfold mode_frame, watch_frame. intros w w' Hobs. by destruct_and!.
Qed.

Lemma pres_escalate_watch sig d : preserves watch_frame (escalate sig d).
Proof.
  unfold escalate, ladder. pres. generalize (S (levels_left a)). clear. intros fuel.
  induction fuel as [|fuel IH]; cbn [escalate_locked]; [pres|].
  unfold ladder, level_at, ladder, escalate_to_next, execute_level, put_ladder, save_ladder, ladder,
    level_at. pres; try by destruct w.
  all: first [by apply pres_save; [apply _|intros f []]|intros w; apply pres_execute].
Qed.
End frames.

Section gate.
Context {E : Env} `{!ModeListener}.

(** The state in which the ladder is asked: the dedup window of both watchdogs is claimed. *)
Definition claimed (w : World) : World :=
  set_watch (set_last_escalation (mono (S (w_tick w))) (w_watch w))
    (set_tick (S (S (w_tick w))) w).

(** C31. The gate in front of the ladder: a watchdog's escalation is dropped, with no
    effect but an event, while a quiesce window covers its domain and within 5 s of
    the previous escalation of either watchdog; otherwise it claims the window and is
    one escalation of the ladder, whose effects and exceptions are its own; and only then
    it reports an escalation. *)
Theorem try_escalate_gated sig d w :
  let blocked := covers (mono (w_tick w)) d (w_quiesce w)
                 || Qltb (mono (S (w_tick w)) - wd_last_escalation_ts (w_watch w))
                      ESCALATION_DEDUP_SEC in
  let '(r, w') := try_escalate sig d w in
  if blocked then
    r = Ok false ∧ observable_only w w' ∧ w_commands w' = w_commands w
  else
    let '(asked, w1) := escalate sig d (claimed w) in
    w' = w1 ∧ r = (_ ← asked; Ok true) ∧
    w_watch w' = set_last_escalation (mono (S (w_tick w))) (w_watch w).
Proof.
  cbn zeta. unfold try_escalate, is_quiesced.
  assert (Hq : (t ← monotonic; gets (λ w, covers t d (w_quiesce w))) w
               = (Ok (covers (mono (w_tick w)) d (w_quiesce w)), set_tick (S (w_tick w)) w)).
  { by destruct w. }
  erewrite bind_ok by exact Hq. set (w1 := set_tick _ w).
  assert (Hw1 : observable_only w w1 ∧ w_commands w1 = w_commands w ∧ w_tick w1 = S (w_tick w))
    by (by destruct w).
  destruct Hw1 as (Ho & Hc & Ht). destruct (covers _ _ _); cbn [orb].
  - unfold mbind, M_bind.
    assert (Hn : ∃ w2, note_suppressed sig d w1 = (Ok tt, w2) ∧ observable_only w1 w2 ∧
                       w_commands w2 = w_commands w1).
    { pose proof (pres_note_suppressed observable_only sig d w1) as H1.
      assert (H2 : preserves (keeps w_commands) (note_suppressed sig d)).
      { unfold note_suppressed. pres. }
      assert (H3 : total (note_suppressed sig d)).
      { unfold note_suppressed. apply total_bind; [done|intros q]. apply total_bind; [done|intros t].
        apply total_catch_all; [apply ro_emit|done]. }
      specialize (H2 w1). specialize (H3 w1).
      destruct (note_suppressed sig d w1) as [[[]|e] w2]; [|done]. by exists w2. }
    destruct Hn as (w2 & -> & Ho2 & Hc2). split_and!; [done|by etrans|congruence].
  - erewrite bind_ok by apply monotonic_eq. rewrite Ht.
    erewrite bind_ok by reflexivity. set (w2 := set_tick _ w1).
    assert (Hw2 : observable_only w1 w2 ∧ w_commands w2 = w_commands w1 ∧ w_watch w2 = w_watch w)
      by (by destruct w).
    destruct Hw2 as (Ho2 & Hc2 & ->).
    destruct (Qltb _ _).
    { split_and!; [done|by etrans|by rewrite Hc2]. }
    erewrite bind_ok by reflexivity.
    replace (set_watch _ w2) with (claimed w) by (by destruct w).
    pose proof (pres_escalate_watch sig d (claimed w)) as Hwatch. unfold watch_frame in Hwatch.
    unfold mbind at 1, M_bind at 1. destruct (escalate sig d (claimed w)) as [[rep|e] w4];
      simpl in Hwatch; (split_and!; [done|done|]); rewrite Hwatch; by destruct w.
Qed.

Lemma local_alive_outcome w :
  (∃ b w', local_stream_recently_alive w = (Ok b, w') ∧ w_watch w' = w_watch w) ∨
  (∃ e w', local_stream_recently_alive w = (Raise e, w') ∧ w_watch w' = w_watch w).
Proof.
  pose proof (pres_alive watch_frame w) as Hp. unfold watch_frame in Hp.
  destruct (local_stream_recently_alive w) as [[b|e] w']; simpl in *; eauto 6.
Qed.

(** The JANUS escalation is dead code: the probe the exception handler retries never
    raises, so no iteration of the Janus watchdog, in any environment, escalates or
    suppresses a fault of the JANUS domain. *)
Theorem janus_domain_never_escalates w :
  (janus_watchdog_tick w).1 ≠ Ok ORetryEscalated ∧ (janus_watchdog_tick w).1 ≠ Ok ORetrySuppressed.
Proof.
  assert (Hgood : ∀ (P : outcome → Prop) (m : M World outcome) w0 o,
    (∀ w1 o1, (m w1).1 = Ok o1 → P o1) → (m w0).1 = Ok o → P o) by eauto.
  set (P o := o ≠ ORetryEscalated ∧ o ≠ ORetrySuppressed).
  set (returns (m : M World outcome) := ∀ w1 o1, (m w1).1 = Ok o1 → P o1).
  assert (Hret : ∀ o, P o → returns (mret o)) by (by intros o HP w1 o1 [= <-]).
  assert (Hbind : ∀ A (m : M World A) f, (∀ a, returns (f a)) → returns (m ≫= f)).
  { intros A m f Hf w1 o1. unfold mbind, M_bind. destruct (m w1) as [[a|e] w2]; [apply Hf|done]. }
  assert (Herr : returns error_branch).
  { unfold error_branch. apply Hbind. intros _. apply Hbind. intros [].
    - by apply Hret.
    - intros w1 o1. unfold try_except.
      assert (Ht : total (_ ← janus_summary (cfg_janus_mount_id cfg); mret ORetrySucceeded))
        by (apply total_bind; [apply janus_summary_total|done]).
      specialize (Ht w1). unfold mbind, M_bind in *.
      destruct (janus_summary _ w1) as [[s|e] w2]; [|done]. by intros [= <-]. }
  assert (Htick : returns janus_watchdog_tick).
  { intros w1 o1. unfold janus_watchdog_tick, try_except.
    assert (Hbody : returns (summary ← janus_summary (cfg_janus_mount_id cfg);
      let age := video_age_ms summary in
      if age_fresh (cfg_watchdog_stale_ms cfg) age then healthy_branch else stale_branch age)).
    { apply Hbind. intros s. cbn zeta. destruct (age_fresh _ _).
      - unfold healthy_branch. do 4 (apply Hbind; intros ?). destruct (_ <=? _).
        + do 3 (apply Hbind; intros ?). by apply Hret.
        + by apply Hret.
      - unfold stale_branch. apply Hbind. intros _. cbn zeta. apply Hbind. intros [].
        { by apply Hret. }
        apply Hbind. intros [].
        { do 3 (apply Hbind; intros ?). by apply Hret. }
        do 2 (apply Hbind; intros ?). destruct (_ && _).
        + do 2 (apply Hbind; intros ?). by apply Hret.
        + do 2 (apply Hbind; intros ?). by apply Hret. }
    specialize (Hbody w1).
    match type of Hbody with context [(?m w1).1] => destruct (m w1) as [[o|e] w2] end.
    { apply Hbody. }
    destruct (instance_of (ex_kind e) CException); [apply Herr|done]. }
  split; intros Hw; by destruct (Htick w _ Hw).
Qed.
End gate.

(** ** The suppression budget *)
Section suppression.
Context {E : Env} `{!ModeListener}.

Definition supp (w : World) : Z := wd_consecutive_suppressions (w_watch w).

Lemma watch_upd f w : w_watch (upd_watch f w).2 = f (w_watch w).
Proof. by destruct w. Qed.

Lemma stale_branch_outcome age w o w' :
  stale_branch age w = (Ok o, w') →
  o = OGrace ∨ o = OSafeAutoReset ∨
  (o = OSuppressed ∧ supp w < cfg_max_suppress_ticks cfg ∧ supp w' = supp w + 1) ∨
  ∃ b, o = OTriedEscalation b.
Proof.
  unfold stale_branch. erewrite bind_ok by reflexivity.
  set (w1 := (upd_watch (set_streak 0) w).2).
  change (set_watch (set_streak 0 (w_watch w)) w) with w1.
  assert (H1 : supp w1 = supp w) by (by destruct w). cbn zeta.
  intros [(g & w2 & Hg & Ho)|(e & _ & ?)]%bind_inv; [|done].
  pose proof (pres_grace watch_frame w1) as Hw2. rewrite Hg in Hw2. simpl in Hw2.
  destruct g; [left; by inversion Ho|]. revert Ho.
  intros [(due & w3 & Hd & Ho)|(e & _ & ?)]%bind_inv; [|done].
  pose proof (pres_due watch_frame w2) as Hw3. rewrite Hd in Hw3. simpl in Hw3.
  destruct due.
  { right; left. revert Ho. intros [(? & ? & _ & Ho)|(? & _ & ?)]%bind_inv; [|done]. revert Ho.
    intros [(? & ? & _ & Ho)|(? & _ & ?)]%bind_inv; [|done]. revert Ho.
    intros [(? & ? & _ & Ho)|(? & _ & ?)]%bind_inv; [|done]. by inversion Ho. }
  revert Ho. intros [(alive & w4 & Ha & Ho)|(e & _ & ?)]%bind_inv; [|done].
  pose proof (pres_alive watch_frame w3) as Hw4. rewrite Ha in Hw4. simpl in Hw4.
  unfold watch_frame in *.
  assert (H4 : supp w4 = supp w) by (unfold supp in *; congruence).
  revert Ho. unfold watch. erewrite bind_ok by reflexivity. fold (supp w4). rewrite H4.
  destruct alive; cbn [andb]; [destruct (Z.ltb_spec (supp w) (cfg_max_suppress_ticks cfg)) as [Hlt|]|].
  - erewrite bind_ok by reflexivity. set (w5 := set_watch _ w4).
    assert (H5 : supp w5 = supp w + 1) by (by destruct w4).
    intros [([] & w6 & He & Ho)|(e & _ & ?)]%bind_inv; [|done].
    pose proof (pres_emit watch_frame JANUS WARN ("video_age_ms=" ++ fmt age) NONE
      "suppressed_local_alive" [] w5) as Hw6. unfold watch_frame in Hw6.
    rewrite He in Hw6. simpl in Hw6. inversion Ho; subst.
    right; right; left. split_and!; [done|done|]. unfold supp in *. congruence.
  - erewrite bind_ok by reflexivity.
    intros [(b & w6 & He & Ho)|(e & _ & ?)]%bind_inv; [|done]. inversion Ho; eauto 6.
  - erewrite bind_ok by reflexivity.
    intros [(b & w6 & He & Ho)|(e & _ & ?)]%bind_inv; [|done]. inversion Ho; eauto 6.
Qed.

Lemma healthy_branch_outcome w o w' : healthy_branch w = (Ok o, w') → ∃ b, o = OHealthy b.
Proof.
  unfold healthy_branch. do 4 (erewrite bind_ok by reflexivity).
  destruct (_ <=? _); [|intros [= <- _]; eauto].
  intros [(? & ? & _ & Ho)|(? & _ & ?)]%bind_inv; [|done]. revert Ho.
  intros [(? & ? & _ & Ho)|(? & _ & ?)]%bind_inv; [|done]. revert Ho.
  intros [(? & ? & _ & Ho)|(? & _ & ?)]%bind_inv; [|done]. inversion Ho; eauto.
Qed.

Lemma error_branch_outcome w o w' :
  error_branch w = (Ok o, w') → o = OErrorInGrace ∨ o = ORetrySucceeded.
Proof.
  unfold error_branch. erewrite bind_ok by reflexivity.
  intros [(g & w1 & _ & Ho)|(? & _ & ?)]%bind_inv; [|done].
  destruct g; [left; by inversion Ho|right]. revert Ho. unfold try_except.
  assert (Ht : total (_ ← janus_summary (cfg_janus_mount_id cfg); mret ORetrySucceeded))
    by (apply total_bind; [apply janus_summary_total|done]).
  specialize (Ht w1). unfold mbind, M_bind in *.
  destruct (janus_summary _ w1) as [[s|e] w2]; [|done]. by intros [= <- _].
Qed.

Lemma tick_suppressed w w' :
  janus_watchdog_tick w = (Ok OSuppressed, w') →
  supp w < cfg_max_suppress_ticks cfg ∧ supp w' = supp w + 1.
Proof.
  unfold janus_watchdog_tick, try_except.
  assert (Hs : ∃ s w1, janus_summary (cfg_janus_mount_id cfg) w = (Ok s, w1) ∧ supp w1 = supp w).
  { pose proof (janus_summary_total (cfg_janus_mount_id cfg) w) as Ht.
    pose proof (pres_janus_summary watch_frame (cfg_janus_mount_id cfg) w) as Hw.
    unfold watch_frame in Hw. unfold supp.
    destruct (janus_summary _ w) as [[s|e] w1]; [|done]. simpl in Hw. rewrite <- Hw. eauto. }
  destruct Hs as (s & w1 & Hs & H1). erewrite bind_ok by exact Hs. cbn zeta.
  destruct (age_fresh _ _).
  - destruct (healthy_branch w1) as [[o|e] w2] eqn:Hb.
    + apply healthy_branch_outcome in Hb as [b ->]. done.
    + destruct (instance_of (ex_kind e) CException); [|done].
      intros Hb2. apply error_branch_outcome in Hb2. naive_solver.
  - destruct (stale_branch _ w1) as [[o|e] w2] eqn:Hb.
    + intros [= -> ->]. apply stale_branch_outcome in Hb. rewrite <- H1. naive_solver.
    + destruct (instance_of (ex_kind e) CException); [|done].
      intros Hb2. apply error_branch_outcome in Hb2. naive_solver.
Qed.

(** Iterations of the Janus watchdog with their outcomes, with steps of the other
    threads (which never write the suppression counter) in between. *)
Inductive ticks : World → list outcome → World → Prop :=
  | ticks_nil w : ticks w [] w
  | ticks_tick w o w1 os w2 :
      janus_watchdog_tick w = (Ok o, w1) → ticks w1 os w2 → ticks w (o :: os) w2
  | ticks_other w w1 os w2 : supp w1 = supp w → ticks w1 os w2 → ticks w os w2.

Lemma suppressed_run w w' k :
  ticks w (replicate k OSuppressed) w' → Z.of_nat k ≤ Z.max 0 (cfg_max_suppress_ticks cfg - supp w).
Proof.
  remember (replicate k OSuppressed) as os eqn:Hos. intros Ht. revert k Hos.
  induction Ht as [w|w o w1 os w2 Htick _ IH|w w1 os w2 Heq _ IH]; intros k Hos.
  - destruct k; [lia|done].
  - destruct k as [|k]; [done|]. injection Hos as -> Hos.
    apply tick_suppressed in Htick as [Hlt Hs]. specialize (IH k Hos). lia.
  - specialize (IH k Hos). lia.
Qed.

(** C29. The suppression budget: while the stream stays stale outside the grace period,
    no more than [WATCHDOG_MAX_SUPPRESS_TICKS] consecutive iterations are suppressed
    because the local pipeline looks alive; the next one tries to escalate, so a
    wedged Janus is eventually acted upon. *)
Theorem suppression_bounded w os w' :
  0 ≤ supp w → 0 ≤ cfg_max_suppress_ticks cfg → ticks w os w' →
  Forall (λ o, o = OSuppressed ∨ ∃ b, o = OTriedEscalation b) os →
  cfg_max_suppress_ticks cfg < Z.of_nat (length os) →
  ∃ b, OTriedEscalation b ∈ os.
Proof.
  intros H0 Hm Ht Hos Hlen.
  assert (Hall : Forall (λ o, o = OSuppressed) os ∨ ∃ b, OTriedEscalation b ∈ os).
  { clear Ht Hlen. induction Hos as [|o os [->|[b ->]] _ IH]; [by left| |].
    - destruct IH as [IH|[b Hb]]; [left; by constructor|right; exists b; set_solver].
    - right. exists b. set_solver. }
  destruct Hall as [Hall|Hb]; [|done].
  assert (os = replicate (length os) OSuppressed) as Heq.
  { clear -Hall. induction Hall as [|o os -> _ IH]; simpl; [done|by f_equal]. }
  rewrite Heq in Ht. apply suppressed_run in Ht. lia.
Qed.

(** Recovery to nominal: an iteration that finds the stream fresh never escalates;
    it runs no command and leaves the ladder and the mode alone until the healthy
    streak reaches [WATCHDOG_NOMINAL_CHECKS], and then resets the ladder and
    promotes the mode to NOMINAL. *)
Theorem healthy_tick w s w1 :
  janus_summary (cfg_janus_mount_id cfg) w = (Ok s, w1) →
  age_fresh (cfg_watchdog_stale_ms cfg) (video_age_ms s) = true →
  let due := cfg_nominal_checks cfg <=? wd_healthy_streak (w_watch w) + 1 in
  let '(r, w') := janus_watchdog_tick w in
  ∀ o, r = Ok o → o ≠ ORetrySucceeded → o ≠ OErrorInGrace →
  o = OHealthy due ∧
  if due then w_ladder w' = reset_ladder (w_ladder w) ∧ ms_current (w_mode w') = NOMINAL
  else w_ladder w' = w_ladder w ∧ w_mode w' = w_mode w ∧ w_commands w' = w_commands w.
Proof.
  intros Hs Hfresh. cbn zeta. unfold janus_watchdog_tick, try_except.
  erewrite bind_ok by exact Hs. cbn zeta. rewrite Hfresh.
  pose proof (pres_janus_summary observable_only (cfg_janus_mount_id cfg) w) as Ho.
  pose proof (cmds_janus_summary (cfg_janus_mount_id cfg) w) as Hc. unfold keeps in Hc.
  rewrite Hs in Ho, Hc. simpl in Ho, Hc.
  destruct Ho as (Hm & _ & Hl & _ & _ & _ & _ & _ & _ & Hw & _).
  destruct (healthy_branch w1) as [[o|e] w2] eqn:Hb.
  2: { destruct (instance_of (ex_kind e) CException); [|done].
       destruct (error_branch w2) as [[o'|e'] w3] eqn:He; [|done].
       apply error_branch_outcome in He. intros o'' [= ->]. naive_solver. }
  intros o' [= ->] _ _. revert Hb. unfold healthy_branch.
  do 4 (erewrite bind_ok by reflexivity).
  set (w3 := (upd_watch (λ x, set_streak (wd_healthy_streak x + 1) x)
    (upd_watch (set_suppressions 0) (upd_watch (set_first_healthy true) w1).2).2).2).
  match goal with |- context [ (if cfg_nominal_checks cfg <=? wd_healthy_streak (w_watch ?w0) then _ else _) _ ] =>
    change w0 with w3 end.
  assert (H3 : w_ladder w3 = w_ladder w ∧ w_mode w3 = w_mode w ∧ w_commands w3 = w_commands w ∧
               wd_healthy_streak (w_watch w3) = wd_healthy_streak (w_watch w) + 1).
  { rewrite <- Hl, <- Hm, <- Hc, <- Hw. by destruct w1. }
  destruct H3 as (Hl3 & Hm3 & Hc3 & ->).
  destruct (cfg_nominal_checks cfg <=? wd_healthy_streak (w_watch w) + 1).
  - intros [([] & w4 & Hr & Hb)|(e & _ & ?)]%bind_inv; [|done]. revert Hb.
    intros [(b & w5 & Hp & Hb)|(e & _ & ?)]%bind_inv; [|done]. revert Hb.
    erewrite bind_ok by reflexivity. intros [= <- <-]. split; [done|].
    pose proof (ladder_reset_ladder w3) as Hlr. rewrite Hr in Hlr. simpl in Hlr.
    pose proof (run_mode_call_mode (CallPromote NOMINAL) "stream healthy for sustained window" w4) as Hmp.
    pose proof (pres_promote (keeps w_ladder) NOMINAL "stream healthy for sustained window" w4) as Hlp.
    cbn [run_mode_call] in Hmp. unfold keeps in Hlp. rewrite Hp in Hmp, Hlp. simpl in Hmp, Hlp.
    split.
    + rewrite <- Hl3, <- Hlr, <- Hlp. by destruct w5.
    + assert (w_mode (set_watch (set_streak (cfg_nominal_checks cfg) (w_watch w5)) w5) = w_mode w5)
        as -> by (by destruct w5). rewrite Hmp. by destruct (ms_current (w_mode w4)).
  - intros [= <- <-]. done.
Qed.
End suppression.

(** ** Witnesses *)
Lemma fdir_keeps_ladder_ok_witness :
  ladder_ok color_cfgs
    (w_ladder (snapshot_watchdog_tick (E:=live_env) (janus_watchdog_tick (E:=live_env) sample_world).2).2).
Proof.
  apply (fdir_keeps_ladder_ok (E:=live_env) _ sample_world); [exact sample_ladder_ok|].
  eapply run_step; [eapply run_step; [apply run_refl|apply step_janus]|apply step_snapshot].
Defined.

(** A mountpoint 99999 ms old, and a snapshot written at every reading. *)
Definition stale_env : Env :=
  mkEnv (sample_settings false) (mono (Env:=live_env)) (wall (Env:=live_env)) cli_success
    (λ _ _, Ok (JObj [("data", JObj [("info", JObj [("id", JInt 1305);
                        ("media", JArr [JObj [("age_ms", JInt 99999)]])])])]%string))
    (λ n, Ok (inject_Z (1700000000 + Z.of_nat n - 1))) no_fault (λ _, "0.5"%string) (λ _, 200).

Definition six_ticks : list outcome := replicate 5 OSuppressed ++ [OTriedEscalation true].

Fixpoint tick_times (n : nat) (w : World) : World :=
  match n with
  | O => w
  | S n => tick_times n (janus_watchdog_tick (E:=stale_env) w).2
  end.

Lemma suppression_bounded_witness : ∃ b, OTriedEscalation b ∈ six_ticks.
Proof.
  apply (suppression_bounded (E:=stale_env) sample_world six_ticks (tick_times 6 sample_world)).
  - vm_compute. discriminate.
  - vm_compute. discriminate.
  - do 6 (eapply ticks_tick; [vm_compute; reflexivity|]).
    match goal with |- ticks ?x [] ?y => replace y with x by (vm_compute; reflexivity) end.
    apply ticks_nil.
  - unfold six_ticks. simpl. repeat (apply Forall_cons; split; [eauto|]). apply Forall_nil. exact I.
  - vm_compute. reflexivity.
Defined.

Definition streaky_world : World :=
  set_watch (set_streak 9 (w_watch sample_world)) exhausted_world.

Lemma healthy_tick_witness :
  let r := janus_watchdog_tick (E:=live_env) streaky_world in
  r.1 = Ok (OHealthy true) ∧ w_ladder r.2 = reset_ladder (w_ladder streaky_world).
Proof.
  assert (Hr : (janus_watchdog_tick (E:=live_env) streaky_world).1 = Ok (OHealthy true))
    by (vm_compute; reflexivity).
  assert (Hs : janus_summary (E:=live_env) 1305 streaky_world =
    (Ok match (janus_summary (E:=live_env) 1305 streaky_world).1 with Ok s => s | Raise _ => JNull end,
     (janus_summary (E:=live_env) 1305 streaky_world).2)) by (vm_compute; reflexivity).
  pose proof (healthy_tick (E:=live_env) streaky_world _ _ Hs eq_refl) as Ht. cbv zeta in *.
  destruct (janus_watchdog_tick _) as [r w']. simpl in *. subst r.
  destruct (Ht _ eq_refl) as [_ H]; [discriminate|discriminate|].
  split; [reflexivity|]. exact (proj1 H).
Defined.
