(* ===== verification/Thermal.v ===== *)
(** * The thermal monitor ([app/services/thermal.py])

    One iteration of the monitor's loop. The profile is the loop's local variable; the
    contents of the thermal zone file are an argument, one per iteration. *)
From S2P Require Import Prelude.
From S2P Require Import PyVal.
From S2P Require Import FileStore.
From S2P Require Import FdirEvents.
From S2P Require Import LadderPolicy.
From S2P Require Import World.
From S2P Require Import SystemMode.
From S2P Require Import ModeEnforcer.
From S2P Require Import Quiesce.
From S2P Require Import Persistence.
From S2P Require Import JanusSummary.
From S2P Require Import Executor.
From S2P Require Import Ladder.
From S2P Require Import Watchdogs.

Definition WARN_C : Q := 70.
Definition CRIT_C : Q := 80.
Definition RESUME_C : Q := 65.

Inductive profile := PROFILE_NORMAL | PROFILE_LOW | PROFILE_STOP.

#[export] Instance profile_eq_dec : EqDecision profile.
Proof. solve_decision. Defined.

Definition profile_value (p : profile) : string :=
  match p with PROFILE_NORMAL => "normal" | PROFILE_LOW => "low" | PROFILE_STOP => "stop" end.

(** [int(raw) / 1000.0]; every failure reads as no temperature. *)
Definition read_cpu_temp (zone : count_file) : option Q :=
  match zone with
  | CfText s => match parse_int s with Some n => Some (inject_Z n / 1000)%Q | None => None end
  | _ => None
  end.

(** [f"{temp:.0f}"] and [f"{temp:.1f}"] *)
Definition fmt0 (q : Q) : string := pretty (round_half_even q).
Definition fmt1 (q : Q) : string :=
  let t := Z.abs (round_half_even (q * 10)) in
  ((if Qltb q 0 then "-" else EmptyString) ++ pretty (t / 10) ++ "." ++ pretty (t mod 10))%string.

Section ops.
Context {E : Env} `{!ModeListener}.

Definition set_fps_profile (p : profile) : M World unit :=
  try_except
    (on_file w_profile_file set_profile_file
       (system_write_text (Text (TxRaw (profile_value p ++ newline)))))
    CException (fun _ => mret tt).

(** One iteration of [_thermal_loop]; returns the new [current_profile]. *)
Definition thermal_step (zone : count_file) (current_profile : profile) : M World profile :=
  match read_cpu_temp zone with
  | None => mret current_profile
  | Some temp =>
      if Qle_bool CRIT_C temp && negb (bool_decide (current_profile = PROFILE_STOP)) then
        set_fps_profile PROFILE_STOP ;;
        transition SAFE ("thermal_critical_" ++ fmt0 temp ++ "C") ;;
        emit SYSTEM CRITICAL ("cpu_temp=" ++ fmt1 temp ++ "C") DEGRADE_PROFILE
          ("pipeline stopped (thermal critical " ++ fmt1 temp ++ "°C)") [] ;;
        mret PROFILE_STOP
      else if Qle_bool WARN_C temp && bool_decide (current_profile = PROFILE_NORMAL) then
        set_fps_profile PROFILE_LOW ;;
        degrade ("thermal_warn_" ++ fmt0 temp ++ "C") ;;
        emit SYSTEM WARN ("cpu_temp=" ++ fmt1 temp ++ "C") DEGRADE_PROFILE
          ("switched to low FPS profile (thermal warn " ++ fmt1 temp ++ "°C)") [] ;;
        mret PROFILE_LOW
      else if Qle_bool temp RESUME_C && negb (bool_decide (current_profile = PROFILE_NORMAL)) then
        set_fps_profile PROFILE_NORMAL ;;
        promote NOMINAL ("thermal_resume_" ++ fmt0 temp ++ "C") ;;
        emit SYSTEM INFO ("cpu_temp=" ++ fmt1 temp ++ "C") NONE
          ("resumed normal FPS (thermal cool " ++ fmt1 temp ++ "°C)") [] ;;
        mret PROFILE_NORMAL
      else mret current_profile
  end.
End ops.

(** ** The hysteresis *)
Definition next_profile (temp : Q) (p : profile) : profile :=
  if Qle_bool CRIT_C temp then PROFILE_STOP
  else if Qle_bool WARN_C temp then match p with PROFILE_NORMAL => PROFILE_LOW | _ => p end
  else if Qle_bool temp RESUME_C then PROFILE_NORMAL
  else p.

(** The mode the change of profile asks for. *)
Definition thermal_mode (p p' : profile) (m : SystemMode) : SystemMode :=
  if decide (p = p') then m
  else match p' with
       | PROFILE_STOP => SAFE
       | PROFILE_LOW => next_mode CallDegrade m
       | PROFILE_NORMAL => NOMINAL
       end.

Section spec.
Context {E : Env} `{!ModeListener}.

Lemma set_fps_profile_ok p w :
  ∃ w', set_fps_profile p w = (Ok tt, w') ∧ w_mode w' = w_mode w.
Proof.
  unfold set_fps_profile, try_except, on_file, zoom, mbind, M_bind. destruct w. simpl.
  rewrite system_write_refines. unfold write_spec. simpl.
  destruct (write_faults _ _); simpl; by eexists.
Qed.

(** A change of profile: the file is written, then the mode moves, then one event. *)
Lemma change_profile p (c : mode_call) (m : M World unit) reason d s sig a o (p0 : profile) w r w' :
  (∀ w0, (m w0).2 = (run_mode_call c reason w0).2) →
  (set_fps_profile p ;; m ;; emit d s sig a o [] ;; mret p0) w = (r, w') →
  ms_current (w_mode w') = next_mode c (ms_current (w_mode w)) ∧ (∀ x, r = Ok x → x = p0).
Proof.
  intros Hm. destruct (set_fps_profile_ok p w) as (w1 & Hp & Hw1).
  erewrite bind_ok by exact Hp. unfold mbind, M_bind.
  pose proof (run_mode_call_mode c reason w1) as Hmode. rewrite <- Hm, Hw1 in Hmode.
  destruct (m w1) as [[u|e] w2]; simpl in Hmode.
  - pose proof (pres_emit observable_only d s sig a o [] w2) as Ho.
    destruct (emit _ _ _ _ _ _ w2) as [[u'|e] w3]; simpl in Ho; destruct Ho as (Ho & _);
      intros [= <- <-]; rewrite Ho; (split; [done|]); [by intros x [= <-]|done].
  - intros [= <- <-]. done.
Qed.

Lemma mode_call_snd c reason w (m : M World bool) :
  m = run_mode_call c reason → ((m ;; mret tt) w).2 = (run_mode_call c reason w).2.
Proof. intros ->. unfold mbind, M_bind. by destruct (run_mode_call c reason w) as [[]]. Qed.

(** The thermal hysteresis: one iteration moves the profile as the three thresholds
    prescribe (stop at 80 °C, low at 70 °C from normal only, back to normal only at
    65 °C or below) and the mode with it: SAFE when stopping, one step down when
    warming, NOMINAL on resuming; without a change of profile nothing happens. *)
Theorem thermal_step_spec zone p w temp :
  read_cpu_temp zone = Some temp →
  let '(r, w') := thermal_step zone p w in
  let p' := next_profile temp p in
  ms_current (w_mode w') = thermal_mode p p' (ms_current (w_mode w)) ∧
  (p = p' → r = Ok p ∧ w' = w) ∧ (∀ x, r = Ok x → x = p').
Proof.
  intros Ht. unfold thermal_step. rewrite Ht.
  destruct (_ w) as [r w'] eqn:Hrun. revert Hrun. unfold next_profile, thermal_mode.
  assert (Hseq : ∀ (m : M World bool) (k : M World profile) w0,
    (m ;; k) w0 = ((m ;; mret tt) ;; k) w0).
  { intros m k w0. unfold mbind, M_bind. by destruct (m w0) as [[]]. }
  assert (Hmode : ∀ p1 c (m : M World bool) reason d s sig a o p0,
    m = run_mode_call c reason →
    (set_fps_profile p1 ;; m ;; emit d s sig a o [] ;; mret p0) w = (r, w') →
    ms_current (w_mode w') = next_mode c (ms_current (w_mode w)) ∧ (∀ x, r = Ok x → x = p0)).
  { intros p1 c m reason d s sig a o p0 Hm Hrun.
    apply (change_profile p1 c (m ;; mret tt) reason d s sig a o p0 w); [by intros; apply mode_call_snd|].
    rewrite <- Hrun. destruct (set_fps_profile_ok p1 w) as (w1 & Hp & _).
    rewrite !(bind_ok _ _ _ _ _ Hp). symmetry. apply Hseq. }
  destruct (Qle_bool CRIT_C temp) eqn:Hc; [destruct (decide (p = PROFILE_STOP)) as [->|Hp]|].
  - cbn [negb andb bool_decide]. rewrite bool_decide_true by done. cbn [negb andb].
    rewrite bool_decide_false by done. rewrite andb_false_r.
    apply Qle_bool_iff in Hc.
    assert (Qle_bool temp RESUME_C = false) as ->.
    { apply not_true_iff_false. rewrite Qle_bool_iff. unfold CRIT_C, RESUME_C in *. lra. }
    cbn. intros [= <- <-]. by split_and!; [..|intros x [= <-]].
  - rewrite bool_decide_false by done. cbn [negb andb].
    intros [H1 H2]%(Hmode _ (CallTransition SAFE) _ _ _ _ _ _ _ _ eq_refl).
    split_and!; [done|intros ->; done|done].
  - cbn [andb]. destruct (Qle_bool WARN_C temp) eqn:Hw; cbn [andb].
    + apply Qle_bool_iff in Hw.
      assert (Qle_bool temp RESUME_C = false) as ->.
      { apply not_true_iff_false. rewrite Qle_bool_iff. unfold WARN_C, RESUME_C in *. lra. }
      destruct p; rewrite ?bool_decide_true, ?bool_decide_false by done; cbn [andb].
      * intros Hrun. rewrite decide_False by done.
        assert (Hd : ∀ reason (w0 : World), (degrade reason w0).2 = (run_mode_call CallDegrade reason w0).2).
        { intros reason w0. cbn [run_mode_call]. unfold mbind, M_bind. simpl.
          by destruct (degrade reason w0) as [[]]. }
        apply (change_profile _ CallDegrade _ _ _ _ _ _ _ _ _ _ _ (Hd _)) in Hrun as [H1 H2].
        split_and!; done.
      * intros [= <- <-]. rewrite decide_True by done. by split_and!; [..|intros x [= <-]].
      * intros [= <- <-]. rewrite decide_True by done. by split_and!; [..|intros x [= <-]].
    + destruct (Qle_bool temp RESUME_C); cbn [andb].
      * destruct p; rewrite ?bool_decide_true, ?bool_decide_false by done; cbn [negb];
          [intros [= <- <-]; by split_and!; [..|intros x [= <-]]|..];
          intros [H1 H2]%(Hmode _ (CallPromote NOMINAL) _ _ _ _ _ _ _ _ eq_refl);
          rewrite decide_False by done; (split_and!; [|done|done]);
          rewrite H1; by destruct (ms_current (w_mode w)).
      * intros [= <- <-]. rewrite decide_True by done. by split_and!; [..|intros x [= <-]].
Qed.

(** Once it has stopped the pipeline, the monitor does not act again before the
    temperature falls to 65 °C, whatever the mode has become in the meantime. *)
Lemma stop_not_reasserted zone temp w :
  read_cpu_temp zone = Some temp → (RESUME_C < temp)%Q →
  thermal_step zone PROFILE_STOP w = (Ok PROFILE_STOP, w).
Proof.
  intros Ht Hhot. unfold thermal_step. rewrite Ht.
  rewrite bool_decide_true by done. cbn [negb]. rewrite andb_false_r.
  rewrite bool_decide_false by done. rewrite andb_false_r.
  assert (Qle_bool temp RESUME_C = false) as ->; [|done].
  apply not_true_iff_false. rewrite Qle_bool_iff. by apply Qlt_not_le.
Qed.
End spec.

Definition zone_at (celsius : Z) : count_file := CfText (count_text (celsius * 1000)).

Lemma thermal_step_spec_witness :
  ms_current (w_mode (thermal_step (E:=live_env) (zone_at 85) PROFILE_LOW sample_world).2) = SAFE.
Proof.
  pose proof (thermal_step_spec (E:=live_env) (zone_at 85) PROFILE_LOW sample_world
    (inject_Z 85000 / 1000) ltac:(vm_compute; reflexivity)) as H.
  destruct (thermal_step _ _ _) as [r w']. exact (proj1 H).
Defined.

(** The gateway of [stale_env] whose encoder is down from the [k]-th interaction on, until
    it is started. *)
Definition stopped_env (k : nat) : Env :=
  mkEnv (cfg (Env:=stale_env)) (mono (Env:=stale_env)) (wall (Env:=stale_env))
    (λ n _, CliDone 0 (TxDoc (JObj [("active", JBool (n <? k)%nat)]%string)) EmptyString)
    (janus_info (Env:=stale_env)) (snapshot_mtime (Env:=stale_env)) no_fault (λ _, "0.5"%string) (λ _, 200).

(** The SAFE auto-reset of the watchdog undoes a thermal stop: at a constant 95 °C, the
    monitor stops the pipeline; the stopped stream is stale, so after 300 s the Janus
    watchdog promotes the mode to NOMINAL and the encoder is started again; the
    monitor, still at PROFILE_STOP, never stops it a second time. *)
Example thermal_stop_is_undone :
  let E := stopped_env 12 in
  let w1 := (thermal_step (zone_at 95) PROFILE_NORMAL sample_world).2 in
  let w2 := (janus_watchdog_tick w1).2 in
  let r3 := thermal_step (zone_at 95) PROFILE_STOP w2 in
  ms_current (w_mode w1) = SAFE ∧
  (janus_watchdog_tick w1).1 = Ok OSafeAutoReset ∧
  ms_current (w_mode w2) = NOMINAL ∧ r3 = (Ok PROFILE_STOP, w2) ∧
  map cm_argv (w_commands w2)
  = [encoder_admin "status"; encoder_admin "stop"; encoder_admin "status";
     encoder_admin "status"; encoder_admin "start"; encoder_admin "status"]%string.
Proof. vm_compute. split_and!; reflexivity. Qed.
