(* ===== verification/Allocator.v ===== *)
(** * Mountpoint and RTP port allocator ([app/services/mountpoint_allocator.py])

    The state file maps ["serial:sensor"] to a record [{mp_id, rtp_port,
    desired_active}]; every mutation runs under [_flock_state], which loads the
    file (recovering from corruption), runs the mutation on the decoded dict and
    writes it back. The second half states the abstract specification (a finite
    map of allocations and a step relation on it) and proves that the mutations
    implement it. *)
From S2P Require Import Prelude.
From S2P Require Import PyVal.
From S2P Require Import FileStore.

(** ** Constants and data *)
Definition MP_ID_MIN : Z := 1306.
Definition MP_ID_MAX : Z := 1999.
Definition PORT_MIN : Z := 5006.
Definition PORT_MAX : Z := 5099.
Definition LOCAL_SERIAL : string := "local".
Definition COLOR_MP_ID : Z := 1305.
Definition COLOR_RTP_PORT : Z := 5004.

Record Allocation := mkAllocation {
  mp_id : Z;
  rtp_port : Z;
  desired_active : bool;
}.

Definition allocation_to_dict (a : Allocation) : json :=
  JObj [("mp_id", JInt (mp_id a)); ("rtp_port", JInt (rtp_port a));
        ("desired_active", JBool (desired_active a))]%string.

Definition allocation_from_raw (raw : json) : res Allocation :=
  mp ← getitem raw "mp_id"; mp ← to_int mp;
  port ← getitem raw "rtp_port"; port ← to_int port;
  act ← jget raw "desired_active" (JBool false);
  mret (mkAllocation mp port (truthy act)).

Definition key_of (serial sensor : string) : string := (serial ++ ":" ++ sensor)%string.

(** [_alloc_map]: the allocations dict, or the empty one for any corrupt shape. *)
Definition alloc_map (state : json) : dict json :=
  match state with
  | JObj d => match dget d "allocations" with Some (JObj a) => a | _ => [] end
  | _ => []
  end.

(** ** Loading and locking *)

(** The text of the file as the mutation path sees it. *)
Definition read_for_write : M file json :=
  f ← get;
  if exists_ (f_content f) then
    raw ← try_except (lift (read_text (f_content f))) COSError (fun _ => throw EAllocation);
    if blank raw then mret (JObj [])
    else try_except (lift (json_loads raw)) CJsonDecode
           (fun _ => quarantine_corrupt ;; mret (JObj []))
  else mret (JObj []).

Definition load_state_for_write : M file (dict json) :=
  state ← read_for_write;
  d ← match state with
      | JObj d => mret d
      | _ => quarantine_corrupt ;; mret []
      end;
  let d := if dmem d "version" then d else dset d "version" (JInt 1) in
  match dget d "allocations" with
  | Some (JObj _) => mret d
  | _ => quarantine_corrupt ;; mret (dset d "allocations" (JObj []))
  end.

(** [with _flock_state(path) as state: body]: the body's changes are written only
    if it returns; an exception leaves the file alone. *)
Definition flock_state {A} (body : M (dict json) A) : M file A :=
  sys SysMkdir ;;
  sys SysLock ;;
  d ← load_state_for_write;
  match body d with
  | (Ok a, d') => atomic_write_text (dumps (JObj d')) None ;; mret a
  | (Raise e, _) => raise e
  end.

(** [state["allocations"]], read and updated in place. *)
Definition get_allocs : M (dict json) (dict json) :=
  d ← get;
  match getitem (JObj d) "allocations" with
  | Ok (JObj a) => mret a
  | Ok _ => throw EAttribute
  | Raise e => raise e
  end.

Definition put_allocs (a : dict json) : M (dict json) unit :=
  modify (fun d => dset d "allocations" (JObj a)).

(** ** Operations *)
Fixpoint zrange (lo step : Z) (n : nat) : list Z :=
  match n with O => [] | S n' => lo :: zrange (lo + step) step n' end.

Definition zmem (x : Z) (l : list Z) : bool := existsb (Z.eqb x) l.

(** [_pick_free]: lowest free id in [1306..1999], lowest even port [p] of
    [range(5006, 5099, 2)] with [p] and [p + 1] free. *)
Definition pick_free (used_mp used_port : list Z) : res (Z * Z) :=
  match List.find (fun i => negb (zmem i used_mp))
          (zrange MP_ID_MIN 1 (Z.to_nat (MP_ID_MAX + 1 - MP_ID_MIN))) with
  | None => fail EAllocation
  | Some mp =>
      match List.find (fun p => negb (zmem p used_port) && negb (zmem (p + 1) used_port))
              (zrange PORT_MIN 2 (Z.to_nat ((PORT_MAX - PORT_MIN + 1) / 2))) with
      | None => fail EAllocation
      | Some port => Ok (mp, port)
      end
  end.

(** The ids and ports the raw records hold ([int(v["mp_id"])], [int(v["rtp_port"])]
    and its successor). *)
Fixpoint used_mps (l : list json) : res (list Z) :=
  match l with
  | [] => Ok []
  | v :: l' => x ← getitem v "mp_id"; x ← to_int x; r ← used_mps l'; Ok (x :: r)
  end.

Fixpoint used_ports (l : list json) : res (list Z) :=
  match l with
  | [] => Ok []
  | v :: l' => x ← getitem v "rtp_port"; x ← to_int x; r ← used_ports l'; Ok (x :: x + 1 :: r)
  end.

Definition allocate (serial sensor : string) : M file Allocation :=
  flock_state (
    let key := key_of serial sensor in
    a ← get_allocs;
    let existing := default JNull (dget a key) in
    if truthy existing then lift (allocation_from_raw existing)
    else
      used_mp ← lift (used_mps (dvals a));
      used_port ← lift (used_ports (dvals a));
      '(mp, port) ← lift (pick_free used_mp used_port);
      let alloc := mkAllocation mp port false in
      put_allocs (dset a key (allocation_to_dict alloc)) ;;
      mret alloc).

(** The clobber guard of [ensure]: refuse an id or a port pair another key holds. *)
Fixpoint clobber_guard (mp port : Z) (l : list json) : res unit :=
  match l with
  | [] => Ok tt
  | v :: l' =>
      o_mp ← getitem v "mp_id"; o_mp ← to_int o_mp;
      o_rtp ← getitem v "rtp_port"; o_rtp ← to_int o_rtp;
      if o_mp =? mp then fail EAllocation
      else if (port =? o_rtp) || (port =? o_rtp + 1)
              || (port + 1 =? o_rtp) || (port + 1 =? o_rtp + 1) then fail EAllocation
      else clobber_guard mp port l'
  end.

Definition ensure (serial sensor : string) (mp port : Z) : M file Allocation :=
  flock_state (
    let key := key_of serial sensor in
    a ← get_allocs;
    let existing := default JNull (dget a key) in
    if truthy existing then lift (allocation_from_raw existing)
    else
      lift (clobber_guard mp port (dvals a)) ;;
      let alloc := mkAllocation mp port false in
      put_allocs (dset a key (allocation_to_dict alloc)) ;;
      mret alloc).

Definition set_desired (serial sensor : string) (active : bool) : M file Allocation :=
  flock_state (
    let key := key_of serial sensor in
    a ← get_allocs;
    let raw := default JNull (dget a key) in
    if truthy raw then
      old ← lift (allocation_from_raw raw);
      let updated := mkAllocation (mp_id old) (rtp_port old) active in
      put_allocs (dset a key (allocation_to_dict updated)) ;;
      mret updated
    else throw EKey).

Definition release (serial sensor : string) : M file bool :=
  flock_state (
    let key := key_of serial sensor in
    a ← get_allocs;
    if dmem a key then put_allocs (ddel a key) ;; mret true else mret false).

Definition migrate_color_key (serial : string) : M file bool :=
  if String.eqb serial LOCAL_SERIAL || String.eqb serial EmptyString then mret false
  else
    let legacy := key_of LOCAL_SERIAL "color" in
    let canonical := key_of serial "color" in
    flock_state (
      a ← get_allocs;
      match dget a legacy with
      | Some v =>
          if dmem a canonical then mret false
          else put_allocs (dset (ddel a legacy) canonical v) ;; mret true
      | None => mret false
      end).

(** ** Reads *)

(** [json.load(open(path))] *)
Definition json_load (c : content) : res json := t ← read_text c; json_loads t.

(** [except (json.JSONDecodeError, OSError)] *)
Definition decode_or_os (k : exn_kind) : bool :=
  instance_of k CJsonDecode || instance_of k COSError.

Definition get_allocation (serial sensor : string) (c : content) : res (option Allocation) :=
  if exists_ c then
    match json_load c with
    | Ok state =>
        let raw := default JNull (dget (alloc_map state) (key_of serial sensor)) in
        if truthy raw then Some <$> allocation_from_raw raw else Ok None
    | Raise e => if decode_or_os (ex_kind e) then Ok None else Raise e
    end
  else Ok None.

Definition list_allocations (c : content) : res (dict Allocation) :=
  if exists_ c then
    match json_load c with
    | Ok state => decode_items allocation_from_raw (alloc_map state)
    | Raise e => if decode_or_os (ex_kind e) then Ok [] else Raise e
    end
  else Ok [].

Definition list_desired_active (c : content) : res (dict Allocation) :=
  List.filter (fun '(_, a) => desired_active a) <$> list_allocations c.

Inductive alloc_status := StOk | StMissing | StCorrupt | StIoError.

Definition classify_allocator_state (c : content) : res alloc_status :=
  if exists_ c then
    match read_text c with
    | Raise e => if instance_of (ex_kind e) COSError then Ok StIoError else Raise e
    | Ok raw =>
        if blank raw then Ok StOk
        else match json_loads raw with
             | Raise e => if instance_of (ex_kind e) CJsonDecode then Ok StCorrupt else Raise e
             | Ok (JObj d) =>
                 match dget d "allocations" with
                 | None | Some (JObj _) => Ok StOk
                 | Some _ => Ok StCorrupt
                 end
             | Ok _ => Ok StCorrupt
             end
    end
  else Ok StMissing.

(** [allocator_corruption_status]: the classification and the latest forensic copy. *)
Definition allocator_corruption_status (f : file) : res (alloc_status * option content) :=
  s ← classify_allocator_state (f_content f); Ok (s, last (f_copies f)).

(** ** Abstract specification

    The store as a finite map, and what each mutation may do to it. *)
Abbreviation amap := (gmap string Allocation).

Inductive alloc_op :=
  | OAllocate (key : string)
  | OEnsure (key : string) (mp port : Z)
  | OSetDesired (key : string) (active : bool)
  | ORelease (key : string)
  | OMigrate (legacy canonical : string).

Inductive alloc_reply := RAlloc (a : Allocation) | RBool (b : bool) | RErr (k : exn_kind).

Definition mp_used (m : amap) (x : Z) : Prop := ∃ k a, m !! k = Some a ∧ mp_id a = x.
Definition port_used (m : amap) (p : Z) : Prop :=
  ∃ k a, m !! k = Some a ∧ (p = rtp_port a ∨ p = rtp_port a + 1).

Definition free_mp (m : amap) (x : Z) : Prop :=
  MP_ID_MIN ≤ x ≤ MP_ID_MAX ∧ ¬ mp_used m x.
Definition free_port (m : amap) (p : Z) : Prop :=
  PORT_MIN ≤ p < PORT_MAX ∧ Z.even p = true ∧ ¬ port_used m p ∧ ¬ port_used m (p + 1).
Definition lowest (P : Z → Prop) (x : Z) : Prop := P x ∧ ∀ y, P y → x ≤ y.

(** The slot [(mp, port)] overlaps an entry of the map. *)
Definition clash (m : amap) (mp port : Z) : Prop :=
  mp_used m mp ∨ port_used m port ∨ port_used m (port + 1).

Inductive alloc_step (m : amap) : alloc_op → alloc_reply → amap → Prop :=
  | allocate_hit k a : m !! k = Some a → alloc_step m (OAllocate k) (RAlloc a) m
  | allocate_new k mp port :
      m !! k = None → lowest (free_mp m) mp → lowest (free_port m) port →
      let a := mkAllocation mp port false in
      alloc_step m (OAllocate k) (RAlloc a) (<[k:=a]> m)
  | allocate_full k :
      m !! k = None → (∀ x, ¬ free_mp m x) ∨ (∀ p, ¬ free_port m p) →
      alloc_step m (OAllocate k) (RErr EAllocation) m
  | ensure_hit k mp port a : m !! k = Some a → alloc_step m (OEnsure k mp port) (RAlloc a) m
  | ensure_new k mp port :
      m !! k = None → ¬ clash m mp port →
      let a := mkAllocation mp port false in
      alloc_step m (OEnsure k mp port) (RAlloc a) (<[k:=a]> m)
  | ensure_clash k mp port :
      m !! k = None → clash m mp port → alloc_step m (OEnsure k mp port) (RErr EAllocation) m
  | desired_hit k b a :
      m !! k = Some a →
      let a' := mkAllocation (mp_id a) (rtp_port a) b in
      alloc_step m (OSetDesired k b) (RAlloc a') (<[k:=a']> m)
  | desired_miss k b : m !! k = None → alloc_step m (OSetDesired k b) (RErr EKey) m
  | release_hit k : is_Some (m !! k) → alloc_step m (ORelease k) (RBool true) (delete k m)
  | release_miss k : m !! k = None → alloc_step m (ORelease k) (RBool false) m
  | migrate_moves l c a :
      m !! l = Some a → m !! c = None →
      alloc_step m (OMigrate l c) (RBool true) (<[c:=a]> (delete l m))
  | migrate_noop l c :
      m !! l = None ∨ is_Some (m !! c) → alloc_step m (OMigrate l c) (RBool false) m.

(** Running an operation of the module on the file. *)
Definition reply_of {A} (f : A → alloc_reply) (r : res A) : alloc_reply :=
  match r with Ok a => f a | Raise e => RErr (ex_kind e) end.

Inductive alloc_call :=
  | CallAllocate (serial sensor : string)
  | CallEnsure (serial sensor : string) (mp port : Z)
  | CallSetDesired (serial sensor : string) (active : bool)
  | CallRelease (serial sensor : string)
  | CallMigrate (serial : string).

Definition op_of (c : alloc_call) : option alloc_op :=
  match c with
  | CallAllocate s x => Some (OAllocate (key_of s x))
  | CallEnsure s x mp port => Some (OEnsure (key_of s x) mp port)
  | CallSetDesired s x b => Some (OSetDesired (key_of s x) b)
  | CallRelease s x => Some (ORelease (key_of s x))
  | CallMigrate s =>
      if String.eqb s LOCAL_SERIAL || String.eqb s EmptyString then None
      else Some (OMigrate (key_of LOCAL_SERIAL "color") (key_of s "color"))
  end.

Definition run_call (c : alloc_call) (f : file) : alloc_reply * file :=
  let go {A} (w : A → alloc_reply) (m : M file A) :=
    let '(r, f') := m f in (reply_of w r, f') in
  match c with
  | CallAllocate s x => go RAlloc (allocate s x)
  | CallEnsure s x mp port => go RAlloc (ensure s x mp port)
  | CallSetDesired s x b => go RAlloc (set_desired s x b)
  | CallRelease s x => go RBool (release s x)
  | CallMigrate s => go RBool (migrate_color_key s)
  end.

(** The file is readable, no system call fails, and it denotes the map [m]. *)
Record denotes (f : file) (m : amap) : Prop := {
  den_fault : f_fault f = None;
  den_readable : match f_content f with Absent | Text _ => True | _ => False end;
  den_map : ∃ d, list_allocations (f_content f) = Ok d ∧ NoDup (dkeys d) ∧ to_gmap d = m;
}.

(** Every id is held once and no two RTP/RTCP pairs overlap. *)
Definition slots_disjoint (m : amap) : Prop :=
  ∀ k1 k2 a1 a2, m !! k1 = Some a1 → m !! k2 = Some a2 → k1 ≠ k2 →
    mp_id a1 ≠ mp_id a2 ∧ 1 < Z.abs (rtp_port a1 - rtp_port a2).

(** ** The record codec *)
Lemma allocation_roundtrip a : allocation_from_raw (allocation_to_dict a) = Ok a.
Proof. by destruct a. Qed.

Lemma allocation_from_raw_sort j :
  allocation_from_raw (sort_json j) = (λ a, a) <$> allocation_from_raw j.
Proof.
  unfold allocation_from_raw, mbind, res_bind, fmap, res_fmap.
  change (JBool false) with (sort_json (JBool false)) at 1. rewrite !getitem_sort, jget_sort.
  unfold fmap, res_fmap. destruct (getitem j "mp_id") as [x|]; [|done].
  rewrite to_int_sort. destruct (to_int x); [|done].
  destruct (getitem j "rtp_port") as [y|]; [|done].
  rewrite to_int_sort. destruct (to_int y); [|done].
  destruct (jget j "desired_active" _) as [z|]; [|done]. simpl. by rewrite truthy_sort.
Qed.

Lemma allocation_from_raw_inv j a :
  allocation_from_raw j = Ok a →
  truthy j = true ∧
  (∃ x, getitem j "mp_id" = Ok x ∧ to_int x = Ok (mp_id a)) ∧
  (∃ y, getitem j "rtp_port" = Ok y ∧ to_int y = Ok (rtp_port a)).
Proof.
  unfold allocation_from_raw, mbind, res_bind.
  destruct (getitem j "mp_id") as [x|] eqn:Hx; [|done]. destruct (to_int x) eqn:Hx'; [|done].
  destruct (getitem j "rtp_port") as [y|] eqn:Hy; [|done]. destruct (to_int y) eqn:Hy'; [|done].
  destruct (jget j _ _) eqn:Hz; [|done]. intros [= <-]. simpl. split; [|split; eauto].
  destruct j as [| | | | | |d]; try discriminate Hx.
  destruct d; [discriminate Hx|done].
Qed.

(** ** The used sets and the search for a free slot *)
Section used.
Context (items : dict json) (d : dict Allocation).
Context (Hdec : decodes allocation_from_raw items d).

Lemma used_mps_spec : used_mps (dvals items) = Ok (map mp_id (dvals d)).
Proof.
  revert Hdec. clear. unfold dvals. induction 1 as [|[k v] [k' a] items d [_ Ha] _ IH]; csimpl in *; [done|].
  apply allocation_from_raw_inv in Ha as (_ & (x & Hx & Hx') & _).
  unfold mbind, res_bind. by rewrite Hx, Hx', IH.
Qed.

Lemma used_ports_spec :
  used_ports (dvals items) = Ok (flat_map (λ a, [rtp_port a; rtp_port a + 1]) (dvals d)).
Proof.
  revert Hdec. clear. unfold dvals. induction 1 as [|[k v] [k' a] items d [_ Ha] _ IH]; csimpl in *; [done|].
  apply allocation_from_raw_inv in Ha as (_ & _ & (y & Hy & Hy')).
  unfold mbind, res_bind. by rewrite Hy, Hy', IH.
Qed.

Lemma decodes_keys : dkeys items = dkeys d.
Proof.
  revert Hdec. clear. unfold dkeys. induction 1 as [|[k v] [k' a] items d [Hk Ha] _ IH]; csimpl in *; [done|]. by f_equal.
Qed.

Context (Hnd : NoDup (dkeys d)).

Lemma dvals_lookup a : In a (dvals d) ↔ ∃ k, to_gmap d !! k = Some a.
Proof.
  rewrite <- list_elem_of_In, dvals_elem. split; intros [k Hk]; exists k.
  - rewrite lookup_to_gmap. by apply dget_NoDup.
  - apply dget_elem. by rewrite <- lookup_to_gmap.
Qed.

Lemma zmem_spec x l : zmem x l = true ↔ In x l.
Proof.
  unfold zmem. rewrite existsb_exists. split; [intros (y & ? & ->%Z.eqb_eq); done|].
  intros ?. exists x. by rewrite Z.eqb_refl.
Qed.

Lemma used_mp_spec x : zmem x (map mp_id (dvals d)) = true ↔ mp_used (to_gmap d) x.
Proof.
  rewrite zmem_spec, in_map_iff. unfold mp_used. split.
  - intros (a & Hx & [k Hk]%dvals_lookup). eauto.
  - intros (k & a & Hk & Hx). exists a. split; [done|]. apply dvals_lookup. eauto.
Qed.

Lemma used_port_spec p :
  zmem p (flat_map (λ a, [rtp_port a; rtp_port a + 1]) (dvals d)) = true
  ↔ port_used (to_gmap d) p.
Proof.
  rewrite zmem_spec, in_flat_map. unfold port_used. split.
  - intros (a & [k Hk]%dvals_lookup & Hp). simpl in Hp. exists k, a. intuition.
  - intros (k & a & Hk & Hp). exists a. simpl. split; [apply dvals_lookup; eauto|intuition].
Qed.

Lemma clobber_guard_spec mp port :
  clobber_guard mp port (dvals items) = Ok tt ∧ ¬ clash (to_gmap d) mp port
  ∨ clobber_guard mp port (dvals items) = fail EAllocation ∧ clash (to_gmap d) mp port.
Proof.
  assert (clash (to_gmap d) mp port ↔ ∃ a, In a (dvals d) ∧
    (mp_id a = mp ∨ port = rtp_port a ∨ port = rtp_port a + 1
     ∨ port + 1 = rtp_port a ∨ port + 1 = rtp_port a + 1)) as Hclash.
  { unfold clash, mp_used, port_used. setoid_rewrite dvals_lookup. naive_solver. }
  rewrite Hclash. revert Hdec. clear. unfold dvals.
  induction 1 as [|[k v] [k' a] items' d' [_ Ha] _ IH]; csimpl in *.
  { left. split; [done|]. naive_solver. }
  apply allocation_from_raw_inv in Ha as (_ & (x & Hx & Hx') & (y & Hy & Hy')).
  unfold mbind, res_bind. rewrite Hx, Hx', Hy, Hy'.
  destruct (Z.eqb_spec (mp_id a) mp); [right; naive_solver|].
  destruct (_ || _ || _ || _) eqn:E.
  - right. split; [done|]. exists a. split; [auto|]. lia.
  - destruct IH as [[-> Hn]|[-> Hc]]; [left|right; naive_solver].
    split; [done|]. intros (b & [->|Hb] & Hc); [|naive_solver]. lia.
Qed.
End used.

Lemma find_zrange p lo step n :
  match List.find p (zrange lo step n) with
  | Some x => ∃ i : nat, (i < n)%nat ∧ x = lo + step * Z.of_nat i ∧ p x = true ∧
                         ∀ j : nat, (j < i)%nat → p (lo + step * Z.of_nat j) = false
  | None => ∀ j : nat, (j < n)%nat → p (lo + step * Z.of_nat j) = false
  end.
Proof.
  revert lo. induction n as [|n IH]; intros lo; simpl; [lia|].
  destruct (p lo) eqn:Hp.
  { exists O. rewrite Z.mul_0_r, Z.add_0_r. repeat split; auto with lia. }
  assert (∀ j, lo + step + step * Z.of_nat j = lo + step * Z.of_nat (S j)) as Heq by lia.
  specialize (IH (lo + step)). destruct (List.find _ _) as [x|].
  - destruct IH as (i & Hi & -> & Hx & Hj). exists (S i).
    rewrite Heq in *. repeat split; [lia|done|].
    intros [|j] ?; [by rewrite Z.mul_0_r, Z.add_0_r|]. rewrite <- Heq. apply Hj. lia.
  - intros [|j] ?; [by rewrite Z.mul_0_r, Z.add_0_r|]. rewrite <- Heq. apply IH. lia.
Qed.

(** The port candidates are exactly the even numbers of the pool. *)
Lemma port_candidate p :
  PORT_MIN ≤ p < PORT_MAX → Z.even p = true →
  ∃ j : nat, (j < Z.to_nat ((PORT_MAX - PORT_MIN + 1) / 2))%nat ∧ p = PORT_MIN + 2 * Z.of_nat j.
Proof.
  intros Hp Hev. apply Z.even_spec in Hev as [q ->]. unfold PORT_MIN, PORT_MAX in *.
  change (Z.to_nat ((5099 - 5006 + 1) / 2)) with 47%nat. exists (Z.to_nat (q - 2503)). lia.
Qed.

Lemma pick_free_spec items d :
  decodes allocation_from_raw items d → NoDup (dkeys d) →
  let m := to_gmap d in
  match pick_free (map mp_id (dvals d)) (flat_map (λ a, [rtp_port a; rtp_port a + 1]) (dvals d)) with
  | Ok (mp, port) => lowest (free_mp m) mp ∧ lowest (free_port m) port
  | Raise e => ex_kind e = EAllocation ∧ ((∀ x, ¬ free_mp m x) ∨ (∀ p, ¬ free_port m p))
  end.
Proof.
  intros Hdec Hnd m. unfold pick_free. set (used_mp := map _ _). set (used_port := flat_map _ _).
  assert (∀ x, negb (zmem x used_mp) = true ↔ ¬ mp_used m x) as Hm.
  { intros x. rewrite negb_true_iff, <- not_true_iff_false. unfold used_mp, m.
    by rewrite used_mp_spec. }
  assert (∀ x, negb (zmem x used_port) = true ↔ ¬ port_used m x) as Hq.
  { intros x. rewrite negb_true_iff, <- not_true_iff_false. unfold used_port, m.
    by rewrite used_port_spec. }
  pose proof (find_zrange (λ i, negb (zmem i used_mp)) MP_ID_MIN 1
                (Z.to_nat (MP_ID_MAX + 1 - MP_ID_MIN))) as Hmp.
  destruct (List.find _ _) as [mp|].
  - destruct Hmp as (i & Hi & -> & Hfree & Hlow).
    pose proof (find_zrange (λ p, negb (zmem p used_port) && negb (zmem (p + 1) used_port))
                  PORT_MIN 2 (Z.to_nat ((PORT_MAX - PORT_MIN + 1) / 2))) as Hport.
    destruct (List.find _ _) as [port|].
    + destruct Hport as (j & Hj & -> & Hpf & Hpl).
      apply andb_true_iff in Hpf as [Hp1 Hp2]. unfold lowest, free_mp, free_port.
      change (Z.to_nat ((PORT_MAX - PORT_MIN + 1) / 2)) with 47%nat in Hj.
      repeat split; try (unfold MP_ID_MIN, MP_ID_MAX, PORT_MIN, PORT_MAX in *; lia);
        try (by apply Hm); try (by apply Hq).
      * intros y [Hy Hny]. destruct (Z.le_gt_cases (MP_ID_MIN + 1 * Z.of_nat i) y); [done|].
        apply Hm in Hny. specialize (Hlow (Z.to_nat (y - MP_ID_MIN)) ltac:(lia)). simpl in Hlow.
        replace (MP_ID_MIN + 1 * _) with y in Hlow by lia. congruence.
      * rewrite Z.even_add, Z.even_mul. done.
      * intros p (Hp & Hev & Hn1 & Hn2). destruct (port_candidate p Hp Hev) as (j' & Hj' & ->).
        destruct (Nat.le_gt_cases j j'); [lia|].
        specialize (Hpl j' ltac:(lia)). simpl in Hpl.
        apply Hq in Hn1, Hn2. by rewrite Hn1, Hn2 in Hpl.
    + split; [done|]. right. intros p (Hp & Hev & Hn1 & Hn2).
      destruct (port_candidate p Hp Hev) as (j' & Hj' & ->).
      specialize (Hport j' Hj'). simpl in Hport.
      apply Hq in Hn1, Hn2. by rewrite Hn1, Hn2 in Hport.
  - split; [done|]. left. intros x [Hx Hnx]. apply Hm in Hnx.
    specialize (Hmp (Z.to_nat (x - MP_ID_MIN)) ltac:(lia)). simpl in Hmp.
    replace (MP_ID_MIN + 1 * _) with x in Hmp by lia. congruence.
Qed.

(** ** The mutations implement the specification *)
Lemma load_state_spec f m :
  denotes f m →
  ∃ st f1 items d,
    load_state_for_write f = (Ok st, f1) ∧ f_fault f1 = None ∧ f_content f1 = f_content f ∧
    dget st "allocations" = Some (JObj items) ∧
    decodes allocation_from_raw items d ∧ NoDup (dkeys d) ∧ to_gmap d = m.
Proof.
  intros [Hf Hr (d & Hl & Hnd & Hm)].
  assert (∀ f : file, f_fault f = None →
    ∃ o f1, quarantine_corrupt f = (Ok o, f1) ∧ f_fault f1 = None ∧ f_content f1 = f_content f)
    as Hq.
  { intros g Hg. destruct (quarantine_corrupt g) as [r g1] eqn:E.
    destruct (quarantine_content _ _ _ E) as (Hc & _ & Hg1 & Hok).
    destruct r as [o|]; [|done]. exists o, g1. by rewrite Hg1. }
  destruct (Hq f Hf) as (o & f1 & Hq1 & Hf1 & Hc1).
  destruct (Hq f1 Hf1) as (o2 & f2 & Hq2 & Hf2 & Hc2).
  unfold list_allocations, json_load in Hl.
  unfold load_state_for_write, read_for_write, get, mbind, M_bind.
  destruct (f_content f) as [| | |t] eqn:Hc; simpl in *; try done.
  { injection Hl as <-. rewrite Hq1. eexists _, _, [], []. by split_and!. }
  destruct t as [| | |j|x]; simpl in *.
  - injection Hl as <-. rewrite Hq1. eexists _, _, [], []. by split_and!.
  - injection Hl as <-. rewrite Hq1. eexists _, _, [], []. by split_and!.
  - injection Hl as <-. unfold try_except, lift. simpl. unfold mbind, M_bind.
    rewrite Hq1. simpl. rewrite Hq2. eexists _, _, [], []. rewrite Hc2, Hc1. by split_and!.
  - destruct j as [| | | | | |st]; simpl in Hl;
      try (injection Hl as <-; unfold try_except, lift; simpl; unfold mbind, M_bind;
           rewrite Hq1; simpl; rewrite Hq2;
           eexists _, _, [], []; rewrite Hc2, Hc1; by split_and!).
    simpl. match goal with |- context [match dget ?s _ with _ => _ end] => set (st' := s) end.
    assert (dget st' "allocations" = dget st "allocations") as Hst'.
    { unfold st'. destruct (dmem _ _); [done|]. by rewrite dget_dset_ne. }
    rewrite Hst'. destruct (dget st "allocations") as [[| | | | | |items]|] eqn:Ha;
      try (injection Hl as <-; unfold mbind, M_bind; rewrite Hq1;
           eexists _, _, [], []; split_and!; try done; by rewrite dget_dset_eq).
    eexists st', f, items, d. split_and!; try done. by apply decode_items_spec.
  - injection Hl as <-. unfold try_except, lift. simpl. unfold mbind, M_bind.
    rewrite Hq1. simpl. rewrite Hq2. eexists _, _, [], []. rewrite Hc2, Hc1. by split_and!.
Qed.

Lemma list_allocations_dumps st items d :
  dget st "allocations" = Some (JObj items) → decodes allocation_from_raw items d →
  list_allocations (dumps (JObj st)) = Ok (sort_items d).
Proof.
  intros Ha Hd. unfold list_allocations, json_load, dumps. simpl.
  rewrite dget_sort_items, dget_map_values, Ha. simpl.
  apply decode_items_spec. replace d with (map (λ '(k, x), (k, (λ a, a) x)) d) at 1.
  - apply (decodes_sort _ (λ a, a)); [apply allocation_from_raw_sort|done].
  - clear. induction d as [|[k x] d IH]; simpl; [done|]. by f_equal.
Qed.

Section flock.
Context {A : Type} (body : M (dict json) A) (w : A → alloc_reply) (op : alloc_op).
Context (f : file) (m : amap) (Hf : denotes f m).
Context (Hbody : ∀ st items d,
  dget st "allocations" = Some (JObj items) →
  decodes allocation_from_raw items d → NoDup (dkeys d) → to_gmap d = m →
  match body st with
  | (Ok a, st') => ∃ items' d', dget st' "allocations" = Some (JObj items') ∧
      decodes allocation_from_raw items' d' ∧ NoDup (dkeys d') ∧
      alloc_step m op (w a) (to_gmap d')
  | (Raise e, _) => alloc_step m op (RErr (ex_kind e)) m
  end).

Lemma flock_state_refines :
  ∃ m', alloc_step m op (reply_of w (flock_state body f).1) m' ∧
        denotes (flock_state body f).2 m'.
Proof.
  destruct (load_state_spec f m Hf) as (st & f1 & items & d & Hl & Hf1 & Hc1 & Ha & Hd & Hnd & Hm).
  specialize (Hbody st items d Ha Hd Hnd Hm).
  unfold flock_state, mbind, M_bind. rewrite !sys_ok, Hl by apply Hf.
  destruct (body st) as [[a|e] st'].
  - rewrite atomic_write_refines. unfold write_spec, write_faults. rewrite Hf1. simpl.
    destruct Hbody as (items' & d' & Ha' & Hd' & Hnd' & Hstep).
    exists (to_gmap d'). split; [done|]. split; simpl; [done..|].
    exists (sort_items d'). split_and!; [by eapply list_allocations_dumps| |].
    { by apply NoDup_sort_items. } by rewrite to_gmap_sort.
  - exists m. split; [done|]. split; simpl; [done|rewrite Hc1; apply Hf|].
    rewrite Hc1. apply Hf.
Qed.
End flock.

Lemma get_allocs_ok st items :
  dget st "allocations" = Some (JObj items) → get_allocs st = (Ok items, st).
Proof. intros H. unfold get_allocs, get, mbind, M_bind. simpl. by rewrite H. Qed.

Lemma existing_spec items d k :
  decodes allocation_from_raw items d →
  match to_gmap d !! k with
  | Some a => ∃ v, dget items k = Some v ∧ truthy v = true ∧ allocation_from_raw v = Ok a
  | None => dget items k = None
  end.
Proof.
  intros Hd. rewrite lookup_to_gmap. pose proof (decodes_dget _ _ _ k Hd) as H.
  destruct (dget items k) as [v|] eqn:Hv.
  - destruct H as (a & Ha & ->). exists v. split_and!; [done| |done].
    by apply allocation_from_raw_inv in Ha as [? _].
  - by rewrite H.
Qed.

(** Opens a mutation's body on a well-formed state dict. *)
Ltac open_body Ha :=
  unfold mbind, M_bind, lift, throw, raise, put_allocs, modify, mret, M_ret;
  rewrite (get_allocs_ok _ _ Ha); simpl.

(** The invariants of the written dict. *)
Ltac written :=
  eexists _, _; split_and!;
  [ by rewrite dget_dset_eq
  | first [ apply decodes_dset; [|apply allocation_roundtrip]; eassumption
          | apply decodes_ddel; eassumption ]
  | eauto with dict
  | rewrite ?to_gmap_dset, ?to_gmap_ddel ].

Lemma allocate_refines s x f m :
  denotes f m →
  ∃ m', alloc_step m (OAllocate (key_of s x)) (reply_of RAlloc (allocate s x f).1) m' ∧
        denotes (allocate s x f).2 m'.
Proof.
  intros Hf. apply flock_state_refines; [done|]. intros st items d Ha Hd Hnd Hm.
  open_body Ha. pose proof (existing_spec items d (key_of s x) Hd) as He. rewrite Hm in He.
  destruct (m !! key_of s x) as [a|] eqn:Hk.
  - destruct He as (v & -> & Htr & Hv). simpl. rewrite Htr, Hv. simpl.
    exists items, d. split_and!; try done. rewrite Hm. by constructor.
  - rewrite He. simpl. rewrite (used_mps_spec _ _ Hd), (used_ports_spec _ _ Hd). simpl.
    pose proof (pick_free_spec items d Hd Hnd) as Hp. rewrite Hm in Hp.
    destruct (pick_free _ _) as [[mp port]|e].
    + destruct Hp as [Hmp Hport]. written. rewrite Hm. by constructor.
    + destruct Hp as [-> Hfull]. by constructor.
Qed.

Lemma ensure_refines s x mp port f m :
  denotes f m →
  ∃ m', alloc_step m (OEnsure (key_of s x) mp port) (reply_of RAlloc (ensure s x mp port f).1) m' ∧
        denotes (ensure s x mp port f).2 m'.
Proof.
  intros Hf. apply flock_state_refines; [done|]. intros st items d Ha Hd Hnd Hm.
  open_body Ha. pose proof (existing_spec items d (key_of s x) Hd) as He. rewrite Hm in He.
  destruct (m !! key_of s x) as [a|] eqn:Hk.
  - destruct He as (v & -> & Htr & Hv). simpl. rewrite Htr, Hv. simpl.
    exists items, d. split_and!; try done. rewrite Hm. by constructor.
  - rewrite He. simpl.
    destruct (clobber_guard_spec items d Hd Hnd mp port) as [[-> Hc]|[-> Hc]]; rewrite Hm in Hc; simpl.
    + written. rewrite Hm. by constructor.
    + by constructor.
Qed.

Lemma set_desired_refines s x b f m :
  denotes f m →
  ∃ m', alloc_step m (OSetDesired (key_of s x) b) (reply_of RAlloc (set_desired s x b f).1) m' ∧
        denotes (set_desired s x b f).2 m'.
Proof.
  intros Hf. apply flock_state_refines; [done|]. intros st items d Ha Hd Hnd Hm.
  open_body Ha. pose proof (existing_spec items d (key_of s x) Hd) as He. rewrite Hm in He.
  destruct (m !! key_of s x) as [a|] eqn:Hk.
  - destruct He as (v & -> & Htr & Hv). simpl. rewrite Htr, Hv. simpl. written.
    rewrite Hm. by apply desired_hit.
  - rewrite He. simpl. by constructor.
Qed.

Lemma release_refines s x f m :
  denotes f m →
  ∃ m', alloc_step m (ORelease (key_of s x)) (reply_of RBool (release s x f).1) m' ∧
        denotes (release s x f).2 m'.
Proof.
  intros Hf. apply flock_state_refines; [done|]. intros st items d Ha Hd Hnd Hm.
  open_body Ha. pose proof (existing_spec items d (key_of s x) Hd) as He. rewrite Hm in He.
  unfold dmem. destruct (m !! key_of s x) as [a|] eqn:Hk.
  - destruct He as (v & -> & _). simpl. written. rewrite Hm. constructor. by rewrite Hk.
  - rewrite He. simpl. exists items, d. split_and!; try done. rewrite Hm. by constructor.
Qed.

Lemma migrate_refines s f m :
  (String.eqb s LOCAL_SERIAL || String.eqb s EmptyString) = false →
  denotes f m →
  ∃ m', alloc_step m (OMigrate (key_of LOCAL_SERIAL "color") (key_of s "color"))
          (reply_of RBool (migrate_color_key s f).1) m' ∧
        denotes (migrate_color_key s f).2 m'.
Proof.
  intros Hs Hf. unfold migrate_color_key. rewrite Hs.
  apply flock_state_refines; [done|]. intros st items d Ha Hd Hnd Hm.
  open_body Ha. set (l := key_of LOCAL_SERIAL "color"). set (c := key_of s "color").
  pose proof (existing_spec items d l Hd) as Hl. pose proof (existing_spec items d c Hd) as Hc.
  rewrite Hm in Hl, Hc. unfold dmem. destruct (m !! l) as [a|] eqn:Hml.
  - destruct Hl as (v & -> & _ & Hv). destruct (m !! c) as [b|] eqn:Hmc.
    + destruct Hc as (v' & -> & _). exists items, d. split_and!; try done. rewrite Hm.
      constructor. right. by rewrite Hmc.
    + rewrite Hc. simpl. eexists _, _. split_and!; [by rewrite dget_dset_eq| | |].
      * apply decodes_dset; [by apply decodes_ddel|done].
      * eauto with dict.
      * rewrite to_gmap_dset, to_gmap_ddel, Hm. by constructor.
  - rewrite Hl. exists items, d. split_and!; try done. rewrite Hm. constructor. by left.
Qed.

(** Any call of the module, on a well-formed file. *)
Lemma run_call_spec c f m :
  denotes f m →
  match op_of c with
  | Some op => ∃ m', alloc_step m op (run_call c f).1 m' ∧ denotes (run_call c f).2 m'
  | None => run_call c f = (RBool false, f)
  end.
Proof.
  intros Hf. destruct c as [s x|s x mp port|s x b|s x|s]; simpl.
  - pose proof (allocate_refines s x f m Hf) as H. by destruct (allocate s x f).
  - pose proof (ensure_refines s x mp port f m Hf) as H. by destruct (ensure s x mp port f).
  - pose proof (set_desired_refines s x b f m Hf) as H. by destruct (set_desired s x b f).
  - pose proof (release_refines s x f m Hf) as H. by destruct (release s x f).
  - destruct (_ || _) eqn:Hs; [unfold migrate_color_key; by rewrite Hs|].
    pose proof (migrate_refines s f m Hs Hf) as H. by destruct (migrate_color_key s f).
Qed.

(** *** Disjointness of the slots *)
Lemma free_no_clash m mp port : free_mp m mp → free_port m port → ¬ clash m mp port.
Proof. unfold free_mp, free_port, clash. naive_solver. Qed.

Lemma disjoint_insert_new m k a :
  slots_disjoint m → m !! k = None → ¬ clash m (mp_id a) (rtp_port a) →
  slots_disjoint (<[k:=a]> m).
Proof.
  intros Hm Hk Hc.
  assert (∀ k' b, m !! k' = Some b → mp_id b ≠ mp_id a ∧ 1 < Z.abs (rtp_port b - rtp_port a)) as H.
  { intros k' b Hb. split; [intros E; apply Hc; left; exists k', b; done|].
    destruct (Z.lt_ge_cases 1 (Z.abs (rtp_port b - rtp_port a))) as [|Hle]; [done|].
    exfalso. apply Hc. right. unfold port_used.
    destruct (decide (rtp_port a + 1 = rtp_port b)); [right|left]; exists k', b; split; auto; lia. }
  intros k1 k2 a1 a2 H1 H2 Hne. rewrite lookup_insert in H1, H2.
  repeat case_decide; simplify_eq; [|..|by apply (Hm k1 k2)].
  - apply (H _ _ H1).
  - destruct (H _ _ H2). split; [done|lia].
Qed.

Lemma disjoint_insert_same m k a a' :
  slots_disjoint m → m !! k = Some a → mp_id a' = mp_id a → rtp_port a' = rtp_port a →
  slots_disjoint (<[k:=a']> m).
Proof.
  intros Hm Hk Hmp Hp k1 k2 a1 a2 H1 H2 Hne. rewrite lookup_insert in H1, H2.
  repeat case_decide; simplify_eq; [..|by apply (Hm k1 k2)]; rewrite Hmp, Hp; by eapply Hm.
Qed.

Lemma disjoint_delete m k : slots_disjoint m → slots_disjoint (delete k m).
Proof.
  intros Hm k1 k2 a1 a2 H1 H2. apply lookup_delete_Some in H1 as [_ H1], H2 as [_ H2].
  by apply Hm.
Qed.

Lemma alloc_step_disjoint m op r m' :
  alloc_step m op r m' → slots_disjoint m → slots_disjoint m'.
Proof.
  destruct 1 as [k a Hk|k mp port Hk [Hmp _] [Hport _] a| | |k mp port Hk Hc a| |k b a Hk a'| | | |l c a Hl Hc|];
    intros Hm; try done.
  - apply disjoint_insert_new; [done..|]. by apply free_no_clash.
  - by apply disjoint_insert_new.
  - by apply (disjoint_insert_same m k a).
  - by apply disjoint_delete.
  - intros k1 k2 a1 a2 H1 H2 Hne. rewrite lookup_insert in H1, H2.
    assert (∀ k' b, delete l m !! k' = Some b → k' ≠ l ∧ m !! k' = Some b) as Hd.
    { intros k' b. rewrite lookup_delete_Some. naive_solver. }
    repeat case_decide; simplify_eq.
    + apply Hd in H1 as []. by apply (Hm k1 l).
    + apply Hd in H2 as []. by apply (Hm l k2).
    + apply Hd in H1 as [], H2 as []. by apply (Hm k1 k2).
Qed.

(** *** Sequences of calls *)
Fixpoint run_calls (cs : list alloc_call) (f : file) : file :=
  match cs with [] => f | c :: cs' => run_calls cs' (run_call c f).2 end.

Lemma run_calls_ind (P : amap → Prop) cs f m :
  denotes f m → P m →
  (∀ c op m r m', c ∈ cs → op_of c = Some op → alloc_step m op r m' → P m → P m') →
  ∃ m', denotes (run_calls cs f) m' ∧ P m'.
Proof.
  revert f m. induction cs as [|c cs IH]; intros f m Hf Hm Hstep; simpl; [eauto|].
  pose proof (run_call_spec c f m Hf) as H. destruct (op_of c) as [op|] eqn:Hop.
  - destruct H as (m' & Hs & Hf'). apply (IH _ m'); [done| |].
    + eapply Hstep; [by left|done..].
    + intros c' ?????. apply Hstep. by right.
  - rewrite H. apply (IH _ m); [done..|]. intros c' ?????. apply Hstep. by right.
Qed.

(** *** Capacity of the pools *)
Lemma zrange_In lo step n x :
  In x (zrange lo step n) ↔ ∃ i : nat, (i < n)%nat ∧ x = lo + step * Z.of_nat i.
Proof.
  revert lo. induction n as [|n IH]; intros lo; simpl; [naive_solver lia|]. rewrite IH. split.
  - intros [<-|(i & Hi & ->)]; [exists O; lia|exists (S i); lia].
  - intros ([|i] & Hi & ->); [left; lia|right; exists i; lia].
Qed.

Lemma zrange_NoDup lo step n : 0 < step → NoDup (zrange lo step n).
Proof.
  intros Hs. revert lo. induction n as [|n IH]; intros lo; simpl; constructor; auto.
  rewrite list_elem_of_In, zrange_In. intros (i & _ & E). nia.
Qed.

Lemma zrange_length lo step n : length (zrange lo step n) = n.
Proof. revert lo. induction n as [|n IH]; intros lo; simpl; auto. Qed.

(** Pigeonhole: fewer entries than candidates leave a candidate no entry holds. *)
Lemma pigeonhole (g : Allocation → Z) (m : amap) (cand : list Z) :
  NoDup cand → (size m < length cand)%nat →
  ∃ x, In x cand ∧ ∀ k a, m !! k = Some a → g a ≠ x.
Proof.
  intros Hnd Hsize. set (used := (g ∘ snd) <$> map_to_list m).
  destruct (decide (Forall (λ x, x ∈ used) cand)) as [Hall|Hex].
  - exfalso. assert (length cand ≤ length used)%nat as Hlen.
    { apply submseteq_length, NoDup_submseteq; [done|]. by apply Forall_forall. }
    unfold used in Hlen. rewrite length_fmap, length_map_to_list in Hlen. lia.
  - apply not_Forall_Exists in Hex; [|intros ?; apply _].
    apply Exists_exists in Hex as (x & Hx & Hn). exists x. split; [by apply list_elem_of_In|].
    intros k a Hk E. apply Hn. apply list_elem_of_fmap. exists (k, a). split; [done|].
    by apply elem_of_map_to_list.
Qed.

Lemma free_port_exists m :
  (∀ k a, m !! k = Some a → Z.even (rtp_port a) = true) → (size m < 47)%nat →
  ∃ p, free_port m p.
Proof.
  intros Hev Hsize.
  destruct (pigeonhole rtp_port m (zrange PORT_MIN 2 47)) as (p & Hp & Hfree).
  { by apply zrange_NoDup. } { by rewrite zrange_length. }
  apply zrange_In in Hp as (i & Hi & ->). exists (PORT_MIN + 2 * Z.of_nat i).
  assert (Z.even (PORT_MIN + 2 * Z.of_nat i) = true) as He by (by rewrite Z.even_add, Z.even_mul).
  unfold free_port, port_used, PORT_MAX. unfold PORT_MIN in *.
  split_and!; [lia|lia|done| |]; intros (k & a & Hk & Hor); specialize (Hev k a Hk);
    specialize (Hfree k a Hk); apply Z.even_spec in Hev as [q Hq]; lia.
Qed.

Lemma free_mp_exists m : (size m < 694)%nat → ∃ x, free_mp m x.
Proof.
  intros Hsize. destruct (pigeonhole mp_id m (zrange MP_ID_MIN 1 694)) as (x & Hx & Hfree).
  { by apply zrange_NoDup. } { by rewrite zrange_length. }
  apply zrange_In in Hx as (i & Hi & ->). exists (MP_ID_MIN + 1 * Z.of_nat i). split; [unfold MP_ID_MIN, MP_ID_MAX; lia|].
  intros (k & a & Hk & E). by apply (Hfree k a).
Qed.

(** ** Properties *)

(** C27. Refinement: every mutation of the allocator, on a readable file that
    denotes a finite map of allocations, behaves as the abstract step relation
    allows (hit, lowest free slot, exhaustion, clash refusal, toggle, release,
    one-shot key migration), and writes back a file that denotes the new map. *)
Theorem allocator_refines c f m op :
  denotes f m → op_of c = Some op →
  ∃ m', alloc_step m op (run_call c f).1 m' ∧ denotes (run_call c f).2 m'.
Proof. intros Hf Hop. pose proof (run_call_spec c f m Hf) as H. by rewrite Hop in H. Qed.

(** Safety: no sequence of allocator calls makes two keys hold the same
    mountpoint id or overlapping RTP/RTCP port pairs. *)
Theorem allocator_slots_disjoint cs f m :
  denotes f m → slots_disjoint m →
  ∃ m', denotes (run_calls cs f) m' ∧ slots_disjoint m'.
Proof.
  intros Hf Hm. apply (run_calls_ind slots_disjoint cs f m); [done..|].
  intros c op m0 r m1 _ _. apply alloc_step_disjoint.
Qed.

(** The calls that may move or drop the slot of a key. *)
Definition keeps_key (k : string) (c : alloc_call) : bool :=
  match c with
  | CallRelease s x => negb (String.eqb (key_of s x) k)
  | CallMigrate _ => negb (String.eqb (key_of LOCAL_SERIAL "color") k)
  | _ => true
  end.

Definition has_slot (k : string) (mp port : Z) (m : amap) : Prop :=
  ∃ b, m !! k = Some (mkAllocation mp port b).

Lemma alloc_step_has_slot k mp port c op m r m' :
  keeps_key k c = true → op_of c = Some op → alloc_step m op r m' →
  has_slot k mp port m → has_slot k mp port m'.
Proof.
  intros Hk Hop Hs [b Hb]. unfold has_slot.
  destruct Hs as [| | | | | |k' b' a' Ha'| |k' Hk'| |l c' a' Hl Hc'|]; try by exists b.
  - rewrite lookup_insert_ne by congruence. by exists b.
  - rewrite lookup_insert_ne by congruence. by exists b.
  - destruct (decide (k' = k)) as [->|]; [|rewrite lookup_insert_ne by done; by exists b].
    rewrite lookup_insert_eq. simplify_eq. simpl. by exists b'.
  - destruct c; cbn [op_of] in Hop; repeat case_match; simplify_eq. cbn [keeps_key] in Hk.
    apply negb_true_iff, String.eqb_neq in Hk. rewrite lookup_delete_ne by done. by exists b.
  - destruct c; cbn [op_of] in Hop; repeat case_match; simplify_eq. cbn [keeps_key] in Hk.
    apply negb_true_iff, String.eqb_neq in Hk.
    rewrite lookup_insert_ne by congruence. rewrite lookup_delete_ne by done. by exists b.
Qed.

(** Stable URLs: once [allocate] has returned a slot for a key, it returns the
    same mountpoint id and port after any further calls, other than the release or
    the migration of that key (in particular after [set_desired]). *)
Theorem allocate_stable s x f m a f1 cs :
  denotes f m → allocate s x f = (Ok a, f1) → Forall (λ c, keeps_key (key_of s x) c = true) cs →
  ∃ b f2, allocate s x (run_calls cs f1) = (Ok (mkAllocation (mp_id a) (rtp_port a) b), f2).
Proof.
  intros Hf Ha Hcs. rewrite Forall_forall in Hcs.
  destruct (allocate_refines s x f m Hf) as (m1 & Hs1 & Hf1). rewrite Ha in Hs1, Hf1. simpl in *.
  assert (has_slot (key_of s x) (mp_id a) (rtp_port a) m1) as Hslot.
  { inversion Hs1; subst; [exists (desired_active a); by destruct a|].
    exists false. by rewrite lookup_insert_eq. }
  destruct (run_calls_ind (has_slot (key_of s x) (mp_id a) (rtp_port a)) cs f1 m1)
    as (m2 & Hf2 & b & Hb); [done..| |].
  { intros c op m0 r m0' Hc Hop Hs. eapply alloc_step_has_slot; eauto. }
  destruct (allocate_refines s x _ m2 Hf2) as (m3 & Hs3 & Hf3).
  destruct (allocate s x (run_calls cs f1)) as [r f2]. exists b, f2. f_equal.
  inversion Hs3; simplify_eq; destruct r as [a'|e]; simplify_eq/=; congruence.
Qed.

(** Bounds and liveness: with even ports and fewer than 47 entries, [allocate]
    for a new key succeeds, with an id in 1306..1999 and an even port whose
    RTP/RTCP pair lies in 5006..5099. *)
Theorem allocate_succeeds s x f m :
  denotes f m → m !! key_of s x = None →
  (∀ k a, m !! k = Some a → Z.even (rtp_port a) = true) → (size m < 47)%nat →
  ∃ a f', allocate s x f = (Ok a, f') ∧ MP_ID_MIN ≤ mp_id a ≤ MP_ID_MAX ∧
          PORT_MIN ≤ rtp_port a ∧ rtp_port a + 1 ≤ PORT_MAX ∧ Z.even (rtp_port a) = true.
Proof.
  intros Hf Hk Hev Hsize. destruct (free_port_exists m Hev Hsize) as [p Hp].
  destruct (free_mp_exists m ltac:(lia)) as [y Hy].
  destruct (allocate_refines s x f m Hf) as (m' & Hs & _).
  destruct (allocate s x f) as [r f']. simpl in Hs. exists (match r with Ok a => a | Raise _ => mkAllocation 0 0 false end), f'.
  inversion Hs as [? a Ha|? mp port _ [[Hmp _] _] [(Hport & Hpe & _) _]|? _ Hfull| | | | | | | | |];
    simplify_eq; destruct r as [a'|e]; simplify_eq/=; [|naive_solver..].
  split_and!; try done; lia.
Qed.

(** Error handling of a corrupt file: invalid JSON is quarantined before the
    mutation rewrites the file as if it had been empty. *)
Theorem allocate_recovers_garbage s x f :
  f_content f = Text TxGarbage → f_fault f = None → f_copies f = [] →
  ∃ f', allocate s x f = (Ok (mkAllocation MP_ID_MIN PORT_MIN false), f') ∧
        f_copies f' = [Text TxGarbage] ∧
        list_allocations (f_content f') = Ok [(key_of s x, mkAllocation MP_ID_MIN PORT_MIN false)].
Proof.
  destruct f as [c mo t q fa]. simpl. intros -> -> ->.
  eexists. split; [reflexivity|]. split; reflexivity.
Qed.

(** Error handling of an unreadable file: every mutation raises
    [AllocationError] and leaves the content and the forensic copies alone. *)
Theorem unreadable_not_reset {A} (body : M (dict json) A) f :
  f_content f = Unreadable → f_fault f = None →
  flock_state body f = (fail EAllocation, f).
Proof.
  intros Hc Hf. unfold flock_state, mbind, M_bind. rewrite !sys_ok by done.
  unfold load_state_for_write, read_for_write, get, mbind, M_bind. rewrite Hc. reflexivity.
Qed.

(** ** Witnesses *)
Definition sample_items : dict Allocation :=
  [("local:color", mkAllocation 1305 5004 true); ("0123:depth", mkAllocation 1306 5006 false)]%string.
Definition sample_file : file :=
  file_of (dumps (JObj [("version", JInt 1);
    ("allocations", JObj (map (λ '(k, a), (k, allocation_to_dict a)) sample_items))]%string)).
Definition sample_map : amap := to_gmap sample_items.

Lemma sample_denotes : denotes sample_file sample_map.
Proof.
  split; [done|exact I|]. exists (sort_items sample_items).
  split; [reflexivity|]. split; [|by rewrite to_gmap_sort].
  by apply (bool_decide_unpack _).
Qed.

Lemma sample_disjoint : slots_disjoint sample_map.
Proof.
  unfold sample_map. intros k1 k2 a1 a2. rewrite !lookup_to_gmap. simpl.
  repeat case_decide; intros; simplify_eq; simpl; lia.
Qed.

Lemma allocator_refines_witness :
  ∃ m', alloc_step sample_map (OAllocate "0123:ir1") (run_call (CallAllocate "0123" "ir1") sample_file).1 m' ∧
        denotes (run_call (CallAllocate "0123" "ir1") sample_file).2 m'.
Proof. exact (allocator_refines (CallAllocate "0123" "ir1") _ _ _ sample_denotes eq_refl). Defined.

Lemma allocator_slots_disjoint_witness :
  ∃ m', denotes (run_calls [CallAllocate "0123" "ir1"; CallMigrate "0123"] sample_file) m' ∧
        slots_disjoint m'.
Proof. exact (allocator_slots_disjoint _ _ _ sample_denotes sample_disjoint). Defined.

Lemma allocate_stable_witness :
  ∃ b f2, allocate "0123" "ir1"
            (run_calls [CallSetDesired "0123" "ir1" true; CallRelease "0123" "depth"]
               (allocate "0123" "ir1" sample_file).2)
          = (Ok (mkAllocation 1307 5008 b), f2).
Proof.
  refine (allocate_stable "0123" "ir1" _ _ (mkAllocation 1307 5008 false) _ _ sample_denotes _ _).
  - reflexivity.
  - repeat constructor.
Defined.

Lemma allocate_succeeds_witness :
  ∃ a f', allocate "77" "depth" sample_file = (Ok a, f') ∧ MP_ID_MIN ≤ mp_id a ≤ MP_ID_MAX ∧
          PORT_MIN ≤ rtp_port a ∧ rtp_port a + 1 ≤ PORT_MAX ∧ Z.even (rtp_port a) = true.
Proof.
  refine (allocate_succeeds "77" "depth" _ _ sample_denotes _ _ _).
  - reflexivity.
  - intros k a. unfold sample_map. rewrite lookup_to_gmap. simpl.
    repeat case_decide; intros; simplify_eq; reflexivity.
  - vm_compute. lia.
Defined.

Lemma allocate_recovers_garbage_witness :
  ∃ f', allocate "77" "depth" (file_of (Text TxGarbage))
        = (Ok (mkAllocation MP_ID_MIN PORT_MIN false), f') ∧
        f_copies f' = [Text TxGarbage] ∧
        list_allocations (f_content f') = Ok [("77:depth"%string, mkAllocation MP_ID_MIN PORT_MIN false)].
Proof. exact (allocate_recovers_garbage "77" "depth" (file_of (Text TxGarbage)) eq_refl eq_refl eq_refl). Defined.

Lemma unreadable_not_reset_witness :
  flock_state get_allocs (file_of Unreadable) = (fail EAllocation, file_of Unreadable).
Proof. exact (unreadable_not_reset get_allocs (file_of Unreadable) eq_refl eq_refl). Defined.

(** ** Findings *)

(** A legitimate cold start is reported as corruption: a fresh empty state has no
    [allocations] key, so the shape check quarantines a copy of the empty file,
    which the corruption probe then reports for good. *)
Theorem cold_start_leaves_quarantine :
  let f' := (allocate "0123" "depth" (file_of (Text TxEmpty))).2 in
  f_copies f' = [Text TxEmpty] ∧
  allocator_corruption_status f' = Ok (StOk, Some (Text TxEmpty)).
Proof. split; reflexivity. Qed.

(** Because at most one copy is kept, the bytes of a later real corruption are
    then not preserved: the recovery overwrites them. *)
Theorem cold_start_masks_later_corruption :
  let f1 := (allocate "0123" "depth" (file_of (Text TxEmpty))).2 in
  let f2 := (allocate "0123" "depth" (set_content (Text TxGarbage) 384 f1)).2 in
  f_copies f2 = [Text TxEmpty] ∧ f_content f2 ≠ Text TxGarbage.
Proof. split; [reflexivity|discriminate]. Qed.

(** Bytes that are not UTF-8 escape the fail-safe reads and the probe that is
    documented not to raise. *)
Theorem non_utf8_escapes :
  list_allocations NotUtf8 = fail EUnicodeDecode ∧
  (∀ s x, get_allocation s x NotUtf8 = fail EUnicodeDecode) ∧
  classify_allocator_state NotUtf8 = fail EUnicodeDecode.
Proof. done. Qed.

(** A write leaves the allocator file with the mode of [mkstemp], 0600, whatever
    the mode was before. *)
Theorem allocator_file_becomes_private :
  f_mode sample_file = 420 ∧ f_mode (allocate "0123" "ir1" sample_file).2 = 384.
Proof. split; reflexivity. Qed.
