(* ===== verification/BindingModels.v ===== *)
(** * Stream binding value objects ([app/services/stream_binding_store/models.py],
    [validation.py])

    The rows of the topology store and their JSON codecs, and the address checks of
    the service layer. The optional columns of a node row are passed through from
    the document unchecked ([raw.get("ordinal")]), so they are JSON values here too. *)
From Stdlib Require Import Ascii.
From S2P Require Import Prelude.
From S2P Require Import PyVal.

Definition LOOPBACK : string := "127.0.0.1".
Definition LOCAL_NODE_ID : string := "cam10".

Inductive StreamMode := LOCAL_PRODUCER | REMOTE_PRODUCER.

Definition StreamMode_value (m : StreamMode) : string :=
  match m with LOCAL_PRODUCER => "local_producer" | REMOTE_PRODUCER => "remote_producer" end.

Inductive StreamStatus := CONFIGURED_OFFLINE | WAITING_FOR_RTP | ONLINE | STALE | DEGRADED_S.

Definition StreamStatus_value (s : StreamStatus) : string :=
  match s with
  | CONFIGURED_OFFLINE => "configured_offline" | WAITING_FOR_RTP => "waiting_for_rtp"
  | ONLINE => "online" | STALE => "stale" | DEGRADED_S => "degraded"
  end.

#[export] Instance StreamMode_eq_dec : EqDecision StreamMode.
Proof. solve_decision. Defined.
#[export] Instance StreamStatus_eq_dec : EqDecision StreamStatus.
Proof. solve_decision. Defined.

(** [StreamMode(x)]: only the value of a member is accepted. *)
Definition parse_mode (j : json) : res StreamMode :=
  match j with
  | JStr s =>
      if String.eqb s "local_producer" then Ok LOCAL_PRODUCER
      else if String.eqb s "remote_producer" then Ok REMOTE_PRODUCER
      else fail EValue
  | _ => fail EValue
  end.

(** [StreamStatus(x)] *)
Definition parse_status (s : string) : res StreamStatus :=
  match List.find (fun x => String.eqb s (StreamStatus_value x))
          [CONFIGURED_OFFLINE; WAITING_FOR_RTP; ONLINE; STALE; DEGRADED_S] with
  | Some x => Ok x
  | None => fail EValue
  end.

(** ** Records *)
Record StreamTransport := mkTransport {
  tr_rtp_port : Z;
  tr_payload_type : Z;
  tr_codec : string;
  tr_srtp : json;
}.

Record StreamJanusConfig := mkJanusConfig { jc_mountpoint_id : Z; jc_rtp_iface : string }.

Record StreamFdirConfig := mkFdirConfig { fc_enabled : bool; fc_policy : string }.

Definition default_fdir : StreamFdirConfig := mkFdirConfig true "stream_default".

Record NodeEntry := mkNode {
  n_node_id : string;
  n_host : string;
  n_role : string;
  n_reachability : string;
  n_ordinal : json;
  n_serial : json;
  n_display_name : json;
  n_provision_state : json;
  n_host_key : json;
  n_agent_token : json;
  n_maintenance : bool;
  n_last_error : json;
  n_last_checked_at : json;
}.

Record StreamBinding := mkBinding {
  b_binding_id : string;
  b_node_id : string;
  b_sensor : string;
  b_mode : StreamMode;
  b_transport : StreamTransport;
  b_janus : StreamJanusConfig;
  b_fdir : StreamFdirConfig;
  b_status : string;
  b_desired_up : bool;
}.

Definition LOCAL_NODE : NodeEntry :=
  mkNode LOCAL_NODE_ID LOOPBACK "gateway_camera" "local"
    JNull JNull JNull JNull JNull JNull false JNull JNull.

(** [dataclasses.replace(entry, agent_token=tok)] *)
Definition with_agent_token (tok : json) (n : NodeEntry) : NodeEntry :=
  mkNode (n_node_id n) (n_host n) (n_role n) (n_reachability n) (n_ordinal n) (n_serial n)
    (n_display_name n) (n_provision_state n) (n_host_key n) tok (n_maintenance n)
    (n_last_error n) (n_last_checked_at n).

(** ** Encoders *)
Definition transport_to_dict (t : StreamTransport) : json :=
  JObj [("rtp_port", JInt (tr_rtp_port t)); ("payload_type", JInt (tr_payload_type t));
        ("codec", JStr (tr_codec t)); ("srtp", tr_srtp t)]%string.

Definition janus_to_dict (c : StreamJanusConfig) : json :=
  JObj [("mountpoint_id", JInt (jc_mountpoint_id c)); ("rtp_iface", JStr (jc_rtp_iface c))]%string.

Definition fdir_to_dict (c : StreamFdirConfig) : json :=
  JObj [("enabled", JBool (fc_enabled c)); ("policy", JStr (fc_policy c))]%string.

(** The agent token is not part of the row: it lives in the secret store. *)
Definition node_to_dict (n : NodeEntry) : json :=
  JObj [("host", JStr (n_host n)); ("role", JStr (n_role n));
        ("reachability", JStr (n_reachability n)); ("ordinal", n_ordinal n);
        ("serial", n_serial n); ("display_name", n_display_name n);
        ("provision_state", n_provision_state n); ("host_key", n_host_key n);
        ("maintenance", JBool (n_maintenance n)); ("last_error", n_last_error n);
        ("last_checked_at", n_last_checked_at n)]%string.

Definition binding_to_dict (b : StreamBinding) : json :=
  JObj [("binding_id", JStr (b_binding_id b)); ("node_id", JStr (b_node_id b));
        ("sensor", JStr (b_sensor b)); ("mode", JStr (StreamMode_value (b_mode b)));
        ("transport", transport_to_dict (b_transport b)); ("janus", janus_to_dict (b_janus b));
        ("fdir", fdir_to_dict (b_fdir b)); ("status", JStr (b_status b));
        ("desired_up", JBool (b_desired_up b))]%string.

(** ** Decoders *)
Definition transport_from_raw (raw : json) : res StreamTransport :=
  port ← getitem raw "rtp_port"; port ← to_int port;
  pt ← jget raw "payload_type" (JInt 96); pt ← to_int pt;
  codec ← jget raw "codec" (JStr "h264"); codec ← to_str codec;
  srtp ← jget raw "srtp" JNull;
  Ok (mkTransport port pt codec srtp).

Definition janus_from_raw (raw : json) : res StreamJanusConfig :=
  mp ← getitem raw "mountpoint_id"; mp ← to_int mp;
  iface ← getitem raw "rtp_iface"; iface ← to_str iface;
  Ok (mkJanusConfig mp iface).

Definition fdir_from_raw (raw : json) : res StreamFdirConfig :=
  enabled ← jget raw "enabled" (JBool true);
  policy ← jget raw "policy" (JStr "stream_default"); policy ← to_str policy;
  Ok (mkFdirConfig (truthy enabled) policy).

Definition node_from_raw (node_id : string) (raw : json) : res NodeEntry :=
  host ← getitem raw "host"; host ← to_str host;
  role ← jget raw "role" (JStr EmptyString); role ← to_str role;
  reach ← jget raw "reachability" (JStr "unknown"); reach ← to_str reach;
  ordinal ← jget raw "ordinal" JNull;
  serial ← jget raw "serial" JNull;
  display_name ← jget raw "display_name" JNull;
  provision_state ← jget raw "provision_state" JNull;
  host_key ← jget raw "host_key" JNull;
  maintenance ← jget raw "maintenance" (JBool false);
  last_error ← jget raw "last_error" JNull;
  last_checked_at ← jget raw "last_checked_at" JNull;
  Ok (mkNode node_id host role reach ordinal serial display_name provision_state host_key
        JNull (truthy maintenance) last_error last_checked_at).

Definition binding_from_raw (raw : json) : res StreamBinding :=
  fdir ← jget raw "fdir" (JObj []); fdir ← fdir_from_raw fdir;
  bid ← getitem raw "binding_id"; bid ← to_str bid;
  nid ← getitem raw "node_id"; nid ← to_str nid;
  sensor ← getitem raw "sensor"; sensor ← to_str sensor;
  mode ← getitem raw "mode"; mode ← parse_mode mode;
  transport ← getitem raw "transport"; transport ← transport_from_raw transport;
  janus ← getitem raw "janus"; janus ← janus_from_raw janus;
  status ← jget raw "status" (JStr "configured_offline"); status ← to_str status;
  up ← jget raw "desired_up" (JBool (fc_enabled fdir));
  Ok (mkBinding bid nid sensor mode transport janus fdir status (truthy up)).

(** ** Addresses ([validation.py]): [ipaddress.IPv4Address(value)] *)
Fixpoint split_on (sep : Ascii.ascii) (l : list Ascii.ascii) : list (list Ascii.ascii) :=
  match l with
  | [] => [[]]
  | c :: l' =>
      if Ascii.eqb c sep then [] :: split_on sep l'
      else match split_on sep l' with w :: ws => (c :: w) :: ws | [] => [[c]] end
  end.

Fixpoint octet_value (acc : Z) (l : list Ascii.ascii) : option Z :=
  match l with
  | [] => Some acc
  | c :: l' => match digit_value c with Some d => octet_value (10 * acc + d) l' | None => None end
  end.

(** An octet: one to three decimal digits, no leading zero, at most 255. *)
Definition parse_octet (l : list Ascii.ascii) : option Z :=
  match l with
  | [] => None
  | c :: l' =>
      if (3 <? length l)%nat then None
      else if Ascii.eqb c "0"%char && negb (match l' with [] => true | _ => false end) then None
      else match octet_value 0 l with
           | Some v => if v <=? 255 then Some v else None
           | None => None
           end
  end.

Definition parse_ipv4 (s : string) : option Z :=
  match split_on "."%char (String.list_ascii_of_string s) with
  | [a; b; c; d] =>
      match parse_octet a, parse_octet b, parse_octet c, parse_octet d with
      | Some a, Some b, Some c, Some d =>
          Some (Z.lor (Z.shiftl a 24) (Z.lor (Z.shiftl b 16) (Z.lor (Z.shiftl c 8) d)))
      | _, _, _, _ => None
      end
  | _ => None
  end.

(** [ip in net] for the network [base/prefix], host bits of [base] ignored. *)
Definition in_net (base prefix ip : Z) : bool :=
  Z.shiftr ip (32 - prefix) =? Z.shiftr base (32 - prefix).

Definition is_loopback_ip (ip : Z) : bool := in_net 2130706432 8 ip.     (* 127.0.0.0/8 *)
Definition is_unspecified_ip (ip : Z) : bool := ip =? 0.
Definition is_multicast_ip (ip : Z) : bool := in_net 3758096384 4 ip.    (* 224.0.0.0/4 *)
Definition is_reserved_ip (ip : Z) : bool := in_net 4026531840 4 ip.     (* 240.0.0.0/4 *)

Definition is_ipv4 (value : string) : bool :=
  match parse_ipv4 value with Some _ => true | None => false end.

Definition is_loopback (value : string) : bool :=
  match parse_ipv4 value with Some ip => is_loopback_ip ip | None => false end.

Example parse_ipv4_ex :
  (parse_ipv4 "192.168.10.55", parse_ipv4 "192.168.010.5", parse_ipv4 "1.2.3",
   parse_ipv4 "1.2.3.256", is_loopback "127.9.9.9", is_loopback "128.0.0.1")%string
  = (Some 3232238135, None, None, None, true, false).
Proof. reflexivity. Qed.

(** ** Codec laws

    A row that is written and read back comes back as itself; the free-form columns
    come back with their keys sorted. *)
Definition sort_transport (t : StreamTransport) : StreamTransport :=
  mkTransport (tr_rtp_port t) (tr_payload_type t) (tr_codec t) (sort_json (tr_srtp t)).

Definition sort_binding (b : StreamBinding) : StreamBinding :=
  mkBinding (b_binding_id b) (b_node_id b) (b_sensor b) (b_mode b)
    (sort_transport (b_transport b)) (b_janus b) (b_fdir b) (b_status b) (b_desired_up b).

Definition sort_node (n : NodeEntry) : NodeEntry :=
  mkNode (n_node_id n) (n_host n) (n_role n) (n_reachability n) (sort_json (n_ordinal n))
    (sort_json (n_serial n)) (sort_json (n_display_name n)) (sort_json (n_provision_state n))
    (sort_json (n_host_key n)) (n_agent_token n) (n_maintenance n)
    (sort_json (n_last_error n)) (sort_json (n_last_checked_at n)).

Lemma jget_sort_scalar j k d :
  sort_json d = d → jget (sort_json j) k d = sort_json <$> jget j k d.
Proof. intros Hd. rewrite <- Hd at 1. apply jget_sort. Qed.

Lemma parse_mode_sort j : parse_mode (sort_json j) = parse_mode j.
Proof. by destruct j. Qed.

Lemma parse_mode_value m : parse_mode (JStr (StreamMode_value m)) = Ok m.
Proof. by destruct m. Qed.

Lemma parse_status_value s : parse_status (StreamStatus_value s) = Ok s.
Proof. by destruct s. Qed.

Lemma parse_status_Ok s x : parse_status s = Ok x → s = StreamStatus_value x.
Proof.
  unfold parse_status. destruct (List.find _ _) as [y|] eqn:Hf; [|done]. intros [= <-].
  apply List.find_some in Hf as [_ Heq]. by apply String.eqb_eq.
Qed.

(** Runs a decoder on a sorted document, step by step. *)
Ltac sort_decoder :=
  unfold mbind, res_bind, fmap, res_fmap;
  repeat (first [rewrite getitem_sort | rewrite jget_sort_scalar by done];
          unfold fmap, res_fmap;
          match goal with |- context [match ?x with Ok _ => _ | Raise _ => _ end] =>
            destruct x; [|done] end;
          rewrite ?to_int_sort, ?to_str_sort, ?truthy_sort, ?parse_mode_sort;
          try match goal with |- context [match ?x with Ok _ => _ | Raise _ => _ end] =>
            lazymatch x with
            | to_int _ => destruct x; [|done]
            | to_str _ => destruct x; [|done]
            | parse_mode _ => destruct x; [|done]
            end end).

Lemma transport_from_raw_sort j :
  transport_from_raw (sort_json j) = sort_transport <$> transport_from_raw j.
Proof. unfold transport_from_raw. by sort_decoder. Qed.

Lemma janus_from_raw_sort j : janus_from_raw (sort_json j) = janus_from_raw j.
Proof. unfold janus_from_raw. by sort_decoder. Qed.

Lemma fdir_from_raw_sort j : fdir_from_raw (sort_json j) = fdir_from_raw j.
Proof. unfold fdir_from_raw. by sort_decoder. Qed.

Lemma node_from_raw_sort nid j :
  node_from_raw nid (sort_json j) = sort_node <$> node_from_raw nid j.
Proof. unfold node_from_raw. by sort_decoder. Qed.

Lemma binding_from_raw_sort j :
  binding_from_raw (sort_json j) = sort_binding <$> binding_from_raw j.
Proof.
  unfold binding_from_raw, mbind, res_bind, fmap, res_fmap.
  rewrite (jget_sort_scalar j "fdir") by done. unfold fmap, res_fmap.
  destruct (jget j "fdir" _); [|done]. rewrite fdir_from_raw_sort.
  destruct (fdir_from_raw _); [|done].
  repeat (first [rewrite getitem_sort | rewrite jget_sort_scalar by done]; unfold fmap, res_fmap;
          match goal with |- context [match ?x with Ok _ => _ | Raise _ => _ end] =>
            destruct x; [|done] end;
          rewrite ?to_str_sort, ?parse_mode_sort, ?janus_from_raw_sort, ?transport_from_raw_sort,
            ?truthy_sort;
          unfold fmap, res_fmap;
          try match goal with |- context [match ?x with Ok _ => _ | Raise _ => _ end] =>
            lazymatch x with
            | to_str _ => destruct x; [|done]
            | parse_mode _ => destruct x; [|done]
            | janus_from_raw _ => destruct x; [|done]
            | transport_from_raw _ => destruct x; [|done]
            end end).
  done.
Qed.

Lemma node_roundtrip n :
  node_from_raw (n_node_id n) (node_to_dict n) = Ok (with_agent_token JNull n).
Proof. by destruct n. Qed.

Lemma binding_roundtrip b : binding_from_raw (binding_to_dict b) = Ok b.
Proof.
  destruct b as [bid nid sensor mode [port pt codec srtp] [mp iface] [en pol] status up].
  by destruct mode.
Qed.

(** What the store writes decodes to the row that was written. *)
Lemma binding_written_reads_back b :
  binding_from_raw (sort_json (binding_to_dict b)) = Ok (sort_binding b).
Proof. by rewrite binding_from_raw_sort, binding_roundtrip. Qed.

Lemma node_written_reads_back n :
  node_from_raw (n_node_id n) (sort_json (node_to_dict n))
  = Ok (sort_node (with_agent_token JNull n)).
Proof. by rewrite node_from_raw_sort, node_roundtrip. Qed.
