(* ===== verification/TopologyStore.v ===== *)
(** * Topology and secret files ([stream_binding_store/state_file.py], [secrets.py])

    The topology document (nodes and bindings) is loaded, changed in place and
    written back under one file lock; a corrupt file fails closed. The per-node agent
    tokens live in a second, private file. A body that runs under the lock works on a
    transaction [Txn]: the decoded document, the secret file and the allocator's file
    it may consult, and the draws it makes from the system's randomness and clock. *)
From S2P Require Import Prelude.
From S2P Require Import PyVal.
From S2P Require Import FileStore.

(** ** The store *)
Record Store := mkStore {
  s_topo : file;        (* stream_bindings.json *)
  s_secrets : file;     (* node_secrets.json *)
  s_alloc : file;       (* the mountpoint allocator's file, read only *)
  s_draws : nat;        (* random values and clock readings drawn so far *)
}.

Record Txn := mkTxn {
  t_state : dict json;
  t_secrets : file;
  t_draws : nat;
  t_alloc : content;
}.

(** [uuid.uuid4().hex[:12]], [secrets.token_urlsafe(32)] and [time.time()] *)
Class Entropy := {
  uuid12 : nat → string;
  token_urlsafe : nat → string;
  clock : nat → Q;
}.

Definition set_topo (f : file) (s : Store) : Store :=
  mkStore f (s_secrets s) (s_alloc s) (s_draws s).
Definition set_secrets (f : file) (s : Store) : Store :=
  mkStore (s_topo s) f (s_alloc s) (s_draws s).
Definition set_state (d : dict json) (t : Txn) : Txn :=
  mkTxn d (t_secrets t) (t_draws t) (t_alloc t).
Definition set_txn_secrets (f : file) (t : Txn) : Txn :=
  mkTxn (t_state t) f (t_draws t) (t_alloc t).

Definition on_topo {A} (m : M file A) : M Store A := zoom s_topo set_topo m.
Definition on_secrets {A} (m : M file A) : M Store A := zoom s_secrets set_secrets m.
Definition txn_secrets {A} (m : M file A) : M Txn A := zoom t_secrets set_txn_secrets m.

(** One draw from the system. *)
Definition draw {A} (f : nat → A) : M Txn A :=
  fun t => (Ok (f (t_draws t)), mkTxn (t_state t) (t_secrets t) (S (t_draws t)) (t_alloc t)).

(** ** The topology document *)

(** One forensic copy, the original left in place: the same code as the allocator's. *)
Definition quarantine_corrupt_state : M file (option content) := quarantine_corrupt.

Definition is_dict (o : option json) : bool :=
  match o with Some (JObj _) => true | _ => false end.

Definition normalize_state (state : dict json) : dict json :=
  let d := if dmem state "version" then state else dset state "version" (JInt 1) in
  let d := if is_dict (dget d "nodes") then d else dset d "nodes" (JObj []) in
  if is_dict (dget d "bindings") then d else dset d "bindings" (JObj []).

Definition load_state : M file (dict json) :=
  f ← get;
  if exists_ (f_content f) then
    raw ← try_except file_read COSError
            (fun _ => quarantine_corrupt_state ;; throw EStoreCorruption);
    if blank raw then mret (normalize_state [])
    else
      state ← try_except (lift (json_loads raw)) CJsonDecode
                (fun _ => quarantine_corrupt_state ;; throw EStoreCorruption);
      match state with
      | JObj d => mret (normalize_state d)
      | _ => quarantine_corrupt_state ;; throw EStoreCorruption
      end
  else mret (normalize_state []).

(** [with _flock_state(path) as state: body]: the document is written back when the
    body returns, and left alone when it raises; what the body did to the secret file
    stays done. *)
Definition flock_state {A} (body : M Txn A) : M Store A :=
  on_topo (sys SysMkdir ;; sys SysLock) ;;
  d ← on_topo load_state;
  s ← get;
  let '(r, t) := body (mkTxn d (s_secrets s) (s_draws s) (f_content (s_alloc s))) in
  put (mkStore (s_topo s) (t_secrets t) (s_alloc s) (t_draws t)) ;;
  match r with
  | Ok a => on_topo (replace_write (dumps (JObj (t_state t)))) ;; mret a
  | Raise e => raise e
  end.

(** [store_corruption_status]: the flag and the latest forensic copy. *)
Definition store_corruption_status : M file (bool * option content) :=
  try_except
    (load_state ;; mret (false, None))
    CStoreCorruption
    (fun _ => f ← get; mret (true, last (f_copies f))).

(** [state["nodes"]], [state["bindings"]]: read and updated in place. *)
Definition get_section (k : string) : M Txn (dict json) :=
  t ← get;
  match getitem (JObj (t_state t)) k with
  | Ok (JObj d) => mret d
  | Ok _ => throw EAttribute
  | Raise e => raise e
  end.

Definition put_section (k : string) (d : dict json) : M Txn unit :=
  modify (fun t => set_state (dset (t_state t) k (JObj d)) t).

(** [raw[key] = value] *)
Definition setitem (raw : json) (k : string) (v : json) : res json :=
  match raw with JObj d => Ok (JObj (dset d k v)) | _ => fail EType end.

(** ** The secret file *)
Definition read_secrets : M file (dict json) :=
  f ← get;
  if exists_ (f_content f) then
    raw ← try_except (t ← file_read; mret (Some t)) COSError
            (fun _ => mret None);
    match raw with
    | None => mret []
    | Some t =>
        if blank t then mret []
        else
          data ← try_except (lift (json_loads t)) CJsonDecode
                   (fun _ => quarantine_corrupt ;; throw EStoreCorruption);
          match data with
          | JObj d => mret d
          | _ => quarantine_corrupt ;; throw EStoreCorruption
          end
    end
  else mret [].

Definition write_secrets (data : dict json) : M file unit :=
  atomic_write_text (dumps (JObj data)) (Some 384).

Definition secrets_lock {A} (m : M file A) : M file A :=
  sys SysMkdir ;; sys SysOpen ;; sys SysLock ;; m.

Definition set_node_secret (node_id : string) (token : json) : M file unit :=
  sys SysMkdir ;;
  secrets_lock (data ← read_secrets; write_secrets (dset data node_id token)).

Definition remove_node_secret (node_id : string) : M file unit :=
  f ← get;
  if exists_ (f_content f) then
    secrets_lock (
      data ← read_secrets;
      if dmem data node_id then write_secrets (ddel data node_id) else mret tt)
  else mret tt.

Definition mint_agent_token `{Entropy} : M Txn json := draw (fun n => JStr (token_urlsafe n)).

(** ** What loading sees *)

(** The topology document of a file, without the quarantine. *)
Definition topology (c : content) : res (dict json) :=
  match c with
  | Absent => Ok (normalize_state [])
  | Unreadable => fail EStoreCorruption
  | NotUtf8 => fail EUnicodeDecode
  | Text t =>
      if blank t then Ok (normalize_state [])
      else match t with TxDoc (JObj d) => Ok (normalize_state d) | _ => fail EStoreCorruption end
  end.

Lemma topology_seen f d : topology (seen f) = Ok d → topology (f_content f) = Ok d.
Proof. by destruct (seen_cases f) as [->|[_ ->]]. Qed.

(** The tokens of a secret file; an unreadable file reads as empty. *)
Definition secrets_of (c : content) : res (dict json) :=
  match c with
  | Absent | Unreadable => Ok []
  | NotUtf8 => fail EUnicodeDecode
  | Text t =>
      if blank t then Ok []
      else match t with TxDoc (JObj d) => Ok d | _ => fail EStoreCorruption end
  end.

Lemma secrets_seen_raise f e : secrets_of (seen f) = Raise e → secrets_of (f_content f) = Raise e.
Proof. by destruct (seen_cases f) as [->|[_ ->]]. Qed.

(** Same file as far as an operation's caller can see: only forensic copies differ. *)
Definition same_file (f f' : file) : Prop :=
  f_content f' = f_content f ∧ f_mode f' = f_mode f ∧ f_temp f' = f_temp f ∧
  f_fault f' = f_fault f.

#[export] Instance same_file_preorder : PreOrder same_file.
Proof.
  split; [by intros f|]. intros f1 f2 f3 H1 H2. unfold same_file in *. destruct_and!.
  split_and!; congruence.
Qed.

Lemma quarantine_same : preserves same_file quarantine_corrupt.
Proof.
  intros [c m t q fault]. unfold quarantine_corrupt, get, mbind, M_bind. simpl.
  destruct (last q); [done|]. unfold try_except, mbind, M_bind, sys. simpl.
  by destruct (decide _), c.
Qed.

Lemma quarantine_total : total quarantine_corrupt.
Proof.
  intros f. destruct (quarantine_corrupt f) as [r f'] eqn:H.
  by apply quarantine_content in H as (_ & _ & _ & ?).
Qed.
#[export] Hint Resolve quarantine_same : pres.

(** The file after a forensic copy. *)
Definition quarantined (f : file) : file := (quarantine_corrupt f).2.

Lemma quarantined_same f : same_file f (quarantined f).
Proof. apply quarantine_same. Qed.

Lemma quarantine_throw {A} k f :
  (quarantine_corrupt ;; throw (A:=A) k) f = (fail k, quarantined f).
Proof.
  pose proof (quarantine_total f) as Ht. unfold quarantined, mbind, M_bind.
  by destruct (quarantine_corrupt f) as [[o|e] f'].
Qed.

(** At most one copy, of the file's content, and a second call makes none. *)
Lemma quarantined_copies f :
  (f_copies (quarantined f) = f_copies f ∨
   f_copies f = [] ∧ f_copies (quarantined f) = [f_content f]) ∧
  quarantined (quarantined f) = quarantined f.
Proof.
  destruct f as [c m t q fault]. unfold quarantined, quarantine_corrupt, get, mbind, M_bind. simpl.
  destruct (last q) as [x|] eqn:Hq; simpl; [split; [by left|by rewrite Hq]|].
  apply last_None in Hq as ->. unfold try_except, mbind, M_bind, sys. simpl.
  case_decide as Hf; simpl.
  - split; [by left|]. by rewrite decide_True.
  - destruct c; simpl; rewrite ?decide_False by done; auto.
Qed.

(** Text that does not parse, or parses to no object, is quarantined. *)
Lemma parse_object_eq {A} (ok : dict json → A) t f :
  (state ← try_except (lift (json_loads t)) CJsonDecode
             (λ _, quarantine_corrupt ;; throw EStoreCorruption);
   match state with
   | JObj d => mret (ok d)
   | _ => quarantine_corrupt ;; throw EStoreCorruption
   end) f
  = match t with TxDoc (JObj d) => (Ok (ok d), f) | _ => (fail EStoreCorruption, quarantined f) end.
Proof.
  assert (Hbad : (∀ e, json_loads t = Raise e → instance_of (ex_kind e) CJsonDecode = true)).
  { by destruct t; intros e [= <-]. }
  unfold mbind at 1, M_bind at 1, try_except, lift. destruct (json_loads t) as [j|e] eqn:Hj.
  - destruct t as [| | |j'|]; try done. injection Hj as ->.
    destruct j; try apply quarantine_throw. done.
  - rewrite (Hbad e), quarantine_throw by done. by destruct t.
Qed.

(** *** Loading, by what the read finds *)
Lemma load_state_eq f :
  load_state f =
    match seen f with
    | Absent => (Ok (normalize_state []), f)
    | Unreadable => (fail EStoreCorruption, quarantined f)
    | NotUtf8 => (fail EUnicodeDecode, f)
    | Text t =>
        if blank t then (Ok (normalize_state []), f)
        else match t with
             | TxDoc (JObj d) => (Ok (normalize_state d), f)
             | _ => (fail EStoreCorruption, quarantined f)
             end
    end.
Proof.
  unfold load_state. rewrite (bind_ok get _ f f f eq_refl). unfold quarantine_corrupt_state.
  destruct (exists_ (f_content f)) eqn:He; [|by rewrite seen_absent].
  unfold mbind at 1, M_bind at 1, try_except at 1. rewrite (file_read_eq f He).
  destruct (seen f) as [| | |t] eqn:Hseen; cbn [read_text].
  - unfold seen in Hseen. case_decide; by destruct (f_content f).
  - cbn [fail instance_of ex_kind]. by rewrite quarantine_throw.
  - done.
  - destruct (blank t); [done|apply (parse_object_eq normalize_state)].
Qed.

Lemma load_topology_spec f : ∃ f', load_state f = (topology (seen f), f') ∧ same_file f f'.
Proof.
  pose proof (quarantined_same f) as Hq. assert (Hr : same_file f f) by done.
  rewrite load_state_eq. unfold topology.
  destruct (seen f) as [| | |t]; eauto. destruct (blank t); [eauto|].
  destruct t as [| | |[]|]; eauto.
Qed.

Lemma read_secrets_spec f :
  ∃ f', read_secrets f = (secrets_of (seen f), f') ∧ same_file f f'.
Proof.
  unfold read_secrets. rewrite (bind_ok get _ f f f eq_refl).
  destruct (exists_ (f_content f)) eqn:He; [|rewrite seen_absent by done; by exists f].
  unfold mbind at 1, M_bind at 1, try_except at 1, mbind at 1, M_bind at 1. rewrite (file_read_eq f He).
  destruct (seen f) as [| | |t] eqn:Hseen; cbn [read_text]; try by exists f.
  pose proof (quarantined_same f) as Hq. assert (Hr : same_file f f) by done.
  simpl. destruct (blank t); [by exists f|].
  rewrite (parse_object_eq (λ d, d)). destruct t as [| | |[]|]; eauto.
Qed.

(** ** Sections and rows of a document *)
Definition section (d : dict json) (k : string) : dict json :=
  match dget d k with Some (JObj x) => x | _ => [] end.

(** The raw row of a node or binding. *)
Definition row (d : dict json) (k id : string) : option json := dget (section d k) id.

Definition wf_state (d : dict json) : Prop :=
  is_dict (dget d "nodes") = true ∧ is_dict (dget d "bindings") = true.

Definition is_section (k : string) : bool :=
  String.eqb k "nodes" || String.eqb k "bindings".

Lemma is_section_cases k : is_section k = true → k = "nodes"%string ∨ k = "bindings"%string.
Proof. unfold is_section. rewrite orb_true_iff, !String.eqb_eq. done. Qed.

Lemma wf_state_section d k :
  wf_state d → is_section k = true → dget d k = Some (JObj (section d k)).
Proof.
  unfold wf_state, section. intros [Hn Hb] [-> | ->]%is_section_cases;
    [destruct (dget d "nodes") as [[]|]|destruct (dget d "bindings") as [[]|]]; done.
Qed.

Lemma section_set d k v k' :
  section (dset d k (JObj v)) k' = if decide (k = k') then v else section d k'.
Proof. unfold section. rewrite dget_dset. by case_decide. Qed.

Lemma wf_state_set d k v : wf_state d → wf_state (dset d k (JObj v)).
Proof. unfold wf_state. intros [Hn Hb]. rewrite !dget_dset. by repeat case_decide. Qed.

Lemma normalize_wf d : wf_state (normalize_state d).
Proof.
  unfold normalize_state, wf_state.
  set (d0 := if dmem d "version" then d else _).
  set (d1 := if is_dict (dget d0 "nodes") then d0 else _).
  assert (Hn : is_dict (dget d1 "nodes") = true).
  { unfold d1. destruct (is_dict _) eqn:H; [done|]. by rewrite dget_dset_eq. }
  destruct (is_dict (dget d1 "bindings")) eqn:Hb; [done|].
  rewrite dget_dset_eq, dget_dset_ne by done. done.
Qed.

Lemma normalize_section d k : is_section k = true → section (normalize_state d) k = section d k.
Proof.
  intros Hk. unfold normalize_state.
  set (d0 := if dmem d "version" then d else _).
  assert (H0 : ∀ k', is_section k' = true → dget d0 k' = dget d k').
  { intros k' [-> | ->]%is_section_cases; unfold d0; destruct (dmem d "version"); try done;
      by rewrite dget_dset_ne. }
  assert (Hset : ∀ d' k', is_dict (dget d' k') = false → section d' k' = []).
  { intros d' k'. unfold section. by destruct (dget d' k') as [[]|]. }
  assert (Hif : ∀ d' k' k'', section (if is_dict (dget d' k') then d' else dset d' k' (JObj [])) k''
                             = section d' k'').
  { intros d' k' k''. destruct (is_dict _) eqn:Hd; [done|]. rewrite section_set.
    case_decide; [|done]. subst. by rewrite Hset. }
  rewrite !Hif. unfold section. by rewrite H0.
Qed.

Lemma topology_wf c d : topology c = Ok d → wf_state d.
Proof.
  destruct c as [| | |[| | |j|str]]; simpl; try done; try (intros [= <-]; apply normalize_wf).
  destruct j; try done. intros [= <-]. apply normalize_wf.
Qed.

(** A written document reads back with its rows in key order. *)
Lemma topology_written d :
  ∃ d', topology (dumps (JObj d)) = Ok d' ∧ wf_state d' ∧
        ∀ k id, is_section k = true → row d' k id = sort_json <$> row d k id.
Proof.
  eexists. split; [reflexivity|]. split; [apply normalize_wf|]. intros k id Hk.
  unfold row. rewrite normalize_section by done. unfold section.
  rewrite dget_sort_items, dget_map_values.
  destruct (dget d k) as [[| | | | | |x]|]; simpl; try done.
  by rewrite dget_sort_items, dget_map_values.
Qed.

Lemma get_section_ok t k :
  wf_state (t_state t) → is_section k = true →
  get_section k t = (Ok (section (t_state t) k), t).
Proof.
  intros Hwf Hk. unfold get_section, get, mbind, M_bind, getitem.
  by rewrite (wf_state_section _ _ Hwf Hk).
Qed.

(** ** Running a body under the lock *)
Section flock.
Context {A : Type} (body : M Txn A).

Definition start (s : Store) (d : dict json) : Txn :=
  mkTxn d (s_secrets s) (s_draws s) (f_content (s_alloc s)).

(** The body's part of [flock_state], on the topology file [f']. *)
Definition commit (s : Store) (f' : file) (d : dict json) : res A * Store :=
  let '(r, t) := body (start s d) in
  (put (mkStore f' (t_secrets t) (s_alloc s) (t_draws t)) ;;
   match r with
   | Ok a => on_topo (replace_write (dumps (JObj (t_state t)))) ;; mret a
   | Raise e => raise e
   end) s.

Lemma on_topo_locks s :
  (on_topo (sys SysMkdir ;; sys SysLock) s = (fail EOS, s) ∧ f_fault (s_topo s) ≠ None) ∨
  (on_topo (sys SysMkdir ;; sys SysLock) s = (Ok tt, s)).
Proof.
  destruct s as [[c m t q fault] sec al n]. unfold on_topo, zoom, mbind, M_bind, sys. simpl.
  destruct fault as [[]|]; simpl; first [by right|left; split; [reflexivity|discriminate]].
Qed.

Lemma on_topo_locks_same s f' :
  on_topo (sys SysMkdir ;; sys SysLock) s = (Ok tt, s) → f_fault f' = f_fault (s_topo s) →
  on_topo (sys SysMkdir ;; sys SysLock) (set_topo f' s) = (Ok tt, set_topo f' s).
Proof.
  destruct s as [[c m t q fault] sec al n], f' as [c' m' t' q' fault'].
  unfold on_topo, zoom, mbind, M_bind, sys. simpl. intros H ->. repeat case_decide; simpl in *; done.
Qed.

Lemma on_topo_locks_ok s :
  f_fault (s_topo s) = None → on_topo (sys SysMkdir ;; sys SysLock) s = (Ok tt, s).
Proof.
  destruct s as [[c m t q fault] sec al n]. simpl. by intros ->.
Qed.

Lemma flock_unlocked s :
  on_topo (sys SysMkdir ;; sys SysLock) s = (fail EOS, s) → flock_state body s = (fail EOS, s).
Proof. intros Hl. unfold flock_state. by rewrite (bind_raise _ _ _ _ _ Hl). Qed.

Lemma flock_after_lock s :
  on_topo (sys SysMkdir ;; sys SysLock) s = (Ok tt, s) →
  ∃ f', same_file (s_topo s) f' ∧
  flock_state body s = match topology (seen (s_topo s)) with
                       | Ok d => commit s f' d
                       | Raise e => (Raise e, set_topo f' s)
                       end.
Proof.
  intros Hl. destruct (load_topology_spec (s_topo s)) as (f' & Hload & Hsame).
  exists f'. split; [done|]. unfold flock_state. rewrite (bind_ok _ _ _ _ _ Hl).
  assert (Hz : on_topo load_state s = (topology (seen (s_topo s)), set_topo f' s)).
  { unfold on_topo, zoom. by rewrite Hload. }
  destruct (topology _) as [d|e].
  - rewrite (bind_ok _ _ _ _ _ Hz). rewrite (bind_ok get _ _ _ _ eq_refl).
    unfold commit, start. simpl. destruct (body _) as [r t]. done.
  - by rewrite (bind_raise _ _ _ _ _ Hz).
Qed.

Lemma replace_write_cases c f :
  (∃ f', replace_write c f = (Ok tt, f') ∧ f_content f' = c ∧ f_fault f' = f_fault f ∧
         f_mode f' = 420) ∨
  (∃ f' e, replace_write c f = (Raise e, f') ∧ f_content f' = f_content f ∧
           f_fault f' = f_fault f ∧ f_fault f ≠ None ∧ ex_kind e = EOS).
Proof.
  destruct f as [c0 m0 t0 q0 fault]. unfold replace_write, mbind, M_bind, sys, modify.
  destruct fault as [[]|]; simpl;
    first [by left; eexists; split_and!|right; by do 2 eexists; split_and!].
Qed.

(** What a call under the lock did to the files. *)
Lemma flock_cases s r s' :
  flock_state body s = (r, s') →
  f_fault (s_topo s') = f_fault (s_topo s) ∧ s_alloc s' = s_alloc s ∧
  ((∃ e, r = Raise e ∧ f_content (s_topo s') = f_content (s_topo s) ∧
         ((s_secrets s' = s_secrets s ∧ s_draws s' = s_draws s) ∨
          ∃ d r' t, topology (f_content (s_topo s)) = Ok d ∧ body (start s d) = (r', t) ∧
                    s_secrets s' = t_secrets t ∧ s_draws s' = t_draws t)) ∨
   (∃ d a t, topology (f_content (s_topo s)) = Ok d ∧ body (start s d) = (Ok a, t) ∧
             r = Ok a ∧ f_content (s_topo s') = dumps (JObj (t_state t)) ∧
             s_secrets s' = t_secrets t ∧ s_draws s' = t_draws t)).
Proof.
  destruct (on_topo_locks s) as [[He _]|Hl].
  { rewrite (flock_unlocked s He). intros [= <- <-]. eauto 10. }
  destruct (flock_after_lock s Hl) as (f' & (Hc & _ & _ & Hf) & ->).
  destruct (topology (seen (s_topo s))) as [d|e] eqn:Htop; [apply topology_seen in Htop|].
  2: { intros [= <- <-]. simpl. eauto 10. }
  unfold commit. destruct (body (start s d)) as [[a|e] t] eqn:Hbody; simpl.
  2: { intros [= <- <-]. simpl. split_and!; [done..|]. left. eexists. eauto 10. }
  unfold on_topo, zoom, put, mbind, M_bind. simpl.
  destruct (replace_write_cases (dumps (JObj (t_state t))) f')
    as [(f2 & -> & Hc2 & Hf2 & _)|(f2 & e & -> & Hc2 & Hf2 & _)];
    intros [= <- <-]; simpl; (split_and!; [congruence|done|]).
  - right. eauto 10.
  - left. eexists. split_and!; [done|congruence|]. right. eauto 10.
Qed.
End flock.

Section flock_forward.
Context {A : Type} (body : M Txn A) (s : Store) (d : dict json).
Context (Hfault : f_fault (s_topo s) = None).

Lemma flock_ok a t :
  topology (f_content (s_topo s)) = Ok d → body (start s d) = (Ok a, t) →
  ∃ s', flock_state body s = (Ok a, s') ∧ f_content (s_topo s') = dumps (JObj (t_state t)) ∧
        f_fault (s_topo s') = None ∧ s_secrets s' = t_secrets t ∧ s_alloc s' = s_alloc s ∧
        s_draws s' = t_draws t.
Proof.
  intros Htop Hbody.
  destruct (flock_after_lock body s (on_topo_locks_ok _ Hfault)) as (f' & (Hc & _ & _ & Hf) & ->).
  rewrite seen_ok, Htop by (by rewrite Hfault). unfold commit. rewrite Hbody.
  unfold on_topo, zoom, put, mbind, M_bind. simpl.
  destruct (replace_write_cases (dumps (JObj (t_state t))) f')
    as [(f2 & -> & Hc2 & Hf2 & _)|(f2 & e & _ & _ & _ & Hn & _)]; [|congruence].
  eexists. split; [done|]. simpl. split_and!; congruence.
Qed.

Lemma flock_raise e t :
  topology (f_content (s_topo s)) = Ok d → body (start s d) = (Raise e, t) →
  ∃ s', flock_state body s = (Raise e, s') ∧ same_file (s_topo s) (s_topo s') ∧
        s_secrets s' = t_secrets t ∧ s_alloc s' = s_alloc s ∧ s_draws s' = t_draws t.
Proof.
  intros Htop Hbody.
  destruct (flock_after_lock body s (on_topo_locks_ok _ Hfault)) as (f' & Hs & ->).
  rewrite seen_ok, Htop by (by rewrite Hfault). unfold commit. rewrite Hbody. eexists. by split.
Qed.
End flock_forward.

(** ** The secret file's operations *)
Lemma sys_cases c f : (sys c f = (fail EOS, f) ∧ f_fault f ≠ None) ∨ sys c f = (Ok tt, f).
Proof. unfold sys. case_decide; [left|right]; naive_solver. Qed.

Lemma secrets_lock_cases {A} (m : M file A) f :
  (∃ e, secrets_lock m f = (Raise e, f) ∧ f_fault f ≠ None) ∨ secrets_lock m f = m f.
Proof.
  destruct f as [c mo t q fault]. unfold secrets_lock, mbind, M_bind, sys. simpl.
  repeat (case_decide; simpl); eauto; left; eexists; (split; [done|congruence]).
Qed.

Lemma write_secrets_cases data f :
  (∃ f', write_secrets data f = (Ok tt, f') ∧ f_content f' = dumps (JObj data) ∧ f_mode f' = 384 ∧
         f_fault f' = f_fault f) ∨
  (∃ f' e, write_secrets data f = (Raise e, f') ∧ f_content f' = f_content f ∧
           f_mode f' = f_mode f ∧ f_fault f' = f_fault f ∧ f_fault f ≠ None).
Proof.
  unfold write_secrets. rewrite atomic_write_refines. unfold write_spec, write_faults.
  destruct (f_fault f) as [x|] eqn:Hf.
  - destruct (aborts_write _ x) eqn:Hx; [right; do 2 eexists|left; eexists]; by split_and!.
  - left. eexists. by split_and!.
Qed.

(** [_set_node_secret]: the token is stored, or the tokens on file stay as they were. *)
Lemma set_node_secret_cases id tok f :
  (∃ d f', set_node_secret id tok f = (Ok tt, f') ∧ secrets_of (seen f) = Ok d ∧
           f_content f' = dumps (JObj (dset d id tok)) ∧ f_mode f' = 384 ∧
           f_fault f' = f_fault f) ∨
  (∃ f' e, set_node_secret id tok f = (Raise e, f') ∧ f_content f' = f_content f ∧
           f_mode f' = f_mode f ∧ f_fault f' = f_fault f ∧
           (f_fault f ≠ None ∨ secrets_of (f_content f) = Raise e)).
Proof.
  unfold set_node_secret. destruct (sys_cases SysMkdir f) as [[Hs Hf]|Hs].
  { rewrite (bind_raise _ _ _ _ _ Hs). right. do 2 eexists. split_and!; [done..|]. by left. }
  rewrite (bind_ok _ _ _ _ _ Hs).
  destruct (secrets_lock_cases (data ← read_secrets; write_secrets (dset data id tok)) f)
    as [(e & -> & Hf)| ->].
  { right. do 2 eexists. split_and!; [done..|]. by left. }
  destruct (read_secrets_spec f) as (f1 & Hr & Hc & Hmode & _ & Hfault).
  destruct (secrets_of (seen f)) as [d|e] eqn:Hd; [|apply secrets_seen_raise in Hd].
  - rewrite (bind_ok _ _ _ _ _ Hr).
    destruct (write_secrets_cases (dset d id tok) f1)
      as [(f2 & -> & ? & ? & ?)|(f2 & e & -> & ? & ? & ? & ?)]; [left|right].
    + do 2 eexists. split_and!; try done. congruence.
    + do 2 eexists. split_and!; [done|congruence..|]. left. congruence.
  - rewrite (bind_raise _ _ _ _ _ Hr). right. do 2 eexists. split_and!; try done. by right.
Qed.

(** [_remove_node_secret]: afterwards the file holds no token of the node, or nothing
    changed. *)
Lemma remove_node_secret_cases id f :
  (∃ d f', remove_node_secret id f = (Ok tt, f') ∧ secrets_of (seen f) = Ok d ∧
           f_fault f' = f_fault f ∧
           ((f_content f' = f_content f ∧ f_mode f' = f_mode f ∧ dget d id = None) ∨
            f_content f' = dumps (JObj (ddel d id)) ∧ f_mode f' = 384)) ∨
  (∃ f' e, remove_node_secret id f = (Raise e, f') ∧ f_content f' = f_content f ∧
           f_mode f' = f_mode f ∧ f_fault f' = f_fault f ∧
           (f_fault f ≠ None ∨ secrets_of (f_content f) = Raise e)).
Proof.
  unfold remove_node_secret. rewrite (bind_ok get _ f f f eq_refl).
  destruct (exists_ (f_content f)) eqn:He.
  2: { left. exists [], f. rewrite seen_absent by done. destruct (f_content f) as [| | |]; try done. eauto 10. }
  cbv iota.
  match goal with |- context [secrets_lock ?m f] =>
    destruct (secrets_lock_cases m f) as [(e & -> & Hf)| ->] end.
  { right. do 2 eexists. split_and!; [done..|]. by left. }
  destruct (read_secrets_spec f) as (f1 & Hr & Hc & Hmode & _ & Hfault).
  destruct (secrets_of (seen f)) as [d|e] eqn:Hd; [|apply secrets_seen_raise in Hd].
  2: { rewrite (bind_raise _ _ _ _ _ Hr). right. do 2 eexists. split_and!; try done. by right. }
  rewrite (bind_ok _ _ _ _ _ Hr). unfold dmem. destruct (dget d id) eqn:Hid.
  2: { left. do 2 eexists. split_and!; try done. left. by split_and!. }
  destruct (write_secrets_cases (ddel d id) f1)
    as [(f2 & -> & ? & ? & ?)|(f2 & e & -> & ? & ? & ? & ?)]; [left|right].
  - do 2 eexists. split_and!; try done; [congruence|]. by right.
  - do 2 eexists. split_and!; [done|congruence..|]. left. congruence.
Qed.

(** ** Corruption fails closed *)

(** What a read finds when the file is there and is not a topology document. *)
Definition damaged (c : content) : bool :=
  match c with
  | Absent => false
  | Unreadable | NotUtf8 => true
  | Text t => negb (blank t) && match t with TxDoc (JObj _) => false | _ => true end
  end.

(** Bytes that are not UTF-8 escape as the decoding error of [read_text]. *)
Definition refused_as (c : content) : exn_kind :=
  match c with NotUtf8 => EUnicodeDecode | _ => EStoreCorruption end.

Lemma load_damaged f :
  damaged (seen f) = true →
  load_state f = (fail (refused_as (seen f)), match seen f with NotUtf8 => f | _ => quarantined f end).
Proof.
  rewrite load_state_eq. destruct (seen f) as [| | |t]; try done. simpl.
  destruct (blank t); [done|]. by destruct t as [| | |[]|].
Qed.

Lemma flock_unloaded {A} (body : M Txn A) s k f' :
  on_topo (sys SysMkdir ;; sys SysLock) s = (Ok tt, s) → load_state (s_topo s) = (fail k, f') →
  flock_state body s = (fail k, set_topo f' s).
Proof.
  intros Hl Hload. unfold flock_state. rewrite (bind_ok _ _ _ _ _ Hl).
  apply bind_raise. unfold on_topo, zoom. by rewrite Hload.
Qed.

Lemma same_seen f f' : same_file f f' → seen f' = seen f.
Proof. intros (Hc & _ & _ & Hf). unfold seen. by rewrite Hc, Hf. Qed.

(** After a refused load, the next one finds the same. *)
Lemma load_damaged_again f k f' :
  damaged (seen f) = true → load_state f = (fail k, f') →
  k = refused_as (seen f) ∧ same_file f f' ∧ load_state f' = (fail k, f') ∧
  (f_copies f' = f_copies f ∨ f_copies f = [] ∧ f_copies f' = [f_content f]).
Proof.
  intros Hd Hl. pose proof (load_damaged f Hd) as He. rewrite Hl in He. injection He as -> Hf'.
  destruct (quarantined_copies f) as [Hc Hq]. pose proof (quarantined_same f) as Hs.
  assert (Hsame : same_file f f') by (rewrite Hf'; by destruct (seen f)).
  pose proof (same_seen _ _ Hsame) as Hseen.
  split_and!; [done|done| |].
  - rewrite load_damaged by (by rewrite Hseen). rewrite Hseen, Hf'. by destruct (seen f); rewrite ?Hq.
  - rewrite Hf'. destruct (seen f); auto.
Qed.

Lemma status_damaged f :
  damaged (seen f) = true → load_state f = (fail (refused_as (seen f)), f) →
  store_corruption_status f =
    (match seen f with NotUtf8 => fail EUnicodeDecode | _ => Ok (true, last (f_copies f)) end, f).
Proof.
  intros Hd Hl. unfold store_corruption_status, try_except, mbind, M_bind. rewrite Hl.
  destruct (seen f); try done. 
Qed.

(** C12. Fail closed: while the topology file is there and cannot be read, is not UTF-8,
    or holds anything but a JSON object, every mutation raises before its body runs,
    whichever system call fails and whatever copies are there: the topology file, the
    secret file and the allocator's file are untouched, at most one forensic copy of the
    bytes is added and never a second, and every later call meets the same refusal. The
    refusal is the [OSError] of the lock, the decoding error for bytes that are not
    UTF-8 (which the health probe lets through too), and [StoreCorruptionError] for
    everything else, which the probe reports with the latest copy. *)
Theorem topology_fails_closed s :
  damaged (seen (s_topo s)) = true →
  ∃ k s',
    (∀ A (body : M Txn A), flock_state body s = (fail k, s') ∧ flock_state body s' = (fail k, s')) ∧
    s_secrets s' = s_secrets s ∧ s_alloc s' = s_alloc s ∧ s_draws s' = s_draws s ∧
    same_file (s_topo s) (s_topo s') ∧
    (f_copies (s_topo s') = f_copies (s_topo s) ∨
     f_copies (s_topo s) = [] ∧ f_copies (s_topo s') = [f_content (s_topo s)]) ∧
    (k = EOS ∧ s' = s ∧ f_fault (s_topo s) ≠ None ∨
     k = refused_as (seen (s_topo s)) ∧
     store_corruption_status (s_topo s')
     = (match seen (s_topo s) with
        | NotUtf8 => fail EUnicodeDecode
        | _ => Ok (true, last (f_copies (s_topo s')))
        end, s_topo s')).
Proof.
  intros Hd. destruct (on_topo_locks s) as [[He Hf]|Hl].
  { exists EOS, s. split_and!; try done; [|by left|by left].
    intros A body. by rewrite (flock_unlocked body s He). }
  destruct (load_state (s_topo s)) as [[x|[k m]] f'] eqn:Hload.
  { rewrite load_damaged in Hload by done. discriminate Hload. }
  assert (m = EmptyString) as -> by (rewrite load_damaged in Hload by done; by injection Hload).
  destruct (load_damaged_again _ _ _ Hd Hload) as (-> & Hs & Hagain & Hcopies).
  exists (refused_as (seen (s_topo s))), (set_topo f' s). pose proof (same_seen _ _ Hs) as Hseen.
  split_and!; try done.
  - intros A body. split; [by apply flock_unloaded|].
    apply (flock_unloaded body (set_topo f' s)); [|done].
    apply on_topo_locks_same; [done|apply Hs].
  - right. split; [done|]. simpl. rewrite <- Hseen. apply status_damaged; by rewrite Hseen.
Qed.

Definition corrupt_store (c : content) : Store := mkStore (file_of c) (file_of Absent) (file_of Absent) 0.

(** A JSON array and bytes that are not UTF-8. *)
Lemma topology_fails_closed_witness :
  (∃ s', flock_state (get_section "nodes") (corrupt_store (Text (TxDoc (JArr [])))) = (fail EStoreCorruption, s') ∧
         f_content (s_topo s') = Text (TxDoc (JArr [])) ∧
         store_corruption_status (s_topo s') = (Ok (true, Some (Text (TxDoc (JArr [])))), s_topo s')) ∧
  ∃ s', flock_state (get_section "nodes") (corrupt_store NotUtf8) = (fail EUnicodeDecode, s') ∧
        store_corruption_status (s_topo s') = (fail EUnicodeDecode, s_topo s').
Proof.
  split.
  - destruct (topology_fails_closed (corrupt_store (Text (TxDoc (JArr []))))) as (k & s' & Hrun & _ & _ & _ & Hs & Hc & Hk);
      [reflexivity|].
    exists s'. destruct (Hrun _ (get_section "nodes")) as [Hr _]. vm_compute in Hr. injection Hr as <- <-.
    split_and!; vm_compute; reflexivity.
  - destruct (topology_fails_closed (corrupt_store NotUtf8)) as (k & s' & Hrun & _ & _ & _ & Hs & Hc & Hk);
      [reflexivity|].
    exists s'. destruct (Hrun _ (get_section "nodes")) as [Hr _]. vm_compute in Hr. injection Hr as <- <-.
    split; vm_compute; reflexivity.
Defined.

(** Where the secret file cannot be read (an access error, not damage), the tokens read as
    empty and the write that follows replaces them: the tokens of every other node are
    lost. *)
Theorem unreadable_secrets_replaced id tok f :
  f_fault f = None ∨ f_fault f = Some SysRead → seen f = Unreadable →
  ∃ f', set_node_secret id tok f = (Ok tt, f') ∧ f_content f' = dumps (JObj [(id, tok)]) ∧
        f_copies f' = f_copies f.
Proof.
  destruct f as [c m t q fault]. unfold seen. simpl.
  intros [-> | ->]; (destruct c; simpl; try done); intros _; eexists; by split_and!.
Qed.

(** One read that fails, of a file whose content is fine. *)
Definition unread_secrets : file :=
  set_fault (Some SysRead) (file_of (Text (TxDoc (JObj [("node-0", JStr "t0")]%string)))).

Lemma unreadable_secrets_replaced_witness :
  ∃ f', set_node_secret "node-1" (JStr "t") unread_secrets = (Ok tt, f') ∧
        f_content f' = dumps (JObj [("node-1", JStr "t")]%string) ∧ f_copies f' = [].
Proof. exact (unreadable_secrets_replaced _ _ unread_secrets (or_intror eq_refl) eq_refl). Defined.
