(* ===== verification/Nodes.v ===== *)
(** * The node table ([stream_binding_store/nodes.py])

    Remote camera hosts: registration with an allocation-window ordinal and a private
    agent token, the single-column updates, and the cascade that forgets a host. *)
From Stdlib Require Import Ascii.
From S2P Require Import Prelude.
From S2P Require Import PyVal.
From S2P Require Import FileStore.
From S2P Require Import BindingModels.
From S2P Require Import TopologyStore.

(** [GATEWAY_LAN_IP] and [CAMERA_LAN_CIDR] (as [ip_network(..., strict=False)] reads
    it: unset, not a network, or a base address and a prefix length). *)
Inductive cidr := NoCidr | BadCidr | Cidr (base prefix : Z).
Record Lan := mkLan { GATEWAY_LAN_IP : string; CAMERA_LAN_CIDR : cidr }.

Section ops.
Context `{Entropy}.

(** [_with_token]: the token of the secret file, or a legacy inline one. *)
Definition with_token (entry : NodeEntry) (raw : json) : M file NodeEntry :=
  data ← read_secrets;
  let tok := default JNull (dget data (n_node_id entry)) in
  if truthy tok then mret (with_agent_token tok entry)
  else
    tok ← lift (jget raw "agent_token" JNull);
    mret (with_agent_token tok entry).

Definition get_node (node_id : string) : M Store (option NodeEntry) :=
  if String.eqb node_id LOCAL_NODE_ID then mret (Some LOCAL_NODE)
  else
    d ← on_topo load_state;
    let raw := default JNull (dget (section d "nodes") node_id) in
    if truthy raw then
      entry ← lift (node_from_raw node_id raw);
      entry ← on_secrets (with_token entry raw);
      mret (Some entry)
    else mret None.

(** [x == z] for an int [z] *)
Definition py_eq_int (x : json) (z : Z) : bool :=
  match x with
  | JInt y => y =? z
  | JBool b => (if b then 1 else 0) =? z
  | JFloat q => Qeq_bool q (inject_Z z)
  | _ => false
  end.

(** The set comprehension over the rows' ordinals: unhashable values raise. *)
Fixpoint used_ordinals (rows : list json) : res (list json) :=
  match rows with
  | [] => Ok []
  | n :: rows' =>
      o ← jget n "ordinal" JNull;
      match o with
      | JNull => used_ordinals rows'
      | JArr _ | JObj _ => fail EType
      | _ => r ← used_ordinals rows'; Ok (o :: r)
      end
  end.

(** [while ordinal in used: ordinal += 1] *)
Fixpoint next_free (fuel : nat) (ordinal : Z) (used : list json) : res Z :=
  match fuel with
  | O => fail EFuel
  | S fuel' =>
      if existsb (fun o => py_eq_int o ordinal) used then next_free fuel' (ordinal + 1) used
      else Ok ordinal
  end.

Definition mint_ordinal (nodes : dict json) : res Z :=
  used ← used_ordinals (dvals nodes); next_free (S (length used)) 0 used.

(** [existing.get("agent_token") or _read_secrets(...).get(node_id) or mint_agent_token()] *)
Definition node_token (existing : json) (node_id : string) : M Txn json :=
  tok ← lift (jget existing "agent_token" JNull);
  if truthy tok then mret tok
  else
    data ← txn_secrets read_secrets;
    let tok := default JNull (dget data node_id) in
    if truthy tok then mret tok else mint_agent_token.

Definition override (new : option string) (existing : json) (key : string) : res json :=
  match new with Some s => Ok (JStr s) | None => jget existing key JNull end.

Definition upsert_body (node_id host role reachability : string)
    (serial display_name : option string) : M Txn NodeEntry :=
  nodes ← get_section "nodes";
  let existing := default (JObj []) (dget nodes node_id) in
  ordinal ← lift (jget existing "ordinal" JNull);
  ordinal ← (if is_null ordinal then z ← lift (mint_ordinal nodes); mret (JInt z)
             else mret ordinal);
  serial ← lift (override serial existing "serial");
  display_name ← lift (override display_name existing "display_name");
  provision_state ← lift (jget existing "provision_state" JNull);
  host_key ← lift (jget existing "host_key" JNull);
  maintenance ← lift (jget existing "maintenance" (JBool false));
  last_error ← lift (jget existing "last_error" JNull);
  last_checked_at ← lift (jget existing "last_checked_at" JNull);
  agent_token ← node_token existing node_id;
  let entry := mkNode node_id host role reachability ordinal serial display_name
                 provision_state host_key agent_token (truthy maintenance) last_error
                 last_checked_at in
  put_section "nodes" (dset nodes node_id (node_to_dict entry)) ;;
  txn_secrets (set_node_secret node_id (n_agent_token entry)) ;;
  mret entry.

Definition upsert_node (node_id host role reachability : string)
    (serial display_name : option string) : M Store NodeEntry :=
  if String.eqb node_id LOCAL_NODE_ID then throw EBindingValidation
  else flock_state (upsert_body node_id host role reachability serial display_name).

(** One read of the secret file per row. *)
Fixpoint decode_nodes (items : dict json) (out : dict NodeEntry) : M file (dict NodeEntry) :=
  match items with
  | [] => mret out
  | (nid, raw) :: items' =>
      entry ← lift (node_from_raw nid raw);
      entry ← with_token entry raw;
      decode_nodes items' (dset out nid entry)
  end.

Definition list_nodes : M Store (dict NodeEntry) :=
  d ← on_topo load_state;
  on_secrets (decode_nodes (section d "nodes") [(LOCAL_NODE_ID, LOCAL_NODE)]).

(** The shape of every single-row update: look the row up, change it in place. *)
Definition update_row (sec : string) (id : string) (f : json → M Txn json) : M Txn json :=
  rows ← get_section sec;
  let raw := default JNull (dget rows id) in
  if truthy raw then
    raw' ← f raw;
    put_section sec (dset rows id raw') ;;
    mret raw'
  else throw EKey.

Definition update_node (id : string) (f : json → M Txn json) : M Store NodeEntry :=
  flock_state (raw ← update_row "nodes" id f; lift (node_from_raw id raw)).

Definition set_reachability (node_id reachability : string) : M Store NodeEntry :=
  update_node node_id (fun raw => lift (setitem raw "reachability" (JStr reachability))).

Definition set_serial (node_id : string) (serial : json) : M Store NodeEntry :=
  update_node node_id (fun raw => lift (setitem raw "serial" serial)).

(** [x or y] *)
Definition py_or (x y : json) : json := if truthy x then x else y.

(** [x[:300]] *)
Definition slice300 (x : json) : res json :=
  match x with
  | JStr s => Ok (JStr (String.substring 0 300 s))
  | JArr l => Ok (JArr (take 300 l))
  | JObj _ => fail EUnmodelled
  | _ => fail EType
  end.

Definition set_provision_state (node_id provision_state : string) (detail : option string)
    : M Store NodeEntry :=
  update_node node_id (fun raw => lift (
    raw' ← setitem raw "provision_state" (JStr provision_state);
    if String.eqb provision_state "failed" then
      prev ← jget raw' "last_error" JNull;
      msg ← slice300 (py_or (py_or (jopt JStr detail) prev) (JStr EmptyString));
      setitem raw' "last_error" msg
    else setitem raw' "last_error" JNull)).

Definition touch_checked (node_id reachability : string) : M Store NodeEntry :=
  update_node node_id (fun raw =>
    raw' ← lift (setitem raw "reachability" (JStr reachability));
    now ← draw clock;
    lift (setitem raw' "last_checked_at" (JFloat now))).

Definition set_maintenance (node_id : string) (on : bool) : M Store NodeEntry :=
  update_node node_id (fun raw => lift (setitem raw "maintenance" (JBool on))).

Definition set_host_key (node_id host_key : string) : M Store NodeEntry :=
  update_node node_id (fun raw => lift (setitem raw "host_key" (JStr host_key))).

Definition set_agent_token (node_id token : string) : M Store NodeEntry :=
  flock_state (
    nodes ← get_section "nodes";
    let raw := default JNull (dget nodes node_id) in
    if truthy raw then
      txn_secrets (set_node_secret node_id (JStr token)) ;;
      entry ← lift (node_from_raw node_id raw);
      mret (with_agent_token (JStr token) entry)
    else throw EKey).

(** The checks of [add_node_by_host] before it takes the lock. *)
Definition valid_remote_host (lan : Lan) (host : string) : res unit :=
  match parse_ipv4 host with
  | None => fail EBindingValidation
  | Some ip =>
      if is_loopback_ip ip || is_unspecified_ip ip || is_multicast_ip ip || is_reserved_ip ip
      then fail EBindingValidation
      else if negb (String.eqb (GATEWAY_LAN_IP lan) EmptyString)
              && String.eqb host (GATEWAY_LAN_IP lan) then fail EBindingValidation
      else match CAMERA_LAN_CIDR lan with
           | Cidr base prefix => if in_net base prefix ip then Ok tt else fail EBindingValidation
           | NoCidr | BadCidr => Ok tt
           end
  end.

(** The first row with this host, in the order of the table. *)
Fixpoint find_host (host : string) (items : dict json) : res (option (string * json)) :=
  match items with
  | [] => Ok None
  | (nid, raw) :: items' =>
      h ← jget raw "host" JNull; h ← to_str h;
      if String.eqb h host then Ok (Some (nid, raw)) else find_host host items'
  end.

Definition add_body (host : string) (display_name : option string) (role : string)
    : M Txn NodeEntry :=
  nodes ← get_section "nodes";
  found ← lift (find_host host nodes);
  match found with
  | Some (nid, raw) =>
      entry ← lift (node_from_raw nid raw);
      txn_secrets (with_token entry raw)
  | None =>
      hex ← draw uuid12;
      let node_id := ("node-" ++ hex)%string in
      ordinal ← lift (mint_ordinal nodes);
      tok ← mint_agent_token;
      let entry := mkNode node_id host role "unknown" (JInt ordinal) JNull
                     (jopt JStr display_name) JNull JNull tok false JNull JNull in
      put_section "nodes" (dset nodes node_id (node_to_dict entry)) ;;
      txn_secrets (set_node_secret node_id (n_agent_token entry)) ;;
      mret entry
  end.

Definition add_node_by_host (lan : Lan) (host : string) (display_name : option string)
    (role : string) : M Store NodeEntry :=
  let host := py_strip host in
  lift (valid_remote_host lan host) ;;
  flock_state (add_body host display_name role).

(** [x == s] for a string [s] *)
Definition py_eq_str (x : json) (s : string) : bool :=
  match x with JStr x => String.eqb x s | _ => false end.

(** The cascade's loop over a snapshot of the binding ids. *)
Fixpoint drop_bindings (node_id : string) (ids : list string) (bindings : dict json)
    : res (dict json * list string) :=
  match ids with
  | [] => Ok (bindings, [])
  | bid :: ids' =>
      raw ← getitem (JObj bindings) bid;
      owner ← jget raw "node_id" JNull;
      if py_eq_str owner node_id then
        '(b, removed) ← drop_bindings node_id ids' (ddel bindings bid);
        Ok (b, bid :: removed)
      else drop_bindings node_id ids' bindings
  end.

Definition remove_body (node_id : string) : M Txn (bool * list string) :=
  nodes ← get_section "nodes";
  let present := dmem nodes node_id in
  bindings ← get_section "bindings";
  '(bindings', removed) ← lift (drop_bindings node_id (dkeys bindings) bindings);
  put_section "bindings" bindings' ;;
  put_section "nodes" (ddel nodes node_id) ;;
  mret (present, removed).

Definition remove_node (node_id : string) : M Store (bool * list string) :=
  if String.eqb node_id LOCAL_NODE_ID then throw EBindingValidation
  else
    out ← flock_state (remove_body node_id);
    on_secrets (remove_node_secret node_id) ;;
    mret out.
End ops.
