(* ===== verification/Bindings.v ===== *)
(** * Stream bindings ([stream_binding_store/bindings.py])

    The merged view of projected local and stored remote bindings, the remote-only
    writes validated against the union of this store and the mountpoint allocator, and
    the per-node allocation windows above the legacy pool. *)
From Stdlib Require Import Ascii.
From S2P Require Import Prelude.
From S2P Require Import PyVal.
From S2P Require Import FileStore.
From S2P Require Import Allocator.
From S2P Require Import BindingModels.
From S2P Require Import TopologyStore.
From S2P Require Import Nodes.

Definition REMOTE_MP_MIN : Z := 2000.
Definition REMOTE_PORT_MIN : Z := 5100.
Definition NODE_MP_WINDOW : Z := 100.
Definition NODE_PORT_WINDOW : Z := 100.
Definition MAX_REMOTE_NODES : Z := 16.

(** ** The shared free-list *)

(** [int(b["janus"]["mountpoint_id"])], [int(b["transport"]["rtp_port"])] *)
Definition slot_of (b : json) : res (Z * Z) :=
  janus ← getitem b "janus"; mp ← getitem janus "mountpoint_id"; mp ← to_int mp;
  transport ← getitem b "transport"; rtp ← getitem transport "rtp_port"; rtp ← to_int rtp;
  Ok (mp, rtp).

Fixpoint slots_of (rows : list json) : res (list (Z * Z)) :=
  match rows with
  | [] => Ok []
  | b :: rows' => s ← slot_of b; r ← slots_of rows'; Ok (s :: r)
  end.

Definition ports_of (slots : list (Z * Z)) : list Z :=
  flat_map (fun '(_, rtp) => [rtp; rtp + 1]) slots.

Definition used_sets (bindings : dict json) (alloc : content) : res (list Z * list Z) :=
  slots ← slots_of (dvals bindings);
  allocs ← list_allocations alloc;
  let local := map (fun a => (mp_id a, rtp_port a)) (dvals allocs) in
  Ok ((slots ++ local).*1, ports_of (slots ++ local)).

(** ** Reads *)

(** [key.rsplit(":", 1)[-1]] *)
Definition sensor_of_key (key : string) : string :=
  String.string_of_list_ascii
    (default [] (last (split_on ":"%char (String.list_ascii_of_string key)))).

Definition project_allocation (key : string) (a : Allocation) : StreamBinding :=
  mkBinding key LOCAL_NODE_ID (sensor_of_key key) LOCAL_PRODUCER
    (mkTransport (rtp_port a) 96 "h264" JNull) (mkJanusConfig (mp_id a) LOOPBACK) default_fdir
    (if desired_active a then "online" else "configured_offline") true.

Definition project_local (alloc : content) : res (dict StreamBinding) :=
  allocs ← list_allocations alloc;
  Ok (map (fun '(key, a) => (key, project_allocation key a)) allocs).

Fixpoint overlay (items : dict json) (out : dict StreamBinding) : res (dict StreamBinding) :=
  match items with
  | [] => Ok out
  | (bid, raw) :: items' => b ← binding_from_raw raw; overlay items' (dset out bid b)
  end.

Definition list_bindings : M Store (dict StreamBinding) :=
  s ← get;
  local ← lift (project_local (f_content (s_alloc s)));
  d ← on_topo load_state;
  lift (overlay (section d "bindings") local).

Definition get_binding (binding_id : string) : M Store (option StreamBinding) :=
  all ← list_bindings; mret (dget all binding_id).

(** ** Writes *)

(** [f"{serial}:{sensor}"] once the serial is known, [f"{node_id}:{sensor}"] before. *)
Definition remote_binding_id (node : NodeEntry) (sensor : string) : res string :=
  if truthy (n_serial node) then
    serial ← to_str (n_serial node); Ok (serial ++ ":" ++ sensor)%string
  else Ok (n_node_id node ++ ":" ++ sensor)%string.

Definition validate_remote (binding : StreamBinding) (node : option NodeEntry)
    (used_mp used_port : list Z) (janus_mount_id : Z) : res unit :=
  if negb (bool_decide (b_mode binding = REMOTE_PRODUCER)) then fail EBindingValidation
  else
    match node with
    | None => fail EBindingValidation
    | Some node =>
        rid ← remote_binding_id node (b_sensor binding);
        let iface := jc_rtp_iface (b_janus binding) in
        let port := tr_rtp_port (b_transport binding) in
        let mp := jc_mountpoint_id (b_janus binding) in
        if negb (String.eqb (b_binding_id binding) (b_node_id binding ++ ":" ++ b_sensor binding)
                 || String.eqb (b_binding_id binding) rid) then fail EBindingValidation
        else if negb (is_ipv4 (n_host node)) || is_loopback (n_host node)
        then fail EBindingValidation
        else if negb (is_ipv4 iface) || is_loopback iface then fail EBindingValidation
        else if negb (port mod 2 =? 0) then fail EBindingValidation
        else if port <? REMOTE_PORT_MIN then fail EBindingValidation
        else if mp <? REMOTE_MP_MIN then fail EBindingValidation
        else if mp =? janus_mount_id then fail EBindingValidation
        else if zmem mp used_mp then fail EBindingValidation
        else if zmem port used_port || zmem (port + 1) used_port then fail EBindingValidation
        else Ok tt
    end.

Definition upsert_binding_body (binding : StreamBinding) (janus_mount_id : Z)
    : M Txn StreamBinding :=
  bindings ← get_section "bindings";
  let others := List.filter (fun kv => negb (String.eqb kv.1 (b_binding_id binding))) bindings in
  t ← get;
  '(used_mp, used_port) ← lift (used_sets others (t_alloc t));
  nodes ← get_section "nodes";
  let node_raw := default JNull (dget nodes (b_node_id binding)) in
  node ← (if truthy node_raw then n ← lift (node_from_raw (b_node_id binding) node_raw);
                                  mret (Some n)
          else mret None);
  lift (validate_remote binding node used_mp used_port janus_mount_id) ;;
  put_section "bindings" (dset bindings (b_binding_id binding) (binding_to_dict binding)) ;;
  mret binding.

Definition upsert_binding (binding : StreamBinding) (janus_mount_id : Z)
    : M Store StreamBinding :=
  flock_state (upsert_binding_body binding janus_mount_id).

Definition remove_binding (binding_id : string) : M Store bool :=
  flock_state (
    bindings ← get_section "bindings";
    if dmem bindings binding_id then
      put_section "bindings" (ddel bindings binding_id) ;; mret true
    else mret false).

(** [nodes.get(x)] for a key of any JSON type: only strings are keys, containers are
    not hashable. *)
Definition get_by_key (d : dict json) (x : json) : res json :=
  match x with
  | JStr k => Ok (default JNull (dget d k))
  | JArr _ | JObj _ => fail EType
  | _ => Ok JNull
  end.

(** [str.format] of [b.get('sensor')] *)
Definition migrate_target (nodes : dict json) (b : json) : res (option string) :=
  mode ← jget b "mode" JNull;
  if py_eq_str mode "remote_producer" then
    nid ← jget b "node_id" JNull;
    node_raw ← get_by_key nodes nid;
    serial ← (if truthy node_raw then jget node_raw "serial" JNull else Ok JNull);
    if truthy serial then
      sensor ← jget b "sensor" JNull;
      serial ← to_str serial; sensor ← to_str sensor;
      Ok (Some (serial ++ ":" ++ sensor)%string)
    else Ok None
  else Ok None.

Fixpoint migrate_loop (nodes : dict json) (ids : list string) (bindings : dict json)
    (migrated : Z) : res (dict json * Z) :=
  match ids with
  | [] => Ok (bindings, migrated)
  | old_id :: ids' =>
      b ← getitem (JObj bindings) old_id;
      target ← migrate_target nodes b;
      match target with
      | None => migrate_loop nodes ids' bindings migrated
      | Some new_id =>
          if String.eqb new_id old_id || dmem bindings new_id
          then migrate_loop nodes ids' bindings migrated
          else
            b' ← setitem b "binding_id" (JStr new_id);
            migrate_loop nodes ids' (ddel (dset bindings new_id b') old_id) (migrated + 1)
      end
  end.

Definition migrate_remote_binding_ids : M Store Z :=
  flock_state (
    bindings ← get_section "bindings";
    nodes ← get_section "nodes";
    '(bindings', migrated) ← lift (migrate_loop nodes (dkeys bindings) bindings 0);
    put_section "bindings" bindings' ;;
    mret migrated).

Definition update_binding (id : string) (f : json → res json) : M Store StreamBinding :=
  flock_state (raw ← update_row "bindings" id (fun raw => lift (f raw));
               lift (binding_from_raw raw)).

Definition set_status (binding_id status : string) : M Store StreamBinding :=
  lift (parse_status status) ;;
  update_binding binding_id (fun raw => setitem raw "status" (JStr status)).

(** [dict(x)]: a dict, or an empty iterable; other iterables are outside the model. *)
Definition py_dict (x : json) : res (dict json) :=
  match x with
  | JObj d => Ok d
  | JArr [] => Ok []
  | JArr _ => fail EUnmodelled
  | JStr s => if String.eqb s EmptyString then Ok [] else fail EValue
  | _ => fail EType
  end.

Definition set_fdir_enabled (binding_id : string) (enabled : bool) : M Store StreamBinding :=
  update_binding binding_id (fun raw =>
    fdir ← jget raw "fdir" (JObj []);
    fdir ← py_dict fdir;
    setitem raw "fdir" (JObj (dset fdir "enabled" (JBool enabled)))).

Definition set_desired_up (binding_id : string) (up : bool) : M Store StreamBinding :=
  update_binding binding_id (fun raw => setitem raw "desired_up" (JBool up)).

(** ** Allocation windows *)

(** [lo + node.ordinal * window] where only an integer gives a range. *)
Definition window_base (lo window : Z) (ordinal : json) : res Z :=
  match ordinal with
  | JInt z => Ok (lo + z * window)
  | JBool b => Ok (lo + (if b then 1 else 0) * window)
  | _ => fail EType
  end.

(** The node's ordinal and the two used sets. *)
Definition allocation_inputs (node_id : string) : M Store (json * (list Z * list Z)) :=
  d ← on_topo load_state;
  node ← get_node node_id;
  match node with
  | None => throw EAllocation
  | Some node =>
      if is_null (n_ordinal node) then throw EAllocation
      else
        s ← get;
        used ← lift (used_sets (section d "bindings") (f_content (s_alloc s)));
        mret (n_ordinal node, used)
  end.

Definition allocate_mountpoint (node_id : string) : M Store Z :=
  '(ordinal, (used_mp, _)) ← allocation_inputs node_id;
  lo ← lift (window_base REMOTE_MP_MIN NODE_MP_WINDOW ordinal);
  match List.find (fun i => negb (zmem i used_mp)) (zrange lo 1 (Z.to_nat NODE_MP_WINDOW)) with
  | Some mp => mret mp
  | None => throw EAllocation
  end.

Definition allocate_port (node_id : string) : M Store Z :=
  '(ordinal, (_, used_port)) ← allocation_inputs node_id;
  lo ← lift (window_base REMOTE_PORT_MIN NODE_PORT_WINDOW ordinal);
  match List.find (fun p => negb (zmem p used_port) && negb (zmem (p + 1) used_port))
          (zrange lo 2 (Z.to_nat (NODE_PORT_WINDOW / 2))) with
  | Some p => mret p
  | None => throw EAllocation
  end.
