(* ===== verification/TopologyCalls.v ===== *)
(** * The topology store as a state machine

    The abstract specification of the node and binding tables: the edits a mutation may
    make, the refinement theorem that every call of [nodes.py] and [bindings.py]
    either leaves the document alone or performs such edits, and the invariants that
    follow for every sequence of calls, whatever system calls fail in between. Every
    call holds the store's file lock from load to rename, so a sequence of calls is any
    interleaving of the threads and processes that share the store. *)
From S2P Require Import Prelude.
From S2P Require Import PyVal.
From S2P Require Import FileStore.
From S2P Require Import Allocator.
From S2P Require Import BindingModels.
From S2P Require Import TopologyStore.
From S2P Require Import Nodes.
From S2P Require Import Bindings.

(** ** Inversion of successful runs *)
Lemma get_section_inv k t x t' :
  get_section k t = (Ok x, t') → dget (t_state t) k = Some (JObj x) ∧ section (t_state t) k = x ∧ t' = t.
Proof.
  unfold get_section, get, mbind, M_bind, getitem, section.
  destruct (dget (t_state t) k) as [[]|]; try done. by intros [= <- <-].
Qed.

Lemma put_section_inv k v t u t' :
  put_section k v t = (Ok u, t') → t' = set_state (dset (t_state t) k (JObj v)) t.
Proof. unfold put_section, modify. naive_solver. Qed.

Lemma txn_secrets_inv {A} (m : M file A) t a t' :
  txn_secrets m t = (Ok a, t') →
  ∃ f', m (t_secrets t) = (Ok a, f') ∧ t' = set_txn_secrets f' t.
Proof.
  unfold txn_secrets, zoom. destruct (m (t_secrets t)) as [r f']. intros [= -> <-]. eauto.
Qed.

Lemma draw_inv {A} (f : nat → A) t a t' :
  draw f t = (Ok a, t') → t_state t' = t_state t ∧ t_secrets t' = t_secrets t ∧ t_alloc t' = t_alloc t.
Proof. unfold draw. by intros [= <- <-]. Qed.

(** Takes a successful run apart, step by step. *)
Ltac run_inv :=
  repeat match goal with
  | H : (let _ := _ in _) _ = (Ok _, _) |- _ => progress cbv zeta in H
  | H : (_ ≫= _) _ = (Ok _, _) |- _ => apply bind_ok_inv in H as (? & ? & ? & ?)
  | H : lift _ _ = (Ok _, _) |- _ => apply lift_ok_inv in H as [? ->]
  | H : mret _ _ = (Ok _, _) |- _ => apply ret_ok_inv in H as [-> ->]
  | H : get_section _ _ = (Ok _, _) |- _ => apply get_section_inv in H as (? & ? & ->)
  | H : put_section _ _ _ = (Ok _, _) |- _ => apply put_section_inv in H as ->
  | H : throw _ _ = (Ok _, _) |- _ => discriminate H
  | H : (if ?b then _ else _) _ = (Ok _, _) |- _ => destruct b eqn:?
  | H : (_ ≫= _) = Ok _ |- _ => apply res_bind_ok in H as (? & ? & ?)
  end.

(** ** The abstract specification *)

(** [d'] is [d] with one row set or removed. *)
Definition row_set (d d' : dict json) (sec id : string) (o : option json) : Prop :=
  ∀ sec' id', is_section sec' = true →
    row d' sec' id' = if decide (sec' = sec ∧ id' = id) then o else row d sec' id'.

Definition same_rows (d d' : dict json) : Prop :=
  ∀ sec id, is_section sec = true → row d' sec id = row d sec id.

(** The columns single-column updates may change. *)
Definition mutable_columns : list string :=
  ["reachability"; "serial"; "provision_state"; "last_error"; "last_checked_at";
   "maintenance"; "host_key"; "status"; "fdir"; "desired_up"; "binding_id"]%string.

Definition same_columns (raw raw' : json) : Prop :=
  ∃ x x', raw = JObj x ∧ raw' = JObj x' ∧
          ∀ k, k ∉ mutable_columns → dget x' k = dget x k.

(** The row holds the allocation window [z]. *)
Definition has_ordinal (raw : json) (z : Z) : Prop :=
  ∃ o, jget raw "ordinal" JNull = Ok o ∧ py_eq_int o z = true.

(** The binding row belongs to the node. *)
Definition owned_by (raw : json) (id : string) : bool :=
  match jget raw "node_id" JNull with Ok x => py_eq_str x id | Raise _ => false end.

(** The slot does not clash with another stored row or with the allocator's file. *)
Definition free_slot (alloc : content) (d : dict json) (id : string) (mp port : Z) : Prop :=
  (∀ id' raw, id' ≠ id → row d "bindings" id' = Some raw →
     ∃ mp' port', slot_of raw = Ok (mp', port') ∧ mp ≠ mp' ∧ 1 < Z.abs (port - port')) ∧
  (∃ allocs, list_allocations alloc = Ok allocs ∧
     ∀ k a, (k, a) ∈ allocs → mp ≠ mp_id a ∧ 1 < Z.abs (port - rtp_port a)).

Inductive edit (alloc : content) (d d' : dict json) : Prop :=
  | edit_none : same_rows d d' → edit alloc d d'
  | edit_column sec id raw raw' :
      row d sec id = Some raw → same_columns raw raw' →
      row_set d d' sec id (Some raw') → edit alloc d d'
  | edit_register id n :
      (∃ raw, row d "nodes" id = Some raw ∧ jget raw "ordinal" JNull = Ok (n_ordinal n)) ∨
      (∃ z, n_ordinal n = JInt z ∧
            ∀ id' raw, row d "nodes" id' = Some raw → ¬ has_ordinal raw z) →
      row_set d d' "nodes" id (Some (node_to_dict n)) → edit alloc d d'
  | edit_forget id :
      (∀ id', row d' "nodes" id' = if decide (id' = id) then None else row d "nodes" id') →
      (∀ bid, row d' "bindings" bid
              = raw ← row d "bindings" bid;
                if owned_by raw id then None else Some raw) →
      edit alloc d d'
  | edit_bind b :
      b_mode b = REMOTE_PRODUCER →
      is_Some (row d "nodes" (b_node_id b)) →
      REMOTE_MP_MIN ≤ jc_mountpoint_id (b_janus b) →
      REMOTE_PORT_MIN ≤ tr_rtp_port (b_transport b) → tr_rtp_port (b_transport b) mod 2 = 0 →
      free_slot alloc d (b_binding_id b) (jc_mountpoint_id (b_janus b))
        (tr_rtp_port (b_transport b)) →
      row_set d d' "bindings" (b_binding_id b) (Some (binding_to_dict b)) → edit alloc d d'
  | edit_unbind id : row_set d d' "bindings" id None → edit alloc d d'
  | edit_rekey old new raw raw' :
      old ≠ new → row d "bindings" old = Some raw → row d "bindings" new = None →
      same_columns raw raw' →
      (∀ id, row d' "nodes" id = row d "nodes" id) →
      (∀ id, row d' "bindings" id = if decide (id = old) then None
                                    else if decide (id = new) then Some raw'
                                    else row d "bindings" id) →
      edit alloc d d'.

(** ** Rows *)
Lemma row_dset d k v sec id :
  row (dset d k (JObj v)) sec id = if decide (k = sec) then dget v id else row d sec id.
Proof. unfold row. rewrite section_set. by case_decide. Qed.

Lemma row_set_dset d k id raw :
  row_set d (dset d k (JObj (dset (section d k) id raw))) k id (Some raw).
Proof.
  intros sec' id' _. rewrite row_dset. case_decide; subst.
  - rewrite dget_dset. unfold row. repeat case_decide; naive_solver.
  - case_decide; naive_solver.
Qed.

Lemma row_set_ddel d k id :
  row_set d (dset d k (JObj (ddel (section d k) id))) k id None.
Proof.
  intros sec' id' _. rewrite row_dset. case_decide; subst.
  - rewrite dget_ddel. unfold row. repeat case_decide; naive_solver.
  - case_decide; naive_solver.
Qed.

Lemma truthy_row d id : truthy (default JNull (dget d id)) = true → ∃ raw, dget d id = Some raw.
Proof. destruct (dget d id); [eauto|done]. Qed.

Lemma setitem_columns raw k v raw' :
  setitem raw k v = Ok raw' → k ∈ mutable_columns → same_columns raw raw'.
Proof.
  destruct raw; try done. intros [= <-] Hk. do 2 eexists. split_and!; try done.
  intros k' Hk'. apply dget_dset_ne. by intros ->.
Qed.

Lemma same_columns_trans raw1 raw2 raw3 :
  same_columns raw1 raw2 → same_columns raw2 raw3 → same_columns raw1 raw3.
Proof.
  intros (x1 & x2 & -> & -> & H1) (x2' & x3 & [= <-] & -> & H2).
  do 2 eexists. split_and!; try done. intros k Hk. by rewrite H2, H1.
Qed.

(** ** Bodies

    [edits body]: when the body returns, the document it leaves is one edit of
    the one it was given. *)
Definition edits {A} (body : M Txn A) : Prop :=
  ∀ t a t', wf_state (t_state t) → body t = (Ok a, t') →
    rtc (edit (t_alloc t)) (t_state t) (t_state t').

Lemma update_row_edits sec id f :
  is_section sec = true →
  (∀ raw t raw' t', f raw t = (Ok raw', t') → t_state t' = t_state t ∧ same_columns raw raw') →
  edits (update_row sec id f).
Proof.
  intros Hsec Hf t a t' _ Hrun. unfold update_row in Hrun. run_inv; try done.
  match goal with H : truthy _ = true |- _ => apply truthy_row in H as [raw Hraw] end.
  rewrite Hraw in *. simpl in *.
  match goal with H : f _ _ = _ |- _ => apply Hf in H as [Hst Hcols] end. simpl. rewrite Hst.
  subst. eapply rtc_once, edit_column; [done|done|]. apply row_set_dset.
Qed.

Lemma edits_then {A B} (body : M Txn A) (k : A → M Txn B) :
  edits body → (∀ a t b t', k a t = (Ok b, t') → t_state t' = t_state t) →
  edits (body ≫= k).
Proof.
  intros Hb Hk t b t' Hwf Hrun. apply bind_ok_inv in Hrun as (a & t1 & H1 & H2).
  apply Hk in H2. rewrite H2. eauto.
Qed.

Lemma same_state_edits {A} (body : M Txn A) :
  (∀ t a t', body t = (Ok a, t') → t_state t' = t_state t) → edits body.
Proof. intros Hb t a t' _ Hrun. apply Hb in Hrun. by rewrite Hrun. Qed.

Lemma with_token_inv entry raw f n f' :
  with_token entry raw f = (Ok n, f') → ∃ tok, n = with_agent_token tok entry.
Proof. unfold with_token. intros Hrun. run_inv; eauto. Qed.

(** *** Ordinals *)
Lemma used_ordinals_spec rows used raw z :
  used_ordinals rows = Ok used → raw ∈ rows → has_ordinal raw z →
  existsb (fun o => py_eq_int o z) used = true.
Proof.
  intros Hu Hin (o & Ho & Hz). revert used Hu.
  induction rows as [|n rows IH]; intros used Hu; [by apply elem_of_nil in Hin|].
  simpl in Hu. apply res_bind_ok in Hu as (o' & Ho' & Hu).
  apply elem_of_cons in Hin as [->|Hin].
  - rewrite Ho in Ho'. injection Ho' as <-. destruct o; try done; apply res_bind_ok in Hu as (r & _ & [= <-]);
      cbn [existsb]; by rewrite Hz.
  - destruct o'; try done; try (by apply IH); apply res_bind_ok in Hu as (r & Hr & [= <-]);
      cbn [existsb]; by rewrite (IH Hin r Hr), orb_true_r.
Qed.

Lemma next_free_spec fuel o used z :
  next_free fuel o used = Ok z → existsb (fun x => py_eq_int x z) used = false.
Proof.
  revert o. induction fuel as [|fuel IH]; intros o; simpl; [done|].
  destruct (existsb (fun x => py_eq_int x o) used) eqn:He; [apply IH|]. by intros [= <-].
Qed.

Lemma mint_ordinal_fresh nodes z id raw :
  mint_ordinal nodes = Ok z → dget nodes id = Some raw → ¬ has_ordinal raw z.
Proof.
  unfold mint_ordinal. intros (used & Hu & Hz)%res_bind_ok Hraw Ho.
  apply next_free_spec in Hz. erewrite used_ordinals_spec in Hz; try done.
  apply dvals_elem. exists id. by apply dget_elem.
Qed.

(** The search for a free ordinal ends: each ordinal in use excludes one candidate. *)
Definition at_least (o : Z) (x : json) : bool :=
  match x with
  | JInt y => o <=? y
  | JBool b => o <=? (if b then 1 else 0)
  | JFloat q => Qle_bool (inject_Z o) q
  | _ => false
  end.

Lemma at_least_succ o x : at_least (o + 1) x = true → at_least o x = true.
Proof.
  destruct x; simpl; rewrite ?Z.leb_le, ?Qle_bool_iff; try done; try lia.
  rewrite inject_Z_plus. change (inject_Z 1) with 1%Q. lra.
Qed.

Lemma at_least_eq o x : py_eq_int x o = true → at_least o x = true ∧ at_least (o + 1) x = false.
Proof.
  destruct x; simpl; try done; rewrite ?Z.eqb_eq, ?Z.leb_le, ?Z.leb_gt; try lia.
  rewrite Qeq_bool_iff. intros ->. rewrite Qle_bool_iff. split; [lra|].
  apply not_true_iff_false. rewrite Qle_bool_iff, inject_Z_plus.
  change (inject_Z 1) with 1%Q. lra.
Qed.

Lemma next_free_fuel fuel o used :
  (length (List.filter (at_least o) used) < fuel)%nat → ∃ z, next_free fuel o used = Ok z ∧ o ≤ z.
Proof.
  revert o. induction fuel as [|fuel IH]; intros o Hlen; [lia|]. simpl.
  destruct (existsb _ used) eqn:He; [|by exists o].
  edestruct (IH (o + 1)) as (z & Hz & Hle); [|by exists z; split; [done|lia]].
  enough (length (List.filter (at_least (o + 1)) used) < length (List.filter (at_least o) used))%nat
    by lia.
  clear -He. induction used as [|x used IH]; [done|]. simpl in *.
  assert (Hmono : (length (List.filter (at_least (o + 1)) used)
                   ≤ length (List.filter (at_least o) used))%nat).
  { clear. induction used as [|y used IH]; [done|]. simpl.
    destruct (at_least (o + 1) y) eqn:H1; [rewrite (at_least_succ _ _ H1)|]; simpl;
      [lia|]. destruct (at_least o y); simpl; lia. }
  destruct (py_eq_int x o) eqn:Hx.
  - destruct (at_least_eq _ _ Hx) as [-> ->]. simpl. lia.
  - simpl in He. specialize (IH He).
    destruct (at_least (o + 1) x) eqn:H1; [rewrite (at_least_succ _ _ H1)|]; simpl; [lia|].
    destruct (at_least o x); simpl; lia.
Qed.

(** Minting an ordinal never runs out of fuel: [len(used) + 1] rounds are enough. *)
Lemma mint_ordinal_returns nodes used :
  used_ordinals (dvals nodes) = Ok used → ∃ z, mint_ordinal nodes = Ok z ∧ 0 ≤ z.
Proof.
  intros Hu. unfold mint_ordinal. rewrite Hu.
  apply (next_free_fuel (S (length used)) 0 used).
  pose proof (List.filter_length_le (at_least 0) used). lia.
Qed.

(** *** Node bodies *)
Section node_bodies.
Context `{Entropy}.

Lemma upsert_body_edits id host role reach serial name :
  edits (upsert_body id host role reach serial name).
Proof.
  intros t a t' Hwf Hrun. unfold upsert_body in Hrun. run_inv.
  all: match goal with H : txn_secrets _ _ = _ |- _ => apply txn_secrets_inv in H as (? & ? & ->) end.
  all: match goal with H : node_token _ _ _ = (Ok ?tok, ?t1) |- _ =>
         assert (Ht1 : t_state t1 = t_state t ∧ t_alloc t1 = t_alloc t) by
           (clear -H; unfold node_token in H; run_inv; try done;
            match goal with H : txn_secrets _ _ = _ |- _ =>
              apply txn_secrets_inv in H as (? & ? & ->) end;
            run_inv; try done; unfold mint_agent_token in *;
            match goal with H : draw _ _ = _ |- _ => by apply draw_inv in H as (? & ? & ?) end)
       end; destruct Ht1 as [Hst Hal].
  all: simpl; rewrite Hst; subst; apply rtc_once; eapply edit_register; [|apply row_set_dset].
  - right. eexists. split; [done|]. intros id' raw Hraw. by eapply mint_ordinal_fresh.
  - destruct (dget (section (t_state t) "nodes") id) as [raw|] eqn:Hraw; simpl in *.
    + left. by exists raw.
    + by simplify_eq.
Qed.

Lemma add_body_edits host name role : edits (add_body host name role).
Proof.
  intros t a t' Hwf Hrun. unfold add_body in Hrun. run_inv.
  match goal with H : match ?o with Some _ => _ | None => _ end _ = _ |- _ =>
    destruct o as [[nid raw]|] end; run_inv.
  - match goal with H : txn_secrets _ _ = _ |- _ => apply txn_secrets_inv in H as (? & ? & ->) end.
    done.
  - unfold mint_agent_token in *.
    repeat match goal with H : draw _ _ = _ |- _ => apply draw_inv in H as (? & ? & ?) end.
    match goal with H : txn_secrets _ _ = _ |- _ => apply txn_secrets_inv in H as (? & ? & ->) end.
    simpl in *. repeat match goal with H : t_state _ = _ |- _ => rewrite H end. subst.
    apply rtc_once. eapply edit_register; [|apply row_set_dset].
    right. eexists. split; [done|]. intros id' raw' Hraw. by eapply mint_ordinal_fresh.
Qed.
End node_bodies.

(** *** The cascade *)
Lemma drop_bindings_spec id ids b b' removed :
  drop_bindings id ids b = Ok (b', removed) →
  (∀ bid, dget b' bid = raw ← dget b bid;
                        if bool_decide (bid ∈ ids) && owned_by raw id then None else Some raw) ∧
  (∀ bid, bid ∈ removed ↔ bid ∈ ids ∧ ∃ raw, dget b bid = Some raw ∧ owned_by raw id = true).
Proof.
  revert b b' removed. induction ids as [|i ids IH]; intros b b' removed; cbn [drop_bindings].
  { intros [= <- <-]. split; [|set_solver].
    intros bid. by destruct (dget b bid). }
  intros (raw & Hraw & Hrest)%res_bind_ok. unfold getitem in Hraw.
  destruct (dget b i) as [raw'|] eqn:Hi; [|done]. injection Hraw as ->.
  apply res_bind_ok in Hrest as (own & Hown & Hrest).
  assert (Ho : owned_by raw id = py_eq_str own id) by (unfold owned_by; by rewrite Hown).
  destruct (py_eq_str own id).
  - apply res_bind_ok in Hrest as ([b1 r1] & H1 & [= <- <-]).
    destruct (IH _ _ _ H1) as [Hb Hr]. split; intros bid.
    + rewrite Hb, dget_ddel. case_decide as Hd; [subst bid|].
      * rewrite Hi. simpl. by rewrite bool_decide_eq_true_2, Ho by set_solver.
      * destruct (dget b bid); [|done]. simpl.
        rewrite (bool_decide_ext (bid ∈ i :: ids) (bid ∈ ids)) by set_solver. done.
    + rewrite elem_of_cons, Hr, dget_ddel. split.
      * intros [->|(Hin & raw' & Hraw' & ?)]; [set_solver|].
        case_decide; [done|]. set_solver.
      * intros (Hin & raw' & Hraw' & Ho'). destruct (decide (bid = i)) as [->|Hne]; [by left|right].
        rewrite decide_False by done. set_solver.
  - destruct (IH _ _ _ Hrest) as [Hb Hr]. split; intros bid.
    + rewrite Hb. destruct (decide (bid = i)) as [->|Hne].
      * rewrite Hi. simpl. by rewrite Ho, !andb_false_r.
      * destruct (dget b bid); [|done]. simpl.
        rewrite (bool_decide_ext (bid ∈ i :: ids) (bid ∈ ids)) by set_solver. done.
    + rewrite Hr. split; [set_solver|]. intros (Hin & raw' & Hraw' & Ho').
      split; [|eauto]. apply elem_of_cons in Hin as [->|]; [|done]. congruence.
Qed.

Lemma remove_body_spec id t out t' :
  wf_state (t_state t) → remove_body id t = (Ok out, t') →
  out.1 = dmem (section (t_state t) "nodes") id ∧
  (∀ bid, bid ∈ out.2 ↔
     ∃ raw, row (t_state t) "bindings" bid = Some raw ∧ owned_by raw id = true) ∧
  (∀ id', row (t_state t') "nodes" id' =
          if decide (id' = id) then None else row (t_state t) "nodes" id') ∧
  (∀ bid, row (t_state t') "bindings" bid =
          raw ← row (t_state t) "bindings" bid; if owned_by raw id then None else Some raw) ∧
  t_secrets t' = t_secrets t.
Proof.
  intros Hwf Hrun. unfold remove_body in Hrun. run_inv.
  match goal with H : (let '(_, _) := ?p in _) _ = _ |- _ => destruct p as [b' removed] end.
  run_inv. subst. simpl.
  match goal with H : drop_bindings _ _ _ = _ |- _ => apply drop_bindings_spec in H as [Hb Hr] end.
  split_and!; [done| | | |done].
  - intros bid. rewrite Hr. unfold row. split; [naive_solver|].
    intros (raw & Hraw & Ho). split; [|eauto]. unfold dkeys. apply list_elem_of_fmap.
    exists (bid, raw). split; [done|]. by apply dget_elem.
  - intros id'. rewrite row_dset, decide_True by done. rewrite dget_ddel. unfold row.
    repeat case_decide; naive_solver.
  - intros bid. rewrite !row_dset, decide_False, decide_True, Hb by done. unfold row.
    destruct (dget _ bid) as [raw|] eqn:Hraw; [|done]. simpl.
    rewrite bool_decide_eq_true_2; [done|]. unfold dkeys. apply list_elem_of_fmap.
    exists (bid, raw). split; [done|]. by apply dget_elem.
Qed.

Lemma remove_body_edits id : edits (remove_body id).
Proof.
  intros t out t' Hwf Hrun. destruct (remove_body_spec _ _ _ _ Hwf Hrun) as (_ & _ & Hn & Hb & _).
  apply rtc_once. by eapply edit_forget.
Qed.

(** *** Binding bodies *)
Lemma slots_of_elem rows slots raw :
  slots_of rows = Ok slots → raw ∈ rows → ∃ s, s ∈ slots ∧ slot_of raw = Ok s.
Proof.
  revert slots. induction rows as [|b rows IH]; intros slots Hs Hin; [by apply elem_of_nil in Hin|].
  simpl in Hs. apply res_bind_ok in Hs as (x & Hx & (r & Hr & [= <-])%res_bind_ok).
  apply elem_of_cons in Hin as [->|Hin]; [set_solver|].
  destruct (IH _ Hr Hin) as (y & ? & ?). set_solver.
Qed.

Lemma zmem_false x l y : zmem x l = false → y ∈ l → x ≠ y.
Proof.
  intros Hx Hy ->. apply not_true_iff_false in Hx. apply Hx, zmem_spec. by apply list_elem_of_In.
Qed.

Lemma slot_not_used (slots : list (Z * Z)) mp port mp' port' :
  (mp', port') ∈ slots →
  zmem mp slots.*1 = false → zmem port (ports_of slots) = false →
  zmem (port + 1) (ports_of slots) = false →
  mp ≠ mp' ∧ 1 < Z.abs (port - port').
Proof.
  intros Hin Hmp Hp Hp1.
  assert (Hports : port' ∈ ports_of slots ∧ port' + 1 ∈ ports_of slots).
  { unfold ports_of. rewrite !list_elem_of_In, !in_flat_map.
    split; (exists (mp', port'); split; [by apply list_elem_of_In|simpl; auto]). }
  destruct Hports as [H1 H2]. split.
  - eapply zmem_false; [done|]. apply list_elem_of_fmap. by exists (mp', port').
  - pose proof (zmem_false _ _ _ Hp H1). pose proof (zmem_false _ _ _ Hp H2).
    pose proof (zmem_false _ _ _ Hp1 H1). pose proof (zmem_false _ _ _ Hp1 H2). lia.
Qed.

Lemma validate_remote_inv b node used_mp used_port jm :
  validate_remote b node used_mp used_port jm = Ok tt →
  let mp := jc_mountpoint_id (b_janus b) in
  let port := tr_rtp_port (b_transport b) in
  b_mode b = REMOTE_PRODUCER ∧ node ≠ None ∧ REMOTE_MP_MIN ≤ mp ∧ REMOTE_PORT_MIN ≤ port ∧
  port mod 2 = 0 ∧ mp ≠ jm ∧ zmem mp used_mp = false ∧ zmem port used_port = false ∧
  zmem (port + 1) used_port = false.
Proof.
  unfold validate_remote. destruct (bool_decide (b_mode b = REMOTE_PRODUCER)) eqn:Hm; simpl; [|done].
  apply bool_decide_eq_true in Hm. destruct node as [n|]; [|done].
  intros (rid & _ & Hrun)%res_bind_ok.
  repeat match type of Hrun with (if ?c then _ else _) = _ => destruct c eqn:?; [done|] end.
  repeat match goal with H : (_ || _) = false |- _ => apply orb_false_iff in H as [? ?] end.
  match goal with H : negb (_ mod _ =? _) = _ |- _ => apply negb_false_iff, Z.eqb_eq in H end.
  repeat match goal with H : (_ <? _) = false |- _ => apply Z.ltb_ge in H end.
  match goal with H : (_ =? jm) = false |- _ => apply Z.eqb_neq in H end.
  by split_and!.
Qed.

Lemma used_sets_free others alloc used_mp used_port mp port :
  used_sets others alloc = Ok (used_mp, used_port) →
  zmem mp used_mp = false → zmem port used_port = false → zmem (port + 1) used_port = false →
  (∀ raw, raw ∈ dvals others →
     ∃ mp' port', slot_of raw = Ok (mp', port') ∧ mp ≠ mp' ∧ 1 < Z.abs (port - port')) ∧
  (∃ allocs, list_allocations alloc = Ok allocs ∧
     ∀ k a, (k, a) ∈ allocs → mp ≠ mp_id a ∧ 1 < Z.abs (port - rtp_port a)).
Proof.
  unfold used_sets. intros (slots & Hslots & Hu)%res_bind_ok.
  apply res_bind_ok in Hu as (allocs & Hal & [= <- <-]). intros Hmp Hp Hp1. split.
  - intros raw Hin. destruct (slots_of_elem _ _ _ Hslots Hin) as ([mp' port'] & Hs & Hraw).
    exists mp', port'. split; [done|]. eapply slot_not_used; [|exact Hmp|exact Hp|exact Hp1].
    apply elem_of_app. by left.
  - exists allocs. split; [done|]. intros k a Ha.
    eapply slot_not_used; [|exact Hmp|exact Hp|exact Hp1]. apply elem_of_app. right.
    apply list_elem_of_fmap. exists a. split; [done|]. apply dvals_elem. eauto.
Qed.

Lemma upsert_binding_spec b jm t b' t' :
  upsert_binding_body b jm t = (Ok b', t') →
  b' = b ∧ t_secrets t' = t_secrets t ∧
  b_mode b = REMOTE_PRODUCER ∧ is_Some (row (t_state t) "nodes" (b_node_id b)) ∧
  REMOTE_MP_MIN ≤ jc_mountpoint_id (b_janus b) ∧ jc_mountpoint_id (b_janus b) ≠ jm ∧
  REMOTE_PORT_MIN ≤ tr_rtp_port (b_transport b) ∧ tr_rtp_port (b_transport b) mod 2 = 0 ∧
  free_slot (t_alloc t) (t_state t) (b_binding_id b) (jc_mountpoint_id (b_janus b))
    (tr_rtp_port (b_transport b)) ∧
  t_state t' = dset (t_state t) "bindings"
                 (JObj (dset (section (t_state t) "bindings") (b_binding_id b) (binding_to_dict b))).
Proof.
  intros Hrun. unfold upsert_binding_body in Hrun. run_inv.
  match goal with H : get _ = _ |- _ => injection H as <- <- end.
  match goal with H : (let '(_, _) := ?p in _) _ = _ |- _ => destruct p as [used_mp used_port] end.
  run_inv; subst.
  all: match goal with H : validate_remote _ _ _ _ _ = Ok ?u |- _ =>
         destruct u; apply validate_remote_inv in H as (? & ? & ? & ? & ? & ? & ? & ? & ?) end.
  2: done.
  match goal with H : truthy _ = true |- _ => apply truthy_row in H as [raw Hraw] end.
  match goal with H : used_sets _ _ = Ok _ |- _ =>
    destruct (used_sets_free _ _ _ _ (jc_mountpoint_id (b_janus b)) (tr_rtp_port (b_transport b)) H)
      as [Hb Ha]; [done..|] end.
  split_and!; try done.
  split; [|done]. intros id' raw' Hne Hraw'. apply Hb. apply dvals_elem. exists id'.
  apply list_elem_of_In, List.filter_In. split; [by apply list_elem_of_In, dget_elem|].
  simpl. by apply negb_true_iff, String.eqb_neq.
Qed.

Lemma upsert_binding_edits b jm : edits (upsert_binding_body b jm).
Proof.
  intros t b' t' _ (-> & _ & ? & ? & ? & _ & ? & ? & ? & ->)%upsert_binding_spec.
  apply rtc_once. eapply edit_bind; try done. apply row_set_dset.
Qed.

(** *** Rekeying *)
Lemma dset_dset {V} (d : dict V) k v v' : dset (dset d k v) k v' = dset d k v'.
Proof.
  induction d as [|[k' x] d IH]; simpl; [by case_decide|].
  repeat (case_decide; simpl); simplify_eq; try done. by rewrite IH.
Qed.

Lemma migrate_loop_edits alloc nodes ids b n b' n' d :
  migrate_loop nodes ids b n = Ok (b', n') → section d "bindings" = b →
  rtc (edit alloc) d (dset d "bindings" (JObj b')).
Proof.
  revert b n d. induction ids as [|old ids IH]; intros b n d; cbn [migrate_loop].
  { intros [= <- <-] <-. apply rtc_once, edit_none. intros sec id _. rewrite row_dset.
    by case_decide; subst. }
  intros (raw & Hraw & (target & _ & Hrest)%res_bind_ok)%res_bind_ok Hsec.
  destruct target as [new|]; [|by eapply IH].
  destruct (String.eqb new old || dmem b new) eqn:Hskip; [by eapply IH|].
  apply orb_false_iff in Hskip as [Hne%String.eqb_neq Hfree].
  apply res_bind_ok in Hrest as (raw' & Hraw' & Hrest).
  unfold getitem in Hraw. destruct (dget b old) as [raw0|] eqn:Hold; [|done]. injection Hraw as ->.
  assert (Hnew : dget b new = None) by (unfold dmem in Hfree; by destruct (dget b new)).
  eapply (rtc_l _ d (dset d "bindings" (JObj (ddel (dset b new raw') old)))).
  - eapply (edit_rekey _ _ _ old new raw raw');
      [by intros -> |unfold row; by rewrite Hsec|unfold row; by rewrite Hsec| | |].
    + eapply setitem_columns; [done|]. unfold mutable_columns. set_solver.
    + intros id. by rewrite row_dset.
    + intros id. rewrite row_dset, decide_True by done. rewrite dget_ddel, dget_dset.
      unfold row. rewrite Hsec. repeat case_decide; naive_solver.
  - rewrite <- (dset_dset d "bindings" (JObj (ddel (dset b new raw') old)) (JObj b')).
    eapply IH; [done|]. by rewrite section_set, decide_True.
Qed.

(** ** Calls and the refinement *)
Inductive store_call :=
  | CUpsertNode (node_id host role reachability : string) (serial display_name : option string)
  | CAddNode (lan : Lan) (host : string) (display_name : option string) (role : string)
  | CSetReachability (node_id reachability : string)
  | CSetSerial (node_id : string) (serial : json)
  | CSetProvisionState (node_id provision_state : string) (detail : option string)
  | CTouchChecked (node_id reachability : string)
  | CSetMaintenance (node_id : string) (on : bool)
  | CSetHostKey (node_id host_key : string)
  | CSetAgentToken (node_id token : string)
  | CRemoveNode (node_id : string)
  | CUpsertBinding (binding : StreamBinding) (janus_mount_id : Z)
  | CRemoveBinding (binding_id : string)
  | CMigrate
  | CSetStatus (binding_id status : string)
  | CSetFdirEnabled (binding_id : string) (enabled : bool)
  | CSetDesiredUp (binding_id : string) (up : bool).

Section calls.
Context `{Entropy}.

Definition run_store_call (c : store_call) : M Store unit :=
  match c with
  | CUpsertNode id host role reach serial name =>
      upsert_node id host role reach serial name ;; mret tt
  | CAddNode lan host name role => add_node_by_host lan host name role ;; mret tt
  | CSetReachability id r => set_reachability id r ;; mret tt
  | CSetSerial id x => set_serial id x ;; mret tt
  | CSetProvisionState id x d => set_provision_state id x d ;; mret tt
  | CTouchChecked id r => touch_checked id r ;; mret tt
  | CSetMaintenance id b => set_maintenance id b ;; mret tt
  | CSetHostKey id k => set_host_key id k ;; mret tt
  | CSetAgentToken id t => set_agent_token id t ;; mret tt
  | CRemoveNode id => remove_node id ;; mret tt
  | CUpsertBinding b jm => upsert_binding b jm ;; mret tt
  | CRemoveBinding id => remove_binding id ;; mret tt
  | CMigrate => migrate_remote_binding_ids ;; mret tt
  | CSetStatus id x => set_status id x ;; mret tt
  | CSetFdirEnabled id b => set_fdir_enabled id b ;; mret tt
  | CSetDesiredUp id b => set_desired_up id b ;; mret tt
  end.

(** What one call does to the files: the topology document is left alone, or it is the
    written form of a document that follows from the loaded one by edits. *)
Definition store_step (s s' : Store) : Prop :=
  s_alloc s' = s_alloc s ∧
  (f_content (s_topo s') = f_content (s_topo s) ∨
   ∃ d d', topology (f_content (s_topo s)) = Ok d ∧ rtc (edit (f_content (s_alloc s))) d d' ∧
           f_content (s_topo s') = dumps (JObj d')).

Lemma flock_step {A} (body : M Txn A) s : edits body → store_step s (flock_state body s).2.
Proof.
  intros Hb. destruct (flock_state body s) as [r s'] eqn:Hrun.
  apply flock_cases in Hrun as (_ & Hal & [(e & _ & Hc & _)|(d & a & t & Hd & Hbody & _ & Hc & _)]);
    (split; [done|]); [by left|right].
  exists d, (t_state t). split_and!; try done.
  apply Hb in Hbody; [done|]. by eapply topology_wf.
Qed.

Lemma step_then {A B} (m : M Store A) (f : A → M Store B) s :
  store_step s (m s).2 → (∀ a s1, s_alloc (f a s1).2 = s_alloc s1 ∧
                                  f_content (s_topo (f a s1).2) = f_content (s_topo s1)) →
  store_step s ((m ≫= f) s).2.
Proof.
  intros [Hal Hst] Hf. unfold mbind, M_bind. destruct (m s) as [[a|e] s1]; [|by split].
  destruct (Hf a s1) as [H1 H2]. unfold store_step. rewrite H1, H2. by split.
Qed.

Lemma step_ret {A} (m : M Store A) s : store_step s (m s).2 → store_step s ((m ;; mret tt) s).2.
Proof. intros Hm. by apply step_then. Qed.

Lemma step_lift {A B} (r : res A) (m : M Store B) s :
  store_step s (m s).2 → store_step s ((lift r ;; m) s).2.
Proof. unfold mbind, M_bind, lift. destruct r; [done|]. intros _. split; [done|by left]. Qed.

Lemma step_raise {A} k s : store_step s (throw (A:=A) k s).2.
Proof. split; [done|by left]. Qed.

Lemma update_node_step id f s :
  (∀ raw t raw' t', f raw t = (Ok raw', t') → t_state t' = t_state t ∧ same_columns raw raw') →
  store_step s (update_node id f s).2.
Proof.
  intros Hf. apply flock_step, edits_then; [by apply update_row_edits|].
  intros raw t b t' Hrun. by run_inv.
Qed.

Lemma update_binding_step id f s :
  (∀ raw raw', f raw = Ok raw' → same_columns raw raw') → store_step s (update_binding id f s).2.
Proof.
  intros Hf. apply flock_step, edits_then.
  - apply update_row_edits; [done|]. intros raw t raw' t' Hrun. run_inv. auto.
  - intros raw t b t' Hrun. by run_inv.
Qed.

Lemma lift_setitem_columns k v raw t raw' t' :
  lift (setitem raw k v) t = (Ok raw', t') → k ∈ mutable_columns →
  t_state t' = t_state t ∧ same_columns raw raw'.
Proof. intros Hrun Hk. run_inv. split; [done|]. by eapply setitem_columns. Qed.

Lemma set_provision_step id x d s : store_step s (set_provision_state id x d s).2.
Proof.
  apply update_node_step. intros raw t raw' t' Hrun. run_inv. split; [done|].
  assert (Hl : ∀ v r r', setitem r "last_error" v = Ok r' → same_columns r r').
  { intros v r r' Hr. eapply setitem_columns; [done|]. unfold mutable_columns. set_solver. }
  eapply same_columns_trans.
  - eapply setitem_columns; [done|]. unfold mutable_columns. set_solver.
  - destruct (String.eqb x "failed"); run_inv; eauto.
Qed.

Lemma touch_checked_step id r s : store_step s (touch_checked id r s).2.
Proof.
  apply update_node_step. intros raw t raw' t' Hrun. run_inv.
  match goal with H : draw _ _ = _ |- _ => apply draw_inv in H as (? & ? & ?) end.
  split; [done|]. eapply same_columns_trans; (eapply setitem_columns; [done|]);
    unfold mutable_columns; set_solver.
Qed.

Lemma fdir_enabled_step id b s : store_step s (set_fdir_enabled id b s).2.
Proof.
  apply update_binding_step. intros raw raw' Hrun. run_inv.
  eapply setitem_columns; [done|]. unfold mutable_columns. set_solver.
Qed.

Lemma set_agent_token_step id tok s : store_step s (set_agent_token id tok s).2.
Proof.
  apply flock_step, same_state_edits. intros t a t' Hrun. run_inv; try done.
  match goal with H : txn_secrets _ _ = _ |- _ => by apply txn_secrets_inv in H as (? & ? & ->) end.
Qed.

Lemma remove_binding_step id s : store_step s (remove_binding id s).2.
Proof.
  apply flock_step. intros t a t' _ Hrun. run_inv; [|done].
  subst. apply rtc_once. eapply edit_unbind, row_set_ddel.
Qed.

Lemma migrate_step s : store_step s (migrate_remote_binding_ids s).2.
Proof.
  apply flock_step. intros t a t' _ Hrun. unfold migrate_remote_binding_ids in Hrun. run_inv.
  match goal with H : (let '(_, _) := ?p in _) _ = _ |- _ => destruct p as [b' n'] end.
  run_inv. simpl. by eapply migrate_loop_edits.
Qed.

Lemma remove_node_step id s : store_step s (remove_node id s).2.
Proof.
  unfold remove_node. destruct (String.eqb id LOCAL_NODE_ID); [apply step_raise|].
  apply step_then; [apply flock_step, remove_body_edits|].
  intros out s1. unfold on_secrets, zoom, mbind, M_bind.
  destruct (remove_node_secret id (s_secrets s1)) as [[u|e] f']; by split.
Qed.

Lemma store_call_step c s : store_step s (run_store_call c s).2.
Proof.
  destruct c; simpl; apply step_ret;
    try (apply update_node_step; intros ? ? ? ? Hrun; eapply lift_setitem_columns;
         [done|unfold mutable_columns; set_solver]).
  - unfold upsert_node. destruct (String.eqb _ _); [apply step_raise|].
    apply flock_step, upsert_body_edits.
  - apply step_lift, flock_step, add_body_edits.
  - apply set_provision_step.
  - apply touch_checked_step.
  - apply set_agent_token_step.
  - apply remove_node_step.
  - apply flock_step, upsert_binding_edits.
  - apply remove_binding_step.
  - apply migrate_step.
  - apply step_lift, update_binding_step. intros raw raw' Hr.
    eapply setitem_columns; [done|]. unfold mutable_columns. set_solver.
  - apply fdir_enabled_step.
  - apply update_binding_step. intros raw raw' Hr.
    eapply setitem_columns; [done|]. unfold mutable_columns. set_solver.
Qed.

(** C10. Refinement: a call of the store, whatever system call fails on the way, leaves
    the topology document as it was or performs edits of the abstract specification
    (set a mutable column, register a node under a fresh ordinal, forget a node with
    its bindings, store a validated binding in a free slot, remove a binding, rekey a
    binding), and never touches the allocator's file. *)
Theorem topology_refines c s : store_step s (run_store_call c s).2.
Proof. apply store_call_step. Qed.

(** Any number of calls; between two of them the failing system call, the secret file,
    the allocator's file, the forensic copies and the clock may change, the topology
    document only by calls. *)
Inductive reaches (s : Store) : Store → Prop :=
  | reaches_refl : reaches s s
  | reaches_call c s1 s2 :
      reaches s s1 → f_content (s_topo s2) = f_content (s_topo s1) →
      reaches s (run_store_call c s2).2.
End calls.

(** ** Invariants *)

(** What holds of every document that loads. *)
Definition topo_inv (I : dict json → Prop) (s : Store) : Prop :=
  ∀ d, topology (f_content (s_topo s)) = Ok d → I d.

Section invariants.
Context `{Entropy} (I : dict json → Prop).
Context (Hedit : ∀ alloc d d', edit alloc d d' → I d → I d').
Context (Hwritten : ∀ d d', (∀ k id, is_section k = true → row d' k id = sort_json <$> row d k id) →
                            I d → I d').

Lemma call_inv c s : topo_inv I s → topo_inv I (run_store_call c s).2.
Proof.
  intros Hs d Hd. destruct (store_call_step c s) as [_ [Heq|(d0 & d1 & Hd0 & Hsteps & Hw)]].
  { rewrite Heq in Hd. by apply Hs. }
  rewrite Hw in Hd. destruct (topology_written d1) as (d2 & Hd2 & _ & Hrows).
  rewrite Hd2 in Hd. injection Hd as <-. eapply Hwritten; [done|]. specialize (Hs _ Hd0).
  clear -Hedit Hsteps Hs. induction Hsteps; eauto.
Qed.

Lemma reaches_inv s s' : reaches s s' → topo_inv I s → topo_inv I s'.
Proof.
  induction 1 as [|c s1 s2 _ IH Hc]; [done|]. intros Hs. apply call_inv.
  unfold topo_inv. rewrite Hc. by apply IH.
Qed.
End invariants.

(** Two nodes never hold the same allocation window. *)
Definition ordinals_distinct (d : dict json) : Prop :=
  ∀ i j ri rj z, i ≠ j → row d "nodes" i = Some ri → row d "nodes" j = Some rj →
    has_ordinal ri z → ¬ has_ordinal rj z.

(** A stored binding holds a slot of the remote pools and belongs to a registered node. *)
Definition binding_sound (d : dict json) (raw : json) : Prop :=
  ∃ mp port nid, slot_of raw = Ok (mp, port) ∧ REMOTE_MP_MIN ≤ mp ∧ REMOTE_PORT_MIN ≤ port ∧
    port mod 2 = 0 ∧ jget raw "node_id" JNull = Ok (JStr nid) ∧ is_Some (row d "nodes" nid).

Record topology_sound (d : dict json) : Prop := {
  ts_ordinals : ordinals_distinct d;
  ts_bindings : ∀ id raw, row d "bindings" id = Some raw → binding_sound d raw;
  ts_slots : ∀ i j ri rj si sj, i ≠ j → row d "bindings" i = Some ri → row d "bindings" j = Some rj →
    slot_of ri = Ok si → slot_of rj = Ok sj → si.1 ≠ sj.1 ∧ 1 < Z.abs (si.2 - sj.2);
}.

(** *** The columns the invariants read *)
Lemma py_eq_int_sort o z : py_eq_int (sort_json o) z = py_eq_int o z.
Proof. by destruct o. Qed.

Lemma has_ordinal_sort raw z : has_ordinal (sort_json raw) z ↔ has_ordinal raw z.
Proof.
  unfold has_ordinal. rewrite jget_sort_scalar by done.
  destruct (jget raw "ordinal" JNull) as [o|]; unfold fmap, res_fmap; [|naive_solver].
  split; intros (o' & [= <-] & Ho); eexists; (split; [done|]); by rewrite py_eq_int_sort in *.
Qed.

Lemma slot_of_sort raw : slot_of (sort_json raw) = slot_of raw.
Proof.
  unfold slot_of, mbind, res_bind. rewrite getitem_sort. unfold fmap, res_fmap.
  destruct (getitem raw "janus") as [j|]; [|done]. rewrite getitem_sort. unfold fmap, res_fmap.
  destruct (getitem j "mountpoint_id") as [m|]; [|done]. rewrite to_int_sort.
  destruct (to_int m); [|done]. rewrite getitem_sort. unfold fmap, res_fmap.
  destruct (getitem raw "transport") as [t|]; [|done]. rewrite getitem_sort. unfold fmap, res_fmap.
  destruct (getitem t "rtp_port") as [p|]; [|done]. by rewrite to_int_sort.
Qed.

Lemma node_id_sort raw nid :
  jget raw "node_id" JNull = Ok (JStr nid) → jget (sort_json raw) "node_id" JNull = Ok (JStr nid).
Proof. rewrite jget_sort_scalar by done. by intros ->. Qed.

Lemma same_columns_jget raw raw' k d :
  same_columns raw raw' → k ∉ mutable_columns → jget raw' k d = jget raw k d.
Proof. intros (x & x' & -> & -> & Hx) Hk. unfold jget. by rewrite Hx. Qed.

Lemma same_columns_slot raw raw' : same_columns raw raw' → slot_of raw' = slot_of raw.
Proof.
  intros (x & x' & -> & -> & Hx). unfold slot_of, getitem.
  rewrite (Hx "janus"%string), (Hx "transport"%string) by (unfold mutable_columns; set_solver).
  done.
Qed.

Lemma same_columns_ordinal raw raw' z :
  same_columns raw raw' → has_ordinal raw' z ↔ has_ordinal raw z.
Proof.
  intros Hc. unfold has_ordinal.
  rewrite (same_columns_jget _ _ "ordinal" JNull Hc) by (unfold mutable_columns; set_solver). done.
Qed.

(** A row that keeps its columns can take the place of another. *)
Lemma ordinals_distinct_map d d' :
  (∀ i ri, row d' "nodes" i = Some ri →
     ∃ r0, row d "nodes" i = Some r0 ∧ ∀ z, has_ordinal ri z → has_ordinal r0 z) →
  ordinals_distinct d → ordinals_distinct d'.
Proof.
  intros Hmap Hd i j ri rj z Hij Hi Hj Hzi Hzj.
  destruct (Hmap _ _ Hi) as (ri0 & Hi0 & Hri), (Hmap _ _ Hj) as (rj0 & Hj0 & Hrj).
  exact (Hd i j ri0 rj0 z Hij Hi0 Hj0 (Hri _ Hzi) (Hrj _ Hzj)).
Qed.

Lemma row_set_at d d' sec id o : is_section sec = true → row_set d d' sec id o → row d' sec id = o.
Proof. intros Hs Hr. rewrite Hr by done. by rewrite decide_True. Qed.

Lemma row_set_other d d' sec id o sec' id' :
  row_set d d' sec id o → is_section sec' = true → sec' ≠ sec ∨ id' ≠ id →
  row d' sec' id' = row d sec' id'.
Proof. intros Hr Hs Hne. rewrite Hr by done. rewrite decide_False; naive_solver. Qed.

(** Where a row of the new document comes from. *)
Lemma row_set_inv d d' sec id o sec' id' raw :
  row_set d d' sec id o → row d' sec' id' = Some raw → is_section sec' = true →
  (sec' = sec ∧ id' = id ∧ o = Some raw) ∨
  ((sec' ≠ sec ∨ id' ≠ id) ∧ row d sec' id' = Some raw).
Proof.
  intros Hr Hrow Hs. rewrite Hr in Hrow by done. case_decide; [naive_solver|].
  destruct (decide (sec' = sec)); naive_solver.
Qed.

Lemma edit_ordinals alloc d d' : edit alloc d d' → ordinals_distinct d → ordinals_distinct d'.
Proof.
  intros He Hd. destruct He as [Hr|sec id raw raw' Hraw Hcols Hr|id n Hn Hr|id Hn Hb|b ? ? ? ? ? ? Hr
    |id Hr|old new raw raw' ? ? ? ? Hn Hb].
  - apply (ordinals_distinct_map d); [|done]. intros i ri. rewrite Hr by done. eauto.
  - apply (ordinals_distinct_map d); [|done]. intros i ri Hi.
    destruct (row_set_inv _ _ _ _ _ _ _ _ Hr Hi eq_refl) as [(<- & -> & [= ->])|[_ Hi']]; [|eauto].
    exists raw. split; [done|]. intros z. apply (same_columns_ordinal _ _ z Hcols).
  - assert (Hnew : ∀ z, has_ordinal (node_to_dict n) z → py_eq_int (n_ordinal n) z = true).
    { intros z (o & Ho & Hz). injection Ho as <-. done. }
    assert (Hfresh : ∀ j rj z, j ≠ id → row d "nodes" j = Some rj → has_ordinal (node_to_dict n) z →
                               ¬ has_ordinal rj z).
    { intros j rj z Hj Hrj Hz. destruct Hn as [(raw & Hraw & Ho)|(z' & Ho & Hf)].
      - apply (Hd id j raw rj z); [done..|]. exists (n_ordinal n). auto.
      - apply Hnew in Hz. rewrite Ho in Hz. apply Z.eqb_eq in Hz as <-. by apply (Hf j). }
    intros i j ri rj z Hij Hi Hj Hzi Hzj.
    destruct (row_set_inv _ _ _ _ _ _ _ _ Hr Hi eq_refl) as [(_ & -> & [= <-])|[Hne Hi']],
      (row_set_inv _ _ _ _ _ _ _ _ Hr Hj eq_refl) as [(_ & -> & [= <-])|[Hne' Hj']]; [done|..].
    + by eapply Hfresh.
    + by eapply (Hfresh i).
    + by eapply (Hd i j).
  - apply (ordinals_distinct_map d); [|done]. intros i ri. rewrite Hn.
    case_decide; [done|]. eauto.
  - apply (ordinals_distinct_map d); [|done]. intros i ri Hi.
    destruct (row_set_inv _ _ _ _ _ _ _ _ Hr Hi eq_refl) as [(? & _)|[_ Hi']]; [done|eauto].
  - apply (ordinals_distinct_map d); [|done]. intros i ri Hi.
    destruct (row_set_inv _ _ _ _ _ _ _ _ Hr Hi eq_refl) as [(? & _)|[_ Hi']]; [done|eauto].
  - apply (ordinals_distinct_map d); [|done]. intros i ri. rewrite Hn. eauto.
Qed.

(** *** Bindings *)
Lemma binding_sound_cols d d' raw raw' :
  same_columns raw raw' → (∀ id, is_Some (row d "nodes" id) → is_Some (row d' "nodes" id)) →
  binding_sound d raw → binding_sound d' raw'.
Proof.
  intros Hc Hn (mp & port & nid & Hs & ? & ? & ? & Hid & Hsome). exists mp, port, nid.
  rewrite (same_columns_slot _ _ Hc), (same_columns_jget _ _ "node_id" JNull Hc)
    by (unfold mutable_columns; set_solver). split_and!; auto.
Qed.

Lemma binding_sound_nodes d d' raw :
  (∀ id, is_Some (row d "nodes" id) → is_Some (row d' "nodes" id)) →
  binding_sound d raw → binding_sound d' raw.
Proof. intros Hn (mp & port & nid & ? & ? & ? & ? & ? & ?). exists mp, port, nid. split_and!; auto. Qed.

Lemma row_set_some d d' sec id raw sec' id' :
  row_set d d' sec id (Some raw) → is_section sec' = true →
  is_Some (row d sec' id') → is_Some (row d' sec' id').
Proof. intros Hr Hs. rewrite Hr by done. case_decide; eauto. Qed.

Lemma slot_of_binding b :
  slot_of (binding_to_dict b) = Ok (jc_mountpoint_id (b_janus b), tr_rtp_port (b_transport b)).
Proof. done. Qed.

Lemma edit_bindings_sound alloc d d' :
  edit alloc d d' → (∀ id raw, row d "bindings" id = Some raw → binding_sound d raw) →
  ∀ id raw, row d' "bindings" id = Some raw → binding_sound d' raw.
Proof.
  intros He Hd. destruct He as [Hr|sec id raw raw' Hraw Hcols Hr|id n Hn Hr|id Hn Hb
    |b Hmode Hnode Hmp Hport Heven Hfree Hr|id Hr|old new raw raw' ? Hold Hnew Hcols Hn Hb]; intros i ri Hi.
  - rewrite Hr in Hi by done. apply (binding_sound_nodes d); [|by eapply Hd].
    intros id. by rewrite Hr.
  - assert (Hmono : ∀ id0, is_Some (row d "nodes" id0) → is_Some (row d' "nodes" id0)).
    { intros id0. by apply (row_set_some _ _ _ _ _ _ _ Hr). }
    destruct (row_set_inv _ _ _ _ _ _ _ _ Hr Hi eq_refl) as [(<- & -> & [= ->])|[_ Hi']].
    + by apply (binding_sound_cols d d' raw); [| |eapply Hd].
    + by apply (binding_sound_nodes d); [|eapply Hd].
  - destruct (row_set_inv _ _ _ _ _ _ _ _ Hr Hi eq_refl) as [(? & _)|[_ Hi']]; [done|].
    apply (binding_sound_nodes d); [|by eapply Hd].
    intros id0. by apply (row_set_some _ _ _ _ _ _ _ Hr).
  - rewrite Hb in Hi. destruct (row d "bindings" i) as [raw|] eqn:Hraw; [|done]. simpl in Hi.
    destruct (owned_by raw id) eqn:Ho; [done|]. injection Hi as ->.
    destruct (Hd _ _ Hraw) as (mp & port & nid & ? & ? & ? & ? & Hid & Hsome).
    exists mp, port, nid. split_and!; try done. rewrite Hn, decide_False; [done|].
    intros ->. unfold owned_by in Ho. rewrite Hid in Ho. simpl in Ho.
    by rewrite String.eqb_refl in Ho.
  - assert (Hmono : ∀ id0, is_Some (row d "nodes" id0) → is_Some (row d' "nodes" id0)).
    { intros id0. by apply (row_set_some _ _ _ _ _ _ _ Hr). }
    destruct (row_set_inv _ _ _ _ _ _ _ _ Hr Hi eq_refl) as [(_ & -> & [= <-])|[_ Hi']].
    + do 3 eexists. split_and!; [apply slot_of_binding|done..|]. by apply Hmono.
    + by apply (binding_sound_nodes d); [|eapply Hd].
  - destruct (row_set_inv _ _ _ _ _ _ _ _ Hr Hi eq_refl) as [(_ & _ & ?)|[_ Hi']]; [done|].
    apply (binding_sound_nodes d); [|by eapply Hd]. intros id0.
    rewrite (row_set_other _ _ _ _ _ "nodes" id0 Hr); [done|done|by left].
  - assert (Hmono : ∀ id0, is_Some (row d "nodes" id0) → is_Some (row d' "nodes" id0)).
    { intros id0. by rewrite Hn. }
    rewrite Hb in Hi. case_decide; [done|]. case_decide; simplify_eq.
    + by apply (binding_sound_cols d d' raw); [| |eapply Hd].
    + by apply (binding_sound_nodes d); [|eapply Hd].
Qed.

Definition slots_distinct (d : dict json) : Prop :=
  ∀ i j ri rj si sj, i ≠ j → row d "bindings" i = Some ri → row d "bindings" j = Some rj →
    slot_of ri = Ok si → slot_of rj = Ok sj → si.1 ≠ sj.1 ∧ 1 < Z.abs (si.2 - sj.2).

(** Renaming rows, dropping rows and changing other columns keeps the slots apart. *)
Lemma slots_distinct_map (φ : string → string) d d' :
  (∀ i ri, row d' "bindings" i = Some ri →
     ∃ r0, row d "bindings" (φ i) = Some r0 ∧ slot_of ri = slot_of r0) →
  (∀ i j, is_Some (row d' "bindings" i) → is_Some (row d' "bindings" j) → i ≠ j → φ i ≠ φ j) →
  slots_distinct d → slots_distinct d'.
Proof.
  intros Hmap Hinj Hd i j ri rj si sj Hij Hi Hj Hsi Hsj.
  destruct (Hmap _ _ Hi) as (ri0 & Hi0 & Hri), (Hmap _ _ Hj) as (rj0 & Hj0 & Hrj).
  apply (Hd (φ i) (φ j) ri0 rj0); try done; [|congruence..]. apply Hinj; eauto.
Qed.

Lemma edit_slots alloc d d' : edit alloc d d' → slots_distinct d → slots_distinct d'.
Proof.
  intros He Hd. destruct He as [Hr|sec id raw raw' Hraw Hcols Hr|id n Hn Hr|id Hn Hb
    |b Hmode Hnode Hmp Hport Heven [Hfree _] Hr|id Hr|old new raw raw' ? Hold Hnew Hcols Hn Hb].
  - apply (slots_distinct_map id d); [|done..]. intros i ri. rewrite Hr by done. eauto.
  - apply (slots_distinct_map (fun i => i) d); [|done..]. intros i ri Hi.
    destruct (row_set_inv _ _ _ _ _ _ _ _ Hr Hi eq_refl) as [(<- & -> & [= ->])|[_ Hi']]; [|eauto].
    exists raw. split; [done|]. apply (same_columns_slot _ _ Hcols).
  - apply (slots_distinct_map (fun i => i) d); [|done..]. intros i ri Hi.
    destruct (row_set_inv _ _ _ _ _ _ _ _ Hr Hi eq_refl) as [(? & _)|[_ Hi']]; [done|eauto].
  - apply (slots_distinct_map (fun i => i) d); [|done..]. intros i ri Hi. rewrite Hb in Hi.
    destruct (row d "bindings" i) as [r0|]; [|done]. simpl in Hi.
    destruct (owned_by r0 id); naive_solver.
  - assert (Hnew : ∀ j rj sj, j ≠ b_binding_id b → row d "bindings" j = Some rj → slot_of rj = Ok sj →
              jc_mountpoint_id (b_janus b) ≠ sj.1 ∧ 1 < Z.abs (tr_rtp_port (b_transport b) - sj.2)).
    { intros j rj sj Hj Hrj Hsj. destruct (Hfree _ _ Hj Hrj) as (mp' & port' & Hs & ? & ?).
      rewrite Hs in Hsj. by injection Hsj as <-. }
    intros i j ri rj si sj Hij Hi Hj Hsi Hsj.
    destruct (row_set_inv _ _ _ _ _ _ _ _ Hr Hi eq_refl) as [(_ & -> & [= <-])|[_ Hi']],
      (row_set_inv _ _ _ _ _ _ _ _ Hr Hj eq_refl) as [(_ & -> & [= <-])|[_ Hj']]; [done|..].
    + injection Hsi as <-. by eapply Hnew.
    + injection Hsj as <-. destruct (Hnew _ _ _ Hij Hi' Hsi). split; simpl; [done|lia].
    + by eapply (Hd i j).
  - apply (slots_distinct_map (fun i => i) d); [|done..]. intros i ri Hi.
    destruct (row_set_inv _ _ _ _ _ _ _ _ Hr Hi eq_refl) as [(_ & _ & ?)|[_ Hi']]; [done|eauto].
  - apply (slots_distinct_map (fun i => if decide (i = new) then old else i) d); [| |done].
    + intros i ri. rewrite Hb. repeat case_decide; intros; simplify_eq; eauto.
      exists raw. split; [done|]. apply (same_columns_slot _ _ Hcols).
    + intros i j. rewrite !Hb. repeat case_decide; subst; rewrite ?is_Some_alt; naive_solver.
Qed.

Lemma edit_sound alloc d d' : edit alloc d d' → topology_sound d → topology_sound d'.
Proof.
  intros He [Ho Hb Hs]. split.
  - by eapply edit_ordinals.
  - by eapply edit_bindings_sound.
  - by eapply (edit_slots alloc d d' He).
Qed.

Lemma written_sound d d' :
  (∀ k id, is_section k = true → row d' k id = sort_json <$> row d k id) →
  topology_sound d → topology_sound d'.
Proof.
  intros Hrows [Ho Hb Hs].
  assert (Hinv : ∀ k id raw', row d' k id = Some raw' → is_section k = true →
                   ∃ raw, row d k id = Some raw ∧ raw' = sort_json raw).
  { intros k id raw' Hrow Hk. rewrite Hrows in Hrow by done. destruct (row d k id); naive_solver. }
  split.
  - intros i j ri rj z Hij Hi Hj.
    destruct (Hinv _ _ _ Hi eq_refl) as (ri0 & Hi0 & ->), (Hinv _ _ _ Hj eq_refl) as (rj0 & Hj0 & ->).
    rewrite !has_ordinal_sort. by apply (Ho i j).
  - intros i ri Hi. destruct (Hinv _ _ _ Hi eq_refl) as (ri0 & Hi0 & ->).
    destruct (Hb _ _ Hi0) as (mp & port & nid & Hsl & ? & ? & ? & Hid & Hsome).
    exists mp, port, nid. rewrite slot_of_sort, Hrows by done. split_and!; try done.
    + by apply node_id_sort.
    + by rewrite fmap_is_Some.
  - intros i j ri rj si sj Hij Hi Hj.
    destruct (Hinv _ _ _ Hi eq_refl) as (ri0 & Hi0 & ->), (Hinv _ _ _ Hj eq_refl) as (rj0 & Hj0 & ->).
    rewrite !slot_of_sort. by apply (Hs i j).
Qed.

(** C9. Invariant of the topology store: whatever calls threads and processes make and
    whichever system calls fail, no two nodes share an allocation window, every stored
    binding holds an even port and a mountpoint of the remote pools and belongs to a
    registered node (no orphan survives the removal of a host), and no two bindings
    share a mountpoint or overlap in their RTP/RTCP port pairs. *)
Theorem topology_invariant `{Entropy} s s' :
  reaches s s' → topo_inv topology_sound s → topo_inv topology_sound s'.
Proof. apply reaches_inv; [apply edit_sound|apply written_sound]. Qed.

Definition sample_entropy : Entropy := {|
  uuid12 n := pretty n; token_urlsafe n := ("tok-" ++ pretty n)%string; clock n := inject_Z (Z.of_nat n) |}.

Definition empty_store : Store := mkStore (file_of Absent) (file_of Absent) (file_of Absent) 0.

Definition sample_binding : StreamBinding :=
  mkBinding "node-0:color" "node-0" "color" REMOTE_PRODUCER (mkTransport 5100 96 "h264" JNull)
    (mkJanusConfig 2000 "192.168.10.10") default_fdir "configured_offline" true.

Definition enrolled_store : Store :=
  (run_store_call (H:=sample_entropy) (CAddNode (mkLan EmptyString NoCidr) "192.168.10.55" None "remote_producer") empty_store).2.

Definition bound_store : Store :=
  (run_store_call (H:=sample_entropy) (CUpsertBinding sample_binding 1305) enrolled_store).2.

Lemma empty_store_sound : topo_inv topology_sound empty_store.
Proof. intros d [= <-]. by split. Qed.

Lemma topology_invariant_witness :
  topo_inv topology_sound bound_store ∧
  (∃ d, topology (f_content (s_topo bound_store)) = Ok d ∧
        is_Some (row d "bindings" "node-0:color") ∧ is_Some (row d "nodes" "node-0")).
Proof.
  split.
  - apply (topology_invariant (H:=sample_entropy) empty_store); [|apply empty_store_sound].
    apply (reaches_call _ (CUpsertBinding sample_binding 1305) enrolled_store); [|done].
    apply (reaches_call _ (CAddNode _ _ _ _) empty_store); [apply reaches_refl|done].
  - eexists. split; [vm_compute; reflexivity|]. split; eexists; vm_compute; reflexivity.
Defined.
