(* ===== verification/TopologyTheorems.v ===== *)
(** * Theorems about the topology store's operations

    Forgetting a host, keeping the agents' tokens, and reading a stored binding back. *)
From S2P Require Import Prelude.
From S2P Require Import PyVal.
From S2P Require Import FileStore.
From S2P Require Import Allocator.
From S2P Require Import BindingModels.
From S2P Require Import TopologyStore.
From S2P Require Import Nodes.
From S2P Require Import Bindings.
From S2P Require Import TopologyCalls.

(** ** Forgetting a host *)
Lemma drop_bindings_ok id ids b :
  NoDup ids → (∀ bid, bid ∈ ids → ∃ x, dget b bid = Some (JObj x)) →
  ∃ out, drop_bindings id ids b = Ok out.
Proof.
  revert b. induction ids as [|i ids IH]; intros b Hnd Hobj; cbn [drop_bindings]; [eauto|].
  apply NoDup_cons in Hnd as [Hi Hnd].
  destruct (Hobj i) as [x Hx]; [set_solver|]. unfold getitem. rewrite Hx.
  unfold mbind, res_bind. cbn [jget]. destruct (py_eq_str _ id).
  - destruct (IH (ddel b i)) as [[b1 r1] H1]; [done| |by rewrite H1; eauto].
    intros bid Hin. rewrite dget_ddel_ne by set_solver. apply Hobj. set_solver.
  - apply IH; [done|]. intros bid Hin. apply Hobj. set_solver.
Qed.

(** The bindings section is a JSON object of rows that are objects. *)
Definition proper_rows (d : dict json) : Prop :=
  NoDup (dkeys (section d "bindings")) ∧
  ∀ bid raw, row d "bindings" bid = Some raw → is_object raw = true.

(** What forgetting the host [id] means for the document and the tokens. *)
Definition forgotten (id : string) (d d' sd sd' : dict json) : Prop :=
  (∀ id', row d' "nodes" id'
          = if decide (id' = id) then None else sort_json <$> row d "nodes" id') ∧
  (∀ bid, row d' "bindings" bid
          = raw ← row d "bindings" bid;
            if owned_by raw id then None else Some (sort_json raw)) ∧
  dget sd' id = None ∧
  (∀ id' tok, id' ≠ id → dget sd id' = Some (JStr tok) → dget sd' id' = Some (JStr tok)).

Lemma remove_body_returns id t :
  wf_state (t_state t) → proper_rows (t_state t) → ∃ out t', remove_body id t = (Ok out, t').
Proof.
  intros Hwf [Hnd Hobj]. unfold remove_body.
  rewrite (bind_ok _ _ _ _ _ (get_section_ok t "nodes" Hwf eq_refl)).
  rewrite (bind_ok _ _ _ _ _ (get_section_ok t "bindings" Hwf eq_refl)).
  destruct (drop_bindings_ok id (dkeys (section (t_state t) "bindings"))
              (section (t_state t) "bindings")) as [[b r] Hd]; [done| |].
  - intros bid Hin. unfold dkeys in Hin. apply list_elem_of_fmap in Hin as ([k raw] & -> & Hin).
    apply (dget_NoDup _ _ _ Hnd) in Hin. specialize (Hobj k raw Hin). simpl.
    destruct raw; try done. eauto.
  - rewrite Hd. unfold lift, mbind, M_bind, put_section, modify. eauto.
Qed.

Lemma secrets_written data :
  ∃ d', secrets_of (dumps (JObj data)) = Ok d' ∧ ∀ id, dget d' id = sort_json <$> dget data id.
Proof.
  eexists. split; [reflexivity|]. intros id. by rewrite dget_sort_items, dget_map_values.
Qed.

(** Dropping a token leaves none of the node and keeps the others. *)
Lemma remove_node_secret_ok id f sd :
  f_fault f = None → secrets_of (f_content f) = Ok sd →
  ∃ f' sd', remove_node_secret id f = (Ok tt, f') ∧ secrets_of (f_content f') = Ok sd' ∧
    dget sd' id = None ∧
    (∀ id' tok, id' ≠ id → dget sd id' = Some (JStr tok) → dget sd' id' = Some (JStr tok)).
Proof.
  intros Hf Hsd.
  destruct (remove_node_secret_cases id f)
    as [(d & f' & Hr & Hd & _ & [(Hc & _ & Hnone)|[Hc _]])|(f' & e & _ & _ & _ & _ & [?|?])];
    [| |done|congruence]; rewrite seen_ok, Hsd in Hd by congruence; injection Hd as <-.
  - exists f', sd. rewrite Hc. by split_and!.
  - destruct (secrets_written (ddel sd id)) as (sd' & Hsd' & Hrows).
    exists f', sd'. rewrite Hc. split_and!; try done.
    + by rewrite Hrows, dget_ddel_eq.
    + intros id' tok Hne Htok. by rewrite Hrows, dget_ddel_ne, Htok by done.
Qed.



(** ** Keeping the agents' tokens *)

(** The secret file holds the token [tok] of the node. *)
Definition token_at (id tok : string) (f : file) : Prop :=
  ∃ d, secrets_of (f_content f) = Ok d ∧ dget d id = Some (JStr tok).

(** The node's row carries no legacy inline token. *)
Definition no_inline (id : string) (d : dict json) : Prop :=
  ∀ raw x, row d "nodes" id = Some raw → jget raw "agent_token" JNull = Ok x → truthy x = false.

(** ... and the file's reads do not fail. *)
Definition held (id tok : string) (f : file) : Prop :=
  token_at id tok f ∧ f_fault f ≠ Some SysRead.

Lemma token_at_same id tok f f' : f_content f' = f_content f → token_at id tok f → token_at id tok f'.
Proof. unfold token_at. by intros ->. Qed.

Lemma held_same id tok f f' :
  f_content f' = f_content f → f_fault f' = f_fault f → held id tok f → held id tok f'.
Proof. unfold held, token_at. by intros -> ->. Qed.

Lemma set_node_secret_token id tok id' tok' f :
  (id' = id → tok' = JStr tok) → held id tok f → held id tok (set_node_secret id' tok' f).2.
Proof.
  intros Hsame [(d & Hd & Htok) Hrd].
  destruct (set_node_secret_cases id' tok' f)
    as [(d0 & f' & -> & Hd0 & Hc & _ & Hf)|(f' & e & -> & Hc & _ & Hf & _)]; simpl;
    (split; [|by rewrite Hf]).
  - rewrite seen_ok, Hd in Hd0 by done. injection Hd0 as <-. destruct (secrets_written (dset d id' tok')) as (d' & Hd' & Hrows).
    exists d'. rewrite Hc. split; [done|]. rewrite Hrows, dget_dset. case_decide as Hid; [|by rewrite Htok].
    by rewrite (Hsame Hid).
  - apply (token_at_same _ _ f); [done|]. by exists d.
Qed.

Lemma remove_node_secret_token id tok id' f :
  id' ≠ id → held id tok f → held id tok (remove_node_secret id' f).2.
Proof.
  intros Hne [(d & Hd & Htok) Hrd].
  destruct (remove_node_secret_cases id' f)
    as [(d0 & f' & -> & Hd0 & Hf & [(Hc & _)|[Hc _]])|(f' & e & -> & Hc & _ & Hf & _)]; simpl;
    (split; [|by rewrite Hf]).
  - apply (token_at_same _ _ f); [done|]. by exists d.
  - rewrite seen_ok, Hd in Hd0 by done. injection Hd0 as <-. destruct (secrets_written (ddel d id')) as (d' & Hd' & Hrows).
    exists d'. rewrite Hc. split; [done|]. by rewrite Hrows, dget_ddel_ne, Htok.
  - apply (token_at_same _ _ f); [done|]. by exists d.
Qed.

Section tokens.
Context `{Entropy} (id tok : string) (Htok : tok ≠ EmptyString).

(** A transaction step that keeps the node's token. *)
Definition keeps_token (t t' : Txn) : Prop :=
  (held id tok (t_secrets t) → held id tok (t_secrets t')) ∧ (t_draws t ≤ t_draws t')%nat.

#[local] Instance keeps_token_preorder : PreOrder keeps_token.
Proof.
  split; [by intros t; split|]. intros t1 t2 t3 [H1 H1'] [H2 H2']. split; [auto|lia].
Qed.

Lemma keeps_get_section k : preserves keeps_token (get_section k).
Proof. unfold get_section. pres. Qed.
Lemma keeps_put_section k d : preserves keeps_token (put_section k d).
Proof. unfold put_section. pres. Qed.
Lemma keeps_draw {A} (f : nat → A) : preserves keeps_token (draw f).
Proof. intros t. split; simpl; [done|lia]. Qed.

Lemma keeps_txn_secrets {A} (m : M file A) :
  (∀ f, held id tok f → held id tok (m f).2) → preserves keeps_token (txn_secrets m).
Proof.
  intros Hm t. unfold txn_secrets, zoom. specialize (Hm (t_secrets t)).
  destruct (m (t_secrets t)) as [r f']. by split.
Qed.

Lemma read_secrets_same f :
  f_content (read_secrets f).2 = f_content f ∧ f_fault (read_secrets f).2 = f_fault f.
Proof. by destruct (read_secrets_spec f) as (f' & -> & Hc & _ & _ & Hf). Qed.

Lemma keeps_read_secrets : preserves keeps_token (txn_secrets read_secrets).
Proof. apply keeps_txn_secrets. intros f. apply held_same; apply read_secrets_same. Qed.

Lemma keeps_with_token n raw : preserves keeps_token (txn_secrets (with_token n raw)).
Proof.
  apply keeps_txn_secrets. intros f. pose proof (read_secrets_same f) as [Hc Hf].
  enough (Hs : (with_token n raw f).2 = (read_secrets f).2) by (apply held_same; by rewrite Hs).
  unfold with_token, mbind, M_bind. destruct (read_secrets f) as [[d|e] f1]; [|done].
  simpl. destruct (truthy _); [done|]. unfold lift. by destruct (jget _ _ _).
Qed.

Lemma keeps_set_secret id' tok' :
  id' ≠ id → preserves keeps_token (txn_secrets (set_node_secret id' tok')).
Proof.
  intros Hne. apply keeps_txn_secrets. intros f. by apply set_node_secret_token.
Qed.
#[local] Hint Resolve keeps_get_section keeps_put_section keeps_draw keeps_read_secrets
  keeps_with_token keeps_set_secret : pres.

Lemma keeps_node_token existing id' : preserves keeps_token (node_token existing id').
Proof. unfold node_token, mint_agent_token. pres. Qed.
#[local] Hint Resolve keeps_node_token : pres.

Lemma keeps_upsert_other id' host role reach serial name :
  id' ≠ id → preserves keeps_token (upsert_body id' host role reach serial name).
Proof. intros Hne. unfold upsert_body. pres. Qed.

Lemma keeps_bind_at {A B} (m : M Txn A) (f : A → M Txn B) t :
  keeps_token t (m t).2 → (∀ a t1, m t = (Ok a, t1) → keeps_token t1 (f a t1).2) →
  keeps_token t ((m ≫= f) t).2.
Proof.
  unfold mbind, M_bind. destruct (m t) as [[a|e] t1]; intros Hm Hf; [|done].
  etrans; [exact Hm|]. by apply Hf.
Qed.

Lemma keeps_lift_at {A B} (r : res A) (f : A → M Txn B) t :
  (∀ a, r = Ok a → keeps_token t (f a t).2) → keeps_token t ((lift r ≫= f) t).2.
Proof. intros Hf. apply keeps_bind_at; [by split|]. intros a t1 [= -> <-]. auto. Qed.

Lemma keeps_pure_at {A B} (m : M Txn A) (f : A → M Txn B) t :
  (∃ r, m t = (r, t)) → (∀ a, keeps_token t (f a t).2) → keeps_token t ((m ≫= f) t).2.
Proof. intros [r Hr] Hf. unfold mbind, M_bind. rewrite Hr. by destruct r. Qed.

(** The token of an enrolled node is found, not minted again. *)
Lemma node_token_known existing t x :
  held id tok (t_secrets t) → jget existing "agent_token" JNull = Ok x → truthy x = false →
  ∃ f', node_token existing id t = (Ok (JStr tok), set_txn_secrets f' t) ∧
        f_content f' = f_content (t_secrets t) ∧ f_fault f' = f_fault (t_secrets t).
Proof.
  intros [(d & Hd & Hrow) Hrd] Hx Hfalse.
  destruct (read_secrets_spec (t_secrets t)) as (f' & Hr & Hc & _ & _ & Hf).
  exists f'. split; [|done]. rewrite seen_ok in Hr by done. unfold node_token. unfold mbind at 1, M_bind at 1, lift. rewrite Hx, Hfalse.
  unfold txn_secrets, zoom, mbind, M_bind. rewrite Hr, Hd, Hrow. simpl.
  apply String.eqb_neq in Htok. by rewrite Htok.
Qed.

Lemma keeps_upsert_same host role reach serial name t :
  no_inline id (t_state t) →
  held id tok (t_secrets t) →
  held id tok (t_secrets (upsert_body id host role reach serial name t).2) ∧
  (t_draws t ≤ t_draws (upsert_body id host role reach serial name t).2)%nat.
Proof.
  intros Hinl Hat. enough (Hk : keeps_token t (upsert_body id host role reach serial name t).2)
    by (destruct Hk; auto).
  unfold upsert_body. apply keeps_bind_at; [apply keeps_get_section|].
  intros nodes t1 (_ & Hnodes & ->)%get_section_inv. cbv zeta.
  apply keeps_lift_at. intros ordinal _.
  apply keeps_pure_at; [destruct (is_null ordinal), (mint_ordinal nodes); eexists; reflexivity|].
  intros ordinal'.
  do 7 (apply keeps_lift_at; intros ? _).
  set (existing := default (JObj []) (dget nodes id)).
  destruct (jget existing "agent_token" JNull) as [x|e] eqn:Hx.
  2: { unfold node_token. unfold mbind, M_bind, lift. rewrite Hx. by split. }
  destruct (node_token_known existing t x) as (f' & Hnt & Hc & Hf); [done|done| |].
  { unfold existing in Hx. destruct (dget nodes id) as [raw|] eqn:Hraw; simpl in Hx.
    - apply (Hinl raw x); [|done]. unfold row. by rewrite Hnodes.
    - by injection Hx as <-. }
  apply keeps_bind_at; [rewrite Hnt; split; [by apply held_same|done]|].
  intros tk t1 Htk. rewrite Hnt in Htk. injection Htk as <- <-.
  apply keeps_bind_at; [apply keeps_put_section|]. intros [] t1 ->%put_section_inv.
  apply keeps_bind_at; [|intros [] t2 _; by split].
  apply keeps_txn_secrets. intros f. by apply set_node_secret_token.
Qed.

(** Identifiers drawn from now on are not the node's. *)
Context (n0 : nat) (Hfresh : ∀ n, (n0 ≤ n)%nat → ("node-" ++ uuid12 n)%string ≠ id).

Lemma keeps_add_body host name role t :
  (n0 ≤ t_draws t)%nat → keeps_token t (add_body host name role t).2.
Proof.
  intros Hn. unfold add_body. apply keeps_bind_at; [apply keeps_get_section|].
  intros nodes t1 (_ & _ & ->)%get_section_inv. apply keeps_lift_at. intros found _.
  destruct found as [[nid raw]|].
  { apply keeps_lift_at. intros entry _. apply keeps_with_token. }
  apply keeps_bind_at; [apply keeps_draw|]. intros hex t1 [= <- <-].
  match goal with |- keeps_token ?w (?m ?w).2 => enough (Hp : preserves keeps_token m) by apply Hp end.
  specialize (Hfresh _ Hn). unfold mint_agent_token. cbv zeta. pres.
Qed.

Definition token_ok (s : Store) : Prop := held id tok (s_secrets s) ∧ (n0 ≤ s_draws s)%nat.

Lemma flock_token {A} (body : M Txn A) s :
  token_ok s →
  (∀ d, topology (f_content (s_topo s)) = Ok d → keeps_token (start s d) (body (start s d)).2) →
  token_ok (flock_state body s).2.
Proof.
  intros [Ht Hn] Hb. destruct (flock_state body s) as [r s'] eqn:Hrun.
  apply flock_cases in Hrun as (_ & _ & Hcases).
  assert (Hd : (s_secrets s' = s_secrets s ∧ s_draws s' = s_draws s) ∨
               ∃ d r' t, topology (f_content (s_topo s)) = Ok d ∧ body (start s d) = (r', t) ∧
                         s_secrets s' = t_secrets t ∧ s_draws s' = t_draws t) by naive_solver.
  unfold token_ok. simpl. destruct Hd as [[-> ->]|(d & r' & t & Hd & Hrun & -> & ->)]; [done|].
  specialize (Hb d Hd). rewrite Hrun in Hb. destruct Hb as [Hb1 Hb2]. simpl in *. split; [auto|lia].
Qed.

Lemma flock_keeps {A} (body : M Txn A) s :
  preserves keeps_token body → token_ok s → token_ok (flock_state body s).2.
Proof. intros Hb Hs. by apply flock_token. Qed.

(** The calls that change or drop the node's token on purpose. *)
Definition addresses_token (c : store_call) : bool :=
  match c with
  | CSetAgentToken i _ | CRemoveNode i => String.eqb i id
  | _ => false
  end.

Lemma token_bind {A B} (m : M Store A) (f : A → M Store B) s :
  token_ok (m s).2 → (∀ a s1, token_ok s1 → token_ok (f a s1).2) → token_ok ((m ≫= f) s).2.
Proof.
  unfold mbind, M_bind. intros Hm Hf. destruct (m s) as [[a|e] s1]; [by apply Hf|done].
Qed.

Lemma call_keeps_token c s :
  addresses_token c = false → token_ok s → topo_inv (no_inline id) s →
  token_ok (run_store_call c s).2.
Proof.
  intros Hc Hs Hinl. destruct c; simpl in *; apply token_bind; try done;
    try (solve [apply flock_keeps; [unfold update_row; pres|done]]).
  - unfold upsert_node. destruct (String.eqb node_id LOCAL_NODE_ID); [done|].
    apply flock_token; [done|]. intros d Hd. destruct (decide (node_id = id)) as [->|Hne].
    + destruct Hs as [Hs Hn]. split; [intros _|]; by apply keeps_upsert_same; [apply Hinl|..].
    + by apply keeps_upsert_other.
  - unfold add_node_by_host. cbv zeta. apply token_bind; [done|]. intros _ s1 Hs1.
    apply flock_token; [done|]. intros d Hd. apply keeps_add_body. apply Hs1.
  - apply String.eqb_neq in Hc. apply flock_keeps; [|done]. cbv zeta. pres.
  - apply String.eqb_neq in Hc. unfold remove_node.
    destruct (String.eqb node_id LOCAL_NODE_ID); [done|].
    apply token_bind; [apply flock_keeps; [unfold remove_body; cbv zeta; pres|done]|].
    intros out s1 [Ht Hn]. unfold on_secrets, zoom, mbind, M_bind.
    pose proof (remove_node_secret_token id tok node_id (s_secrets s1) Hc Ht) as Hk.
    by destruct (remove_node_secret node_id (s_secrets s1)) as [[u|e] f'].
  - apply flock_keeps; [unfold upsert_binding_body; cbv zeta; pres|done].
  - apply token_bind; [done|]. intros _ s1 Hs1. apply flock_keeps; [unfold update_row; pres|done].
Qed.

End tokens.

Lemma edit_no_inline id alloc d d' : edit alloc d d' → no_inline id d → no_inline id d'.
Proof.
  intros He Hd raw x Hraw Hx. destruct He as [Hr|sec i raw0 raw1 Hraw0 Hcols Hr|i n Hn Hr|i Hn Hb
    |b ? ? ? ? ? ? Hr|i Hr|old new raw0 raw1 ? ? ? ? Hn Hb].
  - rewrite Hr in Hraw by done. by eapply Hd.
  - destruct (row_set_inv _ _ _ _ _ _ _ _ Hr Hraw eq_refl) as [(<- & -> & [= ->])|[_ Hraw']];
      [|by eapply Hd].
    rewrite (same_columns_jget _ _ _ _ Hcols) in Hx by (unfold mutable_columns; set_solver).
    by eapply Hd.
  - destruct (row_set_inv _ _ _ _ _ _ _ _ Hr Hraw eq_refl) as [(_ & _ & [= <-])|[_ Hraw']];
      [|by eapply Hd]. by injection Hx as <-.
  - rewrite Hn in Hraw. case_decide; [done|]. by eapply Hd.
  - destruct (row_set_inv _ _ _ _ _ _ _ _ Hr Hraw eq_refl) as [(? & _)|[_ Hraw']]; [done|by eapply Hd].
  - destruct (row_set_inv _ _ _ _ _ _ _ _ Hr Hraw eq_refl) as [(? & _)|[_ Hraw']]; [done|by eapply Hd].
  - rewrite Hn in Hraw. by eapply Hd.
Qed.

Lemma written_no_inline id d d' :
  (∀ k i, is_section k = true → row d' k i = sort_json <$> row d k i) →
  no_inline id d → no_inline id d'.
Proof.
  intros Hrows Hd raw x. rewrite Hrows by done. destruct (row d "nodes" id) as [r|] eqn:Hr; [|done].
  intros [= <-]. rewrite jget_sort_scalar by done.
  destruct (jget r "agent_token" JNull) as [y|] eqn:Hy; intros [= <-].
  rewrite truthy_sort. by eapply Hd.
Qed.
(** A sequence of calls, each with the system calls that fail during it (of the
    topology file and of the secret file). *)
Fixpoint run_faulty `{Entropy} (cs : list (option syscall * option syscall * store_call))
    (s : Store) : Store :=
  match cs with
  | [] => s
  | (ft, fs, c) :: cs' =>
      run_faulty cs' (run_store_call c (set_topo (set_fault ft (s_topo s))
                                          (set_secrets (set_fault fs (s_secrets s)) s))).2
  end.

(** C11. An enrolled node keeps its agent token: whatever calls follow, and whichever
    system calls fail during them other than the reading of the secret file, only rotating
    the token or forgetting the node changes it; in particular registering the node again
    never mints a second one. (A failing read takes the tokens on file for none:
    [TopologyStore.unreadable_secrets_replaced].) *)
Theorem tokens_survive `{Entropy} id tok cs s :
  tok ≠ EmptyString → token_at id tok (s_secrets s) → topo_inv (no_inline id) s →
  (∀ n, (s_draws s ≤ n)%nat → ("node-" ++ uuid12 n)%string ≠ id) →
  Forall (fun c => c.1.2 ≠ Some SysRead ∧ addresses_token id c.2 = false) cs →
  token_at id tok (s_secrets (run_faulty cs s)).
Proof.
  intros Htok Hat Hinl Hfresh Hcs. assert (Hn : (s_draws s ≤ s_draws s)%nat) by done.
  revert Hn Hat Hinl Hfresh. generalize (s_draws s) at 1 3 as n0. revert s.
  induction Hcs as [|[[ft fs] c] cs [Hfs Hc] _ IH]; intros s n0 Hn Hat Hinl Hfresh; [done|]. simpl in *.
  set (s1 := set_topo (set_fault ft (s_topo s)) (set_secrets (set_fault fs (s_secrets s)) s)).
  assert (Hok : token_ok id tok n0 (run_store_call c s1).2).
  { apply call_keeps_token; try done. }
  destruct Hok as [[Hat' _] Hn'].
  apply (IH _ n0); [done|done| |done]. by apply call_inv; [apply edit_no_inline|apply written_no_inline|].
Qed.

(** After the enrolment of a host, the host is registered again under a new label while
    the secret file cannot be replaced, and once more. *)
Definition reregister : list (option syscall * option syscall * store_call) :=
  [(None, Some SysReplace, CUpsertNode "node-0" "192.168.10.56" "remote_producer" "unknown" None None);
   (None, None, CUpsertNode "node-0" "192.168.10.57" "remote_producer" "unknown" None None)]%string.

Lemma tokens_survive_witness :
  token_at "node-0" "tok-1" (s_secrets (run_faulty (H:=sample_entropy) reregister enrolled_store)).
Proof.
  apply (tokens_survive (H:=sample_entropy)).
  - done.
  - eexists. split; [vm_compute; reflexivity|done].
  - intros d Hd raw x Hraw Hx. vm_compute in Hd. injection Hd as <-. vm_compute in Hraw.
    injection Hraw as <-. vm_compute in Hx. by injection Hx as <-.
  - intros n Hn Heq. change (s_draws enrolled_store) with 2%nat in Hn.
    change "node-0"%string with ("node-" ++ pretty 0%nat)%string in Heq.
    apply (inj (String.append "node-")) in Heq. apply (inj pretty) in Heq. lia.
  - repeat constructor; discriminate.
Defined.

(** ** Reading a stored binding back *)
Lemma overlay_spec items out l :
  NoDup (dkeys items) → overlay items out = Ok l →
  ∀ k, match dget items k with
       | Some raw => ∃ b, binding_from_raw raw = Ok b ∧ dget l k = Some b
       | None => dget l k = dget out k
       end.
Proof.
  revert out. induction items as [|[k0 raw0] items IH]; intros out Hnd Hl k; simpl in *.
  { by injection Hl as ->. }
  apply NoDup_cons in Hnd as [Hk0 Hnd]. apply res_bind_ok in Hl as (b & Hb & Hl).
  specialize (IH _ Hnd Hl k). case_decide as Hk.
  - subst. apply dget_None in Hk0. rewrite Hk0, dget_dset_eq in IH. eauto.
  - destruct (dget items k); [done|]. by rewrite dget_dset_ne in IH.
Qed.

Lemma overlay_returns items out :
  (∀ k raw, (k, raw) ∈ items → ∃ b, binding_from_raw raw = Ok b) → ∃ l, overlay items out = Ok l.
Proof.
  revert out. induction items as [|[k raw] items IH]; intros out Hall; simpl; [eauto|].
  destruct (Hall k raw) as [b Hb]; [set_solver|]. rewrite Hb. apply IH. set_solver.
Qed.

Lemma overlay_decodes items out l k raw :
  overlay items out = Ok l → (k, raw) ∈ items → ∃ b, binding_from_raw raw = Ok b.
Proof.
  revert out. induction items as [|[k0 raw0] items IH]; intros out Hl Hin; [by apply elem_of_nil in Hin|].
  simpl in Hl. apply res_bind_ok in Hl as (b & Hb & Hl).
  apply elem_of_cons in Hin as [[= -> ->]|Hin]; [eauto|]. by eapply IH.
Qed.

Lemma list_bindings_spec s d l0 :
  f_fault (s_topo s) ≠ Some SysRead →
  topology (f_content (s_topo s)) = Ok d → project_local (f_content (s_alloc s)) = Ok l0 →
  ∃ s', list_bindings s = (overlay (section d "bindings") l0, s') ∧ s_alloc s' = s_alloc s.
Proof.
  intros Hf Hd Hl. destruct (load_topology_spec (s_topo s)) as (f' & Hload & _).
  rewrite seen_ok in Hload by done. exists (set_topo f' s). split; [|done]. unfold list_bindings.
  rewrite (bind_ok get _ s s s eq_refl). unfold lift. unfold mbind, M_bind. rewrite Hl.
  unfold on_topo, zoom. by rewrite Hload, Hd.
Qed.

Lemma list_bindings_inv s l s0 :
  list_bindings s = (Ok l, s0) →
  ∃ d l0, topology (f_content (s_topo s)) = Ok d ∧ project_local (f_content (s_alloc s)) = Ok l0 ∧
          overlay (section d "bindings") l0 = Ok l.
Proof.
  intros Hrun. unfold list_bindings in Hrun.
  rewrite (bind_ok get _ s s s eq_refl) in Hrun. run_inv.
  destruct (load_topology_spec (s_topo s)) as (f' & Hload & _).
  match goal with H : on_topo _ _ = _ |- _ => unfold on_topo, zoom in H; rewrite Hload in H;
    injection H as ?%topology_seen <- end. eauto.
Qed.

Lemma project_local_sorted alloc l0 k :
  project_local alloc = Ok l0 → sort_binding <$> dget l0 k = dget l0 k.
Proof.
  unfold project_local. intros (allocs & _ & [= <-])%res_bind_ok. clear alloc.
  induction allocs as [|[k0 a] allocs IH]; simpl; [done|]. by case_decide.
Qed.

(** A section as it reads back after it was written. *)
Definition written_items (items : dict json) : dict json :=
  sort_items (map (fun '(k, v) => (k, sort_json v)) items).

Lemma section_written d items :
  ∃ d', topology (dumps (JObj (dset d "bindings" (JObj items)))) = Ok d' ∧
        section d' "bindings" = written_items items.
Proof.
  eexists. split; [reflexivity|]. rewrite normalize_section by done.
  unfold section. by rewrite dget_sort_items, dget_map_values, dget_dset_eq.
Qed.

Lemma NoDup_written items : NoDup (dkeys items) → NoDup (dkeys (written_items items)).
Proof.
  intros Hnd. apply NoDup_sort_items. unfold dkeys. rewrite <- list_fmap_compose.
  rewrite (list_fmap_ext _ fst) by (by intros ? [] ?). done.
Qed.

(** The merged view after a row was stored, from the view before. *)
Lemma overlay_stored items b alloc l0 l :
  NoDup (dkeys items) → project_local alloc = Ok l0 → overlay items l0 = Ok l →
  ∃ l', overlay (written_items (dset items (b_binding_id b) (binding_to_dict b))) l0 = Ok l' ∧
    ∀ id, dget l' id = sort_binding <$> if decide (id = b_binding_id b) then Some b
                                        else dget l id.
Proof.
  intros Hnd Hl0 Hl. set (items' := written_items _).
  assert (Hnd' : NoDup (dkeys items')) by (by apply NoDup_written, NoDup_dset).
  destruct (overlay_returns items' l0) as [l' Hl'].
  { intros k raw [[k0 raw0] [[= -> ->] Hin]]%sort_items_elem%list_elem_of_fmap.
    rewrite binding_from_raw_sort. apply dset_elem in Hin as [[= -> ->]|Hin].
    - rewrite binding_roundtrip. by eexists.
    - destruct (overlay_decodes _ _ _ _ _ Hl Hin) as [b0 ->]. by eexists. }
  exists l'. split; [done|]. intros id.
  pose proof (overlay_spec _ _ _ Hnd Hl id) as Hold. pose proof (overlay_spec _ _ _ Hnd' Hl' id) as Hnew.
  unfold items', written_items in Hnew. rewrite dget_sort_items, dget_map_values, dget_dset in Hnew.
  rewrite (decide_ext _ _ _ _ (eq_comm (b_binding_id b) id)) in Hnew. case_decide.
  - destruct Hnew as (b0 & Hb0 & ->). rewrite binding_written_reads_back in Hb0. by injection Hb0 as <-.
  - destruct (dget items id) as [raw|]; simpl in Hnew.
    + destruct Hold as (b1 & Hb1 & ->), Hnew as (b2 & Hb2 & ->).
      rewrite binding_from_raw_sort, Hb1 in Hb2. by injection Hb2 as <-.
    + rewrite Hnew, Hold. by rewrite (project_local_sorted _ _ _ Hl0).
Qed.

(** The merged view [l] with the binding [b] in its place. *)
Definition view_with (b : StreamBinding) (l : dict StreamBinding) (id : string)
    : option StreamBinding :=
  sort_binding <$> if decide (id = b_binding_id b) then Some b else dget l id.

(** The store at a later moment, when no system call fails. *)
Definition calm (s : Store) : Store := set_topo (set_fault None (s_topo s)) s.

(** A stored binding reads back: when [upsert_binding] returns, the merged view holds
    the binding under its id and everything else as before (free-form columns with
    their keys sorted); when it raises, the topology document is unchanged. *)
Theorem upsert_reads_back b jm s d l s0 :
  topology (f_content (s_topo s)) = Ok d → NoDup (dkeys (section d "bindings")) →
  list_bindings s = (Ok l, s0) →
  match upsert_binding b jm s with
  | (Ok b', s') =>
      b' = b ∧
      ∃ l' s1, list_bindings (calm s') = (Ok l', s1) ∧ ∀ id, dget l' id = view_with b l id
  | (Raise _, s') => f_content (s_topo s') = f_content (s_topo s)
  end.
Proof.
  intros Hd Hnd Hl. apply list_bindings_inv in Hl as (d0 & l0 & Hd0 & Hl0 & Hl).
  rewrite Hd in Hd0. injection Hd0 as <-.
  destruct (upsert_binding b jm s) as [r s'] eqn:Hrun.
  apply flock_cases in Hrun as (_ & Hal & [(e & -> & Hc & _)|(d1 & a & t & Hd1 & Hbody & -> & Hc & _)]);
    [done|]. rewrite Hd in Hd1. injection Hd1 as <-.
  apply upsert_binding_spec in Hbody as (-> & _ & _ & _ & _ & _ & _ & _ & _ & Hst). split; [done|].
  simpl in Hst. rewrite Hst in Hc.
  destruct (section_written d (dset (section d "bindings") (b_binding_id b) (binding_to_dict b)))
    as (d' & Hd' & Hsec). rewrite <- Hc in Hd'.
  destruct (overlay_stored _ b _ _ _ Hnd Hl0 Hl) as (l' & Hl' & Hview).
  destruct (list_bindings_spec (calm s') d' l0) as (s1 & Hrun' & _); [done|done|simpl; by rewrite Hal|].
  exists l', s1. by rewrite Hrun', Hsec, Hl'.
Qed.

Lemma upsert_reads_back_witness :
  ∃ s' l' s1, upsert_binding sample_binding 1305 enrolled_store = (Ok sample_binding, s') ∧
    list_bindings (calm s') = (Ok l', s1) ∧ dget l' "node-0:color" = Some (sort_binding sample_binding).
Proof.
  destruct (topology (f_content (s_topo enrolled_store))) as [d|] eqn:Hd;
    [|vm_compute in Hd; discriminate Hd].
  destruct (list_bindings enrolled_store) as [[l|] s0] eqn:Hl; [|vm_compute in Hl; discriminate Hl].
  assert (Hnd : NoDup (dkeys (section d "bindings"))).
  { vm_compute in Hd. injection Hd as <-. vm_compute. constructor. }
  pose proof (upsert_reads_back sample_binding 1305 enrolled_store d l s0 Hd Hnd Hl) as Hback.
  destruct (upsert_binding sample_binding 1305 enrolled_store) as [[b'|e] s'] eqn:Hrun;
    [|vm_compute in Hrun; discriminate Hrun].
  destruct Hback as (-> & l' & s1 & Hl' & Hview). exists s', l', s1.
  split_and!; [done|done|]. by rewrite Hview.
Defined.
