(* ===== verification/Journal.v ===== *)
(** * The operation journal and its runner ([app/services/operation_journal.py],
    [app/services/node_operation_runner.py])

    One record per long node operation; at most one operation runs per node. Records
    are JSON objects in a list; every mutation runs under the journal's file lock. *)
From S2P Require Import Prelude.
From S2P Require Import PyVal.
From S2P Require Import FileStore.
From S2P Require Import BindingModels.
From S2P Require Import TopologyStore.
From S2P Require Import Nodes.
From S2P Require Import Bindings.
From S2P Require Import TopologyCalls.

Definition MAX_RECORDS : nat := 500.

(** ** Loading *)

(** [_quarantine]: the file is moved aside; a failure is ignored. *)
Definition quarantine_move : M file unit :=
  suppress_oserror (
    sys SysReplace ;;
    modify (fun f => set_content Absent (f_mode f) (set_copies (f_copies f ++ [f_content f]) f))).

(** [json.loads(path.read_text() or "{}") or {}] *)
Definition parse_journal (c : content) : res json :=
  t ← read_text c;
  j ← match t with TxEmpty => Ok (JObj []) | _ => json_loads t end;
  Ok (if truthy j then j else JObj []).

Definition load_journal : M file (dict json) :=
  f ← get;
  if exists_ (f_content f) then
    data ← try_except2 (lift (parse_journal (f_content f)))
             CJsonDecode (fun _ => quarantine_move ;; throw EJournalCorrupt)
             CUnicodeDecode (fun _ => quarantine_move ;; throw EJournalCorrupt);
    match data with
    | JObj d => mret (if dmem d "operations" then d else dset d "operations" (JArr []))
    | _ => throw EAttribute                                (* [data.setdefault] *)
    end
  else mret [("version", JInt 1); ("operations", JArr [])]%string.

(** [state["operations"]]; a value that is not a list is outside the model. *)
Definition operations (d : dict json) : res (list json) :=
  match dget d "operations" with
  | Some (JArr l) => Ok l
  | Some _ => fail EUnmodelled
  | None => fail EKey
  end.

Definition flock_journal {A} (body : M (dict json) A) : M file A :=
  sys SysMkdir ;;
  sys SysLock ;;
  d ← load_journal;
  match body d with
  | (Ok a, d') => replace_write (dumps (JObj d')) ;; mret a
  | (Raise e, _) => raise e
  end.

(** ** Operations *)

(** [op["node_id"] == node_id and op["status"] == "running"] *)
Definition is_running_for (node_id : string) (op : json) : res bool :=
  n ← getitem op "node_id";
  if py_eq_str n node_id then
    s ← getitem op "status"; Ok (py_eq_str s "running")
  else Ok false.

Fixpoint find_op (p : json → res bool) (ops : list json) : res (option json) :=
  match ops with
  | [] => Ok None
  | op :: ops' => b ← p op; if (b : bool) then Ok (Some op) else find_op p ops'
  end.

Definition op_record (node_id op_type operation_id : string) (now : Z) : json :=
  JObj [("operation_id", JStr operation_id); ("op_type", JStr op_type);
        ("node_id", JStr node_id); ("status", JStr "running"); ("started_at", JInt now);
        ("finished_at", JNull); ("last_error", JStr EmptyString)]%string.

(** Drops the [n_drop] oldest records that are not running. *)
Fixpoint prune (n_drop : nat) (ops : list json) : res (list json) :=
  match ops with
  | [] => Ok []
  | o :: ops' =>
      match n_drop with
      | S n_drop' =>
          s ← getitem o "status";
          if py_eq_str s "running" then r ← prune n_drop ops'; Ok (o :: r)
          else prune n_drop' ops'
      | O => r ← prune O ops'; Ok (o :: r)
      end
  end.

Definition begin_body (node_id op_type operation_id : string) (now : Z) : M (dict json) json :=
  d ← get;
  ops ← lift (operations d);
  busy ← lift (find_op (is_running_for node_id) ops);
  match busy with
  | Some op => lift (getitem op "op_type") ;; throw EConflict
  | None =>
      let rec := op_record node_id op_type operation_id now in
      let ops := ops ++ [rec] in
      modify (fun d => dset d "operations" (JArr ops)) ;;
      (if (MAX_RECORDS <? length ops)%nat then
         kept ← lift (prune (length ops - MAX_RECORDS) ops);
         modify (fun d => dset d "operations" (JArr kept))
       else mret tt) ;;
      mret rec
  end.

Definition begin (node_id op_type operation_id : string) (now : Z) : M file json :=
  flock_journal (begin_body node_id op_type operation_id now).

(** The record [finish] leaves for one that it matches. *)
Definition finished (status last_error : string) (now : Z) (op : json) : res json :=
  op ← setitem op "status" (JStr status);
  op ← setitem op "finished_at" (JInt now);
  setitem op "last_error" (JStr (String.substring 0 300 last_error)).

(** The first record with the id is changed in place. *)
Fixpoint finish_first (operation_id status last_error : string) (now : Z) (ops : list json)
    : res (list json) :=
  match ops with
  | [] => Ok []
  | op :: ops' =>
      i ← getitem op "operation_id";
      if py_eq_str i operation_id then op' ← finished status last_error now op; Ok (op' :: ops')
      else r ← finish_first operation_id status last_error now ops'; Ok (op :: r)
  end.

Definition finish (operation_id status last_error : string) (now : Z) : M file unit :=
  flock_journal (
    d ← get;
    ops ← lift (operations d);
    ops' ← lift (finish_first operation_id status last_error now ops);
    modify (fun d => dset d "operations" (JArr ops'))).

(** *** Reads *)
Definition load_operations : M file (list json) := d ← load_journal; lift (operations d).

Definition running_for_node (node_id : string) : M file (option json) :=
  ops ← load_operations; lift (find_op (is_running_for node_id) ops).

Definition is_running (op : json) : res bool :=
  s ← getitem op "status"; Ok (py_eq_str s "running").

Fixpoint filter_ops (p : json → res bool) (ops : list json) : res (list json) :=
  match ops with
  | [] => Ok []
  | op :: ops' => b ← p op; r ← filter_ops p ops'; Ok (if (b : bool) then op :: r else r)
  end.

Definition all_running : M file (list json) :=
  ops ← load_operations; lift (filter_ops is_running ops).

(** [ops[-limit:][::-1]] *)
Definition recent {A} (limit : Z) (ops : list A) : list A :=
  let n := Z.of_nat (length ops) in
  let from := if 0 <? limit then Z.max 0 (n - limit) else - limit in
  rev (drop (Z.to_nat from) ops).

Definition list_recent (limit : Z) : M file (list json) :=
  ops ← load_operations; mret (recent limit ops).

Definition get_op (operation_id : string) : M file (option json) :=
  ops ← load_operations;
  lift (find_op (fun op => i ← getitem op "operation_id"; Ok (py_eq_str i operation_id)) ops).

(** ** The runner *)

(** The thread of [run] after [begin]: the outcome of the operation is recorded; a
    journal found corrupt at that point is only logged. *)
Definition record_outcome (operation_id : string) (outcome : res unit) (now : Z) : M file unit :=
  let '(status, last_error) :=
    match outcome with Ok _ => ("succeeded", EmptyString) | Raise e => ("failed", ex_msg e) end%string in
  try_except (finish operation_id status last_error now) CJournalCorrupt (fun _ => mret tt).

(** [run] up to the start of the thread. *)
Definition run_op (node_id op_type operation_id : string) (now : Z) : M file string :=
  begin node_id op_type operation_id now ;; mret operation_id.

(** [provision_state in {"reachable", "probing"}] *)
Definition is_in_progress (provision_state : json) : res bool :=
  match provision_state with
  | JArr _ | JObj _ => fail EType
  | x => Ok (py_eq_str x "reachable" || py_eq_str x "probing")
  end.

Record System := mkSystem { y_journal : file; y_store : Store }.
Definition on_journal {A} (m : M file A) : M System A :=
  zoom y_journal (fun f y => mkSystem f (y_store y)) m.
Definition on_store {A} (m : M Store A) : M System A :=
  zoom y_store (fun s y => mkSystem (y_journal y) s) m.

Definition as_str (x : json) : res string :=
  match x with JStr s => Ok s | _ => fail EUnmodelled end.

Definition unstick (op : json) : M System unit :=
  nid ← lift (getitem op "node_id"); nid ← lift (as_str nid);
  node ← on_store (get_node nid);
  match node with
  | None => mret tt
  | Some node =>
      busy ← lift (is_in_progress (n_provision_state node));
      when busy
        (ty ← lift (getitem op "op_type"); ty ← lift (to_str ty);
         on_store (set_provision_state nid "failed" (Some ("interrupted by restart: " ++ ty)%string)) ;;
         mret tt)
  end.

Definition reap_op (now : Z) (op : json) : M System unit :=
  i ← lift (getitem op "operation_id"); i ← lift (as_str i);
  on_journal (finish i "interrupted" "interrupted by gateway restart" now) ;;
  try_except (unstick op) CException (fun _ => mret tt).

Definition reap_orphans (now : Z) : M System (list json) :=
  running ← try_except (ops ← on_journal all_running; mret (Some ops)) CJournalCorrupt
              (fun _ => mret None);
  match running with
  | None => mret []
  | Some running => for_each running (reap_op now) ;; mret running
  end.

(** ** What loading sees *)
Definition journal_of (c : content) : res (dict json) :=
  match c with
  | Absent => Ok [("version", JInt 1); ("operations", JArr [])]%string
  | Unreadable => fail EOS
  | NotUtf8 => fail EJournalCorrupt
  | Text _ =>
      match parse_journal c with
      | Ok (JObj d) => Ok (if dmem d "operations" then d else dset d "operations" (JArr []))
      | Ok _ => fail EAttribute
      | Raise _ => fail EJournalCorrupt
      end
  end.

Lemma quarantine_move_spec f :
  ∃ f', quarantine_move f = (Ok tt, f') ∧ f_fault f' = f_fault f ∧
        (f' = f ∨ f_content f' = Absent ∧ f_copies f' = f_copies f ++ [f_content f]).
Proof.
  unfold quarantine_move, suppress_oserror, try_except, mbind, M_bind, sys.
  case_decide; simpl; eexists; (split; [done|]); simpl; auto.
Qed.

Lemma corrupt_read (r : res json) f e :
  r = Raise e → ex_kind e = EJsonDecode ∨ ex_kind e = EUnicodeDecode →
  ∃ f', try_except2 (lift r) CJsonDecode (fun _ => quarantine_move ;; throw EJournalCorrupt)
          CUnicodeDecode (fun _ => quarantine_move ;; throw EJournalCorrupt) f
        = (fail EJournalCorrupt, f') ∧ f_fault f' = f_fault f ∧ (f' = f ∨ f_content f' = Absent).
Proof.
  intros -> He. destruct (quarantine_move_spec f) as (f' & Hq & Hfault & Hc). exists f'.
  unfold try_except2, lift. split; [|naive_solver].
  destruct He as [-> | ->]; simpl; by rewrite (bind_ok _ _ _ _ _ Hq).
Qed.

Lemma load_journal_spec f :
  ∃ f', load_journal f = (journal_of (f_content f), f') ∧ f_fault f' = f_fault f ∧
        (f' = f ∨ f_content f' = Absent ∧ is_ok (journal_of (f_content f)) = false).
Proof.
  unfold load_journal. rewrite (bind_ok get _ f f f eq_refl).
  destruct (f_content f) as [| | |[| | |j|str]] eqn:Hcon; simpl; try (exists f; by auto).
  4: { unfold mbind, M_bind, try_except2, lift. simpl. destruct (truthy j), j; exists f; auto. }
  all: match goal with |- context [try_except2 (lift ?r)] =>
         destruct (corrupt_read r f (Exn (match r with Raise e => ex_kind e | _ => EKey end) EmptyString))
           as (f' & Hq & Hfault & Hc); [done|by auto|] end.
  all: exists f'; rewrite (bind_raise _ _ _ _ _ Hq); split_and!; [done|done|tauto].
Qed.

(** The records a reader of the file gets. *)
Definition records (c : content) : res (list json) := d ← journal_of c; operations d.

Lemma journal_written d ops :
  operations d = Ok ops →
  ∃ d', journal_of (dumps (JObj d)) = Ok d' ∧ operations d' = Ok (map sort_json ops).
Proof.
  intros Hops.
  assert (Hd : dget d "operations" = Some (JArr ops)).
  { unfold operations in Hops. destruct (dget d "operations") as [[]|]; try done. by injection Hops as ->. }
  set (d' := sort_items (map (fun '(k, v) => (k, sort_json v)) d)).
  assert (Hd' : dget d' "operations" = Some (JArr (map sort_json ops))).
  { unfold d'. by rewrite dget_sort_items, dget_map_values, Hd. }
  exists d'. split; [|by unfold operations; rewrite Hd'].
  unfold journal_of, dumps, parse_journal. cbn [read_text sort_json]. fold d'.
  unfold mbind, res_bind, json_loads. clearbody d'. destruct d' as [|kv d2]; [done|].
  cbn [truthy]. unfold dmem. by rewrite Hd'.
Qed.

Section flock.
Context {A : Type} (body : M (dict json) A).

Lemma flock_journal_cases f r f' :
  flock_journal body f = (r, f') →
  (is_ok r = false ∧ (f_content f' = f_content f ∨ f_content f' = Absent)) ∨
  (∃ d a d', journal_of (f_content f) = Ok d ∧ body d = (Ok a, d') ∧ r = Ok a ∧
             f_content f' = dumps (JObj d')).
Proof.
  unfold flock_journal.
  destruct (sys_cases SysMkdir f) as [[Hs _]|Hs];
    [rewrite (bind_raise _ _ _ _ _ Hs); intros [= <- <-]; by auto|].
  rewrite (bind_ok _ _ _ _ _ Hs). clear Hs.
  destruct (sys_cases SysLock f) as [[Hs _]|Hs];
    [rewrite (bind_raise _ _ _ _ _ Hs); intros [= <- <-]; by auto|].
  rewrite (bind_ok _ _ _ _ _ Hs). clear Hs.
  destruct (load_journal_spec f) as (f1 & Hload & Hfault & Hc).
  destruct (journal_of (f_content f)) as [d|e] eqn:Hj.
  - rewrite (bind_ok _ _ _ _ _ Hload). destruct Hc as [->|[_ ?]]; [|done].
    destruct (body d) as [[a|e] d'] eqn:Hbody; [|intros [= <- <-]; by auto].
    destruct (replace_write_cases (dumps (JObj d')) f)
      as [(f2 & Hw & Hc2 & _)|(f2 & e & Hw & Hc2 & _)].
    + rewrite (bind_ok _ _ _ _ _ Hw). intros [= <- <-]. right. eauto 10.
    + rewrite (bind_raise _ _ _ _ _ Hw). intros [= <- <-]. auto.
  - rewrite (bind_raise _ _ _ _ _ Hload). intros [= <- <-]. left. split; [done|].
    destruct Hc as [->|[? _]]; auto.
Qed.

Lemma flock_journal_ok f d a d' :
  f_fault f = None → journal_of (f_content f) = Ok d → body d = (Ok a, d') →
  ∃ f', flock_journal body f = (Ok a, f') ∧ f_content f' = dumps (JObj d') ∧ f_fault f' = None.
Proof.
  intros Hf Hj Hbody. unfold flock_journal.
  rewrite (bind_ok _ _ _ _ _ (sys_ok SysMkdir f Hf)), (bind_ok _ _ _ _ _ (sys_ok SysLock f Hf)).
  destruct (load_journal_spec f) as (f1 & Hload & _ & Hc). rewrite Hj in Hload, Hc.
  rewrite (bind_ok _ _ _ _ _ Hload). destruct Hc as [->|[_ ?]]; [|done]. rewrite Hbody.
  destruct (replace_write_cases (dumps (JObj d')) f)
    as [(f2 & Hw & Hc2 & Hf2 & _)|(f2 & e & _ & _ & _ & Hn & _)]; [|congruence].
  rewrite (bind_ok _ _ _ _ _ Hw). exists f2. split_and!; [done..|congruence].
Qed.

Lemma flock_journal_raise f d e d' :
  f_fault f = None → journal_of (f_content f) = Ok d → body d = (Raise e, d') →
  flock_journal body f = (Raise e, f).
Proof.
  intros Hf Hj Hbody. unfold flock_journal.
  rewrite (bind_ok _ _ _ _ _ (sys_ok SysMkdir f Hf)), (bind_ok _ _ _ _ _ (sys_ok SysLock f Hf)).
  destruct (load_journal_spec f) as (f1 & Hload & _ & Hc). rewrite Hj in Hload, Hc.
  rewrite (bind_ok _ _ _ _ _ Hload). destruct Hc as [->|[_ ?]]; [|done]. by rewrite Hbody.
Qed.
End flock.

(** ** One running operation per node *)
Definition runs_for (node_id : string) (op : json) : bool :=
  match is_running_for node_id op with Ok b => b | Raise _ => false end.

Definition runs (op : json) : bool := match is_running op with Ok b => b | Raise _ => false end.

Definition running_of (node_id : string) (ops : list json) : list json :=
  List.filter (runs_for node_id) ops.

Definition one_running (ops : list json) : Prop :=
  ∀ n, (length (running_of n ops) ≤ 1)%nat.

Lemma runs_for_runs n op : runs_for n op = true → runs op = true.
Proof.
  unfold runs_for, runs, is_running_for, is_running, mbind, res_bind.
  destruct (getitem op "node_id") as [x|]; [|done]. destruct (py_eq_str x n); [|done].
  by destruct (getitem op "status").
Qed.

Lemma is_running_for_sort n op : is_running_for n (sort_json op) = is_running_for n op.
Proof.
  unfold is_running_for, mbind, res_bind. rewrite !getitem_sort. unfold fmap, res_fmap.
  destruct (getitem op "node_id") as [x|]; [|done].
  assert (Heq : ∀ x s, py_eq_str (sort_json x) s = py_eq_str x s) by (by intros []).
  rewrite Heq. destruct (py_eq_str x n); [|done].
  destruct (getitem op "status") as [y|]; [|done]. by rewrite Heq.
Qed.

Lemma running_of_sort n ops : length (running_of n (map sort_json ops)) = length (running_of n ops).
Proof.
  unfold running_of. induction ops as [|op ops IH]; simpl; [done|].
  assert (runs_for n (sort_json op) = runs_for n op) as ->
    by (unfold runs_for; by rewrite is_running_for_sort).
  destruct (runs_for n op); simpl; by rewrite IH.
Qed.

Lemma find_op_none p ops : find_op p ops = Ok None → ∀ op, op ∈ ops → p op = Ok false.
Proof.
  induction ops as [|o ops IH]; simpl; [intros _ op Hin; by apply elem_of_nil in Hin|].
  unfold mbind, res_bind. destruct (p o) as [[]|] eqn:Hp; [done| |done].
  intros Hf op [->|Hin]%elem_of_cons; auto.
Qed.

Lemma find_op_some p ops op : find_op p ops = Ok (Some op) → op ∈ ops ∧ p op = Ok true.
Proof.
  induction ops as [|o ops IH]; simpl; [done|].
  unfold mbind, res_bind. destruct (p o) as [[]|] eqn:Hp; [| |done].
  - intros [= <-]. split; [set_solver|done].
  - intros Hf. destruct (IH Hf). set_solver.
Qed.

(** Pruning drops only records that are not running, oldest first, and just enough. *)
Lemma prune_spec n ops kept :
  prune n ops = Ok kept →
  kept `sublist_of` ops ∧ List.filter runs kept = List.filter runs ops ∧
  (length kept ≤ Nat.max (length ops - n) (length (List.filter runs ops)))%nat ∧
  (length ops - n ≤ length kept)%nat.
Proof.
  revert n kept. induction ops as [|o ops IH]; intros n kept; cbn [prune].
  { intros [= <-]. split_and!; [done|done|simpl; lia|simpl; lia]. }
  destruct n as [|n].
  - intros (r & Hr & [= <-])%res_bind_ok. destruct (IH _ _ Hr) as (H1 & H2 & H3 & H4).
    simpl. rewrite H2. split_and!; [by constructor|done| |lia].
    pose proof (List.filter_length_le runs ops). destruct (runs o); simpl; lia.
  - intros (s & Hs & Hrun)%res_bind_ok. assert (Ho : runs o = py_eq_str s "running").
    { unfold runs, is_running. by rewrite Hs. }
    destruct (py_eq_str s "running").
    + apply res_bind_ok in Hrun as (r & Hr & [= <-]). destruct (IH _ _ Hr) as (H1 & H2 & H3 & H4).
      simpl. rewrite Ho, H2. split_and!; [by constructor|done|simpl; lia|lia].
    + destruct (IH _ _ Hrun) as (H1 & H2 & H3 & H4). simpl. rewrite Ho.
      split_and!; [by constructor|done|lia|lia].
Qed.

Lemma running_of_filter n ops : running_of n ops = List.filter (runs_for n) (List.filter runs ops).
Proof.
  unfold running_of. induction ops as [|o ops IH]; simpl; [done|].
  destruct (runs_for n o) eqn:Hn.
  - rewrite (runs_for_runs _ _ Hn). simpl. by rewrite Hn, IH.
  - destruct (runs o); simpl; by rewrite ?Hn.
Qed.

Lemma one_running_sublist ops ops' :
  List.filter runs ops' = List.filter runs ops → one_running ops → one_running ops'.
Proof. intros Heq Ho n. rewrite running_of_filter, Heq, <- running_of_filter. apply Ho. Qed.

Lemma running_of_app n ops1 ops2 : running_of n (ops1 ++ ops2) = running_of n ops1 ++ running_of n ops2.
Proof. apply List.filter_app. Qed.

Lemma running_of_nil n ops : find_op (is_running_for n) ops = Ok None → running_of n ops = [].
Proof.
  intros Hf. pose proof (find_op_none _ _ Hf) as Hall. clear Hf. unfold running_of.
  induction ops as [|op ops IH]; simpl; [done|]. unfold runs_for at 1.
  rewrite (Hall op) by set_solver. apply IH. set_solver.
Qed.

Lemma runs_for_record n node ty i now :
  runs_for n (op_record node ty i now) = String.eqb node n.
Proof. unfold runs_for, is_running_for. simpl. by destruct (String.eqb node n). Qed.

(** What a successful [begin] leaves. *)
Lemma begin_body_inv node ty i now d a d' :
  begin_body node ty i now d = (Ok a, d') →
  ∃ ops kept, operations d = Ok ops ∧ operations d' = Ok kept ∧ a = op_record node ty i now ∧
    find_op (is_running_for node) ops = Ok None ∧
    kept `sublist_of` ops ++ [a] ∧ List.filter runs kept = List.filter runs ops ++ [a] ∧
    (length kept ≤ Nat.max MAX_RECORDS (S (length (List.filter runs ops))))%nat ∧
    (length (ops ++ [a]) ≤ MAX_RECORDS → kept = ops ++ [a])%nat.
Proof.
  intros Hrun. unfold begin_body in Hrun.
  apply bind_ok_inv in Hrun as (d0 & d1 & [= <- <-] & Hrun).
  apply bind_ok_inv in Hrun as (ops & d2 & [Hops ->]%lift_ok_inv & Hrun).
  apply bind_ok_inv in Hrun as (busy & d3 & [Hbusy ->]%lift_ok_inv & Hrun).
  destruct busy as [op|]; [by apply bind_ok_inv in Hrun as (? & ? & _ & ?)|].
  cbv zeta in Hrun. set (rec := op_record node ty i now) in *.
  apply bind_ok_inv in Hrun as ([] & d4 & [= <-] & Hrun).
  apply bind_ok_inv in Hrun as ([] & d5 & Hprune & Hrun).
  apply ret_ok_inv in Hrun as [-> ->]. exists ops.
  assert (Hfil : List.filter runs (ops ++ [rec]) = List.filter runs ops ++ [rec]).
  { rewrite List.filter_app. done. }
  destruct (Nat.ltb_spec MAX_RECORDS (length (ops ++ [rec]))) as [Hlong|Hshort].
  - apply bind_ok_inv in Hprune as (kept & d6 & [Hkept ->]%lift_ok_inv & [= <-]).
    destruct (prune_spec _ _ _ Hkept) as (H1 & H2 & H3 & H4). exists kept.
    rewrite Hfil, (length_app (List.filter runs ops)) in H3.
    change (length [rec]) with 1%nat in H3.
    split_and!; try done; [by unfold operations; rewrite dget_dset_eq|congruence|lia|].
    intros Hshort. exfalso. lia.
  - apply ret_ok_inv in Hprune as [_ ->]. exists (ops ++ [rec]).
    split_and!; try done; [by unfold operations; rewrite dget_dset_eq|]. lia.
Qed.

Lemma begin_keeps_one node ty i now d a d' ops :
  begin_body node ty i now d = (Ok a, d') → operations d = Ok ops → one_running ops →
  ∃ ops', operations d' = Ok ops' ∧ one_running ops'.
Proof.
  intros (ops0 & kept & Hops & Hkept & -> & Hfree & _ & Hfil & _)%begin_body_inv Hops0 Hone.
  rewrite Hops in Hops0. injection Hops0 as ->. exists kept. split; [done|]. intros n.
  rewrite running_of_filter, Hfil, List.filter_app, <- running_of_filter, length_app. simpl.
  rewrite runs_for_record. destruct (String.eqb_spec node n) as [<-|_]; simpl.
  - by rewrite running_of_nil.
  - specialize (Hone n). lia.
Qed.

(** [finish] with a terminal status only takes a record out of the running ones. *)
Lemma finished_not_running status err now op op' n :
  status ≠ "running"%string → finished status err now op = Ok op' → runs_for n op' = false.
Proof.
  intros Hs. unfold finished, mbind, res_bind. destruct op as [| | | | | |x]; try done.
  intros [= <-]. unfold runs_for, is_running_for, getitem.
  rewrite !dget_dset. simpl. unfold mbind, res_bind.
  destruct (dget x "node_id") as [y|]; [|done].
  destruct (py_eq_str y n); [|done]. by apply String.eqb_neq.
Qed.

Lemma finish_first_running i status err now ops ops' n :
  status ≠ "running"%string → finish_first i status err now ops = Ok ops' →
  (length (running_of n ops') ≤ length (running_of n ops))%nat.
Proof.
  intros Hs. revert ops'. induction ops as [|op ops IH]; intros ops'; cbn [finish_first].
  { by intros [= <-]. }
  intros (x & _ & Hrun)%res_bind_ok. unfold running_of in *. destruct (py_eq_str x i).
  - apply res_bind_ok in Hrun as (op' & Hop & [= <-]). simpl.
    rewrite (finished_not_running _ _ _ _ _ n Hs Hop). destruct (runs_for n op); simpl; lia.
  - apply res_bind_ok in Hrun as (r & Hr & [= <-]). specialize (IH _ Hr). simpl.
    destruct (runs_for n op); simpl; lia.
Qed.

(** ** Calls *)
Inductive journal_call :=
  | JBegin (node_id op_type operation_id : string) (now : Z)
  | JFinish (operation_id status last_error : string) (now : Z)
  | JRead.

Definition run_journal_call (c : journal_call) : M file unit :=
  match c with
  | JBegin n ty i now => begin n ty i now ;; mret tt
  | JFinish i s e now => finish i s e now
  | JRead => load_operations ;; mret tt
  end.

(** Each call with the system call that fails during it. *)
Fixpoint run_journal (cs : list (option syscall * journal_call)) (f : file) : file :=
  match cs with
  | [] => f
  | (fault, c) :: cs' => run_journal cs' (run_journal_call c (set_fault fault f)).2
  end.

Definition terminal (c : journal_call) : bool :=
  match c with JFinish _ s _ _ => negb (String.eqb s "running") | _ => true end.

Definition journal_inv (f : file) : Prop :=
  ∀ ops, records (f_content f) = Ok ops → one_running ops.

Lemma journal_inv_absent f : f_content f = Absent → journal_inv f.
Proof. intros Hc ops. rewrite Hc. intros [= <-] n. simpl. lia. Qed.

Lemma flock_journal_inv {A} (body : M (dict json) A) f :
  (∀ d ops a d', operations d = Ok ops → one_running ops → body d = (Ok a, d') →
     ∃ ops', operations d' = Ok ops' ∧ one_running ops') →
  (∀ d a d', body d = (Ok a, d') → is_ok (operations d) = true) →
  journal_inv f → journal_inv (flock_journal body f).2.
Proof.
  intros Hbody Hops Hf. destruct (flock_journal body f) as [r f'] eqn:Hrun. simpl.
  apply flock_journal_cases in Hrun as [[_ [Hc|Hc]]|(d & a & d' & Hj & Hb & _ & Hc)].
  - unfold journal_inv. by rewrite Hc.
  - by apply journal_inv_absent.
  - intros ops. rewrite Hc. specialize (Hops _ _ _ Hb).
    destruct (operations d) as [ops0|] eqn:Hd; [|done].
    destruct (Hbody d ops0 a d') as (ops' & Hd' & Hone); [done| |done|].
    { apply Hf. unfold records. by rewrite Hj. }
    destruct (journal_written d' ops' Hd') as (d2 & Hj2 & Hd2). unfold records. rewrite Hj2.
    cbn. rewrite Hd2. intros [= <-] n. rewrite running_of_sort. apply Hone.
Qed.

Lemma begin_inv n ty i now f : journal_inv f → journal_inv (begin n ty i now f).2.
Proof.
  apply flock_journal_inv.
  - intros d ops a d' Hops Hone Hrun. by eapply begin_keeps_one.
  - intros d a d' (ops & _ & -> & _)%begin_body_inv. done.
Qed.

Lemma finish_inv i s e now f :
  s ≠ "running"%string → journal_inv f → journal_inv (finish i s e now f).2.
Proof.
  intros Hs. apply flock_journal_inv.
  - intros d ops a d' Hops Hone Hrun. apply bind_ok_inv in Hrun as (d0 & d1 & [= <- <-] & Hrun).
    apply bind_ok_inv in Hrun as (ops1 & d2 & [Hops1 ->]%lift_ok_inv & Hrun).
    apply bind_ok_inv in Hrun as (ops2 & d3 & [Hfin ->]%lift_ok_inv & [= _ <-]).
    exists ops2. split; [by unfold operations; rewrite dget_dset_eq|]. intros n.
    rewrite Hops in Hops1. injection Hops1 as <-.
    pose proof (finish_first_running _ _ _ _ _ _ n Hs Hfin). specialize (Hone n). lia.
  - intros d a d' Hrun. apply bind_ok_inv in Hrun as (d0 & d1 & [= <- <-] & Hrun).
    by apply bind_ok_inv in Hrun as (ops1 & d2 & [-> ->]%lift_ok_inv & Hrun).
Qed.

Lemma read_inv f : journal_inv f → journal_inv (load_operations f).2.
Proof.
  intros Hf. unfold load_operations. destruct (load_journal_spec f) as (f' & Hl & _ & Hc).
  assert (Hf' : journal_inv f') by (destruct Hc as [->|[? _]]; [done|by apply journal_inv_absent]).
  unfold mbind, M_bind. rewrite Hl. by destruct (journal_of _).
Qed.

Lemma snd_then_ret {W A} (m : M W A) w : ((m ;; mret tt) w).2 = (m w).2.
Proof. unfold mbind, M_bind. by destruct (m w) as [[a|e] w']. Qed.

Lemma journal_call_inv c f :
  terminal c = true → journal_inv f → journal_inv (run_journal_call c f).2.
Proof.
  intros Hc Hf. destruct c as [n ty i now|i s e now|]; simpl in *; rewrite ?snd_then_ret.
  - by apply begin_inv.
  - apply finish_inv; [|done]. by apply String.eqb_neq, negb_true_iff.
  - by apply read_inv.
Qed.

Lemma run_journal_inv cs f :
  Forall (fun c => terminal c.2 = true) cs → journal_inv f → journal_inv (run_journal cs f).
Proof.
  intros Hcs. revert f. induction Hcs as [|[fault c] cs Hc _ IH]; intros f Hf; [done|]. simpl.
  apply IH, journal_call_inv; [done|]. exact Hf.
Qed.

(** C14. At most one operation per node: whatever sequence of [begin], terminal [finish]
    and reads the threads and restarts of the gateway make, whichever system calls fail
    and even when a damaged journal is moved aside in between, the journal never shows
    two running operations of one node. *)
Theorem one_operation_per_node cs f :
  Forall (fun c => terminal c.2 = true) cs → journal_inv f → journal_inv (run_journal cs f).
Proof. apply run_journal_inv. Qed.

(** ** Beginning an operation *)

(** The columns of a record that the journal's code reads are strings. *)
Definition proper_record (op : json) : Prop :=
  ∃ i n ty s, getitem op "operation_id" = Ok (JStr i) ∧ getitem op "node_id" = Ok (JStr n) ∧
              getitem op "op_type" = Ok (JStr ty) ∧ getitem op "status" = Ok (JStr s).

Lemma proper_running_for n op : proper_record op → is_running_for n op = Ok (runs_for n op).
Proof.
  intros (i & nd & ty & s & _ & Hn & _ & Hs). unfold runs_for, is_running_for, mbind, res_bind.
  rewrite Hn, Hs. by destruct (py_eq_str (JStr nd) n).
Qed.

Lemma proper_running op : proper_record op → is_running op = Ok (runs op).
Proof.
  intros (i & nd & ty & s & _ & _ & _ & Hs). unfold runs, is_running, mbind, res_bind. by rewrite Hs.
Qed.

Lemma find_running n ops :
  Forall proper_record ops →
  find_op (is_running_for n) ops
  = Ok (match running_of n ops with op :: _ => Some op | [] => None end).
Proof.
  unfold running_of. induction 1 as [|op ops Hop _ IH]; simpl; [done|].
  unfold mbind, res_bind. rewrite proper_running_for by done. by destruct (runs_for n op).
Qed.

Lemma prune_returns n ops : Forall proper_record ops → ∃ kept, prune n ops = Ok kept.
Proof.
  intros Hops. revert n. induction Hops as [|op ops Hop _ IH]; intros n; cbn [prune]; [eauto|].
  destruct n as [|n].
  - destruct (IH O) as [r ->]. by eexists.
  - destruct Hop as (i & nd & ty & s & _ & _ & _ & Hs). rewrite Hs. unfold mbind, res_bind.
    destruct (py_eq_str _ _); [destruct (IH (S n)) as [r ->]; by eexists|apply IH].
Qed.

Lemma op_record_proper n ty i now : proper_record (op_record n ty i now).
Proof. by exists i, n, ty, "running"%string. Qed.

(** C15. [begin] on a readable journal of proper records, when no system call fails:
    refused with [OperationConflict] and without a change exactly when an operation of the node is running; otherwise the new record
    is stored as running, every running record stays, records are only dropped beyond
    500, oldest finished first, and the journal holds more than 500 only if that many
    are running. *)
Theorem begin_spec node ty i now f ops :
  f_fault f = None → records (f_content f) = Ok ops → Forall proper_record ops →
  let rec := op_record node ty i now in
  match running_of node ops with
  | _ :: _ => begin node ty i now f = (fail EConflict, f)
  | [] =>
      ∃ f' kept, begin node ty i now f = (Ok rec, f') ∧
        records (f_content f') = Ok (map sort_json kept) ∧
        kept `sublist_of` ops ++ [rec] ∧
        List.filter runs kept = List.filter runs ops ++ [rec] ∧
        (length kept ≤ Nat.max MAX_RECORDS (S (length (List.filter runs ops))))%nat ∧
        (length (ops ++ [rec]) ≤ MAX_RECORDS → kept = ops ++ [rec])%nat
  end.
Proof.
  intros Hf Hrec Hops rec. apply res_bind_ok in Hrec as (d & Hj & Hd).
  pose proof (find_running node ops Hops) as Hfind.
  destruct (running_of node ops) as [|op busy] eqn:Hbusy.
  - assert (Hbody : ∃ d', begin_body node ty i now d = (Ok rec, d')).
    { unfold begin_body. rewrite (bind_ok get _ d d d eq_refl).
      unfold lift, mbind, M_bind. rewrite Hd, Hfind. unfold modify. fold rec.
      destruct (MAX_RECORDS <? length (ops ++ [rec]))%nat; [|by eexists].
      destruct (prune_returns (length (ops ++ [rec]) - MAX_RECORDS) (ops ++ [rec])) as [kept ->];
        [|by eexists].
      apply Forall_app. split; [done|]. constructor; [apply op_record_proper|done]. }
    destruct Hbody as [d' Hbody].
    destruct (begin_body_inv _ _ _ _ _ _ _ Hbody)
      as (ops' & kept & Hd' & Hkept & _ & _ & Hsub & Hfil & Hlen & Hall).
    rewrite Hd in Hd'. injection Hd' as <-.
    destruct (flock_journal_ok _ f d rec d' Hf Hj Hbody) as (f' & Hrun & Hc & _).
    destruct (journal_written d' kept Hkept) as (d2 & Hj2 & Hd2).
    exists f', kept. split; [done|]. split; [|by split_and!].
    unfold records. rewrite Hc, Hj2. cbn. by rewrite Hd2.
  - assert (Hin : op ∈ ops).
    { apply list_elem_of_In, (List.filter_In (runs_for node)). unfold running_of in Hbusy.
      rewrite Hbusy. by left. }
    rewrite Forall_forall in Hops. destruct (Hops _ Hin) as (i' & nd & ty' & s & _ & _ & Hty & _).
    eapply (flock_journal_raise _ f d _ d); [done|done|].
    unfold begin_body. rewrite (bind_ok get _ d d d eq_refl).
    unfold lift, mbind, M_bind. by rewrite Hd, Hfind, Hty.
Qed.

Definition sample_journal : file :=
  file_of (Text (TxDoc (JObj [("operations", JArr [op_record "node-1" "provision" "op-1" 7])]%string))).

Lemma one_operation_per_node_witness :
  journal_inv (run_journal [(Some SysReplace, JBegin "node-2" "activate" "op-2" 8);
                            (None, JBegin "node-1" "activate" "op-3" 9);
                            (None, JFinish "op-1" "failed" "boom" 10);
                            (None, JBegin "node-1" "activate" "op-4" 11)]%string sample_journal).
Proof.
  apply one_operation_per_node; [by repeat constructor|].
  intros ops Hops n. vm_compute in Hops. injection Hops as <-. unfold running_of. simpl.
  destruct (runs_for _ _); simpl; lia.
Defined.

Lemma begin_spec_witness :
  begin "node-1" "activate" "op-2" 9 sample_journal = (fail EConflict, sample_journal).
Proof.
  apply (begin_spec "node-1" "activate" "op-2" 9 sample_journal
           [op_record "node-1" "provision" "op-1" 7]); [done|done|].
  constructor; [apply op_record_proper|done].
Defined.

(** A damaged journal is moved aside by the first call that meets it, which fails; the
    next call finds no journal, so the guard of whatever was running is gone. *)
Theorem damaged_journal_drops_guard node ty i now f :
  f_fault f = None → f_content f = Text TxGarbage →
  (begin node ty i now f).1 = fail EJournalCorrupt ∧
  (begin node ty i now (begin node ty i now f).2).1 = Ok (op_record node ty i now).
Proof. destruct f as [c m t q fault]. simpl. by intros -> ->. Qed.

Lemma damaged_journal_drops_guard_witness :
  (begin "node-1" "provision" "op-1" 7 (begin "node-1" "provision" "op-1" 7 (file_of (Text TxGarbage))).2).1
  = Ok (op_record "node-1" "provision" "op-1" 7).
Proof. by apply (damaged_journal_drops_guard "node-1" "provision" "op-1" 7 (file_of (Text TxGarbage))). Defined.

(** ** Reaping after a restart *)
Definition id_of (op : json) : string :=
  match getitem op "operation_id" with Ok (JStr i) => i | _ => EmptyString end.

(** The ids of the running records. *)
Definition running_ids (ops : list json) : list string := map id_of (List.filter runs ops).

Lemma id_of_sort op : id_of (sort_json op) = id_of op.
Proof.
  unfold id_of. rewrite getitem_sort. destruct (getitem op "operation_id") as [[]|]; done.
Qed.

Lemma runs_sort op : runs (sort_json op) = runs op.
Proof.
  unfold runs, is_running, mbind, res_bind. rewrite getitem_sort. unfold fmap, res_fmap.
  destruct (getitem op "status") as [s|]; [|done]. by destruct s.
Qed.

Lemma proper_sort op : proper_record op → proper_record (sort_json op).
Proof.
  intros (i & n & ty & s & H1 & H2 & H3 & H4). exists i, n, ty, s.
  rewrite !getitem_sort, H1, H2, H3, H4. done.
Qed.

Lemma running_ids_elem i ops :
  i ∈ running_ids ops ↔ ∃ op, op ∈ ops ∧ runs op = true ∧ id_of op = i.
Proof.
  unfold running_ids. rewrite list_elem_of_In, in_map_iff. split.
  - intros (op & <- & [Hin Hr]%List.filter_In). exists op. by rewrite list_elem_of_In.
  - intros (op & Hin & Hr & <-). exists op. split; [done|]. apply List.filter_In.
    by rewrite <- list_elem_of_In.
Qed.

Lemma proper_finished status err now op :
  proper_record op → ∃ op', finished status err now op = Ok op' ∧ proper_record op' ∧
    id_of op' = id_of op ∧ runs op' = String.eqb status "running".
Proof.
  intros (i & n & ty & s & H1 & H2 & H3 & H4). destruct op as [| | | | | |x]; try discriminate H1.
  eexists. split; [reflexivity|]. unfold getitem in *.
  split; [|split].
  - exists i, n, ty, status. unfold getitem. rewrite !dget_dset. simpl. by split_and!.
  - unfold id_of, getitem. by rewrite !dget_dset.
  - unfold runs, is_running, getitem. by rewrite !dget_dset.
Qed.

Lemma finish_first_proper i err now ops :
  Forall proper_record ops → NoDup (map id_of ops) →
  ∃ ops', finish_first i "interrupted" err now ops = Ok ops' ∧ Forall proper_record ops' ∧
    map id_of ops' = map id_of ops ∧
    ∀ j, j ∈ running_ids ops' → j ≠ i ∧ j ∈ running_ids ops.
Proof.
  induction 1 as [|op ops Hop Hops IH]; intros Hnd.
  { exists []. split_and!; try done. intros j. rewrite running_ids_elem. set_solver. }
  simpl in Hnd. apply NoDup_cons in Hnd as [Hnew Hnd]. cbn [finish_first].
  destruct Hop as (i0 & n & ty & s & H1 & H2 & H3 & H4).
  assert (Hid : id_of op = i0) by (unfold id_of; by rewrite H1).
  assert (Hop : proper_record op) by (by exists i0, n, ty, s).
  rewrite H1. unfold mbind, res_bind. cbn [py_eq_str]. destruct (String.eqb_spec i0 i) as [->|Hne].
  - destruct (proper_finished "interrupted" err now op Hop) as (op' & -> & Hop' & Hid' & Hr').
    exists (op' :: ops). split; [done|]. split; [by constructor|]. split; [simpl; by rewrite Hid'|].
    intros j (op0 & Hin & Hr & <-)%running_ids_elem.
    apply elem_of_cons in Hin as [->|Hin]; [by rewrite Hr' in Hr|]. split.
    + intros Heq. apply Hnew. rewrite Hid, <- Heq. apply list_elem_of_fmap. eauto.
    + apply running_ids_elem. exists op0. set_solver.
  - destruct (IH Hnd) as (ops' & -> & Hp' & Hids & Hrun).
    exists (op :: ops'). split; [done|]. split; [by constructor|]. split; [simpl; by rewrite Hids|].
    intros j (op0 & Hin & Hr & <-)%running_ids_elem.
    apply elem_of_cons in Hin as [->|Hin].
    + split; [congruence|]. apply running_ids_elem. exists op. set_solver.
    + destruct (Hrun (id_of op0)) as [Hj (op1 & ? & ? & ?)%running_ids_elem];
        [apply running_ids_elem; eauto|].
      split; [done|]. apply running_ids_elem. exists op1. set_solver.
Qed.

Definition journal_holds (f : file) (ops : list json) : Prop :=
  f_fault f = None ∧ records (f_content f) = Ok ops ∧ Forall proper_record ops ∧
  NoDup (map id_of ops).

Lemma finish_marks i err now f ops :
  journal_holds f ops →
  ∃ f' ops', finish i "interrupted" err now f = (Ok tt, f') ∧ journal_holds f' ops' ∧
    ∀ j, j ∈ running_ids ops' → j ≠ i ∧ j ∈ running_ids ops.
Proof.
  intros (Hf & Hrec & Hops & Hnd). apply res_bind_ok in Hrec as (d & Hj & Hd).
  destruct (finish_first_proper i err now ops Hops Hnd) as (ops' & Hfin & Hp & Hids & Hrun).
  destruct (flock_journal_ok (
      d ← get; ops ← lift (operations d);
      ops' ← lift (finish_first i "interrupted" err now ops);
      modify (fun d => dset d "operations" (JArr ops'))) f d tt (dset d "operations" (JArr ops')))
    as (f' & Hrun' & Hc & Hf'); [done|done| |].
  { rewrite (bind_ok get _ d d d eq_refl). unfold lift, mbind, M_bind. by rewrite Hd, Hfin. }
  destruct (journal_written (dset d "operations" (JArr ops')) ops') as (d2 & Hj2 & Hd2);
    [by unfold operations; rewrite dget_dset_eq|].
  exists f', (map sort_json ops'). split; [done|].
  assert (Hids' : map id_of (map sort_json ops') = map id_of ops').
  { rewrite map_map. apply map_ext. intros. apply id_of_sort. }
  split.
  - split_and!; [done| | |].
    + unfold records. rewrite Hc, Hj2. cbn. done.
    + apply Forall_fmap. eapply Forall_impl; [done|]. intros op. apply proper_sort.
    + rewrite Hids', Hids. done.
  - intros j (op & Hin & Hr & <-)%running_ids_elem.
    apply list_elem_of_fmap in Hin as (op0 & -> & Hin). rewrite runs_sort in Hr.
    rewrite id_of_sort. apply Hrun, running_ids_elem. eauto.
Qed.

Lemma on_store_keeps_journal {A} (m : M Store A) : preserves (keeps y_journal) (on_store m).
Proof. intros y. unfold on_store, zoom. by destruct (m (y_store y)). Qed.
#[export] Hint Resolve on_store_keeps_journal : pres.

Lemma unstick_keeps_journal op : preserves (keeps y_journal) (unstick op).
Proof. unfold unstick. pres. Qed.

Lemma reap_op_step now op y ops :
  journal_holds (y_journal y) ops → proper_record op →
  ∃ y' ops', (reap_op now op y = (Ok tt, y') ∨
              ∃ e, reap_op now op y = (Raise e, y') ∧ uncatchable (ex_kind e)) ∧
    journal_holds (y_journal y') ops' ∧
    ∀ j, j ∈ running_ids ops' → j ≠ id_of op ∧ j ∈ running_ids ops.
Proof.
  intros Hj (i & n & ty & s & H1 & H2 & H3 & H4).
  destruct (finish_marks i "interrupted by gateway restart" now (y_journal y) ops Hj)
    as (f' & ops' & Hfin & Hj' & Hrun).
  assert (Hid : id_of op = i) by (unfold id_of; by rewrite H1). rewrite Hid.
  set (y1 := mkSystem f' (y_store y)).
  assert (Hstep : reap_op now op y = try_except (unstick op) CException (fun _ => mret tt) y1).
  { unfold reap_op, lift. rewrite H1. unfold on_journal, zoom, mbind, M_bind. simpl. by rewrite Hfin. }
  exists (unstick op y1).2, ops'. rewrite Hstep.
  assert (Hkeep : y_journal (unstick op y1).2 = f') by (apply (unstick_keeps_journal op y1)).
  rewrite Hkeep. split; [|done].
  unfold try_except. destruct (unstick op y1) as [[u|e] y2]; cbn [snd].
  - left. by destruct u.
  - destruct (instance_of (ex_kind e) CException) eqn:He; [by left|]. right. eauto.
Qed.

Lemma reap_loop now l y ops :
  journal_holds (y_journal y) ops → Forall proper_record l →
  (∀ j, j ∈ running_ids ops → j ∈ map id_of l) →
  match for_each l (reap_op now) y with
  | (Ok _, y') => ∃ ops', journal_holds (y_journal y') ops' ∧ running_ids ops' = []
  | (Raise e, _) => uncatchable (ex_kind e)
  end.
Proof.
  intros Hj Hl. revert y ops Hj. induction Hl as [|op l Hop _ IH]; intros y ops Hj Hids; cbn [for_each].
  { exists ops. split; [done|].
    destruct (running_ids ops) as [|j js]; [done|]. specialize (Hids j). simpl in Hids. set_solver. }
  destruct (reap_op_step now op y ops Hj Hop) as (y' & ops' & [Hr|(e & Hr & He)] & Hj' & Hrun).
  - rewrite (bind_ok _ _ _ _ _ Hr). apply (IH y' ops' Hj').
    intros j [Hne Hin]%Hrun. apply Hids in Hin. simpl in Hin. set_solver.
  - by rewrite (bind_raise _ _ _ _ _ Hr).
Qed.

Lemma filter_ops_running ops :
  Forall proper_record ops → filter_ops is_running ops = Ok (List.filter runs ops).
Proof.
  induction 1 as [|op ops Hop _ IH]; simpl; [done|].
  unfold mbind, res_bind. by rewrite (proper_running _ Hop), IH.
Qed.

(** Startup recovery: on a readable journal of proper records with distinct ids, when no
    system call fails, [reap_orphans] raises no exception of the
    program, returns the operations that were running, and leaves none running, so
    that every node can begin an operation again. *)
Theorem reap_leaves_none now y ops :
  journal_holds (y_journal y) ops →
  match reap_orphans now y with
  | (Ok reaped, y') =>
      reaped = List.filter runs ops ∧
      ∃ ops', records (f_content (y_journal y')) = Ok ops' ∧
              ∀ op, op ∈ ops' → runs op = false
  | (Raise e, _) => uncatchable (ex_kind e)
  end.
Proof.
  intros Hj. destruct Hj as (Hf & Hrec & Hops & Hnd) eqn:Hdec. clear Hdec.
  pose proof Hrec as Hrec'. apply res_bind_ok in Hrec' as (d & Hjd & Hd).
  assert (Hall : try_except (ops ← on_journal all_running; mret (Some ops)) CJournalCorrupt
                   (fun _ => mret None) y = (Ok (Some (List.filter runs ops)), y)).
  { destruct (load_journal_spec (y_journal y)) as (f1 & Hload & _ & Hc). rewrite Hjd in Hload, Hc.
    destruct Hc as [->|[_ ?]]; [|done].
    unfold try_except, on_journal, zoom, all_running, load_operations, mbind, M_bind.
    rewrite Hload. unfold lift. rewrite Hd, filter_ops_running by done. by destruct y. }
  unfold reap_orphans. rewrite (bind_ok _ _ _ _ _ Hall). cbv iota beta.
  assert (Hl : Forall proper_record (List.filter runs ops)).
  { apply Forall_forall. intros op [Hin _]%list_elem_of_In%List.filter_In.
    rewrite Forall_forall in Hops. by apply Hops, list_elem_of_In. }
  pose proof (reap_loop now _ y ops Hj Hl (fun j Hin => Hin)) as Hloop.
  destruct (for_each (List.filter runs ops) (reap_op now) y) as [[[]|e] y'] eqn:Hrun.
  - rewrite (bind_ok _ _ _ _ _ Hrun). split; [done|].
    destruct Hloop as (ops' & (_ & Hrec' & _) & Hnone). exists ops'. split; [done|].
    intros op Hin. destruct (runs op) eqn:Hr; [|done].
    assert (Hi : id_of op ∈ running_ids ops') by (apply running_ids_elem; eauto).
    rewrite Hnone in Hi. by apply elem_of_nil in Hi.
  - by rewrite (bind_raise _ _ _ _ _ Hrun).
Qed.

Lemma sample_journal_holds :
  journal_holds sample_journal [op_record "node-1" "provision" "op-1" 7].
Proof.
  split_and!; [done|done| |].
  - constructor; [apply op_record_proper|done].
  - apply NoDup_singleton.
Qed.

Lemma reap_leaves_none_witness :
  match reap_orphans 10 (mkSystem sample_journal enrolled_store) with
  | (Ok reaped, _) => reaped = [op_record "node-1" "provision" "op-1" 7]
  | (Raise _, _) => False
  end.
Proof.
  pose proof (reap_leaves_none 10 (mkSystem sample_journal enrolled_store)
                _ sample_journal_holds) as Hreap.
  destruct (reap_orphans _ _) as [[reaped|e] y'] eqn:Hrun.
  - exact (proj1 Hreap).
  - vm_compute in Hrun. discriminate Hrun.
Defined.
