(* ===== verification/BindingProvision.v ===== *)
(** * Janus mountpoints of remote bindings ([app/services/binding_provision.py],
    [app/services/node_client.py])

    The gateway's two ways to act on a remote stream: create the binding's mountpoint
    through the Janus admin API, and ask the node's agent to restart its own encoder. A
    client of the local node restarts the gateway's encoder by a command instead.
    The HTTP exchanges are the environment [NodeEnv]; every request that leaves the
    gateway is recorded. *)
From S2P Require Import Prelude.
From S2P Require Import PyVal.
From S2P Require Import PyStr.
From S2P Require Import FileStore.
From S2P Require Import FdirEvents.
From S2P Require Import LadderPolicy.
From S2P Require Import World.
From S2P Require Import EncoderAdmin.
From S2P Require Import BindingModels.
From S2P Require Import TopologyStore.
From S2P Require Import Nodes.
From S2P Require Import Bindings.

(** The answer of a node agent: a status code and the decoded body, or no answer. *)
Inductive agent_reply := AgentReply (status : Z) (body : res json) | AgentError (e : exn).

Class NodeEnv := {
  create_mountpoint : nat → StreamBinding → res unit;    (* [janus_admin.create_mountpoint] *)
  list_mountpoints : nat → res (list json);              (* [janus_admin.list_mountpoints] *)
  agent_healthz : nat → string → agent_reply;            (* [GET http://host:8901/healthz] *)
  agent_post : nat → string → string → agent_reply;      (* [POST .../restart_stream?sensor=] *)
}.

(** What left the gateway. *)
Inductive request :=
  | ReqCreateMountpoint (mountpoint_id : Z)
  | ReqRestartStream (host sensor : string).

(** The per-binding memory of the remote stream monitor. *)
Record BindingState := mkBindingState {
  ever_healthy : bool;
  healthy : option bool;
  last_alert_mono : Q;
  last_converge_mono : Q;
}.

Record Gateway := mkGateway {
  g_world : World;
  g_store : Store;
  g_monitor : dict BindingState;       (* [remote_stream_monitor._state] *)
  g_requests : list request;           (* oldest first *)
}.

Definition on_world {A} (m : M World A) : M Gateway A :=
  zoom g_world (fun w g => mkGateway w (g_store g) (g_monitor g) (g_requests g)) m.
Definition on_bindings {A} (m : M Store A) : M Gateway A :=
  zoom g_store (fun s g => mkGateway (g_world g) s (g_monitor g) (g_requests g)) m.
Definition send (r : request) : M Gateway unit :=
  modify (fun g => mkGateway (g_world g) (g_store g) (g_monitor g) (g_requests g ++ [r])).
Definition put_monitor (d : dict BindingState) : M Gateway unit :=
  modify (fun g => mkGateway (g_world g) (g_store g) d (g_requests g)).

(** ** Error texts *)
Definition is_already_exists (msg : string) : bool :=
  let m := lower msg in
  contains "already exists" m || (contains "exist" m && contains "456" m).

Example is_already_exists_ex :
  (is_already_exists "A stream with ID 2000 Already Exists", is_already_exists "error 456: exists",
   is_already_exists "unauthorized")%string = (true, true, false).
Proof. reflexivity. Qed.

(** ** Ensuring a mountpoint *)
Inductive ProvisionStatus := CREATED | EXISTS | CONFLICT | FAILED.

#[export] Instance ProvisionStatus_eq_dec : EqDecision ProvisionStatus.
Proof. solve_decision. Defined.

Section provision.
Context {E : Env} {N : NodeEnv}.

(** The loop of [_reconcile_existing]: the first listed mountpoint with the binding's
    id decides. *)
Fixpoint listed_status (b : StreamBinding) (mps : list json) : res ProvisionStatus :=
  match mps with
  | [] => Ok EXISTS
  | mp :: mps' =>
      i ← jget mp "id" (JInt (-1)); i ← to_int i;
      if i =? jc_mountpoint_id (b_janus b) then
        port ← jget mp "port" JNull;
        existing ← jget mp "video_port" port;
        if is_null existing then Ok EXISTS
        else
          p ← to_int existing;
          Ok (if p =? tr_rtp_port (b_transport b) then EXISTS else CONFLICT)
      else listed_status b mps'
  end.

Definition reconcile_existing (b : StreamBinding) : M Gateway ProvisionStatus :=
  try_except
    (n ← on_world tick;
     mps ← lift (list_mountpoints n);
     lift (listed_status b mps))
    CJanusAdmin (fun _ => mret EXISTS).

Definition ensure_janus (b : StreamBinding) : M Gateway ProvisionStatus :=
  try_except
    (n ← on_world tick;
     send (ReqCreateMountpoint (jc_mountpoint_id (b_janus b))) ;;
     lift (create_mountpoint n b) ;;
     mret CREATED)
    CJanusAdmin
    (fun e => if is_already_exists (ex_msg e) then reconcile_existing b else mret FAILED).

(** ** The startup sweep *)
Record ReconcileSummary := mkSummary {
  rs_created : Z; rs_existing : Z; rs_failed : Z; rs_skipped : Z;
  rs_outcomes : dict ProvisionStatus;
}.

Definition count_outcome (bid : string) (out : ProvisionStatus) (s : ReconcileSummary)
    : ReconcileSummary :=
  let o := dset (rs_outcomes s) bid out in
  match out with
  | CREATED => mkSummary (rs_created s + 1) (rs_existing s) (rs_failed s) (rs_skipped s) o
  | EXISTS => mkSummary (rs_created s) (rs_existing s + 1) (rs_failed s) (rs_skipped s) o
  | CONFLICT | FAILED =>
      mkSummary (rs_created s) (rs_existing s) (rs_failed s + 1) (rs_skipped s) o
  end.

Definition skip_binding (s : ReconcileSummary) : ReconcileSummary :=
  mkSummary (rs_created s) (rs_existing s) (rs_failed s) (rs_skipped s + 1) (rs_outcomes s).

Fixpoint reconcile_loop (bindings : dict StreamBinding) (s : ReconcileSummary)
    : M Gateway ReconcileSummary :=
  match bindings with
  | [] => mret s
  | (bid, b) :: rest =>
      if negb (bool_decide (b_mode b = REMOTE_PRODUCER)) then reconcile_loop rest s
      else if negb (b_desired_up b) then reconcile_loop rest (skip_binding s)
      else if jc_mountpoint_id (b_janus b) <? REMOTE_MP_MIN
      then reconcile_loop rest (skip_binding s)
      else
        out ← try_except (ensure_janus b) CException (fun _ => mret FAILED);
        reconcile_loop rest (count_outcome bid out s)
  end.

Definition reconcile_janus : M Gateway ReconcileSummary :=
  bindings ← on_bindings list_bindings;
  reconcile_loop bindings (mkSummary 0 0 0 0 []).

(** ** The node clients *)
Inductive node_client := LocalNodeClientAdapter | RealNodeClient (node : NodeEntry) | RemoteNodeClientStub.

Definition get_node_client (node_id : string) : M Gateway node_client :=
  if String.eqb node_id LOCAL_NODE_ID then mret LocalNodeClientAdapter
  else
    node ← on_bindings (get_node node_id);
    match node with
    | None => mret RemoteNodeClientStub             (* an entry without a host *)
    | Some n => if String.eqb (n_host n) EmptyString then mret RemoteNodeClientStub
                else mret (RealNodeClient n)
    end.

(** [probe_agent(host)["reachable"]]: only a 200 answer counts; a transport error is
    unreachable. *)
Definition probe_agent (host : string) : M Gateway bool :=
  n ← on_world tick;
  match agent_healthz n host with
  | AgentReply status _ => mret (status =? 200)
  | AgentError e => if instance_of (ex_kind e) CHttpOrOS then mret false else raise e
  end.

(** [RestartResult.ok] of the three adapters: the local one restarts the gateway's own
    encoder by a command, the stub does nothing, the real one asks the node's agent. *)
Definition local_restart (sensor : string) : M Gateway bool :=
  try_except (on_world (encoder_call "restart" "rs-stream" (Some sensor)) ;; mret true)
    CException (fun _ => mret false).

(** An answer of status 200 whose body is not a JSON object lets the decoding error escape:
    only transport errors are caught. *)
Definition agent_restart (host sensor : string) : M Gateway bool :=
  n ← on_world tick;
  send (ReqRestartStream host sensor) ;;
  match agent_post n host sensor with
  | AgentReply status body =>
      if status =? 200 then
        body ← lift body; ok ← lift (jget body "ok" JNull); mret (truthy ok)
      else mret false
  | AgentError e => if instance_of (ex_kind e) CHttpOrOS then mret false else raise e
  end.

Definition restart_stream (client : node_client) (sensor : string) : M Gateway bool :=
  match client with
  | LocalNodeClientAdapter => local_restart sensor
  | RemoteNodeClientStub => mret false
  | RealNodeClient node => agent_restart (n_host node) sensor
  end.
End provision.

(** ** What leaves the gateway *)

(** The local machinery as it was: no command run, and nothing but the event ring, the
    log and the counters of the environment changed. *)
Definition local_untouched (w w' : World) : Prop :=
  observable_only w w' ∧ w_commands w' = w_commands w.

#[export] Instance local_untouched_preorder : PreOrder local_untouched.
Proof.
  split; [by split|]. intros w1 w2 w3 [H1 H1'] [H2 H2']. split; [by etrans|congruence].
Qed.

(** A step that leaves the components as they are, runs only commands of [C] and sends only
    requests of [P]. *)
Definition acts_only (C : command → Prop) (P : request → Prop) (g g' : Gateway) : Prop :=
  observable_only (g_world g) (g_world g') ∧ runs_only C (g_world g) (g_world g') ∧
  ∃ new, g_requests g' = g_requests g ++ new ∧ Forall P new.

#[export] Instance acts_only_preorder C P : PreOrder (acts_only C P).
Proof.
  split.
  - intros g. split_and!; [done|done|]. exists []. by rewrite app_nil_r.
  - intros g1 g2 g3 (H1 & C1 & n1 & Hn1 & HP1) (H2 & C2 & n2 & Hn2 & HP2).
    split_and!; [by etrans|by etrans|].
    exists (n1 ++ n2). split; [by rewrite Hn2, Hn1, app_assoc|by apply Forall_app].
Qed.

Lemma acts_impl {A} (C C' : command → Prop) (P P' : request → Prop) (m : M Gateway A) :
  (∀ c, C c → C' c) → (∀ r, P r → P' r) →
  preserves (acts_only C P) m → preserves (acts_only C' P') m.
Proof.
  intros HC HP Hm g. destruct (Hm g) as (Ho & (l & Hl & Hc) & new & Hn & Hp).
  split_and!; [done|exists l|exists new]; (split; [done|]); by eapply Forall_impl.
Qed.

Lemma acts_bindings {A} C P (m : M Store A) : preserves (acts_only C P) (on_bindings m).
Proof.
  intros g. unfold on_bindings, zoom. destruct (m (g_store g)). split_and!; [done|done|].
  exists []. by rewrite app_nil_r.
Qed.

Lemma acts_send C (P : request → Prop) r : P r → preserves (acts_only C P) (send r).
Proof. intros Hr g. split_and!; [done|done|]. exists [r]. by split; [|apply Forall_singleton]. Qed.

Lemma acts_monitor C P d : preserves (acts_only C P) (put_monitor d).
Proof. intros g. split_and!; [done|done|]. exists []. by rewrite app_nil_r. Qed.

Lemma acts_world {A} C P (m : M World A) :
  preserves observable_only m → preserves (runs_only C) m → preserves (acts_only C P) (on_world m).
Proof.
  intros H1 H2 g. specialize (H1 (g_world g)). specialize (H2 (g_world g)).
  unfold on_world, zoom. destruct (m (g_world g)) as [r w']. split_and!; [done|done|].
  exists []. by rewrite app_nil_r.
Qed.

Lemma acts_silent {A} C P (m : M World A) :
  preserves observable_only m → preserves (keeps w_commands) m → preserves (acts_only C P) (on_world m).
Proof. intros H1 H2. apply acts_world; [done|by apply silent_runs_only]. Qed.

#[export] Hint Extern 1 (preserves (acts_only _ _) (on_world _)) =>
  (apply acts_silent; pres) : pres.
#[export] Hint Resolve acts_bindings acts_monitor acts_send : pres.

(** A step that runs no command. *)
Lemma acts_untouched P g g' :
  acts_only (λ _, False) P g g' → local_untouched (g_world g) (g_world g') ∧
  ∃ new, g_requests g' = g_requests g ++ new ∧ Forall P new.
Proof.
  intros (Ho & ([|c l] & Hl & Hc) & Hn); [|by apply Forall_cons in Hc as [[] _]].
  rewrite app_nil_r in Hl. by split.
Qed.
