(* ===== verification/RemoteMonitor.v ===== *)
(** * The remote stream monitor ([app/services/remote_stream_monitor.py])

    One pass over the remote bindings: the state of each stream is observed and
    persisted, a regression is announced at most once per heartbeat, and a stream that
    is wanted and managed is brought back. The theorems show that nothing a remote
    stream does reaches the local recovery machinery. *)
From S2P Require Import Prelude.
From S2P Require Import PyVal.
From S2P Require Import FileStore.
From S2P Require Import FdirEvents.
From S2P Require Import LadderPolicy.
From S2P Require Import World.
From S2P Require Import EncoderAdmin.
From S2P Require Import JanusSummary.
From S2P Require Import BindingModels.
From S2P Require Import TopologyStore.
From S2P Require Import Nodes.
From S2P Require Import Bindings.
From S2P Require Import TopologyCalls.
From S2P Require Import BindingProvision.

Definition HEARTBEAT_SEC : Q := 300.
Definition BRINGUP_THROTTLE_SEC : Q := 20.

Definition new_binding_state : BindingState := mkBindingState false None 0 0.

Record MonitorDecision := mkDecision { md_status : string; md_alert : bool; md_healthy : bool }.

(** [isinstance(age, (int, float)) and not isinstance(age, bool) and age <= stale_ms] *)
Definition fresh_age (stale_ms : Z) (age : json) : bool :=
  match age with
  | JInt z => z <=? stale_ms
  | JFloat q => Qle_bool q (inject_Z stale_ms)
  | _ => false
  end.

(** [prev and prev.healthy is True] *)
Definition was_healthy (prev : option BindingState) : bool :=
  match prev with Some st => match healthy st with Some b => b | None => false end | None => false end.

Definition evaluate (stale_ms : Z) (now_mono heartbeat_sec : Q) (prev : option BindingState)
    (video_age_ms : json) : MonitorDecision :=
  if fresh_age stale_ms video_age_ms then mkDecision "online" false true
  else if negb (match prev with Some st => ever_healthy st | None => false end)
  then mkDecision "waiting_for_rtp" false false
  else
    let just_regressed := was_healthy prev in
    let last_alert := match prev with Some st => last_alert_mono st | None => 0%Q end in
    let heartbeat_due := Qle_bool heartbeat_sec (now_mono - last_alert) in
    mkDecision "degraded" (just_regressed || heartbeat_due) false.

(** The convergence throttle of [tick]. *)
Definition converge_due (now : Q) (prev : option BindingState) : bool :=
  was_healthy prev
  || Qle_bool BRINGUP_THROTTLE_SEC
       (now - match prev with Some st => last_converge_mono st | None => 0%Q end).

(** The update of the binding's memory under the lock. *)
Definition remember (now : Q) (escalate converge : bool) (d : MonitorDecision)
    (prev : option BindingState) : BindingState :=
  let st := default new_binding_state prev in
  mkBindingState (ever_healthy st || md_healthy d) (Some (md_healthy d))
    (if escalate then now else last_alert_mono st)
    (if converge then now else last_converge_mono st).

Section monitor.
Context {E : Env} {N : NodeEnv}.

Definition node_reachable (node : option NodeEntry) : M Gateway bool :=
  match node with
  | None => mret false
  | Some n => try_except (probe_agent (n_host n)) CException (fun _ => mret false)
  end.

Definition apply_decision (b : StreamBinding) (age : json) (d : MonitorDecision)
    (do_recover do_alert : bool) : M Gateway unit :=
  try_except (on_bindings (set_status (b_binding_id b) (md_status d)) ;; mret tt) CException
    (fun _ => mret tt) ;;
  (if bool_decide (b_mode b = REMOTE_PRODUCER) then mret tt else throw EAssertion) ;;
  when do_alert
    (on_world (emit_full PRODUCER WARN ("rtp_age_ms=" ++ fmt age)%string NONE "degraded" []
                 (Some (b_binding_id b)) (Some (b_node_id b)) (Some (b_sensor b)))) ;;
  when do_recover (
    recreated ← try_except (out ← ensure_janus b; mret (bool_decide (out = CREATED)))
                  CException (fun _ => mret false);
    when (negb recreated) (
      client ← get_node_client (b_node_id b);
      restart_stream client (b_sensor b) ;;
      mret tt)).

(** The body of the loop for a binding that is examined. *)
Definition examine (nodes : dict NodeEntry) (now : Q) (bid : string) (b : StreamBinding)
    : M Gateway unit :=
  let stale_ms := cfg_watchdog_stale_ms cfg in
  summary ← on_world (janus_summary (jc_mountpoint_id (b_janus b)));
  let age := video_age_ms summary in
  g ← get;
  let prev := dget (g_monitor g) bid in
  let wanted := b_desired_up b && fc_enabled (b_fdir b) in
  converge ← (if wanted && negb (fresh_age stale_ms age) && converge_due now prev
              then node_reachable (dget nodes (b_node_id b)) else mret false);
  g ← get;
  let d := evaluate stale_ms now HEARTBEAT_SEC prev age in
  let escalate := wanted && md_alert d in
  put_monitor (dset (g_monitor g) bid (remember now escalate converge d (dget (g_monitor g) bid))) ;;
  apply_decision b age d converge escalate.

(** Whether the monitor looks at the binding at all. *)
Definition monitored (nodes : dict NodeEntry) (b : StreamBinding) : bool :=
  bool_decide (b_mode b = REMOTE_PRODUCER)
  && negb (match dget nodes (b_node_id b) with Some n => n_maintenance n | None => false end)
  && (REMOTE_MP_MIN <=? jc_mountpoint_id (b_janus b)).

Fixpoint tick_loop (nodes : dict NodeEntry) (now : Q) (bindings : dict StreamBinding)
    (examined : Z) : M Gateway Z :=
  match bindings with
  | [] => mret examined
  | (bid, b) :: rest =>
      if monitored nodes b then
        examine nodes now bid b ;; tick_loop nodes now rest (examined + 1)
      else tick_loop nodes now rest examined
  end.

Definition monitor_tick : M Gateway Z :=
  bindings ← on_bindings list_bindings;
  nodes ← on_bindings list_nodes;
  now ← on_world monotonic;
  tick_loop nodes now bindings 0.
End monitor.

(** ** The rate of alerts *)

(** What one pass sees of a binding: the time, the age of its video, whether the binding
    is wanted and managed, and whether its node answers. *)
Record observation := mkObs {
  o_now : Q; o_age : json; o_wanted : bool; o_reachable : bool;
}.

(** The part of [examine] that decides and remembers. *)
Definition observe_stream (stale_ms : Z) (prev : option BindingState) (o : observation)
    : bool * BindingState :=
  let fresh := fresh_age stale_ms (o_age o) in
  let converge := o_wanted o && negb fresh && converge_due (o_now o) prev && o_reachable o in
  let d := evaluate stale_ms (o_now o) HEARTBEAT_SEC prev (o_age o) in
  let escalate := o_wanted o && md_alert d in
  (escalate, remember (o_now o) escalate converge d prev).

(** Whether each observation raises an alert. *)
Fixpoint alerts (stale_ms : Z) (prev : option BindingState) (obs : list observation) : list bool :=
  match obs with
  | [] => []
  | o :: obs' =>
      let '(escalate, st) := observe_stream stale_ms prev o in
      escalate :: alerts stale_ms (Some st) obs'
  end.

Section rate.
Context (stale_ms : Z).

Definition is_fresh (o : observation) : bool := fresh_age stale_ms (o_age o).

Lemma observe_fresh prev o : is_fresh o = true → (observe_stream stale_ms prev o).1 = false.
Proof. unfold is_fresh, observe_stream, evaluate. intros ->. simpl. apply andb_false_r. Qed.

(** An alert needs an earlier healthy observation. *)
Lemma observe_never_healthy prev o :
  match prev with Some st => ever_healthy st = false | None => True end → is_fresh o = false →
  (observe_stream stale_ms prev o).1 = false ∧
  ever_healthy (observe_stream stale_ms prev o).2 = false.
Proof.
  unfold is_fresh, observe_stream, evaluate. intros Hp ->.
  destruct prev as [st|]; simpl; [rewrite Hp; simpl|]; by rewrite andb_false_r.
Qed.

(** While the stream stays stale, an alert comes a heartbeat after the last one. *)
Lemma observe_stale st o :
  healthy st = Some false → is_fresh o = false →
  let '(escalate, st') := observe_stream stale_ms (Some st) o in
  healthy st' = Some false ∧ (last_alert_mono st <= last_alert_mono st')%Q ∧
  (escalate = true → (HEARTBEAT_SEC <= o_now o - last_alert_mono st)%Q).
Proof.
  unfold is_fresh, observe_stream, evaluate, was_healthy. intros Hh ->. rewrite Hh. simpl.
  destruct (ever_healthy st); simpl.
  2: { rewrite andb_false_r. split_and!; [done|apply Qle_refl|done]. }
  destruct (o_wanted o); simpl; [|split_and!; [done|apply Qle_refl|done]].
  destruct (Qle_bool HEARTBEAT_SEC (o_now o - last_alert_mono st)) eqn:Hq; simpl.
  - apply Qle_bool_iff in Hq. split_and!; [done| |done]. unfold HEARTBEAT_SEC in Hq. lra.
  - split_and!; [done|apply Qle_refl|done].
Qed.

(** An alert leaves the stream unhealthy and remembers its time. *)
Lemma observe_alert prev o :
  (observe_stream stale_ms prev o).1 = true →
  healthy (observe_stream stale_ms prev o).2 = Some false ∧
  last_alert_mono (observe_stream stale_ms prev o).2 = o_now o.
Proof.
  unfold observe_stream, evaluate. destruct (fresh_age stale_ms (o_age o)); simpl;
    [by rewrite andb_false_r|].
  destruct (negb _); simpl; [by rewrite andb_false_r|]. by intros ->.
Qed.

#[local] Opaque observe_stream.

Lemma alerts_spaced st t0 obs j o :
  healthy st = Some false → (t0 <= last_alert_mono st)%Q →
  (∀ k ok, (k < j)%nat → obs !! k = Some ok → is_fresh ok = false) →
  obs !! j = Some o → alerts stale_ms (Some st) obs !! j = Some true →
  (HEARTBEAT_SEC <= o_now o - t0)%Q.
Proof.
  revert st obs. induction j as [|j IH]; intros st [|o1 obs] Hh Ht Hstale Ho Ha; try done; simpl in *.
  - injection Ho as ->. destruct (observe_stream stale_ms (Some st) o) as [esc st'] eqn:Hobs.
    injection Ha as ->. assert (Hf : is_fresh o = false).
    { destruct (is_fresh o) eqn:Hf; [|done]. pose proof (observe_fresh (Some st) o Hf) as He.
      by rewrite Hobs in He. }
    pose proof (observe_stale st o Hh Hf) as Hs. rewrite Hobs in Hs. destruct Hs as (_ & _ & Hs).
    specialize (Hs eq_refl). lra.
  - assert (Hf : is_fresh o1 = false) by (apply (Hstale O); [lia|done]).
    pose proof (observe_stale st o1 Hh Hf) as Hs.
    destruct (observe_stream stale_ms (Some st) o1) as [esc st'] eqn:Hobs.
    destruct Hs as (Hh' & Hle & _). apply (IH st' obs); try done.
    + lra.
    + intros k ok Hk Hok. apply (Hstale (S k)); [lia|done].
Qed.

(** The first alert comes after a healthy observation. *)
Lemma alert_after_healthy prev obs i oi :
  match prev with Some st => ever_healthy st = false | None => True end →
  obs !! i = Some oi → alerts stale_ms prev obs !! i = Some true →
  ∃ k ok, (k < i)%nat ∧ obs !! k = Some ok ∧ is_fresh ok = true.
Proof.
  revert prev i. induction obs as [|o obs IH]; intros prev i Hp Hoi Ha; [done|].
  simpl in Ha. destruct (is_fresh o) eqn:Hf.
  - destruct i as [|i]; [|exists O, o; split_and!; [lia|done|done]].
    pose proof (observe_fresh prev o Hf) as He.
    destruct (observe_stream stale_ms prev o) as [esc st']. simpl in *. congruence.
  - destruct (observe_never_healthy prev o Hp Hf) as [He Hst].
    destruct (observe_stream stale_ms prev o) as [esc st']. simpl in *.
    destruct i as [|i]; simpl in Hoi, Ha; [congruence|].
    destruct (IH (Some st') i Hst Hoi Ha) as (k & ok & Hk & Hok & Hfr).
    exists (S k), ok. split_and!; [lia|done|done].
Qed.

(** Two alerts with only stale observations between them are a heartbeat apart. *)
Lemma stale_alerts_spaced prev obs i j oi oj :
  (i < j)%nat → obs !! i = Some oi → alerts stale_ms prev obs !! i = Some true →
  obs !! j = Some oj → alerts stale_ms prev obs !! j = Some true →
  (∀ k ok, (i < k < j)%nat → obs !! k = Some ok → is_fresh ok = false) →
  (HEARTBEAT_SEC <= o_now oj - o_now oi)%Q.
Proof.
  revert prev obs j. induction i as [|i IH]; intros prev obs j Hij Hoi Hai Hoj Haj Hno;
    (destruct obs as [|o obs]; [done|]); (destruct j as [|j]; [lia|]); simpl in *.
  - injection Hoi as ->. pose proof (observe_alert prev oi) as Hal.
    destruct (observe_stream stale_ms prev oi) as [esc st']. simpl in *. injection Hai as ->.
    destruct (Hal eq_refl) as [Hh Hlast]. apply (alerts_spaced st' (o_now oi) obs j oj); try done.
    + rewrite Hlast. apply Qle_refl.
    + intros k ok Hk Hok. apply (Hno (S k) ok); [lia|done].
  - destruct (observe_stream stale_ms prev o) as [esc st'].
    apply (IH (Some st') obs j); try done; [lia|].
    intros k ok Hk Hok. apply (Hno (S k) ok); [lia|done].
Qed.

Lemma fresh_between (obs : list observation) i j :
  (∃ k ok, (i < k < j)%nat ∧ obs !! k = Some ok ∧ is_fresh ok = true) ∨
  ∀ k ok, (i < k < j)%nat → obs !! k = Some ok → is_fresh ok = false.
Proof.
  destruct (decide (Exists (fun k => (i < k)%nat ∧ is_fresh <$> obs !! k = Some true) (seq 0 j)))
    as [(k & Hk & Hik & Hf)%Exists_exists|Hnex].
  - left. apply elem_of_seq in Hk. apply fmap_Some in Hf as (ok & Hok & Hf).
    exists k, ok. split_and!; [lia|lia|done|done].
  - right. intros k ok Hk Hok. apply not_true_iff_false. intros Hf. apply Hnex.
    apply Exists_exists. exists k. rewrite elem_of_seq, Hok. simpl. rewrite Hf.
    split_and!; [lia|lia|lia|done].
Qed.
End rate.

(** C24. Alerts of one remote binding: none before the stream was once seen healthy, and two
    alerts closer than the heartbeat of 300 s have a healthy observation between them,
    so a permanently dead stream cannot flood the event ring. *)
Theorem alerts_rate_limited stale_ms obs i oi :
  obs !! i = Some oi → alerts stale_ms None obs !! i = Some true →
  (∃ k ok, (k < i)%nat ∧ obs !! k = Some ok ∧ is_fresh stale_ms ok = true) ∧
  ∀ j oj, (i < j)%nat → obs !! j = Some oj → alerts stale_ms None obs !! j = Some true →
    (o_now oj - o_now oi < HEARTBEAT_SEC)%Q →
    ∃ k ok, (i < k < j)%nat ∧ obs !! k = Some ok ∧ is_fresh stale_ms ok = true.
Proof.
  intros Hoi Hai. split; [by apply (alert_after_healthy stale_ms None obs i oi)|].
  intros j oj Hij Hoj Haj Hclose.
  destruct (fresh_between stale_ms obs i j) as [|Hno]; [done|].
  pose proof (stale_alerts_spaced stale_ms None obs i j oi oj Hij Hoi Hai Hoj Haj Hno). lra.
Qed.

(** A stream that was up at 1000 s and is down afterwards: alerts at the edge and a
    heartbeat later, not in between; none before it ever was up. *)
Definition dropped_stream : list observation :=
  [mkObs 990 JNull true true; mkObs 1000 (JInt 40) true true; mkObs 1010 JNull true true;
   mkObs 1300 (JInt 90000) true true; mkObs 1310 JNull true true].

Lemma alerts_rate_limited_witness :
  alerts 10000 None dropped_stream = [false; false; true; false; true] ∧
  ∃ k ok, (k < 2)%nat ∧ dropped_stream !! k = Some ok ∧ is_fresh 10000 ok = true.
Proof.
  split; [vm_compute; reflexivity|].
  eapply (alerts_rate_limited 10000 dropped_stream 2); vm_compute; reflexivity.
Defined.

(** ** What the monitor does to the gateway *)
#[local] Transparent observe_stream.

Section effects.
Context {E : Env} {N : NodeEnv}.

Lemma keeps_monitor_world {A} (m : M World A) : preserves (keeps g_monitor) (on_world m).
Proof. intros g. unfold on_world, zoom. by destruct (m (g_world g)). Qed.

Lemma keeps_monitor_reachable node : preserves (keeps g_monitor) (node_reachable node).
Proof.
  destruct node as [n|]; simpl; [|apply pres_ret; apply _]. unfold probe_agent.
  pres.
Qed.

Lemma node_reachable_raises node : raises_only uncatchable (node_reachable node).
Proof. destruct node; simpl; [apply ro_catch_all; intros _|]; apply ro_ret. Qed.

Lemma on_world_total {A} (m : M World A) : total m → total (on_world m).
Proof. intros Hm g. specialize (Hm (g_world g)). unfold on_world, zoom. by destruct (m _). Qed.

(** [examine] decides and remembers as [observe_stream] says, and hands the decision to
    [apply_decision]; only the death of the process can come in between. *)
Lemma examine_observes nodes now bid b g :
  let prev := dget (g_monitor g) bid in
  let stale_ms := cfg_watchdog_stale_ms cfg in
  (∃ age reachable g2,
     let o := mkObs now age (b_desired_up b && fc_enabled (b_fdir b)) reachable in
     examine nodes now bid b g =
       apply_decision b age (evaluate stale_ms now HEARTBEAT_SEC prev age)
         (o_wanted o && negb (fresh_age stale_ms age) && converge_due now prev && reachable)
         (observe_stream stale_ms prev o).1 g2 ∧
     g_monitor g2 = dset (g_monitor g) bid (observe_stream stale_ms prev o).2) ∨
  ∃ e g', examine nodes now bid b g = (Raise e, g') ∧ uncatchable (ex_kind e).
Proof.
  cbv zeta. unfold examine.
  pose proof (on_world_total _ (janus_summary_total (jc_mountpoint_id (b_janus b))) g) as Ht.
  pose proof (keeps_monitor_world (janus_summary (jc_mountpoint_id (b_janus b))) g) as Hm1.
  destruct (on_world (janus_summary _) g) as [[summary|e] g1] eqn:Hsum; [|done].
  rewrite (bind_ok _ _ _ _ _ Hsum). unfold keeps in Hm1. simpl in Hm1.
  rewrite (bind_ok get _ g1 g1 g1 eq_refl), Hm1.
  set (prev := dget (g_monitor g) bid). set (age := video_age_ms summary).
  set (wanted := b_desired_up b && fc_enabled (b_fdir b)).
  set (cond := wanted && negb (fresh_age _ age) && converge_due now prev).
  set (check := if cond then _ else _).
  assert (Hc : (∃ reachable g2, check g1 = (Ok (cond && reachable), g2) ∧ g_monitor g2 = g_monitor g1) ∨
               ∃ e g', check g1 = (Raise e, g') ∧ uncatchable (ex_kind e)).
  { subst check. destruct cond; [|left; by exists false, g1].
    pose proof (keeps_monitor_reachable (dget nodes (b_node_id b)) g1) as Hk.
    destruct (ro_outcome _ _ g1 (node_reachable_raises (dget nodes (b_node_id b))))
      as [(a & g2 & Hr)|(e & g2 & Hr & Hu)]; rewrite Hr in Hk; [left|right]; eauto. }
  destruct Hc as [(reachable & g2 & Hc & Hm2)|(e & g' & Hc & Hu)]; [left|right; exists e, g'].
  - exists age, reachable. rewrite (bind_ok _ _ _ _ _ Hc).
    eexists. split; [reflexivity|]. simpl. by rewrite Hm2, Hm1.
  - by rewrite (bind_raise _ _ _ _ _ Hc).
Qed.

(** What the monitor may ask for, and run, on behalf of the binding [b]. *)
Definition asks_for (b : StreamBinding) (r : request) : Prop :=
  match r with
  | ReqCreateMountpoint mp => mp = jc_mountpoint_id (b_janus b)
  | ReqRestartStream _ sensor => sensor = b_sensor b ∧ b_node_id b ≠ LOCAL_NODE_ID
  end.

Definition runs_for (b : StreamBinding) (c : command) : Prop :=
  cm_argv c = encoder_cmd "restart" "rs-stream" (Some (b_sensor b)) ∧ b_node_id b = LOCAL_NODE_ID.

#[local] Hint Extern 1 (asks_for _ _) => (by simpl) : pres.

Lemma acts_ensure b : preserves (acts_only (runs_for b) (asks_for b)) (ensure_janus b).
Proof. unfold ensure_janus, reconcile_existing. pres. Qed.

(** The local adapter is the client of the local node only. *)
Lemma get_node_client_local id g client g' :
  get_node_client id g = (Ok client, g') → client = LocalNodeClientAdapter ↔ id = LOCAL_NODE_ID.
Proof.
  unfold get_node_client. destruct (String.eqb_spec id LOCAL_NODE_ID) as [Hl|Hl].
  - by intros [= <- <-].
  - intros (o & g1 & _ & Hc)%bind_ok_inv. split; [|done]. intros ->.
    destruct o as [n|]; [destruct (String.eqb _ _)|]; by apply ret_ok_inv in Hc as [? _].
Qed.

Lemma acts_restart b :
  preserves (acts_only (runs_for b) (asks_for b))
    (client ← get_node_client (b_node_id b); restart_stream client (b_sensor b) ;; mret tt).
Proof.
  apply pres_bind_ok; [apply _|unfold get_node_client; pres|].
  intros g client g' Hlocal%get_node_client_local.
  destruct client; unfold restart_stream, local_restart, agent_restart; pres; try (apply acts_send; split; naive_solver).
  apply acts_world; [apply encoder_call_obs|].
  intros w. destruct (encoder_call_runs "restart" "rs-stream" (Some (b_sensor b)) w) as (l & Hl & Hc).
  exists l. split; [done|]. eapply Forall_impl; [exact Hc|]. intros c Hr. split; [done|naive_solver].
Qed.

#[local] Hint Resolve acts_ensure acts_restart : pres.

Lemma acts_apply b age d recover alert : preserves (acts_only (runs_for b) (asks_for b)) (apply_decision b age d recover alert).
Proof. unfold apply_decision. pres. Qed.

Lemma acts_apply_idle C P b age d alert :
  preserves (acts_only C P) (apply_decision b age d false alert).
Proof. unfold apply_decision. simpl. pres. Qed.

Lemma acts_reachable C P node : preserves (acts_only C P) (node_reachable node).
Proof. unfold node_reachable, probe_agent. pres. Qed.
#[local] Hint Resolve acts_apply_idle acts_apply acts_reachable : pres.

(** Only a binding that is wanted and managed is recovered. *)
Definition managed (b : StreamBinding) : Prop := b_desired_up b = true ∧ fc_enabled (b_fdir b) = true.

Lemma acts_examine nodes now bid b :
  preserves (acts_only (λ c, managed b ∧ runs_for b c) (λ r, managed b ∧ asks_for b r))
    (examine nodes now bid b).
Proof.
  unfold examine. cbv zeta.
  destruct (b_desired_up b && fc_enabled (b_fdir b)) eqn:Hw.
  - apply andb_true_iff in Hw as [Hd Hf].
    apply (acts_impl (runs_for b) _ (asks_for b)); [done|done|]. pres.
  - simpl. pres_step; [pres|]. pres_step; [pres|].
    apply pres_bind_ok; [apply _|pres|]. intros g1 converge g2 [= <- _]. pres.
Qed.

(** [P] holds for a binding that a pass over [bs] may recover. *)
Definition recovered (nodes : dict NodeEntry) (bs : dict StreamBinding) (P : StreamBinding → Prop) : Prop :=
  ∃ bid b, (bid, b) ∈ bs ∧ b_mode b = REMOTE_PRODUCER ∧
    REMOTE_MP_MIN ≤ jc_mountpoint_id (b_janus b) ∧
    (∀ n, dget nodes (b_node_id b) = Some n → n_maintenance n = false) ∧ managed b ∧ P b.

Lemma monitored_spec nodes b :
  monitored nodes b = true →
  b_mode b = REMOTE_PRODUCER ∧ REMOTE_MP_MIN ≤ jc_mountpoint_id (b_janus b) ∧
  ∀ n, dget nodes (b_node_id b) = Some n → n_maintenance n = false.
Proof.
  unfold monitored. rewrite !andb_true_iff, bool_decide_eq_true, Z.leb_le, negb_true_iff.
  intros [[? Hm] ?]. split_and!; [done|done|]. intros n Hn. by rewrite Hn in Hm.
Qed.

Definition pass_acts nodes bs : Gateway → Gateway → Prop :=
  acts_only (λ c, recovered nodes bs (λ b, runs_for b c)) (λ r, recovered nodes bs (λ b, asks_for b r)).

Lemma acts_loop nodes now bs bs' k :
  (∀ x, x ∈ bs' → x ∈ bs) → preserves (pass_acts nodes bs) (tick_loop nodes now bs' k).
Proof.
  unfold pass_acts. revert k. induction bs' as [|[bid b] bs' IH]; intros k Hin; simpl; [pres|].
  destruct (monitored nodes b) eqn:Hm; [|apply IH; set_solver].
  apply monitored_spec in Hm as (? & ? & ?).
  assert ((bid, b) ∈ bs) by (apply Hin; by left).
  apply pres_bind; [apply _| |intros _; apply IH; set_solver].
  eapply acts_impl, acts_examine; intros x []; by exists bid, b.
Qed.

Lemma acts_nothing (P : command → Prop) (Q : request → Prop) (X : Prop) g g' :
  g_world g' = g_world g → g_requests g' = g_requests g →
  observable_only (g_world g) (g_world g') ∧
  (∃ cmds new, w_commands (g_world g') = w_commands (g_world g) ++ cmds ∧
     g_requests g' = g_requests g ++ new ∧ (∀ c, c ∈ cmds → P c) ∧ ∀ r, r ∈ new → Q r) ∧
  (X → w_commands (g_world g') = w_commands (g_world g)).
Proof.
  intros -> ->. split_and!; [done| |done]. exists [], []. rewrite !app_nil_r. set_solver.
Qed.

(** C23. A monitor pass over the remote bindings, whatever the streams, the nodes' agents, the
    commands and the Janus gateway answer, changes no mode, ladder, reboot counter or
    quiesce arm, and asks only for the mountpoint or the restart of a listed remote
    binding above the local range, wanted, managed and not under maintenance. The one
    command it can run is the restart of the gateway's own encoder, for such a binding
    whose row names the local node; when no listed remote row names it, the pass runs no
    command. *)
Theorem monitor_never_acts_locally g :
  let g' := (monitor_tick g).2 in
  let listed := list_bindings (g_store g) in
  observable_only (g_world g) (g_world g') ∧
  (∃ cmds new,
    w_commands (g_world g') = w_commands (g_world g) ++ cmds ∧ g_requests g' = g_requests g ++ new ∧
    (∀ c, c ∈ cmds → ∃ bs s1 nodes s2, listed = (Ok bs, s1) ∧ list_nodes s1 = (Ok nodes, s2) ∧
       recovered nodes bs (λ b, runs_for b c)) ∧
    ∀ r, r ∈ new → ∃ bs s1 nodes s2, listed = (Ok bs, s1) ∧ list_nodes s1 = (Ok nodes, s2) ∧
       recovered nodes bs (λ b, asks_for b r)) ∧
  ((∀ bs s1 bid b, listed = (Ok bs, s1) → (bid, b) ∈ bs → b_mode b = REMOTE_PRODUCER →
      b_node_id b ≠ LOCAL_NODE_ID) →
   w_commands (g_world g') = w_commands (g_world g)).
Proof.
  cbv zeta. unfold monitor_tick, on_bindings, zoom, mbind, M_bind.
  destruct (list_bindings (g_store g)) as [[bs|e] s1] eqn:Hb.
  2: { by apply acts_nothing. }
  cbn [g_store g_world]. destruct (list_nodes s1) as [[nodes|e] s2] eqn:Hn.
  2: { by apply acts_nothing. }
  set (g2 := mkGateway _ _ _ _).
  assert (Hp : preserves (pass_acts nodes bs) (now ← on_world monotonic; tick_loop nodes now bs 0)).
  { apply pres_bind; [apply _|unfold pass_acts; pres|intros now; by apply acts_loop]. }
  destruct (Hp g2) as (Ho & (cmds & Hc & HC) & new & Hnew & HP).
  rewrite Forall_forall in HC. rewrite Forall_forall in HP. split_and!; [exact Ho| |].
  - exists cmds, new. split_and!; [exact Hc|exact Hnew| |]; intros x Hx; exists bs, s1, nodes, s2; auto.
  - intros Haway. destruct cmds as [|c cmds]; [by rewrite app_nil_r in Hc|].
    destruct (HC c) as (bid & b & Hin & Hm & _ & _ & _ & _ & Hl); [by left|].
    destruct (Haway bs s1 bid b eq_refl Hin Hm Hl).
Qed.
End effects.

(** ** Concrete passes

    The stream of [node-0] is down, its mountpoint exists and its agent answers the
    health probe. The answer to the restart is a parameter. *)
Definition sample_nodes_env (answer : agent_reply) : NodeEnv := {|
  create_mountpoint _ _ := Raise (Exn EJanusAdmin "456 already exists"%string);
  list_mountpoints _ := Ok [];
  agent_healthz _ _ := AgentReply 200 (Ok (JObj []));
  agent_post _ _ _ := answer;
|}.

Definition dead_env : Env :=
  mkEnv (sample_settings false) (mono (Env:=live_env)) (wall (Env:=live_env)) cli_success
    (λ _ _, Raise (Exn EHttpTimeout EmptyString)) (λ _, Ok 1700000000%Q) no_fault
    (λ _, "null"%string) (λ _, 200).

Definition sample_gateway : Gateway := mkGateway sample_world bound_store [] [].

Definition pass (answer : agent_reply) : M Gateway Z :=
  monitor_tick (E:=dead_env) (N:=sample_nodes_env answer).

(** The stream is brought up: its mountpoint first, then the node's own encoder. *)
Example pass_recovers :
  let r := pass (AgentReply 200 (Ok (JObj [("ok", JBool true)]%string))) sample_gateway in
  (r.1, g_requests r.2) =
  (Ok 1, [ReqCreateMountpoint 2000; ReqRestartStream "192.168.10.55" "color"]%string).
Proof. vm_compute. reflexivity. Qed.

(** A restart answered with status 200 and a body that is not JSON ends the whole pass:
    the decoding error is no transport error, and nothing in the loop isolates it. *)
Lemma non_json_answer_ends_pass :
  (pass (AgentReply 200 (fail EJsonDecode)) sample_gateway).1 = fail EJsonDecode.
Proof. vm_compute. reflexivity. Qed.

(** A hand-edited row that calls itself remote and names the local node gets the local
    adapter. *)
Definition hand_edited_store : Store :=
  set_topo (file_of (Text (TxDoc (JObj
    [("version", JInt 1); ("nodes", JObj []);
     ("bindings", JObj [("cam10:color", binding_to_dict
        (mkBinding "cam10:color" "cam10" "color" REMOTE_PRODUCER (mkTransport 5100 96 "h264" JNull)
           (mkJanusConfig 2000 "192.168.10.10") default_fdir "online" true))])]%string))))
    bound_store.

Lemma hand_edited_binding_restarts_locally :
  let g' := (pass (AgentReply 500 (Ok JNull)) (mkGateway sample_world hand_edited_store [] [])).2 in
  g_requests g' = [ReqCreateMountpoint 2000] ∧
  map cm_argv (w_commands (g_world g'))
  = [["sudo"; "/usr/local/bin/encoder-admin"; "restart"; "--family"; "rs-stream"; "--instance"; "color"]%string].
Proof. vm_compute. by split. Qed.
