(* ===== verification/Drift.v ===== *)
(** * Desired and actual mountpoints ([app/services/reconcile_drift.py],
    [binding_provision.run_janus_reconcile_once])

    The read-only drift report of the remote bindings against the live Janus mountpoints,
    and the operator's run-once convergence that the report drives. The theorems give
    the report's verdict a declarative reading and show that a run asks for exactly the
    missing mountpoints of the active bindings. *)
From stdpp Require Import sorting.
From S2P Require Import Prelude.
From S2P Require Import PyVal.
From S2P Require Import FileStore.
From S2P Require Import FdirEvents.
From S2P Require Import World.
From S2P Require Import Allocator.
From S2P Require Import BindingModels.
From S2P Require Import TopologyStore.
From S2P Require Import Nodes.
From S2P Require Import Bindings.
From S2P Require Import TopologyCalls.
From S2P Require Import BindingProvision.
From S2P Require Import RemoteMonitor.

(** ** The report *)
Inductive drift_class :=
  | IN_SYNC | MISSING_JANUS_MOUNTPOINT | UNEXPECTED_JANUS_MOUNTPOINT
  | STOPPED_BY_OPERATOR | STALE_RTP.

#[export] Instance drift_class_eq_dec : EqDecision drift_class.
Proof. solve_decision. Defined.

Definition class_name (c : drift_class) : string :=
  match c with
  | IN_SYNC => "in_sync"
  | MISSING_JANUS_MOUNTPOINT => "missing_janus_mountpoint"
  | UNEXPECTED_JANUS_MOUNTPOINT => "unexpected_janus_mountpoint"
  | STOPPED_BY_OPERATOR => "stopped_by_operator"
  | STALE_RTP => "stale_rtp"
  end.

(** [_DRIFT_CLASSES] *)
Definition is_drift_class (c : drift_class) : bool :=
  match c with MISSING_JANUS_MOUNTPOINT | STALE_RTP => true | _ => false end.

Record drift_item := mkItem {
  it_binding_id : string;
  it_node_id : string;
  it_sensor : string;
  it_mountpoint_id : Z;
  it_status : string;
  it_fdir_enabled : bool;
  it_mountpoint_present : bool;
  it_video_age_ms : option (option Z);    (* absent from the record, or its value *)
  it_classification : drift_class;
}.

Record drift_report := mkReport {
  dr_drift : bool;
  dr_counts : dict Z;
  dr_bindings : list drift_item;
  dr_unexpected : list Z;
}.

Definition is_operator_stopped (b : StreamBinding) (maintenance : list string) : bool :=
  negb (fc_enabled (b_fdir b))
  || String.eqb (b_status b) "configured_offline"
  || bool_decide (b_node_id b ∈ maintenance).

(** [age is None or age > stale_ms] *)
Definition stale_age (stale_ms : Z) (age : option Z) : bool :=
  match age with None => true | Some a => stale_ms <? a end.

(** The record of one remote binding. *)
Definition drift_record (live : list Z) (rtp_age_fn : option (Z → option Z)) (stale_ms : Z)
    (maintenance : list string) (bid : string) (b : StreamBinding) : drift_item :=
  let mp := jc_mountpoint_id (b_janus b) in
  let rec := mkItem bid (b_node_id b) (b_sensor b) mp (b_status b) (fc_enabled (b_fdir b))
               (zmem mp live) in
  if is_operator_stopped b maintenance then rec None STOPPED_BY_OPERATOR
  else if negb (zmem mp live) then rec None MISSING_JANUS_MOUNTPOINT
  else
    let age := match rtp_age_fn with Some f => f mp | None => None end in
    rec (Some age) (if stale_age stale_ms age then STALE_RTP else IN_SYNC).

(** [for bid, b in bindings.items()]: the items and [known_remote_mps]. *)
Fixpoint drift_items (live : list Z) (rtp_age_fn : option (Z → option Z)) (stale_ms : Z)
    (maintenance : list string) (bindings : dict StreamBinding) : list drift_item * list Z :=
  match bindings with
  | [] => ([], [])
  | (bid, b) :: rest =>
      let '(items, known) := drift_items live rtp_age_fn stale_ms maintenance rest in
      if bool_decide (b_mode b = REMOTE_PRODUCER) then
        (drift_record live rtp_age_fn stale_ms maintenance bid b :: items,
         jc_mountpoint_id (b_janus b) :: known)
      else (items, known)
  end.

(** [sorted(m for m in live if m >= REMOTE_MP_MIN and m not in known_remote_mps)] *)
Definition unexpected_mountpoints (live known : list Z) : list Z :=
  merge_sort Z.le
    (List.filter (fun m => (REMOTE_MP_MIN <=? m) && negb (zmem m known)) (remove_dups live)).

Definition count_class (counts : dict Z) (c : drift_class) : dict Z :=
  dset counts (class_name c) (default 0 (dget counts (class_name c)) + 1).

Definition compute_drift (bindings : dict StreamBinding) (live : list Z)
    (rtp_age_fn : option (Z → option Z)) (stale_ms : Z) (maintenance : list string)
    : drift_report :=
  let '(items, known) := drift_items live rtp_age_fn stale_ms maintenance bindings in
  let unexpected := unexpected_mountpoints live known in
  let counts := fold_left count_class (map it_classification items) [] in
  let counts := match unexpected with
                | [] => counts
                | _ => dset counts (class_name UNEXPECTED_JANUS_MOUNTPOINT)
                         (Z.of_nat (length unexpected))
                end in
  let drift := match unexpected with [] => false | _ => true end
               || existsb (fun it => is_drift_class (it_classification it)) items in
  mkReport drift counts items unexpected.

(** ** The run-once convergence *)
Record run_outcome := mkRun {
  ro_ok : bool;
  ro_before : drift_report;
  ro_created : Z; ro_existing : Z; ro_skipped : Z; ro_failed : Z;
  ro_outcomes : dict string;
  ro_after : drift_report;
}.

(** The counters of the sweep. *)
Record tally := mkTally {
  ta_created : Z; ta_existing : Z; ta_failed : Z; ta_skipped : Z; ta_outcomes : dict string;
}.

(** [[int(m["id"]) for m in list_mountpoints() if isinstance(m, dict) and "id" in m]] *)
Fixpoint mountpoint_ids (mps : list json) : res (list Z) :=
  match mps with
  | [] => Ok []
  | JObj d :: mps' =>
      match dget d "id"%string with
      | Some i => z ← to_int i; rest ← mountpoint_ids mps'; Ok (z :: rest)
      | None => mountpoint_ids mps'
      end
  | _ :: mps' => mountpoint_ids mps'
  end.

(** The media-freshness probe the route injects; the answer may differ at each moment. *)
Class DriftEnv := { rtp_age_at : nat → Z → option Z }.

Section run_once.
Context {E : Env} {N : NodeEnv} {D : DriftEnv}.

Definition live_ids : M Gateway (list Z) :=
  n ← on_world tick;
  mps ← lift (list_mountpoints n);
  lift (mountpoint_ids mps).

(** [compute_drift(bindings, _live_ids(), rtp_age_fn=..., maintenance_node_ids=maint)] *)
Definition drift_now (bindings : dict StreamBinding) (maint : list string)
    : M Gateway drift_report :=
  live ← live_ids;
  n ← on_world tick;
  mret (compute_drift bindings live (Some (rtp_age_at n)) 4000 maint).

Definition status_value (s : ProvisionStatus) : string :=
  match s with CREATED => "created" | EXISTS => "exists" | CONFLICT => "conflict" | FAILED => "failed" end.

(** The branch of an item that misses its mountpoint. *)
Definition converge_item (bid : string) (b : StreamBinding) (t : tally) : M Gateway tally :=
  let '(mkTally c e f s o) := t in
  if jc_mountpoint_id (b_janus b) <? REMOTE_MP_MIN
  then mret (mkTally c e (f + 1) s (dset o bid "refused_local_range"%string))
  else
    try_except
      (out ← ensure_janus b;
       mret (match out with
             | CREATED => mkTally (c + 1) e f s (dset o bid "created"%string)
             | EXISTS => mkTally c (e + 1) f s (dset o bid "exists"%string)
             | CONFLICT | FAILED => mkTally c e (f + 1) s (dset o bid (status_value out))
             end))
      CException
      (fun x => mret (mkTally c e (f + 1) s (dset o bid ("error:" ++ ex_msg x)%string))).

Fixpoint converge_loop (bindings : dict StreamBinding) (items : list drift_item) (t : tally)
    : M Gateway tally :=
  match items with
  | [] => mret t
  | it :: items' =>
      t ← match it_classification it with
          | STOPPED_BY_OPERATOR =>
              mret (mkTally (ta_created t) (ta_existing t) (ta_failed t) (ta_skipped t + 1)
                      (ta_outcomes t))
          | IN_SYNC | STALE_RTP =>
              mret (mkTally (ta_created t) (ta_existing t + 1) (ta_failed t) (ta_skipped t)
                      (ta_outcomes t))
          | UNEXPECTED_JANUS_MOUNTPOINT => mret t
          | MISSING_JANUS_MOUNTPOINT =>
              match dget bindings (it_binding_id it) with
              | Some b => converge_item (it_binding_id it) b t
              | None => throw EKey
              end
          end;
      converge_loop bindings items' t
  end.

Definition run_janus_reconcile_once : M Gateway run_outcome :=
  bindings ← on_bindings list_bindings;
  nodes ← on_bindings list_nodes;
  let maint := dkeys (List.filter (fun '(_, n) => n_maintenance n) nodes) in
  before ← drift_now bindings maint;
  t ← converge_loop bindings (dr_bindings before) (mkTally 0 0 0 0 []);
  after ← drift_now bindings maint;
  mret (mkRun (ta_failed t =? 0) before (ta_created t) (ta_existing t) (ta_skipped t)
          (ta_failed t) (ta_outcomes t) after).
End run_once.

(** ** What the report says *)
Definition is_remote (kv : string * StreamBinding) : bool :=
  bool_decide (b_mode kv.2 = REMOTE_PRODUCER).

Section report.
Context (live : list Z) (f : option (Z → option Z)) (stale_ms : Z) (maint : list string).

(** One record per remote binding, in the order of the store. *)
Lemma drift_items_spec bs :
  drift_items live f stale_ms maint bs =
    (map (λ '(bid, b), drift_record live f stale_ms maint bid b) (List.filter is_remote bs),
     map (λ '(_, b), jc_mountpoint_id (b_janus b)) (List.filter is_remote bs)).
Proof.
  induction bs as [|[bid b] bs IH]; [done|]. cbn [drift_items List.filter]. rewrite IH.
  change (is_remote (bid, b)) with (bool_decide (b_mode b = REMOTE_PRODUCER)).
  by destruct (bool_decide _).
Qed.

Lemma zmem_elem x l : zmem x l = true ↔ x ∈ l.
Proof. by rewrite zmem_spec, list_elem_of_In. Qed.

Lemma unexpected_elem known mp :
  mp ∈ unexpected_mountpoints live known ↔ mp ∈ live ∧ REMOTE_MP_MIN ≤ mp ∧ mp ∉ known.
Proof.
  unfold unexpected_mountpoints. rewrite merge_sort_Permutation, list_elem_of_In, filter_In.
  rewrite <- list_elem_of_In, elem_of_remove_dups, andb_true_iff, negb_true_iff, Z.leb_le.
  rewrite <- not_true_iff_false, zmem_elem. naive_solver.
Qed.

Lemma unexpected_sorted known :
  StronglySorted Z.lt (unexpected_mountpoints live known).
Proof.
  unfold unexpected_mountpoints. set (l := List.filter _ _).
  assert (Hnd : NoDup (merge_sort Z.le l)).
  { rewrite merge_sort_Permutation. apply NoDup_ListNoDup, List.NoDup_filter, NoDup_ListNoDup.
    apply NoDup_remove_dups. }
  pose proof (StronglySorted_merge_sort Z.le l) as Hs. clearbody l. revert Hnd Hs.
  generalize (merge_sort Z.le l). clear. intros l Hnd Hs. induction Hs as [|x l Hs IH Hx]; [constructor|].
  apply NoDup_cons in Hnd as [Hin Hnd]. constructor; [auto|].
  rewrite Forall_forall in Hx |- *. intros y Hy. specialize (Hx y Hy).
  assert (x ≠ y) by congruence. lia.
Qed.

(** A record shows no drift. *)
Lemma record_in_sync bid b :
  is_drift_class (it_classification (drift_record live f stale_ms maint bid b)) = false ↔
  (is_operator_stopped b maint = false →
   jc_mountpoint_id (b_janus b) ∈ live ∧
   ∃ f' age, f = Some f' ∧ f' (jc_mountpoint_id (b_janus b)) = Some age ∧ age ≤ stale_ms).
Proof.
  unfold drift_record. destruct (is_operator_stopped b maint); simpl; [naive_solver|].
  rewrite <- zmem_elem. destruct (zmem _ live); simpl; [|naive_solver].
  destruct f as [f'|]; simpl; [|naive_solver].
  destruct (f' _) as [age|] eqn:Ha; simpl; [|naive_solver].
  destruct (stale_ms <? age) eqn:Hs; simpl; [apply Z.ltb_lt in Hs|apply Z.ltb_ge in Hs]; split;
    try done; try naive_solver.
  intros H. destruct (H eq_refl) as (_ & ? & ? & [= <-] & Heq & ?). simplify_eq. lia.
Qed.

(** The counters of the report. *)
Lemma count_class_spec cs counts c :
  default 0 (dget (fold_left count_class cs counts) (class_name c))
  = default 0 (dget counts (class_name c)) + Z.of_nat (length (filter (eq c) cs)).
Proof.
  revert counts. induction cs as [|c' cs IH]; intros counts; [simpl; lia|]. simpl. rewrite IH.
  unfold count_class. rewrite dget_dset, filter_cons.
  destruct (decide (class_name c' = class_name c)) as [He|Hne].
  - assert (c = c') as -> by (by destruct c, c'). rewrite decide_True by done. simpl. lia.
  - rewrite decide_False by congruence. lia.
Qed.
End report.

(** C26. The drift report of the gateway says no drift exactly when the actual state is the
    desired one: every remote binding that is not stopped by the operator has its
    mountpoint alive with fresh media, and every live mountpoint of the remote range
    belongs to a remote binding. *)
Theorem no_drift_iff bs live f stale_ms maint :
  dr_drift (compute_drift bs live f stale_ms maint) = false ↔
  (∀ bid b, (bid, b) ∈ bs → b_mode b = REMOTE_PRODUCER → is_operator_stopped b maint = false →
     jc_mountpoint_id (b_janus b) ∈ live ∧
     ∃ f' age, f = Some f' ∧ f' (jc_mountpoint_id (b_janus b)) = Some age ∧ age ≤ stale_ms) ∧
  (∀ mp, mp ∈ live → REMOTE_MP_MIN ≤ mp →
     ∃ bid b, (bid, b) ∈ bs ∧ b_mode b = REMOTE_PRODUCER ∧ jc_mountpoint_id (b_janus b) = mp).
Proof.
  unfold compute_drift. rewrite drift_items_spec. cbn [dr_drift].
  rewrite orb_false_iff, Logic.and_comm. f_equiv.
  - rewrite <- not_true_iff_false, existsb_exists. split.
    + intros Hno bid b Hin Hm. apply (record_in_sync live f stale_ms maint bid b).
      apply not_true_iff_false. intros Ht. apply Hno. eexists. split; [|exact Ht].
      apply in_map_iff. exists (bid, b). split; [done|]. apply filter_In.
      rewrite <- list_elem_of_In. split; [done|]. by apply bool_decide_eq_true.
    + intros H (it & Hin & Ht). apply in_map_iff in Hin as ([bid b] & <- & Hin).
      apply filter_In in Hin as [Hin Hm]. apply list_elem_of_In in Hin.
      apply bool_decide_eq_true in Hm. revert Ht. apply not_true_iff_false.
      apply record_in_sync. by apply (H bid b).
  - pose proof (unexpected_elem live (map (λ '(_, b), jc_mountpoint_id (b_janus b))
                                        (List.filter is_remote bs))) as Hu.
    transitivity (∀ mp, mp ∉ unexpected_mountpoints live
                    (map (λ '(_, b), jc_mountpoint_id (b_janus b)) (List.filter is_remote bs))).
    { destruct (unexpected_mountpoints _ _) as [|mp l]; [set_solver|].
      split; [done|]. intros H. destruct (H mp). by left. }
    setoid_rewrite Hu. clear Hu. setoid_rewrite list_elem_of_In. setoid_rewrite in_map_iff.
    setoid_rewrite filter_In. split.
    + intros H mp Hmp Hmin. specialize (H mp). destruct (decide (mp ∈ map (λ '(_, b), jc_mountpoint_id (b_janus b)) (List.filter is_remote bs))) as [Hd|Hd].
      * apply list_elem_of_In, in_map_iff in Hd as ([bid b] & <- & [? Hm]%filter_In).
        apply bool_decide_eq_true in Hm. by exists bid, b.
      * exfalso. apply H. split_and!; [done|done|]. intros (x & Hx). apply Hd.
        apply list_elem_of_In, in_map_iff. exists x. by rewrite filter_In.
    + intros H mp (Hmp & Hmin & Hno). destruct (H mp Hmp Hmin) as (bid & b & ? & Hm & <-).
      apply Hno. exists (bid, b). split_and!; [done|done|by apply bool_decide_eq_true].
Qed.

(** ** What a run asks for *)

(** The mountpoints a run has to create: those of the active remote bindings that are not
    alive, inside the remote range. *)
Definition missing_mountpoints (bs : dict StreamBinding) (live : list Z) (maint : list string)
    : list Z :=
  map (λ '(_, b), jc_mountpoint_id (b_janus b))
    (List.filter (λ '(bid, b), is_remote (bid, b) && negb (is_operator_stopped b maint)
                    && negb (zmem (jc_mountpoint_id (b_janus b)) live)
                    && (REMOTE_MP_MIN <=? jc_mountpoint_id (b_janus b))) bs).

Section run.
Context {E : Env} {N : NodeEnv} {D : DriftEnv}.

(** The world stays untouched and the requests grow by [rs]. *)
Definition sent (rs : list request) (g g' : Gateway) : Prop :=
  local_untouched (g_world g) (g_world g') ∧ g_requests g' = g_requests g ++ rs.

Lemma sent_nil_refl g : sent [] g g.
Proof. split; [by split|by rewrite app_nil_r]. Qed.

Lemma sent_trans rs1 rs2 g1 g2 g3 : sent rs1 g1 g2 → sent rs2 g2 g3 → sent (rs1 ++ rs2) g1 g3.
Proof.
  intros [[? ?] Hr1] [[? ?] Hr2]. split; [|by rewrite Hr2, Hr1, app_assoc].
  split; [by etrans|congruence].
Qed.

Lemma silent_sent {A} (m : M Gateway A) :
  preserves (acts_only (λ _, False) (λ _, False)) m → ∀ g, sent [] g (m g).2.
Proof.
  intros Hm g. destruct (acts_untouched _ _ _ (Hm g)) as [Hl ([|r new] & Hn & HP)]; [by split|].
  by apply Forall_cons in HP as [[] _].
Qed.

Lemma silent_world {A} (m : M World A) g :
  preserves observable_only m → preserves (keeps w_commands) m → sent [] g (on_world m g).2.
Proof. intros H1 H2. by apply (silent_sent (on_world m)), acts_silent. Qed.

Lemma silent_bindings {A} (m : M Store A) g : sent [] g (on_bindings m g).2.
Proof. apply (silent_sent (on_bindings m)), acts_bindings. Qed.

(** Creating or confirming a mountpoint sends one request, however it ends. *)
Lemma ensure_sent b g :
  sent [ReqCreateMountpoint (jc_mountpoint_id (b_janus b))] g (ensure_janus b g).2.
Proof.
  assert (Hq : preserves (acts_only (λ _, False) (λ _, False)) (reconcile_existing b)).
  { unfold reconcile_existing. pres. }
  destruct g as [w s m rq]. unfold ensure_janus, try_except, send, modify, lift, on_world, zoom, mbind, M_bind.
  cbn -[instance_of create_mountpoint reconcile_existing is_already_exists set_tick].
  set (g1 := mkGateway (set_tick _ w) s m (rq ++ _)).
  assert (H1 : sent [ReqCreateMountpoint (jc_mountpoint_id (b_janus b))] (mkGateway w s m rq) g1).
  { split; [split; by destruct w|done]. }
  destruct (create_mountpoint _ b) as [u|e]; [done|]. destruct (instance_of _ _); [|done].
  destruct (is_already_exists _); [|done].
  pose proof (sent_trans _ _ _ _ _ H1 (silent_sent _ Hq g1)) as H2. by rewrite app_nil_r in H2.
Qed.

Lemma drift_now_sent bs maint g : sent [] g (drift_now bs maint g).2.
Proof. apply silent_sent. unfold drift_now, live_ids. pres. Qed.

(** A run examines the items in order and stops early only when the process dies. *)
Definition asked (bs : dict StreamBinding) (it : drift_item) : list request :=
  match it_classification it, dget bs (it_binding_id it) with
  | MISSING_JANUS_MOUNTPOINT, Some b =>
      if jc_mountpoint_id (b_janus b) <? REMOTE_MP_MIN then []
      else [ReqCreateMountpoint (jc_mountpoint_id (b_janus b))]
  | _, _ => []
  end.

Definition tally_sum (t : tally) : Z :=
  ta_created t + ta_existing t + ta_failed t + ta_skipped t.

Lemma converge_item_sent bid b t g :
  (∃ t' g', converge_item bid b t g = (Ok t', g') ∧
     tally_sum t' = tally_sum t + 1 ∧
     sent (if jc_mountpoint_id (b_janus b) <? REMOTE_MP_MIN then []
           else [ReqCreateMountpoint (jc_mountpoint_id (b_janus b))]) g g') ∨
  (∃ e g', converge_item bid b t g = (Raise e, g') ∧ uncatchable (ex_kind e) ∧
     sent [ReqCreateMountpoint (jc_mountpoint_id (b_janus b))] g g').
Proof.
  destruct t as [c x f s o]. unfold converge_item. destruct (_ <? _).
  { left. do 2 eexists. split; [done|]. split; [unfold tally_sum; simpl; lia|apply sent_nil_refl]. }
  pose proof (ensure_sent b g) as Hs. unfold try_except, mbind, M_bind.
  destruct (ensure_janus b g) as [[out|e] g'].
  - left. do 2 eexists. split; [done|]. split; [|done]. unfold tally_sum. destruct out; simpl; lia.
  - destruct (instance_of _ _) eqn:He; [left|right]; do 2 eexists; split_and!; try done.
    unfold tally_sum. simpl. lia.
Qed.

Lemma converge_sent bs items t g :
  (∀ it, it ∈ items → it_classification it ≠ UNEXPECTED_JANUS_MOUNTPOINT ∧
                      is_Some (dget bs (it_binding_id it))) →
  (∃ t' g', converge_loop bs items t g = (Ok t', g') ∧
     tally_sum t' = tally_sum t + Z.of_nat (length items) ∧
     sent (flat_map (asked bs) items) g g') ∨
  (∃ e g' k, converge_loop bs items t g = (Raise e, g') ∧ uncatchable (ex_kind e) ∧
     sent (take k (flat_map (asked bs) items)) g g').
Proof.
  revert t g. induction items as [|it items IH]; intros t g Hit; simpl.
  { left. exists t, g. split_and!; [done|lia|apply sent_nil_refl]. }
  destruct (Hit it) as [Hcls [b Hb]]; [by left|].
  assert (Hrest : ∀ x, x ∈ items → it_classification x ≠ UNEXPECTED_JANUS_MOUNTPOINT ∧
                                   is_Some (dget bs (it_binding_id x))).
  { intros x Hx. apply Hit. by right. }
  set (step := match it_classification it with IN_SYNC => _ | _ => _ end).
  assert (Hstep :
    (∃ t1 g1, step g = (Ok t1, g1) ∧ tally_sum t1 = tally_sum t + 1 ∧ sent (asked bs it) g g1) ∨
    (∃ e g1, step g = (Raise e, g1) ∧ uncatchable (ex_kind e) ∧
       asked bs it = [ReqCreateMountpoint (jc_mountpoint_id (b_janus b))] ∧
       sent (asked bs it) g g1)).
  { subst step. unfold asked. rewrite Hb. destruct (it_classification it); try done.
    2: { destruct (converge_item_sent (it_binding_id it) b t g)
           as [(t1 & g1 & ? & ? & ?)|(e & g1 & Hr & ? & ?)]; [left; eauto|right].
         exists e, g1. destruct (_ <? _) eqn:Hlt; [|done].
         unfold converge_item in Hr. rewrite Hlt in Hr. by destruct t. }
    all: left; do 2 eexists; split_and!; [done| |apply sent_nil_refl]; unfold tally_sum; simpl; lia. }
  destruct Hstep as [(t1 & g1 & Hr & Hsum & Hs)|(e & g1 & Hr & Hu & Ha & Hs)].
  - rewrite (bind_ok _ _ _ _ _ Hr).
    destruct (IH t1 g1 Hrest) as [(t2 & g2 & Hr2 & Hsum2 & Hs2)|(e & g2 & k & Hr2 & Hu & Hs2)].
    + left. exists t2, g2. split_and!; [done|lia|by eapply sent_trans].
    + right. exists e, g2, (length (asked bs it) + k)%nat. split_and!; [done|done|].
      rewrite take_app_add. by eapply sent_trans.
  - rewrite (bind_raise _ _ _ _ _ Hr). right. exists e, g1, 1%nat. split_and!; [done|done|].
    rewrite Ha in *. simpl. by rewrite take_0.
Qed.

(** The items of a report name bindings of the store, and what they ask for is what is
    missing. *)
Lemma report_items bs live f stale_ms maint it :
  it ∈ dr_bindings (compute_drift bs live f stale_ms maint) →
  ∃ bid b, (bid, b) ∈ bs ∧ it = drift_record live f stale_ms maint bid b.
Proof.
  unfold compute_drift. rewrite drift_items_spec. cbn [dr_bindings].
  rewrite list_elem_of_In, in_map_iff. intros ([bid b] & <- & [Hin _]%filter_In).
  exists bid, b. by rewrite list_elem_of_In.
Qed.

Lemma report_asks bs live f stale_ms maint :
  NoDup (dkeys bs) →
  flat_map (asked bs) (dr_bindings (compute_drift bs live f stale_ms maint))
  = map ReqCreateMountpoint (missing_mountpoints bs live maint).
Proof.
  intros Hnd. unfold compute_drift. rewrite drift_items_spec. cbn [dr_bindings].
  enough (Hgen : ∀ l, (∀ kv, kv ∈ l → dget bs kv.1 = Some kv.2) →
    flat_map (asked bs) (map (λ '(bid, b), drift_record live f stale_ms maint bid b)
                           (List.filter is_remote l))
    = map ReqCreateMountpoint (missing_mountpoints l live maint)).
  { apply Hgen. intros [k v] Hkv. by apply dget_NoDup. }
  clear Hnd. intros l Hin. unfold missing_mountpoints.
  induction l as [|[bid b] l IH]; [done|]. cbn [List.filter].
  specialize (IH ltac:(intros; apply Hin; by right)).
  destruct (is_remote (bid, b)) eqn:Hm; [|exact IH]. cbn [flat_map map]. rewrite IH.
  specialize (Hin (bid, b) ltac:(by left)). cbn [fst snd] in Hin.
  unfold asked, drift_record. destruct (is_operator_stopped b maint); cbn; [done|].
  destruct (zmem _ live); cbn; [by destruct (stale_age _ _)|].
  rewrite Hin, Z.leb_antisym. by destruct (_ <? _).
Qed.

(** [frozenset(nid for nid, n in nodes.items() if n.maintenance)] *)
Definition maintained (nodes : dict NodeEntry) : list string :=
  dkeys (List.filter (fun '(_, n) => n_maintenance n) nodes).

(** What Janus lists at this moment. *)
Definition gateway_live (g : Gateway) : res (list Z) :=
  mps ← list_mountpoints (w_tick (g_world g)); mountpoint_ids mps.

Lemma drift_now_result bs maint g :
  (drift_now bs maint g).1 =
    (live ← gateway_live g;
     Ok (compute_drift bs live (Some (rtp_age_at (S (w_tick (g_world g))))) 4000 maint)).
Proof.
  destruct g as [[] ? ? ?]. unfold drift_now, live_ids, gateway_live, on_world, zoom, lift, mbind, M_bind.
  simpl. destruct (list_mountpoints _) as [mps|e]; [|done]. simpl. by destruct (mountpoint_ids mps).
Qed.

(** The part of a run that follows the first report. *)
Lemma run_tail bs maint live n g :
  NoDup (dkeys bs) →
  let before := compute_drift bs live (Some (rtp_age_at n)) 4000 maint in
  let asks := map ReqCreateMountpoint (missing_mountpoints bs live maint) in
  match (t ← converge_loop bs (dr_bindings before) (mkTally 0 0 0 0 []);
         after ← drift_now bs maint;
         mret (mkRun (ta_failed t =? 0) before (ta_created t) (ta_existing t) (ta_skipped t)
                 (ta_failed t) (ta_outcomes t) after) : M Gateway run_outcome) g with
  | (Ok out, g') =>
      ro_before out = before ∧ sent asks g g' ∧
      ro_created out + ro_existing out + ro_skipped out + ro_failed out
      = Z.of_nat (length (List.filter is_remote bs))
  | (Raise _, g') => ∃ k, sent (take k asks) g g'
  end.
Proof.
  intros Hnd before asks.
  destruct (converge_sent bs (dr_bindings before) (mkTally 0 0 0 0 []) g)
    as [(t & g1 & Hr & Hsum & Hs)|(e & g1 & k & Hr & _ & Hs)].
  - intros it (bid & b & Hin & ->)%report_items. split.
    + unfold drift_record. by repeat case_match.
    + exists b. assert (Hb : dget bs bid = Some b) by (by apply dget_NoDup).
      unfold drift_record. by repeat case_match.
  - rewrite (bind_ok _ _ _ _ _ Hr). subst before. rewrite report_asks in Hs by done.
    pose proof (drift_now_sent bs maint g1) as Ha. unfold mbind, M_bind at 1.
    assert (Hlen : length (dr_bindings (compute_drift bs live (Some (rtp_age_at n)) 4000 maint))
                   = length (List.filter is_remote bs)).
    { unfold compute_drift. rewrite drift_items_spec. cbn [dr_bindings]. by rewrite length_map. }
    destruct (drift_now bs maint g1) as [[after|e] g2].
    + split; [done|]. split; [|rewrite <- Hlen; unfold tally_sum in Hsum; simpl in *; lia].
      pose proof (sent_trans _ _ _ _ _ Hs Ha) as H. by rewrite app_nil_r in H.
    + exists (length asks). rewrite firstn_all.
      pose proof (sent_trans _ _ _ _ _ Hs Ha) as H. by rewrite app_nil_r in H.
  - rewrite (bind_raise _ _ _ _ _ Hr). subst before. rewrite report_asks in Hs by done. by exists k.
Qed.

(** C25. The operator's run-once convergence compares the store with what Janus lists at that
    moment and asks it for exactly the mountpoints that the listing misses, each of an
    active remote binding and inside the remote range, in the order of the store, and does
    nothing else: no command, no restart of a stream or a node, no local state. Every
    remote binding is counted once. A run that raises has asked for a prefix of them, and
    one that gets no usable listing asks for nothing. *)
Theorem run_once_asks_for_missing g bs s1 nodes s2 :
  list_bindings (g_store g) = (Ok bs, s1) → NoDup (dkeys bs) → list_nodes s1 = (Ok nodes, s2) →
  let maint := maintained nodes in
  let '(r, g') := run_janus_reconcile_once g in
  match gateway_live g with
  | Ok live =>
      let asks := map ReqCreateMountpoint (missing_mountpoints bs live maint) in
      match r with
      | Ok out =>
          ro_before out
          = compute_drift bs live (Some (rtp_age_at (S (w_tick (g_world g))))) 4000 maint ∧
          sent asks g g' ∧
          ro_created out + ro_existing out + ro_skipped out + ro_failed out
          = Z.of_nat (length (List.filter is_remote bs))
      | Raise _ => ∃ k, sent (take k asks) g g'
      end
  | Raise e => r = Raise e ∧ sent [] g g'
  end.
Proof.
  intros Hb Hnd Hn maint. unfold run_janus_reconcile_once.
  assert (Hb' : on_bindings list_bindings g
                = (Ok bs, mkGateway (g_world g) s1 (g_monitor g) (g_requests g)))
    by (unfold on_bindings, zoom; by rewrite Hb).
  rewrite (bind_ok _ _ _ _ _ Hb'). set (g1 := mkGateway _ s1 _ _).
  assert (Hn' : on_bindings list_nodes g1
                = (Ok nodes, mkGateway (g_world g) s2 (g_monitor g) (g_requests g)))
    by (unfold on_bindings, zoom; cbn [g1 g_store]; by rewrite Hn).
  rewrite (bind_ok _ _ _ _ _ Hn'). set (g2 := mkGateway _ s2 _ _).
  fold (maintained nodes). fold maint. change (gateway_live g) with (gateway_live g2).
  assert (H02 : sent [] g g2) by (split; [by split|by rewrite app_nil_r]).
  pose proof (sent_trans _ _ _ _ _ H02 (drift_now_sent bs maint g2)) as H03.
  pose proof (drift_now_result bs maint g2) as Hdr. unfold mbind at 1, M_bind at 1.
  destruct (drift_now bs maint g2) as [before g3]. simpl in Hdr, H03. subst before.
  destruct (gateway_live g2) as [live|e]; simpl; [|by split].
  pose proof (run_tail bs maint live (S (w_tick (g_world g))) g3 Hnd) as Ht. cbv zeta in Ht.
  match type of Ht with match ?run with _ => _ end => destruct run as [[out|e] g4] end.
  - destruct Ht as (Hbefore & Hs & Hsum). split_and!; [done| |done]. by apply (sent_trans [] _ g g3).
  - destruct Ht as [k Hs]. exists k. by apply (sent_trans [] _ g g3).
Qed.
End run.

(** ** Concrete runs *)
#[local] Instance no_ages : DriftEnv := {| rtp_age_at _ _ := None |}.

Definition active_store : Store := (set_status "node-0:color" "online" bound_store).2.
Definition active_gateway : Gateway := mkGateway sample_world active_store [] [].

(** Janus lost the mountpoint: it lists none and creates what it is asked for. *)
Definition lost_env : NodeEnv := {|
  create_mountpoint _ _ := Ok tt;
  list_mountpoints _ := Ok [];
  agent_healthz _ _ := AgentReply 200 (Ok (JObj []));
  agent_post _ _ _ := AgentReply 200 (Ok (JObj []));
|}.

Definition run_sample (g : Gateway) : res run_outcome * Gateway :=
  run_janus_reconcile_once (N:=lost_env) g.

(** The listing misses the mountpoint of the active binding. *)
Lemma run_once_asks_for_missing_witness :
  gateway_live (N:=lost_env) active_gateway = Ok [] ∧
  ∃ bs maint, missing_mountpoints bs [] maint = [2000] ∧
    sent (map ReqCreateMountpoint (missing_mountpoints bs [] maint)) active_gateway
      (run_sample active_gateway).2.
Proof.
  split; [vm_compute; reflexivity|].
  destruct (list_bindings active_store) as [[bs|] s1] eqn:Hb; [|vm_compute in Hb; discriminate Hb].
  destruct (list_nodes s1) as [[nodes|] s2] eqn:Hn;
    [|vm_compute in Hb; injection Hb as <- <-; vm_compute in Hn; discriminate Hn].
  assert (Hnd : NoDup (dkeys bs)).
  { vm_compute in Hb. injection Hb as <- <-. vm_compute. apply NoDup_singleton. }
  pose proof (run_once_asks_for_missing (N:=lost_env) active_gateway bs s1 nodes s2 Hb Hnd Hn) as H.
  exists bs, (maintained nodes). split.
  - vm_compute in Hb. injection Hb as <- <-. vm_compute in Hn. injection Hn as <- <-.
    vm_compute. reflexivity.
  - unfold run_sample. cbv zeta in H.
    destruct (run_janus_reconcile_once active_gateway) as [[out|e] g'] eqn:Hr;
      [|vm_compute in Hr; discriminate Hr].
    exact (proj1 (proj2 H)).
Defined.

(** The operator's Stop of a remote stream as it reaches the store (the status, then the
    intent), followed by one monitor pass and one run. *)
Definition stopped_gateway : Gateway :=
  mkGateway sample_world
    (set_desired_up "node-0:color" false (set_status "node-0:color" "configured_offline" active_store).2).2
    [] [].

Definition after_pass (g : Gateway) : Gateway :=
  (monitor_tick (E:=dead_env) (N:=lost_env) g).2.

(** An operator's Stop does not last in the drift report: the report recognises it by
    the stored status, which the next monitor pass overwrites, and it never looks at the
    Start/Stop intent; so the run recreates the mountpoint of the stopped stream. Before
    the pass the same run leaves it down. *)
Theorem stop_forgotten_by_drift :
  g_requests (run_sample stopped_gateway).2 = [] ∧
  g_requests (run_sample (after_pass stopped_gateway)).2 = [ReqCreateMountpoint 2000].
Proof. split; vm_compute; reflexivity. Qed.
