(* ===== verification/Firewall.v ===== *)
(** * The RTP firewall reconciler ([app/services/firewall_sync.py])

    The desired fail-closed rules of the stored bindings, the tagged rules found in
    [iptables-save], and the reconciliation that inserts the missing rules and then
    deletes the stale ones. The [iptables] binary is the environment [Runner]; the
    theorems about the packet filter take its documented insert, delete and first-match
    behaviour as the laws of the class [Filter]. *)
From Stdlib Require Import Ascii.
From S2P Require Import Prelude.
From S2P Require Import PyVal.
From S2P Require Import PyStr.
From S2P Require Import FileStore.
From S2P Require Import BindingModels.
From S2P Require Import TopologyStore.
From S2P Require Import Nodes.
From S2P Require Import Bindings.
From S2P Require Import TopologyCalls.

Definition TAG : string := "camnode".
Definition CHAIN : string := "INPUT".

(** [REMOTE_RTP_RANGE] *)
Definition REMOTE_RTP_LAST : Z := REMOTE_PORT_MIN + MAX_REMOTE_NODES * NODE_PORT_WINDOW - 1.
Definition REMOTE_RTP_RANGE : string :=
  (pretty REMOTE_PORT_MIN ++ ":" ++ pretty REMOTE_RTP_LAST)%string.

Record Rule := mkRule { ru_spec : list string; ru_comment : string }.

Definition tag_of (r : Rule) : string := (TAG ++ ":" ++ ru_comment r)%string.

(** [Rule.args] *)
Definition rule_args (r : Rule) : list string :=
  ru_spec r ++ ["-m"; "comment"; "--comment"; tag_of r]%string.

Definition accept_rule (host bid : string) (port : Z) : Rule :=
  mkRule ["-s"; host ++ "/32"; "-p"; "udp"; "--dport"; pretty port; "-j"; "ACCEPT"]%string
    (bid ++ ":" ++ pretty port)%string.

Definition backstop_rule : Rule :=
  mkRule ["-p"; "udp"; "--dport"; REMOTE_RTP_RANGE; "-j"; "DROP"]%string "backstop".

(** The loop of [desired_rules]. *)
Fixpoint accept_rules (nodes : dict NodeEntry) (bindings : list StreamBinding) : list Rule :=
  match bindings with
  | [] => []
  | b :: rest =>
      if negb (bool_decide (b_mode b = REMOTE_PRODUCER)) then accept_rules nodes rest
      else
        match dget nodes (b_node_id b) with
        | None => accept_rules nodes rest
        | Some node =>
            if String.eqb (n_host node) EmptyString then accept_rules nodes rest
            else
              let port := tr_rtp_port (b_transport b) in
              [accept_rule (n_host node) (b_binding_id b) port;
               accept_rule (n_host node) (b_binding_id b) (port + 1)]
              ++ accept_rules nodes rest
        end
  end.

Definition desired_rules : M Store (list Rule) :=
  nodes ← list_nodes;
  bindings ← list_bindings;
  mret (accept_rules nodes (dvals bindings) ++ [backstop_rule]).

(** ** Running commands *)
Class Runner := { run_ipt : nat → list string → res (Z * string) }.

Record Fw := mkFw {
  fw_store : Store;
  fw_commands : list (list string);    (* the commands run, oldest first *)
}.

Definition fw_on_store {A} (m : M Store A) : M Fw A :=
  zoom fw_store (fun s w => mkFw s (fw_commands w)) m.

Section reconcile.
Context {R : Runner}.

Definition run (argv : list string) : M Fw (Z * string) :=
  fun w => (run_ipt (length (fw_commands w)) argv, mkFw (fw_store w) (fw_commands w ++ [argv])).

(** A rule line with a tag, bare or in double quotes. *)
Definition is_tagged_line (ln : string) : bool :=
  startswith ln "-A "
  && (contains ("--comment " ++ TAG ++ ":") ln
      || contains ("--comment " ++ String quote2 (TAG ++ ":")) ln)%string.

Definition current_tagged_lines : M Fw (list string) :=
  '(_, out) ← run ["iptables-save"%string];
  mret (List.filter is_tagged_line (splitlines out)).

(** The word after the first [--comment]. *)
Fixpoint comment_word (parts : list string) : res (option string) :=
  match parts with
  | [] => Ok None
  | p :: rest =>
      if String.eqb p "--comment"%string then
        match rest with c :: _ => Ok (Some c) | [] => fail EIndex end
      else comment_word rest
  end.

Definition tag_of_line (line : string) : res (option string) :=
  match shlex_split line with
  | None => Ok None
  | Some parts =>
      c ← comment_word parts;
      Ok (match c with
          | Some c => if startswith c (TAG ++ ":")%string then Some c else None
          | None => None
          end)
  end.

Fixpoint tags_of_lines (lines : list string) : res (list string) :=
  match lines with
  | [] => Ok []
  | ln :: rest =>
      t ← tag_of_line ln; ts ← tags_of_lines rest;
      Ok (match t with Some t => if String.eqb t EmptyString then ts else t :: ts | None => ts end)
  end.

Definition current_tagged : M Fw (list string) :=
  lines ← current_tagged_lines;
  lift (tags_of_lines lines).

Record Plan := mkPlan { pl_add : list Rule; pl_remove : list string }.

Definition is_noop (p : Plan) : bool :=
  match pl_add p, pl_remove p with [], [] => true | _, _ => false end.

(** [{f"{TAG}:{r.comment}": r for r in desired}] *)
Definition wanted (desired : list Rule) : dict Rule :=
  fold_left (fun d r => dset d (tag_of r) r) desired [].

Definition smem (s : string) (l : list string) : bool := existsb (String.eqb s) l.

(** The order of [remove] is that of a Python set; nothing depends on it. *)
Definition plan_of (want : dict Rule) (have : list string) : Plan :=
  mkPlan (map snd (List.filter (fun '(t, _) => negb (smem t have)) want))
    (List.filter (fun t => negb (dmem want t)) (remove_dups have)).

Definition insert_command (r : Rule) : list string := ["iptables"; "-I"; CHAIN; "1"]%string ++ rule_args r.

Definition is_backstop (r : Rule) : bool := String.eqb (ru_comment r) "backstop".

(** [bool(l)] *)
Definition nonempty {A} (l : list A) : bool := match l with [] => false | _ => true end.

(** [iptables -D] with the arguments of the listed line, for the stale lines. *)
Fixpoint delete_stale (stale : list string) (lines : list string) : M Fw unit :=
  match lines with
  | [] => mret tt
  | ln :: rest =>
      t ← lift (tag_of_line ln);
      (match t with
       | Some t =>
           if smem t stale then
             match shlex_split ln with
             | Some parts => run (["iptables"; "-D"]%string ++ tail parts) ;; mret tt
             | None => throw EValue
             end
           else mret tt
       | None => mret tt
       end) ;;
      delete_stale stale rest
  end.

Definition reconcile (apply : bool) : M Fw Plan :=
  desired ← fw_on_store desired_rules;
  let want := wanted desired in
  have ← current_tagged;
  let plan := plan_of want have in
  if negb apply then mret plan
  else
    for_each (List.filter is_backstop (pl_add plan)) (fun r => run (insert_command r) ;; mret tt) ;;
    for_each (List.filter (fun r => negb (is_backstop r)) (pl_add plan))
      (fun r => run (insert_command r) ;; mret tt) ;;
    when (nonempty (pl_remove plan))
      (lines ← current_tagged_lines; delete_stale (pl_remove plan) lines) ;;
    mret plan.
End reconcile.

(** ** The commands of a reconciliation *)
Section commands.
Context {R : Runner}.

(** The command a stale line gives rise to. *)
Definition delete_of (stale : list string) (ln : string) : list (list string) :=
  match tag_of_line ln, shlex_split ln with
  | Ok (Some t), Some parts => if smem t stale then [["iptables"; "-D"]%string ++ tail parts] else []
  | _, _ => []
  end.

Definition save_command : list string := ["iptables-save"%string].

(** [m] runs some first part of [cs], all of it when it returns. *)
Definition runs {A} (m : M Fw A) (cs : list (list string)) : Prop := ∀ w,
  fw_store (m w).2 = fw_store w ∧
  ∃ k, fw_commands (m w).2 = fw_commands w ++ take k cs ∧
       (is_ok (m w).1 = true → (length cs ≤ k)%nat).

Lemma runs_ret {A} (a : A) : runs (mret a) [].
Proof. intros w. split; [done|]. exists O. split; [by rewrite app_nil_r|simpl; lia]. Qed.

Lemma runs_throw {A} k : runs (throw (A:=A) k) [].
Proof. intros w. split; [done|]. exists O. split; [by rewrite app_nil_r|done]. Qed.

Lemma runs_lift {A} (r : res A) : runs (lift r) [].
Proof. intros w. split; [done|]. exists O. split; [by rewrite app_nil_r|simpl; lia]. Qed.

Lemma runs_run argv : runs (run argv) [argv].
Proof. intros w. split; [done|]. exists 1%nat. split; [done|]. intros _. simpl. lia. Qed.

Lemma runs_bind {A B} (m : M Fw A) (f : A → M Fw B) cs1 cs2 :
  runs m cs1 → (∀ a w, (m w).1 = Ok a → runs (f a) cs2) → runs (m ≫= f) (cs1 ++ cs2).
Proof.
  intros Hm Hf w. unfold mbind, M_bind. destruct (Hm w) as (Hs & k & Hk & Hfull).
  destruct (m w) as [[a|e] w'] eqn:Hr; simpl in *.
  - destruct (Hf a w ltac:(by rewrite Hr) w') as (Hs2 & k2 & Hk2 & Hfull2). split; [congruence|].
    exists (length cs1 + k2)%nat. split.
    + rewrite Hk2, Hk, take_app_add, (take_ge cs1) by auto. by rewrite app_assoc.
    + intros Hok. specialize (Hfull2 Hok). rewrite length_app. lia.
  - split; [done|]. exists (k `min` length cs1)%nat. split; [|done].
    rewrite take_app_le by lia. rewrite Hk. f_equal.
    destruct (Nat.le_ge_cases k (length cs1)); [by rewrite Nat.min_l|].
    rewrite Nat.min_r by done. by rewrite !take_ge.
Qed.

Lemma runs_for_each {A} (l : list A) f (g : A → list string) :
  (∀ a, runs (f a) [g a]) → runs (for_each l f) (map g l).
Proof.
  intros Hf. induction l as [|a l IH]; simpl; [apply runs_ret|].
  apply (runs_bind _ _ [g a] (map g l)); [done|intros _ _ _; exact IH].
Qed.

Lemma runs_insert r : runs (run (insert_command r) ;; mret tt) [insert_command r].
Proof. apply (runs_bind _ _ [_] []); [apply runs_run|intros; apply runs_ret]. Qed.

Lemma runs_delete stale lines : runs (delete_stale stale lines) (flat_map (delete_of stale) lines).
Proof.
  induction lines as [|ln lines IH]; simpl; [apply runs_ret|].
  destruct (tag_of_line ln) as [[t|]|e] eqn:Ht.
  3: { intros w. split; [done|]. exists O. by rewrite app_nil_r. }
  all: apply (runs_bind (lift _) _ []); [apply runs_lift|];
    intros o w [= <-]; (apply runs_bind; [|intros _ _ _; exact IH]); unfold delete_of; rewrite Ht.
  2: apply runs_ret.
  unfold shlex_split. destruct (shlex_go _ _ _) as [ws|]; destruct (smem t stale).
  - apply (runs_bind _ _ [_] []); [apply runs_run|intros; apply runs_ret].
  - apply runs_ret.
  - apply runs_throw.
  - apply runs_ret.
Qed.

Lemma runs_tagged_lines : runs current_tagged_lines [save_command].
Proof. apply (runs_bind _ _ [_] []); [apply runs_run|intros [rc out] w _; apply runs_ret]. Qed.

Lemma runs_tagged : runs current_tagged [save_command].
Proof. apply (runs_bind _ _ [_] []); [apply runs_tagged_lines|intros; apply runs_lift]. Qed.

(** The insertions of a plan: the backstop first, then the accepts. *)
Definition inserts (p : Plan) : list (list string) :=
  map insert_command (List.filter is_backstop (pl_add p)
                      ++ List.filter (fun r => negb (is_backstop r)) (pl_add p)).

(** What [iptables-save] listed at the [n]-th command. *)
Definition listed (n : nat) (lines : list string) : Prop :=
  ∃ rc out, run_ipt n save_command = Ok (rc, out) ∧
            lines = List.filter is_tagged_line (splitlines out).

(** The commands a reconciliation from the [n]-th command on may have run, and whether
    it is complete. *)
Inductive trace (n : nat) (want : dict Rule) : bool → list (list string) → Prop :=
  | trace_listing : trace n want false [save_command]
  | trace_insert lines have k complete :
      listed n lines → tags_of_lines lines = Ok have →
      let p := plan_of want have in
      (complete = true → (length (inserts p) ≤ k)%nat ∧ nonempty (pl_remove p) = false) →
      trace n want complete (save_command :: take k (inserts p))
  | trace_delete lines have lines2 k complete :
      listed n lines → tags_of_lines lines = Ok have →
      let p := plan_of want have in
      let deletes := flat_map (delete_of (pl_remove p)) lines2 in
      listed (S (n + length (inserts p))) lines2 → nonempty (pl_remove p) = true →
      (complete = true → (length deletes ≤ k)%nat) →
      trace n want complete (save_command :: inserts p ++ save_command :: take k deletes)
  | trace_relisting lines have :
      listed n lines → tags_of_lines lines = Ok have →
      let p := plan_of want have in
      trace n want false (save_command :: inserts p ++ [save_command]).

Lemma tagged_lines_inv w lines w' :
  current_tagged_lines w = (Ok lines, w') →
  listed (length (fw_commands w)) lines ∧ fw_commands w' = fw_commands w ++ [save_command].
Proof.
  unfold current_tagged_lines. intros ([rc out] & w1 & Hrun & Hret)%bind_ok_inv.
  unfold run in Hrun. injection Hrun as Hr <-. apply ret_ok_inv in Hret as [-> ->].
  split; [by exists rc, out|done].
Qed.

Lemma tagged_inv w have w' :
  current_tagged w = (Ok have, w') →
  (∃ lines, listed (length (fw_commands w)) lines ∧ tags_of_lines lines = Ok have) ∧
  fw_commands w' = fw_commands w ++ [save_command].
Proof.
  unfold current_tagged. intros (lines & w1 & [Hl Hc]%tagged_lines_inv & [Ht ->]%lift_ok_inv)%bind_ok_inv.
  eauto.
Qed.

(** The deletions after the insertions. *)
Lemma removal_trace n want lines have w :
  listed n lines → tags_of_lines lines = Ok have →
  let p := plan_of want have in
  let m := when (nonempty (pl_remove p)) (l ← current_tagged_lines; delete_stale (pl_remove p) l) in
  length (fw_commands w) = S (n + length (inserts p)) →
  ∃ cs, fw_commands (m w).2 = fw_commands w ++ cs ∧
    trace n want (is_ok (m w).1) (save_command :: inserts p ++ cs).
Proof.
  intros Hl Ht p m Hn. subst m. destruct (nonempty (pl_remove p)) eqn:Hne; unfold when.
  2: { exists []. rewrite !app_nil_r. split; [done|].
       rewrite <- (firstn_all (inserts p)). by apply (trace_insert n want lines have). }
  unfold mbind, M_bind. destruct (current_tagged_lines w) as [[l2|e] w1] eqn:Hc.
  - apply tagged_lines_inv in Hc as [Hl2 Hc1]. rewrite Hn in Hl2.
    destruct (runs_delete (pl_remove p) l2 w1) as (_ & k & Hk & Hfull).
    exists (save_command :: take k (flat_map (delete_of (pl_remove p)) l2)).
    cbv beta iota. split; [by rewrite Hk, Hc1, <- app_assoc|]. by apply (trace_delete n want lines have).
  - destruct (runs_tagged_lines w) as (_ & k & Hk & _). rewrite Hc in Hk. simpl in Hk.
    exists [save_command]. split; [|by apply (trace_relisting n want lines have)].
    simpl. unfold current_tagged_lines, run, mbind, M_bind in Hc.
    destruct (run_ipt _ _) as [[? ?]|?]; [done|]. by injection Hc as _ <-.
Qed.

Lemma tagged_raises w e w' :
  current_tagged w = (Raise e, w') → fw_commands w' = fw_commands w ++ [save_command].
Proof.
  unfold current_tagged, current_tagged_lines, run, mbind, M_bind, lift. simpl.
  destruct (run_ipt _ _) as [[rc out]|?]; simpl; [|by intros [= _ <-]].
  destruct (tags_of_lines _); [done|]. by intros [= _ <-].
Qed.

(** What a reconciliation may have run, however it ends. *)
Lemma reconcile_trace apply w desired s1 :
  desired_rules (fw_store w) = (Ok desired, s1) →
  let n := length (fw_commands w) in
  ∃ cs, fw_commands (reconcile apply w).2 = fw_commands w ++ cs ∧
    if apply then trace n (wanted desired) (is_ok (reconcile apply w).1) cs
    else cs = [save_command].
Proof.
  intros Hd n. unfold reconcile.
  assert (Hd' : fw_on_store desired_rules w = (Ok desired, mkFw s1 (fw_commands w)))
    by (unfold fw_on_store, zoom; by rewrite Hd).
  rewrite (bind_ok _ _ _ _ _ Hd'). set (w0 := mkFw s1 (fw_commands w)).
  destruct (current_tagged w0) as [[have|e] w1] eqn:Ht.
  2: { rewrite (bind_raise _ _ _ _ _ Ht). apply tagged_raises in Ht. exists [save_command].
       split; [done|]. destruct apply; [constructor|done]. }
  rewrite (bind_ok _ _ _ _ _ Ht). apply tagged_inv in Ht as [(lines & Hl & Ht) Hc1].
  set (p := plan_of (wanted desired) have). destruct apply; cbn [negb]; [|by exists [save_command]].
  change (fw_commands w0) with (fw_commands w) in Hl, Hc1.
  pose proof (runs_bind _ _ _ _ (runs_for_each (List.filter is_backstop (pl_add p)) _ _ runs_insert)
    (λ _ _ _, runs_for_each (List.filter (λ r, negb (is_backstop r)) (pl_add p)) _ _ runs_insert))
    as Hins. rewrite <- map_app in Hins. fold (inserts p) in Hins.
  rewrite bind_assoc. destruct (Hins w1) as (_ & k & Hk & Hfull). clear Hins.
  set (m := _ ≫= _) in Hk, Hfull |- *. destruct (m w1) as [[u|e] w2] eqn:Hm.
  2: { rewrite (bind_raise _ _ _ _ _ Hm). simpl in Hk. exists (save_command :: take k (inserts p)).
       cbn [fst snd]. rewrite Hk, Hc1, <- app_assoc. split; [done|]. by apply (trace_insert n _ lines have). }
  rewrite (bind_ok _ _ _ _ _ Hm). cbn [fst snd] in Hk, Hfull. specialize (Hfull eq_refl).
  rewrite take_ge in Hk by done.
  destruct (removal_trace n (wanted desired) lines have w2 Hl Ht) as (cs & Hcs & Htr).
  { rewrite Hk, Hc1, !length_app. subst n. cbn [length]. fold p. lia. }
  fold p in Hcs, Htr. set (m2 := when _ _) in Hcs, Htr |- *.
  destruct (m2 w2) as [[u'|e] w3] eqn:Hm2;
    [rewrite (bind_ok _ _ _ _ _ Hm2)|rewrite (bind_raise _ _ _ _ _ Hm2)];
    cbn [fst snd is_ok] in *;
    (exists (save_command :: inserts p ++ cs); split; [|exact Htr]).
  all: simpl; rewrite Hcs, Hk, Hc1, <- !app_assoc; done.
Qed.
End commands.

(** ** The packet filter *)
Inductive verdict := Accept | Drop.

(** A UDP packet: its source address and destination port. *)
Record packet := mkPacket { pk_src : string; pk_port : Z }.

Definition in_remote_range (pk : packet) : bool :=
  (REMOTE_PORT_MIN <=? pk_port pk) && (pk_port pk <=? REMOTE_RTP_LAST).

(** [iptables] on a chain [C]: [-I] inserts the rule at the top, in the normal form
    [iptables-save] prints; [-D] deletes the first rule with these arguments; listing
    changes nothing; a rule [-s host/32 -p udp --dport port -j ACCEPT] and the backstop
    range match the packets they name. *)
Class Filter (C : Type) := {
  exec : list string → C → C;
  rules : C → list (list string);                  (* of the INPUT chain, top first *)
  norm : list string → list string;
  matches : list string → packet → option verdict;
  exec_save c : exec save_command c = c;
  exec_insert a c : rules (exec (["iptables"; "-I"; CHAIN; "1"]%string ++ a) c) = norm a :: rules c;
  exec_delete l1 a l2 c : rules c = l1 ++ a :: l2 → a ∉ l1 →
    rules (exec (["iptables"; "-D"; CHAIN]%string ++ a) c) = l1 ++ l2;
  norm_comment a : comment_word (norm a) = comment_word a;
  match_accept host bid port pk :
    matches (norm (rule_args (accept_rule host bid port))) pk
    = if String.eqb (pk_src pk) host && (pk_port pk =? port) then Some Accept else None;
  match_backstop pk :
    matches (norm (rule_args backstop_rule)) pk
    = if in_remote_range pk then Some Drop else None;
}.

(** The tag of a rule of the chain. *)
Definition arg_tag (a : list string) : option string :=
  match comment_word a with
  | Ok (Some t) => if startswith t (TAG ++ ":")%string then Some t else None
  | _ => None
  end.

Definition has_tag (a : list string) : bool := match arg_tag a with Some _ => true | None => false end.

Section filter.
Context {R : Runner} {C : Type} {F : Filter C}.

Definition exec_all (cs : list (list string)) (c : C) : C := fold_left (λ c cmd, exec cmd c) cs c.

(** The first rule that matches decides; [None] is the fate below the listed rules. *)
Fixpoint first_match (rs : list (list string)) (pk : packet) : option verdict :=
  match rs with
  | [] => None
  | a :: rs' => match matches a pk with Some v => Some v | None => first_match rs' pk end
  end.

Definition verdict_on (c : C) (pk : packet) : option verdict := first_match (rules c) pk.

(** The lines are those [iptables-save] prints for the tagged rules of the chain. *)
Definition listing (lines : list string) (c : C) : Prop :=
  map shlex_split lines = map (λ a, Some ("-A"%string :: CHAIN :: a)) (List.filter has_tag (rules c)).

Definition wanted_packet (desired : list Rule) (pk : packet) : Prop :=
  ∃ r, r ∈ desired ∧ matches (norm (rule_args r)) pk = Some Accept.

Definition accepts_only (a : list string) : Prop := ∀ pk, matches a pk ≠ Some Drop.

Definition back : list string := norm (rule_args backstop_rule).

(** The tagged accepts above the backstop, the rest of the chain below it. *)
Definition layout (c : C) (acc rest : list (list string)) : Prop :=
  rules c = acc ++ back :: rest ∧
  Forall (λ a, accepts_only a ∧ ∃ t, arg_tag a = Some t ∧ t ≠ tag_of backstop_rule) acc ∧
  Forall (λ a, arg_tag a = None) rest.

(** The installed rules match what their tag stands for today. *)
Definition up_to_date (desired : list Rule) (acc : list (list string)) : Prop :=
  ∀ a r, a ∈ acc → r ∈ desired → arg_tag a = Some (tag_of r) →
    ∀ pk, matches a pk = matches (norm (rule_args r)) pk.

(** *** Verdicts of a laid out chain *)
Lemma layout_verdict c acc rest pk :
  layout c acc rest → in_remote_range pk = true →
  (verdict_on c pk = Some Accept ∧ ∃ a, a ∈ acc ∧ matches a pk = Some Accept) ∨
  (verdict_on c pk = Some Drop ∧ ∀ a, a ∈ acc → matches a pk = None).
Proof.
  unfold verdict_on, layout. intros (-> & Hacc & _) Hpk.
  induction acc as [|a acc IH]; simpl.
  - unfold back. rewrite match_backstop, Hpk. right. set_solver.
  - apply Forall_cons in Hacc as [[Ha _] Hacc]. specialize (Ha pk).
    destruct (matches a pk) as [[]|] eqn:Hm; [left|done|].
    + split; [done|]. exists a. split; [by left|done].
    + destruct (IH Hacc) as [(? & a' & ? & ?)|[? H]]; [left|right].
      * split; [done|]. exists a'. split; [by right|done].
      * split; [done|]. intros a' [->|]%elem_of_cons; auto.
Qed.

(** *** The tags of a listing *)
Lemma comment_word_app l1 l2 :
  "--comment"%string ∉ l1 → comment_word (l1 ++ l2) = comment_word l2.
Proof.
  induction l1 as [|x l1 IH]; intros H; [done|]. simpl.
  destruct (String.eqb_spec x "--comment") as [->|]; [set_solver|]. apply IH. set_solver.
Qed.

Lemma tag_of_listed ln a :
  shlex_split ln = Some ("-A"%string :: CHAIN :: a) → has_tag a = true →
  tag_of_line ln = Ok (arg_tag a).
Proof.
  intros Hs Ht. unfold tag_of_line. rewrite Hs. unfold has_tag, arg_tag in *.
  change ("-A"%string :: CHAIN :: a) with (["-A"%string; CHAIN] ++ a).
  rewrite comment_word_app by (unfold CHAIN; set_solver). by destruct (comment_word a) as [[t|]|].
Qed.

Lemma tags_of_listing lines rs :
  map shlex_split lines = map (λ a, Some ("-A"%string :: CHAIN :: a)) (List.filter has_tag rs) →
  tags_of_lines lines = Ok (omap arg_tag rs).
Proof.
  revert lines. induction rs as [|a rs IH]; intros lines Hl; [by destruct lines|].
  simpl in Hl. unfold has_tag in Hl at 1. cbn [omap list_omap].
  destruct (arg_tag a) as [t|] eqn:Ht; [|exact (IH lines Hl)].
  destruct lines as [|ln lines]; [done|]. injection Hl as Hln Hl. cbn [tags_of_lines].
  rewrite (tag_of_listed ln a Hln) by (unfold has_tag; by rewrite Ht).
  cbn [mbind res_bind]. rewrite (IH lines Hl). cbn [mbind res_bind]. rewrite Ht.
  assert (Hne : t ≠ EmptyString).
  { unfold arg_tag in Ht. destruct (comment_word a) as [[c|]|]; try done.
    destruct (startswith c _) eqn:Hc; [|done]. injection Ht as <-. by intros ->. }
  by destruct (String.eqb_spec t EmptyString).
Qed.

(** *** The desired rules *)
Definition desired_shape (r : Rule) : Prop :=
  r = backstop_rule ∨ ∃ host bid port, r = accept_rule host bid port.

Lemma accept_rules_shape nodes bs r :
  r ∈ accept_rules nodes bs → ∃ host bid port, r = accept_rule host bid port.
Proof.
  induction bs as [|b bs IH]; simpl; [set_solver|].
  destruct (negb _); [exact IH|]. destruct (dget nodes (b_node_id b)) as [n|]; [|exact IH].
  destruct (String.eqb _ _); [exact IH|].
  rewrite !elem_of_cons. intros [->|[->|H]]; [eauto..|by apply IH].
Qed.

Lemma desired_shapes s desired s1 r :
  desired_rules s = (Ok desired, s1) → r ∈ desired → desired_shape r.
Proof.
  unfold desired_rules.
  intros (nodes & s2 & _ & (bs & s3 & _ & [-> _]%ret_ok_inv)%bind_ok_inv)%bind_ok_inv.
  intros [H%accept_rules_shape|H]%elem_of_app; [by right|left; set_solver].
Qed.

Lemma backstop_desired s desired s1 :
  desired_rules s = (Ok desired, s1) → backstop_rule ∈ desired.
Proof.
  unfold desired_rules.
  intros (nodes & s2 & _ & (bs & s3 & _ & [-> _]%ret_ok_inv)%bind_ok_inv)%bind_ok_inv. set_solver.
Qed.

Lemma accept_not_backstop host bid port : is_backstop (accept_rule host bid port) = false.
Proof.
  unfold is_backstop. apply String.eqb_neq. cbn [ru_comment accept_rule]. intros H.
  apply (f_equal chars) in H. rewrite chars_app, chars_app in H.
  assert (Hin : ":"%char ∈ chars "backstop") by (rewrite <- H; set_solver).
  vm_compute in Hin. set_solver.
Qed.

Lemma desired_accepts r : desired_shape r → is_backstop r = false → accepts_only (norm (rule_args r)).
Proof.
  intros [->|(h & b & p & ->)] Hb; [done|]. intros pk. rewrite match_accept. by destruct (_ && _).
Qed.

Lemma rule_tag r : desired_shape r → arg_tag (norm (rule_args r)) = Some (tag_of r).
Proof.
  intros Hr. unfold arg_tag. rewrite norm_comment.
  assert (Hc : comment_word (rule_args r) = Ok (Some (tag_of r))).
  { unfold rule_args. destruct Hr as [->|(h & b & p & ->)]; [by vm_compute|].
    assert (Hh : (h ++ "/32")%string ≠ "--comment"%string).
    { intros H. apply (f_equal (λ s, last (chars s))) in H. rewrite chars_app, last_app in H. done. }
    assert (Hp : pretty p ≠ "--comment"%string).
    { intros H. pose proof (parse_int_pretty p EmptyString ltac:(constructor)) as Hpp.
      by rewrite H in Hpp. }
    rewrite comment_word_app; [done|]. cbn [ru_spec accept_rule]. set_solver. }
  rewrite Hc. assert (Ht : startswith (tag_of r) (TAG ++ ":")%string = true).
  { apply startswith_spec. exists (ru_comment r). reflexivity. }
  by rewrite Ht.
Qed.

Lemma backstop_tag r : desired_shape r → is_backstop r = true ↔ tag_of r = tag_of backstop_rule.
Proof.
  intros [->|(h & b & p & ->)]; [done|]. rewrite accept_not_backstop. split; [done|].
  intros Ht. exfalso. change (String.append "camnode:" (ru_comment (accept_rule h b p))
            = String.append "camnode:" "backstop") in Ht.
  apply (inj (String.append "camnode:")) in Ht.
  pose proof (accept_not_backstop h b p) as Hn. unfold is_backstop in Hn.
  apply String.eqb_neq in Hn. by apply Hn.
Qed.

(** *** The wanted dictionary and the plan *)
Lemma wanted_eq desired :
  NoDup (map tag_of desired) → wanted desired = map (λ r, (tag_of r, r)) desired.
Proof.
  unfold wanted. enough (H : ∀ d, NoDup (dkeys d ++ map tag_of desired) →
    fold_left (λ d r, dset d (tag_of r) r) desired d = d ++ map (λ r, (tag_of r, r)) desired)
    by (by apply (H [])).
  induction desired as [|r desired IH]; intros d Hnd; simpl; [by rewrite app_nil_r|].
  assert (Hd : dset d (tag_of r) r = d ++ [(tag_of r, r)]).
  { simpl in Hnd. apply NoDup_app in Hnd as (_ & Hk & _).
    clear IH. induction d as [|[k v] d IHd]; [done|]. simpl.
    rewrite decide_False by (intros <-; apply (Hk (tag_of r)); simpl; set_solver).
    f_equal. apply IHd. intros x Hx. apply Hk. simpl. set_solver. }
  rewrite Hd, IH, <- app_assoc; [done|]. unfold dkeys in *. rewrite fmap_app, <- app_assoc. exact Hnd.
Qed.

Lemma wanted_elem desired t r :
  NoDup (map tag_of desired) → (t, r) ∈ wanted desired ↔ r ∈ desired ∧ t = tag_of r.
Proof.
  intros Hnd. rewrite wanted_eq by done.
  etrans; [apply (list_elem_of_fmap (λ r, (tag_of r, r)))|]. naive_solver.
Qed.

Lemma wanted_mem desired t :
  NoDup (map tag_of desired) → dmem (wanted desired) t = true ↔ ∃ r, r ∈ desired ∧ tag_of r = t.
Proof.
  intros Hnd. unfold dmem. split.
  - destruct (dget _ t) as [r|] eqn:Hd; [|done]. apply dget_elem in Hd.
    apply wanted_elem in Hd as [? ->]; [|done]. eauto.
  - intros (r & Hr & <-). rewrite (dget_NoDup _ _ r); [done| |by apply wanted_elem].
    rewrite wanted_eq by done. unfold dkeys. by rewrite <- list_fmap_compose.
Qed.

Lemma smem_elem t l : smem t l = true ↔ t ∈ l.
Proof.
  unfold smem. rewrite existsb_exists. setoid_rewrite <- list_elem_of_In. split.
  - by intros (x & Hx & ->%String.eqb_eq).
  - intros H. exists t. by rewrite String.eqb_refl.
Qed.

Lemma plan_add desired have r :
  NoDup (map tag_of desired) →
  r ∈ pl_add (plan_of (wanted desired) have) ↔ r ∈ desired ∧ tag_of r ∉ have.
Proof.
  intros Hnd. cbn [pl_add plan_of]. rewrite list_elem_of_In, in_map_iff. split.
  - intros ([t r'] & <- & Hin%filter_In). cbn [snd]. destruct Hin as [Hin Hn].
    apply list_elem_of_In, wanted_elem in Hin as [Hr ->]; [|done]. split; [done|].
    apply negb_true_iff in Hn. rewrite <- smem_elem. by rewrite Hn.
  - intros [Hr Hn]. exists (tag_of r, r). split; [done|]. apply filter_In.
    rewrite <- list_elem_of_In, wanted_elem by done. split; [done|].
    apply negb_true_iff, not_true_iff_false. by rewrite smem_elem.
Qed.

Lemma plan_remove desired have t :
  NoDup (map tag_of desired) →
  t ∈ pl_remove (plan_of (wanted desired) have) ↔ t ∈ have ∧ ∀ r, r ∈ desired → tag_of r ≠ t.
Proof.
  intros Hnd. cbn [pl_remove plan_of]. rewrite list_elem_of_In, filter_In.
  rewrite <- list_elem_of_In, elem_of_remove_dups, negb_true_iff, <- not_true_iff_false.
  rewrite wanted_mem by done. naive_solver.
Qed.

(** *** Running the commands on a chain *)
Lemma exec_all_app cs1 cs2 c : exec_all (cs1 ++ cs2) c = exec_all cs2 (exec_all cs1 c).
Proof. apply fold_left_app. Qed.

Lemma exec_inserts rs c :
  rules (exec_all (map insert_command rs) c)
  = rev (map (λ r, norm (rule_args r)) rs) ++ rules c.
Proof.
  revert c. induction rs as [|r rs IH]; intros c; [done|]. simpl.
  rewrite IH. unfold insert_command. rewrite exec_insert, <- app_assoc. done.
Qed.

Definition is_stale (stale : list string) (a : list string) : bool :=
  match arg_tag a with Some t => smem t stale | None => false end.

Definition delete_command (a : list string) : list string := ["iptables"; "-D"; CHAIN]%string ++ a.

Lemma deletes_of_listing stale lines rs :
  map shlex_split lines = map (λ a, Some ("-A"%string :: CHAIN :: a)) (List.filter has_tag rs) →
  flat_map (delete_of stale) lines = map delete_command (List.filter (is_stale stale) rs).
Proof.
  revert lines. induction rs as [|a rs IH]; intros lines Hl; [by destruct lines|].
  simpl in Hl |- *. unfold has_tag in Hl at 1. unfold is_stale at 1.
  destruct (arg_tag a) as [t|] eqn:Ht; [|exact (IH lines Hl)].
  destruct lines as [|ln lines]; [done|]. injection Hl as Hln Hl. cbn [flat_map].
  rewrite (IH lines Hl). unfold delete_of.
  rewrite (tag_of_listed ln a Hln), Hln, Ht by (unfold has_tag; by rewrite Ht).
  by destruct (smem t stale).
Qed.

Lemma filter_cons_split {A} (f : A → bool) l a ds :
  List.filter f l = a :: ds →
  ∃ l1 l2, l = l1 ++ (a :: l2) ∧ (List.filter f l1 = []) ∧ (a ∉ l1) ∧ (f a = true) ∧ (List.filter f l2 = ds).
Proof.
  induction l as [|x l IH]; [done|]. simpl. destruct (f x) eqn:Hx.
  - intros [= -> <-]. exists [], l. split_and!; [done|done|set_solver|done|done].
  - intros (l1 & l2 & -> & Hl1 & Hn & Ha & <-)%IH. exists (x :: l1), l2.
    split_and!; simpl; try done; [by rewrite Hx|]. intros [->|]%elem_of_cons; congruence.
Qed.

Lemma filter_nil_elem {A} (f : A → bool) l a : List.filter f l = [] → a ∈ l → f a = false.
Proof.
  intros Hf Ha. apply not_true_iff_false. intros Ht.
  assert (In a (List.filter f l)) as Hin by (apply filter_In; by rewrite <- list_elem_of_In).
  by rewrite Hf in Hin.
Qed.

(** Deleting the listed stale rules, one after the other. *)
Lemma exec_deletes stale rest k acc c :
  rules c = acc ++ rest →
  let ds := map delete_command (List.filter (is_stale stale) acc) in
  ∃ acc', rules (exec_all (take k ds) c) = acc' ++ rest ∧
    (∀ a, a ∈ acc' → a ∈ acc) ∧
    (∀ a, a ∈ acc → is_stale stale a = false → a ∈ acc') ∧
    ((length ds ≤ k)%nat → ∀ a, a ∈ acc' → is_stale stale a = false).
Proof.
  revert acc c. induction k as [|k IH]; intros acc c Hr ds.
  { exists acc. rewrite take_0. split_and!; try done. intros Hlen a.
    apply filter_nil_elem. subst ds. rewrite length_map in Hlen.
    destruct (List.filter _ _); [done|simpl in Hlen; lia]. }
  destruct (List.filter (is_stale stale) acc) as [|a ds'] eqn:Hf.
  { exists acc. subst ds. split_and!; try done. intros _ a. by apply filter_nil_elem. }
  apply filter_cons_split in Hf as (l1 & l2 & -> & Hl1 & Hn & Ha & Hl2).
  subst ds. cbn [map take exec_all fold_left]. fold (exec_all (take k (map delete_command ds'))
    (exec (delete_command a) c)).
  destruct (IH (l1 ++ l2) (exec (delete_command a) c)) as (acc' & Hr' & Hsub & Hkeep & Hdone).
  { unfold delete_command. rewrite (exec_delete l1 a (l2 ++ rest)); [by rewrite app_assoc| |done].
    by rewrite Hr, <- app_assoc. }
  cbv zeta in Hr', Hdone. rewrite List.filter_app, Hl1, Hl2 in Hr', Hdone. simpl in Hr', Hdone.
  exists acc'. split_and!; [done|set_solver| |].
  - intros x Hx Hs. apply Hkeep; [|done].
    apply elem_of_app in Hx as [?|[->|?]%elem_of_cons]; [set_solver|congruence|set_solver].
  - intros Hlen. apply Hdone. simpl in Hlen. lia.
Qed.

(** A first part of the commands of a trace is one again. *)
Lemma trace_take n want b cs j :
  trace n want b cs → take j cs = [] ∨ trace n want false (take j cs).
Proof.
  intros Ht. destruct j as [|j]; [by left|right]. destruct Ht; cbn [take].
  - rewrite take_nil. constructor.
  - rewrite take_take. by apply (trace_insert n want lines have).
  - destruct (decide (j ≤ length (inserts p)))%nat as [Hle|Hlt].
    + rewrite take_app_le by done. by apply (trace_insert n want lines have).
    + rewrite take_app, (take_ge (inserts p)) by lia.
      destruct (j - length (inserts p))%nat as [|j'] eqn:Hj; [lia|]. cbn [take]. rewrite take_take.
      by apply (trace_delete n want lines have lines2).
  - destruct (decide (j ≤ length (inserts p)))%nat as [Hle|Hlt].
    + rewrite take_app_le by done. by apply (trace_insert n want lines have).
    + rewrite take_app, (take_ge (inserts p)) by lia.
      destruct (j - length (inserts p))%nat as [|j'] eqn:Hj; [lia|]. cbn [take]. rewrite take_nil.
      by apply (trace_relisting n want lines have).
Qed.

(** *** The chain after any part of a reconciliation *)
Section run.
Context (desired : list Rule) (Hshape : ∀ r, r ∈ desired → desired_shape r).
Context (Hnd : NoDup (map tag_of desired)) (Hback : backstop_rule ∈ desired).

(** The rules a reconciliation of a chain with the tags [have] adds. *)
Definition added (have : list string) (a : list string) : Prop :=
  ∃ r, r ∈ desired ∧ is_backstop r = false ∧ (tag_of r ∉ have) ∧ a = norm (rule_args r).

Definition kept (a : list string) : Prop := ∃ r, r ∈ desired ∧ arg_tag a = Some (tag_of r).

(** Which accepts stand above the backstop after a part of the commands. *)
Definition midway (have : list string) (acc acc' : list (list string)) (complete : bool) : Prop :=
  (∀ a, a ∈ acc' → a ∈ acc ∨ added have a) ∧
  (∀ a, a ∈ acc → kept a → a ∈ acc') ∧
  ((∀ a, a ∈ acc → a ∈ acc') ∨ (∀ a, added have a → a ∈ acc')) ∧
  (complete = true → (∀ a, added have a → a ∈ acc') ∧ (∀ a, a ∈ acc' → kept a)).

Lemma added_kept have a : added have a → kept a ∧ accepts_only a ∧
  ∃ t, arg_tag a = Some t ∧ t ≠ tag_of backstop_rule.
Proof.
  intros (r & Hr & Hb & _ & ->). pose proof (rule_tag r (Hshape r Hr)) as Ht. split_and!.
  - by exists r.
  - by apply desired_accepts; [apply Hshape|].
  - exists (tag_of r). split; [done|]. intros Heq. apply (backstop_tag r (Hshape r Hr)) in Heq. congruence.
Qed.

Lemma inserted_elem have a :
  tag_of backstop_rule ∈ have →
  a ∈ map (λ r, norm (rule_args r)) (List.filter (λ r, negb (is_backstop r))
        (pl_add (plan_of (wanted desired) have))) ↔ added have a.
Proof.
  intros Hb. rewrite list_elem_of_In, in_map_iff. setoid_rewrite filter_In.
  setoid_rewrite <- list_elem_of_In. setoid_rewrite plan_add; [|done]. setoid_rewrite negb_true_iff.
  unfold added. naive_solver.
Qed.

Lemma no_backstop_added have :
  tag_of backstop_rule ∈ have →
  List.filter is_backstop (pl_add (plan_of (wanted desired) have)) = [].
Proof.
  intros Hb. destruct (List.filter _ _) as [|r l] eqn:Hf; [done|].
  assert (Hin : In r (List.filter is_backstop (pl_add (plan_of (wanted desired) have))))
    by (rewrite Hf; by left).
  apply filter_In in Hin as [Hin Hr]. apply list_elem_of_In, plan_add in Hin as [Hd Hn]; [|done].
  apply (backstop_tag r (Hshape r Hd)) in Hr. by rewrite Hr in Hn.
Qed.

(** The tags of a laid out chain. *)
Lemma layout_tags c acc rest :
  layout c acc rest → ∀ t, t ∈ omap arg_tag (rules c) ↔
    t = tag_of backstop_rule ∨ ∃ a, a ∈ acc ∧ arg_tag a = Some t.
Proof.
  intros (-> & Hacc & Hrest) t. rewrite list_elem_of_omap. split.
  - intros (a & [Ha|[->|Ha]%elem_of_cons]%elem_of_app & Ht); [right; eauto| |].
    + left. unfold back in Ht. rewrite (rule_tag backstop_rule ltac:(by left)) in Ht. congruence.
    + rewrite Forall_forall in Hrest. apply Hrest in Ha. congruence.
  - intros [->|(a & Ha & Ht)]; [|exists a; set_solver]. exists back. split; [set_solver|].
    apply rule_tag. by left.
Qed.

Lemma stale_kept have a t :
  arg_tag a = Some t → t ∈ have →
  is_stale (pl_remove (plan_of (wanted desired) have)) a = false ↔ kept a.
Proof.
  intros Ht Hh. unfold is_stale, kept. rewrite Ht, <- not_true_iff_false, smem_elem.
  rewrite plan_remove by done. split.
  - intros Hn. destruct (decide (Exists (λ r, tag_of r = t) desired)) as [Hex|Hnex].
    + apply Exists_exists in Hex as (r & ? & <-). eauto.
    + exfalso. apply Hn. split; [done|]. intros r Hr Heq. apply Hnex, Exists_exists. eauto.
  - intros (r & Hr & [= ->]) [_ Hno]. by eapply Hno.
Qed.

Lemma kept_not_stale have a :
  kept a → is_stale (pl_remove (plan_of (wanted desired) have)) a = false.
Proof.
  intros (r & Hr & Ht). unfold is_stale. rewrite Ht, <- not_true_iff_false, smem_elem.
  rewrite plan_remove by done. intros [_ Hno]. by eapply Hno.
Qed.

Lemma below_not_stale have rest :
  Forall (λ a, arg_tag a = None) rest →
  List.filter (is_stale (pl_remove (plan_of (wanted desired) have))) (back :: rest) = [].
Proof.
  intros Hrest. cbn [List.filter]. rewrite (kept_not_stale have back).
  2: { exists backstop_rule. split; [done|]. apply rule_tag. by left. }
  induction Hrest as [|a rest Ha Hrest IH]; [done|]. cbn [List.filter].
  unfold is_stale at 1. rewrite Ha. exact IH.
Qed.

(** The listings of the run show the chain as it is at that moment. *)
Definition consistent (n : nat) (cs : list (list string)) (c : C) : Prop :=
  ∀ k lines, cs !! k = Some save_command → listed (n + k) lines →
    listing lines (exec_all (take k cs) c).

(** The accepts of a chain that already holds [have], in the order of insertion. *)
Definition additions (have : list string) : list (list string) :=
  rev (map (λ r, norm (rule_args r)) (List.filter (λ r, negb (is_backstop r))
        (pl_add (plan_of (wanted desired) have)))).

Lemma inserts_take have k c :
  tag_of backstop_rule ∈ have →
  ∃ new, rules (exec_all (save_command :: take k (inserts (plan_of (wanted desired) have))) c)
         = new ++ rules c ∧
    (∀ a, a ∈ new → added have a) ∧
    ((length (inserts (plan_of (wanted desired) have)) ≤ k)%nat → ∀ a, added have a → a ∈ new).
Proof.
  intros Hb. unfold inserts. rewrite (no_backstop_added have Hb). cbn [app].
  set (L := List.filter (λ r, negb (is_backstop r)) _).
  exists (rev (map (λ r, norm (rule_args r)) (take k L))). split_and!.
  - cbn [exec_all fold_left]. rewrite exec_save. fold (exec_all (take k (map insert_command L)) c).
    by rewrite firstn_map, exec_inserts.
  - intros a. rewrite list_elem_of_In, <- in_rev, <- list_elem_of_In. intros Ha.
    apply (inserted_elem have a Hb). fold L. rewrite <- (firstn_skipn k L), map_app.
    apply elem_of_app. by left.
  - rewrite length_map. intros Hk a Ha. rewrite take_ge by done.
    rewrite list_elem_of_In, <- in_rev, <- list_elem_of_In. by apply (inserted_elem have a Hb).
Qed.

Lemma first_listing n cs c lines have :
  consistent n (save_command :: cs) c → listed n lines → tags_of_lines lines = Ok have →
  have = omap arg_tag (rules c).
Proof.
  intros Hcons Hl Ht. specialize (Hcons O lines eq_refl). rewrite Nat.add_0_r in Hcons.
  specialize (Hcons Hl). apply tags_of_listing in Hcons. cbn [take exec_all fold_left] in Hcons.
  rewrite Hcons in Ht. by injection Ht.
Qed.

Lemma chain_inserting n cs acc rest c0 lines have k complete :
  layout c0 acc rest → consistent n (save_command :: cs) c0 →
  listed n lines → tags_of_lines lines = Ok have →
  (complete = true → (length (inserts (plan_of (wanted desired) have)) ≤ k)%nat ∧
     nonempty (pl_remove (plan_of (wanted desired) have)) = false) →
  ∃ acc', rules (exec_all (save_command :: take k (inserts (plan_of (wanted desired) have))) c0)
          = acc' ++ back :: rest ∧ midway (omap arg_tag (rules c0)) acc acc' complete.
Proof.
  intros Hlay Hcons Hl Ht Hc. assert (Hh := first_listing _ _ _ _ _ Hcons Hl Ht). rewrite <- Hh.
  assert (Htags := layout_tags _ _ _ Hlay). rewrite <- Hh in Htags.
  destruct (inserts_take have k c0) as (new & Hr & Hnew & Hall); [apply Htags; by left|].
  exists (new ++ acc). rewrite Hr. destruct Hlay as (-> & Hacc & _). rewrite app_assoc. split; [done|].
  split_and!; [set_solver..|]. intros Hcomp. destruct (Hc Hcomp) as [Hk Hne]. split; [set_solver|].
  intros a [Ha|Ha]%elem_of_app; [by apply (added_kept have), Hnew|].
  rewrite Forall_forall in Hacc. destruct (Hacc a Ha) as (_ & t & Hat & _).
  apply (stale_kept have a t Hat); [apply Htags; right; eauto|].
  unfold is_stale. rewrite Hat. by destruct (pl_remove _).
Qed.

Lemma chain_deleting n acc rest c0 lines have lines2 k complete :
  layout c0 acc rest → 
  let p := plan_of (wanted desired) have in
  let deletes := flat_map (delete_of (pl_remove p)) lines2 in
  let cs := save_command :: inserts p ++ save_command :: take k deletes in
  consistent n cs c0 → listed n lines → tags_of_lines lines = Ok have →
  listed (S (n + length (inserts p))) lines2 →
  (complete = true → (length deletes ≤ k)%nat) →
  ∃ acc', rules (exec_all cs c0) = acc' ++ back :: rest ∧
          midway (omap arg_tag (rules c0)) acc acc' complete.
Proof.
  intros Hlay p deletes cs Hcons Hl Ht Hl2 Hc. subst cs.
  assert (Hh := first_listing _ _ _ _ _ Hcons Hl Ht).
  assert (Htags := layout_tags _ _ _ Hlay). rewrite <- Hh in Htags |- *.
  specialize (Hcons (S (length (inserts p))) lines2).
  specialize (Hcons (list_lookup_middle (save_command :: inserts p) _ _ _ eq_refl)).
  rewrite Nat.add_succ_r in Hcons. specialize (Hcons Hl2). cbn [take] in Hcons.
  rewrite take_app_length in Hcons.
  destruct (inserts_take have (length (inserts p)) c0) as (new & Hr & Hnew & Hall);
    [apply Htags; by left|]. fold p in Hr. rewrite firstn_all in Hr.
  destruct Hlay as (Hr0 & Hacc & Hrest). rewrite Hr0, app_assoc in Hr.
  assert (Hfil := below_not_stale have rest Hrest). fold p in Hfil.
  unfold listing in Hcons. rewrite Hr in Hcons. apply (deletes_of_listing (pl_remove p)) in Hcons.
  rewrite List.filter_app, Hfil, app_nil_r in Hcons.
  destruct (exec_deletes (pl_remove p) (back :: rest) k (new ++ acc) _ Hr)
    as (acc' & Hr' & Hsub & Hkeep & Hdone). cbv zeta in Hr', Hdone.
  rewrite <- Hcons in Hr', Hdone. fold deletes in Hr', Hdone.
  exists acc'. split.
  { rewrite app_comm_cons, exec_all_app. cbn [exec_all fold_left].
    fold (exec_all (take k deletes)). rewrite exec_save. exact Hr'. }
  assert (Hadd : ∀ a, added have a → a ∈ acc').
  { intros a Ha. apply Hkeep; [apply elem_of_app; left; by apply Hall|].
    apply kept_not_stale. by apply (added_kept have). }
  split_and!.
  - intros a Ha. apply Hsub, elem_of_app in Ha as [?|?]; [right|left]; auto.
  - intros a Ha Hk. apply Hkeep; [set_solver|by apply kept_not_stale].
  - by right.
  - intros Hcomp. specialize (Hdone (Hc Hcomp)). split; [done|]. intros a Ha.
    pose proof (Hdone a Ha) as Hs. apply Hsub, elem_of_app in Ha as [Ha|Ha];
      [by apply (added_kept have), Hnew|].
    rewrite Forall_forall in Hacc. destruct (Hacc a Ha) as (_ & t & Hat & _).
    apply (stale_kept have a t Hat); [apply Htags; right; eauto|done].
Qed.

Lemma chain_midway n b cs acc rest c0 :
  layout c0 acc rest → trace n (wanted desired) b cs → consistent n cs c0 →
  ∃ acc', rules (exec_all cs c0) = acc' ++ back :: rest ∧
          midway (omap arg_tag (rules c0)) acc acc' b.
Proof.
  intros Hlay Htr Hcons. destruct Htr as [|lines have k complete Hl Ht p Hc
    |lines have lines2 k complete Hl Ht p deletes Hl2 Hne Hc|lines have Hl Ht p].
  - exists acc. cbn [exec_all fold_left]. rewrite exec_save. destruct Hlay as (-> & _).
    split; [done|]. split_and!; set_solver.
  - by eapply chain_inserting.
  - by eapply chain_deleting.
  - pose proof (chain_inserting n _ acc rest c0 lines have (length (inserts p)) false Hlay Hcons Hl Ht
                  ltac:(done)) as (acc' & Hr & Hm).
    fold p in Hr. rewrite firstn_all in Hr. exists acc'. split; [|done].
    rewrite app_comm_cons, exec_all_app. cbn [exec_all fold_left] in Hr |- *. by rewrite exec_save.
Qed.

(** The verdict of a chain in the middle of a reconciliation. *)
Lemma midway_layout have c c' acc acc' rest complete :
  layout c acc rest → midway have acc acc' complete → rules c' = acc' ++ back :: rest →
  layout c' acc' rest.
Proof.
  intros (_ & Hacc & Hrest) (Hsub & _) Hr. split_and!; [done| |done].
  rewrite Forall_forall in Hacc |- *. intros a [Ha|Ha]%Hsub; [by apply Hacc|].
  by apply (added_kept have) in Ha as (_ & ? & ?).
Qed.

Lemma wanted_installed have acc rest c pk :
  layout c acc rest → up_to_date desired acc → have = omap arg_tag (rules c) →
  wanted_packet desired pk →
  (∃ a, a ∈ acc ∧ kept a ∧ matches a pk = Some Accept) ∨
  (∃ a, added have a ∧ matches a pk = Some Accept).
Proof.
  intros Hlay Hup Hh (r & Hr & Hm). assert (Htags := layout_tags _ _ _ Hlay). rewrite <- Hh in Htags.
  assert (Hb : is_backstop r = false).
  { apply not_true_iff_false. intros Hb. destruct (Hshape r Hr) as [->|(h & b & p & ->)].
    - rewrite match_backstop in Hm. by destruct (in_remote_range pk).
    - by rewrite accept_not_backstop in Hb. }
  destruct (decide (tag_of r ∈ have)) as [Hin|Hout]; [left|right].
  - apply Htags in Hin as [Heq|(a & Ha & Ht)].
    + apply (backstop_tag r (Hshape r Hr)) in Heq. congruence.
    + exists a. split_and!; [done|by exists r|]. by rewrite (Hup a r Ha Hr Ht).
  - exists (norm (rule_args r)). split; [by exists r|done].
Qed.

Lemma installed_wanted have acc a pk :
  up_to_date desired acc → a ∈ acc ∨ added have a → kept a → matches a pk = Some Accept →
  wanted_packet desired pk.
Proof.
  intros Hup [Ha|(r & Hr & _ & _ & ->)] (r' & Hr' & Ht) Hm; [|by exists r].
  exists r'. split; [done|]. by rewrite <- (Hup a r' Ha Hr' Ht).
Qed.

(** The verdicts of a chain midway through a reconciliation: wanted streams that were
    accepted still are, unwanted ones that were dropped still are, and at the end
    exactly the wanted ones are accepted. *)
Lemma midway_verdicts c c' acc acc' rest complete pk :
  layout c acc rest → up_to_date desired acc →
  midway (omap arg_tag (rules c)) acc acc' complete → rules c' = acc' ++ back :: rest →
  in_remote_range pk = true →
  (wanted_packet desired pk → verdict_on c pk = Some Accept → verdict_on c' pk = Some Accept) ∧
  (¬ wanted_packet desired pk → verdict_on c pk = Some Drop → verdict_on c' pk = Some Drop) ∧
  (complete = true →
   (wanted_packet desired pk ∧ verdict_on c' pk = Some Accept) ∨
   (¬ wanted_packet desired pk ∧ verdict_on c' pk = Some Drop)).
Proof.
  intros Hlay Hup Hmid Hr Hpk. pose proof (midway_layout _ _ _ _ _ _ _ Hlay Hmid Hr) as Hlay'.
  destruct Hmid as (Hsub & Hkeep & Hphase & Hdone).
  pose proof (layout_verdict c acc rest pk Hlay Hpk) as Hv.
  pose proof (layout_verdict c' acc' rest pk Hlay' Hpk) as Hv'.
  assert (Hacc : ∀ a, a ∈ acc' → matches a pk = Some Accept → verdict_on c' pk = Some Accept).
  { intros a Ha Hm. destruct Hv' as [[? _]|[_ H]]; [done|]. by rewrite (H a Ha) in Hm. }
  split_and!.
  - intros Hw Hva. destruct (wanted_installed _ _ _ _ _ Hlay Hup eq_refl Hw)
      as [(a & Ha & Hk & Hm)|(a & Ha & Hm)]; [by apply (Hacc a); [apply Hkeep|]|].
    destruct Hphase as [Hall|Hall]; [|by apply (Hacc a); [apply Hall|]].
    destruct Hv as [(_ & x & Hx & Hxm)|[? _]]; [|congruence]. apply (Hacc x); [by apply Hall|done].
  - intros Hw Hvd. destruct Hv' as [(_ & a & Ha & Hm)|[? _]]; [exfalso|done].
    destruct (Hsub a Ha) as [Hin|Hadd].
    + destruct Hv as [[? _]|[_ H]]; [congruence|]. by rewrite (H a Hin) in Hm.
    + destruct Hadd as (r & Hrd & _ & _ & ->). apply Hw. by exists r.
  - intros Hcomp. destruct (Hdone Hcomp) as [Hall Hkept].
    destruct Hv' as [(? & a & Ha & Hm)|[? Hno]]; [left|right]; (split; [|done]).
    + apply (installed_wanted (omap arg_tag (rules c)) acc a); auto.
    + intros Hw. destruct (wanted_installed _ _ _ _ _ Hlay Hup eq_refl Hw)
        as [(a & Ha & Hk & Hm)|(a & Ha & Hm)].
      * rewrite (Hno a) in Hm by auto. done.
      * rewrite (Hno a) in Hm by auto. done.
Qed.
End run.

(** C22. Reconciling a firewall whose backstop is in place opens no drop window and no hole:
    at every moment of the run, however it ends, a stream of the store that was accepted
    still is and a packet of the remote range that no stored binding wants and that was
    dropped still is; a run that returns leaves exactly the stored bindings' packets
    accepted and drops the rest of the range. *)
Theorem firewall_no_drop_window w desired s1 c acc rest cs :
  desired_rules (fw_store w) = (Ok desired, s1) → NoDup (map tag_of desired) →
  layout c acc rest → up_to_date desired acc →
  fw_commands (reconcile true w).2 = fw_commands w ++ cs →
  consistent (length (fw_commands w)) cs c →
  ∀ pk, in_remote_range pk = true →
    (∀ k, let c' := exec_all (take k cs) c in
       (wanted_packet desired pk → verdict_on c pk = Some Accept → verdict_on c' pk = Some Accept) ∧
       (¬ wanted_packet desired pk → verdict_on c pk = Some Drop → verdict_on c' pk = Some Drop)) ∧
    (is_ok (reconcile true w).1 = true →
       (wanted_packet desired pk ∧ verdict_on (exec_all cs c) pk = Some Accept) ∨
       (¬ wanted_packet desired pk ∧ verdict_on (exec_all cs c) pk = Some Drop)).
Proof.
  intros Hd Hnd Hlay Hup Hcs Hcons pk Hpk.
  assert (Hshape := λ r, desired_shapes _ _ _ r Hd). assert (Hback := backstop_desired _ _ _ Hd).
  destruct (reconcile_trace true w desired s1 Hd) as (cs' & Hcs' & Htr).
  rewrite Hcs in Hcs'. apply (inj (app (fw_commands w))) in Hcs' as <-. split.
  - intros k. destruct (trace_take _ _ _ _ k Htr) as [->|Htk]; [done|].
    destruct (chain_midway desired Hshape Hnd Hback _ _ _ _ _ _ Hlay Htk) as (acc' & Hr & Hmid).
    { intros j lines Hj Hl. rewrite lookup_take_Some in Hj. destruct Hj as [Hj Hlt].
      rewrite take_take, Nat.min_l by lia. by apply Hcons. }
    destruct (midway_verdicts desired Hshape Hnd Hback _ _ _ _ _ _ pk Hlay Hup Hmid Hr Hpk) as (? & ? & _).
    done.
  - intros Hok. destruct (chain_midway desired Hshape Hnd Hback _ _ _ _ _ _ Hlay Htr Hcons)
      as (acc' & Hr & Hmid).
    destruct (midway_verdicts desired Hshape Hnd Hback _ _ _ _ _ _ pk Hlay Hup Hmid Hr Hpk) as (_ & _ & H).
    by apply H.
Qed.
End filter.

(** ** Concrete runs *)

(** A chain as the list of its rules. *)
Fixpoint remove_first (a : list string) (c : list (list string)) : list (list string) :=
  match c with
  | [] => []
  | x :: c' => if decide (a = x) then c' else x :: remove_first a c'
  end.

Definition list_exec (cmd : list string) (c : list (list string)) : list (list string) :=
  match cmd with
  | x :: y :: z :: a =>
      if String.eqb y "-I" then tail a :: c
      else if String.eqb y "-D" then remove_first a c else c
  | _ => c
  end.

Definition list_matches (a : list string) (pk : packet) : option verdict :=
  if bool_decide (take 8 a = ru_spec (accept_rule (pk_src pk) EmptyString (pk_port pk)))
  then Some Accept
  else if bool_decide (take 6 a = ru_spec backstop_rule) && in_remote_range pk then Some Drop
  else None.

Lemma suffix_inj (s s1 s2 : string) : (s1 ++ s = s2 ++ s)%string → s1 = s2.
Proof.
  intros H. apply (f_equal chars) in H. rewrite !chars_app in H.
  apply app_inv_tail in H. by apply (inj chars).
Qed.

#[local] Obligation Tactic := try done.

#[export, program] Instance list_filter : Filter (list (list string)) := {|
  exec := list_exec; rules c := c; norm a := a; matches := list_matches;
|}.
Next Obligation.
  intros l1 a l2 c Hc Hn. change (remove_first a c = l1 ++ l2).
  change (c = l1 ++ a :: l2) in Hc. subst c.
  induction l1 as [|x l1 IH]; cbn [remove_first app]; [by rewrite decide_True|].
  rewrite decide_False by set_solver. f_equal. apply IH. set_solver.
Qed.
Next Obligation.
  intros host bid port pk. unfold list_matches. cbn [rule_args ru_spec accept_rule app take].
  destruct (String.eqb_spec (pk_src pk) host) as [<-|Hne]; cbn [andb].
  2: { rewrite bool_decide_eq_false_2 by (by intros [= H%suffix_inj _]).
       by rewrite bool_decide_eq_false_2. }
  destruct (Z.eqb_spec (pk_port pk) port) as [<-|Hne]; [by rewrite bool_decide_eq_true_2|].
  rewrite bool_decide_eq_false_2 by (by intros [= H%(inj pretty)]).
  by rewrite bool_decide_eq_false_2.
Qed.
(** [iptables-save] of the chain, one rule a line. *)
Definition print_rules (c : list (list string)) : string :=
  String.concat EmptyString
    (map (λ a, ("-A INPUT " ++ String.concat " " a ++ String "010" EmptyString)%string) c).

(** The binary answers from the chain the commands have produced so far; [c n] is the
    chain before the [n]-th command. *)
Definition answers (c : nat → list (list string)) : Runner :=
  {| run_ipt n argv := Ok (0, print_rules (c n)) |}.

Lemma answers_listing (c : list (list string)) :
  map shlex_split (List.filter is_tagged_line (splitlines (print_rules c)))
  = map (λ a, Some ("-A"%string :: CHAIN :: a)) (List.filter has_tag c) →
  listing (List.filter is_tagged_line (splitlines (print_rules c))) c.
Proof. done. Qed.

Definition node_host : string := "192.168.10.55".
Definition accept_args (bid : string) (port : Z) : list string := rule_args (accept_rule node_host bid port).
Lemma accept_args_only bid port : accepts_only (accept_args bid port).
Proof.
  intros q Hq. pose proof (match_accept (C:=list (list string)) node_host bid port q) as Hm.
  change (matches (accept_args bid port) q = if String.eqb (pk_src q) node_host && (pk_port q =? port)
                                             then Some Accept else None) in Hm.
  rewrite Hq in Hm. by destruct (_ && _).
Qed.

Definition drop_all : list string := ["-j"; "DROP"]%string.

(** A chain whose first accept still has the binding's old name. *)
Definition renamed_chain : list (list string) :=
  [accept_args "old:color" 5100; rule_args backstop_rule; drop_all].

Definition renamed_runner : Runner :=
  answers (λ n, match n with
                | O => renamed_chain
                | _ => accept_args "node-0:color" 5101 :: accept_args "node-0:color" 5100 :: renamed_chain
                end).

Definition bound_firewall : Fw := mkFw bound_store [].
Definition rename_run : res Plan * Fw := reconcile (R:=renamed_runner) true bound_firewall.
Definition rename_commands : list (list string) := fw_commands rename_run.2.

Definition rtp_packet : packet := mkPacket node_host 5100.

Definition bound_desired : list Rule :=
  [accept_rule node_host "node-0:color" 5100; accept_rule node_host "node-0:color" 5101; backstop_rule].

Lemma bound_desired_ok : ∃ s1, desired_rules bound_store = (Ok bound_desired, s1).
Proof. eexists. vm_compute. reflexivity. Qed.

Lemma firewall_no_drop_window_witness :
  is_ok rename_run.1 = true ∧
  (∀ k, verdict_on (exec_all (take k rename_commands) renamed_chain) rtp_packet = Some Accept) ∧
  verdict_on (exec_all rename_commands renamed_chain) (mkPacket "192.168.10.66" 5100) = Some Drop.
Proof.
  destruct bound_desired_ok as [s1 Hd].
  assert (Hnd : NoDup (map tag_of bound_desired)) by (apply (bool_decide_unpack _); vm_compute; exact I).
  assert (Hlay : layout renamed_chain [accept_args "old:color" 5100] [drop_all]).
  { split_and!; [reflexivity| |by apply Forall_singleton].
    apply Forall_singleton. split; [apply accept_args_only|].
    eexists. split; [vm_compute; reflexivity|done]. }
  assert (Hup : up_to_date (C:=list (list string)) bound_desired [accept_args "old:color" 5100]).
  { intros a r ->%list_elem_of_singleton Hr Ht.
    apply elem_of_cons in Hr as [->|[->|Hr%list_elem_of_singleton]%elem_of_cons]; [..|subst r];
      vm_compute in Ht; discriminate Ht. }
  assert (Hcons : consistent (R:=renamed_runner) 0 rename_commands renamed_chain).
  { intros k lines Hk (rc & out & [= <- <-] & ->). unfold listing.
    do 5 (destruct k as [|k]; [first [vm_compute in Hk; discriminate Hk|vm_compute; reflexivity]|]).
    vm_compute in Hk. discriminate Hk. }
  pose proof (firewall_no_drop_window (R:=renamed_runner) bound_firewall bound_desired s1
    renamed_chain _ _ rename_commands Hd Hnd Hlay Hup eq_refl Hcons) as Hw.
  assert (Hwant : wanted_packet (C:=list (list string)) bound_desired rtp_packet).
  { exists (accept_rule node_host "node-0:color" 5100). split; [by left|vm_compute; reflexivity]. }
  split_and!; [vm_compute; reflexivity| |].
  - intros k. destruct (Hw rtp_packet eq_refl) as [Hk _]. apply (Hk k); [done|vm_compute; reflexivity].
  - destruct (Hw (mkPacket "192.168.10.66" 5100) eq_refl) as [_ Hend].
    destruct Hend as [[_ Hv]|[_ Hv]]; [vm_compute; reflexivity|vm_compute in Hv; discriminate Hv|done].
Defined.

(** A backstop found missing is inserted at the top, above the accepts that are already in
    place and are not inserted again: the streams stay blocked, and the next
    reconciliation sees nothing to do. *)
Definition backstop_lost : list (list string) :=
  [accept_args "node-0:color" 5101; accept_args "node-0:color" 5100; drop_all].

Lemma lost_backstop_blocks_streams :
  let run := reconcile (R:=answers (λ _, backstop_lost)) true bound_firewall in
  let after := exec_all (fw_commands run.2) backstop_lost in
  verdict_on backstop_lost rtp_packet = Some Accept ∧
  is_ok run.1 = true ∧ verdict_on after rtp_packet = Some Drop ∧
  (is_noop <$> (reconcile (R:=answers (λ _, after)) true bound_firewall).1) = Ok true.
Proof. vm_compute. split_and!; reflexivity. Qed.

(** A node that moved to another address: its rules keep their tags, so the accepts of the
    old address stay and the new one is never let in. *)
Definition moved_chain : list (list string) :=
  [rule_args (accept_rule "192.168.10.44" "node-0:color" 5101);
   rule_args (accept_rule "192.168.10.44" "node-0:color" 5100); rule_args backstop_rule; drop_all].

Lemma moved_node_not_reconciled :
  (is_noop <$> (reconcile (R:=answers (λ _, moved_chain)) true bound_firewall).1) = Ok true ∧
  verdict_on moved_chain rtp_packet = Some Drop ∧
  verdict_on moved_chain (mkPacket "192.168.10.44" 5100) = Some Accept.
Proof. vm_compute. split_and!; reflexivity. Qed.
