(* ===== verification/Fleet.v ===== *)
(** * The declarative camera fleet ([app/services/fleet.py])

    The manifest of desired hosts and sensors, its validation, the plan that compares it
    with the store, and the registration of missing hosts. The parsed TOML document is
    given as a JSON document; a file that is not TOML is a text that is no document. *)
From S2P Require Import Prelude.
From S2P Require Import PyVal.
From S2P Require Import PyStr.
From S2P Require Import FileStore.
From S2P Require Import BindingModels.
From S2P Require Import TopologyStore.
From S2P Require Import Nodes.
From S2P Require Import Bindings.
From S2P Require Import TopologyCalls.

Definition VALID_SENSORS : list string := ["color"; "depth"; "ir1"; "ir2"]%string.
Definition READY : string := "ready".

Record DesiredNode := mkDesired {
  de_host : string;
  de_display_name : json;
  de_streams : list string;
}.

(** [n in VALID_SENSORS] for an element of a TOML array *)
Definition valid_sensor (s : json) : option string :=
  match s with
  | JStr x => if bool_decide (x ∈ VALID_SENSORS) then Some x else None
  | _ => None
  end.

Fixpoint valid_sensors (l : list json) : option (list string) :=
  match l with
  | [] => Some []
  | s :: l' => x ← valid_sensor s; xs ← valid_sensors l'; Some (x :: xs)
  end.

(** [list(dict.fromkeys(l))]: the first occurrence of each element. *)
Fixpoint dedup (seen l : list string) : list string :=
  match l with
  | [] => []
  | x :: l' => if decide (x ∈ seen) then dedup seen l' else x :: dedup (x :: seen) l'
  end.

(** The loop of [load_manifest]; every [fail EManifest] is a [ManifestError]. *)
Fixpoint load_nodes (seen : list string) (nodes : list json) : res (list DesiredNode) :=
  match nodes with
  | [] => Ok []
  | n :: nodes' =>
      if negb (is_object n) then fail EManifest
      else
        host ← jget n "host" (JStr EmptyString); host ← to_str host;
        let host := py_strip host in
        if String.eqb host EmptyString then fail EManifest
        else if decide (host ∈ seen) then fail EManifest
        else
          streams ← jget n "streams" (JArr []);
          match streams with
          | JArr (s :: l) =>
              match valid_sensors (s :: l) with
              | None => fail EManifest
              | Some xs =>
                  name ← jget n "display_name" JNull;
                  rest ← load_nodes (host :: seen) nodes';
                  Ok (mkDesired host name (dedup [] xs) :: rest)
              end
          | _ => fail EManifest
          end
  end.

Definition load_manifest (c : content) : res (list DesiredNode) :=
  match read_text c with
  | Raise e => if instance_of (ex_kind e) COSError then fail EManifest else Raise e
  | Ok t =>
      match json_loads t with
      | Raise _ => fail EManifest
      | Ok raw =>
          nodes ← jget raw "node" (JArr []);
          match nodes with JArr l => load_nodes [] l | _ => fail EManifest end
      end
  end.

(** ** The plan *)
Record NodePlan := mkNodePlan {
  np_host : string;
  np_desired_streams : list string;
  np_node_id : option string;
  np_registered : bool;
  np_provisioned : bool;
  np_active_streams : list string;
  np_missing_streams : list string;
  np_extra_streams : list string;
  np_actions : list string;
}.

Record FleetPlan := mkFleetPlan { fp_nodes : list NodePlan; fp_extra_nodes : list string }.

Definition is_nil {A} (l : list A) : bool := match l with [] => true | _ => false end.

Definition in_sync (p : FleetPlan) : bool :=
  is_nil (fp_extra_nodes p) && forallb (fun n => is_nil (np_actions n)) (fp_nodes p).

(** [sorted(set(l))] *)
Definition sort_strings (l : list string) : list string :=
  dkeys (sort_items (map (fun s => (s, tt)) (remove_dups l))).

(** The registered remote hosts; of two nodes with one host the later one stands. *)
Definition by_host (nodes : dict NodeEntry) : dict NodeEntry :=
  fold_left (fun d '(_, n) => dset d (n_host n) n)
    (List.filter (fun '(nid, _) => negb (String.eqb nid LOCAL_NODE_ID)) nodes) [].

Definition streams_of (bindings : dict StreamBinding) (node_id : string) : list string :=
  map b_sensor (List.filter (fun b => bool_decide (b_mode b = REMOTE_PRODUCER)
                                      && String.eqb (b_node_id b) node_id) (dvals bindings)).

Definition activate_action (streams : list string) : string :=
  ("activate:" ++ join "," streams)%string.

Definition plan_node (hosts : dict NodeEntry) (bindings : dict StreamBinding) (d : DesiredNode)
    : NodePlan :=
  match dget hosts (de_host d) with
  | None =>
      mkNodePlan (de_host d) (de_streams d) None false false [] (de_streams d) []
        ["register"; "provision"; activate_action (de_streams d)]%string
  | Some node =>
      let provisioned := match n_provision_state node with JStr s => String.eqb s READY | _ => false end in
      let active := sort_strings (streams_of bindings (n_node_id node)) in
      let missing := List.filter (fun s => negb (bool_decide (s ∈ active))) (de_streams d) in
      let extra := List.filter (fun s => negb (bool_decide (s ∈ de_streams d))) active in
      mkNodePlan (de_host d) (de_streams d) (Some (n_node_id node)) true provisioned active missing extra
        ((if provisioned then [] else ["provision"%string])
         ++ match missing with [] => [] | _ => [activate_action missing] end)
  end.

Definition plan_fleet (manifest : list DesiredNode) (nodes : dict NodeEntry)
    (bindings : dict StreamBinding) : FleetPlan :=
  let hosts := by_host nodes in
  mkFleetPlan (map (plan_node hosts bindings) manifest)
    (sort_strings (List.filter (fun h => negb (bool_decide (h ∈ map de_host manifest))) (dkeys hosts))).

Definition plan (manifest : list DesiredNode) : M Store FleetPlan :=
  nodes ← list_nodes;
  bindings ← list_bindings;
  mret (plan_fleet manifest nodes bindings).

(** ** Registration of the missing hosts *)
Section reconcile.
Context `{Entropy} (lan : Lan).

(** A display name reaches the store as a string or not at all. *)
Definition name_arg (j : json) : res (option string) :=
  match j with JNull => Ok None | JStr s => Ok (Some s) | _ => fail EUnmodelled end.

Fixpoint register_loop (existing : list string) (manifest : list DesiredNode) : M Store (list string) :=
  match manifest with
  | [] => mret []
  | d :: rest =>
      if decide (de_host d ∈ existing) then register_loop existing rest
      else
        name ← lift (name_arg (de_display_name d));
        node ← add_node_by_host lan (de_host d) name "remote_producer";
        ids ← register_loop existing rest;
        mret (n_node_id node :: ids)
  end.

Definition reconcile_gateway (manifest : list DesiredNode) : M Store (list string) :=
  nodes ← list_nodes;
  register_loop
    (map n_host (map snd (List.filter (fun '(nid, _) => negb (String.eqb nid LOCAL_NODE_ID)) nodes)))
    manifest.
End reconcile.

(** ** Well-formed manifests *)
Definition well_formed (ds : list DesiredNode) : Prop :=
  NoDup (map de_host ds) ∧
  Forall (λ d, de_host d ≠ EmptyString ∧ py_strip (de_host d) = de_host d ∧
               de_streams d ≠ [] ∧ NoDup (de_streams d) ∧
               ∀ s, s ∈ de_streams d → s ∈ VALID_SENSORS) ds.

Lemma dedup_elem seen l x : x ∈ dedup seen l ↔ x ∈ l ∧ x ∉ seen.
Proof.
  revert seen. induction l as [|y l IH]; intros seen; simpl; [set_solver|].
  case_decide; [rewrite IH; set_solver|]. rewrite elem_of_cons, IH.
  destruct (decide (x = y)); set_solver.
Qed.

Lemma dedup_NoDup seen l : NoDup (dedup seen l).
Proof.
  revert seen. induction l as [|y l IH]; intros seen; simpl; [constructor|].
  case_decide; [done|]. constructor; [|done]. rewrite dedup_elem. set_solver.
Qed.

Lemma valid_sensors_spec l xs s : valid_sensors l = Some xs → s ∈ xs → s ∈ VALID_SENSORS.
Proof.
  revert xs. induction l as [|j l IH]; intros xs; simpl; [intros [= <-]; set_solver|].
  intros (x & Hx & (ys & Hys & [= <-])%bind_Some)%bind_Some [->|Hs]%elem_of_cons; [|by eapply IH].
  destruct j as [| | | |y| |]; try done. simpl in Hx. case_bool_decide; naive_solver.
Qed.

Lemma valid_sensors_nonempty s l xs : valid_sensors (s :: l) = Some xs → xs ≠ [].
Proof. simpl. intros (x & _ & (ys & _ & [= <-])%bind_Some)%bind_Some. done. Qed.

Lemma load_nodes_spec seen l ds :
  load_nodes seen l = Ok ds → well_formed ds ∧ ∀ d, d ∈ ds → de_host d ∉ seen.
Proof.
  revert seen ds. induction l as [|n l IH]; intros seen ds; cbn [load_nodes].
  { intros [= <-]. split; [split; constructor|set_solver]. }
  destruct (negb (is_object n)); [done|].
  intros (h & _ & (host & _ & Hrest)%res_bind_ok)%res_bind_ok.
  destruct (String.eqb_spec (py_strip host) EmptyString) as [|Hne]; [done|]. case_decide as Hs; [done|].
  apply res_bind_ok in Hrest as (streams & _ & Hrest).
  destruct streams as [| | | | |[|s0 ss]|]; try done.
  destruct (valid_sensors (s0 :: ss)) as [xs|] eqn:Hxs; [|done].
  apply res_bind_ok in Hrest as (name & _ & (rest & Hl & [= <-])%res_bind_ok).
  apply IH in Hl as [[Hnd Hall] Hseen]. split.
  - split; simpl.
    + constructor; [|done]. intros (d & Heq & Hin)%list_elem_of_fmap.
      apply (Hseen d Hin). rewrite <- Heq. by left.
    + constructor; [|done]. simpl. split_and!; [done|apply py_strip_idem| |apply dedup_NoDup|].
      * intros Hd. apply (valid_sensors_nonempty s0 ss xs Hxs). destruct xs as [|x xs]; [done|].
        cbn [dedup] in Hd. rewrite decide_False in Hd by set_solver. done.
      * intros s [Hin _]%dedup_elem. by eapply valid_sensors_spec.
  - intros d [->|Hin]%elem_of_cons; [done|]. specialize (Hseen d Hin). set_solver.
Qed.

(** A manifest that loads is well formed: its hosts are distinct, stripped and not empty,
    and every host lists at least one sensor, each once and each one of the four the
    program knows. *)
Theorem manifest_well_formed c ds : load_manifest c = Ok ds → well_formed ds.
Proof.
  unfold load_manifest. destruct (read_text c) as [t|e]; [|by destruct (instance_of _ _)].
  destruct (json_loads t) as [raw|]; [|done]. intros (nodes & _ & Hl)%res_bind_ok.
  destruct nodes; try done. by apply load_nodes_spec in Hl as [? _].
Qed.

Definition sample_manifest : content :=
  Text (TxDoc (JObj [("node", JArr [JObj
    [("host", JStr " 192.168.10.55"); ("streams", JArr [JStr "depth"; JStr "color"; JStr "depth"])]])]%string)).

Lemma manifest_well_formed_witness :
  load_manifest sample_manifest = Ok [mkDesired "192.168.10.55" JNull ["depth"; "color"]%string] ∧
  well_formed [mkDesired "192.168.10.55" JNull ["depth"; "color"]%string].
Proof. split; [reflexivity|]. apply (manifest_well_formed sample_manifest). reflexivity. Defined.

(** ** What the plan says *)
Lemma by_host_keys nodes h :
  h ∈ dkeys (by_host nodes) ↔ ∃ nid n, (nid, n) ∈ nodes ∧ nid ≠ LOCAL_NODE_ID ∧ n_host n = h.
Proof.
  unfold by_host. set (l := List.filter _ nodes).
  assert (Hl : ∀ nid n, (nid, n) ∈ l ↔ (nid, n) ∈ nodes ∧ nid ≠ LOCAL_NODE_ID).
  { intros nid n. subst l. rewrite !list_elem_of_In, filter_In, negb_true_iff, String.eqb_neq. done. }
  transitivity (∃ nid n, (nid, n) ∈ l ∧ n_host n = h); [|setoid_rewrite Hl; naive_solver].
  clear Hl. clearbody l.
  enough (H : ∀ d, h ∈ dkeys (fold_left (λ d '(_, n), dset d (n_host n) n) l d) ↔
                   h ∈ dkeys d ∨ ∃ nid n, (nid, n) ∈ l ∧ n_host n = h)
    by (rewrite H; simpl; set_solver).
  induction l as [|[nid n] l IH]; intros d; simpl; [set_solver|].
  rewrite IH, dkeys_dset. setoid_rewrite elem_of_cons. naive_solver.
Qed.

Lemma sort_strings_elem l s : s ∈ sort_strings l ↔ s ∈ l.
Proof.
  unfold sort_strings, dkeys. rewrite (sort_items_perm _). rewrite list_elem_of_fmap. split.
  - intros ([x []] & -> & Hin). apply list_elem_of_In, in_map_iff in Hin as (y & [= ->] & Hin).
    apply list_elem_of_In in Hin. by apply elem_of_remove_dups.
  - intros Hs. exists (s, tt). split; [done|]. apply list_elem_of_In, in_map_iff. exists s.
    split; [done|]. apply list_elem_of_In. by apply elem_of_remove_dups.
Qed.

Lemma is_nil_elem {A} (l : list A) : is_nil l = true ↔ ∀ x, x ∉ l.
Proof. destruct l; simpl; split; try done; [set_solver|]. intros H. destruct (H a). by left. Qed.

Lemma streams_of_elem bindings id s :
  s ∈ streams_of bindings id ↔
  ∃ bid b, (bid, b) ∈ bindings ∧ b_mode b = REMOTE_PRODUCER ∧ b_node_id b = id ∧ b_sensor b = s.
Proof.
  unfold streams_of. rewrite list_elem_of_In, in_map_iff. setoid_rewrite filter_In.
  setoid_rewrite <- list_elem_of_In. setoid_rewrite dvals_elem.
  setoid_rewrite andb_true_iff. setoid_rewrite bool_decide_eq_true. setoid_rewrite String.eqb_eq.
  naive_solver.
Qed.

(** A node needs no action. *)
Lemma plan_node_done hosts bindings d :
  is_nil (np_actions (plan_node hosts bindings d)) = true ↔
  ∃ node, dget hosts (de_host d) = Some node ∧ n_provision_state node = JStr READY ∧
    ∀ s, s ∈ de_streams d → s ∈ streams_of bindings (n_node_id node).
Proof.
  unfold plan_node. destruct (dget hosts (de_host d)) as [node|]; [|naive_solver]. cbn [np_actions].
  set (missing := List.filter _ (de_streams d)).
  assert (Hm : is_nil missing = true ↔ ∀ s, s ∈ de_streams d → s ∈ streams_of bindings (n_node_id node)).
  { rewrite is_nil_elem. subst missing. setoid_rewrite list_elem_of_In. setoid_rewrite filter_In.
    setoid_rewrite <- list_elem_of_In. setoid_rewrite negb_true_iff.
    setoid_rewrite bool_decide_eq_false. setoid_rewrite sort_strings_elem.
    split; intros H s; specialize (H s); [|naive_solver].
    intros Hs. destruct (decide (s ∈ streams_of bindings (n_node_id node))); naive_solver. }
  assert (Hp : match n_provision_state node with JStr s => String.eqb s READY | _ => false end = true
               ↔ n_provision_state node = JStr READY).
  { destruct (n_provision_state node) as [| | | |s| |]; try done. rewrite String.eqb_eq. naive_solver. }
  destruct (match n_provision_state node with JStr s => _ | _ => _ end).
  - simpl. destruct missing; simpl in *; naive_solver.
  - simpl. split; [done|]. intros (n & [= <-] & Hr & _). by apply Hp in Hr.
Qed.

(** The fleet is reported in sync exactly when every host of the manifest is a registered
    and provisioned remote node with a binding for each of its sensors, and every
    registered remote host is in the manifest. Streams beyond the manifest are listed but
    do not count. *)
Theorem in_sync_iff manifest nodes bindings :
  in_sync (plan_fleet manifest nodes bindings) = true ↔
  (∀ d, d ∈ manifest → ∃ node, dget (by_host nodes) (de_host d) = Some node ∧
     n_provision_state node = JStr READY ∧
     ∀ s, s ∈ de_streams d → ∃ bid b, (bid, b) ∈ bindings ∧ b_mode b = REMOTE_PRODUCER ∧
       b_node_id b = n_node_id node ∧ b_sensor b = s) ∧
  (∀ nid n, (nid, n) ∈ nodes → nid ≠ LOCAL_NODE_ID → n_host n ∈ map de_host manifest).
Proof.
  unfold in_sync, plan_fleet. cbn [fp_extra_nodes fp_nodes]. rewrite andb_true_iff, Logic.and_comm.
  f_equiv.
  - rewrite forallb_forall. setoid_rewrite in_map_iff. setoid_rewrite <- streams_of_elem. split.
    + intros H d Hd. apply plan_node_done, H. exists d. by rewrite <- list_elem_of_In.
    + intros H x (d & <- & Hd). apply plan_node_done, H. by apply list_elem_of_In.
  - rewrite is_nil_elem. setoid_rewrite sort_strings_elem. setoid_rewrite list_elem_of_In.
    setoid_rewrite filter_In. setoid_rewrite negb_true_iff. setoid_rewrite bool_decide_eq_false.
    setoid_rewrite <- list_elem_of_In. setoid_rewrite by_host_keys. split.
    + intros H nid n Hn Hl. destruct (decide (n_host n ∈ map de_host manifest)); [done|].
      exfalso. apply (H (n_host n)). split; [eauto|done].
    + intros H h [(nid & n & Hn & Hl & <-) Hno]. by apply Hno, (H nid).
Qed.

(** ** Registering only adds nodes *)

(** [s'] holds the document some sequence of store calls from [s] leaves. *)
Definition reaches_content `{Entropy} (s s' : Store) : Prop :=
  ∃ s1, reaches s s1 ∧ f_content (s_topo s') = f_content (s_topo s1).

Lemma add_node_reaches `{Entropy} lan host name role s0 s :
  reaches_content s0 s → reaches_content s0 (add_node_by_host lan host name role s).2.
Proof.
  intros (s1 & Hr & Hc). exists (run_store_call (CAddNode lan host name role) s).2.
  split; [by apply (reaches_call s0 (CAddNode lan host name role) s1 s)|].
  unfold run_store_call, mbind, M_bind. by destruct (add_node_by_host lan host name role s) as [[]].
Qed.

Lemma list_nodes_content s : f_content (s_topo (list_nodes s).2) = f_content (s_topo s).
Proof.
  unfold list_nodes, on_topo, on_secrets, zoom, mbind, M_bind.
  destruct (load_topology_spec (s_topo s)) as (f & -> & Hf & _).
  destruct (topology _) as [d|e]; [|exact Hf]. cbn [s_secrets set_topo].
  by destruct (decode_nodes _ _ _).
Qed.

Lemma register_reaches `{Entropy} lan existing manifest s0 s :
  reaches_content s0 s → reaches_content s0 (register_loop lan existing manifest s).2.
Proof.
  revert s. induction manifest as [|d manifest IH]; intros s Hs; simpl; [done|].
  case_decide; [by apply IH|]. unfold mbind, M_bind, lift.
  destruct (name_arg (de_display_name d)) as [name|e]; [|done].
  pose proof (add_node_reaches lan (de_host d) name "remote_producer" s0 s Hs) as Ha.
  destruct (add_node_by_host _ _ _ _ s) as [[n|e] s1]; [|done]. specialize (IH s1 Ha).
  by destruct (register_loop lan existing manifest s1) as [[]].
Qed.

(** Whatever fails, registering a manifest leaves a document that enrolments alone lead to,
    so the invariants of the topology store survive it. *)
Lemma reconcile_reaches `{Entropy} lan manifest s :
  reaches_content s (reconcile_gateway lan manifest s).2.
Proof.
  unfold reconcile_gateway. assert (Hs : reaches_content s (list_nodes s).2).
  { exists s. split; [constructor|apply list_nodes_content]. }
  unfold mbind, M_bind. destruct (list_nodes s) as [[nodes|e] s1]; [|done]. by apply register_reaches.
Qed.

Corollary reconcile_sound `{Entropy} lan manifest s :
  topo_inv topology_sound s → topo_inv topology_sound (reconcile_gateway lan manifest s).2.
Proof.
  intros Hs. destruct (reconcile_reaches lan manifest s) as (s1 & Hr & Hc).
  intros d Hd. rewrite Hc in Hd.
  by eapply (reaches_inv _ edit_sound written_sound).
Qed.
