(* ===== verification/RuntimeEnv.v ===== *)
(** * The writer of rs-runtime.env

    Models [app/services/runtime_env_writer.py]: the locked, atomic, allowlisted rewrite
    of the environment file the runtime configuration persists to. The file is a string of
    bytes with permission bits. The n-th system call may fail or be the last one before
    the process dies ([env_fault]); another process may edit the file before any
    observation of it ([env_edit]); the hash is a parameter ([Sha]). Not modelled: the
    [stat] behind [is_file] never fails by itself. *)
From Stdlib Require Import Ascii.
From S2P Require Import Prelude.
From S2P Require Import PyVal.
From S2P Require Import PyStr.

Inductive fault := FaultOS | FaultKilled.

Definition fault_kind (f : fault) : exn_kind :=
  match f with FaultOS => EOS | FaultKilled => EKilled end.

(** [hashlib.sha256(bytes).hexdigest()] *)
Class Sha := { sha256 : string → string }.

(** The file system under rs-runtime.env, at each interaction. *)
Class EnvFs := {
  env_fault : nat → option fault;
  env_edit : nat → option (string * Z) → option (string * Z);
  env_busy : nat → bool;                 (* another process holds the apply lock *)
}.

Record EnvFile := mkEnvFile {
  ef_file : option (string * Z);         (* bytes and permission bits *)
  ef_temps : list (string * Z);          (* temporary siblings, newest first *)
  ef_tick : nat;
}.

Definition RUNTIME_ENV_PATH : string := "/etc/robot/rs-runtime.env".
Definition RUNTIME_ENV_SENTINEL : string := "sha256:__ABSENT__".
Definition ALLOWLIST : list string := ["ICE_POLICY"; "TURN_CRED_TTL"]%string.

(** [secret_store.SENSITIVE_KEYS] *)
Definition SENSITIVE_KEYS : list string :=
  ["TURN_SHARED_SECRET"; "JANUS_ADMIN_SECRET"; "STREAMING_ADMIN_KEY"; "JANUS_STREAMING_ADMIN_KEY";
   "STREAMING_RGB_MP_SECRET"; "TEXTROOM_ROOM_SECRET"; "INTERNAL_API_SECRET"; "CAM_ADMIN_TOKEN"]%string.

Definition newline : string := String "010"%char EmptyString.

Definition HEADER : string :=
  ("# Non-secret runtime-tunable knobs for the L4 service (managed by runtime-config apply)."
   ++ newline
   ++ "# Allowlist: ICE_POLICY, TURN_CRED_TTL only. Do NOT add secrets here." ++ newline)%string.

Definition apply_lock_path (env_path : string) : string := (env_path ++ ".apply.lock")%string.

(** ** Texts of KEY=value lines *)

(** One line: its stripped key and value, unless it is blank, a comment or has no [=]. *)
Definition env_line (raw : string) : option (string * string) :=
  let line := py_strip raw in
  if String.eqb line EmptyString || startswith line "#" then None
  else match split1 "="%char line with Some (k, v) => Some (py_strip k, py_strip v) | None => None end.

Definition parse_env (t : string) : dict string :=
  fold_left (fun out raw => match env_line raw with Some (k, v) => dset out k v | None => out end)
    (splitlines t) [].

(** [_HEADER + "".join(f"{k}={merged[k]}\n" for k in sorted(merged))] *)
Definition env_body (merged : dict string) : string :=
  (HEADER ++ String.concat EmptyString
     (map (fun '(k, v) => k ++ "=" ++ v ++ newline) (sort_items merged)))%string.

(** [{**cur, **updates}] *)
Definition merge_dict (cur updates : dict string) : dict string :=
  fold_left (fun d '(k, v) => dset d k v) updates cur.

(** [_assert_allowlisted] *)
Definition assert_allowlisted (keys : list string) : res unit :=
  if negb (forallb (fun k => bool_decide (k ∈ ALLOWLIST)) keys) then fail EForeignKey
  else if existsb (fun k => bool_decide (k ∈ SENSITIVE_KEYS)) keys then fail EForeignKey
  else Ok tt.

Fixpoint str_values (updates : dict json) : res (dict string) :=
  match updates with
  | [] => Ok []
  | (k, v) :: rest => s ← to_str v; r ← str_values rest; Ok ((k, s) :: r)
  end.

Section writer.
Context {H : Sha} {E : EnvFs}.

(** ** System calls and observations *)
Definition env_call : M EnvFile unit := fun w =>
  let w' := mkEnvFile (ef_file w) (ef_temps w) (S (ef_tick w)) in
  match env_fault (ef_tick w) with
  | Some f => (fail (fault_kind f), w')
  | None => (Ok tt, w')
  end.

(** What the file is now: other processes may have changed it. *)
Definition see : M EnvFile (option (string * Z)) := fun w =>
  let f := env_edit (ef_tick w) (ef_file w) in
  (Ok f, mkEnvFile f (ef_temps w) (S (ef_tick w))).

(** [p.read_bytes()] *)
Definition read_bytes : M EnvFile string :=
  env_call ;;
  f ← see;
  match f with Some (b, _) => mret b | None => throw EFileNotFound end.

Definition hash_of (f : option (string * Z)) : string :=
  match f with Some (b, _) => "sha256:" ++ sha256 b | None => RUNTIME_ENV_SENTINEL end%string.

Definition current_hash : M EnvFile string :=
  f ← see;
  match f with
  | Some _ => b ← read_bytes; mret ("sha256:" ++ sha256 b)%string
  | None => mret RUNTIME_ENV_SENTINEL
  end.

Definition read_keys : M EnvFile (dict string) :=
  f ← see;
  match f with
  | Some _ => b ← read_bytes; t ← lift (decode b); mret (parse_env t)
  | None => mret []
  end.

(** [os.stat(env_path).st_mode & 0o777] *)
Definition stat_mode : M EnvFile Z :=
  env_call ;;
  f ← see;
  match f with Some (_, m) => mret (Z.land m 511) | None => throw EFileNotFound end.

Definition suppress_os (m : M EnvFile unit) : M EnvFile unit :=
  try_except m COSError (fun _ => mret tt).

Definition fsync_dir : M EnvFile unit := suppress_os (env_call ;; finally env_call env_call).

(** ** Writing *)
Definition set_temps (f : list (string * Z) → list (string * Z)) : M EnvFile unit :=
  modify (fun w => mkEnvFile (ef_file w) (f (ef_temps w)) (ef_tick w)).

(** [os.replace(tmp, env_path)], once the call goes through *)
Definition install : M EnvFile unit :=
  modify (fun w => match ef_temps w with
                   | t :: rest => mkEnvFile (Some t) rest (ef_tick w)
                   | [] => w
                   end).

(** [_atomic_write], and the write of [restore_locked], which repeats it. *)
Definition atomic_write (body : string) (mode : Z) : M EnvFile unit :=
  env_call ;;                                             (* mkdir *)
  env_call ;; set_temps (cons (EmptyString, 384)) ;;        (* mkstemp *)
  try_except
    (env_call ;; set_temps (fun ts => (body, 384) :: tail ts) ;;   (* write, flush *)
     env_call ;;                                            (* fsync *)
     env_call ;; set_temps (fun ts => (body, mode) :: tail ts) ;;  (* chmod *)
     env_call ;; install)                                   (* replace *)
    CException
    (fun e => suppress_os (env_call ;; set_temps (@tail _)) ;; raise e) ;;
  fsync_dir.

(** The lock-free merge-write; the caller holds the apply lock. *)
Definition write_locked (updates : dict json) (expected_hash : option string) : M EnvFile string :=
  lift (assert_allowlisted (dkeys updates)) ;;
  (match expected_hash with
   | Some h => c ← current_hash; if String.eqb c h then mret tt else throw EDrift
   | None => mret tt
   end) ;;
  cur ← read_keys;
  lift (assert_allowlisted (dkeys cur)) ;;
  updates ← lift (str_values updates);
  let merged := merge_dict cur updates in
  lift (assert_allowlisted (dkeys merged)) ;;
  f ← see;
  mode ← match f with Some _ => stat_mode | None => mret 420 end;
  atomic_write (env_body merged) mode ;;
  current_hash.

(** Restores the bytes the file had, or removes it when there was none. *)
Definition restore_locked (prior_bytes : option string) (mode : Z) : M EnvFile unit :=
  match prior_bytes with
  | None =>
      env_call ;;                                           (* unlink(missing_ok=True) *)
      modify (fun w => mkEnvFile None (ef_temps w) (ef_tick w)) ;;
      fsync_dir
  | Some b => atomic_write b mode
  end.

(** [with runtime_env_lock(blocking=...): m] *)
Definition runtime_env_lock {W A} (on_file : M EnvFile unit → M W unit) (busy : M W bool)
    (blocking : bool) (m : M W A) : M W A :=
  on_file env_call ;; on_file env_call ;;                   (* mkdir, open *)
  b ← busy;
  if negb blocking && b then throw ELockHeld
  else on_file env_call ;; finally m (on_file env_call).    (* flock, unlock *)

Definition lock_busy : M EnvFile bool := fun w =>
  (Ok (env_busy (ef_tick w)), mkEnvFile (ef_file w) (ef_temps w) (S (ef_tick w))).

Definition write_runtime_env (updates : dict json) (expected_hash : option string) : M EnvFile string :=
  runtime_env_lock id lock_busy true (write_locked updates expected_hash).
End writer.

(** ** Texts *)

(** A decidable property of the characters of a literal. *)
Ltac literal := unfold chars; simpl; repeat (constructor; [reflexivity|]); constructor.

(** A value that a line of the file can hold as it is. *)
Definition clean_value (v : string) : Prop :=
  py_strip v = v ∧ no_break (chars v) ∧ is_ascii v = true.

Definition allowed (d : dict string) : Prop := ∀ k, k ∈ dkeys d → k ∈ ALLOWLIST.

Definition line_of (kv : string * string) : string := (kv.1 ++ "=" ++ kv.2)%string.

Lemma env_body_lines merged :
  env_body merged =
  String.concat EmptyString (map (λ s, s ++ String "010"%char EmptyString)%string
    (["# Non-secret runtime-tunable knobs for the L4 service (managed by runtime-config apply).";
      "# Allowlist: ICE_POLICY, TURN_CRED_TTL only. Do NOT add secrets here."]%string
     ++ map line_of (sort_items merged))).
Proof.
  unfold env_body. generalize (sort_items merged) as d. intros d.
  assert (Hs : ∀ a b c : string, ((a ++ b) ++ c = a ++ (b ++ c))%string).
  { intros a b c. apply chars_inj. by rewrite !chars_app, app_assoc. }
  rewrite map_app, map_map.
  replace (map (λ x, line_of x ++ String "010"%char EmptyString)%string d)
    with (map (λ '(k, v), k ++ "=" ++ v ++ newline)%string d).
  2:{ apply map_ext. intros [k v]. unfold line_of, newline. cbn [fst snd]. by rewrite !Hs. }
  destruct d as [|kv d]; [reflexivity|]. cbn [map String.concat app]. unfold HEADER, newline.
  rewrite !Hs. reflexivity.
Qed.

Lemma strip_line k v :
  k ∈ ALLOWLIST → py_strip v = v → py_strip (k ++ "=" ++ v)%string = (k ++ "=" ++ v)%string.
Proof.
  intros Hk Hv. unfold py_strip. fold (chars (k ++ "=" ++ v)). fold (str (strip_chars (chars (k ++ "=" ++ v)))).
  rewrite strip_solid, str_chars; [done| |].
  - apply elem_of_cons in Hk as [->| ->%list_elem_of_singleton]; reflexivity.
  - rewrite !chars_app, !rev_app_distr.
    assert (Hr : head_solid (rev (chars v))).
    { rewrite <- Hv. unfold py_strip. fold (chars v). fold (str (strip_chars (chars v))).
      rewrite chars_str. apply strip_ends. }
    destruct (rev (chars v)); [reflexivity|done].
Qed.

Lemma env_line_of k v :
  k ∈ ALLOWLIST → clean_value v → env_line (line_of (k, v)) = Some (k, v).
Proof.
  intros Hk (Hv & _ & _). unfold env_line, line_of. cbn [fst snd]. rewrite strip_line by done.
  assert (Hsplit : split1 "="%char (k ++ "=" ++ v) = Some (k, v)).
  { unfold split1. rewrite !chars_app. change (chars "=" ++ chars v) with ("="%char :: chars v).
    rewrite split1_go_app; [simpl; by rewrite !str_chars|].
    apply elem_of_cons in Hk as [->| ->%list_elem_of_singleton];
literal. }
  rewrite Hsplit, Hv.
  apply elem_of_cons in Hk as [->| ->%list_elem_of_singleton]; reflexivity.
Qed.

Lemma fold_dset_new (l acc : dict string) :
  NoDup (dkeys (acc ++ l)) → fold_left (λ d '(k, v), dset d k v) l acc = acc ++ l.
Proof.
  revert acc. induction l as [|[k v] l IH]; intros acc Hnd; simpl; [by rewrite app_nil_r|].
  assert (Hset : dset acc k v = acc ++ [(k, v)]).
  { clear IH. induction acc as [|[k' v'] acc IH]; simpl; [done|].
    unfold dkeys in Hnd. simpl in Hnd. apply NoDup_cons in Hnd as [Hk Hnd].
    case_decide as Hkk; [|by rewrite IH].
    exfalso. apply Hk. subst. rewrite fmap_app. simpl. set_solver. }
  rewrite Hset, IH; rewrite <- app_assoc; done.
Qed.

Definition clean_dict (d : dict string) : Prop := ∀ k v, (k, v) ∈ d → clean_value v.

Lemma no_break_app a b : no_break (chars a) → no_break (chars b) → no_break (chars (a ++ b)%string).
Proof. unfold no_break. rewrite chars_app. intros. by apply Forall_app. Qed.

Lemma allowlist_plain k : k ∈ ALLOWLIST → no_break (chars k) ∧ is_ascii k = true.
Proof.
  intros [->| ->%list_elem_of_singleton]%elem_of_cons;
    (split; [literal|reflexivity]).
Qed.

(** The text written reads back as the entries written. *)
Lemma parse_env_body merged :
  NoDup (dkeys merged) → allowed merged → clean_dict merged →
  parse_env (env_body merged) = sort_items merged.
Proof.
  intros Hnd Hall Hclean. unfold parse_env. rewrite env_body_lines, splitlines_unlines.
  - rewrite fold_left_app. simpl.
    assert (Hnd' : NoDup (dkeys ([] ++ sort_items merged))) by (by apply NoDup_sort_items).
    rewrite <- (fold_dset_new (sort_items merged) []) at 2 by done.
    assert (Hin : ∀ kv, kv ∈ sort_items merged → kv ∈ merged) by (intros; by apply sort_items_elem).
    generalize (@nil (string * string)) as acc. revert Hin. generalize (sort_items merged) as d.
    induction d as [|[k v] d IH]; intros Hin acc; [done|]. cbn [map fold_left].
    rewrite env_line_of.
    + apply IH. set_solver.
    + apply Hall. unfold dkeys. apply list_elem_of_fmap. exists (k, v). split; [done|]. set_solver.
    + apply (Hclean k). set_solver.
  - apply Forall_app. split; [repeat constructor|].
    apply Forall_forall. intros s ([k v] & -> & Hkv)%list_elem_of_fmap.
    pose proof (proj1 (sort_items_elem merged _) Hkv) as Hm. clear Hkv. rename Hm into Hkv.
    destruct (Hclean _ _ Hkv) as (_ & Hv & _).
    apply no_break_app; [|by apply no_break_app; [repeat constructor|]].
    apply allowlist_plain, Hall. apply list_elem_of_fmap. by exists (k, v).
Qed.

(** What a parsed file holds is clean. *)
Lemma parse_env_clean t :
  is_ascii t = true → NoDup (dkeys (parse_env t)) ∧ clean_dict (parse_env t).
Proof.
  intros Hascii. rewrite is_ascii_spec in Hascii. unfold parse_env.
  assert (Hlines : ∀ s, s ∈ splitlines t → ∀ c, c ∈ chars s → c ∈ chars t ∧ is_line_break c = false).
  { intros s Hs c. by apply splitlines_chars. }
  assert (Hacc : NoDup (dkeys (@nil (string * string))) ∧ clean_dict []).
  { split; [constructor|]. intros k v. set_solver. }
  revert Hlines Hacc. generalize (@nil (string * string)) as acc. generalize (splitlines t) as ls.
  induction ls as [|s ls IH]; intros acc Hlines [Hnd Hcl]; [done|]. cbn [fold_left].
  apply IH; [set_solver|]. destruct (env_line s) as [[k v]|] eqn:Hl; [|done].
  split; [by apply NoDup_dset|]. intros k' v' [Heq|]%dset_elem; [|by eapply Hcl]. simplify_eq.
  unfold env_line in Hl. destruct (_ || _); [done|].
  destruct (split1 "="%char (py_strip s)) as [[k0 v0]|] eqn:Hs; [|done]. injection Hl as _ <-.
  assert (Hsub : ∀ c, c ∈ chars (py_strip v0) → c ∈ chars t ∧ is_line_break c = false).
  { intros c Hc. apply (Hlines s); [set_solver|]. apply py_strip_subset.
    eapply split1_subset; [done|]. right. by apply py_strip_subset. }
  split_and!; [apply py_strip_idem|apply Forall_forall; naive_solver|].
  rewrite is_ascii_spec. naive_solver.
Qed.

Lemma merge_dict_keys cur ups :
  NoDup (dkeys cur) → NoDup (dkeys (merge_dict cur ups)).
Proof.
  unfold merge_dict. revert cur. induction ups as [|[k v] ups IH]; intros cur Hnd; simpl; [done|].
  by apply IH, NoDup_dset.
Qed.

Lemma dget_merge_dict cur ups k :
  NoDup (dkeys ups) →
  dget (merge_dict cur ups) k = match dget ups k with Some v => Some v | None => dget cur k end.
Proof.
  unfold merge_dict. revert cur. induction ups as [|[k' v] ups IH]; intros cur; simpl; [done|].
  intros [Hk Hnd]%NoDup_cons. rewrite IH by done. rewrite dget_dset.
  apply dget_None in Hk. repeat case_decide; subst; rewrite ?Hk; done.
Qed.

Lemma merge_dict_clean cur ups : clean_dict cur → clean_dict ups → clean_dict (merge_dict cur ups).
Proof.
  unfold merge_dict. revert cur. induction ups as [|[k v] ups IH]; intros cur Hc Hu; simpl; [done|].
  apply IH; [|intros k' v' ?; apply (Hu k'); set_solver].
  intros k' v' [?|]%dset_elem; [simplify_eq; apply (Hu k); set_solver|by eapply Hc].
Qed.

Lemma assert_allowlisted_ok keys u :
  assert_allowlisted keys = Ok u → ∀ k, k ∈ keys → k ∈ ALLOWLIST.
Proof.
  unfold assert_allowlisted. destruct (forallb _ keys) eqn:Hall; [|done]. intros _ k Hk.
  rewrite forallb_forall in Hall. apply (bool_decide_eq_true_1 _), Hall. by apply list_elem_of_In.
Qed.

Lemma decode_ok b t : decode b = Ok t → t = b ∧ is_ascii b = true.
Proof. unfold decode. destruct (is_ascii b); [by intros [= ->]|]. by destruct (utf8 _). Qed.

Lemma env_body_ascii merged : allowed merged → clean_dict merged → is_ascii (env_body merged) = true.
Proof.
  intros Hall Hcl. rewrite is_ascii_spec. rewrite env_body_lines.
  assert (Happ : ∀ a b : string, (∀ c, c ∈ chars a → in_range 0 127 c = true) →
            (∀ c, c ∈ chars b → in_range 0 127 c = true) →
            ∀ c, c ∈ chars (a ++ b) → in_range 0 127 c = true).
  { intros a b ?? c. rewrite chars_app. set_solver. }
  assert (Hcat : ∀ ls, Forall (λ s, ∀ c, c ∈ chars s → in_range 0 127 c = true) ls →
            ∀ c, c ∈ chars (String.concat EmptyString ls) → in_range 0 127 c = true).
  { induction 1 as [|s ls Hs _ IH]; [intros c; set_solver|].
    destruct ls as [|s' ls]; [done|]. cbn [String.concat]. apply Happ; [done|].
    apply Happ; [|done]. intros c; set_solver. }
  apply Hcat, Forall_forall. intros s (s0 & -> & Hs0)%list_elem_of_fmap.
  apply Happ; [|by apply is_ascii_spec]. apply elem_of_app in Hs0 as [Hs0|Hs0].
  - apply is_ascii_spec. by apply elem_of_cons in Hs0 as [->| ->%list_elem_of_singleton].
  - apply list_elem_of_fmap in Hs0 as ([k v] & -> & Hkv).
    pose proof (proj1 (sort_items_elem merged _) Hkv) as Hm.
    destruct (Hcl _ _ Hm) as (_ & _ & Hv).
    apply Happ; [|apply Happ; [by apply is_ascii_spec|by apply is_ascii_spec]].
    apply is_ascii_spec, allowlist_plain, Hall, list_elem_of_fmap. by exists (k, v).
Qed.

(** ** What the operations do to the file, when nobody else edits it *)
Section quiet.
Context {H : Sha} {E : EnvFs} (quiet : ∀ n f, env_edit n f = f).

Local Abbreviation same := (keeps ef_file).

Lemma env_call_same : preserves same env_call.
Proof. intros w. unfold env_call. by destruct (env_fault _). Qed.

Lemma see_same : preserves same see.
Proof. intros w. unfold keeps. simpl. apply quiet. Qed.

Lemma see_ok w f w' : see w = (Ok f, w') → f = ef_file w ∧ ef_file w' = ef_file w.
Proof. intros [= <- <-]. simpl. by rewrite quiet. Qed.

Lemma set_temps_same f : preserves same (set_temps f).
Proof. done. Qed.

#[local] Hint Resolve env_call_same see_same set_temps_same : pres.

Lemma read_bytes_same : preserves same read_bytes.
Proof. unfold read_bytes. pres. Qed.
#[local] Hint Resolve read_bytes_same : pres.

Lemma current_hash_same : preserves same current_hash.
Proof. unfold current_hash. pres. Qed.
Lemma read_keys_same : preserves same read_keys.
Proof. unfold read_keys. pres. Qed.
Lemma stat_mode_same : preserves same stat_mode.
Proof. unfold stat_mode. pres. Qed.
Lemma fsync_dir_same : preserves same fsync_dir.
Proof. unfold fsync_dir, suppress_os. pres. Qed.
#[local] Hint Resolve current_hash_same read_keys_same stat_mode_same fsync_dir_same : pres.

Lemma same_run {A} (m : M EnvFile A) w r w' : preserves same m → m w = (r, w') → ef_file w' = ef_file w.
Proof. intros Hm Hr. specialize (Hm w). by rewrite Hr in Hm. Qed.

Lemma read_bytes_ok w b w' :
  read_bytes w = (Ok b, w') → ∃ m, ef_file w = Some (b, m) ∧ ef_file w' = ef_file w.
Proof.
  intros Hr. pose proof (same_run _ _ _ _ read_bytes_same Hr) as Hs.
  apply bind_ok_inv in Hr as (u & w1 & Hc & Hr). apply (same_run _ _ _ _ env_call_same) in Hc.
  apply bind_ok_inv in Hr as (f & w2 & [-> Hf]%see_ok & Hr). rewrite Hc in Hr.
  destruct (ef_file w) as [[b' m]|]; [|done]. injection Hr as -> _. eauto.
Qed.

Lemma current_hash_ok w h w' :
  current_hash w = (Ok h, w') → h = hash_of (ef_file w) ∧ ef_file w' = ef_file w.
Proof.
  intros Hr. pose proof (same_run _ _ _ _ current_hash_same Hr) as Hs. split; [|done].
  apply bind_ok_inv in Hr as (f & w1 & [-> Hf]%see_ok & Hr).
  destruct (ef_file w) as [[b m]|] eqn:Hw; [|by injection Hr as <- _].
  apply bind_ok_inv in Hr as (b' & w2 & (m' & Hb & _)%read_bytes_ok & Hr).
  rewrite Hf in Hb. injection Hb as -> _. by injection Hr as <- _.
Qed.

(** The entries of the file. *)
Definition env_keys (f : option (string * Z)) : res (dict string) :=
  match f with Some (b, _) => t ← decode b; Ok (parse_env t) | None => Ok [] end.

Lemma read_keys_ok w d w' :
  read_keys w = (Ok d, w') → env_keys (ef_file w) = Ok d ∧ ef_file w' = ef_file w.
Proof.
  intros Hr. pose proof (same_run _ _ _ _ read_keys_same Hr) as Hs. split; [|done].
  apply bind_ok_inv in Hr as (f & w1 & [-> Hf]%see_ok & Hr).
  destruct (ef_file w) as [[b m]|] eqn:Hw; [|by injection Hr as <- _].
  apply bind_ok_inv in Hr as (b' & w2 & (m' & Hb & _)%read_bytes_ok & Hr).
  rewrite Hf in Hb. injection Hb as -> _.
  apply bind_ok_inv in Hr as (t & w3 & [Ht ->]%lift_ok_inv & [-> _]%ret_ok_inv).
  simpl. by rewrite Ht.
Qed.

(** An atomic write installs the new file or leaves the old one, and has installed it when
    it returns. *)
Lemma atomic_write_cases body mode w r w' :
  atomic_write body mode w = (r, w') →
  ef_file w' = Some (body, mode) ∨ (ef_file w' = ef_file w ∧ is_ok r = false).
Proof.
  destruct w as [f ts n]. intros Hr.
  unfold atomic_write, fsync_dir, suppress_os, finally, try_except, raise, install, set_temps, modify,
    env_call, mbind, M_bind, mret, M_ret in Hr.
  simpl in Hr.
  repeat (destruct (env_fault _) as [[]|] in Hr; simpl in Hr); simplify_eq/=; auto.
Qed.

(** The mode a rewrite leaves. *)
Definition kept_mode (f : option (string * Z)) : Z :=
  match f with Some (_, m) => Z.land m 511 | None => 420 end.

Lemma stat_mode_ok w f m w1 w2 :
  see w = (Ok f, w1) → (match f with Some _ => stat_mode | None => mret 420 end) w1 = (Ok m, w2) →
  m = kept_mode (ef_file w) ∧ ef_file w2 = ef_file w.
Proof.
  intros [-> Hf]%see_ok Hr.
  destruct (ef_file w) as [[b m0]|]; [|by apply ret_ok_inv in Hr as [-> ->]].
  pose proof (same_run _ _ _ _ stat_mode_same Hr) as Hs.
  apply bind_ok_inv in Hr as (? & w3 & Hc & Hr). apply (same_run _ _ _ _ env_call_same) in Hc.
  apply bind_ok_inv in Hr as (f' & w4 & [-> Hf']%see_ok & Hr). rewrite Hc, Hf in Hr.
  apply ret_ok_inv in Hr as [-> ->]. split; [done|congruence].
Qed.

(** A drift is only reported before anything is written. *)
Lemma late_kinds : raises_only (λ k, k ≠ EDrift) env_call.
Proof. intros w e. unfold env_call. destruct (env_fault _) as [[]|]; by intros [= <-]. Qed.
#[local] Hint Resolve late_kinds : pres.
#[local] Hint Extern 1 (_ ≠ EDrift) => discriminate : pres.

Lemma see_kinds : raises_only (λ k, k ≠ EDrift) see.
Proof. by intros w e. Qed.
Lemma set_temps_kinds f : raises_only (λ k, k ≠ EDrift) (set_temps f).
Proof. by intros w e. Qed.
Lemma install_kinds : raises_only (λ k, k ≠ EDrift) install.
Proof. by intros w e. Qed.
#[local] Hint Resolve see_kinds set_temps_kinds install_kinds : pres.

Lemma current_hash_kinds : raises_only (λ k, k ≠ EDrift) current_hash.
Proof. unfold current_hash, read_bytes. ro; try (apply ro_throw; discriminate). Qed.

Lemma atomic_write_kinds body mode : raises_only (λ k, k ≠ EDrift) (atomic_write body mode).
Proof. unfold atomic_write, fsync_dir, suppress_os. ro; try (by apply ro_raise). Qed.

(** The steps of a merge-write up to the write itself leave the file as it is. *)
Lemma write_locked_cases updates eh w r w' :
  write_locked updates eh w = (r, w') →
  (ef_file w' = ef_file w ∧ is_ok r = false) ∨
  (∃ cur strs, env_keys (ef_file w) = Ok cur ∧ str_values updates = Ok strs ∧
     allowed (merge_dict cur strs) ∧
     ef_file w' = Some (env_body (merge_dict cur strs), kept_mode (ef_file w)) ∧
     (∀ h, eh = Some h → h = hash_of (ef_file w)) ∧
     match r with Ok h => h = hash_of (ef_file w') | Raise e => ex_kind e ≠ EDrift end).
Proof.
  intros Hr. unfold write_locked in Hr.
  apply bind_inv in Hr as [(u & w1 & [_ ->]%lift_ok_inv & Hr)|(e & [= _ <-] & ->)]; [|by left].
  apply bind_inv in Hr as [(u2 & w1 & Hp & Hr)|(e & Hp & ->)].
  2:{ left. split; [|done]. destruct eh; [|done]. eapply (same_run _ _ _ _ _ Hp). Unshelve. pres. }
  assert (Hw1 : ef_file w1 = ef_file w ∧ ∀ h, eh = Some h → h = hash_of (ef_file w)).
  { destruct eh as [h|]; [|apply ret_ok_inv in Hp as [_ ->]; naive_solver].
    apply bind_ok_inv in Hp as (c & w2 & [-> Hc]%current_hash_ok & Hp).
    destruct (String.eqb_spec (hash_of (ef_file w)) h) as [<-|]; [|done].
    apply ret_ok_inv in Hp as [_ ->]. split; [done|naive_solver]. }
  destruct Hw1 as [Hw1 Heh]. clear Hp.
  apply bind_inv in Hr as [(cur & w2 & [Hcur Hw2]%read_keys_ok & Hr)|(e & Hk & ->)].
  2:{ left. apply (same_run _ _ _ _ read_keys_same) in Hk. split; [congruence|done]. }
  rewrite Hw1 in *.
  apply bind_inv in Hr as [(u3 & w3 & [_ ->]%lift_ok_inv & Hr)|(e & [= _ <-] & ->)]; [|by left].
  apply bind_inv in Hr as [(strs & w3 & [Hstrs ->]%lift_ok_inv & Hr)|(e & [= _ <-] & ->)]; [|by left].
  apply bind_inv in Hr as [(u4 & w3 & [Hall ->]%lift_ok_inv & Hr)|(e & [= _ <-] & ->)]; [|by left].
  apply bind_inv in Hr as [(f & w3 & Hf & Hr)|(e & Hf & ->)]; [|done].
  apply bind_inv in Hr as [(mode & w4 & Hm & Hr)|(e & Hm & ->)].
  2:{ left. split; [|done]. apply see_ok in Hf as [-> Hf]. rewrite Hw2 in Hf. rewrite <- Hf.
      destruct (ef_file w2); [|done]. apply (same_run _ _ _ _ stat_mode_same Hm). }
  destruct (stat_mode_ok _ _ _ _ _ Hf Hm) as [-> Hw4]. rewrite Hw2 in *.
  apply bind_inv in Hr as [(u5 & w5 & [Hw5|[_ [=]]]%atomic_write_cases & Hr)
                          |(e & Hat & ->)];
    [..|assert (Hwr := f_equal fst Hat); apply atomic_write_cases in Hat as [Hw5|[Hw5 _]]].
  - right. exists cur, strs. pose proof (same_run _ _ _ _ current_hash_same Hr) as Hs.
    split_and!; auto; [exact (assert_allowlisted_ok _ _ Hall)|congruence|].
    destruct r as [h|e]; [apply current_hash_ok in Hr as [-> _]; by rewrite Hs|].
    by apply (current_hash_kinds w5 e); rewrite Hr.
  - right. exists cur, strs. split_and!; auto; [exact (assert_allowlisted_ok _ _ Hall)|].
    by apply (atomic_write_kinds _ _ _ _ Hwr).
  - left. split; [congruence|done].
Qed.

(** Without another writer, a merge-write leaves the file alone and raises, or leaves a file
    that reads back as the old entries overridden by the updates, all of them on the
    allowlist, with the permission bits the file had; and a write that returns
    returns the hash of the file it left; drift is reported before anything is written. *)
Lemma write_locked_reads_back updates strs eh w r w' :
  str_values updates = Ok strs → clean_dict strs → write_locked updates eh w = (r, w') →
  (ef_file w' = ef_file w ∧ is_ok r = false) ∨
  (∃ cur, env_keys (ef_file w) = Ok cur ∧ allowed (merge_dict cur strs) ∧
     env_keys (ef_file w') = Ok (sort_items (merge_dict cur strs)) ∧
     kept_mode (ef_file w') = kept_mode (ef_file w) ∧
     (∀ h, eh = Some h → h = hash_of (ef_file w)) ∧
     match r with Ok h => h = hash_of (ef_file w') | Raise e => ex_kind e ≠ EDrift end).
Proof.
  intros Hstrs Hclean Hr.
  destruct (write_locked_cases _ _ _ _ _ Hr) as [?|(cur & strs' & Hcur & Hs & Hall & Hw' & Heh & Hh)];
    [by left|]. right. rewrite Hstrs in Hs. injection Hs as <-.
  assert (Hc : NoDup (dkeys cur) ∧ clean_dict cur).
  { unfold env_keys in Hcur. destruct (ef_file w) as [[b m]|].
    - apply res_bind_ok in Hcur as (t & [-> Hb]%decode_ok & [= <-]). by apply parse_env_clean.
    - injection Hcur as <-. split; [constructor|]. intros k v. set_solver. }
  destruct Hc as [Hnd Hcc]. exists cur. split_and!; auto; rewrite Hw'; simpl.
  - assert (Hcl := merge_dict_clean _ _ Hcc Hclean).
    unfold decode. rewrite env_body_ascii by done. simpl. f_equal.
    apply parse_env_body; auto. by apply merge_dict_keys.
  - destruct (ef_file w) as [[b m]|]; simpl; [|done]. by rewrite <- Z.land_assoc.
Qed.

(** Writing and reading back: a merge-write that returns, without another writer, leaves
    a file that parses to a mapping in which every updated key has its new value and every
    other key the one it had; the permission bits stay, the result is the hash of the new
    file, and the expected hash it was given is the hash of the file it replaced. *)
Theorem write_locked_roundtrip updates strs eh w h w' :
  str_values updates = Ok strs → clean_dict strs → NoDup (dkeys strs) →
  write_locked updates eh w = (Ok h, w') →
  ∃ old new, env_keys (ef_file w) = Ok old ∧ env_keys (ef_file w') = Ok new ∧
    (∀ k, dget new k = match dget strs k with Some v => Some v | None => dget old k end) ∧
    kept_mode (ef_file w') = kept_mode (ef_file w) ∧
    h = hash_of (ef_file w') ∧ (∀ h0, eh = Some h0 → h0 = hash_of (ef_file w)).
Proof.
  intros Hs Hc Hnd Hr.
  destruct (write_locked_reads_back _ _ _ _ _ _ Hs Hc Hr) as [[_ [=]]|(cur & ? & ? & ? & ? & ? & ?)].
  exists cur, (sort_items (merge_dict cur strs)). split_and!; try done.
  intros k. by rewrite dget_sort_items, dget_merge_dict.
Qed.
End quiet.

(** ** Concrete runs *)
#[local] Instance plain_sha : Sha := {| sha256 b := ("h" ++ b)%string |}.
#[local] Instance calm_fs : EnvFs :=
  {| env_fault _ := None; env_edit _ f := f; env_busy _ := false |}.

Definition sample_env : EnvFile :=
  mkEnvFile (Some (("# a comment" ++ newline ++ "ICE_POLICY = all" ++ newline)%string, 384)) [] 0.

Definition sample_updates : dict json := [("TURN_CRED_TTL", JInt 600)]%string.

Lemma write_locked_roundtrip_witness :
  let '(r, w') := write_locked sample_updates None sample_env in
  r = Ok (hash_of (ef_file w')) ∧
  ∃ new, env_keys (ef_file w') = Ok new ∧
    dget new "ICE_POLICY" = Some "all"%string ∧ dget new "TURN_CRED_TTL" = Some "600"%string.
Proof.
  destruct (write_locked sample_updates None sample_env) as [r w'] eqn:Hr.
  assert (Hok : ∃ h, r = Ok h) by (vm_compute in Hr; injection Hr as <- <-; eauto).
  destruct Hok as [h ->].
  destruct (write_locked_roundtrip (E:=calm_fs) (λ _ _, eq_refl) sample_updates [("TURN_CRED_TTL", "600")]%string
              None sample_env h w') as (old & new & Hold & Hnew & Hget & _ & -> & _).
  - vm_compute. reflexivity.
  - intros k v [= -> ->]%list_elem_of_singleton. split_and!; [reflexivity|literal|reflexivity].
  - apply NoDup_singleton.
  - exact Hr.
  - split; [done|]. exists new. split; [done|]. rewrite !Hget.
    vm_compute in Hold. injection Hold as <-. split; reflexivity.
Defined.

(** A value is not checked: one that holds a newline writes a key of its own, past the
    allowlist, and every later write then refuses the file. *)
Lemma newline_value_writes_foreign_key :
  let '(r, w') := write_locked [("ICE_POLICY", JStr ("all" ++ newline ++ "LD_PRELOAD=x"))]%string None
                    sample_env in
  is_ok r = true ∧
  env_keys (ef_file w') = Ok [("ICE_POLICY", "all"); ("LD_PRELOAD", "x")]%string ∧
  (write_locked sample_updates None w').1 = fail EForeignKey.
Proof. vm_compute. split_and!; reflexivity. Qed.

(** The read back of the hash can fail after the file was replaced: the caller sees an
    [OSError] and the new value is on disk. *)
Definition late_read_fault : EnvFs :=
  {| env_fault n := if (n =? 16)%nat then Some FaultOS else None; env_edit _ f := f;
     env_busy _ := false |}.

Lemma failed_write_may_be_durable :
  let '(r, w') := write_locked (E:=late_read_fault) sample_updates None sample_env in
  r = fail EOS ∧
  env_keys (ef_file w') = Ok [("ICE_POLICY", "all"); ("TURN_CRED_TTL", "600")]%string.
Proof. vm_compute. split; reflexivity. Qed.
