(* ===== verification/RuntimeSchema.v ===== *)
(** * The runtime configuration schema

    Models [app/config/runtime_schema.py]: the sections of the runtime configuration, their
    field constraints and the cross-field rules. The models are pydantic's: a field that
    fails its constraint is an error at that field, an unknown field an error at its
    name, and the [mode="after"] rules run once the fields are valid. How pydantic reads an
    integer or a boolean from other types ([lax_int], [lax_bool]) is a parameter. *)
From Stdlib Require Import Ascii.
From S2P Require Import Prelude.
From S2P Require Import PyVal.
From S2P Require Import PyStr.

(** Pydantic's conversions. *)
Class Pydantic := { lax_int : json → option Z; lax_bool : json → option bool }.

(** Documented: an [int] field takes an integer as it is, a [bool] field a boolean. *)
Class PydanticLaws (P : Pydantic) : Prop := {
  lax_int_int : ∀ z, lax_int (JInt z) = Some z;
  lax_bool_bool : ∀ b, lax_bool (JBool b) = Some b;
}.

Definition SENSORS : list string := ["color"; "depth"; "ir1"; "ir2"]%string.
Definition LOCAL_SENTINEL : string := "local".

Definition is_alnum (c : ascii) : bool := in_range 48 57 c || in_range 65 90 c || in_range 97 122 c.
Definition is_decimal (c : ascii) : bool := in_range 48 57 c.

(** What [$] lets follow: the end, or a newline at the end. *)
Definition chop_newline (s : string) : string :=
  match rev (chars s) with
  | c :: l => if Ascii.eqb c "010" then str (rev l) else s
  | [] => s
  end.

(** [SENSOR_KEY_RE] *)
Definition sensor_key_match (key : string) : bool :=
  match split1 ":"%char key with
  | Some (serial, sensor) =>
      negb (String.eqb serial EmptyString) && forallb is_alnum (chars serial)
      && mem_str (chop_newline sensor) SENSORS
  | None => false
  end.

Definition is_canonical_sensor_key (key : string) : bool :=
  sensor_key_match key
  && negb (String.eqb (match split1 ":"%char key with Some (s, _) => s | None => key end) LOCAL_SENTINEL).

(** [\d{2,5}] *)
Definition short_number (s : string) : bool :=
  let n := length (chars s) in ((2 <=? n) && (n <=? 5))%nat && forallb is_decimal (chars s).

(** [_RESOLUTION_RE] *)
Definition resolution_match (v : string) : bool :=
  match split1 "x"%char v with
  | Some (w, h) => short_number w && short_number (chop_newline h)
  | None => false
  end.

Inductive ApplyImpact :=
  | HOT | NEW_SESSIONS_ONLY | RESTART_ENCODER | RECREATE_MOUNTPOINT | RESTART_JANUS
  | DEPLOYMENT_ONLY | REJECTED.

#[export] Instance ApplyImpact_eq_dec : EqDecision ApplyImpact.
Proof. solve_decision. Defined.

Definition impact_value (i : ApplyImpact) : string :=
  match i with
  | HOT => "HOT" | NEW_SESSIONS_ONLY => "NEW_SESSIONS_ONLY" | RESTART_ENCODER => "RESTART_ENCODER"
  | RECREATE_MOUNTPOINT => "RECREATE_MOUNTPOINT" | RESTART_JANUS => "RESTART_JANUS"
  | DEPLOYMENT_ONLY => "DEPLOYMENT_ONLY" | REJECTED => "REJECTED"
  end.

(** ** Models *)

(** A model: its fields with their constraints and whether they are required, and the rule
    over all of them. *)
Record model := mkModel {
  m_fields : list (string * (json → bool) * bool);
  m_rule : dict json → bool;
}.

Definition field_names (m : model) : list string := map (fun f => f.1.1) (m_fields m).

(** The locations of the errors of a model built from [d]: a field, or the model itself. *)
Definition model_errors (m : model) (d : dict json) : list (option string) :=
  let bad := List.filter (fun '(k, ok, required) =>
               match dget d k with Some v => negb (ok v) | None => required end) (m_fields m) in
  let extra := List.filter (fun k => negb (mem_str k (field_names m))) (dkeys d) in
  match map (fun f => Some f.1.1) bad ++ map Some extra with
  | [] => if m_rule m d then [] else [None]
  | errs => errs
  end.

Section schema.
Context {P : Pydantic}.

Definition int_in (lo hi : Z) (j : json) : bool :=
  match lax_int j with Some z => (lo <=? z) && (z <=? hi) | None => false end.
Definition opt_int_in (lo hi : Z) (j : json) : bool := is_null j || int_in lo hi j.
Definition is_bool (j : json) : bool := match lax_bool j with Some _ => true | None => false end.
Definition one_of (l : list string) (j : json) : bool :=
  match j with JStr s => mem_str s l | _ => false end.
Definition str_that (p : string → bool) (j : json) : bool := match j with JStr s => p s | _ => false end.

(** The value of a field of a valid model. *)
Definition int_field (d : dict json) (k : string) (dflt : Z) : Z :=
  match dget d k with Some j => default dflt (lax_int j) | None => dflt end.
Definition bool_field (d : dict json) (k : string) (dflt : bool) : bool :=
  match dget d k with Some j => default dflt (lax_bool j) | None => dflt end.
Definition str_field (d : dict json) (k : string) (dflt : string) : string :=
  match dget d k with Some (JStr s) => s | _ => dflt end.
Definition opt_int_field (d : dict json) (k : string) : option Z :=
  match dget d k with Some JNull | None => None | Some j => lax_int j end.

(** *** [WebRtcRuntimeConfig] *)
Record WebRtcRuntimeConfig := mkWebRtc {
  ice_policy : string;
  turn_credential_ttl_seconds : Z;
  turn_enabled : bool;
  stun_enabled : bool;
  max_reconnect_attempts : option Z;
  reconnect_base_delay_ms : Z;
  reconnect_max_delay_ms : Z;
}.

Definition webrtc_model : model := mkModel
  [("ice_policy", one_of ["all"; "relay"], false);
   ("turn_credential_ttl_seconds", int_in 300 3600, false);
   ("turn_enabled", is_bool, false);
   ("stun_enabled", is_bool, false);
   ("max_reconnect_attempts", opt_int_in 3 50, false);
   ("reconnect_base_delay_ms", int_in 100 5000, false);
   ("reconnect_max_delay_ms", int_in 2000 60000, false)]%string
  (fun d => int_field d "reconnect_base_delay_ms" 300 <=? int_field d "reconnect_max_delay_ms" 15000).

Definition webrtc_value (d : dict json) : WebRtcRuntimeConfig := mkWebRtc
  (str_field d "ice_policy" "all")
  (int_field d "turn_credential_ttl_seconds" 3600)
  (bool_field d "turn_enabled" true)
  (bool_field d "stun_enabled" true)
  (opt_int_field d "max_reconnect_attempts")
  (int_field d "reconnect_base_delay_ms" 300)
  (int_field d "reconnect_max_delay_ms" 15000).

(** [model_dump()] *)
Definition webrtc_dump (c : WebRtcRuntimeConfig) : dict json :=
  [("ice_policy", JStr (ice_policy c));
   ("turn_credential_ttl_seconds", JInt (turn_credential_ttl_seconds c));
   ("turn_enabled", JBool (turn_enabled c));
   ("stun_enabled", JBool (stun_enabled c));
   ("max_reconnect_attempts", jopt JInt (max_reconnect_attempts c));
   ("reconnect_base_delay_ms", JInt (reconnect_base_delay_ms c));
   ("reconnect_max_delay_ms", JInt (reconnect_max_delay_ms c))]%string.

(** *** [StreamRuntimeConfig] *)
Record StreamRuntimeConfig := mkStream {
  sensor_key : string;
  enabled : bool;
  resolution : string;
  fps : Z;
  codec : string;
  encoder : string;
  bitrate_kbps : Z;
  gop_frames : Z;
  mountpoint_id : Z;
  stream_rtp_port : Z;
}.

Definition stream_model : model := mkModel
  [("sensor_key", str_that (fun _ => true), true);
   ("enabled", is_bool, false);
   ("resolution", str_that resolution_match, false);
   ("fps", int_in 1 120, false);
   ("codec", one_of ["h264"], false);
   ("encoder", one_of ["libx264"; "h264_v4l2m2m"], false);
   ("bitrate_kbps", int_in 100 8000, false);
   ("gop_frames", int_in 1 300, false);
   ("mountpoint_id", int_in 1 65535, true);
   ("rtp_port", int_in 1024 65535, true)]%string
  (fun d => is_canonical_sensor_key (str_field d "sensor_key" EmptyString)).

Definition stream_value (d : dict json) : StreamRuntimeConfig := mkStream
  (str_field d "sensor_key" EmptyString)
  (bool_field d "enabled" true)
  (str_field d "resolution" "640x480")
  (int_field d "fps" 15)
  (str_field d "codec" "h264")
  (str_field d "encoder" "libx264")
  (int_field d "bitrate_kbps" 900)
  (int_field d "gop_frames" 15)
  (int_field d "mountpoint_id" 0)
  (int_field d "rtp_port" 0).

Definition stream_dump (c : StreamRuntimeConfig) : dict json :=
  [("sensor_key", JStr (sensor_key c));
   ("enabled", JBool (enabled c));
   ("resolution", JStr (resolution c));
   ("fps", JInt (fps c));
   ("codec", JStr (codec c));
   ("encoder", JStr (encoder c));
   ("bitrate_kbps", JInt (bitrate_kbps c));
   ("gop_frames", JInt (gop_frames c));
   ("mountpoint_id", JInt (mountpoint_id c));
   ("rtp_port", JInt (stream_rtp_port c))]%string.

(** *** [DiagnosticsRuntimeConfig] *)
Record DiagnosticsRuntimeConfig := mkDiagnostics {
  reboot_allowed : bool;
  health_stream_stale_ms : Z;
  debug_stats_enabled : bool;
  telemetry_enabled : bool;
  telemetry_interval_seconds : Z;
  diag_fdir_enabled : bool;
  auto_recovery_enabled : bool;
}.

Definition diagnostics_model : model := mkModel
  [("reboot_allowed", is_bool, false);
   ("health_stream_stale_ms", int_in 500 30000, false);
   ("debug_stats_enabled", is_bool, false);
   ("telemetry_enabled", is_bool, false);
   ("telemetry_interval_seconds", int_in 1 60, false);
   ("fdir_enabled", is_bool, false);
   ("auto_recovery_enabled", is_bool, false)]%string
  (fun _ => true).

Definition diagnostics_value (d : dict json) : DiagnosticsRuntimeConfig := mkDiagnostics
  (bool_field d "reboot_allowed" false)
  (int_field d "health_stream_stale_ms" 10000)
  (bool_field d "debug_stats_enabled" false)
  (bool_field d "telemetry_enabled" true)
  (int_field d "telemetry_interval_seconds" 5)
  (bool_field d "fdir_enabled" true)
  (bool_field d "auto_recovery_enabled" true).

Definition diagnostics_dump (c : DiagnosticsRuntimeConfig) : dict json :=
  [("reboot_allowed", JBool (reboot_allowed c));
   ("health_stream_stale_ms", JInt (health_stream_stale_ms c));
   ("debug_stats_enabled", JBool (debug_stats_enabled c));
   ("telemetry_enabled", JBool (telemetry_enabled c));
   ("telemetry_interval_seconds", JInt (telemetry_interval_seconds c));
   ("fdir_enabled", JBool (diag_fdir_enabled c));
   ("auto_recovery_enabled", JBool (auto_recovery_enabled c))]%string.

(** Building a model from [d]: the value, or pydantic's [ValidationError]. *)
Definition construct {A} (m : model) (value : dict json → A) (d : dict json) : res A :=
  match model_errors m d with [] => Ok (value d) | _ => fail EPydantic end.
End schema.

(** *** The shapes of a validation *)
Record DiffEntry := mkDiff {
  de_path : string;
  de_from : json;
  de_to : json;
  de_source : string;
  de_impact : ApplyImpact;
}.

(** [d.model_dump(by_alias=True, mode="json")] *)
Definition diff_dump (d : DiffEntry) : json :=
  JObj [("path", JStr (de_path d)); ("from", de_from d); ("to", de_to d);
        ("source", JStr (de_source d)); ("impact", JStr (impact_value (de_impact d)))]%string.

Example canonical_keys :
  map is_canonical_sensor_key ["f1370224:color"; "local:color"; "ab:rgb"; ":color"; "a-b:ir1";
                               "ab:color" ++ String "010" EmptyString]%string
  = [true; false; false; false; false; true].
Proof. reflexivity. Qed.

Example resolutions :
  map resolution_match ["640x480"; "1x2"; "640X480"; "123456x480"; "640x480 "]%string
  = [true; false; false; false; false].
Proof. reflexivity. Qed.

(** ** What a constructed model satisfies *)
Definition field_holds (d : dict json) (f : string * (json → bool) * bool) : Prop :=
  match dget d f.1.1 with Some v => f.1.2 v = true | None => f.2 = false end.

Lemma filter_nil {A} (p : A → bool) l : List.filter p l = [] ↔ ∀ x, x ∈ l → p x = false.
Proof.
  induction l as [|a l IH]; simpl; [by split; [set_solver|]|].
  destruct (p a) eqn:Ha; [|rewrite IH; set_solver].
  split; [done|]. intros Hx. specialize (Hx a). rewrite Ha in Hx. discriminate Hx. set_solver.
Qed.

Lemma model_errors_nil m d :
  model_errors m d = [] ↔
  Forall (field_holds d) (m_fields m) ∧ (∀ k, k ∈ dkeys d → k ∈ field_names m) ∧ m_rule m d = true.
Proof.
  unfold model_errors.
  set (bad := List.filter _ (m_fields m)). set (extra := List.filter _ (dkeys d)).
  assert (Hbad : bad = [] ↔ Forall (field_holds d) (m_fields m)).
  { unfold bad. rewrite filter_nil, Forall_forall. unfold field_holds.
    split; intros Hf [[k ok] req] Hin; specialize (Hf _ Hin); simpl in *;
      destruct (dget d k); rewrite ?negb_false_iff in *; auto. }
  assert (Hextra : extra = [] ↔ ∀ k, k ∈ dkeys d → k ∈ field_names m).
  { unfold extra. rewrite filter_nil. split; intros Hf k Hk; specialize (Hf k Hk).
    - by apply mem_str_spec, negb_false_iff.
    - by apply negb_false_iff, mem_str_spec. }
  rewrite <- Hbad, <- Hextra.
  destruct bad, extra; simpl; try (split; [done|naive_solver]).
  destruct (m_rule m d); naive_solver.
Qed.

Lemma construct_ok {A} m (value : dict json → A) d a :
  construct m value d = Ok a ↔ model_errors m d = [] ∧ a = value d.
Proof. unfold construct. destruct (model_errors m d); naive_solver. Qed.

Definition within (lo hi z : Z) : Prop := lo ≤ z ≤ hi.

Definition webrtc_wf (c : WebRtcRuntimeConfig) : Prop :=
  ice_policy c ∈ ["all"; "relay"]%string ∧ within 300 3600 (turn_credential_ttl_seconds c) ∧
  (∀ n, max_reconnect_attempts c = Some n → within 3 50 n) ∧
  within 100 5000 (reconnect_base_delay_ms c) ∧ within 2000 60000 (reconnect_max_delay_ms c) ∧
  reconnect_base_delay_ms c ≤ reconnect_max_delay_ms c.

Definition stream_wf (c : StreamRuntimeConfig) : Prop :=
  is_canonical_sensor_key (sensor_key c) = true ∧ resolution_match (resolution c) = true ∧
  within 1 120 (fps c) ∧ codec c = "h264"%string ∧ encoder c ∈ ["libx264"; "h264_v4l2m2m"]%string ∧
  within 100 8000 (bitrate_kbps c) ∧ within 1 300 (gop_frames c) ∧
  within 1 65535 (mountpoint_id c) ∧ within 1024 65535 (stream_rtp_port c).

Definition diagnostics_wf (c : DiagnosticsRuntimeConfig) : Prop :=
  within 500 30000 (health_stream_stale_ms c) ∧ within 1 60 (telemetry_interval_seconds c).

Section wf.
Context {P : Pydantic}.

Lemma int_field_within d k lo hi dflt req :
  field_holds d (k, int_in lo hi, req) → (req = false → within lo hi dflt) →
  (req = true → dget d k ≠ None) → within lo hi (int_field d k dflt).
Proof.
  unfold field_holds, int_field, int_in, within. simpl. intros Hf Hd Hr.
  destruct (dget d k) as [j|]; [|auto]. destruct (lax_int j) as [z|]; [simpl|done]. lia.
Qed.

Lemma opt_int_field_within d k lo hi n :
  field_holds d (k, opt_int_in lo hi, false) → opt_int_field d k = Some n → within lo hi n.
Proof.
  unfold field_holds, opt_int_field, opt_int_in, int_in, within. simpl.
  destruct (dget d k) as [[]|]; simpl; intros Hf Hn; try done; rewrite Hn in Hf; lia.
Qed.

Lemma one_of_field d k l dflt :
  field_holds d (k, one_of l, false) → dflt ∈ l → str_field d k dflt ∈ l.
Proof.
  unfold field_holds, one_of, str_field. simpl. intros Hf Hd.
  destruct (dget d k) as [[]|]; try done. by apply mem_str_spec.
Qed.

Lemma field_required d k ok : field_holds d (k, ok, true) → dget d k ≠ None.
Proof. unfold field_holds. simpl. by destruct (dget d k). Qed.

Ltac fields H := repeat (let F := fresh "F" in apply Forall_cons in H as [F H]).

Lemma webrtc_model_wf d c : construct webrtc_model webrtc_value d = Ok c → webrtc_wf c.
Proof.
  intros [(Hf & _ & Hr)%model_errors_nil ->]%construct_ok. cbn [webrtc_model m_fields] in Hf. fields Hf.
  unfold webrtc_wf, webrtc_value. cbn [ice_policy turn_credential_ttl_seconds max_reconnect_attempts
    reconnect_base_delay_ms reconnect_max_delay_ms].
  split_and!; try (eapply int_field_within; [done|by vm_compute|done]).
  - eapply one_of_field; [done|left].
  - intros n. by apply opt_int_field_within.
  - unfold webrtc_model, m_rule in Hr. lia.
Qed.

Lemma stream_model_wf d c : construct stream_model stream_value d = Ok c → stream_wf c.
Proof.
  intros [(Hf & _ & Hr)%model_errors_nil ->]%construct_ok. cbn [stream_model m_fields] in Hf. fields Hf.
  unfold stream_wf, stream_value. cbn [sensor_key resolution fps codec encoder bitrate_kbps gop_frames
    mountpoint_id stream_rtp_port].
  split_and!; try (eapply int_field_within; [done|by vm_compute|done]);
    try (eapply int_field_within; [done|done|intros _; by eapply field_required]).
  - exact Hr.
  - unfold field_holds, str_that, str_field in *. simpl in *. by destruct (dget d "resolution") as [[]|].
  - apply (list_elem_of_singleton _ "h264"%string). by eapply one_of_field; [|left].
  - eapply one_of_field; [done|left].
Qed.

Lemma diagnostics_model_wf d c :
  construct diagnostics_model diagnostics_value d = Ok c → diagnostics_wf c.
Proof.
  intros [(Hf & _ & Hr)%model_errors_nil ->]%construct_ok. cbn [diagnostics_model m_fields] in Hf. fields Hf.
  unfold diagnostics_wf, diagnostics_value.
  split; (eapply int_field_within; [done|by vm_compute|done]).
Qed.
End wf.

(** Well-formed values are what their models accept. *)
Section laws.
Context {P : Pydantic} {L : PydanticLaws P}.

Lemma int_in_int lo hi z : int_in lo hi (JInt z) = true ↔ within lo hi z.
Proof. unfold int_in, within. rewrite lax_int_int. lia. Qed.

Lemma is_bool_bool b : is_bool (JBool b) = true.
Proof. unfold is_bool. by rewrite lax_bool_bool. Qed.

Lemma webrtc_dump_valid c : webrtc_wf c → model_errors webrtc_model (webrtc_dump c) = [].
Proof.
  intros (Hi & Ht & Ha & Hb & Hm & Hr). apply model_errors_nil. split_and!.
  - repeat apply Forall_cons_2; try apply Forall_nil_2; unfold field_holds; simpl;
      try by (apply int_in_int || apply is_bool_bool).
    + exact (proj2 (mem_str_spec (ice_policy c) ["all"; "relay"]%string) Hi).
    + destruct (max_reconnect_attempts c) as [n|]; [|done]. change (int_in 3 50 (JInt n) = true).
      by apply int_in_int, Ha.
  - intros k Hk. exact Hk.
  - simpl. unfold int_field. simpl. rewrite !lax_int_int. simpl. lia.
Qed.

Lemma diagnostics_dump_valid c :
  diagnostics_wf c → model_errors diagnostics_model (diagnostics_dump c) = [].
Proof.
  intros (Hs & Ht). apply model_errors_nil. split_and!; [|by intros k ?|done].
  repeat apply Forall_cons_2; try apply Forall_nil_2; unfold field_holds; simpl;
    by (apply int_in_int || apply is_bool_bool).
Qed.

Lemma stream_dump_valid c : stream_wf c → model_errors stream_model (stream_dump c) = [].
Proof.
  intros (Hk & Hr & Hf & Hc & He & Hb & Hg & Hm & Hp). apply model_errors_nil.
  split_and!; [|by intros k ?|done].
  repeat apply Forall_cons_2; try apply Forall_nil_2; unfold field_holds; simpl;
    try (by (apply int_in_int || apply is_bool_bool)); try done.
  - by rewrite Hc.
  - exact (proj2 (mem_str_spec (encoder c) ["libx264"; "h264_v4l2m2m"]%string) He).
Qed.
End laws.
