(* ===== verification/RuntimeBuilder.v ===== *)
(** * The effective runtime configuration

    Models [app/services/runtime_config_builder.py], the environment parsing of
    [app/core/settings.py] it rests on and [env_store.read_env]. The process state is
    [os.environ] and the [lru_cache] of [get_settings]; of the settings only [ice_policy]
    and [turn_cred_ttl] are read from the environment when [Settings()] is built, the others
    are fixed when the module is imported ([RtSettings]). The allocator's file, the tuning
    file and the running probes are read from the environment ([RtProc]). *)
From Stdlib Require Import Ascii.
From S2P Require Import Prelude.
From S2P Require Import PyVal.
From S2P Require Import PyStr.
From S2P Require Import FileStore.
From S2P Require Import Allocator.
From S2P Require Import RuntimeSchema.

(** The settings fixed at import. *)
Record RtSettings := mkRtSettings {
  s_camera_type : string;
  s_turn_host : string;
  s_turn_user : string;
  s_turn_pass : string;
  s_turn_shared_secret : string;
  s_turn_port : Z;
  s_turn_tls_port : option Z;
  s_watchdog_stale_ms : Z;
  s_watchdog_reboot_enabled : bool;
}.

Class RtProc := {
  rs : RtSettings;
  rt_alloc_file : nat → content;                     (* the allocator's state file *)
  rt_running : nat → string → option bool;           (* [sensor_lifecycle.is_running]; [None]: it raises *)
  rt_tuning : nat → option (option string);          (* rs-color.tuning.env; [None]: unreadable *)
  rt_catalog : nat → option json;                    (* [query_catalog()]; [None]: it raises *)
  rt_production : nat → list string;                 (* [production_issues(get_settings())] *)
}.

Record Proc := mkProc {
  pr_environ : dict string;
  pr_cache : option (string * Z);                    (* the cached [ice_policy], [turn_cred_ttl] *)
  pr_tick : nat;
}.

Record EffectiveTurnInfo := mkTurn {
  ti_host : string; ti_username : string; ti_udp_port : Z; ti_tls_port : option Z;
}.

Record EffectiveStreamProfile := mkProfile {
  ep_stream : StreamRuntimeConfig;
  ep_runtime_active : option bool;
}.

Record EffectiveRuntimeConfig := mkEffective {
  ef_webrtc : WebRtcRuntimeConfig;
  ef_turn : option EffectiveTurnInfo;
  ef_stream_profiles : dict EffectiveStreamProfile;
  ef_diagnostics : DiagnosticsRuntimeConfig;
}.

(** ** Settings *)

(** [_int_env] *)
Definition int_env (environ : dict string) (key : string) (dflt lo hi : Z) : Z :=
  match dget environ key with
  | None => dflt
  | Some raw =>
      match parse_int raw with
      | None => dflt
      | Some val => if val <? lo then lo else if hi <? val then hi else val
      end
  end.

(** [_str_env] *)
Definition str_env (environ : dict string) (key dflt : string) (allowed : list string) : string :=
  let val := default dflt (dget environ key) in
  if mem_str val allowed then val else dflt.

(** The two fields of [Settings()] with a [default_factory]. *)
Definition fresh_settings (environ : dict string) : string * Z :=
  (str_env environ "ICE_POLICY" "all" ["all"; "relay"]%string,
   int_env environ "TURN_CRED_TTL" 3600 300 3600).

Definition get_settings : M Proc (string * Z) := fun p =>
  match pr_cache p with
  | Some s => (Ok s, p)
  | None => let s := fresh_settings (pr_environ p) in
            (Ok s, mkProc (pr_environ p) (Some s) (pr_tick p))
  end.

(** [get_settings.cache_clear()] *)
Definition cache_clear : M Proc unit := modify (fun p => mkProc (pr_environ p) None (pr_tick p)).

Definition observe : M Proc nat := fun p =>
  (Ok (pr_tick p), mkProc (pr_environ p) (pr_cache p) (S (pr_tick p))).

(** ** [env_store.read_env] *)
Fixpoint strip_char (c : ascii) (l : list ascii) : list ascii :=
  match l with x :: l' => if Ascii.eqb x c then strip_char c l' else l | [] => [] end.

(** [s.strip(c)] for one character *)
Definition strip_quotes (c : ascii) (s : string) : string :=
  str (rev (strip_char c (rev (strip_char c (chars s))))).

Definition read_env (bytes : option string) : res (dict string) :=
  match bytes with
  | None => Ok []
  | Some b =>
      t ← decode b;
      Ok (fold_left
            (fun data raw =>
               let line := py_strip raw in
               if String.eqb line EmptyString || startswith line "#" then data
               else match split1 "="%char line with
                    | Some (k, v) => dset data (py_strip k)
                        (strip_quotes quote1 (strip_quotes quote2 (py_strip v)))
                    | None => data
                    end)
            (splitlines t) [])
  end.

Definition py_int (s : string) : res Z :=
  match parse_int s with Some z => Ok z | None => fail EValue end.

Definition env_or (env : dict string) (k dflt : string) : string := default dflt (dget env k).

(** The keyword arguments [_color_tuning] finds in the tuning file. *)
Definition tuning_args (env : dict string) : res (dict json) :=
  w ← py_int (env_or env "WIDTH" "640");
  h ← py_int (env_or env "HEIGHT" "480");
  fps ← py_int (env_or env "FPS" "15");
  bitrate ← py_int (env_or env "BITRATE_KBPS" "900");
  let out := [("resolution", JStr (pretty w ++ "x" ++ pretty h)); ("fps", JInt fps);
              ("bitrate_kbps", JInt bitrate)]%string in
  match dget env "GOP" with
  | Some gop_raw =>
      if String.eqb gop_raw EmptyString then Ok out
      else gop ← py_int gop_raw; Ok (out ++ [("gop_frames"%string, JInt gop)])
  | None => Ok out
  end.

(** [a if e: ... except Exception: b] *)
Definition or_else {A} (r : res A) (b : A) : res A :=
  match r with
  | Ok a => Ok a
  | Raise e => if instance_of (ex_kind e) CException then Ok b else Raise e
  end.

Section builder.
Context {P : Pydantic} {R : RtProc}.

(** [_color_tuning] *)
Definition color_tuning : M Proc (dict json) :=
  n ← observe;
  lift (or_else (bytes ← match rt_tuning n with Some b => Ok b | None => fail EOS end;
                 env ← read_env bytes;
                 tuning_args env) []).

(** ** [build_effective] *)
Definition profile_args (key : string) (a : Allocation) (tune : dict json) : dict json :=
  [("sensor_key", JStr key); ("enabled", JBool (desired_active a)); ("mountpoint_id", JInt (mp_id a));
   ("rtp_port", JInt (rtp_port a))]%string ++ tune.

(** The sensor part of a key: [key.split(":", 1)[1]]. *)
Definition sensor_of (key : string) : string :=
  match split1 ":"%char key with Some (_, s) => s | None => EmptyString end.

Fixpoint build_profiles (tune : dict json) (allocations : dict Allocation)
    : M Proc (dict EffectiveStreamProfile) :=
  match allocations with
  | [] => mret []
  | (key, a) :: rest =>
      if negb (is_canonical_sensor_key key) then build_profiles tune rest
      else
        let sensor := sensor_of key in
        n ← observe;
        c ← lift (construct stream_model stream_value
                    (profile_args key a (if String.eqb sensor "color" then tune else [])));
        profiles ← build_profiles tune rest;
        mret ((key, mkProfile c (rt_running n sensor)) :: profiles)
  end.

Definition nonempty_str (s : string) : bool := negb (String.eqb s EmptyString).

(** [max(300, min(3600, ttl))] *)
Definition clamp_ttl (ttl : Z) : Z := Z.max 300 (Z.min 3600 ttl).

Definition webrtc_args (s : string * Z) : dict json :=
  let ice := if mem_str s.1 ["all"; "relay"]%string then s.1 else "all"%string in
  let ice := if String.eqb (s_camera_type rs) "depth_camera" then "relay"%string else ice in
  let has_turn_creds := nonempty_str (s_turn_pass rs) || nonempty_str (s_turn_shared_secret rs) in
  [("ice_policy", JStr ice);
   ("turn_credential_ttl_seconds", JInt (clamp_ttl s.2));
   ("turn_enabled", JBool (nonempty_str (s_turn_host rs) && has_turn_creds));
   ("stun_enabled", JBool (nonempty_str (s_turn_host rs)))]%string.

Definition diagnostics_args : dict json :=
  [("health_stream_stale_ms", JInt (s_watchdog_stale_ms rs));
   ("reboot_allowed", JBool (s_watchdog_reboot_enabled rs))]%string.

Definition turn_info : option EffectiveTurnInfo :=
  if nonempty_str (s_turn_host rs)
  then Some (mkTurn (s_turn_host rs) (s_turn_user rs) (s_turn_port rs) (s_turn_tls_port rs)) else None.

Definition build_effective : M Proc EffectiveRuntimeConfig :=
  s ← get_settings;
  webrtc ← lift (construct webrtc_model webrtc_value (webrtc_args s));
  diagnostics ← lift (construct diagnostics_model diagnostics_value diagnostics_args);
  tune ← color_tuning;
  n ← observe;
  allocations ← lift (or_else (list_allocations (rt_alloc_file n)) []);
  profiles ← build_profiles tune allocations;
  mret (mkEffective webrtc turn_info profiles diagnostics).
End builder.

(** ** The effective view is well typed *)
Definition effective_wf (e : EffectiveRuntimeConfig) : Prop :=
  webrtc_wf (ef_webrtc e) ∧ diagnostics_wf (ef_diagnostics e) ∧
  ∀ key p, (key, p) ∈ ef_stream_profiles e → stream_wf (ep_stream p) ∧ sensor_key (ep_stream p) = key.

Section theorems.
Context {P : Pydantic} {R : RtProc}.

Lemma build_profiles_wf tune allocations p ps p' :
  build_profiles tune allocations p = (Ok ps, p') →
  ∀ key q, (key, q) ∈ ps → stream_wf (ep_stream q) ∧ sensor_key (ep_stream q) = key.
Proof.
  revert p ps p'. induction allocations as [|[key a] rest IH]; intros p ps p' Hr.
  { apply ret_ok_inv in Hr as [-> ->]. set_solver. }
  cbn [build_profiles] in Hr. destruct (is_canonical_sensor_key key); [|by eapply IH].
  apply bind_ok_inv in Hr as (n & p1 & _ & Hr).
  apply bind_ok_inv in Hr as (c & p2 & [Hc ->]%lift_ok_inv & Hr).
  apply bind_ok_inv in Hr as (qs & p3 & Hqs & [-> ->]%ret_ok_inv).
  intros k q [Heq|Hin]%elem_of_cons; [|by eapply IH]. injection Heq as -> ->. simpl.
  split; [by eapply stream_model_wf|]. apply construct_ok in Hc as [_ ->]. done.
Qed.

Lemma build_effective_wf p e p' : build_effective p = (Ok e, p') → effective_wf e.
Proof.
  intros Hr.
  apply bind_ok_inv in Hr as (s & p1 & _ & Hr).
  apply bind_ok_inv in Hr as (w & p2 & [Hw ->]%lift_ok_inv & Hr).
  apply bind_ok_inv in Hr as (d & p3 & [Hd ->]%lift_ok_inv & Hr).
  apply bind_ok_inv in Hr as (tune & p4 & _ & Hr).
  apply bind_ok_inv in Hr as (n & p5 & _ & Hr).
  apply bind_ok_inv in Hr as (al & p6 & _ & Hr).
  apply bind_ok_inv in Hr as (ps & p7 & Hps & [-> ->]%ret_ok_inv).
  split_and!; simpl; [by eapply webrtc_model_wf|by eapply diagnostics_model_wf|by eapply build_profiles_wf].
Qed.

(** Whatever the environment variables, the allocator's file, the tuning file and the
    probes hold, an effective configuration that is built satisfies its schema: every
    number in its range, the ICE policy one of the two, each profile under its own
    canonical key - and what is sent of it validates again. *)
Theorem effective_well_typed {L : PydanticLaws P} p e p' :
  build_effective p = (Ok e, p') →
  effective_wf e ∧
  is_ok (construct webrtc_model webrtc_value (webrtc_dump (ef_webrtc e))) = true ∧
  is_ok (construct diagnostics_model diagnostics_value (diagnostics_dump (ef_diagnostics e))) = true ∧
  ∀ key q, (key, q) ∈ ef_stream_profiles e →
    is_ok (construct stream_model stream_value (stream_dump (ep_stream q))) = true.
Proof.
  intros Hr. pose proof (build_effective_wf _ _ _ Hr) as Hwf. split; [done|].
  destruct Hwf as (Hw & Hd & Hs). unfold construct.
  rewrite webrtc_dump_valid, diagnostics_dump_valid by done. split_and!; [done..|].
  intros key q Hq. by rewrite stream_dump_valid by apply (Hs _ _ Hq).
Qed.
End theorems.

Section effects.
Context {P : Pydantic} {R : RtProc}.

(** Reading the configuration changes no environment variable, and fills the cache only
    with what the environment says. *)
Definition cache_ok (p : Proc) : Prop :=
  match pr_cache p with Some s => s = fresh_settings (pr_environ p) | None => True end.

Lemma get_settings_ok p s p' :
  cache_ok p → get_settings p = (Ok s, p') →
  s = fresh_settings (pr_environ p) ∧ pr_environ p' = pr_environ p ∧ cache_ok p'.
Proof.
  unfold cache_ok, get_settings. destruct (pr_cache p) as [s'|] eqn:Hc; intros Hok [= <- <-]; simpl;
    rewrite ?Hc; auto.
Qed.

Definition reads_only (p p' : Proc) : Prop :=
  pr_environ p' = pr_environ p ∧ (cache_ok p → cache_ok p').

#[global] Instance reads_only_preorder : PreOrder reads_only.
Proof. split; [done|]. intros p1 p2 p3 [H1 ?] [H2 ?]. split; [congruence|auto]. Qed.

Lemma get_settings_reads : preserves reads_only get_settings.
Proof.
  intros p. destruct (get_settings p) as [r p'] eqn:Hr. unfold get_settings in Hr.
  unfold reads_only, cache_ok. destruct (pr_cache p) eqn:Hc; injection Hr as <- <-; simpl;
    rewrite ?Hc; auto.
Qed.

Lemma observe_reads : preserves reads_only observe.
Proof. done. Qed.
#[local] Hint Resolve get_settings_reads observe_reads : pres.

Lemma build_profiles_reads tune al : preserves reads_only (build_profiles tune al).
Proof. induction al as [|[key a] al IH]; simpl; pres. Qed.
#[local] Hint Resolve build_profiles_reads : pres.

Lemma build_effective_reads : preserves reads_only build_effective.
Proof. unfold build_effective, color_tuning. pres. Qed.

(** The WebRTC section of the effective view is the one the environment asks for. *)
Lemma build_effective_webrtc p e p' :
  cache_ok p → build_effective p = (Ok e, p') →
  ef_webrtc e = webrtc_value (webrtc_args (fresh_settings (pr_environ p))) ∧
  construct webrtc_model webrtc_value (webrtc_args (fresh_settings (pr_environ p))) = Ok (ef_webrtc e).
Proof.
  intros Hok Hr.
  apply bind_ok_inv in Hr as (s & p1 & (-> & _)%get_settings_ok & Hr); [|done].
  apply bind_ok_inv in Hr as (w & p2 & [Hw ->]%lift_ok_inv & Hr).
  apply bind_ok_inv in Hr as (d & p3 & _ & Hr). apply bind_ok_inv in Hr as (tune & p4 & _ & Hr).
  apply bind_ok_inv in Hr as (n & p5 & _ & Hr). apply bind_ok_inv in Hr as (al & p6 & _ & Hr).
  apply bind_ok_inv in Hr as (ps & p7 & _ & [-> ->]%ret_ok_inv). simpl.
  split; [|done]. by apply construct_ok in Hw as [_ ->].
Qed.

Lemma str_env_allowed environ key dflt allowed :
  dflt ∈ allowed → str_env environ key dflt allowed ∈ allowed.
Proof.
  unfold str_env. intros Hd. destruct (mem_str _ _) eqn:Hm; [by apply mem_str_spec|done].
Qed.

Lemma int_env_within environ key dflt lo hi :
  lo ≤ hi → within lo hi dflt → within lo hi (int_env environ key dflt lo hi).
Proof.
  unfold int_env, within. intros Hle Hd. destruct (dget environ key) as [raw|]; [|done].
  destruct (parse_int raw) as [v|]; [|done]. repeat case_match; lia.
Qed.
End effects.

(** ** Concrete runs *)
Definition strict_pydantic : Pydantic :=
  {| lax_int j := match j with JInt z => Some z | _ => None end;
     lax_bool j := match j with JBool b => Some b | _ => None end |}.

Lemma strict_laws : PydanticLaws strict_pydantic.
Proof. by split. Qed.

Definition sample_settings (camera : string) (stale_ms : Z) : RtSettings :=
  mkRtSettings camera "turn.example" "webrtc" "pw" EmptyString 3478 None stale_ms false.

Definition sample_allocations : content :=
  Text (TxDoc (JObj [("allocations", JObj [("ab12:color",
    JObj [("mp_id", JInt 1305); ("rtp_port", JInt 5004); ("desired_active", JBool true)])])]))%string.

Definition sample_proc (camera : string) (stale_ms : Z) (tuning : string) : RtProc :=
  {| rs := sample_settings camera stale_ms; rt_alloc_file _ := sample_allocations;
     rt_running _ _ := Some true; rt_tuning _ := Some (Some tuning); rt_catalog _ := None;
     rt_production _ := [] |}.

Definition sample_environ : dict string := [("ICE_POLICY", "rely"); ("TURN_CRED_TTL", " 86_400 ")]%string.

Definition build_sample (camera : string) (stale_ms : Z) (tuning : string) : res EffectiveRuntimeConfig :=
  (build_effective (P:=strict_pydantic) (R:=sample_proc camera stale_ms tuning)
    (mkProc sample_environ None 0)).1.

Lemma effective_well_typed_witness :
  ∃ e, build_sample "color_camera" 10000 "FPS=30" = Ok e ∧
       ice_policy (ef_webrtc e) = "all"%string ∧ turn_credential_ttl_seconds (ef_webrtc e) = 3600 ∧
       effective_wf e.
Proof.
  eexists. split; [vm_compute; reflexivity|]. split_and!; [reflexivity..|].
  eapply (effective_well_typed (P:=strict_pydantic) (L:=strict_laws) (R:=sample_proc "color_camera" 10000 "FPS=30")
    (mkProc sample_environ None 0)).
  vm_compute. reflexivity.
Defined.

(** Values the other writers of the system accept make the view unbuildable: a color bitrate
    of 10000 kbps, which the encoder form allows up to 20000, or a watchdog threshold of
    40000 ms. *)
Lemma effective_unbuildable :
  build_sample "color_camera" 10000 "BITRATE_KBPS=10000" = fail EPydantic ∧
  build_sample "color_camera" 40000 "FPS=30" = fail EPydantic.
Proof. vm_compute. split; reflexivity. Qed.
