(* ===== verification/RuntimeRevisions.v ===== *)
(** * The journal of runtime-configuration revisions

    Models [app/services/runtime_revision_store.py]: one JSON file per validated revision, in
    a directory of its own, with the hash that binds the operator's confirmation to one
    patch on one state of the files. Every system call on the directory may fail or be the
    last one before the process dies; temporary files of the directory are not modelled.
    [Rt] is the state of the whole runtime configuration: the environment file, this
    journal and the process. *)
From Stdlib Require Import Ascii.
From S2P Require Import Prelude.
From S2P Require Import PyVal.
From S2P Require Import PyStr.
From S2P Require Import JsonText.
From S2P Require Import FileStore.
From S2P Require Import RuntimeEnv.
From S2P Require Import RuntimeSchema.
From S2P Require Import RuntimeBuilder.

Class RevFs := {
  rev_fault : nat → option fault;
  rev_ts : nat → string;                 (* [strftime("%Y%m%dT%H%M%S%fZ")] *)
  rev_iso : nat → string;                (* [_now_iso()] *)
}.

Record RevDir := mkRevDir {
  rd_files : dict content;               (* by the stem of the file name *)
  rd_copies : dict content;              (* forensic copies, by stem *)
  rd_tick : nat;
}.

Record Rt := mkRt { rt_env : EnvFile; rt_rev : RevDir; rt_proc : Proc }.

Definition on_env {A} (m : M EnvFile A) : M Rt A :=
  zoom rt_env (fun e w => mkRt e (rt_rev w) (rt_proc w)) m.
Definition on_rev {A} (m : M RevDir A) : M Rt A :=
  zoom rt_rev (fun r w => mkRt (rt_env w) r (rt_proc w)) m.
Definition on_proc {A} (m : M Proc A) : M Rt A :=
  zoom rt_proc (fun p w => mkRt (rt_env w) (rt_rev w) p) m.

Definition MAX_REVISIONS : nat := 50.
Definition FHB_SCHEMA : Z := 2.
Definition RUNTIME_ENV_FIELDS : list string := ["ice_policy"; "turn_credential_ttl_seconds"]%string.
Definition TUNING_PATH : string := "/etc/robot/rs-color.tuning.env".

Definition STATUS_VALIDATED : string := "validated".
Definition STATUS_APPLYING : string := "applying".
Definition STATUS_APPLIED : string := "applied".
Definition STATUS_ROLLING_BACK : string := "rolling_back".
Definition STATUS_ROLLED_BACK : string := "rolled_back".
Definition STATUS_ROLLBACK_FAILED : string := "rollback_failed".
Definition STATUSES : list string :=
  [STATUS_VALIDATED; STATUS_APPLYING; STATUS_APPLIED; STATUS_ROLLING_BACK; STATUS_ROLLED_BACK;
   STATUS_ROLLBACK_FAILED].

(** ** Redaction *)
Definition SECRET_MARKERS : list string :=
  ["password"; "_secret"; "shared_secret"; "pwd"; "turn_pass"; "turn_pwd"; "admin_token"]%string.

Definition is_secret_key (k : string) : bool :=
  mem_str (upper k) SENSITIVE_KEYS || existsb (fun m => contains m (lower k)) SECRET_MARKERS.

Definition REDACTED : json := JStr "***REDACTED***".

Fixpoint redact (j : json) : json :=
  match j with
  | JObj d => JObj (map (fun '(k, v) => (k, if is_secret_key k then REDACTED else redact v)) d)
  | JArr l => JArr (map redact l)
  | _ => j
  end.

(** ** The canonical text and the hash *)
Fixpoint normalize (j : json) : json :=
  match j with
  | JFloat q => let q := Qred q in if Pos.eqb (Qden q) 1 then JInt (Qnum q) else JFloat q
  | JObj d => JObj (map (fun '(k, v) => (k, normalize v)) d)
  | JArr l => JArr (map normalize l)
  | _ => j
  end.

Definition fhb_json (fhb : dict string) : json := JObj (map (fun '(k, v) => (k, JStr v)) fhb).

(** [set(x)] of a field that should be a list of strings: its elements. *)
Fixpoint strings_of (l : list json) : res (list string) :=
  match l with
  | [] => Ok []
  | JStr s :: l' => r ← strings_of l'; Ok (s :: r)
  | (JArr _ | JObj _) :: _ => fail EType
  | _ :: _ => fail EUnmodelled
  end.

(** The strings that iterating over [x or []] yields. *)
Definition iter_strings (x : json) : res (list string) :=
  if negb (truthy x) then Ok []
  else match x with
       | JArr l => strings_of l
       | JObj d => Ok (dkeys d)
       | JStr s => Ok (map (fun c => String c EmptyString) (chars s))
       | _ => fail EType
       end.

(** [k in (x or {})] *)
Definition member (k : string) (x : json) : res bool :=
  if negb (truthy x) then Ok false
  else match x with
       | JObj d => Ok (dmem d k)
       | JArr l => Ok (existsb (py_eq (JStr k)) l)
       | JStr s => Ok (contains k s)
       | _ => fail EType
       end.

(** The verdict of [is_applyable]: the reason it gives, if not applyable. *)
Inductive verdict := Applyable | NotValidated | StaleSchema | WrongImpact | Unbound.

Definition is_applyable (record : json) : res verdict :=
  st ← jget record "status" JNull;
  if negb (py_eq st (JStr STATUS_VALIDATED)) then Ok NotValidated
  else
    fs ← jget record "fhb_schema" JNull;
    if negb (py_eq fs (JInt FHB_SCHEMA)) then Ok StaleSchema
    else
      im ← jget record "impact" JNull;
      impacts ← iter_strings im;
      if negb (match impacts with [] => false | _ => true end
               && forallb (String.eqb "NEW_SESSIONS_ONLY") impacts) then Ok WrongImpact
      else
        fhb ← jget record "file_hashes_before" JNull;
        bound ← member RUNTIME_ENV_PATH fhb;
        Ok (if (bound : bool) then Applyable else Unbound).

Definition verdict_ok (v : verdict) : bool := match v with Applyable => true | _ => false end.

(** The path-traversal guard of every access by id. *)
Definition malformed_id (revision_id : string) : bool :=
  contains "/" revision_id || contains (String backslash EmptyString) revision_id
  || contains ".." revision_id || negb (startswith revision_id "rev-").

(** [s[a:b]] of a string *)
Definition substring_of (a b : nat) (s : string) : string := String.substring a (b - a) s.

Section journal.
Context {H : Sha} {F : FloatRepr} {V : RevFs}.

Definition canon (j : json) : list ascii := print_json (sort_json (normalize j)).

Definition compute_diff_hash (patch : json) (fhb : dict string) : string :=
  ("sha256:" ++ sha256 (str (canon patch ++ "010"%char :: canon (fhb_json fhb))))%string.

(** ** Access to the directory *)
Definition rev_call : M RevDir unit := fun w =>
  let w' := mkRevDir (rd_files w) (rd_copies w) (S (rd_tick w)) in
  match rev_fault (rd_tick w) with
  | Some f => (fail (fault_kind f), w')
  | None => (Ok tt, w')
  end.

Definition rev_now : M RevDir nat := fun w =>
  (Ok (rd_tick w), mkRevDir (rd_files w) (rd_copies w) (S (rd_tick w))).

Definition file_at (w : RevDir) (stem : string) : content := default Absent (dget (rd_files w) stem).

Definition is_file (stem : string) : M RevDir bool := gets (fun w => exists_ (file_at w stem)).

(** [p.read_text()] *)
Definition read_revision_text (stem : string) : M RevDir text :=
  rev_call ;; w ← get; lift (read_text (file_at w stem)).

(** [quarantine_corrupt(p)]: one forensic copy per file, never raises. *)
Definition quarantine_revision (stem : string) : M RevDir unit :=
  w ← get;
  if dmem (rd_copies w) stem then mret tt
  else try_except
    (rev_call ;;
     lift (match file_at w stem with Absent => fail EFileNotFound | Unreadable => fail EOS | _ => Ok tt end) ;;
     modify (fun w => mkRevDir (rd_files w) (dset (rd_copies w) stem (file_at w stem)) (rd_tick w)))
    COSError (fun _ => mret tt).

(** [json.loads] and the shape test, with quarantine. *)
Definition parse_revision (stem : string) (raw : text) : M RevDir json :=
  rec ← match json_loads raw with
        | Ok rec => mret rec
        | Raise _ => quarantine_revision stem ;; throw EStoreCorrupt
        end;
  if is_object rec then mret rec
  else quarantine_revision stem ;; throw EStoreCorrupt.

Definition read_revision_json (stem : string) : M RevDir json :=
  raw ← read_revision_text stem;
  parse_revision stem raw.

Definition write_file (stem : string) (c : content) : M RevDir unit :=
  modify (fun w => mkRevDir (dset (rd_files w) stem c) (rd_copies w) (rd_tick w)).

Definition suppress_rev (m : M RevDir unit) : M RevDir unit :=
  try_except m COSError (fun _ => mret tt).

(** [_atomic_write_json]: mkdir, open, write, fsync, replace, directory fsync. *)
Definition atomic_write_json (stem : string) (obj : json) : M RevDir unit :=
  rev_call ;; rev_call ;; rev_call ;; rev_call ;; rev_call ;;
  write_file stem (dumps obj) ;;
  suppress_rev (rev_call ;; finally rev_call rev_call).

(** [rec[k] = v] *)
Definition setitem (rec : json) (k : string) (v : json) : res json :=
  match rec with JObj d => Ok (JObj (dset d k v)) | _ => fail EType end.

Definition set_status (revision_id status : string) : M RevDir bool :=
  if negb (mem_str status STATUSES) then throw EValue
  else if malformed_id revision_id then mret false
  else
    present ← is_file revision_id;
    if negb present then mret false
    else
      rec ← read_revision_json revision_id;
      rec ← lift (setitem rec "status" (JStr status));
      n ← rev_now;
      rec ← lift (setitem rec "status_updated_at" (JStr (rev_iso n)));
      atomic_write_json revision_id rec ;;
      mret true.

Definition get_revision (revision_id : string) : M RevDir (option json) :=
  if malformed_id revision_id then mret None
  else
    present ← is_file revision_id;
    if negb present then mret None
    else try_except (rec ← read_revision_json revision_id; mret (Some (redact rec)))
           COSError (fun _ => mret None).

(** The stems of [rev-*.json], sorted. *)
Definition list_revisions : M RevDir (list string) :=
  gets (fun w => List.filter (fun s => startswith s "rev-") (dkeys (sort_items (rd_files w)))).

Definition prune : M RevDir unit :=
  ids ← list_revisions;
  for_each (firstn (length ids - MAX_REVISIONS) ids) (fun stem =>
    suppress_rev (rev_call ;;
      modify (fun w => mkRevDir (ddel (rd_files w) stem) (rd_copies w) (rd_tick w)))).

(** The record [persist_validated] journals. *)
Definition validated_record (revision_id created diff_hash : string) (patch : json)
    (diff : list DiffEntry) (impact : list ApplyImpact) (effective_before : json)
    (fhb : dict string) : json :=
  JObj [("revision_id", JStr revision_id); ("created_at", JStr created);
        ("diff_hash", JStr diff_hash); ("validated_patch", normalize patch);
        ("effective_before", effective_before); ("diff", JArr (map diff_dump diff));
        ("impact", JArr (map (fun i => JStr (impact_value i)) impact));
        ("file_hashes_before", fhb_json fhb); ("fhb_schema", JInt FHB_SCHEMA);
        ("binds", JArr (map JStr (dkeys (sort_items fhb)))); ("status", JStr STATUS_VALIDATED)]%string.
End journal.

Section whole.
Context {H : Sha} {F : FloatRepr} {V : RevFs} {E : EnvFs} {R : RtProc}.

(** [any(p(k) for k in x.get(field) or {})] *)
Definition any_key (patch : json) (field : string) (p : string → bool) : res bool :=
  x ← (if truthy patch then jget patch field JNull else Ok JNull);
  ks ← iter_strings x;
  Ok (existsb p ks).

(** [_hash_bytes_or_sentinel] of rs-runtime.env *)
Definition hash_bytes_or_sentinel : M EnvFile string := current_hash.

Definition file_hashes_before (patch : json) : M Rt (dict string) :=
  colored ← lift (any_key patch "stream_profiles" (fun k => endswith k ":color"));
  out ← (if (colored : bool) then
           on_proc (_ ← get_settings; n ← observe;
                    mret (match rt_tuning n with
                          | Some (Some b) => [(TUNING_PATH, "sha256:" ++ sha256 b)]%string
                          | _ => []
                          end))
         else mret []);
  runtime ← lift (any_key patch "webrtc" (fun k => mem_str k RUNTIME_ENV_FIELDS));
  if (runtime : bool) then h ← on_env hash_bytes_or_sentinel; mret (dset out RUNTIME_ENV_PATH h)
  else mret out.

Definition persist_validated (patch : json) (diff : list DiffEntry) (impact : list ApplyImpact)
    (effective_before : json) : M Rt (string * string) :=
  fhb ← file_hashes_before patch;
  let diff_hash := compute_diff_hash patch fhb in
  on_rev
    (n ← rev_now;
     let revision_id := ("rev-" ++ rev_ts n ++ "-" ++ substring_of 7 15 diff_hash)%string in
     n' ← rev_now;
     let record := validated_record revision_id (rev_iso n') diff_hash patch diff impact
                     effective_before fhb in
     v ← lift (is_applyable record);
     record ← lift (setitem record "apply_supported" (JBool (verdict_ok v)));
     atomic_write_json revision_id (redact record) ;;
     prune ;;
     mret (revision_id, diff_hash)).
End whole.

(** ** The hash binds the confirmation to one change *)
Lemma no_float_sort j : no_float j = true → no_float (sort_json j) = true.
Proof.
  induction j as [| | | | |l IH|d IH] using json_nested_ind; try done; simpl;
    rewrite !forallb_forall; intros Hj; rewrite Forall_forall in IH.
  - intros x (y & <- & Hy)%in_map_iff. apply IH; [by apply list_elem_of_In|auto].
  - intros [k v] Hin%list_elem_of_In. pose proof (proj1 (sort_items_elem _ _) Hin) as Hin'.
    apply list_elem_of_In, in_map_iff in Hin' as ([k' v'] & [= <- <-] & Hin').
    apply (IH (k', v')); [by apply list_elem_of_In|]. by apply (Hj (k', v')).
Qed.

Lemma canon_fhb fhb : sort_json (normalize (fhb_json fhb)) = fhb_json (sort_items fhb).
Proof.
  unfold fhb_json. simpl. rewrite !map_map. f_equal.
  transitivity (sort_items (map (λ '(k, v), (k, JStr v)) fhb)); [|apply sort_items_map].
  f_equal. apply map_ext. by intros [k v].
Qed.

Lemma fhb_json_inj d1 d2 : fhb_json d1 = fhb_json d2 → d1 = d2.
Proof.
  intros [= H]. revert d2 H. induction d1 as [|[k v] d1 IH]; intros [|[k2 v2] d2]; simpl; try done.
  intros [= -> -> H]. f_equal. by apply IH.
Qed.

Lemma no_float_fhb d : no_float (fhb_json d) = true.
Proof. apply forallb_forall. by intros x ([k v] & <- & _)%in_map_iff. Qed.

Section binding.
Context {H : Sha} {F : FloatRepr} (sha_inj : Inj (=) (=) sha256).

(** Two validated changes have the same hash exactly when their patches are the same
    document, up to the order of keys and integral floats, and the files they were
    validated on have the same hashes. *)
Theorem diff_hash_binds p1 f1 p2 f2 :
  no_float (normalize p1) = true → no_float (normalize p2) = true →
  compute_diff_hash p1 f1 = compute_diff_hash p2 f2 ↔
  sort_json (normalize p1) = sort_json (normalize p2) ∧ sort_items f1 = sort_items f2.
Proof.
  intros H1 H2. unfold compute_diff_hash, canon. rewrite !canon_fhb. split; [|by intros [-> ->]].
  intros Heq. apply (inj (String.append "sha256:")) in Heq. apply sha_inj in Heq.
  apply (f_equal chars) in Heq. rewrite !chars_str in Heq.
  assert (Hdel : ∀ r, delimited ("010"%char :: r)) by (intros r; simpl; tauto).
  destruct (print_json_unique _ _ _ _ (no_float_sort _ H1) (no_float_sort _ H2) (Hdel _) (Hdel _) Heq)
    as [Hp Hf].
  split; [done|]. apply fhb_json_inj, print_json_inj; [apply no_float_fhb..|].
  exact (f_equal (@tail _) Hf).
Qed.
End binding.

(** ** Redaction *)
Definition is_redacted (v : json) : bool :=
  match v with JStr s => String.eqb s "***REDACTED***" | _ => false end.

(** Under every secret key, at any depth, there is only the marker. *)
Fixpoint secret_free (j : json) : bool :=
  match j with
  | JObj d => forallb (fun '(k, v) => if is_secret_key k then is_redacted v else secret_free v) d
  | JArr l => forallb secret_free l
  | _ => true
  end.

(** What is shown of a journal holds no value of a secret key at any depth, and redaction
    changes nothing else. *)
Theorem redact_hides j : secret_free (redact j) = true ∧ (secret_free j = true → redact j = j).
Proof.
  induction j as [| | | | |l IH|d IH] using json_nested_ind; try done; rewrite Forall_forall in IH.
  - simpl. split.
    + apply forallb_forall. intros x (y & <- & Hy%list_elem_of_In)%in_map_iff. by apply IH.
    + rewrite forallb_forall. intros Hl. f_equal. rewrite <- (map_id l) at 2. apply map_ext_in.
      intros x Hx. apply IH; [by apply list_elem_of_In|auto].
  - simpl. split.
    + apply forallb_forall. intros [k v] ([k' v'] & [= <- <-] & Hy%list_elem_of_In)%in_map_iff.
      destruct (is_secret_key k') eqn:Hk; rewrite ?Hk; [done|]. by apply (IH (k', v')).
    + rewrite forallb_forall. intros Hd. f_equal. rewrite <- (map_id d) at 2. apply map_ext_in.
      intros [k v] Hin. specialize (Hd _ Hin). simpl in Hd. f_equal.
      destruct (is_secret_key k); [|apply (IH (k, v)); [by apply list_elem_of_In|done]].
      destruct v; try done. simpl in Hd. by apply String.eqb_eq in Hd as ->.
Qed.

(** ** Access to the journal *)
Section journal_facts.
Context {H : Sha} {F : FloatRepr} {V : RevFs}.

Local Abbreviation same := (keeps rd_files).

Lemma rev_call_same : preserves same rev_call.
Proof. intros w. unfold rev_call. by destruct (rev_fault _). Qed.
Lemma rev_now_same : preserves same rev_now.
Proof. done. Qed.
Lemma is_file_same stem : preserves same (is_file stem).
Proof. done. Qed.
#[local] Hint Resolve rev_call_same rev_now_same is_file_same : pres.

Lemma rev_quarantine_same stem : preserves same (quarantine_revision stem).
Proof. unfold quarantine_revision. pres. Qed.
#[local] Hint Resolve rev_quarantine_same : pres.

Lemma parse_revision_same stem raw : preserves same (parse_revision stem raw).
Proof. unfold parse_revision. pres. Qed.
Lemma read_text_same stem : preserves same (read_revision_text stem).
Proof. unfold read_revision_text. pres. Qed.
#[local] Hint Resolve parse_revision_same read_text_same : pres.

Lemma read_revision_same stem : preserves same (read_revision_json stem).
Proof. unfold read_revision_json. pres. Qed.
#[local] Hint Resolve read_revision_same : pres.

Lemma rev_run {A} (m : M RevDir A) w r w' : preserves same m → m w = (r, w') → rd_files w' = rd_files w.
Proof. intros Hm Hr. specialize (Hm w). by rewrite Hr in Hm. Qed.

Lemma suppress_fsync_same : preserves same (suppress_rev (rev_call ;; finally rev_call rev_call)).
Proof. unfold suppress_rev. pres. Qed.

(** The record a read returns is the one on disk. *)
Lemma parse_revision_ok stem raw w rec w' :
  parse_revision stem raw w = (Ok rec, w') → raw = TxDoc rec ∧ is_object rec = true ∧ w' = w.
Proof.
  intros Hr. apply bind_ok_inv in Hr as (j & w1 & Hj & Hr).
  destruct raw as [| | |j'|s]; simpl in Hj;
    try (apply bind_ok_inv in Hj as (? & ? & _ & Hj); discriminate Hj).
  apply ret_ok_inv in Hj as [-> ->].
  destruct (is_object j') eqn:Ho; [by apply ret_ok_inv in Hr as [-> ->]|].
  apply bind_ok_inv in Hr as (? & ? & _ & Hr). discriminate Hr.
Qed.

Lemma read_revision_ok stem w rec w' :
  read_revision_json stem w = (Ok rec, w') →
  file_at w stem = Text (TxDoc rec) ∧ is_object rec = true ∧ rd_files w' = rd_files w.
Proof.
  intros Hr. pose proof (rev_run _ _ _ _ (read_revision_same stem) Hr) as Hs.
  apply bind_ok_inv in Hr as (raw & w1 & Hraw & Hr).
  apply parse_revision_ok in Hr as (-> & Ho & ->). split_and!; auto.
  apply bind_ok_inv in Hraw as (u & w2 & Hc & Hraw).
  pose proof (rev_run _ _ _ _ rev_call_same Hc) as Hw2.
  apply bind_ok_inv in Hraw as (w3 & w4 & [= <- <-] & Hraw). apply lift_ok_inv in Hraw as [Ht ->].
  unfold file_at in *. rewrite Hw2 in Ht. destruct (default Absent (dget (rd_files w) stem)); simplify_eq/=; done.
Qed.

(** A durable write installs the document or leaves the journal alone; it has installed it
    when it returns, and only the death of the process interrupts it after that. *)
Lemma write_json_cases stem obj w r w' :
  atomic_write_json stem obj w = (r, w') →
  (rd_files w' = dset (rd_files w) stem (dumps obj) ∧
     match r with Ok _ => True | Raise e => ex_kind e = EKilled end) ∨
  (rd_files w' = rd_files w ∧ is_ok r = false).
Proof.
  destruct w as [fs cs n]. intros Hr.
  unfold atomic_write_json, suppress_rev, finally, try_except, write_file, modify,
    rev_call, mbind, M_bind, mret, M_ret in Hr.
  simpl in Hr.
  repeat (destruct (rev_fault _) as [[]|] in Hr; simpl in Hr); simplify_eq/=; auto.
Qed.

(** What [set_status] makes of a record. *)
Definition restamped (d : dict json) (status iso : string) : json :=
  JObj (dset (dset d "status" (JStr status)) "status_updated_at" (JStr iso)).

Definition restamp (stem status : string) (w w' : RevDir) : Prop :=
  ∃ d iso, file_at w stem = Text (TxDoc (JObj d)) ∧
    rd_files w' = dset (rd_files w) stem (dumps (restamped d status iso)).

(** Setting a status rewrites the record with that status, or leaves the journal as it is;
    [True] means rewritten, and a raised exception means unchanged unless the process died. *)
Lemma set_status_cases rid status w r w' :
  set_status rid status w = (r, w') →
  (r = Ok true ∧ restamp rid status w w') ∨
  (r = Ok false ∧ w' = w ∧ (malformed_id rid = true ∨ file_at w rid = Absent)) ∨
  (∃ e, r = Raise e ∧
     (rd_files w' = rd_files w ∨ (ex_kind e = EKilled ∧ restamp rid status w w'))).
Proof.
  intros Hr. unfold set_status in Hr. destruct (negb (mem_str status STATUSES)).
  { injection Hr as <- <-. right. right. eauto. }
  destruct (malformed_id rid) eqn:Hid; [injection Hr as <- <-; right; left; auto|].
  apply bind_inv in Hr as [(present & w1 & [= <- <-] & Hr)|(e & Hf & ->)]; [|done].
  destruct (exists_ (file_at w rid)) eqn:Hex; simpl in Hr.
  2:{ injection Hr as <- <-. right. left. split_and!; auto. right. by destruct (file_at w rid). }
  apply bind_inv in Hr as [(rec & w2 & (Hfile & Ho & Hw2)%read_revision_ok & Hr)|(e & Hrd & ->)].
  2:{ right. right. exists e. split; [done|]. left. by eapply rev_run; [apply read_revision_same|]. }
  destruct rec as [| | | | | |d]; try done.
  apply bind_inv in Hr as [(rec & w3 & [[= <-] ->]%lift_ok_inv & Hr)|(e & [=] & ->)].
  apply bind_inv in Hr as [(n & w4 & [= <- <-] & Hr)|(e & [=] & ->)].
  apply bind_inv in Hr as [(rec & w5 & [[= <-] ->]%lift_ok_inv & Hr)|(e & [=] & ->)].
  apply bind_inv in Hr as [(u & w6 & [[Hw6 _]|[_ [=]]]%write_json_cases & Hr)
                          |(e & Hwr%write_json_cases & ->)].
  - injection Hr as <- <-. left. split; [done|]. exists d, (rev_iso (rd_tick w2)). simpl in Hw6.
    split; [done|]. by rewrite Hw6, Hw2.
  - right. right. exists e. split; [done|]. simpl in Hwr. rewrite Hw2 in Hwr.
    destruct Hwr as [[Hw6 Hk]|[Hw6 _]]; [right; split; [done|]|by left].
    exists d, (rev_iso (rd_tick w2)). done.
Qed.
End journal_facts.

(** ** Pruning *)
Section pruning.
Context {V : RevFs}.

Definition revision_ids (w : RevDir) : list string :=
  List.filter (fun s => startswith s "rev-") (dkeys (sort_items (rd_files w))).

Lemma dkeys_ddel_perm {A} (d : dict A) k :
  NoDup (dkeys d) → k ∈ dkeys d → dkeys d ≡ₚ k :: dkeys (ddel d k).
Proof.
  induction d as [|[k' v] d IH]; [set_solver|]. unfold dkeys in *. simpl.
  intros [Hk Hd]%NoDup_cons [->|Hin]%elem_of_cons.
  - rewrite decide_True by done. f_equiv.
    assert (Hsame : ddel d k' = d); [|by rewrite Hsame].
    clear IH Hd. induction d as [|[k2 v2] d IH]; [done|]. simpl in *.
    rewrite decide_False by set_solver. rewrite IH by set_solver. done.
  - rewrite decide_False by (intros ->; done). simpl. rewrite IH by done.
    apply Permutation_swap.
Qed.

Lemma filter_perm {A} (p : A → bool) (a b : list A) : a ≡ₚ b → List.filter p a ≡ₚ List.filter p b.
Proof.
  induction 1 as [|x l l' _ IH|x y l|l1 l2 l3 _ IH1 _ IH2]; simpl; [done|..].
  - destruct (p x); [by rewrite IH|done].
  - destruct (p x), (p y); try done. apply Permutation_swap.
  - by rewrite IH1.
Qed.

Lemma revision_ids_perm w :
  revision_ids w ≡ₚ List.filter (fun s => startswith s "rev-") (dkeys (rd_files w)).
Proof. apply filter_perm. unfold dkeys. apply (Permutation_map fst), sort_items_perm. Qed.

Definition drop_file (stem : string) : M RevDir unit :=
  suppress_rev (rev_call ;;
    modify (fun w => mkRevDir (ddel (rd_files w) stem) (rd_copies w) (rd_tick w))).

Lemma drop_file_files stem w :
  rd_files (drop_file stem w).2 = rd_files w ∨ rd_files (drop_file stem w).2 = ddel (rd_files w) stem.
Proof.
  unfold drop_file, suppress_rev, try_except, rev_call, mbind, M_bind. simpl.
  destruct (rev_fault (rd_tick w)) as [[]|]; simpl; auto.
Qed.

Lemma drop_loop_keeps l w stem :
  stem ∉ l → file_at (for_each l drop_file w).2 stem = file_at w stem.
Proof.
  revert w. induction l as [|s l IH]; intros w Hs; [done|]. simpl. unfold mbind, M_bind.
  assert (Hone : file_at (drop_file s w).2 stem = file_at w stem).
  { unfold file_at. destruct (drop_file_files s w) as [->| ->]; [done|].
    rewrite dget_ddel_ne; [done|]. set_solver. }
  destruct (drop_file s w) as [[[]|e] w1]; simpl in *; [|done]. rewrite IH; [done|set_solver].
Qed.

Lemma drop_loop_length l w :
  (∀ n, rev_fault n = None) → NoDup l → NoDup (dkeys (rd_files w)) →
  (∀ s, s ∈ l → s ∈ dkeys (rd_files w) ∧ startswith s "rev-" = true) →
  (length (revision_ids (for_each l drop_file w).2) + length l = length (revision_ids w))%nat.
Proof.
  intros Hok. revert w. induction l as [|s l IH]; intros w Hnd Hfs Hin; simpl; [lia|].
  apply NoDup_cons in Hnd as [Hs Hnd]. destruct (Hin s ltac:(set_solver)) as [Hmem Hrev].
  unfold mbind, M_bind, drop_file at 1, suppress_rev, try_except, rev_call, mbind, M_bind.
  rewrite Hok. simpl. set (w1 := mkRevDir (ddel (rd_files w) s) (rd_copies w) (S (rd_tick w))).
  assert (Hlen : length (revision_ids w) = S (length (revision_ids w1))).
  { rewrite !(Permutation_length (revision_ids_perm _)). unfold w1. simpl.
    pose proof (filter_perm (λ s0, startswith s0 "rev-") _ _ (dkeys_ddel_perm _ _ Hfs Hmem)) as Hp.
    apply Permutation_length in Hp. simpl in Hp. by rewrite Hrev in Hp. }
  rewrite Hlen, <- (IH w1 Hnd); [simpl; lia|by apply NoDup_ddel|].
  intros s' Hs'. destruct (Hin s') as [? ?]; [set_solver|]. split; [|done].
  simpl. apply dkeys_ddel. split; [|done]. intros ->. done.
Qed.
End pruning.

Section prune_theorem.
Context {V : RevFs}.

Lemma dkeys_sorted_NoDup (w : RevDir) : NoDup (dkeys (rd_files w)) → NoDup (revision_ids w).
Proof.
  intros Hnd. rewrite revision_ids_perm. induction (dkeys (rd_files w)) as [|k l IH]; simpl; [done|].
  apply NoDup_cons in Hnd as [Hk Hl]. destruct (startswith k "rev-"); [|auto].
  constructor; [|auto]. rewrite list_elem_of_In, filter_In, <- list_elem_of_In. tauto.
Qed.

(** Pruning removes only the first revisions in the order of their names, however many
    removals fail; when none fails at most 50 revisions are left. *)
Theorem prune_keeps_newest w :
  NoDup (dkeys (rd_files w)) →
  (∀ stem, stem ∉ firstn (length (revision_ids w) - 50) (revision_ids w) →
     file_at (prune w).2 stem = file_at w stem) ∧
  ((∀ n, rev_fault n = None) →
     length (revision_ids (prune w).2) = Nat.min 50 (length (revision_ids w))).
Proof.
  intros Hnd.
  assert (Hprune : (prune w).2
    = (for_each (firstn (length (revision_ids w) - 50) (revision_ids w)) drop_file w).2) by done.
  rewrite Hprune. split; [intros stem; apply drop_loop_keeps|].
  intros Hok. set (l := firstn (length (revision_ids w) - 50) (revision_ids w)).
  assert (Hl : (length (revision_ids (for_each l drop_file w).2) + length l = length (revision_ids w))%nat).
  { apply drop_loop_length; [done| |done|].
    - pose proof (dkeys_sorted_NoDup w Hnd) as Hids.
      rewrite <- (firstn_skipn (length (revision_ids w) - 50) (revision_ids w)) in Hids.
      by apply NoDup_app in Hids as [? _].
    - intros s Hs. assert (Hs' : s ∈ revision_ids w).
      { unfold l in Hs. rewrite <- (firstn_skipn (length (revision_ids w) - 50) (revision_ids w)). set_solver. }
      rewrite revision_ids_perm in Hs'. by apply list_elem_of_In, filter_In in Hs' as [?%list_elem_of_In ?]. }
  assert (Hlen : length l = (length (revision_ids w) - 50)%nat).
  { unfold l. rewrite length_firstn. lia. }
  lia.
Qed.
End prune_theorem.

(** ** Concrete runs *)
#[local] Instance plain_sha : Sha := {| sha256 b := ("h" ++ b)%string |}.
#[local] Instance no_repr : FloatRepr := {| float_repr _ := "nan"%string |}.

Definition calm_rev (ts : string) : RevFs :=
  {| rev_fault _ := None; rev_ts _ := ts; rev_iso _ := "2026-01-01T00:00:00+00:00"%string |}.

Definition patch_a : json := JObj [("webrtc", JObj [("ice_policy", JStr "relay");
  ("turn_credential_ttl_seconds", JFloat (1200 # 2))])]%string.
Definition patch_b : json := JObj [("webrtc", JObj [("turn_credential_ttl_seconds", JInt 600);
  ("ice_policy", JStr "relay")])]%string.
Definition patch_c : json := JObj [("webrtc", JObj [("ice_policy", JStr "all")])]%string.

Lemma diff_hash_binds_witness :
  compute_diff_hash patch_a [] = compute_diff_hash patch_b [] ∧
  compute_diff_hash patch_a [] ≠ compute_diff_hash patch_c [].
Proof.
  assert (Hinj : Inj (=) (=) (sha256 (Sha:=plain_sha))) by (intros a b [= H]; exact H).
  split.
  - apply (diff_hash_binds Hinj patch_a [] patch_b []); [reflexivity|reflexivity|].
    split; vm_compute; reflexivity.
  - intros Heq. apply (diff_hash_binds Hinj patch_a [] patch_c []) in Heq; [|reflexivity|reflexivity].
    destruct Heq as [Heq _]. vm_compute in Heq. discriminate Heq.
Defined.

Definition sample_record : dict json :=
  [("revision_id", JStr "rev-1-abc"); ("status", JStr "validated")]%string.
Definition sample_dir : RevDir := mkRevDir [("rev-1-abc", Text (TxDoc (JObj sample_record)))]%string [] 0.

(** Bytes that are not UTF-8 leave [read_text] outside the handler: no forensic copy, and a
    [UnicodeDecodeError] instead of [StoreCorrupt]. *)
Lemma non_utf8_revision_escapes :
  set_status (V:=calm_rev "t") "rev-1-abc" "applying" (mkRevDir [("rev-1-abc", NotUtf8)]%string [] 0)
  = (fail EUnicodeDecode, mkRevDir [("rev-1-abc", NotUtf8)]%string [] 1).
Proof. vm_compute. reflexivity. Qed.

(** A clock that went back: the revision just journalled sorts first and is pruned by the
    call that reports its id. *)
Definition full_dir : RevDir :=
  mkRevDir (map (fun n => ("rev-2026" ++ pretty (1000 + Z.of_nat n), Text (TxDoc (JObj sample_record))))%string
              (seq 0 50)) [] 0.

Lemma early_clock_loses_revision :
  let w := mkRt sample_env full_dir (mkProc [] None 0) in
  let '(r, w') := persist_validated (E:=calm_fs) (V:=calm_rev "19700101T000000")
                    (R:=sample_proc "color_camera" 10000 EmptyString) patch_c [] [NEW_SESSIONS_ONLY] JNull w in
  match r with Ok (rid, _) => file_at (rt_rev w') rid = Absent | Raise _ => False end.
Proof. vm_compute. reflexivity. Qed.

Lemma prune_keeps_newest_witness :
  file_at (prune (V:=calm_rev "t") full_dir).2 "rev-20261000" = file_at full_dir "rev-20261000".
Proof.
  destruct (prune_keeps_newest (V:=calm_rev "t") full_dir) as [Hk _].
  - apply (bool_decide_unpack _). vm_compute. exact I.
  - apply Hk. apply (bool_decide_unpack _). vm_compute. exact I.
Defined.
