(* ===== verification/RuntimeValidator.v ===== *)
(** * The dry-run validator of runtime-configuration patches

    Models [app/services/runtime_config_validator.py]: a partial patch is compared with the
    effective configuration, every change classified by its impact, and the merged
    sections checked against the schema. The texts of the messages are replaced by the
    constructors of [reason] and [warning]; the production issues of rule R11 are those the
    environment reports. *)
From Stdlib Require Import Ascii.
From S2P Require Import Prelude.
From S2P Require Import PyVal.
From S2P Require Import PyStr.
From S2P Require Import RuntimeEnv.
From S2P Require Import RuntimeSchema.
From S2P Require Import RuntimeBuilder.

Definition DEPLOYMENT_FIELDS : list string :=
  ["HOST_LAN_IP"; "VIEWER_TOKENS"; "CAMERA_ENV"; "JANUS_BIND"; "FIREWALL"]%string.
Definition DEPLOYMENT_MARKERS : list string :=
  ["firewall"; "bind"; "host_lan"; "viewer_token"; "camera_env"]%string.
Definition TOP_SECRET_MARKERS : list string := ["secret"; "password"; "pwd"; "admin_token"]%string.
Definition ALLOWED_TOP : list string := ["version"; "webrtc"; "stream_profiles"; "diagnostics"]%string.

(** Per field: its impact and its source. *)
Definition WEBRTC_POLICY : dict (ApplyImpact * string) :=
  [("ice_policy", (NEW_SESSIONS_ONLY, "Settings.ice_policy (env ICE_POLICY)"));
   ("turn_credential_ttl_seconds", (NEW_SESSIONS_ONLY, "Settings.turn_cred_ttl (env TURN_CRED_TTL)"));
   ("turn_enabled", (REJECTED, "derived (nat_cfg) — read-only"));
   ("stun_enabled", (REJECTED, "derived (nat_cfg) — read-only"));
   ("max_reconnect_attempts", (DEPLOYMENT_ONLY, "client config.js — no server apply path"));
   ("reconnect_base_delay_ms", (DEPLOYMENT_ONLY, "client config.js — no server apply path"));
   ("reconnect_max_delay_ms", (DEPLOYMENT_ONLY, "client config.js — no server apply path"))]%string.

Definition DIAG_POLICY : dict (ApplyImpact * string) :=
  [("health_stream_stale_ms", (DEPLOYMENT_ONLY, "Settings.watchdog_stale_ms (env) — needs restart"));
   ("reboot_allowed", (REJECTED, "Settings.watchdog_reboot_enabled — read-only safety gate"));
   ("debug_stats_enabled", (REJECTED, "client-side; no server toggle"));
   ("telemetry_enabled", (REJECTED, "always-on; no opt-out"));
   ("telemetry_interval_seconds", (DEPLOYMENT_ONLY, "client config.js — no server apply path"));
   ("fdir_enabled", (REJECTED, "always-on; no disable flag"));
   ("auto_recovery_enabled", (REJECTED, "always-on; no toggle"))]%string.

Definition STREAM_TUNABLE : list string := ["resolution"; "fps"; "bitrate_kbps"; "gop_frames"]%string.

Definition STREAM_READONLY : dict string :=
  [("codec", "fixed H.264 constant — read-only");
   ("encoder", "encoder preset is color-tuning.env only — modeled read-only");
   ("enabled", "= Allocation.desired_active; toggled via lifecycle — read-only");
   ("mountpoint_id", "allocator-owned — read-only");
   ("rtp_port", "allocator-owned — read-only");
   ("sensor_key", "derived from the map key — read-only")]%string.

(** Why an entry of the patch is refused. *)
Inductive reason :=
  | NotAnObject | BadVersion | DeploymentField | SecretField | UnknownTop
  | SchemaViolation                (* pydantic's message *)
  | UnknownField | ReadOnlyField | NonCanonicalKey | NoRuntimeApi | NotInCatalog.

#[export] Instance reason_eq_dec : EqDecision reason.
Proof. solve_decision. Defined.

Record ValidationErrorEntry := mkVError { ve_path : option string; ve_reason : reason }.

Inductive warning :=
  | RelayWithoutTurn | Unverified (path : string)
  | DuplicateMountpoint | DuplicatePort | Production (issue : string).

Record ValidationResponse := mkResponse {
  vr_valid : bool;
  vr_diff : list DiffEntry;
  vr_impact : list ApplyImpact;
  vr_errors : list ValidationErrorEntry;
  vr_warnings : list warning;
}.

(** What the sections of the patch contribute. *)
Record findings := mkFindings {
  fi_diff : list DiffEntry;
  fi_errors : list ValidationErrorEntry;
  fi_warnings : list warning;
}.

Definition no_findings : findings := mkFindings [] [] [].
Definition join_findings (a b : findings) : findings :=
  mkFindings (fi_diff a ++ fi_diff b) (fi_errors a ++ fi_errors b) (fi_warnings a ++ fi_warnings b).
Definition error_at (path : string) (r : reason) : findings := mkFindings [] [mkVError (Some path) r] [].
Definition errors_only (l : list ValidationErrorEntry) : findings := mkFindings [] l [].
Definition diff_only (d : DiffEntry) : findings := mkFindings [d] [] [].
Definition warn (w : warning) : findings := mkFindings [] [] [w].

(** [patch.get(field) or {}] *)
Definition section (patch : dict json) (field : string) : json :=
  match dget patch field with
  | Some v => if truthy v then v else JObj []
  | None => JObj []
  end.

Definition mapping (j : json) : res (dict json) := match j with JObj d => Ok d | _ => fail EType end.

(** [{**base, **patch}] *)
Definition overlay_dict (base patch : dict json) : dict json :=
  fold_left (fun d '(k, v) => dset d k v) patch base.

(** [_merged_errors] *)
Definition merged_errors (m : model) (base patch : dict json) (prefix : string)
    : list ValidationErrorEntry :=
  flat_map (fun loc =>
      match loc with
      | Some field =>
          if mem_str field (dkeys patch)
          then [mkVError (Some (prefix ++ "." ++ field)%string) SchemaViolation] else []
      | None => [mkVError (Some prefix) SchemaViolation]
      end)
    (model_errors m (overlay_dict base patch)).

(** The loop over the top-level keys. *)
Definition top_key (k : string) : findings :=
  if mem_str (upper k) DEPLOYMENT_FIELDS || existsb (fun m => contains m (lower k)) DEPLOYMENT_MARKERS
  then error_at k DeploymentField
  else if mem_str (upper k) SENSITIVE_KEYS || existsb (fun m => contains m (lower k)) TOP_SECRET_MARKERS
  then error_at k SecretField
  else if negb (mem_str k ALLOWED_TOP) then error_at k UnknownTop
  else no_findings.

(** One field of a section that a policy governs. *)
Definition policy_field (prefix : string) (policy : dict (ApplyImpact * string)) (eff : dict json)
    (field : string) (to : json) : findings :=
  let path := (prefix ++ "." ++ field)%string in
  match dget policy field with
  | None => error_at path UnknownField
  | Some (impact, source) =>
      let frm := default JNull (dget eff field) in
      if py_eq frm to then no_findings
      else join_findings
             (if decide (impact = REJECTED) then error_at path ReadOnlyField else no_findings)
             (diff_only (mkDiff path frm to source impact))
  end.

Definition collect {A} (f : A → findings) (l : list A) : findings :=
  fold_right (fun a acc => join_findings (f a) acc) no_findings l.

Section validator.
Context {P : Pydantic} {R : RtProc}.

(** ** The sections *)
Definition webrtc_section (eff : EffectiveRuntimeConfig) (wp : json) : res findings :=
  if negb (truthy wp) then Ok no_findings
  else
    d ← mapping wp;
    let base := webrtc_dump (ef_webrtc eff) in
    Ok (join_findings (errors_only (merged_errors webrtc_model base d "webrtc"))
       (join_findings
          (if py_eq (default JNull (dget d "ice_policy")) (JStr "relay") && negb (turn_enabled (ef_webrtc eff))
           then warn RelayWithoutTurn else no_findings)
          (collect (fun '(field, to) => policy_field "webrtc" WEBRTC_POLICY base field to) d))).

Definition diagnostics_section (eff : EffectiveRuntimeConfig) (dp : json) : res findings :=
  if negb (truthy dp) then Ok no_findings
  else
    d ← mapping dp;
    let base := diagnostics_dump (ef_diagnostics eff) in
    Ok (join_findings (errors_only (merged_errors diagnostics_model base d "diagnostics"))
          (collect (fun '(field, to) => policy_field "diagnostics" DIAG_POLICY base field to) d)).

(** *** The catalog of supported modes *)
Definition catalog_token (name : string) : option string :=
  if contains "color" name || contains "rgb" name then Some "color"%string
  else if contains "depth" name then Some "depth"%string
  else if contains "infrared" name || endswith name "ir" || contains "ir" name then Some "ir1"%string
  else None.

Fixpoint catalog_modes (ms : list json) : res (list (string * Z)) :=
  match ms with
  | [] => Ok []
  | m :: ms' =>
      w ← jget m "width" JNull; w ← to_str w;
      h ← jget m "height" JNull; h ← to_str h;
      f ← jget m "fps" (JInt 0); f ← to_int f;
      rest ← catalog_modes ms';
      Ok ((w ++ "x" ++ h, f)%string :: rest)
  end.

Definition as_list (j : json) : res (list json) := match j with JArr l => Ok l | _ => fail EType end.

Fixpoint catalog_sensors (out : dict (list (string * Z))) (sensors : list json)
    : res (dict (list (string * Z))) :=
  match sensors with
  | [] => Ok out
  | sd :: rest =>
      name ← jget sd "name" (JStr EmptyString); name ← to_str name;
      match catalog_token (lower name) with
      | None => catalog_sensors out rest
      | Some token =>
          ms ← jget sd "modes" (JArr []); ms ← as_list ms; modes ← catalog_modes ms;
          catalog_sensors (dset out token (default [] (dget out token) ++ modes)) rest
      end
  end.

(** [_color_modes]; [None] on any exception. *)
Definition color_modes : M Proc (option (dict (list (string * Z)))) :=
  n ← observe;
  lift (or_else (cat ← match rt_catalog n with Some c => Ok c | None => fail ERuntime end;
                 l ← jget cat "sensors" (JArr []); l ← as_list l;
                 out ← catalog_sensors [] l;
                 Ok (Some out)) None).

Definition mode_listed (m : string * Z) (l : list (string * Z)) : bool :=
  existsb (fun x => String.eqb (fst m) (fst x) && (snd m =? snd x)) l.

(** [getattr(cur, field, None) if cur is not None else None] *)
Definition profile_attr (cur : option EffectiveStreamProfile) (field : string) : json :=
  match cur with
  | None => JNull
  | Some p =>
      match dget (stream_dump (ep_stream p)) field with
      | Some v => v
      | None => if String.eqb field "runtime_active" then jopt JBool (ep_runtime_active p) else JNull
      end
  end.

(** R6: the color mode against the catalog. *)
Definition color_mode_check (modes : option (dict (list (string * Z)))) (cur : option EffectiveStreamProfile)
    (path field : string) (to : json) : res findings :=
  if negb (mem_str field ["resolution"; "fps"]%string) then Ok no_findings
  else
    match modes with
    | None => Ok (warn (Unverified path))
    | Some ms =>
        match dget ms "color" with
        | None => Ok no_findings
        | Some listed =>
            let current f dflt := match cur with Some _ => profile_attr cur f | None => dflt end in
            res ← to_str (if String.eqb field "resolution" then to else current "resolution"%string (JStr "640x480"));
            rate ← to_int (if String.eqb field "fps" then to else current "fps"%string (JInt 15));
            Ok (if mode_listed (res, rate) listed then no_findings else error_at path NotInCatalog)
        end
    end.

(** One field of a stream profile. *)
Definition stream_field (modes : option (dict (list (string * Z)))) (cur : option EffectiveStreamProfile)
    (key sensor field : string) (to : json) : res findings :=
  let path := ("stream_profiles." ++ key ++ "." ++ field)%string in
  let frm := profile_attr cur field in
  if py_eq frm to then Ok no_findings
  else
    match dget STREAM_READONLY field with
    | Some source =>
        Ok (join_findings (error_at path ReadOnlyField) (diff_only (mkDiff path frm to source REJECTED)))
    | None =>
        if mem_str field STREAM_TUNABLE then
          if negb (String.eqb sensor "color") then
            Ok (join_findings (error_at path NoRuntimeApi)
                  (diff_only (mkDiff path frm to "Initialize-time default (no runtime API)" REJECTED)))
          else
            checked ← color_mode_check modes cur path field to;
            Ok (join_findings checked
                  (diff_only (mkDiff path frm to "rs-color.tuning.env" RESTART_ENCODER)))
        else Ok (error_at path UnknownField)
    end.

Fixpoint stream_fields (modes : option (dict (list (string * Z)))) (cur : option EffectiveStreamProfile)
    (key sensor : string) (prof : dict json) : res findings :=
  match prof with
  | [] => Ok no_findings
  | (field, to) :: rest =>
      a ← stream_field modes cur key sensor field to;
      b ← stream_fields modes cur key sensor rest;
      Ok (join_findings a b)
  end.

Definition stream_base (cur : option EffectiveStreamProfile) (key : string) : dict json :=
  match cur with
  | Some p => stream_dump (ep_stream p)
  | None => [("sensor_key", JStr key); ("mountpoint_id", JInt 1); ("rtp_port", JInt 1024)]%string
  end.

Fixpoint stream_profiles_section (modes : option (dict (list (string * Z)))) (eff : EffectiveRuntimeConfig)
    (sp : dict json) : res findings :=
  match sp with
  | [] => Ok no_findings
  | (key, prof) :: rest =>
      a ← (if negb (is_canonical_sensor_key key)
           then Ok (error_at ("stream_profiles." ++ key)%string NonCanonicalKey)
           else
             let cur := dget (ef_stream_profiles eff) key in
             d ← mapping (if truthy prof then prof else JObj []);
             fs ← stream_fields modes cur key (sensor_of key) d;
             Ok (join_findings
                   (errors_only (merged_errors stream_model (stream_base cur key) d
                      ("stream_profiles." ++ key)%string)) fs));
      b ← stream_profiles_section modes eff rest;
      Ok (join_findings a b)
  end.

(** R8: the allocations of the effective view. *)
Definition allocation_audit (eff : EffectiveRuntimeConfig) : findings :=
  let ps := map ep_stream (dvals (ef_stream_profiles eff)) in
  join_findings
    (if bool_decide (NoDup (map mountpoint_id ps)) then no_findings else warn DuplicateMountpoint)
    (if bool_decide (NoDup (map stream_rtp_port ps)) then no_findings else warn DuplicatePort).

(** [list(dict.fromkeys(...))] *)
Fixpoint dedup_impacts (seen l : list ApplyImpact) : list ApplyImpact :=
  match l with
  | [] => []
  | i :: l' => if bool_decide (i ∈ seen) then dedup_impacts seen l' else i :: dedup_impacts (i :: seen) l'
  end.

Definition version_check (d : dict json) : findings :=
  match dget d "version" with
  | Some v => if py_eq v (JInt 1) then no_findings else error_at "version" BadVersion
  | None => no_findings
  end.

Definition items_of (j : json) : res (dict json) := match j with JObj d => Ok d | _ => fail EAttribute end.

Definition validate (patch : json) : M Proc ValidationResponse :=
  match patch with
  | JObj d =>
      eff ← build_effective;
      w ← lift (webrtc_section eff (section d "webrtc"));
      g ← lift (diagnostics_section eff (section d "diagnostics"));
      let sp := section d "stream_profiles" in
      modes ← (if truthy sp then color_modes else mret None);
      sps ← lift (items_of sp);
      s ← lift (stream_profiles_section modes eff sps);
      n ← observe;
      let all := join_findings (version_check d) (join_findings (collect top_key (dkeys d))
                   (join_findings w (join_findings g (join_findings s (join_findings (allocation_audit eff)
                   (mkFindings [] [] (map Production (rt_production n)))))))) in
      mret (mkResponse (match fi_errors all with [] => true | _ => false end) (fi_diff all)
              (dedup_impacts [] (map de_impact (fi_diff all))) (fi_errors all) (fi_warnings all))
  | _ => mret (mkResponse false [] [] [mkVError None NotAnObject] [])
  end.
End validator.

(** ** Findings add up *)
Lemma join_errors a b :
  fi_errors (join_findings a b) = [] ↔ fi_errors a = [] ∧ fi_errors b = [].
Proof. simpl. rewrite app_nil. done. Qed.

Lemma collect_errors {A} (f : A → findings) l :
  fi_errors (collect f l) = [] ↔ ∀ a, a ∈ l → fi_errors (f a) = [].
Proof.
  induction l as [|a l IH]; [set_solver|]. cbn [collect fold_right].
  rewrite join_errors. fold (collect f l). rewrite IH. set_solver.
Qed.

Lemma collect_diff {A} (f : A → findings) l x :
  x ∈ fi_diff (collect f l) → ∃ a, a ∈ l ∧ x ∈ fi_diff (f a).
Proof.
  induction l as [|a l IH]; [set_solver|]. cbn [collect fold_right]. simpl.
  intros [?|?%IH]%elem_of_app; set_solver.
Qed.

Lemma dget_overlay base patch k :
  k ∉ dkeys patch → dget (overlay_dict base patch) k = dget base k.
Proof.
  unfold overlay_dict. revert base. induction patch as [|[k' v] patch IH]; intros base Hk; simpl; [done|].
  unfold dkeys in Hk. simpl in Hk. rewrite IH by set_solver. apply dget_dset_ne. set_solver.
Qed.

Lemma overlay_keys base patch k :
  k ∈ dkeys (overlay_dict base patch) → k ∈ dkeys base ∨ k ∈ dkeys patch.
Proof.
  unfold overlay_dict. revert base. induction patch as [|[k' v] patch IH]; intros base; simpl; [by left|].
  intros [Hb|Hp]%IH; [|right; unfold dkeys in *; simpl; set_solver].
  apply dkeys_dset in Hb as [->|?]; [right; unfold dkeys; simpl; set_solver|by left].
Qed.

(** No error of the merge is hidden: if the base is fine by itself, a merge without
    reported errors builds the model. *)
Lemma merged_errors_complete m base patch prefix :
  Forall (field_holds base) (m_fields m) → (∀ k, k ∈ dkeys base → k ∈ field_names m) →
  merged_errors m base patch prefix = [] → model_errors m (overlay_dict base patch) = [].
Proof.
  intros Hbase Hkeys Hnone.
  assert (Hloc : ∀ loc, loc ∈ model_errors m (overlay_dict base patch) →
            ∃ f, loc = Some f ∧ f ∉ dkeys patch).
  { intros loc Hin. unfold merged_errors in Hnone.
    assert (Hl : ∀ l, flat_map (λ loc, match loc with
        | Some field => if mem_str field (dkeys patch)
            then [mkVError (Some (prefix ++ "." ++ field)%string) SchemaViolation] else []
        | None => [mkVError (Some prefix) SchemaViolation] end) l = [] →
        loc ∈ l → ∃ f, loc = Some f ∧ f ∉ dkeys patch).
    { induction l as [|x l IH]; [set_solver|]. simpl. intros [Hx Hl]%app_nil [->|?]%elem_of_cons; [|auto].
      destruct x as [f|]; [|done]. exists f. split; [done|].
      destruct (mem_str f (dkeys patch)) eqn:Hm; [done|]. intros Hf%mem_str_spec. congruence. }
    by apply (Hl _ Hnone). }
  destruct (model_errors m (overlay_dict base patch)) as [|loc errs] eqn:He; [done|]. exfalso.
  destruct (Hloc loc) as (f & -> & Hf); [set_solver|].
  assert (Hmem : Some f ∈ model_errors m (overlay_dict base patch)) by (rewrite He; set_solver).
  unfold model_errors in Hmem.
  set (bad := List.filter _ (m_fields m)) in Hmem. set (extra := List.filter _ (dkeys _)) in Hmem.
  assert (Hcases : Some f ∈ map (λ x : string * (json → bool) * bool, Some x.1.1) bad ++ map Some extra).
  { destruct (map _ bad ++ map Some extra); [|done].
    destruct (m_rule m _); [by apply elem_of_nil in Hmem|].
    by apply list_elem_of_singleton in Hmem. }
  apply elem_of_app in Hcases as [(x & [= ->] & Hx)%list_elem_of_fmap|(k & [= <-] & Hk)%list_elem_of_fmap].
  - apply list_elem_of_In, filter_In in Hx as [Hx Hbad]. apply list_elem_of_In in Hx.
    rewrite Forall_forall in Hbase. specialize (Hbase _ Hx). unfold field_holds in Hbase.
    destruct x as [[k ok] req]. simpl in *. rewrite dget_overlay in Hbad by done.
    destruct (dget base k); [rewrite Hbase in Hbad; done|congruence].
  - apply list_elem_of_In, filter_In in Hk as [Hk Hno]. apply list_elem_of_In, overlay_keys in Hk.
    destruct Hk as [Hk|Hk]; [|done]. apply Hkeys, mem_str_spec in Hk. by rewrite Hk in Hno.
Qed.

(** A refused change carries an error of its own. *)
Lemma policy_field_rejected prefix policy eff field to x :
  x ∈ fi_diff (policy_field prefix policy eff field to) →
  fi_errors (policy_field prefix policy eff field to) = [] → de_impact x ≠ REJECTED.
Proof.
  unfold policy_field. destruct (dget policy field) as [[impact source]|]; [|set_solver].
  destruct (py_eq _ to); [set_solver|]. destruct (decide _) as [->|Hi]; [done|]. simpl.
  by intros ->%list_elem_of_singleton.
Qed.

Lemma top_key_allowed k : fi_errors (top_key k) = [] → k ∈ ALLOWED_TOP.
Proof.
  unfold top_key. destruct (_ || _); [done|]. destruct (_ || _); [done|].
  destruct (mem_str k ALLOWED_TOP) eqn:Hm; [intros _; by apply mem_str_spec|done].
Qed.

Section theorems.
Context {P : Pydantic} {R : RtProc}.

Lemma color_mode_check_diff modes cur path field to fs :
  color_mode_check modes cur path field to = Ok fs → fi_diff fs = [].
Proof.
  unfold color_mode_check. intros Hr. destruct (negb _); [by simplify_eq|].
  destruct modes as [ms|]; [|by simplify_eq]. destruct (dget ms "color") as [listed|]; [|by simplify_eq].
  apply res_bind_ok in Hr as (r & _ & Hr). apply res_bind_ok in Hr as (f & _ & Hr).
  destruct (mode_listed _ _); by simplify_eq.
Qed.

Lemma stream_field_rejected modes cur key sensor field to fs x :
  stream_field modes cur key sensor field to = Ok fs → x ∈ fi_diff fs → fi_errors fs = [] →
  de_impact x ≠ REJECTED.
Proof.
  unfold stream_field. intros Hr Hx He. destruct (py_eq _ to); [simplify_eq/=; set_solver|].
  destruct (dget STREAM_READONLY field); [by simplify_eq/=|].
  destruct (mem_str field STREAM_TUNABLE); [|simplify_eq/=; set_solver].
  destruct (negb _); [by simplify_eq/=|].
  apply res_bind_ok in Hr as (c & Hc & [= <-]). apply color_mode_check_diff in Hc.
  simpl in Hx. rewrite Hc in Hx. by apply list_elem_of_singleton in Hx as ->.
Qed.

Lemma stream_fields_rejected modes cur key sensor prof fs x :
  stream_fields modes cur key sensor prof = Ok fs → x ∈ fi_diff fs → fi_errors fs = [] →
  de_impact x ≠ REJECTED.
Proof.
  revert fs. induction prof as [|[field to] prof IH]; intros fs Hr Hx He; [simplify_eq/=; set_solver|].
  apply res_bind_ok in Hr as (a & Ha & Hr). apply res_bind_ok in Hr as (b & Hb & [= <-]).
  apply join_errors in He as [Ha' Hb']. apply elem_of_app in Hx as [Hx|Hx].
  - by eapply stream_field_rejected.
  - by eapply IH.
Qed.

Context {L : PydanticLaws P}.

Lemma webrtc_section_ok eff w fs :
  webrtc_wf (ef_webrtc eff) → webrtc_section eff (JObj w) = Ok fs → fi_errors fs = [] →
  model_errors webrtc_model (overlay_dict (webrtc_dump (ef_webrtc eff)) w) = [] ∧
  ∀ x, x ∈ fi_diff fs → de_impact x ≠ REJECTED.
Proof.
  intros Hwf Hr He. pose proof (webrtc_dump_valid _ Hwf) as Hbase.
  unfold webrtc_section in Hr. destruct (truthy (JObj w)) eqn:Ht; simpl in Hr.
  2:{ destruct w; [|done]. injection Hr as <-. split; [done|]. simpl. set_solver. }
  injection Hr as <-. apply join_errors in He as [He Hrest]. apply join_errors in Hrest as [_ Hf].
  apply model_errors_nil in Hbase as (Hf0 & Hk0 & _). split.
  - eapply merged_errors_complete; [done|done|exact He].
  - intros x. simpl. rewrite collect_errors in Hf. intros [Hx|([field to] & Hin & Hx)%collect_diff]%elem_of_app.
    + destruct (_ && _) in Hx; simpl in Hx; set_solver.
    + exact (policy_field_rejected _ _ _ _ _ _ Hx (Hf (field, to) Hin)).
Qed.

Lemma diagnostics_section_ok eff g fs :
  diagnostics_wf (ef_diagnostics eff) → diagnostics_section eff (JObj g) = Ok fs → fi_errors fs = [] →
  model_errors diagnostics_model (overlay_dict (diagnostics_dump (ef_diagnostics eff)) g) = [] ∧
  ∀ x, x ∈ fi_diff fs → de_impact x ≠ REJECTED.
Proof.
  intros Hwf Hr He. pose proof (diagnostics_dump_valid _ Hwf) as Hbase.
  unfold diagnostics_section in Hr. destruct (truthy (JObj g)) eqn:Ht; simpl in Hr.
  2:{ destruct g; [|done]. injection Hr as <-. split; [done|]. simpl. set_solver. }
  injection Hr as <-. apply join_errors in He as [He Hf].
  apply model_errors_nil in Hbase as (Hf0 & Hk0 & _). split.
  - eapply merged_errors_complete; [done|done|exact He].
  - intros x. simpl. rewrite collect_errors in Hf. intros ([field to] & Hin & Hx)%collect_diff.
    exact (policy_field_rejected _ _ _ _ _ _ Hx (Hf (field, to) Hin)).
Qed.

(** The base a profile is merged over is fine by itself. *)
Lemma stream_base_valid eff key :
  effective_wf eff →
  let base := stream_base (dget (ef_stream_profiles eff) key) key in
  Forall (field_holds base) (m_fields stream_model) ∧ ∀ k, k ∈ dkeys base → k ∈ field_names stream_model.
Proof.
  intros (_ & _ & Hps). unfold stream_base.
  destruct (dget (ef_stream_profiles eff) key) as [q|] eqn:Hq.
  - apply dget_elem, Hps in Hq as [Hq _].
    by pose proof (stream_dump_valid _ Hq) as (? & ? & _)%model_errors_nil.
  - split.
    + repeat apply Forall_cons_2; try apply Forall_nil_2; unfold field_holds; simpl; try done;
        apply int_in_int; by vm_compute.
    + intros k Hk. change (k ∈ ["sensor_key"; "mountpoint_id"; "rtp_port"]%string) in Hk.
      apply mem_str_spec. repeat (apply elem_of_cons in Hk as [->|Hk]; [reflexivity|]).
      by apply elem_of_nil in Hk.
Qed.

Lemma stream_section_ok modes eff sp fs :
  effective_wf eff → stream_profiles_section modes eff sp = Ok fs → fi_errors fs = [] →
  (∀ key prof, (key, prof) ∈ sp → is_canonical_sensor_key key = true ∧
     ∃ d, (if truthy prof then prof else JObj []) = JObj d ∧
          model_errors stream_model
            (overlay_dict (stream_base (dget (ef_stream_profiles eff) key) key) d) = []) ∧
  ∀ x, x ∈ fi_diff fs → de_impact x ≠ REJECTED.
Proof.
  intros Hwf. revert fs. induction sp as [|[key prof] sp IH]; intros fs Hr He.
  { simplify_eq/=. split; set_solver. }
  apply res_bind_ok in Hr as (a & Ha & Hr). apply res_bind_ok in Hr as (b & Hb & [= <-]).
  apply join_errors in He as [Hea Heb]. destruct (IH b Hb Heb) as [IH1 IH2].
  destruct (is_canonical_sensor_key key) eqn:Hk; simpl in Ha; [|by simplify_eq].
  apply res_bind_ok in Ha as (d & Hd & Ha). apply res_bind_ok in Ha as (f & Hf & [= <-]).
  apply join_errors in Hea as [Hm Hfe].
  destruct (stream_base_valid eff key Hwf) as [Hb1 Hb2]. split.
  - intros k q [[= -> ->]|Hin]%elem_of_cons; [|by apply IH1]. split; [done|].
    destruct (if truthy prof then prof else JObj []) as [| | | | | |d'] eqn:Hq; try done.
    injection Hd as ->. exists d. split; [done|]. exact (merged_errors_complete _ _ _ _ Hb1 Hb2 Hm).
  - intros x Hx. simpl in Hx. apply elem_of_app in Hx as [Hx|Hx]; [|by apply IH2].
    by eapply stream_fields_rejected.
Qed.
End theorems.

Section validate_theorems.
Context {P : Pydantic} {R : RtProc} {L : PydanticLaws P}.

(** [validate] returns the findings of its parts. *)
Lemma validate_parts d p v p' :
  validate (JObj d) p = (Ok v, p') →
  ∃ e p1 w g modes sps s extra,
    build_effective p = (Ok e, p1) ∧ webrtc_section e (section d "webrtc") = Ok w ∧
    diagnostics_section e (section d "diagnostics") = Ok g ∧
    section d "stream_profiles" = JObj sps ∧ stream_profiles_section modes e sps = Ok s ∧
    fi_diff extra = [] ∧ fi_errors extra = [] ∧
    let all := join_findings (version_check d) (join_findings (collect top_key (dkeys d))
                 (join_findings w (join_findings g (join_findings s extra)))) in
    vr_errors v = fi_errors all ∧ vr_diff v = fi_diff all ∧
    vr_impact v = dedup_impacts [] (map de_impact (fi_diff all)) ∧
    vr_valid v = (match fi_errors all with [] => true | _ => false end).
Proof.
  intros Hr. apply bind_ok_inv in Hr as (e & p1 & He & Hr).
  apply bind_ok_inv in Hr as (w & p2 & [Hw ->]%lift_ok_inv & Hr).
  apply bind_ok_inv in Hr as (g & p3 & [Hg ->]%lift_ok_inv & Hr).
  apply bind_ok_inv in Hr as (modes & p4 & _ & Hr).
  apply bind_ok_inv in Hr as (sps & p5 & [Hsp ->]%lift_ok_inv & Hr).
  apply bind_ok_inv in Hr as (s & p6 & [Hs ->]%lift_ok_inv & Hr).
  apply bind_ok_inv in Hr as (n & p7 & _ & [-> ->]%ret_ok_inv).
  exists e, p1, w, g, modes, sps, s,
    (join_findings (allocation_audit e) (mkFindings [] [] (map Production (rt_production n)))).
  split_and!; try done.
  - by destruct (section d "stream_profiles"); simplify_eq/=.
  - unfold allocation_audit. simpl. by repeat case_bool_decide.
  - unfold allocation_audit. simpl. by repeat case_bool_decide.
Qed.

Lemma section_object d field w : dget d field = Some (JObj w) → section d field = JObj w.
Proof. unfold section. intros ->. by destruct w. Qed.

Lemma valid_patch_parts d p v p' :
  validate (JObj d) p = (Ok v, p') → vr_valid v = true →
  ∃ e p1, build_effective p = (Ok e, p1) ∧
    (∀ k, k ∈ dkeys d → k ∈ ALLOWED_TOP) ∧
    (∀ x, x ∈ vr_diff v → de_impact x ≠ REJECTED) ∧
    (∀ w, dget d "webrtc" = Some (JObj w) →
       model_errors webrtc_model (overlay_dict (webrtc_dump (ef_webrtc e)) w) = []) ∧
    (∀ g, dget d "diagnostics" = Some (JObj g) →
       model_errors diagnostics_model (overlay_dict (diagnostics_dump (ef_diagnostics e)) g) = []) ∧
    (∀ sps key prof, dget d "stream_profiles" = Some (JObj sps) → (key, JObj prof) ∈ sps →
       is_canonical_sensor_key key = true ∧
       model_errors stream_model
         (overlay_dict (stream_base (dget (ef_stream_profiles e) key) key) prof) = []).
Proof.
  intros Hr Hv.
  destruct (validate_parts _ _ _ _ Hr) as (e & p1 & w & g & modes & sps & s & extra & He & Hw & Hg & Hsp
    & Hs & Hxd & Hxe & _ & Hdiff & _ & Hvalid).
  rewrite Hv in Hvalid. destruct (fi_errors (join_findings _ _)) eqn:Hall in Hvalid; [|done]. clear Hvalid.
  apply join_errors in Hall as [Hver Hall]. apply join_errors in Hall as [Htop Hall].
  apply join_errors in Hall as [Hwe Hall]. apply join_errors in Hall as [Hge Hall].
  apply join_errors in Hall as [Hse _].
  pose proof (build_effective_wf _ _ _ He) as Hwf. destruct Hwf as (Hwf1 & Hwf2 & Hwf3).
  destruct (stream_section_ok _ _ _ _ (conj Hwf1 (conj Hwf2 Hwf3)) Hs Hse) as [Hstream Hsd].
  assert (Hwd : ∀ x, x ∈ fi_diff w → de_impact x ≠ REJECTED).
  { destruct (section d "webrtc") as [| | | | | |w'] eqn:E;
      try (unfold webrtc_section in Hw; destruct (negb _); [simplify_eq/=; set_solver|done]).
    by eapply webrtc_section_ok. }
  assert (Hgd : ∀ x, x ∈ fi_diff g → de_impact x ≠ REJECTED).
  { destruct (section d "diagnostics") as [| | | | | |g'] eqn:E;
      try (unfold diagnostics_section in Hg; destruct (negb _); [simplify_eq/=; set_solver|done]).
    by eapply diagnostics_section_ok. }
  exists e, p1. split_and!; [done|..].
  - intros k Hk. rewrite collect_errors in Htop. by apply top_key_allowed, Htop.
  - intros x. rewrite Hdiff. simpl. rewrite Hxd, !elem_of_app.
    intros [Hx|[Hx|[Hx|[Hx|[Hx|Hx]]]]]; auto.
    + unfold version_check in Hx. destruct (dget d "version"); [|set_solver].
      destruct (py_eq _ _); simpl in Hx; set_solver.
    + apply collect_diff in Hx as (k & _ & Hx). unfold top_key in Hx.
      repeat (destruct (_ : bool) in Hx; simpl in Hx; [set_solver|]). set_solver.
    + set_solver.
  - intros w' E. rewrite (section_object _ _ _ E) in Hw. by eapply webrtc_section_ok.
  - intros g' E. rewrite (section_object _ _ _ E) in Hg. by eapply diagnostics_section_ok.
  - intros sps' key prof E Hin. rewrite (section_object _ _ _ E) in Hsp. injection Hsp as ->.
    destruct (Hstream _ _ Hin) as (Hk & d' & Hd & Hm). split; [done|].
    assert (d' = prof) as -> by (destruct prof; simpl in Hd; congruence). done.
Qed.

Lemma color_modes_reads : preserves reads_only color_modes.
Proof. unfold color_modes. apply pres_bind; [apply _|apply observe_reads|intros n]. apply pres_lift, _. Qed.

(** Validating changes no environment variable. *)
Lemma validate_reads patch : preserves reads_only (validate patch).
Proof.
  unfold validate. destruct patch; try (apply pres_ret, _).
  apply pres_bind; [apply _|apply build_effective_reads|intros e].
  do 2 (apply pres_bind; [apply _|apply pres_lift, _|intros ?]).
  apply pres_bind; [apply _|destruct (truthy _); [apply color_modes_reads|apply pres_ret, _]|intros ?].
  do 2 (apply pres_bind; [apply _|apply pres_lift, _|intros ?]).
  apply pres_bind; [apply _|apply observe_reads|intros ?]. apply pres_ret, _.
Qed.
(** A patch that is declared valid touches only the known sections and no read-only field,
    and merging each of its sections into the effective configuration gives a section the
    schema accepts: no constraint violation is hidden. *)
Theorem valid_patch_mergeable d p v p' :
  validate (JObj d) p = (Ok v, p') → vr_valid v = true →
  ∃ e p1, build_effective p = (Ok e, p1) ∧
    (∀ k, k ∈ dkeys d → k ∈ ALLOWED_TOP) ∧
    (∀ x, x ∈ vr_diff v → de_impact x ≠ REJECTED) ∧
    (∀ w, dget d "webrtc" = Some (JObj w) →
       is_ok (construct webrtc_model webrtc_value (overlay_dict (webrtc_dump (ef_webrtc e)) w)) = true) ∧
    (∀ g, dget d "diagnostics" = Some (JObj g) →
       is_ok (construct diagnostics_model diagnostics_value
         (overlay_dict (diagnostics_dump (ef_diagnostics e)) g)) = true) ∧
    (∀ sps key prof, dget d "stream_profiles" = Some (JObj sps) → (key, JObj prof) ∈ sps →
       is_canonical_sensor_key key = true ∧
       is_ok (construct stream_model stream_value
         (overlay_dict (stream_base (dget (ef_stream_profiles e) key) key) prof)) = true).
Proof.
  intros Hr Hv. destruct (valid_patch_parts _ _ _ _ Hr Hv) as (e & p1 & He & Htop & Hdiff & Hw & Hg & Hs).
  exists e, p1. unfold construct. split_and!; try done.
  - intros w Hd. by rewrite (Hw _ Hd).
  - intros g Hd. by rewrite (Hg _ Hd).
  - intros sps key prof Hd Hin. destruct (Hs _ _ _ Hd Hin) as [Hc He']. by rewrite He'.
Qed.
End validate_theorems.

(** ** The catalog check

    [query_catalog] lists its sensors under [key], [label] and [sensor_name]; the validator
    looks for [name]. Whatever modes the device has, none is ever compared. *)
Definition catalog_shape (c : json) : Prop :=
  ∃ d l, c = JObj d ∧ dget d "sensors" = Some (JArr l) ∧
    ∀ s, s ∈ l → ∃ ds, s = JObj ds ∧ dget ds "name" = None.

Lemma catalog_never_consulted {R : RtProc} p c :
  rt_catalog (pr_tick p) = Some c → catalog_shape c →
  (color_modes p).1 = Ok (Some []).
Proof.
  intros Hc (d & l & -> & Hl & Hs). unfold color_modes, mbind, M_bind, observe, lift. simpl.
  rewrite Hc. simpl. rewrite Hl. simpl.
  assert (H0 : catalog_sensors [] l = Ok []).
  { clear Hl. induction l as [|s l IH]; [done|]. simpl.
    destruct (Hs s) as (ds & -> & Hn); [set_solver|]. simpl. rewrite Hn. simpl. apply IH. set_solver. }
  by rewrite H0.
Qed.

(** ** Concrete runs *)
Definition device_catalog : json :=
  JObj [("sensors", JArr [JObj [("key", JStr "color"); ("label", JStr "RGB Camera");
    ("sensor_name", JStr "RGB Camera"); ("formats", JArr [JStr "RGB8"]);
    ("modes", JArr [JObj [("width", JInt 640); ("height", JInt 480); ("fps", JInt 30)]])]])]%string.

Definition device_proc : RtProc :=
  {| rs := sample_settings "color_camera" 10000; rt_alloc_file _ := sample_allocations;
     rt_running _ _ := Some true; rt_tuning _ := Some (Some "FPS=30"%string);
     rt_catalog _ := Some device_catalog; rt_production _ := [] |}.

Definition validate_sample (patch : dict json) : res ValidationResponse * Proc :=
  validate (P:=strict_pydantic) (R:=device_proc) (JObj patch) (mkProc sample_environ None 0).

Definition sample_patch : dict json :=
  [("webrtc", JObj [("ice_policy", JStr "relay"); ("turn_credential_ttl_seconds", JInt 600)]);
   ("diagnostics", JObj [("telemetry_interval_seconds", JInt 9)]);
   ("stream_profiles", JObj [("ab12:color", JObj [("fps", JInt 60)])])]%string.

Lemma valid_patch_mergeable_witness :
  ∃ v, (validate_sample sample_patch).1 = Ok v ∧ vr_valid v = true ∧
    vr_impact v = [NEW_SESSIONS_ONLY; DEPLOYMENT_ONLY; RESTART_ENCODER] ∧
    ∀ x, x ∈ vr_diff v → de_impact x ≠ REJECTED.
Proof.
  destruct (validate_sample sample_patch) as [[v|x] p'] eqn:Hr; [|vm_compute in Hr; discriminate Hr].
  assert (Hv : vr_valid v = true ∧ vr_impact v = [NEW_SESSIONS_ONLY; DEPLOYMENT_ONLY; RESTART_ENCODER])
    by (vm_compute in Hr; injection Hr as <- _; split; reflexivity).
  destruct Hv as [Hv Hi]. exists v. split; [reflexivity|]. split; [exact Hv|]. split; [exact Hi|].
  destruct (valid_patch_mergeable (P:=strict_pydantic) (R:=device_proc) (L:=strict_laws) sample_patch
    (mkProc sample_environ None 0) v p' Hr Hv) as (e & p1 & _ & _ & Hx & _).
  exact Hx.
Defined.

(** A color mode the device does not have validates, without an error or a warning. *)
Lemma unlisted_mode_validates :
  ∃ v, (validate_sample [("stream_profiles",
          JObj [("ab12:color", JObj [("resolution", JStr "9999x9999")])])]%string).1 = Ok v ∧
       vr_valid v = true ∧ vr_warnings v = [].
Proof. eexists. split; [vm_compute; reflexivity|]. split; reflexivity. Qed.

(** A section that is no object raises an exception out of the validator. *)
Lemma list_section_raises :
  (validate_sample [("webrtc", JArr [JInt 1])]%string).1 = fail EType.
Proof. vm_compute. reflexivity. Qed.
