(* ===== verification/RuntimeApply.v ===== *)
(** * Applying a runtime-configuration revision

    Models [app/services/runtime_config_apply.py]: under the apply lock a validated revision
    is checked again, written to rs-runtime.env, activated in [os.environ], verified, and
    journalled; [recover_on_boot] settles the revisions a crash left in progress. Every
    system call of the environment file and of the journal may fail or be the last one
    before the process dies. *)
From Stdlib Require Import Ascii.
From S2P Require Import Prelude.
From S2P Require Import PyVal.
From S2P Require Import PyStr.
From S2P Require Import JsonText.
From S2P Require Import FileStore.
From S2P Require Import RuntimeEnv.
From S2P Require Import RuntimeSchema.
From S2P Require Import RuntimeBuilder.
From S2P Require Import RuntimeRevisions.
From S2P Require Import RuntimeValidator.

(** [_FIELD_ENV] *)
Definition FIELD_ENV : dict string :=
  [("ice_policy", "ICE_POLICY"); ("turn_credential_ttl_seconds", "TURN_CRED_TTL")]%string.

Inductive Outcome :=
  | APPLIED | NOT_FOUND | CONFIRM_MISMATCH | OUT_REJECTED | DRIFT | CONFLICT | LOCK_HELD
  | WRITE_FAILED | ROLLED_BACK | ROLLBACK_FAILED.

#[export] Instance Outcome_eq_dec : EqDecision Outcome.
Proof. solve_decision. Defined.

Record ApplyResult := mkApply {
  ap_outcome : Outcome;
  ap_changed : bool;
  ap_verified : bool;
}.

Definition outcome (o : Outcome) : ApplyResult := mkApply o false false.

Section apply.
Context {H : Sha} {F : FloatRepr} {V : RevFs} {E : EnvFs} {P : Pydantic} {R : RtProc}.

(** [_read_raw_revision] *)
Definition read_raw_revision (revision_id : string) : M RevDir (option json) :=
  if malformed_id revision_id then mret None
  else
    present ← is_file revision_id;
    if negb present then mret None
    else
      raw ← try_except (t ← read_revision_text revision_id; mret (Some t)) COSError
              (fun _ => mret None);
      match raw with
      | None => mret None
      | Some raw => rec ← parse_revision revision_id raw; mret (Some rec)
      end.

(** *** The verify oracle *)

(** [_expected_effective] *)
Definition expected_effective (target : dict json) : M Proc (dict json) :=
  _ ← get_settings;
  let ice := match dget target "ice_policy" with
             | None => []
             | Some v =>
                 let ice := if one_of ["all"; "relay"]%string v then v else JStr "all" in
                 [("ice_policy"%string,
                   if String.eqb (s_camera_type rs) "depth_camera" then JStr "relay" else ice)]
             end in
  match dget target "turn_credential_ttl_seconds" with
  | None => mret ice
  | Some v => z ← lift (to_int v);
              mret (ice ++ [("turn_credential_ttl_seconds"%string, JInt (clamp_ttl z))])
  end.

Definition verify (target : dict json) : M Proc bool :=
  eff ← build_effective;
  exp ← expected_effective target;
  let shown := webrtc_dump (ef_webrtc eff) in
  mret (forallb (fun '(k, v) => py_eq (default JNull (dget shown k)) v) exp).

(** [_coherence_ok]: file and process agree on every key both of them set. *)
Definition coherent (disk environ : dict string) : bool :=
  forallb (fun '(_, envk) =>
      match dget disk envk, dget environ envk with
      | Some d, Some p => String.eqb d p
      | _, _ => true
      end) FIELD_ENV.

Definition coherence_ok : M Rt bool :=
  cur ← on_env read_keys;
  environ ← gets (fun w => pr_environ (rt_proc w));
  mret (coherent cur environ).

(** ** The checks before anything changes *)

(** [f"apply-{diff_hash}"] against [confirm], and the slice of the id. *)
Definition confirm_ok (diff_hash : json) (confirm : string) : res bool :=
  s ← to_str diff_hash; Ok (String.eqb confirm ("apply-" ++ s)).

Definition id_matches (diff_hash : json) (revision_id : string) : res bool :=
  match diff_hash with
  | JStr s => Ok (endswith revision_id (substring_of 7 15 s))
  | JArr _ => fail EUnmodelled
  | _ => fail EType
  end.

(** [x or {}] *)
Definition or_empty (j : json) : json := if truthy j then j else JObj [].

Definition fields_allowed (patch webrtc : json) : res bool :=
  ks ← iter_strings patch;
  ws ← iter_strings webrtc;
  Ok (forallb (fun k => mem_str k ["webrtc"; "version"]%string) ks
      && forallb (fun k => mem_str k (dkeys FIELD_ENV)) ws && truthy webrtc).

(** The checks of [_apply_under_lock]: a result that ends the call, or the WebRTC fields
    to apply. *)
Definition screen_revision (revision_id confirm : string) : M Rt (ApplyResult + dict json) :=
  rec ← on_rev (read_raw_revision revision_id);
  match rec with
  | None => mret (inl (outcome NOT_FOUND))
  | Some rec =>
      v ← lift (is_applyable rec);
      if negb (verdict_ok v) then mret (inl (outcome OUT_REJECTED))
      else
        diff_hash ← lift (getitem rec "diff_hash");
        confirmed ← lift (confirm_ok diff_hash confirm);
        if negb confirmed then mret (inl (outcome CONFIRM_MISMATCH))
        else
          consistent ← lift (id_matches diff_hash revision_id);
          if negb consistent then mret (inl (outcome OUT_REJECTED))
          else
            patch ← lift (jget rec "validated_patch" JNull);
            let patch := or_empty patch in
            webrtc ← lift (jget patch "webrtc" JNull);
            let webrtc := or_empty webrtc in
            allowed ← lift (fields_allowed patch webrtc);
            if negb allowed then mret (inl (outcome OUT_REJECTED))
            else
              result ← on_proc (validate patch);
              if negb (vr_valid result) then mret (inl (outcome OUT_REJECTED))
              else if negb (bool_decide (vr_impact result = [NEW_SESSIONS_ONLY]))
              then mret (inl (outcome OUT_REJECTED))
              else
                coh ← coherence_ok;
                if negb coh then mret (inl (outcome CONFLICT))
                else
                  now ← file_hashes_before patch;
                  was ← lift (getitem rec "file_hashes_before");
                  if negb (py_eq (fhb_json now) was) then mret (inl (outcome DRIFT))
                  else d ← lift (items_of webrtc); mret (inr d)
  end.

(** ** Writing, activating, verifying *)

(** [{_FIELD_ENV[f]: str(int(v) if f == "turn_credential_ttl_seconds" else v)}] *)
Fixpoint updates_of (webrtc : dict json) : res (dict string) :=
  match webrtc with
  | [] => Ok []
  | (f, v) :: rest =>
      envk ← match dget FIELD_ENV f with Some k => Ok k | None => fail EKey end;
      s ← (if String.eqb f "turn_credential_ttl_seconds" then z ← to_int v; Ok (pretty z) else to_str v);
      r ← updates_of rest;
      Ok ((envk, s) :: r)
  end.

Definition set_environ (updates : dict string) : M Proc unit :=
  modify (fun p => mkProc (merge_dict (pr_environ p) updates) (pr_cache p) (pr_tick p)).

(** Puts back the variables as they were, unset ones included. *)
Definition restore_environ (prior : dict (option string)) : M Proc unit :=
  modify (fun p => mkProc (fold_left (fun d '(k, v) =>
                             match v with Some s => dset d k s | None => ddel d k end)
                             prior (pr_environ p)) (pr_cache p) (pr_tick p)).

Definition rollback (revision_id : string) (prior_os : dict (option string))
    (prior_bytes : option string) (prior_mode : Z) : M Rt ApplyResult :=
  on_rev (set_status revision_id STATUS_ROLLING_BACK) ;;
  on_proc (restore_environ prior_os ;; cache_clear) ;;
  try_except
    (on_env (restore_locked prior_bytes prior_mode) ;;
     on_rev (set_status revision_id STATUS_ROLLED_BACK) ;;
     mret (outcome ROLLED_BACK))
    CException
    (fun _ => on_rev (set_status revision_id STATUS_ROLLBACK_FAILED) ;;
              mret (outcome ROLLBACK_FAILED)).

(** [rt.read_bytes() if rt.is_file() else None] *)
Definition prior_bytes : M EnvFile (option string) :=
  f ← see; match f with Some _ => b ← read_bytes; mret (Some b) | None => mret None end.

Definition prior_mode : M EnvFile Z :=
  f ← see; match f with Some _ => stat_mode | None => mret 420 end.

(** What follows the verification that something has to change. *)
Definition write_and_activate (revision_id : string) (webrtc : dict json) (updates : dict string)
    : M Rt ApplyResult :=
  bytes ← on_env prior_bytes;
  mode ← on_env prior_mode;
  prior_os ← gets (fun w => map (fun '(k, _) => (k, dget (pr_environ (rt_proc w)) k)) updates);
  prior_hash ← on_env current_hash;
  on_rev (set_status revision_id STATUS_APPLYING) ;;
  failed ← try_except2
    (on_env (write_locked (map (fun '(k, v) => (k, JStr v)) updates) (Some prior_hash)) ;; mret None)
    CDrift (fun _ => on_rev (set_status revision_id STATUS_VALIDATED) ;; mret (Some (outcome DRIFT)))
    CException (fun _ => on_rev (set_status revision_id STATUS_VALIDATED) ;;
                         mret (Some (outcome WRITE_FAILED)));
  match failed with
  | Some r => mret r
  | None =>
      on_proc (set_environ updates ;; cache_clear) ;;
      ok ← on_proc (verify webrtc);
      if (ok : bool) then
        on_rev (set_status revision_id STATUS_APPLIED) ;; mret (mkApply APPLIED true true)
      else rollback revision_id prior_os bytes mode
  end.

Definition apply_under_lock (revision_id confirm : string) : M Rt ApplyResult :=
  s ← screen_revision revision_id confirm;
  match s with
  | inl r => mret r
  | inr webrtc =>
      updates ← lift (updates_of webrtc);
      there ← on_proc (verify webrtc);
      if (there : bool) then
        on_rev (set_status revision_id STATUS_APPLIED) ;; mret (mkApply APPLIED false true)
      else write_and_activate revision_id webrtc updates
  end.

Definition apply_revision (revision_id confirm : string) : M Rt ApplyResult :=
  rec ← on_rev (read_raw_revision revision_id);
  match rec with
  | None => mret (outcome NOT_FOUND)
  | Some _ =>
      try_except
        (runtime_env_lock on_env (on_env lock_busy) false (apply_under_lock revision_id confirm))
        CLockHeld (fun _ => mret (outcome LOCK_HELD))
  end.

(** ** Recovery after a crash *)
Definition recover_one (rid : string) : M Rt bool :=
  rec ← on_rev (read_raw_revision rid);
  match rec with
  | None => mret false
  | Some rec =>
      if negb (truthy rec) then mret false
      else
        st ← lift (jget rec "status" JNull);
        let applying := py_eq st (JStr STATUS_APPLYING) in
        if negb (applying || py_eq st (JStr STATUS_ROLLING_BACK)) then mret false
        else
          fhb ← lift (jget rec "file_hashes_before" JNull);
          base ← lift (jget (or_empty fhb) RUNTIME_ENV_PATH JNull);
          disk ← on_env current_hash;
          let landed := negb (py_eq (JStr disk) base) in
          on_rev (set_status rid
            (if negb landed then STATUS_ROLLED_BACK
             else if applying then STATUS_APPLIED else STATUS_ROLLBACK_FAILED)) ;;
          mret true
  end.

Fixpoint recover_loop (rids : list string) (n : Z) : M Rt Z :=
  match rids with
  | [] => mret n
  | rid :: rest => b ← recover_one rid; recover_loop rest (if (b : bool) then n + 1 else n)
  end.

Definition recover_on_boot : M Rt Z :=
  rids ← on_rev list_revisions;
  recover_loop rids 0.
End apply.

(** ** The checks change nothing *)
Definition untouched (w w' : Rt) : Prop :=
  ef_file (rt_env w') = ef_file (rt_env w) ∧ rd_files (rt_rev w') = rd_files (rt_rev w) ∧
  reads_only (rt_proc w) (rt_proc w').

#[export] Instance untouched_preorder : PreOrder untouched.
Proof.
  split; [done|]. intros w1 w2 w3 (H1 & H2 & H3) (H4 & H5 & H6).
  split_and!; [congruence|congruence|by etrans].
Qed.

Lemma on_env_untouched {A} (m : M EnvFile A) :
  preserves (keeps ef_file) m → preserves untouched (on_env m).
Proof.
  intros Hm w. unfold on_env, zoom. specialize (Hm (rt_env w)). destruct (m (rt_env w)) as [r e].
  split_and!; [exact Hm|done|done].
Qed.
Lemma on_rev_untouched {A} (m : M RevDir A) :
  preserves (keeps rd_files) m → preserves untouched (on_rev m).
Proof.
  intros Hm w. unfold on_rev, zoom. specialize (Hm (rt_rev w)). destruct (m (rt_rev w)) as [r e].
  split_and!; [done|exact Hm|done].
Qed.
Lemma on_proc_untouched {A} (m : M Proc A) :
  preserves reads_only m → preserves untouched (on_proc m).
Proof.
  intros Hm w. unfold on_proc, zoom. specialize (Hm (rt_proc w)). destruct (m (rt_proc w)) as [r e].
  split_and!; [done|done|exact Hm].
Qed.
#[export] Hint Resolve on_env_untouched on_rev_untouched on_proc_untouched : pres.
#[export] Hint Resolve env_call_same rev_call_same is_file_same rev_quarantine_same parse_revision_same
  read_text_same get_settings_reads observe_reads build_effective_reads validate_reads : pres.

Lemma on_env_inv {A} (m : M EnvFile A) w r w' :
  on_env m w = (r, w') → ∃ e, m (rt_env w) = (r, e) ∧ w' = mkRt e (rt_rev w) (rt_proc w).
Proof. unfold on_env, zoom. destruct (m (rt_env w)) as [r0 e]. intros [= <- <-]. eauto. Qed.
Lemma on_rev_inv {A} (m : M RevDir A) w r w' :
  on_rev m w = (r, w') → ∃ e, m (rt_rev w) = (r, e) ∧ w' = mkRt (rt_env w) e (rt_proc w).
Proof. unfold on_rev, zoom. destruct (m (rt_rev w)) as [r0 e]. intros [= <- <-]. eauto. Qed.
Lemma on_proc_inv {A} (m : M Proc A) w r w' :
  on_proc m w = (r, w') → ∃ e, m (rt_proc w) = (r, e) ∧ w' = mkRt (rt_env w) (rt_rev w) e.
Proof. unfold on_proc, zoom. destruct (m (rt_proc w)) as [r0 e]. intros [= <- <-]. eauto. Qed.

Lemma run_pres {W A} (Q : W → W → Prop) (m : M W A) w r w' : preserves Q m → m w = (r, w') → Q w w'.
Proof. intros Hm Hr. specialize (Hm w). by rewrite Hr in Hm. Qed.

Section checks.
Context {H : Sha} {F : FloatRepr} {V : RevFs} {E : EnvFs} {P : Pydantic} {R : RtProc}.
Context (quiet : ∀ n f, env_edit n f = f).

Lemma lock_busy_same : preserves (keeps ef_file) lock_busy.
Proof. done. Qed.
#[local] Hint Resolve lock_busy_same : pres.
#[local] Hint Extern 1 (preserves _ see) => apply (see_same quiet) : pres.
#[local] Hint Extern 1 (preserves _ read_bytes) => apply (read_bytes_same quiet) : pres.
#[local] Hint Extern 1 (preserves _ current_hash) => apply (current_hash_same quiet) : pres.
#[local] Hint Extern 1 (preserves _ hash_bytes_or_sentinel) => apply (current_hash_same quiet) : pres.
#[local] Hint Extern 1 (preserves _ read_keys) => apply (read_keys_same quiet) : pres.
#[local] Hint Extern 1 (preserves _ stat_mode) => apply (stat_mode_same quiet) : pres.

Lemma read_raw_same rid : preserves (keeps rd_files) (read_raw_revision rid).
Proof. unfold read_raw_revision. pres. Qed.
Lemma expected_reads t : preserves reads_only (expected_effective t).
Proof. unfold expected_effective. pres. Qed.
#[local] Hint Resolve read_raw_same expected_reads : pres.
Lemma verify_reads t : preserves reads_only (verify t).
Proof. unfold verify. pres. Qed.
Lemma coherence_untouched : preserves untouched coherence_ok.
Proof. unfold coherence_ok. pres. Qed.
Lemma hashes_untouched patch : preserves untouched (file_hashes_before patch).
Proof.
  unfold file_hashes_before. apply pres_bind; [apply _|apply pres_lift, _|intros colored].
  apply pres_bind; [apply _| |intros out].
  - destruct colored; [|apply pres_ret, _]. apply on_proc_untouched.
    apply pres_bind; [apply _|apply get_settings_reads|intros _].
    apply pres_bind; [apply _|apply observe_reads|intros n]. apply pres_ret, _.
  - apply pres_bind; [apply _|apply pres_lift, _|intros []]; pres.
Qed.
#[local] Hint Resolve verify_reads coherence_untouched hashes_untouched : pres.

Lemma screen_untouched rid confirm : preserves untouched (screen_revision rid confirm).
Proof. unfold screen_revision. pres. Qed.
#[local] Hint Resolve screen_untouched : pres.

Lemma prior_bytes_same : preserves (keeps ef_file) prior_bytes.
Proof. unfold prior_bytes. pres. Qed.
Lemma prior_mode_same : preserves (keeps ef_file) prior_mode.
Proof. unfold prior_mode. pres. Qed.

(** A read under the id is the record on disk. *)
Lemma read_raw_ok rid w rec w' :
  read_raw_revision rid w = (Ok (Some rec), w') →
  file_at w rid = Text (TxDoc rec) ∧ is_object rec = true.
Proof.
  intros Hr. unfold read_raw_revision in Hr. destruct (malformed_id rid); [done|].
  apply bind_ok_inv in Hr as (present & w1 & [= <- <-] & Hr).
  destruct (negb _); [done|].
  apply bind_ok_inv in Hr as (raw & w2 & Hraw & Hr). destruct raw as [raw|]; [|done].
  apply bind_ok_inv in Hr as (rec' & w3 & (-> & Ho & ->)%parse_revision_ok & [Hrec ->]%ret_ok_inv).
  injection Hrec as <-. split; [|done]. unfold try_except in Hraw.
  destruct (_ ≫= _) as [[[t|]|e] w4] eqn:Ht in Hraw;
    [| |by destruct (instance_of _ _)].
  - injection Hraw as -> <-. apply bind_ok_inv in Ht as (t' & w5 & Ht & [[= ->] ->]%ret_ok_inv).
    apply bind_ok_inv in Ht as (u & w6 & Hc & Ht). apply (rev_run _ _ _ _ rev_call_same) in Hc.
    apply bind_ok_inv in Ht as (w7 & w8 & [= <- <-] & Ht). apply lift_ok_inv in Ht as [Ht ->].
    unfold file_at in *. rewrite Hc in Ht.
    destruct (default Absent (dget (rd_files w) rid)); simplify_eq/=; done.
  - discriminate Hraw.
Qed.
End checks.

(** ** What the checks establish *)
Section asked.
Context {H : Sha}.

(** The revision on disk asks for these WebRTC fields, is applyable and bound to the file as
    it is, and the operator confirmed its hash. *)
Record asked_by (rec : json) (hash rid confirm : string) (w : Rt) (webrtc : dict json) : Prop := mkAsked {
  as_file : file_at (rt_rev w) rid = Text (TxDoc rec);
  as_applyable : is_applyable rec = Ok Applyable;
  as_diff_hash : getitem rec "diff_hash" = Ok (JStr hash);
  as_confirm : confirm = ("apply-" ++ hash)%string;
  as_id : endswith rid (substring_of 7 15 hash) = true;
  as_patch : ∃ patch, jget rec "validated_patch" JNull = Ok patch ∧
               jget (or_empty patch) "webrtc" JNull = Ok (JObj webrtc);
  as_fields : ∀ k, k ∈ dkeys webrtc → k ∈ dkeys FIELD_ENV;
  as_ice : NoDup (dkeys webrtc) → ∀ v, dget webrtc "ice_policy" = Some v →
             ∃ s, v = JStr s ∧ s ∈ ["all"; "relay"]%string;
  as_base : ∃ fhb, getitem rec "file_hashes_before" = Ok fhb ∧
              jget fhb RUNTIME_ENV_PATH JNull = Ok (JStr (hash_of (ef_file (rt_env w))));
}.

Definition asked (rid confirm : string) (w : Rt) (webrtc : dict json) : Prop :=
  ∃ rec hash, asked_by rec hash rid confirm w webrtc.
End asked.

(** A dict equals a JSON value only if that is an object with equal values. *)
Lemma py_eq_obj d j k v :
  py_eq (JObj d) j = true → (k, v) ∈ d →
  ∃ d' v', j = JObj d' ∧ dget d' k = Some v' ∧ py_eq v v' = true.
Proof.
  destruct j as [| | | | | |d']; try done. simpl. intros [_ Hall]%andb_true_iff Hin. exists d'.
  induction d as [|[k0 v0] d IH]; [set_solver|]. apply andb_true_iff in Hall as [H0 Hall].
  apply elem_of_cons in Hin as [[= -> ->]|Hin]; [|by apply IH].
  destruct (dget d' k0) as [v'|] eqn:Hd; [|done]. exists v'. done.
Qed.

Lemma py_eq_str s j : py_eq (JStr s) j = true → j = JStr s.
Proof. destruct j; simpl; try done. by intros ->%String.eqb_eq. Qed.

#[local] Arguments py_eq : simpl never.

Lemma dget_overlay_in base patch k v :
  NoDup (dkeys patch) → dget patch k = Some v → dget (overlay_dict base patch) k = Some v.
Proof.
  unfold overlay_dict. revert base. induction patch as [|[k' v'] patch IH]; intros base Hnd; simpl; [done|].
  apply NoDup_cons in Hnd as [Hk' Hnd]. case_decide as Hk; [|by apply IH].
  intros [= ->]. subst k'. fold (overlay_dict (dset base k v) patch).
  rewrite dget_overlay by done. apply dget_dset_eq.
Qed.

Section screening.
Context {H : Sha} {F : FloatRepr} {V : RevFs} {E : EnvFs} {P : Pydantic} {L : PydanticLaws P} {R : RtProc}.
Context (quiet : ∀ n f, env_edit n f = f).

(** A valid patch sets the ICE policy to one of its two values. *)
Lemma valid_ice d webrtc p v p' :
  validate (JObj d) p = (Ok v, p') → vr_valid v = true → dget d "webrtc" = Some (JObj webrtc) →
  NoDup (dkeys webrtc) → ∀ u, dget webrtc "ice_policy" = Some u →
  ∃ s, u = JStr s ∧ s ∈ ["all"; "relay"]%string.
Proof.
  intros Hr Hv Hd Hnd u Hu.
  destruct (valid_patch_parts d p v p' Hr Hv) as (e & p1 & _ & _ & _ & Hw & _).
  specialize (Hw _ Hd). apply model_errors_nil in Hw as (Hf & _). apply Forall_cons in Hf as [Hf _].
  unfold field_holds in Hf. cbn [fst snd] in Hf. rewrite (dget_overlay_in _ _ _ _ Hnd Hu) in Hf.
  unfold one_of in Hf. destruct u as [| | | |s| |]; try done. exists s. split; [done|].
  by apply mem_str_spec.
Qed.

(** The hash of rs-runtime.env is among those of a patch that sets one of its fields. *)
Lemma hashes_bind_env patch webrtc w now w' :
  truthy patch = true → jget patch "webrtc" JNull = Ok (JObj webrtc) →
  (∃ k, k ∈ dkeys webrtc ∧ k ∈ RUNTIME_ENV_FIELDS) →
  file_hashes_before patch w = (Ok now, w') →
  (RUNTIME_ENV_PATH, hash_of (ef_file (rt_env w))) ∈ now.
Proof.
  intros Ht Hj (k & Hk & Hf) Hr. unfold file_hashes_before in Hr.
  apply bind_ok_inv in Hr as (colored & w1 & [_ ->]%lift_ok_inv & Hr).
  apply bind_ok_inv in Hr as (out & w2 & Hout & Hr).
  apply bind_ok_inv in Hr as (runtime & w3 & [Hrun ->]%lift_ok_inv & Hr).
  assert (Henv : rt_env w2 = rt_env w).
  { destruct colored; [by apply on_proc_inv in Hout as (p & _ & ->)|].
    by apply ret_ok_inv in Hout as [_ ->]. }
  assert (runtime = true) as ->.
  { unfold any_key in Hrun. rewrite Ht, Hj in Hrun. simpl in Hrun.
    apply res_bind_ok in Hrun as (ks & Hks & [= <-]).
    unfold iter_strings in Hks. destruct webrtc as [|kv webrtc]; [by apply elem_of_nil in Hk|].
    simpl in Hks. injection Hks as <-. apply existsb_exists. exists k.
    split; [exact (proj1 (list_elem_of_In _ _) Hk)|]. exact (proj2 (mem_str_spec k RUNTIME_ENV_FIELDS) Hf). }
  apply bind_ok_inv in Hr as (h & w4 & Hh & [-> ->]%ret_ok_inv).
  apply on_env_inv in Hh as (e & [-> _]%(current_hash_ok quiet) & ->). rewrite Henv.
  apply dget_elem, dget_dset_eq.
Qed.

Lemma is_applyable_verdict v rec : is_applyable rec = Ok v → verdict_ok v = true → v = Applyable.
Proof. by destruct v. Qed.

Lemma screen_asked rid confirm w webrtc w' :
  screen_revision rid confirm w = (Ok (inr webrtc), w') → asked rid confirm w webrtc.
Proof.
  intros Hr. unfold screen_revision in Hr.
  apply bind_ok_inv in Hr as (rec & w1 & Hrec & Hr). destruct rec as [rec|]; [|done].
  assert (Hw1 : rt_env w1 = rt_env w).
  { by apply on_rev_inv in Hrec as (e & _ & ->). }
  apply on_rev_inv in Hrec as (e1 & [Hfile Ho]%read_raw_ok & _).
  apply bind_ok_inv in Hr as (v & w2 & [Hv ->]%lift_ok_inv & Hr).
  destruct (verdict_ok v) eqn:Hvo; simpl in Hr; [|done]. apply (is_applyable_verdict v rec) in Hvo as ->; [|done].
  apply bind_ok_inv in Hr as (dh & w2 & [Hdh ->]%lift_ok_inv & Hr).
  apply bind_ok_inv in Hr as (cf & w2 & [Hcf ->]%lift_ok_inv & Hr).
  destruct cf; simpl in Hr; [|done].
  apply bind_ok_inv in Hr as (cs & w2 & [Hcs ->]%lift_ok_inv & Hr).
  destruct cs; simpl in Hr; [|done].
  apply bind_ok_inv in Hr as (patch & w2 & [Hpatch ->]%lift_ok_inv & Hr).
  apply bind_ok_inv in Hr as (web & w2 & [Hweb ->]%lift_ok_inv & Hr).
  apply bind_ok_inv in Hr as (al & w2 & [Hal ->]%lift_ok_inv & Hr).
  destruct al; simpl in Hr; [|done].
  apply bind_ok_inv in Hr as (res & w2 & Hres & Hr).
  destruct (vr_valid res) eqn:Hvalid; simpl in Hr; [|done]. case_bool_decide; simpl in Hr; [|done].
  apply bind_ok_inv in Hr as (coh & w3 & Hcoh & Hr). destruct coh; simpl in Hr; [|done].
  apply bind_ok_inv in Hr as (now & w4 & Hnow & Hr).
  apply bind_ok_inv in Hr as (was & w5 & [Hwas ->]%lift_ok_inv & Hr).
  destruct (py_eq (fhb_json now) was) eqn:Heq; simpl in Hr; [|done].
  apply bind_ok_inv in Hr as (d & w5 & [Hd ->]%lift_ok_inv & [Hrd ->]%ret_ok_inv). injection Hrd as <-.
  destruct dh as [| | | |hash| |]; try discriminate Hcs.
  injection Hcf as Hcf. injection Hcs as Hcs. apply String.eqb_eq in Hcf.
  unfold fields_allowed in Hal. apply res_bind_ok in Hal as (ks & Hks & Hal).
  apply res_bind_ok in Hal as (ws & Hws & Hal). injection Hal as Hal.
  apply andb_true_iff in Hal as [Hal Htw]. apply andb_true_iff in Hal as [_ Hws'].
  destruct (or_empty web) as [| | | | | |web'] eqn:Hoe; try discriminate Hd. injection Hd as <-.
  assert (Hwj : web = JObj web').
  { unfold or_empty in Hoe. destruct (truthy web) eqn:Htr; [done|]. injection Hoe as <-. done. }
  subst web. destruct web' as [|kv web']; [done|]. set (web := kv :: web') in *.
  assert (Hws2 : ws = dkeys web) by (unfold iter_strings in Hws; simpl in Hws; by injection Hws as <-).
  assert (Hfields : ∀ k, k ∈ dkeys web → k ∈ dkeys FIELD_ENV).
  { intros k Hk. rewrite forallb_forall in Hws'. apply mem_str_spec, Hws'. subst ws.
    by apply list_elem_of_In. }
  exists rec, hash. split; try done; [by eexists| |].
  { destruct (or_empty patch) as [| | | | | |pd] eqn:Hop; try discriminate Hweb.
    destruct (dget pd "webrtc") as [x|] eqn:Hpd; simpl in Hweb; rewrite Hpd in Hweb; [|done].
    injection Hweb as ->. apply on_proc_inv in Hres as (pr & Hres & _).
    intros Hnd. by eapply valid_ice. }
  exists was. split; [done|].
  assert (Henv : ef_file (rt_env w3) = ef_file (rt_env w)).
  { rewrite <- Hw1. apply on_proc_inv in Hres as (e & _ & ->).
    by destruct (run_pres _ _ _ _ _ (coherence_untouched quiet) Hcoh) as [-> _]. }
  assert (Hin : (RUNTIME_ENV_PATH, hash_of (ef_file (rt_env w3))) ∈ now).
  { eapply hashes_bind_env; [|exact Hweb| |exact Hnow].
    - destruct (or_empty patch) as [| | | | | |[|]]; done.
    - exists kv.1. split; [by left|]. change RUNTIME_ENV_FIELDS with (dkeys FIELD_ENV). apply Hfields. by left. }
  destruct (py_eq_obj _ _ RUNTIME_ENV_PATH (JStr (hash_of (ef_file (rt_env w)))) Heq)
    as (d' & v' & -> & Hd' & ->%py_eq_str).
  - rewrite <- Henv. apply list_elem_of_fmap. by eexists (_, _).
  - simpl. by rewrite Hd'.
Qed.
End screening.

(** ** Verification tells whether the environment yields the target *)
Definition ice_target (v : json) : string :=
  match v with JStr s => if mem_str s ["all"; "relay"]%string then s else "all" | _ => "all" end.

Section shown.
Context {P : Pydantic} {R : RtProc}.

(** The effective view of an environment shows the fields a revision asks for. *)
Definition target_shown (webrtc : dict json) (environ : dict string) : Prop :=
  let c := webrtc_value (webrtc_args (fresh_settings environ)) in
  (∀ v, dget webrtc "ice_policy" = Some v →
     ice_policy c = if String.eqb (s_camera_type rs) "depth_camera" then "relay"%string else ice_target v) ∧
  (∀ v z, dget webrtc "turn_credential_ttl_seconds" = Some v → to_int v = Ok z →
     turn_credential_ttl_seconds c = clamp_ttl z).

Lemma py_eq_strs a b : py_eq (JStr a) (JStr b) = true ↔ a = b.
Proof. simpl. apply String.eqb_eq. Qed.
Lemma py_eq_ints a b : py_eq (JInt a) (JInt b) = true ↔ a = b.
Proof. unfold py_eq, num_of. rewrite Qeq_bool_iff. apply inject_Z_injective. Qed.

Lemma expected_ok t p exp p' :
  expected_effective t p = (Ok exp, p') →
  exp = match dget t "ice_policy" with
        | None => []
        | Some v => [("ice_policy"%string,
            JStr (if String.eqb (s_camera_type rs) "depth_camera" then "relay"%string else ice_target v))]
        end ++
        match dget t "turn_credential_ttl_seconds" with
        | None => []
        | Some v => match to_int v with
                    | Ok z => [("turn_credential_ttl_seconds"%string, JInt (clamp_ttl z))]
                    | Raise _ => []
                    end
        end ∧ (∀ v, dget t "turn_credential_ttl_seconds" = Some v → is_ok (to_int v) = true).
Proof.
  intros Hr. apply bind_ok_inv in Hr as (s & p1 & _ & Hr).
  assert (Hice : ∀ v, (if String.eqb (s_camera_type rs) "depth_camera" then JStr "relay"
              else if one_of ["all"; "relay"]%string v then v else JStr "all")
            = JStr (if String.eqb (s_camera_type rs) "depth_camera" then "relay"%string else ice_target v)).
  { intros v. destruct (String.eqb _ _); [done|]. unfold one_of, ice_target.
    destruct v; try done. by destruct (mem_str _ _). }
  destruct (dget t "turn_credential_ttl_seconds") as [v|].
  - apply bind_ok_inv in Hr as (z & p2 & [Hz ->]%lift_ok_inv & [-> ->]%ret_ok_inv). rewrite Hz.
    split; [|intros v' [= <-]; by rewrite Hz].
    destruct (dget t "ice_policy") as [u|]; [cbv zeta; by rewrite Hice|done].
  - apply ret_ok_inv in Hr as [-> ->]. split; [|done].
    destruct (dget t "ice_policy") as [u|]; [cbv zeta; by rewrite Hice|done].
Qed.

Lemma verify_iff t p b p' :
  cache_ok p → verify t p = (Ok b, p') → b = true ↔ target_shown t (pr_environ p).
Proof.
  intros Hok Hr. apply bind_ok_inv in Hr as (eff & p1 & Heff & Hr).
  destruct (build_effective_webrtc _ _ _ Hok Heff) as [Hw _].
  apply bind_ok_inv in Hr as (exp & p2 & [-> Hint]%expected_ok & [-> ->]%ret_ok_inv).
  unfold target_shown. rewrite Hw. set (c := webrtc_value _).
  rewrite forallb_app, andb_true_iff. f_equiv.
  - destruct (dget t "ice_policy") as [v|]; [|by split].
    cbn [forallb]. change (default JNull (dget (webrtc_dump c) "ice_policy")) with (JStr (ice_policy c)).
    rewrite andb_true_r, py_eq_strs. split; [by intros ? v' [= <-]|auto].
  - destruct (dget t "turn_credential_ttl_seconds") as [v|]; [|by split].
    specialize (Hint v eq_refl). destruct (to_int v) as [z|] eqn:Hz; [|done].
    cbn [forallb]. change (default JNull (dget (webrtc_dump c) "turn_credential_ttl_seconds"))
      with (JInt (turn_credential_ttl_seconds c)).
    rewrite andb_true_r, py_eq_ints. split; [|by intros Ht; apply (Ht v)].
    intros ? v' z' [= <-] Hz'. congruence.
Qed.
End shown.

(** The two fields, in any order. *)
Lemma webrtc_cases (webrtc : dict json) :
  NoDup (dkeys webrtc) → (∀ k, k ∈ dkeys webrtc → k ∈ dkeys FIELD_ENV) →
  webrtc = [] ∨
  (∃ v, webrtc = [("ice_policy", v)]%string) ∨
  (∃ u, webrtc = [("turn_credential_ttl_seconds", u)]%string) ∨
  (∃ v u, webrtc = [("ice_policy", v); ("turn_credential_ttl_seconds", u)]%string) ∨
  (∃ v u, webrtc = [("turn_credential_ttl_seconds", u); ("ice_policy", v)]%string).
Proof.
  intros Hnd Hk.
  assert (Hin : ∀ k, k ∈ dkeys webrtc → k = "ice_policy"%string ∨ k = "turn_credential_ttl_seconds"%string).
  { intros k [->|[->|[]%elem_of_nil]%elem_of_cons]%Hk%elem_of_cons; auto. }
  destruct webrtc as [|[k1 v1] [|[k2 v2] [|[k3 v3] l]]]; unfold dkeys in *; simpl in *; [by left|..].
  - right. destruct (Hin k1) as [->| ->]; [set_solver|left; eauto|right; left; eauto].
  - right. right. right. apply NoDup_cons in Hnd as [Hne _].
    destruct (Hin k1) as [->| ->], (Hin k2) as [->| ->]; try set_solver.
  - exfalso. apply NoDup_cons in Hnd as [Hn1 Hnd]. apply NoDup_cons in Hnd as [Hn2 _].
    destruct (Hin k1), (Hin k2), (Hin k3); set_solver.
Qed.

Lemma number_not_policy z : mem_str (pretty (z : Z)) ["all"; "relay"]%string = false.
Proof.
  destruct (mem_str _ _) eqn:Hm; [|done]. apply mem_str_spec in Hm. exfalso.
  destruct (pretty_chars z) as [Hc _].
  assert (Hno : ∀ c l, chars (pretty z) = c :: l → c = "a"%char ∨ c = "r"%char → False).
  { intros c l Hcl Hcc. rewrite Hcl in Hc. inversion Hc as [|? ? Hn]; subst.
    destruct Hcc as [->| ->]; by destruct Hn as [Hn|Hn]; [apply Hn|]. }
  apply elem_of_cons in Hm as [Hm|Hm%list_elem_of_singleton]; rewrite Hm in Hno; eapply Hno; eauto; done.
Qed.

(** What is written as a variable reads back as the target. *)
Lemma ice_reads_back v s environ :
  to_str v = Ok s → dget environ "ICE_POLICY" = Some s →
  str_env environ "ICE_POLICY" "all" ["all"; "relay"]%string = ice_target v.
Proof.
  intros Hs He. unfold str_env. rewrite He. simpl default.
  destruct v as [|[]|z|q|t|l|d]; simpl in Hs; try discriminate Hs; injection Hs as <-; try done.
  by rewrite number_not_policy.
Qed.

Lemma ttl_reads_back z environ :
  dget environ "TURN_CRED_TTL" = Some (pretty z) →
  int_env environ "TURN_CRED_TTL" 3600 300 3600 = clamp_ttl z.
Proof.
  intros He. unfold int_env. rewrite He.
  pose proof (parse_int_pretty z EmptyString (Forall_nil_2 _)) as Hp.
  assert (Happ : (pretty z ++ "")%string = pretty z).
  { apply chars_inj. by rewrite chars_app, app_nil_r. }
  rewrite Happ in Hp. rewrite Hp. unfold clamp_ttl. repeat case_match; lia.
Qed.

Section activation.
Context {P : Pydantic} {L : PydanticLaws P} {R : RtProc}.

Lemma ttl_shown s : turn_credential_ttl_seconds (webrtc_value (webrtc_args s)) = clamp_ttl s.2.
Proof.
  change (default 3600 (lax_int (JInt (clamp_ttl s.2))) = clamp_ttl s.2). by rewrite lax_int_int.
Qed.

Lemma ice_shown s :
  ice_policy (webrtc_value (webrtc_args s))
  = if String.eqb (s_camera_type rs) "depth_camera" then "relay"%string
    else if mem_str s.1 ["all"; "relay"]%string then s.1 else "all"%string.
Proof. done. Qed.

Lemma ice_target_allowed v : mem_str (ice_target v) ["all"; "relay"]%string = true.
Proof. unfold ice_target. destruct v; try done. by destruct (mem_str s _) eqn:Hm. Qed.

Lemma env_shows webrtc e :
  (∀ v, dget webrtc "ice_policy" = Some v → ∃ s, to_str v = Ok s ∧ dget e "ICE_POLICY" = Some s) →
  (∀ v, dget webrtc "turn_credential_ttl_seconds" = Some v →
     ∃ z, to_int v = Ok z ∧ dget e "TURN_CRED_TTL" = Some (pretty z)) → target_shown webrtc e.
Proof.
  intros Hi Ht. split.
  - intros v Hv. destruct (Hi v Hv) as (s & Hs & He). rewrite ice_shown. simpl fst.
    by rewrite (ice_reads_back _ _ _ Hs He), ice_target_allowed.
  - intros v z Hv Hz. destruct (Ht v Hv) as (z' & Hz' & He). rewrite Hz in Hz'. injection Hz' as <-.
    rewrite ttl_shown. simpl snd. rewrite (ttl_reads_back _ _ He). unfold clamp_ttl. lia.
Qed.

Lemma updates_ice v rest :
  updates_of (("ice_policy", v) :: rest)%string
  = (s ← to_str v; r ← updates_of rest; Ok (("ICE_POLICY", s) :: r)%string).
Proof. reflexivity. Qed.
Lemma updates_ttl v rest :
  updates_of (("turn_credential_ttl_seconds", v) :: rest)%string
  = (z ← to_int v; r ← updates_of rest; Ok (("TURN_CRED_TTL", pretty z) :: r)%string).
Proof. simpl. by destruct (to_int v). Qed.

(** With the updates in the environment, the effective view shows the target. *)
Lemma activation_shown webrtc ups environ :
  NoDup (dkeys webrtc) → (∀ k, k ∈ dkeys webrtc → k ∈ dkeys FIELD_ENV) →
  updates_of webrtc = Ok ups → target_shown webrtc (merge_dict environ ups).
Proof.
  intros Hnd Hk Hups.
  apply env_shows; intros v Hv;
    destruct (webrtc_cases _ Hnd Hk) as [->|[[v0 ->]|[[u0 ->]|[(v0 & u0 & ->)|(v0 & u0 & ->)]]]];
    simpl in Hv; try discriminate Hv; injection Hv as <-; rewrite ?updates_ice, ?updates_ttl in Hups;
    repeat (let x := fresh "x" in let X := fresh "X" in
            apply res_bind_ok in Hups as (x & X & Hups); rewrite ?updates_ice, ?updates_ttl in X);
    repeat match goal with
           | X : _ ≫= _ = Ok _ |- _ =>
               let x := fresh "x" in let Y := fresh "Y" in apply res_bind_ok in X as (x & Y & X)
           end;
    simplify_eq/=; eexists; (split; [eassumption|]); repeat (rewrite dget_dset; simpl); done.
Qed.
End activation.

(** ** [LockHeld] comes from the lock only *)
Definition not_lock (k : exn_kind) : Prop := k ≠ ELockHeld.
Definition free {A} (r : res A) : Prop := ∀ e, r = Raise e → not_lock (ex_kind e).

Lemma free_ok {A} (a : A) : free (Ok a).
Proof. by intros e. Qed.
Lemma free_fail {A} k : not_lock k → free (fail (A:=A) k).
Proof. by intros Hk e [= <-]. Qed.
Lemma free_bind {A B} (r : res A) (f : A → res B) : free r → (∀ a, free (f a)) → free (r ≫= f).
Proof. intros Hr Hf. destruct r as [a|e]; simpl; [apply Hf|]. intros e' [= <-]. by apply Hr. Qed.
Lemma free_or_else {A} (r : res A) b : free (or_else r b).
Proof.
  unfold or_else. destruct r as [a|e]; [by intros e|].
  destruct (instance_of (ex_kind e) CException) eqn:Hi; [by intros e'|].
  intros e' [= <-] Hk. rewrite Hk in Hi. discriminate Hi.
Qed.
Create HintDb free discriminated.
#[local] Hint Resolve free_ok free_or_else : free.

Ltac free_step :=
  match goal with
  | |- free (_ ≫= _) => apply free_bind; [|intros ?]
  | |- free (fail _) => apply free_fail; discriminate
  | |- free (match ?x with _ => _ end) => destruct x
  end.
Ltac free := repeat first [solve [eauto with free]|free_step].

Lemma free_jget j k d : free (jget j k d).
Proof. unfold jget. free. Qed.
Lemma free_getitem j k : free (getitem j k).
Proof. unfold getitem. free. Qed.
Lemma free_to_str j : free (to_str j).
Proof. unfold to_str. free. Qed.
Lemma free_to_int j : free (to_int j).
Proof. unfold to_int. free. Qed.
Lemma free_strings_of l : free (strings_of l).
Proof. induction l as [|x l IH]; simpl; free. Qed.
#[local] Hint Resolve free_jget free_getitem free_to_str free_to_int free_strings_of : free.
Lemma free_iter_strings x : free (iter_strings x).
Proof. unfold iter_strings. free. Qed.
Lemma free_member k x : free (member k x).
Proof. unfold member. free. Qed.
#[local] Hint Resolve free_iter_strings free_member : free.
Lemma free_is_applyable rec : free (is_applyable rec).
Proof. unfold is_applyable. free. Qed.
Lemma free_confirm d c : free (confirm_ok d c).
Proof. unfold confirm_ok. free. Qed.
Lemma free_id_matches d rid : free (id_matches d rid).
Proof. unfold id_matches. free. Qed.
Lemma free_fields p w : free (fields_allowed p w).
Proof. unfold fields_allowed. free. Qed.
Lemma free_items j : free (items_of j).
Proof. unfold items_of. free. Qed.
Lemma free_mapping j : free (mapping j).
Proof. unfold mapping. free. Qed.
Lemma free_updates w : free (updates_of w).
Proof. induction w as [|[f v] w IH]; simpl; free. Qed.
Lemma free_any_key p f q : free (any_key p f q).
Proof. unfold any_key. free. Qed.
Lemma free_setitem r k v : free (setitem r k v).
Proof. unfold setitem. free. Qed.
Lemma free_construct {A} m (value : dict json → A) d : free (construct m value d).
Proof. unfold construct. free. Qed.
Lemma free_decode b : free (decode b).
Proof. unfold decode. free. Qed.
Lemma free_assert l : free (assert_allowlisted l).
Proof. unfold assert_allowlisted. free. Qed.
Lemma free_str_values d : free (str_values d).
Proof. induction d as [|[k v] d IH]; simpl; free. Qed.
Lemma free_read_text c : free (read_text c).
Proof. unfold read_text. free. Qed.
#[local] Hint Resolve free_is_applyable free_confirm free_id_matches free_fields free_items free_mapping
  free_updates free_any_key free_setitem free_construct free_decode free_assert free_str_values
  free_read_text : free.

Section kinds.
Context {H : Sha} {F : FloatRepr} {V : RevFs} {E : EnvFs} {P : Pydantic} {R : RtProc}.

Lemma free_stream_field modes cur key sensor field to : free (stream_field modes cur key sensor field to).
Proof. unfold stream_field, color_mode_check. free. Qed.
#[local] Hint Resolve free_stream_field : free.
Lemma free_stream_fields modes cur key sensor prof : free (stream_fields modes cur key sensor prof).
Proof. induction prof as [|[f v] prof IH]; simpl; free. Qed.
#[local] Hint Resolve free_stream_fields : free.
Lemma free_streams modes eff sp : free (stream_profiles_section modes eff sp).
Proof. induction sp as [|[k p] sp IH]; simpl; free. Qed.
Lemma free_webrtc eff wp : free (webrtc_section eff wp).
Proof. unfold webrtc_section. free. Qed.
Lemma free_diagnostics eff dp : free (diagnostics_section eff dp).
Proof. unfold diagnostics_section. free. Qed.
#[local] Hint Resolve free_streams free_webrtc free_diagnostics : free.

Local Abbreviation ok := (raises_only not_lock).

Lemma ro_free {W A} (r : res A) : free r → raises_only (W:=W) not_lock (lift r).
Proof. intros Hr. by apply ro_lift. Qed.
#[local] Hint Extern 2 (raises_only not_lock (lift _)) => apply ro_free; solve [eauto with free|free] : pres.
#[local] Hint Extern 1 (raises_only not_lock (throw _)) => apply ro_throw; discriminate : pres.

Lemma env_call_kind : ok env_call.
Proof. intros w e. unfold env_call. destruct (env_fault _) as [[]|]; by intros [= <-]. Qed.
Lemma rev_call_kind : ok rev_call.
Proof. intros w e. unfold rev_call. destruct (rev_fault _) as [[]|]; by intros [= <-]. Qed.
Lemma see_kind : ok see.
Proof. by intros w e. Qed.
Lemma set_temps_kind f : ok (set_temps f).
Proof. by intros w e. Qed.
Lemma install_kind : ok install.
Proof. by intros w e. Qed.
Lemma observe_kind : ok observe.
Proof. by intros w e. Qed.
Lemma rev_now_kind : ok rev_now.
Proof. by intros w e. Qed.
Lemma get_settings_kind : ok get_settings.
Proof. intros w e. unfold get_settings. by destruct (pr_cache w). Qed.
#[local] Hint Resolve env_call_kind rev_call_kind see_kind set_temps_kind install_kind observe_kind
  rev_now_kind get_settings_kind : pres.

Lemma on_env_kind {A} (m : M EnvFile A) : ok m → ok (on_env m).
Proof.
  intros Hm w e. unfold on_env, zoom. specialize (Hm (rt_env w)). destruct (m (rt_env w)). apply Hm.
Qed.
Lemma on_rev_kind {A} (m : M RevDir A) : ok m → ok (on_rev m).
Proof.
  intros Hm w e. unfold on_rev, zoom. specialize (Hm (rt_rev w)). destruct (m (rt_rev w)). apply Hm.
Qed.
Lemma on_proc_kind {A} (m : M Proc A) : ok m → ok (on_proc m).
Proof.
  intros Hm w e. unfold on_proc, zoom. specialize (Hm (rt_proc w)). destruct (m (rt_proc w)). apply Hm.
Qed.
#[local] Hint Resolve on_env_kind on_rev_kind on_proc_kind : pres.

Lemma read_bytes_kind : ok read_bytes.
Proof. unfold read_bytes. ro. Qed.
#[local] Hint Resolve read_bytes_kind : pres.
Lemma current_hash_kind : ok current_hash.
Proof. unfold current_hash. ro. Qed.
Lemma read_keys_kind : ok read_keys.
Proof. unfold read_keys. ro. Qed.
Lemma stat_mode_kind : ok stat_mode.
Proof. unfold stat_mode. ro. Qed.
#[local] Hint Resolve current_hash_kind read_keys_kind stat_mode_kind : pres.
Lemma atomic_write_kind b m : ok (atomic_write b m).
Proof. unfold atomic_write, fsync_dir, suppress_os. ro; try (by apply ro_raise). Qed.
#[local] Hint Resolve atomic_write_kind : pres.
Lemma write_locked_kind u h : ok (write_locked u h).
Proof. unfold write_locked. ro. Qed.
Lemma restore_locked_kind b m : ok (restore_locked b m).
Proof. unfold restore_locked, fsync_dir, suppress_os. ro. Qed.
#[local] Hint Resolve write_locked_kind restore_locked_kind : pres.

Lemma quarantine_kind s : ok (quarantine_revision s).
Proof. unfold quarantine_revision. ro. Qed.
#[local] Hint Resolve quarantine_kind : pres.
Lemma parse_revision_kind s r : ok (parse_revision s r).
Proof. unfold parse_revision. ro. Qed.
Lemma read_text_kind s : ok (read_revision_text s).
Proof. unfold read_revision_text. ro. Qed.
Lemma is_file_kind s : ok (is_file s).
Proof. by intros w e. Qed.
#[local] Hint Resolve parse_revision_kind read_text_kind is_file_kind : pres.
Lemma write_json_kind s j : ok (atomic_write_json s j).
Proof. unfold atomic_write_json, suppress_rev, write_file. ro. Qed.
#[local] Hint Resolve write_json_kind : pres.
Lemma set_status_kind rid st : ok (set_status rid st).
Proof. unfold set_status, read_revision_json. ro. Qed.
Lemma read_raw_kind rid : ok (read_raw_revision rid).
Proof. unfold read_raw_revision. ro. Qed.
#[local] Hint Resolve set_status_kind read_raw_kind : pres.

Lemma build_profiles_kind t al : ok (build_profiles t al).
Proof. induction al as [|[k a] al IH]; simpl; ro. Qed.
#[local] Hint Resolve build_profiles_kind : pres.
Lemma build_effective_kind : ok build_effective.
Proof. unfold build_effective, color_tuning. ro. Qed.
#[local] Hint Resolve build_effective_kind : pres.
Lemma color_modes_kind : ok color_modes.
Proof. unfold color_modes. ro. Qed.
#[local] Hint Resolve color_modes_kind : pres.
Lemma validate_kind p : ok (validate p).
Proof. unfold validate. ro. Qed.
Lemma verify_kind t : ok (verify t).
Proof. unfold verify, expected_effective. ro. Qed.
Lemma hashes_kind p : ok (file_hashes_before p).
Proof. unfold file_hashes_before, hash_bytes_or_sentinel. ro; apply on_proc_kind; ro. Qed.
#[local] Hint Resolve validate_kind verify_kind hashes_kind : pres.
Lemma screen_kind rid c : ok (screen_revision rid c).
Proof. unfold screen_revision, coherence_ok. ro. Qed.
#[local] Hint Resolve screen_kind : pres.

Lemma apply_under_lock_kind rid c : ok (apply_under_lock rid c).
Proof.
  unfold apply_under_lock, write_and_activate, rollback, prior_bytes, prior_mode, set_environ,
    restore_environ, cache_clear.
  repeat (ro; try (apply on_proc_kind); try (apply on_env_kind)).
Qed.
End kinds.

(** ** The values written are lines of the file *)
Lemma number_plain c :
  number_char c → is_py_space c = false ∧ is_line_break c = false ∧ in_range 0 127 c = true.
Proof.
  intros [Hd| ->]; [|done]. unfold is_digit in Hd.
  destruct c as [[] [] [] [] [] [] [] []]; first [by split_and!|by destruct Hd].
Qed.

Lemma pretty_clean (z : Z) : clean_value (pretty z).
Proof.
  destruct (pretty_chars z) as [Hc _]. rewrite Forall_forall in Hc.
  assert (Hh : ∀ l, (∀ c, c ∈ l → number_char c) → head_solid l).
  { intros [|c l] Hl; [done|]. apply number_plain, Hl. by left. }
  split_and!.
  - unfold py_strip. fold (chars (pretty z)). rewrite strip_solid; [apply str_chars|by apply Hh|].
    apply Hh. intros c Hin. apply Hc. by apply list_elem_of_In, in_rev, list_elem_of_In in Hin.
  - apply Forall_forall. intros c Hin. by apply number_plain, Hc.
  - apply is_ascii_spec. intros c Hin. by apply number_plain, Hc.
Qed.

Lemma updates_clean webrtc ups :
  (∀ v, ("ice_policy"%string, v) ∈ webrtc → ∃ s, v = JStr s ∧ s ∈ ["all"; "relay"]%string) →
  (∀ k, k ∈ dkeys webrtc → k ∈ dkeys FIELD_ENV) → updates_of webrtc = Ok ups → clean_dict ups.
Proof.
  revert ups. induction webrtc as [|[f v] webrtc IH]; intros ups Hice Hk Hups.
  { injection Hups as <-. intros k v. set_solver. }
  assert (Hrec : ∀ r, updates_of webrtc = Ok r → clean_dict r).
  { intros r. apply IH; [|intros k Hin; apply Hk]; set_solver. }
  assert (Hcons : ∀ k s r, clean_value s → clean_dict r → clean_dict ((k, s) :: r)).
  { intros k s r Hs Hr k' v' [[= -> ->]|]%elem_of_cons; [done|by eapply Hr]. }
  assert (Hf : f = "ice_policy"%string ∨ f = "turn_credential_ttl_seconds"%string).
  { assert (Hin : f ∈ dkeys FIELD_ENV) by (apply Hk; left).
    apply elem_of_cons in Hin as [->|Hin%list_elem_of_singleton]; auto. }
  destruct Hf as [->| ->]; rewrite ?updates_ice, ?updates_ttl in Hups;
    apply res_bind_ok in Hups as (x & Hx & Hups); apply res_bind_ok in Hups as (r & Hr & [= <-]);
    apply Hcons; auto using pretty_clean.
  destruct (Hice v ltac:(by left)) as (s & -> & Hs). injection Hx as <-.
  apply elem_of_cons in Hs as [->| ->%list_elem_of_singleton];
    (split_and!; [reflexivity|literal|reflexivity]).
Qed.

(** ** All or nothing *)
Section outcomes.
Context {H : Sha} {F : FloatRepr} {V : RevFs} {E : EnvFs} {P : Pydantic} {L : PydanticLaws P} {R : RtProc}.
Context (quiet : ∀ n f, env_edit n f = f).

Definition file_kept (w w' : Rt) : Prop := ef_file (rt_env w') = ef_file (rt_env w).
Definition environ_kept (w w' : Rt) : Prop := pr_environ (rt_proc w') = pr_environ (rt_proc w).

(** The updates are in the file, over the entries it had, with its permission bits. *)
Definition landed (ups : dict string) (w w' : Rt) : Prop := ∃ cur,
  env_keys (ef_file (rt_env w)) = Ok cur ∧
  env_keys (ef_file (rt_env w')) = Ok (sort_items (merge_dict cur ups)) ∧
  kept_mode (ef_file (rt_env w')) = kept_mode (ef_file (rt_env w)).

(** What an apply may leave, whatever fails on the way. *)
Inductive applied (webrtc : dict json) (ups : dict string) (w : Rt) : res ApplyResult → Rt → Prop :=
  | applied_nothing r w' :
      file_kept w w' → environ_kept w w' →
      match r with
      | Ok a => ap_outcome a = WRITE_FAILED ∨ ap_outcome a = DRIFT
      | Raise _ => True
      end → applied webrtc ups w r w'
  | applied_file_only r w' :
      landed ups w w' → environ_kept w w' →
      match r with Ok a => ap_outcome a = WRITE_FAILED | Raise _ => True end → applied webrtc ups w r w'
  | applied_all r w' :
      landed ups w w' → pr_environ (rt_proc w') = merge_dict (pr_environ (rt_proc w)) ups →
      target_shown webrtc (pr_environ (rt_proc w')) →
      match r with Ok a => a = mkApply APPLIED true true | Raise _ => True end → applied webrtc ups w r w'.

Lemma set_status_env rid st w r w' :
  on_rev (set_status rid st) w = (r, w') → rt_env w' = rt_env w ∧ rt_proc w' = rt_proc w.
Proof. by intros (e & _ & ->)%on_rev_inv. Qed.

Lemma str_values_strs (ups : dict string) : str_values (map (λ '(k, v), (k, JStr v)) ups) = Ok ups.
Proof. induction ups as [|[k v] ups IH]; simpl; [done|]. by rewrite IH. Qed.

(** The write itself. *)
Lemma write_result ups w r w' :
  clean_dict ups →
  (on_env (write_locked (map (λ '(k, v), (k, JStr v)) ups) (Some (hash_of (ef_file (rt_env w))))) ;;
   mret None) w = (r, w') →
  rt_proc w' = rt_proc w ∧
  ((file_kept w w' ∧ is_ok r = false) ∨
   (landed ups w w' ∧ match r with
                      | Ok a => a = @None ApplyResult
                      | Raise e => ex_kind e ≠ EDrift
                      end)).
Proof.
  intros Hclean Hw.
  destruct (on_env (write_locked (map (λ '(k, v), (k, JStr v)) ups)
    (Some (hash_of (ef_file (rt_env w))))) w) as [r2 w2] eqn:Hon.
  assert (Hr : w' = w2 ∧ match r2 with Ok _ => r = Ok None | Raise e => r = Raise e end).
  { unfold mbind, M_bind in Hw. rewrite Hon in Hw. by destruct r2; injection Hw as <- <-. }
  destruct Hr as [-> Hr]. apply on_env_inv in Hon as (e & He & ->). split; [done|].
  destruct (write_locked_cases quiet _ _ _ _ _ He) as [[Hf Hno]|_].
  { left. split; [exact Hf|]. destruct r2; [done|by rewrite Hr]. }
  destruct (write_locked_reads_back quiet _ ups _ _ _ _ (str_values_strs ups) Hclean He)
    as [[Hf Hno]|(cur & Hcur & _ & Hfile & Hmode & _ & Hk)].
  { left. split; [exact Hf|]. destruct r2; [done|by rewrite Hr]. }
  right. split; [by exists cur|]. by destruct r2 as [h|x]; rewrite Hr.
Qed.

(** Putting a status back reports the outcome or raises. *)
Lemma put_back rid o w r w' :
  (on_rev (set_status rid STATUS_VALIDATED) ;; mret (Some (outcome o))) w = (r, w') →
  rt_env w' = rt_env w ∧ rt_proc w' = rt_proc w ∧
  match r with Ok (Some a) => ap_outcome a = o | Ok None => False | Raise _ => True end.
Proof.
  intros Hr. apply bind_inv in Hr as [(u & w3 & [He Hp]%set_status_env & [= <- <-])|
      (x & [He Hp]%set_status_env & ->)]; done.
Qed.

(** The write, with the handlers around it. *)
Lemma write_step_cases rid ups prior_hash w r w' :
  clean_dict ups → prior_hash = hash_of (ef_file (rt_env w)) →
  try_except2
    (on_env (write_locked (map (λ '(k, v), (k, JStr v)) ups) (Some prior_hash)) ;; mret None)
    CDrift (λ _, on_rev (set_status rid STATUS_VALIDATED) ;; mret (Some (outcome DRIFT)))
    CException (λ _, on_rev (set_status rid STATUS_VALIDATED) ;; mret (Some (outcome WRITE_FAILED))) w
  = (r, w') →
  environ_kept w w' ∧
  ((file_kept w w' ∧ match r with
                     | Ok (Some a) => ap_outcome a = WRITE_FAILED ∨ ap_outcome a = DRIFT
                     | Ok None => False
                     | Raise _ => True
                     end) ∨
   (landed ups w w' ∧ match r with
                      | Ok (Some a) => ap_outcome a = WRITE_FAILED
                      | Ok None => rt_proc w' = rt_proc w
                      | Raise _ => True
                      end)).
Proof.
  intros Hclean -> Hr. unfold try_except2 in Hr.
  destruct (_ ≫= _) as [r1 w1] eqn:Hw in Hr.
  destruct (write_result _ _ _ _ Hclean Hw) as [Hproc Hcase]. clear Hw.
  destruct r1 as [a|e].
  { injection Hr as <- <-. unfold environ_kept. rewrite Hproc. split; [done|].
    destruct Hcase as [[_ [=]]|[Hl ->]]. right. done. }
  unfold environ_kept, file_kept, landed in *.
  destruct (instance_of (ex_kind e) CDrift) eqn:Hd; [|destruct (instance_of (ex_kind e) CException) eqn:He].
  - apply put_back in Hr as (-> & -> & Hr). rewrite Hproc. split; [done|].
    destruct Hcase as [[Hf _]|[Hl Hk]]; [left; split; [done|destruct r as [[a|]|]; auto]|].
    exfalso. apply Hk. by destruct (ex_kind e).
  - apply put_back in Hr as (-> & -> & Hr). rewrite Hproc. split; [done|].
    destruct Hcase as [[Hf _]|[Hl Hk]]; [left|right]; (split; [done|]); destruct r as [[a|]|]; auto; done.
  - injection Hr as <- <-. rewrite Hproc. split; [done|].
    destruct Hcase as [[Hf _]|[Hl Hk]]; [left|right]; done.
Qed.

Lemma verify_env t w r w' :
  on_proc (verify t) w = (r, w') →
  rt_env w' = rt_env w ∧ rt_rev w' = rt_rev w ∧ reads_only (rt_proc w) (rt_proc w').
Proof.
  intros (p & Hv & ->)%on_proc_inv. split_and!; [done..|]. simpl.
  exact (run_pres _ _ _ _ _ (verify_reads t) Hv).
Qed.

(** From the updated environment on, everything has been applied. *)
Lemma activate_cases rid webrtc ups prior bytes mode w w1 r w' :
  NoDup (dkeys webrtc) → (∀ k, k ∈ dkeys webrtc → k ∈ dkeys FIELD_ENV) →
  updates_of webrtc = Ok ups → landed ups w w1 → rt_proc w1 = rt_proc w →
  (on_proc (set_environ ups ;; cache_clear) ;;
   ok ← on_proc (verify webrtc);
   if (ok : bool) then on_rev (set_status rid STATUS_APPLIED) ;; mret (mkApply APPLIED true true)
   else rollback rid prior bytes mode) w1 = (r, w') → applied webrtc ups w r w'.
Proof.
  intros Hnd Hk Hups Hl Hp Hr.
  apply bind_inv in Hr as [(u & w2 & Hset & Hr)|(e & Hset & ->)]; [|done].
  apply on_proc_inv in Hset as (p2 & Hset & ->). injection Hset as _ <-. rewrite Hp in Hr.
  set (p2 := mkProc _ None _) in Hr.
  assert (Hshown : target_shown webrtc (pr_environ p2)) by (by apply activation_shown).
  assert (Hall : ∀ r3 w3, rt_env w3 = rt_env w1 → pr_environ (rt_proc w3) = pr_environ p2 →
            match r3 with Ok a => a = mkApply APPLIED true true | Raise _ => True end →
            applied webrtc ups w r3 w3).
  { intros r3 w3 He Hpr Hm. apply applied_all; [|by rewrite Hpr|by rewrite Hpr|done].
    unfold landed. by rewrite He. }
  apply bind_inv in Hr as [(b & w3 & Hv & Hr)|(e & Hv & ->)].
  2:{ apply verify_env in Hv as (He & _ & [Hpr _]). by apply Hall. }
  assert (Hb : b = true).
  { apply on_proc_inv in Hv as (p3 & Hv & _). by apply (verify_iff webrtc p2 b p3). }
  apply verify_env in Hv as (He & _ & [Hpr _]). subst b. simpl in He, Hpr.
  apply bind_inv in Hr as [(v & w4 & [E4 P4]%set_status_env & [-> ->]%ret_inv)|(e & [E4 P4]%set_status_env & ->)];
    apply Hall; simpl; try congruence; done.
Qed.

(** What precedes the write leaves file and environment. *)
Lemma before_write rid webrtc ups w r w' :
  write_and_activate rid webrtc ups w = (r, w') →
  (∃ e, r = Raise e ∧ file_kept w w' ∧ rt_proc w' = rt_proc w) ∨
  ∃ prior bytes mode w1, file_kept w w1 ∧ rt_proc w1 = rt_proc w ∧
    (failed ← try_except2
      (on_env (write_locked (map (λ '(k, v), (k, JStr v)) ups) (Some (hash_of (ef_file (rt_env w1))))) ;; mret None)
      CDrift (λ _, on_rev (set_status rid STATUS_VALIDATED) ;; mret (Some (outcome DRIFT)))
      CException (λ _, on_rev (set_status rid STATUS_VALIDATED) ;; mret (Some (outcome WRITE_FAILED)));
     match failed with
     | Some r => mret r
     | None =>
         on_proc (set_environ ups ;; cache_clear) ;;
         ok ← on_proc (verify webrtc);
         if (ok : bool) then on_rev (set_status rid STATUS_APPLIED) ;; mret (mkApply APPLIED true true)
         else rollback rid prior bytes mode
     end) w1 = (r, w').
Proof.
  intros Hr. unfold write_and_activate in Hr. unfold file_kept.
  assert (Henv : ∀ {A} (m : M EnvFile A) w1 r1 w2, preserves (keeps ef_file) m → on_env m w1 = (r1, w2) →
            ef_file (rt_env w1) = ef_file (rt_env w) → rt_proc w1 = rt_proc w →
            ef_file (rt_env w2) = ef_file (rt_env w) ∧ rt_proc w2 = rt_proc w).
  { intros A m w1 r1 w2 Hm (e & He & ->)%on_env_inv H1 H2. split; [|done]. rewrite <- H1.
    exact (same_run _ _ _ _ Hm He). }
  apply bind_inv in Hr as [(bytes & w1 & H1 & Hr)|(e & H1 & ->)];
    apply (Henv _ _ _ _ _ (prior_bytes_same quiet)) in H1 as [F1 P1]; eauto.
  apply bind_inv in Hr as [(mode & w2 & H2 & Hr)|(e & H2 & ->)];
    apply (Henv _ _ _ _ _ (prior_mode_same quiet)) in H2 as [F2 P2]; eauto.
  apply bind_inv in Hr as [(prior & w3 & [= <- <-] & Hr)|(e & [=] & ->)].
  apply bind_inv in Hr as [(ph & w3 & H3 & Hr)|(e & H3 & ->)];
    [|apply (Henv _ _ _ _ _ (current_hash_same quiet)) in H3 as [F3 P3]; eauto].
  assert (Hph : ph = hash_of (ef_file (rt_env w3))).
  { apply on_env_inv in H3 as (e & [-> Hs]%(current_hash_ok quiet) & ->). simpl. by rewrite Hs. }
  apply (Henv _ _ _ _ _ (current_hash_same quiet)) in H3 as [F3 P3]; [|done..].
  apply bind_inv in Hr as [(u & w4 & [E4 P4]%set_status_env & Hr)|(e & [E4 P4]%set_status_env & ->)];
    [|left; exists e; split_and!; congruence].
  right. eexists _, bytes, mode, w4. split_and!; [congruence|congruence|].
  rewrite E4, <- Hph. exact Hr.
Qed.

(** Writing and activating the fields leaves one of the three states. *)
Lemma write_and_activate_cases rid webrtc ups w r w' :
  NoDup (dkeys webrtc) → (∀ k, k ∈ dkeys webrtc → k ∈ dkeys FIELD_ENV) →
  updates_of webrtc = Ok ups → clean_dict ups →
  write_and_activate rid webrtc ups w = (r, w') → applied webrtc ups w r w'.
Proof.
  intros Hnd Hk Hups Hclean [(e & -> & Hf & Hp)|(prior & bytes & mode & w1 & Hf & Hp & Hr)]%before_write.
  { apply applied_nothing; [done|by unfold environ_kept; rewrite Hp|done]. }
  assert (Hl1 : ∀ w2, landed ups w1 w2 → landed ups w w2) by (unfold landed, file_kept in *; intros w2; by rewrite Hf).
  assert (Hf1 : ∀ w2, file_kept w1 w2 → file_kept w w2) by (unfold file_kept in *; congruence).
  assert (He1 : ∀ w2, environ_kept w1 w2 → environ_kept w w2) by (unfold environ_kept; intros; by rewrite <- Hp).
  pose proof (λ r w', write_step_cases rid ups _ w1 r w' Hclean eq_refl) as Hstep.
  apply bind_inv in Hr as [(failed & w2 & [He Hc]%Hstep & Hr)|(e & [He Hc]%Hstep & ->)].
  - destruct failed as [a|].
    + apply ret_inv in Hr as [-> ->].
      destruct Hc as [[Hc Ha]|[Hc Ha]]; [apply applied_nothing|apply applied_file_only]; auto.
    + destruct Hc as [[_ []]|[Hl Hp2]].
      apply (activate_cases _ _ _ _ _ _ w w2) in Hr; auto. congruence.
  - destruct Hc as [[Hc _]|[Hc _]]; [apply applied_nothing|apply applied_file_only]; auto.
Qed.

(** What a call may leave. *)
Inductive apply_result (rid confirm : string) (w : Rt) (r : res ApplyResult) (w' : Rt) : Prop :=
  | result_nothing :
      file_kept w w' → environ_kept w w' →
      match r with
      | Ok a => (ap_outcome a ∉ [ROLLED_BACK; ROLLBACK_FAILED]) ∧
                (ap_outcome a = APPLIED → ap_changed a = false ∧
                   ∃ webrtc, asked rid confirm w webrtc ∧ target_shown webrtc (pr_environ (rt_proc w)))
      | Raise _ => True
      end → apply_result rid confirm w r w'
  | result_something webrtc ups :
      asked rid confirm w webrtc → updates_of webrtc = Ok ups → landed ups w w' →
      (environ_kept w w' ∧ (∀ a, r = Ok a → ap_outcome a = WRITE_FAILED)) ∨
      (pr_environ (rt_proc w') = merge_dict (pr_environ (rt_proc w)) ups ∧
       target_shown webrtc (pr_environ (rt_proc w')) ∧
       ∀ a, r = Ok a → a = mkApply APPLIED true true) → apply_result rid confirm w r w'.

Lemma asked_untouched rid confirm webrtc w w' :
  untouched w w' → (asked rid confirm w webrtc ↔ asked rid confirm w' webrtc).
Proof.
  intros (He & Hf & _).
  assert (Hfa : file_at (rt_rev w') rid = file_at (rt_rev w) rid) by (unfold file_at; by rewrite Hf).
  split; intros (rec & hash & []); exists rec, hash; split; try done;
    try (by rewrite ?Hfa in *); by rewrite ?He in *.
Qed.

(** The checks before and after a call leave its result. *)
Lemma apply_result_frame rid confirm w0 w w1 w2 r :
  untouched w0 w → apply_result rid confirm w r w1 →
  ef_file (rt_env w2) = ef_file (rt_env w1) → rt_proc w2 = rt_proc w1 →
  apply_result rid confirm w0 r w2.
Proof.
  intros Hu Hr He Hp. pose proof Hu as (Hf & _ & [Hpr _]).
  destruct Hr as [H1 H2 H3|webrtc ups Ha Hups Hl Hc]; unfold file_kept, environ_kept, landed in *.
  - apply result_nothing; unfold file_kept, environ_kept; try congruence.
    destruct r as [a|]; [|done]. destruct H3 as [? H3]. split; [done|].
    intros (? & webrtc & ? & ?)%H3. split; [done|]. exists webrtc.
    by rewrite asked_untouched, <- Hpr by done.
  - apply (result_something _ _ _ _ _ webrtc ups); [by rewrite asked_untouched by done|done|..];
      unfold landed, environ_kept; rewrite ?He, ?Hp, <- ?Hf, <- ?Hpr; done.
Qed.

Lemma apply_result_raise rid confirm w r w' e :
  apply_result rid confirm w r w' → apply_result rid confirm w (Raise e) w'.
Proof.
  intros [H1 H2 H3|webrtc ups Ha Hups Hl Hc]; [by apply result_nothing|].
  apply (result_something _ _ _ _ _ webrtc ups); try done. naive_solver.
Qed.

Lemma applied_result rid confirm w webrtc ups r w' :
  asked rid confirm w webrtc → updates_of webrtc = Ok ups → applied webrtc ups w r w' →
  apply_result rid confirm w r w'.
Proof.
  intros Ha Hups [r1 w1 Hf He Hr|r1 w1 Hl He Hr|r1 w1 Hl He Ht Hr].
  - apply result_nothing; try done. destruct r1 as [a|]; [|done].
    destruct Hr as [-> | ->]; (split; [set_solver|done]).
  - apply (result_something _ _ _ _ _ webrtc ups); try done. left. split; [done|]. by intros a ->.
  - apply (result_something _ _ _ _ _ webrtc ups); try done. right. split_and!; try done. by intros a ->.
Qed.

(** Nothing but a read happened: a rejection. *)
Lemma rejected rid confirm w w' a :
  untouched w w' → ap_outcome a ∉ [ROLLED_BACK; ROLLBACK_FAILED; APPLIED] →
  apply_result rid confirm w (Ok a) w'.
Proof.
  intros (Hf & _ & [Hp _]) Ha. apply result_nothing; [done|done|].
  split; [set_solver|]. intros Happ. rewrite Happ in Ha. set_solver.
Qed.

(** A screening that ends the call ends it with a rejection. *)
Lemma screen_rejects rid confirm w a w' :
  screen_revision rid confirm w = (Ok (inl a), w') → ap_outcome a ∉ [ROLLED_BACK; ROLLBACK_FAILED; APPLIED].
Proof.
  unfold screen_revision. intros Hr.
  repeat first
    [ apply ret_ok_inv in Hr as [[= ->] ->]; simpl; set_solver
    | apply ret_ok_inv in Hr as [[=] _]
    | apply bind_ok_inv in Hr as (? & ? & _ & Hr)
    | match type of Hr with (match ?x with _ => _ end) _ = _ => destruct x end ].
Qed.

Lemma untouched_kept w w' : untouched w w' → file_kept w w' ∧ environ_kept w w'.
Proof. by intros (? & _ & [? _]). Qed.

Lemma verify_untouched t w w1 r w2 :
  untouched w w1 → on_proc (verify t) w1 = (r, w2) → untouched w w2.
Proof. intros Hu (HE & HR & HP)%verify_env. etrans; [exact Hu|]. split_and!; [by rewrite HE|by rewrite HR|done]. Qed.

(** What is asked for can be written as lines of the file. *)
Lemma asked_clean rid confirm w webrtc ups :
  asked rid confirm w webrtc → NoDup (dkeys webrtc) → updates_of webrtc = Ok ups → clean_dict ups.
Proof.
  intros (rec & hash & [_ _ _ _ _ _ Hk Hice _]) Hnd. apply updates_clean; [|done].
  intros v Hin. apply Hice; [done|]. by apply dget_NoDup.
Qed.

(** An environment that already shows the target is left alone. *)
Lemma already_there rid confirm webrtc w w1 w2 r w' :
  cache_ok (rt_proc w) → untouched w w1 → untouched w w2 → asked rid confirm w webrtc →
  on_proc (verify webrtc) w1 = (Ok true, w2) →
  (on_rev (set_status rid STATUS_APPLIED) ;; mret (mkApply APPLIED false true)) w2 = (r, w') →
  apply_result rid confirm w r w'.
Proof.
  intros Hok (_ & _ & [Hp Hc]) Hu2 Ha Hv Hr.
  assert (Hshown : target_shown webrtc (pr_environ (rt_proc w))).
  { rewrite <- Hp. apply on_proc_inv in Hv as (p & Hv & _). by apply (verify_iff _ _ _ _ (Hc Hok) Hv). }
  apply untouched_kept in Hu2 as [Hf He].
  apply bind_inv in Hr as [(v & w3 & [E3 P3]%set_status_env & [-> ->]%ret_inv)|(e & [E3 P3]%set_status_env & ->)];
    apply result_nothing; unfold file_kept, environ_kept in *; try congruence; [|done].
  split; [set_solver|]. intros _. split; [done|]. by exists webrtc.
Qed.

Lemma apply_under_lock_cases rid confirm w r w' :
  cache_ok (rt_proc w) → (∀ webrtc, asked rid confirm w webrtc → NoDup (dkeys webrtc)) →
  apply_under_lock rid confirm w = (r, w') → apply_result rid confirm w r w'.
Proof.
  intros Hok Hnd Hr.
  apply bind_inv in Hr as [(s & w1 & Hs & Hr)|(e & Hs & ->)];
    pose proof (run_pres _ _ _ _ _ (screen_untouched quiet rid confirm) Hs) as Hu;
    [|by apply untouched_kept in Hu as [??]; apply result_nothing].
  destruct s as [a|webrtc].
  { apply ret_inv in Hr as [-> ->]. apply rejected; [done|]. by apply (screen_rejects _ _ _ _ _ Hs). }
  assert (Ha := screen_asked quiet _ _ _ _ _ Hs). specialize (Hnd _ Ha).
  apply bind_inv in Hr as [(ups & w2 & [Hups ->]%lift_ok_inv & Hr)|(e & Hl & ->)].
  2:{ assert (w' = w1) as -> by (unfold lift in Hl; by injection Hl as _ <-).
      apply untouched_kept in Hu as [??]. by apply result_nothing. }
  apply bind_inv in Hr as [(there & w2 & Hv & Hr)|(e & Hv & ->)];
    pose proof (verify_untouched _ _ _ _ _ Hu Hv) as Hu2;
    [|by apply untouched_kept in Hu2 as [??]; apply result_nothing].
  destruct there.
  - apply (already_there rid confirm webrtc w w1 w2); auto.
  - apply (apply_result_frame _ _ w w2 w' w'); [done| |done..].
    apply (applied_result _ _ _ webrtc ups); [by rewrite <- (asked_untouched _ _ _ w w2)|done|].
    apply (write_and_activate_cases rid webrtc ups w2 r w'); try done; [by destruct Ha as (? & ? & [])|].
    by apply (asked_clean rid confirm w webrtc).
Qed.

(** Under the lock: what came before and after the body is invisible in its result. *)
Lemma lock_cases {A} (m : M Rt A) w r w' :
  runtime_env_lock on_env (on_env lock_busy) false m w = (r, w') →
  (is_ok r = false ∧ untouched w w') ∨
  ∃ r0 w1 w2, untouched w w1 ∧ rt_proc w1 = rt_proc w ∧ m w1 = (r0, w2) ∧
    ef_file (rt_env w') = ef_file (rt_env w2) ∧ rt_proc w' = rt_proc w2 ∧ rt_rev w' = rt_rev w2 ∧
    (r = r0 ∨ ∃ e, r = Raise e ∧ ex_kind e ≠ ELockHeld).
Proof.
  assert (Hc : ∀ w1 r1 w2, on_env env_call w1 = (r1, w2) →
            untouched w1 w2 ∧ rt_proc w2 = rt_proc w1 ∧ rt_rev w2 = rt_rev w1).
  { intros w1 r1 w2 Hr. split; [|by apply on_env_inv in Hr as (? & _ & ->)].
    exact (run_pres _ _ _ _ _ (on_env_untouched _ env_call_same) Hr). }
  unfold runtime_env_lock. intros Hr.
  apply bind_inv in Hr as [(u1 & w1 & (U1 & P1 & _)%Hc & Hr)|(e & (U1 & P1 & _)%Hc & ->)]; [|by left].
  apply bind_inv in Hr as [(u2 & w2 & (U2 & P2 & _)%Hc & Hr)|(e & (U2 & P2 & _)%Hc & ->)]; [|left; split; [done|by etrans]].
  assert (U12 : untouched w w2) by by etrans.
  apply bind_inv in Hr as [(b & w3 & Hb & Hr)|(e & Hb & ->)]; [|discriminate Hb].
  assert (U3 : untouched w w3 ∧ rt_proc w3 = rt_proc w).
  { injection Hb as _ <-. simpl. split; [|congruence]. etrans; [exact U12|]. done. }
  destruct U3 as [U3 P3]. destruct b; simpl in Hr.
  { injection Hr as <- <-. by left. }
  apply bind_inv in Hr as [(u4 & w4 & (U4 & P4 & _)%Hc & Hr)|(e & (U4 & P4 & _)%Hc & ->)]; [|left; split; [done|by etrans]].
  right. unfold finally in Hr. destruct (m w4) as [r0 w5] eqn:Hm.
  exists r0, w4, w5. split; [by etrans|]. split; [congruence|]. split; [done|].
  destruct (on_env env_call w5) as [r6 w6] eqn:H6. pose proof H6 as ((E6 & _) & P6 & R6)%Hc.
  destruct r6 as [u6|e6]; injection Hr as <- <-; split_and!; auto. right. exists e6. split; [done|].
  pose proof (on_env_kind env_call env_call_kind w5 e6) as Hk. rewrite H6 in Hk. by apply Hk.
Qed.

Lemma apply_result_of rid confirm w r w' :
  cache_ok (rt_proc w) → (∀ webrtc, asked rid confirm w webrtc → NoDup (dkeys webrtc)) →
  apply_revision rid confirm w = (r, w') → apply_result rid confirm w r w'.
Proof.
  intros Hok Hnd Hr. unfold apply_revision in Hr.
  apply bind_inv in Hr as [(rec & w1 & Hrec & Hr)|(e & Hrec & ->)];
    pose proof (run_pres _ _ _ _ _ (on_rev_untouched _ (read_raw_same rid)) Hrec) as Hu;
    [|by apply untouched_kept in Hu as [??]; apply result_nothing].
  assert (Hp : rt_proc w1 = rt_proc w) by (by apply on_rev_inv in Hrec as (? & _ & ->)).
  destruct rec as [rec|]; [|apply ret_inv in Hr as [-> ->]; apply rejected; [done|set_solver]].
  unfold try_except in Hr. destruct (runtime_env_lock _ _ _ _ w1) as [r1 w2] eqn:Hl.
  apply lock_cases in Hl as [[Hno Hu2]|(r0 & w3 & w4 & Hu3 & P3 & Hbody & E4 & P4 & _ & Hr0)].
  - assert (Hu' : untouched w w2) by by etrans. destruct r1 as [|e]; [done|].
    destruct (instance_of _ _); injection Hr as <- <-; [apply rejected; [done|set_solver]|].
    by apply untouched_kept in Hu' as [??]; apply result_nothing.
  - assert (Hu' : untouched w w3) by by etrans.
    assert (Hfree := apply_under_lock_kind rid confirm w3). rewrite Hbody in Hfree.
    apply apply_under_lock_cases in Hbody;
      [|by rewrite P3, Hp|intros webrtc Ha; apply Hnd; by rewrite (asked_untouched _ _ _ _ _ Hu')].
    apply (apply_result_frame _ _ w) with (w2 := w2) in Hbody; try done.
    assert (r1 = r ∧ w' = w2) as [-> ->].
    { destruct r1 as [a|e]; [by injection Hr as <- <-|].
      assert (Hk : instance_of (ex_kind e) CLockHeld = false).
      { assert (ex_kind e ≠ ELockHeld) by (destruct Hr0 as [<-|(e' & [= ->] & ?)]; [by apply Hfree|done]).
        by destruct (ex_kind e). }
      rewrite Hk in Hr. by injection Hr as <- <-. }
    destruct Hr0 as [->|(e & -> & _)]; [done|]. by eapply apply_result_raise.
Qed.
(** C16. Whatever call of the file system fails and wherever the process dies, applying a
    revision leaves rs-runtime.env and the process environment as they were, or the file
    holds, over the entries it had, what a validated and confirmed revision on disk asks
    for. [APPLIED] means the effective view shows it; [WRITE_FAILED] that the environment
    is untouched; a rollback never happens. *)
Theorem apply_all_or_nothing rid confirm w r w' :
  cache_ok (rt_proc w) → (∀ webrtc, asked rid confirm w webrtc → NoDup (dkeys webrtc)) →
  apply_revision rid confirm w = (r, w') →
  (file_kept w w' ∧ environ_kept w w' ∧
   ∀ a, r = Ok a → (ap_outcome a ∉ [ROLLED_BACK; ROLLBACK_FAILED]) ∧
     (ap_outcome a = APPLIED → ap_changed a = false ∧
        ∃ webrtc, asked rid confirm w webrtc ∧ target_shown webrtc (pr_environ (rt_proc w)))) ∨
  (∃ webrtc ups, asked rid confirm w webrtc ∧ updates_of webrtc = Ok ups ∧ landed ups w w' ∧
   ((environ_kept w w' ∧ ∀ a, r = Ok a → ap_outcome a = WRITE_FAILED) ∨
    (pr_environ (rt_proc w') = merge_dict (pr_environ (rt_proc w)) ups ∧
     target_shown webrtc (pr_environ (rt_proc w')) ∧ ∀ a, r = Ok a → a = mkApply APPLIED true true))).
Proof.
  intros Hok Hnd Hr. destruct (apply_result_of _ _ _ _ _ Hok Hnd Hr) as [Hf He Ha|webrtc ups ????].
  - left. split_and!; try done. by intros a ->.
  - right. exists webrtc, ups. done.
Qed.
End outcomes.

(** ** Concrete runs *)
#[local] Instance plain_sha : Sha := {| sha256 b := ("h" ++ b)%string |}.
#[local] Instance no_repr : FloatRepr := {| float_repr _ := "nan"%string |}.

Definition env_faults (f : nat → option fault) : EnvFs :=
  {| env_fault := f; env_edit _ x := x; env_busy _ := false |}.
Definition never (n : nat) : option fault := None.

Definition apply_patch : json :=
  JObj [("webrtc", JObj [("ice_policy", JStr "relay"); ("turn_credential_ttl_seconds", JInt 600)])]%string.

Definition before_persist : Rt :=
  mkRt sample_env (mkRevDir [] [] 0) (mkProc [("ICE_POLICY", "all")]%string None 0).

(** The revision as [persist_validated] journals it. *)
Definition persisted : res (string * string) * Rt :=
  persist_validated (E:=env_faults never) (V:=calm_rev "20260101T000000") (R:=device_proc)
    apply_patch [] [NEW_SESSIONS_ONLY] JNull before_persist.

Definition persisted_id : string := match persisted.1 with Ok (rid, _) => rid | Raise _ => EmptyString end.
Definition persisted_hash : string := match persisted.1 with Ok (_, h) => h | Raise _ => EmptyString end.

Definition apply_sample (f : nat → option fault) (confirm : string) : res ApplyResult * Rt :=
  apply_revision (E:=env_faults f) (V:=calm_rev "t") (P:=strict_pydantic) (R:=device_proc)
    persisted_id confirm persisted.2.

Example apply_changes :
  let '(r, w') := apply_sample never ("apply-" ++ persisted_hash) in
  r = Ok (mkApply APPLIED true true) ∧
  dget (pr_environ (rt_proc w')) "ICE_POLICY" = Some "relay"%string ∧
  env_keys (ef_file (rt_env w')) = Ok [("ICE_POLICY", "relay"); ("TURN_CRED_TTL", "600")]%string.
Proof. vm_compute. split_and!; reflexivity. Qed.

Example apply_needs_confirmation :
  (apply_sample never "apply").1 = Ok (outcome CONFIRM_MISMATCH).
Proof. vm_compute. reflexivity. Qed.

Lemma persisted_asks webrtc confirm :
  asked persisted_id confirm persisted.2 webrtc → NoDup (dkeys webrtc).
Proof.
  intros (rec & hash & [Hfile _ _ _ _ (patch & Hp & Hw) _ _ _]).
  vm_compute in Hfile. injection Hfile as <-. vm_compute in Hp. injection Hp as <-.
  vm_compute in Hw. injection Hw as <-. apply (bool_decide_unpack _). vm_compute. exact I.
Qed.

Lemma apply_all_or_nothing_witness :
  let '(r, w') := apply_sample never ("apply-" ++ persisted_hash) in
  r = Ok (mkApply APPLIED true true) ∧
  ∃ webrtc ups, asked persisted_id ("apply-" ++ persisted_hash) persisted.2 webrtc ∧ updates_of webrtc = Ok ups ∧
    landed ups persisted.2 w' ∧ pr_environ (rt_proc w') = merge_dict (pr_environ (rt_proc persisted.2)) ups.
Proof.
  destruct (apply_sample never ("apply-" ++ persisted_hash)) as [r w'] eqn:Hr.
  assert (Ha : r = Ok (mkApply APPLIED true true)) by (vm_compute in Hr; injection Hr as <- _; reflexivity).
  subst r. split; [reflexivity|].
  destruct (apply_all_or_nothing (E:=env_faults never) (V:=calm_rev "t") (P:=strict_pydantic) (L:=strict_laws)
    (R:=device_proc) (λ _ _, eq_refl) persisted_id ("apply-" ++ persisted_hash) persisted.2
    (Ok (mkApply APPLIED true true)) w')
    as [(_ & _ & Ho)|(webrtc & ups & Ha & Hu & Hl & [[_ Ho]|(He & _ & _)])].
  - vm_compute. reflexivity.
  - intros webrtc. apply persisted_asks.
  - exact Hr.
  - destruct (Ho _ eq_refl) as [_ Hc]. destruct (Hc eq_refl) as [[=] _].
  - discriminate (Ho _ eq_refl).
  - exists webrtc, ups. split_and!; [exact Ha|exact Hu|exact Hl|exact He].
Defined.

(** A journal that fails after the activation: the caller sees an [OSError], no rollback is
    attempted, the change is live and durable and the revision stays [applying] until the
    next boot. *)
Definition late_journal (n : nat) : RevFs :=
  {| rev_fault k := if (k =? n)%nat then Some FaultOS else None; rev_ts _ := "t"%string;
     rev_iso _ := "t"%string |}.

Definition late_apply (n : nat) : res ApplyResult * Rt :=
  apply_revision (E:=env_faults never) (V:=late_journal n) (P:=strict_pydantic) (R:=device_proc)
    persisted_id ("apply-" ++ persisted_hash) persisted.2.

Definition status_of (rid : string) (w : Rt) : option json :=
  match file_at (rt_rev w) rid with Text (TxDoc (JObj d)) => dget d "status" | _ => None end.

Lemma failed_status_leaves_change :
  ∃ n, let '(r, w') := late_apply n in
  r = fail EOS ∧ dget (pr_environ (rt_proc w')) "ICE_POLICY" = Some "relay"%string ∧
  env_keys (ef_file (rt_env w')) = Ok [("ICE_POLICY", "relay"); ("TURN_CRED_TTL", "600")]%string ∧
  status_of persisted_id w' = Some (JStr STATUS_APPLYING).
Proof. exists (rd_tick (rt_rev persisted.2) + 14)%nat. vm_compute. split_and!; reflexivity. Qed.

(** On a depth camera the effective policy is always [relay], and the oracle expects just
    that: a revision asking for [all] is reported as applied and verified, and nothing is
    written. *)
Definition depth_proc : RtProc :=
  {| rs := sample_settings "depth_camera" 10000; rt_alloc_file _ := sample_allocations;
     rt_running _ _ := Some true; rt_tuning _ := Some (Some "FPS=30"%string);
     rt_catalog _ := None; rt_production _ := [] |}.

Definition depth_start : Rt := mkRt (mkEnvFile None [] 0) (mkRevDir [] [] 0) (mkProc [] None 0).

Definition depth_apply : res ApplyResult * Rt :=
  let persisted := persist_validated (E:=env_faults never) (V:=calm_rev "20260101T000000") (R:=depth_proc)
    (JObj [("webrtc", JObj [("ice_policy", JStr "all")])])%string [] [NEW_SESSIONS_ONLY] JNull depth_start in
  match persisted.1 with
  | Ok (rid, h) => apply_revision (E:=env_faults never) (V:=calm_rev "t") (P:=strict_pydantic) (R:=depth_proc)
                     rid ("apply-" ++ h) persisted.2
  | Raise e => (Raise e, persisted.2)
  end.

Lemma depth_camera_all_is_noop :
  let '(r, w') := depth_apply in
  r = Ok (mkApply APPLIED false true) ∧ ef_file (rt_env w') = None ∧ pr_environ (rt_proc w') = [].
Proof. vm_compute. split_and!; reflexivity. Qed.
