(* ===== verification/RuntimeRecovery.v ===== *)
(** * Recovery of the runtime configuration at boot

    [recover_on_boot] of [app/services/runtime_config_apply.py] settles the revisions that a
    crash left in progress: total correctness on a readable journal, and the two together -
    a crash at any point of an apply, then a boot - leave a consistent pair of file and
    journal. *)
From S2P Require Import Prelude.
From S2P Require Import PyVal.
From S2P Require Import PyStr.
From S2P Require Import JsonText.
From S2P Require Import FileStore.
From S2P Require Import RuntimeEnv.
From S2P Require Import RuntimeSchema.
From S2P Require Import RuntimeBuilder.
From S2P Require Import RuntimeRevisions.
From S2P Require Import RuntimeValidator.
From S2P Require Import RuntimeApply.

(** ** What a journal entry says *)
Definition entry (c : content) : option (dict json) :=
  match c with Text (TxDoc (JObj d)) => Some d | _ => None end.

(** The status of an entry that is in progress. *)
Definition in_progress (d : dict json) : option string :=
  match dget d "status" with
  | Some (JStr s) => if mem_str s [STATUS_APPLYING; STATUS_ROLLING_BACK] then Some s else None
  | _ => None
  end.

(** The hash of rs-runtime.env the revision was validated against; [None] where the lookup
    of [recover_on_boot] raises. *)
Definition base_of (d : dict json) : option json :=
  match or_empty (default JNull (dget d "file_hashes_before")) with
  | JObj fhb => Some (default JNull (dget fhb RUNTIME_ENV_PATH))
  | _ => None
  end.

Definition settled_status (h : string) (base : json) (st : string) : string :=
  if py_eq (JStr h) base then STATUS_ROLLED_BACK
  else if String.eqb st STATUS_APPLYING then STATUS_APPLIED else STATUS_ROLLBACK_FAILED.

(** What recovery makes of an entry, given the hash of the file on disk. *)
Definition settles (h : string) (c c' : content) : Prop :=
  match entry c with
  | Some d =>
      match in_progress d, base_of d with
      | Some st, Some base => ∃ iso, c' = dumps (restamped d (settled_status h base st) iso)
      | _, _ => c' = c
      end
  | None => c' = c
  end.

(** An entry recovery can read. *)
Definition readable (rid : string) (c : content) : Prop :=
  malformed_id rid = false ∧ ∃ d, entry c = Some d ∧ (in_progress d = None ∨ is_Some (base_of d)).

Lemma entry_inv c d : entry c = Some d → c = Text (TxDoc (JObj d)).
Proof. destruct c as [| | |[| | |[]|]]; simpl; try done. by intros [= ->]. Qed.

Lemma status_test d s :
  py_eq (default JNull (dget d "status")) (JStr s) = true ↔ dget d "status" = Some (JStr s).
Proof.
  destruct (dget d "status") as [[| | | |s'| |]|]; simpl; try done.
  rewrite String.eqb_eq. naive_solver.
Qed.

Lemma settled_status_is h base st :
  (if negb (negb (py_eq (JStr h) base)) then STATUS_ROLLED_BACK
   else if String.eqb st STATUS_APPLYING then STATUS_APPLIED else STATUS_ROLLBACK_FAILED)
  = settled_status h base st.
Proof. unfold settled_status. by destruct (py_eq _ _). Qed.

(** The two comparisons of [recover_one] against what the entry says. *)
Lemma in_progress_test d :
  let st := default JNull (dget d "status") in
  let applying := py_eq st (JStr STATUS_APPLYING) in
  match in_progress d with
  | Some s => applying || py_eq st (JStr STATUS_ROLLING_BACK) = true ∧ applying = String.eqb s STATUS_APPLYING
  | None => applying || py_eq st (JStr STATUS_ROLLING_BACK) = false
  end.
Proof.
  simpl. unfold in_progress. destruct (dget d "status") as [[| | | |s| |]|]; try done. simpl.
  rewrite orb_false_r. by destruct (String.eqb s STATUS_APPLYING || _) eqn:Hs.
Qed.

(** A rewritten record reads back with its new status and its other fields. *)
Lemma restamped_entry d st iso :
  ∃ d', entry (dumps (restamped d st iso)) = Some d' ∧ dget d' "status" = Some (JStr st) ∧
    ∀ k, k ≠ "status"%string → k ≠ "status_updated_at"%string → dget d' k = sort_json <$> dget d k.
Proof.
  unfold restamped, dumps. destruct (sort_json _) as [| | | | | |d'] eqn:Hs; try discriminate Hs.
  exists d'. split; [done|]. split.
  - rewrite (dget_sort_json _ _ _ Hs). by rewrite dget_dset_ne, dget_dset_eq.
  - intros k H1 H2. rewrite (dget_sort_json _ _ _ Hs). by rewrite !dget_dset_ne.
Qed.

Lemma settled_status_final h base st :
  mem_str (settled_status h base st) [STATUS_APPLYING; STATUS_ROLLING_BACK] = false.
Proof. unfold settled_status. by repeat case_match. Qed.

(** Nothing is in progress after it was settled. *)
Lemma settles_final h rid c c' d' :
  readable rid c → settles h c c' → entry c' = Some d' → in_progress d' = None.
Proof.
  intros (_ & d & Hd & Hb) Hs Hd'. unfold settles in Hs. rewrite Hd in Hs.
  destruct (in_progress d) as [st|] eqn:Hp; [|subst; congruence].
  destruct Hb as [|[base Hb]]; [done|]. rewrite Hb in Hs. destruct Hs as [iso ->].
  destruct (restamped_entry d (settled_status h base st) iso) as (d2 & He & Hst & _).
  assert (d2 = d') as -> by congruence. unfold in_progress. by rewrite Hst, settled_status_final.
Qed.

Section recovery.
Context {H : Sha} {F : FloatRepr} {V : RevFs} {E : EnvFs} {P : Pydantic} {R : RtProc}.
Context (rev_calm : ∀ n, rev_fault n = None) (env_calm : ∀ n, env_fault n = None).
Context (quiet : ∀ n f, env_edit n f = f).

Lemma set_status_runs rid st d w :
  mem_str st STATUSES = true → malformed_id rid = false → entry (file_at w rid) = Some d →
  ∃ w' iso, set_status rid st w = (Ok true, w') ∧
    rd_files w' = dset (rd_files w) rid (dumps (restamped d st iso)).
Proof.
  intros Hst Hid He%entry_inv. destruct w as [fs cs n]. unfold file_at in He. simpl in He.
  unfold set_status, read_revision_json, read_revision_text, parse_revision, atomic_write_json, suppress_rev,
    finally, try_except, write_file, modify, is_file, gets, lift, get, rev_call, rev_now, file_at,
    mbind, M_bind, mret, M_ret.
  rewrite Hst, Hid. simpl. rewrite He. simpl. repeat (rewrite rev_calm; simpl).
  rewrite He. simpl. repeat (rewrite rev_calm; simpl). eauto.
Qed.

Lemma read_raw_runs rid d w :
  malformed_id rid = false → entry (file_at w rid) = Some d →
  ∃ w', read_raw_revision rid w = (Ok (Some (JObj d)), w') ∧ rd_files w' = rd_files w.
Proof.
  intros Hid He%entry_inv. destruct w as [fs cs n]. unfold file_at in He. simpl in He.
  unfold read_raw_revision, read_revision_text, parse_revision, try_except, is_file, gets, lift, get,
    rev_call, file_at, mbind, M_bind, mret, M_ret.
  rewrite Hid. simpl. rewrite He. simpl. repeat (rewrite rev_calm; simpl). rewrite He. simpl. eauto.
Qed.

Lemma current_hash_runs w :
  ∃ w', current_hash w = (Ok (hash_of (ef_file w)), w') ∧ ef_file w' = ef_file w.
Proof.
  destruct w as [f ts n]. unfold current_hash, read_bytes, see, env_call, mbind, M_bind, mret, M_ret. simpl.
  rewrite quiet. destruct f as [[b m]|]; simpl; [|eauto]. rewrite env_calm. simpl. rewrite quiet. simpl. eauto.
Qed.

Lemma on_rev_runs {A} (m : M RevDir A) w r e :
  m (rt_rev w) = (r, e) → on_rev m w = (r, mkRt (rt_env w) e (rt_proc w)).
Proof. intros Hm. unfold on_rev, zoom. by rewrite Hm. Qed.
Lemma on_env_runs {A} (m : M EnvFile A) w r e :
  m (rt_env w) = (r, e) → on_env m w = (r, mkRt e (rt_rev w) (rt_proc w)).
Proof. intros Hm. unfold on_env, zoom. by rewrite Hm. Qed.

Lemma settled_status_known h base st : mem_str (settled_status h base st) STATUSES = true.
Proof. unfold settled_status. by repeat case_match. Qed.

(** One entry: it is left alone, or its status is settled by the file on disk. *)
Lemma recover_one_runs rid w :
  readable rid (file_at (rt_rev w) rid) →
  ∃ b w', recover_one rid w = (Ok b, w') ∧
    ef_file (rt_env w') = ef_file (rt_env w) ∧ rt_proc w' = rt_proc w ∧
    settles (hash_of (ef_file (rt_env w))) (file_at (rt_rev w) rid) (file_at (rt_rev w') rid) ∧
    (∀ rid', rid' ≠ rid → file_at (rt_rev w') rid' = file_at (rt_rev w) rid') ∧
    b = match entry (file_at (rt_rev w) rid) with
        | Some d => bool_decide (is_Some (in_progress d))
        | None => false
        end.
Proof.
  intros (Hid & d & Hd & Hbase). unfold settles. rewrite Hd.
  destruct (read_raw_runs rid d _ Hid Hd) as (e1 & Hread & He1).
  unfold recover_one. rewrite (bind_ok _ _ _ _ _ (on_rev_runs _ _ _ _ Hread)).
  set (w1 := mkRt (rt_env w) e1 (rt_proc w)).
  assert (Hw1 : ∀ rid', file_at (rt_rev w1) rid' = file_at (rt_rev w) rid') by (intros; unfold file_at; simpl; by rewrite He1).
  destruct (truthy (JObj d)) eqn:Htr; cbn [negb]; cbv iota.
  2:{ destruct d; [|done]. exists false, w1. rewrite !Hw1. split_and!; done. }
  change (lift (jget (JObj d) "status" JNull)) with (lift (W:=Rt) (Ok (default JNull (dget d "status")))).
  rewrite (bind_ok _ _ _ _ w1) by done.
  pose proof (in_progress_test d) as Htest. cbv zeta in Htest |- *.
  destruct (in_progress d) as [st|] eqn:Hprog; [destruct Htest as [Htest Happ]|]; rewrite Htest; cbn [negb]; cbv iota.
  2:{ exists false, w1. rewrite !Hw1. split_and!; auto. }
  destruct Hbase as [|[base Hb]]; [done|]. rewrite Hb. unfold base_of in Hb.
  destruct (or_empty _) as [| | | | | |fhb] eqn:Hfhb; try discriminate Hb. injection Hb as <-.
  change (lift (jget (JObj d) "file_hashes_before" JNull))
    with (lift (W:=Rt) (Ok (default JNull (dget d "file_hashes_before")))).
  rewrite (bind_ok _ _ _ _ w1) by done. rewrite Hfhb.
  change (lift (jget (JObj fhb) RUNTIME_ENV_PATH JNull))
    with (lift (W:=Rt) (Ok (default JNull (dget fhb RUNTIME_ENV_PATH)))).
  rewrite (bind_ok _ _ _ _ w1) by done. set (base := default JNull _).
  destruct (current_hash_runs (rt_env w1)) as (e2 & Hh & He2).
  rewrite (bind_ok _ _ _ _ _ (on_env_runs _ _ _ _ Hh)). rewrite Happ.
  rewrite settled_status_is.
  destruct (set_status_runs rid (settled_status (hash_of (ef_file (rt_env w1))) base st) d (rt_rev w1))
    as (e3 & iso & Hset & He3); [apply settled_status_known|done|by rewrite Hw1|].
  rewrite (bind_ok _ _ _ _ _ (on_rev_runs _ (mkRt e2 (rt_rev w1) (rt_proc w1)) _ _ Hset)).
  eexists true, _. split; [done|]. split_and!; [done|done| | |].
  - exists iso. unfold file_at at 1. simpl. by rewrite He3, dget_dset_eq.
  - intros rid' Hne. unfold file_at. simpl. rewrite He3, dget_dset_ne by done. exact (Hw1 rid').
  - by rewrite bool_decide_eq_true_2.
Qed.

Definition counts (w : RevDir) (rid : string) : bool :=
  match entry (file_at w rid) with
  | Some d => bool_decide (is_Some (in_progress d))
  | None => false
  end.

Lemma recover_loop_runs rids n w :
  NoDup rids → (∀ rid, rid ∈ rids → readable rid (file_at (rt_rev w) rid)) →
  ∃ w', recover_loop rids n w = (Ok (n + Z.of_nat (length (List.filter (counts (rt_rev w)) rids))), w') ∧
    ef_file (rt_env w') = ef_file (rt_env w) ∧ rt_proc w' = rt_proc w ∧
    (∀ rid, rid ∈ rids →
       settles (hash_of (ef_file (rt_env w))) (file_at (rt_rev w) rid) (file_at (rt_rev w') rid)) ∧
    (∀ rid, rid ∉ rids → file_at (rt_rev w') rid = file_at (rt_rev w) rid).
Proof.
  revert n w. induction rids as [|rid rids IH]; intros n w Hnd Hread.
  { exists w. split_and!; try done; [simpl; by rewrite Z.add_0_r|set_solver]. }
  apply NoDup_cons in Hnd as [Hni Hnd].
  destruct (recover_one_runs rid w) as (b & w1 & Hone & He1 & Hp1 & Hs1 & Ho1 & Hb); [apply Hread; by left|].
  destruct (IH (if b then n + 1 else n) w1 Hnd) as (w2 & Hrest & He2 & Hp2 & Hs2 & Ho2).
  { intros rid' Hin. rewrite Ho1 by (intros ->; done). apply Hread. by right. }
  exists w2. simpl. rewrite (bind_ok _ _ _ _ _ Hone), Hrest.
  assert (Hext : List.filter (counts (rt_rev w1)) rids = List.filter (counts (rt_rev w)) rids).
  { apply filter_ext_in. intros rid' Hin%list_elem_of_In. unfold counts.
    by rewrite Ho1 by (intros ->; done). }
  rewrite Hext. split_and!; [|congruence|congruence| |].
  - do 2 f_equal. change (counts (rt_rev w) rid) with
      (match entry (file_at (rt_rev w) rid) with Some d => bool_decide (is_Some (in_progress d)) | None => false end).
    rewrite <- Hb. destruct b; simpl; lia.
  - intros rid' [->|Hin]%elem_of_cons; [by rewrite Ho2|].
    rewrite <- He1, <- (Ho1 rid') by (intros ->; done). by apply Hs2.
  - intros rid' [Hne Hin]%not_elem_of_cons. by rewrite Ho2, Ho1.
Qed.

(** The revisions of the journal. *)
Definition listed (w : RevDir) : list string :=
  List.filter (fun s => startswith s "rev-") (dkeys (sort_items (rd_files w))).

(** C18. On a readable journal, with a file system that answers, recovery returns; it settles
    every revision in progress - rolled back when rs-runtime.env still is the file the
    revision was validated against, else applied, or a failed rollback if it was rolling
    back - counts them, and touches no other revision, the file or the environment. *)
Theorem recover_on_boot_settles w :
  NoDup (dkeys (rd_files (rt_rev w))) →
  (∀ rid, rid ∈ listed (rt_rev w) → readable rid (file_at (rt_rev w) rid)) →
  ∃ w', recover_on_boot w
        = (Ok (Z.of_nat (length (List.filter (counts (rt_rev w)) (listed (rt_rev w))))), w') ∧
    ef_file (rt_env w') = ef_file (rt_env w) ∧ rt_proc w' = rt_proc w ∧
    (∀ rid, rid ∈ listed (rt_rev w) →
       settles (hash_of (ef_file (rt_env w))) (file_at (rt_rev w) rid) (file_at (rt_rev w') rid) ∧
       counts (rt_rev w') rid = false) ∧
    (∀ rid, rid ∉ listed (rt_rev w) → file_at (rt_rev w') rid = file_at (rt_rev w) rid).
Proof.
  intros Hnd Hread. unfold recover_on_boot. rewrite (bind_ok _ _ w (listed (rt_rev w)) w) by (by destruct w).
  destruct (recover_loop_runs (listed (rt_rev w)) 0 w) as (w' & Hr & He & Hp & Hs & Ho);
    [by apply dkeys_sorted_NoDup|done|].
  exists w'. split_and!; try done. intros rid Hin. split; [by apply Hs|].
  unfold counts. destruct (entry _) as [d'|] eqn:Hd'; [|done].
  by rewrite (settles_final _ _ _ _ _ (Hread _ Hin) (Hs _ Hin) Hd').
Qed.
End recovery.

(** ** A crash during an apply, and the boot after it *)
Section crash.
Context {H : Sha} {F : FloatRepr} {V : RevFs} {E : EnvFs} {P : Pydantic} {L : PydanticLaws P} {R : RtProc}.
Context (quiet : ∀ n f, env_edit n f = f).

(** The entry of [rid] was validated against a file with hash [h]. *)
Definition base_is (h : string) (c : content) : Prop :=
  ∃ d, entry c = Some d ∧ base_of d = Some (JStr h).

Definition keeps_base (rid h : string) (w w' : Rt) : Prop :=
  base_is h (file_at (rt_rev w) rid) → base_is h (file_at (rt_rev w') rid).

#[local] Instance keeps_base_preorder rid h : PreOrder (keeps_base rid h).
Proof. split; [by intros w|]. intros w1 w2 w3 H1 H2 H3. by apply H2, H1. Qed.

Lemma base_of_sorted d d' h :
  dget d' "file_hashes_before" = sort_json <$> dget d "file_hashes_before" →
  base_of d = Some (JStr h) → base_of d' = Some (JStr h).
Proof.
  unfold base_of. intros -> Hb.
  assert (Hd : default JNull (sort_json <$> dget d "file_hashes_before")
               = sort_json (default JNull (dget d "file_hashes_before"))) by by destruct (dget d _).
  rewrite Hd. set (j := default JNull (dget d _)) in *. unfold or_empty in *. rewrite truthy_sort.
  destruct (truthy j) eqn:Ht; [|done]. destruct j as [| | | | | |fhb]; try discriminate Hb.
  injection Hb as Hb. simpl. rewrite dget_sort_items, dget_map_values.
  destruct (dget fhb RUNTIME_ENV_PATH) as [v|]; [|done]. simpl in *. by subst v.
Qed.

Lemma set_status_keeps_base rid h st : preserves (keeps_base rid h) (on_rev (set_status rid st)).
Proof.
  intros w. destruct (on_rev (set_status rid st) w) as [r w'] eqn:Hr. simpl.
  apply on_rev_inv in Hr as (e & Hr & ->). unfold keeps_base, file_at. simpl.
  assert (Hre : restamp rid st (rt_rev w) e ∨ rd_files e = rd_files (rt_rev w)).
  { destruct (set_status_cases _ _ _ _ _ Hr) as [[_ ?]|[(_ & -> & _)|(x & _ & [?|[_ ?]])]]; auto. }
  destruct Hre as [(d & iso & Hd & ->)|Hsame]; [|by rewrite Hsame].
  rewrite dget_dset_eq. simpl. unfold file_at in Hd. rewrite Hd. intros (d0 & [= <-] & Hb).
  destruct (restamped_entry d st iso) as (d' & He & _ & Hk).
  exists d'. split; [done|]. by apply (base_of_sorted d d' h); [apply Hk|].
Qed.

Lemma on_env_base rid h {A} (m : M EnvFile A) : preserves (keeps_base rid h) (on_env m).
Proof. intros w. unfold on_env, zoom. destruct (m (rt_env w)). exact id. Qed.
Lemma on_proc_base rid h {A} (m : M Proc A) : preserves (keeps_base rid h) (on_proc m).
Proof. intros w. unfold on_proc, zoom. destruct (m (rt_proc w)). exact id. Qed.
Lemma on_rev_base rid h {A} (m : M RevDir A) :
  preserves (keeps rd_files) m → preserves (keeps_base rid h) (on_rev m).
Proof.
  intros Hm w. unfold on_rev, zoom. specialize (Hm (rt_rev w)). destruct (m (rt_rev w)) as [r e].
  unfold keeps_base, file_at. simpl in *. by rewrite Hm.
Qed.
#[local] Hint Resolve on_env_base on_proc_base set_status_keeps_base : pres.
#[local] Hint Extern 2 (preserves (keeps_base _ _) (on_rev (read_raw_revision _))) =>
  apply on_rev_base, read_raw_same : pres.

Lemma hashes_base rid h patch : preserves (keeps_base rid h) (file_hashes_before patch).
Proof. unfold file_hashes_before. pres. Qed.
#[local] Hint Resolve hashes_base : pres.

Lemma screen_base rid h confirm : preserves (keeps_base rid h) (screen_revision rid confirm).
Proof. unfold screen_revision, coherence_ok. pres. Qed.
#[local] Hint Resolve screen_base : pres.

Lemma under_lock_base rid h confirm : preserves (keeps_base rid h) (apply_under_lock rid confirm).
Proof. unfold apply_under_lock, write_and_activate, rollback. pres. Qed.
#[local] Hint Resolve under_lock_base : pres.

(** Only a revision that passed the checks gets its status changed. *)
Lemma under_lock_journal rid confirm w r w' :
  apply_under_lock rid confirm w = (r, w') →
  rd_files (rt_rev w') = rd_files (rt_rev w) ∨ ∃ webrtc, asked rid confirm w webrtc.
Proof.
  intros Hr.
  apply bind_inv in Hr as [(s & w1 & Hs & Hr)|(e & Hs & ->)];
    pose proof (run_pres _ _ _ _ _ (screen_untouched quiet rid confirm) Hs) as (_ & Hf & _); [|by left].
  destruct s as [a|webrtc]; [apply ret_inv in Hr as [_ ->]; by left|].
  right. exists webrtc. exact (screen_asked quiet _ _ _ _ _ Hs).
Qed.

Lemma apply_base rid h confirm : preserves (keeps_base rid h) (apply_revision rid confirm).
Proof. unfold apply_revision, runtime_env_lock. pres. Qed.

Lemma apply_journal rid confirm w r w' :
  apply_revision rid confirm w = (r, w') →
  rd_files (rt_rev w') = rd_files (rt_rev w) ∨ ∃ webrtc, asked rid confirm w webrtc.
Proof.
  intros Hr. unfold apply_revision in Hr.
  apply bind_inv in Hr as [(rec & w1 & Hrec & Hr)|(e & Hrec & ->)];
    pose proof (run_pres _ _ _ _ _ (on_rev_untouched _ (read_raw_same rid)) Hrec) as Hu;
    [|by left; destruct Hu as (_ & ? & _)].
  destruct rec as [rec|]; [|apply ret_inv in Hr as [_ ->]; left; by destruct Hu as (_ & ? & _)].
  unfold try_except in Hr. destruct (runtime_env_lock _ _ _ _ w1) as [r1 w2] eqn:Hl.
  assert (w' = w2) as ->.
  { destruct r1 as [a|e]; [by injection Hr as _ <-|]. by destruct (instance_of _ _); injection Hr as _ <-. }
  apply lock_cases in Hl as [[_ Hu2]|(r0 & w3 & w4 & Hu3 & _ & Hbody & _ & _ & Hrev & _)].
  - left. destruct Hu as (_ & <- & _). by destruct Hu2 as (_ & ? & _).
  - assert (Hu' : untouched w w3) by by etrans.
    destruct (under_lock_journal _ _ _ _ _ Hbody) as [Hsame|[webrtc Ha]].
    + left. rewrite Hrev, Hsame. by destruct Hu' as (_ & ? & _).
    + right. exists webrtc. by rewrite (asked_untouched _ _ _ _ _ Hu').
Qed.

(** What a reader of rs-runtime.env sees of it. *)
Definition bytes_of (w : Rt) : option string := fst <$> ef_file (rt_env w).

Lemma hash_inj (Hinj : Inj (=) (=) sha256) (Hhex : ∀ b, sha256 b ≠ "__ABSENT__"%string) f f' :
  hash_of f = hash_of f' → fst <$> f = fst <$> f'.
Proof.
  unfold hash_of, RUNTIME_ENV_SENTINEL. change "sha256:__ABSENT__"%string with ("sha256:" ++ "__ABSENT__")%string.
  destruct f as [[b m]|], f' as [[b' m']|]; cbn [fmap option_fmap option_map fst];
    [intros Hb%(inj (String.append "sha256:"))..|done]; cbn.
  - by apply Hinj in Hb as ->.
  - by apply Hhex in Hb.
  - by symmetry in Hb; apply Hhex in Hb.
Qed.

(** A revision that passed the checks was validated against the file as it is. *)
Lemma asked_base rid confirm w webrtc :
  asked rid confirm w webrtc → base_is (hash_of (ef_file (rt_env w))) (file_at (rt_rev w) rid).
Proof.
  intros (rec & hash & [Hfile _ _ _ _ _ _ _ (fhb & Hg & Hj)]). rewrite Hfile.
  destruct rec as [| | | | | |d]; try discriminate Hg. exists d. split; [done|].
  unfold getitem in Hg. unfold base_of. destruct (dget d _) as [x|] eqn:Hd; [|discriminate Hg].
  injection Hg as ->. simpl. destruct fhb as [| | | | | |f]; try discriminate Hj.
  injection Hj as Hj. destruct f as [|kv f]; [discriminate Hj|]. unfold or_empty. simpl truthy.
  cbv iota. simpl in Hj |- *. f_equal. exact Hj.
Qed.

Lemma listed_entry rid w d :
  malformed_id rid = false → entry (file_at w rid) = Some d → rid ∈ listed w.
Proof.
  unfold malformed_id, listed. rewrite !orb_false_iff, negb_false_iff. intros [_ Hs] Hd.
  apply list_elem_of_In, filter_In. split; [|done]. apply list_elem_of_In.
  unfold dkeys. rewrite sort_items_perm. destruct (decide (rid ∈ dkeys (rd_files w))) as [|Hn]; [done|].
  apply dget_None in Hn. unfold file_at in Hd. by rewrite Hn in Hd.
Qed.

(** C17. Crash consistency, for an injective file hash: the process dies anywhere in an apply
    of a revision that was not in progress (or the apply just raises) and leaves the revision
    marked as applying. At a boot on the same files, where every journalled revision is
    readable, no call fails and nobody else writes, the recovery returns and marks it
    rolled back with rs-runtime.env as before, or applied with the file holding what the
    revision asks for over the entries it had. *)
Theorem crash_then_recovery rid confirm w r w' w1 d d' :
  Inj (=) (=) sha256 → (∀ b, sha256 b ≠ "__ABSENT__"%string) →
  cache_ok (rt_proc w) → (∀ webrtc, asked rid confirm w webrtc → NoDup (dkeys webrtc)) →
  malformed_id rid = false → entry (file_at (rt_rev w) rid) = Some d → in_progress d = None →
  apply_revision rid confirm w = (r, w') →
  entry (file_at (rt_rev w') rid) = Some d' → in_progress d' = Some STATUS_APPLYING →
  (* the boot: the same files, a new process, calls that do not fail *)
  ef_file (rt_env w1) = ef_file (rt_env w') → rd_files (rt_rev w1) = rd_files (rt_rev w') →
  NoDup (dkeys (rd_files (rt_rev w1))) →
  (∀ rid', rid' ∈ listed (rt_rev w1) → readable rid' (file_at (rt_rev w1) rid')) →
  ∀ (V' : RevFs) (E' : EnvFs), (∀ n, rev_fault (RevFs:=V') n = None) →
  (∀ n, env_fault (EnvFs:=E') n = None) → (∀ n f, env_edit (EnvFs:=E') n f = f) →
  ∃ n w2 d2, recover_on_boot (V:=V') (E:=E') w1 = (Ok n, w2) ∧ entry (file_at (rt_rev w2) rid) = Some d2 ∧
    ((dget d2 "status" = Some (JStr STATUS_ROLLED_BACK) ∧ bytes_of w2 = bytes_of w) ∨
     (dget d2 "status" = Some (JStr STATUS_APPLIED) ∧
      ∃ webrtc ups, asked rid confirm w webrtc ∧ updates_of webrtc = Ok ups ∧ landed ups w w2)).
Proof.
  intros Hinj Hhex Hok Hnd Hid Hd Hp Hrun Hd' Hp' Hef Hrd Hnd1 Hread V' E' Hrc Hec Hq.
  assert (Hfa : ∀ rid', file_at (rt_rev w1) rid' = file_at (rt_rev w') rid') by (intros; unfold file_at; by rewrite Hrd).
  assert (Hbase : base_of d' = Some (JStr (hash_of (ef_file (rt_env w))))).
  { destruct (apply_journal _ _ _ _ _ Hrun) as [Hsame|[webrtc Ha]].
    - unfold file_at in Hd, Hd'. rewrite Hsame in Hd'. congruence.
    - pose proof (run_pres _ _ _ _ _ (apply_base _ (hash_of (ef_file (rt_env w))) _) Hrun (asked_base _ _ _ _ Ha))
        as (d2 & He & Hb). congruence. }
  destruct (recover_loop_runs Hrc Hec Hq (listed (rt_rev w1)) 0 w1) as (w2 & Hr & He2 & _ & Hs & _);
    [by apply dkeys_sorted_NoDup|done|].
  assert (Hin : rid ∈ listed (rt_rev w1)) by (eapply listed_entry; [done|by rewrite Hfa]).
  specialize (Hs _ Hin). unfold settles in Hs. rewrite Hfa, Hd', Hp', Hbase, Hef in Hs. destruct Hs as [iso Hs].
  destruct (restamped_entry d' (settled_status (hash_of (ef_file (rt_env w'))) (JStr (hash_of (ef_file (rt_env w))))
    STATUS_APPLYING) iso) as (d2 & Hd2 & Hst & _). rewrite <- Hs in Hd2.
  eexists _, w2, d2. split; [unfold recover_on_boot; rewrite (bind_ok _ _ w1 (listed (rt_rev w1)) w1) by (by destruct w1); exact Hr|].
  split; [done|]. rewrite Hst. unfold settled_status. simpl py_eq.
  assert (Hb2 : bytes_of w2 = bytes_of w') by (unfold bytes_of; congruence).
  destruct (String.eqb _ _) eqn:Heq.
  - left. split; [done|]. rewrite Hb2. apply hash_inj; [done..|]. by apply String.eqb_eq in Heq.
  - right. split; [done|].
    destruct (apply_result_of quiet _ _ _ _ _ Hok Hnd Hrun) as [Hk|webrtc ups Ha Hups Hl _].
    + rewrite Hk, String.eqb_refl in Heq. done.
    + exists webrtc, ups. split_and!; try done. unfold landed in *. by rewrite He2, Hef.
Qed.
End crash.

(** ** Concrete runs *)
#[local] Existing Instance RuntimeApply.plain_sha.
#[local] Existing Instance RuntimeApply.no_repr.

Definition killed_at (n : nat) (k : nat) : option fault := if (k =? n)%nat then Some FaultKilled else None.

(** The process dies in the [n]th call on rs-runtime.env after the revision was journalled. *)
Definition crash_sample (n : nat) : res ApplyResult * Rt :=
  apply_sample (killed_at (ef_tick (rt_env persisted.2) + n)) ("apply-" ++ persisted_hash).

(** A new process finds the files as they were left. *)
Definition rebooted (w : Rt) : Rt := mkRt (rt_env w) (rt_rev w) (mkProc [("ICE_POLICY", "all")]%string None 0).

Definition recover_sample (w : Rt) : res Z * Rt :=
  recover_on_boot (E:=env_faults never) (V:=calm_rev "boot") w.

Definition crash_confirm : string := "apply-" ++ persisted_hash.

Definition readableb (rid : string) (c : content) : bool :=
  negb (malformed_id rid) &&
  match entry c with
  | Some d => match in_progress d, base_of d with Some _, None => false | _, _ => true end
  | None => false
  end.

Lemma readableb_ok rid c : readableb rid c = true → readable rid c.
Proof.
  unfold readableb, readable. rewrite andb_true_iff, negb_true_iff. intros [Hid Hc]. split; [done|].
  destruct (entry c) as [d|]; [|done]. exists d. split; [done|].
  destruct (in_progress d), (base_of d); eauto. done.
Qed.

Lemma readable_listed w :
  forallb (λ rid, readableb rid (file_at (rt_rev w) rid)) (listed (rt_rev w)) = true →
  ∀ rid, rid ∈ listed (rt_rev w) → readable rid (file_at (rt_rev w) rid).
Proof. rewrite forallb_forall. intros Hr rid Hin. by apply readableb_ok, Hr, list_elem_of_In. Qed.

(** Killed after the rename: applied. *)
Lemma crash_then_recovery_witness :
  let '(_, w') := crash_sample 35 in
  ∃ n w2 d2, recover_sample (rebooted w') = (Ok n, w2) ∧ entry (file_at (rt_rev w2) persisted_id) = Some d2 ∧
    dget d2 "status" = Some (JStr STATUS_APPLIED) ∧
    env_keys (ef_file (rt_env w2)) = Ok [("ICE_POLICY", "relay"); ("TURN_CRED_TTL", "600")]%string.
Proof.
  destruct (crash_sample 35) as [r w'] eqn:Hr.
  destruct (entry (file_at (rt_rev w') persisted_id)) as [d'|] eqn:Hd'; [|vm_compute in Hr; injection Hr as <- <-; vm_compute in Hd'; discriminate Hd'].
  destruct (entry (file_at (rt_rev persisted.2) persisted_id)) as [d|] eqn:Hd; [|vm_compute in Hd; discriminate Hd].
  assert (Hp' : in_progress d' = Some STATUS_APPLYING ∧ NoDup (dkeys (rd_files (rt_rev w'))) ∧
    forallb (λ rid, readableb rid (file_at (rt_rev w') rid)) (listed (rt_rev w')) = true).
  { vm_compute in Hr. injection Hr as <- <-. vm_compute in Hd'. injection Hd' as <-.
    split; [reflexivity|]. split; [apply (bool_decide_unpack _); vm_compute; exact I|reflexivity]. }
  destruct Hp' as (Hp' & Hnd & Hread).
  destruct (crash_then_recovery (E:=env_faults (killed_at (ef_tick (rt_env persisted.2) + 35))) (V:=calm_rev "t")
    (P:=strict_pydantic) (L:=strict_laws) (R:=device_proc) (λ _ _, eq_refl)
    persisted_id crash_confirm persisted.2 r w' (rebooted w') d d') with (V' := calm_rev "boot") (E' := env_faults never)
    as (n & w2 & d2 & Hrec & He & Hcase).
  - intros a b [= Hab]. exact Hab.
  - intros b [=].
  - vm_compute. reflexivity.
  - intros webrtc. apply persisted_asks.
  - vm_compute. reflexivity.
  - exact Hd.
  - vm_compute in Hd. injection Hd as <-. vm_compute. reflexivity.
  - exact Hr.
  - exact Hd'.
  - exact Hp'.
  - reflexivity.
  - reflexivity.
  - exact Hnd.
  - exact (readable_listed (rebooted w') Hread).
  - reflexivity.
  - reflexivity.
  - reflexivity.
  - exists n, w2, d2. split; [exact Hrec|]. split; [exact He|].
    destruct Hcase as [[_ Hb]|[Hst (webrtc & ups & Ha & Hu & cur & Hcur & Hl & _)]].
    + exfalso. assert (Hb2 : bytes_of w2 = bytes_of (recover_sample (rebooted w')).2)
        by (unfold recover_sample; rewrite Hrec; reflexivity).
      rewrite Hb in Hb2. vm_compute in Hr. injection Hr as <- <-. vm_compute in Hb2. discriminate Hb2.
    + split; [exact Hst|]. rewrite Hl. vm_compute in Hcur. injection Hcur as <-.
      destruct Ha as (rec & hash & [Hf _ _ _ _ (patch & Hpa & Hw) _ _ _]).
      vm_compute in Hf. injection Hf as <-. vm_compute in Hpa. injection Hpa as <-.
      vm_compute in Hw. injection Hw as <-. vm_compute in Hu. injection Hu as <-. vm_compute. reflexivity.
Defined.

Lemma recover_on_boot_settles_witness :
  let w' := rebooted (crash_sample 30).2 in
  ∃ w2, recover_sample w' = (Ok 1, w2) ∧ counts (rt_rev w2) persisted_id = false ∧
        status_of persisted_id w2 = Some (JStr STATUS_ROLLED_BACK).
Proof.
  destruct (recover_on_boot_settles (E:=env_faults never) (V:=calm_rev "boot") (λ _, eq_refl) (λ _, eq_refl)
    (λ _ _, eq_refl) (rebooted (crash_sample 30).2)) as (w2 & Hr & _ & _ & Hs & _).
  - apply (bool_decide_unpack _). vm_compute. exact I.
  - apply readable_listed. vm_compute. reflexivity.
  - exists w2.
    assert (Hr2 : recover_sample (rebooted (crash_sample 30).2) = (Ok 1, w2)).
    { unfold recover_sample. rewrite Hr. f_equal; vm_compute; reflexivity. }
    split; [exact Hr2|]. split; [apply Hs; apply (bool_decide_unpack _); vm_compute; exact I|].
    replace w2 with (recover_sample (rebooted (crash_sample 30).2)).2 by (rewrite Hr2; reflexivity).
    vm_compute. reflexivity.
Defined.

(** One corrupt revision stops the recovery of those listed after it, at every boot. *)
Definition corrupt_first (w : Rt) : Rt :=
  mkRt (rt_env w) (mkRevDir (("rev-0", Text TxGarbage) :: rd_files (rt_rev w))%string [] 0) (rt_proc w).

Lemma corrupt_revision_blocks_recovery :
  let '(r, w2) := recover_sample (corrupt_first (rebooted (crash_sample 30).2)) in
  r = fail EStoreCorrupt ∧ status_of persisted_id w2 = Some (JStr STATUS_APPLYING) ∧
  (recover_sample w2).1 = fail EStoreCorrupt.
Proof. vm_compute. split_and!; reflexivity. Qed.
