(* ===== verification/RateLimit.v ===== *)
(** * The per-client token buckets ([app/middleware/rate_limit.py])

    Two limiters of the same shape, the general one and the stricter one of the admin
    endpoints: a table of buckets by client address and the time of the last clean-up.
    Each dependency runs under its asyncio lock without awaiting, so a call is one atomic
    step. Every reading of the monotonic clock is a separate one ([mono]). Times and tokens
    are rationals; the metric and the log lines are not modelled. *)
From Stdlib Require Import Ascii.
From S2P Require Import Prelude.
From S2P Require Import PyVal.
From S2P Require Import PyStr.

(** What the gates read of a request. *)
Record Request := mkRequest {
  rq_client : option string;              (* [request.client.host] *)
  rq_header : string → option string;
  rq_query : string → option string;
  rq_cookie : string → option string;
}.

(** The module's configuration, read from the environment at import. *)
Class LimitConfig := {
  RATE : Q;
  BURST : Q;
  ADMIN_RATE : Q;
  ADMIN_BURST : Q;
  TRUSTED_PROXIES : list string;
}.

(** The n-th reading of [time.monotonic()]. *)
Class MonoClock := { mono : nat → Q }.

Definition CLEANUP_SEC : Q := 60.

Record Bucket := mkBucket { bk_tokens : Q; bk_last : Q; bk_rate : Q; bk_burst : Q }.

Record Limiter := mkLimiter { lm_buckets : dict Bucket; lm_cleanup : Q }.

Record Limits := mkLimits {
  li_general : Limiter;
  li_admin : Limiter;
  li_tick : nat;                          (* readings of the clock so far *)
}.

(** ** The client's address *)
(** [_get_client_ip] *)
Definition get_client_ip {C : LimitConfig} (request : Request) : string :=
  let client_ip := default "unknown"%string (rq_client request) in
  if mem_str client_ip TRUSTED_PROXIES then
    let forwarded := default EmptyString (rq_header request "X-Forwarded-For") in
    if String.eqb forwarded EmptyString then client_ip
    else match split "," forwarded with x :: _ => py_strip x | [] => client_ip end
  else client_ip.

(** ** Buckets *)

(** [_Bucket.__init__] *)
Definition new_bucket (rate burst now : Q) : Bucket := mkBucket burst now rate burst.

(** [min(a, b)] *)
Definition py_min (a b : Q) : Q := if Qltb b a then b else a.

(** [_Bucket.consume] *)
Definition consume (now : Q) (b : Bucket) : bool * Bucket :=
  let tokens := py_min (bk_burst b) (bk_tokens b + (now - bk_last b) * bk_rate b) in
  if Qle_bool 1 tokens then (true, mkBucket (tokens - 1) now (bk_rate b) (bk_burst b))
  else (false, mkBucket tokens now (bk_rate b) (bk_burst b)).

(** The clean-up of stale entries. *)
Definition is_stale (now : Q) (b : Bucket) : bool := Qltb CLEANUP_SEC (now - bk_last b).
Definition cleanup (now : Q) (l : Limiter) : Limiter :=
  if Qltb CLEANUP_SEC (now - lm_cleanup l)
  then mkLimiter (List.filter (fun '(_, b) => negb (is_stale now b)) (lm_buckets l)) now
  else l.

Section limiter.
Context {C : LimitConfig} {K : MonoClock}.

Definition read_mono : M Limits Q := fun w =>
  (Ok (mono (li_tick w)), mkLimits (li_general w) (li_admin w) (S (li_tick w))).

(** The body the two dependencies share, over the table it works on. *)
Definition limit (get' : Limits → Limiter) (put : Limiter → Limits → Limits)
    (rate burst : Q) (request : Request) : M Limits unit :=
  let client_ip := get_client_ip request in
  now ← read_mono;
  modify (fun w => put (cleanup now (get' w)) w) ;;
  l ← gets get';
  bucket ← match dget (lm_buckets l) client_ip with
           | Some b => mret b
           | None => now' ← read_mono; mret (new_bucket rate burst now')
           end;
  now'' ← read_mono;
  let '(ok, bucket) := consume now'' bucket in
  modify (fun w => put (mkLimiter (dset (lm_buckets l) client_ip bucket) (lm_cleanup l)) w) ;;
  if ok then mret tt else throw (EHttp 429).

Definition put_general (l : Limiter) (w : Limits) : Limits := mkLimits l (li_admin w) (li_tick w).
Definition put_admin (l : Limiter) (w : Limits) : Limits := mkLimits (li_general w) l (li_tick w).

(** [require_rate_limit], [require_admin_rate_limit] *)
Definition require_rate_limit (request : Request) : M Limits unit :=
  limit li_general put_general RATE BURST request.
Definition require_admin_rate_limit (request : Request) : M Limits unit :=
  limit li_admin put_admin ADMIN_RATE ADMIN_BURST request.
End limiter.

(** ** How many requests of one client are let through *)

(** The tokens a client could draw at [t], whether or not it has an entry. *)
Definition credit (rate burst t : Q) (b : option Bucket) : Q :=
  match b with
  | None => burst
  | Some b => py_min burst (bk_tokens b + (t - bk_last b) * rate)
  end.

Definition bucket_ok (rate burst t : Q) (b : Bucket) : Prop :=
  (0 <= bk_tokens b)%Q ∧ (bk_last b <= t)%Q ∧ bk_rate b = rate ∧ bk_burst b = burst.

Definition limiter_ok (rate burst t : Q) (l : Limiter) : Prop :=
  NoDup (dkeys (lm_buckets l)) ∧ ∀ c b, dget (lm_buckets l) c = Some b → bucket_ok rate burst t b.

Lemma py_min_spec a b : (py_min a b <= a)%Q ∧ (py_min a b <= b)%Q ∧ (py_min a b = a ∨ py_min a b = b).
Proof.
  unfold py_min. destruct (Qltb b a) eqn:H; [apply Qltb_lt in H|apply Qltb_ge in H];
    (split_and!; [lra|lra|auto]).
Qed.

Lemma py_min_glb a b c : (c <= a)%Q → (c <= b)%Q → (c <= py_min a b)%Q.
Proof. destruct (py_min_spec a b) as (_ & _ & [-> | ->]); auto. Qed.

Section credit.
Context (rate burst : Q) (rate_pos : (0 <= rate)%Q) (burst_pos : (0 <= burst)%Q).

Lemma grows t t' : (t <= t')%Q → (0 <= (t' - t) * rate)%Q.
Proof. intros Ht. apply Qmult_le_0_compat; [lra|done]. Qed.

Lemma credit_bounds t ob :
  (∀ b, ob = Some b → bucket_ok rate burst t b) → (0 <= credit rate burst t ob <= burst)%Q.
Proof.
  destruct ob as [b|]; simpl; [|lra]. intros Hb. destruct (Hb b eq_refl) as (H0 & Hl & _).
  pose proof (grows _ _ Hl). split; [apply py_min_glb; lra|]. apply py_min_spec.
Qed.

(** Time only adds [rate] per unit. *)
Lemma credit_later t t' ob :
  (t <= t')%Q → (credit rate burst t' ob <= credit rate burst t ob + (t' - t) * rate)%Q.
Proof.
  intros Ht. pose proof (grows _ _ Ht) as Hg. destruct ob as [b|]; simpl; [|lra].
  destruct (py_min_spec burst (bk_tokens b + (t' - bk_last b) * rate)) as (H1 & H2 & _).
  destruct (py_min_spec burst (bk_tokens b + (t - bk_last b) * rate)) as (_ & _ & [-> | ->]); lra.
Qed.

(** Drawing a token takes one from the credit; a refusal takes nothing. *)
Lemma consume_credit t b :
  bucket_ok rate burst t b → (1 <= burst)%Q →
  let '(ok, b') := consume t b in
  bucket_ok rate burst t b' ∧
  (credit rate burst t (Some b') + (if ok then 1 else 0) <= credit rate burst t (Some b))%Q.
Proof.
  intros (H0 & Hl & Hr & Hb) H1. unfold consume. rewrite Hr, Hb.
  pose proof (grows _ _ Hl) as Hg. simpl credit. set (tok := py_min burst (bk_tokens b + (t - bk_last b) * rate)).
  assert (Ht : (0 <= tok)%Q) by (apply py_min_glb; lra).
  destruct (py_min_spec burst (bk_tokens b + (t - bk_last b) * rate)) as (Hc & _). fold tok in Hc.
  destruct (Qle_bool 1 tok) eqn:Hle.
  - apply Qle_bool_iff in Hle. split; [split_and!; simpl; try done; lra|]. simpl.
    destruct (py_min_spec burst (tok - 1 + (t - t) * rate)) as (_ & H3 & _). lra.
  - split; [split_and!; simpl; try done; lra|]. simpl.
    destruct (py_min_spec burst (tok + (t - t) * rate)) as (_ & H3 & _). lra.
Qed.

(** Forgetting an entry that was idle for a minute gives nothing away: by then it was full. *)
Lemma stale_full t b :
  (burst <= rate * CLEANUP_SEC)%Q → bucket_ok rate burst t b → is_stale t b = true →
  (burst <= credit rate burst t (Some b))%Q.
Proof.
  intros Hfull (H0 & _) Hs%Qltb_lt. simpl. apply py_min_glb; [lra|].
  assert (0 <= (t - bk_last b - CLEANUP_SEC) * rate)%Q by (apply Qmult_le_0_compat; [lra|done]). lra.
Qed.
End credit.

(** ** One call *)
Lemma limiter_ok_later rate burst t t' l :
  (t <= t')%Q → limiter_ok rate burst t l → limiter_ok rate burst t' l.
Proof.
  intros Ht [Hnd Hl]. split; [done|]. intros c b Hb. destruct (Hl _ _ Hb) as (H0 & H1 & H2 & H3).
  split_and!; [done|lra|done..].
Qed.

Section bounded.
Context {C : LimitConfig} {K : MonoClock}.
Context (mono_mono : ∀ m n, (m <= n)%nat → (mono m <= mono n)%Q).
Context (rate burst : Q).
Context (burst_one : (1 <= burst)%Q) (burst_refills : (burst <= rate * CLEANUP_SEC)%Q).

Definition credit_of (c : string) (t : Q) (l : Limiter) : Q := credit rate burst t (dget (lm_buckets l) c).

Lemma rate_nonneg : (0 <= rate)%Q.
Proof. unfold CLEANUP_SEC in burst_refills. lra. Qed.

Lemma burst_nonneg : (0 <= burst)%Q.
Proof. lra. Qed.

Lemma cleanup_credit t l :
  limiter_ok rate burst t l →
  limiter_ok rate burst t (cleanup t l) ∧ ∀ c, (credit_of c t (cleanup t l) <= credit_of c t l)%Q.
Proof.
  intros [Hnd Hl]. unfold cleanup. destruct (Qltb _ _); [|split; [done|intros; lra]].
  unfold limiter_ok, credit_of. simpl. split; [split; [by apply NoDup_filter_keys|]|intros c].
  - intros c b. rewrite dget_filter by done. destruct (dget _ c) as [b'|] eqn:Hb; [|done].
    destruct (negb _); [|done]. intros [= <-]. by apply (Hl c).
  - rewrite dget_filter by done. destruct (dget _ c) as [b|] eqn:Hb; [|simpl; lra].
    destruct (is_stale t b) eqn:Hs; simpl negb; cbv iota; [|lra].
    apply stale_full; [apply rate_nonneg|done|by apply (Hl c)|done].
Qed.

(** The bucket a call draws from, and what it leaves. *)
Lemma draw_credit t ip b l ok b' :
  limiter_ok rate burst t l → bucket_ok rate burst t b →
  (credit rate burst t (Some b) <= credit_of ip t l)%Q → consume t b = (ok, b') →
  let l' := mkLimiter (dset (lm_buckets l) ip b') (lm_cleanup l) in
  limiter_ok rate burst t l' ∧
  ∀ c, (credit_of c t l' + (if bool_decide (c = ip) && ok then 1 else 0) <= credit_of c t l)%Q.
Proof.
  intros [Hnd Hl] Hb Hc Hcons. pose proof (consume_credit rate burst rate_nonneg burst_nonneg t b Hb burst_one) as H.
  rewrite Hcons in H. destruct H as [Hb' Hd]. simpl. split; [split; [by apply NoDup_dset|]|].
  - simpl. intros c b0. rewrite dget_dset. case_decide as Hcip; [intros [= <-]; done|]. apply Hl.
  - intros c. unfold credit_of at 1. cbn [lm_buckets]. rewrite dget_dset. case_decide as Hcip.
    + subst c. rewrite bool_decide_true by done. simpl andb. lra.
    + rewrite bool_decide_false by done. simpl andb. cbv iota. unfold credit_of. lra.
Qed.

(** The state seen through one of the two tables. *)
Context (get' : Limits → Limiter) (put : Limiter → Limits → Limits).
Context (get_put : ∀ l w, get' (put l w) = l) (put_tick : ∀ l w, li_tick (put l w) = li_tick w).
Context (get_tick : ∀ w n, get' (mkLimits (li_general w) (li_admin w) n) = get' w).

Definition time (w : Limits) : Q := mono (li_tick w).

Lemma later_credit c t t' l : (t <= t')%Q → (credit_of c t' l <= credit_of c t l + (t' - t) * rate)%Q.
Proof. apply credit_later, rate_nonneg. Qed.

Lemma time_step (w w' : Limits) : (li_tick w <= li_tick w')%nat → (time w <= time w')%Q.
Proof. apply mono_mono. Qed.

(** The entry of a client, made if there is none. *)
Definition entry_of (ip : string) (l : Limiter) : M Limits Bucket :=
  match dget (lm_buckets l) ip with
  | Some b => mret b
  | None => now' ← read_mono; mret (new_bucket rate burst now')
  end.

Lemma entry_step ip l w r w' :
  limiter_ok rate burst (time w) l → entry_of ip l w = (r, w') →
  ∃ b, r = Ok b ∧ (li_tick w <= li_tick w')%nat ∧ bucket_ok rate burst (time w') b ∧
    (credit rate burst (time w') (Some b) <= credit_of ip (time w') l)%Q.
Proof.
  intros [Hnd Hl] Hr. unfold entry_of in Hr. destruct (dget (lm_buckets l) ip) as [b|] eqn:Hb.
  - injection Hr as <- <-. exists b. split_and!; [done|lia|by apply (Hl ip)|].
    unfold credit_of. rewrite Hb. lra.
  - injection Hr as <- <-. exists (new_bucket rate burst (time w)).
    assert (Ht : (time w <= mono (S (li_tick w)))%Q) by (apply mono_mono; lia).
    split_and!; [done|simpl; lia| |].
    + split_and!; simpl; [apply burst_nonneg|exact Ht|done|done].
    + unfold credit_of. rewrite Hb. simpl. apply py_min_spec.
Qed.

Lemma limit_step request w r w' :
  limiter_ok rate burst (time w) (get' w) → limit get' put rate burst request w = (r, w') →
  limiter_ok rate burst (time w') (get' w') ∧ (li_tick w <= li_tick w')%nat ∧
  (r = Ok tt ∨ r = fail (EHttp 429)) ∧
  ∀ c, (credit_of c (time w') (get' w')
        + (if bool_decide (c = get_client_ip request) && is_ok r then 1 else 0)
        <= credit_of c (time w) (get' w) + (time w' - time w) * rate)%Q.
Proof.
  intros Hok Hr. unfold limit in Hr. set (ip := get_client_ip request) in *.
  apply bind_inv in Hr as [(now & w1 & [= <- <-] & Hr)|(e & [=] & _)].
  apply bind_inv in Hr as [(u & w2 & [= _ <-] & Hr)|(e & [=] & _)].
  rewrite get_tick in Hr. change (mono (li_tick w)) with (time w) in Hr.
  destruct (cleanup_credit _ _ Hok) as [Hok1 Hc1]. set (l := cleanup (time w) (get' w)) in *.
  apply bind_inv in Hr as [(l' & w3 & [= <- <-] & Hr)|(e & [=] & _)]. rewrite get_put in Hr.
  set (w2 := put l _) in Hr. assert (Ht2 : li_tick w2 = S (li_tick w)) by (unfold w2; by rewrite put_tick).
  assert (H2 : (time w <= time w2)%Q) by (apply time_step; lia).
  change (match dget (lm_buckets l) ip with Some b => mret b | None => _ end) with (entry_of ip l) in Hr.
  apply bind_inv in Hr as [(b & w3 & He & Hr)|(e & He & _)];
    apply entry_step in He as (b0 & [=] & H3 & Hb & Hcb); try (by apply (limiter_ok_later _ _ (time w))); subst b0.
  apply time_step in H3 as H3'.
  apply bind_inv in Hr as [(now & w4 & [= <- <-] & Hr)|(e & [=] & _)]. change (mono (li_tick w3)) with (time w3) in Hr.
  destruct (consume (time w3) b) as [ok b'] eqn:Hcons.
  assert (Hok3 : limiter_ok rate burst (time w3) l) by (apply (limiter_ok_later _ _ (time w)); [lra|done]).
  destruct (draw_credit _ ip _ _ _ _ Hok3 Hb Hcb Hcons) as [Hok' Hd].
  set (l' := mkLimiter _ _) in *.
  apply bind_inv in Hr as [(u5 & w5 & [= _ <-] & Hr)|(e & [=] & _)].
  set (w5 := put l' _) in Hr. assert (Ht5 : li_tick w5 = S (li_tick w3)) by (unfold w5; by rewrite put_tick).
  assert (H5 : (time w3 <= time w5)%Q) by (apply time_step; lia).
  assert (w' = w5 ∧ is_ok r = ok ∧ (r = Ok tt ∨ r = fail (EHttp 429))) as (-> & Hrok & Hr').
  { destruct ok; injection Hr as <- <-; auto. }
  assert (Hg5 : get' w5 = l') by apply get_put. rewrite Hg5, Hrok.
  split_and!; [by apply (limiter_ok_later _ _ (time w3))|lia|done|]. intros c.
  pose proof (Hd c). pose proof (Hc1 c). pose proof (later_credit c _ _ l' H5).
  pose proof (later_credit c (time w) (time w3) l ltac:(lra)). lra.
Qed.
End bounded.

(** ** Any interleaving of calls *)
Inductive call := General (request : Request) | Admin (request : Request).

Section served.
Context {C : LimitConfig} {K : MonoClock}.

Definition serve_one (c : call) : M Limits unit :=
  match c with
  | General request => require_rate_limit request
  | Admin request => require_admin_rate_limit request
  end.

(** The answers to a sequence of calls: let through or refused. *)
Fixpoint serve (calls : list call) (w : Limits) : list bool * Limits :=
  match calls with
  | [] => ([], w)
  | c :: rest => let '(r, w1) := serve_one c w in
                 let '(l, w2) := serve rest w1 in (is_ok r :: l, w2)
  end.

(** How many calls of a client one of the limiters let through. *)
Definition let_through (is_admin : bool) (client : string) (calls : list call) (answers : list bool) : nat :=
  length (List.filter (λ '(c, ok), match c with
                                   | General request => negb is_admin && bool_decide (client = get_client_ip request)
                                   | Admin request => is_admin && bool_decide (client = get_client_ip request)
                                   end && ok) (combine calls answers)).

Context (mono_mono : ∀ m n, (m <= n)%nat → (mono m <= mono n)%Q).

(** A call leaves the other limiter's table alone. *)
Definition ticks_only (get2 : Limits → Limiter) (w w' : Limits) : Prop :=
  get2 w' = get2 w ∧ (li_tick w <= li_tick w')%nat.

#[local] Instance ticks_only_preorder get2 : PreOrder (ticks_only get2).
Proof. split; [done|]. intros w1 w2 w3 [H1 ?] [H2 ?]. split; [congruence|lia]. Qed.

Lemma limit_frame get' put get2 rate burst request :
  (∀ l w, get2 (put l w) = get2 w ∧ li_tick (put l w) = li_tick w) →
  (∀ w n, get2 (mkLimits (li_general w) (li_admin w) n) = get2 w) →
  preserves (ticks_only get2) (limit get' put rate burst request).
Proof.
  intros Hput Htick. assert (Hread : preserves (ticks_only get2) read_mono).
  { intros w. split; [apply Htick|simpl; lia]. }
  assert (Hmod : ∀ f, preserves (ticks_only get2) (modify (λ w, put (f w) w))).
  { intros f w. destruct (Hput (f w) w) as [H1 H2]. simpl. split; [done|by rewrite H2]. }
  unfold limit. repeat first [exact Hread|apply Hmod|pres_step].
Qed.

Definition table (is_admin : bool) : Limits → Limiter := if is_admin then li_admin else li_general.
Definition rate_of (is_admin : bool) : Q := if is_admin then ADMIN_RATE else RATE.
Definition burst_of (is_admin : bool) : Q := if is_admin then ADMIN_BURST else BURST.
Definition configured (a : bool) : Prop := (1 <= burst_of a)%Q ∧ (burst_of a <= rate_of a * CLEANUP_SEC)%Q.
Definition table_ok (a : bool) (w : Limits) : Prop := limiter_ok (rate_of a) (burst_of a) (time w) (table a w).

(** What one call may take from a client's credit. *)
Lemma serve_one_credit a client c w r w' :
  configured a → table_ok a w → serve_one c w = (r, w') →
  table_ok a w' ∧ (time w <= time w')%Q ∧
  (credit_of (rate_of a) (burst_of a) client (time w') (table a w')
   + inject_Z (Z.of_nat (let_through a client [c] [is_ok r]))
   <= credit_of (rate_of a) (burst_of a) client (time w) (table a w) + (time w' - time w) * rate_of a)%Q.
Proof.
  intros [H1 Hfull] Hok Hr. unfold table_ok in *. unfold let_through. simpl combine. simpl List.filter.
  assert (Hself : ∀ put request, (∀ l w, table a (put l w) = l) → (∀ l w, li_tick (put l w) = li_tick w) →
    (∀ w n, table a (mkLimits (li_general w) (li_admin w) n) = table a w) →
    limit (table a) put (rate_of a) (burst_of a) request w = (r, w') →
    limiter_ok (rate_of a) (burst_of a) (time w') (table a w') ∧ (time w <= time w')%Q ∧
    (credit_of (rate_of a) (burst_of a) client (time w') (table a w')
     + inject_Z (Z.of_nat (length (if bool_decide (client = get_client_ip request) && is_ok r then [(c, is_ok r)] else [])))
     <= credit_of (rate_of a) (burst_of a) client (time w) (table a w) + (time w' - time w) * rate_of a)%Q).
  { intros put request L1 L2 L3 Hl.
    destruct (limit_step mono_mono _ _ H1 Hfull _ _ L1 L2 L3 _ _ _ _ Hok Hl) as (Hok' & Ht & _ & Hc).
    split; [done|]. split; [by apply mono_mono|]. specialize (Hc client). by destruct (_ && _). }
  assert (Hother : preserves (ticks_only (table a)) (serve_one c) →
    limiter_ok (rate_of a) (burst_of a) (time w') (table a w') ∧ (time w <= time w')%Q ∧
    (credit_of (rate_of a) (burst_of a) client (time w') (table a w')
     <= credit_of (rate_of a) (burst_of a) client (time w) (table a w) + (time w' - time w) * rate_of a)%Q).
  { intros Hf. specialize (Hf w). rewrite Hr in Hf. destruct Hf as [He Ht]. simpl in He, Ht.
    apply mono_mono in Ht. rewrite He.
    split; [by apply (limiter_ok_later _ _ (time w))|]. split; [done|]. by apply later_credit. }
  destruct a, c as [q|q]; simpl in *.
  - destruct Hother as (? & ? & ?); [by apply limit_frame|]. split_and!; [done..|]. change (inject_Z (Z.of_nat 0)) with 0%Q. lra.
  - by apply (Hself put_admin q).
  - by apply (Hself put_general q).
  - destruct Hother as (? & ? & ?); [by apply limit_frame|]. split_and!; [done..|]. change (inject_Z (Z.of_nat 0)) with 0%Q. lra.
Qed.

Lemma let_through_cons a client c calls ok answers :
  let_through a client (c :: calls) (ok :: answers)
  = (let_through a client [c] [ok] + let_through a client calls answers)%nat.
Proof. unfold let_through. simpl. by destruct (_ && _). Qed.

Lemma serve_credit a client calls w answers w' :
  configured a → table_ok a w → serve calls w = (answers, w') →
  table_ok a w' ∧
  (credit_of (rate_of a) (burst_of a) client (time w') (table a w')
   + inject_Z (Z.of_nat (let_through a client calls answers))
   <= credit_of (rate_of a) (burst_of a) client (time w) (table a w) + (time w' - time w) * rate_of a)%Q.
Proof.
  intros Hconf. revert w answers w'. induction calls as [|c calls IH]; intros w answers w' Hok Hr.
  { injection Hr as <- <-. split; [done|]. change (let_through a client [] []) with 0%nat. change (inject_Z (Z.of_nat 0)) with 0%Q. lra. }
  simpl in Hr. destruct (serve_one c w) as [r w1] eqn:H1. destruct (serve calls w1) as [l w2] eqn:H2.
  injection Hr as <- <-. destruct (serve_one_credit a client _ _ _ _ Hconf Hok H1) as (Hok1 & Ht1 & Hc1).
  destruct (IH _ _ _ Hok1 H2) as [Hok2 Hc2]. split; [done|].
  rewrite let_through_cons, Nat2Z.inj_add, inject_Z_plus. lra.
Qed.

(** Whatever the mix of clients and of the two limiters, with a clock that never goes
    back and a burst that refills within the clean-up period, the calls of one client a
    limiter lets through between two moments are at most its burst plus its rate times the
    time in between: forgetting idle clients gives nothing away. *)
Theorem limiter_bounds a client calls w answers w' :
  configured a → table_ok a w → serve calls w = (answers, w') →
  (inject_Z (Z.of_nat (let_through a client calls answers))
   <= burst_of a + (time w' - time w) * rate_of a)%Q.
Proof.
  intros Hconf Hok Hr. pose proof Hconf as [H1 H2]. destruct (serve_credit a client _ _ _ _ Hconf Hok Hr) as [Hok' Hc].
  assert (Hrate : (0 <= rate_of a)%Q) by (unfold CLEANUP_SEC in H2; lra).
  assert (Hb : ∀ w0, table_ok a w0 →
    (0 <= credit_of (rate_of a) (burst_of a) client (time w0) (table a w0) <= burst_of a)%Q).
  { intros w0 [_ Hl]. apply credit_bounds; [done|lra|]. intros b. apply Hl. }
  pose proof (Hb _ Hok). pose proof (Hb _ Hok'). lra.
Qed.
End served.

(** ** Concrete runs *)
#[local] Instance default_config : LimitConfig :=
  {| RATE := 30; BURST := 60; ADMIN_RATE := 5 # 60; ADMIN_BURST := 5;
     TRUSTED_PROXIES := ["127.0.0.1"; "::1"]%string |}.

(** A millisecond per reading. *)
#[local] Instance steady_clock : MonoClock := {| mono n := Z.of_nat n # 1000 |}.

Lemma steady_mono m n : (m <= n)%nat → (mono m <= mono n)%Q.
Proof. intros Hmn. unfold mono, steady_clock, Qle. simpl. lia. Qed.

Definition request_from (client : string) (forwarded : option string) : Request :=
  mkRequest (Some client)
    (fun h => if String.eqb h "X-Forwarded-For" then forwarded else None) (fun _ => None) (fun _ => None).

Definition fresh_limits : Limits := mkLimits (mkLimiter [] 0) (mkLimiter [] 0) 0.

Lemma limiter_bounds_witness :
  let calls := repeat (Admin (request_from "10.0.0.7" None)) 8 in
  let '(answers, w') := serve calls fresh_limits in
  let_through true "10.0.0.7" calls answers = 5%nat ∧
  (inject_Z (Z.of_nat (let_through true "10.0.0.7" calls answers))
   <= 5 + (time w' - time fresh_limits) * (5 # 60))%Q.
Proof.
  intros calls. destruct (serve calls fresh_limits) as [answers w'] eqn:Hr.
  split; [replace answers with (serve calls fresh_limits).1 by (rewrite Hr; reflexivity); vm_compute; reflexivity|].
  refine (limiter_bounds steady_mono true "10.0.0.7" calls fresh_limits answers w' _ _ Hr).
  - split; vm_compute; discriminate.
  - split; [constructor|]. intros c b [=].
Defined.

(** The address is the first entry of [X-Forwarded-For] when the peer is a trusted proxy: a
    proxy that appends to the header leaves the choice of the bucket to the client. *)
Lemma forwarded_for_chooses_bucket forged real :
  ¬ In ","%char (chars forged) → py_strip forged = forged → forged ≠ EmptyString →
  get_client_ip (request_from "127.0.0.1" (Some (forged ++ "," ++ real)%string)) = forged.
Proof.
  intros Hno Hs Hne. unfold get_client_ip. simpl.
  assert (Hsplit : ∀ cur l r, ¬ In ","%char l → split_go "," cur (l ++ ","%char :: r) = (rev cur ++ l) :: split_go "," [] r).
  { intros cur l r. revert cur. induction l as [|x l IH]; intros cur Hl; simpl; [by rewrite app_nil_r|].
    destruct (Ascii.eqb x ",") eqn:Hx; [apply Ascii.eqb_eq in Hx; simpl in Hl; tauto|].
    rewrite IH by (simpl in Hl; tauto). simpl. by rewrite <- app_assoc. }
  destruct (String.eqb _ EmptyString) eqn:He; [apply String.eqb_eq in He; by destruct forged|].
  unfold split. rewrite chars_app, chars_app. simpl. rewrite Hsplit by done. simpl.
  by rewrite str_chars, Hs.
Qed.

(** With a burst the clean-up period does not refill, waiting out the clean-up gives a client
    its whole burst back. *)
Definition large_burst : LimitConfig :=
  {| RATE := 30; BURST := 60; ADMIN_RATE := 5 # 60; ADMIN_BURST := 50; TRUSTED_PROXIES := [] |}.

(** 50 requests at once, and again 61 seconds later. *)
Definition late_clock : MonoClock := {| mono n := if (n <? 101)%nat then 0%Q else 61%Q |}.

Lemma large_burst_forgotten :
  let calls := repeat (Admin (request_from "10.0.0.7" None)) 101 in
  let '(answers, w') := serve (C:=large_burst) (K:=late_clock) calls fresh_limits in
  let_through (C:=large_burst) true "10.0.0.7" calls answers = 100%nat ∧
  (time (K:=late_clock) w' - time (K:=late_clock) fresh_limits == 61)%Q.
Proof. vm_compute. split; reflexivity. Qed.
