(* ===== verification/Access.v ===== *)
(** * Authentication of operators and viewers

    Models [app/core/admin.py], [app/core/session_store.py], [app/core/viewer_auth.py] and
    the session routes of [app/routes/ui_viewmodel.py]: the admin and viewer gates as
    FastAPI dependencies, the opaque admin sessions, and the composition of the admin gate
    with the rate limiter on the admin routes. [time.time()] and the session ids drawn are
    the environment's answers. Constant-time comparison is equality; failure counters and
    warnings are not modelled. *)
From Stdlib Require Import Ascii.
From S2P Require Import Prelude.
From S2P Require Import PyVal.
From S2P Require Import PyStr.
From S2P Require Import RateLimit.

(** The n-th reading of [time.time()] and the n-th [secrets.token_urlsafe(32)]. *)
Class SessionEnv := { wall : nat → Q; token_urlsafe : nat → string }.

(** [hmac.new(key, msg, "sha256").hexdigest()] *)
Class Hmac := { hmac_sha256 : string → string → string }.

(** [request.state] *)
Record ReqState := mkReqState {
  st_viewer_authenticated : bool;
  st_viewer_token : option string;
  st_admin_token : option string;
  st_admin_session : option string;
}.

Definition no_state : ReqState := mkReqState false None None None.

Record Access := mkAccess {
  ac_environ : dict string;
  ac_viewer_tokens : list string;             (* [VIEWER_TOKENS] *)
  ac_sessions : dict Q;                       (* [_SESSIONS]: id to expiry *)
  ac_limits : Limits;
  ac_state : ReqState;                        (* of the request being served *)
  ac_tick : nat;
}.

Definition set_sessions (s : dict Q) (w : Access) : Access :=
  mkAccess (ac_environ w) (ac_viewer_tokens w) s (ac_limits w) (ac_state w) (ac_tick w).
Definition set_state (f : ReqState → ReqState) : M Access unit :=
  modify (fun w => mkAccess (ac_environ w) (ac_viewer_tokens w) (ac_sessions w) (ac_limits w)
                     (f (ac_state w)) (ac_tick w)).
Definition on_limits {A} : M Limits A → M Access A :=
  zoom ac_limits (fun l w => mkAccess (ac_environ w) (ac_viewer_tokens w) (ac_sessions w) l
                               (ac_state w) (ac_tick w)).

Definition nonempty (s : string) : bool := negb (String.eqb s EmptyString).
Definition header (request : Request) (name : string) : string :=
  default EmptyString (rq_header request name).
Definition query (request : Request) (name : string) : string :=
  default EmptyString (rq_query request name).
Definition cookie (request : Request) (name : string) : string :=
  default EmptyString (rq_cookie request name).

(** ** [app/core/admin.py] *)
Definition ADMIN_COOKIE : string := "cam_admin".

Definition admin_token (environ : dict string) : string :=
  default "change-me"%string (dget environ "CAM_ADMIN_TOKEN").

Definition auth_disabled (environ : dict string) : bool :=
  mem_str (lower (py_strip (default EmptyString (dget environ "CAM_AUTH_DISABLED"))))
    ["1"; "true"; "yes"; "on"]%string.

(** [token.lower() == "change-me"] *)
Definition is_placeholder (token : string) : bool := String.eqb (lower token) "change-me".

Definition admin_token_ok (environ : dict string) (supplied : string) : bool :=
  let token := admin_token environ in
  if negb (nonempty supplied) || is_placeholder token then false else String.eqb supplied token.

(** ** [app/core/session_store.py] *)
Definition DEFAULT_TTL_SECONDS : Q := 43200.

Definition prune_locked (now : Q) (sessions : dict Q) : dict Q :=
  List.filter (fun '(_, exp) => negb (Qle_bool exp now)) sessions.

Section gates.
Context {V : SessionEnv}.

Definition time_time : M Access Q := fun w =>
  (Ok (wall (ac_tick w)),
   mkAccess (ac_environ w) (ac_viewer_tokens w) (ac_sessions w) (ac_limits w) (ac_state w) (S (ac_tick w))).

Definition draw_id : M Access string := fun w =>
  (Ok (token_urlsafe (ac_tick w)),
   mkAccess (ac_environ w) (ac_viewer_tokens w) (ac_sessions w) (ac_limits w) (ac_state w) (S (ac_tick w))).

Definition create_session (ttl : Q) : M Access string :=
  sid ← draw_id;
  now ← time_time;
  modify (fun w => set_sessions (prune_locked now (ac_sessions w)) w) ;;
  modify (fun w => set_sessions (dset (ac_sessions w) sid (now + ttl)%Q) w) ;;
  mret sid.

Definition is_valid (sid : string) : M Access bool :=
  if negb (nonempty sid) then mret false
  else
    now ← time_time;
    exp ← gets (fun w => dget (ac_sessions w) sid);
    match exp with
    | None => mret false
    | Some exp =>
        if Qle_bool exp now
        then modify (fun w => set_sessions (ddel (ac_sessions w) sid) w) ;; mret false
        else mret true
    end.

Definition revoke (sid : string) : M Access unit :=
  if negb (nonempty sid) then mret tt
  else modify (fun w => set_sessions (ddel (ac_sessions w) sid) w).

(** [require_admin] *)
Definition require_admin (request : Request) : M Access unit :=
  environ ← gets ac_environ;
  if auth_disabled environ then mret tt
  else
    let token := admin_token environ in
    if is_placeholder token then throw (EHttp 503)
    else if admin_token_ok environ (header request "X-Admin-Token") then
      set_state (fun s => mkReqState (st_viewer_authenticated s) (st_viewer_token s) (Some token) (st_admin_session s))
    else
      let sid := cookie request ADMIN_COOKIE in
      ok ← (if nonempty sid then is_valid sid else mret false);
      if (ok : bool) then
        set_state (fun s => mkReqState (st_viewer_authenticated s) (st_viewer_token s) (st_admin_token s) (Some sid))
      else throw (EHttp 403).

(** ** [app/core/viewer_auth.py] *)

(** [_load_tokens] *)
Definition load_tokens (raw : string) : list string :=
  List.filter nonempty (map py_strip (split "," raw)).

Definition is_gate_enabled (tokens : list string) : bool := match tokens with [] => false | _ => true end.

(** [_compare_to_any] *)
Definition compare_to_any (tokens : list string) (supplied : string) : bool :=
  if negb (nonempty supplied) then false else existsb (String.eqb supplied) tokens.

(** [header_token or query_token] *)
Definition supplied_token (request : Request) : string :=
  let header_token := header request "X-Viewer-Token" in
  if nonempty header_token then header_token else query request "token".

Definition mark_viewer (token : option string) : M Access unit :=
  set_state (fun s => mkReqState true (match token with Some t => Some t | None => st_viewer_token s end)
                        (st_admin_token s) (st_admin_session s)).

Definition require_viewer (request : Request) : M Access unit :=
  environ ← gets ac_environ;
  if auth_disabled environ then mark_viewer None
  else
    admin ← try_except
      (let sid := cookie request ADMIN_COOKIE in
       if admin_token_ok environ (header request "X-Admin-Token") then mret true
       else if nonempty sid then is_valid sid else mret false)
      CException (fun _ => mret false);
    if (admin : bool) then mark_viewer None
    else
      tokens ← gets ac_viewer_tokens;
      if negb (is_gate_enabled tokens) then mret tt
      else
        let supplied := supplied_token request in
        if negb (compare_to_any tokens supplied) then throw (EHttp 401)
        else mark_viewer (Some supplied).

Definition require_viewer_ws (websocket : Request) : M Access bool :=
  environ ← gets ac_environ;
  if auth_disabled environ then mret true
  else
    tokens ← gets ac_viewer_tokens;
    if negb (is_gate_enabled tokens) then mret true
    else mret (compare_to_any tokens (supplied_token websocket)).

Definition extract_viewer_token (request : Request) : M Access string :=
  cached ← gets (fun w => st_viewer_token (ac_state w));
  match cached with
  | Some t => if nonempty t then mret t else mret (supplied_token request)
  | None => mret (supplied_token request)
  end.

(** ** Routes *)

(** A handler behind [dependencies=[Depends(require_admin)]]; the request starts with a
    state of its own. *)
Definition admin_only {A} (request : Request) (handler : M Access A) : M Access A :=
  set_state (fun _ => no_state) ;; require_admin request ;; handler.

(** [POST /api/v1/ui/session], [DELETE /api/v1/ui/session] *)
Definition open_session (request : Request) : M Access string :=
  admin_only request (create_session DEFAULT_TTL_SECONDS).
Definition close_session (request : Request) : M Access unit :=
  admin_only request (revoke (cookie request ADMIN_COOKIE)).

Definition viewer_only {A} (request : Request) (handler : M Access A) : M Access A :=
  set_state (fun _ => no_state) ;; require_viewer request ;; handler.

(** An admin route with the limiter: [Depends(require_admin), Depends(require_admin_rate_limit)],
    resolved in this order. *)
Definition limited_admin {A} `{LimitConfig} `{MonoClock} (request : Request) (handler : M Access A) : M Access A :=
  admin_only request (on_limits (require_admin_rate_limit request) ;; handler).
End gates.

(** [viewer_id_for_token] *)
Definition viewer_id_for_token {H : Hmac} (token key : string) : string :=
  String.substring 0 12 (hmac_sha256 key token).

(** ** What the gates let through *)

(** A session id that is known and has not expired at [now]. *)
Definition session_live (sessions : dict Q) (now : Q) (sid : string) : Prop :=
  sid ≠ EmptyString ∧ ∃ exp, dget sessions sid = Some exp ∧ (now < exp)%Q.

(** The request presents the configured admin token. *)
Definition presents_token (environ : dict string) (request : Request) : Prop :=
  header request "X-Admin-Token" ≠ EmptyString ∧ is_placeholder (admin_token environ) = false ∧
  header request "X-Admin-Token" = admin_token environ.

Lemma nonempty_spec s : nonempty s = true ↔ s ≠ EmptyString.
Proof. unfold nonempty. rewrite negb_true_iff. destruct (String.eqb_spec s EmptyString); naive_solver. Qed.

Lemma admin_token_ok_spec environ request :
  admin_token_ok environ (header request "X-Admin-Token") = true ↔ presents_token environ request.
Proof.
  unfold admin_token_ok, presents_token. destruct (nonempty _) eqn:Hn; simpl.
  - apply nonempty_spec in Hn. destruct (is_placeholder _); simpl; [naive_solver|].
    rewrite String.eqb_eq. naive_solver.
  - split; [done|]. intros (Hne & _). apply nonempty_spec in Hne. congruence.
Qed.

Section gate_theorems.
Context {V : SessionEnv}.

(** The frame of a check: only expired sessions go, and the clock moves. *)
Definition same_config (w w' : Access) : Prop :=
  ac_environ w' = ac_environ w ∧ ac_viewer_tokens w' = ac_viewer_tokens w ∧ ac_limits w' = ac_limits w.

Lemma is_valid_spec sid w b w' :
  is_valid sid w = (Ok b, w') → b = true ↔ session_live (ac_sessions w) (wall (ac_tick w)) sid.
Proof.
  unfold is_valid. destruct (nonempty sid) eqn:Hn; simpl.
  2:{ intros [= <- _]. split; [done|]. intros [Hne _]. apply nonempty_spec in Hne. congruence. }
  apply nonempty_spec in Hn. unfold mbind, M_bind, time_time, gets, modify, mret, M_ret. simpl.
  unfold session_live. destruct (dget (ac_sessions w) sid) as [exp|]; simpl.
  - destruct (Qle_bool exp _) eqn:Hle; intros [= <- _].
    + apply Qle_bool_iff in Hle. split; [done|]. intros (_ & exp' & [= <-] & Hlt). lra.
    + assert (Hlt : (wall (ac_tick w) < exp)%Q) by (apply Qltb_lt; unfold Qltb; by rewrite Hle).
      split; [intros _|done]. split; [done|]. by exists exp.
  - intros [= <- _]. split; [done|]. naive_solver.
Qed.

Lemma is_valid_config sid : ∀ w r w', is_valid sid w = (r, w') → same_config w w'.
Proof.
  intros w r w'. unfold is_valid. destruct (nonempty sid); simpl; [|by intros [= _ <-]].
  unfold mbind, M_bind, time_time, gets, modify, mret, M_ret. simpl.
  destruct (dget _ sid) as [exp|]; simpl; [destruct (Qle_bool _ _)|]; by intros [= _ <-].
Qed.

Lemma is_valid_ok sid w : ∃ b w', is_valid sid w = (Ok b, w').
Proof.
  unfold is_valid. destruct (nonempty sid); simpl; [|eauto].
  unfold mbind, M_bind, time_time, gets, modify, mret, M_ret. simpl.
  destruct (dget _ sid) as [exp|]; simpl; [destruct (Qle_bool _ _)|]; eauto.
Qed.

(** The admin gate lets a request through exactly when authentication is delegated to
    the edge, or the admin token is configured and the request presents it or carries the
    cookie of a session that has not expired; otherwise it answers 503 when the token is
    still the placeholder, and 403. *)
Theorem admin_gate_iff request w r w' :
  require_admin request w = (r, w') →
  (r = Ok tt ↔
     auth_disabled (ac_environ w) = true ∨
     (is_placeholder (admin_token (ac_environ w)) = false ∧
      (presents_token (ac_environ w) request ∨
       session_live (ac_sessions w) (wall (ac_tick w)) (cookie request ADMIN_COOKIE)))) ∧
  (r = Ok tt ∨ r = fail (EHttp 503) ∧ is_placeholder (admin_token (ac_environ w)) = true ∨ r = fail (EHttp 403)).
Proof.
  unfold require_admin. intros Hr. apply bind_inv in Hr as [(e & w1 & [= <- <-] & Hr)|(e & [=] & _)].
  destruct (auth_disabled _) eqn:Hd; [injection Hr as <- <-; naive_solver|].
  destruct (is_placeholder _) eqn:Hp; [injection Hr as <- <-; naive_solver|].
  pose proof (admin_token_ok_spec (ac_environ w) request) as Htok. destruct (admin_token_ok _ _).
  { injection Hr as <- <-. naive_solver. }
  assert (Hno : ¬ presents_token (ac_environ w) request) by naive_solver.
  destruct (nonempty (cookie request ADMIN_COOKIE)) eqn:Hn.
  - apply bind_inv in Hr as [(b & w2 & Hv & Hr)|(x & Hv & _)].
    + apply is_valid_spec in Hv. destruct b; injection Hr as <- <-; naive_solver.
    + destruct (is_valid_ok (cookie request ADMIN_COOKIE) w) as (b & w2 & Hv'). congruence.
  - apply bind_inv in Hr as [(b & w2 & [= <- <-] & Hr)|(x & [=] & _)]. injection Hr as <- <-.
    assert (¬ session_live (ac_sessions w) (wall (ac_tick w)) (cookie request ADMIN_COOKIE)).
    { intros [Hne _]. apply nonempty_spec in Hne. congruence. }
    naive_solver.
Qed.

Lemma compare_to_any_spec tokens supplied :
  compare_to_any tokens supplied = true ↔ supplied ≠ EmptyString ∧ supplied ∈ tokens.
Proof.
  unfold compare_to_any. change (existsb (String.eqb supplied) tokens) with (mem_str supplied tokens).
  destruct (nonempty supplied) eqn:Hn; simpl.
  - apply nonempty_spec in Hn. rewrite mem_str_spec. naive_solver.
  - split; [done|]. intros [Hne _]. apply nonempty_spec in Hne. congruence.
Qed.

(** The admin bridge of the viewer gate. *)
Lemma bridge_spec request w r w' :
  try_except
    (let sid := cookie request ADMIN_COOKIE in
     if admin_token_ok (ac_environ w) (header request "X-Admin-Token") then mret true
     else if nonempty sid then is_valid sid else mret false)
    CException (fun _ => mret false) w = (r, w') →
  ∃ b, r = Ok b ∧ same_config w w' ∧
    (b = true ↔ presents_token (ac_environ w) request ∨
       session_live (ac_sessions w) (wall (ac_tick w)) (cookie request ADMIN_COOKIE)).
Proof.
  unfold try_except. cbv zeta. pose proof (admin_token_ok_spec (ac_environ w) request) as Htok.
  destruct (admin_token_ok _ _). { intros [= <- <-]. exists true. split; [done|]. split; [done|]. naive_solver. }
  assert (Hno : ¬ presents_token (ac_environ w) request) by naive_solver.
  destruct (nonempty _) eqn:Hn.
  - destruct (is_valid_ok (cookie request ADMIN_COOKIE) w) as (b & w2 & Hv). rewrite Hv.
    intros [= <- <-]. exists b. split; [done|]. split; [by eapply is_valid_config|].
    apply is_valid_spec in Hv. naive_solver.
  - intros [= <- <-]. exists false. split; [done|]. split; [done|]. split; [done|].
    intros [?|[Hne _]]; [done|]. apply nonempty_spec in Hne. congruence.
Qed.

Lemma viewer_ws_iff request w b w' :
  require_viewer_ws request w = (Ok b, w') →
  b = true ↔ auth_disabled (ac_environ w) = true ∨ ac_viewer_tokens w = [] ∨
    (supplied_token request ≠ EmptyString ∧ supplied_token request ∈ ac_viewer_tokens w).
Proof.
  unfold require_viewer_ws. intros Hr. apply bind_ok_inv in Hr as (e & w1 & [= <- <-] & Hr).
  destruct (auth_disabled _) eqn:Hd; [injection Hr as <- _; naive_solver|].
  apply bind_ok_inv in Hr as (tokens & w2 & [= <- <-] & Hr).
  pose proof (compare_to_any_spec (ac_viewer_tokens w) (supplied_token request)) as Hc.
  destruct (ac_viewer_tokens w) eqn:Ht; simpl in Hr; injection Hr as <- _; naive_solver.
Qed.

(** The viewer gate lets a request through exactly when authentication is delegated to
    the edge, or the request passes as an operator's, or no viewer token is configured, or
    it supplies one of the configured tokens, the header taking precedence over the query
    parameter; otherwise it answers 401. The websocket gate takes the same tokens but no
    operator's credentials. *)
Theorem viewer_gate_iff request w r w' :
  require_viewer request w = (r, w') →
  (r = Ok tt ↔
     auth_disabled (ac_environ w) = true ∨ presents_token (ac_environ w) request ∨
     session_live (ac_sessions w) (wall (ac_tick w)) (cookie request ADMIN_COOKIE) ∨
     ac_viewer_tokens w = [] ∨
     (supplied_token request ≠ EmptyString ∧ supplied_token request ∈ ac_viewer_tokens w)) ∧
  (r = Ok tt ∨ r = fail (EHttp 401)) ∧
  (∀ b w2, require_viewer_ws request w = (Ok b, w2) →
     b = true ↔ auth_disabled (ac_environ w) = true ∨ ac_viewer_tokens w = [] ∨
       (supplied_token request ≠ EmptyString ∧ supplied_token request ∈ ac_viewer_tokens w)).
Proof.
  intros Hr. apply and_assoc. split; [|by apply viewer_ws_iff].
  unfold require_viewer in Hr. apply bind_inv in Hr as [(e & w1 & [= <- <-] & Hr)|(e & [=] & _)].
  destruct (auth_disabled _) eqn:Hd; [injection Hr as <- <-; naive_solver|].
  apply bind_inv in Hr as [(b & w1 & Hb & Hr)|(x & Hb & _)];
    apply bridge_spec in Hb as (b' & [=] & (_ & Htok & _) & Hiff). subst b'. destruct b.
  { injection Hr as <- <-. naive_solver. }
  apply bind_inv in Hr as [(tokens & w2 & [= <- <-] & Hr)|(e & [=] & _)]. rewrite Htok in Hr.
  pose proof (compare_to_any_spec (ac_viewer_tokens w) (supplied_token request)) as Hc.
  destruct (ac_viewer_tokens w) as [|t ts] eqn:Ht; simpl is_gate_enabled in Hr; cbn [negb] in Hr;
    [injection Hr as <- <-; naive_solver|].
  destruct (compare_to_any _ _); injection Hr as <- <-; naive_solver.
Qed.
End gate_theorems.

(** ** Sessions implement an expiring set *)
Section sessions.
Context {V : SessionEnv}.

Inductive session_op := Create (ttl : Q) | Check_ (sid : string) | Revoke (sid : string).
Inductive session_answer := Minted (sid : string) | Known (b : bool) | Done.

Definition run_op (o : session_op) : M Access session_answer :=
  match o with
  | Create ttl => sid ← create_session ttl; mret (Minted sid)
  | Check_ sid => b ← is_valid sid; mret (Known b)
  | Revoke sid => revoke sid ;; mret Done
  end.

Fixpoint run_ops (l : list session_op) : M Access (list session_answer) :=
  match l with [] => mret [] | o :: l' => a ← run_op o; r ← run_ops l'; mret (a :: r) end.

(** The specification: every id ever minted with its expiry, forgotten only when revoked;
    [n] counts the readings. *)
Definition spec_op (o : session_op) (s : gmap string Q * nat) : session_answer * (gmap string Q * nat) :=
  let '(m, n) := s in
  match o with
  | Create ttl => (Minted (token_urlsafe n), (<[token_urlsafe n := (wall (S n) + ttl)%Q]> m, S (S n)))
  | Check_ sid =>
      if negb (nonempty sid) then (Known false, s)
      else (Known (match m !! sid with Some exp => Qltb (wall n) exp | None => false end), (m, S n))
  | Revoke sid => (Done, (if nonempty sid then delete sid m else m, n))
  end.

Fixpoint spec_ops (l : list session_op) (s : gmap string Q * nat) : list session_answer :=
  match l with [] => [] | o :: l' => let '(a, s') := spec_op o s in a :: spec_ops l' s' end.

(** What the store forgot had expired. *)
Definition represents (w : Access) (s : gmap string Q * nat) : Prop :=
  ac_tick w = s.2 ∧ NoDup (dkeys (ac_sessions w)) ∧
  ∀ sid, (∀ exp, dget (ac_sessions w) sid = Some exp → s.1 !! sid = Some exp) ∧
         (∀ exp, s.1 !! sid = Some exp → dget (ac_sessions w) sid = None → (exp <= wall (ac_tick w))%Q).

Context (wall_mono : ∀ n, (wall n <= wall (S n))%Q).

Lemma prune_dget now d sid :
  NoDup (dkeys d) →
  dget (prune_locked now d) sid
  = match dget d sid with Some exp => if Qle_bool exp now then None else Some exp | None => None end.
Proof.
  intros Hnd. unfold prune_locked. rewrite dget_filter by done.
  destruct (dget d sid) as [exp|]; [|done]. by destruct (Qle_bool exp now).
Qed.

Lemma create_refines ttl w s :
  represents w s →
  ∃ w', run_op (Create ttl) w = (Ok (spec_op (Create ttl) s).1, w') ∧ represents w' (spec_op (Create ttl) s).2.
Proof.
  destruct s as [m n]. intros (Hn & Hnd & Hrep). simpl in Hn, Hrep.
  eexists. split; [unfold run_op, create_session, mbind, M_bind, draw_id, time_time, modify, mret, M_ret; simpl; by rewrite Hn|].
  simpl. split_and!; [done|by apply NoDup_dset, NoDup_filter_keys|]. intros sid. simpl. rewrite dget_dset, prune_dget by done.
  pose proof (wall_mono n) as H1. pose proof (wall_mono (S n)) as H2. destruct (Hrep sid) as [Ha Hb]. rewrite Hn in Hb.
  case_decide as Hsid.
  - subst sid. rewrite lookup_insert_eq. split; [by intros exp [= <-]|done].
  - rewrite lookup_insert_ne by done. destruct (dget (ac_sessions w) sid) as [exp|] eqn:Hd.
    + specialize (Ha _ eq_refl). destruct (Qle_bool exp _) eqn:Hle; split; try done; [|naive_solver].
      intros exp' Hm _. apply Qle_bool_iff in Hle. simplify_eq. lra.
    + split; [done|]. intros exp Hm _. specialize (Hb _ Hm eq_refl). lra.
Qed.

Lemma check_refines sid w s :
  represents w s →
  ∃ w', run_op (Check_ sid) w = (Ok (spec_op (Check_ sid) s).1, w') ∧ represents w' (spec_op (Check_ sid) s).2.
Proof.
  destruct s as [m n]. intros (Hn & Hnd & Hrep). simpl in Hn, Hrep. unfold run_op, is_valid, spec_op.
  destruct (negb (nonempty sid)); [by exists w|].
  unfold mbind, M_bind, time_time, gets, modify, mret, M_ret. simpl. pose proof (wall_mono n) as H1.
  assert (Hlater : ∀ w', ac_tick w' = S n → ac_sessions w' = ac_sessions w → represents w' (m, S n)).
  { intros w' Ht Hs. split_and!; [done|by rewrite Hs|]. intros sid'. rewrite Hs, Ht. destruct (Hrep sid') as [Ha Hb].
    split; [done|]. intros exp Hm Hd. specialize (Hb _ Hm Hd). rewrite Hn in Hb. lra. }
  destruct (Hrep sid) as [Ha Hb]. rewrite Hn in *. destruct (dget (ac_sessions w) sid) as [exp|] eqn:Hd; simpl.
  - rewrite (Ha _ eq_refl). destruct (Qle_bool exp (wall n)) eqn:Hle; eexists;
      (split; [unfold Qltb; by rewrite Hle|]); [|by apply Hlater].
    split_and!; [done|by apply NoDup_ddel|]. intros sid'. simpl. rewrite dget_ddel.
    destruct (Hrep sid') as [Ha' Hb']. case_decide as Hsid; [subst sid'|].
    + split; [done|]. intros exp' Hm _. rewrite (Ha _ eq_refl) in Hm. injection Hm as <-.
      apply Qle_bool_iff in Hle. lra.
    + split; [done|]. intros exp' Hm Hd'. specialize (Hb' _ Hm Hd'). lra.
  - assert (Hv : match m !! sid with Some exp => Qltb (wall n) exp | None => false end = false).
    { destruct (m !! sid) as [exp|] eqn:Hm; [|done]. specialize (Hb _ eq_refl eq_refl). by apply Qltb_ge. }
    rewrite Hv. eexists. split; [reflexivity|]. by apply Hlater.
Qed.

Lemma revoke_refines sid w s :
  represents w s →
  ∃ w', run_op (Revoke sid) w = (Ok (spec_op (Revoke sid) s).1, w') ∧ represents w' (spec_op (Revoke sid) s).2.
Proof.
  destruct s as [m n]. intros (Hn & Hnd & Hrep). simpl in Hn, Hrep. unfold run_op, revoke, spec_op.
  destruct (nonempty sid); [|by exists w]. eexists. split; [reflexivity|]. split_and!; [done|by apply NoDup_ddel|]. intros sid'. simpl.
  rewrite dget_ddel. destruct (Hrep sid') as [Ha Hb]. case_decide as Hsid; [subst sid'|].
  - rewrite lookup_delete_eq. done.
  - by rewrite lookup_delete_ne.
Qed.

Lemma op_refines o w s :
  represents w s → ∃ w', run_op o w = (Ok (spec_op o s).1, w') ∧ represents w' (spec_op o s).2.
Proof. destruct o; [apply create_refines|apply check_refines|apply revoke_refines]. Qed.

(** The session store behaves as the set of all ids ever minted with their expiry: on a
    clock that does not go back, every sequence of creations, checks and revocations gets
    the same answers, although the store forgets expired ids as it goes. *)
Theorem sessions_refine l w s :
  represents w s → ∃ w', run_ops l w = (Ok (spec_ops l s), w').
Proof.
  revert w s. induction l as [|o l IH]; intros w s Hrep; [by exists w|].
  destruct (op_refines o w s Hrep) as (w1 & Ho & Hrep1). destruct (IH w1 _ Hrep1) as [w2 Hl].
  exists w2. simpl. rewrite (bind_ok _ _ _ _ _ Ho), (bind_ok _ _ _ _ _ Hl). by destruct (spec_op o s).
Qed.
End sessions.

(** ** Sequences of visits *)
Section visits.
Context {V : SessionEnv} {C : LimitConfig} {K : MonoClock}.

Inductive visit :=
  | OpenSession (request : Request)       (* [POST /api/v1/ui/session] *)
  | CloseSession (request : Request)      (* [DELETE /api/v1/ui/session] *)
  | AdminVisit (request : Request)        (* an admin route without the limiter *)
  | LimitedVisit (request : Request)      (* an admin route with the limiter *)
  | ViewerVisit (request : Request).

Definition request_of (v : visit) : Request :=
  match v with
  | OpenSession r | CloseSession r | AdminVisit r | LimitedVisit r | ViewerVisit r => r
  end.

Definition is_admin_visit (v : visit) : bool := match v with ViewerVisit _ => false | _ => true end.

Definition serve_visit (v : visit) : M Access unit :=
  match v with
  | OpenSession r => open_session r ;; mret tt
  | CloseSession r => close_session r
  | AdminVisit r => admin_only r (mret tt)
  | LimitedVisit r => limited_admin r (mret tt)
  | ViewerVisit r => viewer_only r (mret tt)
  end.

Fixpoint visits (l : list visit) (w : Access) : list (res unit) * Access :=
  match l with
  | [] => ([], w)
  | v :: rest => let '(r, w1) := serve_visit v w in
                 let '(rs, w2) := visits rest w1 in (r :: rs, w2)
  end.

(** Enforced authentication, and a request without any valid credential. *)
Definition stranger (environ : dict string) (sessions : dict Q) (request : Request) : Prop :=
  auth_disabled environ = false ∧ ¬ presents_token environ request ∧
  dget sessions (cookie request ADMIN_COOKIE) = None.

Lemma is_valid_unknown sid w :
  dget (ac_sessions w) sid = None →
  ∃ w', is_valid sid w = (Ok false, w') ∧ ac_sessions w' = ac_sessions w ∧ same_config w w'.
Proof.
  intros Hd. unfold is_valid. destruct (nonempty sid); simpl; [|by eexists].
  unfold mbind, M_bind, time_time, gets, modify, mret, M_ret. simpl. rewrite Hd. by eexists.
Qed.

(** A stranger is refused before anything else of the route runs. *)
Lemma stranger_refused {A} request (handler : M Access A) w :
  stranger (ac_environ w) (ac_sessions w) request →
  ∃ w', admin_only request handler w
        = (fail (EHttp (if is_placeholder (admin_token (ac_environ w)) then 503 else 403)), w') ∧
    ac_sessions w' = ac_sessions w ∧ same_config w w'.
Proof.
  intros (Hd & Hp & Hs). unfold admin_only, set_state.
  set (w0 := mkAccess (ac_environ w) (ac_viewer_tokens w) (ac_sessions w) (ac_limits w) no_state (ac_tick w)).
  rewrite (bind_ok _ _ w tt w0) by done.
  assert (Hgate : ∃ w', require_admin request w0
            = (fail (EHttp (if is_placeholder (admin_token (ac_environ w)) then 503 else 403)), w') ∧
            ac_sessions w' = ac_sessions w ∧ same_config w w').
  { unfold require_admin. rewrite (bind_ok _ _ w0 (ac_environ w) w0) by done. rewrite Hd.
    destruct (is_placeholder _) eqn:Hph; [by exists w0|].
    destruct (admin_token_ok _ _) eqn:Hok; [by apply admin_token_ok_spec in Hok|].
    destruct (nonempty _); [|by exists w0].
    destruct (is_valid_unknown (cookie request ADMIN_COOKIE) w0 Hs) as (w1 & Hv & Hsess & Hconf).
    rewrite (bind_ok _ _ _ _ _ Hv). by exists w1. }
  destruct Hgate as (w' & Hg & Hsess & Hconf). exists w'. by rewrite (bind_raise _ _ _ _ _ Hg).
Qed.

Definition keeps_empty (w w' : Access) : Prop :=
  ac_environ w' = ac_environ w ∧ (ac_sessions w = [] → ac_sessions w' = []).

#[local] Instance keeps_empty_preorder : PreOrder keeps_empty.
Proof. split; [done|]. intros w1 w2 w3 [H1 H2] [H3 H4]. split; [congruence|auto]. Qed.

Lemma is_valid_empty sid : preserves keeps_empty (is_valid sid).
Proof.
  intros w. unfold is_valid. destruct (nonempty sid); simpl; [|done].
  unfold mbind, M_bind, time_time, gets, modify, mret, M_ret. simpl.
  destruct (dget _ sid) as [exp|]; simpl; [destruct (Qle_bool _ _)|]; (split; [done|]); simpl; try done.
  by intros ->.
Qed.

Lemma set_state_empty f : preserves keeps_empty (set_state f).
Proof. by intros w. Qed.
#[local] Hint Resolve is_valid_empty set_state_empty : pres.

Lemma viewer_only_empty request : preserves keeps_empty (viewer_only request (mret tt)).
Proof. unfold viewer_only, require_viewer, mark_viewer. pres. Qed.

(** A refused admin visit, whatever it asks for. *)
Lemma stranger_visit v w :
  is_admin_visit v = true → stranger (ac_environ w) (ac_sessions w) (request_of v) →
  ∃ w', serve_visit v w = (fail (EHttp (if is_placeholder (admin_token (ac_environ w)) then 503 else 403)), w') ∧
    ac_sessions w' = ac_sessions w ∧ same_config w w'.
Proof.
  intros Hv Hs. destruct v as [r|r|r|r|r]; try done; simpl.
  - unfold open_session. destruct (stranger_refused r (create_session DEFAULT_TTL_SECONDS) w Hs) as (w' & Hr & ?).
    exists w'. by rewrite (bind_raise _ _ _ _ _ Hr).
  - by apply stranger_refused.
  - by apply stranger_refused.
  - by apply stranger_refused.
Qed.

(** C35. Without the token there is no way in: if authentication is enforced and no session
    is open, no sequence of requests none of which presents the admin token gets past the
    admin gate of any route or opens a session, whatever cookies it guesses. *)
Theorem no_token_no_admin l w answers w' :
  auth_disabled (ac_environ w) = false → ac_sessions w = [] →
  (∀ v, v ∈ l → ¬ presents_token (ac_environ w) (request_of v)) →
  visits l w = (answers, w') →
  ac_sessions w' = [] ∧ Forall2 (λ v a, is_admin_visit v = true → is_ok a = false) l answers.
Proof.
  revert w answers w'. induction l as [|v l IH]; intros w answers w' Hd Hs Hp Hr.
  { injection Hr as <- <-. by split. }
  simpl in Hr. destruct (serve_visit v w) as [a w1] eqn:H1. destruct (visits l w1) as [rs w2] eqn:H2.
  injection Hr as <- <-.
  assert (Hone : ac_environ w1 = ac_environ w ∧ ac_sessions w1 = [] ∧ (is_admin_visit v = true → is_ok a = false)).
  { destruct (is_admin_visit v) eqn:Hv.
    - destruct (stranger_visit v w Hv) as (w0 & Hr & Hsess & (He & _)).
      { split_and!; [done|apply Hp; by left|by rewrite Hs]. }
      rewrite H1 in Hr. injection Hr as -> <-. split_and!; [done|congruence|done].
    - destruct v; try done. destruct (viewer_only_empty request w) as [He Hsess]. simpl in H1. rewrite H1 in He, Hsess.
      split_and!; [done|by apply Hsess|done]. }
  destruct Hone as (He & Hs1 & Ha). destruct (IH w1 rs w2) as [Hs2 Hall];
    [by rewrite He|done|intros v' Hin; rewrite He; apply Hp; by right|done|].
  split; [done|]. by constructor.
Qed.

(** Failed attempts never reach the limiter: the admin gate is resolved first and its
    exception ends the request. *)
Theorem guesses_not_counted l w answers w' :
  (∀ v, v ∈ l → is_admin_visit v = true ∧ stranger (ac_environ w) (ac_sessions w) (request_of v)) →
  visits l w = (answers, w') →
  ac_limits w' = ac_limits w ∧ ac_sessions w' = ac_sessions w ∧
  Forall (λ a, a = fail (EHttp 403) ∨ a = fail (EHttp 503)) answers.
Proof.
  revert w answers w'. induction l as [|v l IH]; intros w answers w' Hl Hr.
  { injection Hr as <- <-. done. }
  simpl in Hr. destruct (serve_visit v w) as [a w1] eqn:H1. destruct (visits l w1) as [rs w2] eqn:H2.
  injection Hr as <- <-. destruct (Hl v) as [Hv Hst]; [by left|].
  destruct (stranger_visit v w Hv Hst) as (w0 & Hr & Hsess & (He & _ & Hlim)).
  rewrite H1 in Hr. injection Hr as -> <-.
  destruct (IH w1 rs w2) as (HA & HB & HC); [|done|].
  { intros v' Hin. rewrite He, Hsess. apply Hl. by right. }
  split_and!; [congruence|congruence|]. constructor; [|done]. destruct (is_placeholder _); auto.
Qed.
End visits.

(** ** Concrete runs *)
#[local] Instance sample_limits_config : LimitConfig :=
  {| RATE := 30; BURST := 60; ADMIN_RATE := 5 # 60; ADMIN_BURST := 5; TRUSTED_PROXIES := [] |}.
#[local] Instance sample_mono : MonoClock := {| mono n := Z.of_nat n # 1000 |}.

(** Eleven hours pass between two interactions. *)
#[local] Instance slow_wall : SessionEnv :=
  {| wall n := inject_Z (39600 * Z.of_nat n); token_urlsafe n := ("sid-" ++ pretty n)%string |}.

Definition request_with (token sid viewer : string) : Request :=
  mkRequest (Some "10.0.0.7"%string)
    (fun h => if String.eqb h "X-Admin-Token" then Some token
              else if String.eqb h "X-Viewer-Token" then Some viewer else None)
    (fun _ => None) (fun c => if String.eqb c ADMIN_COOKIE then Some sid else None).

Definition gateway : Access :=
  mkAccess [("CAM_ADMIN_TOKEN", "correct horse battery")]%string ["viewer-one"]%string []
    (mkLimits (mkLimiter [] 0) (mkLimiter [] 0) 0) no_state 0.

Lemma admin_gate_iff_witness :
  (require_admin (request_with "correct horse battery" "" "") gateway).1 = Ok tt ∧
  (require_admin (request_with "wrong" "" "") gateway).1 = fail (EHttp 403) ∧
  presents_token (ac_environ gateway) (request_with "correct horse battery" "" "").
Proof.
  destruct (require_admin (request_with "correct horse battery" "" "") gateway) as [r w'] eqn:Hr.
  destruct (admin_gate_iff _ _ _ _ Hr) as [Hiff _].
  assert (Hp : presents_token (ac_environ gateway) (request_with "correct horse battery" "" ""))
    by (split; [discriminate|split; reflexivity]).
  split; [|split; [vm_compute; reflexivity|exact Hp]]. apply Hiff. right. split; [reflexivity|]. left. exact Hp.
Defined.

Lemma viewer_gate_iff_witness :
  (require_viewer (request_with "" "" "viewer-one") gateway).1 = Ok tt ∧
  (require_viewer (request_with "" "" "viewer-two") gateway).1 = fail (EHttp 401).
Proof.
  split; [|vm_compute; reflexivity].
  destruct (require_viewer (request_with "" "" "viewer-one") gateway) as [r w'] eqn:Hr.
  destruct (viewer_gate_iff _ _ _ _ Hr) as [Hiff _]. apply Hiff. right. right. right. right.
  split; [discriminate|]. left.
Defined.

Lemma slow_wall_mono n : (wall n <= wall (S n))%Q.
Proof. unfold wall, slow_wall. rewrite <- Zle_Qle. lia. Qed.

Definition session_story : list session_op :=
  [Create 43200; Check_ "sid-0"; Create 43200; Check_ "sid-0"; Revoke "sid-3"; Check_ "sid-3"]%string.

Lemma sessions_refine_witness :
  represents gateway (∅, 0%nat) ∧
  ∃ w', run_ops session_story gateway
        = (Ok [Minted "sid-0"; Known true; Minted "sid-3"; Known false; Done; Known false]%string, w').
Proof.
  assert (Hrep : represents gateway (∅, 0%nat)).
  { split; [reflexivity|]. split; [constructor|]. intros sid. simpl.
    split; [intros exp [=]|intros exp Hl; rewrite lookup_empty in Hl; discriminate Hl]. }
  split; [exact Hrep|]. exact (sessions_refine slow_wall_mono session_story gateway _ Hrep).
Defined.

Lemma no_token_no_admin_witness :
  let guesses := [OpenSession (request_with "wrong" "" ""); LimitedVisit (request_with "" "sid-0" "viewer-one");
                  ViewerVisit (request_with "" "" "viewer-one")] in
  map is_ok (visits guesses gateway).1 = [false; false; true] ∧
  ac_sessions (visits guesses gateway).2 = [].
Proof.
  intros guesses. split; [vm_compute; reflexivity|].
  destruct (visits guesses gateway) as [answers w'] eqn:Hr.
  refine (proj1 (no_token_no_admin guesses gateway answers w' eq_refl eq_refl _ Hr)).
  intros v Hin [Hne [_ Heq]].
  apply elem_of_cons in Hin as [->|Hin]; [vm_compute in Heq; discriminate Heq|].
  apply elem_of_cons in Hin as [->|Hin]; [apply Hne; reflexivity|].
  apply elem_of_cons in Hin as [->|Hin]; [apply Hne; reflexivity|by apply elem_of_nil in Hin].
Defined.

(** Twenty guesses in a row and then the token: none is answered 429, and the last passes. *)
Lemma brute_force_not_limited :
  let guesses := repeat (LimitedVisit (request_with "guess" "" "")) 20 in
  let '(answers, w') := visits (guesses ++ [LimitedVisit (request_with "correct horse battery" "" "")]) gateway in
  answers = repeat (fail (EHttp 403)) 20 ++ [Ok tt].
Proof. vm_compute. reflexivity. Qed.

(** One login lasts for ever: the cookie opens the next session before its own expires. *)
Lemma session_renews_itself :
  let '(answers, w') := visits
    [OpenSession (request_with "correct horse battery" "" "");
     OpenSession (request_with "" "sid-0" ""); AdminVisit (request_with "" "sid-0" "")] gateway in
  map is_ok answers = [true; true; false] ∧ dmem (ac_sessions w') "sid-3" = true.
Proof. vm_compute. split; reflexivity. Qed.

(** An operator's cookie opens the pages of the viewer, and not its websocket. *)
Lemma websocket_refuses_operator :
  let w := (open_session (request_with "correct horse battery" "" "") gateway).2 in
  (require_viewer (request_with "correct horse battery" "sid-0" "") w).1 = Ok tt ∧
  (require_viewer_ws (request_with "correct horse battery" "sid-0" "") w).1 = Ok false.
Proof. vm_compute. split; reflexivity. Qed.
