(* ===== verification/SecretStore.v ===== *)
(** * The secret store ([app/services/secret_store.py])

    The file of secrets and the sidecar with the times of rotation, as two [FileStore]
    files, and the calls on them: the masked snapshot, revealing, rotating and setting a
    field. The values drawn and [time.time()] are the environment's answers. The lock is
    exclusive, so a call is one step; releasing it never fails. Every other system call
    may fail ([f_fault] of the file it works on). *)
From Stdlib Require Import Ascii.
From S2P Require Import Prelude.
From S2P Require Import PyVal.
From S2P Require Import PyStr.
From S2P Require Import FileStore.
From S2P Require Import RuntimeEnv.

(** The n-th [secrets.token_urlsafe(32)], [secrets.token_hex(32)] and [int(time.time())]. *)
Class Vault := {
  token_urlsafe32 : nat → string;
  token_hex32 : nat → string;
  epoch : nat → Z;
}.

Record Secrets := mkSecrets { ss_file : file; ss_times : file; ss_tick : nat }.

Definition on_file {A} : M file A → M Secrets A :=
  zoom ss_file (fun f w => mkSecrets f (ss_times w) (ss_tick w)).
Definition on_times {A} : M file A → M Secrets A :=
  zoom ss_times (fun f w => mkSecrets (ss_file w) f (ss_tick w)).

Definition BASE64URL_KEYS : list string :=
  ["STREAMING_ADMIN_KEY"; "JANUS_STREAMING_ADMIN_KEY"; "STREAMING_RGB_MP_SECRET";
   "TEXTROOM_ROOM_SECRET"]%string.

Record MaskedValue := mkMasked {
  mv_key : string;
  mv_masked : string;
  mv_is_set : bool;
  mv_is_sensitive : bool;
  mv_last_rotated_ts : option Z;
}.

(** ** Texts *)

Fixpoint bullets (n : nat) : string :=
  match n with
  | O => EmptyString
  | S n' => String "226" (String "151" (String "143" (bullets n')))      (* U+25CF *)
  end.

(** [_mask] *)
Definition mask (value : string) : string :=
  if String.eqb value EmptyString then "[unset]"
  else if (String.length value <=? 8)%nat then bullets 8
  else String.substring 0 3 value ++ bullets 6
       ++ String.substring (String.length value - 3) 3 value.

(** The value of a line without its surrounding quotes; [v[1:-1]]. *)
Definition unquote (v : string) : string :=
  let q2 := String quote2 EmptyString in
  let q1 := String quote1 EmptyString in
  if (startswith v q2 && endswith v q2) || (startswith v q1 && endswith v q1)
  then str (removelast (tail (chars v))) else v.

Definition secret_line (raw : string) : option (string * string) :=
  let line := py_strip raw in
  if String.eqb line EmptyString || startswith line "#" then None
  else match split1 "=" line with
       | Some (k, v) => Some (py_strip k, unquote (py_strip v))
       | None => None
       end.

Definition parse_lines (lines : list string) (out : dict string) : dict string :=
  fold_left (fun out raw => match secret_line raw with Some (k, v) => dset out k v | None => out end)
    lines out.

(** [_parse_env_file] *)
Definition parse_env_file (text : string) : dict string := parse_lines (splitlines text) [].

(** The regular expression of a KEY= line: blanks, an upper-case identifier (the group),
    blanks and the equals sign. *)
Definition is_key_head (c : ascii) : bool :=
  let n := nat_of_ascii c in ((65 <=? n) && (n <=? 90) || (n =? 95))%nat.
Definition is_key_char (c : ascii) : bool :=
  let n := nat_of_ascii c in is_key_head c || ((48 <=? n) && (n <=? 57))%nat.

Fixpoint span (p : ascii → bool) (l : list ascii) : list ascii * list ascii :=
  match l with
  | c :: l' => if p c then let '(a, b) := span p l' in (c :: a, b) else ([], l)
  | [] => ([], [])
  end.

Definition key_match (line : string) : option string :=
  let '(k, rest) := span is_key_char (lstrip_chars (chars line)) in
  match k, lstrip_chars rest with
  | c :: _, c' :: _ => if is_key_head c && Ascii.eqb c' "=" then Some (str k) else None
  | _, _ => None
  end.

Definition header_line (line : string) : bool :=
  startswith line "#" || String.eqb (py_strip line) EmptyString.

Fixpoint take_header (lines : list string) : list string :=
  match lines with
  | line :: rest => if header_line line then line :: take_header rest else []
  | [] => []
  end.

Definition item_line (k v : string) : string := (k ++ "=" ++ v)%string.

(** The keys of the lines that are in [values]. *)
Definition seen_in (lines : list string) (values : dict string) : list string :=
  omap (fun line => match key_match line with
                    | Some k => if dmem values k then Some k else None
                    | None => None
                    end) lines.

Definition render_line (values : dict string) (line : string) : string :=
  match key_match line with
  | Some k => match dget values k with Some v => item_line k v | None => line end
  | None => line
  end.

Definition unseen (seen : list string) (values : dict string) : dict string :=
  List.filter (fun '(k, _) => negb (mem_str k seen)) values.

Definition item_lines (values : dict string) : list string :=
  map (fun '(k, v) => item_line k v) values.

(** The lines of the rewritten file. *)
Definition rendered (values : dict string) (seen existing : list string) : list string :=
  map (render_line values) existing
  ++ item_lines (unseen (seen ++ seen_in existing values) values).

Definition ends_line (text : string) : string :=
  if endswith text newline then text else (text ++ newline)%string.

Definition raw_text (s : string) : content := Text (TxRaw s).

(** What [read_text] makes of a content of the model. *)
Definition file_text (c : content) : res string :=
  t ← read_text c;
  match t with TxRaw s => decode s | TxEmpty => Ok EmptyString | _ => fail EUnmodelled end.

Definition read_file : M file string := sys SysRead ;; f ← get; lift (file_text (f_content f)).

(** A line that is neither blank nor a comment. *)
Definition meaningful (line : string) : bool :=
  negb (String.eqb (py_strip line) EmptyString) && negb (startswith (py_strip line) "#").

Section store.
Context {V : Vault}.

Definition secrets_lock : M Secrets unit := on_file (sys SysMkdir ;; sys SysOpen ;; sys SysLock).

Definition secrets_exist : M Secrets bool := gets (fun w => exists_ (f_content (ss_file w))).

(** The text of the file; an unreadable one counts as absent. *)
Definition load_text : M Secrets (option string) :=
  try_except2 (t ← on_file read_file; mret (Some t))
    CUnicodeDecode (fun _ => on_file quarantine_corrupt ;; throw EStoreCorrupt)
    COSError (fun _ => mret None).

(** [_load] *)
Definition load : M Secrets (dict string) :=
  ex ← secrets_exist;
  if negb ex then mret []
  else
    text ← load_text;
    match text with
    | None => mret []
    | Some text =>
        match parse_env_file text with
        | [] => if existsb meaningful (splitlines text)
                then on_file quarantine_corrupt ;; throw EStoreCorrupt else mret []
        | parsed => mret parsed
        end
    end.

Definition time_line (raw : string) : option (string * Z) :=
  match split1 "=" raw with
  | Some (k, v) => match parse_int (py_strip v) with Some t => Some (py_strip k, t) | None => None end
  | None => None
  end.

(** [_load_timestamps] *)
Definition load_timestamps : M Secrets (dict Z) :=
  ex ← gets (fun w => exists_ (f_content (ss_times w)));
  if negb ex then mret []
  else
    text ← on_times read_file;
    mret (fold_left (fun out raw => match time_line raw with Some (k, t) => dset out k t | None => out end)
            (splitlines text) []).

Definition times_text (ts : dict Z) : string :=
  (join newline (map (fun '(k, t) => item_line k (pretty t)) (sort_items ts)) ++ newline)%string.

(** [_save_timestamps] *)
Definition save_timestamps (ts : dict Z) : M Secrets unit :=
  on_times (atomic_write_text (raw_text (times_text ts)) (Some 384)).

(** [_save_env] *)
Definition save_env (values : dict string) (header_lines : option (list string)) : M Secrets unit :=
  lines ← match header_lines with
          | Some (h :: hs) => mret (h :: hs)
          | _ =>
              ex ← secrets_exist;
              if (ex : bool) then text ← on_file read_file; mret (take_header (splitlines text))
              else mret []
          end;
  let seen := seen_in lines values in
  ex ← secrets_exist;
  out_text ← (if (ex : bool) then
                text ← on_file read_file;
                mret (join newline (rendered values seen (splitlines text)))
              else mret ("# Auto-managed by camera-page admin_config" ++ newline
                         ++ join newline (item_lines values))%string);
  on_file (atomic_write_text (raw_text (ends_line out_text)) (Some 384)).

(** ** The public calls *)
Definition masked_value (timestamps : dict Z) (k v : string) : MaskedValue :=
  let is_sensitive := mem_str k SENSITIVE_KEYS in
  mkMasked k (if is_sensitive then mask v else v) (negb (String.eqb v EmptyString)) is_sensitive
    (dget timestamps k).

Definition unset_value (k : string) : MaskedValue := mkMasked k "[unset]" false true None.

Definition snapshot_of (values : dict string) (timestamps : dict Z) : dict MaskedValue :=
  let out := fold_left (fun out '(k, v) => dset out k (masked_value timestamps k v)) values [] in
  fold_left (fun out k => if dmem out k then out else dset out k (unset_value k)) SENSITIVE_KEYS out.

Definition snapshot : M Secrets (dict MaskedValue) :=
  values ← load;
  timestamps ← load_timestamps;
  mret (snapshot_of values timestamps).

Definition reveal (key : string) : M Secrets (option string) :=
  values ← load; mret (dget values key).

Definition tick : M Secrets nat := fun w =>
  (Ok (ss_tick w), mkSecrets (ss_file w) (ss_times w) (S (ss_tick w))).

(** [_generate] *)
Definition generate (key : string) : M Secrets string :=
  n ← tick;
  mret (if mem_str key BASE64URL_KEYS then token_urlsafe32 n else token_hex32 n).

Definition rotate (key : string) : M Secrets string :=
  secrets_lock ;;
  values ← load;
  new_value ← generate key;
  save_env (dset values key new_value) None ;;
  ts ← load_timestamps;
  n ← tick;
  save_timestamps (dset ts key (epoch n)) ;;
  mret new_value.

Definition set_field (key value : string) : M Secrets unit :=
  if mem_str key SENSITIVE_KEYS then throw EValue
  else
    secrets_lock ;;
    values ← load;
    save_env (dset values key value) None.
End store.

(** ** Lines that read back *)

(** A key that is found again in the line it is written to. *)
Definition key_ok (k : string) : bool :=
  forallb (fun c => negb (Ascii.eqb c "=") && negb (is_line_break c)) (chars k)
  && String.eqb (py_strip k) k && negb (startswith k "#").

(** What is read back of a value. *)
Definition reread (v : string) : string := unquote (py_strip v).

Definition one_line (v : string) : bool := forallb (fun c => negb (is_line_break c)) (chars v).

Lemma key_ok_spec k :
  key_ok k = true →
  Forall (λ c, Ascii.eqb c "=" = false) (chars k) ∧ no_break (chars k) ∧ py_strip k = k ∧
  startswith k "#" = false.
Proof.
  unfold key_ok. rewrite !andb_true_iff, negb_true_iff, String.eqb_eq, forallb_forall.
  intros [[Hc Hs] Hh]. split_and!; [| |done|done]; apply Forall_forall; intros c Hin;
    apply list_elem_of_In in Hin; specialize (Hc c Hin); apply andb_true_iff in Hc as [H1 H2];
    by apply negb_true_iff.
Qed.

Lemma one_line_spec v : one_line v = true ↔ no_break (chars v).
Proof.
  unfold one_line, no_break. rewrite forallb_forall, Forall_forall.
  setoid_rewrite list_elem_of_In. by setoid_rewrite negb_true_iff.
Qed.

Lemma eq_solid : is_py_space "=" = false.
Proof. reflexivity. Qed.

(** The line of an item is stripped on the right only. *)
Lemma strip_item k v :
  py_strip k = k → strip_chars (chars (item_line k v)) = chars k ++ "="%char :: rstrip_chars (chars v).
Proof.
  intros Hk. unfold item_line. rewrite chars_app.
  change (chars ("=" ++ v)%string) with ("="%char :: chars v).
  assert (Hhead : head_solid (chars k ++ "="%char :: chars v)).
  { pose proof (f_equal chars Hk) as Hk'. rewrite py_strip_chars in Hk'.
    destruct (strip_ends (chars k)) as [Hh _]. rewrite Hk' in Hh. by destruct (chars k). }
  unfold strip_chars.
  rewrite (lstrip_solid _ Hhead). fold (rstrip_chars (chars k ++ "="%char :: chars v)).
  by apply rstrip_app_solid.
Qed.

Lemma secret_line_item k v :
  key_ok k = true → secret_line (item_line k v) = Some (k, reread v).
Proof.
  intros (Heq & _ & Hs & Hh)%key_ok_spec. unfold secret_line.
  assert (Hl : py_strip (item_line k v) = str (chars k ++ "="%char :: rstrip_chars (chars v))).
  { apply chars_inj. by rewrite py_strip_chars, chars_str, strip_item. }
  rewrite Hl. set (line := str _). assert (Hline : chars line = chars k ++ "="%char :: rstrip_chars (chars v)) by apply chars_str.
  assert (Hne : String.eqb line EmptyString = false).
  { apply String.eqb_neq. intros He. rewrite He in Hline. by destruct (chars k). }
  assert (Hno : startswith line "#" = false).
  { revert Hh. unfold startswith. rewrite Hline. by destruct (chars k). }
  rewrite Hne, Hno. simpl. unfold split1. rewrite Hline, split1_go_app by done. simpl.
  rewrite str_chars, Hs. do 2 f_equal. unfold reread. f_equal. apply chars_inj.
  by rewrite !py_strip_chars, chars_str, strip_rstrip.
Qed.

(** Every key that is parsed is found again. *)
Lemma secret_line_key raw k v :
  secret_line raw = Some (k, v) → no_break (chars raw) → key_ok k = true.
Proof.
  unfold secret_line. set (line := py_strip raw). intros Hs Hb.
  destruct (String.eqb line EmptyString || startswith line "#") eqn:Hh; [done|].
  apply orb_false_iff in Hh as [_ Hh].
  destruct (split1 "=" line) as [[a b]|] eqn:Hsp; [|done]. injection Hs as <- _.
  assert (Hsub : ∀ c, c ∈ chars (py_strip a) → c ∈ chars a ∧ is_line_break c = false).
  { intros c Hc%py_strip_subset. split; [done|]. eapply Forall_forall in Hb; [exact Hb|].
    apply py_strip_subset. eapply split1_subset; [exact Hsp|by left]. }
  unfold split1 in Hsp. destruct (split1_go "=" [] (chars line)) as [[a' b']|] eqn:Hgo; [|done].
  injection Hsp as <- <-. rewrite chars_str in Hsub.
  apply split1_go_inv in Hgo as (z & Hz & Hl & Hne). simpl in Hz. subst a'.
  assert (Hsolid : head_solid (chars line)) by (unfold line; rewrite py_strip_chars; apply strip_ends).
  unfold key_ok. rewrite py_strip_idem. rewrite !andb_true_iff, negb_true_iff. split_and!.
  - apply forallb_forall. intros c Hc%list_elem_of_In. destruct (Hsub c Hc) as [Hin Hbr].
    rewrite Hbr, andb_true_r. apply negb_true_iff. by eapply Forall_forall in Hne.
  - apply String.eqb_refl.
  - unfold startswith in *. rewrite py_strip_chars, chars_str. rewrite Hl in *.
    destruct z as [|c z]; [done|]. simpl in Hsolid, Hh.
    unfold strip_chars. rewrite (lstrip_solid (c :: z)) by done.
    change (c :: z) with ([] ++ c :: z). fold (rstrip_chars ([] ++ c :: z)).
    rewrite rstrip_app_solid by done. simpl. simpl in Hh. by destruct z.
Qed.

(** ** The expression that recognises a key, and the parser *)

Definition ident (k : string) : bool :=
  match chars k with c :: _ => is_key_head c && forallb is_key_char (chars k) | [] => false end.

Lemma key_head_char c : is_key_head c = true → is_key_char c = true.
Proof. unfold is_key_char. by intros ->. Qed.

Lemma key_char_solid c : is_key_char c = true → is_py_space c = false ∧ Ascii.eqb c "=" = false.
Proof.
  unfold is_key_char, is_key_head, is_py_space. intros H. split.
  - repeat (rewrite ?orb_true_iff, ?andb_true_iff, ?Nat.leb_le, ?Nat.eqb_eq in H).
    apply orb_false_iff. rewrite !andb_false_iff, !Nat.leb_gt. lia.
  - apply not_true_iff_false. intros ->%Ascii.eqb_eq. by vm_compute in H.
Qed.

Lemma span_spec p l a b :
  span p l = (a, b) → l = a ++ b ∧ Forall (λ c, p c = true) a ∧ match b with c :: _ => p c = false | [] => True end.
Proof.
  revert a b. induction l as [|c l IH]; intros a b; simpl; [intros [= <- <-]; by split_and!|].
  destruct (p c) eqn:Hc; [|intros [= <- <-]; by split_and!].
  destruct (span p l) as [a' b'] eqn:Hs. intros [= <- <-].
  destruct (IH _ _ eq_refl) as (-> & ? & ?). split_and!; [done|by constructor|done].
Qed.

Lemma span_app p a b :
  Forall (λ c, p c = true) a → match b with c :: _ => p c = false | [] => True end → span p (a ++ b) = (a, b).
Proof.
  intros Ha Hb. induction Ha as [|c a Hc _ IH]; simpl.
  - destruct b as [|c b]; [done|]. simpl. by rewrite Hb.
  - by rewrite Hc, IH.
Qed.

Lemma key_match_shape line k :
  key_match line = Some k ↔
  ident k = true ∧ ∃ ws rest, Forall (λ c, is_py_space c = true) ws ∧
    lstrip_chars (chars line) = chars k ++ ws ++ "="%char :: rest.
Proof.
  unfold key_match, ident. split.
  - destruct (span is_key_char (lstrip_chars (chars line))) as [a b] eqn:Hs.
    apply span_spec in Hs as (Hl & Ha & _). destruct a as [|c a]; [done|].
    destruct (lstrip_split b) as (ws & Hb & Hws). destruct (lstrip_chars b) as [|c' rest]; [done|].
    destruct (is_key_head c) eqn:Hc; [|done]. destruct (Ascii.eqb c' "=") eqn:He; [|done].
    apply Ascii.eqb_eq in He as ->. cbn [andb]. intros Heq. apply (inj Some) in Heq as <-. rewrite chars_str. split.
    + apply andb_true_iff. split; [done|]. apply forallb_forall. intros x Hx%list_elem_of_In.
      by eapply Forall_forall in Ha.
    + exists ws, rest. split; [done|]. by rewrite Hl, Hb.
  - intros [Hk (ws & rest & Hws & Hl)]. destruct (chars k) as [|c a] eqn:Hck; [done|].
    apply andb_true_iff in Hk as [Hc Ha].
    assert (Hall : Forall (λ c, is_key_char c = true) (c :: a)).
    { apply Forall_forall. intros x Hx%list_elem_of_In. by apply (proj1 (forallb_forall _ _) Ha). }
    rewrite Hl, span_app; [|done|].
    + rewrite lstrip_spaces by done. change (lstrip_chars ("="%char :: rest)) with ("="%char :: rest).
      rewrite Hc. cbn [andb]. change (Ascii.eqb "=" "=") with true. cbv iota. by rewrite <- Hck, str_chars.
    + destruct ws as [|x ws]; [done|]. apply Forall_cons in Hws as [Hx _]. simpl.
      apply not_true_iff_false. intros [Hkc _]%key_char_solid. congruence.
Qed.

Lemma ident_chars k :
  ident k = true → Forall (λ c, is_py_space c = false ∧ Ascii.eqb c "=" = false) (chars k) ∧
  py_strip k = k ∧ startswith k "#" = false ∧ chars k ≠ [].
Proof.
  unfold ident. intros Hk.
  assert (Hall : Forall (λ c, is_py_space c = false ∧ Ascii.eqb c "=" = false) (chars k)).
  { destruct (chars k) as [|c l]; [done|]. apply andb_true_iff in Hk as [_ Hk].
    apply Forall_forall. intros x Hx%list_elem_of_In. apply key_char_solid. by apply (proj1 (forallb_forall _ _) Hk). }
  split; [done|]. split.
  - apply chars_inj. rewrite py_strip_chars. apply strip_solid.
    + revert Hall. destruct (chars k) as [|c l]; [done|]. by intros [[? _] _]%Forall_cons.
    + apply Forall_rev in Hall. revert Hall. destruct (rev (chars k)) as [|c l]; [done|].
      by intros [[? _] _]%Forall_cons.
  - unfold startswith. destruct (chars k) as [|c l] eqn:Hck; [done|]. split; [|done].
    apply andb_true_iff in Hk as [Hh _]. change (Ascii.eqb "#" c && true = false).
    rewrite andb_true_r. apply not_true_iff_false. intros <-%Ascii.eqb_eq. by vm_compute in Hh.
Qed.

Lemma strip_of_solid_tail l a b :
  lstrip_chars l = a ++ "="%char :: b → strip_chars l = a ++ "="%char :: rstrip_chars b.
Proof. intros Hl. unfold strip_chars. rewrite Hl. fold (rstrip_chars (a ++ "="%char :: b)). by apply rstrip_app_solid. Qed.

(** The expression matches exactly the lines whose key is an upper-case identifier. *)
Lemma key_match_parsed line k :
  key_match line = Some k ↔ ident k = true ∧ ∃ v, secret_line line = Some (k, v).
Proof.
  rewrite key_match_shape. split.
  - intros [Hk (ws & rest & Hws & Hl)]. split; [done|].
    destruct (ident_chars k Hk) as (Hsol & Hs & Hh & Hne). rewrite app_assoc in Hl.
    apply strip_of_solid_tail in Hl. unfold secret_line.
    assert (Hline : chars (py_strip line) = (chars k ++ ws) ++ "="%char :: rstrip_chars rest) by by rewrite py_strip_chars.
    assert (Hne' : String.eqb (py_strip line) EmptyString = false).
    { apply String.eqb_neq. intros He. rewrite He in Hline. simpl in Hline. by destruct (chars k), ws. }
    assert (Hno : startswith (py_strip line) "#" = false).
    { unfold startswith in *. rewrite Hline. by destruct (chars k). }
    rewrite Hne', Hno. simpl. unfold split1. rewrite Hline, split1_go_app.
    + simpl. eexists. do 2 f_equal. apply chars_inj. rewrite py_strip_chars, chars_str.
      assert (Hr : strip_chars (chars k ++ ws) = chars k); [|done].
      unfold strip_chars. rewrite (lstrip_solid (chars k ++ ws)).
      * rewrite rev_app_distr, lstrip_spaces by (by apply Forall_rev).
        fold (rstrip_chars (chars k)). apply rstrip_solid. rewrite <- Hs, py_strip_chars. apply strip_ends.
      * revert Hsol. destruct (chars k) as [|c l]; [done|]. by intros [[? _] _]%Forall_cons.
    + apply Forall_app. split; [by eapply Forall_impl; [exact Hsol|naive_solver]|].
      eapply Forall_impl; [exact Hws|]. intros c Hc. apply not_true_iff_false.
      intros ->%Ascii.eqb_eq. by rewrite eq_solid in Hc.
  - intros [Hk (v & Hv)]. split; [done|]. unfold secret_line in Hv.
    destruct (String.eqb _ _ || _); [done|]. unfold split1 in Hv.
    rewrite py_strip_chars in Hv. destruct (split1_go "=" [] (strip_chars (chars line))) as [[a b]|] eqn:Hgo; [|done].
    injection Hv as Hka _. apply split1_go_inv in Hgo as (z & -> & Hl & _). simpl in Hka.
    apply (f_equal chars) in Hka. rewrite py_strip_chars, chars_str in Hka.
    destruct (ident_chars k Hk) as (_ & _ & _ & Hne).
    destruct (rstrip_split (lstrip_chars (chars line))) as (q & Hq & _).
    change (rstrip_chars (lstrip_chars (chars line))) with (strip_chars (chars line)) in Hq.
    destruct (rstrip_split z) as (ws & Hz & Hws).
    assert (Hsolid : lstrip_chars z = z).
    { apply lstrip_solid. destruct (strip_ends (chars line)) as [Hh _]. rewrite Hl in Hh.
      by destruct z. }
    assert (Hrz : rstrip_chars z = chars k) by (unfold strip_chars in Hka; by rewrite Hsolid in Hka).
    exists ws, (b ++ q). split; [done|].
    rewrite Hq, Hl, Hz, Hrz, <- !app_assoc. done.
Qed.

(** ** What a rewritten file reads as *)

(** One line, and the lines of a text, seen from one key. *)
Definition line_for (k : string) (acc : option string) (raw : string) : option string :=
  match secret_line raw with
  | Some (k', v) => if decide (k' = k) then Some v else acc
  | None => acc
  end.
Definition lines_for (k : string) (lines : list string) (acc : option string) : option string :=
  fold_left (line_for k) lines acc.

Lemma dget_parse_lines lines out k : dget (parse_lines lines out) k = lines_for k lines (dget out k).
Proof.
  revert out. induction lines as [|raw lines IH]; intros out; [done|]. simpl. unfold parse_lines in IH.
  rewrite IH. unfold line_for. destruct (secret_line raw) as [[k' v]|]; [|done]. by rewrite dget_dset.
Qed.

Lemma lines_for_cons k raw lines acc :
  lines_for k (raw :: lines) acc = lines_for k lines (line_for k acc raw).
Proof. done. Qed.

Lemma lines_for_app k l1 l2 acc : lines_for k (l1 ++ l2) acc = lines_for k l2 (lines_for k l1 acc).
Proof. apply fold_left_app. Qed.

Lemma lines_for_none k lines acc :
  Forall (λ raw, ∀ v, secret_line raw ≠ Some (k, v)) lines → lines_for k lines acc = acc.
Proof.
  intros Hl. revert acc. induction Hl as [|raw lines Hraw _ IH]; intros acc; [done|].
  rewrite lines_for_cons, IH. unfold line_for.
  destruct (secret_line raw) as [[k' v]|]; [|done]. case_decide; [|done]. subst. by destruct (Hraw v).
Qed.

(** A key whose lines the expression recognises and has not seen has no line. *)
Lemma unseen_no_line k values lines :
  ident k = true → is_Some (dget values k) → k ∉ seen_in lines values →
  Forall (λ raw, ∀ v, secret_line raw ≠ Some (k, v)) lines.
Proof.
  intros Hk [v0 Hv0] Hseen. apply Forall_forall. intros raw Hin v Hv. apply Hseen.
  unfold seen_in. apply list_elem_of_omap. exists raw. split; [done|].
  assert (Hm : key_match raw = Some k) by (apply key_match_parsed; eauto).
  rewrite Hm. unfold dmem. by rewrite Hv0.
Qed.

Section reads.
Context (values : dict string).
Context (values_nodup : NoDup (dkeys values)) (values_ok : Forall (λ k, key_ok k = true) (dkeys values)).

Lemma value_key_ok k v : dget values k = Some v → key_ok k = true.
Proof.
  intros Hv. eapply Forall_forall in values_ok; [exact values_ok|].
  apply dget_elem in Hv. apply list_elem_of_fmap. by exists (k, v).
Qed.

Lemma lines_for_existing k v existing acc :
  dget values k = Some v →
  lines_for k (map (render_line values) existing) acc
  = if decide (k ∈ seen_in existing values) then Some (reread v) else lines_for k existing acc.
Proof.
  intros Hv. revert acc. induction existing as [|raw rest IH]; intros acc.
  { rewrite decide_False by set_solver. done. }
  simpl map. rewrite !lines_for_cons, IH. clear IH. simpl seen_in. unfold render_line.
  destruct (key_match raw) as [k'|] eqn:Hm; [|done]. unfold dmem.
  apply key_match_parsed in Hm as Hp. destruct Hp as [Hid (v' & Hp)].
  destruct (dget values k') as [u|] eqn:Hu; [|done].
  assert (Hl : ∀ a, line_for k a (item_line k' u) = if decide (k' = k) then Some (reread u) else a).
  { intros a. unfold line_for. rewrite secret_line_item by (by eapply value_key_ok). done. }
  assert (Hl' : ∀ a, line_for k a raw = if decide (k' = k) then Some v' else a).
  { intros a. unfold line_for. by rewrite Hp. }
  rewrite Hl, Hl'. destruct (decide (k' = k)) as [->|Hne].
  - assert (u = v) as -> by congruence. rewrite (decide_True (P:=k ∈ k :: _)) by set_solver.
    case_decide as Hin; [done|].
    exact (lines_for_none _ _ _ (unseen_no_line k values rest Hid (mk_is_Some _ _ Hv) Hin)).
  - repeat case_decide; set_solver.
Qed.

Lemma lines_for_items k (d : dict string) acc :
  NoDup (dkeys d) → (∀ k' v, (k', v) ∈ d → dget values k' = Some v) →
  lines_for k (item_lines d) acc = match dget d k with Some v => Some (reread v) | None => acc end.
Proof.
  revert acc. induction d as [|[k' v] d IH]; intros acc Hnd Hd; [done|].
  apply NoDup_cons in Hnd as [Hk Hnd]. simpl item_lines. rewrite lines_for_cons.
  rewrite IH by (done || (intros ? ? ?; apply Hd; set_solver)).
  unfold line_for. rewrite secret_line_item by (eapply value_key_ok, Hd; by left). simpl dget.
  destruct (decide (k = k')) as [->|Hne].
  - rewrite decide_True by done. assert (Hno : dget d k' = None) by by apply dget_None.
    by rewrite Hno.
  - by rewrite decide_False by done.
Qed.

Lemma take_header_seen existing k :
  k ∈ seen_in (take_header existing) values → k ∈ seen_in existing values.
Proof.
  induction existing as [|line rest IH]; simpl; [done|]. destruct (header_line line); [|set_solver].
  simpl. destruct (key_match line) as [k'|]; [|done]. destruct (dmem values k'); [|done]. set_solver.
Qed.

(** The rewritten lines give every key its value, and no other key. *)
Lemma rendered_reads existing k :
  (∀ raw k' v, raw ∈ existing → secret_line raw = Some (k', v) → is_Some (dget values k')) →
  lines_for k (rendered values (seen_in (take_header existing) values) existing) None
  = reread <$> dget values k.
Proof.
  intros Hex. unfold rendered. rewrite lines_for_app. set (seen := _ ++ _).
  assert (Hun : dget (unseen seen values) k = if mem_str k seen then None else dget values k).
  { unfold unseen. rewrite dget_filter by done. destruct (dget values k); [|by destruct (mem_str k seen)].
    by destruct (mem_str k seen). }
  assert (Hseen : mem_str k seen = true ↔ k ∈ seen_in existing values).
  { unfold seen. rewrite mem_str_spec, elem_of_app. pose proof (take_header_seen existing k). tauto. }
  rewrite lines_for_items.
  - rewrite Hun. destruct (dget values k) as [v|] eqn:Hv.
    + rewrite (lines_for_existing k v) by done. destruct (mem_str k seen) eqn:Hm.
      * by rewrite decide_True by tauto.
      * done.
    + destruct (mem_str k seen); apply lines_for_none; apply Forall_forall; intros raw Hin v;
        apply list_elem_of_fmap in Hin as (line & -> & Hin); unfold render_line; intros Hp.
      all: destruct (key_match line) as [k'|] eqn:Hm;
        [destruct (dget values k') as [u|] eqn:Hu|];
        [rewrite secret_line_item in Hp by (by eapply value_key_ok); naive_solver
        |destruct (Hex line k v Hin Hp); congruence..].
  - by apply NoDup_filter_keys.
  - intros k' v Hin. apply dget_NoDup; [done|]. apply list_elem_of_In in Hin.
    apply filter_In in Hin as [Hin _]. by apply list_elem_of_In.
Qed.
End reads.

(** ** Texts made of lines *)

Definition unlines (ls : list string) : string :=
  String.concat EmptyString (map (λ s, s ++ newline)%string ls).

Lemma concat_cons_chars sep s ls :
  chars (String.concat sep (s :: ls))
  = chars s ++ match ls with [] => [] | _ => chars sep ++ chars (String.concat sep ls) end.
Proof. destruct ls as [|s' ls]; simpl; [by rewrite app_nil_r|]. by rewrite !chars_app. Qed.

Lemma unlines_chars ls : chars (unlines ls) = concat (map (λ s, chars s ++ ["010"%char]) ls).
Proof.
  unfold unlines. induction ls as [|s ls IH]; [done|]. simpl map. rewrite concat_cons_chars, chars_app.
  simpl concat. change (chars newline) with ["010"%char]. f_equal. destruct ls; [done|]. exact IH.
Qed.

Lemma join_chars ls x : chars (join newline (ls ++ [x])) = chars (unlines ls) ++ chars x.
Proof.
  unfold join. rewrite unlines_chars. induction ls as [|s ls IH]; [done|].
  simpl app. rewrite concat_cons_chars. change (chars newline) with ["010"%char].
  simpl concat. rewrite <- !app_assoc, <- IH. by destruct ls.
Qed.

Lemma endswith_newline s : endswith s newline = true ↔ ∃ l, chars s = l ++ ["010"%char].
Proof.
  unfold endswith. change (rev (chars newline)) with ["010"%char]. rewrite is_prefix_spec. split.
  - intros [l Hl]. exists (rev l). apply (f_equal (@rev _)) in Hl. by rewrite rev_involutive in Hl.
  - intros [l Hl]. exists (rev l). by rewrite Hl, rev_app_distr.
Qed.

Lemma splitlines_unlines' ls : Forall (λ s, no_break (chars s)) ls → splitlines (unlines ls) = ls.
Proof. apply splitlines_unlines. Qed.

(** The lines written, a closing newline added where it is missing, read as they are. *)
Lemma lines_for_join k ls :
  Forall (λ s, no_break (chars s)) ls →
  lines_for k (splitlines (ends_line (join newline ls))) None = lines_for k ls None.
Proof.
  intros Hls. destruct ls as [|x ls _] using rev_ind; [done|].
  apply Forall_app in Hls as [Hls Hx]. apply Forall_cons in Hx as [Hx _]. unfold ends_line.
  assert (Hend : endswith (join newline (ls ++ [x])) newline = true → x = EmptyString).
  { intros (l & Hl)%endswith_newline. rewrite join_chars in Hl.
    destruct (chars x) as [|c l' _] eqn:Hcx using rev_ind; [by apply chars_inj|].
    rewrite app_assoc in Hl. apply app_inj_tail in Hl as [_ ->].
    apply Forall_app in Hx as [_ Hx]. by apply Forall_cons in Hx as [Hx _]. }
  destruct (endswith _ _) eqn:He.
  - rewrite (Hend eq_refl) in *. assert (Hj : join newline (ls ++ [EmptyString]) = unlines ls).
    { apply chars_inj. rewrite join_chars. apply app_nil_r. }
    rewrite Hj, splitlines_unlines' by done. rewrite lines_for_app. by destruct (lines_for k ls None).
  - assert (Hj : (join newline (ls ++ [x]) ++ newline)%string = unlines (ls ++ [x])).
    { apply chars_inj. rewrite chars_app, join_chars, !unlines_chars, map_app, concat_app.
      simpl. by rewrite app_nil_r, <- app_assoc. }
    rewrite Hj, splitlines_unlines'; [done|]. apply Forall_app. split; [done|by constructor].
Qed.

(** ** What is parsed can be written *)

Definition item_ok (k v : string) : bool := key_ok k && one_line v && is_ascii k && is_ascii v.

Definition values_wf (d : dict string) : Prop :=
  NoDup (dkeys d) ∧ ∀ k v, dget d k = Some v → item_ok k v = true.

Lemma item_ok_spec k v :
  item_ok k v = true ↔ key_ok k = true ∧ no_break (chars v) ∧ is_ascii k = true ∧ is_ascii v = true.
Proof. unfold item_ok. rewrite !andb_true_iff, one_line_spec. tauto. Qed.

Lemma unquote_subset v c : c ∈ chars (unquote v) → c ∈ chars v.
Proof.
  unfold unquote. destruct (_ || _); [|done]. rewrite chars_str.
  assert (Htl : ∀ l : list ascii, c ∈ tail l → c ∈ l) by (intros [|? ?]; set_solver).
  intros Hc. apply Htl. induction (tail (chars v)) as [|x [|y l] IH]; simpl in *; set_solver.
Qed.

Lemma secret_line_subset raw k v c :
  secret_line raw = Some (k, v) → c ∈ chars k ∨ c ∈ chars v → c ∈ chars raw.
Proof.
  unfold secret_line. destruct (_ || _); [done|].
  destruct (split1 "=" (py_strip raw)) as [[a b]|] eqn:Hs; [|done]. intros [= <- <-] Hc.
  apply py_strip_subset. eapply split1_subset; [exact Hs|].
  destruct Hc as [Hc|Hc%unquote_subset]; apply py_strip_subset in Hc; auto.
Qed.

Lemma secret_line_ok text raw k v :
  is_ascii text = true → raw ∈ splitlines text → secret_line raw = Some (k, v) → item_ok k v = true.
Proof.
  rewrite is_ascii_spec. intros Ha Hin Hs. apply item_ok_spec.
  assert (Hraw : ∀ c, c ∈ chars raw → c ∈ chars text ∧ is_line_break c = false) by (intros c; by apply splitlines_chars).
  assert (Hsub : ∀ c, c ∈ chars k ∨ c ∈ chars v → c ∈ chars raw) by (intros c; by apply secret_line_subset).
  split_and!.
  - eapply secret_line_key; [exact Hs|]. apply Forall_forall. intros c Hc. by apply Hraw.
  - apply Forall_forall. intros c Hc. apply Hraw, Hsub. by right.
  - apply is_ascii_spec. intros c Hc. apply Ha, Hraw, Hsub. by left.
  - apply is_ascii_spec. intros c Hc. apply Ha, Hraw, Hsub. by right.
Qed.

Lemma values_wf_dset d k v : values_wf d → item_ok k v = true → values_wf (dset d k v).
Proof.
  intros [Hnd Hd] Hk. split; [by apply NoDup_dset|]. intros k' v'. rewrite dget_dset.
  case_decide; [naive_solver|apply Hd].
Qed.

Lemma parse_wf text : is_ascii text = true → values_wf (parse_env_file text).
Proof.
  intros Ha. unfold parse_env_file, parse_lines.
  assert (Hall : ∀ lines out, (∀ raw, raw ∈ lines → raw ∈ splitlines text) → values_wf out →
    values_wf (fold_left (fun out raw => match secret_line raw with Some (k, v) => dset out k v | None => out end) lines out)).
  { induction lines as [|raw lines IH]; intros out Hin Hout; [done|]. simpl. apply IH; [set_solver|].
    destruct (secret_line raw) as [[k v]|] eqn:Hs; [|done].
    apply values_wf_dset; [done|]. eapply secret_line_ok; [exact Ha|apply Hin; by left|exact Hs]. }
  apply Hall; [done|]. split; [constructor|done].
Qed.

Definition good_line (s : string) : Prop := no_break (chars s) ∧ is_ascii s = true.

Lemma is_ascii_app s1 s2 : is_ascii (s1 ++ s2)%string = is_ascii s1 && is_ascii s2.
Proof. unfold is_ascii. by rewrite chars_app, forallb_app. Qed.

Lemma item_good k v : item_ok k v = true → good_line (item_line k v).
Proof.
  intros (Hk & Hv & Hka & Hva)%item_ok_spec. apply key_ok_spec in Hk as (_ & Hk & _).
  unfold good_line, item_line. rewrite !is_ascii_app, Hka, Hva. split; [|done].
  rewrite chars_app. change (chars ("=" ++ v)%string) with ("="%char :: chars v).
  apply Forall_app. split; [done|]. by constructor.
Qed.

Lemma join_ascii ls : Forall good_line ls → is_ascii (join newline ls) = true.
Proof.
  unfold join. induction 1 as [|s ls [_ Hs] Hls IH]; [done|]. simpl. destruct ls as [|s' ls]; [done|].
  rewrite !is_ascii_app, Hs, IH. done.
Qed.

Lemma ends_line_ascii s : is_ascii s = true → is_ascii (ends_line s) = true.
Proof. intros Hs. unfold ends_line. destruct (endswith _ _); [done|]. by rewrite is_ascii_app, Hs. Qed.

Lemma items_good values (d : dict string) :
  values_wf values → (∀ k v, (k, v) ∈ d → dget values k = Some v) → Forall good_line (item_lines d).
Proof.
  intros [_ Hv] Hd. apply Forall_forall. intros s ([k v] & -> & Hin)%list_elem_of_fmap.
  apply item_good, Hv. by apply Hd.
Qed.

Lemma rendered_good values seen text :
  values_wf values → is_ascii text = true → Forall good_line (rendered values seen (splitlines text)).
Proof.
  intros Hwf Ha. pose proof Hwf as [Hnd Hv]. apply Forall_app. split.
  - apply Forall_forall. intros s (raw & -> & Hin)%list_elem_of_fmap. unfold render_line.
    assert (Hraw : good_line raw).
    { split; [apply Forall_forall; intros c Hc; by apply (splitlines_chars text raw)|].
      apply is_ascii_spec. intros c Hc. rewrite is_ascii_spec in Ha. apply Ha. by apply (splitlines_chars text raw). }
    destruct (key_match raw) as [k|]; [|done]. destruct (dget values k) as [v|] eqn:Hk; [|done].
    by apply item_good, Hv.
  - apply (items_good values); [done|]. intros k v Hin. apply dget_NoDup; [done|].
    apply list_elem_of_In, filter_In in Hin as [Hin _]. by apply list_elem_of_In.
Qed.

Lemma values_wf_keys values : values_wf values → Forall (λ k, key_ok k = true) (dkeys values).
Proof.
  intros [Hnd Hv]. apply Forall_forall. intros k ([k' v] & -> & Hin)%list_elem_of_fmap.
  apply (dget_NoDup _ _ _ Hnd) in Hin. apply Hv in Hin. by apply item_ok_spec in Hin as [? _].
Qed.

(** The text a save writes over an existing one, and into a new file. *)
Definition rewritten (values : dict string) (text : string) : string :=
  let lines := splitlines text in
  ends_line (join newline (rendered values (seen_in (take_header lines) values) lines)).
Definition fresh_text (values : dict string) : string :=
  ends_line ("# Auto-managed by camera-page admin_config" ++ newline ++ join newline (item_lines values))%string.

Lemma good_breaks ls : Forall good_line ls → Forall (λ s, no_break (chars s)) ls.
Proof. intros H. eapply Forall_impl; [exact H|]. by intros s []. Qed.

Lemma rewritten_reads values text k :
  values_wf values → is_ascii text = true →
  (∀ raw k' v, raw ∈ splitlines text → secret_line raw = Some (k', v) → is_Some (dget values k')) →
  is_ascii (rewritten values text) = true ∧
  dget (parse_env_file (rewritten values text)) k = reread <$> dget values k.
Proof.
  intros Hwf Ha Hex. unfold rewritten. set (ls := rendered _ _ _).
  assert (Hg : Forall good_line ls) by by apply rendered_good. split; [by apply ends_line_ascii, join_ascii|].
  unfold parse_env_file. rewrite dget_parse_lines. simpl dget. rewrite lines_for_join by by apply good_breaks.
  apply rendered_reads; [apply Hwf|by apply values_wf_keys|done].
Qed.

Lemma fresh_reads values k :
  values_wf values → values ≠ [] →
  is_ascii (fresh_text values) = true ∧ dget (parse_env_file (fresh_text values)) k = reread <$> dget values k.
Proof.
  intros Hwf Hne. unfold fresh_text. set (h := "# Auto-managed by camera-page admin_config"%string).
  assert (Hg : Forall good_line (h :: item_lines values)).
  { constructor; [by split; [repeat constructor|]|]. apply (items_good values); [done|].
    intros k' v Hin. apply dget_NoDup; [apply Hwf|done]. }
  assert (Hj : (h ++ newline ++ join newline (item_lines values))%string = join newline (h :: item_lines values)).
  { by destruct values as [|[k' v] [|]]. }
  rewrite Hj. split; [by apply ends_line_ascii, join_ascii|].
  unfold parse_env_file. rewrite dget_parse_lines. simpl dget. rewrite lines_for_join by by apply good_breaks.
  rewrite lines_for_cons. change (line_for k None h) with (@None string).
  assert (Hsame : ∀ k' v, (k', v) ∈ values → dget values k' = Some v).
  { intros k' v Hin. apply dget_NoDup; [apply Hwf|done]. }
  rewrite (lines_for_items values) by first [apply Hwf|by apply values_wf_keys|done].
  by destruct (dget values k).
Qed.

(** ** The calls *)
Section calls.
Context {V : Vault}.

(** The secrets a file holds. *)
Definition secrets_of (f : file) : dict string :=
  match file_text (f_content f) with Ok t => parse_env_file t | Raise _ => [] end.

Lemma file_text_ascii c t : file_text c = Ok t → is_ascii t = true.
Proof.
  unfold file_text. destruct (read_text c) as [[]|]; simpl; try done; [by intros [= <-]|].
  unfold decode. destruct (is_ascii s) eqn:Ha; [by intros [= <-]|by destruct (utf8 _)].
Qed.

Lemma file_text_raw s : is_ascii s = true → file_text (raw_text s) = Ok s.
Proof. intros Ha. unfold file_text, decode. simpl. by rewrite Ha. Qed.

Lemma read_file_inv w r w' :
  on_file read_file w = (r, w') →
  w' = w ∧ ((r = file_text (f_content (ss_file w)) ∧ f_fault (ss_file w) ≠ Some SysRead) ∨
            r = fail EOS).
Proof.
  unfold on_file, zoom, read_file, mbind, M_bind, sys, get, lift.
  destruct w as [f ts n]. simpl. destruct (decide _); intros [= <- <-]; auto.
Qed.

Lemma sys_inv s f r f' : sys s f = (r, f') → f' = f.
Proof. unfold sys. destruct (decide _); by intros [= _ <-]. Qed.

Lemma lock_inv w r w' : secrets_lock w = (r, w') → w' = w.
Proof.
  unfold secrets_lock, on_file, zoom. destruct w as [f ts n]. simpl.
  destruct ((sys SysMkdir ;; sys SysOpen ;; sys SysLock) f) as [r0 f0] eqn:Hs. intros [= _ <-].
  apply bind_inv in Hs as [(u & f1 & H1%sys_inv & Hs)|(e & H1%sys_inv & _)]; subst; [|done].
  apply bind_inv in Hs as [(u1 & f2 & H2%sys_inv & Hs)|(e & H2%sys_inv & _)]; subst; [|done].
  by apply sys_inv in Hs as ->.
Qed.

(** The contents and modes of the two files. *)
Definition same_secrets (w w' : Secrets) : Prop :=
  f_content (ss_file w') = f_content (ss_file w) ∧ f_mode (ss_file w') = f_mode (ss_file w).
Definition same_times (w w' : Secrets) : Prop := f_content (ss_times w') = f_content (ss_times w).

Lemma secrets_quarantine_same w r w' :
  on_file quarantine_corrupt w = (r, w') → same_secrets w w' ∧ ss_times w' = ss_times w ∧ is_ok r = true.
Proof.
  unfold on_file, zoom. destruct (quarantine_corrupt (ss_file w)) as [r0 f0] eqn:Hq. intros [= <- <-].
  apply quarantine_content in Hq as (H1 & H2 & _ & H3). by repeat split.
Qed.

(** The text a load works on. *)
Lemma load_text_inv w r w' :
  load_text w = (r, w') →
  (∃ t, r = Ok (Some t) ∧ w' = w ∧ file_text (f_content (ss_file w)) = Ok t) ∨
  (r = Ok None ∧ w' = w ∧ is_ok (on_file read_file w).1 = false) ∨
  (is_ok r = false ∧ same_secrets w w' ∧ ss_times w' = ss_times w).
Proof.
  unfold load_text, try_except2. unfold mbind at 1. unfold M_bind.
  destruct (on_file read_file w) as [rt w1] eqn:Ht. apply read_file_inv in Ht as [-> Hrt].
  destruct rt as [t|e].
  - intros [= <- <-]. destruct Hrt as [[Hrt _]|[=]]. left. by exists t.
  - destruct (instance_of (ex_kind e) CUnicodeDecode).
    + unfold mbind, M_bind. destruct (on_file quarantine_corrupt w) as [rq wq] eqn:Hq.
      apply secrets_quarantine_same in Hq as (Hs & Hts & Hok). destruct rq; [|done]. intros [= <- <-].
      right. right. by split_and!.
    + destruct (instance_of (ex_kind e) COSError); intros [= <- <-]; right; [left|right]; by split_and!.
Qed.

(** What a load returns: the secrets of a readable file; nothing when there is no file or
    the file cannot be read. *)
Lemma load_inv w r w' :
  load w = (r, w') →
  (∃ values, r = Ok values ∧ w' = w ∧ values_wf values ∧
     (f_content (ss_file w) = Absent ∧ values = [] ∨
      f_content (ss_file w) ≠ Absent ∧
      (values = secrets_of (ss_file w) ∨ values = [] ∧ is_ok (on_file read_file w).1 = false))) ∨
  is_ok r = false ∧ same_secrets w w' ∧ ss_times w' = ss_times w ∧ f_content (ss_file w) ≠ Absent.
Proof.
  unfold load, secrets_exist. intros Hr. apply bind_inv in Hr as [(ex & w1 & [= <- <-] & Hr)|(e & [=] & _)].
  destruct (exists_ _) eqn:Hex; simpl in Hr.
  2:{ injection Hr as <- <-. left. exists []. split_and!; [done..| |left]; [split; [constructor|done]|].
      by destruct (f_content (ss_file w)). }
  assert (Hne : f_content (ss_file w) ≠ Absent) by (by destruct (f_content (ss_file w))).
  apply bind_inv in Hr as [(text & w1 & Ht & Hr)|(e & Ht & ->)]; apply load_text_inv in Ht.
  2:{ right. destruct Ht as [(t & [=] & _)|[([=] & _)|(_ & Hs & Hts)]]. by split_and!. }
  destruct Ht as [(t & [= ->] & -> & Ht)|[([= ->] & -> & Hf)|([=] & _)]].
  - assert (Hp : parse_env_file t = secrets_of (ss_file w)) by (unfold secrets_of; by rewrite Ht).
    assert (Hwf : values_wf (parse_env_file t)) by (by eapply parse_wf, file_text_ascii).
    destruct (parse_env_file t) as [|i l] eqn:Hpt.
    + destruct (existsb meaningful (splitlines t)).
      * apply bind_inv in Hr as [(u & w2 & Hq & [= <- <-])|(e & Hq & ->)]; apply secrets_quarantine_same in Hq as (? & ? & ?);
          right; by split_and!.
      * injection Hr as <- <-. left. exists []. split_and!; [done..|]. right. split; [done|]. by left.
    + injection Hr as <- <-. left. exists (i :: l). split_and!; [done..|]. right. split; [done|]. by left.
  - injection Hr as <- <-. left. exists []. split_and!; [done..| |]; [split; [constructor|done]|]. right.
    split; [done|]. by right.
Qed.
Lemma write_inv c w r w' :
  on_file (atomic_write_text c (Some 384)) w = (r, w') →
  ss_times w' = ss_times w ∧ ss_tick w' = ss_tick w ∧
  (r = Ok tt ∧ f_content (ss_file w') = c ∧ f_mode (ss_file w') = 384 ∨
   is_ok r = false ∧ same_secrets w w').
Proof.
  unfold on_file, zoom. rewrite atomic_write_refines. unfold write_spec.
  destruct (write_faults _ _); intros [= <- <-]; split_and!; try done; [right|left]; by split_and!.
Qed.

(** The outcomes of a save: the file as it was, or holding exactly the values. *)
Definition saved (values : dict string) (w : Secrets) (r : res unit) (w' : Secrets) : Prop :=
  ss_times w' = ss_times w ∧ ss_tick w' = ss_tick w ∧
  (is_ok r = false ∧ same_secrets w w' ∨
   r = Ok tt ∧ f_mode (ss_file w') = 384 ∧ is_ok (file_text (f_content (ss_file w'))) = true ∧
   ∀ k, dget (secrets_of (ss_file w')) k = reread <$> dget values k).

Lemma save_text_inv values text w r w' :
  is_ascii text = true → (∀ k, dget (parse_env_file text) k = reread <$> dget values k) →
  on_file (atomic_write_text (raw_text text) (Some 384)) w = (r, w') → saved values w r w'.
Proof.
  intros Ha Hp (Hts & Htk & Hw)%write_inv. split_and!; [done..|].
  destruct Hw as [(-> & Hc & Hm)|(He & Hs)]; [right|left; done].
  unfold secrets_of. rewrite Hc, file_text_raw by done. by split_and!.
Qed.

Lemma save_env_inv values w r w' :
  values_wf values → values ≠ [] →
  (f_content (ss_file w) ≠ Absent → ∀ t, file_text (f_content (ss_file w)) = Ok t →
     ∀ raw k v, raw ∈ splitlines t → secret_line raw = Some (k, v) → is_Some (dget values k)) →
  save_env values None w = (r, w') → saved values w r w'.
Proof.
  intros Hwf Hne Hkeys Hr. unfold save_env, secrets_exist in Hr.
  assert (Hraised : ∀ e, is_ok (Raise (A:=unit) e) = false ∧ same_secrets w w) by done.
  apply bind_inv in Hr as [(lines & w1 & Hl & Hr)|(e & Hl & ->)];
    apply bind_inv in Hl as [(ex & w2 & [= <- <-] & Hl)|(e' & [=] & _)].
  2:{ destruct (exists_ _); [|done].
      apply bind_inv in Hl as [(t & w3 & _ & [=])|(e' & [-> _]%read_file_inv & _)]. split_and!; [done..|]. by left. }
  apply bind_inv in Hr as [(ex2 & w3 & [= <- <-] & Hr)|(e & [=] & _)].
  destruct (exists_ (f_content (ss_file w))) eqn:Hex.
  - assert (Hab : f_content (ss_file w) ≠ Absent) by (by destruct (f_content (ss_file w))).
    apply bind_inv in Hl as [(t & w3 & [-> Ht]%read_file_inv & [= <- <-])|(e & _ & [=])].
    rewrite Hex in Hr. apply bind_inv in Hr as [(out & w4 & Ho & Hr)|(e & Ho & ->)].
    2:{ apply bind_inv in Ho as [(t2 & w5 & _ & [=])|(e' & [-> _]%read_file_inv & _)]. split_and!; [done..|]. by left. }
    apply bind_inv in Ho as [(t2 & w5 & [-> Ht2]%read_file_inv & [= <- <-])|(e & _ & [=])].
    destruct Ht as [[Ht _]|[=]]. destruct Ht2 as [[Ht2 _]|[=]]. assert (t2 = t) as -> by congruence.
    assert (Ha : is_ascii t = true) by (by eapply file_text_ascii).
    assert (Hin : ∀ raw k' v, raw ∈ splitlines t → secret_line raw = Some (k', v) → is_Some (dget values k')) by by apply Hkeys.
    refine (save_text_inv values (rewritten values t) _ _ _ _ _ Hr).
    + by apply (rewritten_reads values t EmptyString).
    + intros k. by apply rewritten_reads.
  - injection Hl as <- <-. rewrite Hex in Hr.
    apply bind_inv in Hr as [(out & w4 & [= <- <-] & Hr)|(e & [=] & _)].
    refine (save_text_inv values (fresh_text values) _ _ _ _ _ Hr).
    + by apply (fresh_reads values EmptyString).
    + intros k. by apply fresh_reads.
Qed.

(** A file that cannot be read is not overwritten. *)
Lemma save_unreadable values w r w' :
  f_content (ss_file w) ≠ Absent → is_ok (on_file read_file w).1 = false →
  save_env values None w = (r, w') → is_ok r = false ∧ w' = w.
Proof.
  intros Hab Hf Hr. unfold save_env, secrets_exist in Hr.
  assert (Hex : exists_ (f_content (ss_file w)) = true) by (by destruct (f_content (ss_file w))).
  assert (Hread : ∀ t w1, on_file read_file w ≠ (Ok t, w1)) by (intros t w1 H; by rewrite H in Hf).
  apply bind_inv in Hr as [(lines & w1 & Hl & Hr)|(e & Hl & ->)];
    apply bind_inv in Hl as [(ex & w2 & [= <- <-] & Hl)|(e' & [=] & _)]; rewrite Hex in Hl.
  - apply bind_inv in Hl as [(t & w3 & Ht & _)|(e & _ & [=])]. by apply Hread in Ht.
  - apply bind_inv in Hl as [(t & w3 & Ht & _)|(e' & [-> _]%read_file_inv & _)]; [by apply Hread in Ht|done].
Qed.

Lemma lines_for_keep k lines u : is_Some (lines_for k lines (Some u)).
Proof.
  revert u. induction lines as [|raw lines IH]; intros u; [by eexists|]. rewrite lines_for_cons.
  unfold line_for. destruct (secret_line raw) as [[k' v]|]; [case_decide|]; apply IH.
Qed.

Lemma lines_for_some k v raw lines acc :
  raw ∈ lines → secret_line raw = Some (k, v) → is_Some (lines_for k lines acc).
Proof.
  intros Hin Hp. revert acc. induction lines as [|raw' lines IH]; intros acc; [set_solver|].
  rewrite lines_for_cons. apply elem_of_cons in Hin as [<-|Hin]; [|by apply IH].
  unfold line_for at 1. rewrite Hp, decide_True by done. apply lines_for_keep.
Qed.

(** Loading, setting one key and saving. *)
Definition updated (key v : string) (w : Secrets) (r : res unit) (w' : Secrets) : Prop :=
  ss_times w' = ss_times w ∧ ss_tick w' = ss_tick w ∧
  (is_ok r = false ∧ same_secrets w w' ∨
   r = Ok tt ∧ f_mode (ss_file w') = 384 ∧ is_ok (file_text (f_content (ss_file w'))) = true ∧
   ∀ k, dget (secrets_of (ss_file w')) k
        = if decide (key = k) then Some (reread v) else reread <$> dget (secrets_of (ss_file w)) k).

Lemma update_inv key v values w0 w r w' :
  item_ok key v = true → load w0 = (Ok values, w0) → ss_file w = ss_file w0 →
  save_env (dset values key v) None w = (r, w') → updated key v w r w'.
Proof.
  intros Hk Hl Hw0 Hs. apply load_inv in Hl as [(vs & [= <-] & _ & Hwf & Hcase)|(? & _)]; [|done].
  assert (Hread : (on_file read_file w0).1 = (on_file read_file w).1).
  { unfold on_file, zoom. rewrite Hw0. by destruct (read_file _). }
  rewrite Hread, <- Hw0 in Hcase.
  destruct Hcase as [[Hab Hv]|[Hab [Hv|[_ Hf]]]].
  3:{ destruct (save_unreadable _ _ _ _ Hab Hf Hs) as [He ->]. split_and!; [done..|]. by left. }
  all: assert (Hvals : values = secrets_of (ss_file w)) by (unfold secrets_of in *; by rewrite ?Hab in *).
  all: destruct (save_env_inv (dset values key v) w r w') as (Hts & Htk & Hout); [by apply values_wf_dset| | |done|].
  1,4: by destruct values as [|[k0 v0] d]; simpl; [|case_decide].
  1,3: intros _ t Ht raw k0 v0 Hin Hp; rewrite dget_dset; case_decide; [done|];
    rewrite Hvals; unfold secrets_of; rewrite Ht; unfold parse_env_file; rewrite dget_parse_lines;
    by eapply lines_for_some.
  all: split_and!; [done..|]; destruct Hout as [?|(-> & Hm & Ht & Hall)]; [by left|right]; split_and!; [done..|];
    intros k; rewrite Hall, dget_dset, Hvals; by case_decide.
Qed.
(** A value that is read back as it is. *)
Definition plain (v : string) : bool := one_line v && is_ascii v && String.eqb (reread v) v.

Lemma plain_spec v : plain v = true ↔ no_break (chars v) ∧ is_ascii v = true ∧ reread v = v.
Proof. unfold plain. rewrite !andb_true_iff, one_line_spec, String.eqb_eq. tauto. Qed.

(** Keys the calls are made with. *)
Definition good_key (k : string) : bool := key_ok k && is_ascii k.

Lemma good_item k v : good_key k = true → plain v = true → item_ok k v = true.
Proof.
  unfold good_key. intros [Hk Ha]%andb_true_iff (Hb & Hv & _)%plain_spec. by apply item_ok_spec.
Qed.

(** The tokens of the [secrets] module: hexadecimal or base64url digits. *)
Context (tokens_plain : ∀ n, plain (token_urlsafe32 n) = true ∧ plain (token_hex32 n) = true).

Definition drawn (key : string) (n : nat) : string :=
  if mem_str key BASE64URL_KEYS then token_urlsafe32 n else token_hex32 n.

Lemma drawn_plain key n : plain (drawn key n) = true.
Proof. unfold drawn. destruct (mem_str _ _); apply tokens_plain. Qed.

(** The secrets of [w'] are those of [w] with one key set. *)
Definition one_set (key v : string) (w w' : Secrets) : Prop :=
  f_mode (ss_file w') = 384 ∧ is_ok (file_text (f_content (ss_file w'))) = true ∧
  ∀ k, dget (secrets_of (ss_file w')) k
       = if decide (key = k) then Some v else reread <$> dget (secrets_of (ss_file w)) k.

Lemma load_times_inv w r w' : load_timestamps w = (r, w') → w' = w.
Proof.
  unfold load_timestamps. intros Hr. apply bind_inv in Hr as [(ex & w1 & [= <- <-] & Hr)|(e & [=] & _)].
  destruct (exists_ _); [|by injection Hr]. simpl in Hr. unfold on_times, zoom in Hr.
  destruct w as [f ts n]. unfold read_file, mbind, M_bind, sys, get, lift in Hr. simpl in Hr.
  destruct (decide _) in Hr; simpl in Hr; [by injection Hr|]. by destruct (file_text _); injection Hr.
Qed.

Lemma save_times_inv ts w r w' :
  save_timestamps ts w = (r, w') → ss_file w' = ss_file w ∧
  (r = Ok tt ∧ f_content (ss_times w') = raw_text (times_text ts) ∨ is_ok r = false ∧ same_times w w').
Proof.
  unfold save_timestamps, on_times, zoom. rewrite atomic_write_refines. unfold write_spec, same_times.
  destruct (write_faults _ _); intros [= <- <-]; simpl; auto.
Qed.

(** Rotation, whatever fails. *)
Lemma rotate_inv key w r w' :
  good_key key = true → rotate key w = (r, w') →
  (is_ok r = false ∧ same_secrets w w' ∧ same_times w w') ∨
  ∃ v, plain v = true ∧ one_set key v w w' ∧
    ((∃ ts n, r = Ok v ∧ f_content (ss_times w') = raw_text (times_text (dset ts key (epoch n)))) ∨
     is_ok r = false ∧ same_times w w').
Proof.
  intros Hk Hr. unfold rotate in Hr.
  apply bind_inv in Hr as [(u & w1 & ->%lock_inv & Hr)|(e & ->%lock_inv & ->)]; [|by left].
  apply bind_inv in Hr as [(values & w1 & Hl & Hr)|(e & Hl & ->)].
  2:{ apply load_inv in Hl as [(vs & [=] & _)|(_ & Hs & Ht & _)]. left. unfold same_times. by rewrite Ht. }
  assert (w1 = w) as -> by (by apply load_inv in Hl as [(vs & _ & -> & _)|(? & _)]).
  apply bind_inv in Hr as [(v & w1 & Hg & Hr)|(e & Hg & ->)]; [|apply bind_inv in Hg as [(? & ? & _ & [=])|(? & [=] & _)]].
  assert (v = drawn key (ss_tick w) ∧ ss_file w1 = ss_file w ∧ ss_times w1 = ss_times w) as (-> & Hf & Ht).
  { apply bind_inv in Hg as [(? & ? & [= <- <-] & [= <- <-])|(? & [=] & _)]. done. }
  set (v := drawn key (ss_tick w)) in *. assert (Hv : plain v = true) by apply drawn_plain.
  assert (Hup : ∀ r0 w2, save_env (dset values key v) None w1 = (r0, w2) → updated key v w1 r0 w2).
  { intros r0 w2. apply (update_inv key v values w); [by apply good_item|done|done]. }
  apply bind_inv in Hr as [(u1 & w2 & Hs%Hup & Hr)|(e & Hs%Hup & ->)]; destruct Hs as (Hts & _ & Hs).
  2:{ destruct Hs as [[_ [Hc Hm]]|[[=] _]]. left. unfold same_secrets, same_times.
      rewrite Hts, Ht, Hc, Hm, Hf. done. }
  destruct Hs as [[? _]|(_ & Hm & Hok & Hall)]; [done|]. right. exists v. split; [done|].
  assert (Hset : ∀ w3, ss_file w3 = ss_file w2 → one_set key v w w3).
  { intros w3 Hw3. unfold one_set. rewrite Hw3, <- Hf. split_and!; [done..|]. intros k. rewrite Hall.
    by apply plain_spec in Hv as (_ & _ & ->). }
  apply bind_inv in Hr as [(ts & w3 & ->%load_times_inv & Hr)|(e & ->%load_times_inv & ->)].
  2:{ split; [by apply Hset|]. right. unfold same_times. by rewrite Hts, Ht. }
  apply bind_inv in Hr as [(n & w3 & [= <- <-] & Hr)|(e & [=] & _)].
  apply bind_inv in Hr as [(u2 & w3 & Hst & [= <- <-])|(e & Hst & ->)]; apply save_times_inv in Hst as [Hw3 Hst];
    (split; [by apply Hset|]); destruct Hst as [[? Hc]|[? Hc]]; try done.
  - left. exists ts, (ss_tick w2). done.
  - right. split; [done|]. unfold same_times in *. by rewrite Hc, <- Ht, <- Hts.
Qed.

Lemma set_field_inv key value w r w' :
  good_key key = true → plain value = true → set_field key value w = (r, w') →
  ss_times w' = ss_times w ∧
  (is_ok r = false ∧ same_secrets w w' ∨
   r = Ok tt ∧ mem_str key SENSITIVE_KEYS = false ∧ one_set key value w w').
Proof.
  intros Hk Hv Hr. unfold set_field in Hr. destruct (mem_str _ _); [injection Hr as <- <-; split; [done|by left]|].
  apply bind_inv in Hr as [(u & w1 & ->%lock_inv & Hr)|(e & ->%lock_inv & ->)]; [|split; [done|by left]].
  apply bind_inv in Hr as [(values & w1 & Hl & Hr)|(e & Hl & ->)].
  2:{ apply load_inv in Hl as [(vs & [=] & _)|(_ & Hs & Ht & _)]. split; [done|by left]. }
  assert (w1 = w) as -> by (by apply load_inv in Hl as [(vs & _ & -> & _)|(? & _)]).
  apply (update_inv key value values w) in Hr as (Hts & _ & Hs); [|by apply good_item|done|done].
  split; [done|]. destruct Hs as [?|(-> & Hm & Hok & Hall)]; [by left|right]. unfold one_set. split_and!; [done..|].
  intros k. rewrite Hall. by apply plain_spec in Hv as (_ & _ & ->).
Qed.
(** *** Any sequence of calls *)
Inductive secret_call :=
  | Rotate (key : string)
  | SetField (key value : string)
  | Reveal (key : string)
  | Failing (secrets times : option syscall).      (* which system call fails from now on *)

Inductive secret_answer :=
  | Raised
  | Rotated (v : string)
  | FieldSet
  | Revealed (v : option string)
  | Quiet.

Definition answer_of {A} (f : A → secret_answer) (r : res A) : secret_answer :=
  match r with Ok a => f a | Raise _ => Raised end.

Definition secret_call_run (c : secret_call) (w : Secrets) : secret_answer * Secrets :=
  match c with
  | Rotate key => let '(r, w') := rotate key w in (answer_of Rotated r, w')
  | SetField key value => let '(r, w') := set_field key value w in (answer_of (fun _ => FieldSet) r, w')
  | Reveal key => let '(r, w') := reveal key w in (answer_of Revealed r, w')
  | Failing a b => (Quiet, mkSecrets (set_fault a (ss_file w)) (set_fault b (ss_times w)) (ss_tick w))
  end.

Fixpoint secret_calls_run (l : list secret_call) (w : Secrets) : list secret_answer * Secrets :=
  match l with
  | [] => ([], w)
  | c :: l' => let '(a, w1) := secret_call_run c w in
               let '(rest, w2) := secret_calls_run l' w1 in (a :: rest, w2)
  end.

Definition call_ok (c : secret_call) : bool :=
  match c with
  | Rotate key => good_key key
  | SetField key value => good_key key && plain value
  | _ => true
  end.

(** The specification: a map of secrets. A rotation stores a new value or changes nothing;
    it may lose the value it stored for the caller. A field that is sensitive is never set.
    A store that cannot be read reveals nothing. *)
Inductive secret_step (m : gmap string string) : secret_call → secret_answer → gmap string string → Prop :=
  | step_rotated key v : plain v = true → secret_step m (Rotate key) (Rotated v) (<[key := v]> m)
  | step_rotate_lost key v : plain v = true → secret_step m (Rotate key) Raised (<[key := v]> m)
  | step_set key value :
      key ∉ SENSITIVE_KEYS → secret_step m (SetField key value) FieldSet (<[key := value]> m)
  | step_raised c : secret_step m c Raised m
  | step_revealed key : secret_step m (Reveal key) (Revealed (m !! key)) m
  | step_unreadable key : secret_step m (Reveal key) (Revealed None) m
  | step_failing a b : secret_step m (Failing a b) Quiet m.

Inductive secret_steps : gmap string string → list secret_call → list secret_answer → gmap string string → Prop :=
  | steps_done m : secret_steps m [] [] m
  | steps_cons m c a m1 l rest m2 :
      secret_step m c a m1 → secret_steps m1 l rest m2 → secret_steps m (c :: l) (a :: rest) m2.

(** A store whose values all read back as they are. *)
Definition holds (w : Secrets) (m : gmap string string) : Prop :=
  ∀ k, dget (secrets_of (ss_file w)) k = m !! k ∧ ∀ v, m !! k = Some v → reread v = v.

Lemma holds_same w w' m : same_secrets w w' → holds w m → holds w' m.
Proof. intros [Hc _] Hm k. unfold secrets_of. rewrite Hc. apply Hm. Qed.

Lemma holds_set key v w w' m : plain v = true → one_set key v w w' → holds w m → holds w' (<[key := v]> m).
Proof.
  intros (_ & _ & Hv)%plain_spec (_ & _ & Hall) Hm k. rewrite Hall. destruct (Hm k) as [Hk Hr]. rewrite Hk.
  destruct (decide (key = k)) as [->|Hne].
  - rewrite lookup_insert_eq. split; [done|]. by intros v' [= <-].
  - rewrite lookup_insert_ne by done. split; [|done]. destruct (m !! k); [|done]. simpl. by rewrite Hr.
Qed.

Lemma secret_call_step c w m a w' :
  call_ok c = true → holds w m → secret_call_run c w = (a, w') → ∃ m', secret_step m c a m' ∧ holds w' m'.
Proof.
  intros Hc Hm Hr. destruct c as [key|key value|key|fa fb]; simpl in Hr.
  - destruct (rotate key w) as [r w1] eqn:Hrot. injection Hr as <- <-.
    apply rotate_inv in Hrot as [(He & Hs & _)|(v & Hv & Hset & Hout)]; [| |done].
    + exists m. destruct r; [done|]. split; [apply step_raised|by eapply holds_same].
    + exists (<[key := v]> m). split; [|by eapply holds_set].
      destruct Hout as [(ts & n & -> & _)|(He & _)]; [by apply step_rotated|]. destruct r; [done|]. by apply step_rotate_lost.
  - destruct (set_field key value w) as [r w1] eqn:Hset. injection Hr as <- <-. apply andb_true_iff in Hc as [Hk Hv].
    apply set_field_inv in Hset as [_ [(He & Hs)|(-> & Hns & Hone)]]; [| |done..].
    + exists m. destruct r; [done|]. split; [apply step_raised|by eapply holds_same].
    + exists (<[key := value]> m). split; [|by eapply holds_set]. apply step_set.
      intros Hin%mem_str_spec. congruence.
  - destruct (reveal key w) as [r w1] eqn:Hrev. injection Hr as <- <-. exists m.
    unfold reveal in Hrev. apply bind_inv in Hrev as [(values & w2 & Hl & [= <- <-])|(e & Hl & ->)].
    + apply load_inv in Hl as [(vs & [= <-] & -> & _ & Hcase)|(? & _)]; [|done]. split; [|done]. simpl.
      destruct (Hm key) as [Hk _]. destruct Hcase as [[_ ->]|[_ [->|[-> _]]]]; [apply step_unreadable| |apply step_unreadable].
      rewrite Hk. apply step_revealed.
    + apply load_inv in Hl as [(vs & [=] & _)|(_ & Hs & _)]. split; [apply step_raised|by eapply holds_same].
  - injection Hr as <- <-. exists m. split; [apply step_failing|done].
Qed.

(** *** Calls on an intact store

    No system call fails, the secrets' file is absent or a text that is not damaged, and the
    times' file is absent or a text. *)
Definition readable_text (c : content) : Prop := exists_ c = true → is_ok (file_text c) = true.

Definition undamaged (c : content) : Prop :=
  ∀ t, file_text c = Ok t → parse_env_file t = [] → existsb meaningful (splitlines t) = false.

Definition intact (w : Secrets) : Prop :=
  f_fault (ss_file w) = None ∧ f_fault (ss_times w) = None ∧
  readable_text (f_content (ss_file w)) ∧ undamaged (f_content (ss_file w)) ∧
  readable_text (f_content (ss_times w)).

Lemma read_file_calm w : f_fault (ss_file w) = None → on_file read_file w = (file_text (f_content (ss_file w)), w).
Proof.
  destruct w as [f ts n]. simpl. intros Hf. unfold on_file, zoom, read_file, mbind, M_bind, sys, get, lift. simpl.
  by rewrite Hf.
Qed.

Lemma load_intact w : intact w → load w = (Ok (secrets_of (ss_file w)), w).
Proof.
  intros (Hf & _ & Hr & Hu & _). unfold load, secrets_of.
  rewrite (bind_ok secrets_exist _ w (exists_ (f_content (ss_file w))) w) by done.
  destruct (exists_ (f_content (ss_file w))) eqn:He; [|by destruct (f_content (ss_file w))]. simpl.
  specialize (Hr He). destruct (file_text (f_content (ss_file w))) as [t|] eqn:Ht; [|done].
  assert (Hl : load_text w = (Ok (Some t), w)).
  { unfold load_text, try_except2. by rewrite (bind_ok _ _ w t w) by (by rewrite read_file_calm, Ht). }
  rewrite (bind_ok _ _ _ _ _ Hl). destruct (parse_env_file t) eqn:Hp; [|done]. by rewrite (Hu t Ht Hp).
Qed.

Lemma save_env_calm values w :
  f_fault (ss_file w) = None → readable_text (f_content (ss_file w)) →
  ∃ w', save_env values None w = (Ok tt, w') ∧ ss_times w' = ss_times w.
Proof.
  intros Hf Hr. unfold save_env. pose proof (read_file_calm w Hf) as Hread.
  assert (Hex : secrets_exist w = (Ok (exists_ (f_content (ss_file w))), w)) by done.
  assert (Hwrite : ∀ txt, ∃ w', on_file (atomic_write_text (raw_text txt) (Some 384)) w = (Ok tt, w') ∧
                                ss_times w' = ss_times w).
  { intros txt. unfold on_file, zoom. rewrite atomic_write_refines. unfold write_spec, write_faults.
    rewrite Hf. simpl. eauto. }
  destruct (exists_ (f_content (ss_file w))) eqn:He.
  - specialize (Hr He). destruct (file_text (f_content (ss_file w))) as [t|] eqn:Ht; [|done].
    erewrite bind_ok; [|erewrite bind_ok by exact Hex; cbv iota; by erewrite bind_ok by exact Hread].
    cbv zeta. erewrite bind_ok by exact Hex. cbv iota.
    erewrite bind_ok; [|by erewrite bind_ok by exact Hread]. apply Hwrite.
  - erewrite bind_ok; [|by erewrite bind_ok by exact Hex]. cbv zeta. erewrite bind_ok by exact Hex. cbv iota.
    erewrite bind_ok by done. apply Hwrite.
Qed.

Lemma lock_calm w : f_fault (ss_file w) = None → secrets_lock w = (Ok tt, w).
Proof.
  destruct w as [f ts n]. intros Hf. unfold secrets_lock, on_file, zoom, mbind, M_bind, sys. simpl in *.
  do 3 (rewrite Hf; simpl). done.
Qed.

Lemma times_calm w :
  f_fault (ss_times w) = None → readable_text (f_content (ss_times w)) →
  ∃ ts, load_timestamps w = (Ok ts, w).
Proof.
  intros Hf Hr. unfold load_timestamps.
  rewrite (bind_ok _ _ w (exists_ (f_content (ss_times w))) w) by done.
  destruct (exists_ (f_content (ss_times w))) eqn:He; simpl; [|by eexists]. specialize (Hr He).
  destruct (file_text (f_content (ss_times w))) as [t|] eqn:Ht; [|done].
  assert (Hread : on_times read_file w = (Ok t, w)).
  { destruct w as [f ts n]. simpl in *. unfold on_times, zoom, read_file, mbind, M_bind, sys, get, lift. simpl.
    rewrite Hf. simpl. by rewrite Ht. }
  rewrite (bind_ok _ _ _ _ _ Hread). by eexists.
Qed.

Lemma rotate_intact key w : intact w → is_ok (rotate key w).1 = true.
Proof.
  intros Hi. pose proof Hi as (Hf & Hft & Hr & _ & Hrt). unfold rotate.
  erewrite bind_ok by by apply lock_calm. erewrite bind_ok by by apply load_intact.
  erewrite bind_ok by reflexivity.
  set (w1 := mkSecrets (ss_file w) (ss_times w) (S (ss_tick w))).
  destruct (save_env_calm (dset (secrets_of (ss_file w)) key
              (if mem_str key BASE64URL_KEYS then token_urlsafe32 (ss_tick w) else token_hex32 (ss_tick w))) w1)
    as (w2 & Hs & Ht2); [done..|]. erewrite bind_ok by exact Hs.
  destruct (times_calm w2) as [ts Hts]; [by rewrite Ht2..|]. erewrite bind_ok by exact Hts.
  erewrite bind_ok by reflexivity. unfold mbind, M_bind, save_timestamps, on_times, zoom.
  rewrite atomic_write_refines. unfold write_spec, write_faults. simpl. rewrite Ht2. simpl in *. by rewrite Hft.
Qed.

Lemma set_field_intact key value w :
  intact w → is_ok (set_field key value w).1 = negb (mem_str key SENSITIVE_KEYS).
Proof.
  intros Hi. pose proof Hi as (Hf & _ & Hr & _). unfold set_field. destruct (mem_str _ _); [done|].
  erewrite bind_ok by by apply lock_calm. erewrite bind_ok by by apply load_intact.
  by destruct (save_env_calm (dset (secrets_of (ss_file w)) key value) w) as (w' & -> & _).
Qed.

(** What an intact store that holds [m] answers. *)
Definition served (c : secret_call) (m : gmap string string) (a : secret_answer) : Prop :=
  match c with
  | Rotate _ => ∃ v, a = Rotated v
  | SetField key _ => a = if mem_str key SENSITIVE_KEYS then Raised else FieldSet
  | Reveal key => a = Revealed (m !! key)
  | Failing _ _ => a = Quiet
  end.

Lemma call_served c w m : holds w m → intact w → served c m (secret_call_run c w).1.
Proof.
  intros Hm Hi. destruct c as [key|key value|key|fa fb]; cbn [secret_call_run served]; [| | |done].
  - pose proof (rotate_intact key w Hi) as Hr. destruct (rotate key w) as [[v|e] w']; [|done]. by eexists.
  - pose proof (set_field_intact key value w Hi) as Hr. destruct (set_field key value w) as [r w'].
    cbn [fst] in *. destruct (mem_str key SENSITIVE_KEYS); by destruct r.
  - unfold reveal. rewrite (bind_ok _ _ _ _ _ (load_intact w Hi)). simpl. by rewrite (proj1 (Hm key)).
Qed.

(** C32. Whatever system calls fail along the way, any sequence of rotations, changes of
    fields and reveals on a store whose values read back is a run of the map
    specification: a secret is replaced whole or not at all, no other key changes, a
    sensitive key is never set, and what is revealed is what was stored last, or nothing
    when the file cannot be read. And wherever the run has led, as soon as no system call
    fails and the files can be read, every call is answered: a rotation returns, a field
    is set unless its key is sensitive, and what is revealed is what the map holds. *)
Theorem secret_calls_refine l w m answers w' :
  forallb call_ok l = true → holds w m → secret_calls_run l w = (answers, w') →
  ∃ m', secret_steps m l answers m' ∧ holds w' m' ∧
        (intact w' → ∀ c, served c m' (secret_call_run c w').1).
Proof.
  revert w m answers w'. induction l as [|c l IH]; intros w m answers w' Hl Hm Hr.
  { injection Hr as <- <-. exists m. split_and!; [constructor|done|]. intros Hi c. by apply call_served. }
  simpl in Hl, Hr. apply andb_true_iff in Hl as [Hc Hl].
  destruct (secret_call_run c w) as [a w1] eqn:H1. destruct (secret_calls_run l w1) as [rest w2] eqn:H2.
  injection Hr as <- <-. destruct (secret_call_step c w m a w1 Hc Hm H1) as (m1 & Hstep & Hm1).
  destruct (IH _ _ _ _ Hl Hm1 H2) as (m2 & Hsteps & Hm2 & Hi). exists m2. split_and!; [by econstructor|done..].
Qed.

(** *** A damaged store *)

(** Bytes that are not text, or text with content and without a key. *)
Definition damaged (c : content) : Prop :=
  file_text c = fail EUnicodeDecode ∨
  ∃ t, file_text c = Ok t ∧ parse_env_file t = [] ∧ existsb meaningful (splitlines t) = true.

Lemma damaged_load w :
  f_fault (ss_file w) = None → damaged (f_content (ss_file w)) →
  ∃ w', load w = (fail EStoreCorrupt, w') ∧ same_secrets w w' ∧ ss_times w' = ss_times w ∧
    last (f_copies (ss_file w')) ≠ None.
Proof.
  intros Hf Hd. destruct w as [f ts n]. simpl in *.
  assert (Hread : on_file read_file (mkSecrets f ts n) = (file_text (f_content f), mkSecrets f ts n)).
  { unfold on_file, zoom, read_file, mbind, M_bind, sys, get, lift. simpl. by rewrite Hf. }
  assert (Hq : ∃ w', on_file quarantine_corrupt (mkSecrets f ts n) = (Ok (last (f_copies (ss_file w'))), w') ∧
    same_secrets (mkSecrets f ts n) w' ∧ ss_times w' = ts ∧ last (f_copies (ss_file w')) ≠ None).
  { unfold on_file, zoom, quarantine_corrupt, get, mbind, M_bind. simpl. destruct (last (f_copies f)) as [c|] eqn:Hl.
    - exists (mkSecrets f ts n). split_and!; simpl; by rewrite ?Hl.
    - unfold try_except, mbind, M_bind, sys, lift, modify, mret, M_ret. rewrite Hf. simpl.
      destruct f as [[| | |t] m tmp q flt]; simpl in *; [by destruct Hd as [[=]|(t & [=] & _)] ..| |].
      + exists (mkSecrets (File NotUtf8 m tmp (q ++ [NotUtf8]) flt) ts n).
        split_and!; simpl; rewrite ?last_snoc; done.
      + exists (mkSecrets (File (Text t) m tmp (q ++ [Text t]) flt) ts n).
        split_and!; simpl; rewrite ?last_snoc; done. }
  destruct Hq as (w' & Hq & Hs & Hts & Hc). exists w'. split; [|by split_and!].
  unfold load, secrets_exist. rewrite (bind_ok _ _ _ (exists_ (f_content f)) (mkSecrets f ts n)) by done.
  assert (Hex : exists_ (f_content f) = true) by (destruct (f_content f); try done; by destruct Hd as [[=]|(t & [=] & _)]).
  rewrite Hex. change (negb true) with false. cbv iota.
  destruct Hd as [Hd|(t & Ht & Hp & Hmf)].
  - assert (Hlt : load_text (mkSecrets f ts n) = (fail EStoreCorrupt, w')).
    { unfold load_text, try_except2. rewrite (bind_raise _ _ _ (Exn EUnicodeDecode EmptyString) (mkSecrets f ts n))
        by (by rewrite Hread, Hd). simpl. by rewrite (bind_ok _ _ _ _ _ Hq). }
    by rewrite (bind_raise _ _ _ _ _ Hlt).
  - assert (Hlt : load_text (mkSecrets f ts n) = (Ok (Some t), mkSecrets f ts n)).
    { unfold load_text, try_except2. by rewrite (bind_ok _ _ _ t (mkSecrets f ts n)) by (by rewrite Hread, Ht). }
    rewrite (bind_ok _ _ _ _ _ Hlt), Hp, Hmf. by rewrite (bind_ok _ _ _ _ _ Hq).
Qed.

(** On a damaged file every call raises [StoreCorrupt] and leaves the file as it is,
    with a forensic copy beside it: damage is never read as an empty store and
    overwritten. *)
Theorem damaged_store_fails_closed w :
  f_fault (ss_file w) = None → damaged (f_content (ss_file w)) →
  (∀ key,
     ∃ w', rotate key w = (fail EStoreCorrupt, w') ∧ same_secrets w w' ∧ last (f_copies (ss_file w')) ≠ None) ∧
  (∀ key value, key ∉ SENSITIVE_KEYS →
     ∃ w', set_field key value w = (fail EStoreCorrupt, w') ∧ same_secrets w w' ∧ last (f_copies (ss_file w')) ≠ None) ∧
  (∀ key, (reveal key w).1 = fail EStoreCorrupt) ∧ (snapshot w).1 = fail EStoreCorrupt.
Proof.
  intros Hf Hd. destruct (damaged_load w Hf Hd) as (w' & Hl & Hs & _ & Hc).
  assert (Hlock : secrets_lock w = (Ok tt, w)).
  { destruct w as [f ts n]. unfold secrets_lock, on_file, zoom, mbind, M_bind, sys. simpl in *.
    do 3 (rewrite Hf; simpl). done. }
  split_and!.
  - intros key. exists w'. unfold rotate. by rewrite (bind_ok _ _ _ _ _ Hlock), (bind_raise _ _ _ _ _ Hl).
  - intros key value Hk. exists w'. unfold set_field. destruct (mem_str key SENSITIVE_KEYS) eqn:Hm; [exfalso; by apply Hk, mem_str_spec|].
    by rewrite (bind_ok _ _ _ _ _ Hlock), (bind_raise _ _ _ _ _ Hl).
  - intros key. unfold reveal. by rewrite (bind_raise _ _ _ _ _ Hl).
  - unfold snapshot. by rewrite (bind_raise _ _ _ _ _ Hl).
Qed.
End calls.

(** ** What the snapshot shows *)

(** Two values of a sensitive key a snapshot does not tell apart. *)
Definition hidden (v1 v2 : string) : Prop :=
  v1 = v2 ∨
  (v1 ≠ EmptyString ∧ v2 ≠ EmptyString ∧ (String.length v1 <= 8)%nat ∧ (String.length v2 <= 8)%nat) ∨
  ((8 < String.length v1)%nat ∧ (8 < String.length v2)%nat ∧
   String.substring 0 3 v1 = String.substring 0 3 v2 ∧
   String.substring (String.length v1 - 3) 3 v1 = String.substring (String.length v2 - 3) 3 v2).

Definition look_alike (d1 d2 : dict string) : Prop :=
  Forall2 (λ '(k1, v1) '(k2, v2), k1 = k2 ∧ if mem_str k1 SENSITIVE_KEYS then hidden v1 v2 else v1 = v2) d1 d2.

Lemma mask_hidden v1 v2 :
  hidden v1 v2 → mask v1 = mask v2 ∧ String.eqb v1 EmptyString = String.eqb v2 EmptyString.
Proof.
  intros [->|[(H1 & H2 & H3 & H4)|(H1 & H2 & H3 & H4)]]; [done| |]; unfold mask.
  - apply String.eqb_neq in H1 as ->, H2 as ->. apply Nat.leb_le in H3 as ->, H4 as ->. done.
  - assert (Hne : ∀ v, (8 < String.length v)%nat → String.eqb v EmptyString = false ∧ (String.length v <=? 8)%nat = false).
    { intros v Hv. split; [apply String.eqb_neq; intros ->; simpl in Hv; lia|apply Nat.leb_gt; lia]. }
    destruct (Hne v1 H1) as [-> ->], (Hne v2 H2) as [-> ->]. by rewrite H3, H4.
Qed.

Lemma snapshot_of_alike d1 d2 ts : look_alike d1 d2 → snapshot_of d1 ts = snapshot_of d2 ts.
Proof.
  intros Hd. unfold snapshot_of.
  enough (Hf : ∀ out, fold_left (λ out '(k, v), dset out k (masked_value ts k v)) d1 out
                    = fold_left (λ out '(k, v), dset out k (masked_value ts k v)) d2 out) by by rewrite Hf.
  induction Hd as [|[k1 v1] [k2 v2] d1 d2 [-> Hv] _ IH]; intros out; [done|]. simpl. rewrite IH. do 2 f_equal.
  unfold masked_value. destruct (mem_str k2 SENSITIVE_KEYS); [|by rewrite Hv].
  by destruct (mask_hidden _ _ Hv) as [-> ->].
Qed.

Section snapshots.
Context {V : Vault}.

Lemma readable_load w :
  f_fault (ss_file w) = None → secrets_of (ss_file w) ≠ [] → load w = (Ok (secrets_of (ss_file w)), w).
Proof.
  intros Hf Hne. destruct w as [f ts n]. simpl in *. unfold load, secrets_exist.
  assert (Hex : exists_ (f_content f) = true) by (unfold secrets_of in Hne; by destruct (f_content f)).
  rewrite (bind_ok _ _ _ true (mkSecrets f ts n)) by (unfold gets; simpl; by rewrite Hex).
  change (negb true) with false. cbv iota. unfold secrets_of in *.
  destruct (file_text (f_content f)) as [t|] eqn:Ht; [|done].
  assert (Hlt : load_text (mkSecrets f ts n) = (Ok (Some t), mkSecrets f ts n)).
  { unfold load_text, try_except2, mbind, M_bind, on_file, zoom, read_file, mbind, M_bind, sys, get, lift. simpl.
    rewrite Hf. simpl. by rewrite Ht. }
  rewrite (bind_ok _ _ _ _ _ Hlt). by destruct (parse_env_file t).
Qed.

(** A snapshot shows a secret only through its mask: two stores that differ in
    sensitive values of at most eight characters, or in what lies between the first and
    last three characters of longer ones, have the same snapshot. *)
Theorem snapshot_hides w1 w2 :
  f_fault (ss_file w1) = None → f_fault (ss_file w2) = None → ss_times w1 = ss_times w2 →
  secrets_of (ss_file w1) ≠ [] → look_alike (secrets_of (ss_file w1)) (secrets_of (ss_file w2)) →
  (snapshot w1).1 = (snapshot w2).1.
Proof.
  intros Hf1 Hf2 Hts Hne Hd.
  assert (Hne2 : secrets_of (ss_file w2) ≠ []) by (intros He; rewrite He in Hd; by apply Forall2_nil_inv_r in Hd).
  unfold snapshot. rewrite (bind_ok _ _ _ _ _ (readable_load w1 Hf1 Hne)), (bind_ok _ _ _ _ _ (readable_load w2 Hf2 Hne2)).
  assert (Hlt : ∀ w, load_timestamps w = ((load_timestamps w).1, w)).
  { intros w. destruct (load_timestamps w) as [r w'] eqn:H. by apply load_times_inv in H as ->. }
  assert (Hsame : (load_timestamps w1).1 = (load_timestamps w2).1).
  { unfold load_timestamps, on_times, zoom, mbind, M_bind, gets. rewrite Hts.
    destruct (exists_ _); [|reflexivity]. change (negb true) with false. cbv iota.
    cbv beta. rewrite Hts. destruct (read_file (ss_times w2)) as [[t|e] f']; reflexivity. }
  unfold mbind, M_bind. rewrite (Hlt w1), (Hlt w2), Hsame. destruct (load_timestamps w2).1 as [ts|]; [|done].
  simpl. by rewrite (snapshot_of_alike _ _ ts Hd).
Qed.
End snapshots.

(** ** Concrete runs *)
#[local] Instance sample_vault : Vault :=
  {| token_urlsafe32 n := if Nat.even n then "q3_Zr-8kPw0sLm4Tn2Vb6Yc1Xa5Qe7Ui9Og" else "Jh2-Fd4_Sa6Pl8Ko0Mi1Nj3Bu5Hv7Gy9Ct";
     token_hex32 n := if Nat.even n then "9f86d081884c7d659a2feaa0c55ad015" else "60303ae22b998861bce3b28f33eec1be";
     epoch n := 1750000000 + Z.of_nat n |}%string.

Lemma sample_tokens n : plain (token_urlsafe32 n) = true ∧ plain (token_hex32 n) = true.
Proof. unfold token_urlsafe32, token_hex32, sample_vault. by destruct (Nat.even n). Qed.

Definition text_of (lines : list string) : content := raw_text (unlines lines).
Definition sample_store (lines : list string) : Secrets := mkSecrets (file_of (text_of lines)) (file_of Absent) 0.
Definition sample_lines : list string :=
  ["# production"; "TURN_HOST=turn.example"; "CAM_ADMIN_TOKEN=correct-horse-battery"]%string.

Definition sample_calls : list secret_call :=
  [Rotate "CAM_ADMIN_TOKEN"; Reveal "CAM_ADMIN_TOKEN"; Failing (Some SysFsync) None;
   SetField "TURN_HOST" "turn2.example"; Failing None (Some SysReplace); Rotate "TURN_SHARED_SECRET";
   Reveal "TURN_SHARED_SECRET"; SetField "TURN_SHARED_SECRET" "known"]%string.

Lemma secret_calls_refine_witness :
  let '(answers, w') := secret_calls_run sample_calls (sample_store sample_lines) in
  answers = [Rotated "9f86d081884c7d659a2feaa0c55ad015"; Revealed (Some "9f86d081884c7d659a2feaa0c55ad015");
             Quiet; Raised; Quiet; Raised; Revealed (Some "9f86d081884c7d659a2feaa0c55ad015"); Raised]%string ∧
  ∃ m', secret_steps (to_gmap (parse_env_file (unlines sample_lines))) sample_calls answers m' ∧ holds w' m' ∧
        (intact w' → ∀ c, served c m' (secret_call_run c w').1).
Proof.
  destruct (secret_calls_run sample_calls (sample_store sample_lines)) as [answers w'] eqn:Hr. split.
  - change answers with (answers, w').1. rewrite <- Hr. vm_compute. reflexivity.
  - refine (secret_calls_refine sample_tokens sample_calls _ _ _ _ _ _ Hr); [vm_compute; reflexivity|].
    intros k. rewrite lookup_to_gmap. split; [reflexivity|]. intros v Hv%dget_elem.
    assert (Hall : forallb (λ '(_, v), String.eqb (reread v) v) (parse_env_file (unlines sample_lines)) = true) by (vm_compute; reflexivity).
    apply String.eqb_eq. by apply (proj1 (forallb_forall _ _) Hall (k, v)), list_elem_of_In.
Defined.

Lemma damaged_store_fails_closed_witness :
  let w := sample_store ["garbled binary"; "no keys at all"]%string in
  (∀ key, ∃ w', rotate key w = (fail EStoreCorrupt, w') ∧ same_secrets w w' ∧ last (f_copies (ss_file w')) ≠ None) ∧
  (reveal "CAM_ADMIN_TOKEN" w).1 = fail EStoreCorrupt.
Proof.
  intros w. destruct (damaged_store_fails_closed w eq_refl) as (H1 & _ & H3 & _).
  - right. eexists. split_and!; vm_compute; reflexivity.
  - split; [exact H1|apply H3].
Defined.

Lemma snapshot_hides_witness :
  let w1 := sample_store ["TURN_HOST=turn.example"; "CAM_ADMIN_TOKEN=correct-horse-battery"]%string in
  let w2 := sample_store ["TURN_HOST=turn.example"; "CAM_ADMIN_TOKEN=cormorants-and-poetry"]%string in
  let w3 := sample_store ["TURN_HOST=turn.example"; "CAM_ADMIN_TOKEN=corvette-tapestry"]%string in
  (snapshot w1).1 ≠ (snapshot w2).1 ∧ (snapshot w2).1 = (snapshot w3).1.
Proof.
  intros w1 w2 w3. split; [vm_compute; discriminate|].
  refine (snapshot_hides w2 w3 eq_refl eq_refl eq_refl _ _); [vm_compute; discriminate|].
  repeat constructor; vm_compute; right; right; repeat split; lia.
Defined.

(** A field may be any text: one with a line break writes a second key, a sensitive one
    included, past the check of the key. *)
Lemma newline_value_sets_secret :
  let '(r, w') := set_field "TURN_REALM" ("x" ++ newline ++ "CAM_ADMIN_TOKEN=known")%string (sample_store sample_lines) in
  r = Ok tt ∧ (reveal "CAM_ADMIN_TOKEN" w').1 = Ok (Some "known"%string).
Proof. vm_compute. split; reflexivity. Qed.

(** A key that is not an upper-case identifier is never recognised in the file: every save
    appends it once more. *)
Lemma lower_case_key_repeats :
  let '(_, w1) := set_field "TURN_REALM" "a" (sample_store ["turn_user=webrtc"]%string) in
  let '(_, w2) := set_field "TURN_REALM" "b" w1 in
  f_content (ss_file w2)
  = text_of ["turn_user=webrtc"; "turn_user=webrtc"; "TURN_REALM=b"; "turn_user=webrtc"]%string.
Proof. vm_compute. reflexivity. Qed.

(** Rotating one secret rewrites every line, and a quoted value loses its blanks. *)
Lemma rotation_changes_others :
  let w := sample_store [("NOTE=" ++ dquoted " padded ")%string; "CAM_ADMIN_TOKEN=x"]%string in
  let '(_, w') := rotate "CAM_ADMIN_TOKEN" w in
  (reveal "NOTE" w).1 = Ok (Some " padded "%string) ∧ (reveal "NOTE" w').1 = Ok (Some "padded"%string).
Proof. vm_compute. split; reflexivity. Qed.

(** When only the time of the rotation cannot be recorded, the caller is told that the
    write failed, and the new secret is in force. *)
Lemma rotation_reported_failed :
  let w := sample_store sample_lines in
  let w0 := mkSecrets (ss_file w) (set_fault (Some SysReplace) (ss_times w)) 0 in
  let '(r, w') := rotate "CAM_ADMIN_TOKEN" w0 in
  is_ok r = false ∧ (reveal "CAM_ADMIN_TOKEN" w').1 = Ok (Some "9f86d081884c7d659a2feaa0c55ad015"%string).
Proof. vm_compute. split; reflexivity. Qed.
