(* ===== verification/JanusJcfg.v ===== *)
(** * The privileged writers of janus.jcfg

    Models [host_infra/roles/janus/files/janus-admin.py] (the NAT block and the restart)
    and [host_infra/roles/janus/files/janus-turn-rotator.py] (the TURN credentials): the
    text functions, the lock they share and the commands. The host answers the n-th
    interaction ([HostEnv]): it may fail with [OSError] or be the last one before the
    process dies, and other writers may change the file while the lock is waited for.
    [ETimeout] is the [TimeoutError] of the lock. The temporary file of a write and the
    log are not modelled; [status] only reads. *)
From Stdlib Require Import Ascii.
From S2P Require Import Prelude.
From S2P Require Import PyVal.
From S2P Require Import PyStr.
From S2P Require Import FileStore.
From S2P Require Import RuntimeEnv.

(** ** Texts *)
Definition NAT_BEGIN_MARKER : string := "# BEGIN NAT AUTO".
Definition NAT_END_MARKER : string := "# END NAT AUTO".

(** The text before and after the first occurrence of [p]: [text.index(p)] and the slices
    around it. *)
Fixpoint cut (p l : list ascii) : option (list ascii * list ascii) :=
  if is_prefix p l then Some ([], drop (length p) l)
  else match l with
       | [] => None
       | c :: l' => match cut p l' with Some (a, b) => Some (c :: a, b) | None => None end
       end.

(** [patch_nat_block] *)
Definition patch_chars (t block : list ascii) : option (list ascii) :=
  match cut (chars NAT_BEGIN_MARKER) t with
  | None => None
  | Some (before, rest) =>
      match cut (chars NAT_END_MARKER) (chars NAT_BEGIN_MARKER ++ rest) with
      | None => None
      | Some (_, after) =>
          Some (rstrip_chars before ++ "010"%char :: chars NAT_BEGIN_MARKER ++ "010"%char :: block
                ++ "010"%char :: chars NAT_END_MARKER ++ "010"%char :: lstrip_chars after)
      end
  end.

Definition patch_nat_block (jcfg_text new_block : string) : res string :=
  match patch_chars (chars jcfg_text) (chars new_block) with
  | Some l => Ok (str l)
  | None => fail ERuntime
  end.

(** The parts of an f-string. *)
Definition py_bool (j : json) : string := if truthy j then "true" else "false".

Definition cfg_get (cfg : dict json) (k : string) (dflt : json) : json := default dflt (dget cfg k).

(** Iterating over a value: the elements of a list, the characters of a string, the keys
    of an object. *)
Definition iterate (j : json) : res (list json) :=
  match j with
  | JArr l => Ok l
  | JStr s => Ok (map (fun c => JStr (str [c])) (chars s))
  | JObj d => Ok (map JStr (dkeys d))
  | _ => fail EType
  end.

Fixpoint str_all (l : list json) : res (list string) :=
  match l with [] => Ok [] | j :: l' => s ← to_str j; rest ← str_all l'; Ok (s :: rest) end.

(** The line that restricts the interfaces. *)
Definition ice_line (cfg : dict json) : res string :=
  if truthy (cfg_get cfg "ice_enforce_list" JNull) then
    s ← to_str (cfg_get cfg "ice_enforce_list" JNull);
    Ok ("  ice_enforce_list = " ++ dquoted s)%string
  else
    items ← iterate (cfg_get cfg "ice_ignore_list" (JArr []));
    items ← str_all items;
    Ok ("  ice_ignore_list = [ " ++ join ", " (map dquoted items) ++ " ]")%string.

(** [render_nat_block] *)
Definition render_nat_block (cfg : dict json) : res string :=
  ice ← ice_line cfg;
  stun_server ← to_str (cfg_get cfg "stun_server" (JStr EmptyString));
  stun_port ← to_str (cfg_get cfg "stun_port" (JInt 3478));
  turn_server ← to_str (cfg_get cfg "turn_server" (JStr EmptyString));
  turn_port ← to_str (cfg_get cfg "turn_port" (JInt 3478));
  turn_type ← to_str (cfg_get cfg "turn_type" (JStr "udp"));
  turn_user ← to_str (cfg_get cfg "turn_user" (JStr EmptyString));
  turn_pwd ← to_str (cfg_get cfg "turn_pwd" (JStr EmptyString));
  nat_1_1 ← to_str (cfg_get cfg "nat_1_1_mapping" (JStr EmptyString));
  min_port ← to_str (cfg_get cfg "min_port" (JInt 10000));
  max_port ← to_str (cfg_get cfg "max_port" (JInt 20000));
  Ok (join newline
    ["nat: {";
     "  ice_tcp = " ++ py_bool (cfg_get cfg "ice_tcp" (JBool false));
     "  full_trickle = " ++ py_bool (cfg_get cfg "full_trickle" (JBool true));
     "  ignore_mdns = true";
     "  keep_private_host = " ++ py_bool (cfg_get cfg "keep_private_host" (JBool false));
     ice;
     EmptyString;
     "  stun_server = " ++ dquoted stun_server;
     "  stun_port   = " ++ stun_port;
     EmptyString;
     "  turn_server = " ++ dquoted turn_server;
     "  turn_port   = " ++ turn_port;
     "  turn_type   = " ++ dquoted turn_type;
     "  turn_user   = " ++ dquoted turn_user;
     "  turn_pwd    = " ++ dquoted turn_pwd;
     EmptyString;
     "  nat_1_1_mapping = " ++ dquoted nat_1_1;
     "  min_port = " ++ min_port;
     "  max_port = " ++ max_port;
     "}"])%string.

(** *** The rotator's expressions

    A key, the equals sign with blanks around it and a quoted value. *)
Fixpoint until_quote (cur l : list ascii) : option (list ascii * list ascii) :=
  match l with
  | [] => None
  | c :: l' => if Ascii.eqb c quote2 then Some (rev cur, l') else until_quote (c :: cur) l'
  end.

(** The value matched at the start of [l], and what follows. *)
Definition match_here (key l : list ascii) : option (list ascii * list ascii) :=
  if is_prefix key l then
    match lstrip_chars (drop (length key) l) with
    | c :: l1 =>
        if Ascii.eqb c "=" then
          match lstrip_chars l1 with
          | q :: l2 => if Ascii.eqb q quote2 then until_quote [] l2 else None
          | [] => None
          end
        else None
    | [] => None
    end
  else None.

(** [regex.search(text)] and its group *)
Fixpoint search (key l : list ascii) : option (list ascii) :=
  match match_here key l with
  | Some (v, _) => Some v
  | None => match l with [] => None | _ :: l' => search key l' end
  end.

(** [regex.sub(replacement, text)]: [skip] characters belong to the last match. *)
Fixpoint sub_go (key repl : list ascii) (skip : nat) (l : list ascii) : list ascii :=
  match l with
  | [] => []
  | c :: l' =>
      match skip with
      | S n => sub_go key repl n l'
      | O => match match_here key l with
             | Some (_, rest) => repl ++ sub_go key repl (length l' - length rest) l'
             | None => c :: sub_go key repl 0 l'
             end
      end
  end.

Definition TURN_USER_KEY : list ascii := chars "turn_user".
Definition TURN_PWD_KEY : list ascii := chars "turn_pwd".

(** [parse_current_creds] *)
Definition parse_current_creds (jcfg_content : string) : option (string * string * Z) :=
  match search TURN_USER_KEY (chars jcfg_content), search TURN_PWD_KEY (chars jcfg_content) with
  | Some u, Some p =>
      let user := str u in
      let expiry := match split1 ":" user with
                    | Some (e, _) => default 0 (parse_int e)
                    | None => 0
                    end in
      Some (user, str p, expiry)
  | _, _ => None
  end.

(** [patch_jcfg]; a replacement without backslashes is literal. *)
Definition patch_jcfg (jcfg_content new_user new_pwd : string) : string :=
  let out := sub_go TURN_USER_KEY (chars ("turn_user   = " ++ dquoted new_user)) 0 (chars jcfg_content) in
  str (sub_go TURN_PWD_KEY (chars ("turn_pwd    = " ++ dquoted new_pwd)) 0 out).

(** [load_shared_secret] over the lines of the file; [strip(q)] takes the quotes of one
    kind off both ends. *)
Definition strip_char (q : ascii) (s : string) : string :=
  let fix go l := match l with c :: l' => if Ascii.eqb c q then go l' else l | [] => [] end in
  str (rev (go (rev (go (chars s))))).

Fixpoint shared_secret_of (lines : list string) : option string :=
  match lines with
  | [] => None
  | raw :: rest =>
      let line := py_strip raw in
      if startswith line "TURN_SHARED_SECRET=" then
        match split1 "=" line with
        | Some (_, v) =>
            let value := strip_char quote1 (strip_char quote2 (py_strip v)) in
            if String.eqb value EmptyString then None else Some value
        | None => None
        end
      else shared_secret_of rest
  end.

(** ** The host *)
Inductive systemctl_result :=
  | SysOk
  | SysFailed                   (* a non-zero exit status *)
  | SysHung (late : bool)       (* timed out; whether the restart went through after all *)
  | SysMissing.

Record Host := mkHost {
  h_jcfg : option string;       (* the bytes of janus.jcfg *)
  h_secrets : content;          (* camera-secrets.env *)
  h_backups : list string;      (* oldest first *)
  h_live : option string;       (* the configuration the running Janus was started with *)
  h_tick : nat;
}.

Class HostEnv := {
  host_dies : nat → bool;
  host_fails : nat → bool;
  lock_held : nat → bool;                                (* for the whole timeout *)
  other_writers : nat → option string → option string;   (* while the lock is waited for *)
  systemctl : nat → systemctl_result;
  unix_time : nat → Z;
  hmac_sha1_b64 : string → string → string;              (* key, message *)
}.

Section host.
Context {E : HostEnv}.

Definition set_jcfg (j : option string) (w : Host) : Host :=
  mkHost j (h_secrets w) (h_backups w) (h_live w) (h_tick w).
Definition set_live (j : option string) (w : Host) : Host :=
  mkHost (h_jcfg w) (h_secrets w) (h_backups w) j (h_tick w).
Definition tock (w : Host) : Host :=
  mkHost (h_jcfg w) (h_secrets w) (h_backups w) (h_live w) (S (h_tick w)).

Definition host_call : M Host unit := fun w =>
  if host_dies (h_tick w) then (fail EKilled, tock w)
  else if host_fails (h_tick w) then (fail EOS, tock w)
  else (Ok tt, tock w).

(** [with jcfg_lock(): m]; releasing the lock never fails. *)
Definition jcfg_lock {A} (m : M Host A) : M Host A :=
  host_call ;; host_call ;;                                (* mkdir, open *)
  held ← gets (fun w => lock_held (h_tick w));
  host_call ;;
  if (held : bool) then throw ETimeout
  else modify (fun w => set_jcfg (other_writers (h_tick w) (h_jcfg w)) w) ;; m.

(** [Path(path).read_text()] *)
Definition read_jcfg : M Host string :=
  host_call ;;
  j ← gets h_jcfg;
  match j with Some b => lift (decode b) | None => throw EFileNotFound end.

(** [atomic_write] of either script *)
Definition jcfg_atomic_write (new : string) : M Host unit :=
  j ← gets h_jcfg;
  match j with
  | Some b =>
      host_call ;; host_call ;;                            (* mkdir, copy2 *)
      modify (fun w => mkHost (h_jcfg w) (h_secrets w) (h_backups w ++ [b]) (h_live w) (h_tick w))
  | None => mret tt
  end ;;
  host_call ;;                                             (* the temporary file *)
  host_call ;;
  modify (set_jcfg (Some new)).

(** [restart_janus_service], and [restart_janus] of the rotator *)
Definition restart_janus_service : M Host bool := fun w =>
  if host_dies (h_tick w) then (fail EKilled, tock w)
  else match systemctl (h_tick w) with
       | SysOk => (Ok true, set_live (h_jcfg w) (tock w))
       | SysFailed => (Ok false, set_live None (tock w))
       | SysHung late => (Ok false, if late then set_live (h_jcfg w) (tock w) else tock w)
       | SysMissing => (Ok false, tock w)
       end.

(** ** [janus-admin] *)
Definition cmd_restart : M Host Z :=
  try_except
    (jcfg_lock (ok ← restart_janus_service; mret (if ok : bool then 0 else 4)))
    CTimeout (fun _ => mret 2).

Definition nat_config_locked (cfg : dict json) (no_restart : bool) : M Host Z :=
  j ← gets h_jcfg;
  match j with
  | None => mret 3
  | Some _ =>
      current ← read_jcfg;
      new_block ← lift (render_nat_block cfg);
      match patch_nat_block current new_block with
      | Raise _ => mret 3
      | Ok new_text =>
          jcfg_atomic_write new_text ;;
          if no_restart then mret 0
          else ok ← restart_janus_service; mret (if ok : bool then 0 else 4)
      end
  end.

Definition cmd_nat_config (no_restart : bool) (stdin : text) : M Host Z :=
  match json_loads stdin with
  | Ok (JObj cfg) => try_except (jcfg_lock (nat_config_locked cfg no_restart)) CTimeout (fun _ => mret 2)
  | _ => mret 1
  end.

Inductive admin_command := AdminRestart | AdminNatConfig (no_restart : bool) (stdin : text).

(** [main]: the exit code *)
Definition janus_admin (c : admin_command) : M Host Z :=
  try_except
    (match c with
     | AdminRestart => cmd_restart
     | AdminNatConfig no_restart stdin => cmd_nat_config no_restart stdin
     end)
    CException (fun _ => mret 5).

(** ** [janus-turn-rotator] *)
Definition unix_now : M Host Z := fun w => (Ok (unix_time (h_tick w)), tock w).

Definition generate_credentials (shared_secret : string) (ttl_days : Z) (username : string)
    : M Host (string * string * Z) :=
  now ← unix_now;
  let expiry := now + ttl_days * 86400 in
  let user := (pretty expiry ++ ":" ++ username)%string in
  mret (user, hmac_sha1_b64 shared_secret user, expiry).

Definition load_shared_secret : M Host (option string) :=
  try_except
    (host_call ;;
     c ← gets h_secrets;
     t ← lift (read_text c);
     match t with
     | TxRaw s => t ← lift (decode s); mret (shared_secret_of (splitlines t))
     | TxEmpty => mret None
     | _ => throw EUnmodelled
     end)
    COSError (fun _ => mret None).

Definition should_rotate (current_expiry before_days : Z) : M Host bool :=
  if current_expiry =? 0 then mret true
  else now ← unix_now; mret (current_expiry <=? now + before_days * 86400).

Record rotate_args := mkRotate {
  ra_ttl_days : Z;
  ra_before_days : Z;
  ra_username : string;
  ra_dry_run : bool;
  ra_check_only : bool;
  ra_force : bool;
  ra_restart : bool;
}.

Definition expiry_of (jcfg : string) : Z :=
  match parse_current_creds jcfg with Some (_, _, e) => e | None => 0 end.

(** The part under the lock. *)
Definition rotate_locked (secret : string) (a : rotate_args) : M Host Z :=
  jcfg ← read_jcfg;
  c ← generate_credentials secret (ra_ttl_days a) (ra_username a);
  let '(new_user, new_pwd, _) := c in
  let new_jcfg := patch_jcfg jcfg new_user new_pwd in
  if String.eqb new_jcfg jcfg then mret 2
  else
    jcfg_atomic_write new_jcfg ;;
    if ra_restart a then ok ← restart_janus_service; mret (if ok : bool then 0 else 2) else mret 0.

(** [rotate]; the days left are only logged. *)
Definition turn_rotate (a : rotate_args) : M Host Z :=
  secret ← load_shared_secret;
  match secret with
  | None => mret 2
  | Some secret =>
      jcfg ← try_except (t ← read_jcfg; mret (Some t)) COSError (fun _ => mret None);
      match jcfg with
      | None => mret 2
      | Some jcfg =>
          let current_expiry := expiry_of jcfg in
          (if current_expiry =? 0 then mret tt else unix_now ;; mret tt) ;;
          needs_rotation ← (if ra_force a then mret true else should_rotate current_expiry (ra_before_days a));
          if ra_check_only a then mret (if needs_rotation : bool then 1 else 0)
          else if negb needs_rotation then mret 0
          else if ra_dry_run a then generate_credentials secret (ra_ttl_days a) (ra_username a) ;; mret 0
          else try_except (jcfg_lock (rotate_locked secret a)) CTimeout (fun _ => mret 2)
      end
  end.
End host.

(** ** Occurrences *)
Lemma cut_app p l a b : cut p l = Some (a, b) → l = a ++ p ++ b.
Proof.
  revert a b. induction l as [|c l IH]; intros a b; simpl; destruct (is_prefix p _) eqn:Hp.
  - intros [= <- <-]. apply is_prefix_spec in Hp as [r Hr]. destruct p; [|done]. done.
  - done.
  - intros [= <- <-]. apply is_prefix_spec in Hp as [r Hr]. rewrite Hr, drop_app_length. done.
  - destruct (cut p l) as [[a' b']|] eqn:Hc; [|done]. intros [= <- <-]. simpl. by rewrite (IH a' b').
Qed.

(** [p] does not occur in [l]. *)
Definition absent (p l : list ascii) : Prop := cut p l = None.

Lemma absent_cons p c l : absent p (c :: l) ↔ is_prefix p (c :: l) = false ∧ absent p l.
Proof.
  unfold absent. simpl. destruct (is_prefix p (c :: l)); [naive_solver|].
  destruct (cut p l) as [[a b]|]; naive_solver.
Qed.

Lemma is_prefix_app_r p l r : is_prefix p l = true → is_prefix p (l ++ r) = true.
Proof. rewrite !is_prefix_spec. intros [l' ->]. exists (l' ++ r). by rewrite app_assoc. Qed.

Lemma absent_prefix p l r : absent p (l ++ r) → absent p l.
Proof.
  induction l as [|c l IH].
  - simpl. unfold absent. destruct r as [|c r]; [done|]. intros [Hp _]%absent_cons. simpl.
    destruct p; [done|done].
  - simpl. intros [Hp Hr]%absent_cons. apply absent_cons. split; [|by apply IH].
    destruct (is_prefix p (c :: l)) eqn:H; [|done]. apply (is_prefix_app_r _ _ r) in H. simpl in *. congruence.
Qed.

(** Before the first occurrence there is none. *)
Lemma cut_before p l a b : p ≠ [] → cut p l = Some (a, b) → absent p a.
Proof.
  intros Hne. revert a b. induction l as [|c l IH]; intros a b; simpl; destruct (is_prefix p _) eqn:Hp.
  1,3: intros [= <- _]; unfold absent; by destruct p.
  - done.
  - destruct (cut p l) as [[a' b']|] eqn:Hc; [|done]. intros [= <- _]. apply absent_cons. split; [|by eapply IH].
    destruct (is_prefix p (c :: a')) eqn:H; [|done]. apply (is_prefix_app_r _ _ (p ++ b')) in H.
    apply cut_app in Hc. subst l. simpl in *. congruence.
Qed.

(** A pattern does not reach over a character it does not have. *)
Lemma is_prefix_stop p x c y : c ∉ p → is_prefix p (x ++ c :: y) = true → is_prefix p x = true.
Proof.
  intros Hc. revert x. induction p as [|d p IH]; intros x; [by destruct x|].
  apply not_elem_of_cons in Hc as [Hd Hc]. destruct x as [|e x]; simpl.
  - intros [He _]%andb_true_iff. by apply Ascii.eqb_eq in He.
  - intros [-> Hp]%andb_true_iff. by apply (IH Hc).
Qed.

Lemma absent_join p x c y : p ≠ [] → c ∉ p → absent p x → absent p y → absent p (x ++ c :: y).
Proof.
  intros Hne Hc Hx Hy. induction x as [|d x IH]; simpl.
  - apply absent_cons. split; [|done]. destruct (is_prefix p (c :: y)) eqn:H; [|done].
    apply (is_prefix_stop p [] c y Hc) in H. by destruct p.
  - apply absent_cons in Hx as [Hp Hx]. apply absent_cons. split; [|by apply IH].
    destruct (is_prefix p (d :: x ++ c :: y)) eqn:H; [|done].
    apply (is_prefix_stop p (d :: x) c y Hc) in H. congruence.
Qed.

Lemma cut_first p x c r :
  p ≠ [] → c ∉ p → absent p x → cut p (x ++ c :: p ++ r) = Some (x ++ [c], r).
Proof.
  intros Hne Hc Hx. induction x as [|d x IH].
  - simpl. destruct (is_prefix p (c :: p ++ r)) eqn:H; [apply (is_prefix_stop p [] c _ Hc) in H; by destruct p|].
    assert (Hp : is_prefix p (p ++ r) = true) by (apply is_prefix_spec; by eexists).
    destruct (p ++ r) as [|e l] eqn:Hl; simpl; rewrite Hp.
    + by destruct p.
    + by rewrite <- Hl, drop_app_length.
  - apply absent_cons in Hx as [Hp Hx]. simpl.
    destruct (is_prefix p (d :: x ++ c :: p ++ r)) eqn:H.
    + apply (is_prefix_stop p (d :: x) c _ Hc) in H. congruence.
    + by rewrite (IH Hx).
Qed.

(** ** The NAT block *)
Definition nl : ascii := "010"%char.

(** What lies between the markers. *)
Definition block_of (t : list ascii) : option (list ascii) :=
  match cut (chars NAT_BEGIN_MARKER) t with
  | None => None
  | Some (_, rest) => match cut (chars NAT_END_MARKER) rest with Some (b, _) => Some b | None => None end
  end.

Lemma nl_not_in_markers : (nl ∉ chars NAT_BEGIN_MARKER) ∧ (nl ∉ chars NAT_END_MARKER).
Proof.
  split; intros H%list_elem_of_In; vm_compute in H; repeat (destruct H as [H|H]; [discriminate H|]); exact H.
Qed.

(** A patched text in its parts. *)
Definition framed (before block after : list ascii) : list ascii :=
  before ++ nl :: chars NAT_BEGIN_MARKER ++ nl :: block ++ nl :: chars NAT_END_MARKER ++ nl :: after.

Lemma patch_chars_framed t block t' :
  patch_chars t block = Some t' →
  ∃ before old after, t = before ++ chars NAT_BEGIN_MARKER ++ old ++ chars NAT_END_MARKER ++ after ∧
    absent (chars NAT_BEGIN_MARKER) before ∧ t' = framed (rstrip_chars before) block (lstrip_chars after) ∧
    ∀ block2, patch_chars t block2 = Some (framed (rstrip_chars before) block2 (lstrip_chars after)).
Proof.
  intros Hp. pose proof Hp as Hp'. unfold patch_chars in Hp. revert Hp. destruct (cut (chars NAT_BEGIN_MARKER) t) as [[before rest]|] eqn:H1; [|done].
  destruct (cut (chars NAT_END_MARKER) _) as [[mid after]|] eqn:H2; [|done]. intros [= <-].
  assert (Hall : ∀ block2, patch_chars t block2 = Some (framed (rstrip_chars before) block2 (lstrip_chars after))).
  { intros block2. unfold patch_chars. by rewrite H1, H2. }
  exists before. pose proof (cut_before (chars NAT_BEGIN_MARKER) t before rest ltac:(done) H1) as Hab. apply cut_app in H1 as ->.
  apply cut_app in H2. assert (Hmid : ∃ old, mid = chars NAT_BEGIN_MARKER ++ old).
  { assert (Hlen : (length (chars NAT_BEGIN_MARKER) <= length mid)%nat ∨ (length mid < length (chars NAT_BEGIN_MARKER))%nat) by lia.
    destruct Hlen as [Hlen|Hlen].
    - exists (drop (length (chars NAT_BEGIN_MARKER)) mid).
      assert (Htk : take (length (chars NAT_BEGIN_MARKER)) mid = chars NAT_BEGIN_MARKER).
      { apply (f_equal (take (length (chars NAT_BEGIN_MARKER)))) in H2.
        rewrite take_app_length, take_app_le in H2 by done. done. }
      rewrite <- Htk at 1. by rewrite take_drop.
    - exfalso. apply (f_equal (drop (length mid))) in H2. rewrite drop_app_length in H2.
      rewrite drop_app_le in H2 by lia.
      assert (Hm : (length mid < 16)%nat) by exact Hlen. clear Hlen. revert H2 Hm. generalize (length mid).
      intros n H2 Hm. do 16 (destruct n as [|n]; [discriminate H2|]). lia. }
  destruct Hmid as [old ->]. rewrite <- app_assoc in H2. apply app_inv_head in H2 as ->.
  exists old, after. done.
Qed.

Lemma framed_cut before block after :
  absent (chars NAT_BEGIN_MARKER) before →
  cut (chars NAT_BEGIN_MARKER) (framed before block after)
  = Some (before ++ [nl], nl :: block ++ nl :: chars NAT_END_MARKER ++ nl :: after).
Proof. intros Hb. unfold framed. apply cut_first; [done|apply nl_not_in_markers|done]. Qed.

Lemma framed_patch before block after block2 :
  absent (chars NAT_BEGIN_MARKER) before → absent (chars NAT_END_MARKER) block →
  patch_chars (framed before block after) block2
  = Some (framed (rstrip_chars before) block2 (lstrip_chars after)).
Proof.
  intros Hb He. unfold patch_chars. rewrite framed_cut by done.
  assert (Hx : absent (chars NAT_END_MARKER) (chars NAT_BEGIN_MARKER ++ nl :: block)).
  { apply absent_join; [done|apply nl_not_in_markers|by vm_compute|done]. }
  assert (Hc : cut (chars NAT_END_MARKER) (chars NAT_BEGIN_MARKER ++ nl :: block ++ nl :: chars NAT_END_MARKER ++ nl :: after)
               = Some ((chars NAT_BEGIN_MARKER ++ nl :: block) ++ [nl], nl :: after)).
  { rewrite <- (cut_first (chars NAT_END_MARKER) (chars NAT_BEGIN_MARKER ++ nl :: block) nl (nl :: after));
      [reflexivity|done|apply nl_not_in_markers|done]. }
  rewrite Hc. assert (Hr : rstrip_chars (before ++ [nl]) = rstrip_chars before).
  { unfold rstrip_chars. by rewrite rev_app_distr. }
  by rewrite Hr.
Qed.

Lemma absent_rstrip p before : absent p before → absent p (rstrip_chars before).
Proof.
  destruct (rstrip_split before) as (q & Hq & _). rewrite Hq at 1. apply absent_prefix.
Qed.

Lemma rstrip_idem l : rstrip_chars (rstrip_chars l) = rstrip_chars l.
Proof. unfold rstrip_chars. rewrite rev_involutive. f_equal. apply lstrip_solid, lstrip_head. Qed.

Lemma lstrip_idem l : lstrip_chars (lstrip_chars l) = lstrip_chars l.
Proof. apply lstrip_solid, lstrip_head. Qed.

(** Patching the NAT block installs exactly the new block between the markers and
    keeps what is around them up to blanks at the borders; the last patch wins: what an
    earlier one wrote leaves no trace. *)
Theorem patch_nat_block_last_wins t b1 t1 :
  absent (chars NAT_END_MARKER) (chars b1) → patch_nat_block t b1 = Ok t1 →
  block_of (chars t1) = Some (nl :: chars b1 ++ [nl]) ∧
  (∃ before old after, chars t = before ++ chars NAT_BEGIN_MARKER ++ old ++ chars NAT_END_MARKER ++ after ∧
     chars t1 = framed (rstrip_chars before) (chars b1) (lstrip_chars after)) ∧
  ∀ b2, patch_nat_block t1 b2 = patch_nat_block t b2.
Proof.
  unfold patch_nat_block. intros Hb1 Ht. destruct (patch_chars (chars t) (chars b1)) as [l|] eqn:Hp; [|done].
  injection Ht as <-. rewrite chars_str.
  apply patch_chars_framed in Hp as (before & old & after & Hl & Hbef & -> & Hall).
  assert (Hr : absent (chars NAT_BEGIN_MARKER) (rstrip_chars before)) by by apply absent_rstrip.
  split_and!.
  - unfold block_of. rewrite framed_cut by done.
    change (nl :: chars b1 ++ nl :: chars NAT_END_MARKER ++ nl :: lstrip_chars after)
      with ((nl :: chars b1) ++ nl :: chars NAT_END_MARKER ++ nl :: lstrip_chars after).
    rewrite cut_first; [done|done|apply nl_not_in_markers|].
    by apply (absent_join _ [] nl); [|apply nl_not_in_markers| |].
  - by exists before, old, after.
  - intros b2. by rewrite framed_patch, rstrip_idem, lstrip_idem, Hall.
Qed.

(** ** The commands *)
Section commands.
Context {E : HostEnv}.

(** Only the clock and the backups move. *)
Definition same_host (w w' : Host) : Prop :=
  h_jcfg w' = h_jcfg w ∧ h_live w' = h_live w ∧ h_secrets w' = h_secrets w.

#[export] Instance same_host_preorder : PreOrder same_host.
Proof. split; [done|]. intros w1 w2 w3 (? & ? & ?) (? & ? & ?). unfold same_host. split_and!; congruence. Qed.

Lemma host_call_same : preserves same_host host_call.
Proof. intros w. unfold host_call. by destruct (host_dies (h_tick w)), (host_fails (h_tick w)). Qed.

Lemma read_jcfg_same : preserves same_host read_jcfg.
Proof. unfold read_jcfg. pose proof host_call_same. pres. Qed.

Lemma read_jcfg_inv w t w' :
  read_jcfg w = (Ok t, w') → same_host w w' ∧ ∃ b, h_jcfg w = Some b ∧ decode b = Ok t.
Proof.
  intros Hr. pose proof (read_jcfg_same w) as Hs. rewrite Hr in Hs. split; [done|].
  unfold read_jcfg in Hr. apply bind_ok_inv in Hr as (u & w1 & Hc & Hr).
  pose proof (host_call_same w) as (Hj & _). rewrite Hc in Hj. simpl in Hj.
  apply bind_ok_inv in Hr as (j & w2 & [= <- <-] & Hr). rewrite Hj in Hr.
  destruct (h_jcfg w) as [b|]; [|done]. apply lift_ok_inv in Hr as [Hd _]. by exists b.
Qed.

(** A write either installs the text or leaves the file. *)
Lemma jcfg_write_inv new w r w' :
  jcfg_atomic_write new w = (r, w') →
  h_live w' = h_live w ∧ h_secrets w' = h_secrets w ∧
  (r = Ok tt ∧ h_jcfg w' = Some new ∨ is_ok r = false ∧ h_jcfg w' = h_jcfg w).
Proof.
  intros Hr. unfold jcfg_atomic_write in Hr.
  assert (Hback : preserves same_host (modify (λ w, mkHost (h_jcfg w) (h_secrets w) (h_backups w ++ [default EmptyString (h_jcfg w)]) (h_live w) (h_tick w)))) by done.
  apply bind_inv in Hr as [(j & w1 & [= <- <-] & Hr)|(e & [=] & _)].
  assert (Hpre : ∀ (m : M Host unit), preserves same_host m → (∀ f, (m ;; f) w = (r, w') →
    (∃ w2, same_host w w2 ∧ (f : M Host unit) w2 = (r, w')) ∨ is_ok r = false ∧ same_host w w')).
  { intros m Hm f Hf. specialize (Hm w). apply bind_inv in Hf as [(u & w2 & H1 & H2)|(e & H1 & ->)]; rewrite H1 in Hm; eauto. }
  apply Hpre in Hr; [|pose proof host_call_same; pres].
  destruct Hr as [(w2 & (Hj & Hl & Hs) & Hr)|(He & Hj & Hl & Hs)]; [|split_and!; [done..|by right]].
  assert (Hstep : ∀ w2 (f : M Host unit), same_host w w2 → (host_call ;; f) w2 = (r, w') →
    (∃ w3, same_host w w3 ∧ f w3 = (r, w')) ∨ is_ok r = false ∧ same_host w w').
  { intros w3 f Hw3 Hf. pose proof (host_call_same w3) as Hc.
    apply bind_inv in Hf as [(u & w4 & H1 & H2)|(e & H1 & ->)]; rewrite H1 in Hc; simpl in Hc; [left|right; split; [done|by etrans]].
    exists w4. split; [by etrans|done]. }
  apply Hstep in Hr as [(w3 & Hw3 & Hr)|(He & ? & ? & ?)]; [| |done]; [|split_and!; [done..|by right]].
  apply Hstep in Hr as [(w4 & (? & ? & ?) & Hr)|(He & ? & ? & ?)]; [| |done]; [|split_and!; [done..|by right]].
  injection Hr as <- <-. simpl. split_and!; [congruence..|by left].
Qed.

(** What the lock hands over: the file as other writers left it. *)
Definition handed (w w' : Host) : Prop :=
  (∃ n, h_jcfg w' = other_writers n (h_jcfg w)) ∧ h_live w' = h_live w ∧ h_secrets w' = h_secrets w.

Definition untouched (w w' : Host) : Prop := same_host w w' ∨ handed w w'.

Lemma jcfg_lock_inv {A} (m : M Host A) w r w' :
  jcfg_lock m w = (r, w') → (∃ w1, handed w w1 ∧ m w1 = (r, w')) ∨ (is_ok r = false ∧ same_host w w').
Proof.
  intros Hr. unfold jcfg_lock in Hr.
  assert (Hc : ∀ w1, same_host w1 (host_call w1).2) by apply host_call_same.
  apply bind_inv in Hr as [(u & w1 & H1 & Hr)|(e & H1 & ->)]; pose proof (Hc w) as Hs1; rewrite H1 in Hs1; simpl in Hs1; [|by right].
  apply bind_inv in Hr as [(u2 & w2 & H2 & Hr)|(e & H2 & ->)]; pose proof (Hc w1) as Hs2; rewrite H2 in Hs2; simpl in Hs2;
    [|right; split; [done|by etrans]].
  apply bind_inv in Hr as [(held & w3 & [= <- <-] & Hr)|(e & [=] & _)].
  apply bind_inv in Hr as [(u3 & w3 & H3 & Hr)|(e & H3 & ->)]; pose proof (Hc w2) as Hs3; rewrite H3 in Hs3; simpl in Hs3.
  2:{ right. split; [done|]. by do 2 (etrans; [done|]). }
  assert (Hw3 : same_host w w3) by (by do 2 (etrans; [done|])).
  destruct (lock_held (h_tick w2)); [injection Hr as <- <-; right; by split|].
  apply bind_inv in Hr as [(u4 & w4 & [= _ <-] & Hr)|(e & [=] & _)]. left. eexists. split; [|exact Hr].
  destruct Hw3 as (Hj & Hl & Hsec). split; [|by split]. exists (h_tick w3). simpl. by rewrite Hj.
Qed.

(** The file holds what patching the text handed over gives. *)
Definition nat_patched (cfg : dict json) (w w' : Host) : Prop :=
  ∃ n b t blk new, other_writers n (h_jcfg w) = Some b ∧ decode b = Ok t ∧ render_nat_block cfg = Ok blk ∧
    patch_nat_block t blk = Ok new ∧ h_jcfg w' = Some new.

Lemma nat_locked_inv cfg w r w' :
  nat_config_locked cfg true w = (r, w') →
  h_live w' = h_live w ∧ h_secrets w' = h_secrets w ∧
  ((r = Ok 0 ∧ ∃ b t blk new, h_jcfg w = Some b ∧ decode b = Ok t ∧ render_nat_block cfg = Ok blk ∧
      patch_nat_block t blk = Ok new ∧ h_jcfg w' = Some new) ∨
   ((r = Ok 3 ∨ is_ok r = false) ∧ h_jcfg w' = h_jcfg w)).
Proof.
  intros Hr. unfold nat_config_locked in Hr. apply bind_inv in Hr as [(j & w1 & [= <- <-] & Hr)|(e & [=] & _)].
  destruct (h_jcfg w) as [b|] eqn:Hj; [|injection Hr as <- <-; rewrite Hj; auto 10].
  apply bind_inv in Hr as [(t & w1 & Ht & Hr)|(e & Ht & ->)].
  2:{ pose proof (read_jcfg_same w) as (H1 & H2 & H3). rewrite Ht in H1, H2, H3. simpl in *. rewrite H1, Hj. auto 10. }
  apply read_jcfg_inv in Ht as [(H1 & H2 & H3) (b' & Hb & Hd)]. rewrite Hj in Hb. injection Hb as <-.
  unfold lift in Hr. apply bind_inv in Hr as [(blk & w2 & [= Hblk <-] & Hr)|(e & [= _ <-] & ->)]; [|rewrite H1, Hj; auto 10].
  destruct (patch_nat_block t blk) as [new|] eqn:Hp; [|injection Hr as <- <-; rewrite H1, Hj; auto 10].
  apply bind_inv in Hr as [(u & w2 & Hw & [= <- <-])|(e & Hw & ->)]; apply jcfg_write_inv in Hw as (H4 & H5 & H6);
    rewrite H4, H5; destruct H6 as [[? H6]|[? H6]]; try done; rewrite H6; split_and!; try done.
  - left. split; [done|]. exists b, t, blk, new. done.
  - right. split; [by right|]. congruence.
Qed.

(** The handlers of the command and of [main] around the locked part. *)
Lemma admin_handlers (m : M Host Z) w r w' :
  try_except (try_except m CTimeout (λ _, mret 2)) CException (λ _, mret 5) w = (r, w') →
  ∃ r0, m w = (r0, w') ∧
    ((is_ok r0 = true ∧ r = r0) ∨ (is_ok r0 = false ∧ (is_ok r = false ∨ ∃ c, r = Ok c ∧ c ∈ [2; 3; 5]))).
Proof.
  unfold try_except. destruct (m w) as [[c|e] w0] eqn:Hm; [intros [= <- <-]; exists (Ok c); auto|].
  assert (H2 : 2 ∈ [2; 3; 5]) by set_solver. assert (H5 : 5 ∈ [2; 3; 5]) by set_solver.
  destruct (instance_of (ex_kind e) CTimeout); [|destruct (instance_of (ex_kind e) CException)]; intros [= <- <-];
    exists (Raise e); (split; [done|]); right; eauto.
Qed.

(** [janus-admin nat-config --no-restart] *)
Lemma nat_config_spec cfg w r w' :
  janus_admin (AdminNatConfig true (TxDoc (JObj cfg))) w = (r, w') →
  h_live w' = h_live w ∧
  ((r = Ok 0 ∧ nat_patched cfg w w') ∨
   ((is_ok r = false ∨ ∃ c, r = Ok c ∧ c ∈ [2; 3; 5]) ∧ untouched w w')).
Proof.
  intros Hr. apply admin_handlers in Hr as (r0 & Hl & Hr0).
  assert (Hw : h_live w' = h_live w ∧ ((r0 = Ok 0 ∧ nat_patched cfg w w') ∨ ((r0 = Ok 3 ∨ is_ok r0 = false) ∧ untouched w w'))).
  { apply jcfg_lock_inv in Hl as [(w1 & ((n & Hn) & Hlv & Hsec) & Hm)|(He & Hs)].
    - apply nat_locked_inv in Hm as (H1 & H2 & H3). split; [congruence|].
      destruct H3 as [[-> (b & t & blk & new & Hb & Ht & Hblk & Hnew & Hj)]|[He Hj]].
      + left. split; [done|]. exists n, b, t, blk, new. split_and!; [by rewrite <- Hn|done..].
      + right. split; [done|]. right. split; [exists n; congruence|split; congruence].
    - split; [apply Hs|]. right. split; [by right|by left]. }
  destruct Hw as [Hlv Hw]. split; [done|]. destruct Hr0 as [[Hok ->]|[Hno Hr]].
  - destruct Hw as [?|[[->|?] Hu]]; [by left| |congruence]. right. split; [right; exists 3; split; [done|set_solver]|done].
  - destruct Hw as [[-> _]|[_ Hu]]; [done|]. by right.
Qed.

Lemma restart_inv w r w' :
  restart_janus_service w = (r, w') →
  h_jcfg w' = h_jcfg w ∧ (r = Ok true → h_live w' = h_jcfg w').
Proof.
  unfold restart_janus_service. destruct (host_dies (h_tick w)); [by intros [= <- <-]|].
  destruct (systemctl (h_tick w)) as [| |[]|]; by intros [= <- <-].
Qed.

(** [janus-admin restart] *)
Lemma admin_restart_spec w r w' :
  janus_admin AdminRestart w = (r, w') →
  (h_jcfg w' = h_jcfg w ∨ ∃ n, h_jcfg w' = other_writers n (h_jcfg w)) ∧
  (r = Ok 0 → h_live w' = h_jcfg w').
Proof.
  intros Hr. apply admin_handlers in Hr as (r0 & Hl & Hr0).
  assert (Hw : (h_jcfg w' = h_jcfg w ∨ ∃ n, h_jcfg w' = other_writers n (h_jcfg w)) ∧ (r0 = Ok 0 → h_live w' = h_jcfg w')).
  { apply jcfg_lock_inv in Hl as [(w1 & ((n & Hn) & _ & _) & Hm)|(He & Hj & _)]; [|split; [by left|by intros ->]].
    apply bind_inv in Hm as [(ok & w2 & Hm & [= <- <-])|(e & Hm & ->)]; apply restart_inv in Hm as [H1 H2].
    - split; [right; exists n; congruence|]. destruct ok; [|done]. intros _. by apply H2.
    - split; [right; exists n; congruence|done]. }
  destruct Hw as [Hw Hl0]. split; [done|]. intros ->. destruct Hr0 as [[_ <-]|[_ [?|(c & [= <-] & Hc)]]]; [by apply Hl0|done|].
  set_solver.
Qed.
End commands.

(** ** Credentials *)

(** [key = "v"] with any blanks. *)
Definition assign (key sp1 sp2 v : list ascii) : list ascii :=
  key ++ sp1 ++ "="%char :: sp2 ++ quote2 :: v ++ [quote2].

Definition spaces (l : list ascii) : Prop := Forall (λ c, is_py_space c = true) l.

Lemma until_quote_app cur v rest :
  quote2 ∉ v → until_quote cur (v ++ quote2 :: rest) = Some (rev cur ++ v, rest).
Proof.
  revert cur. induction v as [|c v IH]; intros cur Hv; simpl.
  - by rewrite app_nil_r.
  - apply not_elem_of_cons in Hv as [Hc Hv]. destruct (Ascii.eqb c quote2) eqn:He; [apply Ascii.eqb_eq in He; congruence|].
    rewrite IH by done. simpl. by rewrite <- app_assoc.
Qed.

Lemma match_here_assign key sp1 sp2 v rest :
  spaces sp1 → spaces sp2 → quote2 ∉ v → match_here key (assign key sp1 sp2 v ++ rest) = Some (v, rest).
Proof.
  intros H1 H2 Hv. unfold match_here, assign.
  assert (Hp : is_prefix key ((key ++ sp1 ++ "="%char :: sp2 ++ quote2 :: v ++ [quote2]) ++ rest) = true).
  { apply is_prefix_spec. eexists. by rewrite <- app_assoc. }
  rewrite Hp, <- app_assoc, drop_app_length, <- app_assoc, lstrip_spaces by done. simpl.
  rewrite <- app_assoc, lstrip_spaces by done. simpl. rewrite <- app_assoc. simpl. by rewrite until_quote_app.
Qed.

Section pattern.
(** The first character of the key does not occur in it again. *)
Context (c0 : ascii) (k' : list ascii) (head_once : c0 ∉ k').
#[local] Abbreviation key := (c0 :: k').

Lemma is_prefix_cross x d y : d ∉ k' → x ≠ [] → is_prefix key (x ++ d :: y) = true → is_prefix key x = true.
Proof.
  intros Hd Hne. destruct x as [|e x]; [done|]. simpl. intros [-> Hp]%andb_true_iff. by apply (is_prefix_stop k' x d y).
Qed.

Lemma absent_cross x d y : d ∉ k' → absent key x → absent key (d :: y) → absent key (x ++ d :: y).
Proof.
  intros Hd Hx Hy. induction x as [|e x IH]; [done|]. apply absent_cons in Hx as [Hp Hx].
  simpl app. apply absent_cons. split; [|by apply IH].
  destruct (is_prefix key (e :: x ++ d :: y)) eqn:H; [|done].
  apply (is_prefix_cross (e :: x) d y Hd) in H; [congruence|done].
Qed.

Lemma match_here_none l : is_prefix key l = false → match_here key l = None.
Proof. unfold match_here. by intros ->. Qed.

Lemma sub_go_none repl c l : is_prefix key (c :: l) = false → sub_go key repl 0 (c :: l) = c :: sub_go key repl 0 l.
Proof. intros H. cbn [sub_go]. by rewrite match_here_none. Qed.

Lemma search_none c l : is_prefix key (c :: l) = false → search key (c :: l) = search key l.
Proof. intros H. cbn [search]. by rewrite match_here_none. Qed.

(** No occurrence starts before the first assignment. *)
Lemma no_start c pre l : is_prefix key (c :: pre) = false → is_prefix key (c :: pre ++ key ++ l) = false.
Proof.
  intros Hp. destruct (is_prefix key (c :: pre ++ key ++ l)) eqn:H; [|done].
  apply (is_prefix_cross (c :: pre) c0 _ head_once) in H; [congruence|done].
Qed.

Lemma sub_go_skip repl n l : sub_go key repl n l = sub_go key repl 0 (drop n l).
Proof. revert l. induction n as [|n IH]; intros [|c l]; [done..|]. simpl sub_go at 1. apply IH. Qed.

Lemma sub_go_absent repl l : absent key l → sub_go key repl 0 l = l.
Proof.
  induction l as [|c l IH]; [done|]. intros [Hp Hl]%absent_cons. by rewrite sub_go_none, IH.
Qed.

(** The first assignment is the one that is found and replaced. *)
Lemma sub_go_assign repl pre sp1 sp2 v rest :
  absent key pre → spaces sp1 → spaces sp2 → quote2 ∉ v →
  sub_go key repl 0 (pre ++ assign key sp1 sp2 v ++ rest) = pre ++ repl ++ sub_go key repl 0 rest.
Proof.
  intros Hpre H1 H2 Hv. induction pre as [|c pre IH].
  - simpl app. pose proof (match_here_assign key sp1 sp2 v rest H1 H2 Hv) as Hm.
    unfold assign in *. simpl app in *. simpl sub_go. rewrite Hm. f_equal. rewrite sub_go_skip. f_equal.
    set (l := k' ++ sp1 ++ "="%char :: sp2 ++ quote2 :: v ++ [quote2]).
    rewrite length_app. replace (length l + length rest - length rest)%nat with (length l) by lia.
    apply drop_app_length.
  - apply absent_cons in Hpre as [Hp Hpre]. cbn [app]. rewrite sub_go_none; [by rewrite IH|].
    unfold assign. rewrite <- (app_assoc key). by apply no_start.
Qed.

Lemma search_assign pre sp1 sp2 v rest :
  absent key pre → spaces sp1 → spaces sp2 → quote2 ∉ v →
  search key (pre ++ assign key sp1 sp2 v ++ rest) = Some v.
Proof.
  intros Hpre H1 H2 Hv. induction pre as [|c pre IH].
  - simpl app. pose proof (match_here_assign key sp1 sp2 v rest H1 H2 Hv) as Hm.
    unfold assign in *. simpl app in *. simpl search. by rewrite Hm.
  - apply absent_cons in Hpre as [Hp Hpre]. cbn [app]. rewrite search_none; [by apply IH|].
    unfold assign. rewrite <- (app_assoc key). by apply no_start.
Qed.
End pattern.

(** A text with one assignment of either key. *)
Record cred_text := mkCredText {
  ct_pre : list ascii; ct_mid : list ascii; ct_post : list ascii;
  ct_sp1 : list ascii; ct_sp2 : list ascii; ct_sp3 : list ascii; ct_sp4 : list ascii;
}.

Definition cred_chars (x : cred_text) (u p : list ascii) : list ascii :=
  ct_pre x ++ assign TURN_USER_KEY (ct_sp1 x) (ct_sp2 x) u
  ++ ct_mid x ++ assign TURN_PWD_KEY (ct_sp3 x) (ct_sp4 x) p ++ ct_post x.

(** Neither key occurs in the value [v]. *)
Definition cred_value (v : list ascii) : Prop :=
  (quote2 ∉ v) ∧ absent TURN_USER_KEY v ∧ absent TURN_PWD_KEY v.

Definition cred_ok (x : cred_text) : Prop :=
  spaces (ct_sp1 x) ∧ spaces (ct_sp2 x) ∧ spaces (ct_sp3 x) ∧ spaces (ct_sp4 x) ∧
  Forall (λ l, absent TURN_USER_KEY l ∧ absent TURN_PWD_KEY l) [ct_pre x; ct_mid x; ct_post x].

Lemma user_once : ("t"%char ∉ chars "urn_user") ∧ (quote2 ∉ TURN_USER_KEY).
Proof. split; intros H%list_elem_of_In; vm_compute in H; repeat (destruct H as [H|H]; [discriminate H|]); exact H. Qed.
Lemma pwd_once : ("t"%char ∉ chars "urn_pwd") ∧ (quote2 ∉ TURN_PWD_KEY).
Proof. split; intros H%list_elem_of_In; vm_compute in H; repeat (destruct H as [H|H]; [discriminate H|]); exact H. Qed.

Lemma absent_sep p x s y :
  s ≠ [] → p ≠ [] → Forall (λ c, c ∉ p) s → absent p x → absent p y → absent p (x ++ s ++ y).
Proof.
  intros Hs Hp Hf Hx Hy. destruct Hf as [|c s Hc Hf]; [done|]. simpl. apply absent_join; [done..|].
  clear Hs. induction Hf as [|d s Hd _ IH]; [done|]. apply (absent_join p [] d); [done..|by destruct p|done].
Qed.

(** Keys hold no blank, no equals sign and no quote. *)
Definition key_plain (key : list ascii) : Prop :=
  key ≠ [] ∧ forallb (fun c => negb (is_py_space c || Ascii.eqb c "=" || Ascii.eqb c quote2)) key = true.

Lemma keys_plain : key_plain TURN_USER_KEY ∧ key_plain TURN_PWD_KEY.
Proof. by split. Qed.

Lemma plain_foreign key c :
  key_plain key → is_py_space c = true ∨ c = "="%char ∨ c = quote2 → c ∉ key.
Proof.
  intros [_ Hk] Hc Hin%list_elem_of_In. rewrite forallb_forall in Hk. specialize (Hk c Hin).
  apply negb_true_iff, orb_false_iff in Hk as [[H1 H2]%orb_false_iff H3].
  destruct Hc as [Hc|[->| ->]]; [congruence|by rewrite Ascii.eqb_refl in H2|by rewrite Ascii.eqb_refl in H3].
Qed.

Lemma absent_assign key key' sp1 sp2 v y :
  key_plain key → spaces sp1 → spaces sp2 → absent key key' → absent key v → absent key y →
  absent key (assign key' sp1 sp2 v ++ y).
Proof.
  intros Hk H1 H2 Hk' Hv Hy. unfold assign.
  replace ((key' ++ sp1 ++ "="%char :: sp2 ++ quote2 :: v ++ [quote2]) ++ y)
    with (key' ++ (sp1 ++ "="%char :: sp2 ++ [quote2]) ++ v ++ [quote2] ++ y)
    by (repeat (rewrite <- ?app_assoc; cbn [app]); done).
  assert (Hf : ∀ sp, spaces sp → Forall (λ c, c ∉ key) sp).
  { intros sp Hsp. eapply Forall_impl; [exact Hsp|]. intros c Hc. apply plain_foreign; auto. }
  assert (Hq : Forall (λ c, c ∉ key) [quote2]) by (constructor; [apply plain_foreign; auto|constructor]).
  assert (He : "="%char ∉ key) by (apply plain_foreign; auto).
  destruct Hk as [Hne Hpl]. apply absent_sep; [by destruct sp1|done| |done|by apply absent_sep].
  apply Forall_app. split; [by apply Hf|]. constructor; [done|].
  apply Forall_app. split; [by apply Hf|done].
Qed.

Lemma absent_around c0 k' k2 pre sp1 sp2 v post :
  let key := c0 :: k' in
  c0 ∉ k' → key_plain key → spaces sp1 → spaces sp2 → absent key (c0 :: k2) → absent key v →
  absent key pre → absent key post → absent key (pre ++ assign (c0 :: k2) sp1 sp2 v ++ post).
Proof.
  intros key Hc Hk H1 H2 Hk2 Hv Hpre Hpost.
  apply (absent_cross c0 k' pre c0 _ Hc Hpre). by apply (absent_assign key (c0 :: k2)).
Qed.

Lemma key_no_other : absent TURN_USER_KEY TURN_PWD_KEY ∧ absent TURN_PWD_KEY TURN_USER_KEY.
Proof. by vm_compute. Qed.

(** The blanks the rotator writes. *)
Definition rotated_text (x : cred_text) : cred_text :=
  mkCredText (ct_pre x) (ct_mid x) (ct_post x) (chars "   ") (chars " ") (chars "    ") (chars " ").

Lemma rotated_ok x : cred_ok x → cred_ok (rotated_text x).
Proof. intros (_ & _ & _ & _ & H). unfold cred_ok. split_and!; [repeat constructor..|done]. Qed.

Lemma patch_cred x u p u' p' :
  cred_ok x → cred_value u → cred_value p → cred_value (chars u') → cred_value (chars p') →
  patch_jcfg (str (cred_chars x u p)) u' p' = str (cred_chars (rotated_text x) (chars u') (chars p')).
Proof.
  intros (H1 & H2 & H3 & H4 & Hall) (Hu & Huu & Hup) (Hp & Hpu & Hpp) (Hu' & Huu' & Hup') (Hp' & _).
  apply Forall_cons in Hall as [[Ha1 Ha2] Hall]. apply Forall_cons in Hall as [[Hb1 Hb2] Hall].
  apply Forall_cons in Hall as [[Hc1 Hc2] _]. destruct key_no_other as [Hk1 Hk2]. destruct keys_plain as [Hkp1 Hkp2].
  unfold patch_jcfg. rewrite chars_str. f_equal. unfold cred_chars.
  set (ru := chars ("turn_user   = " ++ dquoted u')%string). set (rp := chars ("turn_pwd    = " ++ dquoted p')%string).
  assert (Hru : ru = assign TURN_USER_KEY (chars "   ") (chars " ") (chars u')).
  { unfold ru, dquoted. rewrite chars_app. change (chars (String quote2 (u' ++ String quote2 EmptyString)%string))
      with (quote2 :: chars (u' ++ String quote2 EmptyString)%string). by rewrite chars_app. }
  assert (Hrp : rp = assign TURN_PWD_KEY (chars "    ") (chars " ") (chars p')).
  { unfold rp, dquoted. rewrite chars_app. change (chars (String quote2 (p' ++ String quote2 EmptyString)%string))
      with (quote2 :: chars (p' ++ String quote2 EmptyString)%string). by rewrite chars_app. }
  rewrite (sub_go_assign "t" (chars "urn_user") (proj1 user_once)) by done.
  assert (HA : absent TURN_USER_KEY (ct_mid x ++ assign TURN_PWD_KEY (ct_sp3 x) (ct_sp4 x) p ++ ct_post x)).
  { apply (absent_around "t" _ (chars "urn_pwd")); [apply user_once|done..]. }
  rewrite (sub_go_absent "t" (chars "urn_user")) by exact HA.
  assert (HB : absent TURN_PWD_KEY (ct_pre x ++ ru ++ ct_mid x)).
  { rewrite Hru. apply (absent_around "t" _ (chars "urn_user")); [apply pwd_once|done|repeat constructor..|done|done|done|done]. }
  rewrite (app_assoc ru), (app_assoc (ct_pre x)).
  rewrite (sub_go_assign "t" (chars "urn_pwd") (proj1 pwd_once)) by done.
  rewrite (sub_go_absent "t" (chars "urn_pwd")) by done.
  rewrite Hrp, Hru. by rewrite <- !app_assoc.
Qed.

Lemma parse_cred x u p :
  cred_ok x → cred_value u → cred_value p →
  ∃ expiry, parse_current_creds (str (cred_chars x u p)) = Some (str u, str p, expiry).
Proof.
  intros (H1 & H2 & H3 & H4 & Hall) (Hu & Huu & Hup) (Hp & Hpu & Hpp).
  apply Forall_cons in Hall as [[Ha1 Ha2] Hall]. apply Forall_cons in Hall as [[Hb1 Hb2] _].
  destruct key_no_other as [Hk1 Hk2]. destruct keys_plain as [Hkp1 Hkp2].
  unfold parse_current_creds. rewrite chars_str.
  assert (Hsu : search TURN_USER_KEY (cred_chars x u p) = Some u).
  { unfold cred_chars. by apply (search_assign "t" (chars "urn_user") (proj1 user_once)). }
  assert (Hsp : search TURN_PWD_KEY (cred_chars x u p) = Some p).
  { unfold cred_chars. rewrite (app_assoc (assign _ _ _ u)), (app_assoc (ct_pre x)).
    apply (search_assign "t" (chars "urn_pwd") (proj1 pwd_once)); [|done..].
    apply (absent_around "t" _ (chars "urn_user")); [apply pwd_once|done..]. }
  rewrite Hsu, Hsp. by eexists.
Qed.

(** In a text that assigns each of the two keys once, a rotation replaces exactly the
    two values, which are then the ones that are found, and the last rotation wins. *)
Theorem rotation_installs x u p u' p' :
  cred_ok x → cred_value u → cred_value p → cred_value (chars u') → cred_value (chars p') →
  let t := str (cred_chars x u p) in
  patch_jcfg t u' p' = str (cred_chars (rotated_text x) (chars u') (chars p')) ∧
  (∃ expiry, parse_current_creds (patch_jcfg t u' p') = Some (u', p', expiry)) ∧
  ∀ u2 p2, cred_value (chars u2) → cred_value (chars p2) →
    patch_jcfg (patch_jcfg t u' p') u2 p2 = patch_jcfg t u2 p2.
Proof.
  intros Hx Hu Hp Hu' Hp' t. assert (Ht : patch_jcfg t u' p' = str (cred_chars (rotated_text x) (chars u') (chars p')))
    by by apply patch_cred.
  assert (Hr : cred_ok (rotated_text x)) by by apply rotated_ok. rewrite Ht. split_and!; [done| |].
  - destruct (parse_cred _ _ _ Hr Hu' Hp') as [expiry He]. exists expiry. by rewrite He, !str_chars.
  - intros u2 p2 Hu2 Hp2. unfold t. by rewrite !patch_cred.
Qed.

Section rotator.
Context {E : HostEnv}.

Lemma unix_now_same : preserves same_host unix_now.
Proof. by intros w. Qed.

Lemma generate_same secret ttl username : preserves same_host (generate_credentials secret ttl username).
Proof. unfold generate_credentials. pose proof unix_now_same. pres. Qed.

Lemma load_secret_same : preserves same_host load_shared_secret.
Proof. unfold load_shared_secret. pose proof host_call_same. pres. Qed.

(** The new credentials are made from the shared secret and the time. *)
Definition made_from (secret username : string) (ttl_days : Z) (user pwd : string) : Prop :=
  ∃ now, user = (pretty (now + ttl_days * 86400) ++ ":" ++ username)%string ∧ pwd = hmac_sha1_b64 secret user.

Lemma rotate_locked_inv secret a w r w' :
  rotate_locked secret a w = (r, w') →
  (same_host w w' ∧ r ≠ Ok 0) ∨
  ∃ b t user pwd, h_jcfg w = Some b ∧ decode b = Ok t ∧ made_from secret (ra_username a) (ra_ttl_days a) user pwd ∧
    h_jcfg w' = Some (patch_jcfg t user pwd) ∧ (r = Ok 0 → ra_restart a = true → h_live w' = h_jcfg w').
Proof.
  intros Hr. unfold rotate_locked in Hr.
  apply bind_inv in Hr as [(t & w1 & Ht & Hr)|(e & Ht & ->)].
  2:{ left. pose proof (read_jcfg_same w) as Hs. split; [by rewrite Ht in Hs|done]. }
  apply read_jcfg_inv in Ht as [Hs1 (b & Hb & Hd)].
  apply bind_inv in Hr as [([[user pwd] expiry] & w2 & Hg & Hr)|(e & Hg & ->)];
    pose proof (generate_same secret (ra_ttl_days a) (ra_username a) w1) as Hs2; rewrite Hg in Hs2; simpl in Hs2.
  2:{ left. split; [by etrans|done]. }
  assert (Hs : same_host w w2) by by etrans.
  assert (Hmade : made_from secret (ra_username a) (ra_ttl_days a) user pwd).
  { unfold generate_credentials in Hg. apply bind_inv in Hg as [(now & w3 & [= <- <-] & [= <- <- _ _])|(e & [=] & _)].
    by eexists. }
  destruct (String.eqb _ _); [injection Hr as <- <-; left; by split|].
  apply bind_inv in Hr as [(u & w3 & Hw & Hr)|(e & Hw & ->)]; apply jcfg_write_inv in Hw as (Hl & Hsec & Hj).
  2:{ left. destruct Hs as (? & ? & ?). destruct Hj as [[[=] _]|[_ Hj]]. split; [|done]. unfold same_host. split_and!; congruence. }
  destruct Hj as [[_ Hj]|[[=] _]]. right. exists b, t, user, pwd.
  destruct (ra_restart a).
  - apply bind_inv in Hr as [(ok & w4 & Hre & [= <- <-])|(e & Hre & ->)]; apply restart_inv in Hre as [H1 H2];
      rewrite H1; split_and!; try done. destruct ok; [|done]. intros _ _. rewrite <- H1. by apply H2.
  - injection Hr as <- <-. by split_and!.
Qed.

(** What the first look found, and why it found nothing to do. *)
Lemma first_look w jcfg w1 :
  try_except (t ← read_jcfg; mret (Some t)) COSError (λ _, mret None) w = (Ok (Some jcfg), w1) →
  ∃ b, h_jcfg w = Some b ∧ decode b = Ok jcfg.
Proof.
  unfold try_except. destruct ((t ← read_jcfg; mret (Some t)) w) as [[o|e] w2] eqn:Hr.
  - intros [= -> _]. apply bind_ok_inv in Hr as (t & w3 & Ht & [[= ->] _]%ret_ok_inv).
    by apply read_jcfg_inv in Ht as [_ ?].
  - destruct (instance_of _ _); by intros [=].
Qed.

Lemma needs_none a expiry w w1 :
  (if ra_force a then mret true else should_rotate expiry (ra_before_days a)) w = (Ok false, w1) →
  ra_force a = false ∧ ∃ k, expiry ≠ 0 ∧ unix_time k + ra_before_days a * 86400 < expiry.
Proof.
  destruct (ra_force a); [by intros [=]|]. intros Hr. split; [done|]. unfold should_rotate in Hr.
  destruct (Z.eqb_spec expiry 0) as [|Hne]; [by injection Hr|].
  apply bind_ok_inv in Hr as (now & w2 & [= <- <-] & [Hle _]%ret_ok_inv).
  symmetry in Hle. apply Z.leb_gt in Hle. eauto.
Qed.

(** The credentials on file are good for longer than the asked number of days. *)
Definition not_due (a : rotate_args) (w : Host) : Prop :=
  ∃ b t k, h_jcfg w = Some b ∧ decode b = Ok t ∧ expiry_of t ≠ 0 ∧
           unix_time k + ra_before_days a * 86400 < expiry_of t.

(** C33. Rotating the TURN credentials works on the file as it is once the lock is held: it
    replaces that text by its patch with credentials made from the shared secret on file, so
    what other writers changed since the first look is not lost, and on success with a
    restart Janus runs with the patched file; or it leaves the file as the others do, and
    then it reports success only for a check, a dry run, or credentials that are not due. *)
Theorem rotation_loses_no_update a w r w' :
  turn_rotate a w = (r, w') →
  (untouched w w' ∧
   (r = Ok 0 → ra_check_only a = true ∨ ra_dry_run a = true ∨ (ra_force a = false ∧ not_due a w))) ∨
  ra_check_only a = false ∧ ra_dry_run a = false ∧
  ∃ n b t secret user pwd, other_writers n (h_jcfg w) = Some b ∧ decode b = Ok t ∧
    (load_shared_secret w).1 = Ok (Some secret) ∧
    made_from secret (ra_username a) (ra_ttl_days a) user pwd ∧
    h_jcfg w' = Some (patch_jcfg t user pwd) ∧ (r = Ok 0 → ra_restart a = true → h_live w' = h_jcfg w').
Proof.
  intros Hr. unfold turn_rotate in Hr.
  assert (Hsame : ∀ {A} (m : M Host A) w1 x w2, preserves same_host m → same_host w w1 → m w1 = (x, w2) → same_host w w2).
  { intros A m w1 x w2 Hm Hw1 Hx. specialize (Hm w1). rewrite Hx in Hm. by etrans. }
  apply bind_inv in Hr as [(secret & w1 & Hs & Hr)|(e & Hs & ->)]; pose proof Hs as Hsecret; apply Hsame in Hs; try done;
    try apply load_secret_same; [|by left; split; [left|]].
  destruct secret as [secret|]; [|injection Hr as <- <-; by left; split; [left|]].
  assert (Hread : preserves same_host (try_except (t ← read_jcfg; mret (Some t)) COSError (λ _, mret None))).
  { pose proof read_jcfg_same. pres. }
  apply bind_inv in Hr as [(jcfg & w2 & Hj & Hr)|(e & Hj & ->)]; pose proof Hj as Hlook; apply Hsame in Hj; try done;
    [|by left; split; [left|]].
  destruct jcfg as [jcfg|]; [|injection Hr as <- <-; by left; split; [left|]].
  apply first_look in Hlook as (b0 & Hb0 & Hd0). rewrite (proj1 Hs) in Hb0.
  assert (Hlog : preserves same_host (if expiry_of jcfg =? 0 then mret tt else unix_now ;; mret tt)).
  { pose proof unix_now_same. pres. }
  apply bind_inv in Hr as [(u & w3 & Hu & Hr)|(e & Hu & ->)]; apply Hsame in Hu; try done; [|by left; split; [left|]].
  assert (Hneed : preserves same_host (if ra_force a then mret true else should_rotate (expiry_of jcfg) (ra_before_days a))).
  { unfold should_rotate. pose proof unix_now_same. pres. }
  apply bind_inv in Hr as [(needs & w4 & Hn & Hr)|(e & Hn & ->)]; pose proof Hn as Hdue; apply Hsame in Hn; try done;
    [|by left; split; [left|]].
  destruct (ra_check_only a); [injection Hr as <- <-; left; split; [by left|auto]|].
  destruct needs; simpl in Hr.
  2:{ injection Hr as <- <-. left. split; [by left|]. intros _. right. right.
      by apply needs_none in Hdue as (Hf & k & He & Hk); split; [|exists b0, jcfg, k]. }
  destruct (ra_dry_run a).
  { pose proof (generate_same secret (ra_ttl_days a) (ra_username a)) as Hg.
    apply Hsame in Hr; [left; split; [by left|auto]|pres|done]. }
  assert (Hl : ∃ r0, jcfg_lock (rotate_locked secret a) w4 = (r0, w') ∧ (r = Ok 0 → r0 = Ok 0)).
  { unfold try_except in Hr. destruct (jcfg_lock (rotate_locked secret a) w4) as [[c|e] w5].
    - injection Hr as <- <-. by eexists.
    - destruct (instance_of _ _); injection Hr as <- <-; eexists; (split; [done|done]). }
  destruct Hl as (r0 & Hl & Hr0). destruct Hn as (Hj1 & Hl1 & Hs1).
  apply jcfg_lock_inv in Hl as [(w5 & ((n & Hoth) & Hl5 & Hs5) & Hm)|(Hraise & Hs4)].
  2:{ left. split; [left|by intros ->%Hr0]. destruct Hs4 as (? & ? & ?). unfold same_host. split_and!; congruence. }
  apply rotate_locked_inv in Hm as [[(H1 & H2 & H3) Hno]|(b & t & user & pwd & Hb & Hd & Hm & H1 & H2)].
  { left. split; [right|by intros ?%Hr0]. unfold handed. split; [exists n; congruence|split; congruence]. }
  right. split; [done|]. split; [done|]. exists n, b, t, secret, user, pwd.
  split_and!; [congruence|done|by rewrite Hsecret|done..|]. intros Hr1 Hra. by apply H2; [apply Hr0|].
Qed.
End rotator.

(** ** Concrete runs *)
Definition sample_jcfg : string := join newline
  ["general: {"; "  debug_level = 1"; "}"; EmptyString; "# BEGIN NAT AUTO"; "nat: {"; "  ice_tcp = true"; "}";
   "# END NAT AUTO"; EmptyString; "media: {"; "}"]%string.

Definition sample_nat : dict json :=
  [("turn_server", JStr "turn.example"); ("turn_user", JStr "webrtc"); ("turn_pwd", JStr "static");
   ("nat_1_1_mapping", JStr "203.0.113.9"); ("ice_enforce_list", JStr EmptyString);
   ("ice_ignore_list", JArr [JStr "docker"; JStr "lo"])]%string.

Definition sample_block : string := match render_nat_block sample_nat with Ok b => b | Raise _ => EmptyString end.
Definition sample_patched : string := match patch_nat_block sample_jcfg sample_block with Ok t => t | Raise _ => EmptyString end.

Lemma patch_nat_block_last_wins_witness :
  patch_nat_block sample_jcfg sample_block = Ok sample_patched ∧
  patch_nat_block sample_patched "nat: { }" = patch_nat_block sample_jcfg "nat: { }".
Proof.
  assert (Hp : patch_nat_block sample_jcfg sample_block = Ok sample_patched) by (vm_compute; reflexivity).
  split; [exact Hp|]. destruct (patch_nat_block_last_wins sample_jcfg sample_block sample_patched) as (_ & _ & Hlast);
    [vm_compute; reflexivity|exact Hp|]. apply Hlast.
Defined.

Definition cred_lines : cred_text :=
  mkCredText (chars "nat: { ") (chars (newline ++ "  ")) (chars (newline ++ "}")) [] (chars " ") (chars "  ") [].

Lemma rotation_installs_witness :
  let t := str (cred_chars cred_lines (chars "1700000000:webrtc") (chars "b2xk")) in
  t = ("nat: { turn_user= " ++ dquoted "1700000000:webrtc" ++ newline ++ "  turn_pwd  =" ++ dquoted "b2xk" ++ newline ++ "}")%string ∧
  ∃ expiry, parse_current_creds (patch_jcfg t "1900000000:webrtc" "bmV3") = Some ("1900000000:webrtc"%string, "bmV3"%string, expiry).
Proof.
  intros t. split; [vm_compute; reflexivity|].
  assert (Hv : ∀ s, forallb (fun c => negb (Ascii.eqb c quote2)) (chars s) = true →
            cut TURN_USER_KEY (chars s) = None → cut TURN_PWD_KEY (chars s) = None → cred_value (chars s)).
  { intros s H1 H2 H3. split; [|done]. intros Hin%list_elem_of_In. rewrite forallb_forall in H1.
    specialize (H1 _ Hin). by rewrite Ascii.eqb_refl in H1. }
  destruct (rotation_installs cred_lines (chars "1700000000:webrtc") (chars "b2xk") "1900000000:webrtc" "bmV3") as (_ & He & _).
  - repeat split; repeat constructor.
  - apply Hv; vm_compute; reflexivity.
  - apply Hv; vm_compute; reflexivity.
  - apply Hv; vm_compute; reflexivity.
  - apply Hv; vm_compute; reflexivity.
  - exact He.
Defined.

(** Another writer changes the public address while the rotator waits for the lock. *)
#[local] Instance sample_host_env : HostEnv :=
  {| host_dies _ := false; host_fails _ := false; lock_held _ := false;
     other_writers n j := match j with Some _ => Some (join newline
       ["nat_1_1_mapping = " ++ dquoted "203.0.113.10"; "turn_user = " ++ dquoted "1700000000:webrtc";
        "turn_pwd = " ++ dquoted "b2xk"])%string | None => None end;
     systemctl _ := SysOk; unix_time n := 1800000000 + Z.of_nat n; hmac_sha1_b64 key msg := "c2lnbmVk"%string |}.

Definition sample_host : Host := mkHost
  (Some (join newline ["nat_1_1_mapping = " ++ dquoted "203.0.113.9"; "turn_user = " ++ dquoted "1700000000:webrtc";
                       "turn_pwd = " ++ dquoted "b2xk"])%string)
  (Text (TxRaw "TURN_SHARED_SECRET=s3cret")) [] None 0.

Definition daily : rotate_args := mkRotate 365 30 "webrtc" false false false true.

Definition forced : rotate_args :=
  mkRotate (ra_ttl_days daily) (ra_before_days daily) (ra_username daily) false false true true.

(** A forced rotation while another program writes the file. *)
Lemma rotation_loses_no_update_witness :
  let '(r, w') := turn_rotate forced sample_host in
  r = Ok 0 ∧
  h_jcfg w' = Some (join newline ["nat_1_1_mapping = " ++ dquoted "203.0.113.10";
    "turn_user   = " ++ dquoted "1831536007:webrtc"; "turn_pwd    = " ++ dquoted "c2lnbmVk"])%string ∧
  ∃ n b t secret user pwd, other_writers n (h_jcfg sample_host) = Some b ∧ decode b = Ok t ∧
    (load_shared_secret sample_host).1 = Ok (Some secret) ∧
    made_from secret "webrtc" 365 user pwd ∧ h_jcfg w' = Some (patch_jcfg t user pwd) ∧
    h_live w' = h_jcfg w'.
Proof.
  destruct (turn_rotate forced sample_host) as [r w'] eqn:Hr.
  assert (Hrun : r = (turn_rotate forced sample_host).1 ∧ w' = (turn_rotate forced sample_host).2) by (rewrite Hr; split; reflexivity).
  assert (H0 : r = Ok 0) by (rewrite (proj1 Hrun); vm_compute; reflexivity).
  split; [exact H0|]. split; [rewrite (proj2 Hrun); vm_compute; reflexivity|].
  destruct (rotation_loses_no_update forced sample_host r w' Hr)
    as [[_ Hno]|(_ & _ & n & b & t & secret & user & pwd & H1 & H2 & H3 & H4 & H5 & H6)].
  - destruct (Hno H0) as [[=]|[[=]|[[=] _]]].
  - exists n, b, t, secret, user, pwd. split_and!; try assumption. apply H6; [exact H0|reflexivity].
Defined.

(** The rotator's expressions also match inside comments. On the shipped template, where
    the two lines are commented out, it writes the credentials into the comments, finds them
    there from then on, and no TURN credentials are in force. *)
Lemma commented_credentials_rotated :
  let t := join newline ["nat: {"; "    # turn_user   = " ++ dquoted "REPLACE_VIA_ROTATOR";
                         "    # turn_pwd    = " ++ dquoted "REPLACE_VIA_ROTATOR"; "}"]%string in
  let t' := patch_jcfg t "1900000000:webrtc" "bmV3" in
  parse_current_creds t' = Some ("1900000000:webrtc"%string, "bmV3"%string, 1900000000) ∧
  splitlines t' = ["nat: {"; "    # turn_user   = " ++ dquoted "1900000000:webrtc";
                   "    # turn_pwd    = " ++ dquoted "bmV3"; "}"]%string.
Proof. vm_compute. split; reflexivity. Qed.

(** Values are not escaped: one with a quote and a line break sets another option of the
    block. *)
Lemma unescaped_value_sets_option :
  ∃ b, render_nat_block [("turn_pwd", JStr ("x" ++ String quote2 (newline ++ "  ice_lite = true # ")))]%string = Ok b ∧
  mem_str ("  ice_lite = true # " ++ String quote2 EmptyString)%string (splitlines b) = true.
Proof. eexists. split; [reflexivity|vm_compute; reflexivity]. Qed.

(** A value that holds the closing marker survives the next patch. *)
Lemma marker_value_leaves_trace :
  ∃ b t1, render_nat_block [("turn_user", JStr "# END NAT AUTO")]%string = Ok b ∧
    patch_nat_block sample_jcfg b = Ok t1 ∧ patch_nat_block t1 "nat: { }" ≠ patch_nat_block sample_jcfg "nat: { }".
Proof. do 2 eexists. split_and!; [reflexivity|vm_compute; reflexivity|vm_compute; discriminate]. Qed.
