(* ===== verification/NatConfig.v ===== *)
(** * The NAT configuration and its update

    Models [app/services/nat_config.py] and [app/application/janus_nat/update_nat_config.py]:
    the stored configuration and its apply-status sidecar, the calls of the privileged
    command ([JanusJcfg.janus_admin]) and the staged update, with the masking of the NAT
    routes of [app/routes/janus.py]. The environment ([NatEnv]) answers the n-th
    interaction: it may be the last one before the process dies, a write loses a system
    call, the peers answer anything. A command that is killed while it runs is one that
    timed out. The texts of details and warnings are not modelled. *)
From Stdlib Require Import Ascii.
From S2P Require Import Prelude.
From S2P Require Import PyVal.
From S2P Require Import PyStr.
From S2P Require Import JsonText.
From S2P Require Import FileStore.
From S2P Require Import RuntimeEnv.
From S2P Require Import RuntimeSchema.
From S2P Require Import JanusJcfg.

Record JanusNatConfig := mkNatConfig {
  stun_server : string;
  stun_port : Z;
  turn_server : string;
  turn_port : Z;
  turn_type : string;
  turn_user : string;
  turn_pwd : string;
  nat_1_1_mapping : string;
  ice_tcp : bool;
  full_trickle : bool;
  ice_enforce_list : string;
  ice_ignore_list : list string;
  keep_private_host : bool;
  min_port : Z;
  max_port : Z;
}.

(** [model_copy(update={"turn_pwd": p})] *)
Definition with_turn_pwd (p : string) (c : JanusNatConfig) : JanusNatConfig :=
  mkNatConfig (stun_server c) (stun_port c) (turn_server c) (turn_port c) (turn_type c) (turn_user c) p
    (nat_1_1_mapping c) (ice_tcp c) (full_trickle c) (ice_enforce_list c) (ice_ignore_list c)
    (keep_private_host c) (min_port c) (max_port c).

(** [model_dump()] *)
Definition nat_dump (c : JanusNatConfig) : dict json :=
  [("stun_server", JStr (stun_server c)); ("stun_port", JInt (stun_port c));
   ("turn_server", JStr (turn_server c)); ("turn_port", JInt (turn_port c));
   ("turn_type", JStr (turn_type c)); ("turn_user", JStr (turn_user c)); ("turn_pwd", JStr (turn_pwd c));
   ("nat_1_1_mapping", JStr (nat_1_1_mapping c)); ("ice_tcp", JBool (ice_tcp c));
   ("full_trickle", JBool (full_trickle c)); ("ice_enforce_list", JStr (ice_enforce_list c));
   ("ice_ignore_list", JArr (map JStr (ice_ignore_list c))); ("keep_private_host", JBool (keep_private_host c));
   ("min_port", JInt (min_port c)); ("max_port", JInt (max_port c))]%string.

(** The masked configuration the routes show. *)
Definition masked (c : JanusNatConfig) : JanusNatConfig :=
  with_turn_pwd (if String.eqb (turn_pwd c) EmptyString then EmptyString else "***") c.

(** ** Reading a configuration *)
Section model.
Context {P : Pydantic}.
Context (environ : dict string).

(** [_env]; [DEVICES.TURN_HOST] is the empty text. *)
Definition env_or (k fallback : string) : string := default fallback (dget environ k).

Definition str_list (j : json) : bool :=
  match j with JArr l => forallb (str_that (fun _ => true)) l | _ => false end.

Definition nat_fields : list (string * (json → bool)) :=
  let text := str_that (fun _ => true) in
  let number j := match lax_int j with Some _ => true | None => false end in
  [("stun_server", text); ("stun_port", number); ("turn_server", text); ("turn_port", number);
   ("turn_type", one_of ["udp"; "tcp"; "tls"]); ("turn_user", text); ("turn_pwd", text);
   ("nat_1_1_mapping", text); ("ice_tcp", is_bool); ("full_trickle", is_bool); ("ice_enforce_list", text);
   ("ice_ignore_list", str_list); ("keep_private_host", is_bool); ("min_port", number); ("max_port", number)]%string.

Definition list_field (d : dict json) (k : string) (dflt : list string) : list string :=
  match dget d k with
  | Some (JArr l) => omap (fun j => match j with JStr s => Some s | _ => None end) l
  | _ => dflt
  end.

(** The value of a valid document: its fields, the others at their defaults. *)
Definition nat_value (d : dict json) : JanusNatConfig := mkNatConfig
  (str_field d "stun_server" (env_or "TURN_HOST" EmptyString))
  (int_field d "stun_port" 3478)
  (str_field d "turn_server" (env_or "TURN_HOST" EmptyString))
  (int_field d "turn_port" 3478)
  (str_field d "turn_type" "tcp")
  (str_field d "turn_user" (env_or "TURN_USER" "webrtc"))
  (str_field d "turn_pwd" (env_or "TURN_PASS" EmptyString))
  (str_field d "nat_1_1_mapping" EmptyString)
  (bool_field d "ice_tcp" false)
  (bool_field d "full_trickle" true)
  (str_field d "ice_enforce_list" EmptyString)
  (list_field d "ice_ignore_list" ["docker"; "veth"; "lo"; "vmnet"; "tailscale"]%string)
  (bool_field d "keep_private_host" false)
  (int_field d "min_port" 40000)
  (int_field d "max_port" 41000).

(** [JanusNatConfig.model_validate(data)]; unknown fields are ignored. *)
Definition model_validate (data : json) : option JanusNatConfig :=
  match data with
  | JObj d =>
      if forallb (fun '(k, ok) => match dget d k with Some v => ok v | None => true end) nat_fields
      then Some (nat_value d) else None
  | _ => None
  end.
End model.

(** ** The world *)
Inductive peer_reply := PeerReply (status : Z) (body : text) | PeerHttpError.

Inductive invocation :=
  | Invoked
  | NotFound               (* [FileNotFoundError] *)
  | OtherOSError.          (* any other [OSError] of starting the process *)

Class NatEnv := {
  nat_camera_type : string;
  nat_environ : dict string;
  nat_dies : nat → bool;
  nat_fault : nat → option syscall;        (* the system call a write loses *)
  nat_wall : nat → Q;
  admin_invoke : nat → invocation;
  peer_get : nat → peer_reply;
  peer_post : nat → peer_reply;
}.

Record Nat := mkNat {
  nt_desired : file;                       (* janus-nat.json *)
  nt_status : file;                        (* janus-nat.status.json *)
  nt_host : Host;
  nt_tick : nat;
}.

Record NatUpdateResult := mkNatResult {
  nu_ok : bool;
  nu_config : JanusNatConfig;
  nu_failure_stage : option string;
  nu_desired_persisted : bool;
  nu_local_applied : bool;
  nu_local_restarted : bool;
  nu_depth_restarted : bool;
  nu_exit_code : option Z;
  nu_warned : bool;                        (* a warning about the depth node *)
}.

Section nat.
Context {P : Pydantic} {F : FloatRepr} {H : Sha} {E : HostEnv} {N : NatEnv}.

(** One interaction. *)
Definition interact : M Nat nat := fun w =>
  let w' := mkNat (nt_desired w) (nt_status w) (nt_host w) (S (nt_tick w)) in
  if nat_dies (nt_tick w) then (fail EKilled, w') else (Ok (nt_tick w), w').

Definition on_desired {A} (m : M file A) : M Nat A := fun w =>
  let '(r, f) := m (set_fault (nat_fault (nt_tick w)) (nt_desired w)) in
  (r, mkNat f (nt_status w) (nt_host w) (S (nt_tick w))).
Definition on_status {A} (m : M file A) : M Nat A := fun w =>
  let '(r, f) := m (set_fault (nat_fault (nt_tick w)) (nt_status w)) in
  (r, mkNat (nt_desired w) f (nt_host w) (S (nt_tick w))).

Definition json_text (d : dict json) : content := Text (TxDoc (JObj d)).

(** [load_nat_config] *)
Definition peer_data : M Nat (option json) :=
  if String.eqb nat_camera_type "depth_camera" then
    n ← interact;
    match peer_get n with
    | PeerReply st body => if (200 <=? st) && (st <? 300) then j ← lift (json_loads body); mret (Some j) else mret None
    | PeerHttpError => mret None
    end
  else mret None.

Definition local_data : M Nat (option json) :=
  c ← gets (fun w => f_content (nt_desired w));
  if exists_ c then
    try_except (t ← lift (read_text c); j ← lift (json_loads t); mret (Some j)) CException (fun _ => mret None)
  else mret None.

Definition load_nat_config : M Nat JanusNatConfig :=
  data ← peer_data;
  data ← match data with
         | Some JNull | None => local_data
         | _ => mret data
         end;
  match data with
  | Some j => if truthy j then mret (default (nat_value nat_environ []) (model_validate nat_environ j))
              else mret (nat_value nat_environ [])
  | None => mret (nat_value nat_environ [])
  end.

(** [save_nat_config] *)
Definition save_nat_config (cfg : JanusNatConfig) : M Nat unit :=
  interact ;; on_desired (system_write_text (json_text (nat_dump cfg))).

(** [config_diff_hash] *)
Definition config_diff_hash (cfg : JanusNatConfig) : string :=
  ("sha256:" ++ sha256 (str (print_json (JObj (nat_dump cfg)))))%string.

Definition status_doc (status diff_hash : string) (failure_stage : option string) (ts : Q) : dict json :=
  [("status", JStr status); ("diff_hash", JStr diff_hash); ("failure_stage", jopt JStr failure_stage);
   ("updated_at", JFloat ts)]%string.

(** [write_apply_status] *)
Definition write_apply_status (status diff_hash : string) (failure_stage : option string) : M Nat unit :=
  n ← interact;
  on_status (system_write_text (json_text (status_doc status diff_hash failure_stage (nat_wall n)))).

(** [read_apply_status] *)
Definition UNKNOWN_STATUS : json :=
  JObj [("status", JStr "unknown"); ("diff_hash", JNull); ("failure_stage", JNull); ("updated_at", JNull)]%string.

Definition read_apply_status : M Nat json :=
  c ← gets (fun w => f_content (nt_status w));
  if negb (exists_ c) then mret UNKNOWN_STATUS
  else
    try_except2 (t ← lift (read_text c); lift (json_loads t))
      COSError (fun _ => mret UNKNOWN_STATUS) CValueError (fun _ => mret UNKNOWN_STATUS).

(** The command runs to its end, or is killed: [subprocess.TimeoutExpired]. *)
Definition run_admin (c : admin_command) : M Nat (option (option Z)) := fun w =>
  let '(r, h) := janus_admin c (nt_host w) in
  let w' := mkNat (nt_desired w) (nt_status w) h (nt_tick w) in
  match r with
  | Ok code => (Ok (if code =? 0 then None else Some (Some code)), w')
  | Raise e => if decide (ex_kind e = EKilled) then (Ok (Some None), w') else (Raise e, w')
  end.

(** A call of janus-admin: [None], or the exit code of the [JanusAdminError]. *)
Definition admin_call (c : admin_command) : M Nat (option (option Z)) :=
  n ← interact;
  match admin_invoke n with
  | NotFound => mret (Some None)
  | OtherOSError => throw EOS
  | Invoked => run_admin c
  end.

(** [patch_janus_cfg_with_nat], [restart_janus] *)
Definition patch_janus_cfg_with_nat (cfg : JanusNatConfig) (no_restart : bool) : M Nat (option (option Z)) :=
  admin_call (AdminNatConfig no_restart (TxDoc (JObj (nat_dump cfg)))).
Definition nat_restart_janus : M Nat (option (option Z)) := admin_call AdminRestart.

(** [restart_depth_camera_janus]: whether it returns. *)
Definition restart_depth_camera_janus : M Nat bool :=
  n ← interact;
  mret (match peer_post n with PeerReply st _ => st =? 200 | PeerHttpError => false end).

(** ** The update ([update_nat_config.py]) *)

(** [_set_status]: best effort *)
Definition set_apply_status (status diff_hash : string) (failure_stage : option string) : M Nat unit :=
  try_except (write_apply_status status diff_hash failure_stage) CException (fun _ => mret tt).

(** The password that is sent back masked stands for the stored one. *)
Definition keep_password (requested : JanusNatConfig) : M Nat JanusNatConfig :=
  if mem_str (turn_pwd requested) [EmptyString; "***"%string] then
    stored ← load_nat_config; mret (with_turn_pwd (turn_pwd stored) requested)
  else mret requested.

Definition nat_failed (cfg : JanusNatConfig) (stage : string) (persisted applied : bool) (exit_code : option Z)
    : NatUpdateResult :=
  mkNatResult false cfg (Some stage) persisted applied false false exit_code false.

Definition apply_desired (cfg : JanusNatConfig) (diff_hash : string) : M Nat NatUpdateResult :=
  set_apply_status "pending" diff_hash None ;;
  patched ← patch_janus_cfg_with_nat cfg true;
  match patched with
  | Some exit_code =>
      set_apply_status "failed" diff_hash (Some "patch_local"%string) ;;
      mret (nat_failed cfg "patch_local" true false exit_code)
  | None =>
      restarted ← nat_restart_janus;
      match restarted with
      | Some exit_code =>
          set_apply_status "failed" diff_hash (Some "restart_local"%string) ;;
          mret (nat_failed cfg "restart_local" true true exit_code)
      | None =>
          depth_ok ← restart_depth_camera_janus;
          set_apply_status "applied" diff_hash None ;;
          mret (mkNatResult true cfg None true true true depth_ok None (negb depth_ok))
      end
  end.

Definition update_nat_config (requested : JanusNatConfig) : M Nat NatUpdateResult :=
  cfg ← keep_password requested;
  let diff_hash := config_diff_hash cfg in
  saved ← try_except (save_nat_config cfg ;; mret true) COSError (fun _ => mret false);
  if (saved : bool) then apply_desired cfg diff_hash
  else
    set_apply_status "failed" diff_hash (Some "persist"%string) ;;
    mret (nat_failed cfg "persist" false false None).

(** [GET /janus/nat] *)
Definition get_janus_nat_config : M Nat JanusNatConfig := cfg ← load_nat_config; mret (masked cfg).
End nat.

(** ** What an update does *)
Section updates.
Context {P : Pydantic} {F : FloatRepr} {H : Sha} {E : HostEnv} {N : NatEnv}.

(** Nothing but the sidecar and the clock. *)
Definition same_but_status (w w' : Nat) : Prop :=
  f_content (nt_desired w') = f_content (nt_desired w) ∧ nt_host w' = nt_host w.
(** Nothing but the clock. *)
Definition same_nat (w w' : Nat) : Prop :=
  same_but_status w w' ∧ f_content (nt_status w') = f_content (nt_status w).

#[export] Instance same_nat_preorder : PreOrder same_nat.
Proof.
  split; [done|]. intros w1 w2 w3 [[? ?] ?] [[? ?] ?]. unfold same_nat, same_but_status. split_and!; congruence.
Qed.

Lemma interact_same : preserves same_nat interact.
Proof. intros w. unfold interact. by destruct (nat_dies (nt_tick w)). Qed.

Lemma peer_data_same : preserves same_nat peer_data.
Proof. unfold peer_data. pose proof interact_same. pres. Qed.

Lemma load_nat_same : preserves same_nat load_nat_config.
Proof. unfold load_nat_config, local_data. pose proof peer_data_same. pres. Qed.

Lemma keep_password_same requested : preserves same_nat (keep_password requested).
Proof. unfold keep_password. pose proof load_nat_same. pres. Qed.

(** The sidecar is left or holds the record. *)
Definition status_set (status hash : string) (stage : option string) (w w' : Nat) : Prop :=
  same_but_status w w' ∧
  (f_content (nt_status w') = f_content (nt_status w) ∨
   ∃ ts, f_content (nt_status w') = json_text (status_doc status hash stage ts)).

Lemma system_write_inv c f r f' :
  system_write_text c f = (r, f') →
  (r = Ok tt ∧ f_content f' = c) ∨ (r = fail EOS ∧ f_content f' = f_content f).
Proof.
  rewrite system_write_refines. unfold write_spec. destruct (write_faults _ _); intros [= <- <-]; auto.
Qed.

Lemma set_status_inv status hash stage w r w' :
  set_apply_status status hash stage w = (r, w') →
  status_set status hash stage w w' ∧ (r = Ok tt ∨ r = fail EKilled).
Proof.
  unfold set_apply_status, try_except. intros Hr.
  destruct (write_apply_status status hash stage w) as [r0 w0] eqn:Hw. unfold write_apply_status in Hw.
  pose proof (interact_same w) as Hi.
  apply bind_inv in Hw as [(n & w1 & H1 & Hw)|(e & H1 & ->)]; rewrite H1 in Hi; simpl in Hi.
  - unfold on_status in Hw. destruct (system_write_text _ _) as [r1 f1] eqn:Hs. injection Hw as <- <-.
    destruct Hi as [[Hd Hh] Hst]. apply system_write_inv in Hs as [[-> Hc]|[-> Hc]]; simpl in Hc; injection Hr as <- <-.
    + split; [|by left]. split; [done|]. right. by eexists.
    + split; [|by left]. split; [done|]. left. simpl. by rewrite Hc.
  - destruct Hi as [Hi Hst]. unfold interact in H1. destruct (nat_dies (nt_tick w)); [|done]. injection H1 as <- <-.
    injection Hr as <- <-. split; [|by right]. split; [done|by left].
Qed.

(** The files under a call of janus-admin. *)
Lemma admin_call_inv c w r w' :
  admin_call c w = (r, w') →
  nt_desired w' = nt_desired w ∧ nt_status w' = nt_status w ∧
  ((r = Ok (Some None) ∨ is_ok r = false) ∧ nt_host w' = nt_host w ∨
   ∃ r0, janus_admin c (nt_host w) = (r0, nt_host w') ∧
     ((∃ code, r0 = Ok code ∧ r = Ok (if code =? 0 then None else Some (Some code))) ∨
      (is_ok r0 = false ∧ (r = Ok (Some None) ∨ is_ok r = false)))).
Proof.
  unfold admin_call. intros Hr. unfold interact in Hr.
  apply bind_inv in Hr as [(n & w1 & H1 & Hr)|(e & H1 & ->)];
    (destruct (nat_dies (nt_tick w)); [|]; try done; injection H1 as <- <-).
  2:{ split_and!; [done..|]. left. split; [by right|done]. }
  destruct (admin_invoke _).
  - unfold run_admin in Hr. simpl in Hr. destruct (janus_admin c (nt_host w)) as [r0 h0] eqn:Hj.
    destruct r0 as [code|e].
    + injection Hr as <- <-. split_and!; [done..|]. right. eexists. split; [done|]. left. by eexists.
    + destruct (decide _); injection Hr as <- <-; (split_and!; [done..|]); right; eexists; (split; [done|]);
        right; (split; [done|]); auto.
  - injection Hr as <- <-. split_and!; [done..|]. left. split; [by left|done].
  - injection Hr as <- <-. split_and!; [done..|]. left. split; [by right|done].
Qed.

(** Janus runs with what a patch of this configuration left of janus.jcfg, or with what
    other writers made of it before the restart. *)
Definition nat_live (cfg : JanusNatConfig) (w w' : Nat) : Prop :=
  ∃ hp, nat_patched (nat_dump cfg) (nt_host w) hp ∧
    (h_jcfg (nt_host w') = h_jcfg hp ∨ ∃ n, h_jcfg (nt_host w') = other_writers n (h_jcfg hp)) ∧
    h_live (nt_host w') = h_jcfg (nt_host w').

(** The sidecar of an update that began in [w]: as it was, or a record of this
    configuration that says applied only if it is. *)
Definition honest (cfg : JanusNatConfig) (w w' : Nat) : Prop :=
  f_content (nt_status w') = f_content (nt_status w) ∨
  ∃ status stage ts,
    f_content (nt_status w') = json_text (status_doc status (config_diff_hash cfg) stage ts) ∧
    (status = "applied"%string →
       f_content (nt_desired w') = json_text (nat_dump cfg) ∧ nat_live cfg w w').
(** The same before anything was applied. *)
Definition modest (cfg : JanusNatConfig) (w w' : Nat) : Prop :=
  f_content (nt_status w') = f_content (nt_status w) ∨
  ∃ status stage ts, status ≠ "applied"%string ∧
    f_content (nt_status w') = json_text (status_doc status (config_diff_hash cfg) stage ts).

Lemma modest_honest cfg w w' : modest cfg w w' → honest cfg w w'.
Proof.
  intros [?|(st & stage & ts & Hst & Hc)]; [by left|right]. exists st, stage, ts. split; [done|]. by intros ->.
Qed.

Lemma modest_same cfg w w1 w2 :
  modest cfg w w1 → f_content (nt_status w2) = f_content (nt_status w1) → modest cfg w w2.
Proof. unfold modest. intros H1 ->. exact H1. Qed.

Lemma modest_set cfg w w1 w2 status stage :
  modest cfg w w1 → status ≠ "applied"%string → status_set status (config_diff_hash cfg) stage w1 w2 → modest cfg w w2.
Proof.
  intros H1 Hst [_ [Hs|(ts & Hs)]]; [by eapply modest_same|]. right. by exists status, stage, ts.
Qed.

(** What the result of an update that began in [w] says is so. *)
Definition reported (cfg : JanusNatConfig) (w w' : Nat) (res : NatUpdateResult) : Prop :=
  nu_config res = cfg ∧
  (nu_ok res = true ↔ nu_failure_stage res = None) ∧
  (nu_ok res = true → nu_desired_persisted res = true ∧ nu_local_applied res = true ∧ nu_local_restarted res = true) ∧
  f_content (nt_desired w')
    = (if nu_desired_persisted res then json_text (nat_dump cfg) else f_content (nt_desired w)) ∧
  (if nu_local_applied res
   then ∃ hp, nat_patched (nat_dump cfg) (nt_host w) hp ∧
          (h_jcfg (nt_host w') = h_jcfg hp ∨ ∃ n, h_jcfg (nt_host w') = other_writers n (h_jcfg hp))
   else nu_exit_code res ≠ None ∨ nu_desired_persisted res = false → untouched (nt_host w) (nt_host w')) ∧
  (nu_local_restarted res = true → nat_live cfg w w').

(** A patch through the command. *)
Lemma patch_call_inv cfg w r w' :
  patch_janus_cfg_with_nat cfg true w = (r, w') →
  nt_desired w' = nt_desired w ∧ nt_status w' = nt_status w ∧
  ((r = Ok None ∧ nat_patched (nat_dump cfg) (nt_host w) (nt_host w')) ∨
   ∃ ec, r = Ok (Some ec) ∧ (ec ≠ None → untouched (nt_host w) (nt_host w')) ∨ is_ok r = false).
Proof.
  intros (Hd & Hs & Hr)%admin_call_inv. split_and!; [done..|].
  destruct Hr as [[[->|He] Hh]|(r0 & Hj & Hr)].
  - right. exists None. left. by split.
  - right. exists None. by right.
  - apply nat_config_spec in Hj as [_ Hj]. destruct Hr as [(code & -> & ->)|(He & [->|Hn])].
    + destruct Hj as [[[= ->] Hp]|[[?|(c & [= ->] & Hc)] Hu]]; [by left|done|]. right. exists (Some c). left.
      split; [|done]. destruct (c =? 0) eqn:Hz; [|done]. apply Z.eqb_eq in Hz. subst c. set_solver.
    + right. exists None. left. by split.
    + right. exists None. by right.
Qed.

Lemma restart_call_inv w r w' :
  nat_restart_janus w = (r, w') →
  nt_desired w' = nt_desired w ∧ nt_status w' = nt_status w ∧
  (h_jcfg (nt_host w') = h_jcfg (nt_host w) ∨ ∃ n, h_jcfg (nt_host w') = other_writers n (h_jcfg (nt_host w))) ∧
  (r = Ok None → h_live (nt_host w') = h_jcfg (nt_host w')).
Proof.
  intros (Hd & Hs & Hr)%admin_call_inv. split_and!; [done..| |].
  - destruct Hr as [[_ ->]|(r0 & Hj & _)]; [by left|]. by apply admin_restart_spec in Hj as [? _].
  - intros ->. destruct Hr as [[[[=]|?] _]|(r0 & Hj & Hr)]; [done|]. apply admin_restart_spec in Hj as [_ Hl].
    destruct Hr as [(code & -> & Hc)|(_ & [[=]|?])]; [|done]. destruct (code =? 0) eqn:Hz; [|done].
    apply Z.eqb_eq in Hz. apply Hl. by rewrite Hz.
Qed.

Lemma depth_same : preserves same_nat restart_depth_camera_janus.
Proof. unfold restart_depth_camera_janus. pose proof interact_same. pres. Qed.
(** An update that began in [w], whatever its outcome. *)
Definition accounted (cfg : JanusNatConfig) (w : Nat) (r : res NatUpdateResult) (w' : Nat) : Prop :=
  honest cfg w w' ∧ ∀ res, r = Ok res → reported cfg w w' res.

Lemma accounted_raise cfg w e w' : modest cfg w w' → accounted cfg w (Raise e) w'.
Proof. intros Hm. split; [by apply modest_honest|done]. Qed.

(** A failed stage: the sidecar is told, the result is returned. *)
Lemma failed_stage cfg w w1 stage persisted applied ec r w' :
  modest cfg w w1 →
  (∀ w2, same_but_status w1 w2 → reported cfg w w2 (nat_failed cfg stage persisted applied ec)) →
  (set_apply_status "failed" (config_diff_hash cfg) (Some stage) ;;
   mret (nat_failed cfg stage persisted applied ec)) w1 = (r, w') →
  accounted cfg w r w'.
Proof.
  intros Hm Hrep Hr. apply bind_inv in Hr as [(u & w2 & Hs & [= <- ->])|(e & Hs & ->)]; apply set_status_inv in Hs as [Hs _];
    assert (Hm2 : modest cfg w w') by (by eapply modest_set; [exact Hm| |exact Hs]).
  - split; [by apply modest_honest|]. intros res [= <-]. apply Hrep. apply Hs.
  - by apply accounted_raise.
Qed.

(** The stages after the configuration is stored. *)
Lemma apply_desired_accounted cfg w w0 r w' :
  nt_host w0 = nt_host w → f_content (nt_desired w0) = json_text (nat_dump cfg) → modest cfg w w0 →
  apply_desired cfg (config_diff_hash cfg) w0 = (r, w') → accounted cfg w r w'.
Proof.
  intros Hh0 Hd0 Hm0 Hr. unfold apply_desired in Hr.
  apply bind_inv in Hr as [(u & w1 & Hs1 & Hr)|(e & Hs1 & ->)]; apply set_status_inv in Hs1 as [Hs1 _];
    assert (Hm1 : modest cfg w _) by (by eapply modest_set; [exact Hm0| |exact Hs1]); [|by apply accounted_raise].
  destruct Hs1 as [[Hd1 Hh1] _]. rewrite Hd0 in Hd1. rewrite Hh0 in Hh1.
  apply bind_inv in Hr as [(p & w2 & Hp & Hr)|(e & Hp & ->)]; apply patch_call_inv in Hp as (Hd2 & Hs2 & Hp);
    assert (Hm2 : modest cfg w _) by (by eapply modest_same; [exact Hm1|rewrite Hs2]); [|by apply accounted_raise].
  rewrite Hh1 in Hp.
  destruct p as [ec|].
  { apply (failed_stage _ _ _ _ _ _ _ _ _ Hm2) in Hr; [done|]. intros w3 [Hd3 Hh3].
    unfold reported. simpl. split_and!; [done..|congruence| |done]. intros [Hec|?]; [|done]. rewrite Hh3.
    destruct Hp as [[[=] _]|(ec' & [[[= ->] Hu]|?])]; [by apply Hu|done]. }
  destruct Hp as [[_ Hp]|(ec' & [[[=] _]|?])]; [|done].
  apply bind_inv in Hr as [(q & w3 & Hq & Hr)|(e & Hq & ->)]; apply restart_call_inv in Hq as (Hd3 & Hs3 & Hj3 & Hl3);
    assert (Hm3 : modest cfg w _) by (by eapply modest_same; [exact Hm2|rewrite Hs3]); [|by apply accounted_raise].
  assert (Happ : ∃ hp, nat_patched (nat_dump cfg) (nt_host w) hp ∧
            (h_jcfg (nt_host w3) = h_jcfg hp ∨ ∃ n, h_jcfg (nt_host w3) = other_writers n (h_jcfg hp))) by eauto.
  destruct q as [ec|].
  { apply (failed_stage _ _ _ _ _ _ _ _ _ Hm3) in Hr; [done|]. intros w4 [Hd4 Hh4].
    unfold reported. simpl. rewrite Hh4. by split_and!; [..|congruence| |]. }
  assert (Hlive : nat_live cfg w w3) by (exists (nt_host w2); split_and!; [done|done|by apply Hl3]).
  apply bind_inv in Hr as [(ok & w4 & Hok & Hr)|(e & Hok & ->)]; pose proof (depth_same w3) as Hs4; rewrite Hok in Hs4;
    destruct Hs4 as [[Hd4 Hh4] Hst4]; simpl in Hd4, Hh4, Hst4;
    assert (Hm4 : modest cfg w _) by (by eapply modest_same; [exact Hm3|exact Hst4]); [|by apply accounted_raise].
  apply bind_inv in Hr as [(u5 & w5 & Hs5 & [= <- ->])|(e & Hs5 & ->)]; apply set_status_inv in Hs5 as [[[Hd5 Hh5] Hst5] _].
  all: assert (Hd : f_content (nt_desired w') = json_text (nat_dump cfg)) by congruence.
  all: assert (Hl : nat_live cfg w w') by (unfold nat_live in *; by rewrite Hh5, Hh4).
  all: assert (Hhon : honest cfg w w')
    by (destruct Hst5 as [Hst5|(ts & Hst5)]; [by eapply modest_honest, modest_same|right; by exists "applied"%string, None, ts]).
  all: split; [done|]; intros res [= <-]; unfold reported; simpl; rewrite Hh5, Hh4; by split_and!.
Qed.

Lemma save_inv cfg w r w' :
  (save_nat_config cfg ;; mret true) w = (r, w') →
  nt_host w' = nt_host w ∧ f_content (nt_status w') = f_content (nt_status w) ∧
  ((r = Ok true ∧ f_content (nt_desired w') = json_text (nat_dump cfg)) ∨
   (is_ok r = false ∧ f_content (nt_desired w') = f_content (nt_desired w))).
Proof.
  intros Hr. apply bind_inv in Hr as [(u & w1 & Hs & [= <- ->])|(e & Hs & ->)]; unfold save_nat_config in Hs.
  all: pose proof (interact_same w) as Hi.
  all: apply bind_inv in Hs as [(n & w2 & H1 & Hs)|(e' & H1 & Hs)]; rewrite H1 in Hi; destruct Hi as [[Hd Hh] Hst];
    simpl in Hd, Hh, Hst; try done.
  3:{ injection Hs as <-. split_and!; [done..|]. by right. }
  all: unfold on_desired in Hs; destruct (system_write_text _ _) as [r1 f1] eqn:Hw; injection Hs as Hr1 <-; subst r1.
  all: apply system_write_inv in Hw as [[? Hc]|[? Hc]]; try done; simpl in *; split_and!; try done.
  - by left.
  - right. split; [done|]. by rewrite Hc.
Qed.

End updates.

(** ** The stored configuration reads back *)
Section roundtrip.
Context {P : Pydantic} {L : PydanticLaws P} {F : FloatRepr} {H : Sha} {E : HostEnv} {N : NatEnv}.

Definition valid_config (c : JanusNatConfig) : bool := mem_str (turn_type c) ["udp"; "tcp"; "tls"]%string.

Lemma omap_strings l : omap (fun j => match j with JStr s => Some s | _ => None end) (map JStr l) = l.
Proof. induction l as [|s l IH]; [done|]. simpl. f_equal. exact IH. Qed.

Lemma validate_dump environ c : valid_config c = true → model_validate environ (JObj (nat_dump c)) = Some c.
Proof.
  intros Hc. unfold model_validate, nat_dump, nat_fields. unfold valid_config in Hc.
  assert (Hl : forallb (str_that (λ _, true)) (map JStr (ice_ignore_list c)) = true).
  { apply forallb_forall. intros j (s & <- & _)%in_map_iff. done. }
  simpl. unfold is_bool. rewrite !lax_int_int, !lax_bool_bool. simpl in Hc. rewrite Hc. simpl. rewrite Hl. simpl.
  unfold nat_value, list_field, int_field, bool_field, str_field. simpl.
  rewrite !lax_int_int, !lax_bool_bool, omap_strings. by destruct c.
Qed.

Lemma load_local c w :
  String.eqb nat_camera_type "depth_camera" = false → valid_config c = true →
  f_content (nt_desired w) = json_text (nat_dump c) → load_nat_config w = (Ok c, w).
Proof.
  intros Hct Hc Hd. unfold load_nat_config, peer_data. rewrite Hct.
  unfold local_data, mbind, M_bind, gets, try_except, lift, mret, M_ret. rewrite Hd. simpl.
  rewrite (validate_dump nat_environ c Hc). done.
Qed.

(** On the gateway a stored configuration is the one that is loaded and shown, with
    its password masked; sending back what was shown, edited or not, keeps the stored
    password. *)
Theorem masked_edit_keeps_password c w requested :
  String.eqb nat_camera_type "depth_camera" = false → valid_config c = true →
  f_content (nt_desired w) = json_text (nat_dump c) → turn_pwd requested = turn_pwd (masked c) →
  load_nat_config w = (Ok c, w) ∧ get_janus_nat_config w = (Ok (masked c), w) ∧
  keep_password requested w = (Ok (with_turn_pwd (turn_pwd c) requested), w) ∧
  keep_password (masked c) w = (Ok c, w).
Proof.
  intros Hct Hc Hd Hr. pose proof (load_local c w Hct Hc Hd) as Hl.
  assert (Hin : mem_str (turn_pwd (masked c)) [EmptyString; "***"%string] = true).
  { unfold masked. destruct (String.eqb (turn_pwd c) EmptyString); reflexivity. }
  split_and!; [done| | |].
  - unfold get_janus_nat_config. by rewrite (bind_ok _ _ _ _ _ Hl).
  - unfold keep_password. rewrite Hr, Hin. by rewrite (bind_ok _ _ _ _ _ Hl).
  - unfold keep_password. rewrite Hin. rewrite (bind_ok _ _ _ _ _ Hl). unfold masked. by destruct c.
Qed.

(** A depth camera loads what the gateway shows: its password is the mask. *)
Lemma depth_camera_loads_mask c w :
  nat_camera_type = "depth_camera"%string → valid_config c = true →
  nat_dies (nt_tick w) = false →
  peer_get (nt_tick w) = PeerReply 200 (TxDoc (JObj (nat_dump (masked c)))) →
  (load_nat_config w).1 = Ok (masked c).
Proof.
  intros Hct Hc Hdie Hp. unfold load_nat_config, peer_data, interact. rewrite Hct. simpl.
  unfold mbind, M_bind. rewrite Hdie. simpl. rewrite Hp. simpl.
  assert (Hm : valid_config (masked c) = true) by exact Hc.
  by rewrite (validate_dump nat_environ (masked c) Hm).
Qed.

(** A reply that is not JSON is not one of the failures that fall back. *)
Lemma non_json_reply_escapes w :
  nat_camera_type = "depth_camera"%string → nat_dies (nt_tick w) = false →
  peer_get (nt_tick w) = PeerReply 200 TxGarbage → (load_nat_config w).1 = fail EJsonDecode.
Proof.
  intros Hct Hdie Hp. unfold load_nat_config, peer_data, interact. rewrite Hct. simpl.
  unfold mbind, M_bind. rewrite Hdie. simpl. by rewrite Hp.
Qed.
End roundtrip.

(** ** Concrete runs *)
#[local] Instance nat_pydantic : Pydantic :=
  {| lax_int j := match j with JInt z => Some z | _ => None end;
     lax_bool j := match j with JBool b => Some b | _ => None end |}.
#[local] Instance nat_pydantic_laws : PydanticLaws nat_pydantic.
Proof. by split. Qed.
#[local] Instance nat_floats : FloatRepr := {| float_repr _ := "0.0"%string |}.
#[local] Instance nat_sha : Sha := {| sha256 s := s |}.
#[local] Instance nat_host_env : HostEnv :=
  {| host_dies _ := false; host_fails _ := false; lock_held _ := false; other_writers _ j := j;
     systemctl _ := SysOk; unix_time _ := 1800000000; hmac_sha1_b64 _ _ := "c2lnbmVk"%string |}.

(** The gateway; the write of the sidecar at the interaction [bad] fails. *)
Definition gateway_env (bad : nat) : NatEnv :=
  {| nat_camera_type := "color_camera"; nat_environ := []; nat_dies _ := false;
     nat_fault n := if (n =? bad)%nat then Some SysReplace else None; nat_wall n := inject_Z (Z.of_nat n);
     admin_invoke _ := Invoked; peer_get _ := PeerHttpError; peer_post _ := PeerReply 200 TxEmpty |}.

Definition config_of (user pwd : string) : JanusNatConfig :=
  mkNatConfig "turn.example" 3478 "turn.example" 3478 "tcp" user pwd "203.0.113.9" false true EmptyString
    ["docker"; "lo"]%string false 40000 41000.

Definition nat_start : Nat := mkNat
  (file_of (json_text (nat_dump (config_of "webrtc" "static")))) (file_of Absent)
  (mkHost (Some sample_jcfg) Absent [] None 0) 0.


Lemma masked_edit_keeps_password_witness :
  let E := gateway_env 99 in
  keep_password (config_of "other" "***") nat_start = (Ok (config_of "other" "static"), nat_start).
Proof.
  intros E. destruct (masked_edit_keeps_password (N:=E) (config_of "webrtc" "static") nat_start (config_of "other" "***"))
    as (_ & _ & Hk & _); [reflexivity|reflexivity|reflexivity|reflexivity|exact Hk].
Defined.

(** The sidecar may go on saying applied while another configuration is stored and
    failing: the write of the pending record is best effort. *)
Lemma stale_applied_status :
  let '(_, w1) := update_nat_config (N:=gateway_env 99) (config_of "webrtc" "static") nat_start in
  let w1 := mkNat (nt_desired w1) (nt_status w1) (mkHost (Some "no markers"%string) Absent [] None 0) 0 in
  let E := {| nat_camera_type := "color_camera"; nat_environ := []; nat_dies n := (4 <? n)%nat;
              nat_fault n := if (n =? 3)%nat then Some SysReplace else None; nat_wall _ := 0%Q;
              admin_invoke _ := Invoked; peer_get _ := PeerHttpError; peer_post _ := PeerHttpError |} in
  let '(r, w2) := update_nat_config (N:=E) (config_of "other" "changed") w1 in
  r = fail EKilled ∧ f_content (nt_desired w2) = json_text (nat_dump (config_of "other" "changed")) ∧
  (j ← (read_apply_status w2).1; getitem j "status") = Ok (JStr "applied").
Proof. vm_compute. split_and!; reflexivity. Qed.

(** An update patches the stored user and password in: credentials the rotator wrote since
    are gone, and the rotator sees no expiry at all. *)
Lemma nat_update_drops_rotated_credentials :
  let '(_, w1) := update_nat_config (N:=gateway_env 99) (config_of "webrtc" "static") nat_start in
  let rotated := patch_jcfg (default EmptyString (h_jcfg (nt_host w1))) "1900000000:webrtc" "bmV3" in
  let w2 := mkNat (nt_desired w1) (nt_status w1) (mkHost (Some rotated) Absent [] None 0) 0 in
  let '(r, w3) := update_nat_config (N:=gateway_env 99) (config_of "webrtc" "***") w2 in
  expiry_of rotated = 1900000000 ∧ (nu_ok <$> r) = Ok true ∧
  expiry_of (default EmptyString (h_jcfg (nt_host w3))) = 0.
Proof. vm_compute. split_and!; reflexivity. Qed.
