(* ===== verification/AuditLog.v ===== *)
(** * The audit log ([app/services/audit_log.py], [app/application/audit_view.py])

    The log of administrative actions, one JSON line each, with its size-based rotation
    to numbered backups, and the view that reads it newest first. Any system call may
    raise [OSError] ([audit_fault]); a line is written whole or not at all. *)
From Stdlib Require Import Ascii.
From S2P Require Import Prelude.
From S2P Require Import Hoare.
From S2P Require Import PyVal.
From S2P Require Import PyStr.
From S2P Require Import FileStore.

Class AuditEnv := {
  AUDIT_ROTATE_BYTES : Z;
  KEEP_BACKUPS : Z;
  audit_fault : nat → bool;          (* the system call that raises *)
  now_iso : nat → string;            (* [datetime.now(timezone.utc).isoformat()] *)
  line_bytes : text → Z;             (* length of a line in the file *)
  py_repr : json → string;           (* [str] of a float or a container *)
}.

(** The files [audit.jsonl], [audit.jsonl.1], ..., each a list of lines. *)
Record AuditLog := mkAuditLog {
  al_tick : nat;
  al_current : option (list text);
  al_backups : gmap nat (list text);
}.

(** The headers of a request that are recorded; [client] may be missing. *)
Record audit_request := mkAuditRequest {
  ar_client : option string; ar_request_id : option string; ar_admin_token : bool;
}.

Section audit.
Context {A : AuditEnv}.

Definition audit_tick : M AuditLog nat :=
  s ← get;
  modify (fun s => mkAuditLog (S (al_tick s)) (al_current s) (al_backups s)) ;;
  mret (al_tick s).
Definition audit_sys : M AuditLog unit :=
  n ← audit_tick; if audit_fault n then throw EOS else mret tt.
Definition set_current (c : option (list text)) : M AuditLog unit :=
  modify (fun s => mkAuditLog (al_tick s) c (al_backups s)).
Definition set_backups (b : gmap nat (list text)) : M AuditLog unit :=
  modify (fun s => mkAuditLog (al_tick s) (al_current s) b).

Definition file_size (lines : list text) : Z := foldr (fun l n => line_bytes l + n) 0 lines.

(** One round of the rotation's loop, for backup [i]. *)
Definition rotate_backup (i : nat) : M AuditLog unit :=
  audit_sys ;;
  s ← get;
  match al_backups s !! i with
  | None => mret tt
  | Some lines =>
      audit_sys ;;
      if Nat.eqb i (Z.to_nat KEEP_BACKUPS) then set_backups (delete i (al_backups s))
      else set_backups (<[S i := lines]> (delete i (al_backups s)))
  end.

Fixpoint rotate_loop (i : nat) : M AuditLog unit :=
  match i with O => mret tt | S i' => rotate_backup i ;; rotate_loop i' end.

Definition rotate_if_needed : M AuditLog unit :=
  try_except
    (audit_sys ;;
     s ← get;
     match al_current s with
     | None => mret tt
     | Some lines =>
         audit_sys ;;
         if file_size lines <? AUDIT_ROTATE_BYTES then mret tt
         else
           rotate_loop (Z.to_nat KEEP_BACKUPS) ;;
           audit_sys ;;
           s ← get;
           set_backups (<[1%nat := lines]> (al_backups s)) ;;
           set_current None
     end)
    COSError (fun _ => mret tt).

Definition str_or (o : option string) (d : string) : string :=
  match o with Some s => if String.eqb s EmptyString then d else s | None => d end.

Definition audit_doc (ts action target outcome : string) (source_ip request_id user : option string)
    (details : dict json) : json :=
  JObj ([("ts", JStr ts); ("action", JStr action); ("target", JStr target);
         ("outcome", JStr outcome); ("source_ip", JStr (str_or source_ip "unknown"));
         ("request_id", JStr (str_or request_id "-")); ("user", JStr (str_or user "anon"))]%string
        ++ match details with [] => [] | _ => [("details", JObj details)]%string end).

(** The file is opened for appending; the line is written. *)
Definition write_line (line : text) : M AuditLog unit :=
  audit_sys ;;
  s ← get;
  set_current (Some (default [] (al_current s) ++ [line])).

Definition audit_emit (action target outcome : string) (source_ip request_id user : option string)
    (details : dict json) : M AuditLog unit :=
  n ← audit_tick;
  let line := TxDoc (audit_doc (now_iso n) action target outcome source_ip request_id user details) in
  try_except (audit_sys ;; rotate_if_needed ;; write_line line) COSError (fun _ => mret tt).

Definition FAILURE_MARKERS : list string :=
  ["_failed"; ".failed"; "refused"; "bad_"; ".denied"; "_error"; ".unknown"]%string.

Definition inferred_outcome (action : string) : string :=
  if existsb (fun m => contains m (lower action)) FAILURE_MARKERS then "failure" else "success".

Definition audit (action : string) (details : dict json) (outcome target : option string)
    (request : option audit_request) : M AuditLog unit :=
  let outcome := match outcome with Some o => o | None => inferred_outcome action end in
  let source_ip := r ← request; ar_client r in
  let request_id := r ← request; ar_request_id r in
  let user := (fun r => if ar_admin_token r then "admin" else "anon")%string <$> request in
  audit_emit action (str_or target action) outcome source_ip request_id user details.

(** ** The view *)
Record AuditEntry := mkAuditEntry {
  ae_ts : string; ae_action : string; ae_outcome : option string; ae_target : option string;
  ae_source_ip : option string; ae_request_id : option string; ae_extra : dict json;
}.

Record audit_filter := mkAuditFilter {
  af_action : option string; af_target : option string; af_outcome : option string;
  af_since : option string;
}.

(** [str(x)] *)
Definition py_format (j : json) : string :=
  match to_str j with Ok s => s | Raise _ => py_repr j end.

(** A field of type [Optional[str]]. *)
Definition optional_str (j : json) : res (option string) :=
  match j with JNull => Ok None | JStr s => Ok (Some s) | _ => fail EPydantic end.

(** [x and x.lower() not in str(...).lower()] *)
Definition rejects (sub : option string) (j : json) : bool :=
  match sub with
  | Some s => if String.eqb s EmptyString then false
              else negb (contains (lower s) (lower (py_format j)))
  | None => false
  end.

Definition rejects_outcome (o : option string) (j : json) : bool :=
  match o with
  | Some s => if String.eqb s EmptyString then false
              else negb (String.eqb (lower s) (lower (py_format j)))
  | None => false
  end.

Definition is_before (since : option string) (j : json) : bool :=
  match since with
  | Some t => if String.eqb t EmptyString || String.eqb (py_format j) EmptyString then false
              else String.ltb (py_format j) t
  | None => false
  end.

Definition known_fields : list string :=
  ["ts"; "action"; "outcome"; "target"; "source_ip"; "request_id"]%string.

Definition entry_of (obj : json) : res AuditEntry :=
  ts ← jget obj "ts" (JStr EmptyString);
  action ← jget obj "action" (JStr EmptyString);
  outcome ← jget obj "outcome" JNull; outcome ← optional_str outcome;
  target ← jget obj "target" JNull; target ← optional_str target;
  source_ip ← jget obj "source_ip" JNull; source_ip ← optional_str source_ip;
  request_id ← jget obj "request_id" JNull; request_id ← optional_str request_id;
  let items := match obj with JObj d => d | _ => [] end in
  Ok (mkAuditEntry (py_format ts) (py_format action) outcome target source_ip request_id
        (List.filter (fun '(k, _) => negb (mem_str k known_fields)) items)).

(** What the loop does with one line. *)
Inductive scan := ScanSkip | ScanStop | ScanKeep (e : AuditEntry).

Definition scan_line (f : audit_filter) (line : text) : res scan :=
  match line with
  | TxEmpty | TxBlank | TxGarbage | TxRaw _ => Ok ScanSkip
  | TxDoc obj =>
      action ← jget obj "action" (JStr EmptyString);
      if rejects (af_action f) action then Ok ScanSkip else
      target ← jget obj "target" (JStr EmptyString);
      if rejects (af_target f) target then Ok ScanSkip else
      outcome ← jget obj "outcome" (JStr EmptyString);
      if rejects_outcome (af_outcome f) outcome then Ok ScanSkip else
      ts ← jget obj "ts" (JStr EmptyString);
      if is_before (af_since f) ts then Ok ScanStop else
      e ← entry_of obj; Ok (ScanKeep e)
  end.

(** The loop over the lines, newest first; [found] are the entries so far. *)
Fixpoint scan_tail (f : audit_filter) (limit : Z) (found : list AuditEntry) (examined : nat)
    (lines : list text) : res (list AuditEntry * nat) :=
  match lines with
  | [] => Ok (found, examined)
  | line :: rest =>
      r ← scan_line f line;
      match r with
      | ScanSkip => scan_tail f limit found (S examined) rest
      | ScanStop => Ok (found, S examined)
      | ScanKeep e =>
          let found := found ++ [e] in
          if limit <=? Z.of_nat (length found) then Ok (found, S examined)
          else scan_tail f limit found (S examined) rest
      end
  end.

(** The entries and whether older lines were left unread. *)
Definition read_audit_tail (limit : Z) (f : audit_filter) : M AuditLog (list AuditEntry * bool) :=
  s ← get;
  match al_current s with
  | None => mret ([], false)
  | Some all_lines =>
      n ← audit_tick;
      if audit_fault n then mret ([], false)
      else
        '(entries, examined) ← lift (scan_tail f limit [] 0 (rev all_lines));
        mret (entries, Nat.ltb examined (length all_lines))
  end.
End audit.

(** ** What the rotation keeps *)

(** The lines of the backups [idx], in this order. *)
Definition gather (b : gmap nat (list text)) (idx : list nat) : list text :=
  concat (map (fun i => default [] (b !! i)) idx).

Lemma gather_ext b b' idx : (∀ i, i ∈ idx → b' !! i = b !! i) → gather b' idx = gather b idx.
Proof.
  intros H. unfold gather. f_equal. apply map_ext_in. intros i Hi. rewrite H; [done|].
  by apply list_elem_of_In.
Qed.

Lemma gather_app b idx1 idx2 : gather b (idx1 ++ idx2) = gather b idx1 ++ gather b idx2.
Proof. unfold gather. by rewrite map_app, concat_app. Qed.

Section rotation.
Context {A : AuditEnv}.

(** The number of backups in use. *)
Definition kept : nat := Nat.max (Z.to_nat KEEP_BACKUPS) 1.

(** All lines of the log, oldest first. *)
Definition chain (s : AuditLog) : list text :=
  gather (al_backups s) (rev (seq 1 kept)) ++ default [] (al_current s).

(** The log loses nothing but its oldest lines. *)
Definition loses_oldest (s s' : AuditLog) : Prop := chain s' `suffix_of` chain s.

#[export] Instance loses_oldest_preorder : PreOrder loses_oldest.
Proof. split; unfold loses_oldest; [by intros s|]. intros s1 s2 s3 H1 H2. by etrans. Qed.

Lemma indices_split i : (1 ≤ i < kept)%nat →
  rev (seq 1 kept) = rev (seq (S (S i)) (kept - S i)) ++ [S i; i] ++ rev (seq 1 (i - 1)).
Proof.
  intros Hi. replace kept with ((i - 1) + (2 + (kept - S i)))%nat at 1 by lia.
  rewrite seq_app, rev_app_distr, seq_app, rev_app_distr, <- app_assoc.
  replace (1 + (i - 1) + 2)%nat with (S (S i)) by lia.
  by replace (1 + (i - 1))%nat with i by lia.
Qed.

(** Moving a backup to the free place above it changes nothing. *)
Lemma gather_shift b i lines : (1 ≤ i < kept)%nat → b !! i = Some lines → b !! S i = None →
  gather (<[S i := lines]> (delete i b)) (rev (seq 1 kept)) = gather b (rev (seq 1 kept)).
Proof.
  intros Hi Hb Hfree. rewrite (indices_split i Hi), !gather_app. f_equal; [|f_equal].
  - apply gather_ext. intros j Hj. apply list_elem_of_In, in_rev, in_seq in Hj.
    rewrite lookup_insert_ne, lookup_delete_ne by lia. done.
  - unfold gather. simpl. rewrite lookup_insert_eq, lookup_insert_ne, lookup_delete_eq by lia.
    by rewrite Hb, Hfree.
  - apply gather_ext. intros j Hj. apply list_elem_of_In, in_rev, in_seq in Hj.
    rewrite lookup_insert_ne, lookup_delete_ne by lia. done.
Qed.

(** Removing the oldest backup. *)
Lemma gather_drop b : gather (delete kept b) (rev (seq 1 kept)) `suffix_of` gather b (rev (seq 1 kept)).
Proof.
  replace kept with (S (kept - 1)) by (unfold kept; lia). rewrite seq_S, rev_app_distr. simpl.
  unfold gather. simpl. rewrite lookup_delete_eq. simpl. exists (default [] (b !! S (kept - 1))).
  f_equal. apply gather_ext. intros j Hj. apply list_elem_of_In, in_rev, in_seq in Hj.
  rewrite lookup_delete_ne by lia. done.
Qed.

(** The current file becomes the newest backup. *)
Lemma gather_newest b lines :
  b !! 1%nat = None ∨ kept = 1%nat →
  gather (<[1%nat := lines]> b) (rev (seq 1 kept)) `suffix_of` gather b (rev (seq 1 kept)) ++ lines.
Proof.
  intros H. replace kept with (1 + (kept - 1))%nat by (unfold kept; lia).
  rewrite seq_app, rev_app_distr, !gather_app.
  rewrite (gather_ext b (<[1%nat:=lines]> b) (rev (seq (1 + 1) (kept - 1)))).
  2: { intros j Hj. apply list_elem_of_In, in_rev, in_seq in Hj. by rewrite lookup_insert_ne by lia. }
  unfold gather at 2 4. simpl. rewrite lookup_insert_eq, !app_nil_r. simpl.
  destruct H as [->|H]; simpl; [by rewrite app_nil_r|].
  rewrite H. simpl. by exists (default [] (b !! 1%nat)).
Qed.

Lemma wp_audit_sys (Q : res unit → AuditLog → Prop) s :
  (∀ s' r, al_current s' = al_current s → al_backups s' = al_backups s →
     (r = Ok tt ∨ ∃ e, r = Raise e ∧ ex_kind e = EOS) → Q r s') → wp audit_sys Q s.
Proof.
  intros H. unfold audit_sys, audit_tick. wp_steps. destruct (audit_fault _); wp_steps; apply H;
    try done; [right; by eexists|by left].
Qed.

(** One round: the place of [i] becomes free, and the round fails softly. *)
Definition os_only {T} (r : res T) : Prop := match r with Ok _ => True | Raise e => ex_kind e = EOS end.

Lemma wp_rotate_backup i s : (1 ≤ i ≤ Z.to_nat KEEP_BACKUPS)%nat →
  (i = Z.to_nat KEEP_BACKUPS ∨ al_backups s !! S i = None) →
  wp (rotate_backup i)
    (λ r s', loses_oldest s s' ∧ os_only r ∧ al_current s' = al_current s ∧
             (is_ok r = true → al_backups s' !! i = None)) s.
Proof.
  intros Hi Hfree. assert (Hk : kept = Z.to_nat KEEP_BACKUPS) by (unfold kept; lia).
  unfold rotate_backup, loses_oldest, chain. apply wp_bind, wp_audit_sys.
  intros s1 r Hc1 Hb1 [->|(e & -> & He)]; cbn [then_]; [|by rewrite Hc1, Hb1].
  wp_steps. destruct (al_backups s1 !! i) as [lines|] eqn:Hi1; [|wp_steps; split_and!; try done; by rewrite Hc1, Hb1].
  apply wp_bind, wp_audit_sys.
  intros s2 r Hc2 Hb2 [->|(e & -> & He)]; cbn [then_]; [|by rewrite Hc2, Hb2, Hc1, Hb1].
  destruct (Nat.eqb_spec i (Z.to_nat KEEP_BACKUPS)) as [->|Hne];
    unfold set_backups; wp_steps; simpl; rewrite Hc2, Hc1, <- Hb1; split_and!; try done.
  - apply suffix_app. rewrite <- Hk. apply gather_drop.
  - intros _. apply lookup_delete_eq.
  - rewrite gather_shift; [done|lia|done|]. rewrite Hb1. by destruct Hfree.
  - intros _. rewrite lookup_insert_ne by lia. apply lookup_delete_eq.
Qed.

Lemma wp_rotate_loop i s : (i ≤ Z.to_nat KEEP_BACKUPS)%nat →
  (i = Z.to_nat KEEP_BACKUPS ∨ al_backups s !! S i = None) →
  wp (rotate_loop i)
    (λ r s', loses_oldest s s' ∧ os_only r ∧ al_current s' = al_current s ∧
             (is_ok r = true → al_backups s' !! 1%nat = None ∨ Z.to_nat KEEP_BACKUPS = 0%nat)) s.
Proof.
  revert s. induction i as [|i IH]; intros s Hi Hfree; simpl.
  - wp_steps. split_and!; try done. intros _. destruct Hfree; [by right|by left].
  - apply wp_bind. eapply wp_mono; [apply wp_rotate_backup; [lia|done]|].
    intros [[]|e] s1 (H1 & Hr & Hc & Hb); cbn [then_]; [|done].
    eapply wp_mono; [apply IH; [lia|right; by apply Hb]|].
    intros r s2 (H2 & Hr2 & Hc2 & Hb2). split_and!; [by etrans|done|by rewrite Hc2|done].
Qed.

Lemma wp_rotate s : wp rotate_if_needed (λ r s', r = Ok tt ∧ loses_oldest s s') s.
Proof.
  unfold rotate_if_needed. wp_step. apply wp_bind, wp_audit_sys.
  assert (Hsame : ∀ s0 s1, al_current s1 = al_current s0 → al_backups s1 = al_backups s0 →
            loses_oldest s0 s1) by (intros s0 s1 H1 H2; unfold loses_oldest, chain; by rewrite H1, H2).
  intros s1 r Hc1 Hb1 [->|(e & -> & He)]; cbn [then_].
  2: { unfold or_catch. rewrite He. simpl. wp_steps. split; [done|by apply Hsame]. }
  wp_steps. destruct (al_current s1) as [lines|] eqn:Hl; [|wp_steps; split; [done|apply Hsame; congruence]].
  apply wp_bind, wp_audit_sys. intros s2 r Hc2 Hb2 [->|(e & -> & He)]; cbn [then_].
  2: { unfold or_catch. rewrite He. simpl. wp_steps. split; [done|]. apply Hsame; congruence. }
  destruct (file_size lines <? AUDIT_ROTATE_BYTES); [wp_steps; split; [done|apply Hsame; congruence]|].
  apply wp_bind. eapply wp_mono; [apply wp_rotate_loop; [done|by left]|].
  assert (H2 : loses_oldest s s2) by (apply Hsame; congruence).
  intros [[]|e] s3 (H3 & Hr & Hc3 & Hfree); cbn [then_].
  2: { simpl in Hr. unfold or_catch. rewrite Hr. simpl. wp_steps. split; [done|by etrans]. }
  apply wp_bind, wp_audit_sys. intros s4 r Hc4 Hb4 [->|(e & -> & He)]; cbn [then_].
  2: { unfold or_catch. rewrite He. simpl. wp_steps. split; [done|]. do 2 (etrans; [done|]). by apply Hsame. }
  unfold set_backups, set_current. wp_steps. split; [done|]. do 2 (etrans; [done|]).
  unfold loses_oldest, chain. simpl. rewrite Hc3, Hc2, Hl, Hb4, app_nil_r. simpl. apply gather_newest.
  destruct (Hfree eq_refl) as [H|H]; [by left|right]. unfold kept. by rewrite H.
Qed.

Lemma wp_emit action target outcome ip rid user details s :
  wp (audit_emit action target outcome ip rid user details)
    (λ r s', r = Ok tt ∧ ∃ ts w, chain s' `suffix_of` chain s ++ w ∧
       let line := TxDoc (audit_doc ts action target outcome ip rid user details) in
       (w = [line] ∨ w = []) ∧
       ((∀ n, audit_fault n = false) → w = [line] ∧ last (default [] (al_current s')) = Some line)) s.
Proof.
  unfold audit_emit, audit_tick at 1. wp_steps. set (ts := now_iso _). cbv zeta.
  set (line := TxDoc _). set (s0 := mkAuditLog _ _ _).
  assert (H0 : chain s0 = chain s) by done.
  assert (Hlost : ∀ s', loses_oldest s s' → ¬ (∀ n, audit_fault n = false) →
    Ok tt = Ok tt ∧ ∃ ts w, chain s' `suffix_of` chain s ++ w ∧
       let line := TxDoc (audit_doc ts action target outcome ip rid user details) in
       (w = [line] ∨ w = []) ∧
       ((∀ n, audit_fault n = false) → w = [line] ∧ last (default [] (al_current s')) = Some line)).
  { intros s' Hs Hf. split; [done|]. exists ts, []. cbv zeta. rewrite app_nil_r. split_and!; [done|by right|by intros].  }
  unfold audit_sys at 1, audit_tick. wp_steps.
  destruct (audit_fault (al_tick s0)) eqn:Hf1; wp_steps.
  { unfold or_catch. simpl. apply wp_ret. apply Hlost; [by exists []|]. intros H. by rewrite H in Hf1. }
  eapply wp_mono; [apply wp_rotate|]. intros r s2 [-> H2]. cbn [then_].
  assert (Hs2 : loses_oldest s s2) by done. clear H2.
  unfold write_line, audit_sys, audit_tick. wp_steps. cbn [al_tick].
  destruct (audit_fault (al_tick s2)) eqn:Hf2; wp_steps.
  { unfold or_catch. simpl. apply wp_ret. apply Hlost; [done|]. intros H. by rewrite H in Hf2. }
  unfold set_current. wp_steps. split; [done|]. exists ts, [line]. cbv zeta. fold line. split_and!.
  - unfold chain at 1. simpl. rewrite app_assoc. by apply suffix_app.
  - by left.
  - intros _. split; [done|]. simpl. apply last_snoc.
Qed.
End rotation.

(** A call of [emit]. *)
Record emit_call := mkEmit {
  em_action : string; em_target : string; em_outcome : string;
  em_source_ip : option string; em_request_id : option string; em_user : option string;
  em_details : dict json;
}.

Section calls.
Context {A : AuditEnv}.

Definition run_emit (c : emit_call) : M AuditLog unit :=
  audit_emit (em_action c) (em_target c) (em_outcome c) (em_source_ip c) (em_request_id c)
    (em_user c) (em_details c).

Definition call_line (ts : string) (c : emit_call) : text :=
  TxDoc (audit_doc ts (em_action c) (em_target c) (em_outcome c) (em_source_ip c)
           (em_request_id c) (em_user c) (em_details c)).
End calls.

(** Auditing never breaks the audited action, and whatever system calls fail the log,
    its backups included, is always the newest part of what was written to it, in order;
    without failures everything is written. *)
Theorem audit_log_keeps_newest {A : AuditEnv} calls s :
  ∃ s' stamps written, for_each calls run_emit s = (Ok tt, s') ∧ length stamps = length calls ∧
    written `sublist_of` zip_with call_line stamps calls ∧
    chain s' `suffix_of` chain s ++ written ∧
    ((∀ n, audit_fault n = false) → written = zip_with call_line stamps calls).
Proof.
  revert s. induction calls as [|c calls IH]; intros s; simpl.
  { exists s, [], []. rewrite app_nil_r. done. }
  pose proof (wp_emit (em_action c) (em_target c) (em_outcome c) (em_source_ip c)
                (em_request_id c) (em_user c) (em_details c) s) as H.
  unfold mbind, M_bind. fold (run_emit c) in H. unfold wp in H.
  destruct (run_emit c s) as [r s1]. destruct H as (-> & ts & w & Hs1 & Hw & Hfull).
  destruct (IH s1) as (s2 & stamps & written & -> & Hlen & Hsub & Hs2 & Hall).
  exists s2, (ts :: stamps), (w ++ written). fold (call_line ts c) in Hw, Hfull. split_and!.
  - done.
  - simpl. by rewrite Hlen.
  - simpl. destruct Hw as [->| ->]; [by apply sublist_skip|by apply sublist_cons].
  - etrans; [exact Hs2|]. rewrite app_assoc. by apply suffix_app.
  - intros Hf. rewrite (Hall Hf). by destruct (Hfull Hf) as [-> _].
Qed.

(** ** The view *)
Section view.
Context {A : AuditEnv}.

(** The entries a filter lets through, newest first, without a limit. *)
Fixpoint matches (f : audit_filter) (lines : list text) : list AuditEntry :=
  match lines with
  | [] => []
  | line :: rest =>
      match scan_line f line with
      | Ok ScanSkip => matches f rest
      | Ok (ScanKeep e) => e :: matches f rest
      | Ok ScanStop | Raise _ => []
      end
  end.

Lemma scan_tail_spec f limit lines : Forall (λ l, is_ok (scan_line f l) = true) lines →
  ∀ found n, Z.of_nat (length found) < Z.max 1 limit →
  let seen := take (Z.to_nat (Z.max 1 limit) - length found) (matches f lines) in
  ∃ m, scan_tail f limit found n lines = Ok (found ++ seen, m) ∧
       (m ≤ n + length lines)%nat ∧ ((m = n + length lines)%nat → seen = matches f lines).
Proof.
  induction 1 as [|line lines Hl Hls IH]; intros found n Hn; simpl.
  { exists n. rewrite take_nil, app_nil_r. split_and!; [done|lia|done]. }
  destruct (scan_line f line) as [[| |e]|] eqn:Hs; [| | |done]; simpl.
  - destruct (IH found (S n) Hn) as (m & -> & Hm & Hall). exists m.
    split_and!; [done|lia|]. intros Heq. apply Hall. lia.
  - exists (S n). rewrite take_nil, app_nil_r. split_and!; [done|lia|done].
  - rewrite length_app. simpl. destruct (Z.leb_spec limit (Z.of_nat (length found + 1))) as [Hle|Hlt].
    + exists (S n). replace (Z.to_nat (Z.max 1 limit) - length found)%nat with 1%nat by lia.
      simpl. rewrite take_0. split_and!; [done|lia|]. intros Hm. destruct lines; [done|simpl in Hm; lia].
    + destruct (IH (found ++ [e]) (S n)) as (m & Heq & Hm & Hall); [rewrite length_app; simpl; lia|].
      exists m. rewrite Heq. rewrite length_app in *. rewrite <- app_assoc. simpl in *.
      replace (Z.to_nat (Z.max 1 limit) - length found)%nat
        with (S (Z.to_nat (Z.max 1 limit) - (length found + 1))) by lia.
      simpl. split_and!; [done|lia|]. intros Hm2. f_equal. apply Hall. lia.
Qed.

Lemma read_scans f limit s lines entries m :
  al_current s = Some lines → audit_fault (al_tick s) = false →
  scan_tail f limit [] 0 (rev lines) = Ok (entries, m) →
  read_audit_tail limit f s =
    (Ok (entries, Nat.ltb m (length lines)), mkAuditLog (S (al_tick s)) (al_current s) (al_backups s)).
Proof.
  intros Hc Hf Hs. unfold read_audit_tail, audit_tick, get, modify, lift, mret, M_ret, mbind, M_bind.
  by rewrite Hc, Hf, Hs, <- Hc.
Qed.
End view.

(** The view shows the newest entries the filter lets through, newest first, at least
    one and at most [limit] of them, and when it does not say that lines were left unread
    it shows all of them. *)
Theorem audit_tail_newest {A : AuditEnv} f limit s lines :
  al_current s = Some lines → audit_fault (al_tick s) = false →
  Forall (λ l, is_ok (scan_line f l) = true) lines →
  ∃ entries truncated s', read_audit_tail limit f s = (Ok (entries, truncated), s') ∧
    chain s' = chain s ∧
    entries = take (Z.to_nat (Z.max 1 limit)) (matches f (rev lines)) ∧
    (truncated = false → entries = matches f (rev lines)).
Proof.
  intros Hc Hf Hok. apply Forall_rev in Hok.
  destruct (scan_tail_spec f limit (rev lines) Hok [] 0) as (m & Hs & Hm & Hall); [simpl; lia|].
  rewrite Nat.sub_0_r in *. simpl in *.
  eexists _, _, _. split; [by apply (read_scans f limit s lines _ m)|].
  split_and!; [done|done|]. intros Ht. apply Nat.ltb_ge in Ht. apply Hall.
  rewrite length_rev in *. lia.
Qed.

(** Reading back: what was just recorded is the first entry of the view. *)
Theorem audit_read_back {A : AuditEnv} action target outcome ip rid user details s :
  (∀ n, audit_fault n = false) →
  ∃ s' ts truncated s'', audit_emit action target outcome ip rid user details s = (Ok tt, s') ∧
    read_audit_tail 1 (mkAuditFilter None None None None) s'
    = (Ok ([mkAuditEntry ts action (Some outcome) (Some target) (Some (str_or ip "unknown"))
              (Some (str_or rid "-"))
              (("user", JStr (str_or user "anon"))
               :: match details with [] => [] | _ => [("details", JObj details)] end)]%string,
           truncated), s'').
Proof.
  intros Hf. pose proof (wp_emit action target outcome ip rid user details s) as H. unfold wp in H.
  destruct (audit_emit _ _ _ _ _ _ _ s) as [r s1]. destruct H as (-> & ts & w & _ & _ & H).
  destruct (H Hf) as [_ Hlast]. clear H w.
  destruct (al_current s1) as [lines|] eqn:Hc; [|done]. simpl in Hlast.
  apply last_Some in Hlast as [l ->]. exists s1, ts.
  assert (Hscan : scan_line (mkAuditFilter None None None None)
            (TxDoc (audit_doc ts action target outcome ip rid user details)) =
          Ok (ScanKeep (mkAuditEntry ts action (Some outcome) (Some target) (Some (str_or ip "unknown"))
              (Some (str_or rid "-"))
              (("user", JStr (str_or user "anon"))
               :: match details with [] => [] | _ => [("details", JObj details)] end)%string)))
    by (by destruct details).
  do 2 eexists. split; [done|]. eapply (read_scans _ 1 s1); [done..|]. rewrite rev_unit.
  cbn [scan_tail]. by rewrite Hscan.
Qed.

(** ** Witnesses *)
Definition audit_env (fault : nat → bool) : AuditEnv := {|
  AUDIT_ROTATE_BYTES := 250; KEEP_BACKUPS := 2; audit_fault := fault;
  now_iso := λ n, pretty (Z.of_nat n); line_bytes := λ _, 100; py_repr := λ _, "{}"%string |}.

Definition sample_emit (target : string) : emit_call :=
  mkEmit "node.delete" target "success" None None (Some "admin"%string) [("code", JInt 200)]%string.

Definition empty_audit : AuditLog := mkAuditLog 0 None ∅.
Definition full_audit : AuditLog :=
  (for_each (map sample_emit ["a"; "b"; "c"; "d"; "e"; "f"; "g"; "h"; "i"; "j"]%string)
     (@run_emit (audit_env (λ _, false))) empty_audit).2.

Example rotation_drops_oldest :
  length (@chain (audit_env (λ _, false)) full_audit) = 7%nat.
Proof. vm_compute. reflexivity. Qed.

Lemma audit_tail_newest_witness :
  ∃ entries truncated s',
    @read_audit_tail (audit_env (λ _, false)) 2 (mkAuditFilter (Some "NODE") None None None)%string
      full_audit = (Ok (entries, truncated), s') ∧
    @chain (audit_env (λ _, false)) s' = @chain (audit_env (λ _, false)) full_audit ∧
    entries = take 2 (@matches (audit_env (λ _, false)) (mkAuditFilter (Some "NODE") None None None)%string
                        (rev (default [] (al_current full_audit)))) ∧
    (truncated = false → entries = @matches (audit_env (λ _, false)) (mkAuditFilter (Some "NODE") None None None)%string
                        (rev (default [] (al_current full_audit)))).
Proof.
  refine (@audit_tail_newest (audit_env (λ _, false)) _ 2 full_audit _ _ eq_refl _);
    [vm_compute; reflexivity|].
  apply (bool_decide_unpack _). vm_compute. exact I.
Defined.

Lemma audit_read_back_witness :
  ∃ s' ts truncated s'',
    @audit_emit (audit_env (λ _, false)) "node.delete" "n1" "success" None None None [] full_audit
      = (Ok tt, s') ∧
    @read_audit_tail (audit_env (λ _, false)) 1 (mkAuditFilter None None None None) s'
    = (Ok ([mkAuditEntry ts "node.delete" (Some "success") (Some "n1") (Some "unknown") (Some "-")
              [("user", JStr "anon")]]%string, truncated), s'').
Proof.
  exact (@audit_read_back (audit_env (λ _, false)) "node.delete" "n1" "success" None None None []
           full_audit (λ _, eq_refl)).
Defined.

(** A line that is JSON but no object makes the view raise. *)
Lemma audit_view_raises :
  let s := mkAuditLog 0 (Some [TxDoc (JInt 7)]) ∅ in
  ∃ e, (@read_audit_tail (audit_env (λ _, false)) 50 (mkAuditFilter None None None None) s).1 = Raise e
       ∧ ex_kind e = EAttribute.
Proof. vm_compute. eexists. split; reflexivity. Qed.
