(* ===== verification/HostTools.v ===== *)
(** * The privileged command-line tools of the host

    [encoder-admin.py], [camera-admin.py] (host_infra/roles/encoder/files) and
    [service-admin.py]: the programs that the control plane may run as root, each with an
    allowlist of its own in front of [systemctl] and [v4l2-ctl]. A call is what the
    argument parser of the standard library hands over; arguments are ASCII. What a
    program answers is the environment ([tool_answer]). Log lines are not modelled. *)
From Stdlib Require Import Ascii.
From S2P Require Import Prelude.
From S2P Require Import Hoare.
From S2P Require Import PyVal.
From S2P Require Import PyStr.
From S2P Require Import FileStore.

(** How a program ends; [ToolFails] is any exception but the two that are caught. *)
Inductive tool_end := ToolExited (code : Z) (out err : string) | ToolMissing | ToolTimeout | ToolFails.

Class ToolEnv := {
  tool_answer : nat → list string → tool_end;
  device_exists : nat → string → bool;
  is_char_device : nat → string → bool;        (* [false] also when asking raises OSError *)
  RESET_USB_UNIT : string;
}.

Inductive printed := PrintedJson (j : json) | PrintedText (s : string).

Record ToolRun := mkToolRun {
  tl_tick : nat;
  tl_ran : list (list string);
  tl_printed : list printed;
}.

Section tools.
Context {E : ToolEnv}.

Definition tool_tick : M ToolRun nat :=
  t ← get;
  modify (fun t => mkToolRun (S (tl_tick t)) (tl_ran t) (tl_printed t)) ;;
  mret (tl_tick t).

(** [_systemctl], [_v4l2]: a program that is missing or times out counts as exit code -1. *)
Definition tool_run (cmd : list string) : M ToolRun (Z * string * string) :=
  n ← tool_tick;
  modify (fun t => mkToolRun (tl_tick t) (tl_ran t ++ [cmd]) (tl_printed t)) ;;
  match tool_answer n cmd with
  | ToolExited code out err => mret (code, out, py_strip err)
  | ToolMissing | ToolTimeout => mret (-1, ""%string, ""%string)
  | ToolFails => throw EOS
  end.

Definition print (p : printed) : M ToolRun unit :=
  modify (fun t => mkToolRun (tl_tick t) (tl_ran t) (tl_printed t ++ [p])).

(** ** [encoder-admin.py] *)
Definition UNIT_FAMILIES : list (string * (string * bool)) :=
  [("rs-stream", ("rs-stream@", true)); ("realsense-mux", ("realsense-mux", false));
   ("rtp-v4l2", ("rtp-v4l2@", true)); ("rtp-rtsp", ("rtp-rtsp@", true))]%string.

Definition instance_char (c : ascii) : bool :=
  in_range 48 57 c || in_range 65 90 c || in_range 97 122 c || Ascii.eqb c "-" || Ascii.eqb c "_".

(** [_unit_name]; [None] where it raises ValueError. *)
Definition unit_name (family instance : string) : option string :=
  match dget UNIT_FAMILIES family with
  | None => None
  | Some (template, instanced) =>
      if instanced then
        if negb (String.eqb instance "") && forallb instance_char (chars instance)
        then Some (template ++ instance ++ ".service")%string else None
      else Some (template ++ ".service")%string
  end.

(** [_do_action] *)
Definition do_action (action family instance : string) : M ToolRun Z :=
  match unit_name family instance with
  | None => mret 1
  | Some unit =>
      '(rc, _, err) ← tool_run ["systemctl"; action; unit]%string;
      mret (if rc =? 0 then 0
            else if contains "could not be found" (lower err) || contains "loaded units" (lower err) then 2 else 3)
  end.

(** The first line that begins with the key, after the key; an empty value is [None]. *)
Fixpoint timestamp_of (lines : list string) : json :=
  match lines with
  | [] => JNull
  | line :: rest =>
      if startswith line "ActiveEnterTimestamp=" then
        match split1 "=" line with
        | Some (_, v) => if String.eqb v "" then JNull else JStr v
        | None => JNull
        end
      else timestamp_of rest
  end.

Definition ffmpeg_pid (rc : Z) (out : string) : json :=
  if rc =? 0 then
    match parse_int (List.hd ""%string (split "010" (py_strip out))) with Some z => JInt z | None => JNull end
  else JNull.

(** [cmd_status]: the instance goes into the pattern as it is. *)
Definition encoder_status (family instance : string) : M ToolRun Z :=
  match unit_name family instance with
  | None => mret 1
  | Some unit =>
      '(active, _, _) ← tool_run ["systemctl"; "is-active"; unit]%string;
      '(rc, out, _) ← tool_run ["systemctl"; "show"; unit]%string;
      '(pid_rc, pid_out, _) ← tool_run ["pgrep"; "-of"; "ffmpeg.*" ++ instance]%string;
      print (PrintedJson (JObj
        [("unit", JStr unit); ("instance", JStr instance); ("active", JBool (active =? 0)%Z);
         ("active_enter_timestamp", if (rc =? 0)%Z then timestamp_of (splitlines (py_strip out)) else JNull);
         ("ffmpeg_pid", ffmpeg_pid pid_rc pid_out)]%string)) ;;
      mret 0
  end.

Inductive encoder_cmd := EncRestart | EncStop | EncStart | EncStatus.

(** [main] of the tool: the family is one of the parser's choices. *)
Definition encoder_admin (c : encoder_cmd) (family instance : string) : M ToolRun Z :=
  if negb (mem_str family (dkeys UNIT_FAMILIES)) then mret 2
  else try_except
         match c with
         | EncRestart => do_action "restart" family instance
         | EncStop => do_action "stop" family instance
         | EncStart => do_action "start" family instance
         | EncStatus => encoder_status family instance
         end CException (fun _ => mret 5).

(** ** [camera-admin.py] *)

(** [(x+)$] at the end of the text or before its last newline. *)
Definition all_to_end (p : ascii → bool) (l : list ascii) : bool :=
  match match rev l with "010"%char :: r => rev r | _ => l end with
  | [] => false
  | l => forallb p l
  end.

Definition after (p s : string) : option (list ascii) :=
  if startswith s p then Some (drop (length (chars p)) (chars s)) else None.

Definition cam_char (c : ascii) : bool := in_range 97 122 c || in_range 48 57 c || Ascii.eqb c "-".

(** [_DEVICE_RE.match(path)] *)
Definition valid_device (path : string) : bool :=
  match after "/dev/video" path with
  | Some l => all_to_end (in_range 48 57) l
  | None => match after "/dev/cam-" path with Some l => all_to_end cam_char l | None => false end
  end.

(** [_CTRL_NAME_RE.match(name)], of a stripped name. *)
Definition valid_ctrl (name : string) : bool :=
  match chars name with
  | c :: l => in_range 97 122 c && forallb (fun c => in_range 97 122 c || in_range 48 57 c || Ascii.eqb c "_") l
  | [] => false
  end.

Definition v4l2 (args : list string) : M ToolRun (Z * string * string) := tool_run ("v4l2-ctl"%string :: args).

Definition with_device (device : string) (m : M ToolRun Z) : M ToolRun Z :=
  if valid_device device then m else mret 1.

(** A command whose output is handed on. *)
Definition v4l2_show (args : list string) : M ToolRun Z :=
  '(rc, out, _) ← v4l2 args;
  if rc =? 0 then print (PrintedText out) ;; mret 0 else mret 3.

(** A line of [--info]; a wanted line without a colon raises IndexError. *)
Definition info_line (info : dict json) (line : string) : res (dict json) :=
  let line := py_strip line in
  let field k := match split1 ":" line with
                 | Some (_, v) => Ok (dset info k (JStr (py_strip v)))
                 | None => fail EIndex
                 end in
  if startswith line "Driver name" then field "driver"%string
  else if startswith line "Card type" then field "card"%string else Ok info.

Fixpoint info_lines (info : dict json) (lines : list string) : res (dict json) :=
  match lines with [] => Ok info | l :: rest => info ← info_line info l; info_lines info rest end.

Definition camera_status (device : string) : M ToolRun Z :=
  n ← tool_tick;
  let info (is_char responsive : bool) : dict json :=
    [("device", JStr device); ("exists", JBool (device_exists n device)); ("is_char_device", JBool is_char);
     ("v4l2_responsive", JBool responsive)]%string in
  if device_exists n device then
    '(rc, out, _) ← v4l2 ["-d"; device; "--info"]%string;
    info ← lift (let d := info (is_char_device n device) (rc =? 0) in
                 if rc =? 0 then info_lines d (splitlines out) else Ok d);
    print (PrintedJson (JObj info)) ;; mret (if rc =? 0 then 0 else 2)
  else print (PrintedJson (JObj (info false false))) ;; mret 2.

Definition v4l2_info (device : string) : M ToolRun Z :=
  '(rc1, fmt, _) ← v4l2 ["-d"; device; "--get-fmt-video"]%string;
  if negb (rc1 =? 0) then mret 3
  else
    '(rc2, parm, _) ← v4l2 ["-d"; device; "--get-parm"]%string;
    if negb (rc2 =? 0) then mret 3
    else print (PrintedText fmt) ;; print (PrintedText parm) ;; mret 0.

Definition v4l2_set_ctrl (device control : string) : M ToolRun Z :=
  match split1 "=" control with
  | None => mret 1
  | Some (name, value) =>
      let name := py_strip name in
      let value := py_strip value in
      if negb (valid_ctrl name) then mret 1
      else match parse_int value with
           | None => mret 1
           | Some _ =>
               '(rc, _, _) ← v4l2 ["-d"; device; "--set-ctrl"; name ++ "=" ++ value]%string;
               mret (if rc =? 0 then 0 else 3)
           end
  end.

Definition reset_usb : M ToolRun Z :=
  '(rc, _, err) ← tool_run ["systemctl"; "start"; RESET_USB_UNIT]%string;
  mret (if rc =? 0 then 0
        else if contains "not found" (lower err) || contains "could not be found" (lower err) then 2 else 4).

Inductive camera_cmd :=
  CamStatus | CamFormats | CamInfo | CamDriverInfo | CamListDevices | CamCtrls | CamSetCtrl (control : string) | CamResetUsb.

Definition camera_admin (c : camera_cmd) (device : string) : M ToolRun Z :=
  try_except
    match c with
    | CamStatus => with_device device (camera_status device)
    | CamFormats => with_device device (v4l2_show ["-d"; device; "--list-formats-ext"]%string)
    | CamInfo => with_device device (v4l2_info device)
    | CamDriverInfo => with_device device (v4l2_show ["-d"; device; "--info"]%string)
    | CamListDevices => v4l2_show ["--list-devices"]%string
    | CamCtrls => with_device device (v4l2_show ["-d"; device; "--list-ctrls"]%string)
    | CamSetCtrl control => with_device device (v4l2_set_ctrl device control)
    | CamResetUsb => reset_usb
    end CException (fun _ => mret 5).

(** ** [service-admin.py] *)
Definition ALLOWED_UNITS : list string :=
  ["janus"; "coturn"; "janus-textroom-relay"; "janus_camera_page_hook"]%string.
Definition SELF_UNIT : string := "janus-camera-page".

(** [_canon] *)
Definition canon (unit : string) : string :=
  if endswith unit ".service" then str (take (length (chars unit) - length (chars ".service")) (chars unit)) else unit.

Definition service_ctl (args : list string) : M ToolRun Z :=
  '(rc, _, err) ← tool_run ("systemctl"%string :: args); mret (if rc =? 0 then 0 else 4).

Definition service_restart (unit : string) : M ToolRun Z :=
  if String.eqb (canon unit) SELF_UNIT then mret 1
  else if negb (mem_str (canon unit) ALLOWED_UNITS) then mret 1
  else service_ctl ["restart"; unit]%string.

Inductive service_cmd := SvcRestart (unit : string) | SvcReboot.

Definition service_admin (c : service_cmd) : M ToolRun Z :=
  try_except
    match c with SvcRestart unit => service_restart unit | SvcReboot => service_ctl ["reboot"]%string end
    CException (fun _ => mret 5).

(** ** Any call of a tool *)
Inductive tool_call :=
  | EncoderAdmin (c : encoder_cmd) (family instance : string)
  | CameraAdmin (c : camera_cmd) (device : string)
  | ServiceAdmin (c : service_cmd).

Definition run_tool (c : tool_call) : M ToolRun Z :=
  match c with
  | EncoderAdmin c family instance => encoder_admin c family instance
  | CameraAdmin c device => camera_admin c device
  | ServiceAdmin c => service_admin c
  end.
End tools.

(** ** What the tools may do *)
Section confined.
Context {E : ToolEnv}.

Definition encoder_unit (unit : string) : Prop :=
  unit = "realsense-mux.service"%string ∨
  ∃ family instance, family ∈ ["rs-stream"; "rtp-v4l2"; "rtp-rtsp"]%string ∧ instance ≠ ""%string ∧
    Forall (λ c, instance_char c = true) (chars instance) ∧ unit = (family ++ "@" ++ instance ++ ".service")%string.

(** A device file of a camera; a newline may follow. *)
Definition device_path (path : string) : Prop :=
  ∃ dir (p : ascii → bool) l tail, (dir, p) ∈ [("/dev/video"%string, in_range 48 57); ("/dev/cam-"%string, cam_char)] ∧
    l ≠ [] ∧ Forall (λ c, p c = true) l ∧ tail ∈ [[]; ["010"%char]] ∧ chars path = chars dir ++ l ++ tail.

Definition v4l2_options (device : string) (args : list string) : Prop :=
  args = ["--list-devices"%string] ∨
  device_path device ∧
  ((∃ opt, opt ∈ ["--info"; "--list-formats-ext"; "--get-fmt-video"; "--get-parm"; "--list-ctrls"]%string ∧
      args = ["-d"; device; opt]%string) ∨
   ∃ name value, valid_ctrl name = true ∧ parse_int value ≠ None ∧
     args = ["-d"; device; "--set-ctrl"; name ++ "=" ++ value]%string).

(** The programs a call may run. *)
Definition permitted (c : tool_call) (cmd : list string) : Prop :=
  match c with
  | EncoderAdmin a family instance =>
      (∃ verb unit, cmd = ["systemctl"; verb; unit]%string ∧ encoder_unit unit ∧
         match a with
         | EncRestart => verb = "restart" | EncStop => verb = "stop" | EncStart => verb = "start"
         | EncStatus => verb ∈ ["is-active"; "show"]
         end%string) ∨
      (a = EncStatus ∧ cmd = ["pgrep"; "-of"; "ffmpeg.*" ++ instance]%string)
  | CameraAdmin CamResetUsb _ => cmd = ["systemctl"; "start"; RESET_USB_UNIT]%string
  | CameraAdmin _ device => ∃ args, cmd = "v4l2-ctl"%string :: args ∧ v4l2_options device args
  | ServiceAdmin (SvcRestart unit) =>
      cmd = ["systemctl"; "restart"; unit]%string ∧
      ∃ u, u ∈ ALLOWED_UNITS ∧ (unit = u ∨ unit = (u ++ ".service")%string)
  | ServiceAdmin SvcReboot => cmd = ["systemctl"; "reboot"]%string
  end.

Definition ran_only (c : tool_call) (t t' : ToolRun) : Prop :=
  ∃ new, tl_ran t' = tl_ran t ++ new ∧ Forall (permitted c) new.

#[export] Instance ran_only_preorder c : PreOrder (ran_only c).
Proof.
  split.
  - intros t. exists []. by rewrite app_nil_r.
  - intros t1 t2 t3 (n1 & H1 & F1) (n2 & H2 & F2). exists (n1 ++ n2).
    rewrite H2, H1, app_assoc. split; [done|]. by apply Forall_app.
Qed.

Lemma tool_tick_only c : preserves (ran_only c) tool_tick.
Proof. unfold tool_tick. pres. exists []. by rewrite app_nil_r. Qed.
Lemma print_only c p : preserves (ran_only c) (print p).
Proof. unfold print. pres. exists []. by rewrite app_nil_r. Qed.
Hint Resolve tool_tick_only print_only : pres.

Lemma tool_run_only c cmd : permitted c cmd → preserves (ran_only c) (tool_run cmd).
Proof. intros Hc. unfold tool_run. pres. exists [cmd]. split; [done|by constructor]. Qed.

Lemma unit_name_allowed family instance unit : unit_name family instance = Some unit → encoder_unit unit.
Proof.
  unfold unit_name. destruct (dget UNIT_FAMILIES family) as [[template instanced]|] eqn:Hd; [|done].
  apply dget_elem in Hd. unfold UNIT_FAMILIES in Hd. rewrite !elem_of_cons in Hd.
  assert (Hname : ∀ f, f ∈ ["rs-stream"; "rtp-v4l2"; "rtp-rtsp"]%string → template = (f ++ "@")%string → instanced = true →
    (if instanced
     then if negb (String.eqb instance "") && forallb instance_char (chars instance)
          then Some (template ++ instance ++ ".service")%string else None
     else Some (template ++ ".service")%string) = Some unit → encoder_unit unit).
  { intros f Hf -> -> H. destruct (_ && _) eqn:Hi; [|done]. injection H as <-.
    apply andb_true_iff in Hi as [Hne Hall]. right. exists f, instance. split_and!; [done| | |].
    - apply negb_true_iff, String.eqb_neq in Hne. done.
    - apply Forall_forall. intros c Hc. rewrite forallb_forall in Hall. by apply Hall, list_elem_of_In.
    - apply chars_inj. by rewrite !chars_app, <- !app_assoc. }
  destruct Hd as [Hd|[Hd|[Hd|[Hd|Hd]]]]; [..|by apply elem_of_nil in Hd]; injection Hd as -> -> ->.
  - apply (Hname "rs-stream"%string); [set_solver|done..].
  - intros [= <-]. by left.
  - apply (Hname "rtp-v4l2"%string); [set_solver|done..].
  - apply (Hname "rtp-rtsp"%string); [set_solver|done..].
Qed.

Lemma all_to_end_spec p l :
  all_to_end p l = true → ∃ l' tail, l' ≠ [] ∧ Forall (λ c, p c = true) l' ∧ tail ∈ [[]; ["010"%char]] ∧ l = l' ++ tail.
Proof.
  unfold all_to_end. set (m := match rev l with "010"%char :: r => rev r | _ => l end).
  assert (Hm : ∃ tail, tail ∈ [[]; ["010"%char]] ∧ l = m ++ tail).
  { unfold m. destruct (rev l) as [|c r] eqn:Hr; [exists []; split; [by left|by rewrite app_nil_r]|].
    destruct (decide (c = "010"%char)) as [->|Hc].
    - exists ["010"%char]. split; [set_solver|]. apply (f_equal (@rev _)) in Hr. by rewrite rev_involutive in Hr.
    - exists []. split; [by left|]. rewrite app_nil_r. by repeat case_match. }
  destruct Hm as (tail & Ht & Hl). destruct m as [|c m'] eqn:Hm; [done|]. intros Hall.
  exists (c :: m'), tail. split_and!; [done| |done..]. apply Forall_forall. intros x Hx.
  rewrite forallb_forall in Hall. by apply Hall, list_elem_of_In.
Qed.

Lemma after_spec p s l : after p s = Some l → chars s = chars p ++ l.
Proof.
  unfold after, startswith. destruct (is_prefix _ _) eqn:Hp; [|done]. intros [= <-].
  apply is_prefix_spec in Hp as [l' ->]. by rewrite drop_app_length.
Qed.

Lemma valid_device_path path : valid_device path = true → device_path path.
Proof.
  unfold valid_device. destruct (after "/dev/video" path) as [l|] eqn:Ha.
  - intros (l' & tail & Hne & Hall & Ht & ->)%all_to_end_spec. apply after_spec in Ha.
    exists "/dev/video"%string, (in_range 48 57), l', tail. split_and!; [by left|done..].
  - clear Ha. destruct (after "/dev/cam-" path) as [l|] eqn:Ha; [|done].
    intros (l' & tail & Hne & Hall & Ht & ->)%all_to_end_spec. apply after_spec in Ha.
    exists "/dev/cam-"%string, cam_char, l', tail. split_and!; [right; by left|done..].
Qed.

(** *** The calls run permitted programs only *)
Lemma do_action_only a verb family instance :
  match a with EncRestart => verb = "restart" | EncStop => verb = "stop" | EncStart => verb = "start" | EncStatus => False end%string →
  preserves (ran_only (EncoderAdmin a family instance)) (do_action verb family instance).
Proof.
  intros Hv. unfold do_action. destruct (unit_name family instance) as [unit|] eqn:Hu; [|pres].
  apply pres_bind; [apply _| |intros [[rc out] err]; pres].
  apply tool_run_only. left. exists verb, unit. split_and!; [done|by eapply unit_name_allowed|by destruct a].
Qed.

Lemma encoder_status_only family instance :
  preserves (ran_only (EncoderAdmin EncStatus family instance)) (encoder_status family instance).
Proof.
  unfold encoder_status. destruct (unit_name family instance) as [unit|] eqn:Hu; [|pres].
  apply unit_name_allowed in Hu.
  assert (Hctl : ∀ verb, verb ∈ ["is-active"; "show"]%string →
    preserves (ran_only (EncoderAdmin EncStatus family instance)) (tool_run ["systemctl"; verb; unit]%string)).
  { intros verb Hv. apply tool_run_only. left. by exists verb, unit. }
  apply pres_bind; [apply _|apply Hctl; set_solver|intros [[active ?] ?]].
  apply pres_bind; [apply _|apply Hctl; set_solver|intros [[rc out] ?]].
  apply pres_bind; [apply _| |intros [[pid_rc pid_out] ?]; pres].
  apply tool_run_only. by right.
Qed.

Lemma v4l2_only c device args :
  match c with CamResetUsb => False | _ => True end → v4l2_options device args → preserves (ran_only (CameraAdmin c device)) (v4l2 args).
Proof. intros Hc Ha. apply tool_run_only. destruct c; try done; by exists args. Qed.

Lemma v4l2_option_only c device opt :
  match c with CamResetUsb => False | _ => True end → device_path device →
  opt ∈ ["--info"; "--list-formats-ext"; "--get-fmt-video"; "--get-parm"; "--list-ctrls"]%string →
  preserves (ran_only (CameraAdmin c device)) (v4l2 ["-d"; device; opt]%string).
Proof. intros Hc Hd Ho. apply v4l2_only; [done|]. right. split; [done|]. left. eauto. Qed.

Lemma v4l2_show_only c device args :
  preserves (ran_only (CameraAdmin c device)) (v4l2 args) → preserves (ran_only (CameraAdmin c device)) (v4l2_show args).
Proof. intros Hv. unfold v4l2_show. apply pres_bind; [apply _|done|intros [[rc out] ?]; pres]. Qed.

Lemma with_device_only c device m :
  (device_path device → preserves (ran_only c) m) → preserves (ran_only c) (with_device device m).
Proof. intros Hm. unfold with_device. destruct (valid_device device) eqn:Hd; [|pres]. by apply Hm, valid_device_path. Qed.

Lemma camera_status_only device :
  device_path device → preserves (ran_only (CameraAdmin CamStatus device)) (camera_status device).
Proof.
  intros Hd. unfold camera_status. apply pres_bind; [apply _|apply tool_tick_only|intros n]. cbv zeta.
  destruct (device_exists n device); [|pres].
  apply pres_bind; [apply _|apply v4l2_option_only; [done..|set_solver]|intros [[rc out] ?]; pres].
Qed.

Lemma v4l2_info_only device : device_path device → preserves (ran_only (CameraAdmin CamInfo device)) (v4l2_info device).
Proof.
  intros Hd. unfold v4l2_info.
  apply pres_bind; [apply _|apply v4l2_option_only; [done..|set_solver]|intros [[rc1 fmt] ?]].
  destruct (negb _); [pres|].
  apply pres_bind; [apply _|apply v4l2_option_only; [done..|set_solver]|intros [[rc2 parm] ?]; pres].
Qed.

Lemma set_ctrl_only control device :
  device_path device → preserves (ran_only (CameraAdmin (CamSetCtrl control) device)) (v4l2_set_ctrl device control).
Proof.
  intros Hd. unfold v4l2_set_ctrl. destruct (split1 _ _) as [[name value]|]; [|pres]. cbv zeta.
  destruct (valid_ctrl (py_strip name)) eqn:Hn; [|pres]. destruct (parse_int (py_strip value)) eqn:Hv; [|pres]. simpl.
  apply pres_bind; [apply _| |intros [[rc out] ?]; pres].
  apply v4l2_only; [done|]. right. split; [done|]. right. exists (py_strip name), (py_strip value). by rewrite Hv.
Qed.

Lemma canon_allowed unit u : canon unit = u → unit = u ∨ unit = (u ++ ".service")%string.
Proof.
  unfold canon. destruct (endswith unit ".service") eqn:He; [|by left]. intros <-. right.
  unfold endswith in He. apply is_prefix_spec in He as [l Hl]. apply (f_equal (@rev _)) in Hl.
  rewrite rev_involutive, rev_app_distr, rev_involutive in Hl. apply chars_inj. rewrite chars_app, chars_str.
  rewrite Hl, length_app, Nat.add_sub. by rewrite take_app_length.
Qed.

Lemma run_tool_only c : preserves (ran_only c) (run_tool c).
Proof.
  destruct c as [a family instance|a device|a]; simpl.
  - unfold encoder_admin. destruct (negb _); [pres|]. apply pres_try; [apply _| |intros e; pres].
    destruct a; [by apply do_action_only..|apply encoder_status_only].
  - unfold camera_admin. apply pres_try; [apply _| |intros e; pres].
    destruct a; try (apply with_device_only; intros Hd).
    + by apply camera_status_only.
    + apply v4l2_show_only, v4l2_option_only; [done..|set_solver].
    + by apply v4l2_info_only.
    + apply v4l2_show_only, v4l2_option_only; [done..|set_solver].
    + apply v4l2_show_only, v4l2_only; [done|by left].
    + apply v4l2_show_only, v4l2_option_only; [done..|set_solver].
    + by apply set_ctrl_only.
    + unfold reset_usb. apply pres_bind; [apply _|by apply tool_run_only|intros [[rc out] ?]; pres].
  - unfold service_admin. apply pres_try; [apply _| |intros e; pres]. destruct a as [unit|].
    + unfold service_restart. destruct (String.eqb _ _); [pres|]. destruct (mem_str _ _) eqn:Hm; [|pres]. simpl.
      unfold service_ctl. apply pres_bind; [apply _| |intros [[rc out] ?]; pres]. apply tool_run_only. split; [done|].
      exists (canon unit). split; [by apply mem_str_spec|]. by apply canon_allowed.
    + unfold service_ctl. apply pres_bind; [apply _|by apply tool_run_only|intros [[rc out] ?]; pres].
Qed.

(** *** How the calls end *)
Definition acting (c : tool_call) : bool :=
  match c with
  | EncoderAdmin EncStatus _ _ => false
  | CameraAdmin (CamSetCtrl _ | CamResetUsb) _ => true
  | CameraAdmin _ _ => false
  | EncoderAdmin _ _ _ | ServiceAdmin _ => true
  end.

(** One program ran and reported success. *)
Definition succeeded (t t' : ToolRun) : Prop :=
  ∃ cmd out err, tl_ran t' = tl_ran t ++ [cmd] ∧ tool_answer (tl_tick t) cmd = ToolExited 0 out err.

Definition exit_codes : list Z := [0; 1; 2; 3; 4; 5].

(** The exit code of the body of a tool, or an exception that becomes one. *)
Definition ends_well (acts : bool) (t : ToolRun) (r : res Z) (t' : ToolRun) : Prop :=
  match r with
  | Ok code => code ∈ exit_codes ∧ (acts = true → code = 0 → succeeded t t')
  | Raise e => instance_of (ex_kind e) CException = true
  end.

Lemma wp_tool_run {A} (Q : res A → ToolRun → Prop) cmd (f : Z * string * string → M ToolRun A) t :
  (∀ e t', instance_of (ex_kind e) CException = true → Q (Raise e) t') →
  (∀ rc out err t', tl_ran t' = tl_ran t ++ [cmd] →
     (rc = 0 → ∃ o e, tool_answer (tl_tick t) cmd = ToolExited 0 o e) → wp (f (rc, out, err)) Q t') →
  wp (tool_run cmd ≫= f) Q t.
Proof.
  intros Hraise Hf. apply wp_bind. unfold tool_run, tool_tick. wp_steps.
  destruct (tool_answer (tl_tick t) cmd) as [code out err| | |] eqn:Ha; wp_steps; [..|by apply Hraise];
    apply Hf; try done; intros ->; eauto.
Qed.

Lemma wp_run_one (acts : bool) cmd (g : Z → string → Z) t :
  (∀ rc err, g rc err ∈ exit_codes ∧ (g rc err = 0 → rc = 0)) →
  wp ('(rc, _, err) ← tool_run cmd; mret (g rc err)) (ends_well acts t) t.
Proof.
  intros Hg. apply wp_tool_run; [done|]. intros rc out err t' Hran Hok. wp_steps.
  destruct (Hg rc err) as [Hc H0]. split; [done|]. intros _ Hz. destruct (Hok (H0 Hz)) as (o & e & Ha). by exists cmd, o, e.
Qed.

Lemma wp_code (acts : bool) code t t' :
  code ∈ exit_codes → (acts = true → code ≠ 0) → wp (mret code) (ends_well acts t) t'.
Proof. intros Hc Ha. apply wp_ret. split; [done|]. intros H0 Hz. by destruct (Ha H0). Qed.

Ltac listed := apply (bool_decide_unpack _); vm_compute; exact I.
Ltac code := apply wp_code; [listed|intros; first [discriminate|lia]].
Ltac plain := repeat first [apply wp_tool_run; [done|intros ? ? ? ? _ _]|code|progress wp_steps|case_match].

Lemma do_action_ends verb family instance t : wp (do_action verb family instance) (ends_well true t) t.
Proof.
  unfold do_action. destruct (unit_name family instance) as [unit|]; [|code].
  apply (wp_run_one true _ (λ rc err, if rc =? 0 then 0 else
    if contains "could not be found" (lower err) || contains "loaded units" (lower err) then 2 else 3)).
  intros rc err. destruct (rc =? 0) eqn:Hrc; [split; [listed|lia]|]. case_match; (split; [listed|lia]).
Qed.

Lemma encoder_status_ends family instance t : wp (encoder_status family instance) (ends_well false t) t.
Proof. unfold encoder_status, print. plain. Qed.

Lemma v4l2_show_ends args t : wp (v4l2_show args) (ends_well false t) t.
Proof. unfold v4l2_show, v4l2, print. plain. Qed.

Lemma v4l2_info_ends device t : wp (v4l2_info device) (ends_well false t) t.
Proof. unfold v4l2_info, v4l2, print. plain. Qed.

Lemma info_lines_raises info lines e : info_lines info lines = Raise e → instance_of (ex_kind e) CException = true.
Proof.
  revert info. induction lines as [|line lines IH]; intros info; simpl; [done|].
  destruct (info_line info line) as [info'|e'] eqn:Hl; [apply IH|]. intros [= <-].
  unfold info_line, fail in Hl. repeat case_match; by simplify_eq.
Qed.

Lemma camera_status_ends device t : wp (camera_status device) (ends_well false t) t.
Proof.
  unfold camera_status, v4l2, print, tool_tick. wp_steps. cbv zeta.
  destruct (device_exists _ device); [|plain].
  eapply (wp_mono _ (ends_well false (mkToolRun (S (tl_tick t)) (tl_ran t) (tl_printed t)))).
  - apply wp_tool_run; [done|]. intros rc out err t' _ _. wp_steps.
    destruct (rc =? 0); [|plain]. destruct (info_lines _ _) as [info|e] eqn:Hi; [plain|]. by apply info_lines_raises in Hi.
  - intros [code|e] t' H; [|done]. split; [apply H|done].
Qed.

Lemma set_ctrl_ends device control t : wp (v4l2_set_ctrl device control) (ends_well true t) t.
Proof.
  unfold v4l2_set_ctrl, v4l2. destruct (split1 _ _) as [[name value]|]; [|code]. cbv zeta.
  destruct (negb _); [code|]. destruct (parse_int _); [|code].
  apply (wp_run_one true _ (λ rc _, if rc =? 0 then 0 else 3)).
  intros rc err. destruct (rc =? 0) eqn:Hrc; (split; [listed|lia]).
Qed.

Lemma reset_usb_ends t : wp reset_usb (ends_well true t) t.
Proof.
  unfold reset_usb. apply (wp_run_one true _ (λ rc err, if rc =? 0 then 0 else
    if contains "not found" (lower err) || contains "could not be found" (lower err) then 2 else 4)).
  intros rc err. destruct (rc =? 0) eqn:Hrc; [split; [listed|lia]|]. case_match; (split; [listed|lia]).
Qed.

Lemma service_ctl_ends args t : wp (service_ctl args) (ends_well true t) t.
Proof.
  unfold service_ctl. apply (wp_run_one true _ (λ rc _, if rc =? 0 then 0 else 4)).
  intros rc err. destruct (rc =? 0) eqn:Hrc; (split; [listed|lia]).
Qed.

(** A tool's one program, and what the exit code 0 says of it. *)
Definition ran_one (cmd : list string) (t : ToolRun) (r : res Z) (t' : ToolRun) : Prop :=
  tl_ran t' = tl_ran t ++ [cmd] ∧
  match r with
  | Ok code => code = 0 → ∃ n out err, tool_answer n cmd = ToolExited 0 out err
  | Raise e => instance_of (ex_kind e) CException = true
  end.

Lemma run_one_ran cmd (g : Z → string → Z) t :
  (∀ rc err, g rc err = 0 → rc = 0) →
  wp ('(rc, _, err) ← tool_run cmd; mret (g rc err)) (ran_one cmd t) t.
Proof.
  intros Hg. apply wp_bind. unfold tool_run, tool_tick. wp_steps.
  destruct (tool_answer (tl_tick t) cmd) as [code out err| | |] eqn:Ha; wp_steps; split; try done; intros Hz%Hg; try lia.
  subst code. eauto.
Qed.

Lemma do_action_ran verb family instance unit t :
  unit_name family instance = Some unit →
  wp (do_action verb family instance) (ran_one ["systemctl"; verb; unit]%string t) t.
Proof.
  intros Hu. unfold do_action. rewrite Hu. apply (run_one_ran _ (λ rc err, if rc =? 0 then 0 else
    if contains "could not be found" (lower err) || contains "loaded units" (lower err) then 2 else 3)).
  intros rc err. destruct (rc =? 0) eqn:Hrc; [lia|]. by case_match.
Qed.

Lemma service_ctl_ran args t : wp (service_ctl args) (ran_one ("systemctl"%string :: args) t) t.
Proof.
  apply (run_one_ran _ (λ rc _, if rc =? 0 then 0 else 4)). intros rc err. destruct (rc =? 0) eqn:Hrc; [lia|done].
Qed.

(** As [main] of the tool ends it. *)
Lemma guarded_ran cmd (m : M ToolRun Z) t :
  wp m (ran_one cmd t) t →
  wp (try_except m CException (fun _ => mret 5))
    (λ r t', ∃ code, r = Ok code ∧ tl_ran t' = tl_ran t ++ [cmd] ∧
                     (code = 0 → ∃ n out err, tool_answer n cmd = ToolExited 0 out err)) t.
Proof.
  intros Hm. apply wp_try. eapply wp_mono; [exact Hm|]. intros [code|e] t' [Hr H]; unfold or_catch.
  - by exists code.
  - rewrite H. apply wp_ret. by exists 5.
Qed.

(** An exception becomes exit code 5. *)
Lemma guarded_ends acts (m : M ToolRun Z) t :
  wp m (ends_well acts t) t →
  wp (try_except m CException (fun _ => mret 5))
    (λ r t', ∃ code, r = Ok code ∧ code ∈ exit_codes ∧ (acts = true → code = 0 → succeeded t t')) t.
Proof.
  intros Hm. apply wp_try. eapply wp_mono; [exact Hm|]. intros [code|e] t' H; unfold or_catch.
  - exists code. destruct H as [Hc Hs]. by split.
  - unfold ends_well in H. rewrite H. apply wp_ret. exists 5. split; [done|]. split; [listed|done].
Qed.

Lemma with_device_ends acts device m t :
  wp m (ends_well acts t) t → wp (with_device device m) (ends_well acts t) t.
Proof. intros Hm. unfold with_device. destruct (valid_device device); [done|code]. Qed.


(** The control plane's own service is never restarted. *)
Lemma self_is_refused unit t t' :
  canon unit = SELF_UNIT → run_tool (ServiceAdmin (SvcRestart unit)) t = (Ok 1, t') → t' = t.
Proof. intros Hc. simpl. unfold service_admin, service_restart. rewrite Hc. simpl. by intros [= <-]. Qed.
End confined.

(** ** Finding: what the allowlists let through *)

(** A device path may end in a newline, since [$] matches before it. *)
Example device_newline : valid_device ("/dev/cam-rgb" ++ String "010" "") = true.
Proof. reflexivity. Qed.

(** Of a family without instances the instance is not looked at, and goes into the pattern
    that [pgrep] gets as root. *)
Example unchecked_instance :
  unit_name "realsense-mux" ".*|ssh" = Some "realsense-mux.service"%string ∧ unit_name "rs-stream" ".*|ssh" = None.
Proof. split; reflexivity. Qed.

Example canon_ex : (canon "janus.service", canon "janus-camera-page.service") = ("janus", SELF_UNIT)%string.
Proof. reflexivity. Qed.
