(* ===== verification/AdminActions.v ===== *)
(** * The dashboard's service and encoder actions

    [app/application/services_admin.py], [app/application/encoder_admin.py] with their
    adapters [app/services/encoder_admin.py], [service_control.py], [systemd.py]: what an
    administrator starts, stops and restarts, through the privileged tools of [HostTools]
    that run behind [sudo]. The domain errors carry the status their routes answer with.
    A program that is only read from ([systemctl show]) is recorded like those of the
    tools. The poll's pause is not modelled. *)
From Stdlib Require Import Ascii.
From S2P Require Import Prelude.
From S2P Require Import Hoare.
From S2P Require Import PyVal.
From S2P Require Import PyStr.
From S2P Require Import FileStore.
From S2P Require Import AuditLog.
From S2P Require Import HostTools.

(** How [sudo] ends: it runs the tool, whose log is its stderr; it refuses with exit code 1; it is missing;
    or the caller's time is up, when the tool may have done its work. *)
Inductive sudo_end := SudoRuns (stderr : string) | SudoRefuses (stderr : string) | SudoMissing | SudoTimeout.

Class AdminEnv := {
  sudo_ends : nat → sudo_end;
  DEFAULT_INSTANCE : string;                    (* of the tool, when none is given *)
  env_text : nat → string → option string;     (* an env file of an encoder *)
}.

Record Admin := mkAdmin { ad_tools : ToolRun; ad_audit : AuditLog }.

Record ServiceState := mkServiceState {
  sv_name : string; sv_active : bool; sv_state : string; sv_enabled : bool; sv_sub_state : option string;
  sv_main_pid : option Z; sv_memory : option Z;
}.

Record RestartResponse := mkRestartResponse {
  rs_service : string; rs_method : string; rs_ok : bool; rs_new_state : string; rs_stderr : option string;
}.

Record EncoderActionResponse := mkEncoderResponse {
  er_family : string; er_instance : option string; er_action : string; er_ok : bool; er_rc : Z;
  er_stderr : option string;
}.

Record EncoderInstanceStatus := mkEncoderStatus {
  ei_family : string; ei_instance : option string; ei_unit : string; ei_active : bool;
  ei_active_enter_timestamp : option string; ei_ffmpeg_pid : option Z; ei_rtp_port : option Z;
  ei_tuning_env_path : option string; ei_contract_env_path : option string;
  ei_width : option Z; ei_height : option Z; ei_fps : option Z; ei_bitrate : option Z;
}.

Inductive restart_method := BySystemctl (unit : string) | ByEncoderAdmin (unit : string).

(** [RESTART_DISPATCH] *)
Definition RESTART_DISPATCH : list (string * restart_method) :=
  [("janus", BySystemctl "janus"); ("janus-textroom-relay", BySystemctl "janus-textroom-relay");
   ("janus_camera_page_hook", BySystemctl "janus_camera_page_hook"); ("coturn", BySystemctl "coturn");
   ("realsense-mux", ByEncoderAdmin "realsense-mux"); ("rs-stream@color", ByEncoderAdmin "rs-stream@color")]%string.

Definition KNOWN_SERVICES : list string :=
  ["janus"; "janus-camera-page"; "janus-textroom-relay"; "janus_camera_page_hook"; "coturn"; "realsense-mux";
   "rs-stream@color"]%string.

Definition SELF_SERVICE : string := "janus-camera-page".

Definition ENCODER_FAMILIES : list string := ["rtp-v4l2"; "rtp-rtsp"; "rs-stream"; "realsense-mux"]%string.
Definition INSTANCED_FAMILIES : list string := ["rtp-v4l2"; "rtp-rtsp"; "rs-stream"]%string.

Definition alnum (c : ascii) : bool := in_range 48 57 c || in_range 65 90 c || in_range 97 122 c.

(** [INSTANCE_RE.match(instance)]; a newline may follow. *)
Definition instance_ok (instance : string) : bool :=
  match chars instance with
  | c :: l =>
      let l := match rev l with "010"%char :: r => rev r | _ => l end in
      alnum c && (length l <=? 31)%nat && forallb instance_char l
  | [] => false
  end.

(** [parse_family_instance] *)
Definition parse_family_instance (unit : string) : string * option string :=
  match split1 "@" unit with Some (f, i) => (f, Some i) | None => (unit, None) end.

(** [x.isdigit()] *)
Definition isdigit (s : string) : bool :=
  match chars s with [] => false | l => forallb (in_range 48 57) l end.

Section admin.
Context {T : ToolEnv} {A : AuditEnv} {E : AdminEnv}.

Definition on_tools {X} (m : M ToolRun X) : M Admin X :=
  zoom ad_tools (fun t a => mkAdmin t (ad_audit a)) m.
Definition audit_admin (action : string) (details : dict json) : M Admin unit :=
  zoom ad_audit (fun l a => mkAdmin (ad_tools a) l) (audit action details None None None).

(** ** The adapters *)

(** [subprocess.run(["sudo", "-n", tool, ...])]: the exit code and the stripped stderr. *)
Definition sudo_tool (c : tool_call) : M Admin (Z * string) :=
  n ← on_tools tool_tick;
  match sudo_ends n with
  | SudoRuns stderr => rc ← on_tools (run_tool c); mret (rc, py_strip stderr)
  | SudoRefuses stderr => mret (1, py_strip stderr)
  | SudoMissing => throw ERuntime
  | SudoTimeout => on_tools (run_tool c) ;; throw ERuntime
  end.

(** [encoder_admin.invoke]: without an instance the tool takes its default. *)
Definition invoke (c : encoder_cmd) (family : string) (instance : option string) : M Admin (Z * string) :=
  let given := match instance with
               | Some i => if negb (String.eqb i "") && mem_str family INSTANCED_FAMILIES then i else DEFAULT_INSTANCE
               | None => DEFAULT_INSTANCE
               end in
  sudo_tool (EncoderAdmin c family given).

(** [service_control.restart_unit] *)
Definition restart_unit (unit : string) : M Admin (Z * string) := sudo_tool (ServiceAdmin (SvcRestart unit)).

(** [systemd.show] *)
Definition add_property (d : dict string) (line : string) : dict string :=
  match split1 "=" line with Some (k, v) => dset d k v | None => d end.

Definition show_cmd (unit : string) : list string := ["systemctl"; "show"; unit; "--no-page"]%string.

Definition show (unit : string) : M Admin (option (dict string)) :=
  '(rc, out, _) ← on_tools (tool_run (show_cmd unit));
  mret (if rc =? 0 then Some (fold_left add_property (splitlines out) []) else None).

(** ** [services_admin.py] *)
Definition prop (info : dict string) (k d : string) : string := default d (dget info k).
Definition nonempty (s : string) : option string := if String.eqb s "" then None else Some s.
Definition pid_of (raw : string) : option Z :=
  if isdigit raw then match parse_int raw with Some z => if 0 <? z then Some z else None | None => None end else None.

Definition state_of (name : string) (info : option (dict string)) : ServiceState :=
  let absent := mkServiceState name false "absent" false None None None in
  match info with
  | None => absent
  | Some info =>
      if mem_str (prop info "LoadState" "") ["not-found"; "masked"]%string then absent
      else
        let active := prop info "ActiveState" "unknown" in
        let mem := prop info "MemoryCurrent" "" in
        mkServiceState name (String.eqb active "active") active
          (mem_str (prop info "UnitFileState" "") ["enabled"; "enabled-runtime"; "static"]%string)
          (nonempty (prop info "SubState" "")) (pid_of (prop info "MainPID" "0"))
          (if isdigit mem then parse_int mem else None)
  end%string.

Definition service_state (name : string) : M Admin ServiceState := info ← show name; mret (state_of name info).

Fixpoint service_states (names : list string) : M Admin (list ServiceState) :=
  match names with
  | [] => mret []
  | n :: rest => s ← service_state n; ss ← service_states rest; mret (s :: ss)
  end.

Definition dispatched (m : restart_method) : M Admin (Z * string) :=
  match m with
  | ByEncoderAdmin unit => let '(family, instance) := parse_family_instance unit in invoke EncRestart family instance
  | BySystemctl unit => restart_unit unit
  end.

Definition method_name (m : restart_method) : string :=
  match m with ByEncoderAdmin _ => "encoder-admin" | BySystemctl _ => "systemctl" end.

Definition some_text (s : string) : option string := if String.eqb s "" then None else Some s.

Definition restart_service (service : string) : M Admin RestartResponse :=
  if String.eqb service SELF_SERVICE then
    audit_admin "admin_dashboard.restart.refused_self" [("service", JStr service)]%string ;; throw (EHttp 400)
  else
    match dget RESTART_DISPATCH service with
    | None => audit_admin "admin_dashboard.restart.unknown" [("service", JStr service)]%string ;; throw (EHttp 400)
    | Some m =>
        '(rc, stderr) ← try_except (dispatched m) CRuntimeError (fun e =>
          audit_admin "admin_dashboard.restart.failed"
            [("service", JStr service); ("method", JStr (method_name m));
             ("error", JStr (String.substring 0 120 (ex_msg e)))]%string ;;
          throw (EHttp 500));
        new ← service_state service;
        let ok := (rc =? 0) && sv_active new in
        audit_admin ("admin_dashboard.restart" ++ (if ok then ".ok" else ".failed"))
          [("service", JStr service); ("method", JStr (method_name m)); ("rc", JInt rc);
           ("new_state", JStr (sv_state new)); ("stderr", JStr (String.substring 0 200 stderr))]%string ;;
        mret (if rc =? 0 then mkRestartResponse service (method_name m) ok (sv_state new) (some_text stderr)
              else mkRestartResponse service (method_name m) false (sv_state new)
                     (Some (if String.eqb stderr "" then "command exit code " ++ pretty rc else stderr)%string))
    end.

(** ** [application/encoder_admin.py] *)
Definition opt_json (o : option string) : json := match o with Some s => JStr s | None => JNull end.

(** [validate_encoder_target] *)
Definition valid_target (family : string) (instance : option string) : bool :=
  mem_str family ENCODER_FAMILIES
  && (negb (mem_str family INSTANCED_FAMILIES)
      || match instance with Some i => negb (String.eqb i "") && instance_ok i | None => false end).

Definition action_name (c : encoder_cmd) : string :=
  match c with EncRestart => "restart" | EncStop => "stop" | EncStart => "start" | EncStatus => "status" end.

Definition encoder_action (c : encoder_cmd) (family : string) (instance : option string) : M Admin EncoderActionResponse :=
  '(rc, stderr) ← try_except (invoke c family instance) CRuntimeError (fun e =>
    audit_admin "admin_dashboard.encoder.exec_failed"
      [("family", JStr family); ("instance", opt_json instance); ("action", JStr (action_name c));
       ("error", JStr (String.substring 0 120 (ex_msg e)))]%string ;;
    throw (EHttp 500));
  audit_admin ("admin_dashboard.encoder." ++ action_name c ++ (if rc =? 0 then "" else "_failed"))
    [("family", JStr family); ("instance", opt_json instance); ("rc", JInt rc);
     ("stderr", JStr (String.substring 0 200 stderr))]%string ;;
  mret (mkEncoderResponse family instance (action_name c) (rc =? 0) rc (some_text stderr)).

Definition start_encoder (family : string) (instance : option string) : M Admin EncoderActionResponse :=
  if valid_target family instance then encoder_action EncStart family instance else throw (EHttp 400).
Definition stop_encoder (family : string) (instance : option string) : M Admin EncoderActionResponse :=
  if valid_target family instance then encoder_action EncStop family instance else throw (EHttp 400).
(** [encoder_env.read_env_file] *)
Definition unquoted (v : string) : string :=
  let q c := startswith v (String c "") && endswith v (String c "") in
  if q quote2 || q quote1 then str (drop 1 (take (length (chars v) - 1) (chars v))) else v.

Definition add_env_line (env : dict string) (line : string) : dict string :=
  let line := py_strip line in
  if String.eqb line "" || startswith line "#" then env
  else match split1 "=" line with
       | Some (k, v) => dset env (py_strip k) (unquoted (py_strip v))
       | None => env
       end.

Definition read_env_file (n : nat) (path : string) : dict string :=
  match env_text n path with Some t => fold_left add_env_line (splitlines t) [] | None => [] end.

Definition env_path (family instance kind : string) : string :=
  ("/etc/robot/" ++ family ++ "-" ++ instance ++ "." ++ kind ++ ".env")%string.

(** [int(env[k]) if env.get(k) else None]; [None] outside for ValueError. *)
Definition env_number (env : dict string) (k : string) : option (option Z) :=
  match dget env k with
  | Some v => if String.eqb v "" then Some None else Some <$> parse_int v
  | None => Some None
  end.

(** The numbers up to the first that does not parse; the rest stay unset. *)
Fixpoint env_numbers (env : dict string) (keys : list string) : list (option Z) :=
  match keys with
  | [] => []
  | k :: rest => match env_number env k with
                 | Some z => z :: env_numbers env rest
                 | None => map (fun _ => None) keys
                 end
  end.

Definition instance_status (family : string) (instance : option string) : M Admin EncoderInstanceStatus :=
  let named := match instance with Some i => if String.eqb i "" then None else Some i | None => None end in
  let unit := match named with Some i => family ++ "@" ++ i | None => family end%string in
  info ← show (unit ++ ".service")%string;
  n ← on_tools tool_tick;
  let info := default [] info in
  let '(port, tuning) :=
    match named with
    | Some i => (default None (env_number (read_env_file n (env_path family i "contract")) "PORT"),
                 env_numbers (read_env_file n (env_path family i "tuning")) ["WIDTH"; "HEIGHT"; "FPS"; "BITRATE_KBPS"])
    | None => (None, [])
    end%string in
  let number k := default None (tuning !! k) in
  let path kind := i ← named; Some (env_path family i kind) in
  mret (mkEncoderStatus family instance unit (bool_decide (dget info "ActiveState" = Some "active"))
          (match dget info "ActiveEnterTimestamp" with Some t => nonempty t | None => None end)
          (pid_of (prop info "MainPID" "0")) port (path "tuning") (path "contract") (number 0%nat) (number 1%nat) (number 2%nat) (number 3%nat))%string.

(** A line of [systemctl list-units]: its first word, a blank after it, when it is the unit
    of an encoder. *)
Fixpoint first_word (l : list ascii) : list ascii * list ascii :=
  match l with
  | c :: rest => if is_py_space c then ([], l) else let '(w, r) := first_word rest in (c :: w, r)
  | [] => ([], [])
  end.

Definition unit_of_line (line : string) : option (string * option string) :=
  let '(w, rest) := first_word (lstrip_chars (chars line)) in
  match rest with
  | [] => None
  | _ =>
      if endswith (str w) ".service" then
        let unit := canon (str w) in
        match split1 "@" unit with
        | Some (f, i) => if mem_str f ENCODER_FAMILIES && negb (String.eqb i "") && forallb instance_char (chars i)
                         then Some (f, Some i) else None
        | None => if mem_str unit ENCODER_FAMILIES then Some (unit, None) else None
        end
      else None
  end.

Definition list_units_cmd : list string :=
  ["systemctl"; "list-units"; "--type=service"; "--no-pager"; "--no-legend"; "--all"]%string.

Definition discover_units : M Admin (list (string * option string)) :=
  '(rc, out, _) ← on_tools (tool_run list_units_cmd);
  mret (if rc =? 0 then omap unit_of_line (splitlines out) else []).

Fixpoint instance_statuses (units : list (string * option string)) : M Admin (list EncoderInstanceStatus) :=
  match units with
  | [] => mret []
  | (f, i) :: rest => s ← instance_status f i; ss ← instance_statuses rest; mret (s :: ss)
  end.

Definition list_instances : M Admin (list EncoderInstanceStatus) := units ← discover_units; instance_statuses units.

(** ** The operations that act *)
Inductive admin_op :=
  | RestartService (service : string)
  | StartEncoder (family : string) (instance : option string)
  | StopEncoder (family : string) (instance : option string).

Inductive op_reply := Restarted (r : RestartResponse) | Acted (r : EncoderActionResponse).

Definition run_admin_op (op : admin_op) : M Admin op_reply :=
  match op with
  | RestartService s => r ← restart_service s; mret (Restarted r)
  | StartEncoder f i => r ← start_encoder f i; mret (Acted r)
  | StopEncoder f i => r ← stop_encoder f i; mret (Acted r)
  end.

Definition reply_ok (r : op_reply) : bool := match r with Restarted r => rs_ok r | Acted r => er_ok r end.
End admin.

Example unit_of_line_ex :
  map unit_of_line ["  rs-stream@color.service loaded active running Encoder"; "janus.service loaded";
                    "realsense-mux.service loaded"; "rs-stream@.service loaded"]%string
  = [Some ("rs-stream", Some "color"); None; Some ("realsense-mux", None); None]%string.
Proof. reflexivity. Qed.

(** A newline after the instance passes the application's check but not the tool's. *)
Example newline_passes :
  let instance := ("cam" ++ String "010" "")%string in
  valid_target "rtp-v4l2" (Some instance) = true ∧ unit_name "rtp-v4l2" instance = None.
Proof. split; reflexivity. Qed.

(** ** What an operation reaches *)
Section reach.
Context {T : ToolEnv} {A : AuditEnv} {E : AdminEnv}.

(** The unit an operation is about, with the verb; nothing when it is refused. *)
Definition op_target (op : admin_op) : option (string * string) :=
  let encoder verb f i :=
    if valid_target f i
    then Some (verb, if mem_str f INSTANCED_FAMILIES then f ++ "@" ++ default "" i ++ ".service" else f ++ ".service")%string
    else None in
  match op with
  | RestartService s =>
      match dget RESTART_DISPATCH s with
      | Some (BySystemctl u) => Some ("restart"%string, u)
      | Some (ByEncoderAdmin u) => Some ("restart", u ++ ".service")%string
      | None => None
      end
  | StartEncoder f i => encoder "start"%string f i
  | StopEncoder f i => encoder "stop"%string f i
  end.

(** The program that acts ran, or not; afterwards the state may be read. *)
Definition reaches (cmd : list string) (t t' : ToolRun) (acted : bool) : Prop :=
  ∃ tail, (tail = [] ∨ ∃ u, tail = [show_cmd u]) ∧ tl_ran t' = tl_ran t ++ (if acted then [cmd] else []) ++ tail.

Definition op_spec (op : admin_op) (a : Admin) (r : res op_reply) (a' : Admin) : Prop :=
  match op_target op with
  | None => r = Raise (Exn (EHttp 400) "") ∧ ad_tools a' = ad_tools a
  | Some (verb, unit) =>
      let cmd := ["systemctl"; verb; unit]%string in
      ∃ acted, reaches cmd (ad_tools a) (ad_tools a') acted ∧
        ∀ reply, r = Ok reply → reply_ok reply = true →
          acted = true ∧ ∃ n out err, tool_answer n cmd = ToolExited 0 out err
  end.

Definition answered (cmd : list string) : Prop := ∃ n out err, tool_answer n cmd = ToolExited 0 out err.

(** The tool runs its one program or none, and succeeds only with it. *)
Definition tool_ran (cmd : list string) (t : ToolRun) (r : res Z) (t' : ToolRun) : Prop :=
  ∃ code acted, r = Ok code ∧ tl_ran t' = tl_ran t ++ (if acted : bool then [cmd] else []) ∧
    (code = 0 → acted = true ∧ answered cmd).

Lemma tool_idle cmd code t : code ≠ 0 → wp (mret code) (tool_ran cmd t) t.
Proof. intros Hc. apply wp_ret. exists code, false. rewrite app_nil_r. split_and!; [done..|]. by intros ?. Qed.

Lemma tool_acts cmd (m : M ToolRun Z) t :
  wp m (ran_one cmd t) t → wp (try_except m CException (fun _ => mret 5)) (tool_ran cmd t) t.
Proof.
  intros Hm. eapply wp_mono; [by apply guarded_ran|]. intros r t' (code & -> & Hr & H).
  exists code, true. split_and!; [done..|]. intros Hz. split; [done|by apply H].
Qed.

Lemma encoder_tool_ran c f i cmd t :
  c ≠ EncStatus → (∀ u, unit_name f i = Some u → ["systemctl"; action_name c; u]%string = cmd) →
  wp (run_tool (EncoderAdmin c f i)) (tool_ran cmd t) t.
Proof.
  intros Hc Hu. simpl. unfold encoder_admin. destruct (negb _); [by apply tool_idle|].
  destruct (unit_name f i) as [u|] eqn:Hn.
  - specialize (Hu u eq_refl). subst cmd. apply tool_acts. destruct c; [..|done]; by apply do_action_ran.
  - apply wp_try. eapply (wp_mono _ (tool_ran cmd t)).
    + destruct c; [..|done]; unfold do_action; rewrite Hn; by apply tool_idle.
    + intros r t' H. pose proof H as (code & acted & -> & _). exact H.
Qed.

Lemma service_tool_ran u t :
  String.eqb (canon u) SELF_UNIT = false → mem_str (canon u) ALLOWED_UNITS = true →
  wp (run_tool (ServiceAdmin (SvcRestart u))) (tool_ran ["systemctl"; "restart"; u]%string t) t.
Proof.
  intros Hs Hm. simpl. unfold service_admin, service_restart. rewrite Hs, Hm. cbn [negb].
  apply tool_acts, service_ctl_ran.
Qed.

(** Through [sudo] the program may also not be reached, or be cut off. *)
Lemma wp_sudo cmd c a :
  (∀ t, wp (run_tool c) (tool_ran cmd t) t) →
  wp (sudo_tool c) (λ r a', ∃ acted : bool,
    tl_ran (ad_tools a') = tl_ran (ad_tools a) ++ (if acted then [cmd] else []) ∧
    match r with
    | Ok (rc, _) => rc = 0 → acted = true ∧ answered cmd
    | Raise e => e = Exn ERuntime ""
    end) a.
Proof.
  intros Hc. unfold sudo_tool, on_tools. apply wp_bind, wp_zoom. unfold tool_tick. wp_steps.
  set (t := mkToolRun _ _ _). destruct (sudo_ends _).
  - apply wp_bind, wp_zoom. eapply wp_mono; [apply (Hc t)|]. intros r t' (code & acted & -> & Hr & H). wp_steps. by exists acted.
  - wp_steps. exists false. by rewrite app_nil_r.
  - wp_steps. exists false. by rewrite app_nil_r.
  - apply wp_bind, wp_zoom. eapply wp_mono; [apply (Hc t)|]. intros r t' (code & acted & -> & Hr & H). wp_steps. by exists acted.
Qed.

Lemma wp_audit_admin action details (Q : res unit → Admin → Prop) a :
  (∀ a', ad_tools a' = ad_tools a → Q (Ok tt) a') → wp (audit_admin action details) Q a.
Proof.
  intros H. unfold audit_admin. apply wp_zoom. unfold audit.
  eapply wp_mono; [apply wp_emit|]. intros r l [-> _]. by apply H.
Qed.

Lemma invoke_ran c f i a :
  c ≠ EncStatus →
  (∀ u, unit_name f (match i with
                     | Some i => if negb (String.eqb i "") && mem_str f INSTANCED_FAMILIES then i else DEFAULT_INSTANCE
                     | None => DEFAULT_INSTANCE end) = Some u →
        u = if mem_str f INSTANCED_FAMILIES then (f ++ "@" ++ default "" i ++ ".service")%string
            else (f ++ ".service")%string) →
  let cmd := ["systemctl"; action_name c; if mem_str f INSTANCED_FAMILIES then f ++ "@" ++ default "" i ++ ".service"
                                          else f ++ ".service"]%string in
  wp (invoke c f i) (λ r a', ∃ acted : bool,
    tl_ran (ad_tools a') = tl_ran (ad_tools a) ++ (if acted then [cmd] else []) ∧
    match r with Ok (rc, _) => rc = 0 → acted = true ∧ answered cmd | Raise e => e = Exn ERuntime "" end) a.
Proof.
  intros Hc Hu cmd. unfold invoke. apply wp_sudo. intros t. apply encoder_tool_ran; [done|].
  intros u Hn. unfold cmd. by rewrite (Hu u Hn).
Qed.

(** The unit of a valid target is the one the tool builds. *)
Lemma target_unit f i u :
  valid_target f i = true →
  unit_name f (match i with
               | Some i => if negb (String.eqb i "") && mem_str f INSTANCED_FAMILIES then i else DEFAULT_INSTANCE
               | None => DEFAULT_INSTANCE end) = Some u →
  u = if mem_str f INSTANCED_FAMILIES then (f ++ "@" ++ default "" i ++ ".service")%string else (f ++ ".service")%string.
Proof.
  intros Hv. unfold valid_target in Hv. apply andb_true_iff in Hv as [Hf Hi].
  unfold unit_name. apply mem_str_spec in Hf. unfold ENCODER_FAMILIES in Hf. rewrite !elem_of_cons in Hf.
  destruct Hf as [->|[->|[->|[->|Hf]]]]; [..|by apply elem_of_nil in Hf]; cbn -[instance_ok instance_char String.append] in *;
    try (by intros [= <-]); destruct i as [i|]; try done;
    apply andb_true_iff in Hi as [Hne _]; rewrite Hne; cbn -[instance_char String.append];
    (destruct (_ && _); [|done]); by intros [= <-].
Qed.

Lemma encoder_action_spec c f i a :
  c ≠ EncStatus → valid_target f i = true →
  let cmd := ["systemctl"; action_name c; if mem_str f INSTANCED_FAMILIES then f ++ "@" ++ default "" i ++ ".service"
                                          else f ++ ".service"]%string in
  wp (encoder_action c f i) (λ r a', ∃ acted, reaches cmd (ad_tools a) (ad_tools a') acted ∧
       ∀ reply, r = Ok reply → er_ok reply = true → acted = true ∧ answered cmd) a.
Proof.
  intros Hc Hv cmd. unfold encoder_action. apply wp_bind, wp_try.
  eapply wp_mono; [apply invoke_ran; [done|]; intros u; by apply target_unit|]. fold cmd.
  intros [[rc err]|e] a1 (acted & Hran & H); unfold or_catch.
  - unfold then_. apply wp_bind, wp_audit_admin. intros a2 H2. wp_steps. exists acted. split.
    + exists []. split; [by left|]. by rewrite H2, app_nil_r.
    + intros reply [= <-] Hok. simpl in Hok. apply H. lia.
  - subst e. cbn [ex_kind instance_of]. apply wp_bind, wp_audit_admin. intros a2 H2. wp_steps. exists acted. split; [|done].
    exists []. split; [by left|]. by rewrite H2, app_nil_r.
Qed.

Definition unit_of (m : restart_method) : string :=
  match m with BySystemctl u => u | ByEncoderAdmin u => (u ++ ".service")%string end.

Lemma dispatched_ran s m a :
  dget RESTART_DISPATCH s = Some m →
  let cmd := ["systemctl"; "restart"; unit_of m]%string in
  wp (dispatched m) (λ r a', ∃ acted : bool,
    tl_ran (ad_tools a') = tl_ran (ad_tools a) ++ (if acted then [cmd] else []) ∧
    match r with Ok (rc, _) => rc = 0 → acted = true ∧ answered cmd | Raise e => e = Exn ERuntime "" end) a.
Proof.
  intros Hm cmd. subst cmd. apply dget_elem in Hm. unfold RESTART_DISPATCH in Hm. rewrite !elem_of_cons in Hm.
  assert (Henc : ∀ f i u, parse_family_instance u = (f, i) → valid_target f i = true →
    unit_of (ByEncoderAdmin u) = (if mem_str f INSTANCED_FAMILIES then f ++ "@" ++ default "" i ++ ".service"
                                  else f ++ ".service")%string →
    wp (dispatched (ByEncoderAdmin u)) (λ r a', ∃ acted : bool,
      tl_ran (ad_tools a') = tl_ran (ad_tools a)
        ++ (if acted then [["systemctl"; "restart"; unit_of (ByEncoderAdmin u)]%string] else []) ∧
      match r with Ok (rc, _) => rc = 0 → acted = true ∧ answered ["systemctl"; "restart"; unit_of (ByEncoderAdmin u)]%string
      | Raise e => e = Exn ERuntime "" end) a).
  { intros f i u Hp Hv Hu. unfold dispatched. rewrite Hp, Hu. apply (invoke_ran EncRestart); [done|].
    intros u'. by apply target_unit. }
  destruct Hm as [Hm|[Hm|[Hm|[Hm|[Hm|[Hm|Hm]]]]]]; [..|by apply elem_of_nil in Hm]; injection Hm as -> ->.
  1-4: apply wp_sudo; intros t; by apply service_tool_ran.
  - by apply (Henc "realsense-mux"%string None).
  - by apply (Henc "rs-stream"%string (Some "color"%string)).
Qed.

Lemma show_spec u a :
  wp (show u) (λ r a', tl_ran (ad_tools a') = tl_ran (ad_tools a) ++ [show_cmd u]) a.
Proof.
  unfold show, on_tools. apply wp_bind, wp_zoom. unfold tool_run, tool_tick. wp_steps.
  destruct (tool_answer _ _); wp_steps; done.
Qed.

Lemma restart_service_spec s m a :
  String.eqb s SELF_SERVICE = false → dget RESTART_DISPATCH s = Some m →
  let cmd := ["systemctl"; "restart"; unit_of m]%string in
  wp (restart_service s) (λ r a', ∃ acted, reaches cmd (ad_tools a) (ad_tools a') acted ∧
       ∀ reply, r = Ok reply → rs_ok reply = true → acted = true ∧ answered cmd) a.
Proof.
  intros Hs Hm cmd. unfold restart_service. rewrite Hs, Hm. apply wp_bind, wp_try.
  eapply wp_mono; [by eapply dispatched_ran|]. fold cmd. intros [[rc err]|e] a1 (acted & Hran & H); unfold or_catch.
  - unfold then_ at 1. unfold service_state. apply wp_bind, wp_bind. eapply wp_mono; [apply show_spec|].
    intros [info|e] a2 H2; unfold then_ at 1.
    + wp_steps. apply wp_audit_admin. intros a3 H3. wp_steps. exists acted. split.
      * exists [show_cmd s]. split; [right; by exists s|]. by rewrite H3, H2, Hran, <- app_assoc.
      * intros reply [= <-] Hok. destruct (rc =? 0) eqn:Hrc; [|done]. apply H. lia.
    + unfold then_. exists acted. split; [|done]. exists [show_cmd s]. split; [right; by exists s|].
      by rewrite H2, Hran, <- app_assoc.
  - subst e. cbn [ex_kind instance_of]. apply wp_bind, wp_audit_admin. intros a2 H2. wp_steps. exists acted. split; [|done].
    exists []. split; [by left|]. by rewrite H2, app_nil_r.
Qed.

Lemma restart_refused s a :
  dget RESTART_DISPATCH s = None →
  wp (restart_service s) (λ r a', r = Raise (Exn (EHttp 400) "") ∧ ad_tools a' = ad_tools a) a.
Proof.
  intros Hm. unfold restart_service. rewrite Hm.
  destruct (String.eqb s SELF_SERVICE); apply wp_bind, wp_audit_admin; intros a' Ha; wp_steps; by rewrite Ha.
Qed.

(** Whatever an administrator asks for and however [sudo], the tools and the audit log
    behave: a service outside of the table, the application's own service or an invalid
    encoder target is refused with 400 and runs nothing; every other operation runs the
    one command on the one unit it is about, or none, and reads a state afterwards at
    most; and it is reported done only when that command ran and succeeded. *)
Theorem admin_ops_confined op a : let '(r, a') := run_admin_op op a in op_spec op a r a'.
Proof.
  enough (H : wp (run_admin_op op) (op_spec op a) a) by (unfold wp in H; by destruct (run_admin_op op a)).
  assert (Henc : ∀ c f i, c ≠ EncStatus →
    wp (r ← (if valid_target f i then encoder_action c f i else throw (EHttp 400)); mret (Acted r))
      (λ r a', match (if valid_target f i
                      then Some (action_name c, if mem_str f INSTANCED_FAMILIES then f ++ "@" ++ default "" i ++ ".service"
                                                else f ++ ".service")%string else None) with
               | None => r = Raise (Exn (EHttp 400) "") ∧ ad_tools a' = ad_tools a
               | Some (verb, unit) =>
                   ∃ acted, reaches ["systemctl"; verb; unit]%string (ad_tools a) (ad_tools a') acted ∧
                     ∀ reply, r = Ok reply → reply_ok reply = true → acted = true ∧ answered ["systemctl"; verb; unit]%string
               end) a).
  { intros c f i Hc. destruct (valid_target f i) eqn:Hv; [|by wp_steps].
    apply wp_bind. eapply wp_mono; [by apply encoder_action_spec|]. intros [r|e] a' (acted & Hr & H); unfold then_.
    - wp_steps. exists acted. split; [exact Hr|]. intros reply [= <-] Hok. by apply (H r).
    - exists acted. by split. }
  destruct op as [s|f i|f i]; simpl run_admin_op; unfold op_spec, op_target.
  - destruct (dget RESTART_DISPATCH s) as [m|] eqn:Hm.
    + assert (Hs : String.eqb s SELF_SERVICE = false).
      { apply String.eqb_neq. intros ->. by vm_compute in Hm. }
      replace (match m with BySystemctl u => Some ("restart"%string, u) | ByEncoderAdmin u => Some ("restart", u ++ ".service")%string end)
        with (Some ("restart"%string, unit_of m)) by (by destruct m).
      apply wp_bind. eapply wp_mono; [by apply restart_service_spec|]. intros [r|e] a' (acted & Hr & H); unfold then_.
      * wp_steps. exists acted. split; [exact Hr|]. intros reply [= <-] Hok. by apply (H r).
      * exists acted. by split.
    + apply wp_bind. eapply wp_mono; [by apply restart_refused|]. intros r a' [-> Ht]. by split.
  - by apply (Henc EncStart).
  - by apply (Henc EncStop).
Qed.
End reach.
