(* ===== verification/JanusAdmin.v ===== *)
(** * Mountpoints through the Janus HTTP API ([app/services/janus_admin.py],
    [app/services/janus_dashboard_admin.py], [app/application/mountpoint_admin.py])

    The two clients of Janus's streaming plugin: each call opens a session, attaches to
    the plugin, sends one message and closes the session. The replies are the
    environment ([janus_reply]); every request is recorded, oldest first. *)
From S2P Require Import Prelude.
From S2P Require Import Hoare.
From S2P Require Import PyVal.
From S2P Require Import PyStr.
From S2P Require Import FileStore.

(** A status code with a body, or no answer ([httpx.RequestError]). *)
Inductive http_reply := HttpReply (code : Z) (body : text) | HttpFails (message : string).

Record post := mkPost { po_path : string; po_body : json }.

Class JanusHttp := {
  JANUS_HTTP : string;                            (* [JANUS_HTTP_URL] *)
  JANUS_ADMIN_KEY : string;                       (* [JANUS_STREAMING_ADMIN_KEY] *)
  janus_url : string;                             (* the dashboard's setting *)
  tx : nat → string;                              (* a random transaction id *)
  janus_reply : nat → string → json → http_reply; (* to the n-th request *)
  status_text : Z → string → string;              (* of [raise_for_status] *)
  json_repr : json → string;                      (* [str] of a float or a container *)
}.

Section janus_admin.
Context {J : JanusHttp}.

Definition show (j : json) : string := match to_str j with Ok s => s | Raise _ => json_repr j end.

(** One request; [n] requests were sent before. *)
Definition request_ (path : string) (body : nat → json) : M (list post) (nat * http_reply) :=
  n ← gets length;
  modify (fun l => l ++ [mkPost path (body n)]) ;;
  mret (n, janus_reply n path (body n)).

(** What a [for] loop runs over. *)
Definition elements (j : json) : res (list json) :=
  match j with
  | JArr l => Ok l
  | JObj d => Ok (map JStr (dkeys d))
  | JStr s => Ok (map (fun c => JStr (String c EmptyString)) (chars s))
  | _ => fail EType
  end.

(** ** [janus_admin.py] *)
Definition http_error {A} (path text : string) : M (list post) A :=
  raise (Exn EJanusAdmin ("janus HTTP error to " ++ path ++ ": " ++ text)).

Definition post_ (path : string) (body : nat → json) : M (list post) json :=
  '(n, reply) ← request_ path body;
  match reply with
  | HttpReply code t =>
      if (200 <=? code) && (code <? 300) then lift (json_loads t)
      else http_error path (status_text code path)
  | HttpFails text => http_error path text
  end.

(** [resp.get("janus") != "success"] *)
Definition succeeded (resp : json) : res bool :=
  s ← jget resp "janus" JNull; Ok (py_eq s (JStr "success")).

Definition reply_id (resp : json) : res Z :=
  data ← getitem resp "data"; i ← getitem data "id"; to_int i.

Definition create_session : M (list post) Z :=
  resp ← post_ JANUS_HTTP (fun n => JObj [("janus", JStr "create"); ("transaction", JStr (tx n))]%string);
  ok ← lift (succeeded resp);
  if (ok : bool) then lift (reply_id resp)
  else raise (Exn EJanusAdmin ("session create failed: " ++ show resp)).

Definition session_path (sid : Z) : string := (JANUS_HTTP ++ "/" ++ pretty sid)%string.
Definition handle_path (sid hid : Z) : string := (session_path sid ++ "/" ++ pretty hid)%string.

Definition attach_streaming (sid : Z) : M (list post) Z :=
  resp ← post_ (session_path sid)
           (fun n => JObj [("janus", JStr "attach"); ("plugin", JStr "janus.plugin.streaming");
                           ("transaction", JStr (tx n))]%string);
  ok ← lift (succeeded resp);
  if (ok : bool) then lift (reply_id resp)
  else raise (Exn EJanusAdmin ("plugin attach failed: " ++ show resp)).

Definition destroy_body (n : nat) : json :=
  JObj [("janus", JStr "destroy"); ("transaction", JStr (tx n))]%string.

Definition destroy_session (sid : Z) : M (list post) unit :=
  try_except (post_ (session_path sid) destroy_body ;; mret tt) CJanusAdmin (fun _ => mret tt).

Definition message_body (body : json) (n : nat) : json :=
  JObj [("janus", JStr "message"); ("transaction", JStr (tx n)); ("body", body)]%string.

(** [resp.get("plugindata", {}).get("data", {})] *)
Definition plugin_data (resp : json) : res json :=
  p ← jget resp "plugindata" (JObj []); jget p "data" (JObj []).

Definition plugin_message (sid hid : Z) (body : json) : M (list post) json :=
  resp ← post_ (handle_path sid hid) (message_body body);
  ok ← lift (succeeded resp);
  if negb ok then raise (Exn EJanusAdmin ("plugin message failed: " ++ show resp))
  else
    pdata ← lift (plugin_data resp);
    code ← lift (jget pdata "error_code" JNull);
    if truthy code then
      error ← lift (jget pdata "error" JNull);
      raise (Exn EJanusAdmin ("streaming plugin error " ++ show code ++ ": " ++ show error))
    else mret pdata.

(** The decorator [_with_handle]: the session is destroyed on every way out. *)
Definition with_handle {A} (fn : Z → Z → M (list post) A) : M (list post) A :=
  sid ← create_session;
  finally (hid ← attach_streaming sid; fn sid hid) (destroy_session sid).

Definition janus_list_mountpoints : M (list post) json :=
  with_handle (fun sid hid =>
    pdata ← plugin_message sid hid (JObj [("request", JStr "list")]%string);
    lift (jget pdata "list" (JArr []))).

(** The arguments of [create_mountpoint]; [rtcp_port] is the next port when not given. *)
Record mountpoint := mkMountpoint {
  mt_id : Z; mt_rtp_port : Z; mt_description : string; mt_secret : string; mt_codec : string;
  mt_payload_type : Z; mt_fmtp : string; mt_rtcp_port : option Z; mt_iface : string;
}.

Definition h264_fmtp : string :=
  "profile-level-id=42e01f;packetization-mode=1;level-asymmetry-allowed=1".

(** [rtcp_port or rtp_port + 1] *)
Definition rtcp_port_of (m : mountpoint) : Z :=
  match mt_rtcp_port m with Some p => if p =? 0 then mt_rtp_port m + 1 else p
                          | None => mt_rtp_port m + 1 end.

Definition create_body (m : mountpoint) : json :=
  JObj [("request", JStr "create"); ("admin_key", JStr JANUS_ADMIN_KEY); ("type", JStr "rtp");
        ("id", JInt (mt_id m)); ("description", JStr (mt_description m));
        ("secret", JStr (mt_secret m)); ("audio", JBool false); ("video", JBool true);
        ("media", JArr [JObj [("type", JStr "video"); ("mid", JStr "v"); ("label", JStr "video");
           ("port", JInt (mt_rtp_port m)); ("rtcpport", JInt (rtcp_port_of m));
           ("pt", JInt (mt_payload_type m)); ("codec", JStr (mt_codec m));
           ("fmtp", JStr (mt_fmtp m)); ("iface", JStr (mt_iface m))]]);
        ("permanent", JBool false)]%string.

Definition janus_create_mountpoint (m : mountpoint) : M (list post) json :=
  with_handle (fun sid hid =>
    if String.eqb JANUS_ADMIN_KEY EmptyString
    then raise (Exn EJanusAdmin "JANUS_STREAMING_ADMIN_KEY env not set")
    else plugin_message sid hid (create_body m)).

Definition destroy_mp_body (mp_id : Z) (secret : string) : json :=
  JObj [("request", JStr "destroy"); ("id", JInt mp_id); ("secret", JStr secret);
        ("permanent", JBool false)]%string.

Definition janus_destroy_mountpoint (mp_id : Z) (secret : string) : M (list post) json :=
  with_handle (fun sid hid => plugin_message sid hid (destroy_mp_body mp_id secret)).
End janus_admin.

(** The public operations. *)
Inductive janus_call :=
  | JanusList
  | JanusCreate (m : mountpoint)
  | JanusDestroy (mp_id : Z) (secret : string).

Section calls.
Context {J : JanusHttp}.

Definition run_janus (c : janus_call) : M (list post) json :=
  match c with
  | JanusList => janus_list_mountpoints
  | JanusCreate m => janus_create_mountpoint m
  | JanusDestroy mp secret => janus_destroy_mountpoint mp secret
  end.

(** The message of a call. *)
Definition message_of (c : janus_call) : json :=
  match c with
  | JanusList => JObj [("request", JStr "list")]%string
  | JanusCreate m => create_body m
  | JanusDestroy mp secret => destroy_mp_body mp secret
  end.
End calls.

(** ** Sessions are released *)

(** What the code calls a session: the requests it sends under it. *)
Section sessions.
Context {J : JanusHttp}.

Definition is_session_open (p : post) : Prop :=
  po_path p = JANUS_HTTP ∧ ∃ t, po_body p = JObj [("janus", JStr "create"); ("transaction", JStr t)]%string.
Definition is_session_close (sid : Z) (p : post) : Prop :=
  po_path p = session_path sid ∧ ∃ n, po_body p = destroy_body n.
Definition is_attach (sid : Z) (p : post) : Prop :=
  po_path p = session_path sid ∧
  ∃ t, po_body p = JObj [("janus", JStr "attach"); ("plugin", JStr "janus.plugin.streaming");
                         ("transaction", JStr t)]%string.
Definition is_message (sid : Z) (body : json) (p : post) : Prop :=
  ∃ hid n, po_path p = handle_path sid hid ∧ po_body p = message_body body n.

Lemma wp_post path body (Q : res json → list post → Prop) l :
  (∀ r, Q r (l ++ [mkPost path (body (length l))])) → wp (post_ path body) Q l.
Proof.
  intros H. unfold post_, request_. wp_steps. destruct (janus_reply _ _ _) as [code t|t];
    [destruct (_ && _)|]; wp_steps; apply H.
Qed.

(** The calls that send one request whatever comes of it. *)
Lemma wp_create_session (Q : res Z → list post → Prop) l :
  (∀ r p, is_session_open p → Q r (l ++ [p])) → wp create_session Q l.
Proof.
  intros H. unfold create_session. apply wp_bind, wp_post.
  assert (HQ : ∀ r, Q r (l ++ [mkPost JANUS_HTTP
    (JObj [("janus", JStr "create"); ("transaction", JStr (tx (length l)))]%string)])).
  { intros r. apply H. split; [done|by eexists]. }
  intros [resp|e]; cbn [then_]; [|apply HQ]. wp_steps. destruct (succeeded resp) as [[]|e];
    cbn [then_]; wp_steps; apply HQ.
Qed.

Lemma wp_attach sid (Q : res Z → list post → Prop) l :
  (∀ r p, is_attach sid p → Q r (l ++ [p])) → wp (attach_streaming sid) Q l.
Proof.
  intros H. unfold attach_streaming. apply wp_bind, wp_post.
  assert (HQ : ∀ r, Q r (l ++ [mkPost (session_path sid)
    (JObj [("janus", JStr "attach"); ("plugin", JStr "janus.plugin.streaming");
           ("transaction", JStr (tx (length l)))]%string)])).
  { intros r. apply H. split; [done|by eexists]. }
  intros [resp|e]; cbn [then_]; [|apply HQ]. wp_steps. destruct (succeeded resp) as [[]|e];
    cbn [then_]; wp_steps; apply HQ.
Qed.

Lemma wp_message sid hid body (Q : res json → list post → Prop) l :
  (∀ r p, is_message sid body p → Q r (l ++ [p])) → wp (plugin_message sid hid body) Q l.
Proof.
  intros H. unfold plugin_message. apply wp_bind, wp_post.
  assert (HQ : ∀ r, Q r (l ++ [mkPost (handle_path sid hid) (message_body body (length l))])).
  { intros r. apply H. by eexists _, _. }
  intros [resp|e]; cbn [then_]; [|apply HQ]. wp_steps.
  destruct (succeeded resp) as [[]|e]; cbn [then_ negb]; wp_steps; try apply HQ.
  destruct (plugin_data resp) as [pd|e]; cbn [then_]; wp_steps; [|apply HQ].
  destruct (jget pd "error_code" _) as [code|e]; cbn [then_]; [|apply HQ].
  destruct (truthy code); wp_steps; [|apply HQ].
  destruct (jget pd "error" _) as [err|e]; cbn [then_]; wp_steps; apply HQ.
Qed.

Lemma destroy_session_posts sid l :
  ∃ r p, destroy_session sid l = (r, l ++ [p]) ∧ is_session_close sid p.
Proof.
  assert (H : wp (destroy_session sid) (λ _ l', ∃ p, l' = l ++ [p] ∧ is_session_close sid p) l).
  { unfold destroy_session. wp_step. apply wp_bind, wp_post.
    assert (Hp : is_session_close sid (mkPost (session_path sid) (destroy_body (length l))))
      by (split; [done|by eexists]).
    intros [j|e]; cbn [then_]; wp_steps; [by eexists|].
    unfold or_catch. destruct (instance_of _ _); wp_steps; by eexists. }
  unfold wp in H. destruct (destroy_session sid l) as [r l']. destruct H as (p & -> & Hp). by eexists _, p.
Qed.

(** The message of call [c] under session [sid]; a mountpoint is asked for with the
    admin key only. *)
Definition sends (c : janus_call) (sid : Z) (p : post) : Prop :=
  is_message sid (message_of c) p ∧
  match c with JanusCreate _ => JANUS_ADMIN_KEY ≠ EmptyString | _ => True end.

(** The requests of a whole call: a session is opened; it is attached and closed; in
    between the message is sent. A call that returns sent it. *)
Inductive exchange (c : janus_call) (returned : bool) : list post → Prop :=
  | ExchangeRefused o : is_session_open o → returned = false → exchange c returned [o]
  | ExchangeFailed o sid a x :
      is_session_open o → is_attach sid a → is_session_close sid x → returned = false →
      exchange c returned [o; a; x]
  | ExchangeSent o sid a m x :
      is_session_open o → is_attach sid a → sends c sid m → is_session_close sid x →
      exchange c returned [o; a; m; x].

Lemma with_handle_spec (c : janus_call) (fn : Z → Z → M (list post) json) l :
  (∀ sid hid l, wp (fn sid hid) (λ r l', (l' = l ∧ is_ok r = false) ∨
     ∃ m, l' = l ++ [m] ∧ sends c sid m) l) →
  wp (with_handle fn) (λ r l', ∃ ps, l' = l ++ ps ∧ exchange c (is_ok r) ps) l.
Proof.
  intros Hfn. unfold with_handle. apply wp_bind, wp_create_session. intros [sid|e] o Ho; cbn [then_].
  2: { exists [o]. split; [done|]. by apply ExchangeRefused. }
  unfold finally, wp.
  assert (Hbody : wp (hid ← attach_streaming sid; fn sid hid)
    (λ r l', ∃ a, is_attach sid a ∧ (l' = (l ++ [o]) ++ [a] ∧ is_ok r = false ∨
       ∃ m, l' = (l ++ [o]) ++ [a; m] ∧ sends c sid m)) (l ++ [o])).
  { apply wp_bind, wp_attach. intros [hid|e] a Ha; cbn [then_]; [|exists a; by eauto].
    eapply wp_mono; [apply Hfn|]. intros r l' [[-> Hr]|(m & -> & Hm)]; exists a; (split; [done|]).
    - by left.
    - right. exists m. by rewrite <- (app_assoc (l ++ [o]) [a] [m]). }
  unfold wp in Hbody. destruct ((attach_streaming sid ≫= λ hid, fn sid hid) (l ++ [o])) as [r l1].
  destruct Hbody as (a & Ha & Hl).
  destruct (destroy_session_posts sid l1) as (r2 & x & -> & Hx).
  assert (Hout : ∀ b, (is_ok r = false → b = false) → ∃ ps, l1 ++ [x] = l ++ ps ∧ exchange c b ps).
  { intros b Hb. destruct Hl as [[-> Hr]|(m & -> & Hm)]; rewrite <- !app_assoc; eexists; (split; [done|]).
    - eapply ExchangeFailed; eauto.
    - by eapply ExchangeSent. }
  destruct r2; by apply Hout.
Qed.

Lemma message_sends c sid hid l :
  match c with JanusCreate _ => JANUS_ADMIN_KEY ≠ EmptyString | _ => True end →
  wp (plugin_message sid hid (message_of c)) (λ r l', (l' = l ∧ is_ok r = false) ∨
     ∃ m, l' = l ++ [m] ∧ sends c sid m) l.
Proof. intros Hc. apply wp_message. intros r p Hp. right. by exists p. Qed.
End sessions.

Lemma run_janus_spec {J : JanusHttp} c l :
  wp (run_janus c) (λ r l', ∃ ps, l' = l ++ ps ∧ exchange c (is_ok r) ps) l.
Proof.
  destruct c as [|mt|mp secret]; simpl; apply with_handle_spec; intros sid hid l0.
  - apply wp_bind. eapply wp_mono; [by apply (message_sends JanusList)|].
    intros [pd|e] l1 [[-> Hr]|Hm]; cbn [then_]; wp_steps; auto. done.
  - destruct (String.eqb_spec JANUS_ADMIN_KEY EmptyString); [apply wp_raise; by left|].
    by apply (message_sends (JanusCreate mt)).
  - by apply (message_sends (JanusDestroy mp secret)).
Qed.

(** Every session that is opened is closed, whatever Janus answers, and in between exactly
    the call's own message is sent under it, or nothing; a call that returns sent it, and
    a mountpoint is only asked for with the admin key. *)
Theorem janus_sessions_released {J : JanusHttp} c l :
  let '(r, l') := run_janus c l in ∃ ps, l' = l ++ ps ∧ exchange c (is_ok r) ps.
Proof. exact (run_janus_spec c l). Qed.

(** ** Well-formed replies *)
Section replies.
Context {J : JanusHttp}.

(** A 2xx reply is an object, a success carries the id that was asked for and the reply
    to a message carries plugin data with a list of mountpoint objects, if any, that
    [list_ok] accepts. *)
Definition reply_ok (list_ok : json → Prop) (body : json) (r : http_reply) : Prop :=
  match r with
  | HttpFails _ => True
  | HttpReply code t =>
      (200 <=? code) && (code <? 300) = true →
      ∃ d, t = TxDoc (JObj d) ∧
        match jget body "janus" JNull with
        | Ok (JStr "message") =>
            ∃ p l, plugin_data (JObj d) = Ok (JObj p) ∧ jget (JObj p) "list" (JArr []) = Ok l ∧ list_ok l
        | _ => succeeded (JObj d) = Ok true → is_ok (reply_id (JObj d)) = true
        end
  end.

Context (list_ok : json → Prop).
Context (Hreplies : ∀ n path body, reply_ok list_ok body (janus_reply n path body)).

Definition janus_only {A} (P : A → Prop) (r : res A) : Prop :=
  match r with Ok a => P a | Raise e => ex_kind e = EJanusAdmin end.

Lemma wp_post_ok path body (Q : res json → list post → Prop) l :
  (∀ r l', janus_only (λ j, ∃ d, j = JObj d ∧
       match jget (body (length l)) "janus" JNull with
       | Ok (JStr "message") =>
           ∃ p l, plugin_data (JObj d) = Ok (JObj p) ∧ jget (JObj p) "list" (JArr []) = Ok l ∧ list_ok l
       | _ => succeeded (JObj d) = Ok true → is_ok (reply_id (JObj d)) = true
       end) r → Q r l') →
  wp (post_ path body) Q l.
Proof.
  intros H. unfold post_, request_. wp_steps. pose proof (Hreplies (length l) path (body (length l))) as Hr.
  destruct (janus_reply _ _ _) as [code t|t]; [|by wp_steps; apply H]. unfold reply_ok in Hr.
  destruct (_ && _); wp_steps; [|by apply H]. destruct (Hr eq_refl) as (d & -> & Hd). apply H. by exists d.
Qed.

Lemma succeeded_object d : ∃ b, succeeded (JObj d) = Ok b.
Proof. by eexists. Qed.

Lemma janus_session_ok l : wp create_session (λ r _, janus_only (λ _, True) r) l.
Proof.
  unfold create_session. apply wp_bind, wp_post_ok. intros [j|e] l' Hj; cbn [then_]; [|done].
  destruct Hj as (d & -> & Hd). apply wp_bind, wp_lift. cbn [jget dget mbind res_bind] in Hd.
  destruct (succeeded_object d) as [[] Hb]; rewrite Hb; cbn [then_]; [|by apply wp_raise].
  apply wp_lift. specialize (Hd Hb). by destruct (reply_id _).
Qed.

Lemma janus_attach_ok sid l : wp (attach_streaming sid) (λ r _, janus_only (λ _, True) r) l.
Proof.
  unfold attach_streaming. apply wp_bind, wp_post_ok. intros [j|e] l' Hj; cbn [then_]; [|done].
  destruct Hj as (d & -> & Hd). apply wp_bind, wp_lift. cbn [jget dget mbind res_bind] in Hd.
  destruct (succeeded_object d) as [[] Hb]; rewrite Hb; cbn [then_]; [|by apply wp_raise].
  apply wp_lift. specialize (Hd Hb). by destruct (reply_id _).
Qed.

Lemma janus_message_ok sid hid body l :
  wp (plugin_message sid hid body)
    (λ r _, janus_only (λ pd, ∃ p l, pd = JObj p ∧ jget (JObj p) "list" (JArr []) = Ok l ∧ list_ok l) r) l.
Proof.
  unfold plugin_message. apply wp_bind, wp_post_ok. intros [j|e] l' Hj; cbn [then_]; [|done].
  destruct Hj as (d & -> & (p & lst & Hp & Hl & Hok)). apply wp_bind, wp_lift.
  destruct (succeeded_object d) as [[] Hb]; rewrite Hb; cbn [then_ negb]; [|by apply wp_raise].
  rewrite Hp. apply wp_bind, wp_lift. cbn [then_].
  apply wp_bind, wp_lift. cbn [jget then_].
  destruct (truthy _); [|apply wp_ret; by exists p, lst]. apply wp_bind, wp_lift. cbn [then_]. by apply wp_raise.
Qed.

Lemma janus_close_ok sid l : ∃ l', destroy_session sid l = (Ok tt, l').
Proof.
  assert (H : wp (destroy_session sid) (λ r _, r = Ok tt) l).
  { unfold destroy_session. wp_step. apply wp_bind, wp_post_ok. intros [j|e] l' Hj; cbn [then_]; wp_steps; [done|].
    unfold or_catch. simpl in Hj. rewrite Hj. simpl. by apply wp_ret. }
  unfold wp in H. destruct (destroy_session sid l) as [r l']. subst. by exists l'.
Qed.

Lemma with_handle_ok {A} (P : A → Prop) (fn : Z → Z → M (list post) A) l :
  (∀ sid hid l, wp (fn sid hid) (λ r _, janus_only P r) l) →
  wp (with_handle fn) (λ r _, janus_only P r) l.
Proof.
  intros Hfn. unfold with_handle. apply wp_bind. eapply wp_mono; [apply janus_session_ok|].
  intros [sid|e] l1 H1; cbn [then_]; [|done]. unfold finally, wp.
  assert (Hbody : wp (hid ← attach_streaming sid; fn sid hid) (λ r _, janus_only P r) l1).
  { apply wp_bind. eapply wp_mono; [apply janus_attach_ok|]. intros [hid|e] l2 H2; cbn [then_]; [apply Hfn|done]. }
  unfold wp in Hbody. destruct ((attach_streaming sid ≫= λ hid, fn sid hid) l1) as [r l2].
  by destruct (janus_close_ok sid l2) as [l3 ->].
Qed.

(** The operations raise [JanusAdminError] only. *)
Lemma janus_call_ok c l : wp (run_janus c) (λ r _, janus_only (λ j, match c with JanusList => list_ok j | _ => True end) r) l.
Proof.
  destruct c as [|m|mp secret]; simpl; apply with_handle_ok; intros sid hid l0.
  - apply wp_bind. eapply wp_mono; [apply janus_message_ok|]. intros [pd|e] l1 H1; cbn [then_]; [|done].
    apply wp_lift. by destruct H1 as (p & lst & -> & -> & Hl).
  - destruct (String.eqb _ _); [by apply wp_raise|]. eapply wp_mono; [apply janus_message_ok|]. by intros [].
  - eapply wp_mono; [apply janus_message_ok|]. by intros [].
Qed.
End replies.

(** The log of requests only grows. *)
Lemma janus_appends {J : JanusHttp} c : preserves prefix (run_janus c).
Proof.
  intros l. pose proof (run_janus_spec c l) as H. unfold wp in H. destruct (run_janus c l) as [r l'].
  destruct H as (ps & -> & _). by exists ps.
Qed.

(** ** A sample server: it lists one flowing mountpoint and accepts, or refuses, what is
    asked for. *)
Definition success_reply (fields : dict json) : http_reply :=
  HttpReply 200 (TxDoc (JObj (("janus", JStr "success")%string :: fields))).

Definition data_reply (data : dict json) : http_reply :=
  success_reply [("plugindata", JObj [("data", JObj data)])]%string.

Definition sample_reply (accepts : bool) (body : json) : http_reply :=
  match jget body "janus" JNull with
  | Ok (JStr "message") =>
      match (b ← getitem body "body"; getitem b "request") with
      | Ok (JStr "list") =>
          data_reply [("list", JArr [JObj [("id", JInt 1306); ("media", JArr [JObj [("age_ms", JInt 40)]])]])]%string
      | _ => if accepts then data_reply [("streaming", JStr "created")]%string
             else data_reply [("error_code", JInt 1400); ("error", JStr "no")]%string
      end
  | _ => success_reply [("data", JObj [("id", JInt 77)])]%string
  end.

Definition sample_http (accepts : bool) : JanusHttp := {|
  JANUS_HTTP := "http://127.0.0.1:8088/janus"; JANUS_ADMIN_KEY := "key";
  janus_url := "http://127.0.0.1:8088/janus"; tx := λ n, pretty (Z.of_nat n);
  janus_reply := λ _ _ body, sample_reply accepts body;
  status_text := λ code _, pretty code; json_repr := λ _, "{}" |}%string.

Lemma sample_replies_ok accepts (list_ok : json → Prop) n path body :
  list_ok (JArr []) →
  list_ok (JArr [JObj [("id", JInt 1306); ("media", JArr [JObj [("age_ms", JInt 40)]])]])%string →
  reply_ok list_ok body (@janus_reply (sample_http accepts) n path body).
Proof.
  intros H0 H1. unfold reply_ok. cbn [janus_reply sample_http]. unfold sample_reply.
  destruct (jget body "janus" JNull) as [j|e] eqn:Hj; [|intros _; by eexists].
  assert (Hmsg : ∀ d, list_ok (default (JArr []) (dget d "list"%string)) →
    ∃ d0, TxDoc (JObj [("janus", JStr "success"); ("plugindata", JObj [("data", JObj d)])]%string)
          = TxDoc (JObj d0) ∧
      ∃ p l, plugin_data (JObj d0) = Ok (JObj p) ∧ jget (JObj p) "list" (JArr []) = Ok l ∧ list_ok l).
  { intros d Hd. eexists. split; [done|]. eexists d, _. split; [done|]. by split. }
  unfold data_reply, success_reply in *.
  repeat case_match; simplify_eq; intros _; first [by apply Hmsg|by eexists].
Qed.
