(* ===== verification/MountpointAdmin.v ===== *)
(** * The dashboard's mountpoint operations ([app/services/janus_dashboard_admin.py],
    [app/application/mountpoint_admin.py])

    The dashboard has a Janus client of its own: it reads the admin key from the secret
    store, opens a session by hand and records what it did in the audit log. *)
From Stdlib Require Import Ascii.
From S2P Require Import Prelude.
From S2P Require Import Hoare.
From S2P Require Import PyVal.
From S2P Require Import PyStr.
From S2P Require Import FileStore.
From S2P Require Import JsonText.
From S2P Require Import SecretStore.
From S2P Require Import AuditLog.
From S2P Require Import JanusAdmin.

Record Dash := mkDash { d_posts : list post; d_secrets : Secrets; d_audit : AuditLog }.

Definition on_posts {A} : M (list post) A → M Dash A :=
  zoom d_posts (fun p d => mkDash p (d_secrets d) (d_audit d)).
Definition on_secrets {A} : M Secrets A → M Dash A :=
  zoom d_secrets (fun s d => mkDash (d_posts d) s (d_audit d)).
Definition on_audit {A} : M AuditLog A → M Dash A :=
  zoom d_audit (fun l d => mkDash (d_posts d) (d_secrets d) l).

Section client.
Context {J : JanusHttp}.

(** [c.post(...)]: a [RequestError] when there is no answer. *)
Definition client_post (path : string) (body : json) : M (list post) (Z * text) :=
  '(_, reply) ← request_ path (fun _ => body);
  match reply with
  | HttpReply code t => mret (code, t)
  | HttpFails m => raise (Exn EHttpConnect m)
  end.

(** [r.json().get("data", {}).get("id")] *)
Definition data_id (t : text) : res json :=
  doc ← json_loads t; data ← jget doc "data" (JObj []); jget data "id" JNull.

Definition sub_path (sid : string) : string := (janus_url ++ "/" ++ sid)%string.

Definition attach_body (transaction : string) : json :=
  JObj [("janus", JStr "attach"); ("plugin", JStr "janus.plugin.streaming");
        ("transaction", JStr transaction)]%string.
Definition open_body (transaction : string) : json :=
  JObj [("janus", JStr "create"); ("transaction", JStr transaction)]%string.
Definition close_body (transaction : string) : json :=
  JObj [("janus", JStr "destroy"); ("transaction", JStr transaction)]%string.

(** The session, the handle and the error, each [None] where Python has [None]. *)
Definition attach : M (list post) (option string * option string * option string) :=
  try_except
    ('(code, t) ← client_post janus_url (open_body "cr-1");
     if negb (code =? 200) then mret (None, None, Some ("Janus /create rc=" ++ pretty code)%string)
     else
       sid ← lift (data_id t);
       if negb (truthy sid) then mret (None, None, Some "no session id"%string)
       else
         '(code, t) ← client_post (sub_path (show sid)) (attach_body "cr-2");
         if negb (code =? 200) then mret (Some (show sid), None, Some "attach failed"%string)
         else
           handle ← lift (data_id t);
           if negb (truthy handle) then mret (Some (show sid), None, Some "no handle id"%string)
           else mret (Some (show sid), Some (show handle), None))
    CHttpError (fun e => mret (None, None, Some ("Janus unreachable: " ++ ex_msg e)%string)).

Definition dash_destroy_session (sid : string) : M (list post) unit :=
  try_except (client_post (sub_path sid) (close_body "cr-clean") ;; mret tt)
    CException (fun _ => mret tt).

Definition streaming_message (sid handle : string) (body : json) (transaction : string)
    : M (list post) json :=
  '(_, t) ← client_post (sub_path sid ++ "/" ++ handle)%string
              (JObj [("janus", JStr "message"); ("body", body); ("transaction", JStr transaction)]%string);
  lift (json_loads t).

(** The listed mountpoints as Janus sent them, and the error. *)
Definition list_mountpoints_raw : M (list post) (json * option string) :=
  try_except2
    ('(code, t) ← client_post janus_url (open_body "dash-1");
     if negb (code =? 200) then mret (JArr [], Some ("Janus /create rc=" ++ pretty code)%string)
     else
       data ← lift (json_loads t);
       sid ← lift (d ← jget data "data" (JObj []); jget d "id" JNull);
       if negb (truthy sid) then mret (JArr [], Some ("Janus /create no session ID: " ++ show data)%string)
       else
         '(code, t) ← client_post (sub_path (show sid)) (attach_body "dash-2");
         if negb (code =? 200) then mret (JArr [], Some "attach streaming plugin failed"%string)
         else
           data ← lift (json_loads t);
           handle ← lift (d ← jget data "data" (JObj []); jget d "id" JNull);
           if negb (truthy handle)
           then mret (JArr [], Some ("no handle from attach: " ++ show data)%string)
           else
             '(code, t) ← client_post (sub_path (show sid) ++ "/" ++ show handle)%string
               (JObj [("janus", JStr "message"); ("body", JObj [("request", JStr "list")]);
                      ("transaction", JStr "dash-3")]%string);
             if negb (code =? 200)
             then mret (JArr [], Some ("list request rc=" ++ pretty code)%string)
             else
               data ← lift (json_loads t);
               pd ← lift (plugin_data data);
               raw ← lift (jget pd "list" (JArr []));
               try_except (client_post (sub_path (show sid)) (close_body "dash-4") ;; mret tt)
                 CException (fun _ => mret tt) ;;
               mret (raw, None))
    CHttpError (fun e => mret (JArr [], Some ("Janus unreachable: " ++ ex_msg e)%string))
    CException (fun e => mret (JArr [], Some ("unexpected: " ++ ex_msg e)%string)).
End client.

(** ** The use cases *)
Record MountpointInfo := mkMountpointInfo {
  mi_id : Z; mi_description : option string; mi_type : string; mi_enabled : bool;
  mi_is_private : bool; mi_video : bool; mi_audio : bool; mi_media : list (dict json);
}.

Record CreateMountpointRequest := mkCreateRequest {
  cr_id : Z; cr_description : string; cr_rtp_port : Z; cr_codec : string; cr_payload_type : Z;
  cr_is_private : bool; cr_secret : option string; cr_iface : option string;
}.

(** The constraints of the fields. *)
Definition create_request_ok (r : CreateMountpointRequest) : bool :=
  (1000 <=? cr_id r) && (cr_id r <=? 65535) && Nat.leb (String.length (cr_description r)) 200
  && (1024 <=? cr_rtp_port r) && (cr_rtp_port r <=? 65535)
  && mem_str (cr_codec r) ["h264"; "vp8"; "vp9"; "av1"]%string
  && (96 <=? cr_payload_type r) && (cr_payload_type r <=? 127)
  && match cr_secret r with Some s => Nat.leb (String.length s) 128 | None => true end
  && match cr_iface r with Some s => Nat.leb (String.length s) 45 | None => true end.

Record CreateMountpointResponse := mkCreateResponse {
  rp_id : Z; rp_rtp_port : Z; rp_created : bool; rp_error : option string;
}.

Section use_cases.
Context {J : JanusHttp} {A : AuditEnv}.

Definition nonempty (o : option string) : option string :=
  match o with Some s => if String.eqb s EmptyString then None else Some s | None => None end.

(** [values.get("STREAMING_ADMIN_KEY") or values.get("JANUS_STREAMING_ADMIN_KEY")], empty
    when there is none. *)
Definition streaming_admin_key : M Dash string :=
  values ← on_secrets load;
  mret (str_or (dget values "STREAMING_ADMIN_KEY"%string)
          (default EmptyString (dget values "JANUS_STREAMING_ADMIN_KEY"%string))).

Definition media_dict (j : json) : res (dict json) :=
  match j with JObj d => Ok d | _ => fail EPydantic end.
Fixpoint media_dicts (l : list json) : res (list (dict json)) :=
  match l with [] => Ok [] | j :: l' => d ← media_dict j; ds ← media_dicts l'; Ok (d :: ds) end.

Definition info_of (m : json) : res MountpointInfo :=
  i ← jget m "id" (JInt 0); i ← to_int i;
  description ← jget m "description" JNull;
  type ← jget m "type" (JStr "rtp");
  enabled ← jget m "enabled" (JBool true);
  is_private ← jget m "is_private" (JBool false);
  video ← jget m "video" (JBool false);
  audio ← jget m "audio" (JBool false);
  media ← jget m "media" (JArr []);
  description ← optional_str description;
  media ← match media with JArr l => media_dicts l | _ => fail EPydantic end;
  Ok (mkMountpointInfo i description (show type) (truthy enabled) (truthy is_private)
        (truthy video) (truthy audio) media).

Fixpoint infos_of (l : list json) : res (list MountpointInfo) :=
  match l with [] => Ok [] | m :: l' => i ← info_of m; rest ← infos_of l'; Ok (i :: rest) end.

Definition list_mountpoint_infos : M Dash (list MountpointInfo * option string) :=
  '(raw, err) ← on_posts list_mountpoints_raw;
  infos ← lift (l ← elements raw; infos_of l);
  mret (infos, err).

Definition media_entry (r : CreateMountpointRequest) : dict json :=
  [("type", JStr "video"); ("mid", JStr "v"); ("label", JStr "video");
   ("port", JInt (cr_rtp_port r)); ("pt", JInt (cr_payload_type r)); ("codec", JStr (cr_codec r));
   ("iface", JStr (str_or (cr_iface r) "127.0.0.1"))]%string
  ++ if String.eqb (cr_codec r) "h264" then [("fmtp", JStr h264_fmtp)]%string else [].

Definition dash_create_body (key : string) (r : CreateMountpointRequest) : json :=
  JObj ([("request", JStr "create"); ("admin_key", JStr key); ("type", JStr "rtp");
         ("id", JInt (cr_id r));
         ("description", JStr (if String.eqb (cr_description r) EmptyString
                               then "dynamic-" ++ pretty (cr_id r) else cr_description r));
         ("is_private", JBool (cr_is_private r)); ("media", JArr [JObj (media_entry r)])]%string
        ++ match nonempty (cr_secret r) with Some s => [("secret", JStr s)]%string | None => [] end).

(** [pd.get("error", "unknown") + (...)], a [TypeError] when it is not a string. *)
Definition error_text (pd : json) : res string :=
  e ← jget pd "error" (JStr "unknown");
  code ← jget pd "error_code" JNull;
  let suffix := if truthy code then (" (code=" ++ show code ++ ")")%string else EmptyString in
  match e with JStr s => Ok (s ++ suffix)%string | _ => fail EType end.

Definition audit_dash (action : string) (details : dict json) : M Dash unit :=
  on_audit (audit action details None None None).

(** The body of the [try] block and its [finally], on an attached session. *)
Definition in_session {B} (run : string → string → M Dash B) : M Dash B :=
  '(sid, handle, err) ← on_posts attach;
  match nonempty err with
  | Some m => raise (Exn (EUseCase JanusAttachFailed) m)
  | None =>
      finally (run (default "None"%string sid) (default "None"%string handle))
        (match nonempty sid with Some s => on_posts (dash_destroy_session s) | None => mret tt end)
  end.

Definition says (pd : json) (key value : string) : res bool :=
  s ← jget pd key JNull; Ok (py_eq s (JStr value)).

Definition dash_create_mountpoint (r : CreateMountpointRequest) : M Dash CreateMountpointResponse :=
  key ← streaming_admin_key;
  if String.eqb key EmptyString then throw (EUseCase StreamingAdminKeyMissing)
  else
    in_session (fun sid handle =>
      data ← on_posts (streaming_message sid handle (dash_create_body key r) "create-mp");
      pd ← lift (plugin_data data);
      created ← lift (says pd "streaming" "created");
      if (created : bool) then
        audit_dash "admin_dashboard.mountpoint.create"
          [("id", JInt (cr_id r)); ("port", JInt (cr_rtp_port r)); ("codec", JStr (cr_codec r))]%string ;;
        mret (mkCreateResponse (cr_id r) (cr_rtp_port r) true None)
      else
        msg ← lift (error_text pd);
        audit_dash "admin_dashboard.mountpoint.create_failed"
          [("id", JInt (cr_id r)); ("error", JStr (String.substring 0 200 msg))]%string ;;
        mret (mkCreateResponse (cr_id r) (cr_rtp_port r) false (Some msg))).

Definition dash_destroy_body (key : string) (mp_id : Z) : json :=
  JObj [("request", JStr "destroy"); ("admin_key", JStr key); ("id", JInt mp_id)]%string.

(** [err_msg[:200]] *)
Definition first_200 (e : json) : res json :=
  match e with
  | JStr s => Ok (JStr (String.substring 0 200 s))
  | JArr l => Ok (JArr (take 200 l))
  | _ => fail EType
  end.

(** Whether the mountpoint was destroyed, and the error otherwise. *)
Definition dash_destroy_mountpoint (mp_id : Z) : M Dash (bool * json) :=
  key ← streaming_admin_key;
  if String.eqb key EmptyString then throw (EUseCase StreamingAdminKeyMissing)
  else
    in_session (fun sid handle =>
      data ← on_posts (streaming_message sid handle (dash_destroy_body key mp_id) "destroy-mp");
      pd ← lift (plugin_data data);
      destroyed ← lift (says pd "streaming" "destroyed");
      if (destroyed : bool) then
        audit_dash "admin_dashboard.mountpoint.destroy" [("id", JInt mp_id)]%string ;;
        mret (true, JNull)
      else
        e ← lift (jget pd "error" (JStr "unknown"));
        short ← lift (first_200 e);
        audit_dash "admin_dashboard.mountpoint.destroy_failed"
          [("id", JInt mp_id); ("error", short)]%string ;;
        mret (false, e)).

Definition mountpoint_id_ok (mp_id : Z) : bool := (1 <=? mp_id) && (mp_id <=? 65535).
End use_cases.

(** ** What a mountpoint operation sends *)
Section exchanges.
Context {J : JanusHttp} {A : AuditEnv}.

Definition message_post (sid handle transaction : string) (body : json) : post :=
  mkPost (sub_path sid ++ "/" ++ handle)%string
    (JObj [("janus", JStr "message"); ("body", body); ("transaction", JStr transaction)]%string).

(** What Janus answered to the message that was its n-th request. *)
Definition confirmed (n : nat) (sid handle tr word : string) (body : json) : Prop :=
  let p := message_post sid handle tr body in
  ∃ code doc pd, janus_reply n (po_path p) (po_body p) = HttpReply code (TxDoc doc) ∧
    plugin_data doc = Ok pd ∧ says pd "streaming" word = Ok true.

(** The requests of one operation with message [body], after [n] others: none, a session
    that was refused, a session left open because it could not be attached, or a complete
    session, in which a claim of success has Janus's word. *)
Inductive dash_exchange (n : nat) (body : json) (tr word : string) (returned claims : bool)
    : list post → Prop :=
  | DashNone : returned = false → dash_exchange n body tr word returned claims []
  | DashRefused : returned = false →
      dash_exchange n body tr word returned claims [mkPost janus_url (open_body "cr-1")]
  | DashLeftOpen sid : returned = false →
      dash_exchange n body tr word returned claims
        [mkPost janus_url (open_body "cr-1"); mkPost (sub_path sid) (attach_body "cr-2")]
  | DashComplete sid handle :
      (claims = true → confirmed (n + 2) sid handle tr word body) →
      dash_exchange n body tr word returned claims
        [mkPost janus_url (open_body "cr-1"); mkPost (sub_path sid) (attach_body "cr-2");
         message_post sid handle tr body; mkPost (sub_path sid) (close_body "cr-clean")].

Lemma wp_client path body (Q : res (Z * text) → list post → Prop) l :
  (∀ r, (∀ e, r = Raise e → ex_kind e = EHttpConnect) →
        (∀ code t, r = Ok (code, t) → janus_reply (length l) path body = HttpReply code t) →
        Q r (l ++ [mkPost path body])) →
  wp (client_post path body) Q l.
Proof.
  intros H. unfold client_post, request_. wp_steps.
  destruct (janus_reply _ _ _) as [code t|m] eqn:Hr; wp_steps; apply H; intros; by simplify_eq.
Qed.

Context (repr_shows : ∀ j, json_repr j ≠ EmptyString).

Lemma show_nonempty j : truthy j = true → show j ≠ EmptyString.
Proof.
  intros Ht. unfold show. destruct j as [|b|z|q|s|l|d]; simpl; try done; [by destruct b| |].
  - intros He. destruct (pretty_chars z) as [_ Hp]. by rewrite He in Hp.
  - simpl in Ht. by destruct s.
Qed.

Lemma attach_posts l :
  wp attach (λ r l', match r with
    | Ok (sid, handle, err) =>
        match nonempty err with
        | Some _ => l' = l ++ [mkPost janus_url (open_body "cr-1")] ∨
            ∃ s, l' = l ++ [mkPost janus_url (open_body "cr-1"); mkPost (sub_path s) (attach_body "cr-2")]
        | None => ∃ s h, sid = Some s ∧ handle = Some h ∧ s ≠ EmptyString ∧
            l' = l ++ [mkPost janus_url (open_body "cr-1"); mkPost (sub_path s) (attach_body "cr-2")]
        end
    | Raise _ => l' = l ++ [mkPost janus_url (open_body "cr-1")] ∨
            ∃ s, l' = l ++ [mkPost janus_url (open_body "cr-1"); mkPost (sub_path s) (attach_body "cr-2")]
    end) l.
Proof.
  unfold attach. wp_step. apply wp_bind, wp_client. intros [[code t]|e] He _; cbn [then_].
  2: { unfold or_catch. rewrite (He e eq_refl). simpl. apply wp_ret. by left. }
  destruct (negb (code =? 200)); [wp_steps; by left|]. apply wp_bind, wp_lift.
  destruct (data_id t) as [sid|e]; cbn [then_].
  2: { unfold or_catch. destruct (instance_of _ _); [apply wp_ret|]; by left. }
  destruct (truthy sid) eqn:Hsid; cbn [negb]; [|wp_steps; by left].
  apply wp_bind, wp_client. intros [[code2 t2]|e] He2 _; cbn [then_]; rewrite <- app_assoc; cbn [app].
  2: { unfold or_catch. rewrite (He2 e eq_refl). simpl. apply wp_ret. right. by eexists. }
  destruct (negb (code2 =? 200)); [wp_steps; right; by eexists|]. apply wp_bind, wp_lift.
  destruct (data_id t2) as [h|e]; cbn [then_].
  2: { unfold or_catch. destruct (instance_of _ _); [apply wp_ret|]; right; by eexists. }
  destruct (negb (truthy h)); wp_steps; simpl; [right; by eexists|].
  eexists _, _. split_and!; [done..|by apply show_nonempty|done].
Qed.

Lemma close_posts sid l :
  ∃ r, dash_destroy_session sid l = (Ok r, l ++ [mkPost (sub_path sid) (close_body "cr-clean")]).
Proof.
  assert (H : wp (dash_destroy_session sid)
    (λ r l', is_ok r = true ∧ l' = l ++ [mkPost (sub_path sid) (close_body "cr-clean")]) l).
  { unfold dash_destroy_session. wp_step. apply wp_bind, wp_client.
    intros [[code t]|e] He _; cbn [then_]; wp_steps; [done|].
    unfold or_catch. rewrite (He e eq_refl). simpl. by wp_steps. }
  unfold wp in H. destruct (dash_destroy_session sid l) as [[r|e] l']; destruct H as [Hr ->]; [|done].
  by exists r.
Qed.

Lemma in_session_spec {B} body tr word (claims : res B → bool) (run : string → string → M Dash B) d :
  (∀ s h d, wp (run s h) (λ r d', d_posts d' = d_posts d ++ [message_post s h tr body] ∧
              (claims r = true → confirmed (length (d_posts d)) s h tr word body)) d) →
  (∀ e, claims (Raise e) = false) →
  wp (in_session run) (λ r d', ∃ ps, d_posts d' = d_posts d ++ ps ∧
    dash_exchange (length (d_posts d)) body tr word (is_ok r) (claims r) ps) d.
Proof.
  intros Hrun Hc. unfold in_session. apply wp_bind. unfold on_posts at 1. apply wp_zoom.
  eapply wp_mono; [apply attach_posts|]. intros [[[sid handle] err]|e] l' H; cbn [then_].
  2: { destruct H as [->|[s ->]]; eexists; (split; [done|]); by constructor. }
  destruct (nonempty err) as [m|].
  { apply wp_raise. destruct H as [->|[s ->]]; eexists; (split; [done|]); by constructor. }
  destruct H as (s & h & -> & -> & Hs & ->). unfold finally. simpl default.
  unfold wp at 1. set (d1 := mkDash _ _ _).
  pose proof (Hrun s h d1) as Hr. unfold wp in Hr. destruct (run s h d1) as [r d2].
  destruct Hr as [Hp Hcl]. unfold nonempty. rewrite (proj2 (String.eqb_neq s EmptyString) Hs).
  unfold on_posts, zoom. destruct (close_posts s (d_posts d2)) as [u ->]. cbn [d_posts].
  rewrite Hp. unfold d1. cbn [d_posts]. rewrite <- !app_assoc. cbn [app]. eexists. split; [done|].
  apply DashComplete. intros Hyes. specialize (Hcl Hyes). unfold d1 in Hcl. cbn [d_posts] in Hcl.
  by rewrite length_app in Hcl.
Qed.

Lemma key_posts d : wp streaming_admin_key (λ r d', d_posts d' = d_posts d) d.
Proof.
  unfold streaming_admin_key, on_secrets. apply wp_bind, wp_zoom, wp_intro.
  intros [v|e] w' _; cbn [then_]; by wp_steps.
Qed.

Lemma wp_message_post s h body tr (Q : res json → Dash → Prop) d :
  (∀ r d', d_posts d' = d_posts d ++ [message_post s h tr body] →
     (∀ doc, r = Ok doc → ∃ code, janus_reply (length (d_posts d)) (po_path (message_post s h tr body))
                                    (po_body (message_post s h tr body)) = HttpReply code (TxDoc doc)) →
     Q r d') →
  wp (on_posts (streaming_message s h body tr)) Q d.
Proof.
  intros H. unfold on_posts. apply wp_zoom. unfold streaming_message. apply wp_bind, wp_client.
  intros [[code t]|e] _ Hr; cbn [then_]; [|by apply H]. apply wp_lift. apply H; [done|].
  intros doc Hd. exists code. etrans; [exact (Hr code t eq_refl)|].
  by destruct t; simplify_eq/=.
Qed.

Lemma wp_audit action details (Q : res unit → Dash → Prop) d :
  (∀ u d', d_posts d' = d_posts d → Q (Ok u) d') → wp (audit_dash action details) Q d.
Proof.
  intros H. unfold audit_dash, on_audit. apply wp_zoom. unfold audit.
  eapply wp_mono; [apply wp_emit|]. intros r l [-> _]. by apply H.
Qed.

(** An operation as the use cases write them: the key, a session, one message and what is
    made of the answer without another request. *)
Lemma operation_spec {B} (body : string → json) tr word (claims : res B → bool)
    (after : json → M Dash B) d :
  (∀ e, claims (Raise e) = false) →
  (∀ doc d, wp (after doc) (λ r d', d_posts d' = d_posts d ∧ (claims r = true →
     ∃ pd, plugin_data doc = Ok pd ∧ says pd "streaming" word = Ok true)) d) →
  wp (key ← streaming_admin_key;
      if String.eqb key EmptyString then throw (EUseCase StreamingAdminKeyMissing)
      else in_session (fun sid handle =>
             data ← on_posts (streaming_message sid handle (body key) tr); after data))
    (λ r d', ∃ key ps, d_posts d' = d_posts d ++ ps ∧ (ps ≠ [] → key ≠ EmptyString) ∧
       dash_exchange (length (d_posts d)) (body key) tr word (is_ok r) (claims r) ps) d.
Proof.
  intros Hc Hafter. apply wp_bind. eapply wp_mono; [apply key_posts|].
  assert (Hnone : ∀ e d1, d_posts d1 = d_posts d → ∃ key ps, d_posts d1 = d_posts d ++ ps ∧
    (ps ≠ [] → key ≠ EmptyString) ∧
    dash_exchange (length (d_posts d)) (body key) tr word (is_ok (@Raise B e)) (claims (Raise e)) ps).
  { intros e d1 Hd1. exists EmptyString, []. rewrite Hd1, app_nil_r. split_and!; [done..|by constructor]. }
  intros [key|e] d1 Hd1; cbn [then_]; [|by apply Hnone].
  destruct (String.eqb_spec key EmptyString) as [->|Hkey]; [by apply wp_raise, Hnone|].
  eapply wp_mono; [apply (in_session_spec (body key) tr word claims); [|done]|].
  - intros s h d2. apply wp_bind, wp_message_post. intros o d3 Hd3 Ho.
    destruct o as [doc|e]; cbn [then_]; [|by rewrite Hc]. destruct (Ho doc eq_refl) as [code Hcode].
    eapply wp_mono; [apply Hafter|]. intros r d4 [Hd4 Hcl]. split; [by rewrite Hd4|].
    intros Hyes. destruct (Hcl Hyes) as (pd & Hpd & Hsay). by exists code, doc, pd.
  - intros o d' (ps & Hps & Hx). exists key, ps. rewrite Hd1 in Hps, Hx. by split_and!.
Qed.
End exchanges.

(** Creating or destroying a mountpoint from the dashboard: unless the attachment fails
    its session is closed, nothing is sent without the admin key, and success is claimed
    only when Janus confirmed it. *)
Theorem dashboard_session_complete {J : JanusHttp} {A : AuditEnv} (r : CreateMountpointRequest) mp d :
  (∀ j, json_repr j ≠ EmptyString) →
  wp (dash_create_mountpoint r) (λ o d', ∃ key ps,
    d_posts d' = d_posts d ++ ps ∧ (ps ≠ [] → key ≠ EmptyString) ∧
    dash_exchange (length (d_posts d)) (dash_create_body key r) "create-mp" "created" (is_ok o)
      (match o with Ok resp => rp_created resp | Raise _ => false end) ps) d ∧
  wp (dash_destroy_mountpoint mp) (λ o d', ∃ key ps,
    d_posts d' = d_posts d ++ ps ∧ (ps ≠ [] → key ≠ EmptyString) ∧
    dash_exchange (length (d_posts d)) (dash_destroy_body key mp) "destroy-mp" "destroyed" (is_ok o)
      (match o with Ok (done, _) => done | Raise _ => false end) ps) d.
Proof.
  intros Hrepr. split.
  - apply (operation_spec Hrepr (λ key, dash_create_body key r) _ _
      (λ o, match o with Ok resp => rp_created resp | Raise _ => false end)); [done|].
    intros doc d1. apply wp_bind, wp_lift.
    destruct (plugin_data doc) as [pd|e] eqn:Hpd; cbn [then_]; [|done]. apply wp_bind, wp_lift.
    destruct (says pd _ _) as [[]|e] eqn:Hsay; cbn [then_]; [| |done].
    + apply wp_bind, wp_audit. intros u d2 Hd2. cbn [then_]. apply wp_ret. split; [done|].
      intros _. by exists pd.
    + apply wp_bind, wp_lift. destruct (error_text pd) as [msg|e]; cbn [then_]; [|done].
      apply wp_bind, wp_audit. intros u d2 Hd2. cbn [then_]. by apply wp_ret.
  - apply (operation_spec Hrepr (λ key, dash_destroy_body key mp) _ _
      (λ o, match o with Ok (done, _) => done | Raise _ => false end)); [done|].
    intros doc d1. apply wp_bind, wp_lift.
    destruct (plugin_data doc) as [pd|e] eqn:Hpd; cbn [then_]; [|done]. apply wp_bind, wp_lift.
    destruct (says pd _ _) as [[]|e] eqn:Hsay; cbn [then_]; [| |done].
    + apply wp_bind, wp_audit. intros u d2 Hd2. cbn [then_]. apply wp_ret. split; [done|].
      intros _. by exists pd.
    + apply wp_bind, wp_lift. destruct (jget pd "error" _) as [err|e]; cbn [then_]; [|done].
      apply wp_bind, wp_lift. destruct (first_200 err) as [short|e]; cbn [then_]; [|done].
      apply wp_bind, wp_audit. intros u d2 Hd2. cbn [then_]. by apply wp_ret.
Qed.

(** ** Witness and findings *)
Definition answering (replies : list http_reply) : JanusHttp := {|
  JANUS_HTTP := "http://127.0.0.1:8088/janus"; JANUS_ADMIN_KEY := "key";
  janus_url := "http://127.0.0.1:8088/janus"; tx := λ n, pretty (Z.of_nat n);
  janus_reply := λ n _ _, nth n replies (HttpReply 200 (TxDoc (JObj [])));
  status_text := λ code _, pretty code; json_repr := λ _, "{}" |}%string.

Definition id_reply (n : Z) : http_reply :=
  HttpReply 200 (TxDoc (JObj [("janus", JStr "success"); ("data", JObj [("id", JInt n)])]%string)).
Definition created_reply : http_reply :=
  HttpReply 200 (TxDoc (JObj [("janus", JStr "success");
    ("plugindata", JObj [("data", JObj [("streaming", JStr "created")])])]%string)).

Definition key_dash : Dash :=
  mkDash [] (mkSecrets (file_of (Text (TxRaw "STREAMING_ADMIN_KEY=abc"))) (file_of Absent) 0) empty_audit.
Definition sample_request : CreateMountpointRequest :=
  mkCreateRequest 2000 "yard" 5100 "h264" 96 false None None.

Lemma dashboard_session_complete_witness :
  let J := answering [id_reply 7; id_reply 9; created_reply] in
  let A := audit_env (λ _, false) in
  wp (dash_create_mountpoint sample_request) (λ o d', ∃ key ps,
    d_posts d' = d_posts key_dash ++ ps ∧ (ps ≠ [] → key ≠ EmptyString) ∧
    dash_exchange (length (d_posts key_dash)) (dash_create_body key sample_request) "create-mp" "created"
      (is_ok o) (match o with Ok resp => rp_created resp | Raise _ => false end) ps) key_dash ∧
  is_ok (dash_create_mountpoint sample_request key_dash).1 = true ∧
  length (d_posts (dash_create_mountpoint sample_request key_dash).2) = 4%nat.
Proof.
  cbv zeta. split; [|vm_compute; by split].
  refine (proj1 (@dashboard_session_complete (answering [id_reply 7; id_reply 9; created_reply])
    (audit_env (λ _, false)) sample_request 2000 key_dash _)). by intros j.
Defined.

(** A session whose attachment is refused is left open, by the operations and by the list
    of mountpoints the dashboard polls. *)
Lemma refused_attach_leaks_session :
  let J := answering [id_reply 7; HttpReply 503 TxEmpty] in
  let A := audit_env (λ _, false) in
  map po_path (d_posts (dash_create_mountpoint sample_request key_dash).2)
    = ["http://127.0.0.1:8088/janus"; "http://127.0.0.1:8088/janus/7"]%string ∧
  map po_path (list_mountpoints_raw []).2
    = ["http://127.0.0.1:8088/janus"; "http://127.0.0.1:8088/janus/7"]%string.
Proof. vm_compute. by split. Qed.
