(* ===== verification/Lifecycle.v ===== *)
(** * Local sensor pipelines ([app/services/sensor_lifecycle/], [app/tools/sensor_reconcile.py])

    Bringing the pipeline of one sensor of the gateway's own camera up and down: the
    allocator's slot, the environment files the encoder reads, the Janus mountpoint and
    the commands of [encoder-admin]; and the boot reconciler that brings up what was
    wanted. The per-sensor lock is the environment's answer ([sensor_lock_answer]); other
    processes may call the allocator before each of its calls here ([meanwhile]). Message
    texts are not modelled. *)
From Stdlib Require Import Ascii.
From S2P Require Import Prelude.
From S2P Require Import Hoare.
From S2P Require Import PyVal.
From S2P Require Import PyStr.
From S2P Require Import FileStore.
From S2P Require Import FdirEvents.
From S2P Require Import LadderPolicy.
From S2P Require Import World.
From S2P Require Import EncoderAdmin.
From S2P Require Import Allocator.
From S2P Require Import BindingModels.
From S2P Require Import AuditLog.
From S2P Require Import JanusAdmin.

(** ** The world of a pipeline *)
Inductive lock_answer := LockTaken | LockBusy | LockUnavailable.

Record Device := mkDevice { dv_serial : string; dv_name : string; dv_firmware : string }.

Class CameraEnv := {
  sensor_lock_answer : nat → lock_answer;
  meanwhile : nat → list alloc_call;          (* what others do to the allocator *)
  ready_polls : nat → nat;                    (* polls before the 3 s deadline *)
  discover_devices : nat → list Device;       (* [device_registry._discover_devices] *)
}.

Record Camera := mkCamera {
  m_world : World;
  m_alloc : file;                  (* sensor_allocations.json *)
  m_contracts : dict string;       (* /etc/robot/rs-<sensor>.contract.env *)
  m_tunings : dict string;         (* /etc/robot/rs-<sensor>.tuning.env *)
  m_janus : list post;             (* the requests to Janus, oldest first *)
  m_serial : option string;        (* [device_registry._local_serial_cache] *)
  m_audit : AuditLog;
}.

Section setters.
Implicit Types c : Camera.
Definition set_alloc f c :=
  mkCamera (m_world c) f (m_contracts c) (m_tunings c) (m_janus c) (m_serial c) (m_audit c).
Definition set_contracts d c :=
  mkCamera (m_world c) (m_alloc c) d (m_tunings c) (m_janus c) (m_serial c) (m_audit c).
Definition set_tunings d c :=
  mkCamera (m_world c) (m_alloc c) (m_contracts c) d (m_janus c) (m_serial c) (m_audit c).
Definition set_serial s c :=
  mkCamera (m_world c) (m_alloc c) (m_contracts c) (m_tunings c) (m_janus c) s (m_audit c).
End setters.

Definition on_host {A} (m : M World A) : M Camera A :=
  zoom m_world (fun w c => mkCamera w (m_alloc c) (m_contracts c) (m_tunings c) (m_janus c)
                             (m_serial c) (m_audit c)) m.

Definition on_janus {A} (m : M (list post) A) : M Camera A :=
  zoom m_janus (fun l c => mkCamera (m_world c) (m_alloc c) (m_contracts c) (m_tunings c) l
                             (m_serial c) (m_audit c)) m.
Definition on_audit {A} (m : M AuditLog A) : M Camera A :=
  zoom m_audit (fun l c => mkCamera (m_world c) (m_alloc c) (m_contracts c) (m_tunings c) (m_janus c)
                             (m_serial c) l) m.

Section lifecycle.
Context {E : Env} {C : CameraEnv} {J : JanusHttp} {L : AuditEnv}.

(** A call of the allocator, after those other processes made. *)
Definition on_alloc {A} (m : M file A) : M Camera A :=
  n ← on_host tick;
  (λ c,
    let f := run_calls (meanwhile n) (set_fault None (m_alloc c)) in
    let '(r, f') := m (set_fault (sys_fault n) f) in
    (r, set_alloc (set_fault None f') c)) : M Camera A.

Definition env_newline : string := String "010"%char EmptyString.

(** ** [encoder_admin.py] *)
Definition encoder_status (family : string) (instance : option string) : M Camera json :=
  try_except2
    (out ← on_host (run_cmd (encoder_cmd "status" family instance)); lift (json_loads out))
    CRuntimeError (fun _ => mret (JObj [])) CValueError (fun _ => mret (JObj [])).

Definition encoder_action (action family : string) (instance : option string) : M Camera unit :=
  on_host (encoder_call action family instance).

Definition active_of (st : json) : res (option bool) :=
  if truthy st then a ← jget st "active" JNull; Ok (Some (truthy a)) else Ok None.

Definition known_sensors : list string := ["color"; "depth"; "ir1"; "ir2"]%string.
Definition known (sensor : string) : bool := existsb (String.eqb sensor) known_sensors.

Definition is_running (sensor : string) : M Camera (option bool) :=
  if known sensor then st ← encoder_status "rs-stream" (Some sensor); lift (active_of st)
  else mret None.

Definition mux_running : M Camera (option bool) :=
  st ← encoder_status "realsense-mux" None; lift (active_of st).

(** ** [contract_env.py] *)
Definition contract_text (rtp_port : Z) (rtp_target_host : string) : string :=
  ("# === CONTRACT — managed by L4 sensor_lifecycle (X3 dynamic allocation) ===" ++ env_newline
   ++ "PORT=" ++ dquoted (pretty rtp_port) ++ env_newline
   ++ "RTP_TARGET_HOST=" ++ dquoted rtp_target_host ++ env_newline)%string.

(** [mkdir], write of the temporary file, [replace], [chmod]. *)
Definition write_env_file (upd : Camera → Camera) : M Camera unit :=
  on_host (os_call SysMkdir) ;;
  on_host (os_call SysWrite) ;;
  on_host (os_call SysReplace) ;;
  modify upd ;;
  on_host (os_call SysFchmod).

Definition write_contract_env (sensor : string) (rtp_port : Z) : M Camera unit :=
  write_env_file (fun c =>
    set_contracts (dset (m_contracts c) sensor (contract_text rtp_port "127.0.0.1")) c).

Definition tuning_defaults (sensor : string) : list (string * string) :=
  let bitrate := if String.eqb sensor "depth" then 1000
                 else if String.eqb sensor "color" then 900 else 800 in
  [("WIDTH", "640"); ("HEIGHT", "480"); ("FPS", "15"); ("BITRATE_KBPS", pretty bitrate);
   ("GOP", "15"); ("PRESET", "veryfast"); ("TUNE", "zerolatency"); ("ROTATION", "0")]%string
  ++ if String.eqb sensor "color"
     then [("SNAPSHOT_PATH", "/run/realsense/color-snapshot.jpg"); ("SNAPSHOT_FPS", "1")]%string
     else [].

Definition tuning_text (sensor : string) : string :=
  ("# === TUNING — operator-editable. Initial defaults written by L4 on first Initialize ==="
   ++ env_newline
   ++ "# Edit + `sudo systemctl restart rs-stream@" ++ sensor ++ ".service` to apply." ++ env_newline
   ++ join env_newline (map (fun '(k, v) => k ++ "=" ++ dquoted v) (tuning_defaults sensor))
   ++ env_newline)%string.

Definition ensure_default_tuning_env (sensor : string) : M Camera unit :=
  c ← get;
  if dmem (m_tunings c) sensor then mret tt
  else write_env_file (fun c => set_tunings (dset (m_tunings c) sensor (tuning_text sensor)) c).

(** ** [pipeline.py] *)

(** The lock is held for the whole body; without a lock directory the body runs
    without it. *)
Definition sensor_lock {A} (body : M Camera A) : M Camera A :=
  n ← on_host tick;
  match sensor_lock_answer n with
  | LockBusy => throw ELifecycle
  | LockTaken | LockUnavailable => body
  end.

(** [media[0]] *)
Definition first_item (j : json) : res json :=
  match j with
  | JArr (x :: _) => Ok x
  | JArr [] => fail EIndex
  | JObj _ => fail EKey
  | JStr s => Ok (JStr (String.substring 0 1 s))
  | _ => fail EType
  end.

(** [isinstance(age, (int, float)) and age < 500] *)
Definition media_flows (age : json) : bool :=
  match age with
  | JInt z => z <? 500
  | JFloat q => negb (Qle_bool 500 q)
  | JBool _ => true
  | _ => false
  end.

(** One pass over the listed mountpoints. *)
Fixpoint mount_ready (mp : Z) (mounts : list json) : res bool :=
  match mounts with
  | [] => Ok false
  | m :: rest =>
      i ← jget m "id" (JInt 0); i ← to_int i;
      if negb (i =? mp) then mount_ready mp rest
      else
        media ← jget m "media" (JArr []);
        if truthy media then
          first ← first_item media; age ← jget first "age_ms" JNull;
          if media_flows age then Ok true else mount_ready mp rest
        else mount_ready mp rest
  end.

Definition poll_ready (mp : Z) : M Camera bool :=
  try_except
    (mounts ← on_janus janus_list_mountpoints;
     lift (l ← elements mounts; mount_ready mp l))
    CJanusAdmin (fun _ => mret false).

(** The polls of the readiness loop; whether they succeed is only logged. *)
Fixpoint wait_ready (polls : nat) (mp : Z) : M Camera unit :=
  match polls with
  | O => mret tt
  | S polls' => ready ← poll_ready mp; if (ready : bool) then mret tt else wait_ready polls' mp
  end.

(** The labels of [_SENSOR_META]. *)
Definition sensor_label (sensor : string) : string :=
  if String.eqb sensor "color" then "RGB Camera"
  else if String.eqb sensor "depth" then "Depth (Z16→RGB)"
  else if String.eqb sensor "ir1" then "IR left (Y8)" else "IR right (Y8)".

(** The mountpoint of a slot; [MP_DEFAULT_SECRET] is the streaming admin key. *)
Definition sensor_mountpoint (serial sensor : string) (alloc : Allocation) : mountpoint :=
  mkMountpoint (mp_id alloc) (rtp_port alloc) (sensor_label sensor ++ " · " ++ serial)%string
    JANUS_ADMIN_KEY "h264" 96 h264_fmtp None "127.0.0.1".

(** [msg = str(e).lower()] *)
Definition says_exists (msg : string) : bool :=
  let m := lower msg in contains "already exists" m || (contains "exists" m && contains "1456" m).

(** [create_mountpoint], an existing mountpoint being reused. *)
Definition register_mountpoint (serial sensor : string) (alloc : Allocation) : M Camera unit :=
  try_except
    (on_janus (janus_create_mountpoint (sensor_mountpoint serial sensor alloc)) ;; mret tt)
    CJanusAdmin (fun e => if says_exists (ex_msg e) then mret tt else throw ELifecycle).

(** [if running is False: raise LifecycleError] *)
Definition require_running (sensor : string) : M Camera unit :=
  running ← is_running sensor;
  match running with Some false => throw ELifecycle | _ => mret tt end.

Definition initialize_color (serial : string) : M Camera Allocation :=
  on_alloc (migrate_color_key serial) ;;
  on_alloc (ensure serial "color" COLOR_MP_ID COLOR_RTP_PORT) ;;
  ensure_default_tuning_env "color" ;;
  write_contract_env "color" COLOR_RTP_PORT ;;
  on_alloc (set_desired serial "color" true) ;;
  encoder_action "start" "realsense-mux" None ;;
  encoder_action "start" "rs-stream" (Some "color") ;;
  require_running "color" ;;
  mret (mkAllocation COLOR_MP_ID COLOR_RTP_PORT true).

Definition initialize_dynamic (serial sensor : string) : M Camera Allocation :=
  alloc ← on_alloc (allocate serial sensor);
  encoder_action "start" "realsense-mux" None ;;
  ensure_default_tuning_env sensor ;;
  write_contract_env sensor (rtp_port alloc) ;;
  register_mountpoint serial sensor alloc ;;
  encoder_action "start" "rs-stream" (Some sensor) ;;
  require_running sensor ;;
  n ← on_host tick;
  wait_ready (ready_polls n) (mp_id alloc) ;;
  on_alloc (set_desired serial sensor true) ;;
  mret alloc.

Definition initialize_locked (serial sensor : string) : M Camera Allocation :=
  if String.eqb sensor "color" then initialize_color serial else initialize_dynamic serial sensor.

(** The running flag of the returned triple is always [True]; the allocation is given
    for every sensor. *)
Definition initialize (serial sensor : string) : M Camera Allocation :=
  if known sensor then sensor_lock (initialize_locked serial sensor)
  else throw EUnsupportedSensor.

(** [try: set_desired(..., False)  except KeyError: pass] *)
Definition clear_desired (serial sensor : string) : M Camera unit :=
  try_except (on_alloc (set_desired serial sensor false) ;; mret tt) CKeyError (fun _ => mret tt).

Definition stop_locked (serial sensor : string) : M Camera unit :=
  if String.eqb sensor "color" then
    on_alloc (migrate_color_key serial) ;;
    clear_desired serial "color" ;;
    encoder_action "stop" "rs-stream" (Some "color"%string)
  else
    clear_desired serial sensor ;;
    encoder_action "stop" "rs-stream" (Some sensor) ;;
    alloc ← on_alloc (f ← get; lift (get_allocation serial sensor (f_content f)));
    match alloc with
    | Some a =>
        try_except
          (on_janus (janus_destroy_mountpoint (mp_id a) JANUS_ADMIN_KEY) ;; mret tt)
          CJanusAdmin (fun _ => mret tt)
    | None => mret tt
    end.

(** The returned running flag is always [False]. *)
Definition stop (serial sensor : string) : M Camera unit :=
  if known sensor then sensor_lock (stop_locked serial sensor) else throw EUnsupportedSensor.

(** ** [app/tools/sensor_reconcile.py] *)
Definition parse_key (key : string) : res (string * string) :=
  match split1 ":" key with Some p => Ok p | None => fail EValue end.

Definition list_allocs : M Camera (dict Allocation) :=
  on_alloc (f ← get; lift (list_allocations (f_content f))).

Definition seed_if_empty : M Camera bool :=
  existing ← list_allocs;
  match existing with
  | _ :: _ => mret false
  | [] =>
      on_alloc (ensure LOCAL_SERIAL "color" COLOR_MP_ID COLOR_RTP_PORT) ;;
      on_alloc (set_desired LOCAL_SERIAL "color" true) ;;
      mret true
  end.

(** [plan]: the keys wanted at boot, the color streams first. *)
Definition plan_keys (desired : dict Allocation) : list string :=
  let keys := dkeys (sort_items desired) in
  List.filter (fun k => endswith k ":color") keys
  ++ List.filter (fun k => negb (endswith k ":color")) keys.

Definition boot_plan : M Camera (list string) :=
  desired ← on_alloc (f ← get; lift (list_desired_active (f_content f)));
  mret (plan_keys desired).

Definition reconcile_stream (serial sensor : string) (dry_run : bool) : M Camera bool :=
  running ← is_running sensor;
  if decide (running = Some true) then mret true
  else if dry_run then mret true
  else
    try_except2 (initialize serial sensor ;; mret true)
      CLifecycle (fun _ => mret false) CUnsupportedSensor (fun _ => mret false).

(** The loop of [main]: whether each key of the plan was brought up. *)
Fixpoint reconcile_keys (keys : list string) (dry_run : bool) : M Camera (list (string * bool)) :=
  match keys with
  | [] => mret []
  | key :: keys' =>
      ok ← match parse_key key with
           | Ok (serial, sensor) => reconcile_stream serial sensor dry_run
           | Raise _ => mret false
           end;
      rest ← reconcile_keys keys' dry_run;
      mret ((key, ok) :: rest)
  end.

(** [main]: the exit code is 0 whenever it returns. *)
Definition reconcile_main (dry_run no_seed : bool) : M Camera (list (string * bool)) :=
  (if no_seed then mret false else seed_if_empty) ;;
  keys ← boot_plan;
  reconcile_keys keys dry_run.

(** ** [app/services/device_registry.py] *)
Record SensorEntry := mkSensorEntry {
  se_sensor : string;
  se_provisioning_supported : bool;
  se_running : option bool;
  se_mountpoint_id : option Z;
  se_rtp_port : option Z;
  se_viewer_url : option string;
}.

Record DeviceEntry := mkDeviceEntry {
  de_serial : string; de_name : string; de_firmware : string; de_sensors : list SensorEntry;
}.

(** [local_serial]: a serial once found is kept. *)
Definition local_serial : M Camera (option string) :=
  c ← get;
  match m_serial c with
  | Some s => if String.eqb s EmptyString
              then n ← on_host tick;
                   match discover_devices n with
                   | d :: _ => modify (set_serial (Some (dv_serial d))) ;; mret (Some (dv_serial d))
                   | [] => mret (Some s)
                   end
              else mret (Some s)
  | None =>
      n ← on_host tick;
      match discover_devices n with
      | d :: _ => modify (set_serial (Some (dv_serial d))) ;; mret (Some (dv_serial d))
      | [] => mret None
      end
  end.

Definition viewer_url (serial sensor : string) (running : option bool) (have : bool)
    : option string :=
  match running with
  | Some true => if have then Some ("/cameras/" ++ serial ++ "/" ++ sensor ++ "/viewer.html")%string
                 else None
  | _ => None
  end.

Fixpoint dynamic_entries (serial : string) (keys : list string) : M Camera (list SensorEntry) :=
  match keys with
  | [] => mret []
  | key :: keys' =>
      running ← is_running key;
      alloc ← on_alloc (f ← get; lift (get_allocation serial key (f_content f)));
      rest ← dynamic_entries serial keys';
      mret (mkSensorEntry key true running (mp_id <$> alloc) (rtp_port <$> alloc)
              (viewer_url serial key running (bool_decide (is_Some alloc))) :: rest)
  end.

(** [_build_sensors]: only the first device can be provisioned. *)
Definition build_sensors (serial : string) (is_first : bool) : M Camera (list SensorEntry) :=
  if is_first then
    color_running ← is_running "color";
    rest ← dynamic_entries serial ["depth"; "ir1"; "ir2"]%string;
    mret (mkSensorEntry "color" true color_running (Some COLOR_MP_ID) (Some COLOR_RTP_PORT)
            (viewer_url serial "color" color_running true) :: rest)
  else mret (map (fun k => mkSensorEntry k false (Some false) None None None) known_sensors).

Fixpoint registry_entries (is_first : bool) (devices : list Device) : M Camera (list DeviceEntry) :=
  match devices with
  | [] => mret []
  | d :: ds =>
      sensors ← build_sensors (dv_serial d) is_first;
      rest ← registry_entries false ds;
      mret (mkDeviceEntry (dv_serial d) (dv_name d) (dv_firmware d) sensors :: rest)
  end.

Definition get_registry : M Camera (list DeviceEntry) :=
  n ← on_host tick;
  match discover_devices n with
  | [] =>
      sensors ← build_sensors "unknown" true;
      mret [mkDeviceEntry "unknown" "RealSense (libusb access failed)" EmptyString sensors]
  | devices => registry_entries true devices
  end.

(** The first device with the serial decides. *)
Definition find_sensor (serial sensor : string) (reg : list DeviceEntry) : option SensorEntry :=
  match List.find (fun d => String.eqb (de_serial d) serial) reg with
  | Some d => List.find (fun s => String.eqb (se_sensor s) sensor) (de_sensors d)
  | None => None
  end.

Definition resolve_sensor (serial sensor : string) : M Camera (option SensorEntry) :=
  reg ← get_registry; mret (find_sensor serial sensor reg).

(** ** [app/application/device_camera/] *)
Definition resolve_or_raise (serial sensor : string) : M Camera SensorEntry :=
  e ← resolve_sensor serial sensor;
  match e with Some e => mret e | None => throw (EUseCase SensorUnknown) end.

Definition resolve_running_sensor (serial sensor : string) : M Camera SensorEntry :=
  e ← resolve_or_raise serial sensor;
  if negb (se_provisioning_supported e) then throw (EUseCase SensorNotProvisionable)
  else match se_running e with
       | Some true => mret e
       | _ => throw (EUseCase SensorStopped)
       end.

Definition camera_action (serial sensor verb : string) : string :=
  ("POST /cameras/" ++ serial ++ "/" ++ sensor ++ "/" ++ verb)%string.
Definition camera_target (serial sensor : string) : string :=
  ("sensor:" ++ serial ++ ":" ++ sensor)%string.

(** The audit entry of an operation on a sensor; the texts of errors are not modelled. *)
Definition audit_sensor (ip rid : option string) (action target outcome : string)
    (details : dict json) : M Camera unit :=
  on_audit (audit_emit action target outcome ip rid (Some "admin"%string) details).

Definition initialize_sensor (serial sensor : string) (ip rid : option string)
    : M Camera Allocation :=
  resolve_or_raise serial sensor ;;
  let action := camera_action serial sensor "initialize" in
  let target := camera_target serial sensor in
  alloc ← try_except2 (initialize serial sensor)
            CUnsupportedSensor (fun e =>
              audit_sensor ip rid action target "failure"
                [("error", JStr "unsupported_sensor"); ("msg", JStr (ex_msg e))]%string ;; raise e)
            CLifecycle (fun e =>
              audit_sensor ip rid action target "error"
                [("error", JStr "lifecycle_error"); ("msg", JStr (ex_msg e))]%string ;; raise e);
  audit_sensor ip rid action target "success" [("mp_id", JInt (mp_id alloc))]%string ;;
  mret alloc.

Definition stop_sensor (serial sensor : string) (ip rid : option string) : M Camera unit :=
  resolve_or_raise serial sensor ;;
  let action := camera_action serial sensor "stop" in
  let target := camera_target serial sensor in
  try_except (stop serial sensor) CLifecycle
    (fun e => audit_sensor ip rid action target "error" [("msg", JStr (ex_msg e))]%string ;;
              raise e) ;;
  audit_sensor ip rid action target "success" [].

(** ** [app/application/stream_bindings/activate_local.py] *)

(** [key.rsplit(":", 1)[0] if ":" in key else ""] *)
Definition serial_of_key (key : string) : string :=
  join ":" (map str (removelast (split_on ":"%char (chars key)))).

Fixpoint count_serials (keys : list string) (counts : dict Z) : dict Z :=
  match keys with
  | [] => counts
  | key :: keys' =>
      let serial := serial_of_key key in
      count_serials keys'
        (if String.eqb serial EmptyString || String.eqb serial LOCAL_SERIAL then counts
         else dset counts serial (default 0 (dget counts serial) + 1))
  end.

(** The serial with most allocations, the smallest of them on a tie. *)
Fixpoint most_counted (counts : dict Z) : option (string * Z) :=
  match counts with
  | [] => None
  | (k, n) :: rest =>
      match most_counted rest with
      | Some (k', n') => if n <? n' then Some (k', n') else Some (k, n)
      | None => Some (k, n)
      end
  end.

Definition gateway_serial : M Camera (option string) :=
  allocs ← try_except list_allocs CException (fun _ => mret []);
  match most_counted (sort_items (count_serials (dkeys allocs) [])) with
  | Some (serial, _) => mret (Some serial)
  | None => local_serial
  end.

Record activation := mkActivation { ac_sensor : string; ac_ok : bool; ac_mountpoint : option Z }.

Definition activate_sensor (serial : option string) (sensor : string) : M Camera activation :=
  if bool_decide (serial = None) && negb (String.eqb sensor "color")
  then mret (mkActivation sensor false None)
  else
    try_except2
      (alloc ← initialize (default LOCAL_SERIAL serial) sensor;
       mret (mkActivation sensor true (Some (mp_id alloc))))
      CUnsupportedSensor (fun _ => mret (mkActivation sensor false None))
      CLifecycle (fun _ => mret (mkActivation sensor false None)).

Fixpoint activate_each (serial : option string) (sensors : list string)
    : M Camera (list activation) :=
  match sensors with
  | [] => mret []
  | sensor :: rest =>
      r ← activate_sensor serial sensor;
      rs ← activate_each serial rest;
      mret (r :: rs)
  end.

Definition activate_local (sensors : list string) : M Camera (list activation) :=
  serial ← gateway_serial;
  results ← activate_each serial sensors;
  let ok_all := match results with [] => false | _ => forallb ac_ok results end in
  on_audit (audit "stream_bindings.node.activate_streams_local"
    [("node_id", JStr LOCAL_NODE_ID); ("serial", jopt JStr serial); ("sensors", JArr (map JStr sensors));
     ("results", JArr (map (fun r => JObj [("sensor", JStr (ac_sensor r)); ("ok", JBool (ac_ok r))])
                         results))]%string
    (Some (if ok_all then "success" else "failure")%string) None None) ;;
  mret results.
End lifecycle.

(** ** Frames *)

(** Nothing but the host (commands, clock, events), the requests to Janus and the audit
    log changed; requests are only added. *)
Definition host_only (c c' : Camera) : Prop :=
  m_alloc c' = m_alloc c ∧ m_contracts c' = m_contracts c ∧ m_tunings c' = m_tunings c ∧
  m_janus c `prefix_of` m_janus c' ∧ m_serial c' = m_serial c.

#[export] Instance host_only_preorder : PreOrder host_only.
Proof.
  split; [by intros c|]. unfold host_only. intros c1 c2 c3 H1 H2. destruct_and!. split_and!; (congruence || by etrans).
Qed.

(** The allocator's file stayed as it was. *)
Abbreviation alloc_kept := (keeps m_alloc).

Section frames.
Context {E : Env} {C : CameraEnv} {J : JanusHttp} {L : AuditEnv}.

Lemma host_on_host {A} (m : M World A) : preserves host_only (on_host m).
Proof. intros c. unfold on_host, zoom. by destruct (m (m_world c)). Qed.

Lemma alloc_host {A} (m : M Camera A) : preserves host_only m → preserves alloc_kept m.
Proof. intros H c. apply (H c). Qed.

Lemma alloc_on_host {A} (m : M World A) : preserves alloc_kept (on_host m).
Proof. apply alloc_host, host_on_host. Qed.

Lemma host_on_janus call : preserves host_only (on_janus (run_janus call)).
Proof.
  intros c. unfold on_janus, zoom. pose proof (janus_appends call (m_janus c)) as H.
  by destruct (run_janus call (m_janus c)).
Qed.

Lemma host_list : preserves host_only (on_janus janus_list_mountpoints).
Proof. apply (host_on_janus JanusList). Qed.
Lemma host_destroy mp k : preserves host_only (on_janus (janus_destroy_mountpoint mp k)).
Proof. apply (host_on_janus (JanusDestroy mp k)). Qed.
Lemma host_create m : preserves host_only (on_janus (janus_create_mountpoint m)).
Proof. apply (host_on_janus (JanusCreate m)). Qed.

Lemma alloc_on_janus {A} (m : M (list post) A) : preserves alloc_kept (on_janus m).
Proof. intros c. unfold on_janus, zoom. by destruct (m (m_janus c)). Qed.
End frames.
#[export] Hint Resolve host_on_host alloc_on_host alloc_on_janus host_list host_destroy host_create : pres.

Section frames2.
Context {E : Env} {C : CameraEnv} {J : JanusHttp} {L : AuditEnv}.

Lemma host_encoder_action a f i : preserves host_only (encoder_action a f i).
Proof. unfold encoder_action. pres. Qed.

Lemma host_encoder_status f i : preserves host_only (encoder_status f i).
Proof. unfold encoder_status. pres. Qed.

Lemma host_is_running x : preserves host_only (is_running x).
Proof.
  unfold is_running. destruct (known x); [|pres].
  apply pres_bind; [apply _|apply host_encoder_status|intros; pres].
Qed.

Lemma host_require_running x : preserves host_only (require_running x).
Proof.
  unfold require_running. apply pres_bind; [apply _|apply host_is_running|].
  intros [[]|]; pres.
Qed.

Lemma host_poll mp : preserves host_only (poll_ready mp).
Proof. unfold poll_ready. pres. Qed.

Lemma host_wait n mp : preserves host_only (wait_ready n mp).
Proof.
  induction n as [|n IH]; simpl; [pres|].
  apply pres_bind; [apply _|apply host_poll|]. intros []; [pres|done].
Qed.

Lemma alloc_write_env upd :
  (∀ c, m_alloc (upd c) = m_alloc c) → preserves alloc_kept (write_env_file upd).
Proof. intros H. unfold write_env_file. pres. Qed.

Lemma alloc_contract x p : preserves alloc_kept (write_contract_env x p).
Proof. by apply alloc_write_env. Qed.

Lemma alloc_tuning x : preserves alloc_kept (ensure_default_tuning_env x).
Proof.
  unfold ensure_default_tuning_env. apply pres_bind; [apply _|pres|]. intros c.
  destruct (dmem _ _); [pres|by apply alloc_write_env].
Qed.

Lemma alloc_register s x a : preserves alloc_kept (register_mountpoint s x a).
Proof. unfold register_mountpoint. pres. Qed.
End frames2.
#[export] Hint Resolve host_encoder_action host_is_running host_require_running host_wait
  alloc_contract alloc_tuning alloc_register alloc_host : pres.

(** ** The slot of a sensor under interference *)

(** A call of another process that leaves the allocation of [k] as it is. *)
Definition leaves_key (k : string) (c : alloc_call) : bool :=
  keeps_key k c && match c with CallSetDesired s x _ => negb (String.eqb (key_of s x) k) | _ => true end.

Lemma alloc_step_leaves k a c op m r m' :
  leaves_key k c = true → op_of c = Some op → alloc_step m op r m' →
  m !! k = Some a → m' !! k = Some a.
Proof.
  intros [Hk Hd]%andb_true_iff Hop Hs Ha.
  destruct Hs as [| | | | | |k' b' a' Ha'| |k' Hk'| |l c' a' Hl Hc'|]; try done.
  - by rewrite lookup_insert_ne by congruence.
  - by rewrite lookup_insert_ne by congruence.
  - destruct c; cbn [op_of] in Hop; repeat case_match; simplify_eq.
    apply negb_true_iff, String.eqb_neq in Hd. by rewrite lookup_insert_ne.
  - destruct c; cbn [op_of] in Hop; repeat case_match; simplify_eq. cbn [keeps_key] in Hk.
    apply negb_true_iff, String.eqb_neq in Hk. by rewrite lookup_delete_ne.
  - destruct c; cbn [op_of] in Hop; repeat case_match; simplify_eq. cbn [keeps_key] in Hk.
    apply negb_true_iff, String.eqb_neq in Hk.
    rewrite lookup_insert_ne by congruence. by rewrite lookup_delete_ne.
Qed.

(** The file denotes a map that gives [k] the allocation [a]. *)
Definition slot (k : string) (a : Allocation) (c : Camera) : Prop :=
  ∃ m, denotes (m_alloc c) m ∧ m !! k = Some a.

(** The file can be read. *)
Definition readable (c : Camera) : Prop := ∃ m, denotes (m_alloc c) m.

Lemma slot_readable k a c : slot k a c → readable c.
Proof. intros (m & Hm & _). by exists m. Qed.

Lemma slot_kept k a c c' : alloc_kept c c' → slot k a c → slot k a c'.
Proof. unfold slot. by intros ->. Qed.

Lemma readable_kept c c' : alloc_kept c c' → readable c → readable c'.
Proof. unfold readable. by intros ->. Qed.

(** Everything but the allocator's file and the host is as it was. *)
Definition alloc_only (c c' : Camera) : Prop :=
  m_contracts c' = m_contracts c ∧ m_tunings c' = m_tunings c ∧
  m_janus c `prefix_of` m_janus c' ∧ m_serial c' = m_serial c.

Definition with_desired (b : bool) (a : Allocation) : Allocation :=
  mkAllocation (mp_id a) (rtp_port a) b.

Lemma set_fault_none f m : denotes f m → set_fault None f = f.
Proof. intros [Hf _ _]. destruct f; simpl in *; by subst. Qed.

Lemma denotes_unique f m1 m2 : denotes f m1 → denotes f m2 → m1 = m2.
Proof.
  intros [_ _ (d1 & Hd1 & _ & <-)] [_ _ (d2 & Hd2 & _ & <-)]. rewrite Hd1 in Hd2. by simplify_eq.
Qed.

Section slots.
Context {E : Env} {C : CameraEnv} {J : JanusHttp} {L : AuditEnv}.

(** No other process changes the allocation of [k]: the per-sensor lock is held. *)
Definition quiet (k : string) : Prop :=
  ∀ n, Forall (λ cl, leaves_key k cl = true) (meanwhile n).

Definition after_others (m m1 : amap) : Prop :=
  ∀ k a, quiet k → m !! k = Some a → m1 !! k = Some a.

Lemma interference n f m :
  denotes f m → ∃ m1, denotes (run_calls (meanwhile n) f) m1 ∧ after_others m m1.
Proof.
  intros Hf. apply (run_calls_ind (after_others m) (meanwhile n) f m); [done|by intros ??|].
  intros cl op m0 r m1 Hin Hop Hs H k a Hk Ha. eapply alloc_step_leaves; [|done..|by apply H].
  specialize (Hk n). rewrite Forall_forall in Hk. by apply Hk.
Qed.

Context (Hfs : ∀ n, sys_fault n = None).

Lemma wp_on_alloc {A} (mm : M file A) (Q : res A → Camera → Prop) c m :
  denotes (m_alloc c) m →
  (∀ f m1, denotes f m1 → after_others m m1 →
     wp mm (λ r f', ∀ c', m_alloc c' = set_fault None f' → alloc_only c c' → Q r c') f) →
  wp (on_alloc mm) Q c.
Proof.
  intros Hm H. unfold on_alloc. apply wp_bind, wp_zoom. simpl. apply wp_intro.
  intros r c1 [= <- <-]. unfold then_, wp. cbn -[set_fault]. rewrite (set_fault_none _ _ Hm), Hfs.
  destruct (interference (w_tick (m_world c)) (m_alloc c) m Hm) as (m1 & Hm1 & Ho).
  rewrite (set_fault_none _ _ Hm1). specialize (H _ _ Hm1 Ho). unfold wp in H.
  destruct (mm _) as [r f']. by apply H.
Qed.

(** A mutation of the allocator takes one step of its abstract specification. *)
Lemma wp_alloc_call {A} (w : A → alloc_reply) (mm : M file A) op (Q : res A → Camera → Prop) c m :
  denotes (m_alloc c) m →
  (∀ f m1, denotes f m1 → ∃ m', alloc_step m1 op (reply_of w (mm f).1) m' ∧ denotes (mm f).2 m') →
  (∀ m1 m' r c', after_others m m1 → alloc_step m1 op (reply_of w r) m' →
     denotes (m_alloc c') m' → alloc_only c c' → Q r c') →
  wp (on_alloc mm) Q c.
Proof.
  intros Hm Href H. apply (wp_on_alloc mm Q c m Hm). intros f m1 Hm1 Ho.
  destruct (Href f m1 Hm1) as (m' & Hs & Hm'). unfold wp. destruct (mm f) as [r f']. simpl in *.
  intros c' Hc' Ha. apply (H m1 m'); try done. by rewrite Hc', (set_fault_none _ _ Hm').
Qed.

(** What the calls of a pipeline do to the map, when the key's entry is known. *)
Lemma wp_set_desired s x b a c m (Q : res Allocation → Camera → Prop) :
  denotes (m_alloc c) m → quiet (key_of s x) → m !! key_of s x = Some a →
  (∀ c' m', denotes (m_alloc c') m' → m' !! key_of s x = Some (with_desired b a) →
     alloc_only c c' → Q (Ok (with_desired b a)) c') →
  wp (on_alloc (set_desired s x b)) Q c.
Proof.
  intros Hm Hq Ha H.
  apply (wp_alloc_call RAlloc _ (OSetDesired (key_of s x) b) _ c m Hm);
    [intros; by apply set_desired_refines|].
  intros m1 m' r c' Ho Hs Hm' Hc. specialize (Ho _ _ Hq Ha) as Ha1.
  destruct r as [a'|e]; inversion Hs; simplify_eq.
  eapply H; [done|by rewrite lookup_insert_eq|done].
Qed.

Lemma wp_migrate s c m (Q : res bool → Camera → Prop) :
  denotes (m_alloc c) m →
  (∀ b c' m', denotes (m_alloc c') m' → alloc_only c c' →
     (∀ a, quiet (key_of s "color") → m !! key_of s "color" = Some a →
           m' !! key_of s "color" = Some a) → Q (Ok b) c') →
  wp (on_alloc (migrate_color_key s)) Q c.
Proof.
  intros Hm H. destruct (String.eqb s LOCAL_SERIAL || String.eqb s EmptyString) eqn:Hs.
  - apply (wp_on_alloc _ Q c m Hm). intros f m1 Hm1 Ho. unfold migrate_color_key. rewrite Hs.
    apply wp_ret. intros c' Hc' Hal. apply (H false c' m1); try done.
    + by rewrite Hc', (set_fault_none _ _ Hm1).
    + intros a Hq Ha. by apply Ho.
  - apply (wp_alloc_call RBool _ (OMigrate (key_of LOCAL_SERIAL "color") (key_of s "color")) _ c m Hm);
      [intros; by apply migrate_refines|].
    intros m1 m' r c' Ho Hstep Hm' Hc.
    destruct r as [b|e]; inversion Hstep; subst; (eapply H; [done..|]); intros a' Hq Ha';
      specialize (Ho _ _ Hq Ha'); [congruence|done].
Qed.

(** [ensure] returns the entry of the key, or a new one that is not wanted yet. *)
Lemma wp_ensure s x mp port c m (Q : res Allocation → Camera → Prop) :
  denotes (m_alloc c) m → quiet (key_of s x) →
  (∀ a c' m', denotes (m_alloc c') m' → m' !! key_of s x = Some a → alloc_only c c' →
     (∀ a0, m !! key_of s x = Some a0 → a = a0) → Q (Ok a) c') →
  (∀ e c' m', m !! key_of s x = None → denotes (m_alloc c') m' → alloc_only c c' → Q (Raise e) c') →
  wp (on_alloc (ensure s x mp port)) Q c.
Proof.
  intros Hm Hq Hok Hfail.
  apply (wp_alloc_call RAlloc _ (OEnsure (key_of s x) mp port) _ c m Hm);
    [intros; by apply ensure_refines|].
  intros m1 m' r c' Ho Hs Hm' Hc.
  assert (Hsome : ∀ a0, m !! key_of s x = Some a0 → m1 !! key_of s x = Some a0) by eauto.
  destruct r as [a|e]; inversion Hs; simplify_eq.
  - apply (Hok a c' m'); try done. intros a0 Ha0. apply Hsome in Ha0. congruence.
  - eapply (Hok _ c'); [done|by rewrite lookup_insert_eq|done|].
    intros a0 Ha0. apply Hsome in Ha0. congruence.
  - destruct (m !! key_of s x) as [a0|] eqn:Ha0; [|by apply (Hfail e c' m')].
    specialize (Hsome _ eq_refl). congruence.
Qed.

(** [allocate] returns the entry of the key, or a new one that is not wanted yet. *)
Lemma wp_allocate s x c m (Q : res Allocation → Camera → Prop) :
  denotes (m_alloc c) m → quiet (key_of s x) →
  (∀ a c' m', denotes (m_alloc c') m' → m' !! key_of s x = Some a → alloc_only c c' →
     (∀ a0, m !! key_of s x = Some a0 → a = a0) → Q (Ok a) c') →
  (∀ e c' m', m !! key_of s x = None → denotes (m_alloc c') m' → alloc_only c c' →
     Q (Raise e) c') →
  wp (on_alloc (allocate s x)) Q c.
Proof.
  intros Hm Hq Hok Hfail.
  apply (wp_alloc_call RAlloc _ (OAllocate (key_of s x)) _ c m Hm);
    [intros; by apply allocate_refines|].
  intros m1 m' r c' Ho Hs Hm' Hc.
  assert (Hsome : ∀ a0, m !! key_of s x = Some a0 → m1 !! key_of s x = Some a0) by eauto.
  destruct r as [a|e]; inversion Hs; simplify_eq.
  - apply (Hok a c' m'); try done. intros a0 Ha0. apply Hsome in Ha0. congruence.
  - eapply (Hok _ c'); [done|by rewrite lookup_insert_eq|done|].
    intros a0 Ha0. apply Hsome in Ha0. congruence.
  - destruct (m !! key_of s x) as [a0|] eqn:Ha0; [|by apply (Hfail e c' m')].
    specialize (Hsome _ eq_refl). congruence.
Qed.
End slots.

(** ** What is known of a key's slot, and of the encoder's files *)

(** Whatever the key's allocation is, it stays. *)
Definition slot_stable (k : string) (c c' : Camera) : Prop := ∀ a, slot k a c → slot k a c'.

#[export] Instance slot_stable_preorder k : PreOrder (slot_stable k).
Proof. split; unfold slot_stable; repeat intro; auto. Qed.

Lemma stable_alloc {A} k (m : M Camera A) :
  preserves alloc_kept m → preserves (slot_stable k) m.
Proof. intros H c a. apply slot_kept, H. Qed.

(** Among the requests is an exchange that asks Janus for [mt], which Janus accepted, or
    answered by saying that it exists. *)
Definition registered {J : JanusHttp} (mt : mountpoint) (ps : list post) : Prop :=
  ∃ l, (janus_create_mountpoint mt l).2 `prefix_of` ps ∧
       match (janus_create_mountpoint mt l).1 with
       | Ok _ => True
       | Raise e => ex_kind e = EJanusAdmin ∧ says_exists (ex_msg e) = true
       end.

(** The files and the mountpoint of a sensor that streams to [port]. *)
Definition wired {J : JanusHttp} (x : string) (port : Z) (mt : mountpoint) (c : Camera) : Prop :=
  dget (m_contracts c) x = Some (contract_text port "127.0.0.1") ∧
  dmem (m_tunings c) x = true ∧ registered mt (m_janus c).

Lemma registered_prefix {J : JanusHttp} mt ps ps' :
  ps `prefix_of` ps' → registered mt ps → registered mt ps'.
Proof. intros Hp (l & Hl & H). exists l. split; [by etrans|done]. Qed.

Lemma wired_kept {J : JanusHttp} x port mt c c' :
  alloc_only c c' → wired x port mt c → wired x port mt c'.
Proof.
  unfold wired. intros (Hc & Ht & Hj & _). rewrite Hc, Ht. intros (? & ? & ?). split_and!; [done..|].
  by eapply registered_prefix.
Qed.

Lemma host_alloc_only c c' : host_only c c' → alloc_only c c'.
Proof. intros (_ & H). apply H. Qed.

Section pipeline.
Context {E : Env} {C : CameraEnv} {J : JanusHttp} {L : AuditEnv}.

Lemma wp_tick (Q : res nat → Camera → Prop) c :
  (∀ n c', host_only c c' → Q (Ok n) c') → wp (on_host tick) Q c.
Proof. intros H. apply wp_zoom, wp_intro. intros r w [= <- <-]. by apply H. Qed.

Lemma wp_write_env (upd : Camera → Camera) (Q : res unit → Camera → Prop) c :
  (∀ e c', host_only c c' ∨ (∃ c0, host_only c c0 ∧ host_only (upd c0) c') → Q (Raise e) c') →
  (∀ c0 c', host_only c c0 → host_only (upd c0) c' → Q (Ok tt) c') →
  wp (write_env_file upd) Q c.
Proof.
  intros Hraise Hok. unfold write_env_file.
  do 3 (apply wp_bind; eapply wp_frame; [apply host_on_host|]; intros [[]|e] ? ?; cbn [then_];
        [|apply Hraise; left; etrans; [|done]; try done; by etrans]).
  apply wp_bind, wp_modify. cbn [then_].
  assert (Hc : host_only c w'1) by (etrans; [by etrans|done]).
  eapply wp_frame; [apply host_on_host|]. intros [[]|e] c' Hc'; eauto.
Qed.

Lemma wp_tuning x (Q : res unit → Camera → Prop) c :
  (∀ r c', alloc_kept c c' → m_contracts c' = m_contracts c →
     (r = Ok tt → dmem (m_tunings c') x = true) → Q r c') →
  wp (ensure_default_tuning_env x) Q c.
Proof.
  intros H. unfold ensure_default_tuning_env. repeat wp_step.
  destruct (dmem (m_tunings c) x) eqn:Hx; [by apply wp_ret, H|].
  apply wp_write_env.
  - intros e c' [Hc|(c0 & H0 & Hc)]; unfold host_only in *; destruct_and!; apply H; try done;
      unfold keeps; simpl in *; congruence.
  - intros c0 c' H0 Hc. unfold host_only in *. destruct_and!. simpl in *. apply H; try done.
    1-2: unfold keeps; congruence.
    intros _. match goal with H : m_tunings c' = _ |- _ => rewrite H end.
    unfold dmem. by rewrite dget_dset_eq.
Qed.

Lemma wp_contract x port (Q : res unit → Camera → Prop) c :
  (∀ r c', alloc_kept c c' → m_tunings c' = m_tunings c →
     (r = Ok tt → dget (m_contracts c') x = Some (contract_text port "127.0.0.1")) → Q r c') →
  wp (write_contract_env x port) Q c.
Proof.
  intros H. apply wp_write_env.
  - intros e c' [Hc|(c0 & H0 & Hc)]; unfold host_only in *; destruct_and!; apply H; try done;
      unfold keeps; simpl in *; congruence.
  - intros c0 c' H0 Hc. unfold host_only in *. destruct_and!. simpl in *. apply H; try done.
    1-2: unfold keeps; congruence.
    intros _. match goal with H : m_contracts c' = _ |- _ => rewrite H end. apply dget_dset_eq.
Qed.

Lemma wp_register s x a (Q : res unit → Camera → Prop) c :
  (∀ r c', alloc_kept c c' → m_contracts c' = m_contracts c → m_tunings c' = m_tunings c →
     (r = Ok tt → registered (sensor_mountpoint s x a) (m_janus c')) → Q r c') →
  wp (register_mountpoint s x a) Q c.
Proof.
  intros H. unfold register_mountpoint. apply wp_try, wp_bind. unfold on_janus. apply wp_zoom, wp_intro.
  intros r l Hr. set (c2 := mkCamera _ _ _ _ _ _ _).
  assert (H2 : ∀ r', (r' = Ok tt → match r with
      | Ok _ => True | Raise e => ex_kind e = EJanusAdmin ∧ says_exists (ex_msg e) = true end) → Q r' c2).
  { intros r' Hr'. apply H; [done..|]. intros Heq. exists (m_janus c). rewrite Hr.
    split; [done|by apply Hr']. }
  destruct r as [v|e]; cbn [then_]; [by apply H2|]. unfold or_catch.
  destruct (instance_of (ex_kind e) CJanusAdmin) eqn:He; [|by apply H2].
  destruct (says_exists (ex_msg e)) eqn:Hx; [apply wp_ret|apply wp_raise]; apply H2; [|done].
  by destruct (ex_kind e).
Qed.
End pipeline.

(** ** Bringing a pipeline up and down *)
Section intent.
Context {E : Env} {C : CameraEnv} {J : JanusHttp} (Hfs : ∀ n, sys_fault n = None).

Lemma wp_lock {A} (body : M Camera A) (Q : res A → Camera → Prop) c :
  (∀ n, sensor_lock_answer n ≠ LockBusy) → (∀ c', host_only c c' → wp body Q c') →
  wp (sensor_lock body) Q c.
Proof.
  intros Hlock H. unfold sensor_lock. apply wp_bind, wp_tick. intros n c' Hc. cbn [then_].
  destruct (sensor_lock_answer n) eqn:Hn; [by apply H|by destruct (Hlock n)|by apply H].
Qed.

Lemma plan_keys_spec f m :
  denotes f m →
  ∃ d, list_desired_active (f_content f) = Ok d ∧
       ∀ k, k ∈ plan_keys d ↔ ∃ a, m !! k = Some a ∧ desired_active a = true.
Proof.
  intros [_ _ (d & Hd & Hnd & Hm)]. exists (List.filter (λ '(_, a), desired_active a) d). split.
  { unfold list_desired_active. by rewrite Hd. }
  intros k. set (d' := List.filter _ d).
  assert (Hk : k ∈ plan_keys d' ↔ k ∈ dkeys d').
  { unfold plan_keys, dkeys. rewrite elem_of_app, !list_elem_of_In, !filter_In, <- !list_elem_of_In.
    rewrite (sort_items_perm d'). destruct (endswith k ":color"); simpl; tauto. }
  rewrite Hk. unfold dkeys. rewrite list_elem_of_fmap. subst m. setoid_rewrite lookup_to_gmap. split.
  - intros ([k' a] & -> & Hin). unfold d' in Hin.
    apply list_elem_of_In, filter_In in Hin as [Hin Ha]. exists a. split; [|done].
    apply dget_NoDup; [done|by apply list_elem_of_In].
  - intros (a & Ha & Hact). exists (k, a). split; [done|]. unfold d'.
    apply list_elem_of_In, filter_In. split; [|done]. apply list_elem_of_In. by apply dget_elem.
Qed.

(** After the intent is recorded, nothing a stop does takes it back. *)
Lemma wp_clear s x a c m (Q : res unit → Camera → Prop) :
  denotes (m_alloc c) m → quiet (key_of s x) → m !! key_of s x = Some a →
  (∀ c', slot (key_of s x) (with_desired false a) c' → Q (Ok tt) c') →
  wp (clear_desired s x) Q c.
Proof.
  intros Hm Hq Ha H. unfold clear_desired. apply wp_try, wp_bind.
  apply (wp_set_desired Hfs s x false a c m); [done..|]. intros c' m' Hm' Ha' _.
  cbn [then_]. apply wp_ret. cbn [or_catch]. apply H. by exists m'.
Qed.

Lemma read_stable {A} k (f : content → res A) :
  quiet k → preserves (slot_stable k) (on_alloc (g ← get; lift (f (f_content g)))).
Proof.
  intros Hq c a (m & Hm & Ha).
  apply (wp_state _ (slot k a)).
  apply (wp_on_alloc Hfs _ _ c m Hm). intros g m1 Hm1 Ho. repeat wp_step.
  intros c' Hc' _. exists m1. split; [|by apply Ho]. by rewrite Hc', (set_fault_none _ _ Hm1).
Qed.

Lemma destroy_stable k s x :
  quiet k →
  preserves (slot_stable k)
    (alloc ← on_alloc (f ← get; lift (get_allocation s x (f_content f)));
     match alloc with
     | Some a =>
         try_except
           (on_janus (janus_destroy_mountpoint (mp_id a) JANUS_ADMIN_KEY) ;; mret tt)
           CJanusAdmin (fun _ => mret tt)
     | None => mret tt
     end).
Proof.
  intros Hq. apply pres_bind; [apply _|by apply (read_stable k (get_allocation s x))|].
  intros [a|]; apply stable_alloc; pres.
Qed.

Lemma stop_locked_records s x a c m :
  denotes (m_alloc c) m → quiet (key_of s x) → m !! key_of s x = Some a →
  wp (stop_locked s x) (λ _ c', slot (key_of s x) (with_desired false a) c') c.
Proof.
  intros Hm Hq Ha. unfold stop_locked. destruct (String.eqb x "color") eqn:Hx.
  - apply String.eqb_eq in Hx as ->. apply wp_bind, (wp_migrate Hfs s c m); [done|].
    intros b c1 m1 Hm1 _ Hk. cbn [then_]. apply wp_bind.
    apply (wp_clear s "color" a c1 m1); [done..|by apply Hk|]. intros c2 H2. cbn [then_].
    eapply wp_frame; [apply (stable_alloc (key_of s "color")); pres|]. intros r c3 H3. by apply H3.
  - apply wp_bind, (wp_clear s x a c m); [done..|]. intros c1 H1. cbn [then_].
    apply wp_bind. eapply wp_frame; [apply (stable_alloc (key_of s x)); pres|].
    intros [u|e] c2 H2; cbn [then_]; [|by apply H2].
    eapply wp_frame; [apply (destroy_stable (key_of s x) s x Hq)|]. intros r c3 H3. by apply H3, H2.
Qed.
End intent.

(** Stopping a stream records that it is not wanted before anything else is tried:
    whatever the encoder and Janus answer, also when the stop raises, its entry keeps
    its slot, is not wanted any more and is not in the boot reconciler's plan. *)
Theorem stop_sticks {E : Env} {C : CameraEnv} {J : JanusHttp} s x a c m :
  (∀ n, sys_fault n = None) → (∀ n, sensor_lock_answer n ≠ LockBusy) →
  denotes (m_alloc c) m → quiet (key_of s x) → known x = true → m !! key_of s x = Some a →
  let c' := (stop s x c).2 in
  slot (key_of s x) (with_desired false a) c' ∧
  ∃ d, list_desired_active (f_content (m_alloc c')) = Ok d ∧ key_of s x ∉ plan_keys d.
Proof.
  intros Hfs Hlock Hm Hq Hx Ha. cbv zeta.
  assert (Hs : slot (key_of s x) (with_desired false a) (stop s x c).2).
  { apply wp_state. unfold stop. rewrite Hx. apply wp_lock; [done|]. intros c1 Hc1.
    apply (stop_locked_records Hfs s x a c1 m); [|done..]. by destruct Hc1 as (-> & _). }
  split; [done|]. destruct Hs as (m' & Hm' & Ha'). destruct (plan_keys_spec _ _ Hm') as (d & Hd & Hk).
  exists d. split; [done|]. rewrite Hk. intros (b & Hb & Hact). by simplify_eq.
Qed.

(** What an attempt to bring up (serial, sensor) leaves: on success the sensor is wanted,
    the encoder's contract names the port of its slot and Janus has the
    mountpoint for that port; on failure an allocated sensor keeps its slot and its
    recorded intent, except that the color stream is then wanted, so that the boot
    reconciler retries it. *)
Definition brought_up {J : JanusHttp} (s x : string) (m : amap) (r : res Allocation) (c' : Camera) : Prop :=
  let k := key_of s x in
  match r with
  | Ok a =>
      (∃ a', slot k a' c' ∧ desired_active a' = true ∧ (x ≠ "color"%string → a' = with_desired true a)) ∧
      dget (m_contracts c') x = Some (contract_text (rtp_port a) "127.0.0.1") ∧
      dmem (m_tunings c') x = true ∧
      (x ≠ "color"%string → registered (sensor_mountpoint s x a) (m_janus c') ∧
                            ∀ a0, m !! k = Some a0 → a = a0)
  | Raise _ =>
      ∀ a0, m !! k = Some a0 →
        slot k a0 c' ∨ (x = "color"%string ∧ slot k (with_desired true a0) c')
  end.

Section bring_up.
Context {E : Env} {C : CameraEnv} {J : JanusHttp} (Hfs : ∀ n, sys_fault n = None).

(** A step that keeps the allocator's file; if it raises, so does the attempt, and the
    slot is what it was. *)
Lemma wp_then_keep {A B} (R : Camera → Camera → Prop) (m : M Camera A) (f : A → M Camera B)
    (Q : res B → Camera → Prop) c :
  preserves R m → (∀ e c', R c c' → Q (Raise e) c') → (∀ a c', R c c' → wp (f a) Q c') →
  wp (m ≫= f) Q c.
Proof.
  intros Hm He Hf. apply wp_bind. eapply wp_frame; [done|]. intros [a|e] c' Hc'; cbn [then_]; auto.
Qed.

Lemma initialize_dynamic_spec s x c m :
  x ≠ "color"%string → denotes (m_alloc c) m → quiet (key_of s x) →
  wp (initialize_dynamic s x) (brought_up s x m) c.
Proof.
  intros Hx Hm Hq. unfold initialize_dynamic. set (k := key_of s x).
  apply wp_bind, (wp_allocate Hfs s x c m); [done..| |].
  2: { intros e c1 m1 Hn _ _ a0 Ha0. congruence. }
  intros a c1 m1 Hm1 Ha _ Ha0. cbn [then_].
  assert (Hfail : ∀ c', slot k a c' → ∀ e, brought_up s x m (Raise e) c').
  { intros c' Hs e a0 H0. left. by rewrite <- (Ha0 _ H0). }
  assert (H1 : slot k a c1) by (by exists m1).
  apply (wp_then_keep alloc_kept); [pres|intros; apply Hfail; by eapply slot_kept|].
  intros u2 c2 H2. apply (slot_kept k a) in H2; [|done].
  apply wp_bind, wp_tuning. intros [[]|e] c3 K3 _ Ht; cbn [then_];
    [|apply Hfail; by eapply slot_kept]. apply (slot_kept k a) in K3; [|done].
  apply wp_bind, wp_contract. intros [[]|e] c4 K4 T4 Hc; cbn [then_];
    [|apply Hfail; by eapply slot_kept]. apply (slot_kept k a) in K4; [|done].
  specialize (Ht eq_refl). specialize (Hc eq_refl).
  apply wp_bind, wp_register. intros [[]|e] c5 K5 C5 T5 Hj; cbn [then_];
    [|apply Hfail; by eapply slot_kept]. apply (slot_kept k a) in K5; [|done].
  assert (Hw : wired x (rtp_port a) (sensor_mountpoint s x a) c5)
    by (split_and!; [congruence|congruence|by apply Hj]).
  apply (wp_then_keep host_only); [pres|intros e c' [H' _]; eapply Hfail, slot_kept; done|].
  intros [] c6 H6. pose proof (slot_kept k a _ _ (proj1 H6) K5) as K6.
  apply (wp_then_keep host_only); [pres|intros e c' [H' _]; eapply Hfail, slot_kept; done|].
  intros [] c7 H7. pose proof (slot_kept k a _ _ (proj1 H7) K6) as K7.
  apply wp_bind, wp_tick. intros n c8 H8. cbn [then_].
  pose proof (slot_kept k a _ _ (proj1 H8) K7) as K8.
  apply (wp_then_keep host_only); [pres|intros e c' [H' _]; eapply Hfail, slot_kept; done|].
  intros [] c9 H9. destruct (slot_kept k a _ _ (proj1 H9) K8) as (m9 & Hm9 & Ha9).
  assert (Hall : alloc_only c5 c9) by (apply host_alloc_only; by repeat (etrans; [done|])).
  apply (wired_kept _ _ _ _ _ Hall) in Hw.
  apply wp_bind, (wp_set_desired Hfs s x true a c9 m9); [done..|]. intros c10 m10 Hm10 Ha10 Hal. cbn [then_].
  apply wp_ret. apply (wired_kept _ _ _ _ _ Hal) in Hw as (Hw1 & Hw2 & Hw3).
  split_and!; [|done|done|done].
  exists (with_desired true a). split_and!; [by exists m10|done|done].
Qed.

Lemma initialize_color_spec s c m :
  denotes (m_alloc c) m → quiet (key_of s "color") →
  wp (initialize_color s) (brought_up s "color" m) c.
Proof.
  intros Hm Hq. unfold initialize_color. set (k := key_of s "color").
  apply wp_bind, (wp_migrate Hfs s c m); [done|]. intros b c1 m1 Hm1 _ Hkeep. cbn [then_].
  apply wp_bind, (wp_ensure Hfs s "color" _ _ c1 m1); [done..| |].
  2: { intros e c2 m2 Hn _ _ a0 Ha0. rewrite (Hkeep a0 Hq Ha0) in Hn. done. }
  intros a c2 m2 Hm2 Ha _ Ha0. cbn [then_].
  assert (Hfail : ∀ c', slot k a c' ∨ slot k (with_desired true a) c' →
                        ∀ e, brought_up s "color" m (Raise e) c').
  { intros c' Hs e a0 H0. rewrite <- (Ha0 _ (Hkeep _ Hq H0)). naive_solver. }
  assert (H2 : slot k a c2) by (by exists m2).
  apply wp_bind, wp_tuning. intros [[]|e] c3 K3 _ Ht; cbn [then_];
    [|apply Hfail; left; by eapply slot_kept]. apply (slot_kept k a) in K3; [|done].
  apply wp_bind, wp_contract. intros [[]|e] c4 K4 T4 Hc; cbn [then_];
    [|apply Hfail; left; by eapply slot_kept].
  destruct (slot_kept k a _ _ K4 K3) as (m4 & Hm4 & Ha4).
  specialize (Ht eq_refl). specialize (Hc eq_refl). rewrite <- T4 in Ht.
  apply wp_bind, (wp_set_desired Hfs s "color" true a c4 m4); [done..|].
  intros c5 m5 Hm5 Ha5 (Hc5 & Ht5 & _). cbn [then_]. rewrite <- Hc5 in Hc. rewrite <- Ht5 in Ht.
  assert (H5 : slot k (with_desired true a) c5) by (by exists m5).
  apply (wp_then_keep host_only); [pres|intros e c' [H' _]; eapply Hfail; right; by eapply slot_kept|].
  intros [] c6 H6. pose proof (slot_kept k _ _ _ (proj1 H6) H5) as K6.
  apply (wp_then_keep host_only); [pres|intros e c' [H' _]; eapply Hfail; right; by eapply slot_kept|].
  intros [] c7 H7. pose proof (slot_kept k _ _ _ (proj1 H7) K6) as K7.
  apply (wp_then_keep host_only); [pres|intros e c' [H' _]; eapply Hfail; right; by eapply slot_kept|].
  intros [] c8 H8. pose proof (slot_kept k _ _ _ (proj1 H8) K7) as K8. apply wp_ret.
  assert (Hall : alloc_only c5 c8) by (apply host_alloc_only; by repeat (etrans; [done|])).
  destruct Hall as (Hc8 & Ht8 & _).
  split_and!; [by exists (with_desired true a)|by rewrite Hc8|by rewrite Ht8|done].
Qed.
End bring_up.


(** ** The boot reconciler *)

(** The command-line tool answers, and prints an object when its output is JSON. *)
Definition cli_answers {E : Env} : Prop :=
  ∀ n argv, ∃ rc out err, cli n argv = CliDone rc out err ∧
    match out with TxDoc (JObj _) => True | TxDoc _ => False | _ => True end.

(** Janus replies as it documents: objects with the ids that were asked for, and a
    list of mountpoints the readiness poll can read. *)
Definition pollable (mounts : json) : Prop :=
  ∀ mp, is_ok (l ← elements mounts; mount_ready mp l) = true.
Definition janus_answers {J : JanusHttp} : Prop :=
  ∀ n path body, reply_ok pollable body (janus_reply n path body).

Section boot.
Context {E : Env} {C : CameraEnv} {J : JanusHttp} (Hfs : ∀ n, sys_fault n = None).
Context (Hcli : cli_answers) (Hjanus : janus_answers) (Halone : ∀ n, meanwhile n = []).
Context (m0 : amap).

(** Every wanted stream of [m0] has its slot and is still wanted. *)
Definition keeps_wanted (c : Camera) : Prop :=
  ∃ m, denotes (m_alloc c) m ∧
       ∀ k a, m0 !! k = Some a → desired_active a = true → m !! k = Some a.

(** A failure the reconciler counts and goes on after. *)
Definition soft {A} (r : res A) : Prop :=
  match r with Ok _ => True | Raise e => ex_kind e = ELifecycle end.

Definition boots {A} (m : M Camera A) : Prop :=
  ∀ c, keeps_wanted c → wp m (λ r c', keeps_wanted c' ∧ soft r) c.

Lemma boots_ret {A} (a : A) : boots (mret a).
Proof. by intros c Hc. Qed.

Lemma boots_lifecycle {A} : boots (throw (A:=A) ELifecycle).
Proof. by intros c Hc. Qed.

Lemma boots_bind {A B} (m : M Camera A) (f : A → M Camera B) :
  boots m → (∀ a, boots (f a)) → boots (m ≫= f).
Proof.
  intros Hm Hf c Hc. apply wp_bind. eapply wp_mono; [by apply Hm|].
  intros [a|e] c' [Hc' Hr]; [by apply Hf|done].
Qed.

Lemma boots_keep {A} (m : M Camera A) :
  preserves alloc_kept m → (∀ c, soft (m c).1) → boots m.
Proof.
  intros Hk Hs c (m1 & Hm1 & H1). apply wp_intro. intros r c' Hr.
  specialize (Hk c). specialize (Hs c). rewrite Hr in Hk, Hs. simpl in *.
  split; [|done]. exists m1. by rewrite Hk.
Qed.

Lemma quiet_alone k : quiet k.
Proof. intros n. by rewrite Halone. Qed.

Lemma run_cmd_done argv c :
  ∃ r c', on_host (run_cmd argv) c = (r, c') ∧
    match r with
    | Ok out => match out with TxDoc (JObj _) => True | TxDoc _ => False | _ => True end
    | Raise e => ex_kind e = ERuntime
    end.
Proof.
  destruct (Hcli (w_tick (m_world c)) argv) as (rc & out & err & Hdone & Hout).
  unfold on_host, zoom. rewrite run_cmd_eq, Hdone. destruct (rc =? 0); eexists _, _; by split.
Qed.

Lemma boots_action a f i : boots (encoder_action a f i).
Proof.
  apply boots_keep; [pres|]. intros c.
  destruct (run_cmd_done (encoder_cmd a f i) c) as (r & c' & Hr & Hk).
  unfold encoder_action, encoder_call, try_except, on_host, zoom, mbind, M_bind in *.
  destruct (run_cmd _ _) as [r0 w']. injection Hr as -> _.
  destruct r as [out|[k msg]]; [done|]. simpl in *. by subst.
Qed.

Lemma is_running_ok x c : is_ok (is_running x c).1 = true.
Proof.
  unfold is_running, encoder_status. destruct (known x); [|done].
  unfold mbind at 1, M_bind at 1, try_except2, mbind at 1, M_bind at 1.
  destruct (run_cmd_done (encoder_cmd "status" "rs-stream" (Some x)) c) as (r & c' & -> & Hk).
  destruct r as [[| | |[| | | | | |d]|str]|[k msg]]; simpl in *; try done; [|by subst].
  unfold lift, active_of. simpl. destruct d; simpl; [done|].
  unfold mbind, res_bind. destruct p as [k' v']. by destruct (String.eqb "active" k').
Qed.

Lemma boots_running x : boots (is_running x).
Proof.
  apply boots_keep; [pres|]. intros c. pose proof (is_running_ok x c).
  by destruct (is_running x c) as [[]].
Qed.

Lemma boots_require x : boots (require_running x).
Proof.
  apply boots_bind; [apply boots_running|]. intros [[]|];
    [apply boots_ret|apply boots_lifecycle|apply boots_ret].
Qed.

Lemma boots_tick {B} (f : nat → M Camera B) : (∀ n, boots (f n)) → boots (on_host tick ≫= f).
Proof. intros Hf. apply boots_bind; [|done]. apply boots_keep; [pres|done]. Qed.

Lemma boots_call s : boots (on_host (os_call s)).
Proof.
  apply boots_keep; [pres|]. intros c. unfold on_host, zoom, os_call, mbind, M_bind. simpl.
  rewrite Hfs. by case_decide.
Qed.

Lemma boots_write upd : (∀ c, m_alloc (upd c) = m_alloc c) → boots (write_env_file upd).
Proof.
  intros Hu. unfold write_env_file. repeat (apply boots_bind; [apply boots_call|intros _]).
  apply boots_bind; [|intros _; apply boots_call]. apply boots_keep; [|done]. intros c. apply Hu.
Qed.

Lemma boots_tuning x : boots (ensure_default_tuning_env x).
Proof.
  unfold ensure_default_tuning_env. apply boots_bind; [apply boots_keep; [pres|done]|]. intros c.
  destruct (dmem _ _); [apply boots_ret|by apply boots_write].
Qed.

Lemma boots_register s x a : boots (register_mountpoint s x a).
Proof.
  apply boots_keep; [pres|]. intros c. unfold register_mountpoint, try_except, mbind, M_bind, on_janus, zoom.
  pose proof (janus_call_ok pollable Hjanus (JanusCreate (sensor_mountpoint s x a)) (m_janus c)) as H.
  unfold wp in H. cbn [run_janus] in H. destruct (janus_create_mountpoint _ _) as [[j|e] l]; [done|].
  simpl in *. rewrite H. simpl. by destruct (says_exists _).
Qed.

Lemma boots_poll mp : boots (poll_ready mp).
Proof.
  apply boots_keep; [apply alloc_host, host_poll|]. intros c.
  unfold poll_ready, try_except, mbind, M_bind, on_janus, zoom, lift.
  pose proof (janus_call_ok pollable Hjanus JanusList (m_janus c)) as H.
  unfold wp in H. cbn [run_janus] in H. destruct (janus_list_mountpoints _) as [[j|e] l].
  - specialize (H mp). cbv beta iota. change (l0 ← elements j; mount_ready mp l0)
      with (res_bind _ _ (λ l0, mount_ready mp l0) (elements j)) in H.
    by destruct (res_bind _ _ _ (elements j)).
  - simpl in H. by rewrite H.
Qed.

Lemma boots_wait n mp : boots (wait_ready n mp).
Proof.
  induction n as [|n IH]; [apply boots_ret|]. simpl. apply boots_bind; [apply boots_poll|].
  by intros []; [apply boots_ret|].
Qed.

(** The allocator's calls on a wanted key. *)
Section wanted_key.
Context (s x : string) (a : Allocation).
Context (Ha : m0 !! key_of s x = Some a) (Hact : desired_active a = true).

Lemma keep_all m1 m2 c :
  denotes (m_alloc c) m2 → after_others m1 m2 →
  (∀ k a, m0 !! k = Some a → desired_active a = true → m1 !! k = Some a) → keeps_wanted c.
Proof.
  intros Hc Ho H. exists m2. split; [done|]. intros k b Hb Hd. apply Ho; [apply quiet_alone|]. eauto.
Qed.

Lemma boots_step {A} (w : A → alloc_reply) (mm : M file A) op :
  (∀ f m1, denotes f m1 → ∃ m', alloc_step m1 op (reply_of w (mm f).1) m' ∧ denotes (mm f).2 m') →
  (∀ m1 m' r, m1 !! key_of s x = Some a → alloc_step m1 op (reply_of w r) m' →
     soft r ∧ ∀ k b, m1 !! k = Some b → desired_active b = true → m' !! k = Some b) →
  boots (on_alloc mm).
Proof.
  intros Href Hstep c (m & Hm & H). apply (wp_alloc_call Hfs w mm op _ c m Hm Href).
  intros m1 m' r c' Ho Hs Hm' _.
  assert (H1 : ∀ k b, m0 !! k = Some b → desired_active b = true → m1 !! k = Some b).
  { intros k b Hb Hd. apply Ho; [apply quiet_alone|]. eauto. }
  destruct (Hstep m1 m' r (H1 _ _ Ha Hact) Hs) as [Hr Hk]. split; [|done].
  exists m'. split; [done|]. eauto.
Qed.

Lemma boots_allocate : boots (on_alloc (allocate s x)).
Proof.
  apply (boots_step RAlloc _ (OAllocate (key_of s x))); [intros; by apply allocate_refines|].
  intros m1 m' [r|e] H1 Hs; inversion Hs; simplify_eq; by split.
Qed.

Lemma boots_ensure mp port : boots (on_alloc (ensure s x mp port)).
Proof.
  apply (boots_step RAlloc _ (OEnsure (key_of s x) mp port)); [intros; by apply ensure_refines|].
  intros m1 m' [r|e] H1 Hs; inversion Hs; simplify_eq; by split.
Qed.

Lemma boots_desired : boots (on_alloc (set_desired s x true)).
Proof.
  apply (boots_step RAlloc _ (OSetDesired (key_of s x) true)); [intros; by apply set_desired_refines|].
  intros m1 m' [r|e] H1 Hs; inversion Hs; simplify_eq. split; [done|]. intros k b Hb Hd.
  destruct (decide (k = key_of s x)) as [->|]; [|by rewrite lookup_insert_ne].
  assert (b = a) as -> by congruence. rewrite lookup_insert_eq, <- Hact. by destruct a.
Qed.

Lemma boots_migrate : x = "color"%string → boots (on_alloc (migrate_color_key s)).
Proof.
  intros Hx. destruct (String.eqb s LOCAL_SERIAL || String.eqb s EmptyString) eqn:Hs.
  - intros c (m & Hm & H). apply (wp_on_alloc Hfs _ _ c m Hm). intros f m1 Hm1 Ho.
    unfold migrate_color_key. rewrite Hs. apply wp_ret. intros c' Hc' _. split; [|done].
    apply (keep_all m m1 c'); try done. by rewrite Hc', (set_fault_none _ _ Hm1).
  - apply (boots_step RBool _ (OMigrate (key_of LOCAL_SERIAL "color") (key_of s "color")));
      [intros; by apply migrate_refines|].
    intros m1 m' [r|e] H1 Hstep; rewrite Hx in H1; inversion Hstep; simplify_eq. by split.
Qed.

Lemma boots_initialize : boots (initialize_locked s x).
Proof.
  unfold initialize_locked, initialize_color, initialize_dynamic.
  destruct (String.eqb x "color") eqn:Hx; [apply String.eqb_eq in Hx|].
  - rewrite <- Hx. apply boots_bind; [by apply boots_migrate|intros _].
    apply boots_bind; [apply boots_ensure|intros _]. apply boots_bind; [apply boots_tuning|intros _].
    apply boots_bind; [by apply boots_write|intros _]. apply boots_bind; [apply boots_desired|intros _].
    do 2 (apply boots_bind; [apply boots_action|intros _]).
    apply boots_bind; [apply boots_require|intros _]. apply boots_ret.
  - apply boots_bind; [apply boots_allocate|intros b]. apply boots_bind; [apply boots_action|intros _].
    apply boots_bind; [apply boots_tuning|intros _]. apply boots_bind; [by apply boots_write|intros _].
    apply boots_bind; [apply boots_register|intros _]. apply boots_bind; [apply boots_action|intros _].
    apply boots_bind; [apply boots_require|intros _]. apply boots_tick. intros n.
    apply boots_bind; [apply boots_wait|intros _]. apply boots_bind; [apply boots_desired|intros _].
    apply boots_ret.
Qed.
End wanted_key.
End boot.

Lemma parse_key_inv k s x : parse_key k = Ok (s, x) → key_of s x = k.
Proof.
  unfold parse_key, split1. destruct (split1_go _ _ _) as [[a b]|] eqn:Hs; [|done]. intros [= <- <-].
  apply split1_go_inv in Hs as (z & -> & Hk & _). simpl in *.
  rewrite <- (str_chars k), <- (str_chars (key_of _ _)). f_equal. rewrite Hk. unfold key_of.
  by rewrite !chars_app, !chars_str.
Qed.

Section reconciler.
Context {E : Env} {C : CameraEnv} {J : JanusHttp} (Hfs : ∀ n, sys_fault n = None).
Context (Hcli : cli_answers) (Hjanus : janus_answers) (Halone : ∀ n, meanwhile n = []).
Context (m0 : amap).

(** A call that returns whatever happens. *)
Definition goes_on {A} (P : A → Prop) (m : M Camera A) : Prop :=
  ∀ c, keeps_wanted m0 c →
    wp m (λ r c', keeps_wanted m0 c' ∧ match r with Ok a => P a | Raise _ => False end) c.

Definition wanted_at (k : string) : Prop := ∃ a, m0 !! k = Some a ∧ desired_active a = true.

Lemma boots_whole s x : wanted_at (key_of s x) → known x = true → boots m0 (initialize s x).
Proof.
  intros (a & Ha & Hact) Hx. unfold initialize, sensor_lock. rewrite Hx. apply boots_tick. intros n.
  destruct (sensor_lock_answer n); [|apply boots_lifecycle|];
    by apply (boots_initialize Hfs Hcli Hjanus Halone m0 s x a).
Qed.

Lemma goes_bind {A B} (P : A → Prop) (P' : B → Prop) m (f : A → M Camera B) :
  goes_on P m → (∀ a, P a → goes_on P' (f a)) → goes_on P' (m ≫= f).
Proof.
  intros Hm Hf c Hc. apply wp_bind. eapply wp_mono; [by apply Hm|].
  intros [a|e] c' [Hc' Ha]; [by apply Hf|done].
Qed.

Lemma goes_ret {A} (P : A → Prop) a : P a → goes_on P (mret a).
Proof. by intros Ha c Hc. Qed.

Lemma running_goes_on x : goes_on (λ _, True) (is_running x).
Proof.
  intros c (m & Hm & H). apply wp_intro. intros r c' Hr.
  pose proof (is_running_ok Hcli x c) as Hok. pose proof (host_is_running x c) as [Hal _].
  rewrite Hr in Hok, Hal. simpl in *. split; [exists m; by rewrite Hal|by destruct r].
Qed.

Lemma stream_goes_on s x dry : wanted_at (key_of s x) → goes_on (λ _, True) (reconcile_stream s x dry).
Proof.
  intros Hw. apply (goes_bind (λ _, True)); [apply running_goes_on|]. intros running _.
  case_decide; [by apply goes_ret|]. destruct dry; [by apply goes_ret|].
  intros c Hc. unfold try_except2, wp, mbind, M_bind.
  destruct (known x) eqn:Hx.
  - pose proof (boots_whole s x Hw Hx c Hc) as Hb. unfold wp in Hb.
    destruct (initialize s x c) as [[a|[k msg]] c1]; destruct Hb as [H1 Hr]; [done|].
    simpl in *. by subst.
  - unfold initialize. rewrite Hx. done.
Qed.

Lemma keys_go_on keys dry :
  (∀ k, k ∈ keys → wanted_at k) → goes_on (λ rs, rs.*1 = keys) (reconcile_keys keys dry).
Proof.
  induction keys as [|k keys IH]; intros Hw; simpl; [by apply goes_ret|].
  apply (goes_bind (λ _, True)).
  - destruct (parse_key k) as [[s x]|e] eqn:Hk; [|by apply goes_ret]. apply stream_goes_on.
    rewrite (parse_key_inv _ _ _ Hk). apply Hw. by left.
  - intros ok _. apply (goes_bind (λ rs, rs.*1 = keys)); [apply IH; intros; apply Hw; by right|].
    intros rs Hrs. apply goes_ret. csimpl. by rewrite Hrs.
Qed.

(** A read of the file nobody else changes. *)
Lemma wp_read {A} (f : content → res A) (Q : res A → Camera → Prop) c :
  denotes (m_alloc c) m0 →
  (∀ c', m_alloc c' = m_alloc c → Q (f (f_content (m_alloc c))) c') →
  wp (on_alloc (g ← get; lift (f (f_content g)))) Q c.
Proof.
  intros Hm H. unfold on_alloc. apply wp_bind, wp_zoom. simpl. apply wp_intro.
  intros r c1 [= <- <-]. unfold then_, wp. cbn -[set_fault]. rewrite Halone, Hfs. cbn -[set_fault].
  assert (Hf : set_fault None (m_alloc c) = m_alloc c) by (by eapply set_fault_none).
  rewrite !Hf. by apply H.
Qed.
End reconciler.

(** The boot reconciler is fail-soft: with a command-line tool that answers, a readable
    allocator and nobody else at work, it returns whatever the commands, Janus and the
    locks of single streams answer; it attempts exactly the wanted streams, the color
    streams first, and no attempt, failed or not, loses a wanted stream's slot or the
    operator's intent. *)
Theorem boot_fail_soft {E : Env} {C : CameraEnv} {J : JanusHttp} dry no_seed c m0 :
  (∀ n, sys_fault n = None) → cli_answers → janus_answers → (∀ n, meanwhile n = []) →
  denotes (m_alloc c) m0 → m0 ≠ ∅ →
  ∃ rs c' d, reconcile_main dry no_seed c = (Ok rs, c') ∧
    list_desired_active (f_content (m_alloc c)) = Ok d ∧ rs.*1 = plan_keys d ∧
    (∀ k, k ∈ rs.*1 ↔ wanted_at m0 k) ∧ keeps_wanted m0 c'.
Proof.
  intros Hfs Hcli Hjanus Halone Hm Hne.
  destruct (plan_keys_spec _ _ Hm) as (d & Hd & Hk).
  assert (Hwp : wp (reconcile_main dry no_seed)
    (λ r c', ∃ rs, r = Ok rs ∧ rs.*1 = plan_keys d ∧ keeps_wanted m0 c') c).
  { unfold reconcile_main. apply wp_bind.
    assert (Hseed : wp (if no_seed then mret false else seed_if_empty)
              (λ r c1, is_ok r = true ∧ m_alloc c1 = m_alloc c) c).
    { destruct no_seed; [done|]. unfold seed_if_empty. apply wp_bind.
      apply (wp_read Hfs Halone m0 list_allocations); [done|]. intros c1 Hc1.
      destruct Hm as [_ _ (items & -> & _ & Hitems)]. cbn [then_].
      destruct items as [|i items]; [|done]. by destruct Hne. }
    eapply wp_mono; [exact Hseed|]. intros [b|e] c1 [Hok Hc1]; [|done]. cbn [then_].
    apply wp_bind. unfold boot_plan. apply wp_bind.
    apply (wp_read Hfs Halone m0 list_desired_active); [by rewrite Hc1|]. intros c2 Hc2.
    rewrite Hc1, Hd. cbn [then_]. apply wp_ret. cbn [then_].
    eapply wp_mono; [apply (keys_go_on Hfs Hcli Hjanus Halone m0)|].
    - intros k Hin. by apply Hk.
    - exists m0. split; [by rewrite Hc2, Hc1|done].
    - intros [rs|e] c3 [H3 Hrs]; [by exists rs|done]. }
  unfold wp in Hwp. destruct (reconcile_main dry no_seed c) as [r c'] eqn:Hrun.
  destruct Hwp as (rs & -> & Hrs & Hc'). exists rs, c', d. split_and!; try done. by rewrite Hrs.
Qed.

(** ** Witnesses *)
#[export] Instance sample_camera_env : CameraEnv := {|
  sensor_lock_answer := λ _, LockTaken;
  meanwhile := λ _, [];
  ready_polls := λ _, 6%nat;
  discover_devices := λ _, [mkDevice "0123" "D435" "5.13"] |}.

Definition sample_camera : Camera := mkCamera sample_world sample_file [] [] [] None empty_audit.

(** Units that are not running: the status is [{"active": false}]. *)
Definition idle_env : Env := sample_env false no_fault
  (λ n argv, if bool_decide ("status"%string ∈ argv)
             then CliDone 0 (TxDoc (JObj [("active", JBool (Nat.ltb 30 n))]%string)) EmptyString
             else CliDone 0 (TxDoc (JObj [])) EmptyString).

Lemma alone_quiet k : quiet k.
Proof. intros n. by constructor. Qed.

Lemma stop_sticks_witness :
  let c' := (@stop idle_env sample_camera_env (sample_http true) "local" "color" sample_camera).2 in
  slot "local:color" (with_desired false (mkAllocation 1305 5004 true)) c' ∧
  ∃ d, list_desired_active (f_content (m_alloc c')) = Ok d ∧ "local:color"%string ∉ plan_keys d.
Proof.
  exact (@stop_sticks idle_env sample_camera_env (sample_http true) "local" "color"
    (mkAllocation 1305 5004 true) sample_camera sample_map (λ _, eq_refl)
    (λ _ H, ltac:(discriminate H)) sample_denotes (alone_quiet _) eq_refl eq_refl).
Defined.


Lemma live_answers : @cli_answers live_env.
Proof. intros n argv. by do 3 eexists. Qed.
Lemma sample_answers accepts : @janus_answers (sample_http accepts).
Proof.
  intros n path body. apply sample_replies_ok; intros mp; [done|].
  vm_compute. by repeat case_match.
Qed.

Lemma boot_fail_soft_witness :
  ∃ rs c' d, @reconcile_main live_env sample_camera_env (sample_http false) false false sample_camera
               = (Ok rs, c') ∧
    list_desired_active (f_content (m_alloc sample_camera)) = Ok d ∧ rs.*1 = plan_keys d ∧
    (∀ k, k ∈ rs.*1 ↔ wanted_at sample_map k) ∧ keeps_wanted sample_map c'.
Proof.
  refine (@boot_fail_soft live_env sample_camera_env (sample_http false) false false sample_camera
    sample_map (λ _, eq_refl) live_answers (sample_answers false) (λ _, eq_refl) sample_denotes _).
  intros H. assert (Ha : sample_map !! "local:color"%string = Some (mkAllocation 1305 5004 true))
    by reflexivity. by rewrite H in Ha.
Defined.

(** ** Findings *)

(** A command that hangs is no [LifecycleError]: the streams after it are not attempted. *)
Definition hung_env : Env := sample_env false no_fault
  (λ _ argv, if bool_decide ("color"%string ∈ argv) then CliTimeout
             else CliDone 0 (TxDoc (JObj [])) EmptyString).

Definition wanted_file : file :=
  file_of (dumps (JObj [("version", JInt 1);
    ("allocations", JObj (map (λ '(k, a), (k, allocation_to_dict a))
       [("local:color", mkAllocation 1305 5004 true); ("0123:depth", mkAllocation 1306 5006 true)]))]%string)).

Lemma boot_timeout_aborts :
  let '(r, c') := @reconcile_main hung_env sample_camera_env (sample_http true) false false
                    (set_alloc wanted_file sample_camera) in
  (∃ e, r = Raise e ∧ ex_kind e = ETimeout) ∧ m_janus c' = [].
Proof. vm_compute. split; [by eexists|done]. Qed.

(** A dry run over a damaged file replaces it. *)
Lemma dry_run_seeds :
  let c := set_alloc (file_of (Text TxGarbage)) sample_camera in
  let c' := (@reconcile_main live_env sample_camera_env (sample_http true) true false c).2 in
  f_content (m_alloc c') ≠ f_content (m_alloc c).
Proof. vm_compute. discriminate. Qed.

(** Activating the gateway's own sensors raises when the allocator cannot write. *)
Lemma activate_local_raises :
  let E := sample_env false (λ n, if (n =? 6)%nat then Some SysReplace else None) cli_success in
  ∃ e, (@activate_local E sample_camera_env (sample_http true) (audit_env (λ _, false)) ["depth"]%string
          sample_camera).1 = Raise e ∧ ex_kind e = EOS.
Proof. vm_compute. eexists. split; reflexivity. Qed.
