(* ===== verification/BindingRows.v ===== *)
(** * What calls of the store do to one binding's row

    A binding's row keeps its slot, its mode and its place in the table under every call
    that neither writes that very binding, nor removes it or a host, nor rekeys the table:
    the frame the operations on one binding are proved with. *)
From S2P Require Import Prelude.
From S2P Require Import PyVal.
From S2P Require Import FileStore.
From S2P Require Import Allocator.
From S2P Require Import BindingModels.
From S2P Require Import TopologyStore.
From S2P Require Import Nodes.
From S2P Require Import Bindings.
From S2P Require Import TopologyCalls.
From S2P Require Import TopologyTheorems.

(** A property of the table of bindings that only such calls may break. *)
Record steady (bid : string) (P : dict json → Prop) : Prop := {
  steady_column items id raw raw' :
    P items → dget items id = Some raw → same_columns raw raw' → P (dset items id raw');
  steady_other items id v : id ≠ bid → P items → P (dset items id v);
  steady_del items id : id ≠ bid → P items → P (ddel items id);
  steady_written items : P items → P (written_items items);
}.

(** The calls that leave the binding to itself. *)
Definition spares (bid : string) (c : store_call) : Prop :=
  match c with
  | CUpsertBinding b _ => b_binding_id b ≠ bid
  | CRemoveBinding id => id ≠ bid
  | CRemoveNode _ | CMigrate => False
  | _ => True
  end.

Definition table (P : dict json → Prop) (s : Store) : Prop :=
  ∃ d, topology (f_content (s_topo s)) = Ok d ∧ P (section d "bindings").

Lemma written_section d :
  wf_state d →
  ∃ d', topology (dumps (JObj d)) = Ok d' ∧ section d' "bindings" = written_items (section d "bindings").
Proof.
  intros [_ Hb]. unfold is_dict in Hb. eexists. split; [reflexivity|]. rewrite normalize_section by done.
  unfold section. rewrite dget_sort_items, dget_map_values.
  by destruct (dget d "bindings") as [[]|].
Qed.

Section rows.
Context `{Entropy} (bid : string) (P : dict json → Prop) (HP : steady bid P).

(** A body that keeps the table well-formed and the property. *)
Definition keeps_table {A} (body : M Txn A) : Prop :=
  ∀ t a t', wf_state (t_state t) → body t = (Ok a, t') →
    wf_state (t_state t') ∧ (P (section (t_state t) "bindings") → P (section (t_state t') "bindings")).

Lemma flock_table {A} (body : M Txn A) s :
  keeps_table body → table P s → table P (flock_state body s).2.
Proof.
  intros Hb (d & Hd & HPd). destruct (flock_state body s) as [r s'] eqn:Hrun.
  apply flock_cases in Hrun as (_ & _ & [(e & _ & Hc & _)|(d0 & a & t & Hd0 & Hbody & _ & Hc & _)]);
    unfold table; simpl; rewrite Hc; [by exists d|].
  rewrite Hd in Hd0. injection Hd0 as <-.
  destruct (Hb (start s d) a t) as [Hwf Hkeep]; [by eapply topology_wf|done|].
  destruct (written_section (t_state t) Hwf) as (d' & Hd' & Hsec). exists d'. split; [done|].
  rewrite Hsec. by apply (steady_written _ _ HP), Hkeep.
Qed.

(** Bodies that leave the bindings alone. *)
Definition same_bindings (t t' : Txn) : Prop :=
  (wf_state (t_state t) → wf_state (t_state t')) ∧
  section (t_state t') "bindings" = section (t_state t) "bindings".

#[local] Instance same_bindings_preorder : PreOrder same_bindings.
Proof. split; [done|]. intros t1 t2 t3 [H1 E1] [H2 E2]. split; [auto|congruence]. Qed.

Lemma sb_get_section k : preserves same_bindings (get_section k).
Proof. unfold get_section. pres. Qed.
Lemma sb_put_nodes v : preserves same_bindings (put_section "nodes" v).
Proof.
  intros t. split; simpl; [apply wf_state_set|]. unfold section. by rewrite dget_dset_ne.
Qed.
Lemma sb_draw {A} (f : nat → A) : preserves same_bindings (draw f).
Proof. intros t. by split. Qed.
Lemma sb_secrets {A} (m : M file A) : preserves same_bindings (txn_secrets m).
Proof. intros t. unfold txn_secrets, zoom. destruct (m _). by split. Qed.
#[local] Hint Resolve sb_get_section sb_put_nodes sb_draw sb_secrets : pres.

Lemma same_bindings_table {A} (body : M Txn A) : preserves same_bindings body → keeps_table body.
Proof.
  intros Hb t a t' Hwf Hrun. specialize (Hb t). rewrite Hrun in Hb. destruct Hb as [H1 H2].
  simpl in *. rewrite H2. auto.
Qed.

Lemma update_node_table id f s :
  (∀ raw, preserves same_bindings (f raw)) → table P s → table P (update_node id f s).2.
Proof.
  intros Hf. apply flock_table, same_bindings_table. unfold update_row. pres.
Qed.

Lemma update_binding_table id f s :
  (∀ raw raw', f raw = Ok raw' → same_columns raw raw') → table P s → table P (update_binding id f s).2.
Proof.
  intros Hf. apply flock_table. intros t a t' Hwf Hrun. unfold update_row in Hrun. run_inv; try done. subst.
  match goal with H : truthy _ = true |- _ => apply truthy_row in H as [raw Hraw] end.
  split; [by apply wf_state_set|]. simpl. rewrite section_set, decide_True by done. intros HPt.
  rewrite Hraw in *. simpl in *. eapply (steady_column _ _ HP); [done..|]. by apply Hf.
Qed.

Lemma call_table c s : spares bid c → table P s → table P (run_store_call c s).2.
Proof.
  intros Hc Ht.
  assert (Hret : ∀ A (m : M Store A), table P (m s).2 → table P ((m ;; mret tt) s).2).
  { intros A m. unfold mbind, M_bind. by destruct (m s) as [[a|e] s']. }
  assert (Hset : ∀ k v raw raw', k ∈ mutable_columns → setitem raw k v = Ok raw' → same_columns raw raw').
  { intros. by eapply setitem_columns. }
  destruct c; simpl in Hc |- *; apply Hret; try done;
    try (apply update_node_table; [intros raw; pres|done]).
  - unfold upsert_node. destruct (String.eqb node_id LOCAL_NODE_ID); [done|].
    apply flock_table; [|done]. apply same_bindings_table.
    unfold upsert_body, node_token, mint_agent_token. cbv zeta. pres.
  - unfold add_node_by_host, mbind, M_bind, lift. destruct (valid_remote_host _ _); [|done].
    apply flock_table; [|done]. apply same_bindings_table. unfold add_body, mint_agent_token. cbv zeta. pres.
  - apply flock_table; [|done]. apply same_bindings_table. cbv zeta. pres.
  - apply flock_table; [|done]. intros t b' t' Hwf Hrun.
    apply upsert_binding_spec in Hrun as (_ & _ & _ & _ & _ & _ & _ & _ & _ & ->).
    split; [by apply wf_state_set|]. rewrite section_set, decide_True by done.
    by apply (steady_other _ _ HP).
  - apply flock_table; [|done]. intros t b' t' Hwf Hrun. run_inv; [|done]. subst.
    split; [by apply wf_state_set|]. simpl. rewrite section_set, decide_True by done.
    by apply (steady_del _ _ HP).
  - unfold set_status, mbind, M_bind, lift. destruct (parse_status _); [|done].
    apply update_binding_table; [|done]. intros raw raw'. apply Hset. unfold mutable_columns. set_solver.
  - apply update_binding_table; [|done]. intros raw raw' Hrun. run_inv.
    eapply Hset; [|done]. unfold mutable_columns. set_solver.
  - apply update_binding_table; [|done]. intros raw raw'. apply Hset. unfold mutable_columns. set_solver.
Qed.

Lemma faulty_table cs s :
  Forall (λ c, spares bid c.2) cs → table P s → table P (run_faulty cs s).
Proof.
  intros Hcs. revert s. induction Hcs as [|[[ft fs] c] cs Hc _ IH]; intros s Hs; [done|]. simpl.
  by apply IH, call_table.
Qed.
End rows.

(** ** The slot of a binding *)

(** The row of the binding holds the slot. *)
Definition at_slot (bid : string) (slot : Z * Z) (items : dict json) : Prop :=
  ∃ raw, dget items bid = Some raw ∧ slot_of raw = Ok slot.

(** It is the one row of that id, and the binding of a remote stream. *)
Definition bound (bid : string) (slot : Z * Z) (items : dict json) : Prop :=
  NoDup (dkeys items) ∧
  ∃ raw, dget items bid = Some raw ∧ slot_of raw = Ok slot ∧
         jget raw "mode" JNull = Ok (JStr "remote_producer").

Lemma dget_written items id : dget (written_items items) id = sort_json <$> dget items id.
Proof. unfold written_items. by rewrite dget_sort_items, dget_map_values. Qed.

Lemma at_slot_steady bid slot : steady bid (at_slot bid slot).
Proof.
  split.
  - intros items id raw raw' (raw0 & H0 & Hs) Hraw Hcols. unfold at_slot. rewrite dget_dset.
    case_decide as Hid; [|by exists raw0]. subst. exists raw'. split; [done|].
    rewrite (same_columns_slot _ _ Hcols). congruence.
  - intros items id v Hne (raw & H0 & Hs). exists raw. by rewrite dget_dset_ne.
  - intros items id Hne (raw & H0 & Hs). exists raw. by rewrite dget_ddel_ne.
  - intros items (raw & H0 & Hs). exists (sort_json raw). rewrite dget_written, H0. split; [done|].
    by rewrite slot_of_sort.
Qed.

Lemma bound_steady bid slot : steady bid (bound bid slot).
Proof.
  split.
  - intros items id raw raw' (Hnd & raw0 & H0 & Hs & Hm) Hraw Hcols. split; [by apply NoDup_dset|].
    rewrite dget_dset. case_decide as Hid; [|by exists raw0]. subst. exists raw'. split; [done|].
    rewrite (same_columns_slot _ _ Hcols), (same_columns_jget _ _ _ _ Hcols)
      by (unfold mutable_columns; set_solver).
    rewrite Hraw in H0. by injection H0 as ->.
  - intros items id v Hne (Hnd & raw & H0 & Hs). split; [by apply NoDup_dset|]. exists raw.
    by rewrite dget_dset_ne.
  - intros items id Hne (Hnd & raw & H0 & Hs). split; [by apply NoDup_ddel|]. exists raw.
    by rewrite dget_ddel_ne.
  - intros items (Hnd & raw & H0 & Hs & Hm). split; [by apply NoDup_written|]. exists (sort_json raw).
    rewrite dget_written, H0, slot_of_sort. split_and!; [done..|]. rewrite jget_sort_scalar by done.
    by rewrite Hm.
Qed.

Lemma bound_at_slot bid slot items : bound bid slot items → at_slot bid slot items.
Proof. intros (_ & raw & ? & ? & _). by exists raw. Qed.

Lemma slot_of_raw raw b : binding_from_raw raw = Ok b →
  slot_of raw = Ok (jc_mountpoint_id (b_janus b), tr_rtp_port (b_transport b)).
Proof.
  unfold binding_from_raw, transport_from_raw, janus_from_raw, slot_of. intros Hb.
  repeat match goal with
  | H : (_ ≫= _) = Ok _ |- _ => apply res_bind_ok in H as (? & ? & H)
  | H : Ok _ = Ok _ |- _ => injection H as <-
  end.
  repeat match goal with H : (_ ≫= _) = Ok _ |- _ => apply res_bind_ok in H as (? & ? & H) end.
  repeat match goal with H : ?x = Ok _ |- context [?x] => rewrite H; cbn [mbind res_bind] end.
  simplify_eq. done.
Qed.

(** A reader gets the slot of a stored remote binding. *)
Lemma bound_reads bid mp port s ex s' :
  table (bound bid (mp, port)) s → get_binding bid s = (Ok ex, s') →
  ∃ b, ex = Some b ∧ b_mode b = REMOTE_PRODUCER ∧ jc_mountpoint_id (b_janus b) = mp ∧
       tr_rtp_port (b_transport b) = port.
Proof.
  intros (d & Hd & Hnd & raw & Hraw & Hslot & Hmode) Hrun. unfold get_binding in Hrun.
  apply bind_ok_inv in Hrun as (l & s1 & Hl & [-> _]%ret_ok_inv).
  apply list_bindings_inv in Hl as (d0 & l0 & Hd0 & _ & Hl). rewrite Hd in Hd0. injection Hd0 as <-.
  pose proof (overlay_spec _ _ _ Hnd Hl bid) as Hb. rewrite Hraw in Hb. destruct Hb as (b & Hb & ->).
  exists b. pose proof (slot_of_raw _ _ Hb) as Hs. rewrite Hslot in Hs. injection Hs as -> ->.
  split_and!; [done| |done..]. unfold binding_from_raw in Hb.
  repeat match goal with H : (_ ≫= _) = Ok _ |- _ => apply res_bind_ok in H as (? & ? & H) end.
  injection Hb as <-. simpl.
  match goal with H : getitem raw "mode" = Ok ?m, H' : parse_mode ?m = Ok _ |- _ => rename H into Hm; rename H' into Hp end.
  destruct raw; try done. unfold getitem in Hm. simpl in Hmode. destruct (dget d0 "mode"); [|done].
  injection Hm as ->. injection Hmode as ->. by injection Hp as <-.
Qed.
