(* ===== verification/NodeTransport.v ===== *)
(** * Transports to nodes ([app/services/ssh_transport.py])

    The commands the gateway runs on a node over SSH: how they are quoted and which host
    key a connection is checked against; the capture of a host key and its fingerprint.
    What ssh, scp, ssh-keyscan and ssh-keygen answer is the environment [SshEnv]; every
    program run is recorded. *)
From Stdlib Require Import Ascii.
From S2P Require Import Prelude.
From S2P Require Import Hoare.
From S2P Require Import PyVal.
From S2P Require Import PyStr.
From S2P Require Import JsonText.
From S2P Require Import FileStore.

(** ** [shlex.quote] *)

(** The characters of the expression [[^\w@%+=:,./-]] with [re.ASCII], negated. *)
Definition is_safe (c : ascii) : bool :=
  in_range 48 57 c || in_range 65 90 c || in_range 97 122 c
  || existsb (Ascii.eqb c) (chars "_@%+=:,./-").

(** [s.replace] of a quote by a quote in double quotes between two quotations. *)
Definition escape_char (c : ascii) : list ascii :=
  if Ascii.eqb c quote1 then [quote1; quote2; quote1; quote2; quote1] else [c].

Definition quote (s : string) : string :=
  match chars s with
  | [] => str [quote1; quote1]
  | l => if forallb is_safe l then s
         else str (quote1 :: concat (map escape_char l) ++ [quote1])
  end.

Example quote_ex :
  (quote "color", quote "a b", quote "x;rm -rf /") = ("color", "'a b'", "'x;rm -rf /'")%string.
Proof. reflexivity. Qed.

Lemma is_safe_plain c : is_safe c = true →
  is_shlex_space c = false ∧ Ascii.eqb c backslash = false ∧ is_quote c = false.
Proof. destruct c as [[] [] [] [] [] [] [] []]; vm_compute; auto. Qed.

Lemma go_safe l tok rest :
  forallb is_safe l = true → shlex_go ShWord tok (l ++ rest) = shlex_go ShWord (rev l ++ tok) rest.
Proof.
  revert tok. induction l as [|c l IH]; intros tok; simpl; [done|].
  intros [Hc Hl]%andb_true_iff. destruct (is_safe_plain c Hc) as (-> & -> & ->).
  rewrite IH by done. by rewrite <- app_assoc.
Qed.

Lemma go_escaped l tok rest :
  shlex_go (ShQuote quote1) tok (concat (map escape_char l) ++ rest)
  = shlex_go (ShQuote quote1) (rev l ++ tok) rest.
Proof.
  revert tok. induction l as [|c l IH]; intros tok; [done|].
  cbn [map concat]. rewrite <- app_assoc. unfold escape_char at 1.
  destruct (Ascii.eqb c quote1) eqn:Hc.
  - apply Ascii.eqb_eq in Hc as ->. simpl. rewrite IH. simpl. by rewrite <- app_assoc.
  - cbn [app shlex_go]. rewrite Hc. replace (Ascii.eqb quote1 quote2) with false by done.
    rewrite andb_false_r, IH. simpl. by rewrite <- app_assoc.
Qed.

(** A quoted word is one word, whatever it contains. *)
Lemma go_quote s rest :
  shlex_go ShStart [] (chars (quote s) ++ rest) = shlex_go ShWord (rev (chars s)) rest.
Proof.
  unfold quote. destruct (chars s) as [|c l] eqn:Hs; [done|].
  destruct (forallb is_safe (c :: l)) eqn:Hsafe.
  - rewrite Hs. simpl in Hsafe. apply andb_true_iff in Hsafe as [Hc Hl].
    destruct (is_safe_plain c Hc) as (H1 & H2 & H3). cbn [app shlex_go]. rewrite H1, H2, H3.
    by rewrite go_safe.
  - rewrite chars_str. cbn [app]. cbn [shlex_go].
    replace (is_shlex_space quote1) with false by done.
    replace (Ascii.eqb quote1 backslash) with false by done.
    replace (is_quote quote1) with true by done.
    rewrite <- app_assoc, go_escaped. simpl. by rewrite app_nil_r.
Qed.

Lemma go_words s ws :
  shlex_go ShStart [] (chars (join " " (map quote (s :: ws)))) = Some (map chars (s :: ws)).
Proof.
  revert s. induction ws as [|w ws IH]; intros s; unfold join in *; cbn [map].
  - cbn [String.concat]. rewrite <- (app_nil_r (chars (quote s))), go_quote. simpl. by rewrite rev_involutive.
  - specialize (IH w). cbn [map] in IH.
    change (String.concat " " (quote s :: quote w :: map quote ws))
      with (quote s ++ " " ++ String.concat " " (quote w :: map quote ws))%string.
    rewrite chars_app, go_quote, chars_app. change (chars " ") with [" "%char]. cbn [app shlex_go].
    replace (is_shlex_space " ") with true by done. rewrite IH.
    by rewrite rev_involutive.
Qed.

Lemma split_quoted ws : shlex_split (join " " (map quote ws)) = Some ws.
Proof.
  destruct ws as [|s ws]; [done|]. unfold shlex_split. rewrite go_words. f_equal.
  rewrite map_map. erewrite map_ext; [apply map_id|]. apply str_chars.
Qed.

Lemma split_words s ws : s = join " " (map quote ws) → shlex_split s = Some ws.
Proof. intros ->. apply split_quoted. Qed.

Lemma number_char_safe c : number_char c → is_safe c = true.
Proof.
  intros [Hd| ->]; [|done]. unfold is_digit in Hd.
  destruct c as [[] [] [] [] [] [] [] []]; first [done|by destruct Hd].
Qed.

(** Numbers are not quoted. *)
Lemma quote_pretty (z : Z) : quote (pretty z) = pretty z.
Proof.
  unfold quote. destruct (pretty_chars z) as [Hn Hne]. destruct (chars (pretty z)) as [|c l]; [done|].
  replace (forallb is_safe (c :: l)) with true; [done|]. symmetry. apply forallb_forall.
  intros x Hx. apply number_char_safe. rewrite Forall_forall in Hn. by apply Hn, list_elem_of_In.
Qed.

(** ** Connections *)
Record RunResult := mkRun { rr_rc : Z; rr_stdout : text; rr_stderr : string }.
Definition rr_ok (r : RunResult) : bool := rr_rc r =? 0.

(** What [subprocess.run] does with ssh or scp; [SshRaises] also stands for a known-hosts
    file that cannot be written. *)
Inductive ssh_answer := SshDone (r : RunResult) | SshTimeout | SshRaises (e : exn).

Inductive ssh_payload :=
  | SshRun (cmd : string) (stdin : option string)      (* the remote command line *)
  | SshPush (local_path remote_path : string).

(** One connection: the key it is checked against ([StrictHostKeyChecking=yes]), if any,
    and what goes over it. *)
Record connection := mkConn {
  cn_host : string; cn_user : string; cn_pin : option string; cn_payload : ssh_payload;
}.

(** The programs the gateway runs. *)
Inductive ssh_event :=
  | Connected (c : connection)
  | Scanned (host : string)          (* ssh-keyscan *)
  | Hashed (line : string).          (* ssh-keygen -lf *)

Class SshEnv := {
  ssh_answers : nat → ssh_answer;              (* the n-th program run *)
  keyscan : nat → string → option string;      (* output; none when it cannot be run *)
  keygen : nat → string → option string;
  stdout_repr : text → string;                 (* [repr(stdout[:120])] *)
  NODE_SSH_USER : string;
}.

(** [SSHTransport]; the host key is a column of the stored node. *)
Record SSHTransport := mkSsh {
  tr_host : string; tr_user : string; tr_sudo_password : option string; tr_host_key : json;
}.

(** [s.split()] *)
Fixpoint words_go (cur l : list ascii) : list (list ascii) :=
  match l with
  | [] => match cur with [] => [] | _ => [rev cur] end
  | c :: l' =>
      if is_py_space c then
        match cur with [] => words_go [] l' | _ => rev cur :: words_go [] l' end
      else words_go (c :: cur) l'
  end.
Definition py_words (s : string) : list string := map str (words_go [] (chars s)).

Section ssh.
Context {S : SshEnv}.

(** [_opts]: the pin, or [accept-new] without one. *)
Definition pin_of (t : SSHTransport) : res (option string) :=
  if truthy (tr_host_key t) then
    match tr_host_key t with JStr k => Ok (Some (py_strip k)) | _ => fail EAttribute end
  else Ok None.

Definition ssh_event_ (e : ssh_event) : M (list ssh_event) nat :=
  n ← gets length; modify (fun l => l ++ [e]) ;; mret n.

Definition connect (t : SSHTransport) (p : ssh_payload) : M (list ssh_event) ssh_answer :=
  pin ← lift (pin_of t);
  n ← ssh_event_ (Connected (mkConn (tr_host t) (tr_user t) pin p));
  mret (ssh_answers n).

Definition run_result (timed_out : string) (a : ssh_answer) : res RunResult :=
  match a with
  | SshDone r => Ok r
  | SshTimeout => Ok (mkRun 124 TxEmpty timed_out)
  | SshRaises e => Raise e
  end.

(** The command line of [run(cmd, sudo=True)]. *)
Definition sudo_line (cmd : string) : string := ("sudo -S -p '' bash -c " ++ quote cmd)%string.

Definition newline_ : string := String "010"%char EmptyString.

(** [run(cmd, sudo=..., timeout=...)]: the password goes to standard input, never into the
    command. *)
Definition ssh_run (t : SSHTransport) (cmd : string) (sudo : bool) (timeout : string)
    : M (list ssh_event) RunResult :=
  let stdin := if sudo then Some (default EmptyString (tr_sudo_password t) ++ newline_)%string
               else None in
  a ← connect t (SshRun (if sudo then sudo_line cmd else cmd) stdin);
  lift (run_result ("ssh timeout after " ++ timeout ++ "s") a).

Definition ssh_push (t : SSHTransport) (local_path remote_path : string)
    : M (list ssh_event) RunResult :=
  a ← connect t (SshPush local_path remote_path);
  lift (run_result "scp timeout after 120.0s" a).

(** ** Host keys *)

(** What ssh-keyscan prints, stripped; empty on failure. *)
Definition capture_host_key (host : string) : M (list ssh_event) string :=
  n ← ssh_event_ (Scanned host);
  mret (match keyscan n host with Some out => py_strip out | None => EmptyString end).

Definition fingerprint_in (out : string) : string :=
  default EmptyString (List.find (fun tok => startswith tok "SHA256:") (py_words out)).

Definition host_key_fingerprint (known_hosts_line : string) : M (list ssh_event) string :=
  let line := py_strip known_hosts_line in
  if String.eqb line EmptyString then mret EmptyString
  else
    n ← ssh_event_ (Hashed line);
    mret (match keygen n (line ++ newline_)%string with
          | Some out => fingerprint_in out | None => EmptyString end).
End ssh.

Example fingerprint_ex :
  fingerprint_in "256 SHA256:abc node (ED25519)" = "SHA256:abc"%string.
Proof. reflexivity. Qed.

(** The words the remote shell sees for a command run with [sudo]. *)
Lemma sudo_line_words cmd :
  shlex_split (sudo_line cmd) = Some ["sudo"; "-S"; "-p"; ""; "bash"; "-c"; cmd]%string.
Proof.
  replace (sudo_line cmd) with (join " " (map quote ["sudo"; "-S"; "-p"; ""; "bash"; "-c"; cmd]%string))
    by reflexivity.
  apply split_quoted.
Qed.
