(* ===== verification/JcfgRender.v ===== *)
(** * Rendering the Janus configuration ([app/services/jcfg_renderer.py])

    The templates of the repository become the files of the Janus configuration
    directory: the paths of the installation and the placeholders are found out, each
    template is substituted and put in place by a rename, with one backup of what was
    there before. The file system is a map from paths to directories and files; a path is
    written as the code builds it. Every system call may raise [OSError]
    ([render_fault]); a file that is opened for writing is empty until the text is in it,
    and a new one has mode 0644. A directory that cannot be listed counts as empty. The
    programs that are asked answer through [HostTools]. Log lines are not modelled. *)
From stdpp Require Import sorting.
From Stdlib Require Import Ascii.
From S2P Require Import Prelude.
From S2P Require Import Hoare.
From S2P Require Import PyVal.
From S2P Require Import PyStr.
From S2P Require Import FileStore.
From S2P Require Import SecretStore.
From S2P Require Import NodeTransport.
From S2P Require Import AuditLog.
From S2P Require Import HostTools.
From S2P Require Import AdminActions.

Inductive node := Dir | Plain (bytes : string) (mode : Z).

Class RenderEnv := {
  render_fault : nat → bool;
  repo_templates : string;         (* deploy/janus/etc of the source tree *)
}.

Record Render := mkRender {
  rn_tick : nat;
  rn_fs : gmap string node;
  rn_secrets : Secrets;
  rn_admin : Admin;                (* the programs that ran, and the audit log *)
}.

Record JanusPaths := mkJanusPaths { cfg_dir : string; plugins_dir : string; transports_dir : string }.

Record RenderResult := mkRenderResult {
  rr_rendered : list string; rr_skipped : list string; rr_paths : JanusPaths;
}.

(** ** Texts *)

(** [text.replace(pat, rep)] for a pattern that is not empty; [k] characters of an
    occurrence are still to be passed over. *)
Fixpoint replace_go (pat rep : list ascii) (k : nat) (l : list ascii) : list ascii :=
  match l with
  | [] => []
  | c :: l' =>
      match k with
      | S k' => replace_go pat rep k' l'
      | O => if is_prefix pat l then rep ++ replace_go pat rep (length pat - 1) l'
             else c :: replace_go pat rep 0 l'
      end
  end.
Definition py_replace (pat rep s : string) : string := str (replace_go (chars pat) (chars rep) 0 (chars s)).

(** [_apply] *)
Definition placeholder (k : string) : string := ("@" ++ k ++ "@")%string.
Definition apply_subs (text : string) (subs : dict string) : string :=
  fold_left (fun out '(k, v) => py_replace (placeholder k) v out) subs text.

(** Reading in text mode turns the line ends of other systems into newlines. *)
Fixpoint newlines (l : list ascii) : list ascii :=
  match l with
  | "013"%char :: l' =>
      "010"%char :: match l' with "010"%char :: l'' => newlines l'' | _ => newlines l' end
  | c :: l' => c :: newlines l'
  | [] => []
  end.

Definition decode_text (bytes : string) : res string :=
  if utf8 (chars bytes) then Ok (str (newlines (chars bytes))) else fail EUnicodeDecode.

(** The length of the character the bytes begin with, 0 when there is none. *)
Definition char_len (l : list ascii) : nat :=
  if utf8 (take 1 l) then 1
  else if utf8 (take 2 l) && (length (take 2 l) =? 2)%nat then 2
  else if utf8 (take 3 l) && (length (take 3 l) =? 3)%nat then 3
  else if utf8 (take 4 l) && (length (take 4 l) =? 4)%nat then 4 else 0.

(** [errors="ignore"]: bytes that begin no character are dropped; [k] bytes of one are
    still to be kept. *)
Fixpoint ignore_go (k : nat) (l : list ascii) : list ascii :=
  match l with
  | [] => []
  | c :: l' =>
      match k with
      | S k' => c :: ignore_go k' l'
      | O => match char_len l with O => ignore_go 0 l' | S n => c :: ignore_go n l' end
      end
  end.
Definition decode_ignore (bytes : string) : string := str (newlines (ignore_go 0 (chars bytes))).

(** The white space outside ASCII that the expression below also knows. *)
Definition WIDE_SPACES : list (list ascii) :=
  [["194"; "133"]; ["194"; "160"]; ["225"; "154"; "128"]]%char
  ++ map (fun n => ["226"%char; "128"%char; ascii_of_nat n])
       [128; 129; 130; 131; 132; 133; 134; 135; 136; 137; 138; 168; 169; 175]%nat
  ++ [["226"; "129"; "159"]; ["227"; "128"; "128"]]%char.

Definition space_len (l : list ascii) : nat :=
  match l with
  | [] => 0
  | c :: _ => if is_py_space c then 1
              else match List.find (fun w => is_prefix w l) WIDE_SPACES with Some w => length w | None => 0 end
  end.

Fixpoint skip_spaces (k : nat) (l : list ascii) : list ascii :=
  match l with
  | [] => []
  | c :: l' =>
      match k with
      | S k' => skip_spaces k' l'
      | O => match space_len l with O => l | S n => skip_spaces n l' end
      end
  end.

(** The regular expression for the field of the mapping: its name, blanks, an equals sign,
    blanks and a quotation that is not empty, whose text is the group; matched at the
    beginning of the text, and searched for. *)
Definition NAT_FIELD : string := "nat_1_1_mapping".
Definition not_quote2 (c : ascii) : bool := negb (Ascii.eqb c quote2).

Definition quoted_value (l : list ascii) : option string :=
  match l with
  | c :: l' =>
      if Ascii.eqb c quote2 then
        match span not_quote2 l' with (v :: vs, _ :: _) => Some (str (v :: vs)) | _ => None end
      else None
  | [] => None
  end.

Definition nat_match (l : list ascii) : option string :=
  if is_prefix (chars NAT_FIELD) l then
    match skip_spaces 0 (drop (length (chars NAT_FIELD)) l) with
    | c :: l' => if Ascii.eqb c "=" then quoted_value (skip_spaces 0 l') else None
    | [] => None
    end
  else None.

Fixpoint nat_search (l : list ascii) : option string :=
  match nat_match l with
  | Some v => Some v
  | None => match l with _ :: l' => nat_search l' | [] => None end
  end.

(** ** Paths *)
Definition in_dir (dir name : string) : string :=
  if String.eqb name "" then dir else if String.eqb dir "/" then ("/" ++ name)%string else (dir ++ "/" ++ name)%string.

(** [path.parent] of an absolute path *)
Definition parent (path : string) : string :=
  match snd (span (fun c => negb (Ascii.eqb c "/")) (rev (chars path))) with
  | _ :: (_ :: _) as l => str (rev (tail l))
  | _ => "/"
  end.

Definition with_suffix (path suffix : string) : string := (path ++ suffix)%string.
Definition tmp_of (dst : string) : string := with_suffix dst ".tmp".
Definition bak_of (dst : string) : string := with_suffix dst ".pre-render".

(** The name of an entry of the directory. *)
Definition entry_of_dir (dir path : string) : option string :=
  let p := chars (if String.eqb dir "/" then dir else dir ++ "/")%string in
  if is_prefix p (chars path) then
    let name := drop (length p) (chars path) in
    if forallb (fun c => negb (Ascii.eqb c "/")) name && negb (length name =? 0)%nat then Some (str name) else None
  else None.

Definition TEMPLATE : string := ".template".
Definition is_template (name : string) : bool := endswith name TEMPLATE.
(** [tpl.name[: -len(".template")]] *)
Definition stem_of (name : string) : string :=
  str (take (length (chars name) - length (chars TEMPLATE)) (chars name)).

Definition name_le (a b : string) : Prop := String.leb a b = true.
#[export] Instance name_le_dec : RelDecision name_le.
Proof. intros a b. unfold name_le. apply _. Defined.

(** The names of the templates of a directory, sorted. *)
Definition templates (fs : gmap string node) (dir : string) : list string :=
  merge_sort name_le (List.filter is_template (omap (fun '(p, _) => entry_of_dir dir p) (map_to_list fs))).

Section render.
Context {T : ToolEnv} {R : RenderEnv}.

(** ** The file system *)
Definition render_tick : M Render nat := fun w =>
  (Ok (rn_tick w), mkRender (S (rn_tick w)) (rn_fs w) (rn_secrets w) (rn_admin w)).
Definition rsys : M Render unit := n ← render_tick; if render_fault n then throw EOS else mret tt.
Definition on_fs (f : gmap string node → gmap string node) : M Render unit :=
  modify (fun w => mkRender (rn_tick w) (f (rn_fs w)) (rn_secrets w) (rn_admin w)).
Definition on_secrets {A} (m : M Secrets A) : M Render A :=
  zoom rn_secrets (fun s w => mkRender (rn_tick w) (rn_fs w) s (rn_admin w)) m.
Definition on_admin {A} (m : M Admin A) : M Render A :=
  zoom rn_admin (fun a w => mkRender (rn_tick w) (rn_fs w) (rn_secrets w) a) m.
Definition ask (cmd : list string) : M Render (Z * string) :=
  '(rc, out, _) ← on_admin (on_tools (tool_run cmd)); mret (rc, out).

Definition is_dir (p : string) : M Render bool :=
  rsys ;; fs ← gets rn_fs; mret (match fs !! p with Some Dir => true | _ => false end).
Definition path_exists (p : string) : M Render bool :=
  rsys ;; fs ← gets rn_fs; mret (bool_decide (is_Some (fs !! p))).
Definition read_bytes (p : string) : M Render string :=
  rsys ;;
  fs ← gets rn_fs;
  match fs !! p with
  | Some (Plain b _) => mret b
  | Some Dir => throw EOS
  | None => throw EFileNotFound
  end.

(** Opened for writing, then written. *)
Definition write_bytes (p b : string) : M Render unit :=
  rsys ;;
  fs ← gets rn_fs;
  match fs !! p with
  | Some Dir => throw EOS
  | e =>
      let mode := match e with Some (Plain _ m) => m | _ => 420 end in
      on_fs <[p := Plain "" mode]> ;;
      rsys ;;
      on_fs <[p := Plain b mode]>
  end.
Definition chmod (p : string) (m : Z) : M Render unit :=
  rsys ;; on_fs (alter (fun n => match n with Plain b _ => Plain b m | Dir => Dir end) p).
Definition rename (p q : string) : M Render unit :=
  rsys ;;
  fs ← gets rn_fs;
  match fs !! p, fs !! q with
  | None, _ => throw EFileNotFound
  | Some _, Some Dir => throw EOS
  | Some n, _ => on_fs (fun fs => <[q := n]> (delete p fs))
  end.
(** [mkdir(exist_ok=True)] *)
Definition mkdir (p : string) : M Render unit :=
  rsys ;;
  fs ← gets rn_fs;
  match fs !! p with
  | None => on_fs <[p := Dir]>
  | Some Dir => mret tt
  | Some (Plain _ _) => throw EOS
  end.
Definition list_templates (dir : string) : M Render (list string) :=
  n ← render_tick; fs ← gets rn_fs; mret (if render_fault n then [] else templates fs dir).

(** ** What is found out *)

(** The first candidate with the plugins below it. *)
Fixpoint with_plugins (candidates : list string) : M Render (option string) :=
  match candidates with
  | [] => mret None
  | c :: rest => d ← is_dir (in_dir c "plugins"); if (d : bool) then mret (Some c) else with_plugins rest
  end.

Definition paths_in (lib : string) : JanusPaths :=
  mkJanusPaths "/etc/janus" (in_dir lib "plugins") (in_dir lib "transports").

Definition probed_paths (rc : Z) (out : string) : option JanusPaths :=
  if (rc =? 0) && negb (String.eqb (py_strip out) "") then
    let so := List.hd ""%string (splitlines (py_strip out)) in
    Some (mkJanusPaths "/etc/janus" (parent so) (in_dir (parent (parent so)) "transports"))
  else None.

Definition detect_janus_paths : M Render (option JanusPaths) :=
  built ← is_dir "/opt/janus/etc/janus";
  if (built : bool) then
    mret (Some (mkJanusPaths "/opt/janus/etc/janus" "/opt/janus/lib/janus/plugins" "/opt/janus/lib/janus/transports"))
  else
    apt ← is_dir "/etc/janus";
    if negb apt then mret None
    else
      '(rc, out) ← ask ["dpkg-architecture"; "-qDEB_HOST_MULTIARCH"]%string;
      let multiarch := if rc =? 0 then py_strip out else ""%string in
      let arch_dir := if String.eqb multiarch "" then [] else [("/usr/lib/" ++ multiarch ++ "/janus")%string] in
      lib ← with_plugins (arch_dir ++ ["/usr/lib/janus"%string]);
      match lib with
      | Some c => mret (Some (paths_in c))
      | None =>
          '(rc, out) ← ask ["find"; "/usr/lib"; "-name"; "libjanus_streaming*.so"]%string;
          mret (probed_paths rc out)
      end.

Fixpoint with_templates (candidates : list string) : M Render (option string) :=
  match candidates with
  | [] => mret None
  | c :: rest =>
      d ← is_dir c;
      if (d : bool) then l ← list_templates c; match l with _ :: _ => mret (Some c) | [] => with_templates rest end
      else with_templates rest
  end.

Definition TEMPLATE_DIRS : list string := ["/opt/janus-camera-page/deploy/janus/etc"%string; repo_templates].
Definition detect_template_dir : M Render (option string) := with_templates TEMPLATE_DIRS.

(** The word after the first [dev]; [IndexError] when it is the last one. *)
Fixpoint after_dev (words : list string) : option (res string) :=
  match words with
  | [] => None
  | w :: rest => if String.eqb w "dev" then Some (match rest with i :: _ => Ok i | [] => fail EIndex end)
                 else after_dev rest
  end.

Definition detect_primary_iface : M Render string :=
  '(rc, out) ← ask ["ip"; "-o"; "-4"; "route"; "show"; "to"; "default"]%string;
  if rc =? 0 then match after_dev (py_words out) with Some r => lift r | None => mret "eth0"%string end
  else mret "eth0"%string.

Definition NO_MAPPING : string := "REPLACE_WITH_PUBLIC_IP".
Definition mapping_in (bytes : string) : string := default NO_MAPPING (nat_search (chars (decode_ignore bytes))).

(** [_read_current_nat_mapping] *)
Definition read_current_nat_mapping (janus_jcfg : string) : M Render string :=
  ex ← path_exists janus_jcfg;
  if (ex : bool) then b ← read_bytes janus_jcfg; mret (mapping_in b) else mret NO_MAPPING.

(** An argument that is absent or empty. *)
Definition given (o : option string) : option string := s ← o; if String.eqb s "" then None else Some s.

Definition secret (values : dict string) (k : string) : string := default "REPLACE_ME"%string (dget values k).

Definition substitutions (paths : JanusPaths) (values : dict string) (iface nat : string) : dict string :=
  [("JANUS_CFG_DIR", cfg_dir paths); ("JANUS_PLUGINS_DIR", plugins_dir paths);
   ("JANUS_TRANSPORTS_DIR", transports_dir paths); ("ICE_ENFORCE_LIST", iface); ("RELAY_PORT", "9000");
   ("JANUS_ADMIN_SECRET", secret values "JANUS_ADMIN_SECRET");
   ("STREAMING_ADMIN_KEY", default (secret values "JANUS_STREAMING_ADMIN_KEY")
                             (given (dget values "STREAMING_ADMIN_KEY")));
   ("STREAMING_RGB_MP_SECRET", secret values "STREAMING_RGB_MP_SECRET");
   ("TEXTROOM_ROOM_SECRET", secret values "TEXTROOM_ROOM_SECRET");
   ("NAT_1_1_MAPPING", nat)]%string.

(** [_build_substitutions] *)
Definition build_substitutions (paths : JanusPaths) (nat_mapping iface : option string) : M Render (dict string) :=
  values ← on_secrets load;
  iface ← match given iface with Some i => mret i | None => detect_primary_iface end;
  nat ← match given nat_mapping with
        | Some n => mret n
        | None => read_current_nat_mapping (in_dir (cfg_dir paths) "janus.jcfg")
        end;
  mret (substitutions paths values iface nat).

(** ** Rendering *)
Definition back_up (dst : string) : M Render unit :=
  ex ← path_exists dst;
  if (ex : bool) then
    done ← path_exists (bak_of dst);
    if (done : bool) then mret tt else b ← read_bytes dst; write_bytes (bak_of dst) b
  else mret tt.

Definition put_text (dst text : string) : M Render unit :=
  write_bytes (tmp_of dst) text ;; chmod (tmp_of dst) 416 ;; rename (tmp_of dst) dst.

(** One round of the loop: whether the template is rendered. *)
Definition render_one (tpl dst : string) (subs : dict string) (backup_existing : bool) : M Render bool :=
  try_except
    (b ← read_bytes tpl;
     text ← lift (decode_text b);
     (if backup_existing then back_up dst else mret tt) ;;
     put_text dst (apply_subs text subs) ;;
     mret true)
    CException (fun _ => mret false).

Fixpoint render_all (dir cfg : string) (names : list string) (subs : dict string) (backup_existing : bool)
    : M Render (list string * list string) :=
  match names with
  | [] => mret ([], [])
  | n :: rest =>
      let dst := in_dir cfg (stem_of n) in
      ok ← render_one (in_dir dir n) dst subs backup_existing;
      '(done, skipped) ← render_all dir cfg rest subs backup_existing;
      mret (if (ok : bool) then (dst :: done, skipped) else (done, n :: skipped))
  end.

Definition render_files (paths : JanusPaths) (dir : string) (subs : dict string) (backup_existing : bool)
    : M Render RenderResult :=
  names ← list_templates dir;
  '(done, skipped) ← render_all dir (cfg_dir paths) names subs backup_existing;
  mkdir (in_dir (cfg_dir paths) "streams.d") ;;
  mret (mkRenderResult done skipped paths).

Definition render (nat_mapping iface : option string) (backup_existing : bool) : M Render RenderResult :=
  paths ← detect_janus_paths;
  match paths with
  | None => raise (Exn ERuntime "Janus install not found (no /opt/janus/etc/janus or /etc/janus)")
  | Some paths =>
      dir ← detect_template_dir;
      match dir with
      | None => raise (Exn ERuntime
          "Template dir not found (looked in /opt/janus-camera-page/deploy/janus/etc and dev dir)")
      | Some dir =>
          subs ← build_substitutions paths nat_mapping iface;
          render_files paths dir subs backup_existing
      end
  end.

(** The command line, after the program's name: the exit code and what is printed. *)
Definition nat_option (args : list string) : option string :=
  fold_left (fun nat arg => if startswith arg "--nat-mapping=" then
                              match split1 "=" arg with Some (_, v) => Some v | None => nat end
                            else nat) args None.

Definition render_main (argv : list string) : M Render (Z * list string) :=
  match argv with
  | cmd :: args =>
      if String.eqb cmd "render" then
        try_except (r ← render (nat_option args) None true; mret (0, rr_rendered r)) CException
          (fun _ => mret (1, []))
      else mret (2, [])
  | [] => mret (2, [])
  end.
End render.

(** ** What a file is afterwards *)
Definition old_bytes (n : option node) : option string :=
  match n with Some (Plain b _) => Some b | _ => None end.

(** The template's text with the placeholders filled in, readable by the group at most,
    and what was there before in a backup if there was none yet. *)
Definition file_rendered (subs : dict string) (backup_existing : bool) (tpl dst : string)
    (fs fs' : gmap string node) : Prop :=
  ∃ b text, old_bytes (fs !! tpl) = Some b ∧ decode_text b = Ok text ∧
    fs' !! dst = Some (Plain (apply_subs text subs) 416) ∧ fs' !! tmp_of dst = None ∧
    ∀ old, backup_existing = true → old_bytes (fs !! dst) = Some old → fs !! bak_of dst = None →
      old_bytes (fs' !! bak_of dst) = Some old.

Definition file_outcome (subs : dict string) (backup_existing : bool) (tpl dst : string)
    (fs fs' : gmap string node) (ok : bool) : Prop :=
  (if ok then file_rendered subs backup_existing tpl dst fs fs' else fs' !! dst = fs !! dst) ∧
  (is_Some (fs !! bak_of dst) → fs' !! bak_of dst = fs !! bak_of dst).

Definition touched (dst : string) : list string := [dst; tmp_of dst; bak_of dst].

Lemma suffix_neq s x y : x ≠ y → with_suffix s x ≠ with_suffix s y.
Proof. unfold with_suffix. intros Hxy H. apply Hxy. by simplify_eq. Qed.

Lemma own_suffix s x : x ≠ ""%string → with_suffix s x ≠ s.
Proof.
  unfold with_suffix. intros Hx H. apply (f_equal (λ t, length (chars t))) in H. rewrite chars_app, length_app in H.
  destruct x as [|c x]; [done|]. cbn in H. lia.
Qed.

Section facts.
Context {T : ToolEnv} {R : RenderEnv}.

(** The state of the file system only. *)
Definition moves (w w' : Render) (fs : gmap string node) : Prop :=
  rn_secrets w' = rn_secrets w ∧ rn_admin w' = rn_admin w ∧ rn_fs w' = fs.

Lemma moves_trans w1 w2 w3 fs2 fs3 : moves w1 w2 fs2 → moves w2 w3 fs3 → moves w1 w3 fs3.
Proof. intros (? & ? & ?) (? & ? & ?). split_and!; congruence. Qed.

Lemma wp_rsys (Q : res unit → Render → Prop) w :
  (∀ r w', moves w w' (rn_fs w) → r = Ok tt ∨ is_ok r = false → Q r w') → wp rsys Q w.
Proof.
  intros H. unfold rsys, render_tick. wp_steps. unfold wp at 1. simpl.
  destruct (render_fault _); wp_steps; apply H; [done|by right|done|by left].
Qed.

Lemma wp_on_fs f (Q : res unit → Render → Prop) w :
  (∀ w', moves w w' (f (rn_fs w)) → Q (Ok tt) w') → wp (on_fs f) Q w.
Proof. intros H. unfold on_fs. wp_steps. by apply H. Qed.

Lemma write_bytes_spec p b w :
  wp (write_bytes p b) (λ r w', ∃ fs', moves w w' fs' ∧ (∀ q, q ≠ p → fs' !! q = rn_fs w !! q) ∧
        (r = Ok tt → old_bytes (fs' !! p) = Some b)) w.
Proof.
  unfold write_bytes. apply wp_bind, wp_rsys. intros r w1 H1 Hr. unfold then_.
  destruct r as [[]|e]; [clear Hr|exists (rn_fs w); by split_and!]. wp_steps.
  pose proof H1 as (_ & _ & Hfs1).
  destruct (rn_fs w1 !! p) as [[|b0 m0]|] eqn:Hp; [wp_steps; exists (rn_fs w); by split_and!|..];
    (apply wp_bind, wp_on_fs; intros w2 H2; unfold then_;
     apply wp_bind, wp_rsys; intros r w3 H3 _; pose proof H2 as (_ & _ & Hfs2); pose proof H3 as (_ & _ & Hfs3);
     unfold then_; destruct r as [[]|e];
     [apply wp_on_fs; intros w4 H4; eexists; split; [by eauto using moves_trans|];
        rewrite Hfs3, Hfs2, Hfs1; split; [intros q Hq; by rewrite !lookup_insert_ne|by rewrite lookup_insert_eq]
     |eexists; split; [by eauto using moves_trans|]; rewrite Hfs2, Hfs1; split; [intros q Hq; by rewrite lookup_insert_ne|done]]).
Qed.

Lemma put_text_spec dst text w :
  wp (put_text dst text) (λ r w', ∃ fs', moves w w' fs' ∧
        (∀ q, q ≠ dst → q ≠ tmp_of dst → fs' !! q = rn_fs w !! q) ∧
        (r = Ok tt → fs' !! dst = Some (Plain text 416) ∧ fs' !! tmp_of dst = None) ∧
        (is_ok r = false → fs' !! dst = rn_fs w !! dst)) w.
Proof.
  assert (Hne : tmp_of dst ≠ dst) by by apply own_suffix.
  unfold put_text. wp_call write_bytes_spec. intros r w1 (fs1 & H1 & Hf1 & Hw1). unfold then_.
  destruct r as [[]|e]; [specialize (Hw1 eq_refl)|exists fs1; split_and!; auto; by intros].
  unfold chmod. apply wp_bind, wp_bind, wp_rsys. intros r w2 H2 Hr2. unfold then_. pose proof H1 as (_ & _ & E1). pose proof H2 as (_ & _ & E2).
  destruct r as [[]|e]; [|exists fs1; rewrite E1 in H2; split_and!; eauto using moves_trans; by intros].
  apply wp_on_fs. intros w3 H3. pose proof H3 as (_ & _ & E3). rewrite E2, E1 in H3.
  unfold rename. apply wp_bind, wp_rsys. intros r w4 H4 Hr4. unfold then_. pose proof H4 as (_ & _ & E4).
  assert (M4 : moves w w4 (alter (λ n, match n with Dir => Dir | Plain b _ => Plain b 416 end) (tmp_of dst) fs1)).
  { rewrite E3, E2, E1 in H4. rewrite E1 in H2. eauto 6 using moves_trans. }
  destruct (fs1 !! tmp_of dst) as [[|b m]|] eqn:Ht; [done| |done]. simpl in Hw1. injection Hw1 as ->.
  assert (Hframe : ∀ q, q ≠ tmp_of dst → alter (λ n, match n with Dir => Dir | Plain b _ => Plain b 416 end)
            (tmp_of dst) fs1 !! q = rn_fs w !! q) by (intros q Hq; rewrite lookup_alter_ne by done; by apply Hf1).
  destruct r as [[]|e]; [|eexists; split_and!; [exact M4|auto|by intros|intros _; by apply Hframe]].
  wp_steps. pose proof M4 as (_ & _ & E). rewrite E, lookup_alter_eq, Ht. simpl. rewrite Hframe by done.
  assert (Hmove : wp (on_fs (λ fs, <[dst:=Plain text 416]> (delete (tmp_of dst) fs)))
    (λ r w', ∃ fs', moves w w' fs' ∧ (∀ q, q ≠ dst → q ≠ tmp_of dst → fs' !! q = rn_fs w !! q) ∧
        (r = Ok tt → fs' !! dst = Some (Plain text 416) ∧ fs' !! tmp_of dst = None) ∧
        (is_ok r = false → fs' !! dst = rn_fs w !! dst)) w4).
  { apply wp_on_fs. intros w5 H5. rewrite E in H5. eexists. split; [by eauto using moves_trans|]. split_and!; [| |done].
    - intros q Hq Hq'. rewrite lookup_insert_ne, lookup_delete_ne by done. by apply Hframe.
    - intros _. rewrite lookup_insert_eq, lookup_insert_ne, lookup_delete_eq by done. done. }
  destruct (rn_fs w !! dst) as [[|b m']|] eqn:Hd; [|exact Hmove..].
  wp_steps. eexists. split_and!; [exact M4|auto|done|]. intros _. by rewrite Hframe.
Qed.

Lemma wp_path_exists p (Q : res bool → Render → Prop) w :
  (∀ r w', moves w w' (rn_fs w) → r = Ok (bool_decide (is_Some (rn_fs w !! p))) ∨ is_ok r = false → Q r w') →
  wp (path_exists p) Q w.
Proof.
  intros H. unfold path_exists. apply wp_bind, wp_rsys. intros r w1 H1 Hr. unfold then_. pose proof H1 as (_ & _ & E1).
  destruct r; wp_steps; apply H; [done|left; by rewrite E1|done|by right].
Qed.

Lemma wp_read_bytes p (Q : res string → Render → Prop) w :
  (∀ r w', moves w w' (rn_fs w) → (∀ b, r = Ok b → old_bytes (rn_fs w !! p) = Some b) → Q r w') →
  wp (read_bytes p) Q w.
Proof.
  intros H. unfold read_bytes. apply wp_bind, wp_rsys. intros r w1 H1 Hr. unfold then_. pose proof H1 as (_ & _ & E1).
  destruct r; [|by apply H]. wp_steps. rewrite E1. destruct (rn_fs w !! p) as [[|b m]|]; wp_steps; apply H; try done.
  by intros ? [= <-].
Qed.

Lemma back_up_spec dst w :
  wp (back_up dst) (λ r w', ∃ fs', moves w w' fs' ∧ (∀ q, q ≠ bak_of dst → fs' !! q = rn_fs w !! q) ∧
        (is_Some (rn_fs w !! bak_of dst) → fs' = rn_fs w) ∧
        (r = Ok tt → ∀ old, old_bytes (rn_fs w !! dst) = Some old → rn_fs w !! bak_of dst = None →
           old_bytes (fs' !! bak_of dst) = Some old)) w.
Proof.
  assert (Hsame : ∀ w' (r : res unit), moves w w' (rn_fs w) → (r = Ok tt → ∀ old, old_bytes (rn_fs w !! dst) = Some old →
      rn_fs w !! bak_of dst = None → False) → ∃ fs', moves w w' fs' ∧ (∀ q, q ≠ bak_of dst → fs' !! q = rn_fs w !! q) ∧
        (is_Some (rn_fs w !! bak_of dst) → fs' = rn_fs w) ∧
        (r = Ok tt → ∀ old, old_bytes (rn_fs w !! dst) = Some old → rn_fs w !! bak_of dst = None →
           old_bytes (fs' !! bak_of dst) = Some old)).
  { intros w' r Hm Hno. exists (rn_fs w). split_and!; [done..|]. intros Hr old Ho Hb. exfalso. by eapply Hno. }
  unfold back_up. apply wp_bind, wp_path_exists. intros r w1 H1 Hr1. unfold then_. pose proof H1 as (_ & _ & E1).
  destruct Hr1 as [->|Hr]; [|destruct r; [done|by apply Hsame]].
  case_bool_decide as Hd; [|wp_steps; apply Hsame; [done|]; intros _ old Ho; destruct (rn_fs w !! dst); [|done]; by destruct Hd].
  apply wp_bind, wp_path_exists. intros r w2 H2 Hr2. unfold then_. pose proof H2 as (_ & _ & E2).
  assert (M2 : moves w w2 (rn_fs w)) by (rewrite E1 in H2; eauto using moves_trans).
  destruct Hr2 as [->|Hr]; [|destruct r; [done|by apply Hsame]]. rewrite E1.
  case_bool_decide as Hb; [wp_steps; apply Hsame; [done|]; intros _ old _ Hn; rewrite Hn in Hb; by destruct Hb|].
  apply wp_bind, wp_read_bytes. intros r w3 H3 Hr3. unfold then_.
  assert (M3 : moves w w3 (rn_fs w)) by (rewrite E2, E1 in H3; eauto using moves_trans).
  destruct r as [b|e]; [specialize (Hr3 b eq_refl)|by apply Hsame].
  eapply wp_mono; [apply write_bytes_spec|]. intros r w4 (fs4 & H4 & Hf & Hw). pose proof M3 as (_ & _ & E3). rewrite E3 in Hf.
  exists fs4. split_and!; [by eauto using moves_trans|done|done|]. intros Hr old Ho _. rewrite E2, E1, Ho in Hr3. rewrite (Hw Hr). done.
Qed.

(** Nothing a template does stops the loop. *)
Lemma rsys_catchable : raises_only catchable rsys.
Proof. unfold rsys, render_tick. intros w e. unfold mbind, M_bind. destruct (render_fault _); by intros [= <-]. Qed.

Lemma decode_catchable b e : decode_text b = Raise e → catchable (ex_kind e).
Proof. unfold decode_text. destruct (utf8 _); [done|]. by intros [= <-]. Qed.

Lemma render_one_total tpl dst subs bk : total (render_one tpl dst subs bk).
Proof.
  pose proof rsys_catchable. unfold render_one. apply total_catch_all; [|done].
  unfold back_up, put_text, rename, chmod, write_bytes, path_exists, read_bytes, on_fs. ro.
  by eapply decode_catchable.
Qed.

(** What a round leaves, and what is known when it gets to its end. *)
Definition round_left (subs : dict string) (bk : bool) (tpl dst : string) (w w' : Render) (r : res bool) : Prop :=
  ∃ fs', moves w w' fs' ∧ (∀ q, q ∉ touched dst → fs' !! q = rn_fs w !! q) ∧
    match r with
    | Ok ok => ok = true ∧ file_outcome subs bk tpl dst (rn_fs w) fs' true
    | Raise _ => file_outcome subs bk tpl dst (rn_fs w) fs' false
    end.

Lemma round_nothing subs bk tpl dst w w' e :
  moves w w' (rn_fs w) → round_left subs bk tpl dst w w' (Raise e).
Proof. intros H. exists (rn_fs w). by split_and!. Qed.

(** The backup is made, the text is put in place. *)
Lemma placed_spec subs (bk : bool) tpl dst b text w w1 :
  moves w w1 (rn_fs w) → old_bytes (rn_fs w !! tpl) = Some b → decode_text b = Ok text →
  wp ((if bk then back_up dst else mret tt) ;; put_text dst (apply_subs text subs) ;; mret true)
    (λ r w', round_left subs bk tpl dst w w' r) w1.
Proof.
  assert (Htmp : tmp_of dst ≠ dst) by by apply own_suffix.
  assert (Hbak : bak_of dst ≠ dst) by by apply own_suffix.
  assert (Htb : bak_of dst ≠ tmp_of dst) by by apply suffix_neq.
  intros M1 Hb Htext. pose proof M1 as (_ & _ & E1). apply wp_bind.
  eapply (wp_mono _ (λ r w2, ∃ fs2, moves w w2 fs2 ∧ (∀ q, q ≠ bak_of dst → fs2 !! q = rn_fs w !! q) ∧
     (is_Some (rn_fs w !! bak_of dst) → fs2 = rn_fs w) ∧
     (r = Ok tt → ∀ old, bk = true → old_bytes (rn_fs w !! dst) = Some old → rn_fs w !! bak_of dst = None →
        old_bytes (fs2 !! bak_of dst) = Some old))).
  { destruct bk; [|wp_steps; exists (rn_fs w); by split_and!]. eapply wp_mono; [apply back_up_spec|].
    rewrite E1. intros r w2 (fs2 & H2 & Hf & Hs & Ho). exists fs2. split_and!; eauto using moves_trans. }
  intros r w2 (fs2 & M2 & Hf2 & Hs2 & Ho2). pose proof M2 as (_ & _ & E2).
  unfold round_left, then_, touched. destruct r as [[]|e].
  - specialize (Ho2 eq_refl). wp_call put_text_spec. rewrite E2. intros r w3 (fs3 & M3 & Hf3 & Hok & Hno).
    assert (Hkeep : is_Some (rn_fs w !! bak_of dst) → fs3 !! bak_of dst = rn_fs w !! bak_of dst).
    { intros Hs. rewrite Hf3 by done. by rewrite (Hs2 Hs). }
    assert (Hframe : ∀ q, q ∉ [dst; tmp_of dst; bak_of dst] → fs3 !! q = rn_fs w !! q).
    { intros q Hq. rewrite !not_elem_of_cons in Hq. rewrite Hf3, Hf2; naive_solver. }
    unfold then_. destruct r as [[]|e]; [wp_steps|]; exists fs3; (split; [by eauto using moves_trans|]; split; [done|]).
    + specialize (Hok eq_refl) as [Hd Ht]. split; [done|]. split; [|done]. exists b, text. split_and!; [done..|].
      intros old Hbk Hold Hn. rewrite Hf3 by done. by apply Ho2.
    + split; [|done]. rewrite Hno, Hf2; done.
  - exists fs2. split; [done|]. split; [intros q Hq; rewrite !not_elem_of_cons in Hq; naive_solver|].
    split; [by apply Hf2|]. intros Hs. by rewrite (Hs2 Hs).
Qed.

Lemma render_one_spec tpl dst subs bk w :
  wp (render_one tpl dst subs bk) (λ r w', ∃ ok fs', r = Ok ok ∧ moves w w' fs' ∧
        (∀ q, q ∉ touched dst → fs' !! q = rn_fs w !! q) ∧ file_outcome subs bk tpl dst (rn_fs w) fs' ok) w.
Proof.
  pose proof (render_one_total tpl dst subs bk w) as Ht. unfold render_one in *. revert Ht.
  match goal with |- context [try_except ?b _ _] => set (body := b) end.
  assert (Hbody : wp body (λ r w', round_left subs bk tpl dst w w' r) w).
  { apply wp_bind, wp_read_bytes. intros r w1 M1 Hb. unfold then_.
    destruct r as [b|e]; [specialize (Hb b eq_refl)|by apply round_nothing].
    apply wp_bind, wp_lift. unfold then_. destruct (decode_text b) as [text|e] eqn:Htext; [|by apply round_nothing].
    by eapply placed_spec. }
  unfold wp in *. unfold try_except. destruct (body w) as [[ok|e] w'].
  - destruct Hbody as (fs' & Hm & Hf & -> & Ho). intros _. by exists true, fs'.
  - destruct Hbody as (fs' & Hm & Hf & Ho). destruct (instance_of _ _); [|done]. intros _. by exists false, fs'.
Qed.

(** ** What the directory is afterwards *)
Definition dst_in (cfg n : string) : string := in_dir cfg (stem_of n).
Definition all_touched (cfg : string) (names : list string) : list string :=
  concat (map (λ n, touched (dst_in cfg n)) names).

(** Every template is rendered or its file is as it was; nothing else changes but [extra]. *)
Definition files_left (extra : list string) (subs : dict string) (bk : bool) (dir cfg : string)
    (names : list string) (fs fs' : gmap string node) (oks : list bool) : Prop :=
  Forall2 (λ n ok, file_outcome subs bk (in_dir dir n) (dst_in cfg n) fs fs' ok) names oks ∧
  ∀ q, q ∉ extra ++ all_touched cfg names → fs' !! q = fs !! q.

Definition done_of (cfg : string) (names : list string) (oks : list bool) : list string :=
  omap (λ '(n, ok), if (ok : bool) then Some (dst_in cfg n) else None) (zip names oks).
Definition skipped_of (names : list string) (oks : list bool) : list string :=
  omap (λ '(n, ok), if (ok : bool) then None else Some n) (zip names oks).

Lemma touched_all cfg n names q : n ∈ names → q ∈ touched (dst_in cfg n) → q ∈ all_touched cfg names.
Proof.
  intros Hn Hq. unfold all_touched. rewrite list_elem_of_In, in_concat.
  exists (touched (dst_in cfg n)). split; [|by apply list_elem_of_In].
  apply in_map_iff. exists n. split; [done|by apply list_elem_of_In].
Qed.

Lemma outcome_ext subs bk tpl dst fs1 fs1' fs2 fs2' ok :
  fs2 !! tpl = fs1 !! tpl → (∀ q, q ∈ touched dst → fs2 !! q = fs1 !! q ∧ fs2' !! q = fs1' !! q) →
  file_outcome subs bk tpl dst fs1 fs1' ok → file_outcome subs bk tpl dst fs2 fs2' ok.
Proof.
  intros Htpl Hq. unfold file_outcome, file_rendered, touched in *.
  destruct (Hq dst) as [-> ->]; [set_solver|]. destruct (Hq (tmp_of dst)) as [_ ->]; [set_solver|].
  destruct (Hq (bak_of dst)) as [-> ->]; [set_solver|]. by rewrite Htpl.
Qed.

Lemma Forall2_elem_impl {A B} (P Q : A → B → Prop) l k :
  Forall2 P l k → (∀ x y, x ∈ l → P x y → Q x y) → Forall2 Q l k.
Proof. induction 1; intros HQ; constructor; [apply HQ; [by left|done]|]. apply IHForall2. intros. apply HQ; [by right|done]. Qed.

Lemma render_all_spec dir cfg subs bk names w :
  NoDup (all_touched cfg names ++ map (in_dir dir) names) →
  wp (render_all dir cfg names subs bk) (λ r w', ∃ oks fs',
    r = Ok (done_of cfg names oks, skipped_of names oks) ∧ moves w w' fs' ∧
    files_left [] subs bk dir cfg names (rn_fs w) fs' oks) w.
Proof.
  revert w. induction names as [|n names IH]; intros w Hnd; simpl.
  { wp_steps. exists [], (rn_fs w). split_and!; [done..|]. split; [constructor|done]. }
  unfold all_touched in Hnd. cbn [map concat] in Hnd. fold (all_touched cfg names) in Hnd.
  rewrite <- app_assoc in Hnd. apply NoDup_app in Hnd as (_ & Hd1 & Hnd).
  apply NoDup_app in Hnd as (Hndt & Hd2 & [_ Hndm]%NoDup_cons).
  assert (Hnd' : NoDup (all_touched cfg names ++ map (in_dir dir) names)).
  { apply NoDup_app. split_and!; [done| |done]. intros q Hq Hm. apply (Hd2 q Hq). by right. }
  wp_call render_one_spec. intros r w1 (ok & fs1 & -> & M1 & Hf1 & Ho1). unfold then_. pose proof M1 as (_ & _ & E1).
  wp_call (IH w1 Hnd'). intros r w2 (oks & fs2 & -> & M2 & Hall & Hf2). rewrite E1 in Hall, Hf2. wp_steps.
  exists (ok :: oks), fs2. split; [destruct ok; reflexivity|]. split; [by eauto using moves_trans|]. split.
  - constructor.
    + eapply outcome_ext; [done| |exact Ho1]. intros q Hq. split; [done|]. apply Hf2. intros Hq'.
      apply (Hd1 q Hq). set_solver.
    + eapply Forall2_elem_impl; [exact Hall|]. intros m ok' Hm. fold (dst_in cfg m).
      apply outcome_ext.
      * symmetry. apply Hf1. intros Hq. apply (Hd1 _ Hq), elem_of_app. right. right. by apply list_elem_of_fmap_2.
      * intros q Hq. split; [|done]. symmetry. apply Hf1. intros Hq'. apply (Hd1 _ Hq'), elem_of_app. left. by eapply touched_all.
  - intros q Hq. unfold all_touched in Hq. cbn [map concat app] in Hq, Hf2 |- *. fold (all_touched cfg names) in Hq.
    rewrite Hf2, Hf1; set_solver.
Qed.

Definition streams_d (cfg : string) : string := in_dir cfg "streams.d".

(** No template is put where another one is read or put, or its backup. *)
Definition apart (dir cfg : string) (names : list string) : Prop :=
  NoDup (streams_d cfg :: all_touched cfg names ++ map (in_dir dir) names).

Definition CFG_DIRS : list string := ["/opt/janus/etc/janus"; "/etc/janus"]%string.
Definition separate (fs : gmap string node) : Prop :=
  Forall (λ dir, Forall (λ cfg, apart dir cfg (templates fs dir)) CFG_DIRS) TEMPLATE_DIRS.

#[export] Instance apart_dec dir cfg names : Decision (apart dir cfg names).
Proof. unfold apart. apply _. Defined.
#[export] Instance separate_dec fs : Decision (separate fs).
Proof. unfold separate. apply _. Defined.

Lemma mkdir_spec p w :
  wp (mkdir p) (λ r w', ∃ fs', moves w w' fs' ∧ (∀ q, q ≠ p → fs' !! q = rn_fs w !! q) ∧
        (r = Ok tt ∧ fs' !! p = Some Dir ∨ r = fail EOS)) w.
Proof.
  unfold mkdir, rsys, render_tick. do 2 apply wp_bind. unfold wp at 1. unfold then_ at 1.
  destruct (render_fault _); wp_steps; [exists (rn_fs w); split_and!; [done..|by right]|].
  simpl. destruct (rn_fs w !! p) as [[|b m]|] eqn:Hp; wp_steps.
  - exists (rn_fs w). split_and!; [done..|by left].
  - exists (rn_fs w). split_and!; [done..|by right].
  - apply wp_on_fs. intros w' H'. eexists. split; [exact H'|]. cbn [rn_fs]. split; [intros q Hq; by rewrite lookup_insert_ne|].
    left. by rewrite lookup_insert_eq.
Qed.

Definition result_of (paths : JanusPaths) (names : list string) (oks : list bool) : RenderResult :=
  mkRenderResult (done_of (cfg_dir paths) names oks) (skipped_of names oks) paths.

Lemma apart_nil dir cfg : apart dir cfg [].
Proof. apply NoDup_cons. split; [set_solver|constructor]. Qed.

Lemma render_files_spec paths dir subs bk w :
  apart dir (cfg_dir paths) (templates (rn_fs w) dir) →
  wp (render_files paths dir subs bk) (λ r w', ∃ names oks,
    (names = templates (rn_fs w) dir ∨ names = []) ∧
    files_left [streams_d (cfg_dir paths)] subs bk dir (cfg_dir paths) names (rn_fs w) (rn_fs w') oks ∧
    (r = Ok (result_of paths names oks) ∧ rn_fs w' !! streams_d (cfg_dir paths) = Some Dir ∨ r = fail EOS)) w.
Proof.
  intros Hap. unfold render_files, list_templates, render_tick. do 2 apply wp_bind. unfold wp at 1, then_ at 1.
  wp_steps. cbn [rn_fs]. set (names := if render_fault _ then [] else _).
  assert (Hn : names = templates (rn_fs w) dir ∨ names = []) by (subst names; destruct (render_fault _); auto).
  assert (Hnd : apart dir (cfg_dir paths) names) by (destruct Hn as [-> | ->]; [done|apply apart_nil]). clear Hap.
  pose proof Hnd as [Hs Hnd']%NoDup_cons. clearbody names.
  wp_call (render_all_spec dir (cfg_dir paths) subs bk names); [done|].
  intros r w1 (oks & fs1 & -> & (_ & _ & E1) & Hall & Hf). wp_steps. cbn [rn_fs] in *.
  wp_call mkdir_spec. rewrite E1. intros r w2 (fs2 & (_ & _ & E2) & Hf2 & Hr).
  assert (Hleft : files_left [streams_d (cfg_dir paths)] subs bk dir (cfg_dir paths) names (rn_fs w) (rn_fs w2) oks).
  { rewrite E2. split; [|intros q Hq; rewrite Hf2, Hf; set_solver].
    eapply Forall2_elem_impl; [exact Hall|]. intros n ok Hin. apply outcome_ext; [done|]. intros q Hq. split; [done|].
    apply Hf2. intros ->. apply Hs, elem_of_app. left. by eapply touched_all. }
  unfold then_. destruct Hr as [[-> Hd]| ->]; [wp_steps|]; exists names, oks; split_and!; [done..| |done|done|by right].
  left. by rewrite E2.
Qed.

(** Finding out changes neither the files nor the secrets. *)
Definition asking (w w' : Render) : Prop := rn_fs w' = rn_fs w ∧ rn_secrets w' = rn_secrets w.
#[export] Instance asking_preorder : PreOrder asking.
Proof. split; [done|]. intros w1 w2 w3 [? ?] [? ?]. split; congruence. Qed.

Lemma tick_asking : preserves asking render_tick.
Proof. intros w. done. Qed.
Lemma ask_asking cmd : preserves asking (ask cmd).
Proof.
  intros w. unfold ask, on_admin, zoom, mbind, M_bind. destruct (on_tools _ _) as [[[[rc out] err]|e] a]; done.
Qed.
Hint Resolve tick_asking ask_asking : pres.

Lemma is_dir_asking p : preserves asking (is_dir p).
Proof. unfold is_dir, rsys. pres. Qed.
Lemma exists_asking p : preserves asking (path_exists p).
Proof. unfold path_exists, rsys. pres. Qed.
Lemma read_asking p : preserves asking (read_bytes p).
Proof. unfold read_bytes, rsys. pres. Qed.
Lemma list_asking dir : preserves asking (list_templates dir).
Proof. unfold list_templates. pres. Qed.
Hint Resolve is_dir_asking exists_asking read_asking list_asking : pres.

Lemma plugins_asking l : preserves asking (with_plugins l).
Proof. induction l; simpl; pres. Qed.
Lemma with_templates_asking l : preserves asking (with_templates l).
Proof. induction l; simpl; pres. Qed.
Hint Resolve plugins_asking with_templates_asking : pres.

Lemma paths_asking : preserves asking detect_janus_paths.
Proof. unfold detect_janus_paths. pres. Qed.
Lemma iface_asking : preserves asking detect_primary_iface.
Proof. unfold detect_primary_iface. pres. Qed.

(** What a value that is returned satisfies. *)
Definition returns {W A} (P : A → Prop) (m : M W A) : Prop := ∀ w a w', m w = (Ok a, w') → P a.

Lemma returns_bind {W A B} P (m : M W A) (f : A → M W B) : (∀ a, returns P (f a)) → returns P (m ≫= f).
Proof. intros Hf w b w'. intros (a & w1 & _ & H)%bind_ok_inv. by eapply Hf. Qed.
Lemma returns_ret {W A} (P : A → Prop) a : P a → returns P (mret a : M W A).
Proof. by intros Ha w b w' [= <- <-]. Qed.

Lemma paths_known : returns (λ o, ∀ p, o = Some p → cfg_dir p ∈ CFG_DIRS) detect_janus_paths.
Proof.
  unfold detect_janus_paths, CFG_DIRS. apply returns_bind. intros [].
  { apply returns_ret. intros p [= <-]. by left. }
  apply returns_bind. intros []; simpl; [|by apply returns_ret].
  apply returns_bind. intros [rc out]. apply returns_bind. intros [c|].
  - apply returns_ret. intros p [= <-]. right. by left.
  - apply returns_bind. intros [rc' out']. apply returns_ret. unfold probed_paths. destruct (_ && _); [|done].
    intros p [= <-]. right. by left.
Qed.

Lemma dir_known l : returns (λ o, ∀ d, o = Some d → d ∈ l) (with_templates l).
Proof.
  induction l as [|c l IH]; simpl; [by apply returns_ret|]. apply returns_bind.
  assert (Hl : returns (λ o, ∀ d, o = Some d → d ∈ c :: l) (with_templates l)).
  { intros w o w' H d Hd. right. by eapply IH. }
  intros []; [|done]. apply returns_bind. intros [|]; [done|]. apply returns_ret. intros d [= <-]. by left.
Qed.

(** The mapping a rendering uses: the one it is given, or the one in the file. *)
Definition mapping_now (fs : gmap string node) (cfg : string) : string :=
  from_option mapping_in NO_MAPPING (old_bytes (fs !! in_dir cfg "janus.jcfg")).

Lemma mapping_spec cfg w :
  wp (read_current_nat_mapping (in_dir cfg "janus.jcfg"))
    (λ r w', moves w w' (rn_fs w) ∧ ∀ n, r = Ok n → n = mapping_now (rn_fs w) cfg) w.
Proof.
  unfold read_current_nat_mapping, mapping_now. apply wp_bind, wp_path_exists. intros r w1 M1 Hr. unfold then_.
  pose proof M1 as (_ & _ & E1). destruct r as [ex|e]; [|done]. destruct Hr as [[= ->]|]; [|done].
  case_bool_decide as Hex.
  - apply wp_bind, wp_read_bytes. intros r w2 M2 Hb. rewrite E1 in M2, Hb. pose proof (moves_trans _ _ _ _ _ M1 M2).
    destruct r as [b|e]; unfold then_; [|done]. wp_steps. split; [done|]. intros n [= <-]. by rewrite (Hb b).
  - wp_steps. split; [done|]. intros n [= <-]. destruct (rn_fs w !! _); [|done]. by destruct Hex.
Qed.

Definition substituted (paths : JanusPaths) (nat_mapping iface : option string) (w : Render) (subs : dict string) : Prop :=
  ∃ values used, (load (rn_secrets w)).1 = Ok values ∧ (∀ i, given iface = Some i → used = i) ∧
    subs = substitutions paths values used (default (mapping_now (rn_fs w) (cfg_dir paths)) (given nat_mapping)).

Lemma build_spec paths nat_mapping iface w :
  wp (build_substitutions paths nat_mapping iface)
    (λ r w', rn_fs w' = rn_fs w ∧ ∀ subs, r = Ok subs → substituted paths nat_mapping iface w subs) w.
Proof.
  unfold build_substitutions, substituted. apply wp_bind, wp_zoom, wp_intro. intros r s Hl. unfold then_.
  destruct r as [values|e]; [|done]. set (w1 := mkRender _ _ s _).
  assert (Hif : wp (match given iface with Some i => mret i | None => detect_primary_iface end)
    (λ r w2, rn_fs w2 = rn_fs w ∧ ∀ used, r = Ok used → ∀ i, given iface = Some i → used = i) w1).
  { destruct (given iface) as [i|]; [wp_steps; split; [done|]; by intros ? [= ->] ? [= ->]|].
    eapply wp_frame; [apply iface_asking|]. intros r w2 [H2 _]. by split. }
  apply wp_bind. eapply wp_mono; [exact Hif|]. intros r w2 [E2 Hused]. unfold then_.
  destruct r as [used|e]; [|done]. specialize (Hused used eq_refl). destruct (given nat_mapping) as [n|].
  - wp_steps. split; [done|]. intros subs [= <-]. exists values, used. by rewrite Hl.
  - wp_call mapping_spec. rewrite E2. intros r w3 [(_ & _ & E3) Hn]. unfold then_.
    destruct r as [n|e]; [|done]. wp_steps. split; [by rewrite E3|]. intros subs [= <-]. exists values, used.
    rewrite Hl, (Hn n) by done. done.
Qed.

(** What a rendering that begins to write leaves. *)
Definition render_left (nat_mapping iface : option string) (bk : bool) (w w' : Render) (r : res RenderResult) : Prop :=
  ∃ paths dir subs names oks,
    dir ∈ TEMPLATE_DIRS ∧ cfg_dir paths ∈ CFG_DIRS ∧ (names = templates (rn_fs w) dir ∨ names = []) ∧
    substituted paths nat_mapping iface w subs ∧
    files_left [streams_d (cfg_dir paths)] subs bk dir (cfg_dir paths) names (rn_fs w) (rn_fs w') oks ∧
    (r = Ok (result_of paths names oks) ∧ rn_fs w' !! streams_d (cfg_dir paths) = Some Dir ∨ r = fail EOS).

End facts.

(** ** Examples *)
Section samples.
Definition q (s : string) : string := String quote2 (s ++ String quote2 "").
Definition nl (s : string) : string := (s ++ String "010" "")%string.

#[local] Instance sample_tools : ToolEnv := {|
  tool_answer := fun _ cmd => if String.eqb (List.hd ""%string cmd) "ip"
    then ToolExited 0 "default via 10.0.0.1 dev eth1 proto dhcp" "" else ToolMissing;
  device_exists := fun _ _ => false; is_char_device := fun _ _ => false; RESET_USB_UNIT := "" |}.

(** The [n]-th system call fails. *)
Definition failing_at (n : nat) : RenderEnv := {|
  render_fault := fun k => (k =? n)%nat; repo_templates := "/repo/deploy/janus/etc" |}.

Definition sample_template : string :=
  nl ("admin_secret = " ++ q "@JANUS_ADMIN_SECRET@") ++ nl ("ice_enforce_list = " ++ q "@ICE_ENFORCE_LIST@")
  ++ nl ("nat_1_1_mapping = " ++ q "@NAT_1_1_MAPPING@").

(** The configuration with the credentials a rotation wrote. *)
Definition sample_config : string :=
  nl ("turn_pwd = " ++ q "fresh") ++ nl ("nat_1_1_mapping = " ++ q "203.0.113.7").

Definition sample_render : Render := mkRender 0
  (list_to_map [("/etc/janus", Dir); ("/usr/lib/janus/plugins", Dir); ("/repo/deploy/janus/etc", Dir);
                ("/repo/deploy/janus/etc/janus.jcfg.template", Plain sample_template 420);
                ("/etc/janus/janus.jcfg", Plain sample_config 416)]%string)
  (mkSecrets (file_of (raw_text "JANUS_ADMIN_SECRET=key")) (file_of Absent) 0)
  (mkAdmin (mkToolRun 0 [] []) (mkAuditLog 0 None ∅)).

Definition run_sample (n : nat) (w : Render) : res RenderResult * Render :=
  render (R := failing_at n) None None true w.
Definition file_at (p : string) (w : Render) : option node := rn_fs w !! p.

Definition sample_rendered : string :=
  nl ("admin_secret = " ++ q "key") ++ nl ("ice_enforce_list = " ++ q "eth1")
  ++ nl ("nat_1_1_mapping = " ++ q "203.0.113.7").

(** The mapping is kept, the credentials that were rotated into the file are gone, and
    the backup of a file that only the group could read is readable by all. *)
Example render_sample :
  let '(r, w) := run_sample 100 sample_render in
  r = Ok (mkRenderResult ["/etc/janus/janus.jcfg"] []
            (mkJanusPaths "/etc/janus" "/usr/lib/janus/plugins" "/usr/lib/janus/transports"))%string ∧
  file_at "/etc/janus/janus.jcfg" w = Some (Plain sample_rendered 416) ∧
  file_at "/etc/janus/janus.jcfg.pre-render" w = Some (Plain sample_config 420) ∧
  file_at "/etc/janus/streams.d" w = Some Dir.
Proof. vm_compute. repeat split; reflexivity. Qed.

(** When the backup cannot be written it stays empty; the next rendering takes it for a
    backup and replaces the file. *)
Example backup_lost :
  let w1 := snd (run_sample 14 sample_render) in
  let w2 := snd (run_sample 100 w1) in
  file_at "/etc/janus/janus.jcfg" w1 = Some (Plain sample_config 416) ∧
  file_at "/etc/janus/janus.jcfg.pre-render" w2 = Some (Plain "" 420) ∧
  file_at "/etc/janus/janus.jcfg" w2 = Some (Plain sample_rendered 416).
Proof. vm_compute. repeat split; reflexivity. Qed.

(** A text that cannot be put in place stays in a file that all can read, secrets included. *)
Example text_left_behind :
  let w := snd (run_sample 17 sample_render) in
  file_at "/etc/janus/janus.jcfg" w = Some (Plain sample_config 416) ∧
  file_at "/etc/janus/janus.jcfg.tmp" w = Some (Plain sample_rendered 420).
Proof. vm_compute. repeat split; reflexivity. Qed.

End samples.
