(* ===== verification/AdminConfig.v ===== *)
(** * The administration of secrets and of the Janus configuration

    The routes of [app/routes/admin_config.py] with their use cases
    [app/application/config_apply.py] and [config_view.py]: reading, revealing, rotating
    and setting secrets, the address mapping, and applying the configuration, which
    renders it ([JcfgRender]) and restarts the services through the privileged tool
    ([AdminActions]). The gates in front of the routes are those of [Access]. Arguments are
    ASCII. The probe of the public address and the texts of exceptions are not modelled. *)
From Stdlib Require Import Ascii.
From S2P Require Import Prelude.
From S2P Require Import Hoare.
From S2P Require Import PyVal.
From S2P Require Import PyStr.
From S2P Require Import FileStore.
From S2P Require Import RuntimeEnv.
From S2P Require Import SecretStore.
From S2P Require Import NodeTransport.
From S2P Require Import AuditLog.
From S2P Require Import HostTools.
From S2P Require Import AdminActions.
From S2P Require Import JcfgRender.

Record ApplyResponse := mkApplyResponse {
  ap_rendered : list string; ap_janus_restarted : bool; ap_relay_restarted : bool; ap_errors : list string;
}.

Record SecretSnapshot := mkSecretSnapshot { sn_value : MaskedValue; sn_rotated_human : option string }.

Record ConfigSnapshot := mkConfigSnapshot {
  cs_secrets : list SecretSnapshot; cs_cfg_dir : option string; cs_nat_mapping : option string;
  cs_ice_enforce_list : string; cs_janus_active : bool; cs_relay_active : bool; cs_template_dir : option string;
}.

Inductive config_request :=
  | GetSnapshot
  | RevealSecret (key confirm : string)
  | RotateSecret (key : string)
  | SetConfigField (key value : string)
  | SetNatMapping (ip : string)
  | ApplyConfig (restart_janus restart_relay : bool).

Inductive config_reply :=
  | SnapshotReply (s : ConfigSnapshot)
  | RevealReply (key value : string) (last_rotated_ts : option Z)
  | RotateReply (key new_value : string) (rotated_at_ts : Z)
  | SetReply (key : string)
  | NatReply (rendered_files : list string) (ip : string)
  | ApplyReply (a : ApplyResponse).

(** [_humanize_age], at a time. *)
Definition humanize_age (now ts : Z) : string :=
  let delta := Z.max 0 (now - ts) in
  let ago (n : Z) (u : string) := (pretty n ++ u)%string in
  if delta <? 60 then ago delta "s ago"
  else if delta <? 3600 then ago (delta / 60) "m ago"
  else if delta <? 86400 then ago (delta / 3600) "h ago"
  else ago (delta / 86400) "d ago".

(** The pattern of a key: a capital letter, then capital letters, digits and underscores. *)
Definition key_pattern (key : string) : bool :=
  match chars key with
  | c :: l => in_range 65 90 c && forallb (fun c => in_range 65 90 c || in_range 48 57 c || Ascii.eqb c "_") l
  | [] => false
  end.

Definition ipv4 (ip : string) : bool :=
  let parts := split "." ip in
  (length parts =? 4)%nat
  && forallb (fun p => isdigit p && match parse_int p with Some z => (0 <=? z) && (z <=? 255) | None => false end) parts.

Section config.
Context {T : ToolEnv} {A : AuditEnv} {E : AdminEnv} {R : RenderEnv} {V : Vault}.

Definition audit_config (action : string) (details : dict json) : M Render unit :=
  on_admin (audit_admin action details).

(** ** [config_apply.py] *)
Definition restart_ok (unit : string) : M Render bool :=
  try_except ('(rc, _) ← on_admin (restart_unit unit); mret (rc =? 0)) CRuntimeError (fun _ => mret false).

Definition skip_errors (skipped : list string) : list string :=
  match skipped with [] => [] | l => [("Skipped templates: " ++ join ", " l)%string] end.

Definition apply_errors (restart_janus restart_relay janus_ok relay_ok : bool) (skipped : list string) : list string :=
  skip_errors skipped
  ++ (if restart_janus && negb janus_ok then ["janus restart failed — see journalctl -u janus"%string] else [])
  ++ (if restart_relay && negb relay_ok then ["relay restart failed (or not installed)"%string] else []).

Definition config_apply (restart_janus restart_relay : bool) : M Render ApplyResponse :=
  result ← try_except (render None None true) CRuntimeError (fun e =>
    audit_config "admin_config.apply.render_failed" [("error"%string, JStr (ex_msg e))] ;;
    raise (Exn (EUseCase ConfigRenderFailed) ("render failed: " ++ ex_msg e)));
  janus_ok ← (if restart_janus then restart_ok "janus" else mret false);
  relay_ok ← (if restart_relay then
                ok ← restart_ok "janus-textroom-relay";
                if (ok : bool) then mret true else restart_ok "janus_camera_page_hook"
              else mret false);
  let errors := apply_errors restart_janus restart_relay janus_ok relay_ok (rr_skipped result) in
  audit_config "admin_config.apply"
    [("rendered", JInt (Z.of_nat (length (rr_rendered result)))); ("janus_restarted", JBool janus_ok);
     ("relay_restarted", JBool relay_ok); ("errors", JArr (map JStr errors))]%string ;;
  mret (mkApplyResponse (rr_rendered result) janus_ok relay_ok errors).

(** ** [config_view.py] *)

(** [systemctl_action], [is_active] of [systemd.py] *)
Definition systemctl_action (action unit : string) : M Render bool :=
  '(rc, _) ← ask ["systemctl"; action; unit]%string; mret (rc =? 0).
Definition is_active (unit : string) : M Render bool := systemctl_action "is-active" unit.
Definition either_active (u1 u2 : string) : M Render bool :=
  a ← is_active u1; if (a : bool) then mret true else is_active u2.

Definition secret_snapshot (v : MaskedValue) : M Render SecretSnapshot :=
  match mv_last_rotated_ts v with
  | None => mret (mkSecretSnapshot v None)
  | Some ts => n ← on_secrets tick; mret (mkSecretSnapshot v (Some (humanize_age (epoch n) ts)))
  end.

Fixpoint secret_snapshots (vs : list MaskedValue) : M Render (list SecretSnapshot) :=
  match vs with
  | [] => mret []
  | v :: rest => s ← secret_snapshot v; ss ← secret_snapshots rest; mret (s :: ss)
  end.

Definition config_snapshot : M Render ConfigSnapshot :=
  snap ← on_secrets SecretStore.snapshot;
  secrets_list ← secret_snapshots (map snd (sort_items snap));
  paths ← detect_janus_paths;
  tpl_dir ← detect_template_dir;
  nat ← match paths with
        | Some p => try_except (n ← read_current_nat_mapping (in_dir (cfg_dir p) "janus.jcfg"); mret (Some n))
                      CException (fun _ => mret None)
        | None => mret None
        end;
  iface ← detect_primary_iface;
  janus_active ← either_active "janus" "janus.service";
  relay_active ← either_active "janus-textroom-relay" "janus_camera_page_hook";
  mret (mkConfigSnapshot secrets_list (cfg_dir <$> paths) nat iface janus_active relay_active tpl_dir).

(** ** The routes *)
Definition reveal_secret (key confirm : string) : M Render config_reply :=
  if (128 <? String.length confirm)%nat then throw (EHttp 422)
  else if negb (mem_str key SENSITIVE_KEYS) then throw (EHttp 400)
  else if negb (String.eqb confirm ("reveal-" ++ key)) then
    audit_config "admin_config.reveal.bad_confirm"
      [("key", JStr key); ("got_prefix", JStr (String.substring 0 16 confirm))]%string ;;
    throw (EHttp 400)
  else
    value ← on_secrets (SecretStore.reveal key);
    match value with
    | None => throw (EHttp 404)
    | Some value =>
        audit_config "admin_config.reveal" [("key"%string, JStr key)] ;;
        snap ← on_secrets SecretStore.snapshot;
        mret (RevealReply key value (v ← dget snap key; mv_last_rotated_ts v))
    end.

Definition rotate_secret (key : string) : M Render config_reply :=
  if negb (mem_str key SENSITIVE_KEYS) then throw (EHttp 400)
  else
    new_value ← try_except (on_secrets (SecretStore.rotate key)) COSError (fun _ => throw (EHttp 500));
    n ← on_secrets tick;
    let ts := epoch n in
    audit_config "admin_config.rotate" [("key", JStr key); ("ts", JInt ts)]%string ;;
    mret (RotateReply key new_value ts).

Definition set_config_field (key value : string) : M Render config_reply :=
  if negb (key_pattern key) || (512 <? String.length value)%nat then throw (EHttp 422)
  else
    try_except2 (on_secrets (SecretStore.set_field key value))
      CValueError (fun _ => throw (EHttp 400)) COSError (fun _ => throw (EHttp 500)) ;;
    audit_config "admin_config.set" [("key", JStr key); ("value", JStr (String.substring 0 64 value))]%string ;;
    mret (SetReply key).

Definition set_nat_mapping (ip : string) : M Render config_reply :=
  if (64 <? String.length ip)%nat then throw (EHttp 422)
  else if negb (ipv4 ip) then throw (EHttp 400)
  else
    result ← try_except (render (Some ip) None true) CRuntimeError (fun _ => throw (EHttp 500));
    audit_config "admin_config.set_nat" [("ip", JStr ip); ("rendered", JInt (Z.of_nat (length (rr_rendered result))))]%string ;;
    mret (NatReply (rr_rendered result) ip).

Definition apply_config (restart_janus restart_relay : bool) : M Render config_reply :=
  a ← try_except (config_apply restart_janus restart_relay) CUseCase (fun _ => throw (EHttp 500));
  mret (ApplyReply a).

Definition run_config (req : config_request) : M Render config_reply :=
  match req with
  | GetSnapshot => s ← config_snapshot; mret (SnapshotReply s)
  | RevealSecret key confirm => reveal_secret key confirm
  | RotateSecret key => rotate_secret key
  | SetConfigField key value => set_config_field key value
  | SetNatMapping ip => set_nat_mapping ip
  | ApplyConfig rj rr => apply_config rj rr
  end.
End config.

Example ipv4_ex : map ipv4 ["203.0.113.7"; "256.0.0.1"; "1.2.3"; "1.2.3.4.5"; "1..2.3"; "a.b.c.d"]%string
  = [true; false; false; false; false; false].
Proof. reflexivity. Qed.

Example humanize_ex : map (humanize_age 100000) [99990; 99000; 90000; 200000; 1000]
  = ["10s ago"; "16m ago"; "2h ago"; "0s ago"; "1d ago"]%string.
Proof. reflexivity. Qed.

(** ** What a request may do *)
Section confined.
Context {T : ToolEnv} {A : AuditEnv} {E : AdminEnv} {R : RenderEnv} {V : Vault}.

Definition ran (w : Render) : list (list string) := tl_ran (ad_tools (rn_admin w)).
Definition log_of (w : Render) : list text := chain (ad_audit (rn_admin w)).

(** The programs that only answer. *)
Definition question (cmd : list string) : bool :=
  match cmd with
  | [p; v; _] => (String.eqb p "systemctl" && String.eqb v "is-active")
                 || String.eqb p "ip" || String.eqb p "find" || String.eqb p "dpkg-architecture"
  | p :: _ => String.eqb p "ip" || String.eqb p "find" || String.eqb p "dpkg-architecture"
  | [] => false
  end%string.

(** Questions are asked; the files and the secrets change only where it is allowed. *)
Definition reach (files secrets : bool) (w w' : Render) : Prop :=
  (files = false → rn_fs w' = rn_fs w) ∧
  (secrets = false → same_secrets (rn_secrets w) (rn_secrets w')) ∧
  ∃ cmds, ran w' = ran w ++ cmds ∧ forallb question cmds = true.

#[export] Instance reach_preorder f s : PreOrder (reach f s).
Proof.
  split; [intros w; split_and!; [done|done|]; exists []; by rewrite app_nil_r|].
  intros w1 w2 w3 (F1 & S1 & c1 & R1 & Q1) (F2 & S2 & c2 & R2 & Q2). split_and!.
  - intros H. by rewrite F2, F1.
  - intros H. destruct (S1 H), (S2 H). split; congruence.
  - exists (c1 ++ c2). by rewrite R2, R1, app_assoc, forallb_app, Q1, Q2.
Qed.

(** The same, and nothing is logged. *)
Definition silent (files secrets : bool) (w w' : Render) : Prop := reach files secrets w w' ∧ log_of w' = log_of w.

#[export] Instance silent_preorder f s : PreOrder (silent f s).
Proof. split; [by split|]. intros w1 w2 w3 [? ?] [? ?]. split; [by etrans|congruence]. Qed.

Lemma silent_weaken f s f' s' w w' : (f = true → f' = true) → (s = true → s' = true) → silent f s w w' → silent f' s' w w'.
Proof.
  intros Hf Hs [(F & S & C) L]. split; [|done]. split_and!; [| |done].
  - intros ->. apply F. destruct f; [by destruct Hf|done].
  - intros ->. apply S. destruct s; [by destruct Hs|done].
Qed.

Lemma silent_tick f s : preserves (silent f s) render_tick.
Proof. intros w. split; [|done]. split_and!; [done|done|]. exists []. by rewrite app_nil_r. Qed.

Lemma silent_on_fs s g : preserves (silent true s) (on_fs g).
Proof. intros w. split; [|done]. split_and!; [done|done|]. exists []. by rewrite app_nil_r. Qed.

Lemma silent_ask f s cmd : question cmd = true → preserves (silent f s) (ask cmd).
Proof.
  intros Hq w. unfold ask, on_admin, on_tools, zoom, tool_run, tool_tick, mbind, M_bind. simpl.
  assert (H : ∀ k out p, silent f s w (mkRender (rn_tick w) (rn_fs w) (rn_secrets w)
      (mkAdmin (mkToolRun k (ran w ++ [cmd]) p) (ad_audit (rn_admin w)))) ∧ out = out :> unit).
  { intros k out p. split; [|done]. split; [|done]. split_and!; [done|done|]. exists [cmd]. simpl. by rewrite Hq. }
  destruct (tool_answer _ _); simpl; by apply (H _ tt).
Qed.

Lemma silent_secrets {X} f (m : M Secrets X) : preserves same_secrets m → preserves (silent f false) (on_secrets m).
Proof.
  intros Hm w. specialize (Hm (rn_secrets w)). unfold on_secrets, zoom. destruct (m _) as [r s]. split; [|done].
  split_and!; [done|done|]. exists []. by rewrite app_nil_r.
Qed.

Lemma silent_rotates {X} f (m : M Secrets X) : preserves (silent f true) (on_secrets m).
Proof.
  intros w. unfold on_secrets, zoom. destruct (m _) as [r s]. split; [|done].
  split_and!; [done|done|]. exists []. by rewrite app_nil_r.
Qed.

Lemma load_same : preserves same_secrets load.
Proof.
  intros w. destruct (load w) as [r w'] eqn:Hl. simpl. apply load_inv in Hl as [(v & _ & -> & _)|(_ & H & _)]; done.
Qed.
Lemma times_same : preserves same_secrets load_timestamps.
Proof. intros w. destruct (load_timestamps w) as [r w'] eqn:Hl. by apply load_times_inv in Hl as ->. Qed.

#[export] Instance same_secrets_preorder : PreOrder same_secrets.
Proof. split; [done|]. intros w1 w2 w3 [? ?] [? ?]. split; congruence. Qed.

Lemma snapshot_same : preserves same_secrets SecretStore.snapshot.
Proof. unfold SecretStore.snapshot. pose proof load_same. pose proof times_same. pres. Qed.
Lemma reveal_same key : preserves same_secrets (SecretStore.reveal key).
Proof. unfold SecretStore.reveal. pose proof load_same. pres. Qed.
Lemma tick_same : preserves same_secrets tick.
Proof. by intros w. Qed.

(** Rendering and reading ask questions only. *)
Lemma silent_render n i b : preserves (silent true false) (render n i b).
Proof.
  pose proof (silent_tick true false). pose proof (silent_on_fs false). pose proof (silent_ask true false).
  pose proof (silent_secrets true load load_same).
  assert (Hsys : preserves (silent true false) rsys) by (unfold rsys; pres).
  assert (Hdir : ∀ p, preserves (silent true false) (is_dir p)) by (intros; unfold is_dir; pres).
  assert (Hex : ∀ p, preserves (silent true false) (path_exists p)) by (intros; unfold path_exists; pres).
  assert (Hrd : ∀ p, preserves (silent true false) (read_bytes p)) by (intros; unfold read_bytes; pres).
  assert (Hwr : ∀ p b, preserves (silent true false) (write_bytes p b)) by (intros; unfold write_bytes; pres).
  assert (Hls : ∀ p, preserves (silent true false) (list_templates p)) by (intros; unfold list_templates; pres).
  assert (Hone : ∀ t d s b, preserves (silent true false) (render_one t d s b)).
  { intros. unfold render_one, back_up, put_text, chmod, rename. pres. }
  assert (Hall : ∀ d c l s b, preserves (silent true false) (render_all d c l s b)).
  { intros d c l s b'. induction l; simpl; pres. }
  assert (Hpl : ∀ l, preserves (silent true false) (with_plugins l)) by (induction l; simpl; pres).
  assert (Htp : ∀ l, preserves (silent true false) (with_templates l)) by (induction l; simpl; pres).
  assert (Hask : ∀ cmd, question cmd = true → preserves (silent true false) (ask cmd)) by auto.
  unfold render, detect_janus_paths, detect_template_dir, build_substitutions, render_files, detect_primary_iface,
    read_current_nat_mapping, mkdir. pres.
  all: by apply Hask.
Qed.

(** At most one line is logged, of the action and the details that are allowed. *)
Definition logs (P : string → dict json → Prop) (w w' : Render) : Prop :=
  ∃ lines, log_of w' `suffix_of` log_of w ++ lines ∧
    (lines = [] ∨ ∃ ts action details, P action details ∧
       lines = [TxDoc (audit_doc ts action action (inferred_outcome action) None None None details)]).

Lemma silent_logs f s P w w' : silent f s w w' → logs P w w'.
Proof. intros [_ H]. exists []. rewrite app_nil_r, H. split; [done|by left]. Qed.

Lemma logs_silent f s f' s' P w1 w2 w3 w4 :
  silent f s w1 w2 → logs P w2 w3 → silent f' s' w3 w4 → logs P w1 w4.
Proof. intros [_ H1] (lines & Hs & Hl) [_ H2]. exists lines. by rewrite H2, <- H1. Qed.

Definition only_logs (P : string → dict json → Prop) (w w' : Render) : Prop :=
  rn_fs w' = rn_fs w ∧ rn_secrets w' = rn_secrets w ∧ ran w' = ran w ∧ logs P w w'.

Lemma wp_audit_config action details (P : string → dict json → Prop) (Q : res unit → Render → Prop) w :
  P action details → (∀ w', only_logs P w w' → Q (Ok tt) w') → wp (audit_config action details) Q w.
Proof.
  intros HP H. unfold audit_config, on_admin, audit_admin. apply wp_zoom, wp_zoom. unfold audit.
  eapply wp_mono; [apply wp_emit|]. intros r l [-> (ts & lines & Hs & Hl & _)]. apply H. split_and!; [done..|].
  exists lines. split; [done|]. destruct Hl as [-> | ->]; [right|by left]. by exists ts, action, details.
Qed.

(** *** Restarts *)
Definition restart_cmd (u : string) : list string := ["systemctl"; "restart"; u]%string.

(** Nothing but programs. *)
Definition only_ran (cmds : list (list string)) (w w' : Render) : Prop :=
  rn_fs w' = rn_fs w ∧ rn_secrets w' = rn_secrets w ∧ log_of w' = log_of w ∧ ran w' = ran w ++ cmds.

Lemma only_ran_nil w : only_ran [] w w.
Proof. split_and!; [done..|]. by rewrite app_nil_r. Qed.

Lemma only_ran_app c1 c2 w1 w2 w3 : only_ran c1 w1 w2 → only_ran c2 w2 w3 → only_ran (c1 ++ c2) w1 w3.
Proof. intros (? & ? & ? & R1) (? & ? & ? & R2). split_and!; [congruence..|]. by rewrite R2, R1, app_assoc. Qed.

Definition ran_if (b : bool) (u : string) : list (list string) := if b then [restart_cmd u] else [].

Lemma sudo_keeps_audit c : preserves (keeps ad_audit) (sudo_tool c).
Proof.
  assert (H : ∀ X (m : M ToolRun X), preserves (keeps ad_audit) (on_tools m)).
  { intros X m a. unfold on_tools, zoom. by destruct (m _). }
  unfold sudo_tool. pres.
Qed.

Lemma restart_ok_spec u w :
  String.eqb (canon u) SELF_UNIT = false → mem_str (canon u) ALLOWED_UNITS = true →
  wp (restart_ok u) (λ r w', ∃ ok acted, r = Ok ok ∧ only_ran (ran_if acted u) w w' ∧
        (ok = true → acted = true ∧ answered (restart_cmd u))) w.
Proof.
  intros Hs Hm. unfold restart_ok. apply wp_try, wp_bind, wp_zoom. unfold restart_unit.
  eapply wp_mono; [apply wp_and; [apply (wp_sudo (restart_cmd u)); intros t; by apply service_tool_ran
                                 |apply wp_preserves, sudo_keeps_audit]|].
  intros r a [(acted & Hr & H) Hk]. unfold keeps in Hk.
  assert (Ho : only_ran (ran_if acted u) w (mkRender (rn_tick w) (rn_fs w) (rn_secrets w) a)).
  { split_and!; [done..| |exact Hr]. unfold log_of. simpl. by rewrite Hk. }
  unfold then_. destruct r as [[rc err]|e].
  - wp_steps. exists (rc =? 0), acted. split_and!; [done..|]. intros Hz. apply H. lia.
  - subst e. unfold or_catch. cbn [ex_kind instance_of]. wp_steps. by exists false, acted.
Qed.

(** What applying the configuration does after the rendering. *)
Definition restarts_of (rj rr : bool) (a : ApplyResponse) (cmds : list (list string)) : Prop :=
  ∃ j r h : bool, cmds = ran_if j "janus" ++ ran_if r "janus-textroom-relay" ++ ran_if h "janus_camera_page_hook" ∧
    (rj = false → j = false) ∧ (rr = false → r = false ∧ h = false) ∧
    (ap_janus_restarted a = true → j = true ∧ answered (restart_cmd "janus")) ∧
    (ap_relay_restarted a = true → r = true ∧ answered (restart_cmd "janus-textroom-relay") ∨
                                   h = true ∧ answered (restart_cmd "janus_camera_page_hook")).

(** It reports no error exactly when everything that was asked for is done. *)
Definition errors_of (rj rr : bool) (skipped : list string) (a : ApplyResponse) : Prop :=
  ap_errors a = [] ↔ skipped = [] ∧ ap_janus_restarted a = rj ∧ ap_relay_restarted a = rr.

Definition applied (rj rr : bool) (w : Render) (r : res ApplyResponse) (w' : Render) : Prop :=
  ∃ w1, rn_fs w' = rn_fs w1 ∧ rn_secrets w' = rn_secrets w1 ∧
    match r with
    | Ok a => ∃ result cmds, render None None true w = (Ok result, w1) ∧ ap_rendered a = rr_rendered result ∧
                ran w' = ran w1 ++ cmds ∧ restarts_of rj rr a cmds ∧ errors_of rj rr (rr_skipped result) a
    | Raise _ => ∃ e, render None None true w = (Raise e, w1) ∧ ran w' = ran w1
    end.

(** The line of an apply: the message of the failure, or counts, flags and the names of
    templates. *)
Definition apply_logged (rj rr : bool) (action : string) (details : dict json) : Prop :=
  action = "admin_config.apply.render_failed"%string ∧ (∃ msg, details = [("error"%string, JStr msg)]) ∨
  action = "admin_config.apply"%string ∧ ∃ n j r skipped, details =
    [("rendered", JInt n); ("janus_restarted", JBool j); ("relay_restarted", JBool r);
     ("errors", JArr (map JStr (apply_errors rj rr j r skipped)))]%string.

Lemma relay_spec (rr : bool) w :
  wp (if rr then ok ← restart_ok "janus-textroom-relay";
                 if (ok : bool) then mret true else restart_ok "janus_camera_page_hook"
      else mret false)
    (λ x w', ∃ (ok r h : bool), x = Ok ok ∧
       only_ran (ran_if r "janus-textroom-relay" ++ ran_if h "janus_camera_page_hook") w w' ∧
       (rr = false → ok = false ∧ r = false ∧ h = false) ∧
       (ok = true → r = true ∧ answered (restart_cmd "janus-textroom-relay") ∨
                    h = true ∧ answered (restart_cmd "janus_camera_page_hook"))) w.
Proof.
  destruct rr; [|wp_steps; exists false, false, false; split_and!; [done|apply only_ran_nil|done|done]].
  wp_call restart_ok_spec; [done|done|]. intros x w1 (ok & r & -> & H1 & Hok). unfold then_. destruct ok.
  - wp_steps. exists true, r, false. split_and!; [done| |done|by left; apply Hok].
    rewrite app_nil_r. exact H1.
  - wp_call restart_ok_spec; [done|done|]. intros x w2 (ok & h & -> & H2 & Hok2). exists ok, r, h.
    split_and!; [done|by eapply only_ran_app|done|]. intros ->. right. by apply Hok2.
Qed.

Lemma config_apply_spec rj rr w :
  wp (config_apply rj rr) (λ r w', applied rj rr w r w' ∧ logs (apply_logged rj rr) w w') w.
Proof.
  unfold config_apply. apply wp_bind, wp_try, wp_intro. intros x w1 Hr.
  pose proof (silent_render None None true w) as Hq. rewrite Hr in Hq. cbn [snd] in Hq.
  unfold or_catch, then_. destruct x as [result|e].
  2:{ assert (Hnone : ∀ w2 e', rn_fs w2 = rn_fs w1 → rn_secrets w2 = rn_secrets w1 → ran w2 = ran w1 →
        applied rj rr w (Raise e') w2) by (intros w2 e' ? ? ?; exists w1; split_and!; [done..|by exists e]).
      destruct (instance_of (ex_kind e) CRuntimeError); [|split; [by apply Hnone|by eapply silent_logs]].
      apply wp_bind, (wp_audit_config _ _ (apply_logged rj rr)); [left; split; [done|]; by eexists|]. intros w2 (F & S & C & L). wp_steps.
      split; [by apply Hnone|]. eapply (logs_silent true false true false); [exact Hq|exact L|reflexivity]. }
  apply wp_bind. eapply (wp_mono _ (λ x w2, ∃ (ok j : bool), x = Ok ok ∧ only_ran (ran_if j "janus") w1 w2 ∧
    (rj = false → ok = false ∧ j = false) ∧ (ok = true → j = true ∧ answered (restart_cmd "janus")))).
  { destruct rj; [|wp_steps; exists false, false; split_and!; [done|apply only_ran_nil|done|done]].
    eapply wp_mono; [by apply restart_ok_spec|]. intros x w2 (ok & j & -> & H). exists ok, j. naive_solver. }
  intros x w2 (jok & j & -> & H2 & Hj0 & Hj). unfold then_.
  apply wp_bind. eapply wp_mono; [apply relay_spec|]. intros x w3 (rok & r & h & -> & H3 & Hr0 & Hrok). unfold then_.
  pose proof (only_ran_app _ _ _ _ _ H2 H3) as (F3 & S3 & L3 & C3).
  apply wp_bind, (wp_audit_config _ _ (apply_logged rj rr)); [right; split; [done|]; by eexists _, _, _, _|]. intros w4 (F4 & S4 & C4 & Hl). wp_steps. split.
  - exists w1. split; [congruence|]. split; [congruence|]. exists result, (ran_if j "janus" ++ ran_if r "janus-textroom-relay" ++ ran_if h "janus_camera_page_hook").
    split_and!; [done|done|by rewrite C4, C3| |].
    + exists j, r, h. split_and!; [done|by intros H; apply Hj0|by intros H; apply Hr0|done|done].
    + unfold errors_of, apply_errors. simpl. rewrite !app_nil. unfold skip_errors.
      destruct (rr_skipped result), rj, jok, rr, rok; simpl; naive_solver.
  - eapply (logs_silent true false true false); [exact Hq| |reflexivity].
    destruct Hl as (lines & Hs & Hl). exists lines. by rewrite <- L3.
Qed.

(** *** Every request *)
Definition request_logged (req : config_request) (action : string) (details : dict json) : Prop :=
  match req with
  | GetSnapshot => False
  | RevealSecret key confirm =>
      action = "admin_config.reveal"%string ∧ details = [("key"%string, JStr key)] ∨
      action = "admin_config.reveal.bad_confirm"%string ∧
      details = [("key", JStr key); ("got_prefix", JStr (String.substring 0 16 confirm))]%string
  | RotateSecret key =>
      action = "admin_config.rotate"%string ∧ ∃ ts, details = [("key", JStr key); ("ts", JInt ts)]%string
  | SetConfigField key value =>
      action = "admin_config.set"%string ∧ (key ∉ SENSITIVE_KEYS) ∧
      details = [("key", JStr key); ("value", JStr (String.substring 0 64 value))]%string
  | SetNatMapping ip =>
      action = "admin_config.set_nat"%string ∧ ∃ n, details = [("ip", JStr ip); ("rendered", JInt n)]%string
  | ApplyConfig rj rr => apply_logged rj rr action details
  end.

Definition writes_files (req : config_request) : bool :=
  match req with SetNatMapping _ | ApplyConfig _ _ => true | _ => false end.
Definition writes_secrets (req : config_request) : bool :=
  match req with
  | RotateSecret key => mem_str key SENSITIVE_KEYS
  | SetConfigField key _ => negb (mem_str key SENSITIVE_KEYS) && key_pattern key
  | _ => false
  end.

Definition RESTARTED : list string := ["janus"; "janus-textroom-relay"; "janus_camera_page_hook"]%string.
Definition permitted (req : config_request) (cmd : list string) : Prop :=
  question cmd = true ∨ ∃ rj rr u, req = ApplyConfig rj rr ∧ u ∈ RESTARTED ∧ cmd = restart_cmd u.

(** Drawn values are hexadecimal or base64url digits. *)
Definition tokens_plain : Prop := ∀ n, plain (token_urlsafe32 n) = true ∧ plain (token_hex32 n) = true.

(** What an answer means. *)
Definition kept_promise (req : config_request) (w : Render) (r : res config_reply) (w' : Render) : Prop :=
  match req with
  | ApplyConfig rj rr =>
      ∃ outcome, applied rj rr w outcome w' ∧ is_ok outcome = is_ok r ∧
        ∀ reply, r = Ok reply → ∃ a, outcome = Ok a ∧ reply = ApplyReply a
  | _ =>
      ∀ reply, r = Ok reply →
        match req with
        | RevealSecret key confirm => ∃ value ts values,
            reply = RevealReply key value ts ∧ key ∈ SENSITIVE_KEYS ∧ confirm = ("reveal-" ++ key)%string ∧
            (load (rn_secrets w)).1 = Ok values ∧ dget values key = Some value
        | RotateSecret key => ∃ value ts,
            reply = RotateReply key value ts ∧ (tokens_plain → one_set key value (rn_secrets w) (rn_secrets w'))
        | SetConfigField key value =>
            reply = SetReply key ∧ (key ∉ SENSITIVE_KEYS) ∧
            (plain value = true → one_set key value (rn_secrets w) (rn_secrets w'))
        | SetNatMapping ip => ∃ result w1,
            reply = NatReply (rr_rendered result) ip ∧ ipv4 ip = true ∧
            render (Some ip) None true w = (Ok result, w1) ∧ rn_fs w' = rn_fs w1
        | _ => True
        end
  end.

Definition request_spec (req : config_request) (w : Render) (r : res config_reply) (w' : Render) : Prop :=
  logs (request_logged req) w w' ∧
  (writes_files req = false → rn_fs w' = rn_fs w) ∧
  (writes_secrets req = false → same_secrets (rn_secrets w) (rn_secrets w')) ∧
  (∃ cmds, ran w' = ran w ++ cmds ∧ Forall (permitted req) cmds) ∧
  kept_promise req w r w'.

Lemma reach_spec req w r w' :
  logs (request_logged req) w w' → reach (writes_files req) (writes_secrets req) w w' → kept_promise req w r w' →
  request_spec req w r w'.
Proof.
  intros Hl (F & S & cmds & C & Hq) Hk. split_and!; [done..| |done]. exists cmds. split; [done|].
  apply Forall_forall. intros c Hc. left. rewrite forallb_forall in Hq. by apply Hq, list_elem_of_In.
Qed.

Lemma silent_spec req w r w' :
  silent (writes_files req) (writes_secrets req) w w' → kept_promise req w r w' → request_spec req w r w'.
Proof. intros Hs. apply reach_spec; [by eapply silent_logs|by destruct Hs]. Qed.

Lemma refused_spec req k w :
  (∀ rj rr, req ≠ ApplyConfig rj rr) → request_spec req w (Raise (Exn k "")) w.
Proof. intros Hr. apply silent_spec; [done|]. by destruct req; [..|by destruct (Hr restart_janus restart_relay)]. Qed.

Lemma only_logs_reach P f s w w' : only_logs P w w' → reach f s w w'.
Proof. intros (F & S & C & _). split_and!; [done|by rewrite S|]. exists []. by rewrite app_nil_r. Qed.

Lemma pattern_char c :
  in_range 65 90 c || in_range 48 57 c || Ascii.eqb c "_" = true →
  is_key_char c = true ∧ is_line_break c = false ∧ in_range 0 127 c = true.
Proof. by destruct c as [[] [] [] [] [] [] [] []]; vm_compute. Qed.

Lemma pattern_key key : key_pattern key = true → good_key key = true.
Proof.
  unfold key_pattern. intros Hp.
  assert (Hall : ∀ c, c ∈ chars key → is_key_char c = true ∧ is_line_break c = false ∧ in_range 0 127 c = true).
  { intros c Hc. apply pattern_char. destruct (chars key) as [|c0 l]; [by apply elem_of_nil in Hc|].
    apply andb_true_iff in Hp as [H0 Hl]. apply elem_of_cons in Hc as [->|Hc]; [by rewrite H0|].
    rewrite forallb_forall in Hl. by apply Hl, list_elem_of_In. }
  assert (Hid : ident key = true).
  { unfold ident. destruct (chars key) as [|c0 l]; [done|]. apply andb_true_iff in Hp as [H0 _]. apply andb_true_iff. split.
    - unfold is_key_head, in_range in *. by rewrite H0.
    - apply forallb_forall. intros c Hc. apply Hall. by apply list_elem_of_In. }
  apply ident_chars in Hid as (Hs & Hstrip & Hh & _). unfold good_key, key_ok. rewrite Hstrip, String.eqb_refl, Hh.
  rewrite !andb_true_r. apply andb_true_iff. split.
  - apply forallb_forall. intros c Hc%list_elem_of_In. destruct (Hall c Hc) as (_ & -> & _).
    rewrite Forall_forall in Hs. by destruct (Hs c Hc) as [_ ->].
  - apply is_ascii_spec. intros c Hc. by apply Hall.
Qed.

Lemma silent_snapshot : preserves (silent false false) config_snapshot.
Proof.
  pose proof (silent_tick false false). pose proof (silent_secrets false _ snapshot_same).
  pose proof (silent_secrets false tick tick_same).
  assert (Hsys : preserves (silent false false) rsys) by (unfold rsys; pres).
  assert (Hdir : ∀ p, preserves (silent false false) (is_dir p)) by (intros; unfold is_dir; pres).
  assert (Hex : ∀ p, preserves (silent false false) (path_exists p)) by (intros; unfold path_exists; pres).
  assert (Hrd : ∀ p, preserves (silent false false) (read_bytes p)) by (intros; unfold read_bytes; pres).
  assert (Hls : ∀ p, preserves (silent false false) (list_templates p)) by (intros; unfold list_templates; pres).
  assert (Hpl : ∀ l, preserves (silent false false) (with_plugins l)) by (induction l; simpl; pres).
  assert (Htp : ∀ l, preserves (silent false false) (with_templates l)) by (induction l; simpl; pres).
  assert (Hask : ∀ cmd, question cmd = true → preserves (silent false false) (ask cmd)) by (intros; by apply silent_ask).
  assert (Hss : ∀ vs, preserves (silent false false) (secret_snapshots vs)).
  { induction vs; simpl; [pres|]. unfold secret_snapshot. pres. }
  unfold config_snapshot, detect_janus_paths, detect_template_dir, detect_primary_iface, read_current_nat_mapping,
    either_active, is_active, systemctl_action. pres.
  all: by apply Hask.
Qed.

Lemma wp_secrets {X} (m : M Secrets X) (Q : res X → Render → Prop) w :
  (∀ r s, m (rn_secrets w) = (r, s) → Q r (mkRender (rn_tick w) (rn_fs w) s (rn_admin w))) → wp (on_secrets m) Q w.
Proof. intros H. apply wp_zoom, wp_intro. exact H. Qed.

Lemma reveal_spec key confirm w :
  wp (reveal_secret key confirm) (request_spec (RevealSecret key confirm) w) w.
Proof.
  unfold reveal_secret. destruct (_ <? _)%nat; [wp_steps; by apply refused_spec|].
  destruct (mem_str key SENSITIVE_KEYS) eqn:Hm; simpl negb; cbn iota; [|wp_steps; by apply refused_spec].
  destruct (String.eqb confirm _) eqn:Hc; simpl negb; cbn iota.
  - apply wp_bind, wp_intro. intros r w1 Hr.
    pose proof (silent_secrets false _ (reveal_same key) w) as Hs. rewrite Hr in Hs. cbn [snd] in Hs.
    unfold then_. destruct r as [[value|]|e]; [|wp_steps; by apply silent_spec..|by apply silent_spec].
    apply wp_bind, (wp_audit_config _ _ (request_logged (RevealSecret key confirm))); [by left|]. intros w2 Hl. unfold then_.
    apply wp_bind. eapply wp_frame; [apply (silent_secrets false), snapshot_same|]. intros r w3 Hs3.
    assert (Hspec : ∀ r', kept_promise (RevealSecret key confirm) w r' w3 → request_spec (RevealSecret key confirm) w r' w3).
    { intros r' Hk. apply reach_spec; [|destruct Hs, Hs3; etrans; [done|]; etrans; [by eapply only_logs_reach|done]|done].
      by eapply logs_silent; [exact Hs|apply Hl|exact Hs3]. }
    destruct r as [snap|e]; unfold then_; [wp_steps|]; apply Hspec; [|done]. intros reply [= <-].
    unfold on_secrets, zoom, SecretStore.reveal, mbind, M_bind in Hr. destruct (load (rn_secrets w)) as [[values|e] s] eqn:Hload; [|done].
    injection Hr as Hv _. eexists value, _, values. split_and!; [done|by apply mem_str_spec|by apply String.eqb_eq|done|done].
  - apply wp_bind, (wp_audit_config _ _ (request_logged (RevealSecret key confirm))); [by right|]. intros w2 Hl. wp_steps.
    apply reach_spec; [apply Hl|by eapply only_logs_reach|done].
Qed.

Lemma sensitive_key key : mem_str key SENSITIVE_KEYS = true → good_key key = true.
Proof.
  assert (H : forallb good_key SENSITIVE_KEYS = true) by reflexivity. rewrite forallb_forall in H.
  intros Hk%mem_str_spec%list_elem_of_In. by apply H.
Qed.

Lemma rotate_spec key w : wp (rotate_secret key) (request_spec (RotateSecret key) w) w.
Proof.
  unfold rotate_secret. destruct (mem_str key SENSITIVE_KEYS) eqn:Hm; simpl negb; cbn iota; [|wp_steps; by apply refused_spec].
  assert (Hw : writes_secrets (RotateSecret key) = true) by done.
  apply wp_bind, wp_try, wp_intro. intros r w1 Hr. pose proof (silent_rotates false (SecretStore.rotate key) w) as Hs. rewrite Hr in Hs.
  assert (Hfail : ∀ e, request_spec (RotateSecret key) w (Raise e) w1) by (intros e; apply silent_spec; [by rewrite Hw|done]).
  unfold or_catch, then_. destruct r as [v|e]; [|destruct (instance_of _ _); [wp_steps|]; apply Hfail].
  apply wp_bind, wp_secrets. intros r s Ht. injection Ht as <- <-. unfold then_.
  set (w2 := mkRender _ _ _ _). apply wp_bind, (wp_audit_config _ _ (request_logged (RotateSecret key))); [split; [done|]; by eexists|].
  intros w3 Hl. wp_steps. apply reach_spec.
  - eapply (logs_silent false true false true); [exact Hs| |reflexivity]. apply Hl.
  - rewrite Hw. destruct Hs as [Hs _]. etrans; [exact Hs|]. etrans; [|by eapply only_logs_reach].
    split_and!; [done|done|]. exists []. by rewrite app_nil_r.
  - intros reply [= <-]. eexists v, _. split; [done|]. intros Htokens. unfold on_secrets, zoom in Hr.
    destruct (SecretStore.rotate key (rn_secrets w)) as [r0 s0] eqn:Hrot. injection Hr as -> <-.
    apply (rotate_inv Htokens) in Hrot; [|by apply sensitive_key].
    destruct Hrot as [(? & _)|(v' & _ & Hset & [(ts & n & [= ->] & _)|[? _]])]; [done| |done].
    unfold one_set in *. destruct Hl as (_ & El & _). rewrite El. exact Hset.
Qed.

Lemma set_field_spec key value w : wp (set_config_field key value) (request_spec (SetConfigField key value) w) w.
Proof.
  unfold set_config_field. destruct (key_pattern key) eqn:Hp; [|wp_steps; by apply refused_spec].
  destruct (_ <? _)%nat; [wp_steps; by apply refused_spec|]. cbn [negb orb].
  destruct (mem_str key SENSITIVE_KEYS) eqn:Hm.
  { assert (He : on_secrets (SecretStore.set_field key value) w = (fail EValue, w)).
    { unfold on_secrets, zoom, SecretStore.set_field. rewrite Hm. by destruct w. }
    apply wp_bind. unfold wp, try_except2. rewrite He. simpl. by apply refused_spec. }
  assert (Hw : writes_secrets (SetConfigField key value) = true) by (unfold writes_secrets; by rewrite Hm, Hp).
  assert (Hns : key ∉ SENSITIVE_KEYS) by (intros H%mem_str_spec; congruence).
  apply wp_bind. unfold wp, try_except2. pose proof (silent_rotates false (SecretStore.set_field key value) w) as Hs.
  destruct (on_secrets _ w) as [r w1] eqn:Hr. cbn [snd] in Hs.
  assert (Hfail : ∀ e, request_spec (SetConfigField key value) w (Raise e) w1) by (intros e; apply silent_spec; [by rewrite Hw|done]).
  destruct r as [u|e]; [|destruct (instance_of (ex_kind e) CValueError); [|destruct (instance_of (ex_kind e) COSError)]; simpl; apply Hfail].
  simpl. apply wp_bind, (wp_audit_config _ _ (request_logged (SetConfigField key value))); [done|]. intros w2 Hl. wp_steps. apply reach_spec.
  - eapply (logs_silent false true false true); [exact Hs|apply Hl|reflexivity].
  - rewrite Hw. destruct Hs as [Hs _]. etrans; [exact Hs|by eapply only_logs_reach].
  - intros reply [= <-]. split_and!; [done..|]. intros Hplain. unfold on_secrets, zoom in Hr.
    destruct (SecretStore.set_field key value (rn_secrets w)) as [r0 s0] eqn:Hset. injection Hr as -> <-.
    apply set_field_inv in Hset as [_ [[? _]|(_ & _ & Hone)]]; [done| |by apply pattern_key|done].
    unfold one_set in *. destruct Hl as (_ & -> & _). exact Hone.
Qed.

Lemma nat_spec ip w : wp (set_nat_mapping ip) (request_spec (SetNatMapping ip) w) w.
Proof.
  unfold set_nat_mapping. destruct (_ <? _)%nat; [wp_steps; by apply refused_spec|].
  destruct (ipv4 ip) eqn:Hip; cbn [negb]; [|wp_steps; by apply refused_spec].
  apply wp_bind, wp_try, wp_intro. intros r w1 Hr. pose proof (silent_render (Some ip) None true w) as Hs.
  rewrite Hr in Hs. cbn [snd] in Hs. unfold or_catch, then_.
  destruct r as [result|e]; [|destruct (instance_of _ _); [wp_steps|]; by apply silent_spec].
  apply wp_bind, (wp_audit_config _ _ (request_logged (SetNatMapping ip))); [split; [done|]; by eexists|].
  intros w2 Hl. wp_steps. apply reach_spec.
  - eapply (logs_silent true false true false); [exact Hs|apply Hl|reflexivity].
  - destruct Hs as [Hs _]. etrans; [exact Hs|by eapply only_logs_reach].
  - intros reply [= <-]. exists result, w1. split_and!; [done..|]. apply Hl.
Qed.

Lemma restarts_permitted rj rr a cmds : restarts_of rj rr a cmds → Forall (permitted (ApplyConfig rj rr)) cmds.
Proof.
  intros (j & r & h & -> & _). assert (H : ∀ b u, u ∈ RESTARTED → Forall (permitted (ApplyConfig rj rr)) (ran_if b u)).
  { intros [] u Hu; constructor; [|constructor]. right. by exists rj, rr, u. }
  rewrite !Forall_app. split_and!; apply H; unfold RESTARTED; set_solver.
Qed.

Lemma apply_spec rj rr w : wp (apply_config rj rr) (request_spec (ApplyConfig rj rr) w) w.
Proof.
  unfold apply_config. apply wp_bind, wp_try. eapply wp_mono; [apply config_apply_spec|]. intros r w' [Happ Hl].
  assert (Hspec : ∀ r', is_ok r = is_ok r' → (∀ reply, r' = Ok reply → ∃ a, r = Ok a ∧ reply = ApplyReply a) →
    request_spec (ApplyConfig rj rr) w r' w').
  { intros r' Hok Hre. pose proof Happ as (w1 & F & S & Hcase).
    assert (Hq : ∃ w2 x, render None None true w = (x, w2) ∧ w2 = w1 ∧ ∃ cmds, ran w' = ran w1 ++ cmds ∧ Forall (permitted (ApplyConfig rj rr)) cmds).
    { destruct r as [a|e].
      - destruct Hcase as (result & cmds & Hr & _ & C & Hres & _). eexists w1, _. split; [exact Hr|]. split; [done|].
        exists cmds. split; [done|]. by eapply restarts_permitted.
      - destruct Hcase as (e1 & Hr & C). eexists w1, _. split; [exact Hr|]. split; [done|]. exists []. by rewrite app_nil_r. }
    destruct Hq as (w2 & x & Hr & -> & cmds & C & Hall).
    pose proof (silent_render None None true w) as [(_ & Ss & c1 & C1 & Q1) _]. rewrite Hr in Ss, C1. cbn [snd] in Ss, C1.
    split_and!; [exact Hl|done|intros _; rewrite S; by apply Ss| |by exists r].
    exists (c1 ++ cmds). split; [by rewrite C, C1, app_assoc|]. apply Forall_app. split; [|done].
    apply Forall_forall. intros c Hc. left. rewrite forallb_forall in Q1. by apply Q1, list_elem_of_In. }
  unfold or_catch, then_. destruct r as [a|e]; [wp_steps; apply Hspec; [done|]; intros reply [= <-]; by exists a|].
  destruct (instance_of _ _); [wp_steps|]; by apply Hspec.
Qed.

End confined.

(** ** An example: the mapping that is set survives the next apply *)
Section config_samples.
#[local] Existing Instance sample_tools.
#[local] Instance quiet_renders : RenderEnv := failing_at 1000.
#[local] Instance sample_config_audit : AuditEnv := {|
  AUDIT_ROTATE_BYTES := 1000000; KEEP_BACKUPS := 3; audit_fault := fun _ => false; now_iso := fun _ => "now"%string;
  line_bytes := fun _ => 80; py_repr := fun _ => ""%string |}.
#[local] Instance refusing_sudo : AdminEnv := {|
  sudo_ends := fun _ => SudoRefuses "a password is required"; DEFAULT_INSTANCE := "color"; env_text := fun _ _ => None |}.
#[local] Instance sample_config_vault : Vault := {|
  token_urlsafe32 := fun _ => "t"%string; token_hex32 := fun _ => "0"%string; epoch := fun _ => 0 |}.

Example mapping_survives_apply :
  let '(r1, w1) := run_config (SetNatMapping "198.51.100.1") sample_render in
  let '(r2, w2) := run_config (ApplyConfig true false) w1 in
  r1 = Ok (NatReply ["/etc/janus/janus.jcfg"] "198.51.100.1")%string ∧
  r2 = Ok (ApplyReply (mkApplyResponse ["/etc/janus/janus.jcfg"] false false
             ["janus restart failed — see journalctl -u janus"]))%string ∧
  mapping_now (rn_fs w2) "/etc/janus" = "198.51.100.1"%string ∧ length (log_of w2) = 2%nat.
Proof. vm_compute. repeat split; reflexivity. Qed.

Example reveal_needs_phrase :
  (fst (run_config (RevealSecret "JANUS_ADMIN_SECRET" "reveal-JANUS_ADMIN_SECRET") sample_render),
   fst (run_config (RevealSecret "JANUS_ADMIN_SECRET" "reveal") sample_render))%string
  = (Ok (RevealReply "JANUS_ADMIN_SECRET" "key" None), fail (EHttp 400))%string.
Proof. vm_compute. reflexivity. Qed.
End config_samples.
