(* ===== verification/HostKeys.v ===== *)
(** * The host keys of the topology

    Which SSH host keys the rows of the nodes carry: apart from the one call that pins a
    key, every call of the store leaves the set of pinned keys as it was or smaller,
    whatever system call fails during it. *)
From S2P Require Import Prelude.
From S2P Require Import PyVal.
From S2P Require Import FileStore.
From S2P Require Import Allocator.
From S2P Require Import BindingModels.
From S2P Require Import TopologyStore.
From S2P Require Import Nodes.
From S2P Require Import Bindings.
From S2P Require Import TopologyCalls.
From S2P Require Import TopologyTheorems.

(** The call that pins a key. *)
Definition sets_key (c : store_call) : bool := match c with CSetHostKey _ _ => true | _ => false end.

Section keys.
Context `{Entropy} (K : string → Prop).

(** The key of a row, if any, is one of [K]. *)
Definition key_ok (raw : json) : Prop :=
  ∀ x, jget raw "host_key" JNull = Ok x → truthy x = true → ∃ k, x = JStr k ∧ K k.

Definition keys_in (d : dict json) : Prop := ∀ id raw, row d "nodes" id = Some raw → key_ok raw.

Lemma setitem_key raw col v raw' :
  col ≠ "host_key"%string → setitem raw col v = Ok raw' → key_ok raw → key_ok raw'.
Proof.
  destruct raw as [| | | | | |d]; try done. intros Hne [= <-] Hd x. simpl. rewrite dget_dset_ne by done. apply Hd.
Qed.

Lemma key_ok_sort raw : key_ok raw → key_ok (sort_json raw).
Proof.
  intros Hr x. rewrite jget_sort_scalar by done. destruct (jget raw "host_key" JNull) as [y|] eqn:Hy; [|done].
  intros [= <-]. rewrite truthy_sort. intros Ht. destruct (Hr y Hy Ht) as (k & -> & Hk). by exists k.
Qed.

Definition body_keys {A} (body : M Txn A) : Prop :=
  ∀ t a t', wf_state (t_state t) → keys_in (t_state t) → body t = (Ok a, t') → keys_in (t_state t').

Lemma flock_keys {A} (body : M Txn A) s :
  body_keys body → topo_inv keys_in s → topo_inv keys_in (flock_state body s).2.
Proof.
  intros Hb Hs d Hd. destruct (flock_state body s) as [r s'] eqn:Hrun. simpl in Hd.
  apply flock_cases in Hrun as (_ & _ & [(e & _ & Hc & _)|(d0 & a & t & Hd0 & Hbody & _ & Hc & _)]);
    rewrite Hc in Hd; [by apply Hs|].
  destruct (topology_written (t_state t)) as (d' & Hd' & _ & Hrows). rewrite Hd' in Hd. injection Hd as <-.
  intros id raw. rewrite Hrows by done. destruct (row (t_state t) "nodes" id) as [raw0|] eqn:Hr; [|done].
  intros [= <-]. apply key_ok_sort. assert (Hk : keys_in (t_state t)); [|by apply (Hk id)].
  apply (Hb (start s d0) a t); [by eapply topology_wf|by apply Hs|done].
Qed.

(** Setting a row of the nodes. *)
Lemma keys_set_row d id raw :
  key_ok raw → keys_in d → keys_in (dset d "nodes" (JObj (dset (section d "nodes") id raw))).
Proof.
  intros Hraw Hd id' raw'. rewrite row_dset, decide_True, dget_dset by done.
  case_decide; [by intros [= <-]|]. apply Hd.
Qed.

(** Bodies that leave the nodes alone. *)
Definition same_nodes (t t' : Txn) : Prop := section (t_state t') "nodes" = section (t_state t) "nodes".

#[local] Instance same_nodes_preorder : PreOrder same_nodes.
Proof. split; [done|]. intros t1 t2 t3. unfold same_nodes. congruence. Qed.

Lemma sn_get_section k : preserves same_nodes (get_section k).
Proof. unfold get_section. pres. Qed.
Lemma sn_put_bindings v : preserves same_nodes (put_section "bindings" v).
Proof. intros t. unfold same_nodes, section. simpl. by rewrite dget_dset_ne. Qed.
Lemma sn_secrets {A} (m : M file A) : preserves same_nodes (txn_secrets m).
Proof. intros t. unfold txn_secrets, zoom. by destruct (m _). Qed.
#[local] Hint Resolve sn_get_section sn_put_bindings sn_secrets : pres.

Lemma same_nodes_keys {A} (body : M Txn A) : preserves same_nodes body → body_keys body.
Proof.
  intros Hb t a t' _ Hk Hrun id raw. specialize (Hb t). rewrite Hrun in Hb. unfold same_nodes in Hb.
  unfold row. simpl in Hb. rewrite Hb. apply Hk.
Qed.

Lemma update_node_keys id f s :
  (∀ raw t raw' t', f raw t = (Ok raw', t') → t_state t' = t_state t ∧ (key_ok raw → key_ok raw')) →
  topo_inv keys_in s → topo_inv keys_in (update_node id f s).2.
Proof.
  intros Hf. apply flock_keys. intros t a t' _ Hk Hrun. unfold update_row in Hrun. run_inv; try done. subst.
  match goal with H : truthy _ = true |- _ => apply truthy_row in H as [raw Hraw] end.
  match goal with H : f _ _ = _ |- _ => apply Hf in H as [Hst Hkey] end.
  simpl. rewrite Hst. rewrite Hraw in *. simpl in Hkey. apply keys_set_row; [|done]. apply Hkey. by eapply Hk.
Qed.

(** Setting a column of a node's row that is not the key. *)
Lemma column_keys (r : res json) raw (t : Txn) raw' t' :
  (∀ y, r = Ok y → key_ok raw → key_ok y) → lift r t = (Ok raw', t') →
  t_state t' = t_state t ∧ (key_ok raw → key_ok raw').
Proof. intros Hg [Hr ->]%lift_ok_inv. split; [done|]. by apply Hg. Qed.

Lemma upsert_body_keys id host role reach serial name :
  body_keys (upsert_body id host role reach serial name).
Proof.
  intros t a t' Hwf Hk Hrun. unfold upsert_body in Hrun. run_inv.
  all: match goal with H : txn_secrets _ _ = _ |- _ => apply txn_secrets_inv in H as (? & ? & ->) end.
  all: match goal with H : node_token _ _ _ = (Ok ?tok, ?t1) |- _ =>
         assert (Hst : t_state t1 = t_state t) by
           (clear -H; unfold node_token in H; run_inv; try done;
            match goal with H : txn_secrets _ _ = _ |- _ =>
              apply txn_secrets_inv in H as (? & ? & ->) end;
            run_inv; try done; unfold mint_agent_token in *;
            match goal with H : draw _ _ = _ |- _ => by apply draw_inv in H as (? & ? & ?) end)
       end.
  all: simpl; rewrite Hst; subst; apply keys_set_row; [|done].
  all: intros y Hy Htr; simpl in Hy; injection Hy as Hy; subst y.
  all: match goal with H : jget _ "host_key"%string JNull = Ok _ |- _ => rename H into Hkey end.
  all: destruct (dget (section (t_state t) "nodes") id) as [raw|] eqn:Hraw; simpl in Hkey.
  all: try (injection Hkey as <-; done).
  all: by eapply Hk.
Qed.

Lemma add_body_keys host name role : body_keys (add_body host name role).
Proof.
  intros t a t' Hwf Hk Hrun. unfold add_body in Hrun. run_inv.
  match goal with H : match ?o with Some _ => _ | None => _ end _ = _ |- _ =>
    destruct o as [[nid raw]|] end; run_inv.
  - match goal with H : txn_secrets _ _ = _ |- _ => by apply txn_secrets_inv in H as (? & ? & ->) end.
  - unfold mint_agent_token in *.
    repeat match goal with H : draw _ _ = _ |- _ => apply draw_inv in H as (? & ? & ?) end.
    match goal with H : txn_secrets _ _ = _ |- _ => apply txn_secrets_inv in H as (? & ? & ->) end.
    simpl in *. repeat match goal with H : t_state _ = _ |- _ => rewrite H end. subst.
    apply keys_set_row; [|done]. intros y [= <-]. done.
Qed.

(** A call keeps the keys within [K], one that pins a key as long as that is one of [K]. *)
Lemma call_keys c s :
  (∀ id k, c = CSetHostKey id k → K k) → topo_inv keys_in s → topo_inv keys_in (run_store_call c s).2.
Proof.
  intros Hc Hs.
  assert (Hret : ∀ A (m : M Store A), topo_inv keys_in (m s).2 → topo_inv keys_in ((m ;; mret tt) s).2).
  { intros A m. unfold mbind, M_bind. by destruct (m s) as [[a|e] s']. }
  destruct c; simpl; apply Hret;
    try (apply update_node_keys; [|done]; intros raw t raw' t'; apply column_keys; intros ?; by apply setitem_key).
  - unfold upsert_node. destruct (String.eqb node_id LOCAL_NODE_ID); [done|].
    by apply flock_keys; [apply upsert_body_keys|].
  - unfold add_node_by_host, mbind, M_bind, lift. destruct (valid_remote_host _ _); [|done].
    by apply flock_keys; [apply add_body_keys|].
  - apply update_node_keys; [|done]. intros raw t raw' t'. apply column_keys. intros y Hxy Hx.
    apply res_bind_ok in Hxy as (z & Hz & Hxy). assert (Hkz : key_ok z) by (eapply setitem_key; [|exact Hz|exact Hx]; done).
    destruct (String.eqb _ "failed"); [|eapply setitem_key; [|exact Hxy|done]; done].
    apply res_bind_ok in Hxy as (p & _ & (q & _ & Hxy)%res_bind_ok).
    eapply setitem_key; [|exact Hxy|done]; done.
  - apply update_node_keys; [|done]. intros raw t raw' t' Hrun. run_inv.
    match goal with H : draw _ _ = _ |- _ => apply draw_inv in H as (Hst & _ & _) end.
    split; [done|]. intros Hk.
    match goal with H : setitem raw _ _ = Ok ?z |- _ => assert (key_ok z) by (eapply setitem_key; [|exact H|done]; done) end.
    eapply setitem_key; [|done|done]; done.
  - apply update_node_keys; [|done]. intros raw t raw' t'. apply column_keys. intros y Hxy Hx.
    destruct raw as [| | | | | |d]; try done. injection Hxy as <-. intros v. simpl. rewrite dget_dset_eq.
    intros [= <-] _. eauto.
  - apply flock_keys; [|done]. apply same_nodes_keys. cbv zeta. pres.
  - unfold remove_node. destruct (String.eqb node_id LOCAL_NODE_ID); [done|].
    assert (Hb : topo_inv keys_in (flock_state (remove_body node_id) s).2).
    { apply flock_keys; [|done]. intros t out t' Hwf Hk Hrun id raw.
      destruct (remove_body_spec _ _ _ _ Hwf Hrun) as (_ & _ & Hn & _). rewrite Hn. case_decide; [done|]. apply Hk. }
    unfold mbind, M_bind. destruct (flock_state _ s) as [[out|e] s1]; [|done].
    unfold on_secrets, zoom. destruct (remove_node_secret _ _) as [[u|e] f']; exact Hb.
  - apply flock_keys; [|done]. apply same_nodes_keys. unfold upsert_binding_body. cbv zeta. pres.
  - apply flock_keys; [|done]. apply same_nodes_keys. pres.
  - apply flock_keys; [|done]. apply same_nodes_keys. pres.
  - unfold set_status, mbind, M_bind, lift. destruct (parse_status _); [|done].
    apply flock_keys; [|done]. apply same_nodes_keys. unfold update_row. pres.
  - apply flock_keys; [|done]. apply same_nodes_keys. unfold update_row. pres.
  - apply flock_keys; [|done]. apply same_nodes_keys. unfold update_row. pres.
Qed.

(** What a reader of a node gets. *)
Lemma get_node_key id s n s' :
  topo_inv keys_in s → get_node id s = (Ok (Some n), s') → truthy (n_host_key n) = true →
  ∃ k, n_host_key n = JStr k ∧ K k.
Proof.
  intros Hs Hrun Ht. unfold get_node in Hrun.
  destruct (String.eqb id LOCAL_NODE_ID); [apply ret_ok_inv in Hrun as [? _]; by simplify_eq|].
  apply bind_ok_inv in Hrun as (d & s1 & Hload & Hrun).
  unfold on_topo, zoom in Hload. destruct (load_topology_spec (s_topo s)) as (f1 & Hf1 & _).
  rewrite Hf1 in Hload. injection Hload as Hd%topology_seen <-. cbv zeta in Hrun.
  destruct (dget (section d "nodes") id) as [raw|] eqn:Hraw; simpl in Hrun; [|done].
  destruct (truthy raw) eqn:Htr; [|done].
  apply bind_ok_inv in Hrun as (entry & s2 & [Hentry ->]%lift_ok_inv & Hrun).
  apply bind_ok_inv in Hrun as (e & s3 & Hw & [[= ->] ->]%ret_ok_inv).
  assert (Hk : n_host_key e = n_host_key entry).
  { clear -Hw. unfold on_secrets, zoom in Hw. destruct (with_token _ _ _) as [r f2] eqn:Hwt.
    injection Hw as -> <-. unfold with_token in Hwt.
    apply bind_ok_inv in Hwt as (data & f3 & _ & Hwt). cbv zeta in Hwt.
    destruct (truthy _); [by apply ret_ok_inv in Hwt as [-> ->]|].
    by apply bind_ok_inv in Hwt as (tk & f4 & [_ ->]%lift_ok_inv & [-> ->]%ret_ok_inv). }
  rewrite Hk in *. apply (Hs d Hd id raw Hraw); [|done].
  unfold node_from_raw in Hentry.
  repeat match goal with H : (_ ≫= _) = Ok _ |- _ => apply res_bind_ok in H as (? & ? & H) end.
  by injection Hentry as <-.
Qed.
End keys.
