(* ===== verification/Console.v ===== *)
(** * The admin console's shared state

    What the node operations and the use cases of [app/application/stream_bindings/] act
    on: the gateway with its topology store, the programs run over SSH, the requests to
    node agents and to Janus, the firewall commands, the audit log and the operation
    journal. Before each access to the topology, other threads and processes may make any
    calls on it ([others]), and any system call of the access may fail; likewise for the
    journal and the allocator's file. *)
From S2P Require Import Prelude.
From S2P Require Import Hoare.
From S2P Require Import PyVal.
From S2P Require Import PyStr.
From S2P Require Import FileStore.
From S2P Require Import FdirEvents.
From S2P Require Import LadderPolicy.
From S2P Require Import World.
From S2P Require Import Allocator.
From S2P Require Import BindingModels.
From S2P Require Import TopologyStore.
From S2P Require Import Nodes.
From S2P Require Import Bindings.
From S2P Require Import TopologyCalls.
From S2P Require Import TopologyTheorems.
From S2P Require Import BindingRows.
From S2P Require Import BindingProvision.
From S2P Require Import Journal.
From S2P Require Import Firewall.
From S2P Require Import AuditLog.
From S2P Require Import JanusAdmin.
From S2P Require Import Lifecycle.
From S2P Require Import NodeTransport.

(** A request of [RealNodeClient] to a node's agent, with the token of its header. *)
Inductive agent_action :=
  | AgStopStream (sensor : string)
  | AgGetTuning (sensor : string)
  | AgSetTuning (sensor : string) (body : json)
  | AgGetModes (sensor : string)
  | AgGetDepth (x y : Q) (aligned : bool)
  | AgGetDepthFrame.

Record agent_request := mkAgentRequest {
  ag_host : string; ag_token : option json; ag_action : agent_action;
}.

(** What a thread of [node_operation_runner.run] executes. *)
Inductive node_op :=
  | OpProvision (t : SSHTransport) (bundle_tar : string)
  | OpRotate (t : SSHTransport)
  | OpActivate (t : SSHTransport) (sensors : list string) (gateway_host : string).

Record thread := mkThread { th_op_id : string; th_node_id : string; th_op : node_op }.

Record Console := mkConsole {
  c_gate : Gateway;                  (* topology, FDIR world, mountpoint and restart requests *)
  c_ssh : list ssh_event;
  c_agents : list agent_request;
  c_posts : list post;               (* to Janus *)
  c_audit : AuditLog;
  c_journal : file;                  (* operations.json *)
  c_iptables : list (list string);
  c_contracts : dict string;         (* the local encoder's environment files *)
  c_tunings : dict string;
  c_serial : option string;
  c_threads : list thread;           (* started, oldest first *)
}.

Class ConsoleEnv := {
  others : nat → list (option syscall * option syscall * store_call);
  topo_fault : nat → option syscall;
  secrets_fault : nat → option syscall;
  others_journal : nat → list (option syscall * journal_call);
  journal_fault : nat → option syscall;
  op_uuid : nat → string;                        (* [uuid.uuid4().hex] *)
  now_sec : nat → Z;                             (* [int(time.time())] *)
  bundle_exists : nat → bool;                    (* [os.path.exists(NODE_BUNDLE_TAR)] *)
  agent_answers : nat → agent_request → agent_reply;
  local_depth : nat → agent_action → res json;   (* the gateway's own depth service *)
  console_lan : Lan;                             (* [GATEWAY_LAN_IP], [CAMERA_LAN_CIDR] *)
  fleet_file : nat → content;                    (* the fleet manifest *)
}.

Section setters.
Implicit Types c : Console.
Definition set_gate g c :=
  mkConsole g (c_ssh c) (c_agents c) (c_posts c) (c_audit c) (c_journal c) (c_iptables c)
    (c_contracts c) (c_tunings c) (c_serial c) (c_threads c).
Definition set_ssh l c :=
  mkConsole (c_gate c) l (c_agents c) (c_posts c) (c_audit c) (c_journal c) (c_iptables c)
    (c_contracts c) (c_tunings c) (c_serial c) (c_threads c).
Definition set_agents l c :=
  mkConsole (c_gate c) (c_ssh c) l (c_posts c) (c_audit c) (c_journal c) (c_iptables c)
    (c_contracts c) (c_tunings c) (c_serial c) (c_threads c).
Definition set_posts l c :=
  mkConsole (c_gate c) (c_ssh c) (c_agents c) l (c_audit c) (c_journal c) (c_iptables c)
    (c_contracts c) (c_tunings c) (c_serial c) (c_threads c).
Definition set_audit a c :=
  mkConsole (c_gate c) (c_ssh c) (c_agents c) (c_posts c) a (c_journal c) (c_iptables c)
    (c_contracts c) (c_tunings c) (c_serial c) (c_threads c).
Definition set_journal f c :=
  mkConsole (c_gate c) (c_ssh c) (c_agents c) (c_posts c) (c_audit c) f (c_iptables c)
    (c_contracts c) (c_tunings c) (c_serial c) (c_threads c).

(** The components the local camera and the firewall work on. *)
Definition set_camera (m : Camera) c :=
  let g := c_gate c in
  mkConsole
    (mkGateway (m_world m)
       (mkStore (s_topo (g_store g)) (s_secrets (g_store g)) (m_alloc m) (s_draws (g_store g)))
       (g_monitor g) (g_requests g))
    (c_ssh c) (c_agents c) (m_janus m) (m_audit m) (c_journal c) (c_iptables c)
    (m_contracts m) (m_tunings m) (m_serial m) (c_threads c).
Definition set_fw (w : Fw) c :=
  mkConsole (mkGateway (g_world (c_gate c)) (fw_store w) (g_monitor (c_gate c)) (g_requests (c_gate c)))
    (c_ssh c) (c_agents c) (c_posts c) (c_audit c) (c_journal c) (fw_commands w)
    (c_contracts c) (c_tunings c) (c_serial c) (c_threads c).
Definition add_thread t c :=
  mkConsole (c_gate c) (c_ssh c) (c_agents c) (c_posts c) (c_audit c) (c_journal c) (c_iptables c)
    (c_contracts c) (c_tunings c) (c_serial c) (c_threads c ++ [t]).
End setters.

Definition c_store (c : Console) : Store := g_store (c_gate c).
Definition camera_of (c : Console) : Camera :=
  mkCamera (g_world (c_gate c)) (s_alloc (c_store c)) (c_contracts c) (c_tunings c) (c_posts c)
    (c_serial c) (c_audit c).
Definition fw_of (c : Console) : Fw := mkFw (c_store c) (c_iptables c).

Section access.
Context {T : Entropy} {C : CameraEnv} {O : ConsoleEnv}.

Definition on_gate {A} (m : M Gateway A) : M Console A := zoom c_gate set_gate m.
Definition c_tick : M Console nat := on_gate (on_world tick).

(** What the others did to the topology and the allocator's file since the last access. *)
Definition interfere (n : nat) (s : Store) : Store :=
  let s := run_faulty (others n) s in
  mkStore (set_fault (topo_fault n) (s_topo s)) (set_fault (secrets_fault n) (s_secrets s))
    (run_calls (meanwhile n) (set_fault None (s_alloc s))) (s_draws s).

Definition disturb : M Console unit :=
  n ← c_tick; on_gate (on_bindings (modify (interfere n))).

(** An access to the topology. *)
Definition at_store {A} (m : M Store A) : M Console A := disturb ;; on_gate (on_bindings m).
Definition at_gate {A} (m : M Gateway A) : M Console A := disturb ;; on_gate m.
Definition at_firewall {A} (m : M Fw A) : M Console A := disturb ;; zoom fw_of set_fw m.

Definition at_camera {A} (m : M Camera A) : M Console A := zoom camera_of set_camera m.
Definition at_ssh {A} (m : M (list ssh_event) A) : M Console A := zoom c_ssh set_ssh m.
Definition at_janus {A} (m : M (list post) A) : M Console A := zoom c_posts set_posts m.
Definition at_audit {A} (m : M AuditLog A) : M Console A := zoom c_audit set_audit m.
Definition at_journal {A} (m : M file A) : M Console A :=
  n ← c_tick;
  zoom c_journal set_journal
    (modify (fun f => set_fault (journal_fault n) (run_journal (others_journal n) f)) ;; m).

(** The audit record of a use case; no request is at hand. *)
Definition record_audit `{AuditEnv} (action : string) (details : dict json) (outcome : option string)
    : M Console unit :=
  at_audit (audit action details outcome None None).
End access.

Definition succeeded_or (ok : bool) : option string := Some (if ok then "success" else "failure")%string.

(** ** Reads of the topology *)

(** Reading leaves every document as it was. *)
Definition same_docs (s s' : Store) : Prop :=
  f_content (s_topo s') = f_content (s_topo s) ∧ f_content (s_secrets s') = f_content (s_secrets s) ∧
  s_alloc s' = s_alloc s ∧ s_draws s' = s_draws s.

#[export] Instance same_docs_preorder : PreOrder same_docs.
Proof. unfold same_docs. split; [done|]. intros s1 s2 s3 (?&?&?&?) (?&?&?&?). split_and!; congruence. Qed.

Lemma docs_on_topo {A} (m : M file A) : preserves (keeps f_content) m → preserves same_docs (on_topo m).
Proof.
  intros Hm s. specialize (Hm (s_topo s)). unfold on_topo, zoom. destruct (m (s_topo s)). by split_and!.
Qed.
Lemma docs_on_secrets {A} (m : M file A) : preserves (keeps f_content) m → preserves same_docs (on_secrets m).
Proof.
  intros Hm s. specialize (Hm (s_secrets s)). unfold on_secrets, zoom. destruct (m (s_secrets s)). by split_and!.
Qed.

Lemma load_state_keeps : preserves (keeps f_content) load_state.
Proof. intros f. destruct (load_topology_spec f) as (f' & -> & Hc & _). done. Qed.
Lemma read_secrets_keeps : preserves (keeps f_content) read_secrets.
Proof. intros f. destruct (read_secrets_spec f) as (f' & -> & Hc & _). done. Qed.

Lemma with_token_keeps n raw : preserves (keeps f_content) (with_token n raw).
Proof. unfold with_token. pose proof read_secrets_keeps. pres. Qed.

Lemma decode_nodes_keeps items out : preserves (keeps f_content) (decode_nodes items out).
Proof.
  revert out. induction items as [|[nid raw] items IH]; intros out; simpl; [pres|].
  pose proof with_token_keeps. pres.
Qed.

Lemma get_node_docs id : preserves same_docs (get_node id).
Proof.
  unfold get_node. destruct (String.eqb id LOCAL_NODE_ID); [pres|].
  pose proof (docs_on_topo _ load_state_keeps). pose proof (λ n raw, docs_on_secrets _ (with_token_keeps n raw)).
  pres.
Qed.
Lemma list_nodes_docs : preserves same_docs list_nodes.
Proof.
  unfold list_nodes. pose proof (docs_on_topo _ load_state_keeps).
  pose proof (λ l o, docs_on_secrets _ (decode_nodes_keeps l o)). pres.
Qed.
Lemma list_bindings_docs : preserves same_docs list_bindings.
Proof. unfold list_bindings. pose proof (docs_on_topo _ load_state_keeps). pres. Qed.
Lemma get_binding_docs bid : preserves same_docs (get_binding bid).
Proof. unfold get_binding. pose proof list_bindings_docs. pres. Qed.
Lemma allocation_inputs_docs id : preserves same_docs (allocation_inputs id).
Proof.
  unfold allocation_inputs. pose proof (docs_on_topo _ load_state_keeps). pose proof get_node_docs. pres.
Qed.
Lemma allocate_mountpoint_docs id : preserves same_docs (allocate_mountpoint id).
Proof. unfold allocate_mountpoint. pose proof allocation_inputs_docs. pres. Qed.
Lemma allocate_port_docs id : preserves same_docs (allocate_port id).
Proof. unfold allocate_port. pose proof allocation_inputs_docs. pres. Qed.
#[export] Hint Resolve get_node_docs list_nodes_docs list_bindings_docs get_binding_docs
  allocate_mountpoint_docs allocate_port_docs : pres.

(** The token of a node that is read is the one in the secret file, unless its row carries
    a legacy one. *)
Lemma get_node_token id tok s n s' :
  get_node id s = (Ok (Some n), s') → n_agent_token n = JStr tok → tok ≠ EmptyString →
  topo_inv (no_inline id) s → token_at id tok (s_secrets s').
Proof.
  intros Hrun Htok Hne Hinl. unfold get_node in Hrun.
  destruct (String.eqb id LOCAL_NODE_ID); [apply ret_ok_inv in Hrun as [? _]; by simplify_eq|].
  apply bind_ok_inv in Hrun as (d & s1 & Hload & Hrun).
  unfold on_topo, zoom in Hload. destruct (load_topology_spec (s_topo s)) as (f1 & Hf1 & _).
  rewrite Hf1 in Hload. injection Hload as Hd%topology_seen <-. cbv zeta in Hrun.
  destruct (dget (section d "nodes") id) as [raw|] eqn:Hraw; simpl in Hrun; [|done].
  destruct (truthy raw) eqn:Htr; [|done].
  apply bind_ok_inv in Hrun as (entry & s2 & [Hentry ->]%lift_ok_inv & Hrun).
  apply bind_ok_inv in Hrun as (e & s3 & Hw & [[= ->] ->]%ret_ok_inv).
  assert (Hid : n_node_id entry = id).
  { clear -Hentry. unfold node_from_raw in Hentry.
    repeat match goal with H : (_ ≫= _) = Ok _ |- _ => apply res_bind_ok in H as (? & _ & H) end.
    by injection Hentry as <-. }
  unfold on_secrets, zoom in Hw. destruct (with_token _ _ _) as [r f2] eqn:Hwt.
  injection Hw as -> <-. simpl in *. unfold with_token in Hwt.
  destruct (read_secrets_spec (s_secrets s)) as (f3 & Hr & Hc & _).
  destruct (secrets_of (seen (s_secrets s))) as [data|er] eqn:Hs.
  2: { by rewrite (bind_raise _ _ _ _ _ Hr) in Hwt. }
  rewrite (bind_ok _ _ _ _ _ Hr), Hid in Hwt. cbv zeta in Hwt.
  destruct (truthy (default JNull (dget data id))) eqn:Htd.
  - apply ret_ok_inv in Hwt as [-> ->]. simpl in Htok. exists data. rewrite Hc.
    destruct (seen_cases (s_secrets s)) as [Hseen|[_ Hseen]]; rewrite Hseen in Hs.
    + split; [done|]. destruct (dget data id) as [j|]; simpl in *; [by subst|done].
    + by injection Hs as <-.
  - apply bind_ok_inv in Hwt as (tk & f4 & [Htk ->]%lift_ok_inv & [-> ->]%ret_ok_inv). simpl in Htok.
    subst tk. specialize (Hinl d Hd raw (JStr tok) Hraw Htk). simpl in Hinl.
    by destruct tok.
Qed.

(** A token that was set is the one in the secret file. *)
Lemma set_agent_token_stores `{Entropy} id tok s n s' :
  set_agent_token id tok s = (Ok n, s') → token_at id tok (s_secrets s').
Proof.
  intros Hrun. unfold set_agent_token in Hrun.
  apply flock_cases in Hrun as (_ & _ & [(e & ? & _)|(d & a & t & Hd & Hbody & _ & _ & Hs & _)]); [done|].
  rewrite Hs. clear Hs. run_inv.
  match goal with H : txn_secrets _ _ = _ |- _ => apply txn_secrets_inv in H as (f' & Hset & ->) end.
  simpl. destruct (set_node_secret_cases id (JStr tok) (t_secrets (start s d)))
    as [(d0 & f1 & Hrun & _ & Hc & _)|(f1 & e & Hrun & _)]; rewrite Hrun in Hset; [|done].
  injection Hset as _ <-. destruct (secrets_written (dset d0 id (JStr tok))) as (d1 & Hd1 & Hrows).
  exists d1. rewrite Hc. split; [done|]. by rewrite Hrows, dget_dset, decide_True.
Qed.

(** ** The topology under the console

    [upto_reaches s s']: the topology document of [s'] is one that calls lead to. *)
Section reach.
Context {T : Entropy}.

Definition upto_reaches (s s' : Store) : Prop :=
  ∃ s1, reaches s s1 ∧ f_content (s_topo s') = f_content (s_topo s1).

Lemma same_topo_reaches s s' : f_content (s_topo s') = f_content (s_topo s) → upto_reaches s s'.
Proof. intros H. exists s. split; [apply reaches_refl|done]. Qed.

Lemma reaches_upto s s1 s2 s3 :
  reaches s s1 → f_content (s_topo s2) = f_content (s_topo s1) → reaches s2 s3 → upto_reaches s s3.
Proof.
  intros H1 Hc H2. induction H2 as [|c s3 s4 _ (s5 & H5 & Hc5) Hc4]; [by exists s1|].
  exists (run_store_call c s4).2. split; [|done]. by apply (reaches_call _ c s5); [|congruence].
Qed.

#[export] Instance upto_reaches_preorder : PreOrder upto_reaches.
Proof.
  split; [intros s; by apply same_topo_reaches|].
  intros s1 s2 s3 (s2' & H1 & Hc1) (s3' & H2 & Hc2).
  destruct (reaches_upto s1 s2' s2 s3') as (s4 & H4 & Hc4); [done..|].
  exists s4. split; [done|congruence].
Qed.

Lemma call_reaches c s : upto_reaches s (run_store_call c s).2.
Proof.
  exists (run_store_call c s).2. split; [|done]. by apply (reaches_call _ c s); [apply reaches_refl|].
Qed.

Lemma run_faulty_reaches cs s : upto_reaches s (run_faulty cs s).
Proof.
  revert s. induction cs as [|[[ft fs] c] cs IH]; intros s; [done|]. simpl. etrans; [|apply IH].
  etrans; [|apply call_reaches]. by apply same_topo_reaches.
Qed.

Lemma upto_reaches_inv (I : dict json → Prop) s s' :
  (∀ alloc d d', edit alloc d d' → I d → I d') →
  (∀ d d', (∀ k id, is_section k = true → row d' k id = sort_json <$> row d k id) → I d → I d') →
  upto_reaches s s' → topo_inv I s → topo_inv I s'.
Proof.
  intros He Hw (s1 & Hr & Hc) Hs d. rewrite Hc. by apply (reaches_inv I He Hw s s1).
Qed.
End reach.

(** ** Frames

    What an access does not touch. *)
Definition others_same (c c' : Console) : Prop :=
  c_agents c' = c_agents c ∧ c_posts c' = c_posts c ∧ c_audit c' = c_audit c ∧
  c_iptables c' = c_iptables c ∧ g_requests (c_gate c') = g_requests (c_gate c).
Definition store_only (c c' : Console) : Prop :=
  c_ssh c' = c_ssh c ∧ c_journal c' = c_journal c ∧ c_threads c' = c_threads c ∧ others_same c c'.

Section frames.
Context {T : Entropy} {C : CameraEnv} {O : ConsoleEnv}.

(** An access to the topology ends as its body does, from the store as the others left it. *)
Lemma wp_at_store {A} (m : M Store A) (Q : res A → Console → Prop) c :
  (∀ n, wp m (λ r s', ∀ c', store_only c c' → c_store c' = s' → Q r c') (interfere n (c_store c))) →
  wp (at_store m) Q c.
Proof.
  intros H. specialize (H (w_tick (g_world (c_gate c)))). revert H.
  destruct c as [[w s mon rq] l a p au j ip ct tu se th]. unfold c_store. cbn. unfold wp.
  unfold at_store, disturb, c_tick, on_gate, on_bindings, on_world, tick, zoom, modify, mbind, M_bind. cbn.
  destruct (m _) as [r s']. intros H. apply H; [|done]. by repeat split.
Qed.

Lemma wp_at_ssh {A} (m : M (list ssh_event) A) (Q : res A → Console → Prop) c :
  wp m (λ r l, Q r (set_ssh l c)) (c_ssh c) → wp (at_ssh m) Q c.
Proof. apply wp_zoom. Qed.

(** What every access to the topology preserves. *)
Lemma pres_at_store {A} (R : Store → Store → Prop) (m : M Store A) :
  PreOrder R → (∀ n, preserves R (modify (interfere n))) → preserves R m →
  preserves (λ c c', R (c_store c) (c_store c')) (at_store m).
Proof.
  intros HR Hn Hm c. apply (wp_state (at_store m) (λ c', R (c_store c) (c_store c'))), wp_at_store.
  intros n. eapply wp_mono; [apply (wp_preserves _ _ _ Hm)|]. intros r s' Hs c' _ ->.
  etrans; [apply (Hn n)|done].
Qed.

Lemma at_store_store_only {A} (m : M Store A) : preserves store_only (at_store m).
Proof.
  intros c. apply (wp_state (at_store m) (λ c', store_only c c')), wp_at_store. intros n.
  apply wp_intro. auto.
Qed.

(** Everything but the programs run over SSH. *)
Lemma wp_at_audit {A} (m : M AuditLog A) (Q : res A → Console → Prop) c :
  (∀ r l, Q r (set_audit l c)) → wp (at_audit m) Q c.
Proof. intros H. unfold at_audit. apply wp_zoom, wp_intro. auto. Qed.
End frames.

(** ** The others and a node's token

    As long as nobody else rotates the node's token or forgets the node, the gateway's
    stored token of the node survives whatever the others do. *)
Section tokens.
Context {T : Entropy} {C : CameraEnv} {O : ConsoleEnv}.

Definition draws_le (t t' : Txn) : Prop := (t_draws t ≤ t_draws t')%nat.

#[local] Instance draws_le_preorder : PreOrder draws_le.
Proof. split; unfold draws_le; repeat intro; lia. Qed.

Lemma draws_get_section k : preserves draws_le (get_section k).
Proof. unfold get_section. pres. Qed.
Lemma draws_put_section k d : preserves draws_le (put_section k d).
Proof. intros t. apply le_n. Qed.
Lemma draws_draw {A} (f : nat → A) : preserves draws_le (draw f).
Proof. intros t. unfold draws_le. simpl. lia. Qed.
Lemma draws_secrets {A} (m : M file A) : preserves draws_le (txn_secrets m).
Proof. intros t. unfold txn_secrets, zoom. destruct (m _). apply le_n. Qed.
#[local] Hint Resolve draws_get_section draws_put_section draws_draw draws_secrets : pres.

Lemma flock_draws {A} (body : M Txn A) s :
  preserves draws_le body → (s_draws s ≤ s_draws (flock_state body s).2)%nat.
Proof.
  intros Hb. destruct (flock_state body s) as [r s'] eqn:Hrun.
  apply flock_cases in Hrun as (_ & _ & [(e & _ & _ & [[_ Hd]|(d & r' & t & _ & Hrun & _ & Hd)])
                                        |(d & a & t & _ & Hrun & _ & _ & _ & Hd)]);
    simpl; rewrite Hd; [done|..]; specialize (Hb (start s d)); by rewrite Hrun in Hb.
Qed.

Lemma draws_bind {A B} (m : M Store A) (f : A → M Store B) s :
  (s_draws s ≤ s_draws (m s).2)%nat → (∀ a s1, (s_draws s1 ≤ s_draws (f a s1).2)%nat) →
  (s_draws s ≤ s_draws ((m ≫= f) s).2)%nat.
Proof.
  unfold mbind, M_bind. intros Hm Hf. destruct (m s) as [[a|e] s1]; simpl in *; [|done].
  specialize (Hf a s1). lia.
Qed.

Lemma call_draws c s : (s_draws s ≤ s_draws (run_store_call c s).2)%nat.
Proof.
  assert (Htouch : ∀ id x s, (s_draws s ≤ s_draws (touch_checked id x s).2)%nat).
  { intros. apply flock_draws. unfold update_row. pres. }
  destruct c; apply draws_bind; try done; try (apply flock_draws; unfold update_row; pres; fail); try apply Htouch.
  - unfold upsert_node. destruct (String.eqb node_id LOCAL_NODE_ID); [done|].
    apply flock_draws. unfold upsert_body, node_token, mint_agent_token. cbv zeta. pres.
  - apply draws_bind; [done|]. intros _ s1. apply flock_draws. unfold add_body, mint_agent_token. cbv zeta. pres.
  - unfold remove_node. destruct (String.eqb node_id LOCAL_NODE_ID); [done|].
    apply draws_bind; [apply flock_draws; unfold remove_body; cbv zeta; pres|].
    intros out s1. apply draws_bind; [|done]. unfold on_secrets, zoom. destruct (remove_node_secret _ _). apply le_n.
  - apply flock_draws. unfold upsert_binding_body. cbv zeta. pres.
  - apply draws_bind; [done|]. intros _ s1. apply flock_draws. unfold update_row. pres.
Qed.

Context (id : string) (n0 : nat).

(** No row of the node carries a legacy token, and the counter of draws is past [n0]. *)
Definition settled (s : Store) : Prop := (n0 ≤ s_draws s)%nat ∧ topo_inv (no_inline id) s.
Definition agrees (tok : string) (s : Store) : Prop :=
  (token_at id tok (s_secrets s) ∧ (n0 ≤ s_draws s)%nat) ∧ topo_inv (no_inline id) s.

Lemma agrees_settled tok s : agrees tok s → settled s.
Proof. intros [[_ ?] ?]. by split. Qed.

Lemma call_settled c s : settled s → settled (run_store_call c s).2.
Proof.
  intros [Hn Hi]. split; [pose proof (call_draws c s); lia|].
  by apply call_inv; [apply edit_no_inline|apply written_no_inline|].
Qed.

Lemma faulty_settled cs s : settled s → settled (run_faulty cs s).
Proof.
  revert s. induction cs as [|[[ft fs] c] cs IH]; intros s Hs; [done|]. simpl.
  by apply IH, call_settled.
Qed.

Lemma interfere_settled n s : settled s → settled (interfere n s).
Proof. intros Hs. by apply (faulty_settled (others n)) in Hs. Qed.

Context (tok : string) (Htok : tok ≠ EmptyString).
Context (Hfresh : ∀ n, (n0 ≤ n)%nat → ("node-" ++ uuid12 n)%string ≠ id).

Lemma call_agrees c s :
  f_fault (s_secrets s) ≠ Some SysRead → addresses_token id c = false → agrees tok s →
  agrees tok (run_store_call c s).2.
Proof.
  intros Hf Hc [[Ht Hn] Hi]. split.
  - by destruct (call_keeps_token id tok Htok n0 Hfresh c s) as [[? _] ?].
  - by apply call_inv; [apply edit_no_inline|apply written_no_inline|].
Qed.

Lemma faulty_agrees cs s :
  Forall (λ c, c.1.2 ≠ Some SysRead ∧ addresses_token id c.2 = false) cs → agrees tok s →
  agrees tok (run_faulty cs s).
Proof.
  intros Hcs. revert s. induction Hcs as [|[[ft fs] c] cs [Hf Hc] _ IH]; intros s Hs; [done|]. simpl in *.
  by apply IH, call_agrees.
Qed.

(** The others neither rotate the node's token nor forget the node, and nobody's reading of
    the secret file fails. *)
Definition spare_token : Prop :=
  ∀ n, secrets_fault n ≠ Some SysRead ∧
       Forall (λ c, c.1.2 ≠ Some SysRead ∧ addresses_token id c.2 = false) (others n).

Lemma interfere_agrees n s : spare_token → agrees tok s → agrees tok (interfere n s).
Proof. intros Ho Hs. apply (faulty_agrees (others n)) in Hs; [done|apply Ho]. Qed.

(** An access of this thread that performs a call of the store. *)
Lemma wp_call_agrees c (m : M Store unit) (Q : res unit → Console → Prop) w :
  spare_token → addresses_token id c = false → agrees tok (c_store w) →
  (∀ s, (m s).2 = (run_store_call c s).2) →
  (∀ r w', store_only w w' → agrees tok (c_store w') → Q r w') → wp (at_store m) Q w.
Proof.
  intros Ho Hc Hs Hm HQ. apply wp_at_store. intros n. apply wp_intro. intros r s' Hrun w' Hw Hst.
  apply HQ; [done|]. rewrite Hst. replace s' with (m (interfere n (c_store w))).2 by (by rewrite Hrun).
  rewrite Hm. apply call_agrees; [apply Ho|done|by apply interfere_agrees].
Qed.
End tokens.

(** ** The others and a binding's row *)
Section binding_rows.
Context {T : Entropy} {C : CameraEnv} {O : ConsoleEnv} (bid : string).

Definition spare_binding : Prop := ∀ n, Forall (λ c, spares bid c.2) (others n).

Lemma interfere_table P n s : steady bid P → spare_binding → table P s → table P (interfere n s).
Proof. intros HP Ho Hs. by apply (faulty_table bid P HP (others n)) in Hs. Qed.

(** The documents a read leaves as they were. *)
Lemma docs_table P s s' : same_docs s s' → table P s → table P s'.
Proof. intros (Hc & _) (d & Hd & HPd). exists d. by rewrite Hc. Qed.

(** An access of this thread: what holds of the table before it holds when its body runs. *)
Lemma wp_at_table {A} P (m : M Store A) (Q : res A → Console → Prop) c :
  steady bid P → spare_binding → table P (c_store c) →
  (∀ s r s' c', table P s → m s = (r, s') → store_only c c' → c_store c' = s' → Q r c') →
  wp (at_store m) Q c.
Proof.
  intros HP Ho Hc HQ. apply wp_at_store. intros n. apply wp_intro. intros r s' Hrun c' Hc' Hst.
  by eapply HQ; [apply (interfere_table P n)|..].
Qed.
End binding_rows.

(** Acting on the gateway without touching the topology. *)
Lemma wp_at_gate `{Entropy} `{CameraEnv} `{ConsoleEnv} {A} (m : M Gateway A)
    (Q : res A → Console → Prop) c :
  preserves (keeps g_store) m →
  (∀ n r c', c_ssh c' = c_ssh c → c_store c' = interfere n (c_store c) → Q r c') → wp (at_gate m) Q c.
Proof.
  intros Hm HQ. unfold at_gate, disturb, c_tick, on_gate, on_bindings, on_world, tick, zoom, modify, wp, mbind, M_bind.
  cbn. match goal with |- context [m ?g] => specialize (Hm g); destruct (m g) as [r g'] end.
  eapply (HQ (w_tick (g_world (c_gate c)))); [done|exact Hm].
Qed.

Lemma ensure_janus_store {E : Env} {N : NodeEnv} b : preserves (keeps g_store) (ensure_janus b).
Proof.
  assert (Hw : ∀ A (m : M World A), preserves (keeps g_store) (on_world m)).
  { intros A m g. unfold on_world, zoom. by destruct (m (g_world g)). }
  assert (Hs : ∀ r, preserves (keeps g_store) (send r)) by done.
  unfold ensure_janus, reconcile_existing. pres.
Qed.
