(* ===== verification/ConsoleSamples.v ===== *)
(** * A small gateway with one node

    Concrete environments and a state of the console, for the witnesses: one enrolled
    node that answers over SSH and through its agent, with another request that keeps
    updating the node's row. *)
From S2P Require Import Prelude.
From S2P Require Import PyVal.
From S2P Require Import FileStore.
From S2P Require Import World.
From S2P Require Import BindingModels.
From S2P Require Import TopologyStore.
From S2P Require Import Nodes.
From S2P Require Import TopologyCalls.
From S2P Require Import TopologyTheorems.
From S2P Require Import BindingProvision.
From S2P Require Import Firewall.
From S2P Require Import AuditLog.
From S2P Require Import Lifecycle.
From S2P Require Import NodeTransport.
From S2P Require Import Console.

(** Janus creates mountpoints, the agent is up. *)
Definition sample_nodes : NodeEnv := {|
  create_mountpoint _ _ := Ok tt;
  list_mountpoints _ := Ok [];
  agent_healthz _ _ := AgentReply 200 (Ok (JObj []));
  agent_post _ _ _ := AgentReply 200 (Ok (JObj [("ok", JBool true)]%string))  |}.

(** Every program run on the node succeeds and prints the probe's answer; its host key
    and the fingerprint of that key are the same at every scan. *)
Definition sample_ssh : SshEnv := {|
  ssh_answers _ := SshDone (mkRun 0 (TxDoc (JObj [("available", JBool true);
                     ("devices", JArr [JObj [("serial", JStr "0123")]])]%string)) EmptyString);
  keyscan _ host := Some (host ++ " ssh-ed25519 AAAAC3")%string;
  keygen _ _ := Some "256 SHA256:q2Zt node (ED25519)"%string;
  stdout_repr _ := "''"%string;
  NODE_SSH_USER := "robot" |}.

Definition sample_runner : Runner := {| run_ipt _ _ := Ok (0, EmptyString) |}.

(** Before every access, the monitor has updated the node's reachability, once in vain. *)
Definition sample_console_env : ConsoleEnv := {|
  others _ := [(None, None, CTouchChecked "node-0" "reachable");
               (Some SysReplace, None, CSetReachability "node-0" "unreachable")]%string;
  topo_fault _ := None; secrets_fault _ := None;
  others_journal _ := []; journal_fault _ := None;
  op_uuid n := ("op-" ++ pretty n)%string;
  now_sec n := Z.of_nat n;
  bundle_exists _ := true;
  agent_answers _ _ := AgentReply 200 (Ok (JObj [("ok", JBool true)]%string));
  local_depth _ _ := Ok (JObj []);
  console_lan := mkLan "192.168.10.10" NoCidr;
  fleet_file _ := Absent |}.

Definition sample_console (s : Store) : Console :=
  mkConsole (mkGateway sample_world s [] []) [] [] [] empty_audit (file_of Absent) [] [] [] None [].

(** The rows of the samples carry no legacy token, and no later name is that of the node. *)
Lemma sample_no_inline : topo_inv (no_inline "node-0") enrolled_store.
Proof.
  intros d Hd raw x Hraw Hx. vm_compute in Hd. injection Hd as <-. vm_compute in Hraw.
  injection Hraw as <-. vm_compute in Hx. by injection Hx as <-.
Qed.

Lemma sample_fresh n :
  (s_draws enrolled_store ≤ n)%nat → ("node-" ++ uuid12 (Entropy:=sample_entropy) n)%string ≠ "node-0"%string.
Proof.
  intros Hn Heq. change (s_draws enrolled_store) with 2%nat in Hn.
  change "node-0"%string with ("node-" ++ pretty 0%nat)%string in Heq.
  apply (inj (String.append "node-")) in Heq. apply (inj pretty) in Heq. lia.
Qed.

Lemma sample_minted n : token_urlsafe (Entropy:=sample_entropy) n ≠ EmptyString.
Proof. done. Qed.
