(* ===== verification/NodeOps.v ===== *)
(** * Operations on nodes ([app/services/node_provisioner.py],
    [app/services/node_transport.py], [app/services/node_operation_runner.py])

    Deploying the stream pipe on a node over SSH, rotating its agent's token, activating
    its streams, and the runner that executes such an operation in a thread of its own and
    records its outcome in the journal. Result details that carry exception texts are not
    modelled. *)
From S2P Require Import Prelude.
From S2P Require Import Hoare.
From S2P Require Import PyVal.
From S2P Require Import PyStr.
From S2P Require Import FileStore.
From S2P Require Import World.
From S2P Require Import BindingModels.
From S2P Require Import TopologyStore.
From S2P Require Import Nodes.
From S2P Require Import Bindings.
From S2P Require Import TopologyCalls.
From S2P Require Import TopologyTheorems.
From S2P Require Import BindingRows.
From S2P Require Import BindingProvision.
From S2P Require Import Journal.
From S2P Require Import Firewall.
From S2P Require Import AuditLog.
From S2P Require Import Lifecycle.
From S2P Require Import NodeTransport.
From S2P Require Import Console.
From S2P Require Import ConsoleSamples.

Definition BUNDLE_REMOTE : string := "/tmp/camera-node-bundle.tar.gz".
Definition REMOTE_DIR : string := "/tmp/camera-node-bundle".
Definition PROBE_CLI : string := REMOTE_DIR ++ "/probe/realsense_probe_cli.py".
Definition BOOTSTRAP : string := REMOTE_DIR ++ "/bootstrap.sh".

(** ** Command lines *)
Definition extract_cmd : string :=
  "rm -rf " ++ REMOTE_DIR ++ " && tar xzf " ++ BUNDLE_REMOTE ++ " -C /tmp".
Definition probe_cmd : string := "python3 " ++ PROBE_CLI ++ " --json".
Definition cleanup_cmd : string := "rm -rf " ++ REMOTE_DIR ++ " " ++ BUNDLE_REMOTE.

(** [f"{shlex.quote(BOOTSTRAP)} <verb> --agent-token {shlex.quote(token)}"] *)
Definition token_cmd (verb token : string) : string :=
  quote BOOTSTRAP ++ " " ++ verb ++ " --agent-token " ++ quote token.

Definition activate_cmd (sensor gateway_host : string) (rtp_port : Z) : string :=
  quote BOOTSTRAP ++ " activate --sensor " ++ quote sensor ++ " --rtp-target-host "
    ++ quote gateway_host ++ " --rtp-port " ++ pretty rtp_port.

Record ProvisionResult := mkProvision {
  pr_node_id : string; pr_state : string; pr_serial : json; pr_detail : string;
}.

Record BindOutcome := mkBind { bo_binding_id : string; bo_rtp_port : Z }.
Record StreamResult := mkStream { sr_sensor : string; sr_ok : bool; sr_binding_id : option string }.

(** The text of a token. *)
Definition token_text (j : json) : res string :=
  match j with JStr s => Ok s | _ => fail EType end.

(** [json.loads(pr.stdout or "{}")] *)
Definition probe_info (out : text) : res json :=
  match out with TxEmpty => Ok (JObj []) | t => json_loads t end.

(** [(info.get("devices") or [{}])[0].get("serial")] *)
Definition probe_serial (info : json) : res json :=
  devices ← jget info "devices" JNull;
  first ← (if truthy devices then first_item devices else Ok (JObj []));
  jget first "serial" JNull.

Section ops.
Context {E : Env} {N : NodeEnv} {T : Entropy} {C : CameraEnv} {S : SshEnv} {L : AuditEnv} {R : Runner}.
Context {O : ConsoleEnv}.

(** [secrets.token_urlsafe(32)] *)
Definition fresh_token : M Store string :=
  fun s => (Ok (token_urlsafe (s_draws s)), mkStore (s_topo s) (s_secrets s) (s_alloc s) (Datatypes.S (s_draws s))).

(** [f"... {x!r}"] and the other texts the operator reads are strings of their own. *)
Definition mark (node_id state : string) : M Console unit :=
  at_store (set_provision_state node_id state None) ;; mret tt.

Definition provision_failed (node_id detail : string) : M Console ProvisionResult :=
  at_store (set_provision_state node_id "failed" (Some detail)) ;;
  mret (mkProvision node_id "failed" JNull (String.substring 0 200 detail)).

(** The node's token, minted and stored for a node that has none. *)
Definition agent_token_for (node : NodeEntry) (node_id : string) : M Console json :=
  if truthy (n_agent_token node) then mret (n_agent_token node)
  else
    token ← at_store fresh_token;
    at_store (set_agent_token node_id token) ;;
    mret (JStr token).

(** The deployment proper, once the probe has answered. *)
Definition deploy (node_id : string) (t : SSHTransport) (token info : json) : M Console ProvisionResult :=
  available ← lift (jget info "available" JNull);
  if negb (truthy available) then
    mark node_id "no_camera" ;;
    at_ssh (ssh_run t cleanup_cmd false "60.0") ;;
    mret (mkProvision node_id "no_camera" JNull "no camera found")
  else
    serial ← lift (probe_serial info);
    when (truthy serial) (at_store (Nodes.set_serial node_id serial) ;; mret tt) ;;
    token ← lift (token_text token);
    dep ← at_ssh (ssh_run t (token_cmd "deploy" token) true "300.0");
    if negb (rr_ok dep)
    then provision_failed node_id ("pipe deploy failed: " ++ String.substring 0 160 (rr_stderr dep))
    else mark node_id "ready" ;; mret (mkProvision node_id "ready" serial EmptyString).

Definition provision (node_id : string) (t : SSHTransport) (bundle_tar : string)
    : M Console ProvisionResult :=
  node ← at_store (get_node node_id);
  match node with
  | None => throw EValue
  | Some node =>
      token ← agent_token_for node node_id;
      echo ← at_ssh (ssh_run t "echo provision-ok" false "60.0");
      if negb (rr_ok echo) then provision_failed node_id "node unreachable over SSH"
      else
        mark node_id "reachable" ;;
        pushed ← at_ssh (ssh_push t bundle_tar BUNDLE_REMOTE);
        if negb (rr_ok pushed) then provision_failed node_id "bundle push failed"
        else
          at_ssh (ssh_run t extract_cmd false "60.0") ;;
          mark node_id "probing" ;;
          pr ← at_ssh (ssh_run t probe_cmd false "60.0");
          info ← try_except (x ← lift (probe_info (rr_stdout pr)); mret (Some x)) CJsonDecode (fun _ => mret None);
          match info with
          | None => provision_failed node_id ("probe returned non-JSON: " ++ stdout_repr (rr_stdout pr))
          | Some info => deploy node_id t token info
          end
  end.

Definition rotate_token (node_id : string) (t : SSHTransport) : M Console bool :=
  node ← at_store (get_node node_id);
  match node with
  | None => throw EValue
  | Some _ =>
      token ← at_store fresh_token;
      r ← at_ssh (ssh_run t (token_cmd "set-token" token) true "60.0");
      if negb (rr_ok r) then mret false
      else at_store (set_agent_token node_id token) ;; mret true
  end.

(** One round of the loop of [activate_streams]. *)
Definition activate_stream (t : SSHTransport) (gateway_host : string)
    (on_bind : NodeEntry → string → M Console BindOutcome) (node : NodeEntry) (sensor : string)
    : M Console StreamResult :=
  bound ← try_except (o ← on_bind node sensor; mret (Some o)) CException (fun _ => mret None);
  match bound with
  | None => mret (mkStream sensor false None)
  | Some o =>
      act ← at_ssh (ssh_run t (activate_cmd sensor gateway_host (bo_rtp_port o)) true "120.0");
      mret (mkStream sensor (rr_ok act) (Some (bo_binding_id o)))
  end.

Fixpoint activate_loop (t : SSHTransport) (gateway_host : string)
    (on_bind : NodeEntry → string → M Console BindOutcome) (node : NodeEntry) (sensors : list string)
    : M Console (list StreamResult) :=
  match sensors with
  | [] => mret []
  | sensor :: rest =>
      r ← activate_stream t gateway_host on_bind node sensor;
      rs ← activate_loop t gateway_host on_bind node rest;
      mret (r :: rs)
  end.

Definition activate_streams (node_id : string) (t : SSHTransport) (sensors : list string)
    (gateway_host : string) (on_bind : NodeEntry → string → M Console BindOutcome)
    : M Console (list StreamResult) :=
  node ← at_store (get_node node_id);
  match node with
  | None => throw EValue
  | Some node => activate_loop t gateway_host on_bind node sensors
  end.

(** *** The gateway's side of an activation *)

(** The slot of the binding when it is a remote one, or a fresh slot of the node's window. *)
Definition binding_slot (node : NodeEntry) (existing : option StreamBinding) : M Console (Z * Z) :=
  let fresh :=
    (mp ← at_store (allocate_mountpoint (n_node_id node));
     port ← at_store (allocate_port (n_node_id node));
     mret (mp, port)) in
  match existing with
  | Some b =>
      if bool_decide (b_mode b = REMOTE_PRODUCER)
      then mret (jc_mountpoint_id (b_janus b), tr_rtp_port (b_transport b))
      else fresh
  | None => fresh
  end.

Definition remote_binding (bid node_id sensor gateway_host codec : string) (payload_type mp port : Z)
    : StreamBinding :=
  mkBinding bid node_id sensor REMOTE_PRODUCER (mkTransport port payload_type codec JNull)
    (mkJanusConfig mp gateway_host) default_fdir "configured_offline" true.

(** [make_gateway_binder(gateway_host)] *)
Definition bind (gateway_host : string) (node : NodeEntry) (sensor : string) : M Console BindOutcome :=
  bid ← lift (remote_binding_id node sensor);
  existing ← at_store (get_binding bid);
  '(mp, port) ← binding_slot node existing;
  let binding := remote_binding bid (n_node_id node) sensor gateway_host "h264" 96 mp port in
  at_store (upsert_binding binding (cfg_janus_mount_id cfg)) ;;
  status ← at_gate (ensure_janus binding);
  match status with
  | CREATED | EXISTS =>
      at_store (set_status bid (StreamStatus_value WAITING_FOR_RTP)) ;;
      mret (mkBind bid port)
  | CONFLICT | FAILED => throw ERuntime
  end.

(** [activate_remote]: the results of the streams are not looked at; the firewall is
    reconciled best effort. *)
Definition activate_remote (node_id : string) (t : SSHTransport) (sensors : list string)
    (gateway_host : string) : M Console unit :=
  activate_streams node_id t sensors gateway_host (bind gateway_host) ;;
  try_except (at_firewall (reconcile true) ;; mret tt) CException (fun _ => mret tt).

(** ** Building a transport *)

(** The transport to a node whose key was confirmed; without one, only with [allow_tofu],
    which pins what ssh-keyscan answers, if anything. *)
Definition build_transport (node : NodeEntry) (sudo_password : option string) (allow_tofu : bool)
    : M Console SSHTransport :=
  let transport host key := mkSsh host NODE_SSH_USER sudo_password key in
  if truthy (n_host_key node) then mret (transport (n_host node) (n_host_key node))
  else if negb allow_tofu then throw (EUseCase HostKeyNotConfirmed)
  else
    hk ← at_ssh (capture_host_key (n_host node));
    if String.eqb hk EmptyString then mret (transport (n_host node) (n_host_key node))
    else
      at_store (set_host_key (n_node_id node) hk) ;;
      fp ← at_ssh (host_key_fingerprint hk);
      record_audit "stream_bindings.node.host_key_tofu"
        [("node_id", JStr (n_node_id node)); ("fingerprint", JStr fp)]%string (Some "applied"%string) ;;
      node' ← at_store (get_node (n_node_id node));
      match node' with
      | Some n => mret (transport (n_host n) (n_host_key n))
      | None => throw EAttribute                 (* the node was forgotten meanwhile *)
      end.

(** ** The runner *)

Definition op_type (op : node_op) : string :=
  match op with OpProvision _ _ => "provision" | OpRotate _ => "rotate-token" | OpActivate _ _ _ => "activate" end.

Definition op_body (node_id : string) (op : node_op) : M Console unit :=
  match op with
  | OpProvision t bundle_tar => provision node_id t bundle_tar ;; mret tt
  | OpRotate t => rotate_token node_id t ;; mret tt
  | OpActivate t sensors gateway_host => activate_remote node_id t sensors gateway_host
  end.

(** The request's part: the journal admits the operation and the thread is started. *)
Definition spawn_node_op (node_id : string) (op : node_op) : M Console string :=
  n ← c_tick;
  try_except2
    (op_id ← at_journal (run_op node_id (op_type op) (op_uuid n) (now_sec n));
     modify (add_thread (mkThread op_id node_id op)) ;;
     mret op_id)
    CConflict (fun _ => throw (EHttp 409)) CJournalCorrupt (fun _ => throw (EHttp 503)).

(** The thread: the body runs, its outcome is recorded. *)
Definition run_thread (th : thread) : M Console unit :=
  outcome ← try_except (op_body (th_node_id th) (th_op th) ;; mret (Ok tt)) CException
              (fun e => mret (Raise e));
  n ← c_tick;
  at_journal (record_outcome (th_op_id th) outcome (now_sec n)).
End ops.

(** ** What a node is told *)

(** The words of the command root runs on the node, of a connection made with [sudo]. *)
Definition root_words (c : connection) : option (list string) :=
  match cn_payload c with
  | SshRun line _ =>
      match shlex_split line with
      | Some [sudo; s; p; e; bash; c; cmd] =>
          if decide ([sudo; s; p; e; bash; c] = ["sudo"; "-S"; "-p"; ""; "bash"; "-c"]%string)
          then shlex_split cmd else None
      | _ => None
      end
  | SshPush _ _ => None
  end.

Lemma root_words_sudo host user pin cmd stdin :
  root_words (mkConn host user pin (SshRun (sudo_line cmd) stdin)) = shlex_split cmd.
Proof. unfold root_words. simpl. rewrite sudo_line_words. by rewrite decide_True. Qed.

Lemma token_cmd_words verb token :
  quote verb = verb →
  shlex_split (token_cmd verb token) = Some [BOOTSTRAP; verb; "--agent-token"; token]%string.
Proof.
  intros Hv. apply split_words. cbn [map]. rewrite Hv. reflexivity.
Qed.

Lemma activate_cmd_words sensor host port :
  shlex_split (activate_cmd sensor host port)
  = Some [BOOTSTRAP; "activate"; "--sensor"; sensor; "--rtp-target-host"; host; "--rtp-port"; pretty port]%string.
Proof.
  apply split_words. cbn [map]. rewrite quote_pretty. reflexivity.
Qed.

(** The payload of [ssh_run]. *)
Definition say (t : SSHTransport) (sudo : bool) (cmd : string) : ssh_payload :=
  SshRun (if sudo then sudo_line cmd else cmd)
    (if sudo then Some (default EmptyString (tr_sudo_password t) ++ newline_)%string else None).

Section talk.
Context {S : SshEnv} (t : SSHTransport) (pin : option string).
Context (Hpin : pin_of t = Ok pin).

Definition over (p : ssh_payload) : ssh_event := Connected (mkConn (tr_host t) (tr_user t) pin p).

Lemma wp_ssh_run cmd sudo timeout (Q : res RunResult → Console → Prop) c :
  Q (run_result ("ssh timeout after " ++ timeout ++ "s") (ssh_answers (length (c_ssh c))))
    (set_ssh (c_ssh c ++ [over (say t sudo cmd)]) c) →
  wp (at_ssh (ssh_run t cmd sudo timeout)) Q c.
Proof.
  intros H. apply wp_at_ssh. unfold ssh_run, connect, ssh_event_, wp, mbind, M_bind, lift, gets, modify.
  cbn. by rewrite Hpin.
Qed.

Lemma wp_ssh_push local remote (Q : res RunResult → Console → Prop) c :
  Q (run_result "scp timeout after 120.0s" (ssh_answers (length (c_ssh c))))
    (set_ssh (c_ssh c ++ [over (SshPush local remote)]) c) →
  wp (at_ssh (ssh_push t local remote)) Q c.
Proof.
  intros H. apply wp_at_ssh. unfold ssh_push, connect, ssh_event_, wp, mbind, M_bind, lift, gets, modify.
  cbn. by rewrite Hpin.
Qed.
End talk.

(** ** The node and the gateway agree on the token *)

(** The connection's command is the bootstrap script's [verb] with the token. *)
Definition token_told (verb tok : string) (e : ssh_event) : Prop :=
  match e with
  | Connected k => root_words k = Some [BOOTSTRAP; verb; "--agent-token"; tok]%string
  | _ => False
  end.

(** The connections an operation made: to the transport's host, checked against its pin. *)
Definition talked (t : SSHTransport) (pin : option string) (c c' : Console) (pls : list ssh_payload) : Prop :=
  c_ssh c' = c_ssh c ++ map (over t pin) pls.

Section agreement.
Context {E : Env} {N : NodeEnv} {T : Entropy} {C : CameraEnv} {S : SshEnv} {L : AuditEnv} {R : Runner}.
Context {O : ConsoleEnv}.
Context (node_id : string) (t : SSHTransport) (pin : option string) (n0 : nat).
Context (Hpin : pin_of t = Ok pin) (Hspare : spare_token node_id).
Context (Hfresh : ∀ n, (n0 ≤ n)%nat → ("node-" ++ uuid12 n)%string ≠ node_id).
Context (Hmint : ∀ n, token_urlsafe n ≠ EmptyString).

Lemma talked_over verb tok :
  quote verb = verb → token_told verb tok (over t pin (say t true (token_cmd verb tok))).
Proof.
  intros Hv. unfold token_told, over, say. cbv iota. rewrite root_words_sudo. by apply token_cmd_words.
Qed.

(** Reading the node, with the others at work. *)
Lemma wp_get_node (P : Store → Prop) (Q : res (option NodeEntry) → Console → Prop) c :
  P (c_store c) → (∀ n s, P s → P (interfere n s)) → (∀ s s', same_docs s s' → P s → P s') →
  (∀ r c', store_only c c' → P (c_store c') →
     (∀ n tok, r = Ok (Some n) → n_agent_token n = JStr tok → tok ≠ EmptyString →
               topo_inv (no_inline node_id) (c_store c') → token_at node_id tok (s_secrets (c_store c'))) →
     Q r c') →
  wp (at_store (get_node node_id)) Q c.
Proof.
  intros HP Hi Hd HQ. apply wp_at_store. intros n. apply wp_intro. intros r s' Hrun c' Hc' Hst.
  pose proof (get_node_docs node_id (interfere n (c_store c))) as Hs. rewrite Hrun in Hs. simpl in Hs.
  apply HQ; [done|rewrite Hst; by eapply Hd, Hi|]. rewrite Hst. intros nd tok -> Htok Hne Hinl.
  eapply get_node_token; [done..|]. destruct Hs as [Ht _]. intros d. rewrite <- Ht. apply Hinl.
Qed.

Lemma settled_docs s s' : same_docs s s' → settled node_id n0 s → settled node_id n0 s'.
Proof. intros (Ht & _ & _ & Hd) [H1 H2]. split; [by rewrite Hd|]. intros d. rewrite Ht. apply H2. Qed.

Lemma agrees_docs tok s s' : same_docs s s' → agrees node_id n0 tok s → agrees node_id n0 tok s'.
Proof.
  intros Hs [[H1 H2] H3]. destruct (settled_docs _ _ Hs (conj H2 H3)). destruct Hs as (_ & Hc & _).
  split; [split|]; [|done..]. by apply (token_at_same _ _ (s_secrets s)).
Qed.

(** Storing a token: on success it is the node's token. *)
Lemma wp_store_token tok (Q : res NodeEntry → Console → Prop) c :
  settled node_id n0 (c_store c) →
  (∀ r c', store_only c c' → settled node_id n0 (c_store c') →
     (is_ok r = true → agrees node_id n0 tok (c_store c')) → Q r c') →
  wp (at_store (set_agent_token node_id tok)) Q c.
Proof.
  intros Hs HQ. apply wp_at_store. intros n. apply wp_intro. intros r s' Hrun c' Hc' Hst.
  assert (Hs' : settled node_id n0 s').
  { apply (interfere_settled node_id n0 n), (call_settled node_id n0 (CSetAgentToken node_id tok)) in Hs.
    simpl in Hs. unfold mbind, M_bind in Hs. rewrite Hrun in Hs. by destruct r. }
  apply HQ; [done|by rewrite Hst|]. rewrite Hst. intros Hok. destruct r as [nd|]; [|done].
  destruct Hs' as [H1 H2]. split; [split|]; [|done..]. by eapply set_agent_token_stores.
Qed.

Lemma wp_fresh_token (P : Store → Prop) (Q : res string → Console → Prop) c :
  P (c_store c) → (∀ n s, P s → P (interfere n s)) →
  (∀ s, P s → P (mkStore (s_topo s) (s_secrets s) (s_alloc s) (Datatypes.S (s_draws s)))) →
  (∀ tok c', tok ≠ EmptyString → store_only c c' → P (c_store c') → Q (Ok tok) c') →
  wp (at_store fresh_token) Q c.
Proof.
  intros HP Hi Hd HQ. apply wp_at_store. intros n c' Hc' Hst.
  apply HQ; [apply Hmint|done|rewrite Hst; by apply Hd, Hi].
Qed.

Lemma settled_drawn s :
  settled node_id n0 s →
  settled node_id n0 (mkStore (s_topo s) (s_secrets s) (s_alloc s) (Datatypes.S (s_draws s))).
Proof. intros [H1 H2]. split; [simpl; lia|done]. Qed.

(** The specification of a rotation, for a node whose stored token was [tok]. *)
Lemma wp_rotate_token tok c :
  tok ≠ EmptyString → agrees node_id n0 tok (c_store c) →
  wp (rotate_token node_id t)
    (λ (r : res bool) c',
      match r with
      | Ok true => ∃ new, talked t pin c c' [say t true (token_cmd "set-token" new)] ∧
                          (∃ x, run_result "ssh timeout after 60.0s" (ssh_answers (length (c_ssh c))) = Ok x ∧
                                rr_ok x = true) ∧
                          token_at node_id new (s_secrets (c_store c'))
      | Ok false => token_at node_id tok (s_secrets (c_store c')) ∧
                    ∃ x, run_result "ssh timeout after 60.0s" (ssh_answers (length (c_ssh c))) = Ok x ∧
                                rr_ok x = false
      | Raise _ => c_ssh c' = c_ssh c → token_at node_id tok (s_secrets (c_store c'))
      end) c.
Proof.
  intros Hne Hs. unfold rotate_token. wp_step.
  eapply (wp_get_node (agrees node_id n0 tok)); [done|intros; by apply interfere_agrees|apply agrees_docs|].
  intros r c1 (Hssh1 & _) Hs1 _. destruct r as [[nd|]|e]; simpl; [|intros _; apply Hs1..].
  wp_step. eapply (wp_fresh_token (agrees node_id n0 tok)); [done|intros; by apply interfere_agrees|..].
  { intros s [[H1 H2] H3]. split; [split; [done|simpl; lia]|done]. }
  intros new c2 Hnew (Hssh2 & _) Hs2. simpl. wp_step. eapply wp_ssh_run; [done|].
  rewrite Hssh2, Hssh1. 
  destruct (run_result _ (ssh_answers (length (c_ssh c)))) as [x|e] eqn:Hx; simpl.
  2: { intros Heq. apply Hs2. }
  destruct (rr_ok x) eqn:Hok; simpl.
  - wp_step. apply wp_store_token; [by apply agrees_settled in Hs2|].
    intros r c3 (Hssh3 & _) _ Hset. destruct r as [n|e]; simpl.
    + exists new. split_and!; [|by exists x|by apply Hset]. unfold talked. by rewrite Hssh3.
    + intros Heq. rewrite Hssh3 in Heq. simpl in Heq. apply (f_equal length) in Heq.
      rewrite length_app in Heq. simpl in Heq. lia.
  - split; [apply Hs2|]. by exists x.
Qed.

(** *** The deployment *)

(** Where a deployment of a node with token [tokj] stands: what was sent, and that the
    gateway's token of the node is [tokj]. *)
Definition stands (l0 : list ssh_event) (tokj : json) (pls : list ssh_payload) (c : Console) : Prop :=
  c_ssh c = l0 ++ map (over t pin) pls ∧ settled node_id n0 (c_store c) ∧
  ∀ tok, tokj = JStr tok → tok ≠ EmptyString ∧ agrees node_id n0 tok (c_store c).

Lemma wp_stands_call {A} call (m : M Store A) (Q : res A → Console → Prop) l0 tokj pls c :
  stands l0 tokj pls c → addresses_token node_id call = false →
  (∀ s, (m s).2 = (run_store_call call s).2) →
  (∀ r c', stands l0 tokj pls c' → Q r c') → wp (at_store m) Q c.
Proof.
  intros (Hl & Hs & Ha) Hc Hm HQ. apply wp_at_store. intros n. apply wp_intro.
  intros r s' Hrun c' (Hssh & _) Hst. apply HQ.
  assert (Hs' : s' = (run_store_call call (interfere n (c_store c))).2) by (by rewrite <- Hm, Hrun).
  split_and!; [congruence|..]; rewrite Hst, Hs'.
  - by apply call_settled, interfere_settled.
  - intros tok Htok. destruct (Ha tok Htok) as [Hne Hag]. split; [done|].
    apply call_agrees; [done..|apply Hspare|done|by apply interfere_agrees].
Qed.

Lemma wp_stands_run cmd sudo timeout (Q : res RunResult → Console → Prop) l0 tokj pls c :
  stands l0 tokj pls c →
  (∀ c', stands l0 tokj (pls ++ [say t sudo cmd]) c' →
     Q (run_result ("ssh timeout after " ++ timeout ++ "s")
          (ssh_answers (length l0 + length pls))) c') →
  wp (at_ssh (ssh_run t cmd sudo timeout)) Q c.
Proof.
  intros (Hl & Hs & Ha) HQ. eapply wp_ssh_run; [done|].
  replace (length (c_ssh c)) with (length l0 + length pls)%nat by (by rewrite Hl, length_app, length_map).
  apply HQ. split; [|done]. simpl. by rewrite Hl, map_app, app_assoc.
Qed.

Lemma wp_stands_push local remote (Q : res RunResult → Console → Prop) l0 tokj pls c :
  stands l0 tokj pls c →
  (∀ r c', stands l0 tokj (pls ++ [SshPush local remote]) c' → Q r c') →
  wp (at_ssh (ssh_push t local remote)) Q c.
Proof.
  intros (Hl & Hs & Ha) HQ. eapply wp_ssh_push; [done|].
  apply HQ. split; [|done]. simpl. by rewrite Hl, map_app, app_assoc.
Qed.

Lemma wp_mark state (Q : res unit → Console → Prop) l0 tokj pls c :
  stands l0 tokj pls c → (∀ r c', stands l0 tokj pls c' → Q r c') → wp (mark node_id state) Q c.
Proof.
  intros Hc HQ. unfold mark. wp_step.
  eapply (wp_stands_call (CSetProvisionState node_id state None)); [done..| |].
  { intros s. simpl. unfold mbind, M_bind. by destruct (set_provision_state _ _ _ s) as [[a|e] s']. }
  intros [n|e] c' Hc'; simpl; [wp_step|]; by apply HQ.
Qed.

Lemma wp_provision_failed detail (Q : res ProvisionResult → Console → Prop) l0 tokj pls c :
  stands l0 tokj pls c →
  (∀ r c', stands l0 tokj pls c' → (∀ res, r = Ok res → pr_state res = "failed"%string) → Q r c') →
  wp (provision_failed node_id detail) Q c.
Proof.
  intros Hc HQ. unfold provision_failed. wp_step.
  eapply (wp_stands_call (CSetProvisionState node_id "failed" (Some detail))); [done..| |].
  { intros s. simpl. unfold mbind, M_bind. by destruct (set_provision_state _ _ _ s) as [[a|e] s']. }
  intros [n|e] c' Hc'; simpl; [wp_step|]; apply HQ; try done. by intros res [= <-].
Qed.

(** What is sent before the deployment proper. *)
Definition visit (bundle_tar : string) : list ssh_payload :=
  [say t false "echo provision-ok"; SshPush bundle_tar BUNDLE_REMOTE; say t false extract_cmd;
   say t false probe_cmd].

Definition deploy_with (tok : string) : ssh_payload := say t true (token_cmd "deploy" tok).

(** What a node in state [ready] was told, the deployment having succeeded. *)
Definition deployed (l0 : list ssh_event) (bundle_tar : string) (tokj : json) (pls : list ssh_payload) : Prop :=
  ∃ tok x, tokj = JStr tok ∧ pls = visit bundle_tar ++ [deploy_with tok] ∧
    run_result "ssh timeout after 300.0s" (ssh_answers (length l0 + 4)) = Ok x ∧ rr_ok x = true.

Definition sent_so_far (bundle_tar : string) (tokj : json) (pls : list ssh_payload) : Prop :=
  (∃ k, pls = take k (visit bundle_tar)) ∨
  pls = visit bundle_tar ++ [say t false cleanup_cmd] ∨
  ∃ tok, tokj = JStr tok ∧ pls = visit bundle_tar ++ [deploy_with tok].

(** The outcome of a deployment. *)
Definition provisioned (l0 : list ssh_event) (bundle_tar : string) (tokj : json)
    (r : res ProvisionResult) (c : Console) : Prop :=
  ∃ pls, stands l0 tokj pls c ∧ sent_so_far bundle_tar tokj pls ∧
    ∀ res, r = Ok res → pr_state res = "ready"%string → deployed l0 bundle_tar tokj pls.

Lemma provisioned_early l0 bundle_tar tokj r c k :
  stands l0 tokj (take k (visit bundle_tar)) c →
  (∀ res, r = Ok res → pr_state res = "failed"%string) → provisioned l0 bundle_tar tokj r c.
Proof.
  intros Hc Hr. eexists. split_and!; [done|left; by exists k|].
  intros res Hres Hready. specialize (Hr _ Hres). congruence.
Qed.

Lemma wp_deploy l0 bundle_tar tokj info c :
  stands l0 tokj (visit bundle_tar) c →
  wp (deploy node_id t tokj info) (provisioned l0 bundle_tar tokj) c.
Proof.
  intros Hc. assert (Hraise : ∀ e c, stands l0 tokj (visit bundle_tar) c →
    provisioned l0 bundle_tar tokj (Raise e) c) by (intros e c' Hc'; by apply (provisioned_early _ _ _ _ _ 4)).
  unfold deploy. wp_step. apply wp_lift.
  destruct (jget info "available" JNull) as [av|e]; simpl; [|by apply Hraise].
  destruct (truthy av); simpl.
  - wp_step. apply wp_lift. destruct (probe_serial info) as [serial|e]; simpl; [|by apply Hraise].
    wp_step. apply (wp_mono _ (λ r c', stands l0 tokj (visit bundle_tar) c')).
    { destruct (truthy serial); simpl; [|done]. wp_step.
      eapply (wp_stands_call (CSetSerial node_id serial)); [done..| |].
      { intros s. simpl. unfold mbind, M_bind. by destruct (Nodes.set_serial _ _ s) as [[a|x] s']. }
      by intros [n|x] c1 Hc1. }
    intros [u|e] c1 Hc1; simpl; [|by apply Hraise]. wp_step. apply wp_lift.
    destruct (token_text tokj) as [tok|e] eqn:Htok; simpl; [|by apply Hraise].
    assert (tokj = JStr tok) as -> by (destruct tokj; naive_solver).
    wp_step. eapply wp_stands_run; [done|]. intros c2 Hc2.
    assert (Hsent : sent_so_far bundle_tar (JStr tok) (visit bundle_tar ++ [deploy_with tok]))
      by (right; right; by exists tok).
    destruct (run_result _ _) as [x|e] eqn:Hx; simpl; [|by eexists; split_and!].
    destruct (rr_ok x) eqn:Hok; simpl.
    + wp_step. eapply wp_mark; [done|]. intros [u3|e] c3 Hc3; simpl; [wp_step|]; eexists; split_and!; try done.
      intros res _ _. exists tok, x. by split_and!.
    + eapply wp_provision_failed; [done|]. intros r c3 Hc3 Hr. eexists. split_and!; [done..|].
      intros res Hres Hready. specialize (Hr _ Hres). congruence.
  - wp_step. eapply wp_mark; [done|]. intros [u|e] c1 Hc1; simpl; [|by apply Hraise].
    wp_step. eapply wp_stands_run; [done|]. intros c2 Hc2.
    assert (Hsent : sent_so_far bundle_tar tokj (visit bundle_tar ++ [say t false cleanup_cmd]))
      by (right; by left).
    destruct (run_result _ _) as [x|e]; simpl; [wp_step|]; eexists; split_and!; try done.
    by intros res [= <-].
Qed.

(** The token a deployment uses: afterwards it is the one the gateway has stored. *)
Lemma wp_agent_token (Q : res json → Console → Prop) l0 node c :
  stands l0 JNull [] c →
  (∀ tok, n_agent_token node = JStr tok → tok ≠ EmptyString → agrees node_id n0 tok (c_store c)) →
  (∀ e c', stands l0 JNull [] c' → Q (Raise e) c') →
  (∀ tokj c', stands l0 tokj [] c' → Q (Ok tokj) c') → wp (agent_token_for node node_id) Q c.
Proof.
  intros (Hl & Hs & _) Hknown Hraise HQ. unfold agent_token_for.
  destruct (truthy (n_agent_token node)) eqn:Htr.
  { wp_step. apply HQ. split_and!; [done..|]. intros tok Htok. rewrite Htok in Htr.
    assert (tok ≠ EmptyString) by (by destruct tok). split; [done|]. by apply Hknown. }
  wp_step.
  eapply (wp_fresh_token (settled node_id n0)); [done|intros; by apply interfere_settled|apply settled_drawn|].
  intros tok c1 Hne (Hl1 & _) Hs1. simpl. wp_step. apply wp_store_token; [done|].
  intros r c2 (Hl2 & _) Hs2 Hset. destruct r as [nd|e]; simpl.
  - wp_step. apply HQ. split_and!; [congruence|done|]. intros x [= <-]. split; [done|]. by apply Hset.
  - apply Hraise. split_and!; [congruence|done..].
Qed.

Lemma wp_provision bundle_tar c :
  settled node_id n0 (c_store c) →
  wp (provision node_id t bundle_tar) (λ r c', ∃ tokj, provisioned (c_ssh c) bundle_tar tokj r c') c.
Proof.
  intros Hs. unfold provision. wp_step.
  eapply (wp_get_node (settled node_id n0)); [done|intros; by apply interfere_settled|apply settled_docs|].
  intros r c1 (Hl1 & _) Hs1 Htok.
  assert (Hraise : ∀ tokj e k c', stands (c_ssh c) tokj (take k (visit bundle_tar)) c' →
    ∃ tokj, provisioned (c_ssh c) bundle_tar tokj (Raise e) c').
  { intros tokj e k c' Hc'. exists tokj. by eapply provisioned_early. }
  assert (Hfailed : ∀ tokj k r c', stands (c_ssh c) tokj (take k (visit bundle_tar)) c' →
    (∀ res, r = Ok res → pr_state res = "failed"%string) →
    ∃ tokj, provisioned (c_ssh c) bundle_tar tokj r c').
  { intros tokj k r' c' Hc' Hr. exists tokj. by eapply provisioned_early. }
  assert (Hnull : stands (c_ssh c) JNull [] c1) by (split_and!; [rewrite Hl1; by rewrite app_nil_r|done..]).
  destruct r as [[node|]|e]; simpl; [|by apply (Hraise JNull _ 0%nat)..].
  wp_step. eapply wp_agent_token; [done|..].
  { intros tok Hn Hne. split; [split|]; [|apply Hs1..]. eapply Htok; [done..|]. apply Hs1. }
  { intros e c2 Hc2. by apply (Hraise JNull _ 0%nat). }
  intros tokj c2 Hc2. simpl. wp_step. eapply wp_stands_run; [done|]. intros c3 Hc3.
  destruct (run_result _ _) as [x|e]; simpl; [|by apply (Hraise tokj _ 1%nat)].
  destruct (rr_ok x); simpl.
  2: { eapply wp_provision_failed; [done|]. intros r c4 Hc4. by apply (Hfailed tokj 1%nat). }
  wp_step. eapply wp_mark; [done|]. intros [u|e] c4 Hc4; simpl; [|by apply (Hraise tokj _ 1%nat)].
  wp_step. eapply wp_stands_push; [done|]. intros [y|e] c5 Hc5; simpl; [|by apply (Hraise tokj _ 2%nat)].
  destruct (rr_ok y); simpl.
  2: { eapply wp_provision_failed; [done|]. intros r c6 Hc6. by apply (Hfailed tokj 2%nat). }
  wp_step. eapply wp_stands_run; [done|]. intros c6 Hc6.
  destruct (run_result _ _) as [z|e]; simpl; [|by apply (Hraise tokj _ 3%nat)].
  wp_step. eapply wp_mark; [done|]. intros [u2|e] c7 Hc7; simpl; [|by apply (Hraise tokj _ 3%nat)].
  wp_step. eapply wp_stands_run; [done|]. intros c8 Hc8.
  destruct (run_result _ _) as [p|e]; simpl; [|by apply (Hraise tokj _ 4%nat)].
  repeat wp_step. destruct (probe_info (rr_stdout p)) as [info|e].
  - simpl. wp_step. simpl. eapply wp_mono; [exact (wp_deploy _ bundle_tar _ info _ Hc8)|]. eauto.
  - unfold then_, or_catch. destruct (instance_of (ex_kind e) CJsonDecode); simpl; [|by apply (Hraise tokj _ 4%nat)].
    eapply wp_provision_failed; [done|]. intros r c9 Hc9. by apply (Hfailed tokj 4%nat).
Qed.
End agreement.

(** No command of a visit runs as root. *)
Lemma visit_not_root t pin k p bundle_tar :
  p ∈ take k (visit t bundle_tar) ∨ p = say t false cleanup_cmd →
  root_words (mkConn (tr_host t) (tr_user t) pin p) = None.
Proof.
  intros [Hp| ->]; [|done].
  assert (Hin : p ∈ visit t bundle_tar).
  { rewrite <- (take_drop k (visit t bundle_tar)). set_solver. }
  unfold visit in Hin. set_unfold in Hin. by destruct Hin as [->|[->|[->|[->|[]]]]].
Qed.

Lemma sent_root t pin bundle_tar tokj pls p ws :
  sent_so_far t bundle_tar tokj pls → p ∈ pls →
  root_words (mkConn (tr_host t) (tr_user t) pin p) = Some ws →
  ∃ tok, tokj = JStr tok ∧ ws = [BOOTSTRAP; "deploy"; "--agent-token"; tok]%string.
Proof.
  intros Hsent Hp Hws.
  assert (Hv : ∀ k, p ∈ take k (visit t bundle_tar) → False).
  { intros k Hk. by rewrite (visit_not_root t pin k p bundle_tar) in Hws by auto. }
  destruct Hsent as [[k ->]|[->|(tok & -> & ->)]]; [by destruct (Hv k)|..].
  - apply elem_of_app in Hp as [Hp|Hp]; [by destruct (Hv 4%nat)|]. apply list_elem_of_singleton in Hp.
    by rewrite (visit_not_root t pin 0 p bundle_tar) in Hws by auto.
  - apply elem_of_app in Hp as [Hp|Hp]; [by destruct (Hv 4%nat)|]. apply list_elem_of_singleton in Hp as ->.
    exists tok. split; [done|]. unfold deploy_with, say in Hws. cbv iota in Hws.
    rewrite root_words_sudo, token_cmd_words in Hws by done. by injection Hws as <-.
Qed.

Section theorems.
Context {E : Env} {N : NodeEnv} {T : Entropy} {C : CameraEnv} {S : SshEnv} {L : AuditEnv} {R : Runner}.
Context {O : ConsoleEnv}.

(** The connections go to the transport's host and are checked against its pin. *)
Definition on_transport (t : SSHTransport) (pin : option string) (k : connection) : Prop :=
  cn_host k = tr_host t ∧ cn_pin k = pin.

(** What the n-th program run answered. *)
Definition accepted (n : nat) : Prop :=
  match ssh_answers n with SshDone r => rr_ok r = true | _ => False end.

(** C21. Deploying a node over a transport with a well-formed host key, when the node's row
    carries no legacy token, minted tokens are not empty and later node ids differ from its
    own: whatever the node answers, other requests do to the topology
    (short of rotating the node's token or forgetting the node) and whichever system calls
    fail (the reading of the secret file apart, whose failure takes the stored tokens for
    none): every connection goes to the node and is checked against the transport's host key;
    root runs nothing there but the bootstrap script's deployment with, as its one
    argument, the very token the gateway has stored for the node when the operation
    ends; and the operation ends in [ready] only when that deployment was accepted. *)
Theorem provision_agrees node_id t pin bundle_tar c :
  pin_of t = Ok pin → spare_token node_id →
  (∀ n, (s_draws (c_store c) ≤ n)%nat → ("node-" ++ uuid12 n)%string ≠ node_id) →
  (∀ n, token_urlsafe n ≠ EmptyString) → topo_inv (no_inline node_id) (c_store c) →
  let '(r, c') := provision node_id t bundle_tar c in
  ∃ conns,
    c_ssh c' = c_ssh c ++ map Connected conns ∧ Forall (on_transport t pin) conns ∧
    (∀ k ws, k ∈ conns → root_words k = Some ws →
       ∃ tok, ws = [BOOTSTRAP; "deploy"; "--agent-token"; tok]%string ∧
              token_at node_id tok (s_secrets (c_store c'))) ∧
    (∀ res, r = Ok res → pr_state res = "ready"%string →
       (∃ k, last conns = Some k ∧ is_Some (root_words k)) ∧ accepted (length (c_ssh c) + 4)).
Proof.
  intros Hpin Hspare Hfresh Hmint Hinl.
  pose proof (wp_provision node_id t pin (s_draws (c_store c)) Hpin Hspare Hfresh Hmint bundle_tar c
                (conj (le_n _) Hinl)) as Hwp.
  unfold wp in Hwp. destruct (provision node_id t bundle_tar c) as [r c'].
  destruct Hwp as (tokj & pls & (Hl & _ & Hag) & Hsent & Hready).
  exists (map (mkConn (tr_host t) (tr_user t) pin) pls). split_and!.
  - by rewrite Hl, map_map.
  - apply Forall_forall. intros k (p & -> & _)%list_elem_of_fmap. by split.
  - intros k ws (p & -> & Hp)%list_elem_of_fmap Hws.
    destruct (sent_root t pin bundle_tar tokj pls p ws) as (tok & -> & ->); [done..|].
    exists tok. split; [done|]. by apply Hag.
  - intros res Hres Hst. destruct (Hready _ Hres Hst) as (tok & x & -> & -> & Hx & Hok). split.
    + eexists. split; [rewrite map_app; apply last_snoc|]. unfold deploy_with, say. cbv iota.
      rewrite root_words_sudo, token_cmd_words by done. eauto.
    + unfold accepted. unfold run_result in Hx.
      destruct (ssh_answers _) as [y| |]; [by injection Hx as ->| |done]. by injection Hx as <-.
Qed.

(** Rotating a token, under the same interference: when the rotation reports success,
    root on the node was told one new token, over a connection checked against the
    transport's host key, it was accepted, and that token is the one the gateway has
    stored; when it reports failure, the node refused and the stored token is the old
    one; when it raises before anything was sent, the stored token is the old one. *)
Theorem rotation_agrees node_id t pin tok c :
  pin_of t = Ok pin → spare_token node_id →
  (∀ n, (s_draws (c_store c) ≤ n)%nat → ("node-" ++ uuid12 n)%string ≠ node_id) →
  (∀ n, token_urlsafe n ≠ EmptyString) → topo_inv (no_inline node_id) (c_store c) →
  tok ≠ EmptyString → token_at node_id tok (s_secrets (c_store c)) →
  let '(r, c') := rotate_token node_id t c in
  match r with
  | Ok true => ∃ k new, c_ssh c' = c_ssh c ++ [Connected k] ∧ on_transport t pin k ∧
      root_words k = Some [BOOTSTRAP; "set-token"; "--agent-token"; new]%string ∧
      accepted (length (c_ssh c)) ∧ token_at node_id new (s_secrets (c_store c'))
  | Ok false => ¬ accepted (length (c_ssh c)) ∧ token_at node_id tok (s_secrets (c_store c'))
  | Raise _ => c_ssh c' = c_ssh c → token_at node_id tok (s_secrets (c_store c'))
  end.
Proof.
  intros Hpin Hspare Hfresh Hmint Hinl Hne Htok.
  pose proof (wp_rotate_token node_id t pin (s_draws (c_store c)) Hpin Hspare Hfresh Hmint tok c Hne
                (conj (conj Htok (le_n _)) Hinl)) as Hwp.
  unfold wp in Hwp. destruct (rotate_token node_id t c) as [[[]|e] c']; [..|done].
  - destruct Hwp as (new & Hl & (x & Hx & Hok) & Hat). do 2 eexists. split_and!; [exact Hl|done..| | |exact Hat].
    + unfold say. rewrite root_words_sudo. by apply token_cmd_words.
    + unfold accepted. unfold run_result in Hx.
      destruct (ssh_answers _) as [y| |]; [by injection Hx as ->| |done]. by injection Hx as <-.
  - destruct Hwp as (Hat & x & Hx & Hok). split; [|done]. unfold accepted. unfold run_result in Hx.
    destruct (ssh_answers _) as [y| |]; [|by intros []..]. injection Hx as ->. by rewrite Hok.
Qed.
End theorems.

(** ** Activating a stream *)

Section activation.
Context {E : Env} {N : NodeEnv} {T : Entropy} {C : CameraEnv} {S : SshEnv} {L : AuditEnv} {R : Runner}.
Context {O : ConsoleEnv}.

(** A remote binding's own slot, or one of the node's window. *)
Lemma wp_binding_slot node ex (Q : res (Z * Z) → Console → Prop) c :
  (∀ r c', c_ssh c' = c_ssh c →
     (∀ b slot, ex = Some b → b_mode b = REMOTE_PRODUCER → r = Ok slot →
        slot = (jc_mountpoint_id (b_janus b), tr_rtp_port (b_transport b))) → Q r c') →
  wp (binding_slot node ex) Q c.
Proof.
  intros HQ.
  assert (Hfresh : wp (mp ← at_store (allocate_mountpoint (n_node_id node));
           port ← at_store (allocate_port (n_node_id node)); mret (mp, port))
           (λ _ c', c_ssh c' = c_ssh c) c).
  { wp_step. apply (wp_frame store_only); [apply at_store_store_only|].
    intros [mp|e] c2 (Hl2 & _); simpl; [|congruence]. wp_step.
    apply (wp_frame store_only); [apply at_store_store_only|].
    intros [port|e] c3 (Hl3 & _); simpl; [wp_step|]; congruence. }
  unfold binding_slot. destruct ex as [b|].
  - case_bool_decide as Hm.
    + wp_step. apply HQ; [done|]. by intros b' slot [= <-] _ [= <-].
    + eapply wp_mono; [exact Hfresh|]. intros r c' Hl. apply HQ; [done|]. by intros b' slot [= <-].
  - eapply wp_mono; [exact Hfresh|]. intros r c' Hl. by apply HQ.
Qed.

Lemma upsert_at_slot b jm s b' s' :
  upsert_binding b jm s = (Ok b', s') →
  table (at_slot (b_binding_id b) (jc_mountpoint_id (b_janus b), tr_rtp_port (b_transport b))) s'.
Proof.
  intros Hup.
  apply flock_cases in Hup as (_ & _ & [(e & ? & _)|(d & a & t' & Hd & Hbody & _ & Hc & _)]); [done|].
  apply upsert_binding_spec in Hbody as (_ & _ & _ & _ & _ & _ & _ & _ & _ & Hs). simpl in Hs.
  destruct (written_section (t_state t')) as (d' & Hd' & Hsec).
  { rewrite Hs. apply wf_state_set. by eapply topology_wf. }
  exists d'. rewrite Hc. split; [done|]. rewrite Hsec.
  apply (steady_written _ _ (at_slot_steady (b_binding_id b) _)).
  rewrite Hs, section_set, decide_True by done. eexists. split; [apply dget_dset_eq|done].
Qed.

(** The last steps of a binding: the mountpoint and the recorded status. *)
Lemma wp_bind_tail bid port slot b c :
  spare_binding bid → table (at_slot bid slot) (c_store c) →
  wp (status ← at_gate (ensure_janus b);
      match status with
      | CREATED | EXISTS =>
          at_store (set_status bid (StreamStatus_value WAITING_FOR_RTP)) ;; mret (mkBind bid port)
      | CONFLICT | FAILED => throw ERuntime
      end)
    (λ (r : res BindOutcome) c', c_ssh c' = c_ssh c ∧
       ∀ o, r = Ok o → o = mkBind bid port ∧ table (at_slot bid slot) (c_store c')) c.
Proof.
  intros Ho Ht. wp_step. apply wp_at_gate; [apply ensure_janus_store|]. intros n r c1 Hl1 Hst1.
  assert (Ht1 : table (at_slot bid slot) (c_store c1)).
  { rewrite Hst1. by apply (interfere_table bid); [apply at_slot_steady|..]. }
  destruct r as [[]|e]; simpl; try (split; [done|]; by intros).
  all: wp_step; apply (wp_at_table bid (at_slot bid slot)); [apply at_slot_steady|done..|].
  all: intros s r s' c2 Hs Hset (Hl2 & _) Hst2; destruct r as [b'|e]; simpl; [wp_step|];
    (split; [congruence|]); intros o Hor; try done; injection Hor as <-; (split; [done|]); rewrite Hst2.
  all: pose proof (call_table bid _ (at_slot_steady bid slot)
    (CSetStatus bid (StreamStatus_value WAITING_FOR_RTP)) s I Hs) as Hk;
    simpl in Hk; unfold mbind, M_bind in Hk; by rewrite Hset in Hk.
Qed.

(** The gateway's side: the binding is stored with the slot that is told to the node; a
    slot the binding held before is the one it keeps. *)
Lemma wp_bind_slot gateway_host node sensor bid c :
  remote_binding_id node sensor = Ok bid → spare_binding bid →
  wp (bind gateway_host node sensor)
    (λ (r : res BindOutcome) c', c_ssh c' = c_ssh c ∧
       ∀ o, r = Ok o → bo_binding_id o = bid ∧
         ∃ mp, table (at_slot bid (mp, bo_rtp_port o)) (c_store c') ∧
               ∀ slot, table (bound bid slot) (c_store c) → slot = (mp, bo_rtp_port o)) c.
Proof.
  intros Hbid Ho. unfold bind. wp_step. rewrite Hbid. apply wp_lift. simpl. wp_step.
  apply wp_at_store. intros n. apply wp_intro. intros r s' Hrun c1 (Hl1 & _) _.
  destruct r as [ex|e]; simpl; [|done].
  assert (Hex : ∀ mp port, table (bound bid (mp, port)) (c_store c) →
    ∃ b, ex = Some b ∧ b_mode b = REMOTE_PRODUCER ∧ jc_mountpoint_id (b_janus b) = mp ∧
         tr_rtp_port (b_transport b) = port).
  { intros mp port Hb. eapply bound_reads; [|exact Hrun].
    by apply (interfere_table bid); [apply bound_steady|..]. }
  wp_step. apply wp_binding_slot. intros [[mp port]|e] c2 Hl2 Hslot; simpl; [|by split; [congruence|]].
  assert (Hkeep : ∀ slot, table (bound bid slot) (c_store c) → slot = (mp, port)).
  { intros [mp0 port0] Hb. destruct (Hex _ _ Hb) as (b & -> & Hm & <- & <-).
    by rewrite <- (Hslot b (mp, port)). }
  wp_step. apply wp_at_store. intros n2. apply wp_intro. intros r s2 Hup c3 (Hl3 & _) Hst3.
  destruct r as [b|e]; simpl; [|by split; [congruence|]].
  eapply wp_mono; [apply (wp_bind_tail bid port (mp, port)); [done|]|].
  { rewrite Hst3. exact (upsert_at_slot _ _ _ _ _ Hup). }
  intros r c4 [Hl4 Hr]. split; [congruence|]. intros o Hor. destruct (Hr o Hor) as [-> Ht]. eauto.
Qed.

(** Activating a stream on a node, while other requests act on the topology (short of
    writing or removing this binding, removing a host or rekeying the table) and any
    system call may fail: the node is told to send the sensor's stream to the gateway
    only over a connection checked against the transport's host key, and the port it is
    told is the one stored for the binding; a remote binding that had a slot keeps its
    mountpoint and port; when the gateway's side fails nothing is sent; and the stream
    is reported active only when the node accepted. *)
Theorem activation_agrees t pin gateway_host node sensor bid c :
  pin_of t = Ok pin → remote_binding_id node sensor = Ok bid → spare_binding bid →
  let '(r, c') := activate_stream t gateway_host (bind gateway_host) node sensor c in
  ∀ res, r = Ok res →
    sr_sensor res = sensor ∧ (sr_ok res = true → accepted (length (c_ssh c))) ∧
    match sr_binding_id res with
    | None => sr_ok res = false ∧ c_ssh c' = c_ssh c
    | Some b => b = bid ∧ ∃ k mp port, c_ssh c' = c_ssh c ++ [Connected k] ∧ on_transport t pin k ∧
        root_words k = Some [BOOTSTRAP; "activate"; "--sensor"; sensor; "--rtp-target-host";
                             gateway_host; "--rtp-port"; pretty port]%string ∧
        table (at_slot bid (mp, port)) (c_store c') ∧
        ∀ slot, table (bound bid slot) (c_store c) → slot = (mp, port)
    end.
Proof.
  intros Hpin Hbid Ho.
  enough (Hwp : wp (activate_stream t gateway_host (bind gateway_host) node sensor)
    (λ r c', ∀ res, r = Ok res →
      sr_sensor res = sensor ∧ (sr_ok res = true → accepted (length (c_ssh c))) ∧
      match sr_binding_id res with
      | None => sr_ok res = false ∧ c_ssh c' = c_ssh c
      | Some b => b = bid ∧ ∃ k mp port, c_ssh c' = c_ssh c ++ [Connected k] ∧ on_transport t pin k ∧
          root_words k = Some [BOOTSTRAP; "activate"; "--sensor"; sensor; "--rtp-target-host";
                               gateway_host; "--rtp-port"; pretty port]%string ∧
          table (at_slot bid (mp, port)) (c_store c') ∧
          ∀ slot, table (bound bid slot) (c_store c) → slot = (mp, port)
      end) c) by (unfold wp in Hwp; by destruct (activate_stream _ _ _ _ _ _)).
  unfold activate_stream. repeat wp_step. eapply wp_mono; [by apply wp_bind_slot|].
  intros [o|e] c1 [Hl1 Hslot]; repeat wp_step.
  - simpl. destruct (Hslot o eq_refl) as (<- & mp & Ht & Hkeep). repeat wp_step. eapply wp_ssh_run; [done|].
    rewrite Hl1. destruct (run_result _ _) as [x|e] eqn:Hx; simpl; [wp_step|by intros].
    intros res [= <-]. simpl. split; [done|]. split.
    + intros Hok. unfold accepted. unfold run_result in Hx.
      destruct (ssh_answers _) as [y| |]; [by injection Hx as ->| |done]. by injection Hx as <-.
    + split; [done|]. do 3 eexists. split_and!; [done..| |exact Ht|exact Hkeep].
      unfold say. rewrite root_words_sudo. apply activate_cmd_words.
  - unfold then_, or_catch. destruct (instance_of (ex_kind e) CException); simpl; [repeat wp_step|by intros].
    intros res [= <-]. by split_and!.
Qed.
End activation.

(** ** Witnesses *)
#[local] Existing Instances live_env sample_nodes sample_entropy sample_ssh sample_console_env sample_runner.

Definition sample_transport : SSHTransport :=
  mkSsh "192.168.10.55" "robot" (Some "secret"%string) (JStr "192.168.10.55 ssh-ed25519 AAAAC3").
Definition sample_pin : option string := Some "192.168.10.55 ssh-ed25519 AAAAC3"%string.

Lemma sample_spare_token id : spare_token id.
Proof. intros n. split; [done|]. by repeat constructor. Qed.

Lemma sample_spare_binding bid : spare_binding bid.
Proof. intros n. by repeat constructor. Qed.

Lemma sample_token : token_at "node-0" "tok-1" (s_secrets enrolled_store).
Proof. eexists. split; [vm_compute; reflexivity|done]. Qed.

Lemma provision_agrees_witness :
  let '(r, c') := provision "node-0" sample_transport "/tmp/bundle.tar.gz" (sample_console enrolled_store) in
  (∃ res, r = Ok res ∧ pr_state res = "ready"%string) ∧
  ∃ conns, c_ssh c' = map Connected conns ∧ ∃ k, last conns = Some k ∧ is_Some (root_words k).
Proof.
  pose proof (provision_agrees "node-0" sample_transport sample_pin "/tmp/bundle.tar.gz"
    (sample_console enrolled_store) eq_refl (sample_spare_token "node-0")
    sample_fresh sample_minted sample_no_inline) as H.
  destruct (provision _ _ _ _) as [r c'] eqn:Hrun.
  assert (Hr : ∃ res, r = Ok res ∧ pr_state res = "ready"%string).
  { apply (f_equal fst) in Hrun. vm_compute in Hrun. subst r. by eexists. }
  split; [done|]. destruct H as (conns & Hl & _ & _ & Hready). exists conns. split; [done|].
  destruct Hr as (res & Hres & Hst). by destruct (Hready res Hres Hst) as [Hk _].
Defined.

Lemma rotation_agrees_witness :
  let '(r, c') := rotate_token "node-0" sample_transport (sample_console enrolled_store) in
  r = Ok true ∧ ∃ k new, c_ssh c' = [Connected k] ∧
    root_words k = Some [BOOTSTRAP; "set-token"; "--agent-token"; new]%string ∧
    token_at "node-0" new (s_secrets (c_store c')).
Proof.
  pose proof (rotation_agrees "node-0" sample_transport sample_pin "tok-1" (sample_console enrolled_store)
    eq_refl (sample_spare_token "node-0") sample_fresh sample_minted sample_no_inline
    (λ H, ltac:(discriminate H)) sample_token) as H.
  destruct (rotate_token _ _ _) as [r c'] eqn:Hrun.
  assert (Hr : r = Ok true) by (apply (f_equal fst) in Hrun; vm_compute in Hrun; by subst r).
  split; [done|]. rewrite Hr in H. destruct H as (k & new & Hl & _ & Hw & _ & Ht).
  exists k, new. split; [exact Hl|]. split; [exact Hw|exact Ht].
Defined.

(** The binding of the sample has its slot in the topology. *)
Definition sample_node : NodeEntry :=
  match (get_node "node-0" bound_store).1 with Ok (Some n) => n | _ => LOCAL_NODE end.

Lemma sample_binding_bound : table (bound "node-0:color" (2000, 5100)) bound_store.
Proof.
  eexists. split; [vm_compute; reflexivity|]. split; [vm_compute; repeat constructor; set_solver|].
  eexists. split_and!; vm_compute; reflexivity.
Qed.

Lemma activation_agrees_witness :
  let '(r, c') := activate_stream sample_transport "192.168.10.10" (bind "192.168.10.10") sample_node "color"
                    (sample_console bound_store) in
  r = Ok (mkStream "color" true (Some "node-0:color"%string)) ∧
  table (at_slot "node-0:color" (2000, 5100)) (c_store c').
Proof.
  pose proof (activation_agrees sample_transport sample_pin "192.168.10.10" sample_node "color" "node-0:color"
    (sample_console bound_store) eq_refl eq_refl (sample_spare_binding "node-0:color")) as H.
  destruct (activate_stream _ _ _ _ _ _) as [r c'] eqn:Hrun.
  assert (Hr : r = Ok (mkStream "color" true (Some "node-0:color"%string)))
    by (apply (f_equal fst) in Hrun; vm_compute in Hrun; by subst r).
  split; [done|]. destruct (H _ Hr) as (_ & _ & _ & k & mp & port & _ & _ & _ & Ht & Hkeep).
  by rewrite (Hkeep _ sample_binding_bound).
Defined.
