(* ===== verification/UseCases.v ===== *)
(** * The use cases of the admin console ([app/application/stream_bindings/],
    [app/services/node_client.py], [app/routes/stream_bindings/])

    Every command an administrator can give about nodes and stream bindings, as the use
    case composes the topology store, the node agents, Janus, the firewall, the runner and
    the audit log, with the domain errors it raises and the routes' mapping of them to
    HTTP answers. Detail texts of results that carry exception texts are not modelled. *)
From S2P Require Import Prelude.
From S2P Require Import PyVal.
From S2P Require Import PyStr.
From S2P Require Import FileStore.
From S2P Require Import World.
From S2P Require Import Allocator.
From S2P Require Import BindingModels.
From S2P Require Import TopologyStore.
From S2P Require Import Nodes.
From S2P Require Import Bindings.
From S2P Require Import BindingProvision.
From S2P Require Import Firewall.
From S2P Require Import Fleet.
From S2P Require Import Drift.
From S2P Require Import AuditLog.
From S2P Require Import JanusAdmin.
From S2P Require Import Lifecycle.
From S2P Require Import NodeTransport.
From S2P Require Import Console.
From S2P Require Import NodeOps.

Definition refuse {A} (e : use_case_error) : M Console A := throw (EUseCase e).

Record BindingOpResult := mkBindingOp { bop_binding_id : string; bop_ok : bool }.
Record DeleteNodeResult := mkDeleteNode {
  dn_removed : bool; dn_removed_bindings : list string; dn_destroyed : list Z;
  dn_firewall : bool; dn_deprovisioned : bool;
}.

Section use_cases.
Context {E : Env} {N : NodeEnv} {T : Entropy} {C : CameraEnv} {J : JanusHttp} {S : SshEnv} {L : AuditEnv}.
Context {R : Runner} {D : DriftEnv} {O : ConsoleEnv}.

(** ** The node clients *)

(** One request of a [RealNodeClient]: the header carries the node's own token, if any. *)
Definition agent_send (node : NodeEntry) (a : agent_action) : M Console agent_reply :=
  n ← c_tick;
  let req := mkAgentRequest (n_host node)
               (if truthy (n_agent_token node) then Some (n_agent_token node) else None) a in
  modify (fun c => set_agents (c_agents c ++ [req]) c) ;;
  mret (agent_answers n req).

(** [_agent_action("stop_stream", ...)] *)
Definition agent_stop (node : NodeEntry) (sensor : string) : M Console bool :=
  reply ← agent_send node (AgStopStream sensor);
  match reply with
  | AgentReply status body =>
      if status =? 200 then body ← lift body; ok ← lift (jget body "ok" JNull); mret (truthy ok)
      else mret false
  | AgentError e => if instance_of (ex_kind e) CHttpOrOS then mret false else raise e
  end.

Definition stop_stream (client : node_client) (sensor : string) : M Console bool :=
  match client with
  | LocalNodeClientAdapter =>
      try_except (at_camera (encoder_action "stop" "rs-stream" (Some sensor)) ;; mret true)
        CException (fun _ => mret false)
  | RemoteNodeClientStub => mret false
  | RealNodeClient node => agent_stop node sensor
  end.

(** The requests whose JSON answer is passed on. *)
Definition agent_json (client : node_client) (a : agent_action) : M Console json :=
  match client with
  | LocalNodeClientAdapter =>
      match a with
      | AgGetDepth _ _ _ | AgGetDepthFrame => n ← c_tick; lift (local_depth n a)
      | _ => throw EAttribute
      end
  | RemoteNodeClientStub => throw ERuntime
  | RealNodeClient node =>
      reply ← agent_send node a;
      match reply with
      | AgentReply status body => if (200 <=? status) && (status <? 300) then lift body else throw EHttpConnect
      | AgentError e => raise e
      end
  end.

(** [probe_agent(host)["reachability"]] *)
Definition agent_reachability (host : string) : M Gateway string :=
  n ← on_world tick;
  match agent_healthz n host with
  | AgentReply status _ => mret (if status =? 200 then "reachable"%string else "bootstrap_required"%string)
  | AgentError e => if instance_of (ex_kind e) CHttpOrOS then mret "unreachable"%string else raise e
  end.

(** ** Bindings *)
Definition binding_or_404 (bid : string) : M Console StreamBinding :=
  b ← at_store (get_binding bid);
  match b with Some b => mret b | None => refuse BindingNotFound end.

Definition is_remote_binding (b : StreamBinding) : bool := bool_decide (b_mode b = REMOTE_PRODUCER).

(** [binding_id.rsplit(":", 1)[0]] *)
Definition serial_of_binding (bid : string) : string :=
  if contains ":" bid then serial_of_key bid else bid.

Definition ignore_errors (m : M Console unit) : M Console unit :=
  try_except m CException (fun _ => mret tt).

Definition restart_local (bid sensor : string) : M Console bool :=
  try_except
    (at_camera (on_alloc (set_desired (serial_of_binding bid) sensor true)) ;;
     at_camera (encoder_action "restart" "rs-stream" (Some sensor)) ;;
     mret true)
    CException (fun _ => mret false).

Definition restart_remote (bid : string) (b : StreamBinding) : M Console bool :=
  ignore_errors (at_store (set_desired_up bid true) ;; mret tt) ;;
  try_except (at_gate (ensure_janus b) ;; mret tt) CException
    (fun e => record_audit "stream_bindings.binding.restart_ensure_failed"
                [("binding_id", JStr bid); ("error", JStr (String.substring 0 120 (ex_msg e)))]%string
                (Some "failure"%string)) ;;
  client ← at_gate (get_node_client (b_node_id b));
  at_gate (restart_stream client (b_sensor b)).

Definition audit_op (action bid : string) (ok : bool) : M Console unit :=
  record_audit action [("binding_id", JStr bid); ("ok", JBool ok)]%string (succeeded_or ok).

Definition restart_binding (bid : string) : M Console BindingOpResult :=
  b ← binding_or_404 bid;
  ok ← (if bool_decide (b_mode b = LOCAL_PRODUCER) then restart_local bid (b_sensor b)
        else restart_remote bid b);
  audit_op "stream_bindings.binding.restart" bid ok ;;
  mret (mkBindingOp bid ok).

Definition stop_local (bid sensor : string) : M Console bool :=
  try_except2 (at_camera (stop (serial_of_binding bid) sensor) ;; mret true)
    CUnsupportedSensor (fun _ => refuse UnsupportedSensorError)
    CLifecycle (fun _ => mret false).

(** The stop is recorded after the node stopped; a failure to record it is dropped. *)
Definition stop_remote (bid : string) (b : StreamBinding) : M Console bool :=
  client ← at_gate (get_node_client (b_node_id b));
  ok ← stop_stream client (b_sensor b);
  when ok
    (ignore_errors
      (at_store (set_status bid (StreamStatus_value CONFIGURED_OFFLINE)) ;;
       at_store (set_desired_up bid false) ;;
       mret tt)) ;;
  mret ok.

Definition stop_binding (bid : string) : M Console BindingOpResult :=
  b ← binding_or_404 bid;
  ok ← (if bool_decide (b_mode b = LOCAL_PRODUCER) then stop_local bid (b_sensor b)
        else stop_remote bid b);
  audit_op "stream_bindings.binding.stop" bid ok ;;
  mret (mkBindingOp bid ok).

Definition set_fdir (bid : string) (enabled : bool) : M Console StreamBinding :=
  b ← binding_or_404 bid;
  if negb (is_remote_binding b) then refuse LocalFdirNotToggleable
  else
    nb ← try_except (at_store (set_fdir_enabled bid enabled)) CKeyError
           (fun _ => refuse BindingNotFound);
    record_audit "stream_bindings.binding.fdir"
      [("binding_id", JStr bid); ("enabled", JBool enabled)]%string None ;;
    mret nb.

(** [janus_admin.destroy_mountpoint], best effort. *)
Definition destroy_mountpoint (mp : Z) : M Console bool :=
  try_except (at_janus (janus_destroy_mountpoint mp JANUS_ADMIN_KEY) ;; mret true)
    CException (fun _ => mret false).

Definition uc_remove_binding (bid : string) : M Console bool :=
  b ← binding_or_404 bid;
  if negb (is_remote_binding b) then refuse LocalBindingNotRemovable
  else
    destroy_mountpoint (jc_mountpoint_id (b_janus b)) ;;
    removed ← at_store (remove_binding bid);
    record_audit "stream_bindings.binding.remove"
      [("binding_id", JStr bid); ("removed", JBool removed)]%string None ;;
    mret removed.

Definition uc_ensure_janus (bid : string) : M Console ProvisionStatus :=
  b ← binding_or_404 bid;
  if negb (is_remote_binding b) then refuse EnsureJanusLocalRejected
  else
    status ← at_gate (ensure_janus b);
    when (match status with CREATED | EXISTS => true | CONFLICT | FAILED => false end)
      (ignore_errors (at_store (set_status bid (StreamStatus_value WAITING_FOR_RTP)) ;; mret tt)) ;;
    record_audit "stream_bindings.binding.ensure_janus"
      [("binding_id", JStr bid); ("status", JStr (status_value status));
       ("mp", JInt (jc_mountpoint_id (b_janus b)))]%string None ;;
    mret status.

(** The reads and writes that go to a remote stream's agent. *)
Definition ask_agent (bid : string) (a : string → agent_action) : M Console json :=
  b ← binding_or_404 bid;
  if negb (is_remote_binding b) then refuse LocalTuningRejected
  else
    client ← at_gate (get_node_client (b_node_id b));
    try_except (agent_json client (a (b_sensor b))) CException (fun _ => refuse NodeAgentError).

Definition get_tuning (bid : string) : M Console json := ask_agent bid AgGetTuning.
Definition get_modes (bid : string) : M Console json := ask_agent bid AgGetModes.

Definition valid_rotation (tuning : dict json) : bool :=
  match dget tuning "rotation" with
  | Some r => existsb (fun z => py_eq_int r z) [0; 90; 180; 270]
  | None => true
  end.

Definition set_tuning (bid : string) (tuning : dict json) : M Console json :=
  b ← binding_or_404 bid;
  if negb (is_remote_binding b) then refuse LocalTuningRejected
  else if negb (valid_rotation tuning) then refuse InvalidRotation
  else match tuning with
  | [] => refuse NoTuningFields
  | _ =>
      client ← at_gate (get_node_client (b_node_id b));
      r ← try_except (agent_json client (AgSetTuning (b_sensor b) (JObj tuning))) CException
            (fun _ => refuse NodeAgentError);
      record_audit "stream_bindings.binding.tuning"
        [("binding_id", JStr bid); ("fields", JArr (map JStr (dkeys tuning)))]%string None ;;
      mret r
  end.

Record CreateBindingCommand := mkCreateBinding {
  cb_node_id : string; cb_sensor : string; cb_mountpoint_id : option Z; cb_rtp_port : option Z;
  cb_payload_type : Z; cb_codec : string; cb_rtp_iface : string;
}.

(** [x or allocate(...)] *)
Definition or_allocate (x : option Z) (m : M Store Z) : M Console Z :=
  match x with Some z => if z =? 0 then at_store m else mret z | None => at_store m end.

Definition create_binding (cmd : CreateBindingCommand) : M Console StreamBinding :=
  let node_id := cb_node_id cmd in
  if String.eqb node_id LOCAL_NODE_ID then refuse LocalBindingNotCreatable
  else
    node ← at_store (get_node node_id);
    match node with
    | None => refuse BindingNodeNotFound
    | Some node =>
        '(mp, port) ← try_except
          (mp ← or_allocate (cb_mountpoint_id cmd) (allocate_mountpoint node_id);
           port ← or_allocate (cb_rtp_port cmd) (allocate_port node_id);
           mret (mp, port))
          CAllocation (fun _ => refuse AllocationConflict);
        bid ← lift (remote_binding_id node (cb_sensor cmd));
        let b := remote_binding bid node_id (cb_sensor cmd) (cb_rtp_iface cmd) (cb_codec cmd)
                   (cb_payload_type cmd) mp port in
        try_except (at_store (upsert_binding b (cfg_janus_mount_id cfg)) ;; mret tt)
          CBindingValidation (fun _ => refuse BindingInvalid) ;;
        record_audit "stream_bindings.binding.create"
          [("binding_id", JStr bid); ("mp", JInt mp); ("port", JInt port);
           ("iface", JStr (cb_rtp_iface cmd))]%string None ;;
        mret b
    end.

(** The freshness of a binding's media is asked for only when it is wanted. *)
Definition uc_list_bindings (include_rtp_age : bool) : M Console (list (StreamBinding * option Z)) :=
  bindings ← at_store list_bindings;
  n ← c_tick;
  mret (map (fun b => (b, if include_rtp_age then rtp_age_at n (jc_mountpoint_id (b_janus b)) else None))
          (dvals bindings)).

(** ** Nodes *)
Definition remote_node_or (local_error : use_case_error) (node_id : string) : M Console NodeEntry :=
  node ← at_store (get_node node_id);
  match node with
  | None => refuse NodeNotFound
  | Some node => if String.eqb (n_node_id node) LOCAL_NODE_ID then refuse local_error else mret node
  end.

Fixpoint stop_streams (client : node_client) (bindings : list StreamBinding) : M Console unit :=
  match bindings with
  | [] => mret tt
  | b :: rest =>
      ignore_errors (stop_stream client (b_sensor b) ;; mret tt) ;; stop_streams client rest
  end.

(** The mountpoints that were destroyed. *)
Fixpoint destroy_mountpoints (bindings : list StreamBinding) : M Console (list Z) :=
  match bindings with
  | [] => mret []
  | b :: rest =>
      let mp := jc_mountpoint_id (b_janus b) in
      done ← destroy_mountpoint mp;
      mps ← destroy_mountpoints rest;
      mret (if (done : bool) then mp :: mps else mps)
  end.

Definition bindings_of_node (node_id : string) (bindings : dict StreamBinding) : list StreamBinding :=
  List.filter (fun b => String.eqb (b_node_id b) node_id && is_remote_binding b) (dvals bindings).

Definition delete_node (node_id : string) (deprovision : bool) : M Console DeleteNodeResult :=
  node ← remote_node_or LocalNodeNotRemovable node_id;
  bindings ← at_store list_bindings;
  let node_bindings := bindings_of_node node_id bindings in
  when deprovision
    (client ← at_gate (get_node_client node_id); stop_streams client node_bindings) ;;
  destroyed ← destroy_mountpoints node_bindings;
  '(removed, binding_ids) ← at_store (remove_node node_id);
  reconciled ← try_except (at_firewall (reconcile true) ;; mret true) CException (fun _ => mret false);
  record_audit "stream_bindings.node.delete"
    [("node_id", JStr node_id); ("host", JStr (n_host node)); ("deprovision", JBool deprovision);
     ("removed_bindings", JArr (map JStr binding_ids));
     ("destroyed_mountpoints", JArr (map JInt destroyed))]%string None ;;
  mret (mkDeleteNode removed binding_ids destroyed reconciled deprovision).

Definition uc_list_nodes : M Console (dict NodeEntry) := at_store list_nodes.

(** The reachability that is reported; a node forgotten meanwhile is no error. *)
Definition check_node (node_id : string) : M Console string :=
  node ← at_store (get_node node_id);
  match node with
  | None => refuse NodeNotFound
  | Some node =>
      if String.eqb (n_node_id node) LOCAL_NODE_ID then mret "local"%string
      else
        reachability ← at_gate (agent_reachability (n_host node));
        try_except (at_store (touch_checked node_id reachability) ;; mret tt) CKeyError (fun _ => mret tt) ;;
        record_audit "stream_bindings.node.check"
          [("node_id", JStr node_id);
           ("reachable", JBool (String.eqb reachability "reachable"))]%string None ;;
        mret reachability
  end.

Definition uc_set_maintenance (node_id : string) (enabled : bool) : M Console NodeEntry :=
  remote_node_or MaintenanceLocalRejected node_id ;;
  n ← try_except (at_store (set_maintenance node_id enabled)) CKeyError (fun _ => refuse NodeNotFound);
  record_audit "stream_bindings.node.maintenance"
    [("node_id", JStr node_id); ("enabled", JBool enabled)]%string None ;;
  mret n.

(** The fingerprint and whether a key is pinned. *)
Definition get_host_key (node_id : string) : M Console (string * bool) :=
  node ← remote_node_or LocalNodeNoHostKey node_id;
  hk ← at_ssh (capture_host_key (n_host node));
  if String.eqb hk EmptyString then refuse HostKeyUnreachable
  else fp ← at_ssh (host_key_fingerprint hk); mret (fp, truthy (n_host_key node)).

Definition audit_host_key (details : dict json) (outcome : option string) : M Console unit :=
  record_audit "stream_bindings.node.host_key_confirm" details outcome.

Definition confirm_host_key (node_id expected_fingerprint : string) (force : bool) : M Console string :=
  node ← remote_node_or LocalNodeNoHostKey node_id;
  hk ← at_ssh (capture_host_key (n_host node));
  if String.eqb hk EmptyString then refuse HostKeyUnreachable
  else
    seen ← at_ssh (host_key_fingerprint hk);
    let expected := py_strip expected_fingerprint in
    if negb (String.eqb seen expected) then
      audit_host_key [("node_id", JStr node_id); ("expected", JStr expected); ("seen", JStr seen)]%string
        (Some "rejected"%string) ;;
      refuse HostKeyFingerprintMismatch
    else if truthy (n_host_key node) && negb (py_eq_str (n_host_key node) hk) && negb force then
      audit_host_key [("node_id", JStr node_id); ("fingerprint", JStr seen);
                      ("reason", JStr "would_replace_existing_pin")]%string (Some "rejected"%string) ;;
      refuse HostKeyPinReplaceRejected
    else
      at_store (set_host_key (n_node_id node) hk) ;;
      audit_host_key [("node_id", JStr node_id); ("fingerprint", JStr seen)]%string None ;;
      mret seen.

Definition register_node (node_id host role : string) : M Console NodeEntry :=
  n ← try_except (at_store (upsert_node node_id host role "unknown" None None)) CBindingValidation
        (fun _ => refuse NodeRegistrationInvalid);
  record_audit "stream_bindings.node.register"
    [("node_id", JStr node_id); ("host", JStr host); ("role", JStr role)]%string None ;;
  mret n.

(** The gateway's own addresses. *)
Definition is_own_address (host : string) : bool :=
  mem_str (py_strip host) [GATEWAY_LAN_IP console_lan; "127.0.0.1"; "localhost"; "::1"; "0.0.0.0"]%string.

Definition add_node (host : string) (display_name : option string) : M Console NodeEntry :=
  if is_own_address host then refuse AddNodeIsLocalGateway
  else
    n ← try_except (at_store (add_node_by_host console_lan host display_name "remote_producer"))
          CBindingValidation (fun _ => refuse NodeRegistrationInvalid);
    record_audit "stream_bindings.node.add_by_host"
      [("host", JStr host); ("node_id", JStr (n_node_id n))]%string None ;;
    mret n.

(** *** Operations that run in a thread *)
Definition resolve_provision_target (node_id : string) : M Console NodeEntry :=
  node ← remote_node_or ProvisionLocalRejected node_id;
  n ← c_tick;
  if bundle_exists n then mret node else refuse NodeBundleMissing.

Definition NODE_BUNDLE_TAR : string := "/tmp/camera-node-bundle.tar.gz".

Definition provision_node (node_id : string) (sudo_password : option string) (allow_tofu : bool)
    : M Console string :=
  node ← resolve_provision_target node_id;
  transport ← build_transport node sudo_password allow_tofu;
  op_id ← spawn_node_op node_id (OpProvision transport NODE_BUNDLE_TAR);
  record_audit "stream_bindings.node.provision"
    [("node_id", JStr node_id); ("host", JStr (n_host node))]%string None ;;
  mret op_id.

Definition rotate_node_token (node_id : string) (sudo_password : option string) : M Console string :=
  node ← remote_node_or RotateTokenLocalRejected node_id;
  transport ← build_transport node sudo_password false;
  op_id ← spawn_node_op node_id (OpRotate transport);
  record_audit "stream_bindings.node.rotate_token"
    [("node_id", JStr node_id); ("host", JStr (n_host node))]%string None ;;
  mret op_id.

(** [_require_lan_ipv4] *)
Definition require_lan_ipv4 (host : string) : M Console string :=
  let host := py_strip host in
  match parse_ipv4 host with
  | Some ip => if is_loopback_ip ip || is_multicast_ip ip || is_unspecified_ip ip then throw (EHttp 400)
               else mret host
  | None => throw (EHttp 400)
  end.

(** What the activation of a node's streams answers: the id of the operation, or the
    results of the gateway's own sensors. *)
Inductive activation_reply := ActivationStarted (op_id : string) | ActivatedLocally (results : list activation).

Definition activate_node_streams (node_id : string) (sensors : list string) (sudo_password : option string)
    (gateway_host : string) : M Console activation_reply :=
  if negb (forallb (fun s => mem_str s ["color"; "depth"; "ir1"; "ir2"]%string) sensors)
  then throw (EHttp 400)
  else if String.eqb node_id LOCAL_NODE_ID
  then results ← at_camera (activate_local sensors); mret (ActivatedLocally results)
  else
    gw ← require_lan_ipv4 gateway_host;
    node ← resolve_provision_target node_id;
    transport ← build_transport node sudo_password false;
    op_id ← spawn_node_op node_id (OpActivate transport sensors gw);
    record_audit "stream_bindings.node.activate_streams"
      [("node_id", JStr node_id); ("sensors", JArr (map JStr sensors))]%string None ;;
    mret (ActivationStarted op_id).

(** *** Depth queries, by node *)
Definition node_depth (node_id : string) (a : agent_action) : M Console json :=
  client ← at_gate (get_node_client node_id);
  try_except (agent_json client a) CException (fun _ => refuse NodeAgentError).

Definition get_depth (node_id : string) (x y : Q) (aligned : bool) : M Console json :=
  node_depth node_id (AgGetDepth x y aligned).
Definition get_depth_frame (node_id : string) : M Console json := node_depth node_id AgGetDepthFrame.

(** ** The fleet *)
Definition firewall_reconcile (apply : bool) : M Console Plan :=
  plan ← at_firewall (reconcile apply);
  record_audit "stream_bindings.firewall.reconcile"
    [("apply", JBool apply); ("added", JInt (Z.of_nat (length (pl_add plan))));
     ("removed", JInt (Z.of_nat (length (pl_remove plan))))]%string None ;;
  mret plan.

Definition read_manifest : M Console (list DesiredNode) :=
  n ← c_tick;
  try_except (lift (load_manifest (fleet_file n))) CManifest (fun _ => refuse ManifestInvalid).

Definition fleet_plan : M Console FleetPlan :=
  manifest ← read_manifest; at_store (plan manifest).

Definition fleet_reconcile : M Console (list string * FleetPlan) :=
  manifest ← read_manifest;
  registered ← at_store (reconcile_gateway console_lan manifest);
  record_audit "stream_bindings.fleet.reconcile" [("registered", JArr (map JStr registered))]%string None ;;
  p ← at_store (plan manifest);
  mret (registered, p).

Definition uc_reconcile_drift : M Console drift_report :=
  bindings ← at_store list_bindings;
  live ← try_except (on_gate live_ids) CException (fun _ => refuse JanusUnreachable);
  nodes ← at_store list_nodes;
  let maint := dkeys (List.filter (fun '(_, n) => n_maintenance n) nodes) in
  n ← c_tick;
  let report := compute_drift bindings live (Some (rtp_age_at n)) 4000 maint in
  record_audit "stream_bindings.reconcile.drift"
    [("drift", JBool (dr_drift report));
     ("counts", JObj (map (fun '(k, z) => (k, JInt z)) (dr_counts report)))]%string None ;;
  mret report.

(** ** The commands and the routes *)
Inductive command_ :=
  | RestartBinding (bid : string)
  | StopBinding (bid : string)
  | SetFdir (bid : string) (enabled : bool)
  | RemoveBinding (bid : string)
  | EnsureJanus (bid : string)
  | GetTuning (bid : string)
  | SetTuning (bid : string) (tuning : dict json)
  | GetModes (bid : string)
  | CreateBinding (cmd : CreateBindingCommand)
  | ListBindings (include_rtp_age : bool)
  | DeleteNode (node_id : string) (deprovision : bool)
  | ListNodes
  | CheckNode (node_id : string)
  | SetMaintenance (node_id : string) (enabled : bool)
  | GetHostKey (node_id : string)
  | ConfirmHostKey (node_id expected_fingerprint : string) (force : bool)
  | RegisterNode (node_id host role : string)
  | AddNode (host : string) (display_name : option string)
  | ProvisionNode (node_id : string) (sudo_password : option string) (allow_tofu : bool)
  | RotateToken (node_id : string) (sudo_password : option string)
  | ActivateStreams (node_id : string) (sensors : list string) (sudo_password : option string)
      (gateway_host : string)
  | GetDepth (node_id : string) (x y : Q) (aligned : bool)
  | GetDepthFrame (node_id : string)
  | FirewallReconcile (apply : bool)
  | FleetPlanCmd
  | FleetReconcile
  | ReconcileDrift.

(** The use case of a command; an operation on a stream that failed is answered with 502. *)
Definition run_command (c : command_) : M Console unit :=
  match c with
  | RestartBinding bid => r ← restart_binding bid; when (negb (bop_ok r)) (throw (EHttp 502))
  | StopBinding bid => r ← stop_binding bid; when (negb (bop_ok r)) (throw (EHttp 502))
  | SetFdir bid b => set_fdir bid b ;; mret tt
  | RemoveBinding bid => uc_remove_binding bid ;; mret tt
  | EnsureJanus bid => uc_ensure_janus bid ;; mret tt
  | GetTuning bid => get_tuning bid ;; mret tt
  | SetTuning bid d => set_tuning bid d ;; mret tt
  | GetModes bid => get_modes bid ;; mret tt
  | CreateBinding cmd => create_binding cmd ;; mret tt
  | ListBindings b => uc_list_bindings b ;; mret tt
  | DeleteNode id b => delete_node id b ;; mret tt
  | ListNodes => uc_list_nodes ;; mret tt
  | CheckNode id => check_node id ;; mret tt
  | SetMaintenance id b => uc_set_maintenance id b ;; mret tt
  | GetHostKey id => get_host_key id ;; mret tt
  | ConfirmHostKey id fp force => confirm_host_key id fp force ;; mret tt
  | RegisterNode id host role => register_node id host role ;; mret tt
  | AddNode host name => add_node host name ;; mret tt
  | ProvisionNode id pw tofu => provision_node id pw tofu ;; mret tt
  | RotateToken id pw => rotate_node_token id pw ;; mret tt
  | ActivateStreams id sensors pw gw => activate_node_streams id sensors pw gw ;; mret tt
  | GetDepth id x y al => get_depth id x y al ;; mret tt
  | GetDepthFrame id => get_depth_frame id ;; mret tt
  | FirewallReconcile b => firewall_reconcile b ;; mret tt
  | FleetPlanCmd => fleet_plan ;; mret tt
  | FleetReconcile => fleet_reconcile ;; mret tt
  | ReconcileDrift => uc_reconcile_drift ;; mret tt
  end.

(** The status of the answer for each domain error a route catches; a route answers 500
    for any other exception. *)
Definition caught (c : command_) : list (use_case_error * Z) :=
  match c with
  | RestartBinding _ => [(BindingNotFound, 404)]
  | StopBinding _ => [(BindingNotFound, 404); (UnsupportedSensorError, 400)]
  | SetFdir _ _ => [(BindingNotFound, 404); (LocalFdirNotToggleable, 400)]
  | RemoveBinding _ => [(BindingNotFound, 404); (LocalBindingNotRemovable, 400)]
  | EnsureJanus _ => [(BindingNotFound, 404); (EnsureJanusLocalRejected, 400)]
  | GetTuning _ | GetModes _ =>
      [(BindingNotFound, 404); (LocalTuningRejected, 400); (NodeAgentError, 502)]
  | SetTuning _ _ =>
      [(BindingNotFound, 404); (LocalTuningRejected, 400); (InvalidRotation, 400);
       (NoTuningFields, 400); (NodeAgentError, 502)]
  | CreateBinding _ =>
      [(LocalBindingNotCreatable, 400); (BindingNodeNotFound, 404); (AllocationConflict, 409);
       (BindingInvalid, 400)]
  | ListBindings _ | ListNodes | FirewallReconcile _ => []
  | DeleteNode _ _ => [(NodeNotFound, 404); (LocalNodeNotRemovable, 400)]
  | CheckNode _ => [(NodeNotFound, 404)]
  | SetMaintenance _ _ => [(NodeNotFound, 404); (MaintenanceLocalRejected, 400)]
  | GetHostKey _ => [(NodeNotFound, 404); (LocalNodeNoHostKey, 400); (HostKeyUnreachable, 503)]
  | ConfirmHostKey _ _ _ =>
      [(NodeNotFound, 404); (LocalNodeNoHostKey, 400); (HostKeyUnreachable, 503);
       (HostKeyFingerprintMismatch, 409); (HostKeyPinReplaceRejected, 409)]
  | RegisterNode _ _ _ => [(NodeRegistrationInvalid, 400)]
  | AddNode _ _ => [(AddNodeIsLocalGateway, 400); (NodeRegistrationInvalid, 400)]
  | ProvisionNode _ _ _ =>
      [(NodeNotFound, 404); (ProvisionLocalRejected, 400); (NodeBundleMissing, 503);
       (HostKeyNotConfirmed, 412)]
  | RotateToken _ _ =>
      [(NodeNotFound, 404); (RotateTokenLocalRejected, 400); (HostKeyNotConfirmed, 412)]
  | ActivateStreams _ _ _ _ =>
      [(NodeNotFound, 404); (ProvisionLocalRejected, 400); (NodeBundleMissing, 503);
       (HostKeyNotConfirmed, 412)]
  | GetDepth _ _ _ _ | GetDepthFrame _ => [(NodeAgentError, 502)]
  | FleetPlanCmd | FleetReconcile => [(ManifestInvalid, 422)]
  | ReconcileDrift => [(JanusUnreachable, 503)]
  end.

Definition route (c : command_) : M Console unit :=
  try_except (run_command c) CUseCase
    (fun e => match ex_kind e with
              | EUseCase u =>
                  match List.find (fun p => bool_decide (p.1 = u)) (caught c) with
                  | Some (_, status) => throw (EHttp status)
                  | None => raise e
                  end
              | _ => raise e
              end).
End use_cases.
