(* ===== verification/UseCaseTheorems.v ===== *)
(** * The admin console as a system

    What every sequence of the console's commands and of the threads they start keeps,
    with other threads and processes at work on the same files: the topology stays sound,
    a node never has two running operations, and nothing is said to a node over a
    connection that is not checked against a pinned host key. *)
From S2P Require Import Prelude.
From S2P Require Import Hoare.
From S2P Require Import PyVal.
From S2P Require Import PyStr.
From S2P Require Import FileStore.
From S2P Require Import World.
From S2P Require Import Allocator.
From S2P Require Import BindingModels.
From S2P Require Import TopologyStore.
From S2P Require Import Nodes.
From S2P Require Import Bindings.
From S2P Require Import TopologyCalls.
From S2P Require Import TopologyTheorems.
From S2P Require Import BindingProvision.
From S2P Require Import Journal.
From S2P Require Import Firewall.
From S2P Require Import Fleet.
From S2P Require Import Drift.
From S2P Require Import AuditLog.
From S2P Require Import JanusAdmin.
From S2P Require Import Lifecycle.
From S2P Require Import NodeTransport.
From S2P Require Import HostKeys.
From S2P Require Import Console.
From S2P Require Import ConsoleSamples.
From S2P Require Import NodeOps.
From S2P Require Import UseCases.

Section console.
Context {E : Env} {N : NodeEnv} {T : Entropy} {C : CameraEnv} {J : JanusHttp} {S : SshEnv} {L : AuditEnv}.
Context {R : Runner} {D : DriftEnv} {O : ConsoleEnv}.

(** ** Frames of the console

    What a command or a thread does, access by access. A relation [Rel] between the states
    of the console that every kind of access respects is respected by every command and
    every thread whose transport satisfies [ok]; [Q] is what is known of the calls of the
    topology store, short of the one that pins a host key. *)

(** The gateway's functions read the topology at most. *)
Definition gate_reads (g g' : Gateway) : Prop := f_content (s_topo (g_store g')) = f_content (s_topo (g_store g)).

Definition transport_of (op : node_op) : SSHTransport :=
  match op with OpProvision t _ | OpRotate t | OpActivate t _ _ => t end.

Record framed (ok : SSHTransport → Prop) (Q : Store → Store → Prop) (Rel : Console → Console → Prop)
    : Prop := {
  fr_calls : PreOrder Q;
  fr_same s s' : f_content (s_topo s') = f_content (s_topo s) → Q s s';
  fr_call c s : sets_key c = false → Q s (run_store_call c s).2;
  fr_preorder : PreOrder Rel;
  fr_disturb : preserves Rel disturb;
  fr_store A (m : M Store A) : preserves Q m → preserves Rel (on_gate (on_bindings m));
  fr_gate A (m : M Gateway A) : preserves gate_reads m → preserves Rel (on_gate m);
  fr_firewall apply : preserves Rel (zoom fw_of set_fw (reconcile apply));
  fr_camera A (m : M Camera A) : preserves Rel (at_camera m);
  fr_scan host : preserves Rel (at_ssh (capture_host_key host));
  fr_hash line : preserves Rel (at_ssh (host_key_fingerprint line));
  fr_run t cmd sudo timeout : ok t → preserves Rel (at_ssh (ssh_run t cmd sudo timeout));
  fr_push t local_path remote_path : ok t → preserves Rel (at_ssh (ssh_push t local_path remote_path));
  fr_janus A (m : M (list post) A) : preserves Rel (at_janus m);
  fr_audit action details outcome : preserves Rel (record_audit action details outcome);
  fr_journal A (m : M file A) : preserves (preserving journal_inv) m → preserves Rel (at_journal m);
  fr_agents f : preserves Rel (modify (λ c, set_agents (f c) c));
  fr_thread th : ok (transport_of (th_op th)) → preserves Rel (modify (add_thread th));
}.

#[local] Instance gate_reads_preorder : PreOrder gate_reads.
Proof. unfold gate_reads. split; [done|]. intros g1 g2 g3. congruence. Qed.

Lemma gate_world {A} (m : M World A) : preserves gate_reads (on_world m).
Proof. intros g. unfold on_world, zoom. by destruct (m _). Qed.
Lemma gate_docs {A} (m : M Store A) : preserves same_docs m → preserves gate_reads (on_bindings m).
Proof.
  intros Hm g. specialize (Hm (g_store g)). unfold on_bindings, zoom. destruct (m _). apply Hm.
Qed.
Lemma gate_send r : preserves gate_reads (send r).
Proof. done. Qed.
#[local] Hint Resolve gate_world gate_send : pres.
#[local] Hint Extern 1 (preserves gate_reads (on_bindings _)) => (apply gate_docs; pres) : pres.

Lemma ensure_janus_reads b : preserves gate_reads (ensure_janus b).
Proof. unfold ensure_janus, reconcile_existing. pres. Qed.
Lemma get_node_client_reads id : preserves gate_reads (get_node_client id).
Proof. unfold get_node_client. pres. Qed.
Lemma restart_stream_reads cl sensor : preserves gate_reads (restart_stream cl sensor).
Proof. unfold restart_stream, local_restart, agent_restart. pres. Qed.
Lemma agent_reachability_reads host : preserves gate_reads (agent_reachability host).
Proof. unfold agent_reachability. pres. Qed.
Lemma live_ids_reads : preserves gate_reads live_ids.
Proof. unfold live_ids. pres. Qed.

Lemma outcome_journalled i outcome now : preserves (preserving journal_inv) (record_outcome i outcome now).
Proof.
  assert (Hf : ∀ s e, s ≠ "running"%string → preserves (preserving journal_inv) (finish i s e now)).
  { intros s e Hs f Hf. by apply finish_inv. }
  unfold record_outcome. destruct outcome as [u|e];
    (apply pres_try; [apply _|by apply Hf|intros ?; apply pres_ret, _]).
Qed.

Lemma run_op_journalled n ty i now : preserves (preserving journal_inv) (run_op n ty i now).
Proof.
  unfold run_op. apply pres_bind; [apply _|intros f Hf; by apply begin_inv|intros ?; apply pres_ret, _].
Qed.

(** *** The walk *)

(** The commands are followed call by call; a call is found by its head. *)
Create HintDb walk discriminated.
#[local] Hint Constants Opaque : walk.
Ltac walk := cbv zeta; repeat first [solve [eauto 2 with walk nocore]|pres_step]; try done.

Section walk.
Context (ok : SSHTransport → Prop) (Q : Store → Store → Prop) (Rel : Console → Console → Prop).
Context (HR : framed ok Q Rel).

#[local] Instance walk_preorder : PreOrder Rel := fr_preorder _ _ _ HR.
#[local] Instance walk_calls : PreOrder Q := fr_calls _ _ _ HR.

Lemma w_store {A} (m : M Store A) : preserves Q m → preserves Rel (at_store m).
Proof.
  intros Hm. unfold at_store. apply pres_bind; [apply _|apply (fr_disturb _ _ _ HR)|].
  intros _. by apply (fr_store _ _ _ HR).
Qed.
Lemma w_gate {A} (m : M Gateway A) : preserves gate_reads m → preserves Rel (at_gate m).
Proof.
  intros Hm. unfold at_gate. apply pres_bind; [apply _|apply (fr_disturb _ _ _ HR)|].
  intros _. by apply (fr_gate _ _ _ HR).
Qed.

Lemma w_read {A} (m : M Store A) : preserves same_docs m → preserves Rel (at_store m).
Proof. intros Hm. apply w_store. intros s. destruct (Hm s) as (Hc & _). by apply (fr_same _ _ _ HR). Qed.

(** An access that makes a call of the store. *)
Lemma call_known {A} c (m : M Store A) :
  sets_key c = false → (∀ s, (m s).2 = (run_store_call c s).2) → preserves Q m.
Proof. intros Hc Hm s. rewrite Hm. by apply (fr_call _ _ _ HR). Qed.
Lemma w_call {A} c (m : M Store A) :
  sets_key c = false → (∀ s, (m s).2 = (run_store_call c s).2) → preserves Rel (at_store m).
Proof. intros Hc Hm. by apply w_store, (call_known c). Qed.

Ltac store_call c := apply (w_call c); [done|]; intros s; symmetry; apply snd_then_ret.

Lemma w_tick : preserves Rel c_tick.
Proof. apply (fr_gate _ _ _ HR), gate_world. Qed.
Lemma w_firewall apply : preserves Rel (at_firewall (reconcile apply)).
Proof.
  unfold at_firewall. apply pres_bind; [apply _|apply (fr_disturb _ _ _ HR)|].
  intros _. apply (fr_firewall _ _ _ HR).
Qed.
Lemma w_plan manifest : preserves Rel (at_store (plan manifest)).
Proof. apply w_read. unfold plan. pres. Qed.
Lemma w_fresh_token : preserves Rel (at_store fresh_token).
Proof. apply w_store. intros s. by apply (fr_same _ _ _ HR). Qed.
Lemma w_fleet manifest : preserves Rel (at_store (reconcile_gateway console_lan manifest)).
Proof.
  apply w_store. unfold reconcile_gateway. apply pres_bind; [apply _| |].
  { intros s. destruct (list_nodes_docs s) as (Hc & _). by apply (fr_same _ _ _ HR). }
  intros nodes. generalize (map n_host (map snd (List.filter (λ '(nid, _), negb (String.eqb nid LOCAL_NODE_ID)) nodes))).
  induction manifest as [|d ds IH]; intros hosts; simpl; [pres|]. case_decide; [apply IH|].
  assert (Hadd : ∀ name, preserves Q (add_node_by_host console_lan (de_host d) name "remote_producer")).
  { intros name. apply (call_known (CAddNode console_lan (de_host d) name "remote_producer")); [done|].
    intros s. symmetry. apply snd_then_ret. }
  pres.
Qed.
Lemma w_live : preserves Rel (on_gate live_ids).
Proof. apply (fr_gate _ _ _ HR), live_ids_reads. Qed.
Lemma w_set_desired_up bid b : preserves Rel (at_store (set_desired_up bid b)).
Proof. store_call (CSetDesiredUp bid b). Qed.
Lemma w_set_status bid x : preserves Rel (at_store (set_status bid x)).
Proof. store_call (CSetStatus bid x). Qed.
Lemma w_set_fdir bid b : preserves Rel (at_store (set_fdir_enabled bid b)).
Proof. store_call (CSetFdirEnabled bid b). Qed.
Lemma w_remove_binding bid : preserves Rel (at_store (remove_binding bid)).
Proof. store_call (CRemoveBinding bid). Qed.
Lemma w_upsert b jm : preserves Rel (at_store (upsert_binding b jm)).
Proof. store_call (CUpsertBinding b jm). Qed.
Lemma w_remove_node id : preserves Rel (at_store (remove_node id)).
Proof. store_call (CRemoveNode id). Qed.
Lemma w_touch id x : preserves Rel (at_store (touch_checked id x)).
Proof. store_call (CTouchChecked id x). Qed.
Lemma w_maintenance id b : preserves Rel (at_store (set_maintenance id b)).
Proof. store_call (CSetMaintenance id b). Qed.
Lemma w_agent_token id k : preserves Rel (at_store (set_agent_token id k)).
Proof. store_call (CSetAgentToken id k). Qed.
Lemma w_serial id x : preserves Rel (at_store (Nodes.set_serial id x)).
Proof. store_call (CSetSerial id x). Qed.
Lemma w_provision_state id x d : preserves Rel (at_store (set_provision_state id x d)).
Proof. store_call (CSetProvisionState id x d). Qed.
Lemma w_upsert_node id host role reach serial name :
  preserves Rel (at_store (upsert_node id host role reach serial name)).
Proof. store_call (CUpsertNode id host role reach serial name). Qed.
Lemma w_add_node lan host name role : preserves Rel (at_store (add_node_by_host lan host name role)).
Proof. store_call (CAddNode lan host name role). Qed.
#[local] Hint Resolve w_tick w_firewall w_plan w_fresh_token w_fleet w_live w_set_desired_up w_set_status
  w_set_fdir w_remove_binding w_upsert w_remove_node w_touch w_maintenance w_agent_token
  w_serial w_provision_state w_upsert_node w_add_node : walk.

Definition w_get_node id := w_read (get_node id) (get_node_docs id).
Definition w_get_binding id := w_read (get_binding id) (get_binding_docs id).
Definition w_list_nodes := w_read list_nodes list_nodes_docs.
Definition w_list_bindings := w_read list_bindings list_bindings_docs.
Definition w_allocate_mountpoint id := w_read (allocate_mountpoint id) (allocate_mountpoint_docs id).
Definition w_allocate_port id := w_read (allocate_port id) (allocate_port_docs id).
Definition w_ensure_janus b := w_gate (ensure_janus b) (ensure_janus_reads b).
Definition w_client id := w_gate (get_node_client id) (get_node_client_reads id).
Definition w_restart cl sensor := w_gate (restart_stream cl sensor) (restart_stream_reads cl sensor).
Definition w_reachability host := w_gate (agent_reachability host) (agent_reachability_reads host).
Definition w_camera {A} (m : M Camera A) := fr_camera _ _ _ HR A m.
Definition w_scan := fr_scan _ _ _ HR.
Definition w_hash := fr_hash _ _ _ HR.
Definition w_run := fr_run _ _ _ HR.
Definition w_push := fr_push _ _ _ HR.
Definition w_janus {A} (m : M (list post) A) := fr_janus _ _ _ HR A m.
Definition w_audit := fr_audit _ _ _ HR.
Definition w_agents := fr_agents _ _ _ HR.
#[local] Hint Resolve w_get_node w_get_binding w_list_nodes w_list_bindings w_allocate_mountpoint
  w_allocate_port w_ensure_janus w_client w_restart w_reachability w_camera w_scan w_hash w_run w_push
  w_janus w_audit w_agents : walk.

(** *** Helpers shared by the commands *)
Lemma w_binding bid : preserves Rel (binding_or_404 bid).
Proof. unfold binding_or_404, refuse. walk. Qed.
Lemma w_node e id : preserves Rel (remote_node_or e id).
Proof. unfold remote_node_or, refuse. walk. Qed.
Lemma w_agent_send node a : preserves Rel (agent_send node a).
Proof. unfold agent_send. walk. Qed.
#[local] Hint Resolve w_binding w_node w_agent_send : walk.
Lemma w_stop_stream cl sensor : preserves Rel (stop_stream cl sensor).
Proof. unfold stop_stream, agent_stop. walk. Qed.
Lemma w_agent_json cl a : preserves Rel (agent_json cl a).
Proof. unfold agent_json. walk. Qed.
Lemma w_ignore m : preserves Rel m → preserves Rel (ignore_errors m).
Proof. intros Hm. unfold ignore_errors. walk. Qed.
Lemma w_destroy mp : preserves Rel (destroy_mountpoint mp).
Proof. unfold destroy_mountpoint. walk. Qed.
#[local] Hint Resolve w_stop_stream w_agent_json w_destroy : walk.
#[local] Hint Extern 1 (preserves Rel (ignore_errors _)) => (apply w_ignore; walk) : walk.
Lemma w_stop_streams cl bs : preserves Rel (stop_streams cl bs).
Proof. induction bs as [|b bs IH]; simpl; walk. Qed.
Lemma w_destroy_mountpoints bs : preserves Rel (destroy_mountpoints bs).
Proof. induction bs as [|b bs IH]; simpl; walk. Qed.
Lemma w_or_allocate x m : preserves Rel (at_store m) → preserves Rel (or_allocate x m).
Proof. intros Hm. unfold or_allocate. walk. Qed.
Lemma w_spawn id op : ok (transport_of op) → preserves Rel (spawn_node_op id op).
Proof.
  intros Hop. unfold spawn_node_op. pose proof (λ i ty n now, fr_journal _ _ _ HR _ _ (run_op_journalled i ty n now)).
  pose proof (λ i, fr_thread _ _ _ HR (mkThread i id op) Hop). walk.
Qed.
Lemma w_target id : preserves Rel (resolve_provision_target id).
Proof. unfold resolve_provision_target, refuse. walk. Qed.
Lemma w_manifest : preserves Rel read_manifest.
Proof. unfold read_manifest, refuse. walk. Qed.
#[local] Hint Resolve w_stop_streams w_destroy_mountpoints w_spawn w_target w_manifest
  w_or_allocate : walk.

(** *** Commands *)

(** The commands that use or pin a host key. *)
Definition keyed (cmd : command_) : bool :=
  match cmd with
  | ConfirmHostKey _ _ _ | ProvisionNode _ _ _ | RotateToken _ _ | ActivateStreams _ _ _ _ => true
  | _ => false
  end.

Lemma command_walks cmd : keyed cmd = false → preserves Rel (run_command cmd).
Proof.
  destruct cmd; try (by intros); intros _;
    unfold run_command, restart_binding, stop_binding, set_fdir, uc_remove_binding,
    uc_ensure_janus, get_tuning, get_modes, ask_agent, set_tuning, create_binding, uc_list_bindings,
    delete_node, uc_list_nodes, check_node, uc_set_maintenance, get_host_key, register_node, add_node,
    get_depth, get_depth_frame, node_depth, firewall_reconcile, fleet_plan, fleet_reconcile,
    uc_reconcile_drift, restart_local, restart_remote, stop_local, stop_remote, audit_op, refuse; walk.
  apply w_list_nodes.
Qed.

(** They are like the others where any key may be pinned and used. *)
Lemma keyed_walks cmd :
  (∀ t, ok t) → (∀ id k, preserves Rel (at_store (set_host_key id k))) → preserves Rel (run_command cmd).
Proof.
  intros Hok Hkey. destruct (keyed cmd) eqn:Hk; [|by apply command_walks].
  assert (Hb : ∀ node pw tofu, preserves Rel (build_transport node pw tofu)).
  { intros. unfold build_transport. walk. }
  assert (Hs : ∀ id op, preserves Rel (spawn_node_op id op)) by (intros; by apply w_spawn).
  destruct cmd; try done; unfold run_command, confirm_host_key, provision_node, rotate_node_token,
    activate_node_streams, audit_host_key, require_lan_ipv4, refuse; walk.
Qed.

(** *** Threads *)
Lemma w_mark id x : preserves Rel (mark id x).
Proof. unfold mark. walk. Qed.
Lemma w_failed id x : preserves Rel (provision_failed id x).
Proof. unfold provision_failed. walk. Qed.
Lemma w_token_for node id : preserves Rel (agent_token_for node id).
Proof. unfold agent_token_for. walk. Qed.
#[local] Hint Resolve w_mark w_failed w_token_for : walk.

Lemma w_provision id t tar : ok t → preserves Rel (provision id t tar).
Proof. intros Ht. unfold provision, deploy. walk. Qed.
Lemma w_rotate id t : ok t → preserves Rel (rotate_token id t).
Proof. intros Ht. unfold rotate_token. walk. Qed.
Lemma w_bind gw node sensor : preserves Rel (bind gw node sensor).
Proof. unfold bind, binding_slot. walk. Qed.
#[local] Hint Resolve w_provision w_rotate w_bind : walk.
Lemma w_activate_loop t gw node sensors :
  ok t → preserves Rel (activate_loop t gw (bind gw) node sensors).
Proof. intros Ht. induction sensors as [|x xs IH]; simpl; unfold activate_stream; walk. Qed.
#[local] Hint Resolve w_activate_loop : walk.

Lemma thread_walks th : ok (transport_of (th_op th)) → preserves Rel (run_thread th).
Proof.
  intros Hth. pose proof (λ i o n, fr_journal _ _ _ HR _ _ (outcome_journalled i o n)).
  unfold run_thread, op_body. destruct (th_op th) as [t tar|t|t sensors gw]; simpl in Hth;
    unfold activate_remote, activate_streams; walk.
Qed.
End walk.

(** ** Histories of the console *)

(** A command given through its route, or a step of a thread that was started; [allowed]
    restricts the commands. *)
Inductive console_step (allowed : command_ → Prop) : Console → Console → Prop :=
  | step_command cmd c : allowed cmd → console_step allowed c (route cmd c).2
  | step_thread th c : th ∈ c_threads c → console_step allowed c (run_thread th c).2.

Lemma route_walks Rel cmd : PreOrder Rel → preserves Rel (run_command cmd) → preserves Rel (route cmd).
Proof. intros HR Hc. unfold route. pres. Qed.

(** *** The files *)

(** The topology is one that calls lead to; the journal keeps its invariant. *)
Definition follows (c c' : Console) : Prop :=
  upto_reaches (c_store c) (c_store c') ∧ (journal_inv (c_journal c) → journal_inv (c_journal c')).

#[local] Instance follows_preorder : PreOrder follows.
Proof.
  split; [by split; [reflexivity|]|]. intros c1 c2 c3 [H1 J1] [H2 J2]. split; [by etrans|auto].
Qed.

Lemma interfere_reaches n s : upto_reaches s (interfere n s).
Proof. destruct (run_faulty_reaches (others n) s) as (s1 & Hs1 & Hc). exists s1. by split. Qed.

Lemma follows_same {A} (m : M Console A) :
  preserves (keeps (λ c, (f_content (s_topo (c_store c)), c_journal c))) m → preserves follows m.
Proof.
  intros Hm c. specialize (Hm c). injection Hm as Ht Hj. split; [by apply same_topo_reaches|by rewrite Hj].
Qed.

Definition terminal_journal : Prop := ∀ n, Forall (λ x, terminal x.2 = true) (others_journal n).

Lemma follows_gate {A} (m : M Gateway A) : preserves gate_reads m → preserves follows (on_gate m).
Proof.
  intros Hm. apply follows_same. intros c. specialize (Hm (c_gate c)). unfold on_gate, zoom, keeps.
  destruct (m (c_gate c)) as [r g']. unfold c_store. simpl in *. by rewrite Hm.
Qed.

Lemma follows_journal {A} (m : M file A) :
  terminal_journal → preserves (preserving journal_inv) m → preserves follows (at_journal m).
Proof.
  intros Ho Hm. unfold at_journal. apply pres_bind; [apply _|apply follows_gate, gate_world|].
  intros n c. unfold zoom. set (f := c_journal c).
  assert (Hf : preserving journal_inv f ((modify (λ f, set_fault (journal_fault n) (run_journal (others_journal n) f)) ;; m) f).2).
  { intros Hj. unfold modify, mbind, M_bind. apply Hm. exact (run_journal_inv _ f (Ho n) Hj). }
  destruct ((modify _ ;; m) f) as [r f']. split; [by apply same_topo_reaches|exact Hf].
Qed.

Definition fw_reads (w w' : Fw) : Prop := f_content (s_topo (fw_store w')) = f_content (s_topo (fw_store w)).

#[local] Instance fw_reads_preorder : PreOrder fw_reads.
Proof. unfold fw_reads. split; [done|]. intros w1 w2 w3. congruence. Qed.

Lemma reconcile_reads apply : preserves fw_reads (reconcile apply).
Proof.
  assert (Hrun : ∀ argv, preserves fw_reads (run argv)) by done.
  assert (Hlines : preserves fw_reads current_tagged_lines) by (unfold current_tagged_lines; pres).
  assert (Hdel : ∀ stale lines, preserves fw_reads (delete_stale stale lines)).
  { intros stale. induction lines as [|ln lines IH]; simpl; pres. }
  assert (Hrules : preserves fw_reads (fw_on_store desired_rules)).
  { intros w. assert (H : preserves same_docs desired_rules) by (unfold desired_rules; pres).
    specialize (H (fw_store w)). unfold fw_on_store, zoom. destruct (desired_rules _). apply H. }
  unfold reconcile, current_tagged. pres.
Qed.

Lemma follows_framed : terminal_journal → framed (λ _, True) upto_reaches follows.
Proof.
  intros Ho. split; intros; try (by apply follows_same; intros c; unfold at_camera, at_ssh, at_janus,
    record_audit, at_audit, modify, keeps, zoom; try match goal with |- context [let '(_, _) := ?x in _] => destruct x end).
  - apply _.
  - by apply same_topo_reaches.
  - apply call_reaches.
  - apply _.
  - unfold disturb, c_tick. apply pres_bind; [apply _|apply follows_gate, gate_world|].
    intros n c. split; [apply interfere_reaches|done].
  - intros c. specialize (H (c_store c)). unfold on_gate, on_bindings, zoom. unfold c_store in H.
    destruct (m _). by split.
  - by apply follows_gate.
  - apply follows_same. intros c. pose proof (reconcile_reads apply (fw_of c)) as Hr. unfold zoom, keeps.
    destruct (reconcile apply (fw_of c)) as [r w]. unfold c_store. simpl in *. by rewrite Hr.
  - by apply follows_journal.
Qed.

(** *** The host keys *)
Section pins.
Context (allowed : command_ → Prop).
Context (Hspare : ∀ n, Forall (λ c, sets_key c.2 = false) (others n)).

(** An administrator named the fingerprint that ssh-keygen printed for the key. *)
Definition vouched (k : string) : Prop :=
  ∃ id fp force n out, allowed (ConfirmHostKey id fp force) ∧ k ≠ EmptyString ∧
    keygen n (py_strip k ++ newline_)%string = Some out ∧ fingerprint_in out = py_strip fp.

Definition over_vouched (t : SSHTransport) : Prop := ∃ k, tr_host_key t = JStr k ∧ vouched k.

Definition checked (e : ssh_event) : Prop :=
  match e with Connected c => ∃ k, cn_pin c = Some (py_strip k) ∧ vouched k | _ => True end.

(** The keys that are stored, checked against and held by threads are vouched for. *)
Definition pinned (c : Console) : Prop :=
  topo_inv (keys_in vouched) (c_store c) ∧ Forall checked (c_ssh c) ∧
  Forall (λ th, over_vouched (transport_of (th_op th))) (c_threads c).

Lemma vouched_pin t : over_vouched t → ∃ k, pin_of t = Ok (Some (py_strip k)) ∧ vouched k.
Proof.
  intros (k & Hk & Hv). exists k. split; [|done]. unfold pin_of. rewrite Hk.
  destruct Hv as (_ & _ & _ & _ & _ & _ & Hne & _). by destruct k.
Qed.

Lemma interfere_keys n s : topo_inv (keys_in vouched) s → topo_inv (keys_in vouched) (interfere n s).
Proof.
  assert (Hf : ∀ cs s, Forall (λ c, sets_key c.2 = false) cs → topo_inv (keys_in vouched) s →
            topo_inv (keys_in vouched) (run_faulty cs s)).
  { intros cs s0 Hcs. revert s0. induction Hcs as [|[[ft fs] c] cs Hc _ IH]; intros s0 Hs; [done|]. simpl.
    apply IH, call_keys; [|done]. by intros id k ->. }
  intros Hs. by apply (Hf (others n)) in Hs.
Qed.

Lemma pinned_same {A} (m : M Console A) :
  preserves (keeps (λ c, (f_content (s_topo (c_store c)), c_ssh c, c_threads c))) m →
  preserves (preserving pinned) m.
Proof.
  intros Hm c (Ht & He & Hth). specialize (Hm c). injection Hm as H1 H2 H3.
  split_and!; [|by rewrite H2|by rewrite H3]. unfold topo_inv. by rewrite H1.
Qed.

(** The programs that are run. *)
Lemma pinned_ssh {A} (m : M (list ssh_event) A) :
  preserves (preserving (Forall checked)) m → preserves (preserving pinned) (at_ssh m).
Proof.
  intros Hm c (Ht & He & Hth). specialize (Hm (c_ssh c) He). unfold at_ssh, zoom.
  destruct (m (c_ssh c)) as [r l]. by split_and!.
Qed.

Lemma event_checked e : checked e → preserves (preserving (Forall checked)) (ssh_event_ e).
Proof.
  intros He. unfold ssh_event_. pres. intros Hl. apply Forall_app. split; [done|]. by constructor.
Qed.

Lemma connect_checked t p : over_vouched t → preserves (preserving (Forall checked)) (connect t p).
Proof.
  intros (k & Hp & Hk)%vouched_pin. unfold connect. rewrite Hp. intros l Hl.
  apply (event_checked (Connected (mkConn (tr_host t) (tr_user t) (Some (py_strip k)) p)) ltac:(by exists k) l Hl).
Qed.

Lemma pinned_framed : framed over_vouched (preserving (topo_inv (keys_in vouched))) (preserving pinned).
Proof.
  split; intros; try (by apply pinned_same; intros c; unfold at_camera, at_janus,
    record_audit, at_audit, modify, keeps, zoom; try match goal with |- context [let '(_, _) := ?x in _] => destruct x end).
  - apply _.
  - unfold preserving, topo_inv. by rewrite H.
  - intros Hs. apply call_keys; [|done]. by intros id k ->.
  - apply _.
  - intros c (Ht & He & Hth). unfold disturb, c_tick. split_and!; [|done..]. by apply interfere_keys.
  - intros c (Ht & He & Hth). specialize (H (c_store c) Ht). unfold on_gate, on_bindings, zoom. unfold c_store in H.
    destruct (m _). by split_and!.
  - apply pinned_same. intros c. specialize (H (c_gate c)). unfold on_gate, zoom, keeps.
    destruct (m (c_gate c)) as [r g']. unfold c_store. simpl in *. by rewrite H.
  - apply pinned_same. intros c. pose proof (reconcile_reads apply (fw_of c)) as Hr. unfold zoom, keeps.
    destruct (reconcile apply (fw_of c)) as [r w]. unfold c_store. simpl in *. by rewrite Hr.
  - apply pinned_ssh. unfold capture_host_key. pose proof (event_checked (Scanned host) I). pres.
  - apply pinned_ssh. unfold host_key_fingerprint. pose proof (λ l, event_checked (Hashed l) I). cbv zeta. pres.
  - apply pinned_ssh. unfold ssh_run. cbv zeta. pose proof (connect_checked t). pres.
  - apply pinned_ssh. unfold ssh_push. cbv zeta. pose proof (connect_checked t). pres.
  - apply pinned_same. intros c. unfold at_journal, c_tick, on_gate, on_world, tick, zoom, modify, mbind, M_bind.
    cbn. by match goal with |- context [m ?f] => destruct (m f) end.
  - intros c (Ht & He & Hth). split_and!; [done..|]. apply Forall_app. split; [done|]. by constructor.
Qed.

(** What is known of a value that is read. *)
Lemma pres_known {A B} (P : A → Prop) (m : M Console A) (f : A → M Console B) :
  (∀ c, pinned c → wp m (λ r c', pinned c' ∧ ∀ a, r = Ok a → P a) c) →
  (∀ a, P a → preserves (preserving pinned) (f a)) → preserves (preserving pinned) (m ≫= f).
Proof.
  intros Hm Hf c Hc. apply (wp_state (m ≫= f) pinned), wp_bind.
  eapply wp_mono; [by apply Hm|]. intros [a|e] c' [Hc' Ha]; simpl; [|done].
  apply (wp_mono _ (λ _ c2, pinned c2)); [|done]. apply wp_intro. intros r c2 Hr.
  specialize (Hf a (Ha a eq_refl) c' Hc'). by rewrite Hr in Hf.
Qed.

Definition known_node (n : NodeEntry) : Prop :=
  truthy (n_host_key n) = true → ∃ k, n_host_key n = JStr k ∧ vouched k.

Lemma known_node_read e id c :
  pinned c → wp (remote_node_or e id) (λ r c', pinned c' ∧ ∀ n, r = Ok n → known_node n) c.
Proof.
  intros Hc. pose proof (w_node _ _ _ pinned_framed e id c Hc) as Hp. apply wp_and; [by apply wp_intro; intros r c' Hr; rewrite Hr in Hp|].
  unfold remote_node_or, refuse. wp_step. apply wp_at_store. intros n. apply wp_intro. intros r s' Hrun c' _ _.
  destruct r as [[nd|]|x]; simpl; [|repeat wp_step; by intros|by intros].
  destruct (String.eqb _ _); repeat wp_step; [by intros|]. intros nd' [= <-] Ht.
  eapply get_node_key; [|done..]. apply interfere_keys, Hc.
Qed.

Lemma known_target_read id c :
  pinned c → wp (resolve_provision_target id) (λ r c', pinned c' ∧ ∀ n, r = Ok n → known_node n) c.
Proof.
  intros Hc. unfold resolve_provision_target. wp_step. eapply wp_mono; [by apply known_node_read|].
  intros [nd|e] c1 [Hc1 Hnd]; simpl; [|by split]. wp_step.
  apply (wp_frame (preserving pinned)); [apply (w_tick _ _ _ pinned_framed)|].
  intros [n|e] c2 Hc2; simpl; [|split; [auto|by intros]].
  destruct (bundle_exists n); unfold refuse; repeat wp_step; (split; [auto|]); [|by intros].
  intros nd' [= <-]. by apply Hnd.
Qed.

Lemma build_known {A} node pw (f : SSHTransport → M Console A) :
  known_node node → (∀ t, over_vouched t → preserves (preserving pinned) (f t)) →
  preserves (preserving pinned) (build_transport node pw false ≫= f).
Proof.
  intros Hn Hf. unfold build_transport. cbv zeta. destruct (truthy (n_host_key node)) eqn:Ht; simpl.
  - intros c Hc. unfold mbind, M_bind, mret, M_ret. apply Hf; [|done]. by apply Hn.
  - by intros c Hc.
Qed.

Lemma confirm_pinned id fp force :
  allowed (ConfirmHostKey id fp force) → py_strip fp ≠ EmptyString →
  preserves (preserving pinned) (confirm_host_key id fp force).
Proof.
  intros Ha Hfp. pose proof pinned_framed as HR. unfold confirm_host_key, audit_host_key, refuse. cbv zeta.
  apply pres_bind; [apply _|apply (w_node _ _ _ HR)|]. intros node.
  apply pres_bind; [apply _|apply (w_scan _ _ _ HR)|]. intros hk.
  destruct (String.eqb_spec hk EmptyString) as [|Hhk]; [pres|].
  apply pres_bind_ok; [apply _|apply (w_hash _ _ _ HR)|]. intros c seen c' Hseen.
  pose proof (w_audit _ _ _ HR) as Haudit.
  destruct (String.eqb_spec seen (py_strip fp)) as [Heq|]; simpl; [|pres].
  destruct (_ && _); [pres|]. apply pres_bind; [apply _| |intros n; pres].
  assert (Hv : vouched hk).
  { unfold at_ssh, zoom, host_key_fingerprint in Hseen. cbv zeta in Hseen.
    destruct (String.eqb (py_strip hk) EmptyString).
    { simpl in Hseen. injection Hseen as Hs _. congruence. }
    unfold ssh_event_, gets, modify, mbind, M_bind, mret, M_ret in Hseen. cbn in Hseen.
    injection Hseen as Hs _. destruct (keygen _ _) as [out|] eqn:Hk; [|congruence].
    exists id, fp, force. do 2 eexists. split_and!; [done..|exact Hk|congruence]. }
  apply (w_store _ _ _ HR). intros s Hs.
  replace ((set_host_key (n_node_id node) hk s).2) with (run_store_call (CSetHostKey (n_node_id node) hk) s).2
    by apply snd_then_ret.
  apply call_keys; [|done]. by intros i k [= _ <-].
Qed.

(** No key is trusted on first use, and no fingerprint is blank. *)
Definition careful (cmd : command_) : Prop :=
  match cmd with
  | ProvisionNode _ _ allow_tofu => allow_tofu = false
  | ConfirmHostKey _ fp _ => py_strip fp ≠ EmptyString
  | _ => True
  end.

Lemma command_pinned cmd : allowed cmd → careful cmd → preserves (preserving pinned) (run_command cmd).
Proof.
  intros Ha Hcmd. pose proof pinned_framed as HR.
  destruct (keyed cmd) eqn:Hk; [|by apply (command_walks _ _ _ HR)].
  pose proof (w_audit _ _ _ HR) as Haudit.
  assert (Hspawn : ∀ id op, over_vouched (transport_of op) → preserves (preserving pinned) (spawn_node_op id op))
    by (intros; by apply (w_spawn _ _ _ HR)).
  destruct cmd; try done; unfold run_command.
  - apply pres_bind; [apply _|by apply confirm_pinned|intros ?; pres].
  - simpl in Hcmd. subst allow_tofu. apply pres_bind; [apply _| |intros ?; pres]. unfold provision_node.
    apply (pres_known known_node); [apply known_target_read|]. intros node Hn.
    apply build_known; [done|]. intros t Ht. pres.
  - apply pres_bind; [apply _| |intros ?; pres]. unfold rotate_node_token.
    apply (pres_known known_node); [apply known_node_read|]. intros node Hn.
    apply build_known; [done|]. intros t Ht. pres.
  - apply pres_bind; [apply _| |intros ?; pres]. unfold activate_node_streams, require_lan_ipv4. cbv zeta.
    pose proof (λ A m, w_camera _ _ _ HR (A:=A) m) as Hcam. destruct (negb _); [pres|].
    destruct (String.eqb _ _); [pres|]. apply pres_bind; [apply _|pres|]. intros gw.
    apply (pres_known known_node); [apply known_target_read|]. intros node Hn.
    apply build_known; [done|]. intros t Ht. pres.
Qed.

Lemma steps_pinned c c' :
  (∀ cmd, allowed cmd → careful cmd) → rtc (console_step allowed) c c' → pinned c → pinned c'.
Proof.
  intros Hcareful. induction 1 as [|c1 c2 c3 Hstep _ IH]; [done|]. intros Hc1. apply IH.
  destruct Hstep as [cmd c Hcmd|th c Hth].
  - apply (route_walks (preserving pinned) cmd); [apply _|by apply command_pinned; auto|done].
  - apply (thread_walks _ _ _ pinned_framed th); [|done]. destruct Hc1 as (_ & _ & Hths).
    rewrite Forall_forall in Hths. by apply Hths.
Qed.
End pins.

(** C20. From a sound topology and journal, every history of the console, with any topology calls
    of other threads and processes, and any of their journal calls that finish operations with
    a terminal status, between two accesses to a file and any system call failing: no two bindings share a slot, no
    two nodes a window, no binding outlives its node, and no node ever has two running
    operations in the journal. *)
Theorem console_keeps_files c c' :
  terminal_journal → rtc (console_step (λ _, True)) c c' →
  topo_inv topology_sound (c_store c) → journal_inv (c_journal c) →
  topo_inv topology_sound (c_store c') ∧ journal_inv (c_journal c').
Proof.
  intros Ho Hsteps Ht Hj. enough (Hf : follows c c').
  { destruct Hf as [Hr Hj']. split; [|auto].
    by apply (upto_reaches_inv _ _ _ edit_sound written_sound Hr). }
  pose proof (follows_framed Ho) as HR.
  assert (Hkey : ∀ id k, preserves follows (at_store (set_host_key id k))).
  { intros id k. unfold at_store. apply pres_bind; [apply _|apply (fr_disturb _ _ _ HR)|]. intros _.
    apply (fr_store _ _ _ HR). intros s.
    replace ((set_host_key id k s).2) with (run_store_call (CSetHostKey id k) s).2 by apply snd_then_ret.
    apply call_reaches. }
  induction Hsteps as [c|c1 c2 c3 Hstep Hsteps IH]; [reflexivity|].
  assert (H12 : follows c1 c2).
  { destruct Hstep as [cmd c _|th c _].
    - apply (route_walks follows cmd); [apply _|]. by apply (keyed_walks _ _ _ HR).
    - by apply (thread_walks _ _ _ HR). }
  etrans; [done|]. destruct H12 as [Hr H12]. apply IH; [|auto].
  by apply (upto_reaches_inv _ _ _ edit_sound written_sound Hr).
Qed.

(** C19. The root of trust of the SSH connections. From a state without pinned keys, connections or threads, whatever
    commands are given (no provisioning with trust on first use, no blank fingerprint),
    whatever the nodes and the network answer and the other requests do (short of
    pinning a key themselves), every connection, of every command and thread, is checked
    against a host key, and ssh-keygen printed for that very key a fingerprint an
    administrator gave in a confirmation. *)
Theorem only_confirmed_keys (allowed : command_ → Prop) c c' :
  (∀ n, Forall (λ x, sets_key x.2 = false) (others n)) → (∀ cmd, allowed cmd → careful cmd) →
  topo_inv (keys_in (λ _, False)) (c_store c) → c_ssh c = [] → c_threads c = [] →
  rtc (console_step allowed) c c' →
  ∀ k, Connected k ∈ c_ssh c' →
  ∃ key id fp force n out, cn_pin k = Some (py_strip key) ∧ allowed (ConfirmHostKey id fp force) ∧
    keygen n (py_strip key ++ newline_)%string = Some out ∧ fingerprint_in out = py_strip fp.
Proof.
  intros Ho Hcareful Hkeys Hssh Hths Hsteps k Hk.
  assert (Hc : pinned allowed c).
  { split_and!; [|by rewrite Hssh|by rewrite Hths]. intros d Hd id raw Hraw x Hx Ht.
    by destruct (Hkeys d Hd id raw Hraw x Hx Ht) as (? & _ & []). }
  destruct (steps_pinned allowed Ho c c' Hcareful Hsteps Hc) as (_ & Hch & _).
  rewrite Forall_forall in Hch. destruct (Hch _ Hk) as (key & Hpin & id & fp & force & n & out & Hv).
  exists key, id, fp, force, n, out. by destruct Hv as (? & _ & ? & ?).
Qed.
End console.

(** ** Witnesses *)
#[local] Existing Instances live_env sample_nodes sample_entropy sample_ssh sample_console_env sample_runner.
#[local] Instance sample_audit : AuditEnv := audit_env (λ _, false).
#[local] Instance sample_janus : JanusHttp := sample_http true.
#[local] Instance sample_drift : DriftEnv := {| rtp_age_at _ _ := Some 40 |}.

Definition confirm_node : command_ := ConfirmHostKey "node-0" " SHA256:q2Zt " false.
Definition provision_it : command_ := ProvisionNode "node-0" (Some "secret"%string) false.
Definition given (cmds : list command_) (c : Console) : Console := fold_left (λ c cmd, (route cmd c).2) cmds c.

Lemma given_steps (allowed : command_ → Prop) cmds c :
  Forall allowed cmds → rtc (console_step allowed) c (given cmds c).
Proof.
  intros Hcmds. revert c. induction Hcmds as [|cmd cmds Hcmd _ IH]; intros c; simpl; [done|].
  eapply rtc_l; [by apply step_command|apply IH].
Qed.

(** The last thread that was started runs. *)
Definition run_last (c : Console) : Console :=
  match last (c_threads c) with Some th => (run_thread th c).2 | None => c end.

Lemma run_last_steps (allowed : command_ → Prop) c c' :
  rtc (console_step allowed) c c' → rtc (console_step allowed) c (run_last c').
Proof.
  intros Hc. unfold run_last. destruct (last (c_threads c')) as [th|] eqn:Hl; [|done].
  eapply rtc_r; [done|]. apply step_thread. apply last_Some in Hl as (l & ->). set_solver.
Qed.

Definition confirmed_and_ready : Console :=
  run_last (given [confirm_node; provision_it] (sample_console enrolled_store)).

Lemma some_connection l :
  existsb (λ e, match e with Connected _ => true | _ => false end) l = true → ∃ k, Connected k ∈ l.
Proof. intros ([k| |] & Hk & ?)%existsb_exists; [|done..]. exists k. by apply list_elem_of_In. Qed.

Lemma only_confirmed_keys_witness :
  (∃ k, Connected k ∈ c_ssh confirmed_and_ready) ∧
  ∀ k, Connected k ∈ c_ssh confirmed_and_ready → ∃ key, cn_pin k = Some (py_strip key).
Proof.
  split.
  - apply some_connection. vm_compute. reflexivity.
  - intros k Hk.
    destruct (only_confirmed_keys (λ cmd, cmd ∈ [confirm_node; provision_it])
      (sample_console enrolled_store) confirmed_and_ready) with (k := k)
      as (key & id & fp & force & n & out & Hpin & _); [| | |done|done| |exact Hk|by exists key].
    + intros n. by repeat constructor.
    + intros cmd [->|[->|[]%elem_of_nil]%elem_of_cons]%elem_of_cons; done.
    + intros d Hd id raw Hraw x Hx. vm_compute in Hd. injection Hd as <-. unfold row in Hraw. simpl in Hraw.
      case_decide; [|done]. injection Hraw as <-. vm_compute in Hx. by injection Hx as <-.
    + apply run_last_steps, given_steps. apply Forall_forall. intros cmd Hcmd. exact Hcmd.
Defined.

Lemma bound_store_sound : topo_inv topology_sound bound_store.
Proof.
  apply (call_inv _ edit_sound written_sound (CUpsertBinding sample_binding 1305) enrolled_store).
  apply (call_inv _ edit_sound written_sound
    (CAddNode (mkLan EmptyString NoCidr) "192.168.10.55" None "remote_producer") empty_store).
  apply empty_store_sound.
Qed.

(** The node is removed while its stream is bound. *)
Definition forget_node : list command_ :=
  [StopBinding "node-0:color"; DeleteNode "node-0" true; AddNode "192.168.10.56" None]%string.

Lemma console_keeps_files_witness :
  topo_inv topology_sound (c_store (given forget_node (sample_console bound_store))).
Proof.
  apply (console_keeps_files (sample_console bound_store)).
  - intros n. constructor.
  - apply given_steps. by repeat constructor.
  - exact bound_store_sound.
  - by apply journal_inv_absent.
Defined.
