(* ===== verification/TextRoom.v ===== *)
(** * The text-room relay ([textroom_relay.py])

    Messages of the browsers' data channel, handed over by Janus one HTTP request each,
    are routed by their topic into one bounded queue per topic; one worker per topic
    posts them to the topic's sink and publishes the sink's answer where the topic asks
    for it. The handlers are coroutines of one event loop: a hook runs to its end, a
    worker up to its next request. Log lines are not modelled; a worker that a shutdown
    cancels is outside the model. *)
From S2P Require Import Prelude.
From S2P Require Import PyVal.
From S2P Require Import FileStore.
From S2P Require Import BindingModels.
From S2P Require Import Nodes.

Class RelayEnv := {
  QUEUE_MAX : Z;
  RS_MUX_URL : string;
  DEPTH_PUBLISH_URL : string;
  relay_time : nat → Q;                 (* [time.time()], the n-th look *)
  loads : string → res json;            (* [json.loads] of a string *)
}.

(** ** Data *)
Record Stats := mkStats {
  st_seen : Z; st_enqueued : Z; st_dropped : Z; st_forwarded : Z; st_errors : Z;
  st_last_ts : Z;                        (* last_ts_forwarded *)
}.
Definition new_stats : Stats := mkStats 0 0 0 0 0 0.

Definition count_seen (s : Stats) : Stats :=
  mkStats (st_seen s + 1) (st_enqueued s) (st_dropped s) (st_forwarded s) (st_errors s) (st_last_ts s).
Definition count_enqueued (s : Stats) : Stats :=
  mkStats (st_seen s) (st_enqueued s + 1) (st_dropped s) (st_forwarded s) (st_errors s) (st_last_ts s).
Definition count_dropped (s : Stats) : Stats :=
  mkStats (st_seen s) (st_enqueued s) (st_dropped s + 1) (st_forwarded s) (st_errors s) (st_last_ts s).
Definition count_forwarded (s : Stats) : Stats :=
  mkStats (st_seen s) (st_enqueued s) (st_dropped s) (st_forwarded s + 1) (st_errors s) (st_last_ts s).
Definition count_error (s : Stats) : Stats :=
  mkStats (st_seen s) (st_enqueued s) (st_dropped s) (st_forwarded s) (st_errors s + 1) (st_last_ts s).
Definition set_last_ts (ts : Z) (s : Stats) : Stats :=
  mkStats (st_seen s) (st_enqueued s) (st_dropped s) (st_forwarded s) (st_errors s) ts.

(** A request of a worker. *)
Inductive relay_post :=
  | ToSink (url : json) (payload : dict json)
  | Publish (url : json) (reply : json).

(** Where a worker waits: for a message (with the time of its last success), for the sink,
    for the subscriber of the sink's answer; or its coroutine has ended with an exception. *)
Inductive worker :=
  | Idle (last_forward : Q)
  | Posting (last_forward : Q) (payload : dict json)
  | Publishing (last_forward : Q)
  | Dead.

(** The entries of one topic in [_topics], [_queues], [_stats] and [_workers], and the
    requests its worker made. *)
Record Topic := mkTopic {
  tp_cfg : dict json;
  tp_queue : list (dict json);           (* oldest first *)
  tp_unfinished : Z;                     (* the queue's count of unfinished tasks *)
  tp_stats : Stats;
  tp_worker : worker;
  tp_posts : list relay_post;
}.

Definition set_queue (q : list (dict json)) (n : Z) (t : Topic) : Topic :=
  mkTopic (tp_cfg t) q n (tp_stats t) (tp_worker t) (tp_posts t).
Definition on_stats (f : Stats → Stats) (t : Topic) : Topic :=
  mkTopic (tp_cfg t) (tp_queue t) (tp_unfinished t) (f (tp_stats t)) (tp_worker t) (tp_posts t).
Definition set_worker (w : worker) (t : Topic) : Topic :=
  mkTopic (tp_cfg t) (tp_queue t) (tp_unfinished t) (tp_stats t) w (tp_posts t).
Definition add_post (p : relay_post) (t : Topic) : Topic :=
  mkTopic (tp_cfg t) (tp_queue t) (tp_unfinished t) (tp_stats t) (tp_worker t) (tp_posts t ++ [p]).

Record Relay := mkRelay { rl_topics : dict Topic; rl_pong : option json; rl_looks : nat }.

Section relay.
Context {R : RelayEnv}.

(** ** Configuration *)
Definition DEFAULT_TOPICS : dict (dict json) :=
  [("depth_query",
    [("sink_url", JStr (RS_MUX_URL ++ "/depth_query")); ("rate_limit_hz", JInt 60);
     ("validate_schema", JStr "raw"); ("dedupe_ts", JBool false);
     ("broadcast_response", JBool true); ("response_publish_url", JStr DEPTH_PUBLISH_URL)])]%string.

(** [{**a, **b}] *)
Definition merge_cfg (a b : dict json) : dict json := fold_left (fun d '(k, v) => dset d k v) b a.

Fixpoint merge_topics (topics : dict json) (merged : dict (dict json)) : res (dict (dict json)) :=
  match topics with
  | [] => Ok merged
  | (name, JObj cfg) :: rest =>
      merge_topics rest (dset merged name (merge_cfg (default [] (dget DEFAULT_TOPICS name)) cfg))
  | _ => fail EType
  end.

(** The file's topics over the defaults; the defaults alone when it is missing or malformed. *)
Definition load_topic_config (c : content) : dict (dict json) :=
  let parsed :=
    data ← (t ← read_text c; json_loads t);
    topics ← jget data "topics" (JObj []);
    match topics with
    | JObj ((_ :: _) as ts) => merge_topics ts DEFAULT_TOPICS
    | _ => Ok DEFAULT_TOPICS
    end in
  match parsed with Ok topics => topics | Raise _ => DEFAULT_TOPICS end.

(** ** Messages *)
Definition is_ping (payload : dict json) : bool :=
  match dget payload "type" with Some t => py_eq_str t "ping" | None => false end && dmem payload "ts".

Definition detect_topic (payload : dict json) : string :=
  match dget payload "topic" with
  | Some (JStr s) => if String.eqb s EmptyString then "unknown" else s
  | _ => "unknown"
  end%string.

(** A payload is a JSON object. *)
Definition valid_payload (schema : json) : bool := py_eq_str schema "none" || py_eq_str schema "raw".

(** The message inside a request of Janus; a body that is no object raises. *)
Definition extract_inner_payload (body : json) : res (option (dict json)) :=
  tr ← jget body "textroom" JNull;
  if negb (py_eq_str tr "message") then Ok None
  else
    raw ← jget body "text" JNull;
    Ok (match raw with
        | JStr s =>
            if String.eqb s EmptyString then None
            else match loads s with
                 | Ok (JObj inner) =>
                     Some (match dget inner "ts" with
                           | Some (JFloat q) => dset inner "ts" (JInt (Z.quot (Qnum q) (Zpos (Qden q))))
                           | _ => inner
                           end)
                 | _ => None
                 end
        | _ => None
        end).

(** ** The queue of a topic *)
Definition queue_full (t : Topic) : bool :=
  (0 <? QUEUE_MAX) && (QUEUE_MAX <=? Z.of_nat (length (tp_queue t))).

(** [queue.task_done()]: raises when every task was already reported done. *)
Definition task_done (t : Topic) : option Topic :=
  if tp_unfinished t <=? 0 then None else Some (set_queue (tp_queue t) (tp_unfinished t - 1) t).

(** The oldest message gives way. *)
Definition make_room (t : Topic) : Topic :=
  if queue_full t then
    let t := match tp_queue t with
             | _ :: rest => let t' := set_queue rest (tp_unfinished t) t in default t' (task_done t')
             | [] => t
             end in
    on_stats count_dropped t
  else t.

Definition enqueue (payload : dict json) (t : Topic) : Topic :=
  if queue_full t then on_stats count_dropped t
  else on_stats count_enqueued (set_queue (tp_queue t ++ [payload]) (tp_unfinished t + 1) t).

(** A message for the topic. *)
Definition deliver (payload : dict json) (t : Topic) : Topic :=
  let t := on_stats count_seen t in
  if valid_payload (default (JStr "raw") (dget (tp_cfg t) "validate_schema"))
  then enqueue payload (make_room t)
  else on_stats count_dropped t.

(** ** Requests of Janus *)
Definition look : M Relay Q :=
  fun r => (Ok (relay_time (rl_looks r)), mkRelay (rl_topics r) (rl_pong r) (S (rl_looks r))).

(** [int(time.time() * 1000)] *)
Definition ms (t : Q) : Z := Z.quot (Qnum t * 1000) (Zpos (Qden t)).

Definition pong_of (inner : dict json) (rx fwd server : Z) : res json :=
  ts ← to_int (default (JInt 0) (dget inner "ts"));
  Ok (JObj [("id", default (JInt 0) (dget inner "id")); ("browser_ts", JInt ts);
            ("relay_rx_ms", JInt rx); ("relay_fwd_ms", JInt fwd); ("robot_elapsed_ms", JInt 0);
            ("server_ms", JInt server)])%string.

Definition ALLOWED_CLIENT_HOSTS : list string := ["127.0.0.1"; "::1"; "testclient"]%string.

Definition on_topic (name : string) (f : Topic → Topic) : M Relay unit :=
  modify (fun r => match dget (rl_topics r) name with
                   | Some t => mkRelay (dset (rl_topics r) name (f t)) (rl_pong r) (rl_looks r)
                   | None => r
                   end).

(** The status of the answer; an exception is answered with 500. *)
Definition textroom_hook (client_host : string) (body : res json) : M Relay Z :=
  if negb (existsb (String.eqb client_host) ALLOWED_CLIENT_HOSTS) then mret 403
  else match body with
  | Raise _ => mret 400
  | Ok body =>
      inner ← lift (extract_inner_payload body);
      match inner with
      | None => mret 200
      | Some inner =>
          rx ← look;
          let inner := dset inner "relay_rx_ms" (JInt (ms rx)) in
          if is_ping inner then
            fwd ← look; server ← look;
            pong ← lift (pong_of inner (ms rx) (ms fwd) (ms server));
            modify (fun r => mkRelay (rl_topics r) (Some pong) (rl_looks r)) ;;
            mret 200
          else on_topic (detect_topic inner) (deliver inner) ;; mret 200
      end
  end.

(** ** The worker of a topic *)
Record WorkerCfg := mkWorkerCfg {
  wc_sink_url : json; wc_dedupe : bool; wc_broadcast : bool; wc_publish_url : json; wc_interval : Q;
}.

(** What the coroutine reads before its loop. *)
Definition worker_cfg (cfg : dict json) : res WorkerCfg :=
  sink ← getitem (JObj cfg) "sink_url";
  let rate := default (JInt 0) (dget cfg "rate_limit_hz") in
  hz ← (if truthy rate then to_float rate else Ok 0%Q);
  Ok (mkWorkerCfg sink (truthy (default (JBool false) (dget cfg "dedupe_ts")))
        (truthy (default (JBool false) (dget cfg "broadcast_response")))
        (default JNull (dget cfg "response_publish_url"))
        (if Qltb 0 hz then 1 / hz else 0)%Q).

Definition start_worker (cfg : dict json) : worker :=
  match worker_cfg cfg with Ok _ => Idle 0 | Raise _ => Dead end.

(** The [finally] clause of a round: a raising [task_done] ends the coroutine. *)
Definition round_ends (last : Q) (t : Topic) : Topic :=
  match task_done t with Some t => set_worker (Idle last) t | None => set_worker Dead t end.

(** [queue.task_done(); continue] inside the [try], and then the [finally] clause. *)
Definition skip_message (last : Q) (t : Topic) : Topic :=
  match task_done t with
  | Some t => round_ends last t
  | None => round_ends last (on_stats count_error t)
  end.

Definition too_soon (wc : WorkerCfg) (now last : Q) : bool :=
  Qltb 0 (wc_interval wc) && Qltb (now - last) (wc_interval wc).

Definition ts_of (payload : dict json) : res Z := to_int (default (JInt 0) (dget payload "ts")).

(** The worker takes the oldest message and posts it, unless the message comes too soon
    or is a duplicate. *)
Definition take_message (now : Q) (t : Topic) : Topic :=
  match tp_worker t, tp_queue t, worker_cfg (tp_cfg t) with
  | Idle last, payload :: rest, Ok wc =>
      let t := set_queue rest (tp_unfinished t) t in
      let post := set_worker (Posting last payload) (add_post (ToSink (wc_sink_url wc) payload) t) in
      if too_soon wc now last then skip_message last (on_stats count_dropped t)
      else if wc_dedupe wc then
        match ts_of payload with
        | Raise _ => round_ends last (on_stats count_error t)
        | Ok ts => if ts <=? st_last_ts (tp_stats t) then skip_message last t else post
        end
      else post
  | _, _, _ => t
  end.

Inductive http_answer := Answered (status : Z) (body : res json) | Unanswered.

(** The answer that is published: with the session of the message, if that names one. *)
Definition reply_for (payload : dict json) (body : res json) : res json :=
  reply ← body;
  match dget payload "session_id" with
  | Some (JStr sid) =>
      match reply with JObj d => Ok (JObj (dset d "session_id" (JStr sid))) | _ => fail EType end
  | _ => Ok reply
  end.

Definition sink_answers (a : http_answer) (now : Q) (t : Topic) : Topic :=
  match tp_worker t, worker_cfg (tp_cfg t) with
  | Posting last payload, Ok wc =>
      match a with
      | Answered 200 body =>
          let seen := if wc_dedupe wc then match ts_of payload with Ok ts => set_last_ts ts | Raise _ => id end
                      else id in
          let t := on_stats (fun s => count_forwarded (seen s)) t in
          if wc_broadcast wc && truthy (wc_publish_url wc) then
            match reply_for payload body with
            | Ok reply => set_worker (Publishing now) (add_post (Publish (wc_publish_url wc) reply) t)
            | Raise _ => round_ends now t
            end
          else round_ends now t
      | Answered _ _ | Unanswered => round_ends last (on_stats count_error t)
      end
  | _, _ => t
  end.

(** Whatever the subscriber answers, it is only logged. *)
Definition published (t : Topic) : Topic :=
  match tp_worker t with Publishing last => round_ends last t | _ => t end.

(** ** The relay *)
Definition start_relay (c : content) : Relay :=
  mkRelay (map (fun '(name, cfg) => (name, mkTopic cfg [] 0 new_stats (start_worker cfg) []))
             (load_topic_config c)) None 0.

(** One turn of the event loop. *)
Inductive turn :=
  | Hook (client_host : string) (body : res json)
  | Take (name : string)
  | SinkAnswer (name : string) (a : http_answer)
  | PublishAnswer (name : string).

Definition run_turn (e : turn) : M Relay unit :=
  match e with
  | Hook host body => textroom_hook host body ;; mret tt
  | Take name => now ← look; on_topic name (take_message now)
  | SinkAnswer name a => now ← look; on_topic name (sink_answers a now)
  | PublishAnswer name => on_topic name published
  end.

Fixpoint run_turns (es : list turn) (r : Relay) : Relay :=
  match es with [] => r | e :: es' => run_turns es' (run_turn e r).2 end.
End relay.

(** ** What one turn does to one topic *)
Section turns.
Context {R : RelayEnv}.

(** The messages that a turn enqueues for the topic. *)
Definition accepted (name : string) (e : turn) (r : Relay) : list (dict json) :=
  match e with
  | Hook host (Ok body) =>
      if existsb (String.eqb host) ALLOWED_CLIENT_HOSTS then
        match extract_inner_payload body with
        | Ok (Some inner) =>
            let inner := dset inner "relay_rx_ms" (JInt (ms (relay_time (rl_looks r)))) in
            if negb (is_ping inner) && String.eqb (detect_topic inner) name then
              match dget (rl_topics r) name with
              | Some t => if valid_payload (default (JStr "raw") (dget (tp_cfg t) "validate_schema"))
                          then [inner] else []
              | None => []
              end
            else []
        | _ => []
        end
      else []
  | _ => []
  end%string.

Fixpoint all_accepted (name : string) (es : list turn) (r : Relay) : list (dict json) :=
  match es with
  | [] => []
  | e :: es' => accepted name e r ++ all_accepted name es' (run_turn e r).2
  end.

Inductive topic_step : list (dict json) → Topic → Topic → Prop :=
  | step_other t : topic_step [] t t
  | step_deliver p t :
      valid_payload (default (JStr "raw") (dget (tp_cfg t) "validate_schema")) = true →
      topic_step [p] t (deliver p t)
  | step_reject p t :
      valid_payload (default (JStr "raw") (dget (tp_cfg t) "validate_schema")) = false →
      topic_step [] t (deliver p t)
  | step_take now t : topic_step [] t (take_message now t)
  | step_sink a now t : topic_step [] t (sink_answers a now t)
  | step_published t : topic_step [] t (published t).

Lemma on_topic_at name f r name' :
  dget (rl_topics (on_topic name f r).2) name'
  = (if decide (name = name') then f else id) <$> dget (rl_topics r) name'.
Proof.
  unfold on_topic, modify. simpl. destruct (dget (rl_topics r) name) as [t|] eqn:Ht; simpl.
  - rewrite dget_dset. case_decide as Hn; [by subst; rewrite Ht|]. by destruct (dget _ name').
  - case_decide; [by subst; rewrite Ht|]. by destruct (dget _ name').
Qed.

Lemma worker_turn name f name' now t r :
  dget (rl_topics r) name' = Some t →
  ∃ t', dget (rl_topics (on_topic name f (mkRelay (rl_topics r) (rl_pong r) now)).2) name' = Some t' ∧
        (t' = f t ∨ t' = t).
Proof.
  intros Ht. rewrite on_topic_at. simpl. rewrite Ht. case_decide; eexists; (split; [done|auto]).
Qed.

Lemma turn_step e r name t :
  dget (rl_topics r) name = Some t →
  ∃ t', dget (rl_topics (run_turn e r).2) name = Some t' ∧ topic_step (accepted name e r) t t'.
Proof.
  intros Ht. destruct e as [host body|n|n a|n].
  - unfold run_turn, textroom_hook, accepted.
    destruct body as [body|e]; [|destruct (existsb _ _); simpl; by exists t; split; [|constructor]].
    destruct (existsb _ _); simpl; [|by exists t; split; [|constructor]].
    unfold look, lift, modify, mbind, M_bind, mret, M_ret.
    destruct (extract_inner_payload body) as [[inner|]|e]; try (by exists t; split; [|constructor]).
    cbv beta iota. cbn [rl_looks rl_topics rl_pong].
    set (m := dset inner "relay_rx_ms" (JInt (ms (relay_time (rl_looks r))))). clearbody m.
    destruct (is_ping m); cbn [negb andb].
    { destruct (pong_of _ _ _ _); exists t; (split; [done|constructor]). }
    match goal with |- context [on_topic ?n ?f ?r0] =>
      pose proof (on_topic_at n f r0 name) as Hat; destruct (on_topic n f r0) as [[u|e] r1] eqn:Hr1; [|done] end.
    cbn [rl_topics snd] in *.
    rewrite Hat, Ht. eexists. split; [done|].
    case_decide as Hd.
    + rewrite Hd, String.eqb_refl. destruct (valid_payload _) eqn:Hv; by constructor.
    + apply String.eqb_neq in Hd. rewrite Hd. constructor.
  - destruct (worker_turn n (take_message (relay_time (rl_looks r))) name (S (rl_looks r)) t r Ht)
      as (t' & Ht' & [->| ->]); eexists; (split; [exact Ht'|constructor]).
  - destruct (worker_turn n (sink_answers a (relay_time (rl_looks r))) name (S (rl_looks r)) t r Ht)
      as (t' & Ht' & [->| ->]); eexists; (split; [exact Ht'|constructor]).
  - unfold run_turn. rewrite on_topic_at, Ht. case_decide; eexists; (split; [done|constructor]).
Qed.

(** What every step of a topic keeps holds after any turns. *)
Lemma turns_keep (I : list (dict json) → Topic → Prop) es r name t acc :
  (∀ acc new t t', I acc t → topic_step new t t' → I (acc ++ new) t') →
  dget (rl_topics r) name = Some t → I acc t →
  ∃ t', dget (rl_topics (run_turns es r)) name = Some t' ∧ I (acc ++ all_accepted name es r) t'.
Proof.
  intros HI. revert r t acc. induction es as [|e es IH]; intros r t acc Ht Hacc; simpl.
  { exists t. by rewrite app_nil_r. }
  destruct (turn_step e r name t Ht) as (t1 & Ht1 & Hstep). rewrite app_assoc. eapply IH; [done|by eapply HI].
Qed.

(** ** Order *)

(** The messages that were posted to the sink. *)
Definition sent (t : Topic) : list (dict json) :=
  omap (λ p, match p with ToSink _ payload => Some payload | Publish _ _ => None end) (tp_posts t).

(** What was sent and what waits are accepted messages in their order, the waiting ones
    the newest; the queue keeps its bound. *)
Definition in_order (acc : list (dict json)) (t : Topic) : Prop :=
  sublist (sent t ++ tp_queue t) acc ∧ suffix (tp_queue t) acc ∧
  (0 < QUEUE_MAX → Z.of_nat (length (tp_queue t)) ≤ QUEUE_MAX).

(** The parts that [in_order] reads. *)
Lemma in_order_same acc t t' :
  tp_queue t' = tp_queue t → sent t' = sent t → in_order acc t → in_order acc t'.
Proof. unfold in_order. intros -> ->. done. Qed.

Lemma task_done_same t t' :
  task_done t = Some t' → tp_queue t' = tp_queue t ∧ tp_posts t' = tp_posts t ∧ tp_worker t' = tp_worker t ∧
  tp_cfg t' = tp_cfg t ∧ tp_unfinished t' = tp_unfinished t - 1.
Proof. unfold task_done. destruct (_ <=? 0); [done|]. by intros [= <-]. Qed.

Lemma round_ends_same last t :
  tp_queue (round_ends last t) = tp_queue t ∧ tp_posts (round_ends last t) = tp_posts t ∧
  tp_cfg (round_ends last t) = tp_cfg t.
Proof.
  unfold round_ends. destruct (task_done t) as [t'|] eqn:Ht; [|done].
  apply task_done_same in Ht as (? & ? & _ & ? & _). by simpl; split_and!.
Qed.

Lemma skip_same last t :
  tp_queue (skip_message last t) = tp_queue t ∧ tp_posts (skip_message last t) = tp_posts t ∧
  tp_cfg (skip_message last t) = tp_cfg t.
Proof.
  unfold skip_message. destruct (task_done t) as [t'|] eqn:Ht.
  - apply task_done_same in Ht as (<- & <- & _ & <- & _). apply round_ends_same.
  - apply (round_ends_same last (on_stats count_error t)).
Qed.

Lemma in_order_tail acc t rest t' p :
  tp_queue t = p :: rest → tp_queue t' = rest → (sent t' = sent t ∨ sent t' = sent t ++ [p]) →
  in_order acc t → in_order acc t'.
Proof.
  intros Hq Hq' Hs (Hsub & Hsuf & Hlen). unfold in_order. rewrite Hq'. rewrite Hq in *. split_and!.
  - destruct Hs as [->| ->]; [|by rewrite <- app_assoc].
    etrans; [|exact Hsub]. apply sublist_app; [done|]. by apply sublist_cons.
  - destruct Hsuf as [k Hk]. exists (k ++ [p]). by rewrite <- app_assoc.
  - intros HQ. specialize (Hlen HQ). simpl in Hlen. lia.
Qed.

Lemma make_room_order acc t :
  in_order acc t → in_order acc (make_room t) ∧ (0 < QUEUE_MAX → queue_full (make_room t) = false).
Proof.
  intros Ho. unfold make_room. destruct (queue_full t) eqn:Hf; [|done].
  unfold queue_full in Hf. apply andb_true_iff in Hf as [HQ Hlen].
  apply Z.ltb_lt in HQ. apply Z.leb_le in Hlen.
  destruct (tp_queue t) as [|p rest] eqn:Hq; [simpl in Hlen; lia|].
  set (t1 := set_queue rest (tp_unfinished t) t).
  set (t2 := default t1 (task_done t1)).
  assert (H2 : tp_queue t2 = rest ∧ tp_posts t2 = tp_posts t).
  { unfold t2. destruct (task_done t1) as [t3|] eqn:H3; [|done].
    by apply task_done_same in H3 as (? & ? & _). }
  destruct H2 as [Hq2 Hp2]. split.
  - eapply (in_order_tail acc t rest _ p); [done|exact Hq2| |done]. left. unfold sent. simpl. by rewrite Hp2.
  - intros _. unfold queue_full. simpl. rewrite Hq2. destruct Ho as (_ & _ & Hlen').
    specialize (Hlen' HQ). rewrite Hq in Hlen'. simpl in Hlen'. apply andb_false_iff. right.
    apply Z.leb_gt. lia.
Qed.

Lemma put_order acc p t :
  in_order acc t → queue_full t = false → in_order (acc ++ [p]) (enqueue p t).
Proof.
  intros (Hsub & Hsuf & Hlen) Hf. unfold enqueue. rewrite Hf. unfold in_order, sent. simpl. split_and!.
  - rewrite app_assoc. by apply sublist_app.
  - destruct Hsuf as [k ->]. exists k. by rewrite app_assoc.
  - intros HQ. rewrite length_app. simpl. unfold queue_full in Hf. apply andb_false_iff in Hf as [Hf|Hf].
    + apply Z.ltb_ge in Hf. lia.
    + apply Z.leb_gt in Hf. lia.
Qed.

Lemma take_order acc now t : in_order acc t → in_order acc (take_message now t).
Proof.
  intros Ho. unfold take_message. destruct (tp_worker t) as [last| | |]; try done.
  destruct (tp_queue t) as [|p rest] eqn:Hq; [done|]. destruct (worker_cfg _) as [wc|]; [|done].
  set (t1 := set_queue rest (tp_unfinished t) t). cbv zeta.
  assert (Hskip : ∀ t2, tp_queue t2 = rest → tp_posts t2 = tp_posts t → in_order acc t2).
  { intros t2 H1 H2. apply (in_order_tail acc t rest t2 p); [done|done| |done]. left. unfold sent. by rewrite H2. }
  assert (Hpost : in_order acc (set_worker (Posting last p) (add_post (ToSink (wc_sink_url wc) p) t1))).
  { apply (in_order_tail acc t rest _ p); [done|done| |done]. right. unfold sent. simpl.
    rewrite omap_app. done. }
  destruct (too_soon _ _ _).
  { destruct (skip_same last (on_stats count_dropped t1)) as (H1 & H2 & _). by apply Hskip. }
  destruct (wc_dedupe wc); [|done]. destruct (ts_of p) as [ts|e].
  - destruct (_ <=? _); [|done]. destruct (skip_same last t1) as (H1 & H2 & _). by apply Hskip.
  - destruct (round_ends_same last (on_stats count_error t1)) as (H1 & H2 & _). by apply Hskip.
Qed.

Lemma sink_order acc a now t : in_order acc t → in_order acc (sink_answers a now t).
Proof.
  intros Ho. unfold sink_answers. destruct (tp_worker t) as [|last p| |]; try done.
  destruct (worker_cfg _) as [wc|]; [|done].
  assert (Hends : ∀ last f, in_order acc (round_ends last (on_stats f t))).
  { intros l f. destruct (round_ends_same l (on_stats f t)) as (H1 & H2 & _).
    apply (in_order_same acc t); [done| |done]. unfold sent. by rewrite H2. }
  destruct a as [status body|]; [|apply Hends]. destruct (decide (status = 200)) as [->|Hs].
  - destruct (_ && _); [|apply Hends]. destruct (reply_for p body) as [reply|e]; [|apply Hends].
    apply (in_order_same acc t); [done| |done]. unfold sent. simpl. rewrite omap_app. simpl. apply app_nil_r.
  - destruct status as [|s|s]; [apply Hends| |apply Hends].
    do 8 (destruct s as [s|s|]; try apply Hends). done.
Qed.

Lemma step_order acc new t t' :
  0 < QUEUE_MAX → in_order acc t → topic_step new t t' → in_order (acc ++ new) t'.
Proof.
  intros HQ Ho Hstep. destruct Hstep as [t|p t Hv|p t Hv|now t|a now t|t]; rewrite ?app_nil_r.
  - done.
  - unfold deliver. change (tp_cfg (on_stats count_seen t)) with (tp_cfg t). rewrite Hv.
    destruct (make_room_order acc (on_stats count_seen t)) as [Hm Hf]; [done|]. apply put_order; auto.
  - unfold deliver. change (tp_cfg (on_stats count_seen t)) with (tp_cfg t). by rewrite Hv.
  - by apply take_order.
  - by apply sink_order.
  - unfold published. destruct (tp_worker t); try done.
    destruct (round_ends_same last_forward t) as (H1 & H2 & _).
    apply (in_order_same acc t); [done| |done]. unfold sent. by rewrite H2.
Qed.
End turns.

(** ** A worker without limit and deduplication *)
Section survival.
Context {R : RelayEnv}.

Definition unlimited (cfg : dict json) : Prop :=
  ∃ wc, worker_cfg cfg = Ok wc ∧ Qltb 0 (wc_interval wc) = false ∧ wc_dedupe wc = false.

Definition busy (w : worker) : Z := match w with Posting _ _ | Publishing _ => 1 | _ => 0 end.

(** The worker lives and the queue's count is that of its messages and the one at work. *)
Record alive (t : Topic) : Prop := {
  al_cfg : unlimited (tp_cfg t);
  al_worker : tp_worker t ≠ Dead;
  al_count : tp_unfinished t = Z.of_nat (length (tp_queue t)) + busy (tp_worker t);
}.

Lemma round_alive last t :
  unlimited (tp_cfg t) → tp_unfinished t = Z.of_nat (length (tp_queue t)) + 1 →
  alive (round_ends last t) ∧ tp_worker (round_ends last t) = Idle last.
Proof.
  intros Hc Hn. unfold round_ends, task_done.
  destruct (Z.leb_spec (tp_unfinished t) 0); [lia|]. split; [|done]. split; simpl; [done..|lia].
Qed.

Lemma put_alive p t : alive t → alive (enqueue p t).
Proof.
  intros [Hc Hw Hn]. unfold enqueue. destruct (queue_full t); split; simpl; try done.
  rewrite length_app. simpl. lia.
Qed.

Lemma make_room_alive t : alive t → alive (make_room t).
Proof.
  intros [Hc Hw Hn]. unfold make_room. destruct (queue_full t) eqn:Hf; [|done].
  destruct (tp_queue t) as [|p rest] eqn:Hq.
  - split; simpl; [done..|]. rewrite Hq. done.
  - unfold task_done. simpl. assert (0 ≤ busy (tp_worker t)) by (by destruct (tp_worker t)).
    rewrite Hn. destruct (Z.leb_spec (Z.of_nat (length (p :: rest)) + busy (tp_worker t)) 0); simpl in *; [lia|].
    split; simpl; [done..|lia].
Qed.

Lemma take_alive now t :
  alive t →
  alive (take_message now t) ∧
  (∀ last p rest, tp_worker t = Idle last → tp_queue t = p :: rest →
     tp_queue (take_message now t) = rest ∧ sent (take_message now t) = sent t ++ [p]) ∧
  (tp_queue t = [] → take_message now t = t).
Proof.
  intros Ha. pose proof Ha as [(wc & Hwc & Hi & Hd) Hw Hn]. unfold take_message.
  destruct (tp_worker t) as [last| | |] eqn:Hwk; try (split_and!; [done|by intros|done]).
  destruct (tp_queue t) as [|p rest] eqn:Hq; [by split_and!|]. rewrite Hwc. cbv zeta.
  unfold too_soon. rewrite Hi, Hd. cbn [andb]. split_and!; [|intros ? ? ? [= <-] [= <- <-]; split; [done|]|done].
  - split; simpl; [by exists wc|done|]. simpl in Hn. lia.
  - unfold sent. simpl. by rewrite omap_app.
Qed.

Lemma sink_alive a now t :
  alive t → alive (sink_answers a now t) ∧ tp_queue (sink_answers a now t) = tp_queue t ∧
            sent (sink_answers a now t) = sent t ∧
            (∀ last p, tp_worker (sink_answers a now t) ≠ Posting last p).
Proof.
  intros Ha. pose proof Ha as [Hu Hw Hn]. unfold sink_answers.
  destruct (tp_worker t) as [last|last p|last|] eqn:Hwk; try (split_and!; [done..|by rewrite Hwk]).
  pose proof Hu as (wc & Hwc & Hi & Hd). rewrite Hwc. simpl in Hn.
  assert (Hends : ∀ last f, let t' := round_ends last (on_stats f t) in
    alive t' ∧ tp_queue t' = tp_queue t ∧ sent t' = sent t ∧ ∀ l q, tp_worker t' ≠ Posting l q).
  { intros l f t'. destruct (round_alive l (on_stats f t)) as [H1 H2]; [done..|].
    destruct (round_ends_same l (on_stats f t)) as (H3 & H4 & _). unfold t', sent.
    split_and!; [done|done|by rewrite H4|]. intros l' q. by rewrite H2. }
  destruct a as [status body|]; [|apply Hends]. destruct (decide (status = 200)) as [->|Hs].
  - cbv zeta. destruct (_ && _); [|apply Hends]. destruct (reply_for p body); [|apply Hends].
    split_and!; [|done| |by intros].
    + split; simpl; [done..|]. lia.
    + unfold sent. simpl. rewrite omap_app. simpl. apply app_nil_r.
  - destruct status as [|s|s]; [apply Hends| |apply Hends].
    do 8 (destruct s as [s|s|]; try apply Hends). done.
Qed.

Lemma published_alive t :
  alive t → alive (published t) ∧ tp_queue (published t) = tp_queue t ∧ sent (published t) = sent t ∧
            ((∀ last p, tp_worker t ≠ Posting last p) → ∃ last, tp_worker (published t) = Idle last).
Proof.
  intros Ha. pose proof Ha as [Hu Hw Hn]. unfold published.
  destruct (tp_worker t) as [last|last p|last|] eqn:Hwk; try done.
  - split_and!; [done..|]. eauto.
  - split_and!; [done..|]. intros H. by destruct (H last p).
  - simpl in Hn. destruct (round_alive last t) as [H1 H2]; [done..|].
    destruct (round_ends_same last t) as (H3 & H4 & _). unfold sent. rewrite H4. eauto.
Qed.

Lemma step_alive (acc new : list (dict json)) t t' : alive t → topic_step new t t' → alive t'.
Proof.
  intros Ha Hstep. destruct Hstep as [t|p t Hv|p t Hv|now t|a now t|t]; try done.
  - unfold deliver. destruct (valid_payload _); [apply put_alive, make_room_alive|]; by destruct Ha; split.
  - unfold deliver. destruct (valid_payload _); [apply put_alive, make_room_alive|]; by destruct Ha; split.
  - by apply take_alive.
  - by apply sink_alive.
  - by apply published_alive.
Qed.

(** The sink answers, the subscriber answers, the next message is taken. *)
Definition round (name : string) (a : http_answer) : list turn :=
  [SinkAnswer name a; PublishAnswer name; Take name].

Lemma on_topic_some name f r t looks :
  dget (rl_topics r) name = Some t →
  (on_topic name f (mkRelay (rl_topics r) (rl_pong r) looks)).2
  = mkRelay (dset (rl_topics r) name (f t)) (rl_pong r) looks.
Proof. intros Ht. unfold on_topic, modify. simpl. by rewrite Ht. Qed.

Lemma run_round name a r t :
  dget (rl_topics r) name = Some t →
  ∃ now1 now2, dget (rl_topics (run_turns (round name a) r)) name
               = Some (take_message now2 (published (sink_answers a now1 t))).
Proof.
  intros Ht. exists (relay_time (rl_looks r)), (relay_time (S (rl_looks r))). unfold round. cbn [run_turns].
  set (t1 := sink_answers a (relay_time (rl_looks r)) t).
  assert (H1 : (run_turn (SinkAnswer name a) r).2 = mkRelay (dset (rl_topics r) name t1) (rl_pong r) (S (rl_looks r))).
  { exact (on_topic_some name _ r t (S (rl_looks r)) Ht). }
  rewrite H1. set (r1 := mkRelay _ _ _).
  assert (Ht1 : dget (rl_topics r1) name = Some t1) by apply dget_dset_eq.
  assert (H2 : (run_turn (PublishAnswer name) r1).2
    = mkRelay (dset (rl_topics r1) name (published t1)) (rl_pong r1) (rl_looks r1)).
  { unfold run_turn. destruct r1 as [ts pg lk]. exact (on_topic_some name _ (mkRelay ts pg lk) t1 lk Ht1). }
  rewrite H2. set (r2 := mkRelay (dset (rl_topics r1) _ _) _ _).
  assert (Ht2 : dget (rl_topics r2) name = Some (published t1)) by apply dget_dset_eq.
  change ((run_turn (Take name) r2).2)
    with ((on_topic name (take_message (relay_time (rl_looks r2))) (mkRelay (rl_topics r2) (rl_pong r2) (S (rl_looks r2)))).2).
  rewrite (on_topic_some name _ r2 _ _ Ht2). simpl. by rewrite dget_dset_eq.
Qed.

(** Rounds post every message that waits. *)
Lemma rounds_drain name answers r t :
  dget (rl_topics r) name = Some t → alive t → (length (tp_queue t) ≤ length answers)%nat →
  ∃ t', dget (rl_topics (run_turns (concat (map (round name) answers)) r)) name = Some t' ∧
        alive t' ∧ tp_queue t' = [] ∧ sent t' = sent t ++ tp_queue t.
Proof.
  revert r t. induction answers as [|a answers IH]; intros r t Ht Ha Hlen; cbn [map concat].
  { exists t. destruct (tp_queue t) as [|p q]; [|simpl in Hlen; lia]. by rewrite app_nil_r. }
  assert (Hrun : ∀ es1 es2 r0, run_turns (es1 ++ es2) r0 = run_turns es2 (run_turns es1 r0)).
  { intros es1 es2. induction es1 as [|e es1 IHe]; intros r0; [done|]. simpl. apply IHe. }
  rewrite Hrun. destruct (run_round name a r t Ht) as (now1 & now2 & Hround).
  destruct (sink_alive a now1 t Ha) as (Ha1 & Hq1 & Hs1 & Hp1).
  destruct (published_alive _ Ha1) as (Ha2 & Hq2 & Hs2 & Hp2). destruct (Hp2 Hp1) as [last Hidle].
  destruct (take_alive now2 _ Ha2) as (Ha3 & Htake & Hnone).
  destruct (tp_queue t) as [|p rest] eqn:Hq.
  - rewrite Hnone in * by congruence.
    destruct (IH _ _ Hround Ha3) as (t' & Ht' & Ha' & Hq' & Hs').
    { rewrite Hq2, Hq1. simpl. lia. }
    exists t'. split_and!; [done..|]. by rewrite Hs', Hs2, Hs1, Hq2, Hq1.
  - destruct (Htake last p rest) as [Hq3 Hs3]; [done|congruence|].
    destruct (IH _ _ Hround Ha3) as (t' & Ht' & Ha' & Hq' & Hs').
    { rewrite Hq3. simpl in Hlen. lia. }
    exists t'. split_and!; [done..|]. rewrite Hs', Hs3, Hs2, Hs1, Hq3. by rewrite <- app_assoc.
Qed.
End survival.

(** ** The relay's properties *)
Section properties.
Context {R : RelayEnv}.

Lemma start_topic c name t :
  dget (rl_topics (start_relay c)) name = Some t →
  ∃ cfg, dget (load_topic_config c) name = Some cfg ∧ t = mkTopic cfg [] 0 new_stats (start_worker cfg) [].
Proof.
  unfold start_relay. simpl. induction (load_topic_config c) as [|[n cfg] l IH]; simpl; [done|].
  case_decide; [|done]. intros [= <-]. eauto.
Qed.

(** Whatever requests arrive and the sinks answer, in any interleaving of the event loop:
    what the worker of a configured topic, with a positive bound, has posted and what still waits are the topic's accepted
    messages in the order of their arrival, without repetition and with nothing added;
    the waiting ones are the newest, and never more than the bound. *)
Theorem relay_keeps_order c es name t0 :
  0 < QUEUE_MAX → dget (rl_topics (start_relay c)) name = Some t0 →
  ∃ t, dget (rl_topics (run_turns es (start_relay c))) name = Some t ∧
       let acc := all_accepted name es (start_relay c) in
       sublist (sent t ++ tp_queue t) acc ∧ suffix (tp_queue t) acc ∧
       Z.of_nat (length (tp_queue t)) ≤ QUEUE_MAX.
Proof.
  intros HQ Ht0. destruct (start_topic c name t0 Ht0) as (cfg & _ & Heq).
  destruct (turns_keep in_order es (start_relay c) name t0 []) as (t & Ht & Hsub & Hsuf & Hlen); [..|done| |].
  - intros acc new t t'. by apply step_order.
  - rewrite Heq. split_and!; [done..|simpl; lia].
  - exists t. split; [done|]. cbv zeta. split_and!; [exact Hsub|exact Hsuf|by apply Hlen].
Qed.

(** A topic without rate limit and deduplication never loses its worker: after any turns
    whatsoever, as many answers of its sink as messages wait, of any kind, empty its
    queue, each message having been posted once, in order. *)
Theorem unlimited_topic_drains c es name t0 answers :
  dget (rl_topics (start_relay c)) name = Some t0 → unlimited (tp_cfg t0) →
  ∃ t, dget (rl_topics (run_turns es (start_relay c))) name = Some t ∧ tp_worker t ≠ Dead ∧
    ((length (tp_queue t) ≤ length answers)%nat →
     ∃ t', dget (rl_topics (run_turns (concat (map (round name) answers)) (run_turns es (start_relay c)))) name
             = Some t' ∧
           tp_worker t' ≠ Dead ∧ tp_queue t' = [] ∧ sent t' = sent t ++ tp_queue t).
Proof.
  intros Ht0 Hu. destruct (start_topic c name t0 Ht0) as (cfg & _ & Heq).
  destruct (turns_keep (λ _, alive) es (start_relay c) name t0 []) as (t & Ht & Ha); [..|done| |].
  - intros acc new t t'. by apply step_alive.
  - rewrite Heq in *. split; simpl in *; [done| |].
    + destruct Hu as (wc & Hwc & _). unfold start_worker. by rewrite Hwc.
    + unfold start_worker. by destruct (worker_cfg cfg).
  - exists t. split_and!; [done|apply Ha|]. intros Hlen.
    destruct (rounds_drain name answers _ t Ht Ha Hlen) as (t' & Ht' & Ha' & Hq & Hs).
    exists t'. split_and!; [done|apply Ha'|done..].
Qed.

(** ** Finding: a message that comes too soon ends its topic *)
Lemma dead_step (acc new : list (dict json)) t t' :
  topic_step new t t' → tp_worker t = Dead → tp_worker t' = Dead ∧ tp_posts t' = tp_posts t.
Proof.
  intros Hstep Hd. destruct Hstep as [t|p t _|p t _|now t|a now t|t]; try done.
  - unfold deliver, enqueue, make_room, task_done. by repeat case_match.
  - unfold deliver, enqueue, make_room, task_done. by repeat case_match.
  - unfold take_message. by rewrite Hd.
  - unfold sink_answers. by rewrite Hd.
  - unfold published. by rewrite Hd.
Qed.

(** A message that meets its idle worker before the topic's interval has passed is
    reported done twice: the worker's coroutine ends, and nothing is posted for the topic
    any more, whatever happens. *)
Theorem early_message_ends_topic r name t last p wc es :
  dget (rl_topics r) name = Some t → worker_cfg (tp_cfg t) = Ok wc →
  tp_worker t = Idle last → tp_queue t = [p] → tp_unfinished t = 1 →
  too_soon wc (relay_time (rl_looks r)) last = true →
  ∃ t', dget (rl_topics (run_turns (Take name :: es) r)) name = Some t' ∧
        tp_worker t' = Dead ∧ tp_posts t' = tp_posts t.
Proof.
  intros Ht Hwc Hw Hq Hn Hsoon. cbn [run_turns].
  set (t1 := take_message (relay_time (rl_looks r)) t).
  assert (H1 : tp_worker t1 = Dead ∧ tp_posts t1 = tp_posts t).
  { unfold t1, take_message. rewrite Hw, Hq, Hwc. cbv zeta. rewrite Hsoon.
    unfold skip_message, task_done. simpl. rewrite Hn. done. }
  assert (Ht1 : dget (rl_topics (run_turn (Take name) r).2) name = Some t1).
  { change ((run_turn (Take name) r).2)
      with ((on_topic name (take_message (relay_time (rl_looks r))) (mkRelay (rl_topics r) (rl_pong r) (S (rl_looks r)))).2).
    rewrite (on_topic_some name _ r t _ Ht). simpl. apply dget_dset_eq. }
  destruct (turns_keep (λ _ t', tp_worker t' = Dead ∧ tp_posts t' = tp_posts t) es (run_turn (Take name) r).2
              name t1 []) as (t' & Ht' & Hd); [|done..|by exists t'].
  intros acc new t2 t3 [Hd Hp] Hstep. destruct (dead_step acc new t2 t3 Hstep Hd) as [H2 H3].
  split; [done|congruence].
Qed.
End properties.

(** ** Witnesses *)
Definition sample_click (x : Z) : string := ("click-" ++ pretty x)%string.

(** Two clicks a millisecond apart; the clock of the worker's looks. *)
Definition sample_relay (gap : Q) : RelayEnv := {|
  QUEUE_MAX := 2; RS_MUX_URL := "http://127.0.0.1:8000"; DEPTH_PUBLISH_URL := "http://127.0.0.1:8900/x";
  relay_time n := (1700000000 + gap * inject_Z (Z.of_nat n))%Q;
  loads s := Ok (JObj [("topic", JStr "depth_query"); ("x", JStr s)])%string |}.

Definition click (x : Z) : turn :=
  Hook "127.0.0.1" (Ok (JObj [("textroom", JStr "message"); ("text", JStr (sample_click x))]%string)).

Definition mux_ok : http_answer := Answered 200 (Ok (JObj [("depth", JInt 1)]%string)).

Definition four_clicks : list turn := [click 1; click 2; click 3; Take "depth_query"; click 4].

Lemma relay_keeps_order_witness :
  ∃ t, dget (rl_topics (run_turns (R:=sample_relay 1) four_clicks (start_relay (R:=sample_relay 1) Absent)))
            "depth_query" = Some t ∧
       sublist (sent t ++ tp_queue t)
         (all_accepted (R:=sample_relay 1) "depth_query" four_clicks (start_relay (R:=sample_relay 1) Absent)) ∧
       (length (sent t), length (tp_queue t)) = (1, 2)%nat.
Proof.
  destruct (relay_keeps_order (R:=sample_relay 1) Absent four_clicks "depth_query"
    (mkTopic (snd (hd ("", []) (DEFAULT_TOPICS (R:=sample_relay 1)))) [] 0 new_stats (Idle 0) [])%string)
    as (t & Ht & Hsub & _); [reflexivity|vm_compute; reflexivity|].
  exists t. split_and!; [exact Ht|exact Hsub|]. vm_compute in Ht. injection Ht as <-. reflexivity.
Defined.

Definition plain_topics : content :=
  Text (TxDoc (JObj [("topics", JObj [("voice", JObj [("sink_url", JStr "http://voice")])])]%string)).

Definition voice (x : Z) : turn :=
  Hook "127.0.0.1" (Ok (JObj [("textroom", JStr "message"); ("text", JStr (sample_click x))]%string)).

Definition voice_relay : RelayEnv := {|
  QUEUE_MAX := 2; RS_MUX_URL := ""; DEPTH_PUBLISH_URL := "";
  relay_time n := 1700000000%Q;
  loads s := Ok (JObj [("topic", JStr "voice"); ("x", JStr s)])%string |}.

Lemma unlimited_topic_drains_witness :
  ∃ t', dget (rl_topics (run_turns (R:=voice_relay) (concat (map (round "voice") [Unanswered; mux_ok]))
          (run_turns (R:=voice_relay) [voice 1; voice 2] (start_relay (R:=voice_relay) plain_topics)))) "voice" = Some t' ∧
        tp_queue t' = [] ∧ length (sent t') = 2%nat.
Proof.
  destruct (unlimited_topic_drains (R:=voice_relay) plain_topics [voice 1; voice 2] "voice"
    (mkTopic [("sink_url", JStr "http://voice")]%string [] 0 new_stats (Idle 0) [])
    [Unanswered; mux_ok]) as (t & Ht & _ & Hdrain).
  - vm_compute; reflexivity.
  - eexists. split_and!; vm_compute; reflexivity.
  - destruct Hdrain as (t' & Ht' & _ & Hq & Hs).
    { vm_compute in Ht. injection Ht as <-. simpl. lia. }
    exists t'. split_and!; [exact Ht'|done|]. rewrite Hs. vm_compute in Ht. injection Ht as <-. reflexivity.
Defined.

(** A second click a millisecond after the first was answered, under the defaults. *)
Definition second_click : Relay :=
  run_turns (R:=sample_relay (1 # 1000))
    [click 1; Take "depth_query"; SinkAnswer "depth_query" mux_ok; PublishAnswer "depth_query"; click 2]%string
    (start_relay (R:=sample_relay (1 # 1000)) Absent).

Lemma early_message_ends_topic_witness :
  ∃ t t', dget (rl_topics second_click) "depth_query" = Some t ∧
        dget (rl_topics (run_turns (R:=sample_relay (1 # 1000))
                [Take "depth_query"; click 3; Take "depth_query"] second_click)) "depth_query" = Some t' ∧
        tp_worker t' = Dead ∧ tp_posts t' = tp_posts t.
Proof.
  destruct (dget (rl_topics second_click) "depth_query") as [t|] eqn:Ht; [|vm_compute in Ht; discriminate].
  pose proof Ht as Ht0. vm_compute in Ht0. injection Ht0 as Ht0.
  assert (H : ∃ t', dget (rl_topics (run_turns (R:=sample_relay (1 # 1000))
                [Take "depth_query"; click 3; Take "depth_query"] second_click)) "depth_query" = Some t' ∧
              tp_worker t' = Dead ∧ tp_posts t' = tp_posts t).
  { eapply early_message_ends_topic; [exact Ht|subst t; vm_compute; reflexivity..]. }
  destruct H as (t' & H). exists t, t'. split; [reflexivity|exact H].
Defined.
