(* ===== verification/BringupHost.v ===== *)
(** * Checks and fixers of the camera bring-up ([camera_bringup/])

    The machinery under the bring-up of the camera host: a check reads the host and
    judges it ([check.py]); a fixer plans actions that are executed one after another
    under an exclusive lock, with a backup before a file is replaced ([fixer.py]); the
    marker file of the SAFE mode ([safe_mode.py]). A check and a plan only read: they are
    functions of the moment and the host that may change the shared context. Every system
    call of an action may raise [OSError] ([host_fault]); a command answers what the
    environment says and may change the files. The summaries, details and hints of results and the
    durations are not modelled; neither is the lock's blocking mode, which nothing uses. *)
From Stdlib Require Import Ascii.
From S2P Require Import Prelude.
From S2P Require Import Hoare.
From S2P Require Import PyVal.
From S2P Require Import PyStr.
From S2P Require Import FileStore.
From S2P Require Import NodeTransport.

(** ** The host *)
Inductive cmd_answer := Exited (code : Z) (out err : string) | CmdTimeout | CmdMissing.
Inductive lock_open := Opened | OpenDenied | OpenFails.

Record hfile := mkHfile { hf_text : text; hf_mode : Z }.

(** What an action does to the host. *)
Inductive effect :=
  | Ran (cmd : list string)
  | Wrote (path : string) (t : text)
  | Renamed (path path' : string)
  | Copied (path path' : string)
  | Chmodded (path : string).

Class HostEnv := {
  host_fault : nat → bool;                   (* the system call that raises OSError *)
  host_answer : nat → list string → cmd_answer;
  host_effect : nat → list string → gmap string hfile → gmap string hfile;
  lock_opens : nat → lock_open;
  lock_taken : nat → bool;                   (* another process holds the lock *)
  host_time : nat → string;                  (* [time.strftime] *)
  host_pid : string;
  BACKUP_DIR : string;
}.

Record Host := mkHost {
  h_tick : nat;
  h_files : gmap string hfile;
  h_locked : bool;                           (* this process holds the apply lock *)
  h_effects : list (bool * effect);          (* with the lock held or not, oldest first *)
  h_ctx : dict json;                         (* the context of the running pass *)
}.

Definition tick_host (h : Host) : Host :=
  mkHost (S (h_tick h)) (h_files h) (h_locked h) (h_effects h) (h_ctx h).
Definition set_files (fs : gmap string hfile) (h : Host) : Host :=
  mkHost (h_tick h) fs (h_locked h) (h_effects h) (h_ctx h).
Definition set_locked (b : bool) (h : Host) : Host :=
  mkHost (h_tick h) (h_files h) b (h_effects h) (h_ctx h).
Definition set_ctx (c : dict json) (h : Host) : Host :=
  mkHost (h_tick h) (h_files h) (h_locked h) (h_effects h) c.
Definition log_effect (e : effect) (h : Host) : Host :=
  mkHost (h_tick h) (h_files h) (h_locked h) (h_effects h ++ [(h_locked h, e)]) (h_ctx h).

Definition is_file (path : string) (h : Host) : bool := bool_decide (is_Some (h_files h !! path)).

(** ** Results of checks *)
Inductive Status := StOk | StWarn | StFail | StSkip | StError.
#[export] Instance Status_eq_dec : EqDecision Status.
Proof. solve_decision. Defined.

Record CheckResult := mkCheckResult { cr_name : string; cr_status : Status }.

(** What a check sees: the context, the moment and the host. *)
Definition CheckFn : Type := dict json → nat → Host → res CheckResult * dict json.

(** Any exception of a check is a result. *)
Definition safe_run (name : string) (fn : CheckFn) : M Host CheckResult :=
  fun h =>
    let '(r, ctx) := fn (h_ctx h) (h_tick h) h in
    let h := set_ctx ctx (tick_host h) in
    match r with
    | Ok r => (Ok r, h)
    | Raise e => if instance_of (ex_kind e) CException
                 then (Ok (mkCheckResult name StError), h) else (Raise e, h)
    end.

Definition has_status (s : Status) (results : list CheckResult) : bool :=
  existsb (fun r => bool_decide (cr_status r = s)) results.

Definition exit_code (results : list CheckResult) : Z :=
  if has_status StError results then 2 else if has_status StFail results then 1 else 0.

(** ** Actions *)
Inductive ActionStatus := Pending | NoOp | Applied | Failed.
#[export] Instance ActionStatus_eq_dec : EqDecision ActionStatus.
Proof. solve_decision. Defined.

Record Action := mkAction {
  ac_kind : string; ac_target : string; ac_payload : option text;
  ac_status : ActionStatus; ac_error : option string;
}.

(** A planned action. *)
Definition action (kind target : string) (payload : option text) : Action :=
  mkAction kind target payload Pending None.

Definition settle (a : Action) (s : ActionStatus * option string) : Action :=
  mkAction (ac_kind a) (ac_target a) (ac_payload a) s.1 s.2.

Section host.
Context {E : HostEnv}.

Definition host_tick : M Host nat := h ← get; modify tick_host ;; mret (h_tick h).
Definition host_sys : M Host unit := n ← host_tick; if host_fault n then throw EOS else mret tt.
Definition set_file (path : string) (f : hfile) : M Host unit :=
  modify (fun h => set_files (<[path := f]> (h_files h)) h).

(** The two texts have the same characters. *)
Fixpoint same_json (a b : json) : bool :=
  match a, b with
  | JNull, JNull => true
  | JBool x, JBool y => Bool.eqb x y
  | JInt x, JInt y => x =? y
  | JFloat x, JFloat y => Qeq_bool x y
  | JStr x, JStr y => String.eqb x y
  | JArr l, JArr l' =>
      (fix go l l' := match l, l' with
                      | [], [] => true
                      | x :: l, y :: l' => same_json x y && go l l'
                      | _, _ => false
                      end) l l'
  | JObj d, JObj d' =>
      (fix go d d' := match d, d' with
                      | [], [] => true
                      | (k, x) :: d, (k', y) :: d' => String.eqb k k' && same_json x y && go d d'
                      | _, _ => false
                      end) d d'
  | _, _ => false
  end.

Definition same_text (a b : text) : bool :=
  match a, b with
  | TxEmpty, TxEmpty => true
  | TxRaw s, TxRaw s' => String.eqb s s'
  | TxDoc j, TxDoc j' => same_json j j'
  | _, _ => false
  end.

(** [path.name] *)
Definition base_name (path : string) : string := List.last (split "/"%char path) path.

(** [path.with_suffix(path.suffix + ".tmp.<pid>")] *)
Definition temp_of (path : string) : string := (path ++ ".tmp." ++ host_pid)%string.

Definition backup_of (path ts : string) : string :=
  (BACKUP_DIR ++ "/" ++ base_name path ++ "." ++ ts ++ ".bak")%string.

(** [BACKUP_DIR.mkdir(...)] and [shutil.copy2]. *)
Definition copy_to_backup (path : string) : M Host unit :=
  host_sys ;;
  n ← host_tick;
  host_sys ;;
  h ← get;
  match h_files h !! path with
  | Some f =>
      set_file (backup_of path (host_time n)) f ;;
      modify (log_effect (Copied path (backup_of path (host_time n))))
  | None => throw EFileNotFound
  end.

(** [tmp.write_text] and [os.replace]. *)
Definition replace_text (path : string) (t : text) : M Host unit :=
  host_sys ;;
  set_file (temp_of path) (mkHfile TxEmpty 420) ;;
  host_sys ;;
  set_file (temp_of path) (mkHfile t 420) ;;
  modify (log_effect (Wrote (temp_of path) t)) ;;
  host_sys ;;
  modify (fun h => set_files (<[path := mkHfile t 420]> (delete (temp_of path) (h_files h))) h) ;;
  modify (log_effect (Renamed (temp_of path) path)).

Definition execute_write_file (a : Action) : M Host (ActionStatus * option string) :=
  let path := ac_target a in
  let new := default TxEmpty (ac_payload a) in
  h ← get;
  same ← match h_files h !! path with
         | Some f => host_sys ;; mret (same_text (hf_text f) new)
         | None => mret false
         end;
  if (same : bool) then mret (NoOp, None)
  else
    when (is_file path h) (copy_to_backup path) ;;
    replace_text path new ;;
    mret (Applied, None).

Definition run_program (cmd : list string) : M Host (Z * string * string) :=
  n ← host_tick;
  match host_answer n cmd with
  | CmdMissing => throw EFileNotFound
  | CmdTimeout =>
      modify (fun h => log_effect (Ran cmd) (set_files (host_effect n cmd (h_files h)) h)) ;; throw ETimeout
  | Exited code out err =>
      modify (fun h => log_effect (Ran cmd) (set_files (host_effect n cmd (h_files h)) h)) ;;
      mret (code, out, err)
  end.

Definition payload_words (t : text) : list string :=
  match t with TxRaw s => py_words s | _ => [] end.

Definition execute_run (a : Action) : M Host (ActionStatus * option string) :=
  let cmd := match ac_payload a with
             | None => py_words (ac_target a)
             | Some p => ac_target a :: payload_words p
             end in
  '(code, out, err) ← run_program cmd;
  if code =? 0 then mret (Applied, None)
  else
    let said := if String.eqb err EmptyString then out else err in
    if String.eqb said EmptyString then mret (Failed, Some ("exit " ++ pretty code)%string)
    else match List.rev (splitlines (py_strip said)) with
         | line :: _ => mret (Failed, Some line)
         | [] => throw EIndex
         end.

Definition execute_systemctl (a : Action) (verb : string) : M Host (ActionStatus * option string) :=
  '(code, _, err) ← run_program ["systemctl"; verb; ac_target a]%string;
  mret (if code =? 0 then (Applied, None) else (Failed, Some (py_strip err))).

Definition execute_backup (a : Action) : M Host (ActionStatus * option string) :=
  h ← get;
  if is_file (ac_target a) h then copy_to_backup (ac_target a) ;; mret (Applied, None)
  else mret (NoOp, None).

Definition execute_chmod_exec (a : Action) : M Host (ActionStatus * option string) :=
  let path := ac_target a in
  h ← get;
  match h_files h !! path with
  | None => mret (Failed, Some path)
  | Some f =>
      host_sys ;;
      let desired := Z.lor (hf_mode f) 73 in                (* 0o111 *)
      if hf_mode f =? desired then mret (NoOp, None)
      else
        host_sys ;;
        set_file path (mkHfile (hf_text f) desired) ;;
        modify (log_effect (Chmodded path)) ;;
        mret (Applied, None)
  end.

(** One action; an exception is its failure. *)
Definition execute_action (a : Action) : M Host Action :=
  s ← try_except
    (if String.eqb (ac_kind a) "write_file" then execute_write_file a
     else if String.eqb (ac_kind a) "run" then execute_run a
     else if String.eqb (ac_kind a) "restart" then execute_systemctl a "restart"
     else if String.eqb (ac_kind a) "reload" then execute_systemctl a "reload"
     else if String.eqb (ac_kind a) "backup" then execute_backup a
     else if String.eqb (ac_kind a) "chmod_exec" then execute_chmod_exec a
     else mret (Failed, Some ("unknown action kind: " ++ ac_kind a)%string))
    CException (fun e => mret (Failed, Some (ex_msg e)));
  mret (settle a s).

(** ** The lock *)

(** [with apply_lock(): body], not blocking; a busy lock is a [LockBusyError]. *)
Definition apply_lock {A} (body : M Host A) : M Host A :=
  n ← host_tick;
  match lock_opens n with
  | Opened => mret tt
  | OpenDenied => host_sys                           (* the file in the home directory *)
  | OpenFails => throw EOS
  end ;;
  finally
    (m ← host_tick;
     (if lock_taken m then throw ERuntime else modify (set_locked true)) ;;
     host_sys ;;                                     (* the process id is written *)
     body)
    (modify (set_locked false)).

(** ** Fixers *)
Inductive FixerStatus := FxSkipped | FxApplied | FxFailed | FxUnfixed.
#[export] Instance FixerStatus_eq_dec : EqDecision FixerStatus.
Proof. solve_decision. Defined.

Record Fixer := mkFixer {
  fx_name : string; fx_root : bool;
  fx_plan : dict json → nat → Host → res (list Action);
}.

Record FixerResult := mkFixerResult {
  fr_name : string; fr_status : FixerStatus; fr_actions : list Action;
  fr_pre : option CheckResult; fr_post : option CheckResult;
}.

(** Until the first failure. *)
Fixpoint run_actions (actions : list Action) : M Host (list Action * bool) :=
  match actions with
  | [] => mret ([], true)
  | a :: rest =>
      a ← execute_action a;
      if decide (ac_status a = Failed) then mret (a :: rest, false)
      else '(rest, ok) ← run_actions rest; mret (a :: rest, ok)
  end.

Definition planned (fx : Fixer) : M Host (list Action) :=
  fun h => (fx_plan fx (h_ctx h) (h_tick h) h, tick_host h).

Definition run_fixer (fx : Fixer) (fn : CheckFn) (dry_run skip_lock : bool) : M Host FixerResult :=
  pre ← safe_run (fx_name fx) fn;
  if decide (cr_status pre = StOk) then mret (mkFixerResult (fx_name fx) FxSkipped [] (Some pre) None)
  else
    actions ← planned fx;
    if dry_run then mret (mkFixerResult (fx_name fx) FxSkipped actions (Some pre) None)
    else
      '(actions, ok) ← (if skip_lock then run_actions actions else apply_lock (run_actions actions));
      if negb ok then mret (mkFixerResult (fx_name fx) FxFailed actions (Some pre) None)
      else
        post ← safe_run (fx_name fx) fn;
        mret (mkFixerResult (fx_name fx)
                (if decide (cr_status post = StOk) then FxApplied else FxUnfixed)
                actions (Some pre) (Some post)).

Definition fixer_exit_code (results : list FixerResult) : Z :=
  if existsb (fun r => bool_decide (fr_status r = FxFailed)) results then 2
  else if existsb (fun r => bool_decide (fr_status r = FxUnfixed)) results then 1 else 0.
End host.

(** ** What actions do *)
Section actions.
Context {E : HostEnv}.

(** Effects are only added, under the lock as it is; the context stays. *)
Definition acts (h h' : Host) : Prop :=
  h_locked h' = h_locked h ∧ h_ctx h' = h_ctx h ∧
  ∃ new, h_effects h' = h_effects h ++ map (pair (h_locked h)) new.

#[export] Instance acts_preorder : PreOrder acts.
Proof.
  split.
  - intros h. split_and!; [done..|]. exists []. by rewrite app_nil_r.
  - intros h1 h2 h3 (Hl & Hc & n1 & H1) (Hl' & Hc' & n2 & H2). split_and!; [congruence..|].
    exists (n1 ++ n2). by rewrite H2, H1, Hl, map_app, app_assoc.
Qed.

Lemma acts_keep h h' :
  h_locked h' = h_locked h → h_ctx h' = h_ctx h → h_effects h' = h_effects h → acts h h'.
Proof. intros H1 H2 H3. split_and!; [done..|]. exists []. by rewrite H3, app_nil_r. Qed.

Lemma acts_log e h : acts h (log_effect e h).
Proof. split_and!; [done..|]. by exists [e]. Qed.
Lemma acts_log_files e fs h : acts h (log_effect e (set_files fs h)).
Proof. split_and!; [done..|]. by exists [e]. Qed.

Lemma tick_acts : preserves acts host_tick.
Proof. unfold host_tick. pres. by apply acts_keep. Qed.
Lemma set_file_acts p f : preserves acts (set_file p f).
Proof. unfold set_file. pres. by apply acts_keep. Qed.
Hint Resolve tick_acts set_file_acts acts_log acts_log_files : pres.
Lemma sys_acts : preserves acts host_sys.
Proof. unfold host_sys. pres. Qed.
Hint Resolve sys_acts : pres.

Lemma copy_acts p : preserves acts (copy_to_backup p).
Proof. unfold copy_to_backup. pres. Qed.
Lemma replace_acts p t : preserves acts (replace_text p t).
Proof. unfold replace_text. pres. Qed.
Lemma command_acts cmd : preserves acts (run_program cmd).
Proof. unfold run_program. pres. Qed.
Hint Resolve copy_acts replace_acts command_acts : pres.

Lemma execute_acts a : preserves acts (execute_action a).
Proof.
  unfold execute_action, execute_write_file, execute_run, execute_systemctl, execute_backup, execute_chmod_exec. pres.
Qed.

Lemma tick_ro : raises_only catchable host_tick.
Proof. unfold host_tick. ro. Qed.
Lemma set_file_ro p f : raises_only catchable (set_file p f).
Proof. unfold set_file. ro. Qed.
Hint Resolve tick_ro set_file_ro : pres.
Lemma sys_ro : raises_only catchable host_sys.
Proof. unfold host_sys. ro. Qed.
Hint Resolve sys_ro : pres.
Lemma copy_ro p : raises_only catchable (copy_to_backup p).
Proof. unfold copy_to_backup. ro. Qed.
Lemma replace_ro p t : raises_only catchable (replace_text p t).
Proof. unfold replace_text. ro. Qed.
Lemma command_ro cmd : raises_only catchable (run_program cmd).
Proof. unfold run_program. ro. Qed.
Hint Resolve copy_ro replace_ro command_ro : pres.

Lemma execute_total a : total (execute_action a).
Proof.
  unfold execute_action. apply total_bind; [|by intros s]. apply total_catch_all; [|by intros e].
  unfold execute_write_file, execute_run, execute_systemctl, execute_backup, execute_chmod_exec. ro.
Qed.

(** The value of a computation that returns. *)
Definition gives {A} (P : A → Prop) (m : M Host A) : Prop := ∀ h a h', m h = (Ok a, h') → P a.

Lemma gives_ret {A} (P : A → Prop) a : P a → gives P (mret a).
Proof. by intros H h a' h' [= <- _]. Qed.
Lemma gives_throw {A} (P : A → Prop) k : gives P (throw k).
Proof. by intros h a h'. Qed.
Lemma gives_bind {A B} (P : B → Prop) (m : M Host A) f : (∀ a, gives P (f a)) → gives P (m ≫= f).
Proof. intros Hf h b h' (a & h1 & _ & H)%bind_ok_inv. by eapply Hf. Qed.
Lemma gives_try {A} (P : A → Prop) (m : M Host A) c h0 :
  gives P m → (∀ e, gives P (h0 e)) → gives P (try_except m c h0).
Proof.
  intros Hm Hh h a h'. unfold try_except. destruct (m h) as [[x|e] h1] eqn:Hr.
  - intros [= -> ->]. by eapply Hm.
  - destruct (instance_of _ _); [apply Hh|done].
Qed.

(** An executed action keeps what it is, and is no longer pending. *)
Lemma execute_settles a : gives (λ a', ∃ s, a' = settle a s ∧ s.1 ≠ Pending) (execute_action a).
Proof.
  intros h a' h'. unfold execute_action. intros (s & h1 & Hs & H)%bind_ok_inv. apply ret_ok_inv in H as [-> _].
  exists s. split; [done|]. revert h s h1 Hs. apply (gives_try (λ s, s.1 ≠ Pending)); [|intros e; by apply gives_ret].
  unfold execute_write_file, execute_run, execute_systemctl, execute_backup, execute_chmod_exec.
  repeat first [apply gives_bind; intros ?|apply gives_throw|by apply gives_ret|case_match].
Qed.

(** ** The run of a plan *)

(** Everything before the first failure is settled, nothing after it is touched. *)
Inductive ran : list Action → list Action → bool → Prop :=
  | ran_nil : ran [] [] true
  | ran_failed a s rest : s.1 = Failed → ran (a :: rest) (settle a s :: rest) false
  | ran_done a s rest rest' ok :
      s.1 = NoOp ∨ s.1 = Applied → ran rest rest' ok → ran (a :: rest) (settle a s :: rest') ok.

Lemma run_actions_ran l h :
  ∃ l' ok h', run_actions l h = (Ok (l', ok), h') ∧ ran l l' ok ∧ acts h h'.
Proof.
  revert h. induction l as [|a l IH]; intros h; simpl.
  { exists [], true, h. split_and!; [done|constructor|done]. }
  pose proof (execute_total a h) as Ht. pose proof (execute_acts a h) as Ha.
  destruct (execute_action a h) as [[a'|e] h1] eqn:He; [|done].
  destruct (execute_settles a h a' h1 He) as (s & -> & Hs).
  erewrite bind_ok by exact He. case_decide as Hf.
  { do 3 eexists. split_and!; [done|by apply ran_failed|done]. }
  destruct (IH h1) as (l' & ok & h2 & Hr & Hran & Ha2). erewrite bind_ok by exact Hr.
  exists (settle a s :: l'), ok, h2. split_and!; [done| |by etrans].
  apply ran_done; [|done]. simpl in Hf. destruct (s.1); auto; done.
Qed.

(** With nothing failed, every action is settled. *)
Lemma ran_ok l l' : ran l l' true → Forall (λ a, ac_status a = NoOp ∨ ac_status a = Applied) l'.
Proof. intros H. remember true as ok. by induction H; constructor; auto. Qed.
End actions.
#[export] Hint Resolve tick_acts set_file_acts sys_acts copy_acts replace_acts command_acts execute_acts : pres.
#[export] Hint Resolve tick_ro set_file_ro sys_ro copy_ro replace_ro command_ro : pres.

(** ** The contract of a fixer *)
Section contract.
Context {E : HostEnv}.

(** What the host keeps when nothing is done to it. *)
Definition untouched (h h' : Host) : Prop :=
  h_files h' = h_files h ∧ h_effects h' = h_effects h ∧ h_locked h' = h_locked h.

#[export] Instance untouched_preorder : PreOrder untouched.
Proof. split; [done|]. unfold untouched. intros h1 h2 h3. intuition congruence. Qed.

Lemma tick_untouched : preserves untouched host_tick.
Proof. unfold host_tick. pres. Qed.
Hint Resolve tick_untouched : pres.
Lemma sys_untouched : preserves untouched host_sys.
Proof. unfold host_sys. pres. Qed.

Lemma safe_run_untouched name fn : preserves untouched (safe_run name fn).
Proof. intros h. unfold safe_run. destruct (fn _ _ _) as [[r|e] ctx]; [done|]. by destruct (instance_of _ _). Qed.

Lemma safe_run_raises name fn h r h' :
  safe_run name fn h = (r, h') → match r with Ok _ => True | Raise e => uncatchable (ex_kind e) end.
Proof.
  unfold safe_run. destruct (fn _ _ _) as [[c|e] ctx]; [by intros [= <- _]|].
  destruct (instance_of _ _) eqn:He; by intros [= <- _].
Qed.

(** What a fixer may have done to the host, and what it then says. *)
Definition fixer_promise (plan : list Action) (dry_run : bool) (fr : FixerResult) (new : list effect) : Prop :=
  match fr_status fr with
  | FxSkipped => new = [] ∧
      ((fr_actions fr = [] ∧ ∃ pre, fr_pre fr = Some pre ∧ cr_status pre = StOk) ∨
       (dry_run = true ∧ fr_actions fr = plan))
  | FxFailed => ran plan (fr_actions fr) false
  | FxApplied => ran plan (fr_actions fr) true ∧ ∃ post, fr_post fr = Some post ∧ cr_status post = StOk
  | FxUnfixed => ran plan (fr_actions fr) true ∧ ∃ post, fr_post fr = Some post ∧ cr_status post ≠ StOk
  end.

(** The lock is taken before the first action and released after the last. *)
Lemma apply_lock_spec {A} (body : M Host A) (Q : res A → Host → Prop) h :
  h_locked h = false →
  (∀ h1, untouched h (set_locked false h1) → h_locked h1 = true → h_ctx h1 = h_ctx h →
     wp body (λ r h', Q r (set_locked false h')) h1) →
  (∀ e h', untouched h h' → Q (Raise e) h') →
  wp (apply_lock body) Q h.
Proof.
  intros Hl Hbody Hno. unfold apply_lock. apply wp_bind.
  assert (Hfree : ∀ r h1, untouched h h1 → h_ctx h1 = h_ctx h →
    then_ (λ n, (match lock_opens n with Opened => mret tt | OpenDenied => host_sys | OpenFails => throw EOS end ;;
       finally (m ← host_tick; (if lock_taken m then throw ERuntime else modify (set_locked true)) ;; host_sys ;; body)
         (modify (set_locked false)))) Q r h1); [|by apply Hfree].
  intros [n|e] h1 H1 Hc1; simpl; [|by apply Hno]. apply wp_bind. unfold wp.
  assert (Hgo : ∀ h2, untouched h h2 → h_ctx h2 = h_ctx h →
    let '(r, h') := finally (m ← host_tick;
         (if lock_taken m then throw ERuntime else modify (set_locked true)) ;; host_sys ;; body)
         (modify (set_locked false)) h2 in Q r h').
  { intros h2 [Hf [He Hl2]] Hc2. unfold finally, host_tick, mbind, M_bind, get, modify, mret, M_ret. cbn [h_tick].
    destruct (lock_taken (h_tick h2)); [by apply Hno|]. set (h3 := set_locked true (tick_host h2)).
    unfold host_sys, host_tick, mbind, M_bind, get, modify, mret, M_ret, throw, raise. cbv beta iota.
    destruct (host_fault (h_tick h3)); [apply Hno; split_and!; simpl; congruence|].
    specialize (Hbody (tick_host h3)). unfold wp in Hbody. destruct (body (tick_host h3)) as [r h4].
    apply Hbody; [split_and!; simpl; congruence|done|done]. }
  destruct (lock_opens n); [by apply Hgo| |by apply Hno].
  unfold host_sys, host_tick, mbind, M_bind, get, modify, mret, M_ret, throw, raise. cbv beta iota.
  destruct (host_fault (h_tick h1)); [by apply Hno|]. by apply Hgo.
Qed.

(** Whatever the plan, the check and the environment: a fixer acts under the lock only and
    releases it; skipped means that nothing was done, because the check was satisfied or the
    run dry; failed, that everything before the first failing action was carried out and
    nothing after it; applied and unfixed, that every action was carried out and the
    check's own word decides; an exception, that nothing was done. *)
Theorem run_fixer_contract fx fn dry_run h :
  h_locked h = false →
  wp (run_fixer fx fn dry_run false) (λ r h',
    h_locked h' = false ∧
    ∃ new, h_effects h' = h_effects h ++ map (pair true) new ∧
      match r with
      | Ok fr => fr_name fr = fx_name fx ∧
                 ∃ plan, fixer_promise plan dry_run fr new ∧
                   (fr_status fr ≠ FxSkipped ∨ fr_actions fr ≠ [] →
                    ∃ ctx n h1, untouched h h1 ∧ fx_plan fx ctx n h1 = Ok plan)
      | Raise e => catchable (ex_kind e) → new = [] ∧ h_files h' = h_files h
      end) h.
Proof.
  intros Hl. unfold run_fixer. apply wp_bind, wp_intro. intros r h1 Hr.
  pose proof (safe_run_untouched (fx_name fx) fn h) as H1. rewrite Hr in H1. destruct H1 as (Hf1 & He1 & Hl1).
  assert (Hnone : ∀ h', h_effects h' = h_effects h → h_effects h' = h_effects h ++ map (pair true) []).
  { intros h' ->. by rewrite app_nil_r. }
  destruct r as [pre|e]; simpl in *; [|split; [congruence|]; exists []; auto].
  case_decide as Hpre.
  { apply wp_ret. split; [congruence|]. exists []. split_and!; [auto|done|]. exists []. split.
    - split; [done|]. left. eauto.
    - by intros [?|?]. }
  apply wp_bind. unfold planned, wp at 1.
  destruct (fx_plan fx (h_ctx h1) (h_tick h1) h1) as [plan|e] eqn:Hplan; simpl;
    [|split; [congruence|]; exists []; auto].
  destruct dry_run.
  { apply wp_ret. split; [simpl; congruence|]. exists []. split_and!; [by apply Hnone|done|]. exists plan.
    split; [split; [done|]; by right|]. intros _. by exists (h_ctx h1), (h_tick h1), h1. }
  apply wp_bind, apply_lock_spec; [simpl; congruence| |].
  2:{ intros e h' (Hf & He & Hlk). simpl in *. split; [congruence|]. exists [].
      split; [apply Hnone; congruence|]. intros _. split; [done|congruence]. }
  intros h2 (Hf2 & He2 & _) Hl2 _. simpl in *. apply wp_intro. intros r2 h3 Hrun.
  destruct (run_actions_ran plan h2) as (l' & ok & h3' & Hr3 & Hran & Hl3 & _ & new & Hnew).
  rewrite Hr3 in Hrun. injection Hrun as <- <-. simpl. rewrite Hl2 in Hnew.
  assert (Hnew' : h_effects h3' = h_effects h ++ map (pair true) new) by congruence.
  destruct ok; simpl.
  - apply wp_bind, wp_intro. intros r4 h4 Hpost.
    pose proof (safe_run_untouched (fx_name fx) fn (set_locked false h3')) as H4. rewrite Hpost in H4.
    destruct H4 as (_ & He4 & Hl4). simpl in *.
    pose proof (safe_run_raises _ _ _ _ _ Hpost) as Hcatch.
    destruct r4 as [post|e]; simpl.
    + apply wp_ret. split; [done|]. exists new. split_and!; [congruence|done|]. exists plan. split.
      * unfold fixer_promise. simpl. case_decide; eauto.
      * intros _. exists (h_ctx h1), (h_tick h1), h1. done.
    + split; [done|]. exists new. split; [congruence|]. unfold uncatchable, catchable in *. congruence.
  - apply wp_ret. split; [done|]. exists new. split_and!; [done|done|]. exists plan. split; [done|].
    intros _. exists (h_ctx h1), (h_tick h1), h1. done.
Qed.

(** ** Replacing a file *)
Lemma wp_host_tick (Q : res nat → Host → Prop) h : Q (Ok (h_tick h)) (tick_host h) → wp host_tick Q h.
Proof. done. Qed.
Lemma wp_host_sys (Q : res unit → Host → Prop) h :
  (∀ h' r, h_files h' = h_files h → r = Ok tt ∨ r = fail EOS → Q r h') → wp host_sys Q h.
Proof.
  intros HQ. unfold wp, host_sys, host_tick, mbind, M_bind, get, modify, mret, M_ret, throw, raise. cbv beta iota.
  destruct (host_fault _); apply HQ; auto.
Qed.

(** The file is as it was, or it has the new text and its old state is among the backups;
    files that are neither the target, its temporary file nor a backup of it are as they
    were. *)
Definition replaced (path : string) (t : text) (h h' : Host) (done : bool) : Prop :=
  (if done then
     h_files h' !! path = Some (mkHfile t 420) ∧
     ∀ f, h_files h !! path = Some f → ∃ ts, h_files h' !! backup_of path ts = Some f
   else h_files h' !! path = h_files h !! path) ∧
  ∀ q, q ≠ path → q ≠ temp_of path → (∀ ts, q ≠ backup_of path ts) → h_files h' !! q = h_files h !! q.

Lemma temp_ne path : temp_of path ≠ path.
Proof.
  intros H. apply (f_equal (length ∘ chars)) in H. unfold temp_of in H. simpl in H.
  rewrite !chars_app, !length_app in H. simpl in H. lia.
Qed.

Lemma copy_backs_up path f h :
  (∀ ts, path ≠ backup_of path ts) → h_files h !! path = Some f →
  wp (copy_to_backup path) (λ r h',
    replaced path TxEmpty h h' false ∧
    (r = Ok tt → ∃ ts, h_files h' !! backup_of path ts = Some f)) h.
Proof.
  intros Hp Hf. unfold copy_to_backup. apply wp_bind, wp_host_sys. intros h1 r H1 [-> | ->]; simpl.
  2:{ unfold replaced. by rewrite H1. }
  apply wp_bind, wp_host_tick. simpl. apply wp_bind, wp_host_sys. intros h2 r H2 [-> | ->]; simpl in *.
  2:{ unfold replaced. by rewrite H2, H1. }
  wp_steps. simpl. rewrite H2, H1, Hf. wp_steps. simpl. unfold set_file. wp_steps. simpl.
  split; [|intros _; eexists; by rewrite H2, lookup_insert_eq].
  unfold replaced. simpl. rewrite H2, H1. split.
  - by rewrite lookup_insert_ne by (intros Hb; by eapply Hp).
  - intros q _ _ Hb. by rewrite lookup_insert_ne by (intros <-; by eapply Hb).
Qed.

Lemma replace_replaces path t h :
  wp (replace_text path t) (λ r h',
    h_files h' !! path = (if is_ok r then Some (mkHfile t 420) else h_files h !! path) ∧
    ∀ q, q ≠ path → q ≠ temp_of path → h_files h' !! q = h_files h !! q) h.
Proof.
  pose proof (temp_ne path) as Ht. unfold replace_text. apply wp_bind, wp_host_sys.
  intros h1 r H1 [-> | ->]; simpl; [|by rewrite H1]. wp_steps. simpl. unfold set_file at 1. wp_steps. simpl.
  apply wp_bind, wp_host_sys. intros h2 r H2 [-> | ->]; simpl in *.
  2:{ rewrite H2, H1. split; [by rewrite lookup_insert_ne|]. intros q _ Hq. by rewrite lookup_insert_ne. }
  unfold set_file. wp_steps. simpl. apply wp_bind, wp_host_sys. intros h3 r H3 [-> | ->]; simpl in *.
  2:{ rewrite H3, H2, H1, insert_insert_eq. split; [by rewrite lookup_insert_ne|].
      intros q _ Hq. by rewrite lookup_insert_ne. }
  wp_steps. simpl. rewrite H3, H2, H1. split; [by rewrite lookup_insert_eq|]. intros q Hq Hq'.
  by rewrite lookup_insert_ne, lookup_delete_ne, !lookup_insert_ne.
Qed.

Definition wrote (p : string) (t : text) (h : Host) (r : res (ActionStatus * option string)) (h' : Host) : Prop :=
  match r with
  | Ok s => replaced p t h h' (bool_decide (s.1 = Applied)) ∧
            (s.1 = NoOp → h_files h' = h_files h ∧ ∃ f, h_files h !! p = Some f ∧ same_text (hf_text f) t = true)
  | Raise e => replaced p t h h' false ∧ catchable (ex_kind e)
  end.

Lemma replaced_same p t h h' : h_files h' = h_files h → replaced p t h h' false.
Proof. unfold replaced. by intros ->. Qed.

(** The backup, if there is something to keep. *)
Lemma backup_first p h h1 :
  (∀ ts, p ≠ backup_of p ts) → h_files h1 = h_files h →
  wp (when (is_file p h) (copy_to_backup p)) (λ r h2,
    replaced p TxEmpty h h2 false ∧
    match r with
    | Ok _ => ∀ f, h_files h !! p = Some f → ∃ ts, h_files h2 !! backup_of p ts = Some f
    | Raise e => catchable (ex_kind e)
    end) h1.
Proof.
  intros Hp H1. apply wp_when. unfold is_file. case_bool_decide as Hi.
  2:{ split; [by apply replaced_same|]. intros g Hg. destruct Hi. eauto. }
  destruct Hi as [g Hg]. apply wp_intro. intros r h2 Hr.
  pose proof (copy_backs_up p g h1 Hp) as Hc. rewrite H1 in Hc. specialize (Hc Hg).
  pose proof (wp_elim _ _ _ _ _ Hc Hr) as [Hrep Hok]. split.
  - unfold replaced in *. by rewrite H1 in Hrep.
  - destruct r as [[]|e]; [intros g' Hg'; simplify_eq; auto|]. apply (copy_ro p h1). by rewrite Hr.
Qed.

Lemma write_goes p t h h1 :
  (∀ ts, p ≠ backup_of p ts) → (∀ ts, temp_of p ≠ backup_of p ts) → h_files h1 = h_files h →
  wp (when (is_file p h) (copy_to_backup p) ;; replace_text p t ;; mret (Applied, None)) (wrote p t h) h1.
Proof.
  intros Hp Htb H1. apply wp_bind. eapply wp_mono; [by apply backup_first|].
  intros [u|e] h2 [Hrep Hback]; simpl; [|done].
  apply wp_bind, wp_intro. intros r h3 Hr.
  pose proof (wp_elim _ _ _ _ _ (replace_replaces p t h2) Hr) as [Hat Helse]. destruct Hrep as [Hold Hother].
  assert (Hrest : ∀ q, q ≠ p → q ≠ temp_of p → (∀ ts, q ≠ backup_of p ts) → h_files h3 !! q = h_files h !! q).
  { intros q Hq Hq' Hq''. rewrite Helse by done. by apply Hother. }
  destruct r as [u'|e]; simpl in *.
  - wp_steps. split; [|done]. simpl. split; [split; [done|]|done]. intros g Hg.
    destruct (Hback g Hg) as [ts Hts]. exists ts. rewrite Helse; [done| |]; intros Hb; [by eapply Hp|by eapply Htb].
  - split; [split; [by rewrite Hat|done]|]. apply (replace_ro p t h2). by rewrite Hr.
Qed.

(** Whichever system call fails: the target of a write is as it was or new, and when it is
    new its former state is kept as a backup; the action says applied exactly when the
    text is new, and no-op only when the file already had it. *)
Theorem write_file_safe a h a' h' :
  ac_kind a = "write_file"%string → (∀ ts, ac_target a ≠ backup_of (ac_target a) ts) →
  (∀ ts, temp_of (ac_target a) ≠ backup_of (ac_target a) ts) →
  execute_action a h = (Ok a', h') →
  let t := default TxEmpty (ac_payload a) in
  replaced (ac_target a) t h h' (bool_decide (ac_status a' = Applied)) ∧
  (ac_status a' = NoOp → h_files h' = h_files h ∧
     ∃ f, h_files h !! ac_target a = Some f ∧ same_text (hf_text f) t = true).
Proof.
  intros Hk Hp Htb Hx. cbv zeta. set (p := ac_target a) in *. set (t := default TxEmpty (ac_payload a)).
  assert (Hw : wp (execute_write_file a) (wrote p t h) h).
  { unfold execute_write_file. fold p t. wp_steps. destruct (h_files h !! p) as [f|] eqn:Hf.
    - apply wp_bind, wp_host_sys. intros h1 r H1 [-> | ->]; simpl.
      + wp_steps. destruct (same_text (hf_text f) t) eqn:Hs; [|by apply write_goes].
        wp_steps. split; [by apply replaced_same|]. intros _. eauto.
      + split; [by apply replaced_same|done].
    - apply wp_ret. simpl. by apply write_goes. }
  unfold execute_action in Hx. rewrite Hk in Hx. simpl in Hx.
  apply bind_ok_inv in Hx as (s & h1 & Hs & Hx). apply ret_ok_inv in Hx as [-> ->]. simpl.
  unfold try_except in Hs. unfold wp in Hw. destruct (execute_write_file a h) as [[s'|e] h2].
  - injection Hs as -> ->. exact Hw.
  - destruct Hw as [Hw Hc]. unfold catchable in Hc. rewrite Hc in Hs. apply ret_ok_inv in Hs as [-> ->]. by split.
Qed.
End contract.
#[export] Hint Resolve tick_untouched sys_untouched safe_run_untouched : pres.
