(* ===== verification/BringupChecks.v ===== *)
(** * Checks and fixers of the camera host ([camera_bringup/checks/], [fixers/])

    The checks of the USB enumeration, the power settings, the kernel module, the udev
    rule, the device link, the firmware, the bandwidth and the camera's identity, with the
    fixers of the power rule, the udev rule, the reset tools and the identity's baseline
    with its signature ([signing.py]). A file that may not be read is as good as missing
    ([read_denied]). The checks that run programs of the host are in [BringupProbes]. *)
From Stdlib Require Import Ascii Qabs.
From S2P Require Import Prelude.
From S2P Require Import PyVal.
From S2P Require Import PyStr.
From S2P Require Import JsonText.
From S2P Require Import FileStore.
From S2P Require Import NodeTransport.
From S2P Require Import BringupHost.

(** ** The instance ([instance.py], [spec.py]) *)
Record HardwareSpec := mkHardware {
  usb_vendor_id : string; usb_product_id : string; usb_interface_num : string;
  usb_port_hint : option string;
}.
Record StreamSpec := mkStreamSpec { pixel_format : string; st_width : Z; st_height : Z; st_fps : Z }.
Record InstanceSpec := mkInstance {
  instance_id : string; hardware : HardwareSpec; stream : StreamSpec; min_bcd : Z;
  dev_symlink_name : string;
}.

(** The value of a hexadecimal digit. *)
Definition hex_digit_value (c : ascii) : option nat :=
  let n := nat_of_ascii c in
  if in_range 48 57 c then Some (n - 48)%nat
  else if in_range 65 70 c then Some (n - 55)%nat
  else if in_range 97 102 c then Some (n - 87)%nat else None.

(** How the query of the camera's SDK ends. *)
Inductive query_end := QueryMissing | QueryTimeout | QueryExit (code : Z) | QueryOut (t : text).

(** A path: missing, no link, or a link to a target that may be missing. *)
Inductive link := NoPath | NoLink | LinkTo (target : string) (present : bool).

Class BringupEnv := {
  ACTIVE_INSTANCE : InstanceSpec;
  UDEV_RULES_DIR : string; MODPROBE_CONF : string; FINGERPRINT_DIR : string; FINGERPRINT_PATH : string;
  HMAC_SECRET_DIR : string; HMAC_SECRET_PATH : string; BRINGUP_HOME : string;
  DEV_SYMLINK : string;
  read_denied : nat → string → bool;            (* [open] fails *)
  usb_devices : nat → list string;              (* the directories with an [idProduct] *)
  link_state : nat → string → link;
  is_dir : nat → string → bool;
  text_chars : text → string;                   (* the characters of a JSON text *)
  device_query : nat → query_end;
  hostname : nat → string;
  random_hex : nat → string;                    (* [secrets.token_bytes(32).hex()] *)
  hmac_sha256 : list ascii → json → string;     (* hex digits, of a document's canonical text *)
  hmac_hex key j : is_ascii (hmac_sha256 key j) = true ∧ hmac_sha256 key j ≠ EmptyString;
}.

Section bringup.
Context {E : HostEnv} {B : BringupEnv}.

(** ** Reading *)
Definition text_str (t : text) : string :=
  match t with TxRaw s => s | TxEmpty => "" | TxBlank => " " | _ => text_chars t end.

(** [read_host_file]: [None] for a file that is missing or may not be read. *)
Definition read_host_file (path : string) (n : nat) (h : Host) : option string :=
  if read_denied n path then None else text_str ∘ hf_text <$> h_files h !! path.

Definition read_int (path : string) (n : nat) (h : Host) : option Z :=
  raw ← read_host_file path n h; parse_int (py_strip raw).

(** [ctx.get("sysfs_path")], a string when it is set. *)
Definition sysfs_of (ctx : dict json) : option string :=
  match dget ctx "sysfs_path" with
  | Some (JStr s) => if String.eqb s EmptyString then None else Some s
  | _ => None
  end.

Definition result (name : string) (s : Status) : res CheckResult := Ok (mkCheckResult name s).

(** A check that leaves the context as it is. *)
Definition reading (f : dict json → nat → Host → res CheckResult) : CheckFn := fun ctx n h => (f ctx n h, ctx).

(** [c01_usb_enumerate.py] *)
Definition is_camera (n : nat) (h : Host) (dev : string) : bool :=
  match read_host_file (dev ++ "/idProduct")%string n h, read_host_file (dev ++ "/idVendor")%string n h with
  | Some p, Some v => String.eqb (py_strip p) (usb_product_id (hardware ACTIVE_INSTANCE))
                      && String.eqb (py_strip v) (usb_vendor_id (hardware ACTIVE_INSTANCE))
  | _, _ => false
  end.

Definition find_all_sysfs_paths (n : nat) (h : Host) : list string :=
  List.filter (is_camera n h) (dkeys (sort_items (map (fun d => (d, tt)) (usb_devices n)))).

Definition check_usb_enumerate : CheckFn := fun ctx n h =>
  match find_all_sysfs_paths n h with
  | [sysfs] =>
      let speed := match read_host_file (sysfs ++ "/speed")%string n h with
                   | Some s => if String.eqb s EmptyString then Some 0 else parse_int s
                   | None => Some 0
                   end in
      match speed with
      | None => (fail EValue, ctx)
      | Some mbit =>
          (result "usb_enumerate" (if mbit =? 5000 then StOk else StWarn),
           dset (dset ctx "sysfs_path" (JStr sysfs)) "usb_speed_mbit" (JInt mbit))
      end
  | _ => (result "usb_enumerate" StFail, ctx)
  end.

(** [c02_usb_power.py] *)
Definition usb_power_status (control : string) (autosuspend persist : option Z) (runtime : string) : Status :=
  if String.eqb control "auto" && (match autosuspend with Some a => 0 <? a | None => false end) then StFail
  else if negb (String.eqb runtime "active") then StFail
  else if String.eqb control "on" && bool_decide (autosuspend = Some (-1)) && bool_decide (persist = Some 0)
  then StOk else StWarn.

Definition check_usb_power : CheckFn := reading (fun ctx n h =>
  match sysfs_of ctx with
  | None => result "usb_power" StSkip
  | Some sysfs =>
      let power := (sysfs ++ "/power")%string in
      let word f := py_strip (default ""%string (read_host_file (power ++ f)%string n h)) in
      result "usb_power"
        (usb_power_status (word "/control"%string) (read_int (power ++ "/autosuspend")%string n h)
           (read_int (power ++ "/persist")%string n h) (word "/runtime_status"%string))
  end).

(** [c03_uvcvideo.py] *)

(** The words after [options uvcvideo]. *)
Definition option_words (line : string) : list string :=
  let line := py_strip line in
  if String.eqb line EmptyString || startswith line "#" then []
  else match py_words line with
       | "options"%string :: "uvcvideo"%string :: toks => toks
       | _ => []
       end.

Definition add_option (opts : dict string) (tok : string) : dict string :=
  match split1 "=" tok with Some (k, v) => dset opts k v | None => opts end.

Definition parse_modprobe_options (path : string) (n : nat) (h : Host) : dict string :=
  match read_host_file path n h with
  | None => []
  | Some raw => fold_left add_option (flat_map option_words (splitlines raw)) []
  end.

Definition conf_int (opts : dict string) (k : string) : res (option Z) :=
  match dget opts k with
  | Some v => match parse_int v with Some z => Ok (Some z) | None => fail EValue end
  | None => Ok None
  end.

(** No deviation at run time, none after the next boot, and no difference between them. *)
Definition param_fine (runtime conf : option Z) (expected : Z) : bool :=
  bool_decide (runtime = Some expected)
  && match conf with Some c => (c =? expected) && bool_decide (runtime = Some c) | None => true end.

Definition check_uvcvideo : CheckFn := reading (fun ctx n h =>
  if negb (is_dir n "/sys/module/uvcvideo") then result "uvcvideo" StFail
  else
    let runtime k := read_int ("/sys/module/uvcvideo/parameters/" ++ k)%string n h in
    let opts := parse_modprobe_options MODPROBE_CONF n h in
    nodrop ← conf_int opts "nodrop"; timeout ← conf_int opts "timeout"; quirks ← conf_int opts "quirks";
    result "uvcvideo"
      (if param_fine (runtime "nodrop"%string) nodrop 1 && param_fine (runtime "timeout"%string) timeout 500
          && param_fine (runtime "quirks"%string) quirks 128
       then StOk else StWarn)).

(** [c07_firmware.py] *)
Definition check_firmware : CheckFn := reading (fun ctx n h =>
  match sysfs_of ctx with
  | None => result "firmware" StSkip
  | Some sysfs =>
      match read_host_file (sysfs ++ "/bcdDevice")%string n h with
      | None => result "firmware" StWarn
      | Some raw =>
          match parse_int (py_strip raw) with
          | None => result "firmware" StWarn
          | Some bcd => result "firmware" (if bcd <? min_bcd ACTIVE_INSTANCE then StWarn else StOk)
          end
      end
  end).

(** [c08_bandwidth.py] *)
Definition is_word (c : ascii) : bool :=
  in_range 48 57 c || in_range 65 90 c || in_range 97 122 c || Ascii.eqb c "_".

Fixpoint take_while (p : ascii → bool) (l : list ascii) : list ascii * list ascii :=
  match l with
  | c :: l' => if p c then let '(a, b) := take_while p l' in (c :: a, b) else ([], l)
  | [] => ([], [])
  end.

(** A name, [=], perhaps a quote, and the characters up to the next quote. *)
Definition env_assignment (line : string) : option (string * string) :=
  let '(name, rest) := take_while is_word (chars line) in
  match name, rest with
  | _ :: _, c :: rest =>
      if Ascii.eqb c "=" then
        let rest := match rest with q :: r => if is_quote q then r else rest | [] => [] end in
        match (take_while (fun c => negb (is_quote c)) rest).1 with
        | [] => None
        | v => Some (str name, str v)
        end
      else None
  | _, _ => None
  end.

Definition parse_robot_env (path : string) (n : nat) (h : Host) : dict string :=
  fold_left (fun out line =>
    let line := py_strip line in
    if String.eqb line EmptyString || startswith line "#" then out
    else match env_assignment line with Some (k, v) => dset out k v | None => out end)
    (splitlines (default ""%string (read_host_file path n h))) [].

Definition env_int (env : dict string) (k : string) (d : Z) : res Z :=
  match dget env k with
  | Some v => match parse_int v with Some z => Ok z | None => fail EValue end
  | None => Ok d
  end.

(** [BYTES_PER_PIXEL] of the format's own name. *)
Definition bytes_per_pixel (fmt : string) : option Q :=
  if mem_str fmt ["YUYV422"; "YUYV"]%string then Some 2%Q
  else if mem_str fmt ["MJPG"; "MJPEG"]%string then Some (3 # 10)%Q
  else if String.eqb fmt "NV12" then Some (3 # 2)%Q
  else if mem_str fmt ["RGB24"; "RGB3"]%string then Some 3%Q
  else None.

Definition useful_mbit (speed : json) : option Z :=
  if py_eq speed (JInt 480) then Some 360 else if py_eq speed (JInt 5000) then Some 4000 else None.

(** The share of the bus in percent. *)
Definition utilization (width height fps : Z) (bpp : Q) (useful : Z) : Q :=
  (inject_Z (width * height * fps) * bpp * 8 / 1000000 / inject_Z useful * 100)%Q.

Definition bandwidth_status (u : Q) : Status :=
  if Qltb 100 u then StFail else if Qltb 60 u then StWarn else StOk.

Definition check_bandwidth : CheckFn := reading (fun ctx n h =>
  let env := parse_robot_env "/etc/robot/cam-rgb.env" n h in
  let s := stream ACTIVE_INSTANCE in
  width ← env_int env "WIDTH" (st_width s); height ← env_int env "HEIGHT" (st_height s);
  fps ← env_int env "FPS" (st_fps s);
  match bytes_per_pixel (upper (default (pixel_format s) (dget env "PIX_FMT"))) with
  | None => result "bandwidth" StWarn
  | Some bpp =>
      match useful_mbit (default (JInt 0) (dget ctx "usb_speed_mbit")) with
      | None => result "bandwidth" StSkip
      | Some useful => result "bandwidth" (bandwidth_status (utilization width height fps bpp useful))
      end
  end).

(** [c04_udev.py] *)
Definition newline : string := String "010"%char EmptyString.
Definition bslash : string := String backslash EmptyString.
Definition q (s : string) : string := dquoted s.

(** [InstanceSpec.render_udev_rule] *)
Definition render_udev_rule (i : InstanceSpec) : string :=
  let hw := hardware i in
  let port := match usb_port_hint hw with
              | Some p => if String.eqb p EmptyString then "" else "KERNELS==" ++ q p ++ ", "
              | None => ""
              end%string in
  ("# Generated from instance " ++ instance_id i ++ " — DO NOT EDIT MANUALLY." ++ newline
   ++ "# See camera_bringup/instances/" ++ instance_id i ++ ".toml + InstanceSpec.render_udev_rule()." ++ newline
   ++ "# Auto-installed by camera_bringup apply --only udev." ++ newline
   ++ "SUBSYSTEM==" ++ q "video4linux" ++ ", KERNEL==" ++ q "video*" ++ ", " ++ bslash ++ newline
   ++ "  ENV{ID_VENDOR_ID}==" ++ q (usb_vendor_id hw) ++ ", ENV{ID_MODEL_ID}==" ++ q (usb_product_id hw)
   ++ ", ENV{ID_USB_INTERFACE_NUM}==" ++ q (usb_interface_num hw) ++ ", " ++ bslash ++ newline
   ++ "  ENV{ID_V4L_CAPABILITIES}==" ++ q ":capture:" ++ ", " ++ bslash ++ newline
   ++ "  " ++ port ++ bslash ++ newline
   ++ "  SYMLINK+=" ++ q (dev_symlink_name i) ++ ", " ++ bslash ++ newline
   ++ "  ENV{SYSTEMD_ALIAS}=" ++ q ("/dev/" ++ dev_symlink_name i) ++ ", " ++ bslash ++ newline
   ++ "  TAG+=" ++ q "systemd" ++ newline)%string.

Definition udev_rule_path : string :=
  (UDEV_RULES_DIR ++ "/99-" ++ dev_symlink_name ACTIVE_INSTANCE ++ ".rules")%string.

(** The rule lines of a file, without comments. *)
Definition normalize_rule (t : string) : string :=
  join newline
    (List.filter (fun line => negb (String.eqb line EmptyString)
                              && negb (startswith (str (lstrip_chars (chars line))) "#"))
       (map (fun line => str (rstrip_chars (chars line))) (splitlines t))).

Definition LEGACY_RULES : list string := ["99-realsense-d435i.rules"; "99-realsense-rgb.rules"]%string.

(** The rules that were disabled and those that are forbidden are the same two. *)
Definition legacy_active (h : Host) : bool :=
  existsb (fun f => is_file (UDEV_RULES_DIR ++ "/" ++ f)%string h) LEGACY_RULES.

Definition check_udev : CheckFn := reading (fun ctx n h =>
  match read_host_file udev_rule_path n h with
  | None => result "udev" StFail
  | Some current =>
      result "udev"
        (if legacy_active h then StFail
         else if String.eqb (normalize_rule current) (normalize_rule (render_udev_rule ACTIVE_INSTANCE))
         then StOk else StWarn)
  end).

(** [c05_dev_symlinks.py] *)
Definition udev_properties (device : string) (n : nat) : dict string :=
  match host_answer n ["udevadm"; "info"; "-q"; "property"; "-n"; device]%string with
  | Exited 0 out _ => fold_left add_option (splitlines out) []
  | _ => []
  end.

Definition check_dev_symlinks : CheckFn := fun ctx n h =>
  match link_state n DEV_SYMLINK with
  | LinkTo target true =>
      if startswith (base_name target) "video" then
        let prop k := default ""%string (dget (udev_properties target n) k) in
        let hw := hardware ACTIVE_INSTANCE in
        let fine := String.eqb (prop "ID_VENDOR_ID"%string) (usb_vendor_id hw)
                    && String.eqb (prop "ID_MODEL_ID"%string) (usb_product_id hw)
                    && String.eqb (prop "ID_USB_INTERFACE_NUM"%string) (usb_interface_num hw)
                    && contains ":capture:" (prop "ID_V4L_CAPABILITIES"%string) in
        (result "dev_symlinks" (if fine then StOk else StFail), dset ctx "v4l_dev" (JStr target))
      else (result "dev_symlinks" StFail, ctx)
  | _ => (result "dev_symlinks" StFail, ctx)
  end.

(** ** The camera's identity *)

(** [primary_device]: the first device of the query, [None] when the query failed. *)
Definition primary_device (n : nat) : res (option json) :=
  match device_query n with
  | QueryOut (TxDoc response) =>
      match response with
      | JObj d =>
          if dmem d "error" then Ok None
          else match default (JArr []) (dget d "devices") with
               | JArr (dev :: _) => Ok (Some dev)
               | JArr [] => Ok None
               | other => if truthy other then fail EType else Ok None
               end
      | _ => fail EType
      end
  | _ => Ok None
  end.

(** [primary_device() or {}] *)
Definition device_or_empty (n : nat) : res json :=
  dev ← primary_device n;
  Ok (match dev with Some d => if truthy d then d else JObj [] | None => JObj [] end).

Definition camera_doc (dev : json) : res json :=
  serial ← jget dev "serial" JNull; firmware ← jget dev "firmware" JNull;
  usb ← jget dev "usb_type" JNull; name ← jget dev "name" JNull; line ← jget dev "product_line" JNull;
  let hw := hardware ACTIVE_INSTANCE in
  Ok (JObj [("vendor_id", JStr (usb_vendor_id hw)); ("product_id", JStr (usb_product_id hw));
            ("serial", serial); ("firmware", firmware); ("usb_type", usb);
            ("product_name", name); ("product_line", line)])%string.

Definition host_doc (ctx : dict json) (n : nat) : json :=
  JObj [("sysfs_path", default JNull (dget ctx "sysfs_path")); ("v4l_dev", default JNull (dget ctx "v4l_dev"));
        ("hostname", JStr (hostname n))]%string.

(** [_current_fingerprint] *)
Definition current_fingerprint (ctx : dict json) (n : nat) : res json :=
  dev ← device_or_empty n;
  camera ← camera_doc dev;
  calibration ← jget dev "calibration" (JObj []);
  Ok (JObj [("camera", camera); ("host", host_doc ctx n); ("calibration", calibration)])%string.

(** [_load_baseline] *)
Definition load_baseline (n : nat) (h : Host) : option json :=
  if read_denied n FINGERPRINT_PATH then None
  else match h_files h !! FINGERPRINT_PATH with
       | Some (mkHfile (TxDoc j) _) => Some j
       | _ => None
       end.

(** [_diff]: a deviation is remembered by its severity. *)
Definition diff (cur base : json) (sev : Status) : list Status := if py_eq cur base then [] else [sev].

(** Both floats: at most half a pixel apart. *)
Definition intrinsic_diff (b c : json) : list Status :=
  match b, c with
  | JFloat x, JFloat y => if Qltb (1 # 2) (Qabs (x - y)) then diff c b StWarn else []
  | _, _ => diff c b StWarn
  end.

Definition INTRINSICS : list string := ["fx"; "fy"; "ppx"; "ppy"; "width"; "height"]%string.

Fixpoint intrinsic_diffs (base cur : json) (fields : list string) : res (list Status) :=
  match fields with
  | [] => Ok []
  | f :: rest =>
      b ← jget base f JNull; c ← jget cur f JNull;
      more ← intrinsic_diffs base cur rest;
      Ok (intrinsic_diff b c ++ more)
  end.

Definition stream_diffs (base_cal cur_cal : json) (stream_type : string) : res (list Status) :=
  base ← jget base_cal stream_type JNull; cur ← jget cur_cal stream_type JNull;
  match base, cur with
  | JNull, _ => Ok []
  | _, JNull => Ok [StWarn]
  | _, _ =>
      fields ← intrinsic_diffs base cur INTRINSICS;
      b ← jget base "coeffs" JNull; c ← jget cur "coeffs" JNull;
      Ok (fields ++ diff c b StWarn)
  end.

Definition calibration_diffs (base_cal cur_cal : json) : res (list Status) :=
  if truthy base_cal then
    color ← stream_diffs base_cal cur_cal "color";
    depth ← stream_diffs base_cal cur_cal "depth";
    infrared ← stream_diffs base_cal cur_cal "infrared";
    Ok (color ++ depth ++ infrared)
  else Ok [].

(** [base.get(k) is not None]: compared only when the baseline has it. *)
Definition known_diff (cur base : json) (sev : Status) : list Status :=
  if is_null base then [] else diff cur base sev.

(** [_compare] *)
Definition compare_fingerprints (current baseline : json) : res (list Status) :=
  cur_cam ← jget current "camera" (JObj []); base_cam ← jget baseline "camera" (JObj []);
  cur_host ← jget current "host" (JObj []); base_host ← jget baseline "host" (JObj []);
  cv ← jget cur_cam "vendor_id" JNull; bv ← jget base_cam "vendor_id" JNull;
  cp ← jget cur_cam "product_id" JNull; bp ← jget base_cam "product_id" JNull;
  cs ← jget cur_cam "serial" JNull; bs ← jget base_cam "serial" JNull;
  cf ← jget cur_cam "firmware" JNull; bf ← jget base_cam "firmware" JNull;
  bh ← jget base_host "sysfs_path" JNull; ch ← jget cur_host "sysfs_path" JNull;
  cur_cal ← jget current "calibration" (JObj []); base_cal ← jget baseline "calibration" (JObj []);
  cal ← calibration_diffs base_cal cur_cal;
  Ok (diff cv bv StFail ++ diff cp bp StFail ++ known_diff cs bs StFail ++ known_diff cf bf StWarn
      ++ known_diff ch bh StWarn ++ cal).

(** ** Signing *)
Definition secret_exists (h : Host) : bool := is_file HMAC_SECRET_PATH h.

(** [load_secret]: nothing when the file is missing, empty or unreadable. *)
Definition load_secret (n : nat) (h : Host) : option string :=
  raw ← read_host_file HMAC_SECRET_PATH n h;
  if String.eqb (py_strip raw) EmptyString then None else Some (py_strip raw).

Fixpoint unhex (l : list ascii) : option (list ascii) :=
  match l with
  | [] => Some []
  | a :: b :: l' =>
      match hex_digit_value a, hex_digit_value b with
      | Some x, Some y => rest ← unhex l'; Some (ascii_of_nat (16 * x + y) :: rest)
      | _, _ => None
      end
  | [_] => None
  end.

(** The decoded key, or the bytes of the file. *)
Definition secret_key (secret : string) : list ascii := default (chars secret) (unhex (chars secret)).

(** What is signed: the document without its signature. *)
Definition canonical (payload : dict json) : json := sort_json (JObj (ddel payload "_hmac")).

Definition sign (payload : dict json) (key : list ascii) : string := hmac_sha256 key (canonical payload).

Definition attach_signature (payload : dict json) (key : list ascii) : dict json :=
  dset payload "_hmac" (JStr (sign payload key)).

Definition verify_signature (payload : dict json) (key : list ascii) : res bool :=
  match dget payload "_hmac" with
  | None => Ok false
  | Some expected =>
      if truthy expected then
        match expected with
        | JStr s => if is_ascii s then Ok (String.eqb s (sign payload key)) else fail EType
        | _ => fail EType
        end
      else Ok false
  end.

(** [c11_fingerprint.py] *)
Definition signature_ok (baseline : json) (n : nat) (h : Host) : res bool :=
  match baseline with
  | JObj d =>
      if secret_exists h && dmem d "_hmac" then
        match load_secret n h with
        | None => Ok true
        | Some secret => verify_signature d (secret_key secret)
        end
      else Ok true
  | _ => if secret_exists h then fail EType else fail EAttribute
  end.

Definition check_fingerprint : CheckFn := reading (fun ctx n h =>
  current ← current_fingerprint ctx n;
  match load_baseline n h with
  | None => result "fingerprint" StWarn
  | Some baseline =>
      diffs ← compare_fingerprints current baseline;
      valid ← signature_ok baseline n h;
      result "fingerprint"
        (if negb valid then StFail
         else match diffs with
              | [] => StOk
              | _ => if existsb (fun s => bool_decide (s = StFail)) diffs then StFail else StWarn
              end)
  end).

(** ** Fixers *)
Definition raw (s : string) : option text := Some (TxRaw s).

(** [f02_usb_power.py] *)
Definition power_rule (i : InstanceSpec) : string :=
  let hw := hardware i in
  ("# Generated from instance " ++ instance_id i ++ " —" ++ newline
   ++ "# scope = all USB devices " ++ usb_vendor_id hw ++ ":" ++ usb_product_id hw ++ "." ++ newline
   ++ "# Apply on add (boot/replug) and change (manual udevadm trigger)." ++ newline
   ++ "ACTION==" ++ q "add|change" ++ ", SUBSYSTEM==" ++ q "usb" ++ ", ATTR{idVendor}==" ++ q (usb_vendor_id hw)
   ++ ", ATTR{idProduct}==" ++ q (usb_product_id hw) ++ ", " ++ bslash ++ newline
   ++ "  ATTR{power/control}=" ++ q "on" ++ ", " ++ bslash ++ newline
   ++ "  ATTR{power/autosuspend}=" ++ q "-1" ++ ", " ++ bslash ++ newline
   ++ "  ATTR{power/persist}=" ++ q "0" ++ newline)%string.

(** [path.rstrip("/").split("/")[-1]] *)
Fixpoint drop_slashes (l : list ascii) : list ascii :=
  match l with c :: l' => if Ascii.eqb c "/" then drop_slashes l' else l | [] => [] end.
Definition last_part (path : string) : string :=
  List.last (split "/"%char (str (rev (drop_slashes (rev (chars path)))))) EmptyString.

Definition plan_usb_power (ctx : dict json) (n : nat) (h : Host) : res (list Action) :=
  sysfs ← match default (JStr "/sys/bus/usb/devices/2-2"%string) (dget ctx "sysfs_path") with
          | JStr s => Ok s | _ => fail EAttribute end;
  Ok [action "write_file" (UDEV_RULES_DIR ++ "/99-usb-nosuspend-d435i.rules")
        (raw (power_rule ACTIVE_INSTANCE));
      action "run" "udevadm" (raw "control --reload");
      action "run" "udevadm" (raw ("trigger --action=change --sysname-match=" ++ last_part sysfs));
      action "run" "udevadm" (raw "settle --timeout=5")]%string.

(** [f04_udev.py] *)
Definition plan_udev (ctx : dict json) (n : nat) (h : Host) : res (list Action) :=
  Ok [action "write_file" udev_rule_path (raw (render_udev_rule ACTIVE_INSTANCE));
      action "run" "udevadm" (raw "control --reload");
      action "run" "udevadm" (raw "trigger --subsystem-match=video4linux");
      action "run" "udevadm" (raw "settle --timeout=5")]%string.

(** [f09_reset_tools.py] *)
Definition plan_reset_tools (ctx : dict json) (n : nat) (h : Host) : res (list Action) :=
  let venv := (BRINGUP_HOME ++ "/.venv")%string in
  let pip := (venv ++ "/bin/pip")%string in
  Ok ((if is_file (venv ++ "/bin/python3")%string h then []
       else [action "run" "python3" (raw ("-m venv " ++ venv ++ " --system-site-packages"))]%string)
      ++ [action "run" pip (raw ("install --quiet -r " ++ BRINGUP_HOME ++ "/requirements.txt"));
          action "run" pip (raw ("install --quiet --require-hashes -r " ++ BRINGUP_HOME
                                 ++ "/requirements-hardware.txt"));
          action "chmod_exec" (BRINGUP_HOME ++ "/hw_reset_realsense.py") None]%string).

(** [f11_fingerprint.py] *)
Definition build_fingerprint (ctx : dict json) (baseline : option json) (n : nat) : res (dict json) :=
  dev ← device_or_empty n;
  history ← match baseline with
            | Some b => if truthy b then jget b "history" (JObj []) else Ok (JObj [])
            | None => Ok (JObj [])
            end;
  camera ← camera_doc dev;
  calibration ← jget dev "calibration" (JObj []);
  let now := JStr (host_time n) in
  first ← jget history "first_seen_utc" now;
  count ← (count ← jget history "verify_count" (JInt 0); to_int count);
  Ok [("schema_version", JInt 1); ("camera", camera); ("host", host_doc ctx n); ("calibration", calibration);
      ("history", JObj [("first_seen_utc", first); ("last_verified_utc", now);
                        ("verify_count", JInt (count + 1))])]%string.

(** The actions that make a secret when there is none. *)
Definition secret_actions (n : nat) (h : Host) : list Action :=
  if secret_exists h then []
  else [action "run" "mkdir" (raw ("-p " ++ HMAC_SECRET_DIR));
        action "write_file" HMAC_SECRET_PATH (raw (random_hex n));
        action "run" "chmod" (raw ("600 " ++ HMAC_SECRET_PATH))]%string.

Definition signed (fp : dict json) (n : nat) (h : Host) : dict json :=
  match load_secret n h with
  | Some secret => attach_signature fp (secret_key secret)
  | None => fp
  end.

Definition plan_fingerprint (ctx : dict json) (n : nat) (h : Host) : res (list Action) :=
  fp ← build_fingerprint ctx (load_baseline n h) n;
  Ok ((if is_dir n FINGERPRINT_DIR then []
       else [action "run" "mkdir" (raw ("-p " ++ FINGERPRINT_DIR))]%string)
      ++ secret_actions n h
      ++ [action "write_file" FINGERPRINT_PATH (Some (TxDoc (sort_json (JObj (signed fp n h)))))]%string).

Definition UsbPowerFixer : Fixer := mkFixer "usb_power" true plan_usb_power.
Definition UdevFixer : Fixer := mkFixer "udev" true plan_udev.
Definition ResetToolsFixer : Fixer := mkFixer "reset_tools" false plan_reset_tools.
Definition FingerprintFixer : Fixer := mkFixer "fingerprint" true plan_fingerprint.

(** The order in which they run. *)
Definition ALL_FIXERS : list Fixer := [UsbPowerFixer; UdevFixer; ResetToolsFixer; FingerprintFixer].
End bringup.

(** ** A new baseline *)
Section rebaseline.
Context {E : HostEnv} {B : BringupEnv}.

(** What the camera's query answers, as far as it is compared: its calibration, if any, has
    an object for each stream, with numbers and lists of numbers. *)
Definition intrinsics_shape (v : json) : Prop :=
  v = JNull ∨ ∃ i, v = JObj i ∧ ∀ f, f ∈ "coeffs"%string :: INTRINSICS → flat_json (default JNull (dget i f)) = true.

Definition device_shape (dev : json) : Prop :=
  ∃ d, dev = JObj d ∧
    (∀ k, k ∈ ["serial"; "firmware"]%string → flat_json (default JNull (dget d k)) = true) ∧
    (dget d "calibration" = None ∨
     ∃ cal, dget d "calibration" = Some (JObj cal) ∧
       ∀ st, st ∈ ["color"; "depth"; "infrared"]%string → intrinsics_shape (default JNull (dget cal st))).

Lemma jget_of d k dflt : jget (JObj d) k dflt = Ok (default dflt (dget d k)).
Proof. simpl. by destruct (dget d k). Qed.

Lemma jget_sorted j k dflt v :
  jget j k dflt = Ok v → sort_json dflt = dflt → jget (sort_json j) k dflt = Ok (sort_json v).
Proof. intros Hj Hd. rewrite <- Hd at 1. rewrite jget_sort, Hj. done. Qed.

Lemma diff_same v sev : flat_json v = true → diff v (sort_json v) sev = [].
Proof. intros Hv. unfold diff. by rewrite flat_sort, flat_eq. Qed.

Lemma intrinsic_same v : flat_json v = true → intrinsic_diff (sort_json v) v = [].
Proof.
  intros Hv. rewrite flat_sort by done. unfold intrinsic_diff.
  destruct v; try (unfold diff; by rewrite flat_eq).
  assert (Hq : Qltb (1 # 2) (Qabs (q0 - q0)) = false); [|by rewrite Hq].
  apply Qltb_ge. assert (Hz : (q0 - q0 == 0)%Q) by ring. rewrite Hz. done.
Qed.

Lemma intrinsics_same i fields :
  (∀ f, f ∈ fields → flat_json (default JNull (dget i f)) = true) →
  intrinsic_diffs (sort_json (JObj i)) (JObj i) fields = Ok [].
Proof.
  induction fields as [|f fields IH]; intros Hf; [done|]. cbn [intrinsic_diffs].
  rewrite (jget_sorted (JObj i) f JNull _ (jget_of i f JNull)) by done. rewrite jget_of.
  unfold mbind, res_bind. rewrite IH by (intros g Hg; apply Hf; by right).
  rewrite intrinsic_same by (apply Hf; by left). done.
Qed.

Lemma stream_same cal st :
  intrinsics_shape (default JNull (dget cal st)) → stream_diffs (sort_json (JObj cal)) (JObj cal) st = Ok [].
Proof.
  intros Hs. unfold stream_diffs. rewrite (jget_sorted (JObj cal) st JNull _ (jget_of cal st JNull)) by done.
  rewrite jget_of. unfold mbind, res_bind. destruct Hs as [-> | (i & -> & Hi)]; [done|].
  change (sort_json (JObj i)) with (sort_json (JObj i)). cbn [sort_json].
  change (JObj (sort_items _)) with (sort_json (JObj i)).
  rewrite intrinsics_same by (intros f Hf; apply Hi; by right).
  rewrite (jget_sorted (JObj i) "coeffs" JNull _ (jget_of i "coeffs" JNull)) by done. rewrite jget_of.
  rewrite diff_same; [done|]. apply Hi. by left.
Qed.

Lemma calibration_same cal :
  (∀ st, st ∈ ["color"; "depth"; "infrared"]%string → intrinsics_shape (default JNull (dget cal st))) →
  calibration_diffs (sort_json (JObj cal)) (JObj cal) = Ok [].
Proof.
  intros Hc. unfold calibration_diffs. destruct (truthy _); [|done].
  rewrite !stream_same by (apply Hc; set_solver). done.
Qed.

Lemma fingerprint_shape ctx baseline n fp :
  build_fingerprint ctx baseline n = Ok fp →
  ∃ dev camera calibration history,
    device_or_empty n = Ok dev ∧ camera_doc dev = Ok camera ∧ jget dev "calibration" (JObj []) = Ok calibration ∧
    fp = [("schema_version", JInt 1); ("camera", camera); ("host", host_doc ctx n); ("calibration", calibration);
          ("history", history)]%string.
Proof.
  unfold build_fingerprint. intros H. apply res_bind_ok in H as (dev & Hdev & H).
  apply res_bind_ok in H as (history & _ & H). apply res_bind_ok in H as (camera & Hcam & H).
  apply res_bind_ok in H as (calibration & Hcal & H). apply res_bind_ok in H as (first & _ & H).
  apply res_bind_ok in H as (count & _ & H). injection H as <-. eauto 10.
Qed.

Lemma signed_get fp n h k : k ≠ "_hmac"%string → dget (signed fp n h) k = dget fp k.
Proof. intros Hk. unfold signed, attach_signature. destruct (load_secret n h); [by apply dget_dset_ne|done]. Qed.

Lemma stored_get l k v : dget l k = Some v → jget (sort_json (JObj l)) k JNull = Ok (sort_json v).
Proof. intros Hv. apply jget_sorted; [|done]. by rewrite jget_of, Hv. Qed.

Lemma known_same v sev : flat_json v = true → known_diff v (sort_json v) sev = [].
Proof. intros Hv. unfold known_diff. rewrite diff_same by done. by case_match. Qed.

(** The camera's data agree with their stored form. *)
Lemma compare_same dev camera calibration ctx n n' fp :
  device_shape dev → camera_doc dev = Ok camera → jget dev "calibration" (JObj []) = Ok calibration →
  flat_json (default JNull (dget ctx "sysfs_path")) = true →
  dget fp "camera" = Some camera → dget fp "host" = Some (host_doc ctx n) →
  dget fp "calibration" = Some calibration →
  compare_fingerprints
    (JObj [("camera", camera); ("host", host_doc ctx n'); ("calibration", calibration)]%string)
    (sort_json (JObj fp)) = Ok [].
Proof.
  intros (d & -> & Hflat & Hcal) Hcam Hcalib Hsys Hfc Hfh Hfcal. unfold compare_fingerprints.
  assert (Hget : ∀ k v, dget fp k = Some v → jget (sort_json (JObj fp)) k (JObj []) = Ok (sort_json v)).
  { intros k v Hv. apply jget_sorted; [|done]. by rewrite jget_of, Hv. }
  rewrite (Hget _ _ Hfc), (Hget _ _ Hfh), (Hget _ _ Hfcal). clear Hget Hfc Hfh Hfcal.
  rewrite jget_of in Hcalib. injection Hcalib as <-. unfold camera_doc in Hcam. rewrite !jget_of in Hcam.
  unfold mbind, res_bind in *. injection Hcam as <-. unfold host_doc.
  set (cam := [("vendor_id"%string, _); _; _; _; _; _; _]). set (hst := [("sysfs_path"%string, _); _; _]).
  rewrite (stored_get cam "vendor_id" _ eq_refl), (stored_get cam "product_id" _ eq_refl),
    (stored_get cam "serial" _ eq_refl), (stored_get cam "firmware" _ eq_refl).
  match goal with |- context [sort_json (JObj [("sysfs_path"%string, ?a); ?b; ?c])] =>
    rewrite (stored_get [("sysfs_path"%string, a); b; c] "sysfs_path" _ eq_refl) end.
  assert (Hc : calibration_diffs (sort_json (default (JObj []) (dget d "calibration")))
                 (default (JObj []) (dget d "calibration")) = Ok []).
  { destruct Hcal as [-> | (cal & -> & Hs)]; [done|]. by apply calibration_same. }
  revert Hc. generalize (sort_json (default (JObj []) (dget d "calibration"))) as bcal. intros bcal Hc.
  pose proof (Hflat "serial"%string ltac:(set_solver)) as Hs. pose proof (Hflat "firmware"%string ltac:(set_solver)) as Hf.
  cbv beta iota. rewrite !jget_of. cbv beta iota.
  change (default (JObj []) (dget _ "camera")) with (JObj cam).
  change (jget (JObj cam) "vendor_id" JNull) with (Ok (JStr (usb_vendor_id (hardware ACTIVE_INSTANCE)))).
  change (jget (JObj cam) "product_id" JNull) with (Ok (JStr (usb_product_id (hardware ACTIVE_INSTANCE)))).
  change (jget (JObj cam) "serial" JNull) with (Ok (default JNull (dget d "serial"))).
  change (jget (JObj cam) "firmware" JNull) with (Ok (default JNull (dget d "firmware"))).
  change (default (JObj []) (dget _ "host")) with (JObj hst).
  change (jget (JObj hst) "sysfs_path" JNull) with (Ok (default JNull (dget ctx "sysfs_path"))).
  cbv beta iota.
  change (default (JObj []) (dget (_ :: _ :: _ :: _) "calibration")) with (default (JObj []) (dget d "calibration")).
  rewrite Hc, !diff_same, !known_same by done. done.
Qed.

(** The signature of a stored document is that of the document. *)
Lemma canonical_stored camera host calibration history sig d :
  let fp := [("schema_version", JInt 1); ("camera", camera); ("host", host); ("calibration", calibration);
             ("history", history)]%string in
  sort_json (JObj (dset fp "_hmac" (JStr sig))) = JObj d → canonical d = canonical fp.
Proof.
  intros fp [= <-]. unfold canonical. subst fp.
  transitivity (JObj [("calibration", sort_json (sort_json calibration)); ("camera", sort_json (sort_json camera));
    ("history", sort_json (sort_json history)); ("host", sort_json (sort_json host));
    ("schema_version", JInt 1)]%string); [reflexivity|].
  rewrite !sort_json_idem. reflexivity.
Qed.

(** Carrying out the fixer's plan satisfies the check: whatever the baseline said before, a
    mismatch and a forged signature included, the plan ends with a write after which the
    same camera passes, as long as the secret the document was signed with is still the
    stored one. *)
Theorem rebaseline_settles ctx n h plan dev :
  plan_fingerprint ctx n h = Ok plan → device_or_empty n = Ok dev → device_shape dev →
  flat_json (default JNull (dget ctx "sysfs_path")) = true →
  ∃ before t, plan = before ++ [action "write_file" FINGERPRINT_PATH (Some t)] ∧
    ∀ n' h' m, h_files h' !! FINGERPRINT_PATH = Some (mkHfile t m) → read_denied n' FINGERPRINT_PATH = false →
      device_query n' = device_query n →
      (∀ secret, load_secret n h = Some secret → load_secret n' h' = Some secret) →
      (check_fingerprint ctx n' h').1 = Ok (mkCheckResult "fingerprint" StOk).
Proof.
  intros Hplan Hdev Hshape Hsys. apply res_bind_ok in Hplan as (fp & Hfp & Hplan). injection Hplan as <-.
  apply fingerprint_shape in Hfp as (dev' & camera & calibration & history & Hdev' & Hcam & Hcal & Hfp).
  rewrite Hdev in Hdev'. injection Hdev' as <-.
  do 2 eexists. split; [by rewrite app_assoc|]. intros n' h' m Hfile Hread Hq Hsecret.
  assert (Hd : device_or_empty n' = Ok dev) by (unfold device_or_empty, primary_device in *; by rewrite Hq).
  unfold check_fingerprint, reading, current_fingerprint, load_baseline. cbn [fst].
  rewrite Hd, Hread, Hfile. unfold mbind, res_bind. cbv beta iota. rewrite Hcam, Hcal. cbv beta iota.
  change (JObj (sort_items (map _ (signed fp n h)))) with (sort_json (JObj (signed fp n h))).
  rewrite (compare_same dev camera calibration ctx n n' (signed fp n h) Hshape Hcam Hcal Hsys)
    by (rewrite signed_get by done; by subst fp).
  assert (Hvalid : signature_ok (sort_json (JObj (signed fp n h))) n' h' = Ok true); [|by rewrite Hvalid].
  unfold signature_ok. destruct (sort_json (JObj (signed fp n h))) as [| | | | | |d] eqn:Hd'; try done.
  destruct (secret_exists h'); [|done]. unfold dmem, verify_signature. rewrite (dget_sort_json _ "_hmac" _ Hd').
  unfold signed in *. destruct (load_secret n h) as [secret|]; [|by subst fp].
  rewrite (Hsecret secret eq_refl). unfold attach_signature in *. rewrite dget_dset_eq. simpl.
  destruct (hmac_hex (secret_key secret) (canonical fp)) as [Hascii Hne]. unfold sign.
  apply String.eqb_neq in Hne. rewrite Hne, Hascii. simpl.
  subst fp. rewrite (canonical_stored _ _ _ _ _ _ Hd'). by rewrite String.eqb_refl.
Qed.
End rebaseline.
