(* ===== verification/BringupProbes.v ===== *)
(** * The checks that run programs ([c06_v4l2.py], [c09_reset_tools.py], [c10_smoke.py])

    Whether the video device offers the stream's format and captures, whether the camera
    can be reset, and whether the encoder's prerequisites are installed. The texts the
    programs print are ASCII; a decimal number is read exactly. Programs of a check that
    fail in another way than missing or timing out are outside the model. *)
From Stdlib Require Import Ascii Qabs.
From S2P Require Import Prelude.
From S2P Require Import PyVal.
From S2P Require Import PyStr.
From S2P Require Import FileStore.
From S2P Require Import NodeTransport.
From S2P Require Import BringupHost.
From S2P Require Import BringupChecks.

Class ProbeEnv := {
  which : nat → string → option string;        (* [shutil.which] *)
  executable : nat → string → bool;             (* [os.access(path, os.X_OK)] *)
  sys_executable : string;
}.

(** One size of a format and the rates it is offered at, the newest rate last. *)
Record FrameSize := mkFrameSize { fs_width : Z; fs_height : Z; fs_fps : list Q }.
Record PixelFormat := mkPixelFormat { pf_format : string; pf_sizes : list FrameSize }.

Section probes.
Context {E : HostEnv} {B : BringupEnv} {P : ProbeEnv}.

(** ** Reading what [v4l2-ctl --list-formats-ext] prints *)
Definition is_digit_char (c : ascii) : bool := in_range 48 57 c.

(** [\d+] and what follows. *)
Definition digits (l : list ascii) : option (Z * list ascii) :=
  match take_while is_digit_char l with
  | ([], _) => None
  | (d, rest) => z ← parse_int (str d); Some (z, rest)
  end.

Definition literal_prefix (p : string) (l : list ascii) : option (list ascii) :=
  if is_prefix (chars p) l then Some (drop (length (chars p)) l) else None.

Definition spaces (l : list ascii) : list ascii := (take_while is_py_space l).2.

(** [\s+] *)
Definition some_spaces (l : list ascii) : option (list ascii) :=
  match take_while is_py_space l with ([], _) => None | (_, rest) => Some rest end.

(** [re.match(r"\s*\[\d+\]:\s*'(\w+)'", line)] *)
Definition format_line (line : string) : option string :=
  l ← literal_prefix "[" (spaces (chars line)); '(_, l) ← digits l; l ← literal_prefix "]:" l;
  l ← literal_prefix "'" (spaces l);
  match take_while is_word l with
  | ([], _) => None
  | (w, rest) => literal_prefix "'" rest ≫= fun _ => Some (str w)
  end.

(** [re.search] of an expression that begins with a fixed text. *)
Fixpoint re_search {A} (m : list ascii → option A) (l : list ascii) : option A :=
  match m l with
  | Some a => Some a
  | None => match l with [] => None | _ :: rest => re_search m rest end
  end.

(** [re.search(r"Size:\s*\w+\s+(\d+)x(\d+)", line)] *)
Definition size_here (l : list ascii) : option (Z * Z) :=
  l ← literal_prefix "Size:" l;
  match take_while is_word (spaces l) with
  | ([], _) => None
  | (_, l) => l ← some_spaces l; '(w, l) ← digits l; l ← literal_prefix "x" l; '(h, _) ← digits l; Some (w, h)
  end.
Definition size_line (line : string) : option (Z * Z) := re_search size_here (chars line).

(** [(?:\.\d+)?]: the digits after the point, if there are any. *)
Definition fraction (l : list ascii) : Q * list ascii :=
  match literal_prefix "." l with
  | Some rest =>
      match take_while is_digit_char rest with
      | ([], _) => (0%Q, l)
      | (d, after) => ((inject_Z (default 0%Z (parse_int (str d))) / inject_Z (10 ^ Z.of_nat (length d))%Z)%Q, after)
      end
  | None => (0%Q, l)
  end.

(** [re.search(r"\((\d+(?:\.\d+)?)\s*fps\)", line)] *)
Definition fps_here (l : list ascii) : option Q :=
  l ← literal_prefix "(" l; '(z, l) ← digits l;
  let '(f, l) := fraction l in
  literal_prefix "fps)" (spaces l) ≫= fun _ => Some (inject_Z z + f)%Q.
Definition fps_line (line : string) : option Q := re_search fps_here (chars line).

(** The formats read so far, the newest first, and the sizes of each, the newest first. *)
Definition add_size (w h : Z) (formats : list PixelFormat) : option (list PixelFormat) :=
  match formats with
  | f :: rest => Some (mkPixelFormat (pf_format f) (mkFrameSize w h [] :: pf_sizes f) :: rest)
  | [] => None
  end.

(** A rate goes to the size that was read last, which may belong to an earlier format. *)
Fixpoint add_fps (q : Q) (formats : list PixelFormat) : list PixelFormat :=
  match formats with
  | [] => []
  | f :: rest =>
      match pf_sizes f with
      | s :: ss => mkPixelFormat (pf_format f) (mkFrameSize (fs_width s) (fs_height s) (fs_fps s ++ [q]) :: ss) :: rest
      | [] => f :: add_fps q rest
      end
  end.

Definition read_format_line (formats : list PixelFormat) (line : string) : list PixelFormat :=
  match format_line line with
  | Some name => mkPixelFormat name [] :: formats
  | None =>
      match '(w, h) ← size_line line; add_size w h formats with
      | Some formats => formats
      | None => match fps_line line with Some q => add_fps q formats | None => formats end
      end
  end.

Definition parse_formats (out : string) : list PixelFormat := fold_left read_format_line (splitlines out) [].

(** [_list_formats]; the order of the formats and sizes does not matter to the check. *)
Definition list_formats (device : string) (n : nat) : list PixelFormat :=
  match host_answer n ["v4l2-ctl"; "--device"; device; "--list-formats-ext"]%string with
  | Exited 0 out _ => parse_formats out
  | _ => []
  end.

(** [_capture_test]: nothing when it succeeds, else the reason's relevant part. *)
Definition capture_test (device : string) (n : nat) : option string :=
  match host_answer n ["v4l2-ctl"; "--device"; device; "--stream-mmap"; "--stream-count=3";
                       "--stream-to=/dev/null"]%string with
  | CmdTimeout => Some "timeout (10s)"
  | CmdMissing => Some "v4l2-ctl"
  | Exited 0 _ _ => None
  | Exited _ _ err =>
      let err := py_strip err in
      if contains "Device or resource busy" err || contains "EBUSY" err then Some "BUSY"
      else match splitlines err with line :: _ => Some line | [] => Some "unknown error" end
  end%string.

(** The best that is offered for the wanted stream. *)
Definition format_of (formats : list PixelFormat) (s : StreamSpec) : list PixelFormat :=
  List.filter (fun f => String.eqb (pf_format f) (pixel_format s)) formats.
Definition sizes_of (formats : list PixelFormat) (s : StreamSpec) : list FrameSize :=
  List.filter (fun z => (fs_width z =? st_width s) && (fs_height z =? st_height s))
    (flat_map pf_sizes (format_of formats s)).
Definition rate_offered (formats : list PixelFormat) (s : StreamSpec) : bool :=
  existsb (fun z => existsb (fun q => Qltb (Qabs (q - inject_Z (st_fps s))) (1 # 2)) (fs_fps z)) (sizes_of formats s).

Definition v4l2_status (device : string) (n : nat) : Status :=
  let formats := list_formats device n in
  let s := stream ACTIVE_INSTANCE in
  match formats with
  | [] => StFail
  | _ =>
      if negb (existsb (fun f => String.eqb (pf_format f) (pixel_format s)) formats) then StFail
      else match sizes_of formats s with
           | [] => StFail
           | _ =>
               if negb (rate_offered formats s) then StWarn
               else match capture_test device n with
                    | None => StOk
                    | Some reason => if contains "BUSY" reason || contains "busy" reason then StOk else StFail
                    end
           end
  end.

(** [ctx.get("v4l_dev") or DEV_SYMLINK] *)
Definition device_of (ctx : dict json) : string :=
  match dget ctx "v4l_dev" with
  | Some (JStr s) => if String.eqb s EmptyString then DEV_SYMLINK else s
  | _ => DEV_SYMLINK
  end.

Definition check_v4l2 : CheckFn := reading (fun ctx n h =>
  match which n "v4l2-ctl" with
  | None => result "v4l2" StFail
  | Some _ => result "v4l2" (v4l2_status (device_of ctx) n)
  end).

(** ** [c09_reset_tools.py] *)
Definition HW_RESET_SCRIPT : string := (BRINGUP_HOME ++ "/hw_reset_realsense.py")%string.

(** [_shebang_python] *)
Definition shebang_python (script : string) (n : nat) (h : Host) : option string :=
  t ← read_host_file script n h;
  let first := py_strip (List.hd ""%string (split "010" t)) in
  if startswith first "#!" then
    match py_words (str (drop 2 (chars first))) with
    | [] => None
    | interp :: rest =>
        match rest with
        | arg :: _ => if endswith interp "/env" then which n arg else if is_file interp h then Some interp else None
        | [] => if is_file interp h then Some interp else None
        end
    end
  else None.

(** [_can_import_module(python, "pyrealsense2")] *)
Definition can_import (python : string) (n : nat) : bool :=
  match host_answer n [python; "-c"; "import pyrealsense2; print('ok')"]%string with
  | Exited 0 out _ => contains "ok" out
  | _ => false
  end.

(** The severity grows with the findings, in the order of the check. *)
Definition reset_tools_status (sysfs : option string) (n : nat) (h : Host) : Status :=
  let s1 := match which n "usbreset" with Some _ => StOk | None => StWarn end in
  let s2 := match sysfs with Some _ => s1 | None => StWarn end in
  let '(s3, python) :=
    if negb (is_file HW_RESET_SCRIPT h) then (StFail, None)
    else
      let s := if executable n HW_RESET_SCRIPT then s2 else StWarn in
      match shebang_python HW_RESET_SCRIPT n h with None => (StWarn, None) | Some p => (s, Some p) end in
  if can_import (default sys_executable python) n then s3 else StFail.

Definition check_reset_tools : CheckFn := reading (fun ctx n h =>
  result "reset_tools" (reset_tools_status (sysfs_of ctx) n h)).

(** ** [c10_smoke.py] *)
Definition RS_STREAM_SCRIPT : string := "/usr/local/bin/rs-stream.sh".
Definition RUN_DIR : string := "/run/realsense".
Definition SERVICE_NAME : string := "realsense-mux.service".

(** [_has_libx264] *)
Definition has_libx264 (n : nat) : bool :=
  match host_answer n ["ffmpeg"; "-hide_banner"; "-encoders"]%string with
  | Exited 0 out _ => contains "libx264" out
  | _ => false
  end.

(** [_systemd_service_loaded]: the exit code is not looked at. *)
Definition service_loaded (name : string) (n : nat) : bool :=
  match host_answer n ["systemctl"; "show"; name; "-p"; "LoadState"; "--value"]%string with
  | Exited _ out _ => String.eqb (py_strip out) "loaded"
  | _ => false
  end.

(** A warning does not lower a failure. *)
Definition warned (s : Status) : Status := if bool_decide (s = StFail) then s else StWarn.

Definition smoke_status (n : nat) (h : Host) : Status :=
  let s1 := if has_libx264 n then StOk else StFail in
  let s2 := if negb (is_file RS_STREAM_SCRIPT h) then StFail
            else if executable n RS_STREAM_SCRIPT then s1 else warned s1 in
  let s3 := if is_dir n RUN_DIR then s2 else warned s2 in
  if service_loaded SERVICE_NAME n then s3 else StFail.

Definition check_smoke : CheckFn := reading (fun ctx n h =>
  match which n "ffmpeg" with
  | None => result "smoke" StFail
  | Some _ => result "smoke" (smoke_status n h)
  end).

(** ** When the checks pass *)
Lemma smoke_ok n h :
  smoke_status n h = StOk ↔
  has_libx264 n = true ∧ is_file RS_STREAM_SCRIPT h = true ∧ executable n RS_STREAM_SCRIPT = true ∧
  is_dir n RUN_DIR = true ∧ service_loaded SERVICE_NAME n = true.
Proof.
  unfold smoke_status, warned. destruct (has_libx264 n), (is_file _ h), (executable _ _), (is_dir _ _), (service_loaded _ _);
    simpl; naive_solver.
Qed.

Lemma reset_tools_ok sysfs n h :
  reset_tools_status sysfs n h = StOk ↔
  which n "usbreset" ≠ None ∧ sysfs ≠ None ∧ is_file HW_RESET_SCRIPT h = true ∧
  executable n HW_RESET_SCRIPT = true ∧
  ∃ python, shebang_python HW_RESET_SCRIPT n h = Some python ∧ can_import python n = true.
Proof.
  unfold reset_tools_status. split.
  - destruct (which n "usbreset"), sysfs, (is_file _ h), (executable _ _); simpl;
      destruct (shebang_python _ n h) as [python|]; simpl; intros H; repeat case_match; try done.
    split_and!; [done..|eauto].
  - intros (Hw & Hs & -> & -> & python & Hp & Hi). rewrite Hp. simpl. rewrite Hi.
    destruct (which n "usbreset"), sysfs; done.
Qed.

(** The video check passes only when the wanted format, size and rate are printed. *)
Lemma v4l2_ok device n :
  v4l2_status device n = StOk →
  ∃ f z q, f ∈ list_formats device n ∧ pf_format f = pixel_format (stream ACTIVE_INSTANCE) ∧ z ∈ pf_sizes f ∧
    fs_width z = st_width (stream ACTIVE_INSTANCE) ∧ fs_height z = st_height (stream ACTIVE_INSTANCE) ∧
    q ∈ fs_fps z ∧ (Qabs (q - inject_Z (st_fps (stream ACTIVE_INSTANCE))) < 1 # 2)%Q.
Proof.
  unfold v4l2_status. set (formats := list_formats device n). set (s := stream ACTIVE_INSTANCE).
  destruct (rate_offered formats s) eqn:Hr; [|by repeat case_match]. intros _.
  apply existsb_exists in Hr as (z & Hz & Hr). apply existsb_exists in Hr as (q & Hq & Hr).
  apply filter_In in Hz as [Hz Hwh]. apply in_flat_map in Hz as (f & Hf & Hz). apply filter_In in Hf as [Hf Hn].
  apply andb_true_iff in Hwh as [Hw Hh]. exists f, z, q. rewrite !list_elem_of_In.
  split_and!; [done|by apply String.eqb_eq|done|lia|lia|done|by apply Qltb_lt].
Qed.
End probes.

Definition out_line (s : string) : string := (s ++ String "010" EmptyString)%string.

(** What the program prints for two formats; the rate after the second format's name
    goes to the size of the first. *)
Example parse_formats_ex :
  parse_formats (out_line "ioctl: VIDIOC_ENUM_FMT" ++ out_line "	[0]: 'YUYV' (YUYV 4:2:2)"
    ++ out_line "		Size: Discrete 640x480" ++ out_line "			Interval: Discrete 0.033s (30.000 fps)"
    ++ out_line "			Interval: Discrete 0.067s (15.000 fps)" ++ out_line "	[1]: 'MJPG' (Motion-JPEG, compressed)"
    ++ out_line "			Interval: Discrete 0.1s (10 fps)")%string
  = [mkPixelFormat "MJPG" []; mkPixelFormat "YUYV" [mkFrameSize 640 480 [30000 # 1000; 15000 # 1000; 10 # 1]]]%string.
Proof. vm_compute. reflexivity. Qed.
