(* ===== verification/BringupApi.v ===== *)
(** * The camera layer's interface ([camera_bringup/api.py], [cli.py], [safe_mode.py])

    The status of the layer from a cached pass over the checks, its guarantees, the
    automatic recovery that runs every fixer, the SAFE mode that forbids it, and the
    commands of the command line. Reports are lists of names; their texts are not
    modelled. *)
From Stdlib Require Import Ascii.
From S2P Require Import Prelude.
From S2P Require Import Hoare.
From S2P Require Import PyVal.
From S2P Require Import PyStr.
From S2P Require Import FileStore.
From S2P Require Import BringupHost.
From S2P Require Import BringupChecks.
From S2P Require Import BringupProbes.

(** The clock and the lifetime of the cache. *)
Class LayerEnv := {
  monotonic : nat → Q;
  STATUS_CACHE_TTL : Q;
}.

Record Layer := mkLayer {
  l_host : Host;
  l_cache : option (list CheckResult * Q);      (* the last pass and its time *)
}.

Inductive LayerStatus := HEALTHY | DRIFTED | DEGRADED | SAFE | BROKEN | UNKNOWN.
#[export] Instance LayerStatus_eq_dec : EqDecision LayerStatus.
Proof. solve_decision. Defined.

(** A name and what a check of that name may say for it to hold. *)
Definition GUARANTEES : list (string * (string * list Status)) :=
  [("CAMERA_PRESENT", ("usb_enumerate", [StOk; StWarn])); ("SINGLE_D435I", ("usb_enumerate", [StOk; StWarn]));
   ("USB_POWER_LOCKED_ON", ("usb_power", [StOk])); ("UVCVIDEO_QUIRKS_OK", ("uvcvideo", [StOk]));
   ("UDEV_RULE_INSTALLED", ("udev", [StOk])); ("DEV_CAM_RGB_VALID", ("dev_symlinks", [StOk]));
   ("V4L2_CAPTURE_READY", ("v4l2", [StOk])); ("FIRMWARE_NOT_TOO_OLD", ("firmware", [StOk]));
   ("BANDWIDTH_FITS_USB", ("bandwidth", [StOk; StWarn])); ("RESET_TOOLS_AVAILABLE", ("reset_tools", [StOk]));
   ("ENCODER_PREREQS_OK", ("smoke", [StOk])); ("IDENTITY_MATCHES_BASELINE", ("fingerprint", [StOk; StWarn]))]%string.

(** The results that need a person. *)
Definition HUMAN_REQUIRED : list (string * list Status) :=
  [("usb_enumerate", [StFail; StWarn]); ("fingerprint", [StFail]); ("firmware", [StWarn]);
   ("bandwidth", [StWarn; StFail])]%string.

Inductive reason := NeedsHuman (check : string) | ExitSafeMode.
Inductive issue := Remaining (check : string) | SafeModeBlocks.

Record RecoveryResult := mkRecovery {
  rv_attempted : bool; rv_applied : list string; rv_skipped : list string; rv_failed : list string;
  rv_unfixed : list string; rv_remaining : list issue; rv_human : list reason;
}.

Definition is_nil {A} (l : list A) : bool := match l with [] => true | _ => false end.

Definition fully_recovered (r : RecoveryResult) : bool := rv_attempted r && is_nil (rv_remaining r).
Definition needs_attention (r : RecoveryResult) : bool :=
  negb (is_nil (rv_failed r)) || negb (is_nil (rv_unfixed r)) || negb (is_nil (rv_human r)).

Record Identity := mkIdentity {
  id_vendor : string; id_product : string; id_serial : json; id_firmware : json;
  id_name : json; id_line : json; id_usb : json;
}.

Record CalibrationIntrinsics := mkIntrinsics {
  ci_sensor : json; ci_width : json; ci_height : json; ci_fx : Q; ci_fy : Q; ci_ppx : Q; ci_ppy : Q;
  ci_model : json; ci_coeffs : json;
}.

(** [to_camera_matrix] *)
Definition to_camera_matrix (c : CalibrationIntrinsics) : list (list Q) :=
  [[ci_fx c; 0; ci_ppx c]; [0; ci_fy c; ci_ppy c]; [0; 0; 1]]%Q.

Record StreamProfile := mkProfile {
  sp_device : string; sp_format : string; sp_width : Z; sp_height : Z; sp_fps : Z;
}.

(** [encoder_kwargs] *)
Definition encoder_kwargs (p : StreamProfile) : string * Z * string :=
  (pretty (sp_width p) ++ "x" ++ pretty (sp_height p), sp_fps p, lower (sp_format p))%string.

Record Snapshot := mkSnapshot {
  sn_status : LayerStatus; sn_total : Z; sn_counts : list (Status * Z); sn_identity : option Identity;
  sn_baseline_serial : json; sn_human : list reason;
}.

(** ** Judging a pass *)
Definition has_fixer (names : list string) (r : CheckResult) : bool := mem_str (cr_name r) names.

Definition FIXER_NAMES : list string := ["usb_power"; "udev"; "reset_tools"; "fingerprint"]%string.

(** [_derive_status] *)
Definition derive_status (results : list CheckResult) : LayerStatus :=
  if has_status StError results then UNKNOWN
  else
    let fails := List.filter (fun r => bool_decide (cr_status r = StFail)) results in
    let warns := List.filter (fun r => bool_decide (cr_status r = StWarn)) results in
    if negb (is_nil fails) then if existsb (has_fixer FIXER_NAMES) fails then DRIFTED else BROKEN
    else if negb (is_nil warns) then if existsb (has_fixer FIXER_NAMES) warns then DRIFTED else DEGRADED
    else HEALTHY.

(** [{r.name: r.status for r in results}] *)
Definition check_status (results : list CheckResult) : dict Status :=
  fold_left (fun d r => dset d (cr_name r) (cr_status r)) results [].

Definition accepted_by (results : list CheckResult) (c : string * list Status) : bool :=
  match dget (check_status results) c.1 with
  | Some s => existsb (fun a => bool_decide (a = s)) c.2
  | None => false
  end.

(** The guarantees of a pass. *)
Definition guarantees_of (results : list CheckResult) : list (string * bool) :=
  map (fun '(g, c) => (g, accepted_by results c)) GUARANTEES.

Definition all_satisfied (g : list (string * bool)) : bool := forallb snd g.
Definition unsatisfied (g : list (string * bool)) : list string :=
  map fst (List.filter (fun x => negb x.2) g).

(** [_collect_human_required] *)
Definition collect_human_required (results : list CheckResult) : list reason :=
  flat_map (fun r =>
    let listed := default [] (dget HUMAN_REQUIRED (cr_name r)) in
    if existsb (fun s => bool_decide (s = cr_status r)) listed then
      if negb (has_fixer FIXER_NAMES r) then [NeedsHuman (cr_name r)]
      else if String.eqb (cr_name r) "fingerprint" && bool_decide (cr_status r = StFail)
      then [NeedsHuman (cr_name r)] else []
    else []) results.

Section layer.
Context {E : HostEnv} {B : BringupEnv} {P : ProbeEnv} {L : LayerEnv}.

Definition on_machine {A} (m : M Host A) : M Layer A :=
  zoom l_host (fun h l => mkLayer h (l_cache l)) m.

(** ** SAFE mode *)
Definition safe_marker : string :=
  (FINGERPRINT_DIR ++ "/" ++ instance_id ACTIVE_INSTANCE ++ ".safe")%string.

Definition in_safe_mode (h : Host) : bool := is_file safe_marker h.

(** [safe_mode_info]: an unreadable marker has no time and no reason. *)
Definition safe_mode_info : M Host (option json) :=
  n ← host_tick; h ← get;
  mret (match h_files h !! safe_marker with
        | None => None
        | Some f =>
            Some (if read_denied n safe_marker then JObj []
                  else match hf_text f with TxDoc j => j | _ => JObj [] end)
        end).

Definition safe_doc (why : string) (ts set_by : string) : json :=
  JObj [("reason", JStr why); ("ts", JStr ts); ("set_by", JStr set_by);
        ("instance_id", JStr (instance_id ACTIVE_INSTANCE))]%string.

Definition enter_safe_mode (why : string) : M Host json :=
  n ← host_tick;
  let doc := safe_doc why (host_time n) (hostname n) in
  host_sys ;;
  replace_text safe_marker (TxDoc doc) ;;
  mret doc.

Definition exit_safe_mode : M Host bool :=
  h ← get;
  if in_safe_mode h then
    host_sys ;; modify (fun h => set_files (delete safe_marker (h_files h)) h) ;; mret true
  else mret false.

(** ** Passes *)
Definition ALL_CHECKS : list (string * CheckFn) :=
  [("usb_enumerate", check_usb_enumerate); ("usb_power", check_usb_power); ("uvcvideo", check_uvcvideo);
   ("udev", check_udev); ("dev_symlinks", check_dev_symlinks); ("v4l2", check_v4l2);
   ("firmware", check_firmware); ("bandwidth", check_bandwidth); ("reset_tools", check_reset_tools);
   ("smoke", check_smoke); ("fingerprint", check_fingerprint)]%string.

(** [get_check] *)
Definition get_check (name : string) : res CheckFn :=
  match dget ALL_CHECKS name with Some fn => Ok fn | None => fail EKey end.

Fixpoint run_checks (checks : list (string * CheckFn)) : M Host (list CheckResult) :=
  match checks with
  | [] => mret []
  | (name, fn) :: rest => r ← safe_run name fn; rs ← run_checks rest; mret (r :: rs)
  end.

(** A pass starts from an empty context. *)
Definition fresh_pass (checks : list (string * CheckFn)) : M Host (list CheckResult) :=
  modify (set_ctx []) ;; run_checks checks.

(** [_CheckResultCache.get] *)
Definition cached : M Layer (option (list CheckResult)) :=
  n ← on_machine host_tick; l ← get;
  mret (match l_cache l with
        | None => None
        | Some (results, at_) => if Qltb STATUS_CACHE_TTL (monotonic n - at_) then None else Some results
        end).

Definition invalidate_cache : M Layer unit := modify (fun l => mkLayer (l_host l) None).

Definition run_all_checks (use_cache : bool) : M Layer (list CheckResult) :=
  c ← (if use_cache then cached else mret None);
  match c with
  | Some results => mret results
  | None =>
      results ← on_machine (fresh_pass ALL_CHECKS);
      n ← on_machine host_tick;
      modify (fun l => mkLayer (l_host l) (Some (results, monotonic n))) ;;
      mret results
  end.

(** ** Status and reports *)
Definition status : M Layer LayerStatus :=
  l ← get;
  results ← run_all_checks true;
  mret (if in_safe_mode (l_host l) then if has_status StError results then UNKNOWN else SAFE
        else derive_status results).

Definition is_ready : M Layer bool :=
  s ← status; mret (bool_decide (s = HEALTHY) || bool_decide (s = DEGRADED)).

Definition is_usable : M Layer bool :=
  s ← status; mret (bool_decide (s = HEALTHY) || bool_decide (s = DRIFTED) || bool_decide (s = DEGRADED)).

Definition guarantees : M Layer (list (string * bool)) :=
  results ← run_all_checks true; mret (guarantees_of results).

Definition requires_human : M Layer (list reason) :=
  results ← run_all_checks true; mret (collect_human_required results).

Definition identity : M Layer (option Identity) :=
  n ← on_machine host_tick;
  dev ← lift (primary_device n);
  match dev with
  | None => mret None
  | Some d =>
      serial ← lift (jget d "serial" JNull); firmware ← lift (jget d "firmware" JNull);
      name ← lift (jget d "name" JNull); line ← lift (jget d "product_line" JNull);
      usb ← lift (jget d "usb_type" JNull);
      let hw := hardware ACTIVE_INSTANCE in
      mret (Some (mkIdentity (usb_vendor_id hw) (usb_product_id hw) serial firmware name line usb))
  end.

Definition baseline_identity : M Layer (option json) :=
  n ← on_machine host_tick; l ← get; mret (load_baseline n (l_host l)).

Definition stream_profile : StreamProfile :=
  let s := stream ACTIVE_INSTANCE in mkProfile DEV_SYMLINK (pixel_format s) (st_width s) (st_height s) (st_fps s).

(** [float(cal_data.get(k, 0))] *)
Definition float_field (d : json) (k : string) : res Q := v ← jget d k (JInt 0); to_float v.

Definition intrinsics_of (d : json) : res CalibrationIntrinsics :=
  sensor ← jget d "sensor" (JStr ""); width ← jget d "width" (JInt 0); height ← jget d "height" (JInt 0);
  fx ← float_field d "fx"; fy ← float_field d "fy"; ppx ← float_field d "ppx"; ppy ← float_field d "ppy";
  model ← jget d "model" (JStr ""); coeffs ← jget d "coeffs" (JArr []);
  Ok (mkIntrinsics sensor width height fx fy ppx ppy model coeffs).

Definition calibration (stream_type : string) : M Layer (option CalibrationIntrinsics) :=
  baseline ← baseline_identity;
  match baseline with
  | None => mret None
  | Some b =>
      d ← lift (cal ← jget b "calibration" (JObj []); jget cal stream_type JNull);
      if truthy d then c ← lift (intrinsics_of d); mret (Some c) else mret None
  end.

Definition available_calibrations : M Layer (list string) :=
  baseline ← baseline_identity;
  match baseline with
  | None => mret []
  | Some b =>
      cal ← lift (jget b "calibration" (JObj []));
      match cal with JObj d => mret (dkeys d) | _ => throw EAttribute end
  end.

Definition count_status (s : Status) (results : list CheckResult) : Z :=
  Z.of_nat (length (List.filter (fun r => bool_decide (cr_status r = s)) results)).

Definition layer_snapshot : M Layer Snapshot :=
  results ← run_all_checks true;
  ident ← identity;
  baseline ← baseline_identity;
  serial ← lift (match baseline with
                 | Some b => if truthy b then cam ← jget b "camera" (JObj []); jget cam "serial" JNull
                             else Ok JNull
                 | None => Ok JNull
                 end);
  mret (mkSnapshot (derive_status results) (Z.of_nat (length results))
          (map (fun s => (s, count_status s results)) [StOk; StWarn; StFail; StSkip; StError])
          ident serial (collect_human_required results)).

(** ** Recovery *)
Definition run_one (dry_run : bool) (fx : Fixer) : M Host FixerResult :=
  fn ← lift (get_check (fx_name fx)); run_fixer fx fn dry_run false.

Fixpoint run_fixers (dry_run : bool) (fixers : list Fixer) : M Host (list FixerResult) :=
  match fixers with
  | [] => mret []
  | fx :: rest => r ← run_one dry_run fx; rs ← run_fixers dry_run rest; mret (r :: rs)
  end.

Definition names_with (s : FixerStatus) (frs : list FixerResult) : list string :=
  map fr_name (List.filter (fun r => bool_decide (fr_status r = s)) frs).

Definition remaining_of (results : list CheckResult) : list issue :=
  map (fun r => Remaining (cr_name r))
    (List.filter (fun r => bool_decide (cr_status r = StWarn) || bool_decide (cr_status r = StFail)) results).

(** The report that a recovery in SAFE mode gives. *)
Definition blocked : RecoveryResult := mkRecovery false [] [] [] [] [SafeModeBlocks] [ExitSafeMode].

Definition attempt_recovery (dry_run : bool) : M Layer RecoveryResult :=
  l ← get;
  if in_safe_mode (l_host l) && negb dry_run then
    info ← on_machine safe_mode_info;
    lift (match info with
          | Some i => if truthy i then jget i "ts" JNull ;; jget i "reason" JNull ;; Ok blocked else Ok blocked
          | None => Ok blocked
          end)
  else
    invalidate_cache ;;
    run_all_checks false ;;
    frs ← on_machine (run_fixers dry_run ALL_FIXERS);
    post ← (if dry_run then mret []
            else invalidate_cache ;; run_all_checks false);
    final ← (if is_nil post then run_all_checks true else mret post);
    mret (mkRecovery (negb dry_run) (names_with FxApplied frs) (names_with FxSkipped frs)
            (names_with FxFailed frs) (names_with FxUnfixed frs) (remaining_of post)
            (collect_human_required final)).

(** ** The command line *)

(** [cmd_verify]: the exit code; a name that is unknown or given twice is refused. *)
Definition cmd_verify (only : list string) : M Host Z :=
  let checks := if is_nil only then ALL_CHECKS
                else List.filter (fun c => mem_str c.1 only) ALL_CHECKS in
  if negb (is_nil only) && negb (Nat.eqb (length checks) (length only)) then mret 2
  else results ← fresh_pass checks; mret (exit_code results).

Fixpoint apply_fixers (dry_run continue_on_fail : bool) (fixers : list Fixer) : M Host (list FixerResult) :=
  match fixers with
  | [] => mret []
  | fx :: rest =>
      r ← run_one dry_run fx;
      if bool_decide (fr_status r = FxFailed) && negb continue_on_fail then mret [r]
      else rs ← apply_fixers dry_run continue_on_fail rest; mret (r :: rs)
  end.

Definition cmd_apply (only : list string) (dry_run continue_on_fail : bool) : M Host Z :=
  fresh_pass ALL_CHECKS ;;
  if negb (is_nil only) && existsb (fun n => negb (mem_str n FIXER_NAMES)) only then mret 2
  else
    let selected := if is_nil only then ALL_FIXERS
                    else List.filter (fun fx => mem_str (fx_name fx) only) ALL_FIXERS in
    if is_nil selected then mret 0
    else rs ← apply_fixers dry_run continue_on_fail selected; mret (fixer_exit_code rs).

Inductive safe_action := SafeEnter (why : option string) | SafeExit | SafeStatus.

Definition cmd_safe (a : safe_action) : M Host Z :=
  match a with
  | SafeEnter why =>
      enter_safe_mode (match why with
                       | Some w => if String.eqb w EmptyString then "manual" else w
                       | None => "manual" end)%string ;; mret 0
  | SafeExit => exit_safe_mode ;; mret 0
  | SafeStatus => h ← get; if in_safe_mode h then safe_mode_info ;; mret 0 else mret 1
  end.
End layer.

(** ** SAFE mode forbids recovery *)
Section safe.
Context {E : HostEnv} {B : BringupEnv} {P : ProbeEnv} {L : LayerEnv}.

Definition idle (l l' : Layer) : Prop := untouched (l_host l) (l_host l').
#[export] Instance idle_preorder : PreOrder idle.
Proof. split; unfold idle; [done|]. intros l1 l2 l3 H1 H2. by etrans. Qed.

Lemma on_machine_idle {A} (m : M Host A) : preserves untouched m → preserves idle (on_machine m).
Proof. intros Hm l. unfold on_machine, zoom, idle. specialize (Hm (l_host l)). by destruct (m (l_host l)). Qed.
Hint Resolve on_machine_idle : pres.

Lemma run_checks_untouched checks : preserves untouched (run_checks checks).
Proof. induction checks as [|[name fn] checks IH]; simpl; pres. Qed.
Lemma fresh_pass_untouched checks : preserves untouched (fresh_pass checks).
Proof. unfold fresh_pass. apply pres_bind; [apply _|by apply pres_modify|]. intros _. apply run_checks_untouched. Qed.
Hint Resolve fresh_pass_untouched : pres.

Lemma run_all_checks_idle use_cache : preserves idle (run_all_checks use_cache).
Proof. unfold run_all_checks, cached. pres. Qed.
Hint Resolve run_all_checks_idle : pres.

Lemma status_idle : preserves idle status.
Proof. unfold status. pres. Qed.

Lemma status_in_safe_mode l s l' :
  in_safe_mode (l_host l) = true → status l = (Ok s, l') → s = SAFE ∨ s = UNKNOWN.
Proof.
  intros Hs. unfold status. erewrite bind_ok by done. intros (results & l1 & _ & H)%bind_ok_inv.
  apply ret_ok_inv in H as [-> _]. rewrite Hs. destruct (has_status _ _); auto.
Qed.

(** While the marker is there, a recovery does nothing to the host and says so, and the
    layer is neither ready nor usable, whatever the checks say. *)
Theorem safe_mode_inert l :
  in_safe_mode (l_host l) = true →
  (let '(r, l') := attempt_recovery false l in idle l l' ∧ ∀ report, r = Ok report → report = blocked) ∧
  (∀ s l', status l = (Ok s, l') → s = SAFE ∨ s = UNKNOWN) ∧
  (∀ b l', is_ready l = (Ok b, l') → b = false) ∧ (∀ b l', is_usable l = (Ok b, l') → b = false).
Proof.
  intros Hs. split_and!.
  - unfold attempt_recovery. erewrite bind_ok by done. rewrite Hs. change (true && negb false) with true. cbv iota.
    assert (Hi : preserves idle (on_machine safe_mode_info)) by (apply on_machine_idle; unfold safe_mode_info; pres).
    specialize (Hi l). unfold mbind at 1, M_bind at 1. destruct (on_machine safe_mode_info l) as [[info|e] l']; [|by split].
    unfold lift. split; [done|]. intros report. destruct info as [i|]; [|by intros [= <-]].
    destruct (truthy i); [|by intros [= <-]]. intros (x & _ & H)%res_bind_ok.
    apply res_bind_ok in H as (y & _ & [= <-]). done.
  - intros s l'. by apply status_in_safe_mode.
  - intros b l' (s & l1 & Hst & H)%bind_ok_inv. apply ret_ok_inv in H as [-> _].
    by apply status_in_safe_mode in Hst as [-> | ->].
  - intros b l' (s & l1 & Hst & H)%bind_ok_inv. apply ret_ok_inv in H as [-> _].
    by apply status_in_safe_mode in Hst as [-> | ->].
Qed.

(** ** What a healthy layer guarantees *)
Definition CHECK_NAMES : list string :=
  ["usb_enumerate"; "usb_power"; "uvcvideo"; "udev"; "dev_symlinks"; "v4l2"; "firmware"; "bandwidth";
   "reset_tools"; "smoke"; "fingerprint"]%string.

Lemma check_names : map fst ALL_CHECKS = CHECK_NAMES.
Proof. done. Qed.

Lemma has_status_false s results :
  has_status s results = false ↔ Forall (λ r, cr_status r ≠ s) results.
Proof.
  unfold has_status. rewrite <- not_true_iff_false, existsb_exists, Forall_forall. split.
  - intros H r Hr Hs. apply H. exists r. split; [by apply list_elem_of_In|]. by apply bool_decide_eq_true.
  - intros H (r & Hr & Hs%bool_decide_eq_true). by apply (H r); [apply list_elem_of_In|].
Qed.

Lemma filter_nil_status s results :
  is_nil (List.filter (λ r, bool_decide (cr_status r = s)) results) = true ↔ Forall (λ r, cr_status r ≠ s) results.
Proof.
  induction results as [|r results IH]; simpl; [done|]. rewrite Forall_cons, <- IH.
  case_bool_decide; simpl; naive_solver.
Qed.

Lemma derive_cases results :
  match derive_status results with
  | UNKNOWN => ∃ r, r ∈ results ∧ cr_status r = StError
  | BROKEN => ∃ r, r ∈ results ∧ cr_status r = StFail
  | HEALTHY => Forall (λ r, cr_status r ≠ StError ∧ cr_status r ≠ StFail ∧ cr_status r ≠ StWarn) results
  | SAFE => False
  | _ => True
  end.
Proof.
  unfold derive_status. destruct (has_status StError results) eqn:He.
  { unfold has_status in He. apply existsb_exists in He as (r & Hr & Hs%bool_decide_eq_true).
    exists r. by rewrite list_elem_of_In. }
  apply has_status_false in He. destruct (is_nil (List.filter _ results)) eqn:Hf; simpl.
  - apply filter_nil_status in Hf.
    destruct (is_nil (List.filter (λ r, bool_decide (cr_status r = StWarn)) results)) eqn:Hw; simpl.
    + apply filter_nil_status in Hw. rewrite !Forall_forall in *. auto.
    + by destruct (existsb _ _).
  - destruct (existsb _ _); [done|]. destruct (List.filter _ results) as [|r fails] eqn:Hl; [done|].
    exists r. rewrite list_elem_of_In.
    assert (Hr : In r (List.filter (λ r, bool_decide (cr_status r = StFail)) results)) by (rewrite Hl; by left).
    apply filter_In in Hr as [Hr Hs%bool_decide_eq_true]. done.
Qed.

(** A pass with one result of each check: when the layer is healthy and no check was
    skipped, all twelve guarantees hold; when all hold, the layer is neither broken nor
    unknown. *)
Theorem healthy_guarantees results :
  map cr_name results = map fst ALL_CHECKS →
  (derive_status results = HEALTHY → has_status StSkip results = false →
   all_satisfied (guarantees_of results) = true) ∧
  (all_satisfied (guarantees_of results) = true → derive_status results ∈ [HEALTHY; DRIFTED; DEGRADED]).
Proof.
  intros Hnames. rewrite check_names in Hnames. pose proof (derive_cases results) as Hd.
  do 11 (destruct results as [|[?nm ?st] results]; [done|]; simpl in Hnames; injection Hnames as -> Hnames).
  destruct results; [|done]. split.
  - intros Hh Hskip. rewrite Hh in Hd. apply has_status_false in Hskip.
    repeat match goal with
    | H : Forall _ (_ :: _) |- _ => apply Forall_cons in H as [? ?]
    end. simpl in *.
    assert (Hok : ∀ s, s ≠ StError ∧ s ≠ StFail ∧ s ≠ StWarn → s ≠ StSkip → s = StOk) by (intros []; naive_solver).
    repeat match goal with
    | H : ?s ≠ StError ∧ _ , H' : ?s ≠ StSkip |- _ => rewrite (Hok s H H') in *; clear H H'
    end. reflexivity.
  - intros Hall. unfold all_satisfied, guarantees_of in Hall.
    set (rs := [_; _; _; _; _; _; _; _; _; _; _]) in *.
    assert (Hfine : Forall (λ r, cr_status r = StOk ∨ cr_status r = StWarn) rs).
    { unfold rs, accepted_by, check_status in Hall. simpl in Hall.
      repeat (apply andb_true_iff in Hall as [? Hall]).
      unfold rs. rewrite !Forall_cons, Forall_nil. cbn [cr_status]. clear Hd.
      split_and!; try done; match goal with |- ?s = StOk ∨ _ => by destruct s; auto end. }
    rewrite Forall_forall in Hfine.
    clear -Hd Hfine. destruct (derive_status rs); [repeat constructor..|done| |];
      destruct Hd as (r & Hr & Hs); destruct (Hfine r Hr); congruence.
Qed.
End safe.

(** ** What a recovery does and reports *)
Section recovery.
Context {E : HostEnv} {B : BringupEnv} {P : ProbeEnv} {L : LayerEnv}.

(** A fixer's result keeps the fixer's promise. *)
Definition kept (dry_run : bool) (fx : Fixer) (fr : FixerResult) : Prop :=
  fr_name fr = fx_name fx ∧ ∃ plan new, fixer_promise plan dry_run fr new.

(** Effects are made under the lock only, and the lock is free again. *)
Definition under_lock (h h' : Host) : Prop :=
  h_locked h' = false ∧ ∃ new, h_effects h' = h_effects h ++ map (pair true) new.

Lemma under_lock_refl h : h_locked h = false → under_lock h h.
Proof. intros H. split; [done|]. exists []. by rewrite app_nil_r. Qed.

Lemma under_lock_trans h1 h2 h3 : under_lock h1 h2 → under_lock h2 h3 → under_lock h1 h3.
Proof.
  intros (_ & n1 & H1) (Hl & n2 & H2). split; [done|]. exists (n1 ++ n2). by rewrite H2, H1, map_app, app_assoc.
Qed.

Lemma untouched_under h h' : h_locked h = false → untouched h h' → under_lock h h'.
Proof. intros Hl (_ & He & Hl'). split; [congruence|]. exists []. by rewrite He, app_nil_r. Qed.

Lemma run_one_spec dry_run fx h :
  h_locked h = false →
  wp (run_one dry_run fx) (λ r h', under_lock h h' ∧ ∀ fr, r = Ok fr → kept dry_run fx fr) h.
Proof.
  intros Hl. unfold run_one. apply wp_bind, wp_lift. destruct (get_check (fx_name fx)) as [fn|e]; simpl.
  2:{ split; [by apply under_lock_refl|done]. }
  eapply wp_mono; [by apply run_fixer_contract|]. intros r h' (Hl' & new & He & Hr). split; [split; [done|by exists new]|].
  intros fr ->. destruct Hr as (Hn & plan & Hp & _). split; eauto.
Qed.

Lemma run_fixers_spec dry_run fixers h :
  h_locked h = false →
  wp (run_fixers dry_run fixers) (λ r h', under_lock h h' ∧ ∀ frs, r = Ok frs → Forall2 (kept dry_run) fixers frs) h.
Proof.
  revert h. induction fixers as [|fx fixers IH]; intros h Hl; simpl.
  { apply wp_ret. split; [by apply under_lock_refl|]. intros frs [= <-]. constructor. }
  apply wp_bind. eapply wp_mono; [by apply run_one_spec|]. intros [fr|e] h1 [H1 Hfr]; simpl; [|by split].
  apply wp_bind. eapply wp_mono; [apply IH, H1|]. intros [frs|e] h2 [H2 Hfrs]; simpl.
  - apply wp_ret. split; [by eapply under_lock_trans|]. intros ? [= <-]. constructor; auto.
  - split; [by eapply under_lock_trans|done].
Qed.

Lemma run_checks_length checks h rs h' : run_checks checks h = (Ok rs, h') → length rs = length checks.
Proof.
  revert h rs h'. induction checks as [|[name fn] checks IH]; intros h rs h'; simpl.
  { by intros [-> _]%ret_ok_inv. }
  intros (r & h1 & _ & H)%bind_ok_inv. apply bind_ok_inv in H as (rs' & h2 & Hrs & H).
  apply ret_ok_inv in H as [-> _]. simpl. f_equal. by eapply IH.
Qed.

(** A pass that does not use the cache fills it. *)
Lemma fresh_results l rs l' :
  run_all_checks false l = (Ok rs, l') → rs ≠ [] ∧ ∃ t, l_cache l' = Some (rs, t).
Proof.
  unfold run_all_checks. erewrite bind_ok by done. intros (rs' & l1 & Hrs & H)%bind_ok_inv.
  apply bind_ok_inv in H as (n & l2 & _ & H). erewrite bind_ok in H by done.
  apply ret_ok_inv in H as [-> ->]. split; [|by eexists].
  unfold on_machine, zoom in Hrs. destruct (fresh_pass ALL_CHECKS (l_host l)) as [r h1] eqn:Hr. injection Hrs as -> _.
  unfold fresh_pass in Hr. erewrite bind_ok in Hr by done. apply run_checks_length in Hr. by destruct rs'.
Qed.

Lemma names_partition frs :
  names_with FxApplied frs ++ names_with FxSkipped frs ++ names_with FxFailed frs ++ names_with FxUnfixed frs
  ≡ₚ map fr_name frs.
Proof.
  unfold names_with. rewrite <- !map_app. apply Permutation_map.
  induction frs as [|fr frs IH]; simpl; [done|].
  revert IH. generalize (List.filter (λ r, bool_decide (fr_status r = FxApplied)) frs) as la,
    (List.filter (λ r, bool_decide (fr_status r = FxSkipped)) frs) as ls,
    (List.filter (λ r, bool_decide (fr_status r = FxFailed)) frs) as lf,
    (List.filter (λ r, bool_decide (fr_status r = FxUnfixed)) frs) as lu.
  intros la ls lf lu <-. pose proof (Permutation_middle la (ls ++ lf ++ lu) fr) as H1.
  pose proof (Permutation_middle ls (lf ++ lu) fr) as H2. pose proof (Permutation_middle lf lu fr) as H3.
  destruct (fr_status fr); simpl; rewrite ?H1, ?H2, ?H3; done.
Qed.

Lemma remaining_iff results n :
  Remaining n ∈ remaining_of results ↔
  ∃ r, r ∈ results ∧ cr_name r = n ∧ (cr_status r = StWarn ∨ cr_status r = StFail).
Proof.
  unfold remaining_of. rewrite list_elem_of_In, in_map_iff. split.
  - intros (r & [= <-] & [Hr Hs%orb_true_iff]%filter_In). exists r. rewrite list_elem_of_In. split_and!; [done..|].
    destruct Hs as [Hs|Hs]; apply bool_decide_eq_true in Hs; auto.
  - intros (r & Hr & <- & Hs). exists r. split; [done|]. apply filter_In. split; [by apply list_elem_of_In|].
    apply orb_true_iff. rewrite !bool_decide_eq_true. done.
Qed.

Lemma fixer_names : map fx_name ALL_FIXERS = FIXER_NAMES.
Proof. done. Qed.

End recovery.
