(* ===== verification/BringupSamples.v ===== *)
(** * Examples of the camera layer

    A host with one instance, the witnesses of the layer's theorems, and what modelling
    showed: a recovery accepts an exchanged or missing camera as the new baseline, and the
    command line does not respect SAFE mode. *)
From S2P Require Import Prelude.
From S2P Require Import PyVal.
From S2P Require Import PyStr.
From S2P Require Import FileStore.
From S2P Require Import BringupHost.
From S2P Require Import BringupChecks.
From S2P Require Import BringupProbes.
From S2P Require Import BringupApi.

#[local] Open Scope string_scope.

(** No call fails; commands succeed and change no file. *)
#[export] Instance sample_host_env : HostEnv := {|
  host_fault _ := false; host_answer _ _ := Exited 0 "" ""; host_effect _ _ fs := fs;
  lock_opens _ := Opened; lock_taken _ := false; host_time _ := "2026-06-20T10:00:00Z"; host_pid := "77";
  BACKUP_DIR := "/srv/backup" |}.

Definition cam_rgb : InstanceSpec :=
  mkInstance "cam-rgb" (mkHardware "8086" "0b3a" "03" None) (mkStreamSpec "YUYV" 640 480 15) 5100 "cam-rgb".

Definition device_with (serial : json) : json :=
  JObj [("serial", serial); ("firmware", JStr "5.16");
        ("calibration", JObj [("color", JObj [("fx", JFloat (27137 # 20)); ("width", JInt 1920);
                                              ("coeffs", JArr [JInt 0; JFloat (1 # 2)])])])].

(** A host whose camera answers the query this way. *)
Definition bringup_with (answer : query_end) : BringupEnv.
Proof.
  refine {| ACTIVE_INSTANCE := cam_rgb; UDEV_RULES_DIR := "/etc/udev/rules.d";
    MODPROBE_CONF := "/etc/modprobe.d/uvcvideo.conf"; FINGERPRINT_DIR := "/var/lib/camera";
    FINGERPRINT_PATH := "/var/lib/camera/cam-rgb.json"; HMAC_SECRET_DIR := "/etc/camera_bringup";
    HMAC_SECRET_PATH := "/etc/camera_bringup/secret.key"; BRINGUP_HOME := "/srv/bringup";
    DEV_SYMLINK := "/dev/cam-rgb"; read_denied _ _ := false; usb_devices _ := []; link_state _ _ := NoPath;
    is_dir _ _ := true; text_chars _ := ""; device_query _ := answer; hostname _ := "pi";
    random_hex _ := "c0ffee"; hmac_sha256 _ _ := "5ead" |}.
  intros key j. split; [reflexivity|discriminate].
Defined.

#[export] Instance sample_probe_env : ProbeEnv := {|
  which _ name := Some ("/usr/bin/" ++ name); executable _ _ := true; sys_executable := "/usr/bin/python3" |}.

#[export] Instance sample_layer_env : LayerEnv := {|
  monotonic n := inject_Z (Z.of_nat n); STATUS_CACHE_TTL := 5 |}.

Definition one_device (serial : string) : query_end :=
  QueryOut (TxDoc (JObj [("devices", JArr [device_with (JStr serial)])])).

(** The baseline of camera A, signed. *)
Definition baseline_a : dict json :=
  [("schema_version", JInt 1);
   ("camera", JObj [("vendor_id", JStr "8086"); ("product_id", JStr "0b3a"); ("serial", JStr "A");
                    ("firmware", JStr "5.16")]);
   ("host", JObj []); ("calibration", JObj []); ("history", JObj [("verify_count", JInt 3)]);
   ("_hmac", JStr "5ead")].

Definition host_files : gmap string hfile :=
  list_to_map [("/var/lib/camera/cam-rgb.json", mkHfile (TxDoc (JObj baseline_a)) 420);
               ("/etc/camera_bringup/secret.key", mkHfile (TxRaw "c0ffee") 384);
               ("/srv/bringup/hw_reset_realsense.py", mkHfile (TxRaw "import sys") 420)].

Definition fresh_host (fs : gmap string hfile) : Host := mkHost 0 fs false [] [].
Definition layer_of (fs : gmap string hfile) : Layer := mkLayer (fresh_host fs) None.

(** The serial of the stored baseline. *)
Definition stored_serial (B : BringupEnv) (h : Host) : option json :=
  b ← load_baseline 0 h;
  match jget b "camera" JNull with Ok c => match jget c "serial" JNull with Ok s => Some s | _ => None end | _ => None end.

(** ** Witnesses *)
Lemma write_file_safe_witness :
  ∃ a' h', execute_action (action "write_file" "/var/lib/camera/cam-rgb.json" (Some (TxRaw "new"))) (fresh_host host_files)
             = (Ok a', h') ∧ ac_status a' = Applied ∧
    replaced "/var/lib/camera/cam-rgb.json" (TxRaw "new") (fresh_host host_files) h' true.
Proof.
  set (a := action "write_file" "/var/lib/camera/cam-rgb.json" (Some (TxRaw "new"))).
  assert (Hst : match execute_action a (fresh_host host_files) with (Ok a', _) => ac_status a' = Applied | _ => False end)
    by (vm_compute; reflexivity).
  pose proof (λ a' h', write_file_safe a (fresh_host host_files) a' h' eq_refl) as H.
  destruct (execute_action a (fresh_host host_files)) as [[a'|e] h']; [|destruct Hst].
  exists a', h'. split_and!; [reflexivity|exact Hst|].
  destruct (H a' h') as [Hr _]; [intros ts; discriminate|intros ts; discriminate|reflexivity|].
  rewrite Hst in Hr. exact Hr.
Defined.

Lemma safe_mode_inert_witness :
  let B := bringup_with (one_device "A") in
  let l := layer_of (<[safe_marker := mkHfile (TxDoc (JObj [])) 420]> host_files) in
  in_safe_mode (l_host l) = true ∧ ∀ b l', is_ready l = (Ok b, l') → b = false.
Proof.
  intros B l. assert (Hs : in_safe_mode (l_host l) = true) by (vm_compute; reflexivity).
  split; [exact Hs|]. exact (proj1 (proj2 (proj2 (safe_mode_inert l Hs)))).
Defined.

Lemma healthy_guarantees_witness :
  let B := bringup_with (one_device "A") in
  let results := map (λ c, mkCheckResult c.1 StOk) ALL_CHECKS in
  derive_status results = HEALTHY ∧ all_satisfied (guarantees_of results) = true.
Proof.
  intros B results. split; [reflexivity|].
  destruct (healthy_guarantees results) as [H _]; [reflexivity|]. apply H; reflexivity.
Defined.

Lemma sample_device_shape : device_shape (device_with (JStr "B")).
Proof.
  eexists. split; [reflexivity|]. split.
  - intros k Hk. rewrite !elem_of_cons in Hk. destruct Hk as [->|[->|Hk]]; [reflexivity..|by apply elem_of_nil in Hk].
  - right. eexists. split; [reflexivity|]. intros st Hk. rewrite !elem_of_cons in Hk.
    destruct Hk as [->|[->|[->|Hk]]]; [|by left|by left|by apply elem_of_nil in Hk].
    right. eexists. split; [reflexivity|]. intros f Hf. unfold INTRINSICS in Hf. rewrite !elem_of_cons in Hf.
    repeat (destruct Hf as [->|Hf]; [reflexivity|]). by apply elem_of_nil in Hf.
Qed.

Lemma rebaseline_settles_witness :
  let B := bringup_with (one_device "B") in
  ∃ t, ∀ m, (check_fingerprint [] 1%nat (fresh_host
     (<["/var/lib/camera/cam-rgb.json" := mkHfile t m]> host_files))).1 = Ok (mkCheckResult "fingerprint" StOk).
Proof.
  intros B. set (h := fresh_host host_files).
  destruct (plan_fingerprint [] 0 h) as [plan|e] eqn:Hplan; [|vm_compute in Hplan; discriminate].
  destruct (rebaseline_settles [] 0 h plan (device_with (JStr "B")) Hplan) as (before & t & _ & H);
    [reflexivity|exact sample_device_shape|reflexivity|].
  exists t. intros m. apply (H 1%nat _ m); [reflexivity..|]. intros secret Hs. exact Hs.
Defined.


(** ** What modelling showed *)

Definition reported {B : BringupEnv} (l : Layer) : list reason := match requires_human l with (Ok rs, _) => rs | _ => [] end.

(** The camera A was exchanged for B. The layer asks for a person; a recovery makes B the
    baseline without one, and then nobody is asked for any more. *)
Theorem recovery_accepts_swap :
  let B := bringup_with (one_device "B") in
  let l := layer_of host_files in
  NeedsHuman "fingerprint" ∈ reported l ∧
  match attempt_recovery false l with
  | (Ok report, l') =>
      "fingerprint" ∈ rv_applied report ∧ (NeedsHuman "fingerprint" ∉ rv_human report) ∧
      stored_serial B (l_host l') = Some (JStr "B")
  | _ => False
  end.
Proof.
  intros B l. vm_compute. split_and!; [set_solver..|reflexivity].
Qed.

(** The camera does not answer. A recovery stores a baseline without a serial, after which
    every camera passes for it. *)
Theorem recovery_forgets_serial :
  let gone := bringup_with QueryTimeout in
  let other := bringup_with (one_device "C") in
  match attempt_recovery (B:=gone) false (layer_of host_files) with
  | (Ok _, l') =>
      stored_serial gone (l_host l') = Some JNull ∧
      match (check_fingerprint (B:=other) [] 0%nat (l_host l')).1 with
      | Ok r => cr_status r ≠ StFail
      | Raise _ => False
      end
  | _ => False
  end.
Proof. vm_compute. split; [reflexivity|discriminate]. Qed.

(** In SAFE mode the command line applies the fixers all the same. *)
Theorem cli_apply_ignores_safe_mode :
  let B := bringup_with (one_device "B") in
  let h := fresh_host (<[safe_marker := mkHfile (TxDoc (JObj [])) 420]> host_files) in
  in_safe_mode h = true ∧ stored_serial B (cmd_apply [] false false h).2 = Some (JStr "B").
Proof. vm_compute. split; reflexivity. Qed.

(** A snapshot taken in SAFE mode names another status than [status]. *)
Theorem snapshot_ignores_safe_mode :
  let B := bringup_with (one_device "A") in
  let l := layer_of (<[safe_marker := mkHfile (TxDoc (JObj [])) 420]> host_files) in
  match status l, layer_snapshot l with
  | (Ok s, _), (Ok sn, _) => s = SAFE ∧ sn_status sn ≠ SAFE
  | _, _ => False
  end.
Proof. vm_compute. split; [reflexivity|discriminate]. Qed.

(** A skipped check leaves the layer healthy without the guarantee it stands for. *)
Theorem healthy_without_guarantee :
  let B := bringup_with (one_device "A") in
  let results := map (λ c, mkCheckResult c.1 (if String.eqb c.1 "bandwidth" then StSkip else StOk)) ALL_CHECKS in
  derive_status results = HEALTHY ∧ unsatisfied (guarantees_of results) = ["BANDWIDTH_FITS_USB"].
Proof. split; reflexivity. Qed.

(** A failure that no fixer handles is hidden by one that has a fixer. *)
Theorem drifted_hides_broken :
  let fail name := mkCheckResult name StFail in
  (derive_status [fail "v4l2"], derive_status [fail "v4l2"; fail "udev"]) = (BROKEN, DRIFTED).
Proof. reflexivity. Qed.
