(* ===== verification/DepthEvents.v ===== *)
(** * Depth results for the browsers ([app/routes/depth_events.py])

    The relay publishes the answer to a click ([TextRoom.reply_for]) to the gateway, which
    hands it to the event stream of the browser tab that clicked: each stream registers
    under its session id, and a published result goes to the stream of the session it
    names. The handlers are coroutines of one event loop; a stream that has been opened
    yields messages ([Next]) until it ends ([Leave]). The viewer gate in front of the
    streams and the keep-alive lines are not modelled here. *)
From Stdlib Require Import Ascii.
From S2P Require Import Prelude.
From S2P Require Import PyVal.
From S2P Require Import PyStr.
From S2P Require Import TextRoom.

(** One opened stream: what waits in its queue and what the browser was sent. *)
Record Stream := mkStream {
  es_session : string; es_queue : list json; es_sent : list json; es_open : bool;
}.

Record Hub := mkHub {
  hb_streams : list Stream;          (* every stream ever opened, by its number *)
  hb_subscribers : dict nat;         (* [_subscribers]: session id to queue *)
}.

Definition SUB_QUEUE_MAX : nat := 64.

Class HubEnv := { internal_api_secret : string }.

Section hub.
Context {E : HubEnv}.

(** [_check_internal_auth] *)
Definition check_internal_auth (client_host : string) (secret : option string) : bool :=
  existsb (String.eqb client_host) ALLOWED_CLIENT_HOSTS
  && if String.eqb internal_api_secret EmptyString then true
     else match secret with
          | Some s => negb (String.eqb s EmptyString) && String.eqb s internal_api_secret
          | None => false
          end.

Definition session_char (c : ascii) : bool :=
  in_range 48 57 c || in_range 65 90 c || in_range 97 122 c || Ascii.eqb c "-" || Ascii.eqb c "_".

Definition valid_session (s : string) : bool :=
  (length (chars s) <=? 64)%nat && forallb session_char (chars s).

(** [depth_events]: the status of the answer; a missing session id is the legacy one. *)
Definition open_stream (session_id : option string) (h : Hub) : Z * Hub :=
  let s := match session_id with
           | Some s => if String.eqb s EmptyString then "_legacy" else s
           | None => "_legacy"
           end%string in
  if valid_session s then
    (200, mkHub (hb_streams h ++ [mkStream s [] [] true])
            (dset (hb_subscribers h) s (length (hb_streams h))))
  else (400, h).

Definition on_stream (n : nat) (f : Stream → Stream) (h : Hub) : Hub :=
  mkHub (alter f n (hb_streams h)) (hb_subscribers h).

(** The generator yields the next message. *)
Definition next_message (s : Stream) : Stream :=
  match es_queue s with
  | p :: rest => if es_open s then mkStream (es_session s) rest (es_sent s ++ [p]) true else s
  | [] => s
  end.

(** The generator ends: the registration goes if it is still this queue's. *)
Definition leave_stream (n : nat) (h : Hub) : Hub :=
  match hb_streams h !! n with
  | Some s =>
      let h := on_stream n (fun s => mkStream (es_session s) (es_queue s) (es_sent s) false) h in
      if es_open s && bool_decide (dget (hb_subscribers h) (es_session s) = Some n)
      then mkHub (hb_streams h) (ddel (hb_subscribers h) (es_session s)) else h
  | None => h
  end.

Definition put_message (p : json) (s : Stream) : Stream :=
  if (length (es_queue s) <? SUB_QUEUE_MAX)%nat then mkStream (es_session s) (es_queue s ++ [p]) (es_sent s) (es_open s)
  else s.

(** [internal_depth_broadcast]: the status; a body that is no object is answered with 500. *)
Definition broadcast (client_host : string) (secret : option string) (body : res json) (h : Hub) : Z * Hub :=
  if check_internal_auth client_host secret then
    match body with
    | Raise _ => (400, h)
    | Ok payload =>
        match jget payload "session_id" JNull with
        | Raise _ => (500, h)
        | Ok (JStr s) =>
            match dget (hb_subscribers h) s with
            | Some n => if String.eqb s EmptyString then (200, h) else (200, on_stream n (put_message payload) h)
            | None => (200, h)
            end
        | Ok _ => (200, h)
        end
    end
  else (403, h).

Inductive hub_event :=
  | Open (session_id : option string)
  | Next (n : nat)
  | Leave (n : nat)
  | Result (client_host : string) (secret : option string) (body : res json).

Definition hub_step (e : hub_event) (h : Hub) : Hub :=
  match e with
  | Open s => (open_stream s h).2
  | Next n => on_stream n next_message h
  | Leave n => leave_stream n h
  | Result host secret body => (broadcast host secret body h).2
  end.

Definition run_hub (es : list hub_event) (h : Hub) : Hub := fold_left (fun h e => hub_step e h) es h.

(** The payloads that authorised publishers handed in, oldest first. *)
Definition published_payload (e : hub_event) : list json :=
  match e with
  | Result host secret (Ok p) => if check_internal_auth host secret then [p] else []
  | _ => []
  end.

(** ** Results stay in their session *)
Definition names_session (s : string) (p : json) : Prop := jget p "session_id" JNull = Ok (JStr s).

(** Registrations are of streams of that session; a stream's messages are of its session
    and were handed in, in their order. *)
Record hub_ok (all : list json) (h : Hub) : Prop := {
  ho_subs : ∀ s n, dget (hb_subscribers h) s = Some n → ∃ st, hb_streams h !! n = Some st ∧ es_session st = s;
  ho_streams : ∀ n st, hb_streams h !! n = Some st →
    Forall (names_session (es_session st)) (es_sent st ++ es_queue st) ∧
    sublist (es_sent st ++ es_queue st) all ∧ (length (es_queue st) ≤ SUB_QUEUE_MAX)%nat;
}.

Lemma on_stream_ok all new n f h :
  hub_ok all h →
  (∀ st, hb_streams h !! n = Some st → es_session (f st) = es_session st ∧
     (Forall (names_session (es_session st)) (es_sent (f st) ++ es_queue (f st)) ∧
      sublist (es_sent (f st) ++ es_queue (f st)) (all ++ new) ∧ (length (es_queue (f st)) ≤ SUB_QUEUE_MAX)%nat)) →
  hub_ok (all ++ new) (on_stream n f h).
Proof.
  intros [Hsub Hst] Hf. split; unfold on_stream; simpl.
  - intros s m Hm. destruct (Hsub s m Hm) as (st & Hg & <-). destruct (decide (n = m)) as [<-|Hne].
    + exists (f st). rewrite list_lookup_alter_eq, Hg. split; [done|]. by apply Hf.
    + exists st. by rewrite list_lookup_alter_ne.
  - intros m st Hm. destruct (decide (n = m)) as [<-|Hne].
    + rewrite list_lookup_alter_eq in Hm. destruct (hb_streams h !! n) as [st'|] eqn:Hg; [|done].
      injection Hm as <-. destruct (Hf st' eq_refl) as [-> H]. done.
    + rewrite list_lookup_alter_ne in Hm by done. destruct (Hst m st Hm) as (H1 & H2 & H3). split_and!; [done| |done].
      by apply sublist_inserts_r.
Qed.

Lemma step_ok all e h : hub_ok all h → hub_ok (all ++ published_payload e) (hub_step e h).
Proof.
  intros Hok. pose proof Hok as [Hsub Hst]. destruct e as [s|n|n|host secret body]; simpl; rewrite ?app_nil_r.
  - unfold open_stream. set (s' := match s with Some s => _ | None => _ end). destruct (valid_session s'); [|done].
    split; simpl.
    + intros s2 n Hn. rewrite dget_dset in Hn. case_decide as Hs; [injection Hn as <-; subst s2|].
      * exists (mkStream s' [] [] true). by rewrite lookup_app_r, Nat.sub_diag.
      * destruct (Hsub s2 n Hn) as (st & Hg & <-). exists st. split; [|done]. by apply lookup_app_l_Some.
    + intros n st [Hg|[_ Hg]]%lookup_app_Some; [by apply (Hst n)|].
      apply list_lookup_singleton_Some in Hg as [_ <-]. simpl. split_and!; [constructor|apply sublist_nil_l|lia].
  - rewrite <- (app_nil_r all). apply on_stream_ok; [done|]. intros st Hg. rewrite app_nil_r.
    destruct (Hst n st Hg) as (H1 & H2 & H3). unfold next_message. destruct (es_queue st) as [|p rest] eqn:Hq.
    + rewrite Hq. done.
    + destruct (es_open st); [|rewrite Hq; done]. simpl in *. rewrite <- app_assoc. simpl. split_and!; try done. lia.
  - assert (Hclose : hub_ok all (on_stream n (λ s, mkStream (es_session s) (es_queue s) (es_sent s) false) h)).
    { rewrite <- (app_nil_r all). apply on_stream_ok; [done|]. intros st Hg. rewrite app_nil_r.
      split; [done|]. exact (Hst n st Hg). }
    unfold leave_stream. destruct (hb_streams h !! n) as [s|]; [|done]. destruct (_ && _); [|done].
    destruct Hclose as [Hsub' Hst']. split; [|done]. simpl. intros s2 m Hm. apply (Hsub' s2). simpl.
    rewrite dget_ddel in Hm. by case_decide.
  - unfold broadcast. destruct body as [p|e]; [|destruct (check_internal_auth _ _); simpl; by rewrite app_nil_r].
    destruct (check_internal_auth _ _); [|by rewrite app_nil_r].
    assert (Hkeep : hub_ok (all ++ [p]) h).
    { split; [done|]. intros n st Hg. destruct (Hst n st Hg) as (H1 & H2 & H3). split_and!; [done| |done].
      by apply sublist_inserts_r. }
    destruct (jget p "session_id" JNull) as [[| | | |s| |]|e] eqn:Hp; try done.
    destruct (dget (hb_subscribers h) s) as [n|] eqn:Hn; [|done]. destruct (String.eqb s EmptyString); [done|].
    apply on_stream_ok; [done|]. intros st Hg. destruct (Hsub s n Hn) as (st' & Hg' & <-).
    rewrite Hg in Hg'. injection Hg' as <-. destruct (Hst n st Hg) as (H1 & H2 & H3).
    unfold put_message. destruct (_ <? _)%nat eqn:Hlen; simpl.
    + apply Nat.ltb_lt in Hlen. rewrite app_assoc. split_and!; [done| |by apply sublist_app|rewrite length_app; simpl; lia].
      apply Forall_app. split; [done|]. by apply Forall_singleton.
    + split_and!; [done..| |done]. by apply sublist_inserts_r.
Qed.

Lemma run_ok es all h : hub_ok all h → hub_ok (all ++ flat_map published_payload es) (run_hub es h).
Proof.
  revert all h. induction es as [|e es IH]; intros all h Hok; simpl; [by rewrite app_nil_r|].
  rewrite app_assoc. apply IH. by apply step_ok.
Qed.

(** Whatever streams come and go and whatever is handed in: a browser is sent only results
    that an authorised publisher handed in, in their order, each naming the session its
    stream was opened with; a result that the relay published for a message that names a
    session reaches no other session; and no queue grows past its bound. *)
Theorem results_stay_in_session es n st p :
  let h := run_hub es (mkHub [] []) in
  hb_streams h !! n = Some st → p ∈ es_sent st →
  sublist (es_sent st) (flat_map published_payload es) ∧ names_session (es_session st) p ∧
  (∀ message answer s, dget message "session_id" = Some (JStr s) → reply_for message answer = Ok p →
     s = es_session st) ∧
  (length (es_queue st) ≤ SUB_QUEUE_MAX)%nat.
Proof.
  intros h Hg Hp. destruct (run_ok es [] (mkHub [] [])) as [_ Hst]; [split; [done|]; by intros m s'|].
  destruct (Hst n st Hg) as (Hall & Hsub & Hlen). apply Forall_app in Hall as [Hsent _].
  rewrite Forall_forall in Hsent. specialize (Hsent p Hp). split_and!; [|done| |done].
  - etrans; [|exact Hsub]. by apply sublist_inserts_r.
  - intros message answer s Hs Hr. unfold reply_for in Hr. apply res_bind_ok in Hr as (reply & _ & Hr).
    rewrite Hs in Hr. destruct reply as [| | | | | |d]; try done. injection Hr as <-.
    unfold names_session in Hsent. simpl in Hsent. rewrite dget_dset_eq in Hsent. congruence.
Qed.

(** ** Finding: a second stream of a session silences the first *)

(** The stream's queue is not registered, and can never be again. *)
Definition silenced (n : nat) (h : Hub) : Prop :=
  (n < length (hb_streams h))%nat ∧ ∀ s, dget (hb_subscribers h) s ≠ Some n.

Lemma silenced_step n e h : silenced n h →
  silenced n (hub_step e h) ∧
  ∀ st, hb_streams h !! n = Some st → ∃ st', hb_streams (hub_step e h) !! n = Some st' ∧
    es_sent st' ++ es_queue st' = es_sent st ++ es_queue st.
Proof.
  intros [Hn Hs]. assert (Hsame : silenced n h ∧ ∀ st, hb_streams h !! n = Some st →
    ∃ st', hb_streams h !! n = Some st' ∧ es_sent st' ++ es_queue st' = es_sent st ++ es_queue st) by (split; [done|eauto]).
  assert (Halter : ∀ m f, m ≠ n ∨ (∀ st, es_sent (f st) ++ es_queue (f st) = es_sent st ++ es_queue st) →
    ∀ st, hb_streams h !! n = Some st → ∃ st', alter f m (hb_streams h) !! n = Some st' ∧
      es_sent st' ++ es_queue st' = es_sent st ++ es_queue st).
  { intros m f Hf st Hg. destruct (decide (m = n)) as [->|Hne].
    - exists (f st). rewrite list_lookup_alter_eq, Hg. split; [done|]. by destruct Hf as [?|Hf].
    - exists st. by rewrite list_lookup_alter_ne. }
  destruct e as [s|m|m|host secret body]; simpl.
  - unfold open_stream. destruct (valid_session _); [|done]. simpl. split.
    + split; [simpl; rewrite length_app; simpl; lia|]. intros s'. simpl. rewrite dget_dset. case_decide; [|done].
      intros [= ?]. lia.
    + intros st Hg. exists st. split; [by apply lookup_app_l_Some|done].
  - split; [split; [simpl; by rewrite length_alter|done]|]. apply Halter. right. intros st. unfold next_message.
    destruct (es_queue st) eqn:Hq; [by rewrite Hq|]. destruct (es_open st); [|by rewrite Hq]. simpl. by rewrite <- app_assoc.
  - unfold leave_stream. destruct (hb_streams h !! m) as [s|] eqn:Hg; [|done].
    destruct (_ && _); simpl; (split; [split; simpl; [by rewrite length_alter|]|]); try (apply Halter; by right); [|done].
    intros s'. rewrite dget_ddel. by case_decide.
  - unfold broadcast. destruct (check_internal_auth _ _); [|done]. destruct body as [p|e]; [|done].
    destruct (jget p _ _) as [[| | | |s| |]|e]; try done. destruct (dget (hb_subscribers h) s) as [m|] eqn:Hm; [|done].
    destruct (String.eqb s EmptyString); [done|]. simpl. split; [split; [simpl; by rewrite length_alter|done]|].
    apply Halter. left. intros ->. by apply (Hs s).
Qed.

Lemma run_silenced n es h st :
  silenced n h → hb_streams h !! n = Some st →
  ∃ st', hb_streams (run_hub es h) !! n = Some st' ∧ es_sent st' ++ es_queue st' = es_sent st ++ es_queue st.
Proof.
  revert h st. induction es as [|e es IH]; intros h st Hs Hg; simpl; [eauto|].
  destruct (silenced_step n e h Hs) as [Hs' Hk]. destruct (Hk st Hg) as (st1 & Hg1 & <-). by apply IH.
Qed.

(** Once another stream has been opened under the session of a stream, nothing is ever
    queued for the older one again, also not after the other has left. *)
Theorem second_stream_silences es1 es2 n st :
  let h := run_hub es1 (mkHub [] []) in
  hb_streams h !! n = Some st → valid_session (es_session st) = true → es_session st ≠ EmptyString →
  ∃ st', hb_streams (run_hub (Open (Some (es_session st)) :: es2) h) !! n = Some st' ∧
    es_sent st' ++ es_queue st' = es_sent st ++ es_queue st.
Proof.
  intros h Hg Hv Hne. destruct (run_ok es1 [] (mkHub [] [])) as [Hsub _]; [split; [done|]; by intros m s'|].
  fold h in Hsub. simpl. unfold open_stream. apply String.eqb_neq in Hne. rewrite Hne, Hv. apply run_silenced.
  - split; [simpl; rewrite length_app; apply lookup_lt_Some in Hg; lia|]. intros s. simpl. rewrite dget_dset.
    case_decide as Hd; [intros [= Heq]; apply lookup_lt_Some in Hg; lia|]. intros Hn.
    destruct (Hsub s n Hn) as (st' & Hg' & <-). rewrite Hg in Hg'. injection Hg' as <-. done.
  - by apply lookup_app_l_Some.
Qed.
End hub.

(** ** Witness *)
Definition sample_hub : HubEnv := {| internal_api_secret := "s3" |}.

Definition depth_of (session : string) : json := JObj [("depth", JInt 1); ("session_id", JStr session)]%string.

Definition two_tabs : list hub_event :=
  [Open (Some "tab-a"); Open (Some "tab-b"); Result "127.0.0.1" (Some "s3") (Ok (depth_of "tab-a"));
   Result "127.0.0.1" None (Ok (depth_of "tab-b")); Next 0; Next 1]%string.

Lemma results_stay_in_session_witness :
  (map (λ st, es_sent st) (hb_streams (run_hub (E:=sample_hub) two_tabs (mkHub [] []))) = [[depth_of "tab-a"]; []])%string ∧
  names_session "tab-a" (depth_of "tab-a").
Proof.
  split; [vm_compute; reflexivity|].
  destruct (results_stay_in_session (E:=sample_hub) two_tabs 0 (mkStream "tab-a" [] [depth_of "tab-a"] true)
    (depth_of "tab-a")) as (_ & H & _); [vm_compute; reflexivity|by left|exact H].
Defined.
