(* ===== verification/NodeAgent.v ===== *)
(** * The agent of a camera node ([host_infra/node-bundle/node-agent/])

    The small HTTP server on a camera node through which the gateway restarts, stops and
    tunes the node's streams. A request is its method, its path, its query and its body as
    the standard library parses them; a command answers what the environment says; every
    system call of a write may fail. The tuning of a sensor is a text of lines
    [KEY="value"], read line by line ([file_lines]; carriage returns do not occur, and a
    token header is ASCII). The texts of the [error] fields are shortened. *)
From Stdlib Require Import Ascii.
From S2P Require Import Prelude.
From S2P Require Import Hoare.
From S2P Require Import PyVal.
From S2P Require Import PyStr.
From S2P Require Import FileStore.
From S2P Require Import RuntimeBuilder.
From S2P Require Import RuntimeEnv.
From S2P Require Import JsonText.

(** How a command ends: its exit code with its output, or an exception. *)
Inductive node_answer := NodeExit (code : Z) (out : text) (err : string) | NodeRaises.

Inductive http_body := BodyJson (j : json) | BodyRaw (bytes : string) (content_type : string).

(** The answer of the local multiplexer. *)
Inductive mux_answer := MuxOk (status : Z) (bytes : string) (content_type : string) | MuxError (code : Z) (bytes : string)
  | MuxDown (msg : string).

Class AgentEnv := {
  TOKEN : string;
  BIND : string;
  PROBE : string;
  agent_fault : nat → bool;                     (* the system call that raises OSError *)
  node_answers : nat → list string → node_answer;
  mux_answers : nat → string → dict string → mux_answer;
  bundle_version_file : nat → option string;
}.

Record Agent := mkAgent {
  ag_tick : nat;
  ag_tunings : dict string;                     (* rs-<sensor>.tuning.env *)
  ag_ran : list (list string);
  ag_asked : list (string * dict string);       (* what the multiplexer was asked *)
}.

Inductive method := GET | POST.
Record request := mkRequest {
  rq_method : method; rq_path : string; rq_query : dict string; rq_token : option string; rq_body : res json;
}.

Definition SENSORS : list string := ["color"; "depth"; "ir1"; "ir2"]%string.

(** A field with its environment key and its range; the rotation has four values. *)
Definition TUNING : list (string * (string * (Z * Z))) :=
  [("width", ("WIDTH", (160, 4096))); ("height", ("HEIGHT", (120, 2160))); ("fps", ("FPS", (1, 120)));
   ("rotation", ("ROTATION", (0, 270))); ("bitrate_kbps", ("BITRATE_KBPS", (100, 20000)))]%string.

Section agent.
Context {E : AgentEnv}.

Definition agent_tick : M Agent nat :=
  a ← get;
  modify (fun a => mkAgent (S (ag_tick a)) (ag_tunings a) (ag_ran a) (ag_asked a)) ;;
  mret (ag_tick a).
Definition agent_sys : M Agent unit := n ← agent_tick; if agent_fault n then throw EOS else mret tt.

Definition node_run (cmd : list string) : M Agent (Z * text * string) :=
  n ← agent_tick;
  modify (fun a => mkAgent (ag_tick a) (ag_tunings a) (ag_ran a ++ [cmd]) (ag_asked a)) ;;
  match node_answers n cmd with NodeExit code out err => mret (code, out, err) | NodeRaises => throw ETimeout end.

(** ** The tuning file *)
Definition file_lines (t : string) : list string := split "010"%char t.

Definition add_line (env : dict string) (line : string) : dict string :=
  let line := py_strip line in
  if String.eqb line EmptyString || startswith line "#" then env
  else match split1 "=" line with
       | Some (k, v) => dset env (py_strip k) (strip_quotes quote1 (strip_quotes quote2 (py_strip v)))
       | None => env
       end.

Definition parse_tuning (t : string) : dict string := fold_left add_line (file_lines t) [].

Definition read_tuning_env (sensor : string) (a : Agent) : dict string :=
  match dget (ag_tunings a) sensor with Some t => parse_tuning t | None => [] end.

Definition int_or (env : dict string) (k : string) (d : Z) : Z :=
  match dget env k with Some v => default d (parse_int v) | None => d end.

Definition read_node_tuning (sensor : string) (a : Agent) : json :=
  let env := read_tuning_env sensor a in
  JObj [("width", JInt (int_or env "WIDTH" 640)); ("height", JInt (int_or env "HEIGHT" 480));
        ("fps", JInt (int_or env "FPS" 15)); ("rotation", JInt (int_or env "ROTATION" 0));
        ("bitrate_kbps", JInt (int_or env "BITRATE_KBPS" 900))]%string.

Definition in_tuning_range (field : string) (range : Z * Z) (v : Z) : bool :=
  if String.eqb field "rotation" then (v =? 0) || (v =? 90) || (v =? 180) || (v =? 270)
  else (range.1 <=? v) && (v <=? range.2).

(** The updates of the fields that are given, or nothing when one is refused. *)
Fixpoint validate_fields (body : dict json) (fields : list (string * (string * (Z * Z)))) (updates : dict string)
    : option (dict string) :=
  match fields with
  | [] => Some updates
  | (field, (key, range)) :: rest =>
      match default JNull (dget body field) with
      | JNull => validate_fields body rest updates
      | v =>
          match to_int v with
          | Ok z => if in_tuning_range field range z
                    then validate_fields body rest (dset updates key (pretty z)) else None
          | Raise _ => None
          end
      end
  end.

Definition validate_tuning (body : dict json) : option (dict string) :=
  match validate_fields body TUNING [] with
  | Some [] => None
  | r => r
  end.

Definition tuning_line (kv : string * string) : string := (kv.1 ++ "=" ++ dquoted kv.2)%string.

Definition tuning_file (env : dict string) : string :=
  String.concat EmptyString (map (fun kv => tuning_line kv ++ String "010" EmptyString)%string (sort_items env)).

(** [_write_tuning]: the merged lines replace the file. *)
Definition write_tuning (sensor : string) (updates : dict string) : M Agent unit :=
  a ← get;
  let env := merge_dict (read_tuning_env sensor a) updates in
  agent_sys ;; agent_sys ;; agent_sys ;;
  modify (fun a => mkAgent (ag_tick a) (dset (ag_tunings a) sensor (tuning_file env)) (ag_ran a) (ag_asked a)).

(** ** Requests *)
Definition authed (r : request) : bool :=
  String.eqb TOKEN EmptyString || String.eqb (default EmptyString (rq_token r)) TOKEN.

Definition reply : Type := Z * http_body.
Definition sent_json (code : Z) (d : dict json) : reply := (code, BodyJson (JObj d)).
Definition forbidden : reply := sent_json 403 [("error", JStr "forbidden")]%string.
Definition not_found : reply := sent_json 404 [("error", JStr "not found")]%string.
Definition invalid_sensor : reply := sent_json 400 [("error", JStr "invalid sensor")]%string.

(** [parse_qs(...).get("sensor", [""])[0]] *)
Definition sensor_of (r : request) : string := default EmptyString (dget (rq_query r) "sensor").

(** With the token and a known sensor. *)
Definition for_sensor (r : request) (k : string → M Agent reply) : M Agent reply :=
  if negb (authed r) then mret forbidden
  else if negb (mem_str (sensor_of r) SENSORS) then mret invalid_sensor
  else k (sensor_of r).

(** [_bundle_version] *)
Definition bundle_version (n : nat) : string :=
  match bundle_version_file n with
  | None => "unknown"
  | Some t =>
      match List.find (fun line => startswith line "BUNDLE_VERSION=") (file_lines t) with
      | Some line => match split1 "=" line with Some (_, v) => py_strip v | None => "unknown" end
      | None => "unknown"
      end
  end%string.

Definition probe_cmd : list string := ["python3"; PROBE; "--json"]%string.

(** [json.loads(out.stdout or "{}")] *)
Definition stdout_doc (out : text) : res json :=
  match out with TxEmpty => Ok (JObj []) | t => json_loads t end.

Definition modes_of (sensor : string) (d : json) : res json :=
  m ← jget d "modes" JNull;
  if truthy m then jget m sensor JNull else Ok JNull.

Fixpoint first_modes (sensor : string) (devices : list json) : res json :=
  match devices with
  | [] => Ok (JArr [])
  | d :: rest => m ← modes_of sensor d; if truthy m then Ok m else first_modes sensor rest
  end.

(** [_list_modes]: nothing when the probe fails. *)
Definition list_modes (sensor : string) : M Agent json :=
  doc ← try_except
    ('(_, out, _) ← node_run (probe_cmd ++ ["--modes"]%string); d ← lift (stdout_doc out); mret (Some d))
    CException (fun _ => mret None);
  match doc with
  | None => mret (JArr [])
  | Some d =>
      devices ← lift (jget d "devices" (JArr []));
      match devices with JArr l => lift (first_modes sensor l) | _ => throw EType end
  end.

Definition mux_error_body : string := ("{" ++ dquoted "error" ++ ":" ++ dquoted "mux error" ++ "}")%string.

(** [_mux_fetch]: the query without its empty values. *)
Definition mux_fetch (path : string) (query : dict string) : M Agent reply :=
  let qs := filter (fun kv => kv.2 ≠ EmptyString) query in
  n ← agent_tick;
  modify (fun a => mkAgent (ag_tick a) (ag_tunings a) (ag_ran a) (ag_asked a ++ [(path, qs)])) ;;
  mret (match mux_answers n path qs with
        | MuxOk status bytes ct => (status, BodyRaw bytes ct)
        | MuxError code bytes =>
            (code, BodyRaw (if String.eqb bytes EmptyString then mux_error_body else bytes) "application/json")
        | MuxDown msg => sent_json 502 [("error", JStr ("mux unreachable: " ++ msg))]
        end)%string.

(** [q.get(k, [d])[0]] *)
Definition query_or (r : request) (k d : string) : string := default d (dget (rq_query r) k).

Definition depth_query (r : request) : dict string :=
  [("x", query_or r "x" "50"); ("y", query_or r "y" "50"); ("aligned", query_or r "aligned" EmptyString)]%string.

Definition do_GET (r : request) : M Agent reply :=
  if String.eqb (rq_path r) "/healthz" then
    n ← agent_tick; mret (sent_json 200 [("ok", JBool true); ("bundle_version", JStr (bundle_version n))]%string)
  else if String.eqb (rq_path r) "/tuning" then
    for_sensor r (fun sensor => a ← get; mret (200, BodyJson (read_node_tuning sensor a)))
  else if String.eqb (rq_path r) "/probe_devices" then
    if negb (authed r) then mret forbidden
    else try_except
      ('(_, out, _) ← node_run probe_cmd; d ← lift (stdout_doc out); mret (200, BodyJson d))
      CException (fun e => mret (sent_json 500 [("error", JStr (ex_msg e))]%string))
  else if String.eqb (rq_path r) "/modes" then
    for_sensor r (fun sensor =>
      modes ← list_modes sensor;
      mret (sent_json 200 [("sensor", JStr sensor); ("modes", modes)]%string))
  else if String.eqb (rq_path r) "/depth" then
    if negb (authed r) then mret forbidden else mux_fetch "/depth"%string (depth_query r)
  else if String.eqb (rq_path r) "/depth/frame" then
    if negb (authed r) then mret forbidden else mux_fetch "/depth/frame"%string [("format", "json")]%string
  else mret not_found.

Definition stream_unit (sensor : string) : string := ("rs-stream@" ++ sensor ++ ".service")%string.

(** A [systemctl] command on the sensor's stream. *)
Definition stream_ctl (verb sensor : string) : M Agent (bool * string) :=
  '(code, _, err) ← node_run ["systemctl"; verb; stream_unit sensor]%string; mret (code =? 0, py_strip err).

Definition outcome (ok : bool) (rest : dict json) : reply :=
  sent_json (if ok then 200 else 500) (("ok"%string, JBool ok) :: rest).

(** [(err or done)[:200]] *)
Definition detail (err done : string) : string * json :=
  ("detail"%string, JStr (String.substring 0 200 (if String.eqb err EmptyString then done else err))).

(** What an exception is answered with. *)
Definition failed_reply (m : M Agent reply) : M Agent reply :=
  try_except m CException (fun e => mret (outcome false [("detail", JStr (ex_msg e))]%string)).

Definition post_tuning (r : request) : M Agent reply :=
  for_sensor r (fun sensor =>
    match rq_body r with
    | Raise _ => mret (sent_json 400 [("error", JStr "invalid JSON body")]%string)
    | Ok body =>
        match validate_tuning (match body with JObj d => d | _ => [] end) with
        | None => mret (sent_json 400 [("error", JStr "invalid tuning")]%string)
        | Some updates =>
            failed_reply (
              write_tuning sensor updates ;;
              '(ok, err) ← stream_ctl "restart" sensor;
              a ← get;
              mret (outcome ok [("tuning", read_node_tuning sensor a); detail err "applied"]%string))
        end
    end).

Definition do_POST (r : request) : M Agent reply :=
  if String.eqb (rq_path r) "/tuning" then post_tuning r
  else
    let control verb := for_sensor r (fun sensor =>
      failed_reply ('(ok, err) ← stream_ctl verb sensor; mret (outcome ok [detail err (verb ++ "ed")%string]))) in
    if String.eqb (rq_path r) "/restart_stream" then control "restart"%string
    else if String.eqb (rq_path r) "/stop_stream" then control "stop"%string
    else mret not_found.

Definition handle (r : request) : M Agent reply :=
  match rq_method r with GET => do_GET r | POST => do_POST r end.

(** [main]: whether it serves. *)
Definition serves : bool :=
  negb (String.eqb TOKEN EmptyString) || mem_str BIND ["127.0.0.1"; "localhost"; "::1"]%string.

Definition run_requests (rs : list request) (a : Agent) : Agent := fold_left (fun a r => (handle r a).2) rs a.
End agent.

(** ** Who may do what *)
Section gate.
Context {E : AgentEnv}.

(** The commands the agent ever runs. *)
Definition allowed (cmd : list string) : Prop :=
  cmd = probe_cmd ∨ cmd = (probe_cmd ++ ["--modes"]%string) ∨
  ∃ verb sensor, verb ∈ ["restart"; "stop"]%string ∧ sensor ∈ SENSORS ∧ cmd = ["systemctl"; verb; stream_unit sensor]%string.

(** Only such commands are added, and only the tunings of sensors change. *)
Definition within (a a' : Agent) : Prop :=
  (∃ new, ag_ran a' = ag_ran a ++ new ∧ Forall allowed new) ∧
  ∀ s, s ∉ SENSORS → dget (ag_tunings a') s = dget (ag_tunings a) s.

#[export] Instance within_preorder : PreOrder within.
Proof.
  split.
  - intros a. split; [exists []; by rewrite app_nil_r|done].
  - intros a1 a2 a3 [(n1 & H1 & F1) T1] [(n2 & H2 & F2) T2]. split; [|intros s Hs; by rewrite T2, T1].
    exists (n1 ++ n2). rewrite H2, H1, app_assoc. split; [done|]. by apply Forall_app.
Qed.

(** What an unauthenticated request leaves as it is. *)
Definition inert (a a' : Agent) : Prop :=
  ag_tunings a' = ag_tunings a ∧ ag_ran a' = ag_ran a ∧ ag_asked a' = ag_asked a.

#[export] Instance inert_preorder : PreOrder inert.
Proof. split; [done|]. unfold inert. intros a1 a2 a3. intuition congruence. Qed.

Lemma tick_within : preserves within agent_tick.
Proof. unfold agent_tick. pres. split; [exists []; by rewrite app_nil_r|done]. Qed.
Lemma tick_inert : preserves inert agent_tick.
Proof. unfold agent_tick. pres. Qed.
Hint Resolve tick_within tick_inert : pres.
Lemma agent_sys_within : preserves within agent_sys.
Proof. unfold agent_sys. pres. Qed.
Hint Resolve agent_sys_within : pres.

Lemma node_run_within cmd : allowed cmd → preserves within (node_run cmd).
Proof. intros Hc. unfold node_run. pres. split; [exists [cmd]; split; [done|by constructor]|done]. Qed.

Lemma probe_within : preserves within (node_run probe_cmd).
Proof. apply node_run_within. by left. Qed.
Lemma probe_modes_within : preserves within (node_run (probe_cmd ++ ["--modes"]%string)).
Proof. apply node_run_within. right. by left. Qed.
Hint Resolve probe_within probe_modes_within : pres.

Lemma stream_ctl_within verb sensor :
  verb ∈ ["restart"; "stop"]%string → sensor ∈ SENSORS → preserves within (stream_ctl verb sensor).
Proof.
  intros Hv Hs. unfold stream_ctl. apply pres_bind; [apply _| |intros [[code out] err]; pres].
  apply node_run_within. right. right. eauto.
Qed.

Lemma write_within sensor updates : sensor ∈ SENSORS → preserves within (write_tuning sensor updates).
Proof.
  intros Hs. unfold write_tuning. pres. split; [exists []; by rewrite app_nil_r|]. simpl.
  intros s Hn. apply dget_dset_ne. by intros ->.
Qed.

Lemma mux_within path query : preserves within (mux_fetch path query).
Proof. unfold mux_fetch. pres. Qed.
Lemma modes_within sensor : preserves within (list_modes sensor).
Proof. unfold list_modes. pres. Qed.
Hint Resolve mux_within modes_within : pres.

Lemma for_sensor_within r k : (∀ s, s ∈ SENSORS → preserves within (k s)) → preserves within (for_sensor r k).
Proof.
  intros Hk. unfold for_sensor. destruct (negb _); [pres|].
  destruct (mem_str _ _) eqn:Hm; [|pres]. apply Hk. by apply mem_str_spec.
Qed.

Lemma control_within verb s d :
  verb ∈ ["restart"; "stop"]%string → s ∈ SENSORS →
  preserves within (failed_reply ('(ok, err) ← stream_ctl verb s; mret (outcome ok [detail err d]))).
Proof. intros Hv Hs. pose proof (stream_ctl_within verb s Hv Hs). unfold failed_reply. pres. Qed.

Lemma handle_within r : preserves within (handle r).
Proof.
  unfold handle. destruct (rq_method r).
  - unfold do_GET. repeat case_match; pres; apply for_sensor_within; intros s Hs; pres.
  - unfold do_POST. destruct (String.eqb _ _).
    + unfold post_tuning. apply for_sensor_within. intros s Hs. pose proof (stream_ctl_within "restart" s ltac:(by left) Hs).
      pose proof (λ u, write_within s u Hs). unfold failed_reply. pres.
    + cbv zeta. repeat case_match; [..|pres]; apply for_sensor_within; intros s Hs;
        apply control_within; done || set_solver.
Qed.

Lemma unauthed_inert r : authed r = false → preserves inert (handle r).
Proof.
  intros Ha. unfold handle, do_GET, do_POST, post_tuning, for_sensor. rewrite Ha. cbn [negb].
  destruct (rq_method r); repeat case_match; pres.
Qed.

Lemma requests_preserve (R : Agent → Agent → Prop) `{!PreOrder R} rs a :
  Forall (λ r, preserves R (handle r)) rs → R a (run_requests rs a).
Proof.
  intros Hrs. revert a. induction Hrs as [|r rs Hr _ IH]; intros a; simpl; [done|]. etrans; [apply Hr|apply IH].
Qed.

(** C38. An agent that serves beyond the loopback interface changes nothing, runs nothing and
    asks the camera nothing for requests that do not carry its token; and whatever the
    requests, it only ever probes the camera and restarts or stops the streams of its four
    sensors, and writes no other sensor's tuning. *)
Theorem agent_gate rs a :
  serves = true →
  (mem_str BIND ["127.0.0.1"; "localhost"; "::1"]%string = false →
   Forall (λ r, rq_token r ≠ Some TOKEN) rs → inert a (run_requests rs a)) ∧
  within a (run_requests rs a).
Proof.
  intros Hserve. split.
  - intros Hbind Hrs. unfold serves in Hserve. rewrite Hbind, orb_false_r in Hserve.
    apply requests_preserve; [apply _|]. eapply Forall_impl; [exact Hrs|]. intros r Hr. apply unauthed_inert.
    apply negb_true_iff, String.eqb_neq in Hserve.
    unfold authed. apply orb_false_iff. split; apply String.eqb_neq; [done|].
    simpl in Hr. destruct (rq_token r); simpl; congruence.
  - apply requests_preserve; [apply _|]. apply Forall_forall. intros r _. apply handle_within.
Qed.
End gate.

(** ** The tuning file reads back *)
Section tuning.
Implicit Types env updates : dict string.

Definition solid_value (v : string) : Prop :=
  Forall (λ c, Ascii.eqb c "010" = false) (chars v) ∧
  match chars v with [] => True | c :: _ => c ≠ quote1 ∧ c ≠ quote2 end ∧
  match rev (chars v) with [] => True | c :: _ => c ≠ quote1 ∧ c ≠ quote2 end.

Definition solid_key (k : string) : Prop :=
  Forall (λ c, Ascii.eqb c "010" = false) (chars k) ∧ Forall (λ c, Ascii.eqb c "=" = false) (chars k) ∧
  py_strip k = k ∧ startswith k "#" = false.

Lemma strip_char_solid c l : match l with [] => True | x :: _ => x ≠ c end → strip_char c l = l.
Proof. destruct l as [|x l]; simpl; [done|]. intros Hx. by apply Ascii.eqb_neq in Hx as ->. Qed.

Lemma strip_quotes_solid c v :
  match chars v with [] => True | x :: _ => x ≠ c end → match rev (chars v) with [] => True | x :: _ => x ≠ c end →
  strip_quotes c v = v.
Proof.
  intros H1 H2. unfold strip_quotes. rewrite (strip_char_solid c (chars v) H1), (strip_char_solid c _ H2), rev_involutive.
  apply str_chars.
Qed.

Lemma dquoted_chars v : chars (dquoted v) = quote2 :: chars v ++ [quote2].
Proof. unfold dquoted. simpl. f_equal. by rewrite chars_app. Qed.

Lemma strip_dquoted v : solid_value v → strip_quotes quote1 (strip_quotes quote2 (dquoted v)) = v.
Proof.
  intros (_ & Hh & Ht). transitivity (strip_quotes quote1 v); [f_equal|].
  - unfold strip_quotes at 1. rewrite dquoted_chars. cbn [strip_char]. rewrite Ascii.eqb_refl.
    destruct (chars v) as [|c l] eqn:Hv.
    { apply (f_equal str) in Hv. rewrite str_chars in Hv. subst v. reflexivity. }
    rewrite (strip_char_solid quote2 ((c :: l) ++ _)) by (simpl; tauto). rewrite rev_app_distr. cbn [rev app].
    cbn [strip_char]. rewrite Ascii.eqb_refl.
    change (rev l ++ [c]) with (rev (c :: l)). rewrite strip_char_solid.
    + rewrite rev_involutive, <- Hv. apply str_chars.
    + destruct (rev (c :: l)); tauto.
  - apply strip_quotes_solid; [destruct (chars v)|destruct (rev (chars v))]; tauto.
Qed.

Lemma py_strip_dquoted v : py_strip (dquoted v) = dquoted v.
Proof.
  apply chars_inj. rewrite py_strip_chars, dquoted_chars. apply strip_solid; [done|].
  simpl. rewrite rev_app_distr. done.
Qed.

Lemma py_strip_tuning_line k v : py_strip k = k → py_strip (tuning_line (k, v)) = tuning_line (k, v).
Proof.
  intros Hk. unfold tuning_line. cbn [fst snd]. apply chars_inj. rewrite py_strip_chars, !chars_app, dquoted_chars.
  change (chars "=") with ["="%char]. apply strip_solid.
  - apply (f_equal chars) in Hk. rewrite py_strip_chars in Hk. destruct (strip_ends (chars k)) as [Hh _].
    rewrite Hk in Hh. by destruct (chars k).
  - rewrite !rev_app_distr. simpl. rewrite rev_app_distr. done.
Qed.

Lemma add_tuning_line env k v : solid_key k → solid_value v → add_line env (tuning_line (k, v)) = dset env k v.
Proof.
  intros (_ & Heq & Hs & Hh) Hv. unfold add_line. rewrite py_strip_tuning_line by done.
  assert (Hline : chars (tuning_line (k, v)) = chars k ++ "="%char :: chars (dquoted v)).
  { unfold tuning_line. by rewrite !chars_app. }
  assert (Hne : String.eqb (tuning_line (k, v)) EmptyString = false).
  { apply String.eqb_neq. intros He. rewrite He in Hline. by destruct (chars k). }
  assert (Hno : startswith (tuning_line (k, v)) "#" = false).
  { revert Hh. unfold startswith. rewrite Hline. by destruct (chars k). }
  rewrite Hne, Hno. cbn [orb]. unfold split1. rewrite Hline, split1_go_app by done. cbn [rev app].
  by rewrite !str_chars, Hs, py_strip_dquoted, strip_dquoted.
Qed.

Lemma concat_newline s (ls : list string) :
  String.concat EmptyString (map (λ s, s ++ String "010" EmptyString)%string (s :: ls))
  = (s ++ String "010" (String.concat EmptyString (map (λ s, s ++ String "010" EmptyString)%string ls)))%string.
Proof.
  apply chars_inj. destruct ls as [|s2 ls]; cbn [map String.concat]; rewrite !chars_app; simpl; [done|].
  by rewrite <- app_assoc.
Qed.

Lemma split_go_lines (ls : list string) cur :
  Forall (λ s, Forall (λ c, Ascii.eqb c "010" = false) (chars s)) ls →
  split_go "010" cur (chars (String.concat EmptyString (map (λ s, s ++ String "010" EmptyString)%string ls)))
  = match ls with [] => [rev cur] | l :: ls => (rev cur ++ chars l) :: map chars ls ++ [[]] end.
Proof.
  assert (Hstep : ∀ l cur rest, Forall (λ c, Ascii.eqb c "010" = false) l →
            split_go "010" cur (l ++ "010"%char :: rest) = (rev cur ++ l) :: split_go "010" [] rest).
  { induction l as [|c l IH]; intros cur' rest; simpl; [by rewrite app_nil_r|].
    intros [Hc Hl]%Forall_cons. rewrite Hc, IH by done. simpl. by rewrite <- app_assoc. }
  revert cur. induction ls as [|s ls IH]; intros cur Hls; [done|]. apply Forall_cons in Hls as [Hs Hls].
  rewrite concat_newline, chars_app. cbn [chars String.list_ascii_of_string].
  rewrite Hstep, IH by done. by destruct ls.
Qed.

Lemma map_tuning_lines (d : dict string) :
  map (λ kv, tuning_line kv ++ String "010" EmptyString)%string d
  = map (λ s, s ++ String "010" EmptyString)%string (map tuning_line d).
Proof. by rewrite map_map. Qed.

Lemma newline_free_line k v :
  solid_key k → solid_value v → Forall (λ c, Ascii.eqb c "010" = false) (chars (tuning_line (k, v))).
Proof.
  intros (Hk & _) (Hv & _). unfold tuning_line. cbn [fst snd]. rewrite !chars_app, dquoted_chars.
  change (chars "=") with ["="%char]. repeat first [apply Forall_app; split | constructor]; done.
Qed.

(** The text of a tuning reads back as its entries. *)
Lemma parse_tuning_file env :
  NoDup (dkeys env) → (∀ k v, (k, v) ∈ env → solid_key k ∧ solid_value v) → parse_tuning (tuning_file env) = sort_items env.
Proof.
  intros Hnd Henv. unfold parse_tuning, tuning_file, file_lines, split.
  rewrite map_tuning_lines, split_go_lines.
  2:{ apply Forall_forall. intros s ([k v] & -> & [Hk Hv]%sort_items_elem%Henv)%list_elem_of_fmap.
      by apply newline_free_line. }
  rewrite <- (app_nil_l (sort_items env)) at 2. rewrite <- (fold_dset_new (sort_items env) []) by (by apply NoDup_sort_items).
  assert (Hd : ∀ k v, (k, v) ∈ sort_items env → solid_key k ∧ solid_value v).
  { intros k v Hkv. by apply Henv, sort_items_elem. }
  revert Hd. generalize (sort_items env) as d. intros d Hd. transitivity (fold_left add_line (map tuning_line d) []).
  { destruct d as [|kv d]; [reflexivity|]. cbn [map rev app].
    rewrite map_app, !map_map. cbn [fold_left map]. rewrite fold_left_app. cbn [fold_left].
    rewrite str_chars. erewrite map_ext by (intros; apply str_chars). done. }
  generalize (@nil (string * string)) as acc. induction d as [|[k v] d IH]; intros acc; [done|]. cbn [map fold_left].
  destruct (Hd k v ltac:(by left)) as [Hk Hv]. rewrite add_tuning_line by done. apply IH. intros. apply Hd. by right.
Qed.

(** The keys that are parsed are keys that can be written. *)
Lemma parsed_key line k v :
  Forall (λ c, Ascii.eqb c "010" = false) (chars line) → startswith (py_strip line) "#" = false →
  split1 "=" (py_strip line) = Some (k, v) → solid_key (py_strip k).
Proof.
  intros Hline Hh Hsp. unfold split1 in Hsp. destruct (split1_go _ _ _) as [[k' v']|] eqn:Hgo; [|done].
  injection Hsp as <- <-. apply split1_go_inv in Hgo as (z & Hz & Hl & Hne). simpl in Hz. subst k'.
  assert (Hsub : ∀ c, c ∈ chars (py_strip (str z)) → c ∈ z).
  { intros c Hc%py_strip_subset. by rewrite chars_str in Hc. }
  assert (Hnl : ∀ c, c ∈ z → Ascii.eqb c "010" = false).
  { intros c Hc. eapply Forall_forall in Hline; [exact Hline|]. apply py_strip_subset. rewrite Hl. set_solver. }
  assert (Hsolid : head_solid (chars (py_strip line))) by (rewrite py_strip_chars; apply strip_ends).
  split_and!; [| |apply py_strip_idem|].
  - apply Forall_forall. auto.
  - apply Forall_forall. intros c Hc%Hsub. by eapply Forall_forall in Hne.
  - unfold startswith in *. rewrite py_strip_chars, chars_str. rewrite Hl in *.
    destruct z as [|c z]; [done|]. simpl in Hsolid, Hh.
    unfold strip_chars. rewrite (lstrip_solid (c :: z)) by done.
    change (c :: z) with ([] ++ c :: z). fold (rstrip_chars ([] ++ c :: z)).
    rewrite rstrip_app_solid by done. simpl. simpl in Hh. by destruct z.
Qed.

Definition keys_fine env : Prop := NoDup (dkeys env) ∧ Forall solid_key (dkeys env).

Lemma dset_keys_fine env k v : keys_fine env → solid_key k → keys_fine (dset env k v).
Proof.
  intros [Hnd Hk] Hs. split; [by apply NoDup_dset|]. apply Forall_forall. intros k' [->|Hin]%dkeys_dset; [done|].
  by eapply Forall_forall in Hk.
Qed.

Lemma add_line_keys env line :
  Forall (λ c, Ascii.eqb c "010" = false) (chars line) → keys_fine env → keys_fine (add_line env line).
Proof.
  intros Hline He. unfold add_line. destruct (_ || _) eqn:Hc; [done|]. apply orb_false_iff in Hc as [_ Hh].
  destruct (split1 _ _) as [[k v]|] eqn:Hs; [|done]. apply dset_keys_fine; [done|]. by eapply parsed_key.
Qed.

Lemma split_go_free sep l cur :
  Forall (λ c, Ascii.eqb c sep = false) cur → Forall (Forall (λ c, Ascii.eqb c sep = false)) (split_go sep cur l).
Proof.
  revert cur. induction l as [|c l IH]; intros cur Hc; simpl; [by repeat constructor; apply Forall_rev|].
  destruct (Ascii.eqb c sep) eqn:Hs; [constructor; [by apply Forall_rev|by apply IH]|apply IH; by constructor].
Qed.

Lemma parse_tuning_keys t : keys_fine (parse_tuning t).
Proof.
  unfold parse_tuning, file_lines, split. pose proof (split_go_free "010" (chars t) [] (Forall_nil_2 _)) as Hls.
  assert (H0 : keys_fine []) by (by split; constructor). revert H0. generalize (@nil (string * string)) as env.
  induction Hls as [|l ls Hl _ IH]; intros env He; simpl; [done|]. apply IH, add_line_keys; [|done]. by rewrite chars_str.
Qed.

Lemma pretty_solid (z : Z) : solid_value (pretty z).
Proof.
  destruct (pretty_chars z) as [Hc _].
  assert (Hno : ∀ c x, number_char c → ¬ number_char x → c ≠ x) by (intros c x H1 H2 ->; done).
  assert (Hq : ¬ number_char quote1 ∧ ¬ number_char quote2 ∧ ¬ number_char "010") by (split_and!; (intros [H|H]; [by apply H|done])).
  destruct Hq as (Hq1 & Hq2 & Hn). split_and!.
  - eapply Forall_impl; [exact Hc|]. intros c H. apply Ascii.eqb_neq. by apply Hno.
  - destruct (chars (pretty z)) as [|c l]; [done|]. apply Forall_cons in Hc as [Hc _]. split; by apply Hno.
  - apply Forall_rev in Hc. destruct (rev (chars (pretty z))) as [|c l]; [done|].
    apply Forall_cons in Hc as [Hc _]. split; by apply Hno.
Qed.

Lemma parse_pretty (z : Z) : parse_int (pretty z) = Some z.
Proof.
  pose proof (parse_int_pretty z EmptyString (Forall_nil_2 _)) as Hp.
  assert (Happ : (pretty z ++ "")%string = pretty z) by (apply chars_inj; by rewrite chars_app, app_nil_r).
  by rewrite Happ in Hp.
Qed.

Definition given (body : dict json) (f : string) : json := default JNull (dget body f).
Definition is_given (body : dict json) (f : string) : bool := negb (is_null (given body f)).

Lemma validate_fields_cons body f k range rest updates :
  validate_fields body ((f, (k, range)) :: rest) updates =
  if is_given body f then
    match to_int (given body f) with
    | Ok z => if in_tuning_range f range z then validate_fields body rest (dset updates k (pretty z)) else None
    | Raise _ => None
    end
  else validate_fields body rest updates.
Proof. simpl. unfold is_given, given. by destruct (default JNull (dget body f)). Qed.

(** What the fields of the body do to the updates. *)
Definition field_done (body : dict json) (fields : list (string * (string * (Z * Z)))) updates updates' : Prop :=
  (∀ f k range, (f, (k, range)) ∈ fields →
     (is_given body f = false ∧ dget updates' k = dget updates k) ∨
     (∃ z, to_int (given body f) = Ok z ∧ in_tuning_range f range z = true ∧ dget updates' k = Some (pretty z))) ∧
  (∀ k, k ∉ map (λ f, f.2.1) fields → dget updates' k = dget updates k).

Lemma validate_fields_done body fields updates updates' :
  NoDup (map (λ f, f.2.1) fields) → validate_fields body fields updates = Some updates' →
  field_done body fields updates updates'.
Proof.
  revert updates. induction fields as [|[f [k range]] fields IH]; intros updates Hnd.
  { intros [= ->]. split; [set_solver|done]. }
  apply NoDup_cons in Hnd as [Hk Hnd]. rewrite validate_fields_cons.
  assert (Hne : ∀ f' k' range', (f', (k', range')) ∈ fields → k ≠ k').
  { intros f' k' r' Hin ->. apply Hk. apply list_elem_of_fmap. by exists (f', (k', r')). }
  destruct (is_given body f) eqn:Hb.
  2:{ intros [H1 H2]%IH; [|done]. split; [|set_solver].
    intros f' k' r' [[= -> -> ->]|Hin]%elem_of_cons; [left; by rewrite H2|by eapply H1]. }
  destruct (to_int _) as [z|] eqn:Hz; [|done]. destruct (in_tuning_range _ _ _) eqn:Hr; [|done].
  intros [H1 H2]%IH; [|done]. split.
  - intros f' k' r' [[= -> -> ->]|Hin]%elem_of_cons.
    + right. exists z. by rewrite H2, dget_dset_eq.
    + destruct (H1 _ _ _ Hin) as [[Hg Hd]|?]; [left|by right].
      rewrite Hd, dget_dset_ne by (by eapply Hne). done.
  - intros k' Hk'. cbn [map fst snd] in Hk'. apply not_elem_of_cons in Hk' as [Hkk Hk'].
    rewrite H2, dget_dset_ne by done. done.
Qed.

(** The updates are values that can be written, under the keys of the fields. *)
Lemma validate_fields_solid body fields updates updates' :
  validate_fields body fields updates = Some updates' →
  Forall (λ f, solid_key f.2.1) fields → keys_fine updates → Forall (λ kv, solid_value kv.2) updates →
  keys_fine updates' ∧ Forall (λ kv, solid_value kv.2) updates'.
Proof.
  revert updates. induction fields as [|[f [k range]] fields IH]; intros updates Hv Hf Hk Hs; [naive_solver|].
  rewrite validate_fields_cons in Hv. apply Forall_cons in Hf as [Hkey Hf].
  destruct (is_given body f); [|by eapply IH].
  destruct (to_int _) as [z|]; [|done]. destruct (in_tuning_range _ _ _); [|done].
  eapply IH; [exact Hv|done|by apply dset_keys_fine|].
  apply Forall_forall. intros kv [->|Hin]%dset_elem; [apply pretty_solid|by eapply Forall_forall in Hs].
Qed.

Lemma tuning_keys : NoDup (map (λ f, f.2.1) TUNING) ∧ Forall (λ f, solid_key f.2.1) TUNING.
Proof.
  split; [by apply (bool_decide_unpack _); vm_compute|].
  repeat constructor; by vm_compute.
Qed.

Lemma validate_tuning_fields body updates :
  validate_tuning body = Some updates → validate_fields body TUNING [] = Some updates.
Proof. unfold validate_tuning. by destruct (validate_fields _ _ _) as [[]|]. Qed.

Context {E : AgentEnv}.

Lemma write_tuning_ok sensor updates a :
  (∀ n, agent_fault n = false) →
  write_tuning sensor updates a =
  (Ok tt, mkAgent (S (S (S (ag_tick a))))
            (dset (ag_tunings a) sensor (tuning_file (merge_dict (read_tuning_env sensor a) updates))) (ag_ran a) (ag_asked a)).
Proof.
  intros Hf. unfold write_tuning, agent_sys, agent_tick, mbind, M_bind, get, modify, mret, M_ret. cbn.
  by rewrite !Hf.
Qed.

Lemma stream_ctl_tunings verb sensor a : ag_tunings (stream_ctl verb sensor a).2 = ag_tunings a.
Proof.
  unfold stream_ctl, node_run, agent_tick, mbind, M_bind, get, modify, mret, M_ret. cbn.
  by destruct (node_answers (ag_tick a) _).
Qed.

(** A sensor's tuning that is posted with the token is written, whatever the restart does. *)
Lemma post_tuning_writes r a body updates :
  rq_method r = POST → rq_path r = "/tuning"%string → authed r = true → mem_str (sensor_of r) SENSORS = true →
  rq_body r = Ok (JObj body) → validate_tuning body = Some updates → (∀ n, agent_fault n = false) →
  ag_tunings (handle r a).2 =
  dset (ag_tunings a) (sensor_of r) (tuning_file (merge_dict (read_tuning_env (sensor_of r) a) updates)).
Proof.
  intros Hm Hp Ha Hs Hb Hv Hf. unfold handle, do_POST, post_tuning, for_sensor. rewrite Hm, Hp, Ha, Hs, Hb. cbn [negb].
  rewrite String.eqb_refl, Hv. unfold failed_reply, try_except.
  unfold mbind, M_bind. rewrite write_tuning_ok by done. set (a1 := mkAgent _ _ _ _).
  pose proof (stream_ctl_tunings "restart" (sensor_of r) a1) as Ht.
  destruct (stream_ctl _ _ a1) as [[[ok err]|e] a2]; cbn in *; [done|].
  by repeat case_match.
Qed.

Lemma merge_entries env updates k v :
  keys_fine env → keys_fine updates → Forall (λ kv, solid_value kv.2) updates →
  (∀ k v, dget env k = Some v → solid_value v) →
  (k, v) ∈ merge_dict env updates → solid_key k ∧ solid_value v.
Proof.
  intros He Hu Hs Hv Hin.
  assert (Hm : keys_fine (merge_dict env updates)).
  { unfold merge_dict. clear Hin Hs Hv. destruct Hu as [_ Hk]. revert env He.
    induction updates as [|[k' v'] updates IH]; intros env He; simpl; [done|].
    apply Forall_cons in Hk as [Hk' Hk]. apply IH; [exact Hk|]. by apply dset_keys_fine. }
  split.
  - destruct Hm as [_ Hm]. eapply Forall_forall in Hm; [exact Hm|]. apply list_elem_of_fmap. by exists (k, v).
  - apply dget_NoDup in Hin; [|apply Hm]. rewrite dget_merge_dict in Hin by apply Hu.
    destruct (dget updates k) eqn:Hk; [|by eapply Hv]. simplify_eq.
    apply dget_elem in Hk. rewrite Forall_forall in Hs. exact (Hs _ Hk).
Qed.

(** A valid tuning that is posted with the token reads back: every field that is given has
    its number, the other entries of the sensor's file keep their values (when none of them
    begins or ends with a quote), and no other sensor's file is touched. *)
Theorem tuning_reads_back r a body updates :
  rq_method r = POST → rq_path r = "/tuning"%string → authed r = true → mem_str (sensor_of r) SENSORS = true →
  rq_body r = Ok (JObj body) → validate_tuning body = Some updates → (∀ n, agent_fault n = false) →
  (∀ k v, dget (read_tuning_env (sensor_of r) a) k = Some v → solid_value v) →
  let a' := (handle r a).2 in
  (∀ f k range, (f, (k, range)) ∈ TUNING →
     if is_given body f
     then ∃ z, to_int (given body f) = Ok z ∧ in_tuning_range f range z = true ∧
               ∀ d, int_or (read_tuning_env (sensor_of r) a') k d = z
     else dget (read_tuning_env (sensor_of r) a') k = dget (read_tuning_env (sensor_of r) a) k) ∧
  (∀ k, k ∉ map (λ f, f.2.1) TUNING →
     dget (read_tuning_env (sensor_of r) a') k = dget (read_tuning_env (sensor_of r) a) k) ∧
  (∀ s, s ≠ sensor_of r → dget (ag_tunings a') s = dget (ag_tunings a) s).
Proof.
  intros Hm Hp Ha Hs Hb Hv Hf Hold a'. pose proof (validate_tuning_fields _ _ Hv) as Hv'.
  destruct tuning_keys as [Hnd Hkeys].
  destruct (validate_fields_solid _ _ _ _ Hv' Hkeys) as [Hku Hsu]; [by split; constructor|constructor|].
  destruct (validate_fields_done _ _ _ _ Hnd Hv') as [Hgiven Hother].
  assert (Ht : ag_tunings a' = dset (ag_tunings a) (sensor_of r)
                 (tuning_file (merge_dict (read_tuning_env (sensor_of r) a) updates))) by (by eapply post_tuning_writes).
  assert (Hkeep : keys_fine (read_tuning_env (sensor_of r) a)).
  { unfold read_tuning_env. destruct (dget _ _); [apply parse_tuning_keys|by split; constructor]. }
  assert (Hread : ∀ k, dget (read_tuning_env (sensor_of r) a') k =
            match dget updates k with Some v => Some v | None => dget (read_tuning_env (sensor_of r) a) k end).
  { intros k. unfold read_tuning_env at 1. rewrite Ht, dget_dset_eq, parse_tuning_file.
    - by rewrite dget_sort_items, dget_merge_dict by apply Hku.
    - apply merge_dict_keys, Hkeep.
    - intros k' v' Hin. exact (merge_entries _ _ _ _ Hkeep Hku Hsu Hold Hin). }
  split_and!.
  - intros f k range Hin. destruct (Hgiven f k range Hin) as [[Hg Hu]|(z & Hg & Hr & Hu)].
    + by rewrite Hg, Hread, Hu.
    + assert (is_given body f = true) as ->.
      { unfold is_given. destruct (given body f); done. }
      exists z. split_and!; [done..|]. intros d. unfold int_or. by rewrite Hread, Hu, parse_pretty.
  - intros k Hk. by rewrite Hread, Hother.
  - intros s Hsr. by rewrite Ht, dget_dset_ne.
Qed.
End tuning.

(** ** A node *)
#[local] Instance sample_node : AgentEnv := {|
  TOKEN := "t0ken"; BIND := "0.0.0.0"; PROBE := "/usr/local/bin/realsense_probe_cli.py";
  agent_fault := fun _ => false;
  node_answers := fun _ _ => NodeExit 0 TxEmpty EmptyString;
  mux_answers := fun _ _ _ => MuxDown "refused";
  bundle_version_file := fun _ => Some "BUNDLE_VERSION=12";
|}%string.

Definition node_start : Agent :=
  mkAgent 0 [("color", "WIDTH=" ++ dquoted "640" ++ String "010" ("EXTRA=" ++ dquoted "a b"))]%string [] [].
Definition tuning_request (token : option string) : request :=
  mkRequest POST "/tuning" [("sensor", "color")]%string token
    (Ok (JObj [("fps", JInt 30); ("rotation", JStr "90"); ("width", JNull)]%string)).

Lemma agent_gate_witness :
  serves = true ∧ inert node_start (run_requests [tuning_request (Some "guess"%string); tuning_request None] node_start) ∧
  ag_ran (run_requests [tuning_request (Some TOKEN)] node_start) = [["systemctl"; "restart"; "rs-stream@color.service"]]%string.
Proof.
  split; [done|]. split; [|by vm_compute]. apply agent_gate; [done..|]. repeat constructor; done.
Defined.

Lemma tuning_reads_back_witness :
  (∀ d, int_or (read_tuning_env "color" (handle (tuning_request (Some TOKEN)) node_start).2) "ROTATION" d = 90) ∧
  dget (read_tuning_env "color" (handle (tuning_request (Some TOKEN)) node_start).2) "EXTRA" = Some "a b"%string.
Proof.
  destruct (tuning_reads_back (tuning_request (Some TOKEN)) node_start
    [("fps", JInt 30); ("rotation", JStr "90"); ("width", JNull)]%string
    [("FPS", "30"); ("ROTATION", "90")]%string) as (H1 & H2 & _); [done|done|done|done|done|done|done| |].
  - intros k v Hd. assert (Hin : (k, v) ∈ read_tuning_env "color" node_start) by (by apply dget_elem).
    vm_compute in Hin. repeat (apply elem_of_cons in Hin as [[= -> ->]|Hin]); [| |by apply not_elem_of_nil in Hin];
      (split_and!; [repeat constructor|done..]).
  - split.
    + destruct (H1 "rotation" "ROTATION" (0, 270))%string as (z & Hz & _ & Hd); [set_solver|].
      vm_compute in Hz. injection Hz as <-. exact Hd.
    + etrans; [apply (H2 "EXTRA"%string); vm_compute; set_solver|done].
Defined.
